(* ===== verification/_CoqProject ===== *)
-Q . S2P
Prelude.v
PyStr.v
PyDecimal.v
PyFloat.v
PyRepr.v
PyDecOps.v
Models.v
Sizing.v
Trailing.v
Decision.v
Normalize.v
Db.v
PyJson.v
Repo.v
RepoFacts.v
Throttle.v
Routing.v
Protocol.v
Outbox.v
Wire.v
WireFacts.v
Symbols.v
OutboxFacts.v
OutboxTypes.v
Dispatch.v
DispatchFacts.v
Service.v
ServiceFacts.v
Reconcile.v
ReconcileFacts.v
Ingress.v
IngressFacts.v
Deals.v
Mt5Db.v
Registry.v
Bridge.v
BridgeDemo.v
BridgeFacts.v
BridgeFrame.v
BridgeRuns.v
BridgeFollower.v
Prog.v
Lane.v
History.v
Operator.v
OperatorFacts.v
KillSwitch.v
KillSwitchFacts.v
Limiter.v
PortalLedger.v
Mpin.v
PortalDb.v
PortalCommon.v
PortalInvestor.v
PortalAdmin.v
PortalBooks.v
PortalSim.v
PortalFacts.v
PortalRuns.v
PortalConfine.v
Alerts.v
AlertsFacts.v
Owners.v
Webhook.v
WebhookDemo.v
WebhookRuns.v
WebhookFacts.v
WebhookSettings.v
Writer.v
WriterFacts.v
WriterRuns.v
Client.v
ClientFacts.v
ClientReauth.v
Backfill.v
Session.v
Members.v
SessionFacts.v
SessionRuns.v
MembersFacts.v
