(* ===== verification/Prelude.v ===== *)
(** * Verification of the forex copy-trading system

    ** The program

    The system copies the trades of a master account to follower (slave)
    accounts, on two platforms.  A cTrader account pushes execution events; an
    MT5 terminal polls the server with a report of its book, its deals and the
    acknowledgements of the commands it was given.  Both end in the same
    domain events, and the same decision core turns an event into intents:

      cTrader execution event -> [normalize] -+
                                              +-> [decide] -> [dispatch] -> send (cTrader)
      MT5 report -> [master_events_from_report]                 |      \-> outbox (MT5)
                                                           mapping table

    The followers' own events (fills, closes, rejections, acknowledgements)
    come back through the same service and move the mapping rows: pending,
    active, closed or failed.  A reconciler compares the brokers' books with
    the mapping table and reports drift; the operator may close, adopt or
    dismiss an item.  Accounts belong to organisations (orgs): one master and
    many slaves each, with a kill switch and a dry-run flag per org.

    Beside the copier runs a web API.  Its client portal keeps the money of an
    org's investors: a ledger of wallet entries, deposits, withdrawals and
    transfers as requests that the desk (the org's admins) decides, bonuses
    paid by rules, and trading accounts linked to investors.  Its alert receiver
    turns TradingView messages into orders of an org's master, through the copier.
    Users sign in with a password and an MPIN; invites make them members of orgs.

    Around the engine the copier has a client for the broker's connections, a
    writer that puts rows into the database in the background, and a backfill that
    fetches the deals of past years.

    The copier's sources are under src/copier/src/copier, those of the web API
    under src/api/src/api (named api/... below).

    ** The files

    Ground (Python and its standard library; nothing of the program):
    - [Prelude]: exceptions, the result and state-and-exception monads, frame
      lemmas ([respects]), tactics and hints, insertion-ordered dicts, sums.
    - [PyStr]: string operations, [int(s)], [repr].
    - [PyDecimal]: [decimal.Decimal] at the default context (28 digits, ties
      to even), as coefficient and exponent.
    - [PyFloat]: IEEE doubles by the Standard Library's [SpecFloat], with
      [round], [math.floor], [isclose] and int division.
    - [PyRepr], [PyJson]: [repr] and [float] of doubles with their round trip,
      [str] and [repr] of JSON values.
    - [PyDecOps]: what a decimal stands for ([is_dec], [has_cents]) and the
      exactness of its operations within 28 digits.
    - [Prog]: requests as resumptions, one atomic statement at a time; pools of
      them under any schedule, concurrent children ([gather]); a rely-guarantee
      logic ([wp], [safe]), what a program does itself among any others ([makes])
      and what it leaves behind ([under]).  [Owners]: a second logic, for requests
      that own the rows they wrote.

    The program, in the order in which the parts build on each other:
    - [Models] (domain/models.py): symbols, slave configurations, master
      events, slave intents; the protocol [MappingState] is a type class.
    - [Sizing] (domain/sizing.py), [Trailing] (domain/trailing.py): volumes and
      trailing stops.
    - [Decision] (domain/decision.py): [decide], against any [MappingState].
    - [Normalize] (engine/normalize.py): execution events to master events.
    - [Db], [Repo], [RepoFacts] (db/repo.py and the tables of db/migrations):
      the database as a record of tables, one definition per repository
      method; the repository is the [MappingState] the engine runs with.
    - [Throttle] (engine/throttle.py): the token bucket, over an abstract
      number type with a double and a rational instance.
    - [Routing] (engine/routing.py): the routing table and its TTL cache.
    - [Protocol], [Wire], [WireFacts] (mt5/protocol.py): the records, lot
      conversions, the parsing of reports and the text of responses; [Outbox],
      [OutboxFacts], [OutboxTypes] (mt5/outbox.py): commands for
      MT5 terminals, their life cycle, and that each has a command line.
    - [Dispatch], [DispatchFacts] (engine/dispatch.py): from intents to
      requests, with gates, mapping rows, retries and failure handling.  A send
      is a task in the engine's list; its end ([settle_send]) is a step.
    - [Service], [ServiceFacts] (engine/service.py): the event handlers, the
      memory of master protection levels, the risk-engine hook.
    - [Reconcile], [ReconcileFacts] (engine/reconcile.py): the six drift
      checks, the reconciler and its remedies.
    - [Ingress], [IngressFacts] (mt5/ingress.py, with the persistence step of
      main.py and the loading step of mt5/registry.py): the ledger of a netting
      master's virtual positions, and the events of a report.
    - [Symbols] (mt5/symbols.py): names, ids and aliases of a terminal's symbols;
      [Deals] (mt5/deals.py): deal rows and their balance estimates; [Mt5Db] (the
      bridge's tables of db/repo.py); [Registry]
      (mt5/registry.py): what every terminal last reported.  Its state
      [CopierApp] is the application: the copier service, the bridge's tables
      and the parts of main.py's memory that the bridge touches.
    - [Bridge] (main.py, the MT5 section): a terminal's hello and sync, status and
      the offline check.  [BridgeDemo] runs a desk on it; [BridgeFacts] has the
      shape of a sync, [BridgeFrame], [BridgeRuns] and [BridgeFollower] what it
      may touch, how often a deal counts and what a follower can cause.
    - [Lane] (mt5/lane.py): operator actions on an MT5 account and its flatten;
      [History]: its history pages, with the queries of db/repo.py they read.
    - [Operator], [OperatorFacts] (main.py): orders, closes, amendments and
      cancellations by hand, pausing, dry run.  [KillSwitch], [KillSwitchFacts]
      (main.py): [close_all], a program that flattens an org's accounts
      concurrently while the web API writes the org's settings.
    - [Limiter] (LoginRateLimiter of api/auth.py): the sliding-window limiter.
    - [Mpin] (api/mpin_core.py): the second factor of the web API.  A request
      is a thread whose steps are its SQL statements.
    - [PortalLedger] (api/portal_ledger.py): amounts, fees, balances, holds,
      state machines of requests.  [PortalDb] (the portal's tables of
      db/migrations and the ledger part of api/portal_common.py), [PortalCommon]
      (the rest of api/portal_common.py, api/rbac.py): figures, settlement,
      bonuses, roles, the MPIN gate.  [PortalInvestor]
      (api/routes/portal_investor.py) and [PortalAdmin]
      (api/routes/portal_admin.py, portal_bonus.py and the removal of an account
      in mt5.py): one program per route.
    - [PortalBooks]: the abstract specification, books of money with their
      moves, and what the moves keep.  [PortalSim]: every block of the portal
      makes only such moves.  [PortalFacts]: every route does, among any others.
      [PortalRuns], [PortalConfine]: the theorems on runs of the portal.
    - [Alerts], [AlertsFacts] (api/tradingview_alerts.py, api/vt_bridge_alerts.py):
      what an alert must say, the symbol it names, the gate of the bridge.
      [Webhook] (api/routes/webhooks.py, api/netaddr.py): a request of the alert
      receiver as a program; [WebhookDemo] a workspace to try it on; [WebhookRuns]
      its theorems among other requests, [WebhookFacts] those on one request;
      [WebhookSettings] the operator's routes of the same file.
    - [Writer] (db/writer.py): the queue, the batches and the thread step by step;
      [WriterFacts]: a batch is its rows one by one; [WriterRuns]: every row is
      accounted for, also at shutdown.
    - [Client] (ctrader/client.py, with send_for_account and _authorize_one of
      main.py): connections, authorizations, the hand-over of trade requests;
      [ClientFacts]: what is written where; [ClientReauth]: the loop after a
      reconnect.
    - [Backfill] (engine/backfill.py, with the tick of main.py): the windows of a
      history, the bisection, the rotating cursor, and its theorems.
    - [Session] (api/auth.py, api/routes/mpin.py, the sockets of api/ws.py): users,
      cookies, the MPIN routes, on the tables of [PortalDb]; [Members]
      (api/routes/orgs.py, the handshake of api/ws.py): orgs, members, invites, and
      [serve], a request of this part from the CSRF check on, and a workspace to try
      it on.  [SessionFacts], [SessionRuns]: the theorems on sessions; [MembersFacts] those
      on memberships.

    Python methods are definitions of the same name.  State is explicit: [db]
    for the repository, [engine] (database and pending sends) for the
    dispatcher, [service] and [reconciler] around it; a method that may raise
    or write is a computation [M state result].  Objects that the program
    shares and mutates (the ledger's virtual positions) live in a store.

    ** What the theorems show

    - Sizing: a copy's volume is the exact mirrored volume floored to the step,
      although the code goes through rounded decimals, for lot sizes that are
      powers of ten and volumes in range; a proportional close is the exact share
      and never more than is held.
    - Decisions: the enabled slaves and nobody else are served, each with exactly
      the intents its mapped copies call for; the normalizer is its table.
    - Mappings: the table invariant is kept by every operation, an account's
      operation never touches another account's rows, and a close on a shared
      ticket is taken from the copies oldest first, conserving volume.
    - Dispatch: kill switch and dry run hold, one intent's failure does not stop
      the rest, everything written carries the org, an order is sent only after
      its mapping exists, and the retry ladder ends within four attempts of each
      request, of which only those reported as not made are repeated.
    - Service: an event changes its own org only, the callback never raises, a
      slave's event never copies, a new copy gets its master's protection.
    - Outbox: client order ids are injective, a command's status moves forward
      only and its delivery count, at most three, is the number of polls that
      handed it out; acknowledgements are idempotent; a command made from an
      intent that is ready ([intent_ready]) is well typed and can be polled.
    - Operator actions: a manual order passes every guard or trades nothing, and
      what goes out is the order asked for, in the account's own symbol terms.
    - Kill switch: it only closes, on its own org; if nobody else writes the
      org's settings it ends with copying as it was, and a later write is never
      overwritten; its figures are those of the last look at the book, and no
      ticket gets a second command.
    - Ingress: a deal opens and closes exactly its volume, oldest first, and
      the rows persisted after a report rebuild the ledger.
    - MT5 bridge: a sync stays in its org and its account, a deal is acted on at
      most once over any run of calls, each sync acting on exactly its own share,
      and a follower's sync never copies.
    - Reconciliation: no drift is reported exactly when the books agree in the six
      respects compared ([in_sync], read off the data), the reported excess is the
      exact correction, a pass only reports, dismissals survive a restart, and
      closing an orphan trades that position only.
    - Throttle: service in order, with nobody lost, on any numbers; the rate bound
      on exact numbers, which the rounding of doubles exceeds by its own error
      ([rounding_grants_early]).
    - Routing, trailing: snapshot freshness also when the clock steps back, and
      stops that only tighten.
    - MPIN: however many requests guess at once, six wrong tries take at least
      the lock time, less the clocks' difference and a request's latency.
    - MT5 protocol: the terminal reads back what the server wrote.
    - Limiter: no more than its limit per key in any window.
    - Client portal, for any set of requests under any schedule of their
      statements: the money tables change only by the moves of [PortalBooks];
      the figures are exact and wallets solvent; ledger and requests agree;
      history only moves on; bonus credit coming in and money going out of an
      account exclude each other; rules pay once and payments are claimed once;
      an investor's request leaves the others' rows; a wrong role or MPIN
      changes nothing; every request answers within twelve turns.
    - Alert receiver: no trade is made twice however alerts and resends
      interleave, an order that may be live is answered 200, behind a closed door
      nothing is traded, every order is on the account of its own workspace's master
      and within the cap of its own mailbox,
      settings stay in bounds, secrets are scrubbed, and a symbol is read the same
      however it is decorated.
    - Writer: every row that was submitted is written, dropped with a report, or
      still queued, in every run; one transaction for a batch is the same as its
      rows in order when its table takes each row and a key's rows have one set of
      columns, and a failed one changes nothing; after the stop flag the thread ends within five steps.
    - Client: a trade request is only written on a connection on which the broker
      granted its account; what is reported as not attempted was not written; the
      re-authorization reaches every account that stays.
    - Backfill: between the two watermarks of an account every deal was handed to
      the background writer or reported as unreachable (what the writer refuses or
      gives up is lost, [rows_written_or_refused]), and with enough ticks every
      account's older watermark comes to its bound.
    - Sessions: a full session is only issued on a live cookie and a second factor
      ([second_factor]); a session that was disowned opens nothing any more.
    - Members: an org keeps an admin, and who comes in presented an open invite.
    - Limits of the code, as theorems: [aliased_book_is_not_seen],
      [half_closed_answers_503], [tiny_cap_is_not_refused], [secrets_left], [other_lot_sizes_lose_a_unit],
      [rounding_grants_early], [rows_written_or_refused], [overflow_is_not_refused], [failed_send_resumes_paused],
      [partial_close_forgets_protection], [protection_crosses_orgs],
      [batched_partial_closes_overclose], [unfilled_order_hidden_by_prefix],
      [stop_before_guard_is_undone], [orderless_cancel_blocks_poll],
      [last_price_lost], [retry_can_double_write], [app_refusal_is_ready],
      [timed_out_authorization_clears_degraded], [raising_transport_is_retried],
      [removal_abandons_the_rest], [stuck_account],
      [raising_the_bound_does_not_resume], [password_alone_takes_over],
      [socket_outlives_sign_out], [two_first_mpins].

    ** Bounds and fuel

    Recursion is structural except in [ndigits] and in stripping trailing zeros
    of a decimal; their fuel is the bit length of the number or its digit count,
    which the lemmas of [PyDecimal] show to be enough.  The token bucket's drain
    recurses on its waiters.  The MPIN check of a request takes five steps, with
    fuel five.  A deal window takes at most 127 requests ([FETCH_FUEL] is 128): the
    code stops splitting after its own limit of fetches.  Theorems on runs of the portal assume fewer than ten to the
    ninth ledger rows, withdrawals and transfers ([small]), so that sums of
    columns fit the 28 digits of a decimal.  Python integers are [Z]; prices are doubles with
    their rounding; the range of protobuf integer fields is not enforced.  Times
    in the database are whole microseconds.

    ** What is not modelled

    - Failures of the database itself, foreign keys, the actor and latency
      columns of events, the columns of execution rows (only that one is
      submitted), and the repository's statistics tables.
    - Broker transport: what an account answers to a reconcile request is a
      parameter of [run], how an attempt ends is a parameter of [settle_send].
    - Callbacks that re-enter the token bucket while it drains.
    - Events that arrive while a reconciliation pass waits for an account.
    - MD5: item ids are an arbitrary function of their parts.
    - Of the portal: timestamps of rows, the words of notifications and the
      details of audit rows, e-mail, the JSON form of answers, file contents,
      and the deletion of users and orgs.  A block that holds an investor's
      advisory lock is one atomic step; its reads of balances and holds are one.  Argon2 and the copier's answer to a
      state request are parameters.
    - Of the bridge: the background writer's delay (a position row is written at
      once), the reactor call that performs a requested resync, log lines, and
      the order in which PostgreSQL returns a symbol cache.
    - Of the operator actions: cTrader clients, what the broker answers, quotes
      and the positions last seen are parameters ([ctrader_view]); the operator's
      name on events, the reload after a pause, the flatten's own token bucket,
      the grace before copying resumes and the second try of a restore.
    - Of the alert receiver: log lines, latency columns and read routes; a
      refused receipt and its event are one step; the copier's answers, sha256 and
      the JSON decoder are parameters; a size is stored as the double it was.
    - Of the writer: the database's answer to an attempt is a parameter; log lines.
    - Of the client: the fan-out of pushed messages to callbacks, the subclasses of
      the SDK and the TLS endpoint; what the transport does with a request is a
      parameter.  Of the backfill: how the broker's deal message becomes a
      [BrokerDeal].
    - Of sessions and members: what the signed serialiser, argon2 and sha256 are
      (parameters), the replay of quotes to a new socket, the order of members in a
      list, and the cascade of a deleted org outside the tables of the model.
      Several workers are allowed: statements of requests interleave freely.
    - Left out altogether: the rest of main.py (wiring, login to the broker, resync,
      trailing checks, balance refresh, discovery of accounts), whose steps call the
      operations above with what the broker's library answers; engine/state.py,
      queries.py, analytics.py, commission.py and capture.py, which read and never
      decide about a trade; engine/control.py and the web API's proxy routes, which
      parse a request and call the operations above; ctrader/tokens.py and
      symbols.py, cryptography and round trips of third parties; the portal's
      identity, file and support routes, forms without effect on money; the event
      feed's loops; the test doubles. *)

From stdpp Require Export base gmap strings list list_numbers pretty sorting.
From Stdlib Require Export ZArith Lia.

#[global] Open Scope Z_scope.

(** ** Exceptions

    The exception classes the modelled code raises or catches.
    [MappingNotFound] subclasses [KeyError]; [ProtocolError] and [LedgerError]
    subclass [ValueError]; the handlers that matter catch them by the
    predicates below.  [DatabaseError] is any error of the database driver but
    the constraint violations that handlers look at. *)
Inductive exn :=
  | ValueError (msg : string)
  | KeyError (msg : string)
  | RuntimeError (msg : string)
  | ZeroDivisionError (msg : string)
  | OverflowError (msg : string)
  | TypeError (msg : string)
  | AttributeError (msg : string)
  | UniqueViolation (constraint key : string)
  | NotNullViolation (column : string)
  | MappingNotFound (msg : string)
  | ProtocolError (msg : string)
  | LedgerError (msg : string)
  | InvalidOperation
  | HTTPException (status_code : Z) (detail : string)
  | DatabaseError (msg : string)
  | QueryFailed (msg : string)
  | AlertError (msg : string)
  | WebhookRejected (status : Z) (reason : string)
  | CopierDown (msg : string)
  | CopierUnknown (msg : string).

#[export] Instance exn_eq_dec : EqDecision exn.
Proof. solve_decision. Defined.

(** [type(e).__name__] *)
Definition exn_name (e : exn) : string :=
  match e with
  | ValueError _ => "ValueError" | KeyError _ => "KeyError" | RuntimeError _ => "RuntimeError"
  | ZeroDivisionError _ => "ZeroDivisionError" | OverflowError _ => "OverflowError"
  | TypeError _ => "TypeError" | AttributeError _ => "AttributeError"
  | UniqueViolation _ _ => "UniqueViolation" | NotNullViolation _ => "NotNullViolation"
  | MappingNotFound _ => "MappingNotFound" | ProtocolError _ => "ProtocolError"
  | LedgerError _ => "LedgerError" | InvalidOperation => "InvalidOperation"
  | HTTPException _ _ => "HTTPException" | DatabaseError _ => "DatabaseError"
  | QueryFailed _ => "QueryFailed" | AlertError _ => "AlertError" | WebhookRejected _ _ => "WebhookRejected"
  | CopierDown _ => "CopierDown" | CopierUnknown _ => "CopierUnknown"
  end.

(** [except ValueError] also catches its subclasses. *)
Definition is_value_error (e : exn) : bool :=
  match e with ValueError _ | ProtocolError _ | LedgerError _ => true | _ => false end.

Definition is_mapping_not_found (e : exn) : bool :=
  match e with MappingNotFound _ => true | _ => false end.

(** ** Results and the exception-state monad

    [result A] is a pure computation that may raise.  [M S A] threads a
    mutable state through code that may raise; as in Python, the writes made
    before the exception stay. *)
Inductive result (A : Type) :=
  | Ok (a : A)
  | Raise (e : exn).
Arguments Ok {A} a.
Arguments Raise {A} e.

Definition rbind {A B} (r : result A) (f : A -> result B) : result B :=
  match r with Ok a => f a | Raise e => Raise e end.

Definition isOk {A} (r : result A) : bool :=
  match r with Ok _ => true | Raise _ => false end.

(** [[f x for x in l]] where [f] may raise: the first exception wins. *)
Fixpoint rmap {A B} (f : A -> result B) (l : list A) : result (list B) :=
  match l with
  | [] => Ok []
  | x :: l' => rbind (f x) (fun y => rbind (rmap f l') (fun ys => Ok (y :: ys)))
  end.

Definition M (S A : Type) : Type := S -> result A * S.

Definition ret {S A} (a : A) : M S A := fun s => (Ok a, s).
Definition raise {S A} (e : exn) : M S A := fun s => (Raise e, s).
Definition bind {S A B} (m : M S A) (f : A -> M S B) : M S B :=
  fun s => match m s with
           | (Ok a, s') => f a s'
           | (Raise e, s') => (Raise e, s')
           end.
Definition gets {S A} (f : S -> A) : M S A := fun s => (Ok (f s), s).
Definition modify {S} (f : S -> S) : M S unit := fun s => (Ok tt, f s).
Definition lift_result {S A} (r : result A) : M S A := fun s => (r, s).

(** [try: m except Exception as e: h e] *)
Definition try_except {S A} (m : M S A) (h : exn -> M S A) : M S A :=
  fun s => match m s with
           | (Ok a, s') => (Ok a, s')
           | (Raise e, s') => h e s'
           end.

(** [try: m finally: f]: [f] runs on both paths; an exception of [f]
    replaces the pending one. *)
Definition try_finally {S A} (m : M S A) (f : M S unit) : M S A :=
  fun s => match m s with
           | (r, s') => match f s' with
                        | (Ok _, s'') => (r, s'')
                        | (Raise e, s'') => (Raise e, s'')
                        end
           end.

(** [for x in l: f x], stopping at the first exception. *)
Fixpoint for_each {S A} (f : A -> M S unit) (l : list A) : M S unit :=
  match l with
  | [] => ret tt
  | x :: l' => bind (f x) (fun _ => for_each f l')
  end.

Definition exec {S A} (m : M S A) (s : S) : S := snd (m s).
Definition value {S A} (m : M S A) (s : S) : result A := fst (m s).

Declare Scope copier_scope.
Delimit Scope copier_scope with copier.
Notation "'let!' x ':=' m 'in' k" := (bind m (fun x => k))
  (at level 10, x pattern, m at level 100, k at level 200) : copier_scope.
Notation "m ';;;' k" := (bind m (fun _ => k))
  (at level 100, k at level 200, right associativity) : copier_scope.
Notation "'let?' x ':=' r 'in' k" := (rbind r (fun x => k))
  (at level 10, x pattern, r at level 100, k at level 200) : copier_scope.
Lemma rbind_ok {A B} (r : result A) (f : A -> result B) b : rbind r f = Ok b -> exists a, r = Ok a /\ f a = Ok b.
Proof. destruct r; simpl; [by eauto|done]. Qed.

#[global] Open Scope copier_scope.

(** ** Tactics and hint database *)

Create HintDb copier.

(** Case on the scrutinee of a [match] or [if] of the goal or of a hypothesis. *)
Ltac dmatch :=
  match goal with
  | |- context [match ?x with _ => _ end] => destruct x eqn:?
  end.
Ltac dmatch_in H :=
  match type of H with
  | context [match ?x with _ => _ end] => destruct x eqn:?
  end.
(** Run through every case split of a handler. *)
Ltac dmatches := repeat (dmatch; simplify_eq/=).

(** Turn the boolean tests of the code into propositions. *)
Ltac bsimp :=
  repeat match goal with
  | H : _ && _ = true |- _ => apply andb_true_iff in H; destruct H
  | H : _ || _ = false |- _ => apply orb_false_iff in H; destruct H
  | H : negb _ = true |- _ => apply negb_true_iff in H
  | H : negb _ = false |- _ => apply negb_false_iff in H
  | H : bool_decide _ = true |- _ => apply bool_decide_eq_true in H
  | H : bool_decide _ = false |- _ => apply bool_decide_eq_false in H
  | H : (_ <=? _) = true |- _ => apply Z.leb_le in H
  | H : (_ <=? _) = false |- _ => apply Z.leb_gt in H
  | H : (_ <? _) = true |- _ => apply Z.ltb_lt in H
  | H : (_ <? _) = false |- _ => apply Z.ltb_ge in H
  | H : (_ =? _) = true |- _ => apply Z.eqb_eq in H
  | H : (_ =? _) = false |- _ => apply Z.eqb_neq in H
  end.

(** ** Monad lemmas *)
Section monad_lemmas.
Context {S : Type}.

Lemma bind_ok {A B} (m : M S A) (f : A -> M S B) s a s' :
  m s = (Ok a, s') -> bind m f s = f a s'.
Proof. unfold bind. by intros ->. Qed.

Lemma bind_raise {A B} (m : M S A) (f : A -> M S B) s e s' :
  m s = (Raise e, s') -> bind m f s = (Raise e, s').
Proof. unfold bind. by intros ->. Qed.

Lemma bind_inv {A B} (m : M S A) (f : A -> M S B) s b s2 :
  bind m f s = (Ok b, s2) -> exists a s1, m s = (Ok a, s1) /\ f a s1 = (Ok b, s2).
Proof. unfold bind. destruct (m s) as [[a|e] s1]; [|done]. by exists a, s1. Qed.

Lemma ret_inv {A} (a a' : A) (s s2 : S) : ret a s = (Ok a', s2) -> a' = a /\ s2 = s.
Proof. unfold ret. by intros [= -> ->]. Qed.
Lemma gets_inv {A} (f : S -> A) (s : S) a s2 : gets f s = (Ok a, s2) -> a = f s /\ s2 = s.
Proof. unfold gets. by intros [= <- ->]. Qed.
Lemma lift_inv {A} (r : result A) (s : S) a s2 : lift_result r s = (Ok a, s2) -> r = Ok a /\ s2 = s.
Proof. unfold lift_result. by intros [= -> ->]. Qed.

(** A relation on states that every step respects holds across a
    computation: the workhorse of the frame and invariant proofs. *)
Definition respects {A} (R : S -> S -> Prop) (m : M S A) : Prop :=
  forall s, R s (exec m s).

Lemma respects_run {A} (R : S -> S -> Prop) (m : M S A) s r s' : respects R m -> m s = (r, s') -> R s s'.
Proof. intros H E. specialize (H s). unfold exec in H. by rewrite E in H. Qed.

Section preorder.
Context (R : S -> S -> Prop) `{!Reflexive R, !Transitive R}.

Lemma respects_ret {A} (a : A) : respects R (ret a).
Proof. intros s. by apply reflexivity. Qed.

Lemma respects_raise {A} (e : exn) : respects (A:=A) R (raise e).
Proof. intros s. by apply reflexivity. Qed.

Lemma respects_gets {A} (f : S -> A) : respects R (gets f).
Proof. intros s. by apply reflexivity. Qed.

Lemma respects_lift {A} (r : result A) : respects R (lift_result r).
Proof. intros s. by apply reflexivity. Qed.

Lemma respects_bind {A B} (m : M S A) (f : A -> M S B) :
  respects R m -> (forall a, respects R (f a)) -> respects R (bind m f).
Proof.
  intros Hm Hf s. specialize (Hm s). unfold exec, bind in *.
  destruct (m s) as [[a|e] s'] eqn:E; simpl in *; [|done].
  etrans; [exact Hm|]. apply (Hf a).
Qed.

Lemma respects_try {A} (m : M S A) (h : exn -> M S A) :
  respects R m -> (forall e, respects R (h e)) -> respects R (try_except m h).
Proof.
  intros Hm Hh s. specialize (Hm s). unfold exec, try_except in *.
  destruct (m s) as [[a|e] s'] eqn:E; simpl in *; [done|].
  etrans; [exact Hm|]. apply (Hh e).
Qed.

Lemma respects_finally {A} (m : M S A) (f : M S unit) :
  respects R m -> respects R f -> respects R (try_finally m f).
Proof.
  intros Hm Hf s. specialize (Hm s). unfold exec, try_finally in *.
  destruct (m s) as [r s'] eqn:E; simpl in *.
  specialize (Hf s'). unfold exec in Hf.
  destruct (f s') as [[u|e] s''] eqn:E'; simpl in *; by etrans.
Qed.

Lemma respects_for_each {A} (f : A -> M S unit) (l : list A) :
  (forall x, x ∈ l -> respects R (f x)) -> respects R (for_each f l).
Proof.
  induction l as [|x l IH]; intros Hf; simpl; [apply respects_ret|].
  apply respects_bind; [apply Hf; set_solver|].
  intros _. apply IH. intros y Hy. apply Hf. set_solver.
Qed.
End preorder.

Lemma respects_modify (R : S -> S -> Prop) (f : S -> S) :
  (forall s, R s (f s)) -> respects R (modify f).
Proof. intros H s. apply H. Qed.
End monad_lemmas.

#[export] Hint Resolve respects_ret respects_raise respects_gets respects_lift
  respects_bind respects_try respects_finally respects_for_each : copier.

(** ** Python dictionaries in insertion order

    A [dict] whose iteration order the code relies on.  Assigning to a
    present key keeps its place; a new key goes to the end. *)
Section odict.
Context {K V : Type} `{!EqDecision K}.

Definition odict : Type := list (K * V).

Fixpoint od_get (k : K) (d : list (K * V)) : option V :=
  match d with
  | [] => None
  | (k', v) :: d' => if decide (k = k') then Some v else od_get k d'
  end.

Fixpoint od_set (k : K) (v : V) (d : list (K * V)) : list (K * V) :=
  match d with
  | [] => [(k, v)]
  | (k', v') :: d' => if decide (k = k') then (k, v) :: d' else (k', v') :: od_set k v d'
  end.

Fixpoint od_pop (k : K) (d : list (K * V)) : list (K * V) :=
  match d with
  | [] => []
  | (k', v') :: d' => if decide (k = k') then d' else (k', v') :: od_pop k d'
  end.

Definition od_keys (d : list (K * V)) : list K := d.*1.
Definition od_mem (k : K) (d : list (K * V)) : bool :=
  match od_get k d with Some _ => true | None => false end.
Definition od_wf (d : list (K * V)) : Prop := NoDup d.*1.

(** [{k: v for ...}]: later entries overwrite the value of earlier ones. *)
Definition od_of_list (l : list (K * V)) : list (K * V) :=
  fold_left (fun d kv => od_set kv.1 kv.2 d) l [].

Lemma od_get_set k k' v d :
  od_get k (od_set k' v d) = if decide (k = k') then Some v else od_get k d.
Proof.
  induction d as [|[k1 v1] d IH]; csimpl; [done|].
  destruct (decide (k' = k1)) as [->|Hne]; csimpl; [by repeat case_decide|].
  repeat case_decide; congruence.
Qed.

Lemma od_keys_set k v d :
  od_keys (od_set k v d) = if od_mem k d then od_keys d else od_keys d ++ [k].
Proof.
  unfold od_keys, od_mem. induction d as [|[k1 v1] d IH]; csimpl; [done|].
  destruct (decide (k = k1)) as [->|Hne]; csimpl; [done|].
  rewrite IH. by destruct (od_get k d).
Qed.

Lemma od_get_None k d : od_get k d = None <-> k ∉ od_keys d.
Proof.
  unfold od_keys. induction d as [|[k1 v1] d IH]; csimpl; [set_solver|].
  case_decide; set_solver.
Qed.

Lemma od_get_Some_in k v d : od_get k d = Some v -> (k, v) ∈ d.
Proof.
  induction d as [|[k1 v1] d IH]; csimpl; [done|].
  case_decide; intros; simplify_eq; set_solver.
Qed.

Lemma od_get_in k v d : od_wf d -> (k, v) ∈ d -> od_get k d = Some v.
Proof.
  unfold od_wf. induction d as [|[k1 v1] d IH]; csimpl; [set_solver|].
  rewrite NoDup_cons. intros [Hnin Hnd] [Heq|Hin]%elem_of_cons.
  - simplify_eq. by rewrite decide_True.
  - rewrite decide_False; [auto|]. intros ->. apply Hnin.
    apply list_elem_of_fmap. by exists (k1, v).
Qed.

Lemma od_wf_set k v d : od_wf d -> od_wf (od_set k v d).
Proof.
  unfold od_wf. intros Hd. pose proof (od_keys_set k v d) as Hk.
  unfold od_keys in Hk. rewrite Hk. clear Hk. destruct (od_mem k d) eqn:E; [done|].
  apply NoDup_app. split; [done|]. split; [|apply NoDup_singleton].
  intros x Hx ->%list_elem_of_singleton. unfold od_mem in E.
  destruct (od_get k d) eqn:E'; [done|]. by apply od_get_None in E'.
Qed.

Lemma od_pop_subseteq k d x : x ∈ od_pop k d -> x ∈ d.
Proof.
  induction d as [|[k1 v1] d IH]; csimpl; [done|]. case_decide; set_solver.
Qed.

Lemma od_wf_pop k d : od_wf d -> od_wf (od_pop k d).
Proof.
  unfold od_wf. induction d as [|[k1 v1] d IH]; csimpl; [done|].
  rewrite NoDup_cons. intros [Hnin Hnd]. case_decide; [done|]. csimpl.
  apply NoDup_cons. split; [|auto].
  rewrite !list_elem_of_fmap in *. intros [y [-> Hy]].
  apply Hnin. exists y. eauto using od_pop_subseteq.
Qed.

Lemma od_get_pop k k' d :
  od_wf d -> od_get k (od_pop k' d) = if decide (k = k') then None else od_get k d.
Proof.
  unfold od_wf. induction d as [|[k1 v1] d IH]; csimpl; [by case_decide|].
  rewrite NoDup_cons. intros [Hnin Hnd].
  destruct (decide (k' = k1)) as [->|Hne]; csimpl.
  - destruct (decide (k = k1)) as [->|]; [|done]. by apply od_get_None.
  - rewrite IH by done. repeat case_decide; congruence.
Qed.

Lemma length_od_set k v d :
  length (od_set k v d) = if od_mem k d then length d else S (length d).
Proof.
  unfold od_mem. induction d as [|[k1 v1] d IH]; csimpl; [done|].
  case_decide; csimpl; [done|]. rewrite IH. by destruct (od_get k d).
Qed.

Lemma length_od_pop k d : (length (od_pop k d) <= length d)%nat.
Proof. induction d as [|[k1 v1] d IH]; csimpl; [lia|]. case_decide; csimpl; lia. Qed.

Lemma od_wf_of_list l : od_wf (od_of_list l).
Proof.
  unfold od_of_list. assert (od_wf []) as H by apply NoDup_nil_2.
  revert H. generalize (@nil (K * V)). induction l as [|kv l IH]; intros d Hd; csimpl; [done|].
  apply IH. by apply od_wf_set.
Qed.
End odict.

#[export] Hint Resolve od_wf_set od_wf_pop od_wf_of_list : copier.

(** *** Dictionaries built from lists *)

Lemma od_of_list_keys {K V} `{!EqDecision K} (l : list (K * V)) k :
  k ∈ od_keys (od_of_list l) <-> k ∈ l.*1.
Proof.
  unfold od_of_list.
  assert (forall d, k ∈ od_keys (fold_left (fun d kv => od_set kv.1 kv.2 d) l d)
                    <-> k ∈ od_keys d \/ k ∈ l.*1) as H.
  { induction l as [|[k' v] l IH]; intros d; csimpl; [set_solver|].
    rewrite IH, od_keys_set. unfold od_mem. destruct (od_get k' d) eqn:E; [|set_solver].
    assert (k' ∈ od_keys d); [|set_solver].
    destruct (decide (k' ∈ od_keys d)); [done|]. apply od_get_None in n. congruence. }
  rewrite H. set_solver.
Qed.

Lemma od_of_list_get {K V} `{!EqDecision K} (l : list (K * V)) k v :
  od_get k (od_of_list l) = Some v -> (k, v) ∈ l.
Proof.
  unfold od_of_list.
  assert (forall d, od_get k (fold_left (fun d kv => od_set kv.1 kv.2 d) l d) = Some v ->
                    od_get k d = Some v \/ (k, v) ∈ l) as H.
  { induction l as [|[k' v'] l IH]; intros d; csimpl; [by left|].
    intros [H|H]%IH; [|set_solver]. rewrite od_get_set in H. case_decide; [|by left].
    simplify_eq. set_solver. }
  intros [?|?]%H; [done|set_solver].
Qed.

(** ** Loops that may raise *)

Lemma rmap_Forall2 {A B} (f : A -> result B) l out :
  rmap f l = Ok out <-> Forall2 (fun x y => f x = Ok y) l out.
Proof.
  revert out. induction l as [|x l IH]; intros out; simpl.
  - split; [intros; simplify_eq; constructor|]. by inversion 1.
  - split.
    + destruct (f x) eqn:E; simpl; [|done]. destruct (rmap f l) eqn:E'; simpl; [|done].
      intros; simplify_eq. constructor; [done|]. by apply IH.
    + inversion 1 as [|?? ? ? Hx Hl]; subst. rewrite Hx. simpl.
      apply IH in Hl. by rewrite Hl.
Qed.

Lemma rmap_elem {A B} (f : A -> result B) l out y :
  rmap f l = Ok out -> y ∈ out -> exists x, x ∈ l /\ f x = Ok y.
Proof.
  intros H%rmap_Forall2 (i & Hi)%list_elem_of_lookup.
  destruct (Forall2_lookup_r _ _ _ _ _ H Hi) as (x & Hx & Hf).
  exists x. split; [|done]. by eapply list_elem_of_lookup_2.
Qed.

Lemma rmap_elem_l {A B} (f : A -> result B) l out x :
  rmap f l = Ok out -> x ∈ l -> exists y, y ∈ out /\ f x = Ok y.
Proof.
  intros H%rmap_Forall2 (i & Hi)%list_elem_of_lookup.
  destruct (Forall2_lookup_l _ _ _ _ _ H Hi) as (y & Hy & Hf).
  exists y. split; [|done]. by eapply list_elem_of_lookup_2.
Qed.

(** ** Rows with a unique key *)

Lemma filter_Forall {A} (P : A -> Prop) `{!forall x, Decision (P x)} (l : list A) :
  Forall P l -> filter P l = l.
Proof. induction 1 as [|x l Hx _ IH]; [done|]. by rewrite filter_cons_True, IH. Qed.

Lemma NoDup_fmap_elem {A B} (f : A -> B) (l : list A) x y :
  NoDup (f <$> l) -> x ∈ l -> y ∈ l -> f x = f y -> x = y.
Proof.
  intros Hnd (i & Hx)%list_elem_of_lookup (j & Hy)%list_elem_of_lookup Heq.
  assert (i = j) as ->; [|congruence].
  apply (NoDup_lookup (f <$> l) i j (f x)); [done| |];
    rewrite list_lookup_fmap; [by rewrite Hx|by rewrite Hy; simpl; f_equal].
Qed.

(** ** Sums *)

Definition Zsum (l : list Z) : Z := foldr Z.add 0 l.

Lemma Zsum_cons x l : Zsum (x :: l) = x + Zsum l.
Proof. done. Qed.

Lemma Zsum_app l k : Zsum (l ++ k) = Zsum l + Zsum k.
Proof. induction l as [|x l IH]; simpl; lia. Qed.

Lemma Zsum_nonneg l : Forall (fun x => 0 <= x) l -> 0 <= Zsum l.
Proof. induction 1; simpl; lia. Qed.

#[export] Instance Zsum_perm : Proper ((≡ₚ) ==> (=)) Zsum.
Proof. induction 1; simpl; lia. Qed.

(** Terms that are zero off the filter can be dropped. *)
Lemma Zsum_filter {A} (f : A -> Z) (c : A -> bool) l :
  (forall x, x ∈ l -> c x = false -> f x = 0) ->
  Zsum (f <$> l) = Zsum (f <$> List.filter c l).
Proof.
  induction l as [|x l IH]; intros H; csimpl; [done|].
  rewrite IH by set_solver. destruct (c x) eqn:E; csimpl; [done|].
  rewrite (H x) by set_solver. lia.
Qed.
