(* ===== verification/PyStr.v ===== *)
(** * Python strings

    The string operations the copier uses, on ASCII text: [str.startswith],
    [str.endswith], slicing, [in], [str.split], [str.join], [str.upper],
    [str.strip], [repr] and [int].  [str] of an integer is stdpp's [pretty].
    The lemmas give the round trips the identifier schemes rest on. *)

From S2P Require Import Prelude.
From Stdlib Require Import Ascii.

(** ** Operations *)

(** [s.startswith(p)] *)
Fixpoint str_starts (p s : string) : bool :=
  match p, s with
  | EmptyString, _ => true
  | String a p', String b s' => bool_decide (a = b) && str_starts p' s'
  | String _ _, EmptyString => false
  end.

(** [s[n:]] for [n >= 0] *)
Fixpoint str_drop (n : nat) (s : string) : string :=
  match n, s with
  | O, _ => s
  | S n', String _ s' => str_drop n' s'
  | S _, EmptyString => EmptyString
  end.

(** [s[:n]] for [n >= 0] *)
Fixpoint str_take (n : nat) (s : string) : string :=
  match n, s with
  | O, _ => EmptyString
  | S n', String c s' => String c (str_take n' s')
  | S _, EmptyString => EmptyString
  end.

(** [s.endswith(p)] *)
Definition str_ends (p s : string) : bool :=
  (String.length p <=? String.length s)%nat &&
  bool_decide (str_drop (String.length s - String.length p) s = p).

(** [p in s] *)
Fixpoint str_contains (p s : string) : bool :=
  str_starts p s ||
  match s with
  | EmptyString => false
  | String _ s' => str_contains p s'
  end.

(** [c in s] for one character *)
Fixpoint has_char (c : ascii) (s : string) : bool :=
  match s with
  | EmptyString => false
  | String a s' => bool_decide (a = c) || has_char c s'
  end.

(** [s.split(c)] *)
Fixpoint str_split (c : ascii) (s : string) : list string :=
  match s with
  | EmptyString => [EmptyString]
  | String a s' =>
      if decide (a = c) then EmptyString :: str_split c s'
      else match str_split c s' with
           | [] => [String a EmptyString]
           | w :: ws => String a w :: ws
           end
  end.

(** [s.split(c, 1)[0]]: what precedes the first [c], or all of [s]. *)
Fixpoint str_before (c : ascii) (s : string) : string :=
  match s with
  | EmptyString => EmptyString
  | String a s' => if decide (a = c) then EmptyString else String a (str_before c s')
  end.

(** [s.split(c, 1)[1]] where the code relies on [c] being there. *)
Fixpoint str_after (c : ascii) (s : string) : option string :=
  match s with
  | EmptyString => None
  | String a s' => if decide (a = c) then Some s' else str_after c s'
  end.

(** [c.join(ws)] *)
Fixpoint str_join (sep : string) (ws : list string) : string :=
  match ws with
  | [] => EmptyString
  | [w] => w
  | w :: ws' => w +:+ sep +:+ str_join sep ws'
  end.

Definition char_upper (c : ascii) : ascii :=
  let n := nat_of_ascii c in
  if (97 <=? n)%nat && (n <=? 122)%nat then ascii_of_nat (n - 32) else c.
Fixpoint str_upper (s : string) : string :=
  match s with
  | EmptyString => EmptyString
  | String c s' => String (char_upper c) (str_upper s')
  end.

(** ASCII white space as [str.strip] and [int] see it. *)
Definition is_space (c : ascii) : bool :=
  let n := nat_of_ascii c in
  (n =? 32)%nat || ((9 <=? n)%nat && (n <=? 13)%nat) || ((28 <=? n)%nat && (n <=? 31)%nat).

Fixpoint lstrip (s : string) : string :=
  match s with
  | String c s' => if is_space c then lstrip s' else s
  | EmptyString => EmptyString
  end.
(** Drop trailing white space: a suffix made of spaces only disappears. *)
Fixpoint rstrip (s : string) : string :=
  match s with
  | EmptyString => EmptyString
  | String c s' =>
      match rstrip s' with
      | EmptyString => if is_space c then EmptyString else String c EmptyString
      | t => String c t
      end
  end.
Definition str_strip (s : string) : string := rstrip (lstrip s).

(** ** [int(s)] *)

Definition digit_of (c : ascii) : option Z :=
  let n := nat_of_ascii c in
  if (48 <=? n)%nat && (n <=? 57)%nat then Some (Z.of_nat (n - 48)) else None.

(** Digits with single underscores between them. *)
Fixpoint parse_digits (s : string) (acc : Z) (seen last_us : bool) : option Z :=
  match s with
  | EmptyString => if seen && negb last_us then Some acc else None
  | String c s' =>
      match digit_of c with
      | Some d => parse_digits s' (10 * acc + d) true false
      | None => if bool_decide (c = "_"%char) && seen && negb last_us
                then parse_digits s' acc seen true else None
      end
  end.

(** [int(s)], [None] standing for the [ValueError]. *)
Definition py_int (s : string) : option Z :=
  match str_strip s with
  | String "-" s' => Z.opp <$> parse_digits s' 0 false false
  | String "+" s' => parse_digits s' 0 false false
  | s' => parse_digits s' 0 false false
  end.

(** ** [repr(s)] *)

Definition hex_digit (n : nat) : ascii :=
  if (n <? 10)%nat then ascii_of_nat (48 + n) else ascii_of_nat (87 + n).

Definition repr_char (quote c : ascii) : string :=
  let n := nat_of_ascii c in
  if bool_decide (c = quote) || bool_decide (c = "\"%char) then String "\" (String c "")
  else if (n =? 9)%nat then "\t"
  else if (n =? 10)%nat then "\n"
  else if (n =? 13)%nat then "\r"
  else if (n <? 32)%nat || (127 <=? n)%nat
       then "\x" +:+ String (hex_digit (n / 16)%nat) (String (hex_digit (n mod 16)%nat) "")
  else String c "".

Fixpoint repr_body (quote : ascii) (s : string) : string :=
  match s with
  | EmptyString => EmptyString
  | String c s' => repr_char quote c +:+ repr_body quote s'
  end.

Definition single_quote : ascii := ascii_of_nat 39.
Definition double_quote : ascii := ascii_of_nat 34.

(** Single quotes unless the text holds a single and no double quote. *)
Definition py_repr (s : string) : string :=
  let q := if has_char single_quote s && negb (has_char double_quote s)
           then double_quote else single_quote in
  String q (repr_body q s) +:+ String q "".

(** ** Lemmas *)

Lemma str_app_assoc (s t u : string) : (s +:+ t) +:+ u = s +:+ (t +:+ u).
Proof. induction s as [|c s IH]; [done|]. exact (f_equal (String c) IH). Qed.

Lemma str_app_nil_r (s : string) : s +:+ "" = s.
Proof. induction s as [|c s IH]; [done|]. exact (f_equal (String c) IH). Qed.

Lemma str_app_cons c (s t : string) : String c s +:+ t = String c (s +:+ t).
Proof. done. Qed.

Lemma str_length_app (s t : string) :
  String.length (s +:+ t) = (String.length s + String.length t)%nat.
Proof. induction s as [|c s IH]; [done|]. rewrite str_app_cons. simpl. by rewrite IH. Qed.

Lemma str_starts_app p s : str_starts p (p +:+ s) = true.
Proof. induction p as [|c p IH]; [done|]. rewrite str_app_cons. simpl.
  by rewrite bool_decide_true. Qed.

Lemma str_starts_spec p s : str_starts p s = true <-> exists t, s = p +:+ t.
Proof.
  split.
  - revert s; induction p as [|c p IH]; intros s H; simpl in *; [by exists s|].
    destruct s as [|c' s]; [done|]. bsimp. subst.
    destruct (IH _ ltac:(eassumption)) as [t ->]. by exists t.
  - intros [t ->]. apply str_starts_app.
Qed.

Lemma str_drop_app p s : str_drop (String.length p) (p +:+ s) = s.
Proof. induction p as [|c p IH]; [done|]. rewrite str_app_cons. simpl. done. Qed.

Lemma str_take_app p s : str_take (String.length p) (p +:+ s) = p.
Proof. induction p as [|c p IH]; [done|]. rewrite str_app_cons. simpl. by rewrite IH. Qed.

Lemma str_ends_app p s : str_ends p (s +:+ p) = true.
Proof.
  unfold str_ends. rewrite str_length_app.
  replace (String.length s + String.length p - String.length p)%nat with (String.length s) by lia.
  rewrite str_drop_app. apply andb_true_iff. split; [apply Nat.leb_le; lia|].
  by apply bool_decide_true.
Qed.

Lemma has_char_app c s t : has_char c (s +:+ t) = has_char c s || has_char c t.
Proof. induction s as [|a s IH]; [done|]. rewrite str_app_cons. simpl. rewrite IH.
  by rewrite orb_assoc. Qed.

Lemma has_char_drop c n s : has_char c s = false -> has_char c (str_drop n s) = false.
Proof.
  revert n. induction s as [|a s IH]; intros [|n] H; simpl in *; try done. bsimp. auto.
Qed.

(** A word without the first character of a suffix does not end in it. *)
Lemma str_ends_no_char c p s : has_char c s = false -> str_ends (String c p) s = false.
Proof.
  intros H. unfold str_ends. apply andb_false_iff. right. apply bool_decide_eq_false.
  intros Heq. pose proof (has_char_drop c (String.length s - String.length (String c p)) s H) as Hd.
  rewrite Heq in Hd. simpl in Hd. by rewrite bool_decide_true in Hd.
Qed.

Lemma str_before_app c s t :
  has_char c s = false -> str_before c (s +:+ String c t) = s.
Proof.
  induction s as [|a s IH]; intros H; rewrite ?str_app_cons; simpl in *.
  - by rewrite decide_True.
  - bsimp. rewrite decide_False by congruence. by rewrite IH.
Qed.

(** Cutting at the first separator is unambiguous when it is not in the prefix. *)
Lemma str_sep_inj c s s' t t' :
  has_char c s = false -> has_char c s' = false ->
  s +:+ String c t = s' +:+ String c t' -> s = s' /\ t = t'.
Proof.
  intros Hs Hs' Heq. assert (s = s') as ->.
  { rewrite <- (str_before_app c s t), <- (str_before_app c s' t') by done. by rewrite Heq. }
  split; [done|]. apply (f_equal (str_drop (String.length s'))) in Heq.
  rewrite !str_drop_app in Heq. by simplify_eq.
Qed.

(** A split of a joined list of separator-free words gives the words back. *)
Lemma str_split_nochar c s : has_char c s = false -> str_split c s = [s].
Proof.
  induction s as [|a s IH]; simpl; [done|]. intros H. bsimp.
  rewrite decide_False by congruence. by rewrite IH.
Qed.

Lemma str_split_app c s t :
  has_char c s = false -> str_split c (s +:+ String c t) = s :: str_split c t.
Proof.
  induction s as [|a s IH]; intros H; rewrite ?str_app_cons; simpl in *.
  - by rewrite decide_True.
  - bsimp. rewrite decide_False by congruence. by rewrite IH.
Qed.

Lemma str_split_join c ws :
  ws <> [] -> Forall (fun w => has_char c w = false) ws ->
  str_split c (str_join (String c "") ws) = ws.
Proof.
  induction ws as [|w ws IH]; [done|]. intros _ H. inversion H; subst.
  destruct ws as [|w' ws]; [by apply str_split_nochar|].
  change (str_split c (w +:+ String c (str_join (String c "") (w' :: ws))) = w :: w' :: ws).
  rewrite str_split_app by done. by rewrite IH.
Qed.

(** *** Decimal printing *)

Lemma digit_of_pretty_char (x : N) :
  (x < 10)%N -> digit_of (pretty_N_char x) = Some (Z.of_N x).
Proof.
  intros H. assert (x ∈ [0;1;2;3;4;5;6;7;8;9]%N) as Hx.
  { destruct x as [|p]; [set_solver|].
    repeat (destruct p as [p|p|]; try lia; try set_solver). }
  repeat (apply elem_of_cons in Hx as [->|Hx]; [reflexivity|]). by apply elem_of_nil in Hx.
Qed.

(** What the printed digits of a number are: a fold of digits in front. *)
Lemma parse_pretty_go (x : N) s acc seen :
  (0 < x)%N ->
  exists k : nat, (Z.of_N x < 10 ^ Z.of_nat k) /\
    parse_digits (pretty_N_go x s) acc seen false
    = parse_digits s (10 ^ Z.of_nat k * acc + Z.of_N x) true false.
Proof.
  revert s acc seen. induction (N.lt_wf_0 x) as [x _ IH]; intros s acc seen Hx.
  rewrite pretty_N_go_step by done.
  assert (Hm : (x `mod` 10 < 10)%N) by (apply N.mod_lt; lia).
  assert (Hdm := N.div_mod x 10 ltac:(lia)).
  destruct (decide (x `div` 10 = 0)%N) as [E|E].
  - rewrite E, pretty_N_go_0. exists 1%nat. split; [lia|].
    cbn [parse_digits]. rewrite digit_of_pretty_char by done. f_equal. lia.
  - destruct (IH (x `div` 10)%N ltac:(apply N.div_lt; lia)
      (String (pretty_N_char (x `mod` 10)) s) acc seen ltac:(lia)) as [k [Hk Hp]].
    exists (S k). rewrite Nat2Z.inj_succ, Z.pow_succ_r by lia. split; [lia|].
    rewrite Hp. cbn [parse_digits]. rewrite digit_of_pretty_char by done. f_equal. lia.
Qed.

Lemma pretty_N_parse (n : N) : parse_digits (pretty n) 0 false false = Some (Z.of_N n).
Proof.
  unfold pretty, pretty_N. case_decide as E; [by subst|].
  destruct (parse_pretty_go n "" 0 false ltac:(lia)) as [k [_ ->]].
  cbn. f_equal. lia.
Qed.

Fixpoint str_all (P : ascii -> bool) (s : string) : bool :=
  match s with EmptyString => true | String c s' => P c && str_all P s' end.

(** Every printed character satisfies a predicate that all digits satisfy. *)
Lemma pretty_N_go_forall (P : ascii -> bool) (x : N) s :
  (forall y, (y < 10)%N -> P (pretty_N_char y) = true) ->
  str_all P s = true ->
  str_all P (pretty_N_go x s) = true.
Proof.
  intros HP. revert s. induction (N.lt_wf_0 x) as [x _ IH]; intros s Hs.
  destruct (decide (x = 0)%N) as [->|E]; [by rewrite pretty_N_go_0|].
  rewrite pretty_N_go_step by lia. apply IH; [apply N.div_lt; lia|].
  simpl. rewrite HP by (apply N.mod_lt; lia). done.
Qed.

Lemma pretty_N_all (P : ascii -> bool) (n : N) :
  (forall y, (y < 10)%N -> P (pretty_N_char y) = true) -> str_all P (pretty n) = true.
Proof.
  intros HP. unfold pretty, pretty_N. case_decide.
  - change (P (pretty_N_char 0) && true = true). by rewrite HP.
  - apply (pretty_N_go_forall P n ""); done.
Qed.

Lemma str_all_has_char P c s : P c = false -> str_all P s = true -> has_char c s = false.
Proof.
  intros Hc. induction s as [|a s IH]; simpl; [done|]. intros H. bsimp.
  apply orb_false_iff. split; [|auto]. apply bool_decide_eq_false. congruence.
Qed.

Definition is_digit (c : ascii) : bool := match digit_of c with Some _ => true | None => false end.
Definition is_digit_or_dash (c : ascii) : bool := is_digit c || bool_decide (c = "-"%char).

Lemma pretty_N_digits (n : N) : str_all is_digit (pretty n) = true.
Proof. apply pretty_N_all. intros y Hy. unfold is_digit. by rewrite digit_of_pretty_char. Qed.

Lemma str_all_impl (P Q : ascii -> bool) s :
  (forall c, P c = true -> Q c = true) -> str_all P s = true -> str_all Q s = true.
Proof. intros H. induction s; simpl; [done|]. intros Hs. bsimp.
  apply andb_true_iff. auto. Qed.

Lemma pretty_Z_chars (z : Z) : str_all is_digit_or_dash (pretty z) = true.
Proof.
  assert (forall n : N, str_all is_digit_or_dash (pretty n) = true) as HN.
  { intros n. eapply str_all_impl; [|apply pretty_N_digits].
    intros c Hc. unfold is_digit_or_dash. by rewrite Hc. }
  destruct z as [|p|p]; [done|apply (HN (Npos p))|].
  change (is_digit_or_dash "-"%char && str_all is_digit_or_dash (pretty (Npos p)) = true).
  by rewrite HN.
Qed.

Lemma pretty_Z_no_char c (z : Z) : is_digit_or_dash c = false -> has_char c (pretty z) = false.
Proof. intros Hc. eapply str_all_has_char; [exact Hc|]. apply pretty_Z_chars. Qed.

Lemma lstrip_nospace s : str_all (fun c => negb (is_space c)) s = true -> lstrip s = s.
Proof. destruct s as [|c s]; simpl; [done|]. intros H. bsimp. by case_match. Qed.

Lemma rstrip_nospace s : str_all (fun c => negb (is_space c)) s = true -> rstrip s = s.
Proof.
  induction s as [|c s IH]; simpl; [done|]. intros H. bsimp. rewrite IH by done.
  destruct s; [|done]. by case_match.
Qed.

Lemma digit_not_space c : is_digit c = true -> is_space c = false.
Proof.
  unfold is_digit, digit_of, is_space. case_match eqn:E; [|done]. intros _.
  case_match eqn:E'; [|done]. apply andb_true_iff in E' as [H1 H2].
  apply Nat.leb_le in H1, H2.
  repeat (apply orb_false_iff; split); try (apply Nat.eqb_neq; lia).
  all: apply andb_false_iff; right; apply Nat.leb_gt; lia.
Qed.

Lemma pretty_Z_strip (z : Z) : str_strip (pretty z) = pretty z.
Proof.
  assert (str_all (fun c => negb (is_space c)) (pretty z) = true) as H.
  { eapply str_all_impl; [|apply pretty_Z_chars]. intros c Hc.
    unfold is_digit_or_dash in Hc. apply orb_true_iff in Hc as [Hc|Hc].
    - by rewrite digit_not_space.
    - apply bool_decide_eq_true in Hc. by subst. }
  unfold str_strip. rewrite lstrip_nospace by done. by rewrite rstrip_nospace.
Qed.

Lemma pretty_N_head (n : N) c s : pretty n = String c s -> is_digit c = true.
Proof. intros H. pose proof (pretty_N_digits n) as Hd. rewrite H in Hd. simpl in Hd. by bsimp. Qed.

(** [int(str(z)) = z] *)
Lemma py_int_pretty (z : Z) : py_int (pretty z) = Some z.
Proof.
  unfold py_int. rewrite pretty_Z_strip.
  assert (forall n : N, match pretty n with
    | String "-" s' => Z.opp <$> parse_digits s' 0 false false
    | String "+" s' => parse_digits s' 0 false false
    | s' => parse_digits s' 0 false false end = Some (Z.of_N n)) as HN.
  { intros n. rewrite <- (pretty_N_parse n). destruct (pretty n) as [|c s] eqn:E; [done|].
    apply pretty_N_head in E. destruct c as [[] [] [] [] [] [] [] []]; try done. }
  destruct z as [|p|p]; [done|apply (HN (Npos p))|].
  change (Z.opp <$> parse_digits (pretty (Npos p)) 0 false false = Some (Zneg p)).
  by rewrite pretty_N_parse.
Qed.
