(* ===== verification/PyDecimal.v ===== *)
(** * Python's [decimal.Decimal]

    The operations [domain/sizing.py] uses, under the default context
    (28 significant digits, ROUND_HALF_EVEN), following the algorithms of the
    standard library's [_pydecimal]: exact construction from [int],
    multiplication, division, [normalize], [to_integral_value] and [int].
    A decimal is a signed coefficient and an exponent; the sign of a zero and
    the exponent limits (beyond ten to the 999999) are left out. *)

From S2P Require Import Prelude.

(** ** Definitions *)

Record decimal := Dec { d_coef : Z; d_exp : Z }.

#[export] Instance decimal_eq_dec : EqDecision decimal.
Proof. solve_decision. Defined.

(** The default context's precision. *)
Definition PREC : Z := 28.

(** [len(str(n))] for [n >= 0] *)
Fixpoint ndigits_aux (fuel : nat) (n : Z) : Z :=
  match fuel with
  | O => 1
  | S f => if n <? 10 then 1 else 1 + ndigits_aux f (n / 10)
  end.
Definition ndigits (n : Z) : Z := ndigits_aux (Z.to_nat (Z.log2 n)) n.

(** The rounding of [n / d] for [n >= 0], [d > 0]. *)
Definition half_even (n d : Z) : Z :=
  let q := n / d in
  let r := n mod d in
  if 2 * r <? d then q
  else if d <? 2 * r then q + 1
  else if Z.even q then q else q + 1.

(** [Decimal(n)]: exact. *)
Definition dec_of_int (n : Z) : decimal := Dec n 0.

(** [_fix]: round the coefficient to the context's precision. *)
Definition dec_fix (d : decimal) : decimal :=
  let c := Z.abs (d_coef d) in
  let k := ndigits c - PREC in
  if k <=? 0 then d
  else let c' := half_even c (10 ^ k) in
       if c' =? 10 ^ PREC
       then Dec (Z.sgn (d_coef d) * 10 ^ (PREC - 1)) (d_exp d + k + 1)
       else Dec (Z.sgn (d_coef d) * c') (d_exp d + k).

Definition dec_mul (a b : decimal) : decimal :=
  dec_fix (Dec (d_coef a * d_coef b) (d_exp a + d_exp b)).

(** The [while exp < ideal_exp and coeff % 10 == 0] loop; [fuel] bounds the
    iterations by [ideal_exp - exp]. *)
Fixpoint strip_to (fuel : nat) (c e : Z) : Z * Z :=
  match fuel with
  | O => (c, e)
  | S f => if c mod 10 =? 0 then strip_to f (c / 10) (e + 1) else (c, e)
  end.

(** [a / b]; [None] is [DivisionByZero] (or [InvalidOperation] for [0 / 0]). *)
Definition dec_div (a b : decimal) : option decimal :=
  if d_coef b =? 0 then None
  else
    let ideal := d_exp a - d_exp b in
    if d_coef a =? 0 then Some (dec_fix (Dec 0 ideal))
    else
      let sgn := Z.sgn (d_coef a) * Z.sgn (d_coef b) in
      let n := Z.abs (d_coef a) in
      let m := Z.abs (d_coef b) in
      let shift := ndigits m - ndigits n + PREC + 1 in
      let e := ideal - shift in
      let '(q, r) := if 0 <=? shift then (n * 10 ^ shift / m, (n * 10 ^ shift) mod m)
                     else (n / (m * 10 ^ (- shift)), n mod (m * 10 ^ (- shift))) in
      if r =? 0
      then let '(q', e') := strip_to (Z.to_nat (ideal - e)) q e in
           Some (dec_fix (Dec (sgn * q') e'))
      else Some (dec_fix (Dec (sgn * (if q mod 5 =? 0 then q + 1 else q)) e)).

(** [normalize]: strip every trailing zero. *)
Definition dec_normalize (d : decimal) : decimal :=
  let d := dec_fix d in
  if d_coef d =? 0 then Dec 0 0
  else let '(c, e) := strip_to (Z.to_nat (ndigits (Z.abs (d_coef d)))) (Z.abs (d_coef d)) (d_exp d) in
       Dec (Z.sgn (d_coef d) * c) e.

(** [to_integral_value(rounding=ROUND_HALF_UP)] *)
Definition dec_to_integral_half_up (d : decimal) : decimal :=
  if 0 <=? d_exp d then d
  else let p := 10 ^ (- d_exp d) in
       let c := Z.abs (d_coef d) in
       Dec (Z.sgn (d_coef d) * ((2 * c + p) / (2 * p))) 0.

(** [int(d)]: truncation. *)
Definition dec_int (d : decimal) : Z :=
  if 0 <=? d_exp d then d_coef d * 10 ^ d_exp d
  else Z.sgn (d_coef d) * (Z.abs (d_coef d) / 10 ^ (- d_exp d)).

(** ** Digit counts *)

Lemma ndigits_aux_pos fuel n : 1 <= ndigits_aux fuel n.
Proof. revert n; induction fuel as [|f IH]; intros n; simpl; [lia|].
  case_match; [lia|]. specialize (IH (n / 10)). lia. Qed.

Lemma ndigits_pos n : 1 <= ndigits n.
Proof. apply ndigits_aux_pos. Qed.

Lemma ndigits_aux_spec fuel n :
  0 < n < 2 * 2 ^ Z.of_nat fuel ->
  10 ^ (ndigits_aux fuel n - 1) <= n < 10 ^ ndigits_aux fuel n.
Proof.
  revert n; induction fuel as [|f IH]; intros n Hn; simpl.
  - change (2 ^ Z.of_nat 0) with 1 in Hn. cbn. lia.
  - rewrite Nat2Z.inj_succ, Z.pow_succ_r in Hn by lia.
    destruct (Z.ltb_spec n 10) as [H|H]; [cbn; lia|].
    assert (Hq := Z.div_mod n 10 ltac:(lia)).
    assert (Hr := Z.mod_pos_bound n 10 ltac:(lia)).
    specialize (IH (n / 10) ltac:(lia)).
    assert (Hp := ndigits_aux_pos f (n / 10)).
    remember (ndigits_aux f (n / 10)) as k.
    replace (1 + k - 1) with (Z.succ (k - 1)) by lia.
    replace (1 + k) with (Z.succ k) by lia.
    rewrite !Z.pow_succ_r by lia. lia.
Qed.

Lemma ndigits_spec n : 0 < n -> 10 ^ (ndigits n - 1) <= n < 10 ^ ndigits n.
Proof.
  intros Hn. apply ndigits_aux_spec. split; [done|].
  rewrite Z2Nat.id by apply Z.log2_nonneg.
  rewrite <- Z.pow_succ_r by apply Z.log2_nonneg.
  apply Z.log2_spec. done.
Qed.

Lemma ndigits_le n k : 0 <= n < 10 ^ k -> 1 <= k -> ndigits n <= k.
Proof.
  intros [H0 Hn] Hk. destruct (decide (n = 0)) as [->|Hne]; [by cbn|].
  pose proof (ndigits_spec n ltac:(lia)) as [H1 _].
  assert (10 ^ (ndigits n - 1) < 10 ^ k) as H by lia.
  apply Z.pow_lt_mono_r_iff in H; lia.
Qed.

(** ** Exact cases *)

Lemma dec_fix_exact d : Z.abs (d_coef d) < 10 ^ PREC -> dec_fix d = d.
Proof.
  intros H. unfold dec_fix.
  assert (ndigits (Z.abs (d_coef d)) <= PREC) by (apply ndigits_le; unfold PREC in *; lia).
  by rewrite (proj2 (Z.leb_le _ _)) by lia.
Qed.

Lemma dec_mul_exact a b :
  Z.abs (d_coef a * d_coef b) < 10 ^ PREC ->
  dec_mul a b = Dec (d_coef a * d_coef b) (d_exp a + d_exp b).
Proof. intros H. unfold dec_mul. by rewrite dec_fix_exact. Qed.

(** What stripping zeros does: the value is kept, the exponent moves up to the
    bound unless a non-zero digit stops it. *)
Lemma strip_to_spec fuel c e c' e' :
  0 <= c -> strip_to fuel c e = (c', e') ->
  c = c' * 10 ^ (e' - e) /\ e <= e' <= e + Z.of_nat fuel /\ 0 <= c' <= c /\
  (e' = e + Z.of_nat fuel \/ c' mod 10 <> 0).
Proof.
  revert c e. induction fuel as [|f IH]; intros c e Hc H; simpl in H.
  - simplify_eq. rewrite Z.sub_diag, Z.pow_0_r. lia.
  - destruct (Z.eqb_spec (c mod 10) 0) as [Hm|Hm].
    + assert (Hdm := Z.div_mod c 10 ltac:(lia)).
      apply IH in H as (H1 & H2 & H3 & H4); [|lia].
      replace (e' - e) with (Z.succ (e' - (e + 1))) by lia.
      rewrite Z.pow_succ_r by lia.
      split; [lia|]. split; [lia|]. split; [lia|]. destruct H4; [left; lia|by right].
    + simplify_eq. rewrite Z.sub_diag, Z.pow_0_r. split; [lia|]. split; [lia|].
      split; [lia|]. by right.
Qed.

Lemma pow10_pos k : 0 <= k -> 0 < 10 ^ k.
Proof. intros. by apply Z.pow_pos_nonneg. Qed.

(** A decimal with a non-negative coefficient that stands for [n / m]. *)
Definition represents (d : decimal) (n m : Z) : Prop :=
  0 <= d_coef d /\
  d_coef d * m * 10 ^ Z.max (d_exp d) 0 = n * 10 ^ Z.max (- d_exp d) 0.

Lemma represents_nonpos_exp d n m :
  d_exp d <= 0 -> represents d n m <-> 0 <= d_coef d /\ d_coef d * m = n * 10 ^ (- d_exp d).
Proof.
  intros H. unfold represents. rewrite Z.max_r by lia. rewrite Z.max_l by lia.
  rewrite Z.pow_0_r. by rewrite Z.mul_1_r.
Qed.

(** Products of representatives represent the product. *)
Lemma represents_mul a b n m n' m' :
  represents a n m -> represents b n' m' ->
  represents (Dec (d_coef a * d_coef b) (d_exp a + d_exp b)) (n * n') (m * m').
Proof.
  intros [Ha Ea] [Hb Eb]. unfold represents. cbn [d_coef d_exp]. split; [nia|].
  set (x := d_exp a) in *. set (y := d_exp b) in *.
  set (A := 10 ^ Z.max x 0) in *. set (B := 10 ^ Z.max (- x) 0) in *.
  set (C := 10 ^ Z.max y 0) in *. set (D := 10 ^ Z.max (- y) 0) in *.
  assert (HAB : exists k, 0 < k /\ A * C = 10 ^ Z.max (x + y) 0 * k
                              /\ B * D = 10 ^ Z.max (- (x + y)) 0 * k).
  { exists (10 ^ (Z.max x 0 + Z.max y 0 - Z.max (x + y) 0)).
    split; [apply pow10_pos; lia|].
    subst A B C D. rewrite <- !Z.pow_add_r by lia. split; f_equal; lia. }
  destruct HAB as (k & Hk & HAC & HBD).
  apply Z.mul_reg_r with k; [lia|].
  transitivity (d_coef a * m * A * (d_coef b * m' * C)).
  { transitivity (d_coef a * d_coef b * (m * m') * (10 ^ Z.max (x + y) 0 * k)); [ring|].
    rewrite <- HAC. ring. }
  rewrite Ea, Eb.
  transitivity (n * n' * (B * D)); [ring|]. rewrite HBD. ring.
Qed.

(** Two fractions with the same cross product have the same half-up rounding. *)
Lemma half_up_cross c p n d :
  0 < p -> 0 < d -> c * d = n * p -> (2 * c + p) / (2 * p) = (2 * n + d) / (2 * d).
Proof.
  intros Hp Hd H.
  rewrite <- (Z.div_mul_cancel_r (2 * c + p) (2 * p) d) by lia.
  rewrite <- (Z.div_mul_cancel_r (2 * n + d) (2 * d) p) by lia.
  f_equal; nia.
Qed.

(** Rounding a representative of [n / m] half up gives the half-up rounding
    of [n / m]. *)
Lemma to_integral_represents d n m :
  0 < m -> 0 <= n -> represents d n m ->
  dec_int (dec_to_integral_half_up d) = (2 * n + m) / (2 * m).
Proof.
  intros Hm Hn [Hc He]. unfold dec_to_integral_half_up.
  destruct (Z.leb_spec 0 (d_exp d)) as [Hpos|Hneg].
  - unfold dec_int. rewrite (proj2 (Z.leb_le _ _)) by lia.
    rewrite Z.max_l in He by lia. rewrite (Z.max_r (- _)) in He by lia.
    rewrite Z.pow_0_r, Z.mul_1_r in He. subst n.
    apply Z.div_unique with m; [lia|]. ring.
  - unfold dec_int. cbn [d_exp d_coef Z.leb Z.compare]. rewrite Z.pow_0_r, Z.mul_1_r.
    rewrite (Z.max_r (d_exp d)), (Z.max_l (- _)) in He by lia.
    rewrite Z.pow_0_r, Z.mul_1_r in He.
    rewrite Z.abs_eq by lia.
    rewrite <- (half_up_cross (d_coef d) (10 ^ (- d_exp d)) n m); [|apply pow10_pos; lia|lia|lia].
    destruct (decide (d_coef d = 0)) as [E|E].
    + rewrite E. cbn [Z.sgn]. rewrite Z.mul_0_l. symmetry. apply Z.div_small.
      assert (0 < 10 ^ (- d_exp d)) by (apply pow10_pos; lia). lia.
    + rewrite (Z.sgn_pos (d_coef d)) by lia. ring.
Qed.

Lemma represents_normalize d n m :
  d_coef d < 10 ^ PREC -> represents d n m ->
  represents (dec_normalize d) n m /\ d_coef (dec_normalize d) <= d_coef d.
Proof.
  intros Hlt [Hc He]. unfold dec_normalize. rewrite dec_fix_exact by (rewrite Z.abs_eq; lia).
  destruct (Z.eqb_spec (d_coef d) 0) as [E|E].
  - cbn. split; [|lia]. unfold represents. cbn. split; [done|]. rewrite E in He.
    rewrite !Z.mul_0_l in He.
    assert (0 < 10 ^ Z.max (- d_exp d) 0) by (apply pow10_pos; lia). nia.
  - rewrite Z.abs_eq by lia.
    destruct (strip_to _ _ _) as [c e] eqn:Es.
    apply strip_to_spec in Es as (H1 & H2 & H3 & _); [|lia].
    cbn [d_coef d_exp]. rewrite (Z.sgn_pos (d_coef d)), Z.mul_1_l by lia.
    split; [|lia]. unfold represents. cbn [d_coef d_exp]. split; [lia|].
    rewrite H1 in He. set (x := d_exp d) in *.
    assert (Hx : 10 ^ (e - x) * 10 ^ Z.max x 0 * 10 ^ Z.max (- e) 0
                 = 10 ^ Z.max e 0 * 10 ^ Z.max (- x) 0).
    { rewrite <- !Z.pow_add_r by lia. f_equal. lia. }
    assert (0 < 10 ^ Z.max (- x) 0) by (apply pow10_pos; lia).
    apply Z.mul_reg_r with (10 ^ Z.max (- x) 0); [lia|].
    transitivity (c * m * (10 ^ Z.max e 0 * 10 ^ Z.max (- x) 0)); [ring|].
    rewrite <- Hx. transitivity (c * 10 ^ (e - x) * m * 10 ^ Z.max x 0 * 10 ^ Z.max (- e) 0); [ring|].
    rewrite He. ring.
Qed.

(** ** Division *)

(** Dividing a short coefficient by a power of ten is exact and does not
    lengthen the coefficient. *)
Lemma dec_div_pow10 v j :
  0 <= v < 10 ^ PREC -> 0 <= j ->
  exists d, dec_div (dec_of_int v) (dec_of_int (10 ^ j)) = Some d /\
            represents d v (10 ^ j) /\ d_coef d <= v.
Proof.
  intros Hv Hj. assert (Hp := pow10_pos j Hj). unfold dec_div, dec_of_int.
  cbn [d_coef d_exp]. rewrite (proj2 (Z.eqb_neq (10 ^ j) 0)) by lia.
  change (0 - 0) with 0.
  destruct (Z.eqb_spec v 0) as [->|Hne].
  { eexists. split; [done|]. by cbn. }
  rewrite !Z.abs_eq, !Z.sgn_pos, Z.mul_1_l by lia.
  assert (Hnj : ndigits (10 ^ j) = j + 1).
  { pose proof (ndigits_spec (10 ^ j) Hp) as [H1 H2].
    apply Z.pow_le_mono_r_iff in H1; [|lia|lia]. apply Z.pow_lt_mono_r_iff in H2; [|lia|].
    - lia.
    - pose proof (ndigits_pos (10 ^ j)). lia. }
  rewrite Hnj. set (shift := j + 1 - ndigits v + PREC + 1).
  assert (Hs : j + 2 <= shift).
  { pose proof (ndigits_le v PREC Hv ltac:(unfold PREC; lia)). unfold shift. lia. }
  rewrite (proj2 (Z.leb_le 0 shift)) by lia.
  replace (v * 10 ^ shift) with (v * 10 ^ (shift - j) * 10 ^ j)
    by (rewrite <- Z.mul_assoc, <- Z.pow_add_r by lia; f_equal; f_equal; lia).
  rewrite Z.div_mul, Z.mod_mul by lia. cbn [Z.eqb].
  destruct (strip_to _ _ _) as [q e] eqn:Es.
  assert (Hq0 : 0 <= v * 10 ^ (shift - j)).
  { assert (0 < 10 ^ (shift - j)) by (apply pow10_pos; lia). nia. }
  apply strip_to_spec in Es as (H1 & H2 & H3 & H4); [|done].
  rewrite Z2Nat.id in * by lia.
  rewrite Z.mul_1_l.
  assert (He : e <= 0) by lia.
  assert (Hval : q * 10 ^ j = v * 10 ^ (- e)).
  { assert (0 < 10 ^ (e + shift)) by (apply pow10_pos; lia).
    apply Z.mul_reg_r with (10 ^ (e + shift)); [lia|].
    transitivity (v * 10 ^ (shift - j) * 10 ^ j).
    - rewrite H1. replace (e - (0 - shift)) with (e + shift) by lia. ring.
    - rewrite <- !Z.mul_assoc, <- !Z.pow_add_r by lia. do 2 f_equal. lia. }
  assert (Hqv : q <= v).
  { destruct (decide (- e <= j)) as [Hle|Hgt].
    - assert (10 ^ (- e) <= 10 ^ j) by (apply Z.pow_le_mono_r; lia). nia.
    - destruct H4 as [H4|H4]; [lia|]. exfalso. apply H4.
      assert (q = v * 10 ^ (- e - j)) as ->.
      { apply Z.mul_reg_r with (10 ^ j); [lia|]. rewrite Hval.
        rewrite <- Z.mul_assoc, <- Z.pow_add_r by lia. do 2 f_equal. lia. }
      replace (- e - j) with (Z.succ (- e - j - 1)) by lia.
      rewrite Z.pow_succ_r by lia.
      replace (v * (10 * 10 ^ (- e - j - 1))) with (v * 10 ^ (- e - j - 1) * 10) by ring.
      apply Z.mod_mul. lia. }
  rewrite dec_fix_exact by (cbn [d_coef]; rewrite Z.abs_eq; lia).
  eexists. split; [done|]. cbn [d_coef]. split; [|lia].
  apply represents_nonpos_exp; cbn [d_exp d_coef]; [lia|]. split; [lia|]. exact Hval.
Qed.

Lemma half_even_bounds n d :
  0 <= n -> 0 < d -> n / d <= half_even n d /\ 2 * d * half_even n d <= 2 * n + d.
Proof.
  intros Hn Hd. unfold half_even.
  assert (Hdm := Z.div_mod n d ltac:(lia)). assert (Hr := Z.mod_pos_bound n d Hd).
  destruct (Z.ltb_spec (2 * (n mod d)) d), (Z.ltb_spec d (2 * (n mod d)));
    try destruct (Z.even _); split; nia.
Qed.

(** Rounding to 28 digits never carries a quotient of small numbers across
    the next integer: truncating afterwards is truncating the exact quotient. *)
Lemma dec_fix_trunc c s q t delta :
  0 <= s -> 0 < t < 10 ^ 13 -> 0 <= q < 10 ^ 13 -> 0 <= delta < 10 ^ s -> delta <= t ->
  q * 10 ^ s <= c -> c * t + 10 ^ s <= (q + 1) * t * 10 ^ s + delta ->
  dec_int (dec_fix (Dec c (- s))) = q.
Proof.
  intros Hs Ht Hq Hd Hdt Hlo Hhi. assert (Hps := pow10_pos s Hs).
  assert (Hc : 0 <= c) by nia.
  assert (Hlt : c < (q + 1) * 10 ^ s) by nia.
  assert (Htrunc : forall c' e, e <= 0 -> 0 <= c' -> q * 10 ^ (- e) <= c' < (q + 1) * 10 ^ (- e) ->
            dec_int (Dec c' e) = q).
  { intros c' e He Hc' [Hl Hu]. unfold dec_int. cbn [d_exp d_coef].
    assert (0 < 10 ^ (- e)) by (apply pow10_pos; lia).
    destruct (Z.leb_spec 0 e).
    - assert (e = 0) as -> by lia. change (10 ^ (- 0)) with 1 in *. rewrite Z.pow_0_r. lia.
    - rewrite Z.abs_eq by lia. assert (c' / 10 ^ (- e) = q) as ->.
      { symmetry. apply Z.div_unique with (c' - q * 10 ^ (- e)); lia. }
      destruct (decide (c' = 0)) as [->|]; [cbn; nia|]. rewrite Z.sgn_pos by lia. lia. }
  unfold dec_fix. cbn [d_coef d_exp]. rewrite (Z.abs_eq c) by lia.
  destruct (Z.leb_spec (ndigits c - PREC) 0) as [Hk|Hk].
  { apply Htrunc; [lia|done|]. rewrite Z.opp_involutive. lia. }
  assert (Hc0 : 0 < c).
  { destruct (decide (c = 0)) as [E0|]; [|lia]. rewrite E0 in Hk. by compute in Hk. }
  set (k := ndigits c - PREC) in *.
  destruct (ndigits_spec c Hc0) as [Hdl _].
  assert (Hks : 14 + k <= s).
  { assert (10 ^ (27 + k) < 10 ^ (13 + s)).
    { replace (27 + k) with (ndigits c - 1) by (unfold k, PREC; lia).
      rewrite Z.pow_add_r by lia. nia. }
    apply Z.pow_lt_mono_r_iff in H; lia. }
  assert (Hpk := pow10_pos k ltac:(lia)).
  assert (Hsplit : 10 ^ s = 10 ^ (s - k) * 10 ^ k)
    by (rewrite <- Z.pow_add_r by lia; f_equal; lia).
  assert (Hbig : 10 ^ 14 <= 10 ^ (s - k)) by (apply Z.pow_le_mono_r; lia).
  destruct (half_even_bounds c (10 ^ k) ltac:(lia) ltac:(lia)) as [Hh1 Hh2].
  set (c' := half_even c (10 ^ k)) in *.
  assert (Hlo' : q * 10 ^ (s - k) <= c').
  { etrans; [|exact Hh1]. apply Z.div_le_lower_bound; nia. }
  assert (Hhi' : c' < (q + 1) * 10 ^ (s - k)).
  { set (p := 10 ^ (s - k)) in *. set (w := 10 ^ k) in *.
    rewrite Hsplit in Hhi.
    assert (H1 : 2 * w * c' * t <= (2 * c + w) * t) by (apply Z.mul_le_mono_nonneg_r; lia).
    assert (H2 : 2 * delta + w * t < 2 * (p * w)) by nia.
    assert (H3 : 2 * w * c' * t < 2 * w * ((q + 1) * p) * t) by lia.
    apply Z.mul_lt_mono_pos_r in H3; [|lia]. apply Z.mul_lt_mono_pos_l in H3; lia. }
  rewrite (Z.sgn_pos c) by lia.
  destruct (Z.eqb_spec c' (10 ^ PREC)) as [E|E].
  - rewrite Z.mul_1_l. apply Htrunc; [lia|done|].
    replace (- (- s + k + 1)) with (s - k - 1) by lia.
    assert (Hsp : 10 ^ (s - k) = 10 * 10 ^ (s - k - 1))
      by (rewrite <- Z.pow_succ_r by lia; f_equal; lia).
    rewrite E in *. rewrite Hsp in *.
    change (10 ^ PREC) with (10 * 10 ^ (PREC - 1)) in *. nia.
  - rewrite Z.mul_1_l. apply Htrunc; [lia|nia|].
    replace (- (- s + k)) with (s - k) by lia. lia.
Qed.

(** [int(Decimal(n) / Decimal(t))] is the integer quotient for the sizes
    volumes have. *)
Lemma dec_div_trunc n t :
  0 <= n -> 0 < t < 10 ^ 13 -> n < 10 ^ 13 * t ->
  exists d, dec_div (Dec n 0) (dec_of_int t) = Some d /\ dec_int d = n / t.
Proof.
  intros Hn Ht Hnt. unfold dec_div, dec_of_int. cbn [d_coef d_exp].
  rewrite (proj2 (Z.eqb_neq t 0)) by lia. change (0 - 0) with 0.
  destruct (Z.eqb_spec n 0) as [->|Hne].
  { eexists. split; [done|]. by rewrite Z.div_0_l by lia. }
  rewrite !Z.abs_eq, !Z.sgn_pos, Z.mul_1_l by lia.
  set (shift := ndigits t - ndigits n + PREC + 1).
  assert (Hshift : 16 <= shift).
  { destruct (ndigits_spec n ltac:(lia)) as [H1 _]. destruct (ndigits_spec t ltac:(lia)) as [_ H2].
    assert (10 ^ (ndigits n - 1) < 10 ^ (13 + ndigits t)) as H.
    { rewrite Z.pow_add_r; [nia|lia|]. pose proof (ndigits_pos t). lia. }
    apply Z.pow_lt_mono_r_iff in H; [|lia|pose proof (ndigits_pos t); lia].
    unfold shift, PREC. lia. }
  rewrite (proj2 (Z.leb_le 0 shift)) by lia.
  set (P := 10 ^ shift). assert (HP : 10 ^ 16 <= P) by (apply Z.pow_le_mono_r; lia).
  assert (Hq : n / t * t <= n < (n / t + 1) * t).
  { assert (Hdm := Z.div_mod n t ltac:(lia)). assert (Hr := Z.mod_pos_bound n t ltac:(lia)). lia. }
  assert (Hqb : 0 <= n / t < 10 ^ 13).
  { split; [apply Z.div_pos; lia|]. apply Z.div_lt_upper_bound; lia. }
  set (q := n / t) in *.
  assert (HQ := Z.div_mod (n * P) t ltac:(lia)).
  assert (HR := Z.mod_pos_bound (n * P) t ltac:(lia)).
  set (Q := n * P / t) in *. set (R := (n * P) mod t) in *.
  destruct (Z.eqb_spec R 0) as [HR0|HR0].
  - destruct (strip_to _ _ _) as [c e] eqn:Es.
    assert (0 <= Q) by nia.
    apply strip_to_spec in Es as (H1 & H2 & H3 & _); [|done].
    rewrite Z2Nat.id in * by lia.
    eexists. split; [done|]. rewrite Z.mul_1_l. replace e with (- - e) by lia.
    assert (Hpe : P = 10 ^ (- e) * 10 ^ (e - (0 - shift)))
      by (unfold P; rewrite <- Z.pow_add_r by lia; f_equal; lia).
    assert (Hx : 0 < 10 ^ (e - (0 - shift))) by (apply pow10_pos; lia).
    set (x := 10 ^ (e - (0 - shift))) in *.
    assert (Hct : c * t = n * 10 ^ (- e)) by nia.
    assert (0 < 10 ^ (- e)) by (apply pow10_pos; lia).
    apply (dec_fix_trunc c (- e) q t 0); try lia; nia.
  - eexists. split; [done|]. rewrite Z.mul_1_l. change (0 - shift) with (- shift).
    assert (0 <= Q) by nia.
    apply (dec_fix_trunc _ shift q t t); fold P; try lia.
    + case_match; nia.
    + case_match; nia.
Qed.
