(* ===== verification/PyFloat.v ===== *)
(** * Python floats

    A Python [float] is an IEEE 754 double.  The operations are those of the
    standard library's executable [SpecFloat] at precision 53 and maximal
    exponent 1024, so every price, distance and money computation of the
    model rounds exactly where the program's does.  Python's conversions and
    comparisons ([round], [math.floor], [max], [math.isclose], true division
    of integers) are defined on top. *)

From S2P Require Import Prelude.
From Stdlib Require Import SpecFloat.

(** ** Definitions *)

Abbreviation float64 := spec_float.

#[export] Instance float64_eq_dec : EqDecision spec_float.
Proof. solve_decision. Defined.

Definition FPREC : Z := 53.
Definition FEMAX : Z := 1024.

Definition fadd : float64 -> float64 -> float64 := SFadd FPREC FEMAX.
Definition fsub : float64 -> float64 -> float64 := SFsub FPREC FEMAX.
Definition fmul : float64 -> float64 -> float64 := SFmul FPREC FEMAX.
Definition fdiv : float64 -> float64 -> float64 := SFdiv FPREC FEMAX.
Definition fabs : float64 -> float64 := SFabs.
Definition feqb : float64 -> float64 -> bool := SFeqb.
Definition fltb : float64 -> float64 -> bool := SFltb.
Definition fleb : float64 -> float64 -> bool := SFleb.

(** [float(z)]: correctly rounded. *)
Definition f_of_Z (z : Z) : float64 := binary_normalize FPREC FEMAX z 0 false.
Definition fzero : float64 := S754_zero false.

(** [a / b] on integers: the correctly rounded quotient of the two integers. *)
Definition int_truediv (a b : Z) : option float64 :=
  match a, b with
  | _, Z0 => None
  | Z0, _ => Some fzero
  | Zpos p, Zpos q | Zneg p, Zneg q =>
      let '(m, e, l) := SFdiv_core_binary FPREC FEMAX (Zpos p) 0 (Zpos q) 0 in
      Some (binary_round_aux FPREC FEMAX false m e l)
  | Zpos p, Zneg q | Zneg p, Zpos q =>
      let '(m, e, l) := SFdiv_core_binary FPREC FEMAX (Zpos p) 0 (Zpos q) 0 in
      Some (binary_round_aux FPREC FEMAX true m e l)
  end.

Definition is_nan (x : float64) : bool := match x with S754_nan => true | _ => false end.
Definition is_finite (x : float64) : bool :=
  match x with S754_zero _ | S754_finite _ _ _ => true | _ => false end.

(** [math.floor(x)]; an infinity or a NaN raises. *)
Definition py_floor (x : float64) : result Z :=
  match x with
  | S754_zero _ => Ok 0
  | S754_finite s m e =>
      let z := if s then Zneg m else Zpos m in
      Ok (if 0 <=? e then z * 2 ^ e else z / 2 ^ (- e))
  | S754_infinity _ => Raise (OverflowError "cannot convert float infinity to integer")
  | S754_nan => Raise (ValueError "cannot convert float NaN to integer")
  end.

(** The integral part of a float, toward zero ([math.modf], [int]). *)
Definition f_trunc (x : float64) : Z :=
  match x with
  | S754_finite s m e =>
      let z := if 0 <=? e then Zpos m * 2 ^ e else Zpos m / 2 ^ (- e) in
      if s then - z else z
  | _ => 0
  end.

(** [n / d] rounded to the nearest integer, ties to even. *)
Definition round_even_div (n d : Z) : Z :=
  let q := n / d in
  let r := n mod d in
  if 2 * r <? d then q else if d <? 2 * r then q + 1 else if Z.even q then q else q + 1.

(** [round(x)] without digits. *)
Definition py_round (x : float64) : result Z :=
  match x with
  | S754_zero _ => Ok 0
  | S754_finite s m e =>
      let z := if s then Zneg m else Zpos m in
      Ok (if 0 <=? e then z * 2 ^ e else round_even_div z (2 ^ (- e)))
  | S754_infinity _ => Raise (OverflowError "cannot convert float infinity to integer")
  | S754_nan => Raise (ValueError "cannot convert float NaN to integer")
  end.

(** [max(a, b)] and [min(a, b)]: the first wins unless the second is strictly
    beyond it. *)
Definition fmax (a b : float64) : float64 := if fltb a b then b else a.
Definition fmin (a b : float64) : float64 := if fltb b a then b else a.

(** [math.isclose(a, b, rel_tol=0.0, abs_tol=tol)] *)
Definition isclose_abs (tol a b : float64) : bool :=
  if feqb a b then true
  else match a, b with
       | S754_infinity _, _ | _, S754_infinity _ => false
       | _, _ =>
           let diff := fabs (fsub b a) in
           fleb diff (fabs (fmul fzero b)) || fleb diff (fabs (fmul fzero a)) || fleb diff tol
       end.

(** A price that may be missing: [float | None]. *)
Definition price := option float64.

(** [a == b] on [float | None] *)
Definition price_eqb (a b : price) : bool :=
  match a, b with
  | None, None => true
  | Some x, Some y => feqb x y
  | _, _ => false
  end.

(** [(a, b) == (c, d)] on pairs of [float | None] *)
Definition levels_eqb (p q : price * price) : bool :=
  price_eqb p.1 q.1 && price_eqb p.2 q.2.

(** ** The order on doubles *)

Lemma pos_compare_opp m n : CompOpp (Pos.compare_cont Eq m n) = Pos.compare_cont Eq n m.
Proof. change (CompOpp (Pos.compare m n) = Pos.compare n m). symmetry. apply Pos.compare_antisym. Qed.

Lemma fcompare_antisym x y : SFcompare y x = CompOpp <$> SFcompare x y.
Proof.
  destruct x as [s|s| |s m e], y as [s'|s'| |s' m' e']; try done;
    try by destruct s; try destruct s'.
  simpl. destruct s, s'; simpl; try done.
  - f_equal. rewrite (Z.compare_antisym e e'). destruct (e ?= e'); simpl; try done.
    by rewrite !pos_compare_opp.
  - f_equal. rewrite (Z.compare_antisym e e'). destruct (e ?= e'); simpl; try done.
    by rewrite pos_compare_opp.
Qed.

Lemma fcompare_nan x y : SFcompare x y = None <-> is_nan x = true \/ is_nan y = true.
Proof.
  destruct x as [s|s| |s m e], y as [s'|s'| |s' m' e']; simpl; split; intros; destruct_or?; done || tauto.
Qed.

Lemma fcompare_refl x : is_nan x = false -> SFcompare x x = Some Eq.
Proof.
  destruct x as [s|s| |s m e]; simpl; try done; destruct s; try done.
  all: rewrite Z.compare_refl; change (Pos.compare_cont Eq m m) with (Pos.compare m m);
       by rewrite Pos.compare_refl.
Qed.

Lemma fleb_refl x : is_nan x = false -> fleb x x = true.
Proof. intros H. unfold fleb, SFleb. by rewrite fcompare_refl. Qed.

Lemma fltb_fleb x y : fltb x y = true -> fleb x y = true.
Proof. unfold fltb, fleb, SFltb, SFleb. by destruct (SFcompare x y) as [[]|]. Qed.

Lemma fltb_false_fleb x y :
  is_nan x = false -> is_nan y = false -> fltb x y = false -> fleb y x = true.
Proof.
  intros Hx Hy. unfold fltb, fleb, SFltb, SFleb. rewrite (fcompare_antisym x y).
  destruct (SFcompare x y) as [[]|] eqn:E; simpl; try done.
  apply fcompare_nan in E. by destruct E as [E|E]; rewrite E in *.
Qed.

(** A key that orders the doubles lexicographically; NaN has none. *)
Definition fkey (x : float64) : Z * Z * Z :=
  match x with
  | S754_infinity true => (-2, 0, 0)
  | S754_finite true m e => (-1, - e, Zneg m)
  | S754_zero _ | S754_nan => (0, 0, 0)
  | S754_finite false m e => (1, e, Zpos m)
  | S754_infinity false => (2, 0, 0)
  end.

Definition lex3 (p q : Z * Z * Z) : comparison :=
  match p.1.1 ?= q.1.1 with
  | Eq => match p.1.2 ?= q.1.2 with Eq => p.2 ?= q.2 | c => c end
  | c => c
  end.

Lemma fcompare_key x y :
  is_nan x = false -> is_nan y = false -> SFcompare x y = Some (lex3 (fkey x) (fkey y)).
Proof.
  intros Hx Hy.
  destruct x as [s|s| |s m e], y as [s'|s'| |s' m' e']; try done;
    try by destruct s; try destruct s'.
  simpl. unfold lex3. destruct s, s'; cbn -[Z.compare Pos.compare_cont]; try done.
  change (-1 ?= -1) with Eq. cbv match.
  rewrite Z.compare_opp, (Z.compare_antisym e e').
  destruct (e ?= e'); simpl; done.
Qed.

Lemma lex3_le_trans p q r : lex3 p q <> Gt -> lex3 q r <> Gt -> lex3 p r <> Gt.
Proof.
  destruct p as [[a b] c], q as [[a' b'] c'], r as [[a2 b2] c2]. unfold lex3; simpl.
  destruct (Z.compare_spec a a'), (Z.compare_spec a' a2), (Z.compare_spec a a2);
    try lia; try done;
  destruct (Z.compare_spec b b'), (Z.compare_spec b' b2), (Z.compare_spec b b2);
    try lia; try done;
  destruct (Z.compare_spec c c'), (Z.compare_spec c' c2), (Z.compare_spec c c2);
    try lia; try done.
Qed.

Lemma fleb_nan x y : fleb x y = true -> is_nan x = false /\ is_nan y = false.
Proof. unfold fleb, SFleb. by destruct x as [[]|[]| |[]], y as [[]|[]| |[]]. Qed.

Lemma fleb_lex x y :
  is_nan x = false -> is_nan y = false -> fleb x y = true <-> lex3 (fkey x) (fkey y) <> Gt.
Proof.
  intros Hx Hy. unfold fleb, SFleb. rewrite fcompare_key by done.
  destruct (lex3 _ _); naive_solver.
Qed.

Lemma fleb_trans x y z : fleb x y = true -> fleb y z = true -> fleb x z = true.
Proof.
  intros H1 H2. destruct (fleb_nan _ _ H1) as [Hx Hy]. destruct (fleb_nan _ _ H2) as [_ Hz].
  apply fleb_lex; try done. apply fleb_lex in H1, H2; try done. eauto using lex3_le_trans.
Qed.

Lemma fmax_ge_r a b : is_nan a = false -> is_nan b = false -> fleb b (fmax a b) = true.
Proof. intros Ha Hb. unfold fmax. destruct (fltb a b) eqn:E; [by apply fleb_refl|].
  by apply fltb_false_fleb. Qed.

Lemma fmax_ge_l a b : is_nan a = false -> fleb a (fmax a b) = true.
Proof. intros Ha. unfold fmax. destruct (fltb a b) eqn:E; [by apply fltb_fleb|by apply fleb_refl]. Qed.

Lemma fmin_le_r a b : is_nan a = false -> is_nan b = false -> fleb (fmin a b) b = true.
Proof. intros Ha Hb. unfold fmin. destruct (fltb b a) eqn:E; [by apply fleb_refl|].
  by apply fltb_false_fleb. Qed.

Lemma fmin_le_l a b : is_nan a = false -> fleb (fmin a b) a = true.
Proof. intros Ha. unfold fmin. destruct (fltb b a) eqn:E; [by apply fltb_fleb|by apply fleb_refl]. Qed.

Lemma fltb_irrefl x : fltb x x = false.
Proof. unfold fltb, SFltb. destruct (is_nan x) eqn:E; [by destruct x|].
  by rewrite fcompare_refl. Qed.

Lemma feqb_refl x : is_nan x = false -> feqb x x = true.
Proof. intros H. unfold feqb, SFeqb. by rewrite fcompare_refl. Qed.

(** ** Rounding to an integer *)

Lemma round_even_div_bounds n d : 0 < d -> 2 * n - d <= 2 * d * round_even_div n d <= 2 * n + d.
Proof.
  intros Hd. unfold round_even_div.
  assert (Hdm := Z.div_mod n d ltac:(lia)). assert (Hr := Z.mod_pos_bound n d Hd).
  destruct (Z.ltb_spec (2 * (n mod d)) d), (Z.ltb_spec d (2 * (n mod d)));
    try destruct (Z.even _); nia.
Qed.
