(* ===== verification/PyRepr.v ===== *)
(** * Python floats as text: [float(s)] and [repr(x)]

    [float(s)] is the double nearest to the decimal number the text writes;
    [repr(x)] is the shortest text that reads back as [x], the one closest to
    [x] when several are as short.  Both as CPython computes them.  The number
    grammar is shared with [decimal.Decimal]. *)

From S2P Require Import Prelude PyStr PyFloat.
From Stdlib Require Import Ascii SpecFloat.

(** ** Numbers in text *)

Fixpoint str_remove (c : ascii) (s : string) : string :=
  match s with
  | EmptyString => EmptyString
  | String a s' => if decide (a = c) then str_remove c s' else String a (str_remove c s')
  end.

Definition char_lower (c : ascii) : ascii :=
  let n := nat_of_ascii c in
  if (65 <=? n)%nat && (n <=? 90)%nat then ascii_of_nat (n + 32) else c.
Fixpoint str_lower (s : string) : string :=
  match s with
  | EmptyString => EmptyString
  | String c s' => String (char_lower c) (str_lower s')
  end.

(** The leading digits: their value after [acc], how many, and what follows. *)
Fixpoint take_digits (acc : Z) (n : nat) (s : string) : Z * nat * string :=
  match s with
  | EmptyString => (acc, n, s)
  | String c s' =>
      match digit_of c with
      | Some d => take_digits (10 * acc + d) (S n) s'
      | None => (acc, n, s)
      end
  end.

(** [[+-]?] in front of the rest *)
Definition take_sign (s : string) : bool * string :=
  match s with
  | String "-" s' => (true, s')
  | String "+" s' => (false, s')
  | _ => (false, s)
  end.

(** [(E[+-]?\d+)?] up to the end *)
Definition parse_exponent (s : string) : option Z :=
  match s with
  | EmptyString => Some 0
  | String c s' =>
      if bool_decide (c = "e"%char) || bool_decide (c = "E"%char) then
        let '(neg, r) := take_sign s' in
        let '(x, n, r') := take_digits 0 0 r in
        if bool_decide (r' = EmptyString) && negb (n =? 0)%nat then Some (if neg then - x else x) else None
      else None
  end.

(** An unsigned number: its digits as an integer, and the power of ten. *)
Definition parse_unsigned (s : string) : option (Z * Z) :=
  let '(c1, n1, r1) := take_digits 0 0 s in
  let '(c2, n2, r2) := match r1 with
                       | String "." r => take_digits c1 0 r
                       | _ => (c1, 0%nat, r1)
                       end in
  if (n1 + n2 =? 0)%nat then None
  else (fun x => (c2, x - Z.of_nat n2)) <$> parse_exponent r2.

(** Underscores are allowed between digits only. *)
Fixpoint underscores_ok (prev : bool) (s : string) : bool :=
  match s with
  | EmptyString => true
  | String c s' =>
      if decide (c = "_"%char)
      then prev && match s' with String d _ => is_digit d | EmptyString => false end && underscores_ok false s'
      else underscores_ok (is_digit c) s'
  end.

(** ** [float(s)] *)

(** The double nearest to [c * 10 ^ e], for [c >= 0]. *)
Definition float_of_dec (neg : bool) (c e : Z) : float64 :=
  match c with
  | Zpos p =>
      let q := if 0 <=? e then int_truediv (Zpos p * 10 ^ e) 1 else int_truediv (Zpos p) (10 ^ (- e)) in
      let x := default (S754_infinity false) q in
      if neg then SFopp x else x
  | _ => S754_zero neg
  end.

(** [None] is the [ValueError]. *)
Definition py_float (text : string) : option float64 :=
  let s := str_strip text in
  let '(neg, body) := take_sign s in
  let low := str_lower body in
  if bool_decide (low = "inf") || bool_decide (low = "infinity") then Some (S754_infinity neg)
  else if bool_decide (low = "nan") then Some S754_nan
  else if underscores_ok false body
       then (fun ce => float_of_dec neg ce.1 ce.2) <$> parse_unsigned (str_remove "_" body)
       else None.

(** ** [repr(x)] *)

Fixpoint zeros (n : nat) : string := match n with O => "" | S n' => String "0" (zeros n') end.

(** The digits [c] as the number [0.c * 10 ^ decpt]: positional when the point
    is near, else with an exponent of at least two digits. *)
Definition format_digits (c decpt : Z) : string :=
  let ds := pretty c in
  let n := Z.of_nat (String.length ds) in
  if (decpt <=? -4) || (16 <? decpt) then
    let x := decpt - 1 in
    let mant := match ds with
                | String d EmptyString => ds
                | String d r => String d ("." +:+ r)
                | EmptyString => ds
                end in
    let ex := pretty (Z.abs x) in
    mant +:+ "e" +:+ (if x <? 0 then "-" else "+") +:+ (if Z.abs x <? 10 then "0" else "") +:+ ex
  else if decpt <=? 0 then "0." +:+ zeros (Z.to_nat (- decpt)) +:+ ds
  else if n <=? decpt then ds +:+ zeros (Z.to_nat (decpt - n)) +:+ ".0"
  else str_take (Z.to_nat decpt) ds +:+ "." +:+ str_drop (Z.to_nat decpt) ds.

(** [m * 2 ^ e] as a fraction. *)
Definition frac_num (m e : Z) : Z := if 0 <=? e then m * 2 ^ e else m.
Definition frac_den (e : Z) : Z := if 0 <=? e then 1 else 2 ^ (- e).

(** The [k] with [10 ^ (k - 1) <= num / den < 10 ^ k], from the two lengths. *)
Definition decpt_of (num den : Z) : Z :=
  let k := Z.of_nat (String.length (pretty num)) - Z.of_nat (String.length (pretty den)) in
  if (if 0 <=? k then den * 10 ^ k <=? num else den <=? num * 10 ^ (- k)) then k + 1 else k.

(** The two [n]-digit neighbours of [num / den] as scaled integers, the nearer
    one first. *)
Definition neighbours (num den k : Z) (n : Z) : list Z :=
  let s := n - k in
  let a := if 0 <=? s then num * 10 ^ s else num in
  let b := if 0 <=? s then den else den * 10 ^ (- s) in
  let lo := a / b in
  let r := a mod b in
  if r =? 0 then [lo]
  else if (2 * r <? b) || ((2 * r =? b) && Z.even lo) then [lo; lo + 1] else [lo + 1; lo].

(** The text of the first neighbour that reads back as [x], trying ever more
    digits. *)
Fixpoint shortest (fuel : nat) (x : float64) (num den k n : Z) : option string :=
  match fuel with
  | O => None
  | S f =>
      let texts := (fun c => format_digits c (k + (Z.of_nat (String.length (pretty c)) - n))) <$> neighbours num den k n in
      match list_find (fun t => py_float t = Some x) texts with
      | Some (_, t) => Some t
      | None => shortest f x num den k (n + 1)
      end
  end.

(** Every digit of [m * 2 ^ e], for an exponent below zero. *)
Definition exact_text (m e : Z) : string :=
  pretty (m * 5 ^ (- e)) +:+ "e-" +:+ pretty (- e).

(** Seventeen digits are enough for a double; [exact_text] makes the
    definition total. *)
Definition repr_pos (m : positive) (e : Z) : string :=
  let num := frac_num (Zpos m) e in
  let den := frac_den e in
  let x := S754_finite false m e in
  match shortest 17 x num den (decpt_of num den) 1 with
  | Some t => t
  | None => if 0 <=? e then pretty num else exact_text (Zpos m) e
  end.

Definition float_repr (x : float64) : string :=
  match x with
  | S754_nan => "nan"
  | S754_infinity s => if s then "-inf" else "inf"
  | S754_zero s => if s then "-0.0" else "0.0"
  | S754_finite s m e => (if s then "-" else "") +:+ repr_pos m e
  end.

Example repr_01 : float_repr (float_of_dec false 1 (-1)) = "0.1". Proof. vm_compute. reflexivity. Qed.
Example repr_third : float_repr (default fzero (int_truediv 1 3)) = "0.3333333333333333". Proof. vm_compute. reflexivity. Qed.
Example repr_1e16 : float_repr (f_of_Z (10 ^ 16)) = "1e+16". Proof. vm_compute. reflexivity. Qed.
Example repr_1e15 : float_repr (f_of_Z (- 10 ^ 15)) = "-1000000000000000.0". Proof. vm_compute. reflexivity. Qed.
Example repr_small : float_repr (float_of_dec false 5 (-324)) = "5e-324". Proof. vm_compute. reflexivity. Qed.
Example repr_pow2 : float_repr (float_of_dec false 5684341886080802 (-29)) = "5.684341886080802e-14". Proof. vm_compute. reflexivity. Qed.
Example repr_price : float_repr (float_of_dec false 108456 (-5)) = "1.08456". Proof. vm_compute. reflexivity. Qed.
Example repr_max : float_repr (float_of_dec false 17976931348623157 292) = "1.7976931348623157e+308". Proof. vm_compute. reflexivity. Qed.
Example float_1e400 : py_float " -1e400 " = Some (S754_infinity true). Proof. vm_compute. reflexivity. Qed.

(** ** Division that is exact *)

Lemma digits2_spec p : 2 ^ (Zpos (digits2_pos p) - 1) <= Zpos p < 2 ^ Zpos (digits2_pos p).
Proof.
  induction p as [p IH|p IH|]; simpl digits2_pos; [| |by cbn]; rewrite Pos2Z.inj_succ;
    replace (Z.succ (Zpos (digits2_pos p)) - 1) with (Z.succ (Zpos (digits2_pos p) - 1)) by lia;
    rewrite !Z.pow_succ_r by lia; lia.
Qed.

Lemma digits2_unique p d : 2 ^ (d - 1) <= Zpos p < 2 ^ d -> Zpos (digits2_pos p) = d.
Proof.
  intros [H1 H2]. pose proof (digits2_spec p) as [H3 H4].
  assert (d - 1 < Zpos (digits2_pos p)).
  { destruct (Z.le_gt_cases 0 (d - 1)); [|lia]. apply (Z.pow_lt_mono_r_iff 2); lia. }
  assert (Zpos (digits2_pos p) - 1 < d); [|lia].
  destruct (Z.le_gt_cases 0 d) as [Hd|Hd]; [|rewrite (Z.pow_neg_r 2 d) in H2 by lia; lia]. apply (Z.pow_lt_mono_r_iff 2); lia.
Qed.

Lemma digits2_shift m k p :
  0 <= k -> Zpos p = Zpos m * 2 ^ k -> Zpos (digits2_pos p) = Zpos (digits2_pos m) + k.
Proof.
  intros Hk Hp. apply digits2_unique. pose proof (digits2_spec m) as [H1 H2].
  replace (Zpos (digits2_pos m) + k - 1) with (Zpos (digits2_pos m) - 1 + k) by lia.
  rewrite !Z.pow_add_r by lia. assert (0 < 2 ^ k) by (by apply Z.pow_pos_nonneg). nia.
Qed.

Lemma iter_pos_iter {A} (f : A -> A) n x : iter_pos f n x = Pos.iter f x n.
Proof.
  revert x. induction n as [n IH|n IH|]; intros x; simpl; [| |done]; rewrite !IH; [|done].
  by rewrite <- !Pos.iter_swap.
Qed.

Lemma shr_exact m n :
  iter_pos shr_1 n {| shr_m := Zpos m * 2 ^ Zpos n; shr_r := false; shr_s := false |} =
  {| shr_m := Zpos m; shr_r := false; shr_s := false |}.
Proof.
  rewrite iter_pos_iter. revert m. induction n as [|n IH] using Pos.peano_ind; intros m; [by rewrite Z.mul_comm|].
  rewrite Pos.iter_succ_r. rewrite Pos2Z.inj_succ, Z.pow_succ_r by lia.
  replace (Zpos m * (2 * 2 ^ Zpos n)) with (2 * (Zpos m * 2 ^ Zpos n)) by ring.
  assert (exists p, Zpos m * 2 ^ Zpos n = Zpos p) as [p Hp].
  { exists (m * 2 ^ n)%positive. by rewrite Pos2Z.inj_mul, Pos2Z.inj_pow. }
  rewrite Hp. change (shr_1 _) with {| shr_m := Zpos p; shr_r := false; shr_s := false |}. rewrite <- Hp. apply IH.
Qed.

Lemma bounded_spec m e :
  bounded FPREC FEMAX m e = true -> fexp FPREC FEMAX (Zpos (digits2_pos m) + e) = e /\ e <= FEMAX - FPREC.
Proof. unfold bounded, canonical_mantissa. intros H. bsimp. done. Qed.

Lemma round_aux_exact s m e k :
  0 <= k -> bounded FPREC FEMAX m e = true ->
  binary_round_aux FPREC FEMAX s (Zpos m * 2 ^ k) (e - k) loc_Exact = S754_finite s m e.
Proof.
  intros Hk Hb. apply bounded_spec in Hb as [Hc He].
  assert (exists p, Zpos m * 2 ^ k = Zpos p) as [p Hp].
  { assert (0 < 2 ^ k) by (by apply Z.pow_pos_nonneg). exists (Z.to_pos (Zpos m * 2 ^ k)). lia. }
  assert (forall j q, 0 <= j -> Zpos m * 2 ^ j = Zpos q ->
    shr_fexp FPREC FEMAX (Zpos q) (e - j) loc_Exact = ({| shr_m := Zpos m; shr_r := false; shr_s := false |}, e)) as Hshr.
  { intros j q Hj Hq. unfold shr_fexp. cbn [Zdigits2 shr_record_of_loc].
    rewrite (digits2_shift m j q) by done.
    replace (Zpos (digits2_pos m) + j + (e - j)) with (Zpos (digits2_pos m) + e) by lia. rewrite Hc.
    replace (e - (e - j)) with j by lia. unfold shr. destruct j as [|n|n]; [|rewrite <- Hq, shr_exact; f_equal; lia|lia].
    rewrite Z.pow_0_r, Z.mul_1_r in Hq. rewrite Hq. f_equal. lia. }
  unfold binary_round_aux. rewrite Hp, (Hshr k p) by done.
  cbn [shr_m loc_of_shr_record round_nearest_even].
  pose proof (Hshr 0 m ltac:(lia)) as H0. rewrite Z.sub_0_r, Z.pow_0_r, Z.mul_1_r in H0. rewrite (H0 eq_refl).
  cbn [shr_m]. by rewrite (proj2 (Z.leb_le _ _)) by done.
Qed.

(** The quotient of two integers is exact when a double can hold it. *)
Lemma int_truediv_exact m e p q :
  bounded FPREC FEMAX m e = true ->
  Zpos p * frac_den e = Zpos q * frac_num (Zpos m) e ->
  int_truediv (Zpos p) (Zpos q) = Some (S754_finite false m e).
Proof.
  intros Hb Hpq. unfold int_truediv, SFdiv_core_binary. cbn [Zdigits2]. rewrite !Z.add_0_r, Z.sub_0_r.
  set (e' := Z.min (fexp FPREC FEMAX (Zpos (digits2_pos p) - Zpos (digits2_pos q))) 0).
  pose proof (bounded_spec _ _ Hb) as [Hc He].
  assert (Hle : e' <= e).
  { assert (fexp FPREC FEMAX (Zpos (digits2_pos p) - Zpos (digits2_pos q)) <= e); [|lia].
    rewrite <- Hc. unfold fexp. apply Z.max_le_compat_r, Z.sub_le_mono_r.
    pose proof (digits2_spec p) as [Hp1 Hp2]. pose proof (digits2_spec q) as [Hq1 Hq2].
    pose proof (digits2_spec m) as [Hm1 Hm2].
    assert (Zpos (digits2_pos p) - 1 < Zpos (digits2_pos q) + Zpos (digits2_pos m) + e); [|lia].
    assert (0 < 2 ^ Zpos (digits2_pos m)) by (by apply Z.pow_pos_nonneg).
    unfold frac_den, frac_num in Hpq. destruct (Z.leb_spec 0 e) as [H0|H0].
    - apply (Z.pow_lt_mono_r_iff 2); [lia|lia|]. rewrite !Z.pow_add_r by lia.
      assert (0 < 2 ^ e) by (by apply Z.pow_pos_nonneg).
      assert (Zpos m * 2 ^ e < 2 ^ Zpos (digits2_pos m) * 2 ^ e) by (by apply Z.mul_lt_mono_pos_r).
      assert (Zpos q * (Zpos m * 2 ^ e) < 2 ^ Zpos (digits2_pos q) * (2 ^ Zpos (digits2_pos m) * 2 ^ e))
        by (apply Z.mul_lt_mono_nonneg; lia).
      lia.
    - assert (Zpos (digits2_pos p) - 1 + - e < Zpos (digits2_pos q) + Zpos (digits2_pos m)); [|lia].
      apply (Z.pow_lt_mono_r_iff 2); [lia|lia|]. rewrite !Z.pow_add_r by lia.
      assert (0 < 2 ^ (- e)) by (apply Z.pow_pos_nonneg; lia).
      assert (Zpos q * Zpos m < 2 ^ Zpos (digits2_pos q) * 2 ^ Zpos (digits2_pos m))
        by (apply Z.mul_lt_mono_nonneg; lia).
      assert (2 ^ (Zpos (digits2_pos p) - 1) * 2 ^ (- e) <= Zpos p * 2 ^ (- e)) by (apply Z.mul_le_mono_pos_r; lia).
      lia. }
  assert (e' <= 0) as He0 by lia.
  assert (Hm' : Zpos p * 2 ^ (- e') = Zpos q * (Zpos m * 2 ^ (e - e'))).
  { unfold frac_den, frac_num in Hpq. destruct (Z.leb_spec 0 e) as [H0|H0].
    - rewrite Z.mul_1_r in Hpq. rewrite Hpq. replace (e - e') with (e + - e') by lia.
      rewrite (Z.pow_add_r 2 e) by lia. ring.
    - replace (- e') with (- e + (e - e')) by lia. rewrite Z.pow_add_r by lia.
      rewrite Z.mul_assoc, Hpq. ring. }
  assert (Hs : match - e' with Z0 => Zpos p | Zpos _ => Z.shiftl (Zpos p) (- e') | Zneg _ => 0 end
               = Zpos q * (Zpos m * 2 ^ (e - e'))).
  { rewrite <- Hm'. destruct (- e') as [|n|n] eqn:En; [by rewrite Z.pow_0_r, Z.mul_1_r| |lia].
    rewrite Z.shiftl_mul_pow2 by lia. done. }
  change (0 - e') with (- e'). rewrite Hs.
  assert (Z.div_eucl (Zpos q * (Zpos m * 2 ^ (e - e'))) (Zpos q) = (Zpos m * 2 ^ (e - e'), 0)) as ->.
  { pose proof (Z.div_mod (Zpos q * (Zpos m * 2 ^ (e - e'))) (Zpos q) ltac:(lia)).
    rewrite (Z.mul_comm (Zpos q)).
    rewrite <- (Z.div_mul (Zpos m * 2 ^ (e - e')) (Zpos q)) at 2 by lia.
    rewrite <- (Z.mod_mul (Zpos m * 2 ^ (e - e')) (Zpos q)) by lia.
    unfold Z.div, Z.modulo. by destruct (Z.div_eucl _ _). }
  assert (new_location (Zpos q) 0 = loc_Exact) as ->.
  { unfold new_location. by destruct (Z.even _). }
  f_equal. rewrite <- (round_aux_exact false m e (e - e')) by (lia || done). f_equal. lia.
Qed.

(** ** Numeric text *)

(** The characters a printed number is made of. *)
Definition num_char (c : ascii) : bool :=
  is_digit c || bool_decide (c = "."%char) || bool_decide (c = "e"%char)
  || bool_decide (c = "+"%char) || bool_decide (c = "-"%char).

(** An unsigned printed number: such characters, a digit first. *)
Definition num_text (s : string) : Prop :=
  str_all num_char s = true /\ exists c r, s = String c r /\ is_digit c = true.

Lemma str_all_app P s t : str_all P (s +:+ t) = str_all P s && str_all P t.
Proof. induction s; simpl; [done|]. rewrite IHs. by rewrite andb_assoc. Qed.

Lemma str_all_take P n s : str_all P s = true -> str_all P (str_take n s) = true.
Proof. revert s. induction n as [|n IH]; intros [|c s]; simpl; try done. intros H. bsimp. rewrite IH by done. by rewrite H. Qed.

Lemma str_all_drop P n s : str_all P s = true -> str_all P (str_drop n s) = true.
Proof. revert s. induction n as [|n IH]; intros [|c s]; simpl; try done. intros H. bsimp. auto. Qed.

Lemma digit_num_char c : is_digit c = true -> num_char c = true.
Proof. unfold num_char. by intros ->. Qed.

Lemma pretty_pos_digits z : 0 <= z -> str_all is_digit (pretty z) = true.
Proof. intros H. destruct z as [|p|p]; [done|apply (pretty_N_digits (Npos p))|lia]. Qed.

Lemma pretty_pos_num z : 0 <= z -> str_all num_char (pretty z) = true.
Proof. intros H. eapply str_all_impl; [|by apply pretty_pos_digits]. apply digit_num_char. Qed.

Lemma pretty_pos_cons z : 0 <= z -> exists c r, pretty z = String c r /\ is_digit c = true.
Proof.
  intros H. pose proof (pretty_pos_digits z H) as Hd. destruct (pretty z) as [|c r] eqn:E.
  - pose proof (py_int_pretty z) as Hi. by rewrite E in Hi.
  - exists c, r. simpl in Hd. bsimp. done.
Qed.

Lemma num_text_pretty z : 0 <= z -> num_text (pretty z).
Proof. intros H. split; [by apply pretty_pos_num|by apply pretty_pos_cons]. Qed.

Lemma num_text_app s t : num_text s -> str_all num_char t = true -> num_text (s +:+ t).
Proof.
  intros [Hs (c & r & -> & Hc)] Ht. split; [by rewrite str_all_app, Hs, Ht|]. by exists c, (r +:+ t).
Qed.

Lemma zeros_num n : str_all num_char (zeros n) = true.
Proof. by induction n. Qed.

Lemma num_text_take n s : num_text s -> (0 < n)%nat -> num_text (str_take n s).
Proof.
  intros [Hs (c & r & -> & Hc)] Hn. split; [by apply str_all_take|].
  destruct n as [|n]; [lia|]. by exists c, (str_take n r).
Qed.

Lemma format_num_text c k : 0 <= c -> num_text (format_digits c k).
Proof.
  intros Hc. pose proof (num_text_pretty c Hc) as Hp. unfold format_digits.
  destruct (_ || _) eqn:Hexp; [|destruct (Z.leb_spec k 0); [|destruct (Z.of_nat _ <=? k)]].
  - assert (num_text (match pretty c with String d EmptyString => pretty c | String d r => String d ("." +:+ r) | EmptyString => pretty c end)) as Hm.
    { destruct Hp as [Ha (d & r & E & Hd)]. rewrite E in *. simpl in Ha. apply andb_true_iff in Ha as [Ha H].
      destruct r; (split; [|by eexists _, _]).
      - simpl. by rewrite Ha.
      - change (num_char d && str_all num_char ("." +:+ String a r) = true).
        rewrite Ha, str_all_app. by rewrite H. }
    apply num_text_app; [done|]. rewrite !str_all_app, pretty_pos_num by lia. by repeat case_match.
  - split; [|by eexists _, _]. rewrite !str_all_app, zeros_num, pretty_pos_num by lia. done.
  - apply num_text_app; [done|]. by rewrite str_all_app, zeros_num.
  - apply num_text_app; [apply num_text_take; [done|lia]|].
    rewrite str_all_app. destruct Hp as [Ha _]. by rewrite str_all_drop.
Qed.

(** Reading such a text: nothing to strip, no word, no underscore. *)
Lemma num_char_facts c :
  num_char c = true -> is_space c = false /\ c <> "_"%char /\ c <> ascii_of_nat 9 /\ c <> ascii_of_nat 10 /\ c <> ascii_of_nat 13.
Proof. destruct c as [[] [] [] [] [] [] [] []]; try done. Qed.

Lemma num_all_strip s : str_all num_char s = true -> str_strip s = s.
Proof.
  intros H. assert (str_all (fun c => negb (is_space c)) s = true) as Hn.
  { eapply str_all_impl; [|exact H]. intros c Hc. by destruct (num_char_facts c Hc) as [-> _]. }
  unfold str_strip. rewrite lstrip_nospace by done. by rewrite rstrip_nospace.
Qed.

Lemma num_no_underscore s : str_all num_char s = true -> str_remove "_" s = s /\ forall b, underscores_ok b s = true.
Proof.
  induction s as [|c s IH]; simpl; [done|]. intros H. bsimp. destruct (IH H0) as [-> Hu].
  rewrite decide_False by apply (num_char_facts c H). split; [done|]. intros b.
  rewrite decide_False by apply (num_char_facts c H). done.
Qed.

Lemma digit_head_word c r w : is_digit c = true -> w ∈ ["inf"; "infinity"; "nan"] -> str_lower (String c r) <> w.
Proof.
  intros Hc Hw E. assert (char_lower c = c) as Hl by (destruct c as [[] [] [] [] [] [] [] []]; done).
  simpl in E. rewrite Hl in E.
  repeat (apply elem_of_cons in Hw as [->|Hw]; [injection E as -> _; done|]). by apply elem_of_nil in Hw.
Qed.

Lemma py_float_num s (neg : bool) :
  num_text s ->
  py_float ((if neg then "-" else "") +:+ s) = (fun ce : Z * Z => float_of_dec neg ce.1 ce.2) <$> parse_unsigned s.
Proof.
  intros [Ha (c & r & E & Hc)]. destruct (num_no_underscore s Ha) as [Hr Hu].
  assert (forall b : bool, (if b then String "-" s else s) = (if b then "-" else "") +:+ s) as Hb by (by intros []).
  assert (str_all num_char (if neg then String "-" s else s) = true) as Ha' by (destruct neg; [simpl; by rewrite Ha|done]).
  unfold py_float. rewrite <- Hb, num_all_strip by done.
  assert (take_sign (if neg then String "-" s else s) = (neg, s)) as ->.
  { destruct neg; [done|]. rewrite E. destruct c as [[] [] [] [] [] [] [] []]; done. }
  assert (forall w, w ∈ ["inf"; "infinity"; "nan"] -> bool_decide (str_lower s = w) = false) as Hw.
  { intros w Hin. apply bool_decide_eq_false. rewrite E. by apply digit_head_word. }
  rewrite !Hw by set_solver. simpl. by rewrite Hu, Hr.
Qed.

Lemma py_float_pos s :
  num_text s -> py_float s = (fun ce : Z * Z => float_of_dec false ce.1 ce.2) <$> parse_unsigned s.
Proof. exact (py_float_num s false). Qed.

(** ** [float(repr(x)) = x] *)

Fixpoint digits_val (acc : Z) (s : string) : Z :=
  match s with
  | EmptyString => acc
  | String c s' => digits_val (10 * acc + default 0 (digit_of c)) s'
  end.

Lemma take_digits_app s r acc n :
  str_all is_digit s = true -> match r with String c _ => is_digit c = false | EmptyString => True end ->
  take_digits acc n (s +:+ r) = (digits_val acc s, (n + String.length s)%nat, r).
Proof.
  intros Hs Hr. revert acc n. induction s as [|c s IH]; intros acc n.
  - simpl. rewrite Nat.add_0_r. destruct r as [|c r]; [done|]. simpl. unfold is_digit in Hr.
    by destruct (digit_of c).
  - simpl in Hs. apply andb_true_iff in Hs as [Hc Hs]. unfold is_digit in Hc. simpl.
    destruct (digit_of c) as [d|]; [|done]. simpl. rewrite IH by done. do 2 f_equal. lia.
Qed.

Lemma parse_digits_val s acc seen :
  str_all is_digit s = true -> s <> "" \/ seen = true ->
  parse_digits s acc seen false = Some (digits_val acc s).
Proof.
  revert acc seen. induction s as [|c s IH]; intros acc seen Hs Hne.
  - destruct Hne as [? | ->]; done.
  - simpl in Hs |- *. apply andb_true_iff in Hs as [Hc Hs]. unfold is_digit in Hc.
    destruct (digit_of c) as [d|]; [|done]. simpl. apply IH; auto.
Qed.

Lemma digits_val_pretty z : 0 <= z -> digits_val 0 (pretty z) = z.
Proof.
  intros H. destruct (pretty_pos_cons z H) as (c & r & E & _).
  pose proof (parse_digits_val (pretty z) 0 false (pretty_pos_digits z H) ltac:(left; by rewrite E)) as Hp.
  destruct z as [|p|p]; [done| |lia]. pose proof (pretty_N_parse (Npos p)) as Hn.
  change (pretty (Npos p)) with (pretty (Zpos p)) in Hn. rewrite Hn in Hp. by simplify_eq.
Qed.

Lemma pretty_length_pos z : 0 <= z -> (0 < String.length (pretty z))%nat.
Proof. intros H. destruct (pretty_pos_cons z H) as (c & r & -> & _). simpl. lia. Qed.

Lemma parse_unsigned_pretty z : 0 <= z -> parse_unsigned (pretty z) = Some (z, 0).
Proof.
  intros H. unfold parse_unsigned. rewrite <- (str_app_nil_r (pretty z)).
  rewrite take_digits_app, digits_val_pretty by (done || by apply pretty_pos_digits).
  pose proof (pretty_length_pos z H). case_match eqn:E; [apply Nat.eqb_eq in E; lia|]. done.
Qed.

Lemma parse_unsigned_exact c k :
  0 <= c -> 0 < k -> parse_unsigned (pretty c +:+ "e-" +:+ pretty k) = Some (c, - k).
Proof.
  intros Hc Hk. unfold parse_unsigned.
  rewrite take_digits_app, digits_val_pretty by (done || by apply pretty_pos_digits).
  pose proof (pretty_length_pos c Hc). pose proof (pretty_length_pos k ltac:(lia)).
  change ("e-" +:+ pretty k) with (String "e" (String "-" (pretty k))). cbn -[pretty take_digits].
  case_match eqn:E; [apply Nat.eqb_eq in E; lia|].
  rewrite <- (str_app_nil_r (pretty k)), take_digits_app by (done || (apply pretty_pos_digits; lia)).
  rewrite digits_val_pretty by lia. rewrite Nat.add_0_l.
  destruct (Nat.eqb_spec (String.length (pretty k)) 0); [lia|]. simpl. do 2 f_equal. lia.
Qed.

Lemma shortest_reads_back fuel x num den k n t :
  shortest fuel x num den k n = Some t -> py_float t = Some x /\ (0 <= num -> 0 < den -> num_text t).
Proof.
  revert n. induction fuel as [|f IH]; intros n; simpl; [done|].
  destruct (list_find _ _) as [[i t']|] eqn:E; [|apply IH].
  intros [= ->]. apply list_find_Some in E as (Hin & Hx & _). split; [done|]. intros Hnum Hden.
  apply list_lookup_fmap_Some in Hin as (c & -> & Hc). apply format_num_text.
  apply list_elem_of_lookup_2 in Hc. revert Hc. unfold neighbours.
  set (a := if 0 <=? n - k then _ else _). set (b := if 0 <=? n - k then den else _).
  assert (0 <= a) by (subst a; destruct (Z.leb_spec 0 (n - k)); [assert (0 < 10 ^ (n - k)) by (by apply Z.pow_pos_nonneg); nia|lia]).
  assert (0 < b) by (subst b; destruct (Z.leb_spec 0 (n - k)); [lia|assert (0 < 10 ^ (- (n - k))) by (apply Z.pow_pos_nonneg; lia); nia]).
  assert (0 <= a / b) by (apply Z.div_pos; lia).
  repeat case_match; rewrite ?elem_of_cons, ?elem_of_nil; lia.
Qed.

Lemma frac_num_pos m e : 0 < frac_num (Zpos m) e.
Proof. unfold frac_num. destruct (Z.leb_spec 0 e); [|lia]. assert (0 < 2 ^ e) by (by apply Z.pow_pos_nonneg). lia. Qed.

Lemma frac_den_pos e : 0 < frac_den e.
Proof. unfold frac_den. destruct (Z.leb_spec 0 e); [lia|]. apply Z.pow_pos_nonneg; lia. Qed.

Lemma repr_pos_reads_back m e :
  bounded FPREC FEMAX m e = true ->
  num_text (repr_pos m e) /\ py_float (repr_pos m e) = Some (S754_finite false m e).
Proof.
  intros Hb. unfold repr_pos. destruct (shortest _ _ _ _ _ _) as [t|] eqn:E.
  - apply shortest_reads_back in E as [H1 H2]. split; [apply H2|done]; [|apply frac_den_pos].
    pose proof (frac_num_pos m e). lia.
  - clear E. destruct (Z.leb_spec 0 e) as [He|He].
    + pose proof (frac_num_pos m e) as Hn.
      assert (num_text (pretty (frac_num (Zpos m) e))) as Ht by (apply num_text_pretty; lia). split; [done|].
      rewrite (py_float_pos _ Ht), parse_unsigned_pretty by lia. cbn [fmap option_fmap option_map fst snd]. f_equal.
      destruct (frac_num (Zpos m) e) as [|p|p] eqn:Ef; [lia| |lia].
      cbn [fst snd float_of_dec Z.leb Z.compare]. rewrite Z.pow_0_r, Z.mul_1_r.
      rewrite (int_truediv_exact m e p 1); [done|done|]. unfold frac_den. rewrite (proj2 (Z.leb_le _ _)) by done. lia.
    + assert (0 < 5 ^ (- e)) as H5 by (apply Z.pow_pos_nonneg; lia).
      assert (num_text (exact_text (Zpos m) e)) as Ht.
      { unfold exact_text. apply num_text_app; [apply num_text_pretty; lia|].
        rewrite str_all_app, pretty_pos_num by lia. done. }
      split; [done|]. rewrite (py_float_pos _ Ht).
      unfold exact_text. rewrite parse_unsigned_exact by lia. cbn [fmap option_fmap option_map fst snd]. f_equal.
      destruct (Zpos m * 5 ^ (- e)) as [|p|p] eqn:Ef; [lia| |lia]. cbn [float_of_dec].
      rewrite (proj2 (Z.leb_gt _ _)) by lia. rewrite Z.opp_involutive.
      destruct (10 ^ (- e)) as [|q|q] eqn:Eq; [pose proof (Z.pow_pos_nonneg 10 (- e)); lia| |pose proof (Z.pow_pos_nonneg 10 (- e)); lia].
      rewrite (int_truediv_exact m e p q); [done|done|]. unfold frac_den, frac_num.
      rewrite (proj2 (Z.leb_gt _ _)) by lia. rewrite <- Ef, <- Eq.
      change 10 with (2 * 5). rewrite Z.pow_mul_l. ring.
Qed.

(** A printed double reads back as itself, NaN and the infinities included. *)
Lemma py_float_repr x :
  valid_binary FPREC FEMAX x = true -> py_float (float_repr x) = Some x.
Proof.
  destruct x as [s|s| |s m e]; [by destruct s|by destruct s|done|]. simpl. intros Hb.
  destruct (repr_pos_reads_back m e Hb) as [Ht Hp]. rewrite py_float_num by done.
  rewrite (py_float_pos _ Ht) in Hp.
  destruct (parse_unsigned (repr_pos m e)) as [[c k]|]; [|done]. simpl in Hp |- *. injection Hp as Hp. f_equal.
  destruct s; [|done]. unfold float_of_dec in *. destruct c as [|p|p]; [done| |done]. by rewrite Hp.
Qed.

(** No tab and no line break in it. *)
Lemma float_repr_plain x c :
  valid_binary FPREC FEMAX x = true -> c ∈ [ascii_of_nat 9; ascii_of_nat 10; ascii_of_nat 13] ->
  has_char c (float_repr x) = false.
Proof.
  intros Hv Hc. destruct x as [s|s| |s m e]; [destruct s|destruct s| |];
    try (repeat (apply elem_of_cons in Hc as [->|Hc]; [done|]); by apply elem_of_nil in Hc).
  simpl in *. destruct (repr_pos_reads_back m e Hv) as [[Ha _] _].
  assert (num_char c = false) as Hn.
  { repeat (apply elem_of_cons in Hc as [->|Hc]; [done|]). by apply elem_of_nil in Hc. }
  rewrite has_char_app, (str_all_has_char num_char c (repr_pos m e)) by done.
  destruct s; [|done]. simpl. rewrite !orb_false_r. apply bool_decide_eq_false. intros <-. done.
Qed.

(** ** Rounded results are doubles *)

Lemma shr_1_div2 mrs : 0 <= shr_m mrs -> shr_m (shr_1 mrs) = shr_m mrs / 2.
Proof.
  destruct mrs as [m r s]. simpl. intros H. destruct m as [|[p|p|]|p]; [done| | |done|lia]; simpl.
  - rewrite Pos2Z.inj_xI. apply (Z.div_unique (2 * Zpos p + 1) 2 (Zpos p) 1); lia.
  - rewrite Pos2Z.inj_xO. apply (Z.div_unique (2 * Zpos p) 2 (Zpos p) 0); lia.
Qed.

Lemma shr_div mrs e n :
  0 <= shr_m mrs -> 0 <= n -> shr_m (shr mrs e n).1 = shr_m mrs / 2 ^ n /\ (shr mrs e n).2 = e + n.
Proof.
  intros Hm Hn. destruct n as [|n|n]; [|simpl|lia].
  - simpl. rewrite Z.div_1_r. lia.
  - split; [|done]. rewrite iter_pos_iter. revert mrs Hm Hn.
    induction n as [|n IH] using Pos.peano_ind; intros mrs Hm _.
    + cbn [Pos.iter]. rewrite shr_1_div2 by done. done.
    + rewrite Pos.iter_succ. rewrite shr_1_div2.
      * rewrite (IH mrs) by (done || lia). rewrite Pos2Z.inj_succ, Z.pow_succ_r by lia.
        rewrite Z.div_div by lia. f_equal. ring.
      * rewrite (IH mrs) by (done || lia). apply Z.div_pos; lia.
Qed.

Lemma shr_zero e n : shr_m (shr {| shr_m := 0; shr_r := false; shr_s := false |} e n).1 = 0.
Proof.
  destruct n as [|n|n]; [done| |done].
  destruct (shr_div {| shr_m := 0; shr_r := false; shr_s := false |} e (Zpos n)) as [-> _]; [done|lia|].
  apply Z.div_0_l, Z.pow_nonzero; lia.
Qed.

Lemma digits2_div m k :
  0 <= k < Zpos (digits2_pos m) -> exists p, Zpos m / 2 ^ k = Zpos p /\ Zpos (digits2_pos p) = Zpos (digits2_pos m) - k.
Proof.
  intros [Hk Hlt]. pose proof (digits2_spec m) as [H1 H2].
  set (d := Zpos (digits2_pos m)) in *.
  assert (2 ^ (d - 1) = 2 ^ (d - k - 1) * 2 ^ k) as E1 by (rewrite <- Z.pow_add_r by lia; f_equal; lia).
  assert (2 ^ d = 2 ^ (d - k) * 2 ^ k) as E2 by (rewrite <- Z.pow_add_r by lia; f_equal; lia).
  assert (0 < 2 ^ k) as Hp by (by apply Z.pow_pos_nonneg).
  assert (0 < 2 ^ (d - k - 1)) by (apply Z.pow_pos_nonneg; lia).
  assert (2 ^ (d - k - 1) <= Zpos m / 2 ^ k) as L1 by (apply Z.div_le_lower_bound; lia).
  assert (Zpos m / 2 ^ k < 2 ^ (d - k)) as L2 by (apply Z.div_lt_upper_bound; lia).
  exists (Z.to_pos (Zpos m / 2 ^ k)). rewrite Z2Pos.id by lia. split; [done|].
  apply digits2_unique. rewrite Z2Pos.id by lia. done.
Qed.

Lemma fexp_mono a b : a <= b -> fexp FPREC FEMAX a <= fexp FPREC FEMAX b.
Proof. unfold fexp. lia. Qed.

(** The second normalisation, of a mantissa that is canonical or one above. *)
Lemma round_end_valid sx m e :
  fexp FPREC FEMAX (Zpos (digits2_pos m) + e) <= e + 1 -> e <= fexp FPREC FEMAX (Zpos (digits2_pos m) + e) ->
  (fexp FPREC FEMAX (Zpos (digits2_pos m) + e) = e + 1 -> 1 < Zpos (digits2_pos m)) ->
  valid_binary FPREC FEMAX
    (let '(mrs, e'') := shr_fexp FPREC FEMAX (Zpos m) e loc_Exact in
     match shr_m mrs with
     | Z0 => S754_zero sx
     | Zpos m => if Z.leb e'' (FEMAX - FPREC) then S754_finite sx m e'' else S754_infinity sx
     | _ => S754_nan
     end) = true.
Proof.
  intros H1 H2 H3. unfold shr_fexp. cbn [Zdigits2 shr_record_of_loc].
  set (f := fexp FPREC FEMAX (Zpos (digits2_pos m) + e)) in *.
  assert (exists p, shr_m (shr {| shr_m := Zpos m; shr_r := false; shr_s := false |} e (f - e)).1 = Zpos p /\
    (shr {| shr_m := Zpos m; shr_r := false; shr_s := false |} e (f - e)).2 = f /\
    fexp FPREC FEMAX (Zpos (digits2_pos p) + f) = f) as (p & Ep & Ee & Ec).
  { destruct (shr_div {| shr_m := Zpos m; shr_r := false; shr_s := false |} e (f - e)) as [-> ->]; [done|lia|]. cbn [shr_m].
    destruct (decide (f = e)) as [E|E].
    - exists m. rewrite E, Z.sub_diag, Z.pow_0_r, Z.div_1_r. split; [done|]. split; [lia|]. subst f. by rewrite E.
    - assert (f - e = 1) as -> by lia. destruct (digits2_div m 1) as (p & -> & Hd); [lia|].
      exists p. split; [done|]. split; [lia|]. rewrite Hd. replace (Zpos (digits2_pos m) - 1 + f) with (Zpos (digits2_pos m) + e) by lia. done. }
  destruct (shr _ _ _) as [mrs e'']. simpl in Ep, Ee. subst e''. rewrite Ep.
  destruct (Z.leb_spec f (FEMAX - FPREC)); [|done]. simpl. unfold bounded, canonical_mantissa.
  rewrite Ec, Z.eqb_refl. simpl. by apply Z.leb_le.
Qed.

Lemma round_aux_valid sx m e l :
  0 <= m -> e <= fexp FPREC FEMAX (Zdigits2 m + e) ->
  valid_binary FPREC FEMAX (binary_round_aux FPREC FEMAX sx m e l) = true.
Proof.
  intros Hm He. unfold binary_round_aux.
  destruct (shr_fexp FPREC FEMAX m e l) as [mrs e1] eqn:E. unfold shr_fexp in E.
  set (f := fexp FPREC FEMAX (Zdigits2 m + e)) in *.
  destruct (shr_div (shr_record_of_loc m l) e (f - e)) as [Hs1 Hs2];
    [by destruct l as [|[]]|lia|]. rewrite E in Hs1, Hs2. simpl in Hs1, Hs2.
  assert (shr_m (shr_record_of_loc m l) = m) as Em by (by destruct l as [|[]]). rewrite Em in Hs1.
  assert (e1 = f) as -> by lia. set (m1 := shr_m mrs) in *.
  assert (exists b, (b = 0 \/ b = 1) /\ round_nearest_even m1 (loc_of_shr_record mrs) = m1 + b) as (b & Hb & ->).
  { unfold round_nearest_even. destruct (loc_of_shr_record mrs) as [|[]]; [exists 0| |exists 0|exists 1]; try lia.
    destruct (Z.even m1); [exists 0|exists 1]; lia. }
  assert (0 <= m1) as Hm1 by (rewrite Hs1; apply Z.div_pos; [done|apply Z.pow_pos_nonneg; lia]).
  destruct (decide (m1 + b = 0)) as [E0|E0].
  { rewrite E0. unfold shr_fexp. cbn [shr_record_of_loc].
    destruct (shr {| shr_m := 0; shr_r := false; shr_s := false |} f _) as [mrs' e''] eqn:E'.
    assert (shr_m mrs' = 0) as ->; [|done].
    etransitivity; [symmetry; exact (f_equal (fun x => shr_m x.1) E')|apply shr_zero]. }
  destruct (m1 + b) as [|p|p] eqn:Ep; [lia| |lia].
  assert (FPREC = 53) as HP by done. assert (emin FPREC FEMAX = -1074) as HE by done.
  destruct (decide (m1 = 0)) as [E1|E1].
  - (* a number too small for its place: it rounds up to the smallest *)
    assert (p = 1%positive) as -> by lia.
    assert (f = emin FPREC FEMAX) as Hf.
    { destruct m as [|m|m]; [subst f; unfold fexp in *; simpl in *; lia| |lia].
      destruct (Z.le_gt_cases (Zpos (digits2_pos m)) (f - e)) as [Hd|Hd]; [subst f; unfold fexp in *; cbn [Zdigits2] in *; lia|].
      destruct (digits2_div m (f - e)) as (q & Hq & _); [lia|]. lia. }
    apply round_end_valid; rewrite ?Hf; unfold fexp; simpl; lia.
  - destruct m as [|m|m]; [rewrite Z.div_0_l in Hs1 by (apply Z.pow_nonzero; lia); lia| |lia].
    cbn [Zdigits2] in *.
    assert (f - e < Zpos (digits2_pos m)) as Hlt.
    { destruct (Z.le_gt_cases (Zpos (digits2_pos m)) (f - e)) as [Hd|Hd]; [|done]. exfalso. apply E1. rewrite Hs1.
      apply Z.div_small. split; [lia|]. pose proof (digits2_spec m) as [_ H2].
      eapply Z.lt_le_trans; [exact H2|]. apply Z.pow_le_mono_r; lia. }
    destruct (digits2_div m (f - e)) as (q & Hq & Hd); [lia|].
    assert (m1 = Zpos q) as Hm1q by lia.
    assert (fexp FPREC FEMAX (Zpos (digits2_pos q) + f) = f) as Hc.
    { rewrite Hd. subst f. f_equal. lia. }
    destruct (digits2_spec q) as [Hq1 Hq2].
    destruct (Z.eq_dec (Zpos p) (2 ^ Zpos (digits2_pos q))) as [Etop|Etop].
    + assert (Zpos (digits2_pos p) = Zpos (digits2_pos q) + 1) as Hdp.
      { apply digits2_unique. replace (Zpos (digits2_pos q) + 1 - 1) with (Zpos (digits2_pos q)) by lia.
        rewrite Etop, Z.pow_add_r by lia. pose proof (Z.pow_pos_nonneg 2 (Zpos (digits2_pos q))). lia. }
      apply round_end_valid; rewrite Hdp; unfold fexp in *; lia.
    + assert (Zpos (digits2_pos p) = Zpos (digits2_pos q)) as Hdp by (apply digits2_unique; lia).
      apply round_end_valid; rewrite Hdp, Hc; lia.
Qed.

(** The quotient of two integers is a double. *)
Lemma int_truediv_valid a b x : int_truediv a b = Some x -> valid_binary FPREC FEMAX x = true.
Proof.
  assert (forall s p q, let '(m, e, l) := SFdiv_core_binary FPREC FEMAX (Zpos p) 0 (Zpos q) 0 in
    valid_binary FPREC FEMAX (binary_round_aux FPREC FEMAX s m e l) = true) as Hpos.
  { intros s p q. unfold SFdiv_core_binary. cbn [Zdigits2]. rewrite !Z.add_0_r, Z.sub_0_r.
    set (e' := Z.min (fexp FPREC FEMAX (Zpos (digits2_pos p) - Zpos (digits2_pos q))) 0).
    assert (match 0 - e' with Z0 => Zpos p | Zpos _ => Z.shiftl (Zpos p) (0 - e') | Zneg _ => 0 end = Zpos p * 2 ^ (- e')) as ->.
    { change (0 - e') with (- e'). destruct (- e') as [|n|n] eqn:En; [by rewrite Z.pow_0_r, Z.mul_1_r| |lia].
      by rewrite Z.shiftl_mul_pow2 by lia. }
    pose proof (Z.div_eucl_eq (Zpos p * 2 ^ (- e')) (Zpos q) ltac:(lia)) as Heq.
    pose proof (Z.mod_pos_bound (Zpos p * 2 ^ (- e')) (Zpos q) ltac:(lia)) as Hr. unfold Z.modulo in Hr.
    destruct (Z.div_eucl _ _) as [m r].
    assert (0 < 2 ^ (- e')) as Hp2 by (apply Z.pow_pos_nonneg; lia).
    assert (0 <= m) as Hm by nia.
    apply round_aux_valid; [done|].
    assert (Zpos (digits2_pos p) - Zpos (digits2_pos q) <= Zdigits2 m + e') as Hd; [|pose proof (fexp_mono _ _ Hd); lia].
    destruct (digits2_spec p) as [Hp1 _]. destruct (digits2_spec q) as [_ Hq2].
    destruct (Z.le_gt_cases (Zpos (digits2_pos p) - e' - Zpos (digits2_pos q)) 0) as [Hle|Hgt]; [destruct m; simpl; lia|].
    assert (2 ^ (Zpos (digits2_pos p) - 1) * 2 ^ (- e') =
            2 ^ Zpos (digits2_pos q) * 2 ^ (Zpos (digits2_pos p) - e' - Zpos (digits2_pos q) - 1)) as Epow.
    { rewrite <- !Z.pow_add_r by lia. f_equal. lia. }
    set (k := Zpos (digits2_pos p) - e' - Zpos (digits2_pos q)) in *.
    assert (0 < 2 ^ (k - 1)) by (apply Z.pow_pos_nonneg; lia).
    assert (2 ^ (k - 1) <= m) as Hmk.
    { assert (2 ^ (Zpos (digits2_pos p) - 1) * 2 ^ (- e') <= Zpos p * 2 ^ (- e')) by (apply Z.mul_le_mono_pos_r; lia).
      assert (Zpos q * 2 ^ (k - 1) < 2 ^ Zpos (digits2_pos q) * 2 ^ (k - 1)) by (apply Z.mul_lt_mono_pos_r; lia).
      assert (Zpos q * 2 ^ (k - 1) < Zpos q * (m + 1)) by lia.
      apply Z.mul_lt_mono_pos_l in H2; lia. }
    destruct m as [|m|m]; [lia| |lia]. cbn [Zdigits2]. destruct (digits2_spec m) as [_ Hm2].
    assert (k - 1 < Zpos (digits2_pos m)) by (apply (Z.pow_lt_mono_r_iff 2); lia). lia. }
  unfold int_truediv. destruct a as [|p|p], b as [|q|q]; intros H; simplify_eq; try done;
    [specialize (Hpos false p q)|specialize (Hpos true p q)|specialize (Hpos true p q)|specialize (Hpos false p q)];
    destruct (SFdiv_core_binary _ _ _ _ _ _) as [[m e] l]; by simplify_eq.
Qed.
