(* ===== verification/PyDecOps.v ===== *)
(** * [decimal.Decimal] for money

    The operations the client portal uses, at the default context: addition
    and subtraction, comparison, [quantize], construction from text and
    formatting with two decimals.  Continues [PyDecimal]. *)

From S2P Require Import Prelude PyStr PyDecimal PyFloat PyRepr.
From Stdlib Require Import Ascii.

(** ** Arithmetic *)

(** The coefficient of [d] at an exponent not above its own. *)
Definition coef_at (d : decimal) (e : Z) : Z := d_coef d * 10 ^ (d_exp d - e).

Definition dec_neg (d : decimal) : decimal := Dec (- d_coef d) (d_exp d).
(** [a + b] and [a - b]: exact, then rounded to the context *)
Definition dec_add (a b : decimal) : decimal :=
  let e := Z.min (d_exp a) (d_exp b) in dec_fix (Dec (coef_at a e + coef_at b e) e).
Definition dec_sub (a b : decimal) : decimal := dec_add a (dec_neg b).

(** Comparison is exact. *)
Definition dec_compare (a b : decimal) : comparison :=
  let e := Z.min (d_exp a) (d_exp b) in coef_at a e ?= coef_at b e.
Definition dec_ltb (a b : decimal) : bool := match dec_compare a b with Lt => true | _ => false end.
Definition dec_leb (a b : decimal) : bool := match dec_compare a b with Gt => false | _ => true end.
Definition dec_eqb (a b : decimal) : bool := match dec_compare a b with Eq => true | _ => false end.
(** [min(a, b)] and [max(a, b)]: the first wins a tie *)
Definition dec_min (a b : decimal) : decimal := if dec_ltb b a then b else a.
Definition dec_max (a b : decimal) : decimal := if dec_ltb a b then b else a.

(** ** [quantize] *)

Inductive rounding := ROUND_DOWN | ROUND_HALF_UP | ROUND_HALF_EVEN.

(** [n / d] for [n >= 0], [d > 0] *)
Definition round_div (r : rounding) (n d : Z) : Z :=
  match r with
  | ROUND_DOWN => n / d
  | ROUND_HALF_UP => (2 * n + d) / (2 * d)
  | ROUND_HALF_EVEN => half_even n d
  end.

(** The coefficient of [d] at exponent [e], rounded when [e] is above its own. *)
Definition rescale (r : rounding) (d : decimal) (e : Z) : Z :=
  if e <=? d_exp d then coef_at d e
  else Z.sgn (d_coef d) * round_div r (Z.abs (d_coef d)) (10 ^ (e - d_exp d)).

(** [d.quantize(Decimal((0, (1,), e)), rounding=r)]: the result may not have
    more digits than the context. *)
Definition quantize (r : rounding) (d : decimal) (e : Z) : result decimal :=
  if d_coef d =? 0 then Ok (Dec 0 e)
  else
    let adjusted := d_exp d + ndigits (Z.abs (d_coef d)) - 1 in
    if PREC <? adjusted - e + 1 then Raise InvalidOperation
    else
      let c := rescale r d e in
      if PREC <? ndigits (Z.abs c) then Raise InvalidOperation else Ok (Dec c e).

(** ** Text *)

(** What [Decimal(text)] may give. *)
Inductive pydec := Fin (d : decimal) | Inf (neg : bool) | NaN.

(** [None] is [InvalidOperation]. *)
Definition dec_parse (text : string) : option pydec :=
  let s := str_remove "_" (str_strip text) in
  let '(neg, body) := take_sign s in
  let low := str_lower body in
  if bool_decide (low = "inf") || bool_decide (low = "infinity") then Some (Inf neg)
  else if str_starts "nan" low || str_starts "snan" low then
    let digits := str_drop (if str_starts "nan" low then 3 else 4) low in
    if str_all is_digit digits then Some NaN else None
  else (fun ce : Z * Z => Fin (Dec (if neg then - ce.1 else ce.1) ce.2)) <$> parse_unsigned body.

(** [f"{d:.2f}"]: ties to even, a sign only when negative *)
Definition fmt2 (d : decimal) : string :=
  let c := rescale ROUND_HALF_EVEN d (-2) in
  let a := Z.abs c in
  (if d_coef d <? 0 then "-" else "") +:+ pretty (a / 100) +:+ "." +:+
  (if a mod 100 <? 10 then "0" else "") +:+ pretty (a mod 100).

(** [f"{d:+.2f}"] *)
Definition fmt2_signed (d : decimal) : string := (if d_coef d <? 0 then "" else "+") +:+ fmt2 d.

(** ** Columns [NUMERIC(18,2)]

    A value in the database is a whole number of cents; the driver reads it as
    a decimal with two places. *)
Definition of_cents (c : Z) : decimal := Dec c (-2).

(** What the database stores: rounded half away from zero, refused when it
    needs more than eighteen digits. *)
Definition to_cents (d : decimal) : result Z :=
  let c := rescale ROUND_HALF_UP d (-2) in
  if Z.abs c <? 10 ^ 18 then Ok c else Raise (DatabaseError "numeric field overflow").

Example fmt2_1 : fmt2 (Dec 5 0) = "5.00". Proof. reflexivity. Qed.
Example fmt2_2 : fmt2 (Dec (-1205) (-3)) = "-1.20". Proof. reflexivity. Qed.
Example parse_1 : dec_parse " 1_000.50 " = Some (Fin (Dec 100050 (-2))). Proof. reflexivity. Qed.
Example parse_2 : dec_parse "-.5e-3" = Some (Fin (Dec (-5) (-4))). Proof. reflexivity. Qed.
Example parse_3 : dec_parse "1,5" = None. Proof. reflexivity. Qed.
Example quantize_1 : quantize ROUND_HALF_EVEN (Dec 12345 (-3)) (-2) = Ok (Dec 1234 (-2)). Proof. reflexivity. Qed.

(** ** Exact values *)

(** [d] is exactly [n * 10 ^ e], at whatever exponent of its own. *)
Definition is_dec (d : decimal) (n e : Z) : Prop :=
  d_coef d * 10 ^ Z.max (d_exp d - e) 0 = n * 10 ^ Z.max (e - d_exp d) 0.

(** A whole number of cents. *)
Definition has_cents (d : decimal) (c : Z) : Prop := is_dec d c (-2).

Lemma is_dec_refl n e : is_dec (Dec n e) n e.
Proof. unfold is_dec. cbn [d_coef d_exp]. by rewrite Z.sub_diag. Qed.

Lemma is_dec_zero f e : is_dec (Dec 0 f) 0 e.
Proof. done. Qed.

Lemma has_cents_of_cents c : has_cents (of_cents c) c.
Proof. apply is_dec_refl. Qed.

Lemma is_dec_neg d n e : is_dec d n e -> is_dec (dec_neg d) (- n) e.
Proof. unfold is_dec. simpl. rewrite !Z.mul_opp_l. by intros ->. Qed.

Lemma is_dec_at d n e f : is_dec d n e -> f <= d_exp d -> is_dec (Dec (coef_at d f) f) n e.
Proof.
  unfold is_dec, coef_at. cbn [d_coef d_exp]. intros H He.
  assert (exists k, 0 < k /\ 10 ^ (d_exp d - f) * 10 ^ Z.max (f - e) 0 = 10 ^ Z.max (d_exp d - e) 0 * k /\
    10 ^ Z.max (e - f) 0 = 10 ^ Z.max (e - d_exp d) 0 * k) as (k & Hk & E1 & E2).
  { exists (10 ^ (Z.max (e - f) 0 - Z.max (e - d_exp d) 0)). split; [apply pow10_pos; lia|].
    rewrite <- !Z.pow_add_r by lia. split; f_equal; lia. }
  rewrite <- Z.mul_assoc, E1, E2, Z.mul_assoc, H. ring.
Qed.

Lemma is_dec_unique d n n' e : is_dec d n e -> is_dec d n' e -> n = n'.
Proof.
  unfold is_dec. intros H H'. assert (0 < 10 ^ Z.max (e - d_exp d) 0) by (apply pow10_pos; lia). nia.
Qed.

Lemma half_even_exact q d : 0 < d -> half_even (q * d) d = q.
Proof.
  intros Hd. unfold half_even. rewrite Z.div_mul, Z.mod_mul by lia. by rewrite (proj2 (Z.ltb_lt _ _)) by lia.
Qed.

Lemma round_div_exact r q d : 0 < d -> round_div r (q * d) d = q.
Proof.
  intros Hd. destruct r; simpl.
  - by apply Z.div_mul; lia.
  - symmetry. apply (Z.div_unique _ _ q d); lia.
  - by apply half_even_exact.
Qed.

(** Rounding to 28 digits keeps a value that fits them. *)
Lemma is_dec_fix d n e : is_dec d n e -> Z.abs n < 10 ^ PREC -> is_dec (dec_fix d) n e.
Proof.
  intros H Hc. unfold dec_fix. remember (ndigits (Z.abs (d_coef d))) as t eqn:Et.
  destruct (Z.leb_spec (t - PREC) 0) as [Hn|Hn]; [done|].
  assert (d_coef d <> 0) as Hne by (intros E; rewrite E in Et; change (ndigits (Z.abs 0)) with 1 in Et; unfold PREC in Hn; lia).
  destruct (ndigits_spec (Z.abs (d_coef d)) ltac:(lia)) as [L1 L2]. rewrite <- Et in L1, L2.
  unfold is_dec in H. destruct (Z.le_gt_cases e (d_exp d)) as [He|He].
  { rewrite (Z.max_r (e - _)) in H by lia. rewrite Z.max_l, Z.pow_0_r, Z.mul_1_r in H by lia.
    assert (0 < 10 ^ (d_exp d - e)) by (apply pow10_pos; lia).
    assert (10 ^ PREC <= 10 ^ (t - 1)) by (apply Z.pow_le_mono_r; lia). nia. }
  rewrite Z.max_r, Z.max_l, Z.pow_0_r, Z.mul_1_r in H by lia. remember (e - d_exp d) as j eqn:Ej.
  assert (0 < 10 ^ j) as Hj by (apply pow10_pos; lia).
  assert (t - PREC <= j) as Hk.
  { assert (10 ^ (t - 1) < 10 ^ (PREC + j)) as Hp; [|apply Z.pow_lt_mono_r_iff in Hp; unfold PREC in *; lia].
    rewrite Z.pow_add_r by (unfold PREC in *; lia). eapply Z.le_lt_trans; [exact L1|]. rewrite H, Z.abs_mul, (Z.abs_eq (10 ^ j)) by lia.
    apply Z.mul_lt_mono_pos_r; lia. }
  remember (t - PREC) as k eqn:Ek.
  assert (Z.abs (d_coef d) = Z.abs n * 10 ^ (j - k) * 10 ^ k) as Ha.
  { rewrite <- Z.mul_assoc, <- Z.pow_add_r by lia. replace (j - k + k) with j by lia.
    rewrite H, Z.abs_mul. by rewrite (Z.abs_eq (10 ^ j)) by lia. }
  rewrite Ha, half_even_exact by (apply pow10_pos; lia).
  assert (Z.abs n * 10 ^ (j - k) < 10 ^ PREC) as Hlt.
  { assert (0 < 10 ^ k) by (apply pow10_pos; lia). apply (Z.mul_lt_mono_pos_r (10 ^ k)); [done|].
    rewrite <- Ha, <- Z.pow_add_r by (unfold PREC in *; lia). by replace (PREC + k) with t by lia. }
  destruct (Z.eqb_spec (Z.abs n * 10 ^ (j - k)) (10 ^ PREC)) as [E|_]; [lia|].
  unfold is_dec. cbn [d_coef d_exp]. rewrite Z.max_r, Z.max_l, Z.pow_0_r, Z.mul_1_r by lia.
  replace (e - (d_exp d + k)) with (j - k) by lia.
  rewrite Z.mul_assoc. f_equal. rewrite H. rewrite Z.sgn_mul, (Z.sgn_pos (10 ^ j)) by lia.
  destruct n; simpl; lia.
Qed.

Lemma dec_fix_coef d : Z.abs (d_coef (dec_fix d)) < 10 ^ PREC.
Proof.
  unfold dec_fix. remember (ndigits (Z.abs (d_coef d))) as t eqn:Et.
  destruct (decide (d_coef d = 0)) as [E|E].
  { rewrite E in Et. change (ndigits (Z.abs 0)) with 1 in Et. subst t. change (1 - PREC <=? 0) with true. cbv iota. rewrite E. done. }
  destruct (ndigits_spec (Z.abs (d_coef d)) ltac:(lia)) as [_ L2]. rewrite <- Et in L2.
  destruct (Z.leb_spec (t - PREC) 0) as [Hn|Hn].
  { eapply Z.lt_le_trans; [exact L2|]. apply Z.pow_le_mono_r; lia. }
  assert (0 < 10 ^ (t - PREC)) as Hp by (apply pow10_pos; lia).
  assert (0 < 10 ^ PREC) as HP by (by apply pow10_pos).
  pose proof (half_even_bounds (Z.abs (d_coef d)) (10 ^ (t - PREC)) ltac:(lia) Hp) as [H1 H2].
  assert (0 <= Z.abs (d_coef d) / 10 ^ (t - PREC)) by (apply Z.div_pos; lia).
  assert (10 ^ t = 10 ^ PREC * 10 ^ (t - PREC)) as E2 by (rewrite <- Z.pow_add_r by (unfold PREC in *; lia); f_equal; lia).
  assert (half_even (Z.abs (d_coef d)) (10 ^ (t - PREC)) <= 10 ^ PREC) as Hle by nia.
  destruct (Z.eqb_spec (half_even (Z.abs (d_coef d)) (10 ^ (t - PREC))) (10 ^ PREC)) as [Eq|Eq]; cbn [d_coef].
  - rewrite Z.abs_mul, (Z.abs_eq (10 ^ _)) by (apply Z.lt_le_incl, pow10_pos; unfold PREC; lia).
    assert (10 ^ (PREC - 1) < 10 ^ PREC) by (apply Z.pow_lt_mono_r; unfold PREC; lia).
    destruct (d_coef d); simpl Z.sgn; [done|lia|lia].
  - rewrite Z.abs_mul, (Z.abs_eq (half_even _ _)) by lia. destruct (d_coef d); simpl Z.sgn; [done|lia|lia].
Qed.

Lemma is_dec_add a b x y e :
  is_dec a x e -> is_dec b y e -> Z.abs (x + y) < 10 ^ PREC -> is_dec (dec_add a b) (x + y) e.
Proof.
  intros Ha Hb Hlt. unfold dec_add. set (f := Z.min (d_exp a) (d_exp b)). apply is_dec_fix; [|done].
  apply (is_dec_at _ _ e f) in Ha; [|lia]. apply (is_dec_at _ _ e f) in Hb; [|lia].
  unfold is_dec in *. cbn [d_coef d_exp] in *. lia.
Qed.

Lemma is_dec_sub a b x y e :
  is_dec a x e -> is_dec b y e -> Z.abs (x - y) < 10 ^ PREC -> is_dec (dec_sub a b) (x - y) e.
Proof. intros Ha Hb Hlt. apply is_dec_add; [done|by apply is_dec_neg|done]. Qed.

Lemma is_dec_mul a b x y e f :
  is_dec a x e -> is_dec b y f -> Z.abs (x * y) < 10 ^ PREC -> is_dec (dec_mul a b) (x * y) (e + f).
Proof.
  intros Ha Hb Hlt. unfold dec_mul. apply is_dec_fix; [|done]. unfold is_dec in *. cbn [d_coef d_exp].
  assert (exists k, 0 < k /\
    10 ^ Z.max (d_exp a - e) 0 * 10 ^ Z.max (d_exp b - f) 0 = 10 ^ Z.max (d_exp a + d_exp b - (e + f)) 0 * k /\
    10 ^ Z.max (e - d_exp a) 0 * 10 ^ Z.max (f - d_exp b) 0 = 10 ^ Z.max (e + f - (d_exp a + d_exp b)) 0 * k) as (k & Hk & E1 & E2).
  { exists (10 ^ (Z.max (d_exp a - e) 0 + Z.max (d_exp b - f) 0 - Z.max (d_exp a + d_exp b - (e + f)) 0)).
    split; [apply pow10_pos; lia|]. rewrite <- !Z.pow_add_r by lia. split; f_equal; lia. }
  apply Z.mul_reg_r with k; [lia|]. rewrite <- !Z.mul_assoc, <- E1, <- E2.
  transitivity ((d_coef a * 10 ^ Z.max (d_exp a - e) 0) * (d_coef b * 10 ^ Z.max (d_exp b - f) 0)); [ring|].
  rewrite Ha, Hb. ring.
Qed.

Lemma is_dec_compare a b x y e : is_dec a x e -> is_dec b y e -> dec_compare a b = (x ?= y).
Proof.
  intros Ha Hb. unfold dec_compare. set (f := Z.min (d_exp a) (d_exp b)).
  apply (is_dec_at _ _ e f) in Ha; [|lia]. apply (is_dec_at _ _ e f) in Hb; [|lia].
  unfold is_dec in *. cbn [d_coef d_exp] in *.
  assert (0 < 10 ^ Z.max (f - e) 0) by (apply pow10_pos; lia).
  assert (0 < 10 ^ Z.max (e - f) 0) by (apply pow10_pos; lia).
  destruct (Z.compare_spec (coef_at a f) (coef_at b f)); symmetry; [apply Z.compare_eq_iff|apply Z.compare_lt_iff|apply Z.compare_gt_iff]; nia.
Qed.

Lemma is_dec_ltb a b x y e : is_dec a x e -> is_dec b y e -> dec_ltb a b = (x <? y).
Proof. intros Ha Hb. unfold dec_ltb. by rewrite (is_dec_compare a b x y e). Qed.
Lemma is_dec_leb a b x y e : is_dec a x e -> is_dec b y e -> dec_leb a b = (x <=? y).
Proof. intros Ha Hb. unfold dec_leb. by rewrite (is_dec_compare a b x y e). Qed.
Lemma is_dec_eqb a b x y e : is_dec a x e -> is_dec b y e -> dec_eqb a b = (x =? y).
Proof. intros Ha Hb. unfold dec_eqb. rewrite (is_dec_compare a b x y e) by done. by rewrite Z.eqb_compare. Qed.

Lemma is_dec_eqb_inv d n e : dec_eqb d (Dec n e) = true -> is_dec d n e.
Proof.
  unfold dec_eqb, dec_compare. cbn [d_exp].
  destruct (Z.compare_spec (coef_at d (Z.min (d_exp d) e)) (coef_at (Dec n e) (Z.min (d_exp d) e))) as [E| |]; try done. intros _.
  unfold coef_at in E. cbn [d_coef d_exp] in E. unfold is_dec.
  destruct (Z.le_gt_cases e (d_exp d)) as [He|He].
  - rewrite Z.min_r, Z.sub_diag, Z.pow_0_r, Z.mul_1_r in E by lia.
    by rewrite Z.max_l, Z.max_r, Z.pow_0_r, Z.mul_1_r by lia.
  - rewrite Z.min_l, Z.sub_diag, Z.pow_0_r, Z.mul_1_r in E by lia.
    by rewrite Z.max_r, Z.max_l, Z.pow_0_r, Z.mul_1_r by lia.
Qed.

Lemma is_dec_rescale r d n e : is_dec d n e -> rescale r d e = n.
Proof.
  intros H. unfold rescale. destruct (Z.leb_spec e (d_exp d)) as [He|He].
  - apply (is_dec_at _ _ e e) in H; [|done]. unfold is_dec in H. cbn [d_coef d_exp] in H.
    rewrite Z.sub_diag in H. change (10 ^ Z.max 0 0) with 1 in H. lia.
  - unfold is_dec in H. rewrite Z.max_r, Z.max_l, Z.pow_0_r, Z.mul_1_r in H by lia.
    remember (e - d_exp d) as j eqn:Ej.
    assert (0 < 10 ^ j) by (apply pow10_pos; lia).
    rewrite H, Z.abs_mul, (Z.abs_eq (10 ^ j)), round_div_exact, Z.sgn_mul, (Z.sgn_pos (10 ^ j)) by lia.
    destruct n; simpl; lia.
Qed.

(** Rounding a value given at a finer exponent. *)
Lemma is_dec_rescale_half_up d n e f :
  is_dec d n e -> 0 <= n -> e < f -> rescale ROUND_HALF_UP d f = (2 * n + 10 ^ (f - e)) / (2 * 10 ^ (f - e)).
Proof.
  intros H Hn Hef. assert (0 < 10 ^ (f - e)) as Hp by (apply pow10_pos; lia).
  assert (0 < 10 ^ Z.max (d_exp d - e) 0) by (apply pow10_pos; lia).
  assert (0 < 10 ^ Z.max (e - d_exp d) 0) by (apply pow10_pos; lia).
  assert (0 <= d_coef d) as Hc by (unfold is_dec in H; nia).
  unfold rescale. destruct (Z.leb_spec f (d_exp d)) as [He|He].
  - apply (is_dec_at _ _ e e) in H; [|lia]. unfold is_dec, coef_at in H. cbn [d_coef d_exp] in H.
    rewrite Z.sub_diag in H. change (10 ^ Z.max 0 0) with 1 in H. unfold coef_at.
    assert (n = d_coef d * 10 ^ (d_exp d - f) * 10 ^ (f - e)) as ->.
    { rewrite <- Z.mul_assoc, <- Z.pow_add_r by lia. replace (d_exp d - f + (f - e)) with (d_exp d - e) by lia. lia. }
    pose proof (round_div_exact ROUND_HALF_UP (d_coef d * 10 ^ (d_exp d - f)) (10 ^ (f - e)) Hp) as Hr. simpl in Hr. by rewrite Hr.
  - rewrite Z.abs_eq by done. assert (0 < 10 ^ (f - d_exp d)) by (apply pow10_pos; lia).
    cbn [round_div]. rewrite (half_up_cross (d_coef d) (10 ^ (f - d_exp d)) n (10 ^ (f - e))).
    + destruct (decide (d_coef d = 0)) as [E|E].
      * assert (n = 0) as -> by (unfold is_dec in H; nia). rewrite E. simpl. symmetry. apply Z.div_small. lia.
      * rewrite Z.sgn_pos by lia. lia.
    + done.
    + done.
    + unfold is_dec in H. apply Z.mul_reg_r with (10 ^ Z.max (d_exp d - e) 0); [lia|].
      transitivity (d_coef d * 10 ^ Z.max (d_exp d - e) 0 * 10 ^ (f - e)); [ring|]. rewrite H.
      rewrite <- !Z.mul_assoc, <- !Z.pow_add_r by lia. do 2 f_equal. lia.
Qed.

(** Division by a power of ten *)
Lemma is_dec_div_pow10 d n e j :
  is_dec d n e -> 0 <= d_coef d < 10 ^ PREC -> 0 <= j ->
  exists q, dec_div d (Dec (10 ^ j) 0) = Some q /\ is_dec q n (e - j).
Proof.
  intros H Hd Hj. pose proof (pow10_pos j Hj) as Hp.
  destruct (dec_div_pow10 (d_coef d) j Hd Hj) as (q & Hq & [Hq0 Hr] & Hle).
  (* the exponent of the dividend only shifts the result *)
  assert (exists q', dec_div d (Dec (10 ^ j) 0) = Some q' /\ d_coef q' = d_coef q /\ d_exp q' = d_exp q + d_exp d) as (q' & Hq' & Ec & Ee).
  { unfold dec_div, dec_of_int in *. cbn [d_coef d_exp] in *. rewrite (proj2 (Z.eqb_neq (10 ^ j) 0)) in * by lia.
    change (0 - 0) with 0 in Hq. rewrite !Z.sub_0_r. destruct (Z.eqb_spec (d_coef d) 0) as [E|E].
    - injection Hq as <-. eexists. split; [done|]. done.
    - set (shift := ndigits (Z.abs (10 ^ j)) - ndigits (Z.abs (d_coef d)) + PREC + 1) in *.
      replace (d_exp d - (d_exp d - shift)) with shift by lia. replace (0 - (0 - shift)) with shift in Hq by lia.
      destruct (if 0 <=? shift then _ else _) as [q0 r0].
      assert (forall fuel c x y, strip_to fuel c (x + y) = ((strip_to fuel c x).1, (strip_to fuel c x).2 + y)) as Hst.
      { induction fuel as [|fu IH]; intros c x y; simpl; [done|]. destruct (c mod 10 =? 0); [|done].
        replace (x + y + 1) with (x + 1 + y) by lia. apply IH. }
      assert (forall c x y, dec_fix (Dec c (x + y)) = Dec (d_coef (dec_fix (Dec c x))) (d_exp (dec_fix (Dec c x)) + y)) as Hfx.
      { intros c x y. unfold dec_fix. cbn [d_coef d_exp]. repeat case_match; cbn [d_coef d_exp]; f_equal; lia. }
      replace (d_exp d - shift) with (0 - shift + d_exp d) by lia.
      destruct (r0 =? 0).
      + rewrite Hst. destruct (strip_to _ _ (0 - shift)) as [c1 e1]. cbn [fst snd]. rewrite Hfx. injection Hq as <-. by eexists.
      + rewrite Hfx. injection Hq as <-. by eexists. }
  exists q'. split; [done|]. unfold is_dec in *. rewrite Ec, Ee.
  apply Z.mul_reg_r with (10 ^ j * 10 ^ Z.max (d_exp q) 0 * 10 ^ Z.max (d_exp d - e) 0).
  { assert (0 < 10 ^ Z.max (d_exp q) 0) by (apply pow10_pos; lia).
    assert (0 < 10 ^ Z.max (d_exp d - e) 0) by (apply pow10_pos; lia). nia. }
  transitivity (d_coef q * 10 ^ j * 10 ^ Z.max (d_exp q) 0 * (10 ^ Z.max (d_exp q + d_exp d - (e - j)) 0 * 10 ^ Z.max (d_exp d - e) 0)); [ring|].
  rewrite Hr.
  transitivity (d_coef d * 10 ^ Z.max (d_exp d - e) 0 * (10 ^ Z.max (- d_exp q) 0 * 10 ^ Z.max (d_exp q + d_exp d - (e - j)) 0)); [ring|].
  rewrite H. rewrite <- !Z.mul_assoc. f_equal. rewrite <- !Z.pow_add_r by lia. f_equal. lia.
Qed.

Lemma has_cents_to_cents d c : has_cents d c -> Z.abs c < 10 ^ 18 -> to_cents d = Ok c.
Proof. intros H Hc. unfold to_cents. rewrite (is_dec_rescale _ d c) by done. by rewrite (proj2 (Z.ltb_lt _ _)). Qed.

(** The digits of a value bound its position. *)
Lemma is_dec_digits d n e :
  is_dec d n e -> Z.abs n < 10 ^ PREC -> d_coef d = 0 \/ d_exp d + ndigits (Z.abs (d_coef d)) <= PREC + e.
Proof.
  intros H Hc. destruct (decide (d_coef d = 0)) as [E|E]; [by left|right].
  destruct (ndigits_spec (Z.abs (d_coef d)) ltac:(lia)) as [L1 _].
  remember (ndigits (Z.abs (d_coef d))) as t eqn:Et. pose proof (ndigits_pos (Z.abs (d_coef d))) as Ht. rewrite <- Et in Ht.
  assert (t - 1 + Z.max (d_exp d - e) 0 < PREC + Z.max (e - d_exp d) 0) as Hd; [|lia].
  apply (Z.pow_lt_mono_r_iff 10); [lia|unfold PREC; lia|]. rewrite !Z.pow_add_r by (unfold PREC; lia).
  assert (0 < 10 ^ Z.max (d_exp d - e) 0) by (apply pow10_pos; lia).
  assert (0 < 10 ^ Z.max (e - d_exp d) 0) by (apply pow10_pos; lia).
  assert (Z.abs (d_coef d) * 10 ^ Z.max (d_exp d - e) 0 = Z.abs n * 10 ^ Z.max (e - d_exp d) 0).
  { rewrite <- (Z.abs_eq (10 ^ Z.max (d_exp d - e) 0)), <- Z.abs_mul by lia. rewrite H, Z.abs_mul.
    by rewrite (Z.abs_eq (10 ^ Z.max (e - d_exp d) 0)) by lia. }
  nia.
Qed.

(** Quantizing a short value gives the rescaled one. *)
Lemma quantize_rescaled r d c :
  rescale r d (-2) = c -> Z.abs c < 10 ^ PREC ->
  (d_coef d = 0 \/ d_exp d + ndigits (Z.abs (d_coef d)) <= PREC - 2) -> quantize r d (-2) = Ok (of_cents c).
Proof.
  intros Hr Hc Hd. unfold quantize. destruct (Z.eqb_spec (d_coef d) 0) as [E|E].
  { assert (c = 0) as ->; [|done]. rewrite <- Hr. unfold rescale, coef_at. rewrite E. by destruct (_ <=? _). }
  rewrite Hr. destruct (Z.ltb_spec PREC (d_exp d + ndigits (Z.abs (d_coef d)) - 1 - -2 + 1)); [lia|].
  pose proof (ndigits_le (Z.abs c) PREC). destruct (Z.ltb_spec PREC (ndigits (Z.abs c))); [unfold PREC in *; lia|]. done.
Qed.

(** An amount that fits 28 digits is quantized exactly, whatever the rounding. *)
Lemma quantize_cents r d c :
  has_cents d c -> Z.abs c < 10 ^ PREC -> quantize r d (-2) = Ok (of_cents c).
Proof.
  intros H Hc. apply quantize_rescaled; [by apply is_dec_rescale|done|]. apply (is_dec_digits _ c (-2)); done.
Qed.

(** What quantize returns is the rescaled coefficient. *)
Lemma quantize_inv r d e q : quantize r d e = Ok q -> d_exp q = e /\ d_coef q = rescale r d e.
Proof.
  unfold quantize. destruct (Z.eqb_spec (d_coef d) 0) as [E|E].
  - intros [= <-]. split; [done|]. unfold rescale, coef_at. rewrite E. by destruct (e <=? d_exp d).
  - repeat case_match; intros; simplify_eq; done.
Qed.

(** ** Bounds *)

(** [d <= n * 10 ^ e] *)
Definition below (d : decimal) (n e : Z) : Prop :=
  d_coef d * 10 ^ Z.max (d_exp d - e) 0 <= n * 10 ^ Z.max (e - d_exp d) 0.

Lemma half_even_le c m d : 0 < d -> c <= m * d -> half_even c d <= m.
Proof.
  intros Hd Hc. unfold half_even. pose proof (Z.div_mod c d ltac:(lia)) as E. pose proof (Z.mod_pos_bound c d Hd).
  assert (c / d <= m) by (apply Z.div_le_upper_bound; lia).
  destruct (decide (c mod d = 0)) as [E0|E0].
  - rewrite E0. by rewrite (proj2 (Z.ltb_lt _ _)) by lia.
  - assert (c / d < m) by nia. repeat case_match; lia.
Qed.

(** Rounding to 28 digits does not pass a bound that fits them. *)
Lemma below_fix d n e : below d n e -> 0 <= n < 10 ^ PREC -> below (dec_fix d) n e.
Proof.
  intros H Hn. unfold dec_fix. remember (ndigits (Z.abs (d_coef d))) as t eqn:Et.
  destruct (Z.leb_spec (t - PREC) 0) as [Hk|Hk]; [done|].
  destruct (Z.le_gt_cases (d_coef d) 0) as [Hneg|Hpos].
  { assert (forall c x, 0 <= c -> below (Dec (Z.sgn (d_coef d) * c) x) n e) as Hb.
    { intros c x Hc. unfold below. cbn [d_coef d_exp].
      assert (0 < 10 ^ Z.max (x - e) 0) by (apply pow10_pos; lia).
      assert (0 < 10 ^ Z.max (e - x) 0) by (apply pow10_pos; lia).
      pose proof (Z.sgn_nonpos (d_coef d)) as [_ Hs]. specialize (Hs Hneg). nia. }
    case_match; apply Hb; [apply Z.lt_le_incl, pow10_pos; unfold PREC; lia|].
    assert (0 < 10 ^ (t - PREC)) as Hp by (apply pow10_pos; lia).
    destruct (half_even_bounds (Z.abs (d_coef d)) (10 ^ (t - PREC)) ltac:(lia) Hp) as [Hh _].
    etrans; [|exact Hh]. apply Z.div_pos; lia. }
  rewrite Z.abs_eq in * by lia. rewrite Z.sgn_pos, !Z.mul_1_l by lia.
  destruct (ndigits_spec (d_coef d) ltac:(lia)) as [L1 L2]. rewrite <- Et in L1, L2.
  assert (10 ^ PREC <= 10 ^ (t - 1)) by (apply Z.pow_le_mono_r; lia). unfold below in H.
  destruct (Z.le_gt_cases e (d_exp d)) as [He|He].
  { rewrite (Z.max_r (e - _)), (Z.max_l (d_exp d - e)), Z.pow_0_r in H by lia.
    assert (0 < 10 ^ (d_exp d - e)) by (apply pow10_pos; lia). nia. }
  rewrite Z.max_r, Z.max_l, Z.pow_0_r, Z.mul_1_r in H by lia. remember (e - d_exp d) as j eqn:Ej.
  remember (t - PREC) as k eqn:Ek. assert (0 < 10 ^ j) by (apply pow10_pos; lia). assert (0 < 10 ^ k) by (apply pow10_pos; lia).
  assert (k <= j) as Hkj.
  { assert (10 ^ (t - 1) < 10 ^ (PREC + j)) as Hp; [|apply Z.pow_lt_mono_r_iff in Hp; unfold PREC in *; lia].
    rewrite (Z.pow_add_r 10 PREC j) by (unfold PREC; lia). nia. }
  assert (half_even (d_coef d) (10 ^ k) <= n * 10 ^ (j - k)) as Hh.
  { apply half_even_le; [done|]. rewrite <- Z.mul_assoc, <- Z.pow_add_r by lia. by replace (j - k + k) with j by lia. }
  destruct (Z.eqb_spec (half_even (d_coef d) (10 ^ k)) (10 ^ PREC)) as [E|_]; unfold below; cbn [d_coef d_exp].
  - assert (k + 1 <= j) as Hkj'.
    { destruct (decide (j = k)) as [->|?]; [|lia]. rewrite Z.sub_diag, Z.pow_0_r in Hh. lia. }
    rewrite Z.max_r, Z.max_l, Z.pow_0_r, Z.mul_1_r by lia. replace (e - (d_exp d + k + 1)) with (j - k - 1) by lia.
    rewrite E in Hh. replace PREC with (PREC - 1 + 1) in Hh by lia. rewrite (Z.pow_add_r 10 (PREC - 1) 1) in Hh by (unfold PREC; lia).
    replace (j - k) with (j - k - 1 + 1) in Hh by lia. rewrite (Z.pow_add_r 10 (j - k - 1) 1) in Hh by lia. lia.
  - rewrite Z.max_r, Z.max_l, Z.pow_0_r, Z.mul_1_r by lia. by replace (e - (d_exp d + k)) with (j - k) by lia.
Qed.

Lemma below_at d n e f : below d n e -> f <= d_exp d -> below (Dec (coef_at d f) f) n e.
Proof.
  intros H Hf. unfold below, coef_at in *. cbn [d_coef d_exp].
  assert (forall x, 0 < 10 ^ Z.max x 0) as Hp by (intros x; apply pow10_pos; lia).
  apply (Z.mul_le_mono_pos_r _ _ (10 ^ Z.max (d_exp d - e) 0 * 10 ^ Z.max (e - d_exp d) 0)); [apply Z.mul_pos_pos; done|].
  assert (10 ^ (d_exp d - f) * 10 ^ Z.max (f - e) 0 * 10 ^ Z.max (e - d_exp d) 0 = 10 ^ Z.max (e - f) 0 * 10 ^ Z.max (d_exp d - e) 0) as E.
  { rewrite <- !Z.pow_add_r by lia. f_equal. lia. }
  assert (0 < 10 ^ Z.max (e - f) 0) by done. assert (0 < 10 ^ Z.max (d_exp d - e) 0) by done.
  transitivity (d_coef d * 10 ^ Z.max (d_exp d - e) 0 * (10 ^ (d_exp d - f) * 10 ^ Z.max (f - e) 0 * 10 ^ Z.max (e - d_exp d) 0)); [lia|].
  rewrite E. transitivity (n * 10 ^ Z.max (e - d_exp d) 0 * (10 ^ Z.max (e - f) 0 * 10 ^ Z.max (d_exp d - e) 0)); [|lia].
  apply Z.mul_le_mono_nonneg_r; [|done]. apply Z.mul_nonneg_nonneg; lia.
Qed.

(** At a common exponent both are plain inequalities. *)
Lemma below_coef d n e f : f <= d_exp d -> f <= e -> below d n e <-> coef_at d f <= n * 10 ^ (e - f).
Proof.
  intros Hf He. split.
  - intros H. apply (below_at _ _ _ f) in H; [|done]. unfold below in H. cbn [d_coef d_exp] in H.
    by rewrite Z.max_r, Z.max_l, Z.pow_0_r, Z.mul_1_r in H by lia.
  - intros H. unfold below, coef_at in *. apply (Z.mul_le_mono_pos_r _ _ (10 ^ (Z.min (d_exp d) e - f))); [apply pow10_pos; lia|].
    rewrite <- !Z.mul_assoc, <- !Z.pow_add_r by lia.
    replace (Z.max (d_exp d - e) 0 + (Z.min (d_exp d) e - f)) with (d_exp d - f) by lia.
    by replace (Z.max (e - d_exp d) 0 + (Z.min (d_exp d) e - f)) with (e - f) by lia.
Qed.
Lemma is_dec_coef d n e f : f <= d_exp d -> f <= e -> is_dec d n e -> coef_at d f = n * 10 ^ (e - f).
Proof.
  intros Hf He H. apply (is_dec_at _ _ _ f) in H; [|done]. unfold is_dec in H. cbn [d_coef d_exp] in H.
  by rewrite Z.max_r, Z.max_l, Z.pow_0_r, Z.mul_1_r in H by lia.
Qed.

Lemma below_sub a b x y e :
  below a x e -> is_dec b y e -> 0 <= x - y < 10 ^ PREC -> below (dec_sub a b) (x - y) e.
Proof.
  intros Ha Hb Hlt. unfold dec_sub, dec_add. apply below_fix; [|done]. cbn [dec_neg d_exp].
  set (f := Z.min (d_exp a) (d_exp b)). set (g := Z.min f e).
  apply (below_coef _ _ _ g); [cbn [d_exp]; lia|lia|]. unfold coef_at at 1. cbn [d_coef d_exp].
  apply (below_coef _ _ _ g) in Ha; [|lia|lia]. apply (is_dec_coef _ _ _ g) in Hb; [|lia|lia].
  unfold coef_at in *. cbn [dec_neg d_coef d_exp]. rewrite Z.mul_add_distr_r.
  rewrite <- !Z.mul_assoc, <- !Z.pow_add_r by lia.
  replace (d_exp a - f + (f - g)) with (d_exp a - g) by lia. replace (d_exp b - f + (f - g)) with (d_exp b - g) by lia. lia.
Qed.

Lemma below_ltb a b x y e : below a x e -> is_dec b y e -> x < y -> dec_ltb a b = true.
Proof.
  intros Ha Hb Hlt. unfold dec_ltb, dec_compare. set (f := Z.min (d_exp a) (d_exp b)). set (g := Z.min f e).
  apply (below_coef _ _ _ g) in Ha; [|lia|lia]. apply (is_dec_coef _ _ _ g) in Hb; [|lia|lia].
  assert (forall d, coef_at d g = coef_at d f * 10 ^ (f - g) \/ d_exp d < f) as Hc.
  { intros d. destruct (Z.le_gt_cases f (d_exp d)); [left|by right]. unfold coef_at.
    rewrite <- Z.mul_assoc, <- Z.pow_add_r by lia. do 2 f_equal. lia. }
  destruct (Hc a) as [E1|?]; [|lia]. destruct (Hc b) as [E2|?]; [|lia]. rewrite E1 in Ha. rewrite E2 in Hb.
  assert (0 < 10 ^ (f - g)) by (apply pow10_pos; lia). assert (0 < 10 ^ (e - g)) by (apply pow10_pos; lia).
  assert (coef_at a f < coef_at b f) as Hl by nia. by rewrite (proj2 (Z.compare_lt_iff _ _) Hl).
Qed.

(** Rounding half up to the cent: below [m] only from below the half. *)
Lemma half_up_below d m : rescale ROUND_HALF_UP d (-2) < m -> 1 <= m -> below d (10 * m - 5) (-3).
Proof.
  intros H Hm. unfold rescale in H. destruct (Z.leb_spec (-2) (d_exp d)) as [He|He].
  - apply (below_coef _ _ _ (-3)); [lia|lia|]. rewrite Z.sub_diag, Z.pow_0_r, Z.mul_1_r. unfold coef_at in *.
    replace (d_exp d - -3) with (d_exp d - -2 + 1) by lia. rewrite Z.pow_add_r by lia. lia.
  - apply (below_coef _ _ _ (d_exp d)); [lia|lia|]. unfold coef_at. rewrite Z.sub_diag, Z.pow_0_r, Z.mul_1_r.
    replace (-2 - d_exp d) with (-3 - d_exp d + 1) in H by lia. rewrite Z.pow_add_r in H by lia.
    set (p := 10 ^ (-3 - d_exp d)) in *. assert (0 < p) by (apply pow10_pos; lia). cbn [round_div] in H.
    change (10 ^ 1) with 10 in H. destruct (Z.le_gt_cases (d_coef d) 0) as [?|Hpos]; [nia|].
    rewrite Z.sgn_pos, Z.mul_1_l, Z.abs_eq in H by lia.
    assert (~ m * (2 * (p * 10)) <= 2 * d_coef d + p * 10) as Hn; [|nia].
    intros Hc.
    assert (m <= (2 * d_coef d + p * 10) / (2 * (p * 10))); [|lia]. apply Z.div_le_lower_bound; lia.
Qed.

(** Flooring does not raise a figure over a bound. *)
Lemma floor_below d x c : below d x (-3) -> x < 10 * c -> 0 < c -> rescale ROUND_DOWN d (-2) < c.
Proof.
  intros Hb Hx Hc. unfold rescale. destruct (Z.leb_spec (-2) (d_exp d)) as [He|He].
  - apply (below_coef _ _ _ (-3)) in Hb; [|lia|lia]. rewrite Z.sub_diag, Z.pow_0_r, Z.mul_1_r in Hb. unfold coef_at in *.
    replace (d_exp d - -3) with (d_exp d - -2 + 1) in Hb by lia. rewrite Z.pow_add_r in Hb by lia. lia.
  - apply (below_coef _ _ _ (d_exp d)) in Hb; [|lia|lia]. unfold coef_at in Hb. rewrite Z.sub_diag, Z.pow_0_r, Z.mul_1_r in Hb.
    replace (-2 - d_exp d) with (-3 - d_exp d + 1) by lia. rewrite Z.pow_add_r by lia.
    set (p := 10 ^ (-3 - d_exp d)) in *. assert (0 < p) by (apply pow10_pos; lia). cbn [round_div]. change (10 ^ 1) with 10.
    destruct (Z.le_gt_cases (d_coef d) 0) as [?|Hpos].
    + assert (0 <= Z.abs (d_coef d) / (p * 10)) by (apply Z.div_pos; lia).
      pose proof (Z.sgn_nonpos (d_coef d)) as [_ Hs]. specialize (Hs H0). nia.
    + rewrite Z.sgn_pos, Z.mul_1_l, Z.abs_eq by lia. apply Z.div_lt_upper_bound; nia.
Qed.
