(* ===== verification/Models.v ===== *)
(** * Domain model

    The data classes of [copier/domain/models.py]: symbols, slave
    configurations, normalised master events, mapping entries and slave
    intents.  Field names carry a short prefix because Rocq projections share
    one name space. *)

From S2P Require Import Prelude PyDecimal PyFloat.

(** ** Enumerations *)

Inductive Side := BUY | SELL.

Inductive PendingType := LIMIT | STOP.

#[export] Instance Side_eq_dec : EqDecision Side.
Proof. solve_decision. Defined.
#[export] Instance PendingType_eq_dec : EqDecision PendingType.
Proof. solve_decision. Defined.

(** [Side.value] *)
Definition side_value (s : Side) : string :=
  match s with BUY => "BUY" | SELL => "SELL" end.

Definition MANUAL_ORDER_LABEL : string := "manual".

(** ** Symbols and slaves *)

Record SymbolInfo := {
  symbol_id : Z;
  name : string;
  digits : Z;
  lot_size : Z;          (* protocol units per 1.00 lot *)
  min_volume : Z;
  step_volume : Z
}.

Record SlaveConfig := {
  account_id : Z;
  enabled : bool;
  multiplier : decimal;
  symbols : gmap string SymbolInfo
}.

(** ** Master events *)

Record MasterPositionOpened := {
  mpo_position_id : Z;
  mpo_symbol_name : string;
  mpo_side : Side;
  mpo_volume : Z;
  mpo_lot_size : Z;
  mpo_stop_loss : price;
  mpo_take_profit : price;
  mpo_entry_price : price
}.

Record MasterPositionClosed := {
  mpc_position_id : Z;
  mpc_symbol_name : string;
  mpc_closed_volume : Z;
  mpc_remaining_volume : Z
}.

Record MasterPositionSLTPAmended := {
  mpa_position_id : Z;
  mpa_stop_loss : price;
  mpa_take_profit : price
}.

Record MasterPendingPlaced := {
  mpp_order_id : Z;
  mpp_symbol_name : string;
  mpp_side : Side;
  mpp_order_type : PendingType;
  mpp_volume : Z;
  mpp_lot_size : Z;
  mpp_price : float64;
  mpp_stop_loss : price;
  mpp_take_profit : price;
  mpp_expiry_ts_ms : option Z
}.

Record MasterPendingReplaced := {
  mpr_order_id : Z;
  mpr_symbol_name : string;
  mpr_lot_size : Z;
  mpr_order_type : PendingType;
  mpr_volume : Z;
  mpr_price : float64;
  mpr_stop_loss : price;
  mpr_take_profit : price
}.

Record MasterPendingCancelled := { mpx_order_id : Z }.

Record MasterPendingFilled := { mpf_order_id : Z; mpf_position_id : Z }.

Record MasterRejected := { mrj_reason : string }.

Inductive MasterEvent :=
  | EvPositionOpened (e : MasterPositionOpened)
  | EvPositionClosed (e : MasterPositionClosed)
  | EvPositionSLTPAmended (e : MasterPositionSLTPAmended)
  | EvPendingPlaced (e : MasterPendingPlaced)
  | EvPendingReplaced (e : MasterPendingReplaced)
  | EvPendingCancelled (e : MasterPendingCancelled)
  | EvPendingFilled (e : MasterPendingFilled)
  | EvRejected (e : MasterRejected).

(** [type(event).__name__] *)
Definition event_type_name (e : MasterEvent) : string :=
  match e with
  | EvPositionOpened _ => "MasterPositionOpened"
  | EvPositionClosed _ => "MasterPositionClosed"
  | EvPositionSLTPAmended _ => "MasterPositionSLTPAmended"
  | EvPendingPlaced _ => "MasterPendingPlaced"
  | EvPendingReplaced _ => "MasterPendingReplaced"
  | EvPendingCancelled _ => "MasterPendingCancelled"
  | EvPendingFilled _ => "MasterPendingFilled"
  | EvRejected _ => "MasterRejected"
  end.

(** ** Mapping state *)

Record PositionMappingEntry := {
  pme_slave_account_id : Z;
  pme_slave_position_id : Z;
  pme_slave_volume : Z
}.

(** [slave_order_id] is a nullable column: an adopted or never accepted row
    answers [None]. *)
Record OrderMappingEntry := {
  ome_slave_account_id : Z;
  ome_slave_order_id : option Z
}.

(** The [MappingState] protocol: what [decide] asks of the repository. *)
Class MappingState (S : Type) := {
  position_entries : S -> Z -> list PositionMappingEntry;
  order_entries : S -> Z -> list OrderMappingEntry
}.

(** ** Slave intents *)

Record OpenMarket := {
  om_slave_account_id : Z;
  om_master_position_id : Z;
  om_symbol_id : Z;
  om_side : Side;
  om_volume : Z;
  om_stop_loss : price;
  om_take_profit : price;
  om_label : string;
  om_symbol_name : string;
  om_entry_price : price
}.

Record ClosePosition := {
  cp_slave_account_id : Z;
  cp_position_id : Z;
  cp_volume : Z;
  cp_master_position_id : option Z
}.

Record AmendPositionSLTP := {
  ap_slave_account_id : Z;
  ap_position_id : Z;
  ap_stop_loss : price;
  ap_take_profit : price
}.

Record PlacePending := {
  pp_slave_account_id : Z;
  pp_master_order_id : Z;
  pp_symbol_id : Z;
  pp_side : Side;
  pp_order_type : PendingType;
  pp_volume : Z;
  pp_price : float64;
  pp_stop_loss : price;
  pp_take_profit : price;
  pp_expiry_ts_ms : option Z;
  pp_label : string;
  pp_symbol_name : string
}.

Record AmendPending := {
  ao_slave_account_id : Z;
  ao_order_id : option Z;
  ao_order_type : PendingType;
  ao_volume : Z;
  ao_price : float64;
  ao_stop_loss : price;
  ao_take_profit : price
}.

Record CancelPending := { co_slave_account_id : Z; co_order_id : option Z }.

Record LinkPendingFill := {
  lf_slave_account_id : Z;
  lf_master_order_id : Z;
  lf_master_position_id : Z
}.

Record Alert := { al_slave_account_id : option Z; al_message : string }.

Inductive SlaveIntent :=
  | IOpenMarket (i : OpenMarket)
  | IClosePosition (i : ClosePosition)
  | IAmendPositionSLTP (i : AmendPositionSLTP)
  | IPlacePending (i : PlacePending)
  | IAmendPending (i : AmendPending)
  | ICancelPending (i : CancelPending)
  | ILinkPendingFill (i : LinkPendingFill)
  | IAlert (i : Alert).

(** [getattr(intent, 'slave_account_id', None)] *)
Definition intent_account (i : SlaveIntent) : option Z :=
  match i with
  | IOpenMarket i => Some (om_slave_account_id i)
  | IClosePosition i => Some (cp_slave_account_id i)
  | IAmendPositionSLTP i => Some (ap_slave_account_id i)
  | IPlacePending i => Some (pp_slave_account_id i)
  | IAmendPending i => Some (ao_slave_account_id i)
  | ICancelPending i => Some (co_slave_account_id i)
  | ILinkPendingFill i => Some (lf_slave_account_id i)
  | IAlert i => al_slave_account_id i
  end.

(** [type(intent).__name__] *)
Definition intent_type_name (i : SlaveIntent) : string :=
  match i with
  | IOpenMarket _ => "OpenMarket"
  | IClosePosition _ => "ClosePosition"
  | IAmendPositionSLTP _ => "AmendPositionSLTP"
  | IPlacePending _ => "PlacePending"
  | IAmendPending _ => "AmendPending"
  | ICancelPending _ => "CancelPending"
  | ILinkPendingFill _ => "LinkPendingFill"
  | IAlert _ => "Alert"
  end.

Definition is_alert (i : SlaveIntent) : bool :=
  match i with IAlert _ => true | _ => false end.
