(* ===== verification/Sizing.v ===== *)
(** * Volume sizing: [copier/domain/sizing.py]

    Lots to protocol volume and back, the volume a copy is opened with and
    the volume a copy is closed by. *)

From S2P Require Import Prelude PyDecimal.

(** ** Definitions *)

(** [(Decimal(volume) / Decimal(lot_size)).normalize()] *)
Definition protocol_volume_to_lots (volume lot_size : Z) : result decimal :=
  match dec_div (dec_of_int volume) (dec_of_int lot_size) with
  | Some d => Ok (dec_normalize d)
  | None => Raise (ZeroDivisionError "decimal division by zero")
  end.

Definition lots_to_protocol_volume (lots : decimal) (lot_size : Z) : Z :=
  dec_int (dec_to_integral_half_up (dec_mul lots (dec_of_int lot_size))).

Definition floor_to_step (volume step_volume : Z) : Z :=
  if step_volume <=? 0 then volume
  else (volume / step_volume) * step_volume.

Definition mirror_volume (master_volume master_lot_size : Z) (multiplier : decimal)
    (slave_lot_size slave_step_volume : Z) : result Z :=
  let? lots := protocol_volume_to_lots master_volume master_lot_size in
  Ok (floor_to_step (lots_to_protocol_volume (dec_mul lots multiplier) slave_lot_size)
                    slave_step_volume).

Definition partial_close_volume (slave_volume closed_volume remaining_volume step_volume : Z)
    : result Z :=
  if remaining_volume =? 0 then Ok slave_volume
  else
    let total := closed_volume + remaining_volume in
    match dec_div (dec_mul (dec_of_int slave_volume) (dec_of_int closed_volume))
                  (dec_of_int total) with
    | Some exact => Ok (Z.min (floor_to_step (dec_int exact) step_volume) slave_volume)
    | None => Raise (ZeroDivisionError "decimal division by zero")
    end.

(** ** Step rounding *)

Lemma floor_to_step_le v s : 0 <= v -> floor_to_step v s <= v.
Proof.
  intros Hv. unfold floor_to_step. destruct (Z.leb_spec s 0); [lia|].
  rewrite Z.mul_comm. by apply Z.mul_div_le.
Qed.

Lemma floor_to_step_nonneg v s : 0 <= v -> 0 <= floor_to_step v s.
Proof.
  intros Hv. unfold floor_to_step. destruct (Z.leb_spec s 0); [lia|].
  apply Z.mul_nonneg_nonneg; [|lia]. apply Z.div_pos; lia.
Qed.

Lemma floor_to_step_multiple v s : 0 < s -> (s | floor_to_step v s).
Proof.
  intros Hs. unfold floor_to_step. destruct (Z.leb_spec s 0); [lia|].
  by exists (v / s).
Qed.

#[export] Hint Resolve floor_to_step_le floor_to_step_nonneg : copier.

(** ** The mirrored volume *)

(** The reference: the product rounded half up to a whole protocol unit, then
    down to the slave's step.  [m] is the multiplier in units of [10^-4], the
    scale of the column it is read from. *)
Definition mirror_reference (v j m sl step : Z) : Z :=
  floor_to_step ((2 * (v * m * sl) + 10 ^ j * 10 ^ 4) / (2 * (10 ^ j * 10 ^ 4))) step.

(** C1: within a broker's range the decimal arithmetic loses nothing.  When
    the master's lot size is a power of ten, the multiplier has the database
    column's four decimals, master volume and multiplier (in units of its last
    decimal) are below [10^10] and the slave's lot size below [10^8], the
    copy's volume is the exact product of master volume, multiplier and
    lot-size ratio, rounded half up to a protocol unit and then down to the
    slave's step.  Other lot sizes can lose a unit
    ([other_lot_sizes_lose_a_unit]). *)
Theorem mirror_volume_exact v j m sl step :
  0 <= v < 10 ^ 10 -> 0 <= j -> 0 <= m < 10 ^ 10 -> 0 < sl < 10 ^ 8 ->
  mirror_volume v (10 ^ j) (Dec m (-4)) sl step = Ok (mirror_reference v j m sl step).
Proof.
  intros Hv Hj Hm Hsl. unfold mirror_volume, protocol_volume_to_lots.
  destruct (dec_div_pow10 v j ltac:(unfold PREC; lia) Hj) as (d & -> & Hd & Hdv).
  assert (Hd0 : 0 <= d_coef d) by apply Hd.
  destruct (represents_normalize d v (10 ^ j) ltac:(unfold PREC; lia) Hd) as [Hl Hlv].
  set (l := dec_normalize d) in *. assert (Hl0 : 0 <= d_coef l) by apply Hl.
  cbn [rbind]. do 2 f_equal. unfold lots_to_protocol_volume.
  assert (Hmul : 0 <= d_coef l * m < 10 ^ 20).
  { split; [nia|]. apply Z.lt_le_trans with (10 ^ 10 * 10 ^ 10); [|lia].
    apply Z.mul_lt_mono_nonneg; lia. }
  rewrite (dec_mul_exact l (Dec m (-4))) by (cbn [d_coef]; rewrite Z.abs_eq; unfold PREC; lia).
  cbn [d_coef d_exp].
  assert (Hmr : represents (Dec m (-4)) m (10 ^ 4))
    by (split; cbn [d_exp d_coef]; change (Z.max (-4) 0) with 0;
        change (Z.max (- -4) 0) with 4; lia).
  pose proof (represents_mul l (Dec m (-4)) _ _ _ _ Hl Hmr) as Hp. cbn [d_coef d_exp] in Hp.
  assert (Hbig : 0 <= d_coef l * m * sl < 10 ^ 28).
  { split; [nia|]. apply Z.lt_le_trans with (10 ^ 20 * 10 ^ 8); [|lia].
    apply Z.mul_lt_mono_nonneg; lia. }
  rewrite dec_mul_exact by (cbn [d_coef dec_of_int]; rewrite Z.abs_eq; unfold PREC; lia).
  assert (Hslr : represents (dec_of_int sl) sl 1) by (split; cbn [dec_of_int d_coef d_exp]; [lia|]; change (Z.max _ 0) with 0; lia).
  pose proof (represents_mul _ _ _ _ _ _ Hp Hslr) as Hq. cbn [d_coef d_exp dec_of_int] in Hq.
  cbn [d_coef d_exp dec_of_int].
  assert (0 < 10 ^ j) by (apply pow10_pos; lia).
  rewrite (to_integral_represents _ (v * m * sl) (10 ^ j * 10 ^ 4 * 1)); [|lia|nia|exact Hq].
  by rewrite Z.mul_1_r.
Qed.

(** A copy of 2.50 lots at multiplier 0.4 on a 0.01-lot step: 1.00 lot. *)
Lemma mirror_volume_exact_witness :
  mirror_volume 25000000 (10 ^ 7) (Dec 4000 (-4)) 10000000 100000 = Ok 10000000.
Proof.
  rewrite (mirror_volume_exact 25000000 7 4000 10000000 100000) by lia.
  vm_compute. reflexivity.
Defined.

(** A lot of 3 units has no finite decimal: one unit at 16.5 is 5.5 units,
    which rounds to 6, but the code's 28 digits fall short of the half. *)
Example other_lot_sizes_lose_a_unit :
  mirror_volume 1 3 (Dec 165 (-1)) 1 1 = Ok 5 /\
  floor_to_step ((2 * (1 * 165 * 1) + 3 * 10) / (2 * (3 * 10))) 1 = 6.
Proof. split; vm_compute; reflexivity. Qed.

(** ** The closed volume *)

Lemma dec_mul_int a b :
  0 <= a -> 0 <= b -> a * b < 10 ^ PREC -> dec_mul (dec_of_int a) (dec_of_int b) = Dec (a * b) 0.
Proof. intros. rewrite dec_mul_exact; [done|]. cbn [d_coef dec_of_int]. rewrite Z.abs_eq; nia. Qed.

(** A partial close takes from the copy the share the master closed of its
    own position: for volumes in range, the computed volume is the copy's
    volume times closed over total, rounded down to a whole unit and to the
    step, and a full close takes everything. *)
Theorem partial_close_volume_exact sv closed remaining step :
  0 <= sv < 10 ^ 13 -> 0 <= closed -> 0 <= remaining -> 0 < closed + remaining < 10 ^ 13 ->
  partial_close_volume sv closed remaining step
  = Ok (if remaining =? 0 then sv
        else floor_to_step (sv * closed / (closed + remaining)) step).
Proof.
  intros Hsv Hc Hr Ht. unfold partial_close_volume.
  destruct (Z.eqb_spec remaining 0) as [_|Hne]; [done|].
  rewrite dec_mul_int by (unfold PREC; nia).
  destruct (dec_div_trunc (sv * closed) (closed + remaining)) as (d & -> & ->); [nia|lia|nia|].
  f_equal. apply Z.min_l.
  assert (0 <= sv * closed / (closed + remaining) <= sv).
  { split; [apply Z.div_pos; nia|]. apply Z.div_le_upper_bound; nia. }
  etrans; [apply floor_to_step_le; lia|lia].
Qed.

Lemma partial_close_volume_exact_witness :
  partial_close_volume 100000 30000 70000 1000 = Ok 30000.
Proof.
  rewrite partial_close_volume_exact by lia. vm_compute. reflexivity.
Defined.

(** The bounds other components rely on: a close never exceeds the copy. *)
Lemma partial_close_volume_bounds sv closed remaining step v :
  0 <= sv < 10 ^ 13 -> 0 <= closed -> 0 <= remaining -> 0 < closed + remaining < 10 ^ 13 ->
  partial_close_volume sv closed remaining step = Ok v -> 0 <= v <= sv.
Proof.
  intros Hsv Hc Hr Ht. unfold partial_close_volume.
  destruct (Z.eqb_spec remaining 0) as [_|Hne]; [intros; simplify_eq; lia|].
  rewrite dec_mul_int by (unfold PREC; nia).
  destruct (dec_div_trunc (sv * closed) (closed + remaining)) as (d & -> & ->); [nia|lia|nia|].
  intros ?; simplify_eq. split; [|lia]. apply Z.min_glb; [|lia].
  apply floor_to_step_nonneg. apply Z.div_pos; nia.
Qed.

(** Whatever the operands, a close never takes more than the copy holds. *)
Lemma partial_close_volume_le sv closed remaining step v :
  partial_close_volume sv closed remaining step = Ok v -> v <= sv.
Proof. unfold partial_close_volume. repeat case_match; intros; simplify_eq; lia. Qed.
