(* ===== verification/Trailing.v ===== *)
(** * The trailing-stop ratchet: [copier/domain/trailing.py] *)

From S2P Require Import Prelude PyFloat.
From Stdlib Require Import SpecFloat.

(** ** Definition *)

Definition compute_trailed_stop (side : string)
    (entry_price best_price trail_start_points trail_step_points current_stop : float64)
    : result float64 :=
  let favourable := if bool_decide (side = "BUY") then fsub best_price entry_price
                    else fsub entry_price best_price in
  if fltb favourable trail_start_points then Ok current_stop
  else if feqb trail_step_points fzero
  then Raise (ZeroDivisionError "float division by zero")
  else
    let? steps := py_floor (fdiv (fsub favourable trail_start_points) trail_step_points) in
    let distance := fadd (fsub trail_start_points trail_step_points)
                         (fmul (f_of_Z steps) trail_step_points) in
    if bool_decide (side = "BUY")
    then Ok (fmax (fadd entry_price distance) current_stop)
    else Ok (fmin (fsub entry_price distance) current_stop).

(** ** The ratchet *)

(** At least as tight as before, on the side the position protects. *)
Definition tightened (side : string) (old new : float64) : Prop :=
  if bool_decide (side = "BUY") then fleb old new = true else fleb new old = true.

Lemma fmax_stable a b : is_nan (fmax a b) = false -> fmax a (fmax a b) = fmax a b.
Proof. unfold fmax. destruct (fltb a b) eqn:E; [by rewrite E|by rewrite fltb_irrefl]. Qed.

Lemma fmin_stable a b : is_nan (fmin a b) = false -> fmin a (fmin a b) = fmin a b.
Proof. unfold fmin. destruct (fltb b a) eqn:E; [by rewrite E|by rewrite fltb_irrefl]. Qed.

Lemma fmax_not_nan a b : is_nan (fmax a b) = false -> is_nan b = false -> is_nan a = false.
Proof. unfold fmax. destruct (fltb a b) eqn:E; [|done]. intros _ _.
  by destruct (fleb_nan _ _ (fltb_fleb _ _ E)). Qed.

Lemma fmin_not_nan a b : is_nan (fmin a b) = false -> is_nan b = false -> is_nan a = false.
Proof. unfold fmin. destruct (fltb b a) eqn:E; [|done]. intros _ _.
  by destruct (fleb_nan _ _ (fltb_fleb _ _ E)). Qed.

(** The trailing stop is a ratchet: it never moves away from the market,
    it stays where it is until the price has moved the start distance in
    favour, and evaluating it again at the same best price changes nothing. *)
Theorem trailed_stop_ratchet side entry best start step cur new :
  is_nan cur = false -> is_nan new = false ->
  compute_trailed_stop side entry best start step cur = Ok new ->
  tightened side cur new /\
  compute_trailed_stop side entry best start step new = Ok new /\
  (fltb (if bool_decide (side = "BUY") then fsub best entry else fsub entry best) start = true ->
   new = cur).
Proof.
  intros Hcur Hnew H. unfold tightened, compute_trailed_stop in *.
  destruct (bool_decide (side = "BUY")).
  - destruct (fltb (fsub best entry) start).
    { simplify_eq. by rewrite fleb_refl. }
    destruct (feqb step fzero); [done|].
    destruct (py_floor _) as [n|e]; [|done]. cbn [rbind] in *. simplify_eq.
    split; [|split; [|done]].
    + apply fmax_ge_r; [|done]. eauto using fmax_not_nan.
    + by rewrite fmax_stable.
  - destruct (fltb (fsub entry best) start).
    { simplify_eq. by rewrite fleb_refl. }
    destruct (feqb step fzero); [done|].
    destruct (py_floor _) as [n|e]; [|done]. cbn [rbind] in *. simplify_eq.
    split; [|split; [|done]].
    + apply fmin_le_r; [|done]. eauto using fmin_not_nan.
    + by rewrite fmin_stable.
Qed.

(** Entry 100, best 107, start 2, step 1: the stop moves from 95 to 106. *)
Lemma trailed_stop_ratchet_witness :
  tightened "BUY" (f_of_Z 95) (f_of_Z 106) /\
  compute_trailed_stop "BUY" (f_of_Z 100) (f_of_Z 107) (f_of_Z 2) (f_of_Z 1) (f_of_Z 106)
  = Ok (f_of_Z 106) /\
  (fltb (fsub (f_of_Z 107) (f_of_Z 100)) (f_of_Z 2) = true -> f_of_Z 106 = f_of_Z 95).
Proof.
  apply (trailed_stop_ratchet "BUY" (f_of_Z 100) (f_of_Z 107) (f_of_Z 2) (f_of_Z 1)
           (f_of_Z 95) (f_of_Z 106)); vm_compute; reflexivity.
Defined.
