(* ===== verification/Decision.v ===== *)
(** * The replication decision core: [copier/domain/decision.py]

    [decide] maps a master event, the mapping state and the slave fleet to
    the intents the dispatcher executes.  It is pure; it can raise only where
    [sizing] divides by a zero lot size. *)

From S2P Require Import Prelude PyStr PyDecimal PyFloat Models Sizing.

(** ** Definitions *)

Definition alert (a : Z) (msg : string) : SlaveIntent :=
  IAlert {| al_slave_account_id := Some a; al_message := msg |}.

Definition _enabled (slaves : list SlaveConfig) : list SlaveConfig :=
  List.filter enabled slaves.

Definition _by_id (slaves : list SlaveConfig) : list (Z * SlaveConfig) :=
  od_of_list ((fun s => (account_id s, s)) <$> _enabled slaves).

(** [enabled.keys() - covered], in the dict's order (a Python set has none). *)
Definition uncovered (enabled_map : list (Z * SlaveConfig)) (covered : list Z) : list Z :=
  List.filter (fun k => negb (bool_decide (k ∈ covered))) (od_keys enabled_map).

Definition open_one (e : MasterPositionOpened) (s : SlaveConfig) : result SlaveIntent :=
  match symbols s !! mpo_symbol_name e with
  | None => Ok (alert (account_id s)
      ("cannot copy position " +:+ pretty (mpo_position_id e) +:+ ": symbol " +:+
       py_repr (mpo_symbol_name e) +:+ " not available"))
  | Some sym =>
      let? vol := mirror_volume (mpo_volume e) (mpo_lot_size e) (multiplier s)
                                (lot_size sym) (step_volume sym) in
      if vol =? 0
      then Ok (alert (account_id s)
        ("cannot copy position " +:+ pretty (mpo_position_id e) +:+ ": mirrored volume rounds to 0"))
      else Ok (IOpenMarket {|
        om_slave_account_id := account_id s;
        om_master_position_id := mpo_position_id e;
        om_symbol_id := symbol_id sym;
        om_side := mpo_side e;
        om_volume := vol;
        om_stop_loss := mpo_stop_loss e;
        om_take_profit := mpo_take_profit e;
        om_label := "copy:m" +:+ pretty (mpo_position_id e);
        om_symbol_name := mpo_symbol_name e;
        om_entry_price := mpo_entry_price e |})
  end.

Definition _position_opened (e : MasterPositionOpened) (slaves : list SlaveConfig)
    : result (list SlaveIntent) :=
  rmap (open_one e) (_enabled slaves).

Definition close_one (e : MasterPositionClosed) (s : SlaveConfig) (entry : PositionMappingEntry)
    : result SlaveIntent :=
  let step := match symbols s !! mpc_symbol_name e with
              | Some sym => step_volume sym
              | None => 1
              end in
  let? vol := partial_close_volume (pme_slave_volume entry) (mpc_closed_volume e)
                                   (mpc_remaining_volume e) step in
  if vol =? 0
  then Ok (alert (account_id s)
    ("partial close of position " +:+ pretty (mpc_position_id e) +:+ " rounds to 0 on slave"))
  else Ok (IClosePosition {|
    cp_slave_account_id := account_id s;
    cp_position_id := pme_slave_position_id entry;
    cp_volume := vol;
    cp_master_position_id := Some (mpc_position_id e) |}).

(** The entries of enabled slaves, each with its slave's configuration. *)
Definition live_entries {A} (acc : A -> Z) (enabled_map : list (Z * SlaveConfig)) (entries : list A)
    : list (A * SlaveConfig) :=
  omap (fun entry => (fun s => (entry, s)) <$> od_get (acc entry) enabled_map) entries.

(** The loop over the mapping entries followed by the alerts for the enabled
    slaves no entry covered: the shape four handlers share. *)
Definition fan_out {A} (acc : A -> Z) (act : SlaveConfig -> A -> result SlaveIntent)
    (missing : string) (slaves : list SlaveConfig) (entries : list A)
    : result (list SlaveIntent) :=
  let enabled_map := _by_id slaves in
  let live := live_entries acc enabled_map entries in
  let? acts := rmap (fun p => act p.2 p.1) live in
  Ok (acts ++ ((fun k => alert k missing) <$> uncovered enabled_map (acc <$> live.*1))).

Section with_mappings.
Context {S : Type} `{!MappingState S}.
Implicit Types (mappings : S) (slaves : list SlaveConfig).

Definition _position_closed (e : MasterPositionClosed) mappings slaves : result (list SlaveIntent) :=
  fan_out pme_slave_account_id (close_one e)
    ("master closed position " +:+ pretty (mpc_position_id e) +:+ " but slave has no mapped copy")
    slaves (position_entries mappings (mpc_position_id e)).

Definition _position_sltp (e : MasterPositionSLTPAmended) mappings slaves : result (list SlaveIntent) :=
  fan_out pme_slave_account_id
    (fun _ entry => Ok (IAmendPositionSLTP {|
       ap_slave_account_id := pme_slave_account_id entry;
       ap_position_id := pme_slave_position_id entry;
       ap_stop_loss := mpa_stop_loss e;
       ap_take_profit := mpa_take_profit e |}))
    ("SL/TP change on master position " +:+ pretty (mpa_position_id e) +:+
     " but slave has no mapped copy")
    slaves (position_entries mappings (mpa_position_id e)).

Definition place_one (e : MasterPendingPlaced) (s : SlaveConfig) : result SlaveIntent :=
  match symbols s !! mpp_symbol_name e with
  | None => Ok (alert (account_id s)
      ("cannot copy order " +:+ pretty (mpp_order_id e) +:+ ": symbol " +:+
       py_repr (mpp_symbol_name e) +:+ " not available"))
  | Some sym =>
      let? vol := mirror_volume (mpp_volume e) (mpp_lot_size e) (multiplier s)
                                (lot_size sym) (step_volume sym) in
      if vol =? 0
      then Ok (alert (account_id s)
        ("cannot copy order " +:+ pretty (mpp_order_id e) +:+ ": mirrored volume rounds to 0"))
      else Ok (IPlacePending {|
        pp_slave_account_id := account_id s;
        pp_master_order_id := mpp_order_id e;
        pp_symbol_id := symbol_id sym;
        pp_side := mpp_side e;
        pp_order_type := mpp_order_type e;
        pp_volume := vol;
        pp_price := mpp_price e;
        pp_stop_loss := mpp_stop_loss e;
        pp_take_profit := mpp_take_profit e;
        pp_expiry_ts_ms := mpp_expiry_ts_ms e;
        pp_label := "copy:o" +:+ pretty (mpp_order_id e);
        pp_symbol_name := mpp_symbol_name e |})
  end.

Definition replace_one (e : MasterPendingReplaced) (s : SlaveConfig) (entry : OrderMappingEntry)
    : result SlaveIntent :=
  match symbols s !! mpr_symbol_name e with
  | None => Ok (alert (account_id s)
      ("cannot amend order copy of " +:+ pretty (mpr_order_id e) +:+ ": symbol missing"))
  | Some sym =>
      let? vol := mirror_volume (mpr_volume e) (mpr_lot_size e) (multiplier s)
                                (lot_size sym) (step_volume sym) in
      if vol =? 0
      then Ok (alert (account_id s)
        ("cannot amend order " +:+ pretty (mpr_order_id e) +:+ ": mirrored volume rounds to 0"))
      else Ok (IAmendPending {|
        ao_slave_account_id := account_id s;
        ao_order_id := ome_slave_order_id entry;
        ao_order_type := mpr_order_type e;
        ao_volume := vol;
        ao_price := mpr_price e;
        ao_stop_loss := mpr_stop_loss e;
        ao_take_profit := mpr_take_profit e |})
  end.

Definition _decide_pending (event : MasterEvent) mappings slaves : result (list SlaveIntent) :=
  match event with
  | EvPendingPlaced e => rmap (place_one e) (_enabled slaves)
  | EvPendingReplaced e =>
      fan_out ome_slave_account_id (replace_one e)
        ("master replaced order " +:+ pretty (mpr_order_id e) +:+ " but slave has no mapped order")
        slaves (order_entries mappings (mpr_order_id e))
  | EvPendingCancelled e =>
      fan_out ome_slave_account_id
        (fun _ entry => Ok (ICancelPending {|
           co_slave_account_id := ome_slave_account_id entry;
           co_order_id := ome_slave_order_id entry |}))
        ("master cancelled order " +:+ pretty (mpx_order_id e) +:+ " but slave has no mapped order")
        slaves (order_entries mappings (mpx_order_id e))
  | EvPendingFilled e =>
      fan_out ome_slave_account_id
        (fun _ entry => Ok (ILinkPendingFill {|
           lf_slave_account_id := ome_slave_account_id entry;
           lf_master_order_id := mpf_order_id e;
           lf_master_position_id := mpf_position_id e |}))
        ("master order " +:+ pretty (mpf_order_id e) +:+ " filled but slave has no mapped order")
        slaves (order_entries mappings (mpf_order_id e))
  | _ => Ok []
  end.
End with_mappings.

(** In a module of its own: stdpp's [decide] keeps its short name. *)
Module Replication.
Section decide.
Context {S : Type} `{!MappingState S}.

Definition decide (event : MasterEvent) (mappings : S) (slaves : list SlaveConfig)
    : result (list SlaveIntent) :=
  match event with
  | EvPositionOpened e => _position_opened e slaves
  | EvPositionClosed e => _position_closed e mappings slaves
  | EvPositionSLTPAmended e => _position_sltp e mappings slaves
  | EvRejected _ => Ok []
  | _ => _decide_pending event mappings slaves
  end.
End decide.
End Replication.

(** ** The enabled fleet *)

Definition enabled_ids (slaves : list SlaveConfig) : list Z := account_id <$> _enabled slaves.

Lemma elem_of_enabled s slaves : s ∈ _enabled slaves <-> s ∈ slaves /\ enabled s = true.
Proof. unfold _enabled. by rewrite list_elem_of_In, List.filter_In, <- list_elem_of_In. Qed.

Lemma by_id_get slaves k s :
  od_get k (_by_id slaves) = Some s -> account_id s = k /\ s ∈ _enabled slaves.
Proof.
  intros (s' & Heq & Hs)%od_of_list_get%list_elem_of_fmap. by simplify_eq.
Qed.

Lemma by_id_keys slaves k : k ∈ od_keys (_by_id slaves) <-> k ∈ enabled_ids slaves.
Proof.
  unfold _by_id, enabled_ids. rewrite od_of_list_keys. rewrite <- list_fmap_compose.
  by rewrite !list_elem_of_fmap.
Qed.

Lemma by_id_is_Some slaves k :
  is_Some (od_get k (_by_id slaves)) <-> k ∈ enabled_ids slaves.
Proof.
  rewrite <- by_id_keys. destruct (od_get k (_by_id slaves)) eqn:E.
  - split; [|eauto]. intros _. apply by_id_get in E as [E H].
    rewrite by_id_keys. apply list_elem_of_fmap. eauto.
  - split; [by intros []|]. apply od_get_None in E. done.
Qed.

Lemma elem_of_live_entries {A} (acc : A -> Z) em entries a s :
  (a, s) ∈ live_entries acc em entries <-> a ∈ entries /\ od_get (acc a) em = Some s.
Proof.
  unfold live_entries. rewrite list_elem_of_omap. split.
  - intros (a' & Ha & Hs). destruct (od_get (acc a') em) eqn:E; simpl in Hs; [|done].
    by simplify_eq.
  - intros [Ha Hs]. exists a. by rewrite Hs.
Qed.

(** ** Who receives an intent *)

(** A one-entry action addresses the slave it was called for. *)
Definition addresses (a : Z) (r : result SlaveIntent) : Prop :=
  forall i, r = Ok i -> intent_account i = Some a.

Lemma open_one_addresses e s : addresses (account_id s) (open_one e s).
Proof. intros i. unfold open_one, rbind. repeat case_match; intros; by simplify_eq. Qed.
Lemma close_one_addresses e s entry : addresses (account_id s) (close_one e s entry).
Proof. intros i. unfold close_one, rbind. repeat case_match; intros; by simplify_eq. Qed.
Lemma place_one_addresses e s : addresses (account_id s) (place_one e s).
Proof. intros i. unfold place_one, rbind. repeat case_match; intros; by simplify_eq. Qed.
Lemma replace_one_addresses e s entry : addresses (account_id s) (replace_one e s entry).
Proof. intros i. unfold replace_one, rbind. repeat case_match; intros; by simplify_eq. Qed.

#[export] Hint Resolve open_one_addresses close_one_addresses place_one_addresses
  replace_one_addresses : copier.

(** The accounts the intents go to are exactly the enabled slaves. *)
Definition targets_exactly (out : list SlaveIntent) (ids : list Z) : Prop :=
  forall a, (exists i, i ∈ out /\ intent_account i = Some a) <-> a ∈ ids.

Lemma direct_targets (f : SlaveConfig -> result SlaveIntent) slaves out :
  (forall s, addresses (account_id s) (f s)) ->
  rmap f (_enabled slaves) = Ok out -> targets_exactly out (enabled_ids slaves).
Proof.
  intros Hf H a. unfold enabled_ids. rewrite list_elem_of_fmap. split.
  - intros (i & Hi & Ha). destruct (rmap_elem _ _ _ _ H Hi) as (s & Hs & Hfs).
    rewrite (Hf _ _ Hfs) in Ha. simplify_eq. eauto.
  - intros (s & -> & Hs). destruct (rmap_elem_l _ _ _ _ H Hs) as (i & Hi & Hfs).
    exists i. split; [done|]. by apply Hf.
Qed.

Lemma fan_out_targets {A} (acc : A -> Z) act missing slaves entries out :
  (forall s x, account_id s = acc x -> addresses (acc x) (act s x)) ->
  fan_out acc act missing slaves entries = Ok out ->
  targets_exactly out (enabled_ids slaves).
Proof.
  intros Hact. unfold fan_out, rbind.
  destruct (rmap _ _) as [acts|] eqn:E; [|done]. intros [= <-] a.
  setoid_rewrite elem_of_app. rewrite <- by_id_is_Some. split.
  - intros (i & [Hi|Hi] & Ha).
    + destruct (rmap_elem _ _ _ _ E Hi) as ([x s] & Hx & Hf). simpl in Hf.
      apply elem_of_live_entries in Hx as [Hx Hs]. destruct (by_id_get _ _ _ Hs) as [Hid _].
      rewrite (Hact _ _ Hid _ Hf) in Ha. by simplify_eq.
    + apply list_elem_of_fmap in Hi as (k & -> & Hk). simpl in Ha. simplify_eq.
      unfold uncovered in Hk. apply list_elem_of_In, List.filter_In in Hk as [Hk _].
      apply by_id_is_Some. rewrite <- by_id_keys. by apply list_elem_of_In.
  - intros [s Hs]. destruct (by_id_get _ _ _ Hs) as [Hid Hen].
    destruct (decide (a ∈ acc <$> (live_entries acc (_by_id slaves) entries).*1)) as [Hc|Hc].
    + apply list_elem_of_fmap in Hc as (x & -> & Hx).
      apply list_elem_of_fmap in Hx as ([x' s'] & -> & Hx). simpl in *.
      destruct (rmap_elem_l _ _ _ _ E Hx) as (i & Hi & Hf). simpl in Hf.
      apply elem_of_live_entries in Hx as [_ Hs']. destruct (by_id_get _ _ _ Hs') as [Hid' _].
      exists i. split; [by left|]. by eapply Hact.
    + eexists (alert a missing). split; [right|done].
      apply list_elem_of_fmap. exists a. split; [done|].
      unfold uncovered. apply list_elem_of_In, List.filter_In. split.
      * apply list_elem_of_In, by_id_keys, by_id_is_Some. eauto.
      * apply negb_true_iff, bool_decide_eq_false. done.
Qed.

Lemma decide_targets {S} `{!MappingState S} event (mappings : S) slaves out :
  (forall e, event <> EvRejected e) ->
  Replication.decide event mappings slaves = Ok out ->
  targets_exactly out (enabled_ids slaves).
Proof.
  intros Hrej. destruct event as [e|e|e|e|e|e|e|e]; simpl; [| | | | | | |by destruct (Hrej e)].
  1, 4: apply direct_targets; auto with copier.
  all: apply fan_out_targets; intros s x Hx i Hi; rewrite <- ?Hx.
  1: by eapply close_one_addresses. 2: by eapply replace_one_addresses.
  all: simplify_eq; simpl; congruence.
Qed.

(** ** What each slave receives *)

(** The intents for account [a], in order *)
Definition intents_to (a : Z) (out : list SlaveIntent) : list SlaveIntent := filter (fun i => intent_account i = Some a) out.

(** The copies of account [a] an event is about, each with its ticket and volume;
    [None] for an event that opens something. *)
Definition copies {S} `{!MappingState S} (event : MasterEvent) (mappings : S) (a : Z) : option (list (option Z * Z)) :=
  let positions p := (fun x => (Some (pme_slave_position_id x), pme_slave_volume x)) <$>
                     filter (fun x => pme_slave_account_id x = a) (position_entries mappings p) in
  let orders o := (fun x => (ome_slave_order_id x, 0)) <$>
                  filter (fun x => ome_slave_account_id x = a) (order_entries mappings o) in
  match event with
  | EvPositionOpened _ | EvPendingPlaced _ | EvRejected _ => None
  | EvPositionClosed e => Some (positions (mpc_position_id e))
  | EvPositionSLTPAmended e => Some (positions (mpa_position_id e))
  | EvPendingReplaced e => Some (orders (mpr_order_id e))
  | EvPendingCancelled e => Some (orders (mpx_order_id e))
  | EvPendingFilled e => Some (orders (mpf_order_id e))
  end.

(** A volume that was computed: an alert if it came to nothing *)
Definition sized (vol : result Z) (i : SlaveIntent) (P : Z -> Prop) : Prop :=
  exists v, vol = Ok v /\ if v =? 0 then is_alert i = true else P v.

(** [i] is what the event asks of the slave, for its copy with that ticket and
    volume. *)
Definition answers (event : MasterEvent) (s : SlaveConfig) (copy : option Z * Z) (i : SlaveIntent) : Prop :=
  match event with
  | EvPositionOpened e =>
      match symbols s !! mpo_symbol_name e with
      | None => is_alert i = true
      | Some sym => sized (mirror_volume (mpo_volume e) (mpo_lot_size e) (multiplier s) (lot_size sym) (step_volume sym)) i
          (fun v => exists o, i = IOpenMarket o /\ om_master_position_id o = mpo_position_id e /\ om_symbol_id o = symbol_id sym /\
             om_side o = mpo_side e /\ om_volume o = v /\ om_stop_loss o = mpo_stop_loss e /\ om_take_profit o = mpo_take_profit e)
      end
  | EvPendingPlaced e =>
      match symbols s !! mpp_symbol_name e with
      | None => is_alert i = true
      | Some sym => sized (mirror_volume (mpp_volume e) (mpp_lot_size e) (multiplier s) (lot_size sym) (step_volume sym)) i
          (fun v => exists o, i = IPlacePending o /\ pp_master_order_id o = mpp_order_id e /\ pp_symbol_id o = symbol_id sym /\
             pp_side o = mpp_side e /\ pp_order_type o = mpp_order_type e /\ pp_volume o = v /\ pp_price o = mpp_price e)
      end
  | EvPositionClosed e =>
      let step := match symbols s !! mpc_symbol_name e with Some sym => step_volume sym | None => 1 end in
      sized (partial_close_volume copy.2 (mpc_closed_volume e) (mpc_remaining_volume e) step) i
        (fun v => exists c, i = IClosePosition c /\ Some (cp_position_id c) = copy.1 /\ cp_volume c = v)
  | EvPositionSLTPAmended e =>
      exists p, i = IAmendPositionSLTP p /\ Some (ap_position_id p) = copy.1 /\ ap_stop_loss p = mpa_stop_loss e /\ ap_take_profit p = mpa_take_profit e
  | EvPendingReplaced e =>
      match symbols s !! mpr_symbol_name e with
      | None => is_alert i = true
      | Some sym => sized (mirror_volume (mpr_volume e) (mpr_lot_size e) (multiplier s) (lot_size sym) (step_volume sym)) i
          (fun v => exists o, i = IAmendPending o /\ ao_order_id o = copy.1 /\ ao_volume o = v /\ ao_price o = mpr_price e)
      end
  | EvPendingCancelled _ => exists c, i = ICancelPending c /\ co_order_id c = copy.1
  | EvPendingFilled e =>
      exists l, i = ILinkPendingFill l /\ lf_master_order_id l = mpf_order_id e /\ lf_master_position_id l = mpf_position_id e
  | EvRejected _ => False
  end.

(** The enabled slave [s] gets one answer to an opening; one to each of its copies;
    and one alert if it has none. *)
Definition served {S} `{!MappingState S} (event : MasterEvent) (mappings : S) (s : SlaveConfig) (mine : list SlaveIntent) : Prop :=
  match copies event mappings (account_id s) with
  | None => exists i, mine = [i] /\ answers event s (None, 0) i
  | Some [] => exists reason, mine = [alert (account_id s) reason]
  | Some cs => Forall2 (answers event s) cs mine
  end.

Lemma enabled_inj slaves s s' :
  NoDup (enabled_ids slaves) -> s ∈ _enabled slaves -> s' ∈ _enabled slaves -> account_id s = account_id s' -> s = s'.
Proof. intros Hnd Hs Hs' He. by apply (NoDup_fmap_elem account_id (_enabled slaves)). Qed.

Lemma by_id_of slaves s : NoDup (enabled_ids slaves) -> s ∈ _enabled slaves -> od_get (account_id s) (_by_id slaves) = Some s.
Proof.
  intros Hnd Hs. assert (account_id s ∈ enabled_ids slaves) as [s' Hs']%by_id_is_Some by (apply list_elem_of_fmap; eauto).
  rewrite Hs'. apply by_id_get in Hs' as [Hid Hin]. f_equal. by apply (enabled_inj slaves).
Qed.

Lemma to_alerts a msg ks : NoDup ks -> intents_to a ((fun k => alert k msg) <$> ks) = if decide (a ∈ ks) then [alert a msg] else [].
Proof.
  unfold intents_to. induction 1 as [|k ks Hk _ IH]; csimpl; [done|]. rewrite filter_cons. cbn [intent_account alert al_slave_account_id].
  rewrite IH. clear IH. destruct (decide (Some k = Some a)) as [[= ->]|Hne].
  - rewrite (decide_False (P := a ∈ ks)) by done. by rewrite decide_True by set_solver.
  - destruct (decide (a ∈ ks)); [by rewrite decide_True by set_solver|]. rewrite decide_False; [done|]. set_solver.
Qed.

Lemma to_live {A} (acc : A -> Z) act em s entries acts :
  od_get (account_id s) em = Some s -> (forall k s', od_get k em = Some s' -> account_id s' = k) ->
  (forall s' x, account_id s' = acc x -> addresses (acc x) (act s' x)) ->
  Forall2 (fun p i => act p.2 p.1 = Ok i) (live_entries acc em entries) acts ->
  Forall2 (fun x i => act s x = Ok i) (filter (fun x => acc x = account_id s) entries) (intents_to (account_id s) acts).
Proof.
  intros Hs Hem Hact. unfold intents_to, live_entries. revert acts. induction entries as [|x entries IH]; intros acts; csimpl.
  { intros ->%Forall2_nil_inv_l. constructor. }
  rewrite filter_cons. destruct (od_get (acc x) em) as [s'|] eqn:Ex; csimpl.
  - intros (i & acts' & Hi & Hrest & ->)%Forall2_cons_inv_l. simpl in Hi. rewrite filter_cons.
    rewrite (Hact s' x (Hem _ _ Ex) i Hi). destruct (decide (acc x = account_id s)) as [E|E].
    + rewrite decide_True by congruence. constructor; [|by apply IH]. rewrite E in Ex; by simplify_eq.
    + rewrite decide_False by congruence. by apply IH.
  - intros H. rewrite decide_False by congruence. by apply IH.
Qed.

Lemma fan_out_to {A} (acc : A -> Z) act missing slaves entries out s :
  NoDup (enabled_ids slaves) -> s ∈ _enabled slaves ->
  (forall s x, account_id s = acc x -> addresses (acc x) (act s x)) ->
  fan_out acc act missing slaves entries = Ok out ->
  match filter (fun x => acc x = account_id s) entries with
  | [] => intents_to (account_id s) out = [alert (account_id s) missing]
  | es => Forall2 (fun x i => act s x = Ok i) es (intents_to (account_id s) out)
  end.
Proof.
  intros Hnd Hs Hact. unfold fan_out, rbind. destruct (rmap _ _) as [acts|] eqn:E; [|done]. intros [= <-].
  apply rmap_Forall2 in E. pose proof (by_id_of slaves s Hnd Hs) as Hget.
  pose proof (to_live acc act _ s entries acts Hget (fun k s' H => proj1 (by_id_get slaves k s' H)) Hact E) as Hlive.
  unfold intents_to in *. rewrite filter_app. fold (intents_to (account_id s) ((fun k => alert k missing) <$> uncovered (_by_id slaves) (acc <$> (live_entries acc (_by_id slaves) entries).*1))).
  rewrite to_alerts.
  2: { apply NoDup_ListNoDup, List.NoDup_filter, NoDup_ListNoDup. apply (od_wf_of_list _). }
  set (covered := acc <$> (live_entries acc (_by_id slaves) entries).*1).
  assert (account_id s ∈ uncovered (_by_id slaves) covered <-> account_id s ∉ covered) as Hun.
  { unfold uncovered. rewrite list_elem_of_In, List.filter_In, <- list_elem_of_In, negb_true_iff, bool_decide_eq_false.
    split; [by intros []|]. intros. split; [|done]. apply by_id_keys, list_elem_of_fmap. eauto. }
  assert (account_id s ∈ covered <-> filter (fun x => acc x = account_id s) entries <> []) as Hcov.
  { unfold covered. rewrite list_elem_of_fmap. split.
    - intros (x & Hx & ([x' s'] & -> & Hin)%list_elem_of_fmap). apply elem_of_live_entries in Hin as [Hin _].
      intros Hnil. apply (not_elem_of_nil x'). rewrite <- Hnil. by apply list_elem_of_filter.
    - intros Hne. destruct (filter _ entries) as [|x es] eqn:Ef; [done|].
      assert (x ∈ filter (fun x => acc x = account_id s) entries) as [Hx Hin]%list_elem_of_filter by (rewrite Ef; set_solver).
      exists x. split; [done|]. apply list_elem_of_fmap. exists (x, s). split; [done|]. apply elem_of_live_entries. by rewrite Hx. }
  destruct (filter (fun x => acc x = account_id s) entries) as [|x es] eqn:Ef.
  - apply Forall2_nil_inv_l in Hlive as ->. rewrite decide_True; [done|]. apply Hun. rewrite Hcov. by intros [].
  - rewrite decide_False by (rewrite Hun; intros Hn; by apply Hn, Hcov). by rewrite app_nil_r.
Qed.

Lemma direct_to (f : SlaveConfig -> result SlaveIntent) slaves out s :
  NoDup (enabled_ids slaves) -> s ∈ _enabled slaves -> (forall s, addresses (account_id s) (f s)) ->
  rmap f (_enabled slaves) = Ok out -> exists i, intents_to (account_id s) out = [i] /\ f s = Ok i.
Proof.
  unfold enabled_ids, intents_to. intros Hnd Hs Hf H%rmap_Forall2. revert Hnd Hs. induction H as [|s' i ss is' Hi Hrest IH]; csimpl; [set_solver|].
  intros [Hnin Hnd]%NoDup_cons Hs. rewrite filter_cons, (Hf _ _ Hi). apply elem_of_cons in Hs as [->|Hs].
  - rewrite decide_True by done. exists i. split; [|done]. f_equal.
    assert (forall l, (forall j, j ∈ l -> intent_account j <> Some (account_id s')) -> filter (fun j => intent_account j = Some (account_id s')) l = []) as Hnone.
    { induction l as [|j l IHl]; intros Hl; [done|]. rewrite filter_cons, decide_False by (apply Hl; set_solver). apply IHl. set_solver. }
    apply Hnone. intros j Hj Ha. apply rmap_Forall2 in Hrest. destruct (rmap_elem _ _ _ _ Hrest Hj) as (s2 & Hs2 & Hj2).
    rewrite (Hf _ _ Hj2) in Ha. apply Hnin. apply list_elem_of_fmap. exists s2. split; [congruence|done].
  - rewrite decide_False; [by apply IH|]. intros [= Ha]. apply Hnin. rewrite Ha. apply list_elem_of_fmap. eauto.
Qed.

(** The four events about copies *)
Lemma fan_out_served {S A} `{!MappingState S} event (mappings : S) (acc : A -> Z) (view : A -> option Z * Z) act missing slaves entries out s :
  NoDup (enabled_ids slaves) -> s ∈ _enabled slaves ->
  (forall s x, account_id s = acc x -> addresses (acc x) (act s x)) ->
  fan_out acc act missing slaves entries = Ok out ->
  copies event mappings (account_id s) = Some (view <$> filter (fun x => acc x = account_id s) entries) ->
  (forall x i, act s x = Ok i -> answers event s (view x) i) ->
  served event mappings s (intents_to (account_id s) out).
Proof.
  intros Hnd Hs Hact Hout Hc Hans. unfold served. rewrite Hc. pose proof (fan_out_to _ _ _ _ _ _ s Hnd Hs Hact Hout) as H.
  destruct (filter _ entries) as [|x es]; [by eexists|]. apply (Forall2_fmap_l view (answers event s) (x :: es)).
  eapply Forall2_impl; [exact H|]. intros y i. apply Hans.
Qed.

Lemma open_one_answers e s i : open_one e s = Ok i -> answers (EvPositionOpened e) s (None, 0) i.
Proof.
  unfold open_one, answers. destruct (symbols s !! _) as [sym|]; [|by intros [= <-]].
  intros (v & Hv & Hi)%rbind_ok. exists v. split; [done|]. destruct (v =? 0); simplify_eq; [done|]. by eexists.
Qed.
Lemma place_one_answers e s i : place_one e s = Ok i -> answers (EvPendingPlaced e) s (None, 0) i.
Proof.
  unfold place_one, answers. destruct (symbols s !! _) as [sym|]; [|by intros [= <-]].
  intros (v & Hv & Hi)%rbind_ok. exists v. split; [done|]. destruct (v =? 0); simplify_eq; [done|]. by eexists.
Qed.
Lemma close_one_answers e s x i :
  close_one e s x = Ok i -> answers (EvPositionClosed e) s (Some (pme_slave_position_id x), pme_slave_volume x) i.
Proof. unfold close_one, answers. intros (v & Hv & Hi)%rbind_ok. exists v. split; [done|]. destruct (v =? 0); simplify_eq; [done|]. by eexists. Qed.
Lemma replace_one_answers e s x i : replace_one e s x = Ok i -> answers (EvPendingReplaced e) s (ome_slave_order_id x, 0) i.
Proof.
  unfold replace_one, answers. destruct (symbols s !! _) as [sym|]; [|by intros [= <-]].
  intros (v & Hv & Hi)%rbind_ok. exists v. split; [done|]. destruct (v =? 0); simplify_eq; [done|]. by eexists.
Qed.

(** Every intent has an address. *)
Lemma decide_addressed {S} `{!MappingState S} event (mappings : S) slaves out :
  Replication.decide event mappings slaves = Ok out ->
  forall i, i ∈ out -> exists a, intent_account i = Some a /\ a ∈ enabled_ids slaves.
Proof.
  intros Hd i Hi. enough (exists a, intent_account i = Some a) as [a Ha].
  { exists a. split; [done|]. apply (decide_targets event mappings slaves out); [|done|by exists i].
    intros e ->. simplify_eq/=. by apply elem_of_nil in Hi. }
  assert (forall f : SlaveConfig -> result SlaveIntent, (forall s, addresses (account_id s) (f s)) -> rmap f (_enabled slaves) = Ok out ->
    exists a, intent_account i = Some a) as Hdirect.
  { intros f Hf H. destruct (rmap_elem _ _ _ _ H Hi) as (s & _ & Hs). eexists. by apply Hf. }
  assert (forall A (acc : A -> Z) act missing entries, (forall s x, account_id s = acc x -> addresses (acc x) (act s x)) ->
    fan_out acc act missing slaves entries = Ok out -> exists a, intent_account i = Some a) as Hfan.
  { intros A acc act missing entries Hact H. unfold fan_out, rbind in H. destruct (rmap _ _) as [acts|] eqn:E; [|done].
    injection H as <-. apply elem_of_app in Hi as [Hi|(k & -> & _)%list_elem_of_fmap]; [|by eexists].
    destruct (rmap_elem _ _ _ _ E Hi) as ([x s] & Hx & Hf). apply elem_of_live_entries in Hx as [_ Hx]. apply by_id_get in Hx as [Hx _].
    eexists. by apply (Hact s x Hx). }
  destruct event as [e|e|e|e|e|e|e|e]; simpl in Hd; [| | | | | | |simplify_eq; by apply elem_of_nil in Hi].
  1, 4: by apply Hdirect in Hd; auto with copier.
  all: apply Hfan in Hd; [done|]; intros s x Hx j Hj; rewrite <- ?Hx.
  1: by eapply close_one_addresses. 2: by eapply replace_one_addresses.
  all: simplify_eq; simpl; congruence.
Qed.


(** A fleet and mapping state to evaluate the core on. *)
Module Fleet.
Definition eurusd : SymbolInfo :=
  {| symbol_id := 1; name := "EURUSD"; digits := 5; lot_size := 10000000;
     min_volume := 100000; step_volume := 100000 |}.
Definition slave (a : Z) (on : bool) (m : Z) : SlaveConfig :=
  {| account_id := a; enabled := on; multiplier := Dec m (-4);
     symbols := {["EURUSD" := eurusd]} |}.
Definition fleet : list SlaveConfig := [slave 11 true 10000; slave 12 false 10000; slave 13 true 5000].
Definition table := list (Z * PositionMappingEntry).
#[global] Instance table_state : MappingState table := {|
  position_entries t p := (List.filter (fun x => x.1 =? p) t).*2;
  order_entries _ _ := []
|}.
Definition mapped : table :=
  [(7, {| pme_slave_account_id := 11; pme_slave_position_id := 901; pme_slave_volume := 10000000 |})].
Definition closed : MasterEvent :=
  EvPositionClosed {| mpc_position_id := 7; mpc_symbol_name := "EURUSD";
                      mpc_closed_volume := 4000000; mpc_remaining_volume := 6000000 |}.
Definition answer : list SlaveIntent :=
  [IClosePosition {| cp_slave_account_id := 11; cp_position_id := 901; cp_volume := 4000000;
                     cp_master_position_id := Some 7 |};
   alert 13 "master closed position 7 but slave has no mapped copy"].
Lemma decides : Replication.decide closed mapped fleet = Ok answer.
Proof. vm_compute. reflexivity. Qed.
End Fleet.


(** Every close the core asks for is a close of a mapped copy. *)
Lemma decided_close_from_entry {S} `{!MappingState S} e (mappings : S) slaves out c :
  Replication.decide (EvPositionClosed e) mappings slaves = Ok out ->
  IClosePosition c ∈ out ->
  exists entry s, entry ∈ position_entries mappings (mpc_position_id e) /\
    s ∈ _enabled slaves /\ account_id s = pme_slave_account_id entry /\
    close_one e s entry = Ok (IClosePosition c).
Proof.
  simpl. unfold _position_closed, fan_out, rbind.
  destruct (rmap _ _) as [acts|] eqn:E; [|done]. intros [= <-] [Hc|Hc]%elem_of_app.
  - destruct (rmap_elem _ _ _ _ E Hc) as ([x s] & Hx & Hf). simpl in Hf.
    apply elem_of_live_entries in Hx as [Hx Hs]. destruct (by_id_get _ _ _ Hs) as [Hid Hen].
    exists x, s. done.
  - apply list_elem_of_fmap in Hc as (k & Hk & _). discriminate Hk.
Qed.

(** A copy is never closed beyond what it holds: every close the core
    decides names a mapped copy of the master position on an enabled slave,
    for a non-zero volume no larger than the mapping's, and for the whole of
    it when the master position is fully closed. *)
Theorem decided_close_volume {S} `{!MappingState S} e (mappings : S) slaves out c :
  Replication.decide (EvPositionClosed e) mappings slaves = Ok out ->
  IClosePosition c ∈ out ->
  exists entry, entry ∈ position_entries mappings (mpc_position_id e) /\
    cp_slave_account_id c = pme_slave_account_id entry /\
    cp_position_id c = pme_slave_position_id entry /\
    cp_slave_account_id c ∈ enabled_ids slaves /\
    cp_volume c <> 0 /\ cp_volume c <= pme_slave_volume entry /\
    (mpc_remaining_volume e = 0 -> cp_volume c = pme_slave_volume entry).
Proof.
  intros Hd Hc. destruct (decided_close_from_entry _ _ _ _ _ Hd Hc)
    as (entry & s & Hentry & Hs & Hid & Hone).
  exists entry. unfold close_one in Hone.
  destruct (partial_close_volume _ _ _ _) as [v|] eqn:E; simpl in Hone; [|done].
  destruct (Z.eqb_spec v 0) as [|Hv]; [done|]. simplify_eq. simpl.
  split; [done|]. split; [done|]. split; [done|]. split; [|split; [done|split]].
  - apply list_elem_of_fmap. eauto.
  - eauto using partial_close_volume_le.
  - intros H0. unfold partial_close_volume in E. rewrite H0 in E. cbn in E. by simplify_eq.
Qed.

Lemma decided_close_volume_witness :
  exists entry, entry ∈ position_entries Fleet.mapped 7 /\ pme_slave_volume entry = 10000000 /\
    4000000 <= pme_slave_volume entry.
Proof.
  destruct (decided_close_volume
    {| mpc_position_id := 7; mpc_symbol_name := "EURUSD";
       mpc_closed_volume := 4000000; mpc_remaining_volume := 6000000 |}
    Fleet.mapped Fleet.fleet Fleet.answer
    {| cp_slave_account_id := 11; cp_position_id := 901; cp_volume := 4000000;
       cp_master_position_id := Some 7 |} Fleet.decides
    ltac:(apply list_elem_of_here)) as (entry & Hin & _ & _ & _ & _ & Hle & _).
  exists entry. split; [exact Hin|]. split; [|exact Hle].
  apply list_elem_of_In in Hin. simpl in Hin. destruct Hin as [<-|[]]. reflexivity.
Defined.

(** An open fans out one intent per enabled slave, in fleet order: a
    market order on that slave's own symbol with the mirrored volume, the
    master's side and protection and the label that ties it to the master
    position, or an alert when the slave lacks the symbol or the volume
    rounds to nothing. *)
Theorem decide_opened_orders {S} `{!MappingState S} e (mappings : S) slaves out :
  Replication.decide (EvPositionOpened e) mappings slaves = Ok out ->
  Forall2 (fun s i =>
    match symbols s !! mpo_symbol_name e with
    | None => is_alert i = true /\ intent_account i = Some (account_id s)
    | Some sym => exists vol,
        mirror_volume (mpo_volume e) (mpo_lot_size e) (multiplier s)
                      (lot_size sym) (step_volume sym) = Ok vol /\
        if vol =? 0 then is_alert i = true /\ intent_account i = Some (account_id s)
        else exists o, i = IOpenMarket o /\
          om_slave_account_id o = account_id s /\ om_master_position_id o = mpo_position_id e /\
          om_symbol_id o = symbol_id sym /\ om_side o = mpo_side e /\ om_volume o = vol /\
          om_stop_loss o = mpo_stop_loss e /\ om_take_profit o = mpo_take_profit e /\
          om_label o = "copy:m" +:+ pretty (mpo_position_id e)
    end) (_enabled slaves) out.
Proof.
  simpl. unfold _position_opened. intros H%rmap_Forall2. eapply Forall2_impl; [exact H|].
  intros s i Hi. unfold open_one in Hi. simpl in Hi.
  destruct (symbols s !! _) as [sym|]; [|by simplify_eq].
  destruct (mirror_volume _ _ _ _ _) as [v|]; simpl in Hi; [|done].
  exists v. split; [done|]. destruct (v =? 0); simplify_eq; [done|].
  eexists. split; [done|]. done.
Qed.

Definition opened_example : MasterPositionOpened :=
  {| mpo_position_id := 7; mpo_symbol_name := "EURUSD"; mpo_side := BUY; mpo_volume := 10000000;
     mpo_lot_size := 10000000; mpo_stop_loss := None; mpo_take_profit := None;
     mpo_entry_price := None |}.
Definition opened_answer : list SlaveIntent :=
  let order a v := IOpenMarket
    {| om_slave_account_id := a; om_master_position_id := 7; om_symbol_id := 1; om_side := BUY;
       om_volume := v; om_stop_loss := None; om_take_profit := None; om_label := "copy:m7";
       om_symbol_name := "EURUSD"; om_entry_price := None |} in
  [order 11 10000000; order 13 5000000].

Lemma decide_opened_orders_witness :
  length (_enabled Fleet.fleet) = length opened_answer.
Proof.
  exact (Forall2_length _ _ _ (decide_opened_orders opened_example Fleet.mapped Fleet.fleet
    opened_answer ltac:(vm_compute; reflexivity))).
Defined.
