(* ===== verification/Normalize.v ===== *)
(** * Execution events to master events: [copier/engine/normalize.py]

    The broker's [ProtoOAExecutionEvent] as far as the copier reads it, and
    the normaliser that turns it into a domain event.  An optional protobuf
    field is an [option] ([HasField] is its presence); reading an absent
    scalar gives the protocol's default, which the accessors below write out.
    A sub-message that is not set reads as its default instance. *)

From S2P Require Import Prelude PyDecimal PyFloat Models.
From Stdlib Require Import SpecFloat.

(** ** The wire message *)

Inductive ProtoOAExecutionType :=
  | ORDER_ACCEPTED | ORDER_FILLED | ORDER_REPLACED | ORDER_CANCELLED | ORDER_EXPIRED
  | ORDER_REJECTED | ORDER_PARTIAL_FILL
  | EXECUTION_OTHER (name : string).

Inductive ProtoOAOrderType :=
  | OT_MARKET | OT_LIMIT | OT_STOP | OT_STOP_LOSS_TAKE_PROFIT | OT_MARKET_RANGE
  | OT_OTHER (name : string).

Inductive ProtoOATradeSide := TS_BUY | TS_SELL | TS_OTHER (n : Z).

#[export] Instance ProtoOAExecutionType_eq_dec : EqDecision ProtoOAExecutionType.
Proof. solve_decision. Defined.
#[export] Instance ProtoOAOrderType_eq_dec : EqDecision ProtoOAOrderType.
Proof. solve_decision. Defined.
#[export] Instance ProtoOATradeSide_eq_dec : EqDecision ProtoOATradeSide.
Proof. solve_decision. Defined.

(** [ProtoOAExecutionType.Name] *)
Definition execution_type_name (t : ProtoOAExecutionType) : string :=
  match t with
  | ORDER_ACCEPTED => "ORDER_ACCEPTED" | ORDER_FILLED => "ORDER_FILLED"
  | ORDER_REPLACED => "ORDER_REPLACED" | ORDER_CANCELLED => "ORDER_CANCELLED"
  | ORDER_EXPIRED => "ORDER_EXPIRED" | ORDER_REJECTED => "ORDER_REJECTED"
  | ORDER_PARTIAL_FILL => "ORDER_PARTIAL_FILL" | EXECUTION_OTHER n => n
  end.

(** [ProtoOAOrderType.Name] *)
Definition order_type_name (t : ProtoOAOrderType) : string :=
  match t with
  | OT_MARKET => "MARKET" | OT_LIMIT => "LIMIT" | OT_STOP => "STOP"
  | OT_STOP_LOSS_TAKE_PROFIT => "STOP_LOSS_TAKE_PROFIT" | OT_MARKET_RANGE => "MARKET_RANGE"
  | OT_OTHER n => n
  end.

Record ProtoOATradeData := {
  td_symbolId : Z;
  td_volume : Z;
  td_tradeSide : ProtoOATradeSide;
  td_label : string
}.

Record ProtoOAOrder := {
  o_orderId : Z;
  o_tradeData : ProtoOATradeData;
  o_orderType : ProtoOAOrderType;
  o_limitPrice : option float64;
  o_stopPrice : option float64;
  o_stopLoss : option float64;
  o_takeProfit : option float64;
  o_expirationTimestamp : option Z;
  o_clientOrderId : option string
}.

Record ProtoOADeal := {
  dl_positionId : Z;
  dl_filledVolume : Z;
  dl_executionPrice : option float64;
  dl_executionTimestamp : Z;
  dl_closedVolume : option Z       (* closePositionDetail.closedVolume; None: no detail *)
}.

Record ProtoOAPosition := {
  ps_positionId : Z;
  ps_tradeVolume : Z;              (* tradeData.volume *)
  ps_price : option float64;
  ps_stopLoss : option float64;
  ps_takeProfit : option float64
}.

Record ProtoOAExecutionEvent := {
  ev_executionType : ProtoOAExecutionType;
  ev_order : ProtoOAOrder;
  ev_deal : ProtoOADeal;
  ev_position : ProtoOAPosition;
  ev_errorCode : string            (* "" when unset *)
}.

(** ** The normaliser *)

Definition _proto_side_to_side (s : ProtoOATradeSide) : result Side :=
  match s with
  | TS_BUY => Ok BUY
  | TS_SELL => Ok SELL
  | TS_OTHER n => Raise (ValueError ("Unknown trade side: " +:+ pretty n))
  end.

(** A scalar double field: absent reads as [0.0]. *)
Definition read_double (o : option float64) : float64 := default fzero o.

Definition _extract_float_if_nonzero (value : float64) : price :=
  if feqb value fzero then None else Some value.

Definition is_pending_type (t : ProtoOAOrderType) : bool :=
  match t with OT_LIMIT | OT_STOP => true | _ => false end.

Definition pending_type_of (t : ProtoOAOrderType) : PendingType :=
  match t with OT_LIMIT => LIMIT | _ => STOP end.

(** [limitPrice] of a LIMIT order, else [stopPrice]. *)
Definition pending_price (o : ProtoOAOrder) : float64 :=
  match o_orderType o with
  | OT_LIMIT => read_double (o_limitPrice o)
  | _ => read_double (o_stopPrice o)
  end.

Definition normalize (evt : ProtoOAExecutionEvent) (symbols_by_id : gmap Z SymbolInfo)
    : result (option MasterEvent) :=
  let execution_type := ev_executionType evt in
  if decide (execution_type = ORDER_REJECTED)
  then Ok (Some (EvRejected {| mrj_reason :=
         if bool_decide (ev_errorCode evt = "") then execution_type_name execution_type
         else ev_errorCode evt |}))
  else match symbols_by_id !! td_symbolId (o_tradeData (ev_order evt)) with
  | None => Ok None
  | Some symbol_info =>
    let order := ev_order evt in
    let order_type := o_orderType order in
    if decide (order_type = OT_STOP_LOSS_TAKE_PROFIT)
    then match execution_type with
         | ORDER_ACCEPTED | ORDER_REPLACED | ORDER_CANCELLED =>
             Ok (Some (EvPositionSLTPAmended {|
               mpa_position_id := ps_positionId (ev_position evt);
               mpa_stop_loss := ps_stopLoss (ev_position evt);
               mpa_take_profit := ps_takeProfit (ev_position evt) |}))
         | _ => Ok None
         end
    else match execution_type with
    | ORDER_FILLED | ORDER_PARTIAL_FILL =>
        match dl_closedVolume (ev_deal evt) with
        | Some closed =>
            Ok (Some (EvPositionClosed {|
              mpc_position_id := dl_positionId (ev_deal evt);
              mpc_symbol_name := name symbol_info;
              mpc_closed_volume := closed;
              mpc_remaining_volume := ps_tradeVolume (ev_position evt) |}))
        | None =>
          match order_type with
          | OT_LIMIT | OT_STOP =>
              Ok (Some (EvPendingFilled {| mpf_order_id := o_orderId order;
                                           mpf_position_id := dl_positionId (ev_deal evt) |}))
          | OT_MARKET | OT_MARKET_RANGE =>
              let? side := _proto_side_to_side (td_tradeSide (o_tradeData order)) in
              Ok (Some (EvPositionOpened {|
                mpo_position_id := dl_positionId (ev_deal evt);
                mpo_symbol_name := name symbol_info;
                mpo_side := side;
                mpo_volume := dl_filledVolume (ev_deal evt);
                mpo_lot_size := lot_size symbol_info;
                mpo_stop_loss := ps_stopLoss (ev_position evt);
                mpo_take_profit := ps_takeProfit (ev_position evt);
                mpo_entry_price := match ps_price (ev_position evt) with
                                   | Some p => Some p
                                   | None => dl_executionPrice (ev_deal evt)
                                   end |}))
          | _ => Ok None
          end
        end
    | ORDER_ACCEPTED =>
        if is_pending_type order_type
        then let? side := _proto_side_to_side (td_tradeSide (o_tradeData order)) in
             Ok (Some (EvPendingPlaced {|
               mpp_order_id := o_orderId order;
               mpp_symbol_name := name symbol_info;
               mpp_side := side;
               mpp_order_type := pending_type_of order_type;
               mpp_volume := td_volume (o_tradeData order);
               mpp_lot_size := lot_size symbol_info;
               mpp_price := pending_price order;
               mpp_stop_loss := _extract_float_if_nonzero (read_double (o_stopLoss order));
               mpp_take_profit := _extract_float_if_nonzero (read_double (o_takeProfit order));
               mpp_expiry_ts_ms := o_expirationTimestamp order |}))
        else Ok None
    | ORDER_REPLACED =>
        if is_pending_type order_type
        then Ok (Some (EvPendingReplaced {|
               mpr_order_id := o_orderId order;
               mpr_symbol_name := name symbol_info;
               mpr_lot_size := lot_size symbol_info;
               mpr_order_type := pending_type_of order_type;
               mpr_volume := td_volume (o_tradeData order);
               mpr_price := pending_price order;
               mpr_stop_loss := _extract_float_if_nonzero (read_double (o_stopLoss order));
               mpr_take_profit := _extract_float_if_nonzero (read_double (o_takeProfit order)) |}))
        else Ok None
    | ORDER_CANCELLED | ORDER_EXPIRED =>
        if is_pending_type order_type
        then Ok (Some (EvPendingCancelled {| mpx_order_id := o_orderId order |}))
        else Ok None
    | _ => Ok None
    end
  end.

(** ** Classification *)

(** The replication table: which executions of which orders are copied, as
    what.  [close] says whether the deal carries a close detail. *)
Inductive copied_as : ProtoOAExecutionType -> ProtoOAOrderType -> bool -> string -> Prop :=
  | copied_sltp x c : x ∈ [ORDER_ACCEPTED; ORDER_REPLACED; ORDER_CANCELLED] ->
      copied_as x OT_STOP_LOSS_TAKE_PROFIT c "MasterPositionSLTPAmended"
  | copied_close x t : x ∈ [ORDER_FILLED; ORDER_PARTIAL_FILL] -> t <> OT_STOP_LOSS_TAKE_PROFIT ->
      copied_as x t true "MasterPositionClosed"
  | copied_fill x t : x ∈ [ORDER_FILLED; ORDER_PARTIAL_FILL] -> t ∈ [OT_LIMIT; OT_STOP] ->
      copied_as x t false "MasterPendingFilled"
  | copied_open x t : x ∈ [ORDER_FILLED; ORDER_PARTIAL_FILL] -> t ∈ [OT_MARKET; OT_MARKET_RANGE] ->
      copied_as x t false "MasterPositionOpened"
  | copied_place t c : t ∈ [OT_LIMIT; OT_STOP] ->
      copied_as ORDER_ACCEPTED t c "MasterPendingPlaced"
  | copied_replace t c : t ∈ [OT_LIMIT; OT_STOP] ->
      copied_as ORDER_REPLACED t c "MasterPendingReplaced"
  | copied_cancel x t c : x ∈ [ORDER_CANCELLED; ORDER_EXPIRED] -> t ∈ [OT_LIMIT; OT_STOP] ->
      copied_as x t c "MasterPendingCancelled".

Definition has_close (evt : ProtoOAExecutionEvent) : bool :=
  match dl_closedVolume (ev_deal evt) with Some _ => true | None => false end.

#[export] Hint Constructors copied_as : copier.

Ltac split_elem :=
  repeat match goal with
  | H : _ ∈ _ :: _ |- _ => apply elem_of_cons in H as [H|H]
  | H : _ ∈ [] |- _ => by apply elem_of_nil in H
  end.
Ltac solve_elem := repeat (apply list_elem_of_here || apply list_elem_of_further).

Lemma normalize_sound evt syms ev :
  normalize evt syms = Ok (Some ev) ->
  (exists e, ev = EvRejected e /\ ev_executionType evt = ORDER_REJECTED) \/
  (is_Some (syms !! td_symbolId (o_tradeData (ev_order evt))) /\
   copied_as (ev_executionType evt) (o_orderType (ev_order evt)) (has_close evt) (event_type_name ev)).
Proof.
  unfold normalize, has_close. case_decide as Hr; [intros; simplify_eq; left; by eexists|].
  destruct (syms !! _) as [sym|] eqn:Esym; [|done]. intros H. right. split; [done|].
  revert H. case_decide as Hs.
  - rewrite Hs. destruct (ev_executionType evt); intros; simplify_eq; simpl;
      constructor; solve_elem.
  - destruct (ev_executionType evt), (o_orderType (ev_order evt)), (dl_closedVolume (ev_deal evt));
      unfold rbind; simpl; try case_match; intros; simplify_eq; simpl; try done;
      constructor; try done; solve_elem.
Qed.

(** The normaliser copies exactly the executions of the replication table:
    for a known symbol, an event comes out when and only when the table has a
    row for the execution type, the order type and the presence of a close
    detail, and it is the event that row names; a rejection is reported
    whatever the symbol. *)
Theorem normalize_table evt syms :
  ev_executionType evt <> ORDER_REJECTED ->
  is_Some (syms !! td_symbolId (o_tradeData (ev_order evt))) ->
  (forall n, td_tradeSide (o_tradeData (ev_order evt)) <> TS_OTHER n) ->
  forall kind,
    (exists ev, normalize evt syms = Ok (Some ev) /\ event_type_name ev = kind) <->
    copied_as (ev_executionType evt) (o_orderType (ev_order evt)) (has_close evt) kind.
Proof.
  intros Hrej [sym Hsym] Hside kind. split.
  - intros (ev & Hn & <-). apply normalize_sound in Hn as [(e & -> & Hx)|[_ Hc]]; [by rewrite Hx in Hrej|done].
  - assert (exists s, _proto_side_to_side (td_tradeSide (o_tradeData (ev_order evt))) = Ok s) as [s Hs].
    { destruct (td_tradeSide _) eqn:E; [by eexists|by eexists|by destruct (Hside n)]. }
    intros Hc. unfold normalize. rewrite decide_False by done. rewrite Hsym.
    unfold has_close in Hc. rewrite Hs. cbn [rbind].
    inversion Hc as [x c Hx E1 E2|x t Hx Ht E1 E2 E3|x t Hx Ht E1 E2 E3|x t Hx Ht E1 E2 E3
                    |t c Ht E1 E2|t c Ht E1 E2|x t c Hx Ht E1 E2]; subst;
      destruct (dl_closedVolume (ev_deal evt)); try done;
      split_elem;
      repeat match goal with H : _ = ev_executionType evt |- _ => rewrite <- H
                           | H : ev_executionType evt = _ |- _ => rewrite H
                           | H : _ = o_orderType (ev_order evt) |- _ => rewrite <- H
                           | H : o_orderType (ev_order evt) = _ |- _ => rewrite H end;
      try (rewrite decide_True by done); try (rewrite decide_False by done); eexists; by split.
Qed.

(** A market fill on a known symbol. *)
Module Fill.
Definition sym : SymbolInfo :=
  {| symbol_id := 1; name := "EURUSD"; digits := 5; lot_size := 10000000;
     min_volume := 100000; step_volume := 100000 |}.
Definition evt : ProtoOAExecutionEvent := {|
  ev_executionType := ORDER_FILLED;
  ev_order := {| o_orderId := 3; o_tradeData := {| td_symbolId := 1; td_volume := 500000;
                   td_tradeSide := TS_SELL; td_label := "" |};
                 o_orderType := OT_MARKET_RANGE; o_limitPrice := None; o_stopPrice := None;
                 o_stopLoss := None; o_takeProfit := None; o_expirationTimestamp := None;
                 o_clientOrderId := None |};
  ev_deal := {| dl_positionId := 7; dl_filledVolume := 500000;
                dl_executionPrice := Some (f_of_Z 1); dl_executionTimestamp := 0;
                dl_closedVolume := None |};
  ev_position := {| ps_positionId := 7; ps_tradeVolume := 500000; ps_price := None;
                    ps_stopLoss := None; ps_takeProfit := None |};
  ev_errorCode := "" |}.
End Fill.

Lemma normalize_table_witness :
  exists ev, normalize Fill.evt {[1 := Fill.sym]} = Ok (Some ev) /\
             event_type_name ev = "MasterPositionOpened".
Proof.
  apply (normalize_table Fill.evt {[1 := Fill.sym]}).
  - discriminate.
  - exists Fill.sym. vm_compute. reflexivity.
  - intros n. discriminate.
  - apply copied_open; solve_elem.
Defined.
