(* ===== verification/Db.v ===== *)
(** * The database the copier shares: tables and rows

    The Postgres tables the copier reads and writes on the trading path
    ([db/migrations], [copier/db/repo.py]).  A table is the list of its rows in
    insertion order, with its primary-key sequence; a nullable column is an
    [option].  [db_now] is the server's clock ([now()], in microseconds), which
    the environment advances.  Foreign keys and connection failures are not
    modelled; unique and null constraints are. *)

From S2P Require Import Prelude PyDecimal PyFloat Models.

(** ** JSON values

    Event payloads, command payloads and results.  [JExn] stands for the text
    an exception renders to. *)
Inductive json :=
  | JNull
  | JBool (b : bool)
  | JInt (z : Z)
  | JFloat (f : float64)
  | JStr (s : string)
  | JList (l : list json)
  | JObj (l : list (string * json))
  | JExn (e : exn).

Definition JOptInt (o : option Z) : json := match o with Some z => JInt z | None => JNull end.
Definition JOptStr (o : option string) : json := match o with Some s => JStr s | None => JNull end.
Definition JPrice (o : price) : json := match o with Some f => JFloat f | None => JNull end.

Definition payload := list (string * json).

(** ** Enumerated columns *)

Inductive mapping_status := Pending | Active | Closed | Failed.
Inductive account_status := StOk | StPaused | StDegraded.
Inductive account_role := RoleMaster | RoleSlave | RoleIgnored.
Inductive platform := CTrader | MT5.
Inductive severity := Info | Warning | Error.
Inductive cmd_status := Queued | Sent | Done | CmdFailed.
Inductive cmd_kind := KOpen | KClose | KAmend | KPlacePending | KAmendPending | KCancelPending.

#[export] Instance mapping_status_eq_dec : EqDecision mapping_status.
Proof. solve_decision. Defined.
#[export] Instance account_status_eq_dec : EqDecision account_status.
Proof. solve_decision. Defined.
#[export] Instance account_role_eq_dec : EqDecision account_role.
Proof. solve_decision. Defined.
#[export] Instance platform_eq_dec : EqDecision platform.
Proof. solve_decision. Defined.
#[export] Instance cmd_status_eq_dec : EqDecision cmd_status.
Proof. solve_decision. Defined.
#[export] Instance cmd_kind_eq_dec : EqDecision cmd_kind.
Proof. solve_decision. Defined.

(** ** Rows *)

(** [orgs]: the per-org kill switch and dry-run flag, and the version a trigger
    bumps on every update of the row. *)
Record OrgRow := {
  org_id : Z;
  org_name : string;
  org_copying_enabled : bool;
  org_dry_run : bool;
  org_settings_version : Z
}.

(** [accounts] *)
Record AccountRow := {
  acc_account_id : Z;
  acc_org_id : Z;
  acc_connection_id : option Z;
  acc_trader_login : Z;
  acc_is_live : bool;
  acc_role : account_role;
  acc_enabled : bool;
  acc_multiplier : decimal;
  acc_status : account_status;
  acc_last_error : json;
  acc_platform : platform
}.

(** [mappings]: one copy of a master position or pending order on a slave. *)
Record mapping_row := {
  m_id : Z;
  m_master_position_id : option Z;
  m_master_order_id : option Z;
  m_slave_account_id : Z;
  m_slave_position_id : option Z;
  m_slave_order_id : option Z;
  m_slave_volume : option Z;
  m_client_order_id : option string;
  m_org_id : Z;
  m_status : mapping_status;
  m_error : option string;
  m_fill_price : price;
  m_symbol : option string;
  m_master_fill_price : price;
  m_master_exec_timestamp : option Z;
  m_created_at : Z;
  m_updated_at : Z
}.

(** [events]: the audit log (the latency and the actor are left out). *)
Record event_row := {
  evr_category : string;
  evr_severity : severity;
  evr_payload : payload;
  evr_account_id : option Z;
  evr_org_id : option Z
}.

(** [mt5_commands]: the outbox of an MT5 terminal. *)
Record command_row := {
  c_id : Z;
  c_account_id : Z;
  c_org_id : Z;
  c_kind : cmd_kind;
  c_payload : payload;
  c_client_order_id : option string;
  c_status : cmd_status;
  c_result : option payload;
  c_attempts : Z;
  c_created_at : Z;
  c_sent_at : option Z;
  c_done_at : option Z
}.

(** [org_risk_rules] *)
Record RiskRule := {
  rr_org_id : Z;
  rr_symbol : string;
  rr_stop_points : price;
  rr_target_points : price;
  rr_trailing_enabled : bool;
  rr_trail_start_points : price;
  rr_trail_step_points : price
}.

(** [position_trailing_state], keyed by account and position. *)
Record TrailingState := {
  ts_best_price : float64;
  ts_current_stop : float64;
  ts_updated_at : Z
}.

(** [mt5_net_ledger]: a virtual position of a netting master. *)
Record ledger_row := {
  lr_virtual_id : Z;
  lr_symbol : string;
  lr_side : Side;
  lr_volume_open : Z;
  lr_volume_left : Z;
  lr_stop_loss : price;
  lr_take_profit : price;
  lr_opened_at_ms : Z
}.

(** The whole state. *)
Record db := {
  db_orgs : list OrgRow;
  db_accounts : list AccountRow;
  db_mappings : list mapping_row;
  db_next_mapping_id : Z;
  db_events : list event_row;
  db_commands : list command_row;
  db_next_command_id : Z;
  db_dismissals : gset (Z * string);
  db_risk_rules : gmap (Z * string) RiskRule;
  db_trailing : gmap (Z * Z) TrailingState;
  db_watermarks : gmap Z (Z * Z);
  db_net_ledger : list (Z * ledger_row);
  db_now : Z
}.

(** ** Column updates *)

Definition set_org_copying_enabled (v : bool) (r : OrgRow) : OrgRow :=
  Build_OrgRow (org_id r) (org_name r) v (org_dry_run r) (org_settings_version r).
Definition set_org_dry_run (v : bool) (r : OrgRow) : OrgRow :=
  Build_OrgRow (org_id r) (org_name r) (org_copying_enabled r) v (org_settings_version r).
Definition set_org_settings_version (v : Z) (r : OrgRow) : OrgRow :=
  Build_OrgRow (org_id r) (org_name r) (org_copying_enabled r) (org_dry_run r) v.
Definition set_acc_status (v : account_status) (r : AccountRow) : AccountRow :=
  Build_AccountRow (acc_account_id r) (acc_org_id r) (acc_connection_id r)
    (acc_trader_login r) (acc_is_live r) (acc_role r) (acc_enabled r) (acc_multiplier r) v
    (acc_last_error r) (acc_platform r).
Definition set_acc_last_error (v : json) (r : AccountRow) : AccountRow :=
  Build_AccountRow (acc_account_id r) (acc_org_id r) (acc_connection_id r)
    (acc_trader_login r) (acc_is_live r) (acc_role r) (acc_enabled r) (acc_multiplier r)
    (acc_status r) v (acc_platform r).
Definition set_m_master_position_id (v : option Z) (r : mapping_row) : mapping_row :=
  Build_mapping_row (m_id r) v (m_master_order_id r) (m_slave_account_id r)
    (m_slave_position_id r) (m_slave_order_id r) (m_slave_volume r) (m_client_order_id r)
    (m_org_id r) (m_status r) (m_error r) (m_fill_price r) (m_symbol r)
    (m_master_fill_price r) (m_master_exec_timestamp r) (m_created_at r) (m_updated_at r).
Definition set_m_slave_position_id (v : option Z) (r : mapping_row) : mapping_row :=
  Build_mapping_row (m_id r) (m_master_position_id r) (m_master_order_id r)
    (m_slave_account_id r) v (m_slave_order_id r) (m_slave_volume r) (m_client_order_id r)
    (m_org_id r) (m_status r) (m_error r) (m_fill_price r) (m_symbol r)
    (m_master_fill_price r) (m_master_exec_timestamp r) (m_created_at r) (m_updated_at r).
Definition set_m_slave_order_id (v : option Z) (r : mapping_row) : mapping_row :=
  Build_mapping_row (m_id r) (m_master_position_id r) (m_master_order_id r)
    (m_slave_account_id r) (m_slave_position_id r) v (m_slave_volume r)
    (m_client_order_id r) (m_org_id r) (m_status r) (m_error r) (m_fill_price r)
    (m_symbol r) (m_master_fill_price r) (m_master_exec_timestamp r) (m_created_at r)
    (m_updated_at r).
Definition set_m_slave_volume (v : option Z) (r : mapping_row) : mapping_row :=
  Build_mapping_row (m_id r) (m_master_position_id r) (m_master_order_id r)
    (m_slave_account_id r) (m_slave_position_id r) (m_slave_order_id r) v
    (m_client_order_id r) (m_org_id r) (m_status r) (m_error r) (m_fill_price r)
    (m_symbol r) (m_master_fill_price r) (m_master_exec_timestamp r) (m_created_at r)
    (m_updated_at r).
Definition set_m_status (v : mapping_status) (r : mapping_row) : mapping_row :=
  Build_mapping_row (m_id r) (m_master_position_id r) (m_master_order_id r)
    (m_slave_account_id r) (m_slave_position_id r) (m_slave_order_id r) (m_slave_volume r)
    (m_client_order_id r) (m_org_id r) v (m_error r) (m_fill_price r) (m_symbol r)
    (m_master_fill_price r) (m_master_exec_timestamp r) (m_created_at r) (m_updated_at r).
Definition set_m_error (v : option string) (r : mapping_row) : mapping_row :=
  Build_mapping_row (m_id r) (m_master_position_id r) (m_master_order_id r)
    (m_slave_account_id r) (m_slave_position_id r) (m_slave_order_id r) (m_slave_volume r)
    (m_client_order_id r) (m_org_id r) (m_status r) v (m_fill_price r) (m_symbol r)
    (m_master_fill_price r) (m_master_exec_timestamp r) (m_created_at r) (m_updated_at r).
Definition set_m_fill_price (v : price) (r : mapping_row) : mapping_row :=
  Build_mapping_row (m_id r) (m_master_position_id r) (m_master_order_id r)
    (m_slave_account_id r) (m_slave_position_id r) (m_slave_order_id r) (m_slave_volume r)
    (m_client_order_id r) (m_org_id r) (m_status r) (m_error r) v (m_symbol r)
    (m_master_fill_price r) (m_master_exec_timestamp r) (m_created_at r) (m_updated_at r).
Definition set_m_master_fill_price (v : price) (r : mapping_row) : mapping_row :=
  Build_mapping_row (m_id r) (m_master_position_id r) (m_master_order_id r)
    (m_slave_account_id r) (m_slave_position_id r) (m_slave_order_id r) (m_slave_volume r)
    (m_client_order_id r) (m_org_id r) (m_status r) (m_error r) (m_fill_price r)
    (m_symbol r) v (m_master_exec_timestamp r) (m_created_at r) (m_updated_at r).
Definition set_m_master_exec_timestamp (v : option Z) (r : mapping_row) : mapping_row :=
  Build_mapping_row (m_id r) (m_master_position_id r) (m_master_order_id r)
    (m_slave_account_id r) (m_slave_position_id r) (m_slave_order_id r) (m_slave_volume r)
    (m_client_order_id r) (m_org_id r) (m_status r) (m_error r) (m_fill_price r)
    (m_symbol r) (m_master_fill_price r) v (m_created_at r) (m_updated_at r).
Definition set_m_updated_at (v : Z) (r : mapping_row) : mapping_row :=
  Build_mapping_row (m_id r) (m_master_position_id r) (m_master_order_id r)
    (m_slave_account_id r) (m_slave_position_id r) (m_slave_order_id r) (m_slave_volume r)
    (m_client_order_id r) (m_org_id r) (m_status r) (m_error r) (m_fill_price r)
    (m_symbol r) (m_master_fill_price r) (m_master_exec_timestamp r) (m_created_at r) v.
Definition set_c_status (v : cmd_status) (r : command_row) : command_row :=
  Build_command_row (c_id r) (c_account_id r) (c_org_id r) (c_kind r) (c_payload r)
    (c_client_order_id r) v (c_result r) (c_attempts r) (c_created_at r) (c_sent_at r)
    (c_done_at r).
Definition set_c_result (v : option payload) (r : command_row) : command_row :=
  Build_command_row (c_id r) (c_account_id r) (c_org_id r) (c_kind r) (c_payload r)
    (c_client_order_id r) (c_status r) v (c_attempts r) (c_created_at r) (c_sent_at r)
    (c_done_at r).
Definition set_c_attempts (v : Z) (r : command_row) : command_row :=
  Build_command_row (c_id r) (c_account_id r) (c_org_id r) (c_kind r) (c_payload r)
    (c_client_order_id r) (c_status r) (c_result r) v (c_created_at r) (c_sent_at r)
    (c_done_at r).
Definition set_c_sent_at (v : option Z) (r : command_row) : command_row :=
  Build_command_row (c_id r) (c_account_id r) (c_org_id r) (c_kind r) (c_payload r)
    (c_client_order_id r) (c_status r) (c_result r) (c_attempts r) (c_created_at r) v
    (c_done_at r).
Definition set_c_done_at (v : option Z) (r : command_row) : command_row :=
  Build_command_row (c_id r) (c_account_id r) (c_org_id r) (c_kind r) (c_payload r)
    (c_client_order_id r) (c_status r) (c_result r) (c_attempts r) (c_created_at r)
    (c_sent_at r) v.
Definition set_lr_volume_left (v : Z) (r : ledger_row) : ledger_row :=
  Build_ledger_row (lr_virtual_id r) (lr_symbol r) (lr_side r) (lr_volume_open r) v
    (lr_stop_loss r) (lr_take_profit r) (lr_opened_at_ms r).
Definition set_lr_stop_loss (v : price) (r : ledger_row) : ledger_row :=
  Build_ledger_row (lr_virtual_id r) (lr_symbol r) (lr_side r) (lr_volume_open r)
    (lr_volume_left r) v (lr_take_profit r) (lr_opened_at_ms r).
Definition set_lr_take_profit (v : price) (r : ledger_row) : ledger_row :=
  Build_ledger_row (lr_virtual_id r) (lr_symbol r) (lr_side r) (lr_volume_open r)
    (lr_volume_left r) (lr_stop_loss r) v (lr_opened_at_ms r).
Definition set_db_orgs (v : list OrgRow) (r : db) : db :=
  Build_db v (db_accounts r) (db_mappings r) (db_next_mapping_id r) (db_events r)
    (db_commands r) (db_next_command_id r) (db_dismissals r) (db_risk_rules r)
    (db_trailing r) (db_watermarks r) (db_net_ledger r) (db_now r).
Definition set_db_accounts (v : list AccountRow) (r : db) : db :=
  Build_db (db_orgs r) v (db_mappings r) (db_next_mapping_id r) (db_events r)
    (db_commands r) (db_next_command_id r) (db_dismissals r) (db_risk_rules r)
    (db_trailing r) (db_watermarks r) (db_net_ledger r) (db_now r).
Definition set_db_mappings (v : list mapping_row) (r : db) : db :=
  Build_db (db_orgs r) (db_accounts r) v (db_next_mapping_id r) (db_events r)
    (db_commands r) (db_next_command_id r) (db_dismissals r) (db_risk_rules r)
    (db_trailing r) (db_watermarks r) (db_net_ledger r) (db_now r).
Definition set_db_next_mapping_id (v : Z) (r : db) : db :=
  Build_db (db_orgs r) (db_accounts r) (db_mappings r) v (db_events r) (db_commands r)
    (db_next_command_id r) (db_dismissals r) (db_risk_rules r) (db_trailing r)
    (db_watermarks r) (db_net_ledger r) (db_now r).
Definition set_db_events (v : list event_row) (r : db) : db :=
  Build_db (db_orgs r) (db_accounts r) (db_mappings r) (db_next_mapping_id r) v
    (db_commands r) (db_next_command_id r) (db_dismissals r) (db_risk_rules r)
    (db_trailing r) (db_watermarks r) (db_net_ledger r) (db_now r).
Definition set_db_commands (v : list command_row) (r : db) : db :=
  Build_db (db_orgs r) (db_accounts r) (db_mappings r) (db_next_mapping_id r) (db_events r)
    v (db_next_command_id r) (db_dismissals r) (db_risk_rules r) (db_trailing r)
    (db_watermarks r) (db_net_ledger r) (db_now r).
Definition set_db_next_command_id (v : Z) (r : db) : db :=
  Build_db (db_orgs r) (db_accounts r) (db_mappings r) (db_next_mapping_id r) (db_events r)
    (db_commands r) v (db_dismissals r) (db_risk_rules r) (db_trailing r) (db_watermarks r)
    (db_net_ledger r) (db_now r).
Definition set_db_dismissals (v : gset (Z * string)) (r : db) : db :=
  Build_db (db_orgs r) (db_accounts r) (db_mappings r) (db_next_mapping_id r) (db_events r)
    (db_commands r) (db_next_command_id r) v (db_risk_rules r) (db_trailing r)
    (db_watermarks r) (db_net_ledger r) (db_now r).
Definition set_db_risk_rules (v : gmap (Z * string) RiskRule) (r : db) : db :=
  Build_db (db_orgs r) (db_accounts r) (db_mappings r) (db_next_mapping_id r) (db_events r)
    (db_commands r) (db_next_command_id r) (db_dismissals r) v (db_trailing r)
    (db_watermarks r) (db_net_ledger r) (db_now r).
Definition set_db_trailing (v : gmap (Z * Z) TrailingState) (r : db) : db :=
  Build_db (db_orgs r) (db_accounts r) (db_mappings r) (db_next_mapping_id r) (db_events r)
    (db_commands r) (db_next_command_id r) (db_dismissals r) (db_risk_rules r) v
    (db_watermarks r) (db_net_ledger r) (db_now r).
Definition set_db_watermarks (v : gmap Z (Z * Z)) (r : db) : db :=
  Build_db (db_orgs r) (db_accounts r) (db_mappings r) (db_next_mapping_id r) (db_events r)
    (db_commands r) (db_next_command_id r) (db_dismissals r) (db_risk_rules r)
    (db_trailing r) v (db_net_ledger r) (db_now r).
Definition set_db_net_ledger (v : list (Z * ledger_row)) (r : db) : db :=
  Build_db (db_orgs r) (db_accounts r) (db_mappings r) (db_next_mapping_id r) (db_events r)
    (db_commands r) (db_next_command_id r) (db_dismissals r) (db_risk_rules r)
    (db_trailing r) (db_watermarks r) v (db_now r).

(** An empty database at time [t]. *)
Definition empty_db (t : Z) : db :=
  {| db_orgs := []; db_accounts := []; db_mappings := []; db_next_mapping_id := 1;
     db_events := []; db_commands := []; db_next_command_id := 1; db_dismissals := ∅;
     db_risk_rules := ∅; db_trailing := ∅; db_watermarks := ∅; db_net_ledger := [];
     db_now := t |}.
