(* ===== verification/PyJson.v ===== *)
(** * Python's view of decoded JSON values

    [repr], [str], [float], [int] and [bool] of a value, and [dict.get]. *)

From S2P Require Import Prelude PyStr PyFloat PyRepr Models Db.
From Stdlib Require Import SpecFloat.

(** [repr(v)] *)
Fixpoint json_repr (v : json) : string :=
  match v with
  | JNull => "None"
  | JBool b => if b then "True" else "False"
  | JInt z => pretty z
  | JFloat x => float_repr x
  | JStr s => py_repr s
  | JList l => "[" +:+ str_join ", " (json_repr <$> l) +:+ "]"
  | JObj kvs => "{" +:+ str_join ", " ((fun kv => py_repr kv.1 +:+ ": " +:+ json_repr kv.2) <$> kvs) +:+ "}"
  | JExn e => exn_name e
  end.

(** [str(v)] *)
Definition json_str (v : json) : string :=
  match v with JStr s => s | _ => json_repr v end.

(** [float(v)] *)
Definition json_float (v : json) : result float64 :=
  match v with
  | JInt z =>
      match f_of_Z z with
      | S754_infinity _ => Raise (OverflowError "int too large to convert to float")
      | x => Ok x
      end
  | JBool b => Ok (f_of_Z (if b then 1 else 0))
  | JFloat x => Ok x
  | JStr s =>
      match py_float s with
      | Some x => Ok x
      | None => Raise (ValueError ("could not convert string to float: " +:+ py_repr s))
      end
  | _ => Raise (TypeError "float() argument must be a string or a real number")
  end.

(** [int(v)] *)
Definition json_int (v : json) : result Z :=
  match v with
  | JInt z => Ok z
  | JBool b => Ok (if b then 1 else 0)
  | JFloat x =>
      match x with
      | S754_infinity _ => Raise (OverflowError "cannot convert float infinity to integer")
      | S754_nan => Raise (ValueError "cannot convert float NaN to integer")
      | _ => Ok (f_trunc x)
      end
  | JStr s =>
      match py_int s with
      | Some z => Ok z
      | None => Raise (ValueError ("invalid literal for int() with base 10: " +:+ py_repr s))
      end
  | _ => Raise (TypeError "int() argument must be a string, a bytes-like object or a real number")
  end.

(** [bool(v)] *)
Definition json_bool (v : json) : bool :=
  match v with
  | JNull => false
  | JBool b => b
  | JInt z => negb (z =? 0)
  | JFloat x => negb (feqb x fzero)
  | JStr s => negb (bool_decide (s = ""))
  | JList l => match l with [] => false | _ => true end
  | JObj kvs => match kvs with [] => false | _ => true end
  | JExn _ => true
  end.

(** [body.get(key)] *)
Definition get (body : payload) (key : string) : json := default JNull (od_get key body).
