(* ===== verification/Repo.v ===== *)
(** * The repository layer: [copier/db/repo.py]

    Each method is the effect of its SQL statements on the tables of [Db],
    in the exception-state monad.  [UPDATE ... WHERE] maps over the rows and
    answers the row count; comparisons with [NULL] are not true, [COALESCE]
    and [GREATEST] skip nulls, as Postgres has them. *)

From S2P Require Import Prelude PyStr PyDecimal PyFloat Models Db.

(** ** Statements *)

Definition update_mappings (cond : mapping_row -> bool) (upd : mapping_row -> mapping_row)
    : M db Z :=
  fun s => (Ok (Z.of_nat (length (List.filter cond (db_mappings s)))),
            set_db_mappings ((fun r => if cond r then upd r else r) <$> db_mappings s) s).

(** [updated_at = now()] *)
Definition touch (t : Z) (r : mapping_row) : mapping_row := set_m_updated_at t r.

(** [column = value] on a nullable column *)
Definition col_eqb {A} `{!EqDecision A} (c : option A) (v : A) : bool := bool_decide (c = Some v).

Definition coalesce {A} (a b : option A) : option A :=
  match a with Some _ => a | None => b end.

(** Raise [MappingNotFound] when an update matched no row. *)
Definition require_rows (n : Z) (msg : string) : M db unit :=
  if n =? 0 then raise (MappingNotFound msg) else ret tt.

(** ** Events *)

Definition log_event (category : string) (sev : severity) (p : payload)
    (account_id org_id : option Z) : M db unit :=
  modify (fun s => set_db_events (db_events s ++
    [{| evr_category := category; evr_severity := sev; evr_payload := p;
        evr_account_id := account_id; evr_org_id := org_id |}]) s).

(** ** Orgs *)

Definition get_org (org_id : Z) : M db OrgRow :=
  let! rows := gets db_orgs in
  match List.find (fun o => org_id =? Db.org_id o) rows with
  | Some o => ret o
  | None => raise (RuntimeError ("org " +:+ pretty org_id +:+ " not found"))
  end.

(** The trigger of migration 009: any update of the row bumps its version. *)
Definition bump (o : OrgRow) : OrgRow :=
  set_org_settings_version (org_settings_version o + 1) o.

Inductive org_setting := SetCopyingEnabled (b : bool) | SetDryRun (b : bool).

Definition set_org_setting (org_id : Z) (v : org_setting) : M db unit :=
  modify (fun s => set_db_orgs ((fun o =>
    if org_id =? Db.org_id o
    then bump match v with
              | SetCopyingEnabled b => set_org_copying_enabled b o
              | SetDryRun b => set_org_dry_run b o
              end
    else o) <$> db_orgs s) s).

Definition get_org_settings_version (org_id : Z) : M db Z :=
  let! rows := gets db_orgs in
  match List.find (fun o => org_id =? Db.org_id o) rows with
  | Some o => ret (org_settings_version o)
  | None => raise (KeyError ("Unknown org: " +:+ pretty org_id))
  end.

Definition restore_copying_if_unchanged (org_id expected_version : Z) : M db bool :=
  let cond o := (org_id =? Db.org_id o) && (org_settings_version o =? expected_version) in
  let! rows := gets db_orgs in
  modify (fun s => set_db_orgs ((fun o =>
    if cond o then bump (set_org_copying_enabled true o) else o) <$> db_orgs s) s) ;;;
  ret (length (List.filter cond rows) =? 1)%nat.

(** ** Accounts *)

Definition load_accounts : M db (list AccountRow) := gets db_accounts.

Definition org_for_account (account_id : Z) : M db (option Z) :=
  gets (fun s => acc_org_id <$> List.find (fun a => acc_account_id a =? account_id) (db_accounts s)).

Definition set_account_status (account_id : Z) (st : account_status) (last_error : json) : M db unit :=
  modify (fun s => set_db_accounts ((fun a =>
    if acc_account_id a =? account_id then set_acc_last_error last_error (set_acc_status st a)
    else a) <$> db_accounts s) s).

Definition clear_degraded (account_id : Z) : M db bool :=
  let cond a := (acc_account_id a =? account_id) && bool_decide (acc_status a = StDegraded) in
  let! rows := gets db_accounts in
  modify (fun s => set_db_accounts ((fun a =>
    if cond a then set_acc_last_error JNull (set_acc_status StOk a) else a) <$> db_accounts s) s) ;;;
  ret (0 <? length (List.filter cond rows))%nat.

(** ** Drift dismissals *)

Definition load_drift_dismissals (org_id : Z) : M db (gset string) :=
  gets (fun s => set_map snd (filter (fun p : Z * string => p.1 = org_id) (db_dismissals s))).

Definition save_drift_dismissal (org_id : Z) (drift_id : string) : M db unit :=
  modify (fun s => set_db_dismissals ({[(org_id, drift_id)]} ∪ db_dismissals s) s).

Definition prune_drift_dismissals (org_id : Z) (keep : gset string) : M db unit :=
  modify (fun s => set_db_dismissals
    (filter (fun p : Z * string => ~ (p.1 = org_id /\ p.2 ∉ keep)) (db_dismissals s)) s).

(** ** Mappings *)

Definition new_mapping (s : db) (mpos mord spos svol : option Z) (account : Z)
    (coid : option string) (org : Z) (st : mapping_status) (sym : option string) : mapping_row :=
  {| m_id := db_next_mapping_id s; m_master_position_id := mpos; m_master_order_id := mord;
     m_slave_account_id := account; m_slave_position_id := spos; m_slave_order_id := None;
     m_slave_volume := svol; m_client_order_id := coid; m_org_id := org; m_status := st;
     m_error := None; m_fill_price := None; m_symbol := sym; m_master_fill_price := None;
     m_master_exec_timestamp := None; m_created_at := db_now s; m_updated_at := db_now s |}.

(** [INSERT]: the sequence advances, the row goes to the end. *)
Definition insert_mapping (mk : db -> mapping_row) : M db unit :=
  modify (fun s => set_db_next_mapping_id (db_next_mapping_id s + 1)
                     (set_db_mappings (db_mappings s ++ [mk s]) s)).

Definition coid_taken (coid : string) (s : db) : bool :=
  existsb (fun r => col_eqb (m_client_order_id r) coid) (db_mappings s).

(** [ON CONFLICT (client_order_id) DO NOTHING]: the sequence is consumed either way. *)
Definition create_position_mapping (master_position_id slave_account_id : Z)
    (client_order_id : string) (org_id : Z) (symbol : option string) : M db unit :=
  let! taken := gets (coid_taken client_order_id) in
  if taken
  then modify (fun s => set_db_next_mapping_id (db_next_mapping_id s + 1) s)
  else insert_mapping (fun s => new_mapping s (Some master_position_id) None None None
         slave_account_id (Some client_order_id) org_id Pending symbol).

Definition record_master_fill (org_id master_position_id : Z) (fill_price : price)
    (exec_timestamp : option Z) : M db unit :=
  match fill_price, exec_timestamp with
  | None, None => ret tt
  | _, _ =>
      let! t := gets db_now in
      update_mappings
        (fun r => col_eqb (m_master_position_id r) master_position_id && (m_org_id r =? org_id))
        (fun r => touch t (set_m_master_exec_timestamp (coalesce exec_timestamp (m_master_exec_timestamp r))
                          (set_m_master_fill_price (coalesce fill_price (m_master_fill_price r)) r))) ;;;
      ret tt
  end.

Definition owned_by (slave_account_id : Z) (client_order_id : string) (r : mapping_row) : bool :=
  col_eqb (m_client_order_id r) client_order_id && (m_slave_account_id r =? slave_account_id).

Definition no_mapping_msg (client_order_id : string) (slave_account_id : Z) : string :=
  "No mapping found with client_order_id=" +:+ client_order_id +:+ " for slave_account_id=" +:+
  pretty slave_account_id.

Definition activate_position_mapping (slave_account_id : Z) (client_order_id : string)
    (slave_position_id slave_volume : Z) (fill_price : price) : M db unit :=
  let! t := gets db_now in
  let! n := update_mappings (owned_by slave_account_id client_order_id)
    (fun r => touch t (set_m_status Active
              (set_m_fill_price (coalesce (m_fill_price r) fill_price)
              (set_m_slave_volume (Some (default 0 (m_slave_volume r) + slave_volume))
              (set_m_slave_position_id (Some slave_position_id) r))))) in
  require_rows n (no_mapping_msg client_order_id slave_account_id).

(** [GREATEST(slave_volume - closed, 0)]; a null volume gives 0 and keeps the
    row active ([NULL <= 0] is not true). *)
Definition reduce_row (t closed_volume : Z) (r : mapping_row) : mapping_row :=
  match m_slave_volume r with
  | None => touch t (set_m_status Active (set_m_slave_volume (Some 0) r))
  | Some v => touch t (set_m_status (if v - closed_volume <=? 0 then Closed else Active)
                      (set_m_slave_volume (Some (Z.max (v - closed_volume) 0)) r))
  end.

Definition reduce_position_mapping (slave_account_id slave_position_id closed_volume : Z)
    (client_order_id : option string) : M db unit :=
  let! t := gets db_now in
  update_mappings
    (fun r => (m_slave_account_id r =? slave_account_id) && bool_decide (m_status r = Active) &&
              match client_order_id with
              | None => col_eqb (m_slave_position_id r) slave_position_id
              | Some coid => col_eqb (m_client_order_id r) coid
              end)
    (reduce_row t closed_volume) ;;;
  ret tt.

Definition fail_mapping (slave_account_id : Z) (client_order_id error : string) : M db unit :=
  let! t := gets db_now in
  let! n := update_mappings (owned_by slave_account_id client_order_id)
    (fun r => touch t (set_m_error (Some error) (set_m_status Failed r))) in
  require_rows n (no_mapping_msg client_order_id slave_account_id).

Definition create_order_mapping (master_order_id slave_account_id : Z)
    (client_order_id : string) (org_id : Z) (symbol : option string) : M db unit :=
  let! taken := gets (coid_taken client_order_id) in
  if taken
  then modify (fun s => set_db_next_mapping_id (db_next_mapping_id s + 1) s) ;;;
       raise (UniqueViolation "mappings_client_order_id_key" client_order_id)
  else insert_mapping (fun s => new_mapping s None (Some master_order_id) None None
         slave_account_id (Some client_order_id) org_id Pending symbol).

Definition activate_order_mapping (slave_account_id : Z) (client_order_id : string)
    (slave_order_id : option Z) : M db unit :=
  let! t := gets db_now in
  let! n := update_mappings (owned_by slave_account_id client_order_id)
    (fun r => touch t (set_m_status Active (set_m_slave_order_id slave_order_id r))) in
  require_rows n (no_mapping_msg client_order_id slave_account_id).

Definition active_order (slave_account_id : Z) (slave_order_id : option Z) (r : mapping_row) : bool :=
  (m_slave_account_id r =? slave_account_id) && bool_decide (m_status r = Active) &&
  match slave_order_id with
  | Some o => col_eqb (m_slave_order_id r) o
  | None => false
  end.

Definition no_order_msg (slave_account_id : Z) (slave_order_id : option Z) : string :=
  "No active order mapping found: slave_account_id=" +:+ pretty slave_account_id +:+
  ", slave_order_id=" +:+ match slave_order_id with Some o => pretty o | None => "None" end.

Definition close_order_mapping (slave_account_id : Z) (slave_order_id : option Z) : M db unit :=
  let! t := gets db_now in
  let! n := update_mappings (active_order slave_account_id slave_order_id)
    (fun r => touch t (set_m_status Closed r)) in
  require_rows n (no_order_msg slave_account_id slave_order_id).

Definition link_pending_fill (master_order_id slave_account_id master_position_id : Z) : M db unit :=
  let! t := gets db_now in
  let! n := update_mappings
    (fun r => col_eqb (m_master_order_id r) master_order_id &&
              (m_slave_account_id r =? slave_account_id) && bool_decide (m_status r = Active))
    (fun r => touch t (set_m_master_position_id (Some master_position_id) r)) in
  require_rows n ("No active order mapping found: master_order_id=" +:+ pretty master_order_id +:+
                  ", slave_account_id=" +:+ pretty slave_account_id).

Definition activate_pending_fill (slave_account_id : Z) (slave_order_id : option Z)
    (slave_position_id slave_volume : Z) (fill_price : price) : M db unit :=
  let! t := gets db_now in
  let! n := update_mappings (active_order slave_account_id slave_order_id)
    (fun r => touch t (set_m_status Active
              (set_m_fill_price (coalesce (m_fill_price r) fill_price)
              (set_m_slave_volume (Some slave_volume)
              (set_m_slave_position_id (Some slave_position_id) r))))) in
  require_rows n (no_order_msg slave_account_id slave_order_id).

Definition adopt_position_mapping (master_position_id slave_account_id slave_position_id
    slave_volume org_id : Z) : M db unit :=
  insert_mapping (fun s => new_mapping s (Some master_position_id) None (Some slave_position_id)
    (Some slave_volume) slave_account_id None org_id Active None).

Definition mapping_rows (org_id : option Z) : M db (list mapping_row) :=
  gets (fun s => match org_id with
                 | None => db_mappings s
                 | Some o => List.filter (fun r => m_org_id r =? o) (db_mappings s)
                 end).

(** *** The [MappingState] protocol

    [slave_volume] of a row with a position is never null (see
    [mapping_ok] below), so the default is not used. *)
#[export] Instance repo_mapping_state : MappingState db := {|
  position_entries s master_position_id :=
    omap (fun r =>
      if col_eqb (m_master_position_id r) master_position_id && bool_decide (m_status r = Active)
      then (fun p => {| pme_slave_account_id := m_slave_account_id r; pme_slave_position_id := p;
                        pme_slave_volume := default 0 (m_slave_volume r) |}) <$> m_slave_position_id r
      else None) (db_mappings s);
  order_entries s master_order_id :=
    omap (fun r =>
      if col_eqb (m_master_order_id r) master_order_id && bool_decide (m_status r = Active)
      then Some {| ome_slave_account_id := m_slave_account_id r;
                   ome_slave_order_id := m_slave_order_id r |}
      else None) (db_mappings s)
|}.

(** *** Netting followers *)

Record fifo_touch := {
  ft_id : Z; ft_client_order_id : option string; ft_master_position_id : option Z;
  ft_closed_volume : Z; ft_slave_volume : Z; ft_status : mapping_status
}.

(** The walk of [reduce_position_mappings_fifo] over the locked rows: the
    touched rows and what each gave up. *)
Fixpoint fifo_walk (remaining : Z) (rows : list mapping_row) : list fifo_touch :=
  match rows with
  | [] => []
  | row :: rows' =>
      if remaining <=? 0 then []
      else let held := default 0 (m_slave_volume row) in
           if held <=? 0 then fifo_walk remaining rows'
           else let take := Z.min held remaining in
                let left := held - take in
                {| ft_id := m_id row; ft_client_order_id := m_client_order_id row;
                   ft_master_position_id := m_master_position_id row;
                   ft_closed_volume := take; ft_slave_volume := left;
                   ft_status := if left <=? 0 then Closed else Active |}
                :: fifo_walk (remaining - take) rows'
  end.

(** [ORDER BY created_at, id] *)
Definition older (a b : mapping_row) : Prop :=
  m_created_at a < m_created_at b \/ (m_created_at a = m_created_at b /\ m_id a <= m_id b).
#[export] Instance older_dec : RelDecision older.
Proof. intros a b. unfold older. apply _. Defined.

Definition fifo_rows (slave_account_id slave_position_id : Z) (s : db) : list mapping_row :=
  merge_sort older (List.filter (fun r =>
    (m_slave_account_id r =? slave_account_id) && col_eqb (m_slave_position_id r) slave_position_id &&
    bool_decide (m_status r = Active)) (db_mappings s)).

Definition apply_touch (t : Z) (ft : fifo_touch) : M db unit :=
  update_mappings (fun r => m_id r =? ft_id ft)
    (fun r => touch t (set_m_status (ft_status ft) (set_m_slave_volume (Some (ft_slave_volume ft)) r))) ;;;
  ret tt.

Definition reduce_position_mappings_fifo (slave_account_id slave_position_id closed_volume : Z)
    : M db (list fifo_touch) :=
  if closed_volume <=? 0 then ret []
  else let! rows := gets (fifo_rows slave_account_id slave_position_id) in
       let! t := gets db_now in
       let touched := fifo_walk closed_volume rows in
       for_each (apply_touch t) touched ;;;
       ret touched.

(** ** The MT5 command outbox *)

Definition enqueue_mt5_command (account_id org_id : Z) (kind : cmd_kind) (p : payload)
    (client_order_id : option string) : M db Z :=
  fun s => (Ok (db_next_command_id s),
    set_db_next_command_id (db_next_command_id s + 1)
      (set_db_commands (db_commands s ++
         [{| c_id := db_next_command_id s; c_account_id := account_id; c_org_id := org_id;
             c_kind := kind; c_payload := p; c_client_order_id := client_order_id;
             c_status := Queued; c_result := None; c_attempts := 0; c_created_at := db_now s;
             c_sent_at := None; c_done_at := None |}]) s)).

Definition is_open_status (st : cmd_status) : bool :=
  match st with Queued | Sent => true | _ => false end.

(** [ORDER BY id]: the table is in id order. *)
Definition mt5_commands_open (account_id : Z) : M db (list command_row) :=
  gets (fun s => List.filter (fun c => (c_account_id c =? account_id) && is_open_status (c_status c))
                             (db_commands s)).

Definition mark_mt5_commands_sent (ids : list Z) (sent_at : Z) : M db unit :=
  modify (fun s => set_db_commands ((fun c =>
    if bool_decide (c_id c ∈ ids)
    then set_c_attempts (c_attempts c + 1) (set_c_sent_at (Some sent_at) (set_c_status Sent c))
    else c) <$> db_commands s) s).

(** The [WHERE] of [complete_mt5_command]. *)
Definition completable (command_id : Z) (account_id : option Z) (c : command_row) : bool :=
  (c_id c =? command_id) && is_open_status (c_status c) &&
  match account_id with None => true | Some a => c_account_id c =? a end.

Definition complete_mt5_command (command_id : Z) (ok : bool) (result : payload) (done_at : Z)
    (account_id : option Z) : M db (option command_row) :=
  let! rows := gets db_commands in
  modify (fun s => set_db_commands ((fun c =>
    if completable command_id account_id c
    then set_c_done_at (Some done_at) (set_c_result (Some result)
           (set_c_status (if ok then Done else CmdFailed) c))
    else c) <$> db_commands s) s) ;;;
  ret (List.find (completable command_id account_id) rows).

Definition offline_result : payload :=
  [("ok", JBool false); ("retcode", JInt 0); ("message", JStr "terminal offline");
   ("position", JNull); ("deal", JNull); ("order", JNull); ("price", JNull); ("lots", JNull)].

(** The [WHERE] of [fail_stale_mt5_opens]. *)
Definition stale_open (account_id older_than : Z) (c : command_row) : bool :=
  (c_account_id c =? account_id) &&
  match c_kind c with KOpen | KPlacePending => true | _ => false end &&
  is_open_status (c_status c) && (c_created_at c <? older_than) &&
  match c_client_order_id c with None => true | Some coid => negb (str_ends ":close" coid) end.

Definition fail_stale_mt5_opens (account_id older_than : Z) : M db (list Z) :=
  let! cmds := gets db_commands in
  let! t := gets db_now in
  modify (fun s => set_db_commands ((fun c =>
    if stale_open account_id older_than c
    then set_c_done_at (Some t) (set_c_result (Some offline_result) (set_c_status CmdFailed c))
    else c) <$> db_commands s) s) ;;;
  let rows := List.filter (stale_open account_id older_than) cmds in
  let coids := List.filter (fun c => negb (bool_decide (c = ""))) (omap c_client_order_id rows) in
  (match coids with
   | [] => ret tt
   | _ => update_mappings
            (fun r => (m_slave_account_id r =? account_id) &&
                      match m_client_order_id r with
                      | Some c => bool_decide (c ∈ coids)
                      | None => false
                      end && bool_decide (m_status r = Pending))
            (fun r => touch t (set_m_error (Some "terminal offline") (set_m_status Failed r))) ;;;
          ret tt
   end) ;;;
  ret (c_id <$> rows).

Definition mt5_open_payload (client_order_id : string) : M db (option payload) :=
  gets (fun s => c_payload <$> List.find (fun c => col_eqb (c_client_order_id c) client_order_id &&
                                 bool_decide (c_kind c = KOpen)) (db_commands s)).

Definition json_side (j : option json) : option Side :=
  match j with
  | Some (JStr "BUY") => Some BUY
  | Some (JStr "SELL") => Some SELL
  | _ => None
  end.

Definition mapping_side (client_order_id : string) : M db (option Side) :=
  let! p := mt5_open_payload client_order_id in
  ret (json_side (od_get "side" (default [] p))).

(** ** Deal watermark *)

Definition mt5_watermark (account_id : Z) : M db (Z * Z) :=
  gets (fun s => default (0, 0) (db_watermarks s !! account_id)).

Definition set_mt5_watermark (account_id ticket time_ms : Z) : M db unit :=
  modify (fun s => set_db_watermarks (<[account_id :=
    match db_watermarks s !! account_id with
    | None => (ticket, time_ms)
    | Some (t, ms) => (Z.max t ticket, Z.max ms time_ms)
    end]> (db_watermarks s)) s).

(** ** The virtual-position ledger *)

Definition ledger_older (a b : ledger_row) : Prop :=
  lr_opened_at_ms a < lr_opened_at_ms b \/
  (lr_opened_at_ms a = lr_opened_at_ms b /\ lr_virtual_id a <= lr_virtual_id b).
#[export] Instance ledger_older_dec : RelDecision ledger_older.
Proof. intros a b. unfold ledger_older. apply _. Defined.

Definition load_net_ledger (account_id : Z) : M db (list ledger_row) :=
  gets (fun s => merge_sort ledger_older
                   (List.filter (fun p => p.1 =? account_id) (db_net_ledger s)).*2).

Definition ledger_key (account_id virtual_id : Z) (p : Z * ledger_row) : bool :=
  (p.1 =? account_id) && (lr_virtual_id p.2 =? virtual_id).

Definition upsert_ledger_row (account_id : Z) (row : ledger_row) (t : list (Z * ledger_row))
    : list (Z * ledger_row) :=
  if existsb (ledger_key account_id (lr_virtual_id row)) t
  then (fun p => if ledger_key account_id (lr_virtual_id row) p
                 then (p.1, set_lr_take_profit (lr_take_profit row)
                             (set_lr_stop_loss (lr_stop_loss row)
                             (set_lr_volume_left (lr_volume_left row) p.2)))
                 else p) <$> t
  else t ++ [(account_id, row)].

Definition upsert_net_ledger (account_id : Z) (rows : list ledger_row) : M db unit :=
  modify (fun s => set_db_net_ledger
    (fold_left (fun t row => upsert_ledger_row account_id row t) rows (db_net_ledger s)) s).

Definition delete_net_ledger (account_id : Z) (virtual_ids : list Z) : M db unit :=
  modify (fun s => set_db_net_ledger
    (List.filter (fun p => negb ((p.1 =? account_id) && bool_decide (lr_virtual_id p.2 ∈ virtual_ids)))
                 (db_net_ledger s)) s).

(** ** Risk rules and trailing state *)

Definition load_risk_rule (org_id : Z) (symbol : string) : M db (option RiskRule) :=
  gets (fun s => db_risk_rules s !! (org_id, symbol)).

Definition upsert_trailing_state (account_id position_id : Z) (best_price current_stop : float64)
    : M db unit :=
  modify (fun s => set_db_trailing (<[(account_id, position_id) :=
    {| ts_best_price := best_price; ts_current_stop := current_stop; ts_updated_at := db_now s |}]>
    (db_trailing s)) s).

Definition load_trailing_state (account_id position_id : Z) : M db (option TrailingState) :=
  gets (fun s => db_trailing s !! (account_id, position_id)).

Definition delete_trailing_state (account_id position_id : Z) : M db unit :=
  modify (fun s => set_db_trailing (delete (account_id, position_id) (db_trailing s)) s).
