(* ===== verification/RepoFacts.v ===== *)
(** * Facts about the mapping table

    The invariant of the [mappings] table and that every write keeps it, the
    ownership frame (what one slave account's events may touch), the volume a
    mapping carries, and the oldest-first reduction of a netting follower. *)

From S2P Require Import Prelude PyStr PyDecimal PyFloat Models Db Repo.

(** ** The table invariant *)

(** One row: it copies a master position or order, a row with a slave position
    has a volume, and volumes are never negative. *)
Definition mapping_ok (r : mapping_row) : Prop :=
  (is_Some (m_master_position_id r) \/ is_Some (m_master_order_id r)) /\
  (is_Some (m_slave_position_id r) -> is_Some (m_slave_volume r)) /\
  (forall v, m_slave_volume r = Some v -> 0 <= v).

Record mappings_inv (s : db) : Prop := {
  inv_ids : NoDup (m_id <$> db_mappings s);
  inv_next : Forall (fun r => m_id r < db_next_mapping_id s) (db_mappings s);
  inv_coids : NoDup (omap m_client_order_id (db_mappings s));
  inv_rows : Forall mapping_ok (db_mappings s)
}.

(** Ids alone: unique, and below the sequence. *)
Definition ids_inv (s : db) : Prop :=
  NoDup (m_id <$> db_mappings s) /\ Forall (fun i => i < db_next_mapping_id s) (m_id <$> db_mappings s).

Lemma mappings_ids s : mappings_inv s -> ids_inv s.
Proof. intros [Hi Hn _ _]. split; [done|by apply Forall_fmap]. Qed.
#[export] Hint Resolve mappings_ids : copier.

(** The writes of the table, as the engine issues them. *)
Inductive mapping_op :=
  | OpCreatePosition (master_position account : Z) (coid : string) (org : Z) (sym : option string)
  | OpCreateOrder (master_order account : Z) (coid : string) (org : Z) (sym : option string)
  | OpRecordMasterFill (org master_position : Z) (fill : price) (ts : option Z)
  | OpActivatePosition (account : Z) (coid : string) (pos vol : Z) (fill : price)
  | OpReducePosition (account pos closed : Z) (coid : option string)
  | OpReduceFifo (account pos closed : Z)
  | OpFail (account : Z) (coid err : string)
  | OpActivateOrder (account : Z) (coid : string) (order : option Z)
  | OpCloseOrder (account : Z) (order : option Z)
  | OpLinkFill (master_order account master_position : Z)
  | OpActivatePendingFill (account : Z) (order : option Z) (pos vol : Z) (fill : price)
  | OpAdopt (master_position account pos vol org : Z)
  | OpFailStaleOpens (account older_than : Z).

Definition run_op (o : mapping_op) : M db unit :=
  match o with
  | OpCreatePosition mp a c g y => create_position_mapping mp a c g y
  | OpCreateOrder mo a c g y => create_order_mapping mo a c g y
  | OpRecordMasterFill g mp f t => record_master_fill g mp f t
  | OpActivatePosition a c p v f => activate_position_mapping a c p v f
  | OpReducePosition a p v c => reduce_position_mapping a p v c
  | OpReduceFifo a p v => reduce_position_mappings_fifo a p v ;;; ret tt
  | OpFail a c e => fail_mapping a c e
  | OpActivateOrder a c o => activate_order_mapping a c o
  | OpCloseOrder a o => close_order_mapping a o
  | OpLinkFill mo a mp => link_pending_fill mo a mp
  | OpActivatePendingFill a o p v f => activate_pending_fill a o p v f
  | OpAdopt mp a p v g => adopt_position_mapping mp a p v g
  | OpFailStaleOpens a t => fail_stale_mt5_opens a t ;;; ret tt
  end.

(** Reported fills and adopted volumes are not negative. *)
Definition op_ok (o : mapping_op) : Prop :=
  match o with
  | OpActivatePosition _ _ _ v _ | OpActivatePendingFill _ _ _ v _ | OpAdopt _ _ _ v _ => 0 <= v
  | _ => True
  end.

(** The sequence of writes, each in the state the previous one left, whether
    or not it raised. *)
Definition run_ops (ops : list mapping_op) (s : db) : db :=
  fold_left (fun s o => exec (run_op o) s) ops s.

(** *** Preservation *)

Definition keeps_inv (s s' : db) : Prop := mappings_inv s -> mappings_inv s'.
#[export] Instance keeps_inv_refl : Reflexive keeps_inv.
Proof. intros s H. exact H. Qed.
#[export] Instance keeps_inv_trans : Transitive keeps_inv.
Proof. intros a b c H1 H2 H. auto. Qed.

Lemma omap_fmap_id {A B} (g : A -> option B) (f : A -> A) (l : list A) :
  (forall x, x ∈ l -> g (f x) = g x) -> omap g (f <$> l) = omap g l.
Proof.
  induction l as [|x l IH]; intros H; csimpl; [done|].
  rewrite (H x) by set_solver. rewrite IH by set_solver. done.
Qed.

Lemma fmap_fmap_id {A B} (g : A -> B) (f : A -> A) (l : list A) :
  (forall x, x ∈ l -> g (f x) = g x) -> g <$> (f <$> l) = g <$> l.
Proof.
  induction l as [|x l IH]; intros H; csimpl; [done|].
  rewrite (H x) by set_solver. rewrite IH by set_solver. done.
Qed.

(** An update that keeps ids, client order ids and row validity. *)
Definition row_update (upd : mapping_row -> mapping_row) : Prop :=
  forall r, m_id (upd r) = m_id r /\ m_client_order_id (upd r) = m_client_order_id r /\
            (mapping_ok r -> mapping_ok (upd r)).

Lemma update_mappings_keeps cond upd :
  row_update upd -> respects keeps_inv (update_mappings cond upd).
Proof.
  intros Hu s [Hi Hn Hc Hr]. unfold update_mappings, exec; simpl.
  split; simpl.
  - rewrite fmap_fmap_id; [done|]. intros r _. case_match; [apply Hu|done].
  - apply Forall_fmap. eapply Forall_impl; [exact Hn|]. intros r Hr'. simpl.
    case_match; [|done]. by rewrite (proj1 (Hu r)).
  - rewrite omap_fmap_id; [done|]. intros r _. case_match; [apply Hu|done].
  - apply Forall_fmap. eapply Forall_impl; [exact Hr|]. intros r Hok. simpl.
    case_match; [|done]. by apply Hu.
Qed.

Lemma insert_mapping_keeps mk s :
  m_id (mk s) = db_next_mapping_id s -> mapping_ok (mk s) ->
  (forall c, m_client_order_id (mk s) = Some c -> coid_taken c s = false) ->
  keeps_inv s (exec (insert_mapping mk) s).
Proof.
  intros Hid Hok Hfresh [Hi Hn Hc Hr]. unfold exec, insert_mapping, modify; simpl. split; simpl.
  - rewrite fmap_app. apply NoDup_app. split; [done|]. split; [|apply NoDup_singleton].
    intros i (r & -> & Hin)%list_elem_of_fmap Heq. csimpl in Heq.
    apply list_elem_of_singleton in Heq. rewrite Hid in Heq.
    eapply Forall_forall in Hn; [|exact Hin]. lia.
  - apply Forall_app. split.
    + eapply Forall_impl; [exact Hn|]. intros r ?; simpl in *; lia.
    + constructor; [|done]. rewrite Hid. lia.
  - rewrite omap_app. apply NoDup_app. split; [done|]. csimpl.
    destruct (m_client_order_id (mk s)) as [c|] eqn:E; [|split; [set_solver|by apply NoDup_nil_2]].
    split; [|apply NoDup_singleton].
    intros c' (r & Hr' & Hcr)%list_elem_of_omap ->%list_elem_of_singleton.
    specialize (Hfresh c eq_refl). unfold coid_taken in Hfresh.
    apply not_true_iff_false in Hfresh. apply Hfresh. apply existsb_exists.
    exists r. split; [by apply list_elem_of_In|]. unfold col_eqb. by apply bool_decide_eq_true.
  - apply Forall_app. split; [done|]. by constructor.
Qed.

Lemma bump_next_keeps :
  respects keeps_inv (modify (fun s => set_db_next_mapping_id (db_next_mapping_id s + 1) s)).
Proof.
  apply respects_modify. intros s [Hi Hn Hc Hr]. split; simpl; try done.
  eapply Forall_impl; [exact Hn|]. intros r ?; simpl in *; lia.
Qed.

Lemma require_rows_keeps n msg : respects keeps_inv (require_rows n msg).
Proof. unfold require_rows. case_match; auto with copier typeclass_instances. Qed.

(** The three parts of [mapping_ok]. *)
Ltac split_ok := unfold mapping_ok; simpl; split; [|split].

(** Updates built from column setters satisfy [row_update]. *)
Ltac solve_row_update :=
  intros r; unfold touch; simpl; split; [done|]; split; [done|];
  unfold mapping_ok; simpl; intros (H1 & H2 & H3);
  split; [first [done | by left; eexists] | split; [first [done | by eexists] |]];
  intros v' Hv'; simplify_eq; auto.

Lemma reduce_row_update t c : row_update (reduce_row t c).
Proof.
  intros r. unfold reduce_row. destruct (m_slave_volume r) as [v|] eqn:E; simpl.
  - split; [done|]. split; [done|]. intros (H1 & H2 & H3). split_ok; [done|by eexists|].
    intros v' [= <-]. lia.
  - split; [done|]. split; [done|]. intros (H1 & H2 & H3). split_ok; [done|by eexists|].
    intros v' [= <-]. lia.
Qed.

Lemma fifo_walk_left_nonneg rem rows ft : ft ∈ fifo_walk rem rows -> 0 <= ft_slave_volume ft.
Proof.
  revert rem. induction rows as [|r rows IH]; intros rem; simpl; [set_solver|].
  case_match; [set_solver|]. case_match; [by apply IH|]. bsimp.
  intros [->|Hin]%elem_of_cons; [simpl; lia|by eapply IH].
Qed.

Ltac keeps_step :=
  first [ apply respects_ret | apply respects_raise | apply respects_gets
        | apply require_rows_keeps | apply bump_next_keeps
        | apply respects_bind; [apply _| |intro]
        | apply update_mappings_keeps ]; try apply _.

Lemma create_position_keeps mp a c g y : respects keeps_inv (create_position_mapping mp a c g y).
Proof.
  intros s. unfold create_position_mapping, exec, bind, gets.
  destruct (coid_taken c s) eqn:E; [apply bump_next_keeps|].
  apply insert_mapping_keeps; [done| |].
  - split_ok; [by left; eexists|by intros []|done].
  - simpl. intros c' [= <-]. done.
Qed.

Lemma create_order_keeps mo a c g y : respects keeps_inv (create_order_mapping mo a c g y).
Proof.
  intros s. unfold create_order_mapping, exec. cbn [bind gets].
  destruct (coid_taken c s) eqn:E.
  - change (keeps_inv s (exec (modify (fun s => set_db_next_mapping_id (db_next_mapping_id s + 1) s) ;;;
      raise (A:=unit) (UniqueViolation "mappings_client_order_id_key" c)) s)).
    repeat keeps_step.
  - apply insert_mapping_keeps; [done| |].
    + split_ok; [by right; eexists|by intros []|done].
    + simpl. intros c' [= <-]. done.
Qed.

Lemma adopt_keeps mp a p v g : 0 <= v -> respects keeps_inv (adopt_position_mapping mp a p v g).
Proof.
  intros Hv s. apply insert_mapping_keeps; [done| |done].
  split_ok; [by left; eexists|by eexists|]. intros ? [= <-]. done.
Qed.

Lemma set_commands_keeps (f : db -> list command_row) :
  respects keeps_inv (modify (fun s => set_db_commands (f s) s)).
Proof. apply respects_modify. by intros s [Hi Hn Hc Hr]. Qed.

Lemma run_op_keeps o : op_ok o -> respects keeps_inv (run_op o).
Proof.
  destruct o; simpl; intros Hok.
  - apply create_position_keeps.
  - apply create_order_keeps.
  - unfold record_master_fill. repeat case_match; repeat keeps_step; solve_row_update.
  - unfold activate_position_mapping. repeat keeps_step. intros r. unfold touch; simpl.
    split; [done|]. split; [done|]. intros (H1 & H2 & H3). split_ok; [done|by eexists|].
    intros v' [= <-]. destruct (m_slave_volume r) eqn:E; simpl; [specialize (H3 _ eq_refl); lia|lia].
  - unfold reduce_position_mapping. repeat keeps_step. apply reduce_row_update.
  - unfold reduce_position_mappings_fifo. case_match; repeat keeps_step.
    apply respects_for_each; try apply _. intros ft Hft. unfold apply_touch. repeat keeps_step.
    intros r. unfold touch; simpl. split; [done|]. split; [done|]. intros (H1 & H2 & H3).
    split_ok; [done|by eexists|]. intros v' [= <-]. by eapply fifo_walk_left_nonneg.
  - unfold fail_mapping. repeat keeps_step; solve_row_update.
  - unfold activate_order_mapping. repeat keeps_step; solve_row_update.
  - unfold close_order_mapping. repeat keeps_step; solve_row_update.
  - unfold link_pending_fill. repeat keeps_step; solve_row_update.
  - unfold activate_pending_fill. repeat keeps_step; solve_row_update.
  - by apply adopt_keeps.
  - unfold fail_stale_mt5_opens. repeat keeps_step; [apply set_commands_keeps|].
    case_match; repeat keeps_step; solve_row_update.
Qed.

Lemma empty_db_inv t : mappings_inv (empty_db t).
Proof. split; simpl; [apply NoDup_nil_2|constructor|apply NoDup_nil_2|constructor]. Qed.

Lemma run_ops_inv ops s : Forall op_ok ops -> mappings_inv s -> mappings_inv (run_ops ops s).
Proof.
  intros Hops. unfold run_ops. revert s.
  induction Hops as [|o ops Ho Hops IH]; intros s Hs; simpl; [done|].
  apply IH. by apply (run_op_keeps o Ho s).
Qed.

(** C6: the mapping table stays well formed: starting from an empty database,
    after any sequence of the engine's writes (with non-negative reported
    volumes, and whether or not some of them raised) row ids and client order
    ids are unique, every row copies a master position or order, every copy
    with a position has a volume, and no volume is negative. *)
Theorem mapping_table_invariant ops t :
  Forall op_ok ops -> mappings_inv (run_ops ops (empty_db t)).
Proof.
  intros Hops. apply run_ops_inv; [done|apply empty_db_inv].
Qed.

(** An open, an increase, a partial close and a duplicate creation. *)
Definition demo_ops : list mapping_op :=
  [OpCreatePosition 7 11 "cm7.11" 1 None; OpActivatePosition 11 "cm7.11" 901 100 None;
   OpCreatePosition 7 11 "cm7.11" 1 None; OpActivatePosition 11 "cm7.11" 901 50 None;
   OpReducePosition 11 901 60 None; OpCreateOrder 5 11 "co5.11" 1 None;
   OpCreateOrder 5 11 "co5.11" 1 None].

Lemma mapping_table_invariant_witness :
  mappings_inv (run_ops demo_ops (empty_db 0)) /\
  (m_slave_volume <$> db_mappings (run_ops demo_ops (empty_db 0))) = [Some 90; None].
Proof.
  split; [|vm_compute; reflexivity].
  apply mapping_table_invariant. unfold demo_ops. repeat constructor; simpl; lia.
Defined.

(** ** Ownership: whose rows a write may touch *)

(** The account an operation writes for; [record_master_fill] writes per org. *)
Definition op_account (o : mapping_op) : option Z :=
  match o with
  | OpCreatePosition _ a _ _ _ | OpCreateOrder _ a _ _ _ | OpActivatePosition a _ _ _ _
  | OpReducePosition a _ _ _ | OpReduceFifo a _ _ | OpFail a _ _ | OpActivateOrder a _ _
  | OpCloseOrder a _ | OpLinkFill _ a _ | OpActivatePendingFill a _ _ _ _
  | OpAdopt _ a _ _ _ | OpFailStaleOpens a _ => Some a
  | OpRecordMasterFill _ _ _ _ => None
  end.

(** The mapping rows of every account but [a]. *)
Definition others (a : Z) (s : db) : list mapping_row :=
  List.filter (fun r => negb (m_slave_account_id r =? a)) (db_mappings s).

Definition same_others (a : Z) (s s' : db) : Prop := others a s' = others a s.
#[export] Instance same_others_refl a : Reflexive (same_others a).
Proof. done. Qed.
#[export] Instance same_others_trans a : Transitive (same_others a).
Proof. unfold same_others. congruence. Qed.

Lemma update_others a cond upd s :
  (forall r, r ∈ db_mappings s -> cond r = true -> m_slave_account_id r = a) ->
  (forall r, m_slave_account_id (upd r) = m_slave_account_id r) ->
  same_others a s (exec (update_mappings cond upd) s).
Proof.
  intros Hc Hu. unfold same_others, others, update_mappings, exec; simpl.
  induction (db_mappings s) as [|r l IH]; csimpl; [done|].
  rewrite IH by set_solver. destruct (cond r) eqn:E; [|done].
  by rewrite Hu, (Hc r ltac:(set_solver) E), Z.eqb_refl.
Qed.

Lemma update_respects_others a cond upd :
  (forall r, cond r = true -> m_slave_account_id r = a) ->
  (forall r, m_slave_account_id (upd r) = m_slave_account_id r) ->
  respects (same_others a) (update_mappings cond upd).
Proof. intros ?? s. apply update_others; auto. Qed.

Lemma insert_others a mk s :
  m_slave_account_id (mk s) = a -> same_others a s (exec (insert_mapping mk) s).
Proof.
  intros H. unfold same_others, others, exec, insert_mapping, modify; simpl.
  rewrite List.filter_app. simpl. by rewrite H, Z.eqb_refl, app_nil_r.
Qed.

Lemma require_rows_others a n msg : respects (same_others a) (require_rows n msg).
Proof. unfold require_rows. case_match; [apply respects_raise|apply respects_ret]; apply _. Qed.

Ltac others_step :=
  first [ apply respects_ret | apply respects_raise | apply respects_gets
        | apply require_rows_others | (apply respects_modify; done)
        | apply respects_bind; [apply _| |intro]
        | apply update_respects_others ]; try apply _.

(** The row a touch of the walk came from. *)
Lemma fifo_walk_source rem rows ft :
  ft ∈ fifo_walk rem rows ->
  exists r, r ∈ rows /\ m_id r = ft_id ft /\ m_slave_volume r = Some (ft_closed_volume ft + ft_slave_volume ft) /\
            0 < ft_closed_volume ft.
Proof.
  revert rem. induction rows as [|r rows IH]; intros rem; simpl; [set_solver|].
  case_match; [set_solver|]. bsimp. case_match; bsimp.
  - intros (r' & ? & ?)%IH. exists r'. set_solver.
  - intros [->|(r' & ? & ?)%IH]%elem_of_cons; [|exists r'; set_solver].
    exists r. simpl. split; [set_solver|]. split; [done|].
    destruct (m_slave_volume r) as [v|]; simpl in *; [|lia]. split; [f_equal; lia|lia].
Qed.

Lemma fifo_rows_elem a p s r :
  r ∈ fifo_rows a p s <-> r ∈ db_mappings s /\ m_slave_account_id r = a /\
                          m_slave_position_id r = Some p /\ m_status r = Active.
Proof.
  unfold fifo_rows. rewrite merge_sort_Permutation, list_elem_of_In, filter_In, <-list_elem_of_In.
  unfold col_eqb. rewrite !andb_true_iff, Z.eqb_eq, !bool_decide_eq_true. tauto.
Qed.

(** Rows are identified by their id. *)
Lemma same_id_same_row s r r' :
  ids_inv s -> r ∈ db_mappings s -> r' ∈ db_mappings s -> m_id r = m_id r' -> r = r'.
Proof.
  intros [Hi _] ???. by eapply (NoDup_fmap_elem m_id).
Qed.

(** The walk's writes in closed form: each touched row gets its new volume. *)
Definition touched_row (t : Z) (touches : list fifo_touch) (r : mapping_row) : mapping_row :=
  match List.find (fun ft => m_id r =? ft_id ft) touches with
  | Some ft => touch t (set_m_status (ft_status ft) (set_m_slave_volume (Some (ft_slave_volume ft)) r))
  | None => r
  end.

Lemma touched_row_id t touches r : m_id (touched_row t touches r) = m_id r.
Proof. unfold touched_row. by case_match. Qed.

Lemma touched_row_other t touches r :
  m_id r ∉ (ft_id <$> touches) -> touched_row t touches r = r.
Proof.
  intros H. unfold touched_row. destruct (List.find _ touches) as [ft|] eqn:E; [|done].
  apply find_some in E as [Hin Heq]. bsimp. rewrite Heq in H. destruct H.
  apply list_elem_of_fmap. exists ft. split; [done|]. by apply list_elem_of_In.
Qed.

Lemma for_each_touch_rows t touches s :
  NoDup (ft_id <$> touches) ->
  db_mappings (exec (for_each (apply_touch t) touches) s) = touched_row t touches <$> db_mappings s.
Proof.
  revert s. induction touches as [|ft touches IH]; intros s Hnd.
  - symmetry. apply list_fmap_id.
  - csimpl in Hnd. apply NoDup_cons in Hnd as [Hnin Hnd].
    change (exec (for_each (apply_touch t) (ft :: touches)) s)
      with (exec (for_each (apply_touch t) touches) (exec (apply_touch t ft) s)).
    rewrite IH by done. unfold apply_touch, exec; simpl. rewrite <-list_fmap_compose.
    apply list_fmap_ext. intros i r _. simpl. unfold touched_row at 2. simpl.
    destruct (m_id r =? ft_id ft) eqn:E; [|done].
    apply touched_row_other. simpl. by apply Z.eqb_eq in E as ->.
Qed.

Lemma fifo_walk_ids_NoDup rem rows :
  NoDup (m_id <$> rows) -> NoDup (ft_id <$> fifo_walk rem rows).
Proof.
  revert rem. induction rows as [|r rows IH]; intros rem; csimpl; [done|].
  rewrite NoDup_cons. intros [Hnin Hnd]. case_match; [apply NoDup_nil_2|].
  case_match; [auto|]. csimpl. apply NoDup_cons. split; [|auto].
  intros (ft & Heq & (r' & Hin & Hid & _)%fifo_walk_source)%list_elem_of_fmap.
  apply Hnin, list_elem_of_fmap. exists r'. split; [congruence|done].
Qed.

Lemma fifo_rows_NoDup a p s : ids_inv s -> NoDup (m_id <$> fifo_rows a p s).
Proof.
  intros Hinv. apply NoDup_fmap_2_strong.
  - intros x y Hx%fifo_rows_elem Hy%fifo_rows_elem. by eapply same_id_same_row; [|apply Hx|apply Hy].
  - unfold fifo_rows. rewrite merge_sort_Permutation. apply NoDup_ListNoDup, List.NoDup_filter.
    apply NoDup_ListNoDup. by eapply NoDup_fmap_1, Hinv.
Qed.

Lemma fifo_walk_NoDup rem a p s :
  ids_inv s -> NoDup (ft_id <$> fifo_walk rem (fifo_rows a p s)).
Proof. intros H. by apply fifo_walk_ids_NoDup, fifo_rows_NoDup. Qed.

Lemma fifo_others a p v s :
  ids_inv s -> same_others a s (exec (reduce_position_mappings_fifo a p v) s).
Proof.
  intros Hinv. unfold reduce_position_mappings_fifo. case_match; [done|].
  change (same_others a s (exec (for_each (apply_touch (db_now s)) (fifo_walk v (fifo_rows a p s)) ;;;
    ret (fifo_walk v (fifo_rows a p s))) s)).
  unfold same_others, others.
  set (l := fifo_walk v (fifo_rows a p s)).
  assert (db_mappings (exec (for_each (apply_touch (db_now s)) l ;;; ret l) s)
          = touched_row (db_now s) l <$> db_mappings s) as ->.
  { rewrite <-for_each_touch_rows by by apply fifo_walk_NoDup.
    unfold exec, bind. by destruct (for_each _ _ _) as [[] ?]. }
  assert (forall r, r ∈ db_mappings s -> m_slave_account_id r <> a ->
                    touched_row (db_now s) l r = r) as Hother.
  { intros r Hr Ha. apply touched_row_other.
    intros (ft & Heq & (r' & (Hr' & Ha' & _)%fifo_rows_elem & Hid & _)%fifo_walk_source)%list_elem_of_fmap.
    assert (r = r') as -> by (eapply same_id_same_row; [done..|congruence]). done. }
  revert Hother. induction (db_mappings s) as [|r rows IH]; intros H'; csimpl; [done|].
  rewrite IH by set_solver. destruct (Z.eqb_spec (m_slave_account_id r) a) as [E|E]; simpl.
  - assert (m_slave_account_id (touched_row (db_now s) l r) = a) as -> by (unfold touched_row; by case_match).
    by rewrite Z.eqb_refl.
  - rewrite H' by set_solver. by apply Z.eqb_neq in E as ->.
Qed.

(** A write for one slave account never touches another account's rows.
    The mapping rows of every other account are exactly what they were, in the
    same order, after any operation that names an account: a client order id,
    position id or order id of another account never reaches across, and
    neither does the oldest-first walk, which updates by row id. *)
Theorem mapping_ownership o a s :
  op_account o = Some a -> mappings_inv s -> others a (exec (run_op o) s) = others a s.
Proof.
  intros Ha Hinv. change (same_others a s (exec (run_op o) s)).
  destruct o; simpl in Ha; simplify_eq; simpl.
  - unfold create_position_mapping, exec, bind, gets. destruct (coid_taken _ _); [done|].
    by apply insert_others.
  - unfold create_order_mapping, exec. cbn [bind gets]. destruct (coid_taken _ _); [done|].
    by apply insert_others.
  - revert s Hinv. intros s _. revert s. unfold activate_position_mapping. repeat others_step; try done.
    intros r H; unfold owned_by in H; bsimp; done.
  - revert s Hinv. intros s _. revert s. unfold reduce_position_mapping. repeat others_step; try done.
    + intros r H. bsimp; done.
    + intros r. unfold reduce_row. by case_match.
  - pose proof (fifo_others a pos closed s (mappings_ids s Hinv)) as H.
    unfold exec, bind in *. by destruct (reduce_position_mappings_fifo _ _ _ _) as [[] ?].
  - revert s Hinv. intros s _. revert s. unfold fail_mapping. repeat others_step; try done.
    intros r H; unfold owned_by in H; bsimp; done.
  - revert s Hinv. intros s _. revert s. unfold activate_order_mapping. repeat others_step; try done.
    intros r H; unfold owned_by in H; bsimp; done.
  - revert s Hinv. intros s _. revert s. unfold close_order_mapping. repeat others_step; try done.
    intros r H; unfold active_order in H; bsimp; done.
  - revert s Hinv. intros s _. revert s. unfold link_pending_fill. repeat others_step; try done.
    intros r H; bsimp; done.
  - revert s Hinv. intros s _. revert s. unfold activate_pending_fill. repeat others_step; try done.
    intros r H; unfold active_order in H; bsimp; done.
  - by apply insert_others.
  - revert s Hinv. intros s _. revert s. unfold fail_stale_mt5_opens. repeat others_step; try done.
    case_match; repeat others_step; try done. intros r H'; bsimp; done.
Qed.

Definition demo_db : db := run_ops demo_ops (empty_db 0).

Lemma demo_db_inv : mappings_inv demo_db.
Proof. apply run_ops_inv; [|apply empty_db_inv]. unfold demo_ops. repeat constructor; simpl; lia. Qed.

(** Account 12 closing "its" position 901 does not reach account 11's. *)
Lemma mapping_ownership_witness :
  others 12 (exec (run_op (OpReduceFifo 12 901 1000)) demo_db) = others 12 demo_db /\
  length (others 12 demo_db) = 2%nat.
Proof.
  split; [|vm_compute; reflexivity].
  apply (mapping_ownership (OpReduceFifo 12 901 1000) 12 demo_db); [reflexivity|exact demo_db_inv].
Defined.

(** ** The oldest-first reduction *)

#[export] Instance older_total : Total older.
Proof. intros x y. unfold older. lia. Qed.

(** What one row contributes to the volume held on a slave position. *)
Definition held (a p : Z) (r : mapping_row) : Z :=
  if (m_slave_account_id r =? a) && col_eqb (m_slave_position_id r) p && bool_decide (m_status r = Active)
  then default 0 (m_slave_volume r) else 0.

Definition position_held (a p : Z) (s : db) : Z := Zsum (held a p <$> db_mappings s).

Lemma position_held_rows a p s : position_held a p s = Zsum (held a p <$> fifo_rows a p s).
Proof.
  unfold position_held, fifo_rows. rewrite merge_sort_Permutation. apply Zsum_filter.
  intros r _ H. unfold held. by rewrite H.
Qed.

Lemma held_volume a p r :
  m_slave_account_id r = a -> m_slave_position_id r = Some p -> m_status r = Active ->
  held a p r = default 0 (m_slave_volume r).
Proof. intros <- Hp Hs. unfold held, col_eqb. rewrite Z.eqb_refl, !bool_decide_eq_true_2; done. Qed.

Lemma held_set a p t st v r :
  m_slave_account_id r = a -> m_slave_position_id r = Some p ->
  held a p (touch t (set_m_status st (set_m_slave_volume (Some v) r))) =
    if bool_decide (st = Active) then v else 0.
Proof.
  intros <- Hp. unfold held, touch, col_eqb; simpl.
  by rewrite Z.eqb_refl, Hp, (bool_decide_eq_true_2 (Some p = Some p)).
Qed.

(** The loop, row by row: the first rows give up what they hold until the
    closed volume is used up. *)
Lemma fifo_walk_held a p t rem rows :
  Forall (fun r => m_slave_account_id r = a /\ m_slave_position_id r = Some p /\
                   m_status r = Active /\ 0 <= default 0 (m_slave_volume r)) rows ->
  NoDup (m_id <$> rows) -> 0 <= rem ->
  Zsum (ft_closed_volume <$> fifo_walk rem rows) = Z.min rem (Zsum (held a p <$> rows)) /\
  Zsum (held a p <$> (touched_row t (fifo_walk rem rows) <$> rows)) =
    Zsum (held a p <$> rows) - Z.min rem (Zsum (held a p <$> rows)).
Proof.
  intros Hrows. revert rem. induction Hrows as [|r rows (Ha & Hp & Hs & Hv) Hrows IH]; intros rem Hnd Hrem;
    csimpl in *; [lia|].
  apply NoDup_cons in Hnd as [Hnin Hnd].
  assert (0 <= Zsum (held a p <$> rows)) as Hpos.
  { apply Zsum_nonneg, Forall_fmap. eapply Forall_impl; [exact Hrows|].
    intros r' (? & ? & ? & ?). simpl. by rewrite held_volume. }
  rewrite (held_volume a p r) by done.
  case_match eqn:E1; bsimp.
  { csimpl. rewrite (list_fmap_id rows : touched_row t [] <$> rows = rows).
    change (touched_row t [] r) with r. rewrite held_volume by done. lia. }
  case_match eqn:E2; bsimp.
  { destruct (IH rem Hnd Hrem) as [IH1 IH2]. rewrite IH1, IH2.
    rewrite touched_row_other; [rewrite held_volume by done; lia|].
    intros (ft & Heq & (r' & Hin & Hid & _)%fifo_walk_source)%list_elem_of_fmap.
    apply Hnin, list_elem_of_fmap. exists r'. split; [congruence|done]. }
  assert (0 <= Z.min (default 0 (m_slave_volume r)) rem <= rem) as Htake by lia.
  remember (Z.min (default 0 (m_slave_volume r)) rem) as take eqn:Hdef in *.
  destruct (IH (rem - take) Hnd ltac:(lia)) as [IH1 IH2]. csimpl. rewrite IH1.
  set (fs := fifo_walk (rem - take) rows) in *.
  match goal with |- context [touched_row t (?ft :: fs)] => set (f0 := ft) end.
  assert (touched_row t (f0 :: fs) <$> rows = touched_row t fs <$> rows) as ->.
  { apply list_fmap_ext. intros i r' Hr'. unfold touched_row. simpl.
    destruct (Z.eqb_spec (m_id r') (m_id r)) as [He|]; [|done]. destruct Hnin.
    apply list_elem_of_fmap. exists r'. split; [done|]. by eapply list_elem_of_lookup_2. }
  rewrite IH2. unfold touched_row at 1. simpl. rewrite Z.eqb_refl.
  rewrite held_set by done.
  destruct (default 0 (m_slave_volume r) - take <=? 0) eqn:E3; bsimp; simpl; lia.
Qed.

(** Only the last touched row can keep volume. *)
Lemma fifo_walk_oldest rem rows pre ft post :
  fifo_walk rem rows = pre ++ ft :: post -> post <> [] -> ft_slave_volume ft = 0.
Proof.
  revert rem pre. induction rows as [|r rows IH]; intros rem pre; simpl; [by destruct pre|].
  case_match; [by destruct pre|]. bsimp. case_match; [by apply IH|]. bsimp.
  destruct pre as [|f pre]; simpl; intros Heq Hpost; simplify_eq; [simpl|by eapply IH].
  destruct (decide (default 0 (m_slave_volume r) - Z.min (default 0 (m_slave_volume r)) rem = 0)) as [|Hne]; [done|].
  replace (rem - Z.min (default 0 (m_slave_volume r)) rem) with 0 in Hpost by lia.
  by destruct rows.
Qed.

Lemma for_each_touch_ok t fs s : value (for_each (apply_touch t) fs) s = Ok tt.
Proof. revert s. induction fs as [|ft fs IH]; intros s; [done|]. apply IH. Qed.

(** The reduction is the walk, and it updates exactly the touched rows. *)
Lemma reduce_fifo_run a p v s :
  mappings_inv s -> 0 <= v ->
  exists s',
    reduce_position_mappings_fifo a p v s = (Ok (fifo_walk v (fifo_rows a p s)), s') /\
    db_mappings s' = touched_row (db_now s) (fifo_walk v (fifo_rows a p s)) <$> db_mappings s.
Proof.
  intros Hinv Hv. unfold reduce_position_mappings_fifo. case_match eqn:E; bsimp.
  { exists s. replace v with 0 by lia.
    assert (fifo_walk 0 (fifo_rows a p s) = []) as -> by by destruct (fifo_rows a p s).
    split; [done|]. symmetry. apply (list_fmap_id (db_mappings s)). }
  rewrite <-for_each_touch_rows by by apply fifo_walk_NoDup, mappings_ids.
  unfold exec, bind, gets, ret.
  pose proof (for_each_touch_ok (db_now s) (fifo_walk v (fifo_rows a p s)) s) as Hok.
  unfold value in Hok.
  destruct (for_each _ _ _) as [r s'] eqn:E'; simpl in *. subst r. by exists s'.
Qed.

(** The volume left on the position is what the walk leaves on its rows. *)
Lemma position_held_touched a p t fs s s' :
  mappings_inv s ->
  db_mappings s' = touched_row t fs <$> db_mappings s ->
  (forall ft, ft ∈ fs -> exists r, r ∈ fifo_rows a p s /\ m_id r = ft_id ft) ->
  position_held a p s' = Zsum (held a p <$> (touched_row t fs <$> fifo_rows a p s)).
Proof.
  intros Hinv Hs' Hsrc. unfold position_held. rewrite Hs', <-!list_fmap_compose.
  unfold fifo_rows. rewrite merge_sort_Permutation. apply Zsum_filter.
  intros r Hr Hno. simpl. rewrite touched_row_other; [unfold held; by rewrite Hno|].
  intros (ft & Heq & (r' & Hr' & Hid)%Hsrc)%list_elem_of_fmap.
  pose proof Hr' as (Hin & Ha & Hp & Hact)%fifo_rows_elem.
  assert (r = r') as -> by (eapply same_id_same_row; [by apply mappings_ids|done..|congruence]).
  unfold col_eqb in Hno. rewrite Ha, Z.eqb_refl, !bool_decide_eq_true_2 in Hno; done.
Qed.

(** C7: the oldest-first reduction conserves volume.  Reporting [v] closed on
    a slave position reduces what its mappings hold by exactly [min v held],
    the touched rows report that much between them, each touched row's old
    volume is what it gave up plus what it keeps, and only the last touched
    row (oldest first) can keep any. *)
Theorem fifo_reduction_conserves a p v s :
  mappings_inv s -> 0 <= v ->
  exists touched,
    value (reduce_position_mappings_fifo a p v) s = Ok touched /\
    Zsum (ft_closed_volume <$> touched) = Z.min v (position_held a p s) /\
    position_held a p (exec (reduce_position_mappings_fifo a p v) s)
      = position_held a p s - Z.min v (position_held a p s) /\
    Sorted older (fifo_rows a p s) /\
    touched = fifo_walk v (fifo_rows a p s) /\
    (forall pre ft post, touched = pre ++ ft :: post -> post <> [] -> ft_slave_volume ft = 0).
Proof.
  intros Hinv Hv. set (rows := fifo_rows a p s).
  assert (Forall (fun r => m_slave_account_id r = a /\ m_slave_position_id r = Some p /\
            m_status r = Active /\ 0 <= default 0 (m_slave_volume r)) rows) as Hrows.
  { apply Forall_forall. intros r (Hin & ? & ? & ?)%fifo_rows_elem. repeat (split; [done|]).
    pose proof (inv_rows _ Hinv) as Hok. rewrite Forall_forall in Hok.
    destruct (Hok r Hin) as (_ & _ & Hvol). destruct (m_slave_volume r); simpl; [by apply Hvol|done]. }
  destruct (fifo_walk_held a p (db_now s) v rows Hrows) as [H1 H2];
    [by apply fifo_rows_NoDup, mappings_ids|done|].
  destruct (reduce_fifo_run a p v s Hinv Hv) as (s' & Hrun & Hs').
  exists (fifo_walk v rows). unfold value, exec. rewrite Hrun; simpl.
  rewrite (position_held_touched a p (db_now s) (fifo_walk v rows) s s' Hinv Hs').
  2: { intros ft (r & ? & ? & _)%fifo_walk_source. eauto. }
  rewrite position_held_rows. fold rows.
  repeat (split; [done|]). split; [apply Sorted_merge_sort, _|]. split; [done|].
  apply fifo_walk_oldest.
Qed.

Lemma fifo_reduction_conserves_witness :
  exists touched,
    value (reduce_position_mappings_fifo 11 901 30) demo_db = Ok touched /\
    Zsum (ft_closed_volume <$> touched) = 30 /\
    position_held 11 901 (exec (reduce_position_mappings_fifo 11 901 30) demo_db) = 60.
Proof.
  destruct (fifo_reduction_conserves 11 901 30 demo_db demo_db_inv ltac:(lia))
    as (touched & H1 & H2 & H3 & _).
  exists touched. split; [exact H1|]. split; [exact H2|exact H3].
Defined.
