(* ===== verification/Throttle.v ===== *)
(** * The token bucket: [copier/engine/throttle.py]

    [TokenBucket] over an abstract number type, so that the same code runs on
    IEEE doubles (as the program does) and on exact rationals (where its rate
    bound is proved).  A [Deferred] is an identifier; [granted] records the
    callbacks in the order they fired; [pending] is the due time of the
    scheduled [_drain] call.  Callbacks are observed, not re-entered. *)

From S2P Require Import Prelude PyFloat.
From Stdlib Require Import QArith Lqa.
Open Scope Z_scope.

(** ** Definitions *)

Class TimeNum (T : Type) := {
  n_add : T -> T -> T;
  n_sub : T -> T -> T;
  n_mul : T -> T -> T;
  n_div : T -> T -> T;
  n_leb : T -> T -> bool;
  n_ltb : T -> T -> bool;
  n_zero : T;
  n_one : T
}.

#[export] Instance float_num : TimeNum float64 := {|
  n_add := fadd; n_sub := fsub; n_mul := fmul; n_div := fdiv; n_leb := fleb;
  n_ltb := fltb;  n_zero := fzero; n_one := f_of_Z 1 |}.

#[export] Instance Q_num : TimeNum Q := {|
  n_add := Qplus; n_sub := Qminus; n_mul := Qmult; n_div := Qdiv; n_leb := Qle_bool;
  n_ltb := (fun a b => negb (Qle_bool b a));  n_zero := 0%Q; n_one := 1%Q |}.

Section TokenBucket.
Context {T : Type} `{!TimeNum T}.

Record TokenBucket := {
  tb_rate : T;
  tb_capacity : T;
  tb_tokens : T;
  tb_last : T;
  tb_waiters : list nat;
  tb_pending_call : option T;
  tb_granted : list nat
}.

Definition tb_init (rate capacity now : T) : TokenBucket :=
  {| tb_rate := rate; tb_capacity := capacity; tb_tokens := capacity; tb_last := now;
     tb_waiters := []; tb_pending_call := None; tb_granted := [] |}.

(** [min(a, b)] and [max(a, b)] *)
Definition n_min (a b : T) : T := if n_ltb b a then b else a.
Definition n_max (a b : T) : T := if n_ltb a b then b else a.

Definition _schedule (now : T) (b : TokenBucket) : TokenBucket :=
  match tb_pending_call b with
  | Some _ => b
  | None =>
      let time_until_next :=
        n_max (n_sub (n_add (tb_last b) (n_div n_one (tb_rate b))) now) n_zero in
      {| tb_rate := tb_rate b; tb_capacity := tb_capacity b; tb_tokens := tb_tokens b;
         tb_last := tb_last b; tb_waiters := tb_waiters b;
         tb_pending_call := Some (n_add now time_until_next); tb_granted := tb_granted b |}
  end.

Definition refill (now : T) (b : TokenBucket) : TokenBucket :=
  {| tb_rate := tb_rate b; tb_capacity := tb_capacity b;
     tb_tokens := n_min (tb_capacity b)
       (n_add (tb_tokens b) (n_mul (n_sub now (tb_last b)) (tb_rate b)));
     tb_last := now; tb_waiters := tb_waiters b; tb_pending_call := tb_pending_call b;
     tb_granted := tb_granted b |}.

Definition acquire (now : T) (d : nat) (b : TokenBucket) : TokenBucket :=
  match tb_waiters b with
  | [] =>
      let b := refill now b in
      if n_leb n_one (tb_tokens b)
      then {| tb_rate := tb_rate b; tb_capacity := tb_capacity b;
              tb_tokens := n_sub (tb_tokens b) n_one; tb_last := tb_last b;
              tb_waiters := []; tb_pending_call := tb_pending_call b;
              tb_granted := tb_granted b ++ [d] |}
      else _schedule now
           {| tb_rate := tb_rate b; tb_capacity := tb_capacity b; tb_tokens := tb_tokens b;
              tb_last := tb_last b; tb_waiters := [d]; tb_pending_call := tb_pending_call b;
              tb_granted := tb_granted b |}
  | ws =>
      _schedule now
        {| tb_rate := tb_rate b; tb_capacity := tb_capacity b; tb_tokens := tb_tokens b;
           tb_last := tb_last b; tb_waiters := ws ++ [d]; tb_pending_call := tb_pending_call b;
           tb_granted := tb_granted b |}
  end.

(** The release loop: the waiters left, the watermark and the ones called. *)
Fixpoint release (rate : T) (ws : list nat) (last budget : T) : list nat * T * list nat :=
  match ws with
  | [] => ([], last, [])
  | w :: ws' =>
      if n_leb n_one budget
      then let '(rest, last', called) :=
             release rate ws' (n_add last (n_div n_one rate)) (n_sub budget n_one) in
           (rest, last', w :: called)
      else (ws, last, [])
  end.

Definition _drain (now : T) (b : TokenBucket) : TokenBucket :=
  let budget := n_mul (n_sub now (tb_last b)) (tb_rate b) in
  let '(rest, last', called) := release (tb_rate b) (tb_waiters b) (tb_last b) budget in
  let b' := {| tb_rate := tb_rate b; tb_capacity := tb_capacity b; tb_tokens := tb_tokens b;
               tb_last := last'; tb_waiters := rest; tb_pending_call := None;
               tb_granted := tb_granted b ++ called |} in
  match rest with
  | [] => b'
  | _ => _schedule now b'
  end.

(** [d.cancel()]: the canceller takes the waiter out of the queue. *)
Fixpoint remove_first (d : nat) (ws : list nat) : list nat :=
  match ws with
  | [] => []
  | w :: ws' => if decide (d = w) then ws' else w :: remove_first d ws'
  end.

Definition cancel (d : nat) (b : TokenBucket) : TokenBucket :=
  {| tb_rate := tb_rate b; tb_capacity := tb_capacity b; tb_tokens := tb_tokens b;
     tb_last := tb_last b; tb_waiters := remove_first d (tb_waiters b);
     tb_pending_call := tb_pending_call b; tb_granted := tb_granted b |}.

Inductive bucket_event := EvAcquire (d : nat) | EvFire | EvCancel (d : nat).

(** What the reactor does at time [now]: it fires the pending call only when
    it is due. *)
Definition bucket_step (now : T) (e : bucket_event) (b : TokenBucket) : TokenBucket :=
  match e with
  | EvAcquire d => acquire now d b
  | EvCancel d => cancel d b
  | EvFire => match tb_pending_call b with
              | Some due => if n_leb due now then _drain now b else b
              | None => b
              end
  end.

Definition bucket_run (evs : list (T * bucket_event)) (b : TokenBucket) : TokenBucket :=
  fold_left (fun b te => bucket_step te.1 te.2 b) evs b.
End TokenBucket.
Arguments TokenBucket : clear implicits.

(** Runs of the program's own arithmetic: two immediate grants of a bucket of
    two, the third waits for the drain call, which the first microsecond after
    1/40 s releases. *)
Example bucket_runs_on_floats :
  let f n := match int_truediv n 1000 with Some x => x | None => fzero end in
  let b := bucket_run [(f 0, EvAcquire 1); (f 0, EvAcquire 2); (f 0, EvAcquire 3);
                       (f 10, EvFire); (f 26, EvFire)]
             (tb_init (f_of_Z 40) (f_of_Z 2) (f 0)) in
  (tb_granted b, tb_waiters b, tb_pending_call b) = ([1; 2; 3]%nat, [], None).
Proof. vm_compute. reflexivity. Qed.

(** ** The rate bound, on exact numbers *)

Section rational.
Open Scope Q_scope.
Implicit Types (b : TokenBucket Q) (now : Q).

Lemma Qle_bool_false x y : Qle_bool x y = false -> y < x.
Proof.
  intros H. apply Qnot_le_lt. intros Hle. apply Qle_bool_iff in Hle. congruence.
Qed.

Lemma n_min_Q (x y : Q) : n_min x y <= x /\ n_min x y <= y.
Proof.
  unfold n_min; simpl. destruct (Qle_bool x y) eqn:E; simpl.
  - apply Qle_bool_iff in E. lra.
  - apply Qle_bool_false in E. lra.
Qed.

Lemma n_max_Q (x y : Q) : x <= n_max x y /\ y <= n_max x y /\ (n_max x y == x \/ n_max x y == y).
Proof.
  unfold n_max; simpl. destruct (Qle_bool y x) eqn:E; simpl.
  - apply Qle_bool_iff in E. lra.
  - apply Qle_bool_false in E. lra.
Qed.

Definition count (l : list nat) : Q := inject_Z (Z.of_nat (length l)).

Lemma count_app l k : count (l ++ k) == count l + count k.
Proof. unfold count. rewrite length_app, Nat2Z.inj_add, inject_Z_plus. reflexivity. Qed.

(** What holds of a bucket created at [t0] at every later moment [now]. *)
Record bucket_inv (rate cap t0 now : Q) b : Prop := {
  bi_rate : tb_rate b = rate;
  bi_capacity : tb_capacity b = cap;
  bi_tokens : 0 <= tb_tokens b <= cap;
  bi_last : t0 <= tb_last b <= now;
  bi_budget : count (tb_granted b) + tb_tokens b <= cap + rate * (tb_last b - t0);
  bi_pending : tb_waiters b <> [] ->
    exists due, tb_pending_call b = Some due
}.

(** One token's time step. *)
Lemma step_pos (rate : Q) : 0 < rate -> exists q, n_div n_one rate = q /\ rate * q == 1 /\ 0 < q.
Proof.
  intros H. exists (1 / rate). split; [done|]. split; [field; lra|]. apply Qlt_shift_div_l; lra.
Qed.

Context (rate cap t0 : Q) (Hrate : 0 < rate) (Hcap : 0 <= cap).

Lemma release_spec ws last budget now rest last' called :
  release rate ws last budget = (rest, last', called) ->
  budget <= (now - last) * rate -> last <= now ->
  ws = called ++ rest /\ last <= last' <= now /\ rate * (last' - last) == count called.
Proof.
  revert last budget rest last' called.
  induction ws as [|w ws IH]; intros last budget rest last' called; simpl.
  { intros [= <- <- <-] _ Hl. split; [done|]. split; [lra|]. change (count []) with 0. lra. }
  destruct (Qle_bool 1 budget) eqn:E.
  - destruct (release _ ws _ _) as [[r l'] c] eqn:E'. intros [= <- <- <-] Hb Hl.
    apply Qle_bool_iff in E.
    destruct (step_pos rate Hrate) as (q & Hq & Hinv & Hpos). change (1 / rate) with (n_div n_one rate) in E'. rewrite Hq in E'.
    assert (last + q <= now) as Hstep by (apply (Qmult_le_r _ _ rate); lra).
    destruct (IH _ _ _ _ _ E') as (-> & Hl' & Hc); [lra|lra|].
    split; [done|]. split; [lra|].
    change (w :: c) with ([w] ++ c). rewrite count_app, <-Hc. change (count [w]) with 1. lra.
  - intros [= <- <- <-] _ Hl. split; [done|]. split; [lra|]. change (count []) with 0. lra.
Qed.

Lemma schedule_inv now b :
  bucket_inv rate cap t0 now b -> bucket_inv rate cap t0 now (_schedule now b).
Proof. intros [????? Hp]. unfold _schedule. destruct (tb_pending_call b) eqn:E; split; simpl in *; eauto. Qed.

Lemma inv_later now now' b :
  now <= now' -> bucket_inv rate cap t0 now b -> bucket_inv rate cap t0 now' b.
Proof. intros H [??? Hl ??]. split; [done..|lra|done|done]. Qed.

Lemma refill_inv now b :
  bucket_inv rate cap t0 now b -> bucket_inv rate cap t0 now (refill now b).
Proof.
  intros [Hr Hc Ht Hl Hb Hp].
  pose proof (n_min_Q (tb_capacity b) (tb_tokens b + (now - tb_last b) * tb_rate b)) as [Hm1 Hm2].
  assert (0 <= (now - tb_last b) * tb_rate b) by (rewrite Hr; apply Qmult_le_0_compat; lra).
  assert (0 <= n_min (tb_capacity b) (tb_tokens b + (now - tb_last b) * tb_rate b)) as Hm3.
  { unfold n_min. destruct (n_ltb _ _); rewrite ?Hc; lra. }
  split; simpl in *; rewrite ?Hc, ?Hr in *; [done|done|lra|lra|lra|done].
Qed.

Lemma acquire_inv now d b :
  bucket_inv rate cap t0 now b -> bucket_inv rate cap t0 now (acquire now d b).
Proof.
  intros Hinv. unfold acquire. destruct (tb_waiters b) as [|w ws] eqn:Ew.
  - pose proof (refill_inv now b Hinv) as [Hr Hc Ht Hl Hb Hp].
    destruct (n_leb n_one (tb_tokens (refill now b))) eqn:E.
    + apply Qle_bool_iff in E. change (1 <= tb_tokens (refill now b)) in E. split; cbn [tb_rate tb_capacity tb_tokens tb_last tb_waiters
        tb_pending_call tb_granted]; [done|done| | | |done]; change (n_sub ?x n_one) with (x - 1).
      * lra.
      * lra.
      * rewrite count_app. change (count [d]) with 1. lra.
    + unfold _schedule; cbn [tb_pending_call].
      destruct (tb_pending_call (refill now b)) eqn:E'; split; simpl; eauto.
  - destruct Hinv as [Hr Hc Ht Hl Hb Hp].
    destruct Hp as (due & Hdue); [by rewrite Ew|].
    unfold _schedule; cbn [tb_pending_call]. rewrite Hdue. split; simpl; eauto.
Qed.

Lemma drain_inv now b :
  bucket_inv rate cap t0 now b -> bucket_inv rate cap t0 now (_drain now b).
Proof.
  intros [Hr Hc Ht Hl Hb Hp]. unfold _drain. rewrite Hr.
  destruct (release rate _ _ _) as [[rest last'] called] eqn:E.
  destruct (release_spec _ _ _ now _ _ _ E) as (Hws & Hl' & Hcount); [apply Qle_refl|lra|].
  assert (count (tb_granted b ++ called) + tb_tokens b <= cap + rate * (last' - t0)) as Hb'.
  { rewrite count_app, <-Hcount. lra. }
  destruct rest as [|w rest]; [split; simpl; [done|done|done|lra|done|done]|].
  unfold _schedule; cbn [tb_pending_call].
  split; simpl; [done|done|done|lra|done|eauto].
Qed.

Lemma remove_first_nil d ws : remove_first d ws <> [] -> ws <> [].
Proof. by destruct ws. Qed.

Lemma step_inv now e b :
  bucket_inv rate cap t0 now b -> bucket_inv rate cap t0 now (bucket_step now e b).
Proof.
  intros Hinv. destruct e; simpl; [by apply acquire_inv| |].
  - destruct (tb_pending_call b); [|done]. case_match; [by apply drain_inv|done].
  - destruct Hinv as [Hr Hc Ht Hl Hb Hp]. split; simpl; eauto using remove_first_nil.
Qed.

(** A run on a clock that does not go back. *)
Inductive clocked : Q -> list (Q * bucket_event) -> Q -> Prop :=
  | clocked_nil t : clocked t [] t
  | clocked_cons t t' te evs :
      t <= te.1 -> clocked te.1 evs t' -> clocked t (te :: evs) t'.

Lemma run_inv t evs t' b :
  clocked t evs t' -> bucket_inv rate cap t0 t b -> bucket_inv rate cap t0 t' (bucket_run evs b).
Proof.
  intros Hc. revert b. induction Hc as [t|t t' [te e] evs Hle Hc IH]; intros b Hinv; simpl in *; [done|].
  apply IH, step_inv. by eapply inv_later.
Qed.

Lemma init_inv : bucket_inv rate cap t0 t0 (tb_init rate cap t0).
Proof. split; simpl; [done|done|lra|lra|change (count []) with 0; lra|done]. Qed.
End rational.

(** On exact numbers the throttle never exceeds its rate: over any sequence
    of acquires, cancellations and timer firings on a clock that does not go
    back, the sends granted since the bucket was made at [t0] are at most the
    burst capacity plus the rate times the elapsed time.  The program computes
    in doubles, which round: [rounding_grants_early]. *)
Theorem throttle_rate_bound (rate cap t0 t : Q) (evs : list (Q * bucket_event)) :
  (0 < rate)%Q -> (0 <= cap)%Q -> clocked t0 evs t ->
  let b := bucket_run evs (tb_init rate cap t0) in
  (count (tb_granted b) <= cap + rate * (t - t0))%Q /\
  (tb_waiters b <> [] -> exists due, tb_pending_call b = Some due).
Proof.
  intros Hrate Hcap Hc b.
  destruct (run_inv rate cap t0 Hrate Hcap t0 evs t _ Hc (init_inv rate cap t0 Hcap))
    as [_ _ Ht Hl Hb Hp]. fold b in Ht, Hl, Hb, Hp.
  split; [|done].
  assert (rate * (tb_last b - t0) <= rate * (t - t0))%Q by (apply Qmult_le_l; lra). lra.
Qed.

Definition demo_bucket_events : list (Q * bucket_event) :=
  [(0, EvAcquire 1); (0, EvAcquire 2); (0, EvAcquire 3); (1 # 80, EvFire); (1 # 40, EvFire)]%Q.

Lemma throttle_rate_bound_witness :
  (count (tb_granted (bucket_run demo_bucket_events (tb_init 40 2 0))) <= 2 + 40 * ((1 # 40) - 0))%Q /\
  tb_granted (bucket_run demo_bucket_events (tb_init 40 2 0)%Q) = [1; 2; 3]%nat.
Proof.
  split; [|vm_compute; reflexivity].
  apply (throttle_rate_bound 40 2 0 (1 # 40) demo_bucket_events); [lra|lra|].
  unfold demo_bucket_events. repeat (constructor; [simpl; lra|]). constructor.
Defined.

(** In the program's doubles a refill may round up to a whole token: a bucket
    of one at 40 a second grants its second send after 0.024999999999999998 s,
    a rounding error ahead of 1/40 s. *)
Example rounding_grants_early :
  let f n d := match int_truediv n d with Some x => x | None => fzero end in
  let t := f 24999999999999998 (10 ^ 18) in
  let b := bucket_run [(f 0 1, EvAcquire 1); (f 5 1000, EvAcquire 2); (f 5 1000, EvCancel 2);
                       (f 20 1000, EvAcquire 3); (f 20 1000, EvCancel 3);
                       (f 225 10000, EvAcquire 4); (f 225 10000, EvCancel 4); (t, EvAcquire 5)]
             (tb_init (f_of_Z 40) (f_of_Z 1) (f 0 1)) in
  tb_granted b = [1; 5]%nat /\ fltb t (f 1 40) = true.
Proof. vm_compute. split; reflexivity. Qed.

(** ** Order and progress, on any number type *)

(** Who asked, in order of asking. *)
Fixpoint asked {T} (evs : list (T * bucket_event)) : list nat :=
  match evs with
  | [] => []
  | (_, EvAcquire d) :: evs' => d :: asked evs'
  | _ :: evs' => asked evs'
  end.

Section fifo.
Context {T : Type} `{!TimeNum T}.
Implicit Types (b : TokenBucket T).

Definition served b : list nat := tb_granted b ++ tb_waiters b.

Lemma release_split rate ws last budget rest last' called :
  release (T:=T) rate ws last budget = (rest, last', called) -> ws = called ++ rest.
Proof.
  revert last budget rest last' called.
  induction ws as [|w ws IH]; intros last budget rest last' called; simpl; [by intros [= <- <- <-]|].
  case_match; [|by intros [= <- <- <-]].
  destruct (release _ ws _ _) as [[r l'] c] eqn:E'. intros [= <- <- <-].
  simpl. f_equal. by eapply IH.
Qed.

(** The budget after [k] tokens *)
Fixpoint spent (k : nat) (budget : T) : T := match k with O => budget | S k' => spent k' (n_sub budget n_one) end.

(** [k] of [ws] are released: one for each whole token of the budget. *)
Definition released (k : nat) (ws : list nat) (budget : T) : Prop :=
  (forall i, (i < k)%nat -> n_leb n_one (spent i budget) = true) /\
  (drop k ws = [] \/ n_leb n_one (spent k budget) = false).

Lemma release_count rate ws last budget rest last' called :
  release (T:=T) rate ws last budget = (rest, last', called) ->
  exists k, called = take k ws /\ rest = drop k ws /\ released k ws budget.
Proof.
  revert last budget rest last' called.
  induction ws as [|w ws IH]; intros last budget rest last' called; simpl.
  { intros [= <- _ <-]. exists 0%nat. split_and!; [done|done|]. split; [lia|by left]. }
  destruct (n_leb n_one budget) eqn:Hb.
  - destruct (release _ ws _ _) as [[r l'] c] eqn:E'. intros [= <- _ <-].
    apply IH in E' as (k & -> & -> & Hk & Hend). exists (S k). split_and!; [done|done|]. split; [|done].
    intros [|i] Hi; simpl; [done|]. apply Hk. lia.
  - intros [= <- _ <-]. exists 0%nat. split_and!; [done|done|]. split; [lia|by right].
Qed.

Lemma schedule_served now b : served (_schedule now b) = served b.
Proof. unfold _schedule. by case_match. Qed.

Lemma acquire_served now d b : served (acquire now d b) = served b ++ [d].
Proof.
  unfold acquire. destruct (tb_waiters b) as [|w ws] eqn:Ew.
  - case_match; [|rewrite schedule_served]; unfold served; simpl; rewrite Ew, ?app_nil_r; done.
  - rewrite schedule_served. unfold served; simpl. by rewrite Ew, <-app_assoc.
Qed.

Lemma drain_served now b : served (_drain now b) = served b.
Proof.
  unfold _drain. destruct (release _ _ _ _) as [[rest last'] called] eqn:E.
  apply release_split in E.
  assert (served {| tb_rate := tb_rate b; tb_capacity := tb_capacity b; tb_tokens := tb_tokens b;
               tb_last := last'; tb_waiters := rest; tb_pending_call := None;
               tb_granted := tb_granted b ++ called |} = served b) as Hs.
  { unfold served; simpl. by rewrite E, <-app_assoc. }
  destruct rest; [done|]. by rewrite schedule_served.
Qed.

Lemma drain_releases now b :
  exists k, tb_granted (_drain now b) = tb_granted b ++ take k (tb_waiters b) /\
    tb_waiters (_drain now b) = drop k (tb_waiters b) /\
    released k (tb_waiters b) (n_mul (n_sub now (tb_last b)) (tb_rate b)).
Proof.
  unfold _drain. destruct (release _ _ _ _) as [[rest last'] called] eqn:E.
  apply release_count in E as (k & -> & -> & Hk). exists k.
  assert (forall now b, tb_granted (_schedule now b) = tb_granted b /\ tb_waiters (_schedule now b) = tb_waiters b) as Hs
    by (intros; unfold _schedule; by case_match).
  destruct (drop k (tb_waiters b)) eqn:Ed; [done|]. split; [apply Hs|]. split; [by rewrite (proj2 (Hs _ _))|done].
Qed.

Lemma remove_first_sublist d ws : remove_first d ws `sublist_of` ws.
Proof. induction ws as [|w ws IH]; simpl; [done|]. case_decide; [by apply sublist_cons|by apply sublist_skip]. Qed.

Lemma remove_first_other d d' ws : d <> d' -> d ∈ ws -> d ∈ remove_first d' ws.
Proof. intros Hne. induction ws as [|w ws IH]; simpl; [done|]. case_decide; set_solver. Qed.

Lemma remove_first_gone d ws : NoDup ws -> d ∉ remove_first d ws.
Proof.
  induction ws as [|w ws IH]; simpl; [set_solver|]. rewrite NoDup_cons. intros [Hw Hnd].
  case_decide as E; [by subst|]. specialize (IH Hnd). set_solver.
Qed.

Lemma fire_served now b : served (bucket_step now EvFire b) = served b.
Proof. simpl. destruct (tb_pending_call b); [|done]. case_match; [by rewrite drain_served|done]. Qed.

Lemma step_sublist now e b : served (bucket_step now e b) `sublist_of` served b ++ asked [(now, e)].
Proof.
  destruct e as [d| |d].
  - simpl. by rewrite acquire_served.
  - by rewrite fire_served, app_nil_r.
  - simpl. rewrite app_nil_r. unfold served; simpl. apply sublist_app; [done|apply remove_first_sublist].
Qed.

Lemma asked_app (evs evs' : list (T * bucket_event)) : asked (evs ++ evs') = asked evs ++ asked evs'.
Proof. induction evs as [|[? [d| |]] evs IH]; simpl; congruence. Qed.

Lemma run_app evs evs' b : bucket_run (evs ++ evs') b = bucket_run evs' (bucket_run evs b).
Proof. apply fold_left_app. Qed.

Lemma run_sublist evs b : served (bucket_run evs b) `sublist_of` served b ++ asked evs.
Proof.
  induction evs as [|[now e] evs IH] using rev_ind; [by rewrite app_nil_r|].
  rewrite run_app, asked_app, app_assoc. etrans; [apply step_sublist|]. by apply sublist_app.
Qed.

Lemma schedule_pending now b : tb_pending_call (_schedule now b) <> None.
Proof. unfold _schedule. by destruct (tb_pending_call b) eqn:E; simpl; rewrite ?E. Qed.

Lemma step_pending now e b :
  (tb_waiters b <> [] -> tb_pending_call b <> None) ->
  tb_waiters (bucket_step now e b) <> [] -> tb_pending_call (bucket_step now e b) <> None.
Proof.
  intros H. destruct e as [d| |d]; simpl.
  - unfold acquire. destruct (tb_waiters b); [case_match; [done|]|]; intros _; apply schedule_pending.
  - destruct (tb_pending_call b) eqn:E; [|by rewrite E]. case_match; [|by rewrite E].
    unfold _drain. destruct (release _ _ _ _) as [[[|w rest] last'] called]; [done|].
    intros _. apply schedule_pending.
  - intros Hw. apply H. by eapply remove_first_nil.
Qed.

Lemma step_granted now e b : tb_granted b `prefix_of` tb_granted (bucket_step now e b).
Proof.
  assert (forall now b, tb_granted (_schedule now b) = tb_granted b) as Hs
    by (intros; unfold _schedule; by case_match).
  destruct e as [d| |d]; simpl.
  - unfold acquire. repeat case_match; rewrite ?Hs; simpl; [by apply prefix_app_r|done|done].
  - destruct (tb_pending_call b); [|done]. case_match; [|done]. unfold _drain.
    destruct (release _ _ _ _) as [[[|w rest] last'] called]; rewrite ?Hs; simpl; by apply prefix_app_r.
  - done.
Qed.

Lemma step_params now e b : tb_rate (bucket_step now e b) = tb_rate b /\ tb_capacity (bucket_step now e b) = tb_capacity b.
Proof.
  assert (forall now b, tb_rate (_schedule now b) = tb_rate b /\ tb_capacity (_schedule now b) = tb_capacity b) as Hs
    by (intros; unfold _schedule; by case_match).
  destruct e as [d| |d]; simpl; [|destruct (tb_pending_call b); [|done]; case_match; [|done]|done].
  - unfold acquire. repeat case_match; try done; exact (Hs _ _).
  - unfold _drain. destruct (release _ _ _ _) as [[[|w rest] last'] called]; [done|exact (Hs _ _)].
Qed.

Lemma run_params evs b : tb_rate (bucket_run evs b) = tb_rate b /\ tb_capacity (bucket_run evs b) = tb_capacity b.
Proof.
  induction evs as [|[now e] evs IH] using rev_ind; [done|]. rewrite run_app. simpl.
  destruct (step_params now e (bucket_run evs b)) as [-> ->]. exact IH.
Qed.

(** One token's time after [last], or at once *)
Definition next_due (rate last now : T) : T := n_add now (n_max (n_sub (n_add last (n_div n_one rate)) now) n_zero).

Lemma step_due now e b due :
  tb_pending_call (bucket_step now e b) = Some due ->
  tb_pending_call b = Some due \/ due = next_due (tb_rate b) (tb_last (bucket_step now e b)) now.
Proof.
  assert (forall b, tb_last (_schedule now b) = tb_last b) as Hl by (intros; unfold _schedule; by case_match).
  assert (forall b, tb_pending_call (_schedule now b) = Some due ->
    tb_pending_call b = Some due \/ due = next_due (tb_rate b) (tb_last b) now) as Hs.
  { intros b0. unfold _schedule. destruct (tb_pending_call b0) eqn:E; simpl; [by rewrite E; left|]. intros [= <-]. by right. }
  destruct e as [d| |d]; simpl; [| |by left].
  - unfold acquire. repeat case_match; rewrite ?Hl; [by left| |]; intros Hd; apply Hs in Hd; exact Hd.
  - destruct (tb_pending_call b) eqn:E; [|by rewrite E]. case_match; [|by rewrite E; left]. unfold _drain.
    destruct (release _ _ _ _) as [[[|w rest] last'] called]; [done|]. rewrite Hl. intros Hd. apply Hs in Hd. simpl in Hd.
    destruct Hd as [Hd|Hd]; [done|by right].
Qed.

Lemma run_granted evs b : tb_granted b `prefix_of` tb_granted (bucket_run evs b).
Proof.
  induction evs as [|[now e] evs IH] using rev_ind; [done|]. rewrite run_app. etrans; [exact IH|apply step_granted].
Qed.
End fifo.

Section in_order.
Context {T : Type} `{!TimeNum T} (b0 : TokenBucket T).

(** [d] was cancelled while it waited. *)
Definition withdrawn (evs : list (T * bucket_event)) (d : nat) : Prop :=
  exists pre t post, evs = pre ++ (t, EvCancel d) :: post /\ d ∈ tb_waiters (bucket_run pre b0).

(** The due time was set by an event of the run, from the watermark it left. *)
Definition due_set (evs : list (T * bucket_event)) (due : T) : Prop :=
  exists pre now e post, evs = pre ++ (now, e) :: post /\
    due = next_due (tb_rate b0) (tb_last (bucket_run (pre ++ [(now, e)]) b0)) now.

Lemma run_due evs due : tb_pending_call b0 = None -> tb_pending_call (bucket_run evs b0) = Some due -> due_set evs due.
Proof.
  intros H0. revert due. induction evs as [|[now e] evs IH] using rev_ind; intros due; [simpl; by rewrite H0|].
  intros H. rewrite run_app in H. apply step_due in H as [(pre & n & e' & post & -> & Hdue)%IH | ->].
  - exists pre, n, e', (post ++ [(now, e)]). by rewrite <-app_assoc.
  - exists evs, now, e, []. split; [done|]. rewrite run_app. by destruct (run_params evs b0) as [-> _].
Qed.

Lemma withdrawn_app evs evs' d : withdrawn evs d -> withdrawn (evs ++ evs') d.
Proof.
  intros (pre & t & post & -> & H). exists pre, t, (post ++ evs'). split; [|done].
  by rewrite <-app_assoc.
Qed.

Lemma nobody_lost evs d :
  served b0 = [] -> d ∈ asked evs -> d ∈ served (bucket_run evs b0) \/ withdrawn evs d.
Proof.
  intros H0. induction evs as [|[now e] evs IH] using rev_ind; [set_solver|].
  rewrite asked_app, run_app, elem_of_app. intros [H|H].
  - destruct (IH H) as [Hs|Hw]; [|right; by apply withdrawn_app].
    destruct e as [d'| |d'].
    + left. simpl. rewrite acquire_served. set_solver.
    + left. change (bucket_run [(now, EvFire)] ?b) with (bucket_step now EvFire b). by rewrite fire_served.
    + unfold served in *. simpl. apply elem_of_app in Hs as [Hs|Hs]; [left; set_solver|].
      destruct (decide (d = d')) as [<-|Hne].
      * right. by exists evs, now, [].
      * left. apply elem_of_app. right. by apply remove_first_other.
  - left. destruct e as [d'| |]; simpl in H; [|set_solver..]. simpl. rewrite acquire_served. set_solver.
Qed.

Lemma withdrawn_gone evs d :
  served b0 = [] -> NoDup (asked evs) -> withdrawn evs d -> d ∉ served (bucket_run evs b0).
Proof.
  intros H0 Hnd (pre & t & post & -> & Hd).
  rewrite asked_app in Hnd. simpl in Hnd. rewrite run_app. simpl.
  pose proof (run_sublist pre b0) as Hpre. rewrite H0 in Hpre. simpl in Hpre.
  set (b1 := bucket_run pre b0) in *.
  apply NoDup_app in Hnd as (Hndp & Hdis & _).
  assert (d ∈ asked pre) as Hask by (eapply elem_of_sublist; [|exact Hpre]; apply elem_of_app; by right).
  pose proof (sublist_NoDup _ _ Hndp Hpre) as Hnd1. unfold served in Hnd1.
  apply NoDup_app in Hnd1 as (_ & Hg & Hw).
  intros Hin. eapply elem_of_sublist in Hin; [|apply run_sublist].
  apply elem_of_app in Hin as [Hin|Hin]; [|by apply (Hdis d)].
  unfold served in Hin. simpl in Hin. apply elem_of_app in Hin as [Hin|Hin].
  - by apply (Hg d).
  - by apply (remove_first_gone d) in Hin.
Qed.
End in_order.


(** In doubles: the first send goes at once, the second gives up, the third is
    granted by the drain call and the fourth waits. *)
Definition demo_float_events : list (float64 * bucket_event) :=
  let f n := match int_truediv n 1000 with Some x => x | None => fzero end in
  [(f 0, EvAcquire 1); (f 0, EvAcquire 2); (f 1, EvAcquire 3); (f 2, EvAcquire 4); (f 3, EvCancel 2); (f 26, EvFire)].

