(* ===== verification/Routing.v ===== *)
(** * Per-org routing: [copier/engine/routing.py]

    The routing table built from the accounts, and its short-lived cache.  The
    symbol and alias loaders are functions of the caller. *)

From S2P Require Import Prelude PyStr PyDecimal PyFloat Models Db Throttle.

(** ** Definitions *)

Record OrgRouting := {
  org_by_account : gmap Z Z;
  master_by_org : gmap Z Z;
  slaves_by_org : gmap Z (list SlaveConfig);
  platform_by_account : gmap Z platform
}.

(** Aliases in the order of the mapping: a later alias of the same canonical
    name would overwrite an earlier one, but its keys are unique. *)
Definition mt5_symbols_by_canonical (symbols : gmap string SymbolInfo)
    (aliases : list (string * string)) : gmap string SymbolInfo :=
  fold_left (fun out alias =>
    match symbols !! alias.2 with
    | Some info => <[alias.1 := info]> out
    | None => out
    end) aliases symbols.

Section build.
Context (symbol_loader : Z -> gmap string SymbolInfo)
        (alias_loader : option (Z -> list (string * string))).

Definition slave_config (a : AccountRow) : SlaveConfig :=
  {| account_id := acc_account_id a;
     enabled := acc_enabled a && negb (bool_decide (acc_status a = StPaused));
     multiplier := acc_multiplier a;
     symbols :=
       match acc_platform a, alias_loader with
       | MT5, Some al => mt5_symbols_by_canonical (symbol_loader (acc_account_id a))
                                                  (al (acc_account_id a))
       | _, _ => symbol_loader (acc_account_id a)
       end |}.

Definition route_account (r : OrgRouting) (a : AccountRow) : OrgRouting :=
  {| org_by_account := <[acc_account_id a := acc_org_id a]> (org_by_account r);
     platform_by_account := <[acc_account_id a := acc_platform a]> (platform_by_account r);
     master_by_org :=
       match acc_role a with
       | RoleMaster => <[acc_org_id a := acc_account_id a]> (master_by_org r)
       | _ => master_by_org r
       end;
     slaves_by_org :=
       match acc_role a with
       | RoleSlave => <[acc_org_id a :=
           default [] (slaves_by_org r !! acc_org_id a) ++ [slave_config a]]> (slaves_by_org r)
       | _ => slaves_by_org r
       end |}.

Definition empty_routing : OrgRouting :=
  {| org_by_account := ∅; master_by_org := ∅; slaves_by_org := ∅; platform_by_account := ∅ |}.

Definition build_routing (accounts : list AccountRow) : OrgRouting :=
  fold_left route_account accounts empty_routing.
End build.

(** [routing.slaves_by_org.get(org_id, [])] *)
Definition org_slaves (r : OrgRouting) (org : Z) : list SlaveConfig := default [] (slaves_by_org r !! org).

(** *** The cache: [now] and [now2] are the two clock readings of a call,
    [built] what the builder answers if it is called. *)
Section RoutingCache.
Context {T : Type} `{!TimeNum T} {A : Type}.

Record RoutingCache := {
  rc_ttl : T;
  rc_snapshot : option A;
  rc_expires : T
}.

Definition rc_init (ttl : T) : RoutingCache :=
  {| rc_ttl := ttl; rc_snapshot := None; rc_expires := n_zero |}.

Definition rc_stale (now : T) (c : RoutingCache) : bool :=
  match rc_snapshot c with
  | None => true
  | Some _ => n_leb (rc_expires c) now || n_ltb now (n_sub (rc_expires c) (rc_ttl c))
  end.

Definition rc_call (now now2 : T) (built : A) (c : RoutingCache) : A * RoutingCache :=
  match rc_snapshot c with
  | Some snap =>
      if rc_stale now c
      then (built, {| rc_ttl := rc_ttl c; rc_snapshot := Some built;
                      rc_expires := n_add now2 (rc_ttl c) |})
      else (snap, c)
  | None => (built, {| rc_ttl := rc_ttl c; rc_snapshot := Some built;
                       rc_expires := n_add now2 (rc_ttl c) |})
  end.

Definition rc_invalidate (c : RoutingCache) : RoutingCache :=
  {| rc_ttl := rc_ttl c; rc_snapshot := None; rc_expires := rc_expires c |}.
End RoutingCache.
Arguments RoutingCache : clear implicits.

(** ** The routing table in closed form *)

Section routing_facts.
Context (symbol_loader : Z -> gmap string SymbolInfo)
        (alias_loader : option (Z -> list (string * string))).
Abbreviation build := (build_routing symbol_loader alias_loader).
Abbreviation cfg := (slave_config symbol_loader alias_loader).

Definition is_slave_of (org : Z) (a : AccountRow) : bool :=
  bool_decide (acc_role a = RoleSlave) && (acc_org_id a =? org).
Definition is_master_of (org : Z) (a : AccountRow) : bool :=
  bool_decide (acc_role a = RoleMaster) && (acc_org_id a =? org).

Lemma build_snoc accounts a :
  build (accounts ++ [a]) = route_account symbol_loader alias_loader (build accounts) a.
Proof. unfold build_routing. by rewrite fold_left_app. Qed.

Lemma build_slaves accounts org :
  org_slaves (build accounts) org = cfg <$> List.filter (is_slave_of org) accounts.
Proof.
  unfold org_slaves. induction accounts as [|a accounts IH] using rev_ind; [done|].
  rewrite build_snoc, List.filter_app, fmap_app, <-IH. simpl. unfold is_slave_of at 1.
  destruct (acc_role a) eqn:E; simpl; rewrite ?app_nil_r; try done.
  destruct (Z.eqb_spec (acc_org_id a) org) as [->|Hne]; csimpl.
  - by rewrite lookup_insert_eq.
  - by rewrite lookup_insert_ne, app_nil_r by done.
Qed.

Lemma build_master accounts org :
  master_by_org (build accounts) !! org = acc_account_id <$> last (List.filter (is_master_of org) accounts).
Proof.
  induction accounts as [|a accounts IH] using rev_ind; [done|].
  rewrite build_snoc, List.filter_app. simpl. unfold is_master_of at 2.
  destruct (acc_role a) eqn:E; simpl; rewrite ?app_nil_r; try done.
  destruct (Z.eqb_spec (acc_org_id a) org) as [->|Hne]; csimpl.
  - by rewrite lookup_insert_eq, last_snoc.
  - by rewrite lookup_insert_ne, app_nil_r by done.
Qed.

Lemma build_org accounts a :
  NoDup (acc_account_id <$> accounts) -> a ∈ accounts ->
  org_by_account (build accounts) !! acc_account_id a = Some (acc_org_id a) /\
  platform_by_account (build accounts) !! acc_account_id a = Some (acc_platform a).
Proof.
  induction accounts as [|a' accounts IH] using rev_ind; [set_solver|].
  rewrite fmap_app, NoDup_app. intros (Hnd & Hdisj & _) [Hin| ->%list_elem_of_singleton]%elem_of_app;
    rewrite build_snoc; simpl.
  - assert (acc_account_id a <> acc_account_id a').
    { intros Heq. apply (Hdisj (acc_account_id a)); [by apply list_elem_of_fmap_2|].
      csimpl. by apply list_elem_of_singleton. }
    rewrite !lookup_insert_ne by done. auto.
  - by rewrite !lookup_insert_eq.
Qed.

Lemma build_org_dom accounts i o :
  org_by_account (build accounts) !! i = Some o ->
  exists a, a ∈ accounts /\ acc_account_id a = i /\ acc_org_id a = o.
Proof.
  induction accounts as [|a accounts IH] using rev_ind; [done|].
  rewrite build_snoc; simpl. intros [[<- <-]|[_ H]]%lookup_insert_Some.
  - exists a. set_solver.
  - destruct (IH H) as (a' & ? & ?). exists a'. set_solver.
Qed.
End routing_facts.

(** The routing table is the accounts table, org by org.  With unique
    account ids, each org's slave fleet is exactly its slave accounts in table
    order, a slave is enabled iff its account is and is not paused, carries
    its account's multiplier, and routes back to that org and platform; the
    master is the org's last master row. *)
Theorem build_routing_correct symbol_loader alias_loader accounts org :
  NoDup (acc_account_id <$> accounts) ->
  let r := build_routing symbol_loader alias_loader accounts in
  Forall2 (fun a s =>
      account_id s = acc_account_id a /\ multiplier s = acc_multiplier a /\
      (enabled s = true <-> acc_enabled a = true /\ acc_status a <> StPaused) /\
      org_by_account r !! account_id s = Some org /\
      platform_by_account r !! account_id s = Some (acc_platform a))
    (List.filter (is_slave_of org) accounts) (org_slaves r org) /\
  master_by_org r !! org = acc_account_id <$> last (List.filter (is_master_of org) accounts).
Proof.
  intros Hnd r. split; [|by apply build_master].
  unfold r. rewrite build_slaves. apply Forall2_fmap_r, Forall_Forall2_diag, Forall_forall.
  intros a (Hin & Hs)%list_elem_of_In%filter_In. apply list_elem_of_In in Hin.
  unfold is_slave_of in Hs. bsimp. subst org. simpl.
  destruct (build_org symbol_loader alias_loader accounts a Hnd Hin) as [Ho Hp].
  repeat (split; [done|]). split; [|done].
  rewrite andb_true_iff, negb_true_iff, bool_decide_eq_false. done.
Qed.

Definition demo_account (i org : Z) (role : account_role) (st : account_status) : AccountRow :=
  {| acc_account_id := i; acc_org_id := org; acc_connection_id := None; acc_trader_login := i;
     acc_is_live := false; acc_role := role; acc_enabled := true; acc_multiplier := Dec 1 0;
     acc_status := st; acc_last_error := JNull; acc_platform := CTrader |}.

Definition demo_accounts : list AccountRow :=
  [demo_account 1 1 RoleMaster StOk; demo_account 11 1 RoleSlave StOk;
   demo_account 12 1 RoleSlave StPaused; demo_account 2 2 RoleMaster StOk;
   demo_account 21 2 RoleSlave StOk].

Lemma build_routing_correct_witness :
  NoDup (acc_account_id <$> demo_accounts) /\
  master_by_org (build_routing (fun _ => ∅) None demo_accounts) !! 1 = Some 1 /\
  (enabled <$> org_slaves (build_routing (fun _ => ∅) None demo_accounts) 1) = [true; false].
Proof.
  assert (NoDup (acc_account_id <$> demo_accounts)) as Hnd
    by (apply (bool_decide_eq_true_1 _); vm_compute; reflexivity).
  split; [exact Hnd|]. split.
  - rewrite (proj2 (build_routing_correct (fun _ => ∅) None demo_accounts 1 Hnd)). reflexivity.
  - vm_compute. reflexivity.
Defined.

(** ** Freshness of the cache *)

From Stdlib Require Import QArith Lqa.
Open Scope Z_scope.

Section cache_facts.
Context {A : Type}.
Implicit Types (c : RoutingCache Q A).

Inductive cache_event := CCall (now now2 : Q) (built : A) | CInvalidate.

(** A run keeps the snapshots built since the last invalidation, with the
    time of each build. *)
Definition cache_step (cb : RoutingCache Q A * list (Q * A)) (e : cache_event)
    : RoutingCache Q A * list (Q * A) :=
  match e with
  | CInvalidate => (rc_invalidate cb.1, [])
  | CCall now now2 built =>
      ((rc_call now now2 built cb.1).2,
       if rc_stale now cb.1 then cb.2 ++ [(now2, built)] else cb.2)
  end.
Definition cache_run (ttl : Q) (evs : list cache_event) : RoutingCache Q A * list (Q * A) :=
  fold_left cache_step evs (rc_init ttl, []).

Definition cache_inv (ttl : Q) (cb : RoutingCache Q A * list (Q * A)) : Prop :=
  rc_ttl cb.1 = ttl /\
  forall v, rc_snapshot cb.1 = Some v -> exists t, (t, v) ∈ cb.2 /\ (rc_expires cb.1 == t + ttl)%Q.

Lemma rc_call_fst now now2 built c :
  rc_stale now c = true ->
  rc_call now now2 built c =
    (built, {| rc_ttl := rc_ttl c; rc_snapshot := Some built; rc_expires := n_add now2 (rc_ttl c) |}).
Proof. unfold rc_call, rc_stale. destruct (rc_snapshot c); [by intros ->|done]. Qed.

Lemma cache_step_inv ttl cb e : cache_inv ttl cb -> cache_inv ttl (cache_step cb e).
Proof.
  destruct cb as [c bs]. intros [Httl Hsnap]. destruct e as [now now2 built|]; simpl in *; [|by split].
  destruct (rc_stale now c) eqn:E.
  - rewrite rc_call_fst by done. split; simpl; [done|]. intros v [= <-]. exists now2.
    split; [set_solver|]. rewrite Httl. reflexivity.
  - unfold rc_call. unfold rc_stale in *. destruct (rc_snapshot c) eqn:Es; [|done].
    rewrite E. split; simpl; [done|]. by rewrite Es.
Qed.

Lemma cache_run_inv ttl evs : cache_inv ttl (cache_run ttl evs).
Proof.
  unfold cache_run. assert (cache_inv ttl (rc_init ttl, [])) as H by done.
  revert H. generalize (rc_init ttl : RoutingCache Q A, @nil (Q * A)).
  induction evs as [|e evs IH]; intros cb H; simpl; [done|]. by apply IH, cache_step_inv.
Qed.
End cache_facts.

(** The cache never serves a snapshot older than its time to live, nor one
    from before an invalidation.  After any run, a call answers either the
    routing built now, or a snapshot built at a time [t] since the last
    invalidation with [t <= now < t + ttl]; the wall clock may jump either
    way. *)
Theorem routing_cache_fresh {A} (ttl : Q) (evs : list (@cache_event A)) (now now2 : Q) (built : A) :
  let '(c, builds) := cache_run ttl evs in
  let v := (rc_call now now2 built c).1 in
  (rc_stale now c = true /\ v = built) \/
  exists t, (t, v) ∈ builds /\ (t <= now /\ now < t + ttl)%Q.
Proof.
  pose proof (cache_run_inv ttl evs) as Hinv. destruct (cache_run ttl evs) as [c builds].
  destruct Hinv as [Httl Hsnap]. simpl in *.
  destruct (rc_stale now c) eqn:E; [left; by rewrite rc_call_fst|right].
  unfold rc_call, rc_stale in *. destruct (rc_snapshot c) as [v|] eqn:Es; [|done].
  rewrite E. destruct (Hsnap v eq_refl) as (t & Ht & Hexp). exists t. split; [done|].
  apply orb_false_iff in E as [E1 E2]. simpl in E1, E2. apply negb_false_iff in E2.
  apply Qle_bool_false in E1. apply Qle_bool_iff in E2. rewrite Httl in E2. lra.
Qed.
