(* ===== verification/Protocol.v ===== *)
(** * The terminal protocol's data: [copier/mt5/protocol.py]

    The report, acknowledgement and command records the MT5 bridge exchanges
    with a terminal, and the conversion between the terminal's lots (floats)
    and the copier's centilots (integers). *)

From S2P Require Import Prelude PyStr PyFloat Models Db.
From Stdlib Require Import SpecFloat.

(** ** Records *)

Definition CENTILOTS : Z := 100.

(** [DEAL_TYPES] and [DEAL_ENTRIES] *)
Inductive DealType := DtBuy | DtSell | DtBalance | DtCredit | DtOther.
Inductive DealEntry := DeIn | DeOut | DeInOut | DeOutBy | DeNone.

#[export] Instance DealType_eq_dec : EqDecision DealType.
Proof. solve_decision. Defined.
#[export] Instance DealEntry_eq_dec : EqDecision DealEntry.
Proof. solve_decision. Defined.

Record ReportPosition := {
  rp_ticket : Z;
  rp_symbol : string;
  rp_side : Side;
  rp_volume : Z;
  rp_open_price : float64;
  rp_stop_loss : price;
  rp_take_profit : price;
  rp_current_price : price;
  rp_pnl : float64;
  rp_swap : float64;
  rp_comment : string;
  rp_magic : Z;
  rp_opened_at_ms : Z
}.

(** [order_type] is one of [PENDING_TYPES], a string such as ["BUY_LIMIT"]. *)
Record ReportOrder := {
  ro_ticket : Z;
  ro_symbol : string;
  ro_order_type : string;
  ro_volume : Z;
  ro_price : float64;
  ro_stop_loss : price;
  ro_take_profit : price;
  ro_comment : string;
  ro_magic : Z
}.

Record ReportDeal := {
  rd_ticket : Z;
  rd_position : Z;
  rd_order : Z;
  rd_symbol : string;
  rd_deal_type : DealType;
  rd_entry : DealEntry;
  rd_volume : Z;
  rd_price : float64;
  rd_profit : float64;
  rd_swap : float64;
  rd_commission : float64;
  rd_time_ms : Z;
  rd_comment : string;
  rd_magic : Z
}.

Record Ack := {
  ack_command_id : Z;
  ack_ok : bool;
  ack_retcode : Z;
  ack_message : string;
  ack_position : option Z;
  ack_deal : option Z;
  ack_order : option Z;
  ack_price : price;
  ack_volume : option Z
}.

Record SyncReport := {
  sr_seq : Z;
  sr_ts_ms : Z;
  sr_balance : float64;
  sr_equity : float64;
  sr_margin : float64;
  sr_margin_free : float64;
  sr_positions : list ReportPosition;
  sr_orders : list ReportOrder;
  sr_deals : list ReportDeal;
  sr_acks : list Ack
}.

Record Command := {
  cmd_id : Z;
  cmd_kind_of : cmd_kind;
  cmd_payload : payload;
  cmd_client_order_id : option string
}.

(** ** Lots and centilots *)

(** [round(x, 2)]: the exact value rounded to hundredths, ties to even, then
    the nearest float. *)
Definition py_round2 (x : float64) : float64 :=
  match x with
  | S754_finite s m e =>
      let z := 100 * (if s then Zneg m else Zpos m) in
      let n := if 0 <=? e then z * 2 ^ e else round_even_div z (2 ^ (- e)) in
      match n with
      | Z0 => S754_zero s
      | _ => default x (int_truediv n 100)
      end
  | _ => x
  end.

Definition centilots (lots_value : float64) : result Z := py_round (fmul lots_value (f_of_Z CENTILOTS)).

Definition lots (volume : Z) : float64 :=
  match int_truediv volume CENTILOTS with Some x => py_round2 x | None => fzero end.
