(* ===== verification/Outbox.v ===== *)
(** * The MT5 command outbox: [copier/mt5/outbox.py]

    Every decision for an MT5 follower becomes a row of [mt5_commands] that
    the terminal collects on its next poll and settles with an
    acknowledgement.  [now] is the reactor clock, epoch seconds as a float;
    the database keeps microseconds. *)

From S2P Require Import Prelude PyStr PyFloat Models Db Repo Protocol.
From Stdlib Require Import SpecFloat.

(** ** Identifiers *)

(** [client_order_id_for] of [copier/engine/dispatch.py], which the outbox
    imports. *)
Definition client_order_id_for (intent : SlaveIntent) : option string :=
  match intent with
  | IOpenMarket i => Some ("cm" +:+ pretty (om_master_position_id i) +:+ "." +:+ pretty (om_slave_account_id i))
  | IPlacePending i => Some ("co" +:+ pretty (pp_master_order_id i) +:+ "." +:+ pretty (pp_slave_account_id i))
  | _ => None
  end.

(** ** Constants and time *)

Definition OPEN_COMMAND_TTL_S : float64 := f_of_Z 30.
Definition REDELIVER_AFTER_S : float64 := f_of_Z 10.
Definition MAX_ATTEMPTS : Z := 3.
Definition NO_ACK_MESSAGE : string := "no ack from terminal".
Definition OFFLINE_MESSAGE : string := "terminal offline".
Definition CLOSE_SUFFIX : string := ":close".

(** [datetime.fromtimestamp(now, tz=utc)] in microseconds: whole seconds, and
    the fraction times 1e6 rounded half to even. *)
Definition _ts (now : float64) : result Z :=
  let whole := f_trunc now in
  let? us := py_round (fmul (fsub now (f_of_Z whole)) (f_of_Z 1000000)) in
  Ok (whole * 1000000 + us).

(** [dt.timestamp()] *)
Definition timestamp (us : Z) : float64 := default fzero (int_truediv us 1000000).

(** ** Commands *)

(** Payload prices: 0.0 means none. *)
Definition _price (p : price) : json := JFloat (default fzero p).

Definition command_for_intent (intent : SlaveIntent) (broker_symbol : string)
    : result (cmd_kind * payload) :=
  match intent with
  | IOpenMarket i =>
      Ok (KOpen, [("symbol", JStr broker_symbol); ("side", JStr (side_value (om_side i)));
                  ("lots", JFloat (lots (om_volume i)));
                  ("sl", _price (om_stop_loss i)); ("tp", _price (om_take_profit i));
                  ("comment", JStr (om_label i))])
  | IClosePosition i =>
      Ok (KClose, [("position", JInt (cp_position_id i)); ("lots", JFloat (lots (cp_volume i)))])
  | IAmendPositionSLTP i =>
      Ok (KAmend, [("position", JInt (ap_position_id i));
                   ("sl", _price (ap_stop_loss i)); ("tp", _price (ap_take_profit i))])
  | IPlacePending i =>
      let kind := match pp_order_type i with LIMIT => "LIMIT" | STOP => "STOP" end in
      Ok (KPlacePending,
          [("symbol", JStr broker_symbol);
           ("type", JStr (side_value (pp_side i) +:+ "_" +:+ kind));
           ("lots", JFloat (lots (pp_volume i))); ("price", JFloat (pp_price i));
           ("sl", _price (pp_stop_loss i)); ("tp", _price (pp_take_profit i));
           ("expiry_ms", JInt (default 0 (pp_expiry_ts_ms i))); ("comment", JStr (pp_label i))])
  | IAmendPending i =>
      Ok (KAmendPending,
          [("order", JOptInt (ao_order_id i)); ("lots", JFloat (lots (ao_volume i)));
           ("price", JFloat (ao_price i));
           ("sl", _price (ao_stop_loss i)); ("tp", _price (ao_take_profit i))])
  | ICancelPending i => Ok (KCancelPending, [("order", JOptInt (co_order_id i))])
  | _ => Raise (ValueError ("no MT5 command for intent " +:+ intent_type_name intent))
  end.

(** [margin_mode]: the registry's answer for an account. *)
Inductive margin_mode := Hedging | Netting.
#[export] Instance margin_mode_eq_dec : EqDecision margin_mode.
Proof. solve_decision. Defined.

Section MT5Outbox.
Context (margin_mode_of : Z -> option margin_mode).

Definition _is_netting (account_id : Z) : bool :=
  bool_decide (margin_mode_of account_id = Some Netting).

Definition enqueue (account_id org_id : Z) (kind : cmd_kind) (p : payload)
    (client_order_id : option string) : M db Z :=
  enqueue_mt5_command account_id org_id kind p client_order_id.

(** [client_order_id_for]'s scheme, as the close spells it out *)
Definition position_coid (master_position_id account_id : Z) : string :=
  "cm" +:+ pretty master_position_id +:+ "." +:+ pretty account_id.

Definition unsided_payload (coid : string) (i : ClosePosition) : payload :=
  [("action", JStr "mt5_netting_close_unsided"); ("client_order_id", JStr coid);
   ("position", JInt (cp_position_id i)); ("volume", JInt (cp_volume i));
   ("detail", JStr ("no open command records this copy's side; closing the net " +:+
                    "position by volume instead, which reduces the copies oldest-first"))].

(** [payload.get("symbol")] when it is a non-empty string *)
Definition payload_symbol (p : payload) : option string :=
  match od_get "symbol" p with
  | Some (JStr "") => None
  | Some (JStr sym) => Some sym
  | _ => None
  end.

Definition _enqueue_netting_close (i : ClosePosition) (master_position_id org_id : Z)
    : M db (option Z) :=
  let account_id := cp_slave_account_id i in
  let coid := position_coid master_position_id account_id in
  let! side := mapping_side coid in
  let! p := mt5_open_payload coid in
  match side, payload_symbol (default [] p) with
  | Some side, Some symbol =>
      let! id := enqueue account_id org_id KOpen
        [("symbol", JStr symbol);
         ("side", JStr (match side with BUY => "SELL" | SELL => "BUY" end));
         ("lots", JFloat (lots (cp_volume i))); ("sl", JFloat fzero); ("tp", JFloat fzero);
         ("comment", JStr ("close:m" +:+ pretty master_position_id))]
        (Some (coid +:+ CLOSE_SUFFIX)) in
      ret (Some id)
  | _, _ =>
      log_event "slave_action" Warning (unsided_payload coid i) (Some account_id) (Some org_id) ;;;
      ret None
  end.

Definition enqueue_plain (intent : SlaveIntent) (account_id org_id : Z) (broker_symbol : string)
    : M db Z :=
  let! kp := lift_result (command_for_intent intent broker_symbol) in
  enqueue account_id org_id kp.1 kp.2 (client_order_id_for intent).

Definition enqueue_intent (intent : SlaveIntent) (account_id org_id : Z) (broker_symbol : string)
    : M db Z :=
  match intent with
  | IClosePosition i =>
      match cp_master_position_id i with
      | Some mp =>
          if _is_netting account_id
          then let! queued := _enqueue_netting_close i mp org_id in
               match queued with
               | Some id => ret id
               | None => enqueue_plain intent account_id org_id broker_symbol
               end
          else enqueue_plain intent account_id org_id broker_symbol
      | None => enqueue_plain intent account_id org_id broker_symbol
      end
  | _ => enqueue_plain intent account_id org_id broker_symbol
  end.
End MT5Outbox.

(** ** Delivery *)

Definition expired_payload (command_id : Z) : payload :=
  [("action", JStr "mt5_command_expired"); ("command_id", JInt command_id);
   ("reason", JStr OFFLINE_MESSAGE);
   ("detail", JStr ("market copy not delivered within 30s; " +:+
                    "a copy placed that late is a different trade"))].

Definition no_ack_result : payload :=
  [("ok", JBool false); ("retcode", JInt 0); ("message", JStr NO_ACK_MESSAGE);
   ("position", JNull); ("deal", JNull); ("order", JNull); ("price", JNull); ("lots", JNull)].

Definition kind_value (k : cmd_kind) : string :=
  match k with
  | KOpen => "open" | KClose => "close" | KAmend => "amend"
  | KPlacePending => "place_pending" | KAmendPending => "amend_pending"
  | KCancelPending => "cancel_pending"
  end.

(** [except MappingNotFound: pass] *)
Definition ignore_not_found (m : M db unit) : M db unit :=
  try_except m (fun e => if is_mapping_not_found e then ret tt else raise e).

Definition _give_up (account_id : Z) (row : command_row) (now : float64) : M db unit :=
  let! t := lift_result (_ts now) in
  complete_mt5_command (c_id row) false no_ack_result t (Some account_id) ;;;
  (match c_client_order_id row with
   | None | Some "" => ret tt
   | Some coid => ignore_not_found (fail_mapping account_id coid NO_ACK_MESSAGE)
   end) ;;;
  log_event "slave_action" Error
    [("action", JStr "mt5_command_unacked"); ("command_id", JInt (c_id row));
     ("kind", JStr (kind_value (c_kind row))); ("attempts", JInt (c_attempts row));
     ("error", JStr NO_ACK_MESSAGE)] (Some account_id) (Some (c_org_id row)).

Definition command_of_row (row : command_row) : Command :=
  {| cmd_id := c_id row; cmd_kind_of := c_kind row; cmd_payload := c_payload row;
     cmd_client_order_id := c_client_order_id row |}.

(** One row of the poll: what the loop does with it. *)
Inductive row_action := Deliver | Wait | GiveUp.

Definition row_verdict (now : float64) (row : command_row) : row_action :=
  match c_status row with
  | Sent =>
      let sent_at := match c_sent_at row with Some t => timestamp t | None => now end in
      if fltb (fsub now sent_at) REDELIVER_AFTER_S then Wait
      else if MAX_ATTEMPTS <=? c_attempts row then GiveUp
      else Deliver
  | _ => Deliver
  end.

Fixpoint collect (account_id : Z) (now : float64) (rows : list command_row) : M db (list Command) :=
  match rows with
  | [] => ret []
  | row :: rows' =>
      match row_verdict now row with
      | Wait => collect account_id now rows'
      | GiveUp => _give_up account_id row now ;;; collect account_id now rows'
      | Deliver => let! out := collect account_id now rows' in ret (command_of_row row :: out)
      end
  end.

Definition deliverable (account_id : Z) (now : float64) : M db (list Command) :=
  let! cutoff := lift_result (_ts (fsub now OPEN_COMMAND_TTL_S)) in
  let! expired := fail_stale_mt5_opens account_id cutoff in
  for_each (fun command_id =>
    log_event "slave_action" Warning (expired_payload command_id) (Some account_id) None) expired ;;;
  let! rows := mt5_commands_open account_id in
  let! out := collect account_id now rows in
  (match out with
   | [] => ret tt
   | _ => let! t := lift_result (_ts now) in mark_mt5_commands_sent (cmd_id <$> out) t
   end) ;;;
  ret out.

(** ** Acknowledgements *)

Record AckOutcome := {
  ao_command_id : Z;
  ao_kind : cmd_kind;
  ao_client_order_id : option string;
  ao_ok : bool;
  ao_message : string;
  ao_position : option Z;
  ao_order : option Z;
  ao_out_price : price;
  ao_out_volume : option Z;
  ao_deal : option Z
}.

Definition ack_result (ack : Ack) : payload :=
  [("ok", JBool (ack_ok ack)); ("retcode", JInt (ack_retcode ack));
   ("message", JStr (ack_message ack)); ("position", JOptInt (ack_position ack));
   ("deal", JOptInt (ack_deal ack)); ("order", JOptInt (ack_order ack));
   ("price", JPrice (ack_price ack));
   ("lots", match ack_volume ack with Some v => JFloat (lots v) | None => JNull end)].

(** [payload.get(key)] for an integer field *)
Definition payload_int (key : string) (p : payload) : option Z :=
  match od_get key p with Some (JInt z) => Some z | _ => None end.

(** [if volume is None and payload.get("lots"): int(round(float(...) * 100))] *)
Definition payload_volume (p : payload) : result (option Z) :=
  match od_get "lots" p with
  | Some (JFloat x) => if feqb x fzero then Ok None
                       else let? v := py_round (fmul x (f_of_Z 100)) in Ok (Some v)
  | Some (JInt z) => if z =? 0 then Ok None
                     else let? v := py_round (fmul (f_of_Z z) (f_of_Z 100)) in Ok (Some v)
  | _ => Ok None
  end.

(** A netting follower's [:close] open reports as the close of its copy. *)
Definition settle_names (kind : cmd_kind) (coid : option string) : cmd_kind * option string :=
  match kind, coid with
  | KOpen, Some c =>
      if str_ends CLOSE_SUFFIX c && negb (bool_decide (c = ""))
      then (KClose, Some (str_take (String.length c - String.length CLOSE_SUFFIX) c))
      else (kind, coid)
  | _, _ => (kind, coid)
  end.

Definition ack_outcome (ack : Ack) (row : command_row) : result AckOutcome :=
  let p := c_payload row in
  let '(kind, coid) := settle_names (c_kind row) (c_client_order_id row) in
  let? volume := match ack_volume ack with
                 | Some v => Ok (Some v)
                 | None => payload_volume p
                 end in
  Ok {| ao_command_id := c_id row; ao_kind := kind; ao_client_order_id := coid;
        ao_ok := ack_ok ack; ao_message := ack_message ack;
        ao_position := coalesce (ack_position ack) (payload_int "position" p);
        ao_order := coalesce (ack_order ack) (payload_int "order" p);
        ao_out_price := ack_price ack; ao_out_volume := volume; ao_deal := ack_deal ack |}.

Fixpoint apply_acks (account_id : Z) (now : float64) (acks : list Ack) : M db (list AckOutcome) :=
  match acks with
  | [] => ret []
  | ack :: acks' =>
      let! t := lift_result (_ts now) in
      let! row := complete_mt5_command (ack_command_id ack) (ack_ok ack) (ack_result ack) t
                    (Some account_id) in
      match row with
      | None => apply_acks account_id now acks'
      | Some row =>
          let! o := lift_result (ack_outcome ack row) in
          let! out := apply_acks account_id now acks' in
          ret (o :: out)
      end
  end.

Definition pending_count (account_id : Z) : M db Z :=
  let! rows := mt5_commands_open account_id in ret (Z.of_nat (length rows)).
