(* ===== verification/Wire.v ===== *)
(** * The terminal protocol's wire: [copier/mt5/protocol.py]

    Requests (terminal to server) are JSON: [parse_hello] and [parse_sync] read
    a decoded body.  Responses (server to terminal) are tab-separated lines:
    [encode_response] writes them, [parse_response] is the terminal's side.  The
    [kind] of a [Command] is an enumerated type here, so the encoder's branch
    for an unknown kind has no counterpart; the reader has one.  The reason the
    reader appends to a bad line's message is left out. *)

From S2P Require Import Prelude PyStr PyFloat PyRepr Models Db PyJson Protocol Outbox.
From Stdlib Require Import SpecFloat Ascii.

Definition TAB : ascii := ascii_of_nat 9.
Definition LF : ascii := ascii_of_nat 10.
Definition CR : ascii := ascii_of_nat 13.

(** [except (TypeError, ValueError)] *)
Definition type_or_value_error (e : exn) : bool :=
  match e with TypeError _ => true | _ => is_value_error e end.

(** ** Reading requests *)

Section request.

Definition _require {A} (body : payload) (key : string) (kind : json -> result A) (kind_name what : string) : result A :=
  match get body key with
  | JNull => Raise (ProtocolError (what +:+ ": missing field " +:+ py_repr key))
  | v => match kind v with
         | Ok a => Ok a
         | Raise e =>
             if type_or_value_error e
             then Raise (ProtocolError (what +:+ ": field " +:+ py_repr key +:+ " is not a " +:+ kind_name))
             else Raise e
         end
  end.

Definition _optional {A} (body : payload) (key : string) (kind : json -> result A) (kind_name : string) (dflt : A) : result A :=
  match get body key with
  | JNull => Ok dflt
  | v => match kind v with
         | Ok a => Ok a
         | Raise e =>
             if type_or_value_error e
             then Raise (ProtocolError ("field " +:+ py_repr key +:+ " is not a " +:+ kind_name))
             else Raise e
         end
  end.

(** A price field: 0 or absent means none. *)
Definition _price (value : json) : result price :=
  match value with
  | JNull => Ok None
  | _ => match json_float value with
         | Ok x => Ok (if feqb x fzero then None else Some x)
         | Raise e =>
             if type_or_value_error e
             then Raise (ProtocolError ("price " +:+ json_repr value +:+ " is not a number"))
             else Raise e
         end
  end.

Definition _int_or_none (value : json) : result (option Z) :=
  match value with
  | JNull => Ok None
  | _ => match json_int value with
         | Ok n => Ok (if n =? 0 then None else Some n)
         | Raise e =>
             if type_or_value_error e
             then Raise (ProtocolError ("ticket " +:+ json_repr value +:+ " is not an integer"))
             else Raise e
         end
  end.

(** [_enum] on a field already read as text; [allowed] pairs each spelling
    with its value. *)
Definition _enum {A} (value : string) (allowed : list (string * A)) (what : string) : result A :=
  match od_get (str_upper value) allowed with
  | Some a => Ok a
  | None => Raise (ProtocolError (what +:+ ": " +:+ py_repr value +:+ " is not one of (" +:+
                                  str_join ", " (py_repr <$> allowed.*1) +:+ ")"))
  end.

Definition str_of (v : json) : result string := Ok (json_str v).
Definition bool_of (v : json) : result bool := Ok (json_bool v).

(** [body.get(key) or []], a list of objects *)
Definition _list (body : payload) (key : string) : result (list payload) :=
  let value := get body key in
  if negb (json_bool value) then Ok []
  else match value with
       | JList l =>
           rmap (fun item => match item with
                             | JObj kvs => Ok kvs
                             | _ => Raise (ProtocolError ("every entry of " +:+ py_repr key +:+ " must be an object"))
                             end) l
       | _ => Raise (ProtocolError ("field " +:+ py_repr key +:+ " must be a list"))
       end.

(** [str(raw.get(key) or "")] *)
Definition text_or_empty (raw : payload) (key : string) : string :=
  if json_bool (get raw key) then json_str (get raw key) else "".

Definition SIDES : list (string * Side) := [("BUY", BUY); ("SELL", SELL)].
Definition PENDING_TYPES : list (string * string) :=
  [("BUY_LIMIT", "BUY_LIMIT"); ("SELL_LIMIT", "SELL_LIMIT"); ("BUY_STOP", "BUY_STOP"); ("SELL_STOP", "SELL_STOP")].
Definition DEAL_TYPES : list (string * DealType) :=
  [("BUY", DtBuy); ("SELL", DtSell); ("BALANCE", DtBalance); ("CREDIT", DtCredit); ("OTHER", DtOther)].
Definition DEAL_ENTRIES : list (string * DealEntry) :=
  [("IN", DeIn); ("OUT", DeOut); ("INOUT", DeInOut); ("OUT_BY", DeOutBy); ("", DeNone)].

Record HelloSymbol := {
  hs_name : string;
  hs_digits : Z;
  hs_contract_size : float64;
  hs_volume_min : float64;
  hs_volume_step : float64;
  hs_volume_max : float64;
  hs_trade_mode : Z
}.

Record HelloReport := {
  hr_ea_version : string;
  hr_ea_build : Z;
  hr_login : Z;
  hr_broker : string;
  hr_server : string;
  hr_currency : string;
  hr_hedging : bool;
  hr_trade_mode : string;
  hr_leverage : Z;
  hr_symbols : list HelloSymbol;
  hr_chunk : Z;
  hr_chunks : Z
}.

Definition parse_hello_symbol (raw : payload) : result HelloSymbol :=
  let? n := _require raw "n" str_of "str" "hello symbol" in
  let? d := _require raw "d" json_int "int" "hello symbol" in
  let? cs := _optional raw "cs" json_float "float" fzero in
  let? vmin := _require raw "vmin" json_float "float" "hello symbol" in
  let? vstep := _require raw "vstep" json_float "float" "hello symbol" in
  let? vmax := _optional raw "vmax" json_float "float" fzero in
  let? tm := _optional raw "tm" json_int "int" 0 in
  Ok {| hs_name := n; hs_digits := d; hs_contract_size := cs; hs_volume_min := vmin;
        hs_volume_step := vstep; hs_volume_max := vmax; hs_trade_mode := tm |}.

Definition parse_hello (body : json) : result HelloReport :=
  match body with
  | JObj body =>
      let? raws := _list body "symbols" in
      let? symbols := rmap parse_hello_symbol raws in
      let? ea := _optional body "ea" str_of "str" "" in
      let? build := _optional body "build" json_int "int" 0 in
      let? login := _require body "login" json_int "int" "hello" in
      let? broker := _require body "broker" str_of "str" "hello" in
      let? server := _optional body "server" str_of "str" "" in
      let? currency := _optional body "currency" str_of "str" "" in
      let? hedging := _require body "hedging" bool_of "bool" "hello" in
      let? mode := _optional body "trade_mode" str_of "str" "" in
      let? leverage := _optional body "leverage" json_int "int" 0 in
      let? chunk := _optional body "chunk" json_int "int" 1 in
      let? chunks := _optional body "chunks" json_int "int" 1 in
      Ok {| hr_ea_version := ea; hr_ea_build := build; hr_login := login; hr_broker := broker;
            hr_server := server; hr_currency := currency; hr_hedging := hedging; hr_trade_mode := mode;
            hr_leverage := leverage; hr_symbols := symbols; hr_chunk := chunk; hr_chunks := chunks |}
  | _ => Raise (ProtocolError "hello body must be a JSON object")
  end.

Definition parse_position (raw : payload) : result ReportPosition :=
  let? t := _require raw "t" json_int "int" "position" in
  let? s := _require raw "s" str_of "str" "position" in
  let? side_text := _require raw "side" str_of "str" "position" in
  let? side := _enum side_text SIDES "position side" in
  let? l := _require raw "lots" json_float "float" "position" in
  let? volume := centilots l in
  let? open := _require raw "open" json_float "float" "position" in
  let? sl := _price (get raw "sl") in
  let? tp := _price (get raw "tp") in
  let? current := _price (get raw "price") in
  let? pnl := _optional raw "pnl" json_float "float" fzero in
  let? swap := _optional raw "swap" json_float "float" fzero in
  let? magic := _optional raw "magic" json_int "int" 0 in
  let? time := _optional raw "time" json_int "int" 0 in
  Ok {| rp_ticket := t; rp_symbol := s; rp_side := side; rp_volume := volume; rp_open_price := open;
        rp_stop_loss := sl; rp_take_profit := tp; rp_current_price := current; rp_pnl := pnl; rp_swap := swap;
        rp_comment := text_or_empty raw "comment"; rp_magic := magic; rp_opened_at_ms := time * 1000 |}.

Definition parse_order (raw : payload) : result ReportOrder :=
  let? t := _require raw "t" json_int "int" "order" in
  let? s := _require raw "s" str_of "str" "order" in
  let? type_text := _require raw "type" str_of "str" "order" in
  let? type := _enum type_text PENDING_TYPES "order type" in
  let? l := _require raw "lots" json_float "float" "order" in
  let? volume := centilots l in
  let? p := _require raw "price" json_float "float" "order" in
  let? sl := _price (get raw "sl") in
  let? tp := _price (get raw "tp") in
  let? magic := _optional raw "magic" json_int "int" 0 in
  Ok {| ro_ticket := t; ro_symbol := s; ro_order_type := type; ro_volume := volume; ro_price := p;
        ro_stop_loss := sl; ro_take_profit := tp; ro_comment := text_or_empty raw "comment"; ro_magic := magic |}.

Definition parse_deal (raw : payload) : result ReportDeal :=
  let? t := _require raw "t" json_int "int" "deal" in
  let? pos := _optional raw "pos" json_int "int" 0 in
  let? order := _optional raw "order" json_int "int" 0 in
  let? type_text := _optional raw "type" str_of "str" "OTHER" in
  let? type := _enum type_text DEAL_TYPES "deal type" in
  let? entry_text := _optional raw "entry" str_of "str" "" in
  let? entry := _enum entry_text DEAL_ENTRIES "deal entry" in
  let? l := _optional raw "lots" json_float "float" fzero in
  let? volume := centilots l in
  let? p := _optional raw "price" json_float "float" fzero in
  let? profit := _optional raw "profit" json_float "float" fzero in
  let? swap := _optional raw "swap" json_float "float" fzero in
  let? commission := _optional raw "commission" json_float "float" fzero in
  let? time := _require raw "time" json_int "int" "deal" in
  let? magic := _optional raw "magic" json_int "int" 0 in
  Ok {| rd_ticket := t; rd_position := pos; rd_order := order; rd_symbol := text_or_empty raw "s";
        rd_deal_type := type; rd_entry := entry; rd_volume := volume; rd_price := p; rd_profit := profit;
        rd_swap := swap; rd_commission := commission; rd_time_ms := time;
        rd_comment := text_or_empty raw "comment"; rd_magic := magic |}.

Definition parse_ack (raw : payload) : result Ack :=
  let? id := _require raw "id" json_int "int" "ack" in
  let? ok := _require raw "ok" bool_of "bool" "ack" in
  let? retcode := _optional raw "retcode" json_int "int" 0 in
  let? position := _int_or_none (get raw "pos") in
  let? deal := _int_or_none (get raw "deal") in
  let? order := _int_or_none (get raw "order") in
  let? p := _price (get raw "price") in
  let? volume := match get raw "lots" with
                 | JNull => Ok None
                 | v => let? l := json_float v in let? c := centilots l in Ok (Some c)
                 end in
  Ok {| ack_command_id := id; ack_ok := ok; ack_retcode := retcode; ack_message := text_or_empty raw "msg";
        ack_position := position; ack_deal := deal; ack_order := order; ack_price := p; ack_volume := volume |}.

Definition parse_sync (body : json) : result SyncReport :=
  match body with
  | JObj body =>
      let? ps := _list body "positions" in
      let? positions := rmap parse_position ps in
      let? os := _list body "orders" in
      let? orders := rmap parse_order os in
      let? ds := _list body "deals" in
      let? deals := rmap parse_deal ds in
      let? aks := _list body "acks" in
      let? acks := rmap parse_ack aks in
      let? seq := _require body "seq" json_int "int" "sync" in
      let? ts := _require body "ts" json_int "int" "sync" in
      let? balance := _require body "balance" json_float "float" "sync" in
      let? equity := _require body "equity" json_float "float" "sync" in
      let? margin := _optional body "margin" json_float "float" fzero in
      let? margin_free := _optional body "margin_free" json_float "float" fzero in
      Ok {| sr_seq := seq; sr_ts_ms := ts; sr_balance := balance; sr_equity := equity; sr_margin := margin;
            sr_margin_free := margin_free; sr_positions := positions; sr_orders := orders; sr_deals := deals;
            sr_acks := acks |}
  | _ => Raise (ProtocolError "sync body must be a JSON object")
  end.
End request.

(** ** Writing responses *)

Definition _field (text : string) : result string :=
  if has_char TAB text || has_char LF text || has_char CR text
  then Raise (ProtocolError ("field " +:+ py_repr text +:+ " would break the line format"))
  else Ok text.

(** [None] and 0 are ["0"]; else the shortest text that reads back. *)
Definition _num (value : json) : result string :=
  match value with
  | JNull => Ok "0"
  | _ => let? x := json_float value in
         if feqb x fzero then Ok "0" else Ok (float_repr x)
  end.

(** [p[key]] *)
Definition item (p : payload) (key : string) : result json :=
  match od_get key p with Some v => Ok v | None => Raise (KeyError (py_repr key)) end.

(** [int(p[key])] as a field *)
Definition int_item (p : payload) (key : string) : result string :=
  let? v := item p key in let? z := json_int v in Ok (pretty z).
(** [p[key]] as a field *)
Definition text_item (p : payload) (key : string) : result string :=
  let? v := item p key in Ok (json_str v).
(** [_num(p[key])] and [_num(p.get(key))] *)
Definition num_item (p : payload) (key : string) : result string := let? v := item p key in _num v.
Definition num_get (p : payload) (key : string) : result string := _num (get p key).
(** [p.get("comment", "")] *)
Definition comment_of (p : payload) : string :=
  match od_get "comment" p with Some v => json_str v | None => "" end.
(** [int(p.get("expiry_ms") or 0)] *)
Definition expiry_of (p : payload) : result string :=
  let? z := (if json_bool (get p "expiry_ms") then json_int (get p "expiry_ms") else Ok 0) in Ok (pretty z).

Definition command_fields (cmd : Command) : result (list string) :=
  let p := cmd_payload cmd in
  let coid := default "" (cmd_client_order_id cmd) in
  match cmd_kind_of cmd with
  | KOpen =>
      let? symbol := text_item p "symbol" in let? side := text_item p "side" in
      let? l := num_item p "lots" in let? sl := num_get p "sl" in let? tp := num_get p "tp" in
      Ok [symbol; side; l; sl; tp; comment_of p; coid]
  | KClose =>
      let? position := int_item p "position" in let? l := num_get p "lots" in Ok [position; l]
  | KAmend =>
      let? position := int_item p "position" in
      let? sl := num_get p "sl" in let? tp := num_get p "tp" in Ok [position; sl; tp]
  | KPlacePending =>
      let? symbol := text_item p "symbol" in let? type := text_item p "type" in
      let? l := num_item p "lots" in let? price := num_item p "price" in
      let? sl := num_get p "sl" in let? tp := num_get p "tp" in
      let? expiry := expiry_of p in
      Ok [symbol; type; l; price; sl; tp; expiry; comment_of p; coid]
  | KAmendPending =>
      let? order := int_item p "order" in let? l := num_item p "lots" in
      let? price := num_item p "price" in
      let? sl := num_get p "sl" in let? tp := num_get p "tp" in Ok [order; l; price; sl; tp]
  | KCancelPending => let? order := int_item p "order" in Ok [order]
  end.

Definition command_line (cmd : Command) : result string :=
  let? fields := command_fields cmd in
  let? fields' := rmap _field fields in
  Ok (str_join (String TAB "") (["CMD"; pretty (cmd_id cmd); kind_value (cmd_kind_of cmd)] ++ fields')).

Definition response_head (status : string) (server_ms next_poll_ms : Z)
    (last_deal_ticket : option Z) (reason : option string) : result (list string) :=
  if bool_decide (status = "STOP") then
    let? text := _field (match reason with None | Some "" => "stopped" | Some r => r end) in
    Ok ["STOP"; pretty server_ms; text]
  else if bool_decide (status = "OK") || bool_decide (status = "RETRY") then
    Ok ([status; pretty server_ms; pretty next_poll_ms] ++
        match last_deal_ticket with Some t => [pretty t] | None => [] end)
  else Raise (ProtocolError ("unknown status " +:+ py_repr status)).

Definition encode_response (status : string) (server_ms next_poll_ms : Z) (commands : list Command)
    (last_deal_ticket : option Z) (reason : option string) : result string :=
  let? head := response_head status server_ms next_poll_ms last_deal_ticket reason in
  let? lines := rmap command_line commands in
  Ok (str_join (String LF "") (str_join (String TAB "") head :: lines) +:+ String LF "").

(** ** The terminal's side *)

Definition kind_of_text (s : string) : option cmd_kind :=
  od_get s ((fun k => (kind_value k, k)) <$> [KOpen; KClose; KAmend; KPlacePending; KAmendPending; KCancelPending]).

(** [float(text)] and [int(text)], the [ValueError] as [None] *)
Definition float_field (s : string) : option json := JFloat <$> py_float s.
Definition int_field (s : string) : option json := JInt <$> py_int s.

(** The payload and client order id of a command's fields; [None] stands for
    the [ValueError] of a wrong field count or of a text that is no number. *)
Definition read_fields (kind : cmd_kind) (rest : list string) : option (payload * option string) :=
  match kind, rest with
  | KOpen, [symbol; side; l; sl; tp; comment; coid] =>
      l ← float_field l; sl ← float_field sl; tp ← float_field tp;
      Some ([("symbol", JStr symbol); ("side", JStr side); ("lots", l); ("sl", sl); ("tp", tp);
             ("comment", JStr comment)], Some coid)
  | KClose, [position; l] =>
      position ← int_field position; l ← float_field l;
      Some ([("position", position); ("lots", l)], None)
  | KAmend, [position; sl; tp] =>
      position ← int_field position; sl ← float_field sl; tp ← float_field tp;
      Some ([("position", position); ("sl", sl); ("tp", tp)], None)
  | KPlacePending, [symbol; type; l; price; sl; tp; expiry; comment; coid] =>
      l ← float_field l; price ← float_field price; sl ← float_field sl; tp ← float_field tp;
      expiry ← int_field expiry;
      Some ([("symbol", JStr symbol); ("type", JStr type); ("lots", l); ("price", price); ("sl", sl);
             ("tp", tp); ("expiry_ms", expiry); ("comment", JStr comment)], Some coid)
  | KAmendPending, [order; l; price; sl; tp] =>
      order ← int_field order; l ← float_field l; price ← float_field price;
      sl ← float_field sl; tp ← float_field tp;
      Some ([("order", order); ("lots", l); ("price", price); ("sl", sl); ("tp", tp)], None)
  | KCancelPending, [order] =>
      order ← int_field order; Some ([("order", order)], None)
  | _, _ => None
  end.

Definition bad_line {A} (line : string) : result A :=
  Raise (ProtocolError ("bad command line " +:+ py_repr line)).

Definition read_command (line : string) : result Command :=
  match str_split TAB line with
  | "CMD" :: id :: kind :: rest =>
      match py_int id with
      | None => bad_line line
      | Some command_id =>
          match kind_of_text kind with
          | None => bad_line line
          | Some k =>
              match read_fields k rest with
              | None => bad_line line
              | Some (p, coid) =>
                  Ok {| cmd_id := command_id; cmd_kind_of := k; cmd_payload := p;
                        cmd_client_order_id := match coid with Some "" => None | _ => coid end |}
              end
          end
      end
  | _ => bad_line line
  end.

Definition parse_response (text : string) : result (list string * list Command) :=
  match filter (fun line => line <> "") (str_split LF text) with
  | [] => Raise (ProtocolError "empty response")
  | head :: lines =>
      let? commands := rmap read_command lines in
      Ok (str_split TAB head, commands)
  end.
