(* ===== verification/WireFacts.v ===== *)
(** * The terminal reads what the server wrote

    [decoded] is what a queued command means to a terminal: its texts, its
    tickets, and its numbers with every zero as 0.0.  The round trip shows that
    [parse_response] recovers exactly that from [encode_response]'s text, and
    the commands the outbox builds from intents always qualify. *)

From S2P Require Import Prelude PyStr PyFloat PyRepr Models Db PyJson Protocol Outbox Wire.
From Stdlib Require Import SpecFloat Ascii.

(** ** What a command means *)

Definition plain (s : string) : bool := negb (has_char TAB s || has_char LF s || has_char CR s).

Definition plain_text (s : string) : option string := if plain s then Some s else None.

Definition number (v : json) : option json :=
  match v with
  | JNull => Some (JFloat fzero)
  | _ => match json_float v with
         | Ok x => if valid_binary FPREC FEMAX x then Some (JFloat (if feqb x fzero then fzero else x)) else None
         | Raise _ => None
         end
  end.

Definition ticket (v : json) : option json :=
  match json_int v with Ok z => Some (JInt z) | Raise _ => None end.

Definition decoded_payload (k : cmd_kind) (p : payload) : option payload :=
  match k with
  | KOpen =>
      symbol ← od_get "symbol" p; side ← od_get "side" p; l ← od_get "lots" p;
      symbol ← plain_text (json_str symbol); side ← plain_text (json_str side);
      comment ← plain_text (comment_of p);
      l ← number l; sl ← number (get p "sl"); tp ← number (get p "tp");
      Some [("symbol", JStr symbol); ("side", JStr side); ("lots", l); ("sl", sl); ("tp", tp); ("comment", JStr comment)]
  | KClose =>
      position ← od_get "position" p; position ← ticket position; l ← number (get p "lots");
      Some [("position", position); ("lots", l)]
  | KAmend =>
      position ← od_get "position" p; position ← ticket position;
      sl ← number (get p "sl"); tp ← number (get p "tp");
      Some [("position", position); ("sl", sl); ("tp", tp)]
  | KPlacePending =>
      symbol ← od_get "symbol" p; type ← od_get "type" p; l ← od_get "lots" p; price ← od_get "price" p;
      symbol ← plain_text (json_str symbol); type ← plain_text (json_str type);
      comment ← plain_text (comment_of p);
      l ← number l; price ← number price; sl ← number (get p "sl"); tp ← number (get p "tp");
      expiry ← (if json_bool (get p "expiry_ms") then ticket (get p "expiry_ms") else Some (JInt 0));
      Some [("symbol", JStr symbol); ("type", JStr type); ("lots", l); ("price", price); ("sl", sl); ("tp", tp);
            ("expiry_ms", expiry); ("comment", JStr comment)]
  | KAmendPending =>
      order ← od_get "order" p; order ← ticket order;
      l ← od_get "lots" p; price ← od_get "price" p;
      l ← number l; price ← number price; sl ← number (get p "sl"); tp ← number (get p "tp");
      Some [("order", order); ("lots", l); ("price", price); ("sl", sl); ("tp", tp)]
  | KCancelPending => order ← od_get "order" p; order ← ticket order; Some [("order", order)]
  end.

(** The client order id travels with the two kinds that create an order. *)
Definition decoded_coid (k : cmd_kind) (coid : option string) : option (option string) :=
  match k with
  | KOpen | KPlacePending =>
      coid' ← plain_text (default "" coid); Some (if decide (coid' = "") then None else Some coid')
  | _ => Some None
  end.

Definition decoded (c : Command) : option Command :=
  p ← decoded_payload (cmd_kind_of c) (cmd_payload c);
  coid ← decoded_coid (cmd_kind_of c) (cmd_client_order_id c);
  Some {| cmd_id := cmd_id c; cmd_kind_of := cmd_kind_of c; cmd_payload := p; cmd_client_order_id := coid |}.

(** ** Fields *)

Lemma field_plain s : plain s = true -> _field s = Ok s.
Proof. unfold plain, _field. intros H. apply negb_true_iff in H. by rewrite H. Qed.

Lemma plain_text_spec s t : plain_text s = Some t -> t = s /\ plain s = true.
Proof. unfold plain_text. destruct (plain s); [|done]. by intros [= ->]. Qed.

Lemma plain_no_char s c : plain s = true -> c ∈ [TAB; LF; CR] -> has_char c s = false.
Proof.
  unfold plain. intros H Hc. bsimp. repeat (apply elem_of_cons in Hc as [->|Hc]; [done|]). by apply elem_of_nil in Hc.
Qed.

Lemma no_char_plain s : (forall c, c ∈ [TAB; LF; CR] -> has_char c s = false) -> plain s = true.
Proof. intros H. unfold plain. rewrite !H by set_solver. done. Qed.

Lemma pretty_plain (z : Z) : plain (pretty z) = true.
Proof.
  apply no_char_plain. intros c Hc. apply pretty_Z_no_char.
  repeat (apply elem_of_cons in Hc as [->|Hc]; [done|]). by apply elem_of_nil in Hc.
Qed.

(** A number is written as a plain text that reads back as its value. *)
Lemma num_number v x :
  number v = Some x -> exists t, _num v = Ok t /\ plain t = true /\ float_field t = Some x.
Proof.
  assert (forall f, json_float v = Ok f -> valid_binary FPREC FEMAX f = true ->
    exists t, (let? x := json_float v in if feqb x fzero then Ok "0" else Ok (float_repr x)) = Ok t /\ plain t = true /\
      float_field t = Some (JFloat (if feqb f fzero then fzero else f))) as H.
  { intros f Hf Hv. rewrite Hf. simpl. destruct (feqb f fzero).
    - by exists "0".
    - exists (float_repr f). split; [done|]. split; [by apply no_char_plain; intros; apply float_repr_plain|].
      unfold float_field. by rewrite py_float_repr. }
  unfold number, _num. destruct v; try (intros [= <-]; by exists "0"); destruct (json_float _) as [fx|ex] eqn:E; try done;
    (destruct (valid_binary FPREC FEMAX fx) eqn:Hv; [|done]); intros [= <-]; by apply H.
Qed.

Lemma int_ticket v x : ticket v = Some x -> exists z, json_int v = Ok z /\ x = JInt z.
Proof. unfold ticket. destruct (json_int v) as [z|]; [|done]. intros [= <-]. by exists z. Qed.

Lemma expiry_read p x :
  (if json_bool (get p "expiry_ms") then ticket (get p "expiry_ms") else Some (JInt 0)) = Some x ->
  exists z, expiry_of p = Ok (pretty z) /\ x = JInt z.
Proof.
  unfold expiry_of. destruct (json_bool _); [|intros [= <-]; by exists 0].
  intros (z & -> & ->)%int_ticket. by exists z.
Qed.

Lemma coid_back s :
  (if decide (s = "") then None else Some s) = match Some s with Some "" => None | _ => Some s end.
Proof. by destruct s. Qed.

Lemma int_field_pretty z : int_field (pretty z) = Some (JInt z).
Proof. unfold int_field. by rewrite py_int_pretty. Qed.

(** Break the option chain of [decoded_payload]. *)
Ltac obind H :=
  repeat match type of H with
  | (_ ≫= _) = Some _ => apply bind_Some in H; destruct H as (? & ? & H)
  end.

(** The fields of a command are plain and read back as what it means. *)
Lemma command_fields_read c p coid :
  decoded_payload (cmd_kind_of c) (cmd_payload c) = Some p ->
  decoded_coid (cmd_kind_of c) (cmd_client_order_id c) = Some coid ->
  exists fs coid', command_fields c = Ok fs /\ Forall (fun f => plain f = true) fs /\
    read_fields (cmd_kind_of c) fs = Some (p, coid') /\ coid = match coid' with Some "" => None | _ => coid' end.
Proof.
  intros Hp Hc. unfold command_fields. destruct (cmd_kind_of c); cbn [decoded_payload decoded_coid] in Hp, Hc;
    obind Hp; obind Hc; simplify_eq;
    repeat match goal with
    | H : number _ = Some _ |- _ => apply num_number in H as (? & ? & ? & ?)
    | H : ticket _ = Some _ |- _ => apply int_ticket in H as (? & ? & ->)
    | H : plain_text _ = Some _ |- _ => apply plain_text_spec in H as [-> ?]
    end;
    unfold text_item, int_item, num_item, num_get, item;
    repeat match goal with H : od_get _ _ = Some _ |- _ => rewrite H; clear H end; cbn [rbind].
  all: repeat match goal with H : _num _ = Ok _ |- _ => rewrite H; clear H end; cbn [rbind].
  all: repeat match goal with H : json_int _ = Ok _ |- _ => rewrite H; clear H end; cbn [rbind].
  4: match goal with H : (if json_bool _ then _ else _) = Some _ |- _ => apply expiry_read in H as (? & -> & ->) end; cbn [rbind].
  all: eexists _, _; split; [done|]; split; [repeat constructor; done || apply pretty_plain|].
  all: cbn [read_fields].
  all: repeat match goal with H : float_field _ = Some _ |- _ => rewrite H; clear H end; rewrite ?int_field_pretty; cbn [mbind option_bind].
  all: split; [reflexivity|]; done || apply coid_back.
Qed.

(** ** Lines *)

Lemma rmap_ok {A} (f : A -> result A) l : (forall x, x ∈ l -> f x = Ok x) -> rmap f l = Ok l.
Proof.
  induction l as [|x l IH]; intros H; simpl; [done|]. rewrite H by set_solver. simpl.
  rewrite IH by set_solver. done.
Qed.

Lemma str_join_no_char c sep ws :
  has_char c sep = false -> Forall (fun w => has_char c w = false) ws -> has_char c (str_join sep ws) = false.
Proof.
  intros Hs. induction 1 as [|w ws Hw Hws IH]; [done|]. destruct ws; [done|].
  change (has_char c (w +:+ sep +:+ str_join sep (s :: ws)) = false). by rewrite !has_char_app, Hw, Hs, IH.
Qed.

Lemma kind_of_kind_value k : kind_of_text (kind_value k) = Some k.
Proof. by destruct k. Qed.

Lemma kind_value_plain k : plain (kind_value k) = true.
Proof. by destruct k. Qed.

(** A command's line: no line break in it, not empty, and read back. *)
Lemma command_line_read c c' :
  decoded c = Some c' ->
  exists line, command_line c = Ok line /\ has_char LF line = false /\ line <> "" /\ read_command line = Ok c'.
Proof.
  unfold decoded. intros H. obind H. simplify_eq.
  destruct (command_fields_read c _ _ H0 H1) as (fs & coid' & Hf & Hpl & Hr & ->).
  unfold command_line. rewrite Hf. cbn [rbind].
  rewrite rmap_ok by (intros f Hin; apply field_plain; by eapply Forall_forall in Hin; [|exact Hpl]). cbn [rbind].
  set (ws := ["CMD"; pretty (cmd_id c); kind_value (cmd_kind_of c)] ++ fs).
  assert (Forall (fun w => plain w = true) ws) as Hws.
  { subst ws. repeat constructor; [apply pretty_plain|apply kind_value_plain|done]. }
  assert (forall ch, ch ∈ [TAB; LF; CR] -> Forall (fun w => has_char ch w = false) ws) as Hno.
  { intros ch Hch. eapply Forall_impl; [exact Hws|]. intros w Hw. by apply plain_no_char. }
  eexists. split; [reflexivity|]. split; [apply str_join_no_char; [done|apply Hno; set_solver]|]. split; [by subst ws|].
  unfold read_command. rewrite str_split_join by ((by subst ws) || (apply Hno; set_solver)). subst ws. cbn [app].
  rewrite py_int_pretty, kind_of_kind_value, Hr. reflexivity.
Qed.

Lemma command_lines_read cs cs' :
  mapM decoded cs = Some cs' ->
  exists lines, rmap command_line cs = Ok lines /\ Forall (fun l => has_char LF l = false /\ l <> "") lines /\
    rmap read_command lines = Ok cs'.
Proof.
  revert cs'. induction cs as [|c cs IH]; intros cs'; csimpl; [intros [= <-]; by exists []|].
  intros H. obind H. simplify_eq. destruct (IH _ H1) as (lines & E1 & E2 & E3).
  destruct (command_line_read _ _ H0) as (line & F1 & F2 & F3 & F4).
  exists (line :: lines). simpl. rewrite E1, F1, F4. simpl. rewrite E3. split; [done|]. split; [by constructor|]. by injection H as <-.
Qed.

(** The response's lines, without the empty one behind the last line break. *)
Lemma response_lines ls :
  ls <> [] -> Forall (fun l => has_char LF l = false /\ l <> "") ls ->
  filter (fun line => line <> "") (str_split LF (str_join (String LF "") ls +:+ String LF "")) = ls.
Proof.
  intros Hne Hls. assert (str_join (String LF "") ls +:+ String LF "" = str_join (String LF "") (ls ++ [""])) as ->.
  { clear Hls. induction ls as [|l ls IH]; [done|]. destruct ls as [|l' ls]; [done|].
    change ((l +:+ String LF (str_join (String LF "") (l' :: ls))) +:+ String LF "" =
            l +:+ String LF (str_join (String LF "") ((l' :: ls) ++ [""]))).
    rewrite str_app_assoc, str_app_cons. by rewrite IH. }
  rewrite str_split_join.
  - rewrite filter_app. replace (filter _ [""]) with (@nil string) by done. rewrite app_nil_r.
    apply filter_Forall. by eapply Forall_impl; [exact Hls|]; intros l [? ?].
  - by destruct ls.
  - apply Forall_app. split; [by eapply Forall_impl; [exact Hls|]; intros l [? ?]|by repeat constructor].
Qed.

Definition status_line (status : string) (server_ms next_poll_ms : Z) (last : option Z) : list string :=
  [status; pretty server_ms; pretty next_poll_ms] ++ match last with Some t => [pretty t] | None => [] end.

Lemma round_trip_lines head ls cs :
  head <> [] -> Forall (fun w => plain w = true) head -> str_join (String TAB "") head <> "" ->
  Forall (fun l => has_char LF l = false /\ l <> "") ls -> rmap read_command ls = Ok cs ->
  parse_response (str_join (String LF "") (str_join (String TAB "") head :: ls) +:+ String LF "") = Ok (head, cs).
Proof.
  intros Hne Hpl Hj Hls Hr. unfold parse_response. rewrite response_lines; [|done|].
  - rewrite Hr. simpl. rewrite str_split_join; [done|done|].
    eapply Forall_impl; [exact Hpl|]. intros w Hw. apply plain_no_char; [done|set_solver].
  - constructor; [|done]. split; [|done]. apply str_join_no_char; [done|].
    eapply Forall_impl; [exact Hpl|]. intros w Hw. apply plain_no_char; [done|set_solver].
Qed.


(** ** The outbox's commands *)

(** The float a terminal gets for a price the copier holds. *)
Definition wire_zero (x : float64) : float64 := if feqb x fzero then fzero else x.

Lemma lots_valid v : valid_binary FPREC FEMAX (lots v) = true.
Proof.
  unfold lots. destruct (int_truediv v CENTILOTS) as [x|] eqn:E; [|done]. apply int_truediv_valid in E.
  unfold py_round2. destruct x as [s|s| |s m e]; try done. set (n := if 0 <=? e then _ else _).
  destruct n as [|p|p] eqn:En; [done| |]; destruct (int_truediv _ 100) as [y|] eqn:Ey; try done; simpl;
    by apply int_truediv_valid in Ey.
Qed.

Lemma number_float x : valid_binary FPREC FEMAX x = true -> number (JFloat x) = Some (JFloat (wire_zero x)).
Proof. unfold number. simpl. by intros ->. Qed.

Lemma number_price p :
  match p with Some x => valid_binary FPREC FEMAX x = true | None => True end ->
  number (Outbox._price p) = Some (JFloat (wire_zero (default fzero p))).
Proof. intros H. apply number_float. by destruct p. Qed.

(** The same value with its zeros made positive. *)
Definition zeroed (v : json) : json := match v with JFloat x => JFloat (wire_zero x) | _ => v end.

Definition as_read (c : Command) : Command :=
  {| cmd_id := cmd_id c; cmd_kind_of := cmd_kind_of c; cmd_payload := prod_map id zeroed <$> cmd_payload c;
     cmd_client_order_id := cmd_client_order_id c |}.

Definition is_double (x : float64) : Prop := valid_binary FPREC FEMAX x = true.
Definition price_double (p : price) : Prop := match p with Some x => is_double x | None => True end.

(** What the copier always has: doubles for prices, labels and symbols on one
    line, a known ticket for an order to change. *)
Definition intent_ready (i : SlaveIntent) (broker_symbol : string) : Prop :=
  plain broker_symbol = true /\
  match i with
  | IOpenMarket i => plain (om_label i) = true /\ price_double (om_stop_loss i) /\ price_double (om_take_profit i)
  | IAmendPositionSLTP i => price_double (ap_stop_loss i) /\ price_double (ap_take_profit i)
  | IPlacePending i =>
      plain (pp_label i) = true /\ is_double (pp_price i) /\ price_double (pp_stop_loss i) /\ price_double (pp_take_profit i)
  | IAmendPending i =>
      is_Some (ao_order_id i) /\ is_double (ao_price i) /\ price_double (ao_stop_loss i) /\ price_double (ao_take_profit i)
  | ICancelPending i => is_Some (co_order_id i)
  | _ => True
  end.

Lemma plain_app s t : plain (s +:+ t) = plain s && plain t.
Proof.
  unfold plain. rewrite !has_char_app. by destruct (has_char TAB s), (has_char LF s), (has_char CR s),
    (has_char TAB t), (has_char LF t), (has_char CR t).
Qed.

Lemma plain_text_plain s : plain s = true -> plain_text s = Some s.
Proof. unfold plain_text. by intros ->. Qed.

Lemma coid_plain a b c : plain a = true -> plain (a +:+ pretty (b : Z) +:+ "." +:+ pretty (c : Z)) = true.
Proof. intros H. by rewrite !plain_app, H, !pretty_plain. Qed.

Lemma decoded_coid_some k s :
  (k = KOpen \/ k = KPlacePending) -> plain s = true -> s <> "" -> decoded_coid k (Some s) = Some (Some s).
Proof. intros Hk Hp Hs. unfold decoded_coid. simpl. rewrite plain_text_plain by done. simpl. rewrite decide_False by done. by destruct Hk as [-> | ->]. Qed.

(** Every command the outbox builds from such an intent means to the terminal
    what was queued. *)
Lemma intent_command_decoded i broker_symbol kind p command_id :
  intent_ready i broker_symbol -> command_for_intent i broker_symbol = Ok (kind, p) ->
  let c := {| cmd_id := command_id; cmd_kind_of := kind; cmd_payload := p; cmd_client_order_id := client_order_id_for i |} in
  decoded c = Some (as_read c).
Proof.
  intros [Hsym Hi] Hc c. unfold decoded, as_read. subst c. cbn [cmd_kind_of cmd_payload cmd_client_order_id cmd_id].
  assert (forall q, price_double q -> valid_binary FPREC FEMAX (default fzero q) = true) as Hpr by (by intros []).
  destruct i as [i|i|i|i|i|i|i|i]; simpl in Hc; simplify_eq; simpl in Hi; destruct_and?;
    repeat match goal with H : is_Some ?o |- _ => destruct H as [? H]; try rewrite H in * end;
    cbn [decoded_payload od_get get default comment_of mbind option_bind]; csimpl;
    rewrite ?lots_valid, ?Hpr by done; unfold is_double in *;
    repeat match goal with H : valid_binary _ _ _ = true |- _ => rewrite H; clear H end; csimpl.
  - rewrite (plain_text_plain broker_symbol), (plain_text_plain (side_value _)) by (done || by destruct (om_side i)).
    csimpl. unfold comment_of. csimpl. rewrite !plain_text_plain by (done || by apply coid_plain). csimpl.
    done.
  - done.
  - done.
  - rewrite (plain_text_plain broker_symbol) by done. csimpl.
    rewrite (plain_text_plain (side_value _ +:+ _)) by (by destruct (pp_side i), (pp_order_type i)).
    csimpl. unfold comment_of. csimpl. rewrite !plain_text_plain by (done || by apply coid_plain). csimpl.
    destruct (Z.eqb_spec (default 0 (pp_expiry_ts_ms i)) 0) as [-> | ?]; done.
  - done.
  - done.
Qed.

(** ** Example *)

Definition demo_open : Command :=
  {| cmd_id := 12; cmd_kind_of := KOpen;
     cmd_payload := [("symbol", JStr "EURUSD.m"); ("side", JStr "BUY"); ("lots", JFloat (lots 7));
                     ("sl", JFloat (float_of_dec false 108456 (-5))); ("tp", JFloat fzero); ("comment", JStr "copy:m5")];
     cmd_client_order_id := Some "cm5.77" |}.
Definition demo_close : Command :=
  {| cmd_id := 13; cmd_kind_of := KClose; cmd_payload := [("position", JInt 991)]; cmd_client_order_id := None |}.
Definition demo_close_read : Command :=
  {| cmd_id := 13; cmd_kind_of := KClose; cmd_payload := [("position", JInt 991); ("lots", JFloat fzero)];
     cmd_client_order_id := None |}.

Example demo_line :
  command_line demo_open = Ok (str_join (String TAB "") ["CMD"; "12"; "open"; "EURUSD.m"; "BUY"; "0.07"; "1.08456"; "0"; "copy:m5"; "cm5.77"]).
Proof. vm_compute. reflexivity. Qed.


(** A report whose lots are too large for a double (1e999 in JSON) is not
    refused as a bad report: the conversion's [OverflowError] passes through. *)
Definition overflowing_report : json :=
  JObj [("seq", JInt 1); ("ts", JInt 1); ("balance", JInt 0); ("equity", JInt 0);
        ("acks", JList [JObj [("id", JInt 1); ("ok", JBool true); ("lots", JFloat (S754_infinity false))]])].

Lemma overflow_is_not_refused :
  exists e, parse_sync overflowing_report = Raise e /\ is_value_error e = false.
Proof. eexists. split; vm_compute; reflexivity. Qed.
