(* ===== verification/Symbols.v ===== *)
(** * Symbol names of the MT5 bridge: [copier/mt5/symbols.py]

    The guess which broker name stands for which canonical instrument, and the
    integer ids minted for broker names ([zlib.crc32] with probing).  Names are
    byte strings; upper-casing is ASCII. *)

From S2P Require Import Prelude PyStr PyFloat Models Db Protocol Wire.
From Stdlib Require Import Ascii.

(** ** Names *)

Definition SYNONYMS : list (string * string) :=
  [("GOLD", "XAUUSD"); ("XAUUSD", "XAUUSD"); ("SILVER", "XAGUSD"); ("XAGUSD", "XAGUSD"); ("USTEC", "NAS100");
   ("NAS100", "NAS100"); ("DE40", "GER40"); ("GER40", "GER40"); ("US30", "US30"); ("DJ30", "US30"); ("US500", "US500");
   ("SPX500", "US500"); ("UK100", "UK100"); ("USOIL", "USOIL"); ("WTI", "USOIL"); ("OIL", "USOIL"); ("BRENT", "UKOIL");
   ("UKOIL", "UKOIL"); ("BTCUSD", "BTCUSD"); ("BITCOIN", "BTCUSD"); ("ETHUSD", "ETHUSD")].

Definition SUFFIXES : list string := [".ECN"; ".PRO"; ".R"; ".X"; ".M"; ".I"; "_I"].
Definition TRAILING_LETTERS : list ascii := ["M"; "C"; "I"]%char.

Definition is_upper (c : ascii) : bool := (65 <=? Z.of_nat (nat_of_ascii c)) && (Z.of_nat (nat_of_ascii c) <=? 90).
Definition is_alnum (c : ascii) : bool := is_upper c || is_digit c.

(** [_FX_PAIR.fullmatch] *)
Definition _FX_PAIR (s : string) : bool := (String.length s =? 6)%nat && str_all is_upper s.

(** [_NOT_ALNUM.sub(..., s)] with the empty replacement *)
Fixpoint drop_not_alnum (s : string) : string :=
  match s with
  | EmptyString => EmptyString
  | String c s' => if is_alnum c then String c (drop_not_alnum s') else drop_not_alnum s'
  end.

Definition _is_known (stem : string) : bool := od_mem stem SYNONYMS || _FX_PAIR stem.

(** The loop over [SUFFIXES], left at the first that fits. *)
Fixpoint strip_suffix (suffixes : list string) (upper : string) : string :=
  match suffixes with
  | [] => upper
  | sx :: rest => if str_ends sx upper && (String.length sx <? String.length upper)%nat
                  then str_take (String.length upper - String.length sx) upper
                  else strip_suffix rest upper
  end.

(** [stem[:-1]] and [stem[-1]] *)
Definition all_but_last (s : string) : string := str_take (String.length s - 1) s.
Definition last_char (s : string) : option ascii :=
  match str_drop (String.length s - 1) s with String c EmptyString => Some c | _ => None end.

Definition normalise_symbol (n : string) : string :=
  let stem := drop_not_alnum (strip_suffix SUFFIXES (str_upper (str_strip n))) in
  match od_get stem SYNONYMS with
  | Some c => c
  | None =>
      let short := all_but_last stem in
      if (1 <? String.length stem)%nat &&
         match last_char stem with Some c => bool_decide (c ∈ TRAILING_LETTERS) | None => false end && _is_known short
      then default short (od_get short SYNONYMS)
      else stem
  end.

(** ** Ids *)

Fixpoint crc_shift (n : nat) (c : Z) : Z :=
  match n with
  | O => c
  | S n' => crc_shift n' (if Z.odd c then Z.lxor (Z.shiftr c 1) 0xEDB88320 else Z.shiftr c 1)
  end.

Fixpoint crc_bytes (s : string) (c : Z) : Z :=
  match s with
  | EmptyString => c
  | String a s' => crc_bytes s' (crc_shift 8 (Z.lxor c (Z.of_nat (nat_of_ascii a))))
  end.

(** [zlib.crc32] *)
Definition crc32 (s : string) : Z := Z.lxor (crc_bytes s 0xFFFFFFFF) 0xFFFFFFFF.

Example crc32_check : crc32 "123456789" = 0xCBF43926.
Proof. reflexivity. Qed.

(** [while symbol_id in taken: symbol_id += 1]; one more round than there are
    taken ids is enough. *)
Fixpoint probe (fuel : nat) (id : Z) (taken : gset Z) : Z :=
  match fuel with
  | O => id
  | S n => if bool_decide (id ∈ taken) then probe n (id + 1) taken else id
  end.

Definition symbol_id_for (n : string) (taken : gset Z) : Z :=
  probe (S (size taken)) (Z.land (crc32 n) 0x7FFFFFFF) taken.

Definition symbol_info (s : HelloSymbol) (id : Z) : result SymbolInfo :=
  let? mn := py_round (fmul (hs_volume_min s) (f_of_Z CENTILOTS)) in
  let? step := py_round (fmul (hs_volume_step s) (f_of_Z CENTILOTS)) in
  Ok {| symbol_id := id; name := hs_name s; digits := hs_digits s; lot_size := CENTILOTS;
        min_volume := mn; step_volume := Z.max 1 step |}.

Fixpoint infos_from (taken : gset Z) (symbols : list HelloSymbol) : result (list SymbolInfo) :=
  match symbols with
  | [] => Ok []
  | s :: rest =>
      let id := symbol_id_for (hs_name s) taken in
      let? info := symbol_info s id in
      let? infos := infos_from ({[id]} ∪ taken) rest in
      Ok (info :: infos)
  end.

Definition symbol_infos_from_hello (symbols : list HelloSymbol) : result (list SymbolInfo) := infos_from ∅ symbols.

(** ** Matching *)

(** [by_stem.setdefault(normalise_symbol(b), b)] over the broker names *)
Definition by_stem (brokers : list string) : list (string * string) :=
  foldl (fun d b => if od_mem (normalise_symbol b) d then d else od_set (normalise_symbol b) b d) [] brokers.

Definition match_one (brokers : list string) (stems : list (string * string)) (c : string) : option string :=
  if bool_decide (c ∈ brokers) then Some c else od_get (normalise_symbol c) stems.

Definition auto_match (canonical_names broker_names : list string) : list (string * string) :=
  let stems := by_stem broker_names in
  foldl (fun out c => match match_one broker_names stems c with Some b => od_set c b out | None => out end)
    [] canonical_names.

(** ** Ids are unique *)

Lemma probe_fresh fuel (id : Z) (taken : gset Z) :
  Nat.lt (size (filter (fun k => id <= k) taken)) fuel -> (probe fuel id taken ∉ taken) /\ id <= probe fuel id taken.
Proof.
  revert id. induction fuel as [|n IH]; intros id H; [lia|]. simpl. case_bool_decide as Hin; [|done].
  destruct (IH (id + 1)) as [H1 H2]; [|split; [done|lia]].
  assert (filter (fun k => id + 1 <= k) taken ⊂ filter (fun k => id <= k) taken) as Hsub%subset_size; [|lia].
  split; [intros k; rewrite !elem_of_filter; intros [? ?]; split; [lia|done]|].
  intros Hsub. specialize (Hsub id). rewrite !elem_of_filter in Hsub. destruct Hsub; [|lia]. split; [lia|done].
Qed.

Lemma symbol_id_fresh n taken : (symbol_id_for n taken ∉ taken) /\ 0 <= symbol_id_for n taken.
Proof.
  unfold symbol_id_for. set (id := Z.land _ _).
  destruct (probe_fresh (S (size taken)) id taken) as [H1 H2].
  { assert (filter (fun k => id <= k) taken ⊆ taken) as Hs%subseteq_size by set_solver. lia. }
  split; [done|]. assert (0 <= id); [|lia]. unfold id. apply Z.land_nonneg. right. lia.
Qed.

Lemma infos_from_spec taken symbols infos :
  infos_from taken symbols = Ok infos ->
  (name <$> infos) = (hs_name <$> symbols) /\ NoDup (symbol_id <$> infos) /\
  Forall (fun i => (symbol_id i ∉ taken) /\ 0 <= symbol_id i /\ lot_size i = CENTILOTS /\ 1 <= step_volume i) infos.
Proof.
  revert taken infos. induction symbols as [|s rest IH]; intros taken infos H; simpl in H.
  { injection H as <-. split_and!; [done|constructor|constructor]. }
  destruct (symbol_info s _) as [i|] eqn:Ei; [|done]. simpl in H.
  destruct (infos_from _ rest) as [is_|] eqn:Er; [|done]. simpl in H. injection H as <-.
  destruct (IH _ _ Er) as (Hn & Hnd & Hall). unfold symbol_info in Ei.
  destruct (py_round (fmul (hs_volume_min s) _)); [|done]. simpl in Ei. destruct (py_round _); [|done]. simpl in Ei.
  injection Ei as <-. destruct (symbol_id_fresh (hs_name s) taken) as [H1 H2]. rewrite !fmap_cons. split_and!.
  - simpl. by rewrite Hn.
  - constructor; [|done]. intros Hin. apply list_elem_of_fmap in Hin as (x & Hx & Hin).
    apply (Forall_forall _ _) with (x := x) in Hall; [|done]. destruct Hall as [Hne _]. apply Hne. set_solver.
  - constructor; [split_and!; simpl; [done|done|done|lia]|]. eapply Forall_impl; [exact Hall|]. intros x (? & ? & ? & ?). set_solver.
Qed.

(** The ids minted for a terminal's symbols are pairwise different and not
    negative, one row per symbol in the order of the report, whatever the names
    and however their hashes collide; every row has lots of a hundred units and
    a volume step of at least one. *)
Theorem symbol_ids_unique symbols infos :
  symbol_infos_from_hello symbols = Ok infos ->
  (name <$> infos) = (hs_name <$> symbols) /\ NoDup (symbol_id <$> infos) /\
  Forall (fun i => 0 <= symbol_id i /\ lot_size i = CENTILOTS /\ 1 <= step_volume i) infos.
Proof.
  intros H. destruct (infos_from_spec _ _ _ H) as (Hn & Hd & Hall). split_and!; [done|done|].
  eapply Forall_impl; [exact Hall|]. intros x (_ & ? & ? & ?). done.
Qed.

(** ** Matching is exact or by stem *)

Lemma head_filter_snoc {A} (P : A -> Prop) `{!forall x, Decision (P x)} l x :
  head (filter P (l ++ [x])) = match head (filter P l) with Some y => Some y | None => if decide (P x) then Some x else None end.
Proof. rewrite filter_app, filter_cons, filter_nil. destruct (filter P l); simpl; [by case_decide|done]. Qed.

Lemma by_stem_get brokers st :
  od_get st (by_stem brokers) = head (filter (fun b => normalise_symbol b = st) brokers).
Proof.
  unfold by_stem. induction brokers as [|b brokers IH] using rev_ind; [done|].
  rewrite foldl_snoc, head_filter_snoc, <- IH. set (d := foldl _ [] brokers). unfold od_mem.
  destruct (od_get (normalise_symbol b) d) as [y|] eqn:Eb.
  - destruct (od_get st d) eqn:Es; [done|]. rewrite decide_False; [done|]. intros <-. congruence.
  - rewrite od_get_set. destruct (decide (st = normalise_symbol b)) as [->|Hne]; [by rewrite Eb, decide_True|].
    rewrite (decide_False (P := normalise_symbol b = st)) by done. by destruct (od_get st d).
Qed.

(** A canonical name is matched with the broker's symbol of that very name, or
    else with the broker's first symbol that normalises to the same stem; a name
    with neither is left out, and nothing else is matched. *)
Theorem auto_match_exact canonical_names broker_names c :
  od_get c (auto_match canonical_names broker_names) =
  if decide (c ∈ canonical_names)
  then if decide (c ∈ broker_names) then Some c
       else head (filter (fun b => normalise_symbol b = normalise_symbol c) broker_names)
  else None.
Proof.
  unfold auto_match. induction canonical_names as [|x l IH] using rev_ind; [done|]. rewrite foldl_snoc.
  set (out := foldl _ [] l) in *.
  assert (match_one broker_names (by_stem broker_names) x =
    if decide (x ∈ broker_names) then Some x else head (filter (fun b => normalise_symbol b = normalise_symbol x) broker_names)) as Hx.
  { unfold match_one. rewrite by_stem_get. clear IH. case_bool_decide; case_decide; done. }
  destruct (decide (c = x)) as [->|Hne].
  - rewrite (decide_True (P := x ∈ l ++ [x])) by set_solver. rewrite <- Hx.
    destruct (match_one _ _ x) as [b|] eqn:Em; [by rewrite od_get_set, decide_True|].
    rewrite IH, <- Hx. by destruct (decide (x ∈ l)).
  - assert (od_get c (match match_one broker_names (by_stem broker_names) x with Some b => od_set x b out | None => out end)
      = od_get c out) as ->.
    { destruct (match_one _ _ x); [|done]. by rewrite od_get_set, decide_False. }
    rewrite IH. destruct (decide (c ∈ l)); [by rewrite (decide_True (P := c ∈ l ++ [x])) by set_solver|].
    by rewrite (decide_False (P := c ∈ l ++ [x])) by set_solver.
Qed.

Example auto_match_demo :
  auto_match ["EURUSD"; "XAUUSD"; "US30"; "GER40"] ["EURUSDm"; "GOLD.r"; "US30"; "DJ30"; "Wheat"] =
  [("EURUSD", "EURUSDm"); ("XAUUSD", "GOLD.r"); ("US30", "US30")].
Proof. reflexivity. Qed.
