(* ===== verification/OutboxFacts.v ===== *)
(** * Facts about the MT5 outbox

    Client order ids name their copy, the command table's life cycle
    (queued, sent at most three times, settled once), and acknowledgements
    that may be repeated.  The last section: any relation that updates of command
    rows, of mapping rows and the log respect holds across a poll, across
    acknowledgements and across the calls of the repository they make. *)

From S2P Require Import Prelude PyStr PyFloat Models Db Repo RepoFacts Protocol Outbox.
From Stdlib Require Import Ascii.

(** ** Client order ids *)

Lemma pretty_Z_inj (x y : Z) : pretty x = pretty y -> x = y.
Proof. intros H. apply (f_equal py_int) in H. rewrite !py_int_pretty in H. congruence. Qed.

Lemma pretty_no_dot (z : Z) : has_char "."%char (pretty z) = false.
Proof. by apply pretty_Z_no_char. Qed.

Lemma dotted_inj (a b c d : Z) :
  pretty a +:+ "." +:+ pretty b = pretty c +:+ "." +:+ pretty d -> a = c /\ b = d.
Proof.
  intros H. destruct (str_sep_inj "."%char (pretty a) (pretty c) (pretty b) (pretty d)) as [H1 H2];
    [apply pretty_no_dot|apply pretty_no_dot|done|].
  split; by apply pretty_Z_inj.
Qed.

(** What an id names: a position or a pending order of the master, and the
    slave account. *)
Definition names (i : SlaveIntent) : option (bool * Z * Z) :=
  match i with
  | IOpenMarket i => Some (true, om_master_position_id i, om_slave_account_id i)
  | IPlacePending i => Some (false, pp_master_order_id i, pp_slave_account_id i)
  | _ => None
  end.

Lemma coid_not_close i c : client_order_id_for i = Some c -> str_ends CLOSE_SUFFIX c = false.
Proof.
  intros H. apply str_ends_no_char.
  destruct i; simplify_eq/=; rewrite !has_char_app, !(pretty_Z_no_char ":"%char) by done; done.
Qed.

Lemma coid_injective i j c :
  client_order_id_for i = Some c -> client_order_id_for j = Some c -> names i = names j.
Proof.
  destruct i, j; intros Hi Hj; rewrite <-Hj in Hi; try discriminate; injection Hi;
    intros Heq; apply dotted_inj in Heq as [Hm Ha]; simpl; by rewrite Hm, Ha.
Qed.

Lemma settle_close (coid : string) :
  settle_names KOpen (Some (coid +:+ CLOSE_SUFFIX)) = (KClose, Some coid).
Proof.
  unfold settle_names. rewrite str_ends_app. simpl.
  rewrite bool_decide_false by by destruct coid.
  rewrite str_length_app.
  replace (String.length coid + String.length CLOSE_SUFFIX - 6)%nat with (String.length coid)
    by (simpl; lia).
  by rewrite str_take_app.
Qed.

(** Client order ids name exactly one copy.  Two intents with the same id
    open the same master position (or place the same master order) on the same
    slave account; and when a terminal acknowledges a command, the outcome
    names the copy it belongs to: an open or a pending order its own id, the
    netting close of a copy that copy's id as a close. *)
Theorem client_order_ids_name_copies i j c :
  client_order_id_for i = Some c ->
  (client_order_id_for j = Some c -> names i = names j) /\
  (forall kind, settle_names kind (Some c) = (kind, Some c)) /\
  settle_names KOpen (Some (c +:+ CLOSE_SUFFIX)) = (KClose, Some c).
Proof.
  intros Hi. split; [by intros; eapply coid_injective|]. split; [|apply settle_close].
  intros kind. unfold settle_names. rewrite (coid_not_close i c Hi). by destruct kind.
Qed.

Definition demo_open (pos acct : Z) : SlaveIntent :=
  IOpenMarket {| om_slave_account_id := acct; om_master_position_id := pos; om_symbol_id := 1;
    om_side := BUY; om_volume := 100; om_stop_loss := None; om_take_profit := None;
    om_label := "copy:m7"; om_symbol_name := "EURUSD"; om_entry_price := None |}.

Lemma client_order_ids_name_copies_witness :
  client_order_id_for (demo_open 7 11) = Some "cm7.11" /\
  settle_names KOpen (Some "cm7.11:close") = (KClose, Some "cm7.11").
Proof.
  assert (client_order_id_for (demo_open 7 11) = Some "cm7.11") as H by (vm_compute; reflexivity).
  split; [exact H|].
  destruct (client_order_ids_name_copies (demo_open 7 11) (demo_open 7 11) "cm7.11" H) as (_ & _ & Hc).
  exact Hc.
Defined.

(** ** The command life cycle *)

Definition cmd_ok (c : command_row) : Prop :=
  0 <= c_attempts c <= MAX_ATTEMPTS /\ (c_status c = Queued -> c_attempts c = 0).

Record cmds_inv (s : db) : Prop := {
  ci_ids : NoDup (c_id <$> db_commands s);
  ci_next : Forall (fun c => c_id c < db_next_command_id s) (db_commands s);
  ci_rows : Forall cmd_ok (db_commands s)
}.

(** Ids alone *)
Definition cmd_ids_inv (s : db) : Prop :=
  NoDup (c_id <$> db_commands s) /\ Forall (fun i => i < db_next_command_id s) (c_id <$> db_commands s).

(** What never changes about a command. *)
Definition meta (c : command_row) :=
  (c_id c, c_account_id c, c_org_id c, c_kind c, c_payload c, c_client_order_id c, c_created_at c).

(** Queued, sent, settled *)
Definition stage (st : cmd_status) : Z := match st with Queued => 0 | Sent => 1 | Done | CmdFailed => 2 end.

(** A status only moves forward, and a settled command is final; attempts only grow. *)
Definition cmd_step (c c' : command_row) : Prop :=
  meta c' = meta c /\ (is_open_status (c_status c) = false -> c' = c) /\
  c_attempts c <= c_attempts c' /\ stage (c_status c) <= stage (c_status c').

(** The table only grows at its end, and every row in it moves by [cmd_step]. *)
Definition cmds_evolve (s s' : db) : Prop :=
  exists kept new, db_commands s' = kept ++ new /\ Forall2 cmd_step (db_commands s) kept.

#[export] Instance cmd_step_refl : Reflexive cmd_step.
Proof. intros c. split; [done|]. split; [done|split; lia]. Qed.
#[export] Instance cmd_step_trans : Transitive cmd_step.
Proof.
  intros a b c (Hm & Hs & Ha & Hr) (Hm' & Hs' & Ha' & Hr'). split; [congruence|]. split; [|split; lia].
  intros H. specialize (Hs H). subst b. auto.
Qed.

Definition keeps_cmds (s s' : db) : Prop := cmds_inv s -> cmds_inv s' /\ cmds_evolve s s'.

Lemma cmds_evolve_refl s : cmds_evolve s s.
Proof. exists (db_commands s), []. split; [by rewrite app_nil_r|]. by apply Forall_Forall2_diag, Forall_true. Qed.

#[export] Instance keeps_cmds_refl : Reflexive keeps_cmds.
Proof. intros s H. split; [done|apply cmds_evolve_refl]. Qed.
#[export] Instance keeps_cmds_trans : Transitive keeps_cmds.
Proof.
  intros a b c Hab Hbc Ha. destruct (Hab Ha) as [Hb (k1 & n1 & E1 & F1)].
  destruct (Hbc Hb) as [Hc (k2 & n2 & E2 & F2)]. split; [done|].
  rewrite E1 in F2. apply Forall2_app_inv_l in F2 as (k1' & n1' & F1' & _ & ->).
  exists k1', (n1' ++ n2). split; [by rewrite E2, app_assoc|]. by etrans.
Qed.

(** Writes to other tables. *)
Lemma keeps_cmds_same s s' :
  db_commands s' = db_commands s -> db_next_command_id s' = db_next_command_id s -> keeps_cmds s s'.
Proof.
  intros Hc Hn [Hi Hx Hr]. split.
  - split; by rewrite ?Hc, ?Hn.
  - exists (db_commands s), []. rewrite Hc, app_nil_r. split; [done|]. by apply Forall_Forall2_diag, Forall_true.
Qed.

(** A row-wise update of the command table. *)
Lemma keeps_cmds_map (f : command_row -> command_row) s :
  (forall c, c ∈ db_commands s -> cmd_step c (f c) /\ (cmd_ok c -> cmd_ok (f c))) ->
  keeps_cmds s (set_db_commands (f <$> db_commands s) s).
Proof.
  intros Hf [Hi Hn Hr]. split.
  - assert (forall c, c ∈ db_commands s -> c_id (f c) = c_id c) as Hid.
    { intros c Hc. destruct (Hf c Hc) as [[Hm _] _]. unfold meta in Hm. congruence. }
    split; simpl.
    + rewrite <-list_fmap_compose. erewrite list_fmap_ext; [exact Hi|].
      intros i c Hc. simpl. apply Hid. by eapply list_elem_of_lookup_2.
    + apply Forall_fmap, Forall_forall. intros c Hc. simpl. rewrite Hid by done.
      rewrite Forall_forall in Hn. by apply Hn.
    + apply Forall_fmap, Forall_forall. intros c Hc. rewrite Forall_forall in Hr.
      apply Hf; [done|by apply Hr].
  - exists (f <$> db_commands s), []. split; [by rewrite app_nil_r|].
    apply Forall2_fmap_r, Forall_Forall2_diag, Forall_forall. intros c Hc. by apply Hf.
Qed.

Lemma log_event_cmds cat sev p a o : respects keeps_cmds (log_event cat sev p a o).
Proof. intros s. by apply keeps_cmds_same. Qed.

Lemma update_mappings_cmds cond upd : respects keeps_cmds (update_mappings cond upd).
Proof. intros s. by apply keeps_cmds_same. Qed.

Lemma require_rows_cmds n msg : respects keeps_cmds (require_rows n msg).
Proof. unfold require_rows. case_match; [apply respects_raise|apply respects_ret]; apply _. Qed.

Lemma enqueue_cmds a o k p c : respects keeps_cmds (enqueue_mt5_command a o k p c).
Proof.
  intros s [Hi Hn Hr]. unfold exec, enqueue_mt5_command; simpl. split.
  - split; simpl.
    + rewrite fmap_app. apply NoDup_app. split; [done|]. split; [|apply NoDup_singleton].
      intros x (c' & -> & Hc')%list_elem_of_fmap Hx. csimpl in Hx. apply list_elem_of_singleton in Hx.
      rewrite Forall_forall in Hn. specialize (Hn _ Hc'). simpl in Hx. lia.
    + apply Forall_app. split; [|constructor; [simpl; lia|done]].
      eapply Forall_impl; [exact Hn|]. intros c' ?; simpl in *; lia.
    + apply Forall_app. split; [done|]. constructor; [|done]. unfold cmd_ok, MAX_ATTEMPTS; simpl. lia.
  - eexists (db_commands s), _. simpl. split; [reflexivity|]. by apply Forall_Forall2_diag, Forall_true.
Qed.

(** Settling an open command. *)
Lemma settle_step c st r t :
  is_open_status (c_status c) = true -> st = Done \/ st = CmdFailed ->
  let c' := set_c_done_at t (set_c_result r (set_c_status st c)) in
  cmd_step c c' /\ (cmd_ok c -> cmd_ok c').
Proof.
  intros Ho Hst c'. unfold cmd_step, cmd_ok, c', meta; simpl. split.
  - split; [done|]. split; [by rewrite Ho|]. split; [lia|]. destruct Hst as [-> | ->], (c_status c); simpl; lia.
  - intros [H _]. split; [done|]. destruct Hst; congruence.
Qed.

Lemma complete_cmds i ok r t a : respects keeps_cmds (complete_mt5_command i ok r t a).
Proof.
  intros s. unfold complete_mt5_command, exec; simpl. apply keeps_cmds_map. intros c _.
  destruct (completable i a c) eqn:E; [|by split].
  apply settle_step; [|destruct ok; auto]. unfold completable in E. by bsimp.
Qed.

Lemma fail_stale_cmds a t : respects keeps_cmds (fail_stale_mt5_opens a t).
Proof.
  unfold fail_stale_mt5_opens. apply respects_bind; [apply _|by apply respects_gets; apply _|].
  intros cmds. apply respects_bind; [apply _|by apply respects_gets; apply _|]. intros now.
  apply respects_bind; [apply _| |].
  - intros s. unfold exec, modify; simpl. apply keeps_cmds_map. intros c _.
    destruct (stale_open a t c) eqn:E; [|by split].
    apply settle_step; [|by right]. unfold stale_open in E. by bsimp.
  - intros _. apply respects_bind; [apply _| |intros; apply respects_ret; apply _].
    case_match; [apply respects_ret; apply _|].
    apply respects_bind; [apply _|apply update_mappings_cmds|intros; apply respects_ret; apply _].
Qed.

Ltac cmds_step :=
  first [ apply respects_ret | apply respects_raise | apply respects_gets | apply respects_lift
        | apply log_event_cmds | apply update_mappings_cmds | apply require_rows_cmds
        | apply enqueue_cmds | apply complete_cmds | apply fail_stale_cmds
        | apply respects_bind; [apply _| |intro]
        | apply respects_try; [apply _| |intro]
        | apply respects_for_each; [apply _|apply _|intros ? _] ]; try apply _.

Lemma fail_mapping_cmds a c e : respects keeps_cmds (fail_mapping a c e).
Proof. unfold fail_mapping. repeat cmds_step. Qed.

Lemma ignore_not_found_cmds m : respects keeps_cmds m -> respects keeps_cmds (ignore_not_found m).
Proof.
  intros H. unfold ignore_not_found. apply respects_try; [apply _|done|].
  intros e. case_match; repeat cmds_step.
Qed.

Lemma give_up_cmds a row now : respects keeps_cmds (_give_up a row now).
Proof.
  unfold _give_up. repeat cmds_step.
  destruct (c_client_order_id row) as [[|]|];
    first [apply ignore_not_found_cmds, fail_mapping_cmds | repeat cmds_step].
Qed.

Lemma collect_cmds a now rows : respects keeps_cmds (collect a now rows).
Proof.
  induction rows as [|row rows IH]; simpl; [repeat cmds_step|].
  case_match; [|done|]; (apply respects_bind; [apply _| |]); auto using give_up_cmds.
  intros. repeat cmds_step.
Qed.

Lemma cmd_by_id s c c' :
  cmds_inv s -> c ∈ db_commands s -> c' ∈ db_commands s -> c_id c = c_id c' -> c = c'.
Proof. intros [Hi _ _] Hc Hc' Heq. by eapply (NoDup_fmap_elem c_id). Qed.

(** Rows a computation leaves exactly as they are. *)
Definition untouched (ids : list Z) (s s' : db) : Prop :=
  forall c, c ∈ db_commands s -> c_id c ∉ ids -> c ∈ db_commands s'.
#[export] Instance untouched_refl ids : Reflexive (untouched ids).
Proof. by intros s c. Qed.
#[export] Instance untouched_trans ids : Transitive (untouched ids).
Proof. intros a b c H1 H2 x ??. auto. Qed.

Lemma untouched_same ids {A} (m : M db A) :
  (forall s, db_commands (exec m s) = db_commands s) -> respects (untouched ids) m.
Proof. intros H s c Hc _. by rewrite H. Qed.

Lemma untouched_weaken ids ids' s s' : ids ⊆ ids' -> untouched ids s s' -> untouched ids' s s'.
Proof. intros Hsub H c Hc Hn. apply H; set_solver. Qed.

Lemma complete_untouched i ok r t a : respects (untouched [i]) (complete_mt5_command i ok r t a).
Proof.
  intros s c Hc Hn. unfold complete_mt5_command, exec; simpl.
  apply list_elem_of_fmap. exists c. split; [|done]. unfold completable.
  assert ((c_id c =? i) = false) as -> by (apply Z.eqb_neq; set_solver). done.
Qed.

Lemma fail_mapping_untouched ids a c e : respects (untouched ids) (fail_mapping a c e).
Proof.
  apply untouched_same. intros s. unfold fail_mapping, exec, bind, gets, update_mappings, require_rows.
  simpl. by case_match.
Qed.

Lemma give_up_untouched a row now : respects (untouched [c_id row]) (_give_up a row now).
Proof.
  unfold _give_up. apply respects_bind; [apply _|apply respects_lift; apply _|]. intros t.
  apply respects_bind; [apply _|apply complete_untouched|]. intros _.
  apply respects_bind; [apply _| |intros _; by apply untouched_same].
  destruct (c_client_order_id row) as [[|]|]; try (apply respects_ret; apply _).
  unfold ignore_not_found. apply respects_try; [apply _|apply fail_mapping_untouched|].
  intros e. case_match; [apply respects_ret|apply respects_raise]; apply _.
Qed.

Lemma collect_untouched a now rows : respects (untouched (c_id <$> rows)) (collect a now rows).
Proof.
  induction rows as [|row rows IH]; simpl; [apply respects_ret; apply _|].
  assert (respects (untouched (c_id row :: (c_id <$> rows))) (collect a now rows)) as IH'.
  { intros s. eapply untouched_weaken; [|apply IH]. set_solver. }
  case_match; [|done|]; (apply respects_bind; [apply _| |]).
  - done.
  - intros; apply respects_ret; apply _.
  - intros s. eapply untouched_weaken; [|apply give_up_untouched]. set_solver.
  - done.
Qed.

(** What a poll hands out: rows the loop decided to deliver, still as read. *)
Lemma collect_out a now rows s out s' :
  NoDup (c_id <$> rows) -> (forall row, row ∈ rows -> row ∈ db_commands s) ->
  collect a now rows s = (Ok out, s') ->
  forall cmd, cmd ∈ out -> exists row, row ∈ rows /\ cmd = command_of_row row /\
    row_verdict now row = Deliver /\ row ∈ db_commands s'.
Proof.
  revert s out. induction rows as [|row rows IH]; intros s out Hnd Hin; simpl.
  { intros [= <- <-]. set_solver. }
  csimpl in Hnd. apply NoDup_cons in Hnd as [Hnin Hnd].
  assert (forall m : M db unit, respects (untouched [c_id row]) m ->
            forall r, r ∈ rows -> r ∈ db_commands (exec m s)) as Hkeep.
  { intros m Hm r Hr. apply Hm; [set_solver|].
    intros Heq%list_elem_of_singleton. apply Hnin. rewrite <-Heq. by apply list_elem_of_fmap_2. }
  destruct (row_verdict now row) eqn:Ev.
  - unfold bind. destruct (collect a now rows s) as [[out'|e] s1] eqn:E; [|done].
    intros [= <- <-] cmd [->|Hcmd]%elem_of_cons.
    + exists row. split; [set_solver|]. split; [done|]. split; [done|].
      change s1 with (snd (Ok out', s1)). rewrite <-E. apply collect_untouched; [set_solver|done].
    + destruct (IH s out' Hnd ltac:(set_solver) E cmd Hcmd) as (r & ? & ?). exists r. set_solver.
  - intros E cmd Hcmd. destruct (IH s out Hnd ltac:(set_solver) E cmd Hcmd) as (r & ? & ?).
    exists r. set_solver.
  - unfold bind. destruct (_give_up a row now s) as [[[]|e] s1] eqn:E1; [|done].
    intros E cmd Hcmd. destruct (IH s1 out Hnd) with (cmd := cmd) as (r & ? & ?); [|done|done|].
    + intros r Hr. specialize (Hkeep _ (give_up_untouched a row now) r Hr).
      unfold exec in Hkeep. by rewrite E1 in Hkeep.
    + exists r. set_solver.
Qed.

Lemma deliver_verdict now row :
  cmd_ok row -> is_open_status (c_status row) = true -> row_verdict now row = Deliver ->
  c_attempts row < MAX_ATTEMPTS.
Proof.
  intros [Hb Hq] Ho. unfold row_verdict. destruct (c_status row) eqn:E; try done.
  - rewrite Hq by done. unfold MAX_ATTEMPTS. lia.
  - destruct (fltb _ _); [done|]. destruct (MAX_ATTEMPTS <=? _) eqn:Em; [done|]. by bsimp.
Qed.

Lemma mark_sent_cmds ids t s :
  (forall c, c ∈ db_commands s -> c_id c ∈ ids ->
     is_open_status (c_status c) = true /\ c_attempts c < MAX_ATTEMPTS) ->
  keeps_cmds s (exec (mark_mt5_commands_sent ids t) s).
Proof.
  intros H. unfold mark_mt5_commands_sent, exec, modify; simpl. apply keeps_cmds_map.
  intros c Hc. case_bool_decide as Hin; [|by split]. destruct (H c Hc Hin) as [Ho Ha].
  unfold cmd_step, cmd_ok, meta; simpl. split.
  - split; [done|]. split; [by rewrite Ho|]. split; [lia|]. destruct (c_status c); simpl; done || lia.
  - intros [Hb _]. split; [lia|done].
Qed.

Lemma open_rows_sub a s :
  cmds_inv s ->
  let rows := List.filter (fun c => (c_account_id c =? a) && is_open_status (c_status c)) (db_commands s) in
  NoDup (c_id <$> rows) /\
  (forall row, row ∈ rows -> row ∈ db_commands s /\ c_account_id row = a /\
                             is_open_status (c_status row) = true).
Proof.
  intros Hinv rows. assert (forall row, row ∈ rows -> row ∈ db_commands s /\ c_account_id row = a /\
    is_open_status (c_status row) = true) as Hin.
  { intros row (H1 & H2)%list_elem_of_In%filter_In. apply list_elem_of_In in H1. by bsimp. }
  split; [|done]. apply NoDup_fmap_2_strong.
  - intros x y (Hx & _)%Hin (Hy & _)%Hin Heq. by eapply cmd_by_id.
  - apply NoDup_ListNoDup, List.NoDup_filter, NoDup_ListNoDup. by eapply NoDup_fmap_1, Hinv.
Qed.

Lemma deliverable_cmds a now : respects keeps_cmds (deliverable a now).
Proof.
  unfold deliverable. cmds_step; [cmds_step|]. cmds_step; [cmds_step|]. cmds_step; [repeat cmds_step|].
  intros s Hinv. unfold exec, bind, mt5_commands_open, gets.
  set (rows := List.filter _ (db_commands s)).
  destruct (open_rows_sub a s Hinv) as [Hnd Hrows]. fold rows in Hnd, Hrows.
  pose proof (collect_cmds a now rows s) as Hkc. unfold exec in Hkc.
  destruct (collect a now rows s) as [[out|e] s1] eqn:E; simpl in Hkc |- *; [|by apply Hkc].
  pose proof (collect_out a now rows s out s1 Hnd ltac:(intros; by apply Hrows) E) as Hout.
  destruct (Hkc Hinv) as [Hinv1 Hev1].
  destruct out as [|cmd out]; [done|]. destruct (_ts now) as [t|e]; simpl; [|done].
  apply (keeps_cmds_trans s s1); [by intros _; split| |done].
  refine (mark_sent_cmds (fmap (M:=list) cmd_id (cmd :: out)) t s1 _). intros c Hc (cmd' & Hid & Hcmd')%list_elem_of_fmap.
  destruct (Hout cmd' Hcmd') as (row & Hrow & -> & Hv & Hrow1).
  assert (c = row) as -> by by eapply cmd_by_id.
  destruct (Hrows row Hrow) as (Hrow0 & _ & Ho). split; [done|].
  eapply deliver_verdict; [|done|exact Hv].
  pose proof (ci_rows _ Hinv) as Hr. rewrite Forall_forall in Hr. by apply Hr.
Qed.

Lemma apply_acks_cmds a now acks : respects keeps_cmds (apply_acks a now acks).
Proof.
  induction acks as [|ack acks IH]; simpl; [repeat cmds_step|].
  cmds_step; [cmds_step|]. cmds_step; [cmds_step|]. case_match; [|done].
  cmds_step; [cmds_step|]. cmds_step; [done|cmds_step].
Qed.

Lemma enqueue_intent_cmds mm i a o sym : respects keeps_cmds (enqueue_intent mm i a o sym).
Proof.
  assert (respects keeps_cmds (enqueue_plain i a o sym)) as Hplain
    by (unfold enqueue_plain, enqueue; repeat cmds_step).
  unfold enqueue_intent. destruct i; try done. destruct (cp_master_position_id i); [|done].
  case_match; [|done]. cmds_step; [|case_match; [cmds_step|done]].
  unfold _enqueue_netting_close, mapping_side, mt5_open_payload, enqueue.
  repeat cmds_step. repeat case_match; repeat cmds_step.
Qed.

(** The outbox's operations on the command table, in any order. *)
Inductive outbox_op :=
  | OEnqueue (i : SlaveIntent) (account org : Z) (broker_symbol : string)
  | ODeliver (account : Z) (now : float64)
  | OAcks (account : Z) (now : float64) (acks : list Ack).

Definition run_outbox (mm : Z -> option margin_mode) (o : outbox_op) : M db unit :=
  match o with
  | OEnqueue i a org sym => enqueue_intent mm i a org sym ;;; ret tt
  | ODeliver a now => deliverable a now ;;; ret tt
  | OAcks a now acks => apply_acks a now acks ;;; ret tt
  end.

Lemma run_outbox_cmds mm o : respects keeps_cmds (run_outbox mm o).
Proof.
  destruct o; simpl; (apply respects_bind; [apply _| |intros; apply respects_ret; apply _]);
    auto using enqueue_intent_cmds, deliverable_cmds, apply_acks_cmds.
Qed.

Definition run_outbox_ops (mm : Z -> option margin_mode) (ops : list outbox_op) (s : db) : db :=
  fold_left (fun s o => exec (run_outbox mm o) s) ops s.

(** ** Deliveries and attempts *)

(** Each command's id and delivery count *)
Definition attempts (s : db) : list (Z * Z) := (fun c => (c_id c, c_attempts c)) <$> db_commands s.

(** Writes that deliver nothing *)
Definition delivers_none (s s' : db) : Prop := attempts s' = attempts s /\ db_next_command_id s' = db_next_command_id s.
#[export] Instance delivers_none_refl : Reflexive delivers_none.
Proof. done. Qed.
#[export] Instance delivers_none_trans : Transitive delivers_none.
Proof. intros x y z [? ?] [? ?]. split; congruence. Qed.

Lemma delivers_none_map (f : command_row -> command_row) s :
  (forall c, c_id (f c) = c_id c /\ c_attempts (f c) = c_attempts c) -> delivers_none s (set_db_commands (f <$> db_commands s) s).
Proof.
  intros Hf. split; [|done]. unfold attempts. simpl. rewrite <- list_fmap_compose. apply list_fmap_ext. intros i c _. simpl.
  by destruct (Hf c) as [-> ->].
Qed.
Lemma delivers_none_same {A} (m : M db A) :
  (forall s, db_commands (exec m s) = db_commands s /\ db_next_command_id (exec m s) = db_next_command_id s) -> respects delivers_none m.
Proof. intros H s. destruct (H s) as [Hc Hn]. unfold delivers_none, attempts. by rewrite Hc, Hn. Qed.

Lemma complete_delivers_none i ok r t a : respects delivers_none (complete_mt5_command i ok r t a).
Proof.
  intros s. unfold complete_mt5_command, exec; simpl. apply delivers_none_map. intros c. by destruct (completable i a c).
Qed.
Lemma require_rows_delivers_none n msg : respects delivers_none (require_rows n msg).
Proof. unfold require_rows. case_match; [apply respects_raise|apply respects_ret]; apply _. Qed.
Lemma stale_delivers_none a t : respects delivers_none (fail_stale_mt5_opens a t).
Proof.
  unfold fail_stale_mt5_opens. apply respects_bind; [apply _|by apply respects_gets; apply _|].
  intros cmds. apply respects_bind; [apply _|by apply respects_gets; apply _|]. intros now.
  apply respects_bind; [apply _| |].
  - intros s. unfold exec, modify; simpl. apply delivers_none_map. intros c. by destruct (stale_open a t c).
  - intros _. apply respects_bind; [apply _| |intros; apply respects_ret; apply _].
    case_match; [apply respects_ret; apply _|].
    apply respects_bind; [apply _|by apply delivers_none_same|intros; apply respects_ret; apply _].
Qed.

Ltac none_step :=
  first [ apply respects_ret | apply respects_raise | apply respects_gets | apply respects_lift
        | apply require_rows_delivers_none | apply complete_delivers_none | apply stale_delivers_none
        | apply respects_bind; [apply _| |intro]
        | apply respects_try; [apply _| |intro]
        | apply respects_for_each; [apply _|apply _|intros ? _]
        | apply delivers_none_same; done ]; try apply _.

Lemma give_up_delivers_none a row now : respects delivers_none (_give_up a row now).
Proof.
  unfold _give_up, ignore_not_found, fail_mapping. none_step; [none_step|]. none_step; [none_step|]. none_step; [|none_step].
  destruct (c_client_order_id row) as [[|]|]; repeat none_step. case_match; repeat none_step.
Qed.
Lemma collect_delivers_none a now rows : respects delivers_none (collect a now rows).
Proof.
  induction rows as [|row rows IH]; simpl; [none_step|].
  case_match; [|done|]; (apply respects_bind; [apply _| |]); auto using give_up_delivers_none. intros. none_step.
Qed.
Lemma acks_deliver_none a now acks : respects delivers_none (apply_acks a now acks).
Proof.
  induction acks as [|ack acks IH]; simpl; [none_step|].
  none_step; [none_step|]. none_step; [none_step|]. case_match; [|done]. none_step; [none_step|]. none_step; [done|none_step].
Qed.

Lemma collect_sublist a now rows s out s' :
  collect a now rows s = (Ok out, s') -> (cmd_id <$> out) `sublist_of` (c_id <$> rows).
Proof.
  revert s out. induction rows as [|row rows IH]; intros s out; csimpl; [by intros [= <- _]|]. unfold bind.
  destruct (row_verdict now row).
  - destruct (collect a now rows s) as [[out'|e] s1] eqn:E; [|done]. intros [= <- <-]. csimpl. apply sublist_skip. by eapply IH.
  - intros E. apply sublist_cons. by eapply IH.
  - destruct (_give_up a row now s) as [[[]|e] s1]; [|done]. intros E. apply sublist_cons. by eapply IH.
Qed.

(** A poll counts exactly what it hands out. *)
Lemma deliverable_attempts a now s :
  cmds_inv s ->
  match deliverable a now s with
  | (Ok out, s') =>
      NoDup (cmd_id <$> out) /\ db_next_command_id s' = db_next_command_id s /\ (forall i, i ∈ cmd_id <$> out -> i ∈ (attempts s).*1) /\
      attempts s' = (fun p => (p.1, if bool_decide (p.1 ∈ cmd_id <$> out) then p.2 + 1 else p.2)) <$> attempts s
  | (Raise _, s') => delivers_none s s'
  end.
Proof.
  intros Hinv. unfold deliverable. unfold bind at 1, lift_result. destruct (_ts (fsub now OPEN_COMMAND_TTL_S)) as [cutoff|e]; [|done].
  unfold bind at 1. pose proof (stale_delivers_none a cutoff s) as H1. pose proof (fail_stale_cmds a cutoff s Hinv) as [Hi1 _]. unfold exec in H1, Hi1.
  destruct (fail_stale_mt5_opens a cutoff s) as [[expired|e] s1]; simpl in H1, Hi1; [|done].
  unfold bind at 1. set (logs := for_each _ expired).
  assert (respects delivers_none logs) as H2 by (unfold logs; repeat none_step).
  assert (respects keeps_cmds logs) as K2 by (unfold logs; repeat cmds_step).
  specialize (H2 s1). specialize (K2 s1 Hi1) as [Hi2 _]. unfold exec in H2, Hi2.
  destruct (logs s1) as [[[]|e] s2]; simpl in H2, Hi2; [|by etrans].
  unfold bind at 1, mt5_commands_open, gets. set (rows := List.filter _ (db_commands s2)).
  destruct (open_rows_sub a s2 Hi2) as [Hnd Hrows]. fold rows in Hnd, Hrows.
  unfold bind at 1. pose proof (collect_delivers_none a now rows s2) as H3. unfold exec in H3.
  destruct (collect a now rows s2) as [[out|e] s3] eqn:Ec; simpl in H3; [|by etrans; [|etrans]].
  assert (delivers_none s s3) as H by (by etrans; [|etrans]). apply collect_sublist in Ec.
  assert (NoDup (cmd_id <$> out)) as Hout by (by eapply sublist_NoDup).
  assert (forall i, i ∈ cmd_id <$> out -> i ∈ (attempts s).*1) as Hids.
  { intros i Hi. eapply elem_of_sublist in Hi; [|exact Ec]. apply list_elem_of_fmap in Hi as (row & -> & Hr). apply Hrows in Hr as [Hr _].
    assert (attempts s2 = attempts s) as <- by (by etrans; [apply H2|apply H1]).
    unfold attempts. rewrite <- list_fmap_compose. by apply (list_elem_of_fmap_2 c_id). }
  destruct H as [Ha Hn]. destruct out as [|cmd out].
  { simpl. split_and!; [done|done|done|]. rewrite Ha. symmetry. rewrite <- (list_fmap_id (attempts s)) at 2.
    apply list_fmap_ext. by intros ? [] _. }
  unfold bind, lift_result. destruct (_ts now) as [t|e]; simpl; [|done]. split_and!; [done|done|done|].
  rewrite <- Ha. unfold attempts. simpl. rewrite <- !list_fmap_compose. apply list_fmap_ext. intros i c _. simpl. by case_bool_decide.
Qed.

(** Enqueues add commands that were never delivered. *)
Definition adds_undelivered (s s' : db) : Prop := exists new,
  attempts s' = attempts s ++ new /\ db_next_command_id s <= db_next_command_id s' /\
  Forall (fun p => p.2 = 0 /\ db_next_command_id s <= p.1) new.
#[export] Instance adds_undelivered_refl : Reflexive adds_undelivered.
Proof. intros s. exists []. by rewrite app_nil_r. Qed.
#[export] Instance adds_undelivered_trans : Transitive adds_undelivered.
Proof.
  intros x y z (n1 & E1 & L1 & F1) (n2 & E2 & L2 & F2). exists (n1 ++ n2). rewrite E2, E1, app_assoc. split; [done|]. split; [lia|].
  apply Forall_app. split; [done|]. eapply Forall_impl; [exact F2|]. simpl. intros p [? ?]. split; [done|lia].
Qed.
Lemma none_adds s s' : delivers_none s s' -> adds_undelivered s s'.
Proof. intros [Ha Hn]. exists []. rewrite app_nil_r, Ha, Hn. split; [done|]. split; [lia|constructor]. Qed.

Lemma enqueue_adds a o k p c : respects adds_undelivered (enqueue_mt5_command a o k p c).
Proof.
  intros s. unfold exec, enqueue_mt5_command; simpl. eexists [_]. unfold attempts. simpl. rewrite fmap_app. split; [done|]. split; [lia|].
  constructor; [|constructor]. simpl. lia.
Qed.
Lemma enqueue_intent_adds mm i a o sym : respects adds_undelivered (enqueue_intent mm i a o sym).
Proof.
  assert (forall i a o sym, respects adds_undelivered (enqueue_plain i a o sym)) as Hplain.
  { intros. unfold enqueue_plain, enqueue. apply respects_bind; [apply _|apply respects_lift; apply _|]. intros. apply enqueue_adds. }
  unfold enqueue_intent. destruct i; try apply Hplain. destruct (cp_master_position_id i); [|apply Hplain].
  case_match; [|apply Hplain]. apply respects_bind; [apply _| |intros []; [apply respects_ret; apply _|apply Hplain]].
  unfold _enqueue_netting_close, mapping_side, mt5_open_payload, enqueue.
  repeat first [ apply respects_ret; apply _ | apply respects_raise; apply _ | apply respects_gets; apply _ | apply respects_lift; apply _
               | apply enqueue_adds | (intros s'; by apply none_adds, (delivers_none_same (log_event _ _ _ _ _))) | apply respects_bind; [apply _| |intro] | case_match ].
Qed.

(** The commands a run's polls hand out, in order *)
Definition handed (o : outbox_op) (s : db) : list Z :=
  match o with
  | ODeliver a now => match value (deliverable a now) s with Ok out => cmd_id <$> out | Raise _ => [] end
  | _ => []
  end.
Fixpoint handed_out (mm : Z -> option margin_mode) (ops : list outbox_op) (s : db) : list Z :=
  match ops with [] => [] | o :: ops' => handed o s ++ handed_out mm ops' (exec (run_outbox mm o) s) end.
Definition times (i : Z) (l : list Z) : Z := Z.of_nat (count_occ Z.eq_dec l i).

(** Every delivery count is the number of hand-outs so far. *)
Definition counted (l : list Z) (s : db) : Prop :=
  Forall (fun p => p.2 = times p.1 l) (attempts s) /\ Forall (fun i => i < db_next_command_id s) l.

Lemma times_app i l k : times i (l ++ k) = times i l + times i k.
Proof. unfold times. rewrite count_occ_app. lia. Qed.
Lemma times_absent i l : i ∉ l -> times i l = 0.
Proof. intros H. unfold times. rewrite (proj1 (count_occ_not_In Z.eq_dec l i)); [done|]. by rewrite <- list_elem_of_In. Qed.
Lemma times_nodup i l : NoDup l -> times i l = if bool_decide (i ∈ l) then 1 else 0.
Proof.
  intros Hnd. case_bool_decide as Hi; [|by apply times_absent]. unfold times.
  apply NoDup_ListNoDup in Hnd. rewrite (NoDup_count_occ' Z.eq_dec) in Hnd. rewrite Hnd; [done|]. by apply list_elem_of_In.
Qed.

Lemma run_outbox_counted mm o s l :
  cmds_inv s -> counted l s -> counted (l ++ handed o s) (exec (run_outbox mm o) s).
Proof.
  intros Hinv [Hc Hl]. destruct o as [i a org sym|a now|a now acks]; simpl; rewrite ?app_nil_r.
  - assert (respects adds_undelivered (bind (enqueue_intent mm i a org sym) (fun _ => ret tt))) as Hr
      by (apply respects_bind; [apply _|apply enqueue_intent_adds|intros; apply respects_ret; apply _]).
    destruct (Hr s) as (new & E & Hn & Hnew). split.
    + rewrite E. apply Forall_app. split; [done|]. eapply Forall_impl; [exact Hnew|]. intros p [-> Hp]. symmetry. apply times_absent.
      intros Hin. rewrite Forall_forall in Hl. specialize (Hl _ Hin). simpl in Hl. lia.
    + eapply Forall_impl; [exact Hl|]. simpl. lia.
  - pose proof (deliverable_attempts a now s Hinv) as H. unfold exec, value, bind. destruct (deliverable a now s) as [[out|e] s']; simpl.
    + destruct H as (Hnd & Hn & Hids & Ha). split.
      * rewrite Ha. apply Forall_fmap. eapply Forall_impl; [exact Hc|]. intros [i n] Hi. simpl in *. rewrite times_app, (times_nodup i (cmd_id <$> out)) by done.
        case_bool_decide; lia.
      * rewrite Hn. apply Forall_app. split; [done|]. apply Forall_forall. intros i Hi%Hids. unfold attempts in Hi.
        rewrite <- list_fmap_compose in Hi. apply list_elem_of_fmap in Hi as (c & -> & Hcm). destruct Hinv as [_ Hx _].
        rewrite Forall_forall in Hx. by apply Hx.
    + destruct H as [Ha Hn]. rewrite app_nil_r. unfold counted. by rewrite Ha, Hn.
  - assert (respects delivers_none (bind (apply_acks a now acks) (fun _ => ret tt))) as Hr
      by (apply respects_bind; [apply _|apply acks_deliver_none|intros; apply respects_ret; apply _]).
    destruct (Hr s) as [Ha Hn]. unfold counted. by rewrite Ha, Hn.
Qed.

Lemma run_counted mm ops s l : cmds_inv s -> counted l s -> counted (l ++ handed_out mm ops s) (run_outbox_ops mm ops s).
Proof.
  revert s l. induction ops as [|o ops IH]; intros s l Hinv Hc; simpl; [by rewrite app_nil_r|]. rewrite app_assoc.
  apply IH; [by apply (run_outbox_cmds mm o s)|by apply run_outbox_counted].
Qed.

(** C37: the command life cycle.  From an empty outbox, over any sequence of
    enqueues, polls and acknowledgements (also repeated, unknown or foreign
    ones, and also when one raises), command ids stay unique; a command's
    delivery count is the number of polls that handed it out, and that is never
    more than three; and over any further sequence no command disappears, none
    changes what it asks for, its delivery count never decreases, its status only
    moves forward -- queued, sent, and then done or failed -- and a settled
    command never changes again. *)
Theorem outbox_lifecycle mm t ops1 ops2 :
  let s1 := run_outbox_ops mm ops1 (empty_db t) in
  let s2 := run_outbox_ops mm ops2 s1 in
  cmds_inv s1 /\
  (forall c, c ∈ db_commands s1 -> times (c_id c) (handed_out mm ops1 (empty_db t)) = c_attempts c /\ c_attempts c <= 3) /\
  cmds_evolve s1 s2.
Proof.
  assert (forall ops s, keeps_cmds s (run_outbox_ops mm ops s)) as Hrun.
  { induction ops as [|o ops IH]; intros s; [apply keeps_cmds_refl|].
    eapply keeps_cmds_trans; [apply (run_outbox_cmds mm o s)|apply IH]. }
  assert (cmds_inv (empty_db t)) as H0 by (split; simpl; [apply NoDup_nil_2|constructor|constructor]).
  intros s1 s2. assert (cmds_inv s1) as H1 by (by apply Hrun).
  split; [done|]. split; [|by apply Hrun]. intros c Hc. split.
  - destruct (run_counted mm ops1 (empty_db t) [] H0) as [Ha _]; [by split; constructor|].
    rewrite Forall_forall in Ha. symmetry. by apply (Ha (c_id c, c_attempts c)), (list_elem_of_fmap_2 (fun c => (c_id c, c_attempts c))).
  - destruct H1 as [_ _ Hr]. rewrite Forall_forall in Hr. destruct (Hr c Hc) as [[_ Hle] _]. exact Hle.
Qed.

(** ** Repeated and foreign acknowledgements *)

Definition nothing_open (i a : Z) (s : db) : Prop :=
  forall c, c ∈ db_commands s -> completable i (Some a) c = false.

Definition stays_closed (i a : Z) (s s' : db) : Prop := nothing_open i a s -> nothing_open i a s'.
#[export] Instance stays_closed_refl i a : Reflexive (stays_closed i a).
Proof. by intros s H. Qed.
#[export] Instance stays_closed_trans i a : Transitive (stays_closed i a).
Proof. intros x y z H1 H2 H. auto. Qed.

Definition completed (i a : Z) (ok : bool) (r : payload) (t : Z) (c : command_row) : command_row :=
  if completable i (Some a) c
  then set_c_done_at (Some t) (set_c_result (Some r) (set_c_status (if ok then Done else CmdFailed) c))
  else c.

Lemma complete_run i ok r t a s :
  complete_mt5_command i ok r t (Some a) s =
    (Ok (List.find (completable i (Some a)) (db_commands s)),
     set_db_commands (completed i a ok r t <$> db_commands s) s).
Proof. done. Qed.

Lemma completed_not_completable i a ok r t c : completable i (Some a) (completed i a ok r t c) = false.
Proof.
  unfold completed. destruct (completable i (Some a) c) eqn:E; [|done].
  unfold completable; simpl. destruct ok; by rewrite andb_false_r.
Qed.

Lemma completed_keeps_closed i a ok r t j b c :
  completable j (Some b) c = false -> completable j (Some b) (completed i a ok r t c) = false.
Proof.
  intros H. unfold completed. destruct (completable i (Some a) c); [|done].
  unfold completable; simpl. destruct ok; by rewrite andb_false_r.
Qed.

Lemma complete_closes i a ok r t s :
  nothing_open i a (exec (complete_mt5_command i ok r t (Some a)) s).
Proof.
  intros c. unfold exec. rewrite complete_run. simpl.
  intros (c0 & -> & _)%list_elem_of_fmap. apply completed_not_completable.
Qed.

Lemma complete_stays_closed i a j b ok r t :
  respects (stays_closed j b) (complete_mt5_command i ok r t (Some a)).
Proof.
  intros s H c. unfold exec. rewrite complete_run. simpl.
  intros (c0 & -> & Hc0)%list_elem_of_fmap. by apply completed_keeps_closed, H.
Qed.

Lemma complete_nothing i a ok r t s :
  nothing_open i a s -> complete_mt5_command i ok r t (Some a) s = (Ok None, s).
Proof.
  intros H. rewrite complete_run. f_equal.
  - f_equal. destruct (List.find _ _) as [c|] eqn:E; [|done].
    apply find_some in E as [Hin Hc]. rewrite H in Hc; [done|]. by apply list_elem_of_In.
  - assert (completed i a ok r t <$> db_commands s = db_commands s) as ->.
    { rewrite <-(list_fmap_id (db_commands s)) at 2. apply list_fmap_ext. intros k c Hc.
      unfold completed. by rewrite H by by eapply list_elem_of_lookup_2. }
    by destruct s.
Qed.

Lemma apply_acks_stays_closed a now acks j b : respects (stays_closed j b) (apply_acks a now acks).
Proof.
  induction acks as [|ack acks IH]; simpl; [apply respects_ret; apply _|].
  apply respects_bind; [apply _|apply respects_lift; apply _|]. intros t.
  apply respects_bind; [apply _|apply complete_stays_closed|]. intros [row|]; [|done].
  apply respects_bind; [apply _|apply respects_lift; apply _|]. intros o.
  apply respects_bind; [apply _|done|]. intros; apply respects_ret; apply _.
Qed.

Lemma apply_acks_closed a now acks s out s' :
  apply_acks a now acks s = (Ok out, s') -> forall ack, ack ∈ acks -> nothing_open (ack_command_id ack) a s'.
Proof.
  revert s out. induction acks as [|ack acks IH]; intros s out; simpl; [set_solver|].
  unfold bind, lift_result. destruct (_ts now) as [t|]; [|done].
  pose proof (complete_closes (ack_command_id ack) a (ack_ok ack) (ack_result ack) t s) as Hcl.
  unfold exec in Hcl. destruct (complete_mt5_command _ _ _ _ _ s) as [[[row|]|e] s1] eqn:E1;
    simpl in Hcl; [| |done].
  - destruct (ack_outcome ack row) as [o|]; [|done].
    destruct (apply_acks a now acks s1) as [[out'|e] s2] eqn:E2; [|done].
    intros [= _ <-] ack' [->|Hack]%elem_of_cons; [|by eapply IH].
    pose proof (apply_acks_stays_closed a now acks (ack_command_id ack) a s1 Hcl) as H.
    unfold exec in H. by rewrite E2 in H.
  - intros E2 ack' [->|Hack]%elem_of_cons; [|by eapply IH].
    pose proof (apply_acks_stays_closed a now acks (ack_command_id ack) a s1 Hcl) as H.
    unfold exec in H. by rewrite E2 in H.
Qed.

Lemma apply_acks_nothing a now t acks s :
  _ts now = Ok t -> (forall ack, ack ∈ acks -> nothing_open (ack_command_id ack) a s) ->
  apply_acks a now acks s = (Ok [], s).
Proof.
  intros Ht. induction acks as [|ack acks IH]; intros H; simpl; [done|].
  unfold bind, lift_result. rewrite Ht, complete_nothing by (apply H; set_solver).
  apply IH. intros ack' Hack'. apply H. set_solver.
Qed.

Definition foreign (a : Z) (s : db) : list command_row :=
  List.filter (fun c => negb (c_account_id c =? a)) (db_commands s).
Definition same_foreign (a : Z) (s s' : db) : Prop := foreign a s' = foreign a s.
#[export] Instance same_foreign_refl a : Reflexive (same_foreign a).
Proof. done. Qed.
#[export] Instance same_foreign_trans a : Transitive (same_foreign a).
Proof. unfold same_foreign. congruence. Qed.

Lemma complete_foreign i ok r t a : respects (same_foreign a) (complete_mt5_command i ok r t (Some a)).
Proof.
  intros s. unfold same_foreign, foreign, exec. rewrite complete_run. simpl.
  induction (db_commands s) as [|c l IH]; csimpl; [done|]. rewrite IH.
  unfold completed. destruct (completable i (Some a) c) eqn:E; [|done].
  unfold completable in E. bsimp. simpl. subst. by rewrite Z.eqb_refl.
Qed.

Lemma apply_acks_foreign a now acks : respects (same_foreign a) (apply_acks a now acks).
Proof.
  induction acks as [|ack acks IH]; simpl; [apply respects_ret; apply _|].
  apply respects_bind; [apply _|apply respects_lift; apply _|]. intros t.
  apply respects_bind; [apply _|apply complete_foreign|]. intros [row|]; [|done].
  apply respects_bind; [apply _|apply respects_lift; apply _|]. intros o.
  apply respects_bind; [apply _|done|]. intros; apply respects_ret; apply _.
Qed.

(** Acknowledgements are idempotent and scoped.  Applying a terminal's
    acknowledgements a second time, as a re-delivery makes it do, reports no
    outcome and changes nothing; and no acknowledgement of one account
    changes a command of another. *)
Theorem acks_idempotent a now now' t' acks s out s' :
  apply_acks a now acks s = (Ok out, s') -> _ts now' = Ok t' ->
  apply_acks a now' acks s' = (Ok [], s') /\ foreign a s' = foreign a s.
Proof.
  intros E Ht. split.
  - eapply apply_acks_nothing; [exact Ht|]. by eapply apply_acks_closed.
  - pose proof (apply_acks_foreign a now acks s) as H. unfold exec in H. by rewrite E in H.
Qed.

Definition demo_outbox : db :=
  run_outbox_ops (fun _ => None)
    [OEnqueue (demo_open 7 11) 11 1 "EURUSD"; OEnqueue (demo_open 8 12) 12 1 "EURUSD";
     ODeliver 11 (f_of_Z 5)] (empty_db 0).
Definition demo_ack (i : Z) : Ack :=
  {| ack_command_id := i; ack_ok := true; ack_retcode := 10009; ack_message := "done";
     ack_position := Some 555; ack_deal := Some 1; ack_order := Some 1; ack_price := None;
     ack_volume := None |}.

(** Both commands acknowledged by account 11: only its own settles. *)
Lemma acks_idempotent_witness :
  let s' := exec (apply_acks 11 (f_of_Z 6) [demo_ack 1; demo_ack 2]) demo_outbox in
  apply_acks 11 (f_of_Z 7) [demo_ack 1; demo_ack 2] s' = (Ok [], s') /\
  (c_status <$> db_commands s') = [Done; Queued].
Proof.
  intros s'. split; [|vm_compute; reflexivity].
  destruct (apply_acks 11 (f_of_Z 6) [demo_ack 1; demo_ack 2] demo_outbox) as [[out|e] s1] eqn:E;
    [|vm_compute in E; discriminate].
  assert (s' = s1) as -> by (unfold s', exec; rewrite E; reflexivity).
  eapply (acks_idempotent 11 (f_of_Z 6) (f_of_Z 7) 7000000 [demo_ack 1; demo_ack 2] demo_outbox out s1 E).
  vm_compute. reflexivity.
Defined.

(** ** The shape of the outbox's operations *)

Section outbox_steps.
Context (R : db -> db -> Prop) `{!Reflexive R, !Transitive R} (a : Z).
Context (Hcmd : forall (f : command_row -> command_row) s, (forall c, meta (f c) = meta c) ->
                  R s (set_db_commands (f <$> db_commands s) s))
        (Hmap : forall cond upd, (forall r, m_id (upd r) = m_id r) -> respects R (update_mappings cond upd))
        (Hlog : forall cat sev p x o, respects R (log_event cat sev p x o)).

Lemma complete_respects i ok r t : respects R (complete_mt5_command i ok r t (Some a)).
Proof. intros s. apply (Hcmd (completed i a ok r t)). intros c. unfold completed. by case_match. Qed.

Lemma acks_respects now acks : respects R (apply_acks a now acks).
Proof using All.
  induction acks as [|ack acks IH]; simpl; [apply respects_ret; apply _|].
  apply respects_bind; [apply _|apply respects_lift; apply _|]. intros t.
  apply respects_bind; [apply _|apply complete_respects|]. intros [row|]; [|done].
  apply respects_bind; [apply _|apply respects_lift; apply _|]. intros o.
  apply respects_bind; [apply _|done|]. intros; apply respects_ret; apply _.
Qed.

Lemma fifo_respects p v : respects R (reduce_position_mappings_fifo a p v).
Proof using All.
  unfold reduce_position_mappings_fifo. case_match; [apply respects_ret; apply _|].
  apply respects_bind; [apply _|apply respects_gets; apply _|]. intros rows.
  apply respects_bind; [apply _|apply respects_gets; apply _|]. intros t.
  apply respects_bind; [apply _| |intros; apply respects_ret; apply _].
  apply respects_for_each; try apply _. intros ft _. unfold apply_touch.
  apply respects_bind; [apply _|by apply Hmap|]. intros; apply respects_ret; apply _.
Qed.

Lemma fail_mapping_respects c e : respects R (fail_mapping a c e).
Proof using All.
  unfold fail_mapping. apply respects_bind; [apply _|apply respects_gets; apply _|]. intros t.
  apply respects_bind; [apply _|by apply Hmap|]. intros n.
  unfold require_rows. case_match; [apply respects_raise|apply respects_ret]; apply _.
Qed.

Lemma give_up_respects row now : respects R (_give_up a row now).
Proof using All.
  unfold _give_up. apply respects_bind; [apply _|apply respects_lift; apply _|]. intros t.
  apply respects_bind; [apply _|apply complete_respects|]. intros _.
  apply respects_bind; [apply _| |intros _; apply Hlog].
  destruct (c_client_order_id row) as [[|]|]; try (apply respects_ret; apply _).
  apply respects_try; [apply _|apply fail_mapping_respects|].
  intros e. case_match; [apply respects_ret|apply respects_raise]; apply _.
Qed.

Lemma stale_respects cutoff : respects R (fail_stale_mt5_opens a cutoff).
Proof using All.
  unfold fail_stale_mt5_opens. apply respects_bind; [apply _|apply respects_gets; apply _|]. intros cmds.
  apply respects_bind; [apply _|apply respects_gets; apply _|]. intros t.
  apply respects_bind; [apply _| |intros _].
  { intros s. apply (Hcmd (fun c => if stale_open a cutoff c
      then set_c_done_at (Some t) (set_c_result (Some offline_result) (set_c_status CmdFailed c)) else c)).
    intros c. by case_match. }
  apply respects_bind; [apply _| |intros; apply respects_ret; apply _].
  destruct (List.filter _ (omap _ _)); [apply respects_ret; apply _|].
  apply respects_bind; [apply _|by apply Hmap|]. intros; apply respects_ret; apply _.
Qed.

Lemma expired_respects ids : respects R (for_each (fun i =>
  log_event "slave_action" Warning (expired_payload i) (Some a) None) ids).
Proof using All. apply respects_for_each; try apply _. intros; apply Hlog. Qed.

Lemma collect_respects now rows : respects R (collect a now rows).
Proof using All.
  induction rows as [|row rows IH]; simpl; [apply respects_ret; apply _|]. case_match; [|done|].
  - apply respects_bind; [apply _|done|]. intros; apply respects_ret; apply _.
  - apply respects_bind; [apply _|apply give_up_respects|done].
Qed.

Lemma deliverable_respects now : respects R (deliverable a now).
Proof using All.
  unfold deliverable. apply respects_bind; [apply _|apply respects_lift; apply _|]. intros cutoff.
  apply respects_bind; [apply _|apply stale_respects|intros expired].
  apply respects_bind; [apply _|apply expired_respects|]. intros _.
  apply respects_bind; [apply _|apply respects_gets; apply _|]. intros rows.
  apply respects_bind; [apply _|apply collect_respects|intros out].
  apply respects_bind; [apply _| |intros; apply respects_ret; apply _].
  destruct out as [|cmd out]; [apply respects_ret; apply _|].
  apply respects_bind; [apply _|apply respects_lift; apply _|]. intros t s.
  apply (Hcmd (fun c => if bool_decide (c_id c ∈ cmd_id <$> cmd :: out)
    then set_c_attempts (c_attempts c + 1) (set_c_sent_at (Some t) (set_c_status Sent c)) else c)).
  intros c. by case_match.
Qed.
End outbox_steps.
