(* ===== verification/OutboxTypes.v ===== *)
(** * Commands are well typed

    Every queued command carries the fields its kind needs, each of the type its
    command line writes, so a poll can always be answered. *)

From S2P Require Import Prelude PyStr PyFloat PyRepr Models Db PyJson Repo RepoFacts Protocol Wire WireFacts Outbox OutboxFacts.
From Stdlib Require Import Ascii.

(** ** What every queued command is *)

(** The payload has the fields its kind needs, each of the type the command line
    writes, with texts on one line. *)
Definition readable (c : command_row) : Prop := is_Some (decoded (command_of_row c)).
Definition all_readable (s : db) : Prop := Forall readable (db_commands s).
Definition keeps_readable (s s' : db) : Prop := all_readable s -> all_readable s'.

#[export] Instance keeps_readable_refl : Reflexive keeps_readable.
Proof. by intros s H. Qed.
#[export] Instance keeps_readable_trans : Transitive keeps_readable.
Proof. intros x y z H1 H2 H. apply H2, H1, H. Qed.

Lemma readable_meta c c' : meta c' = meta c -> readable c -> readable c'.
Proof. unfold readable, meta, command_of_row. by intros [= -> _ _ -> -> -> _]. Qed.

Lemma readable_updates (f : command_row -> command_row) s :
  (forall c, meta (f c) = meta c) -> keeps_readable s (set_db_commands (f <$> db_commands s) s).
Proof. intros Hf H. apply Forall_fmap. eapply Forall_impl; [exact H|]. intros c. by apply readable_meta. Qed.

Lemma same_cmds_readable {A} (m : M db A) : (forall s, db_commands (exec m s) = db_commands s) -> respects keeps_readable m.
Proof. intros H s Hs. unfold all_readable. by rewrite H. Qed.

(** What the copier queues: an intent that is ready for its command line *)
Definition op_ready (o : outbox_op) : Prop :=
  match o with OEnqueue i _ _ sym => intent_ready i sym | _ => True end.

Definition entry_readable (kind : cmd_kind) (p : payload) (coid : option string) : Prop :=
  forall i, is_Some (decoded {| cmd_id := i; cmd_kind_of := kind; cmd_payload := p; cmd_client_order_id := coid |}).

Lemma enqueue_readable a o kind p coid : entry_readable kind p coid -> respects keeps_readable (enqueue a o kind p coid).
Proof. intros Hp s Hs. apply Forall_app. split; [done|]. constructor; [apply Hp|constructor]. Qed.

Lemma enqueue_plain_readable i a o sym : intent_ready i sym -> respects keeps_readable (enqueue_plain i a o sym).
Proof.
  intros Hi. unfold enqueue_plain. destruct (command_for_intent i sym) as [[kind p]|e] eqn:E; [|by intros s Hs].
  apply (enqueue_readable a o kind p). intros id. by rewrite (intent_command_decoded i sym kind p id Hi E).
Qed.

(** The symbol of a queued open is a plain text. *)
Lemma open_symbol_plain coid s p sym :
  all_readable s -> value (mt5_open_payload coid) s = Ok (Some p) -> payload_symbol p = Some sym -> plain sym = true.
Proof.
  intros Hs Hv Hp. unfold value, mt5_open_payload, gets in Hv. simpl in Hv.
  destruct (List.find _ _) as [c|] eqn:E; [|done]. injection Hv as <-.
  apply find_some in E as [Hc E]. apply list_elem_of_In in Hc. apply andb_prop in E as [_ Hk%bool_decide_eq_true_1].
  pose proof (proj1 (Forall_forall _ _) Hs c Hc) as [d Hd]. unfold decoded, command_of_row in Hd. simpl in Hd.
  obind Hd. match goal with H : decoded_payload _ _ = _ |- _ => rewrite Hk in H; simpl in H; obind H end.
  unfold payload_symbol in Hp. repeat case_match; simplify_eq/=.
  match goal with H : plain_text _ = Some _ |- _ => by apply plain_text_spec in H as [_ ?] end.
Qed.

Lemma close_entry_readable sym side v mp a :
  plain sym = true -> plain side = true ->
  entry_readable KOpen
    [("symbol", JStr sym); ("side", JStr side); ("lots", JFloat (lots v)); ("sl", JFloat fzero); ("tp", JFloat fzero);
     ("comment", JStr ("close:m" +:+ pretty (mp : Z)))] (Some (position_coid mp a +:+ CLOSE_SUFFIX)).
Proof.
  intros Hsym Hside id. unfold decoded. cbn [cmd_kind_of cmd_payload cmd_client_order_id cmd_id].
  cbn [decoded_payload od_get get default comment_of mbind option_bind]. csimpl. rewrite lots_valid. csimpl.
  rewrite (plain_text_plain sym), (plain_text_plain side) by done. unfold comment_of. csimpl.
  rewrite !plain_text_plain by (rewrite ?plain_app, ?pretty_plain; done || unfold position_coid; by rewrite !plain_app, !pretty_plain).
  by eexists.
Qed.

Lemma netting_close_readable i mp o : respects keeps_readable (_enqueue_netting_close i mp o).
Proof.
  intros s Hs. pose proof (open_symbol_plain (position_coid mp (cp_slave_account_id i)) s) as Hsym.
  unfold _enqueue_netting_close, mapping_side, exec, bind, value, mt5_open_payload, gets, ret in *.
  destruct (c_payload <$> List.find _ _) as [p|]; [|exact Hs]. specialize (Hsym p).
  destruct (json_side _) as [side|]; [|exact Hs].
  destruct (payload_symbol (default [] (Some p))) as [sym|] eqn:Ep; [|exact Hs].
  refine (enqueue_readable _ _ _ _ _ _ s Hs). apply close_entry_readable; [by eapply Hsym|by destruct side].
Qed.

Lemma enqueue_intent_readable mm i a o sym : intent_ready i sym -> respects keeps_readable (enqueue_intent mm i a o sym).
Proof.
  intros Hi. pose proof (enqueue_plain_readable i a o sym Hi) as Hp.
  unfold enqueue_intent. destruct i as [|i| | | | | |]; try exact Hp.
  destruct (cp_master_position_id i) as [mp|]; [|exact Hp]. destruct (_is_netting mm a); [|exact Hp].
  apply respects_bind; [apply _|apply netting_close_readable|]. intros [id|]; [apply respects_ret, _|exact Hp].
Qed.

(** The laws [outbox_steps] asks for *)
Ltac readable_by lemma := apply lemma; try apply _; [intros; by apply readable_updates|..]; intros; by apply same_cmds_readable.

Lemma poll_readable a now : respects keeps_readable (deliverable a now).
Proof. readable_by deliverable_respects. Qed.
Lemma stale_readable a cutoff : respects keeps_readable (fail_stale_mt5_opens a cutoff).
Proof. readable_by stale_respects. Qed.
Lemma expired_readable a ids :
  respects keeps_readable (for_each (fun i => log_event "slave_action" Warning (expired_payload i) (Some a) None) ids).
Proof. readable_by expired_respects. Qed.
Lemma acks_readable a now acks : respects keeps_readable (apply_acks a now acks).
Proof. readable_by acks_respects. Qed.

Lemma outbox_readable mm ops : forall s, Forall op_ready ops -> keeps_readable s (run_outbox_ops mm ops s).
Proof.
  induction ops as [|o ops IH]; intros s Hops; [by intros H|]. apply Forall_cons in Hops as [Ho Hops].
  change (run_outbox_ops mm (o :: ops) s) with (run_outbox_ops mm ops (exec (run_outbox mm o) s)).
  etrans; [|by apply IH]. destruct o; simpl.
  all: refine (respects_bind keeps_readable _ _ _ _ s); [|intros; apply respects_ret, _].
  - by apply enqueue_intent_readable.
  - apply poll_readable.
  - apply acks_readable.
Qed.

Lemma collect_rows a now rows : forall s out, value (collect a now rows) s = Ok out ->
  forall cmd, cmd ∈ out -> exists row, row ∈ rows /\ cmd = command_of_row row.
Proof.
  unfold value. induction rows as [|row rows IH]; intros s out; simpl.
  { intros [= <-]. set_solver. }
  destruct (row_verdict now row); unfold bind.
  - destruct (collect a now rows s) as [[out'|e] s1] eqn:E; [|done]. intros [= <-] cmd [->|Hc]%elem_of_cons; [set_solver|].
    destruct (IH s out' ltac:(by rewrite E) cmd Hc) as (r & ? & ?). set_solver.
  - intros H cmd Hc. destruct (IH s out H cmd Hc) as (r & ? & ?). set_solver.
  - destruct (_give_up a row now s) as [[[]|e] s1]; [|done].
    intros H cmd Hc. destruct (IH s1 out H cmd Hc) as (r & ? & ?). set_solver.
Qed.

Lemma poll_out_readable a now s cs :
  all_readable s -> value (deliverable a now) s = Ok cs -> Forall (fun c => is_Some (decoded c)) cs.
Proof.
  intros Hs H. destruct (deliverable a now s) as [r s'] eqn:E. unfold value in H. rewrite E in H. simpl in H. subst r.
  apply bind_inv in E as (cutoff & s1 & E1 & E). apply lift_inv in E1 as [_ ->].
  apply bind_inv in E as (expired & s2 & E2 & E). apply bind_inv in E as ([] & s3 & E3 & E).
  apply bind_inv in E as (rows & s4 & E4 & E). apply bind_inv in E as (out & s5 & E5 & E).
  apply bind_inv in E as ([] & s6 & _ & E). apply ret_inv in E as [-> _]. apply gets_inv in E4 as [-> ->].
  assert (all_readable s3) as H3.
  { eapply (respects_run keeps_readable); [apply expired_readable|exact E3|].
    eapply (respects_run keeps_readable); [apply stale_readable|exact E2|done]. }
  apply Forall_forall. intros cmd Hc. eapply (collect_rows a now) in Hc as (row & Hrow & ->); [|by unfold value; rewrite E5].
  apply list_elem_of_In, filter_In in Hrow as [Hrow _]. apply list_elem_of_In in Hrow. by eapply Forall_forall in Hrow; [|exact H3].
Qed.

(** ** Polls can always be answered *)

Lemma readable_lines status server_ms next_poll_ms last cs :
  status = "OK" \/ status = "RETRY" -> Forall (fun c => is_Some (decoded c)) cs ->
  exists text, encode_response status server_ms next_poll_ms cs last None = Ok text.
Proof.
  intros Hst Hcs. apply mapM_is_Some in Hcs as [cs' Hcs]. destruct (command_lines_read cs cs' Hcs) as (lines & E & _ & _).
  unfold encode_response, response_head. rewrite E. by destruct Hst as [-> | ->]; eexists.
Qed.

(** C29: every queued command is well typed when every intent enqueued is ready
    for its command line: its texts lie on one line, its prices are doubles, and a
    change or a cancel knows the ticket of its order ([intent_ready]).  Then the
    command has the fields its kind needs, each of the type its command line
    writes, and over any sequence of such enqueues, polls and acknowledgements a
    poll that yields commands can be answered: the response is encoded without an
    error, and each command's line is read back by the terminal.  (A pending copy
    acknowledged without a ticket is outside: cancelling it leaves the poll without
    an answer, [orderless_cancel_blocks_poll].) *)
Theorem polls_well_typed mm t ops a now cs server_ms next_poll_ms last :
  Forall op_ready ops -> value (deliverable a now) (run_outbox_ops mm ops (empty_db t)) = Ok cs ->
  (exists text, encode_response "OK" server_ms next_poll_ms cs last None = Ok text) /\
  Forall (fun c => exists line c', command_line c = Ok line /\ decoded c = Some c' /\ read_command line = Ok c') cs.
Proof.
  intros Hops Hcs. apply poll_out_readable in Hcs; [|apply outbox_readable; [done|apply Forall_nil_2]].
  split; [apply readable_lines; auto|]. eapply Forall_impl; [exact Hcs|]. intros c [c' Hc].
  destruct (command_line_read c c' Hc) as (line & ? & _ & _ & ?). by exists line, c'.
Qed.

(** A netting follower's copy, its close and a pending order, acknowledged and
    polled *)
Definition demo_outbox_ops : list outbox_op :=
  [OEnqueue (OutboxFacts.demo_open 5 7) 7 1 "EURUSD.m"; ODeliver 7 (f_of_Z 100);
   OAcks 7 (f_of_Z 101) [demo_ack 1];
   OEnqueue (IClosePosition {| cp_slave_account_id := 7; cp_position_id := 991; cp_volume := 7;
                               cp_master_position_id := Some 5 |}) 7 1 "EURUSD.m";
   OEnqueue (IAmendPositionSLTP {| ap_slave_account_id := 7; ap_position_id := 991; ap_stop_loss := None;
                                   ap_take_profit := Some (f_of_Z 1) |}) 7 1 "EURUSD.m"].

Lemma polls_well_typed_witness :
  exists cs, value (deliverable 7 (f_of_Z 102)) (run_outbox_ops (fun _ => Some Netting) demo_outbox_ops (empty_db 0)) = Ok cs /\
    ((cmd_kind_of <$> cs) = [KOpen; KAmend] /\
     (exists text, encode_response "OK" 1700000000000 250 cs None None = Ok text) /\
     Forall (fun c => exists line c', command_line c = Ok line /\ decoded c = Some c' /\ read_command line = Ok c') cs).
Proof.
  eexists. split; [vm_compute; reflexivity|]. split; [vm_compute; reflexivity|].
  apply (polls_well_typed (fun _ => Some Netting) 0 demo_outbox_ops 7 (f_of_Z 102)).
  - repeat constructor; vm_compute; done.
  - vm_compute. reflexivity.
Defined.

(** The hypothesis matters: a cancel with no order ticket, as a pending copy that
    was acknowledged without one gets it, leaves the poll without an answer. *)
Example orderless_cancel_blocks_poll :
  let s := run_outbox_ops (fun _ => None)
    [OEnqueue (ICancelPending {| co_slave_account_id := 7; co_order_id := None |}) 7 1 "EURUSD.m"] (empty_db 0) in
  (let? cs := value (deliverable 7 (f_of_Z 102)) s in encode_response "OK" 1700000000000 250 cs None None) =
  Raise (TypeError "int() argument must be a string, a bytes-like object or a real number").
Proof. vm_compute. reflexivity. Qed.
