(* ===== verification/Dispatch.v ===== *)
(** * The dispatcher: [copier/engine/dispatch.py]

    Intents become protobuf requests (or MT5 commands), pass the org's copy
    gates, get their mapping row and are handed to the throttled send path.
    [engine] is the database plus the sends under way: a task waits for its
    token, its outcome or its retry timer, and [send_step] is what happens to
    one task when its attempt ends.  The bucket's order is [Throttle]'s
    subject; here any task may move next. *)

From S2P Require Import Prelude PyStr PyDecimal PyFloat Models Normalize Db Repo Protocol Outbox.
From Stdlib Require Import SpecFloat.

(** ** Requests *)

Record ProtoOANewOrderReq := {
  no_ctidTraderAccountId : Z;
  no_symbolId : Z;
  no_orderType : ProtoOAOrderType;
  no_tradeSide : ProtoOATradeSide;
  no_volume : Z;
  no_limitPrice : option float64;
  no_stopPrice : option float64;
  no_expirationTimestamp : option Z;
  no_stopLoss : option float64;
  no_takeProfit : option float64;
  no_label : string;
  no_clientOrderId : string;
  no_relativeStopLoss : option Z;
  no_relativeTakeProfit : option Z
}.

Record ProtoOAAmendOrderReq := {
  am_ctidTraderAccountId : Z;
  am_orderId : Z;
  am_volume : Z;
  am_limitPrice : option float64;
  am_stopPrice : option float64;
  am_stopLoss : option float64;
  am_takeProfit : option float64
}.

Inductive request :=
  | NewOrderReq (r : ProtoOANewOrderReq)
  | ClosePositionReq (ctid positionId volume : Z)
  | AmendPositionSLTPReq (ctid positionId : Z) (stopLoss takeProfit : option float64)
  | AmendOrderReq (r : ProtoOAAmendOrderReq)
  | CancelOrderReq (ctid orderId : Z).

(** [Side.BUY -> BUY], else [SELL] *)
Definition proto_side (s : Side) : ProtoOATradeSide := match s with BUY => TS_BUY | SELL => TS_SELL end.

Definition RELATIVE_PRICE_SCALE : Z := 100000.

(** [relative_protection]'s inner [distance]; [round] raises on a NaN or an
    infinite gap. *)
Definition distance (entry_price : float64) (target : price) (protective_below : bool)
    : result (option Z) :=
  match target with
  | None => Ok None
  | Some target =>
      let gap := if protective_below then fsub entry_price target else fsub target entry_price in
      if fleb gap fzero then Ok None
      else let? units := py_round (fmul gap (f_of_Z RELATIVE_PRICE_SCALE)) in
           Ok (if 1 <=? units then Some units else None)
  end.

Definition relative_protection (side : Side) (entry_price stop_loss take_profit : price)
    : result (option Z * option Z) :=
  match entry_price with
  | None => Ok (None, None)
  | Some entry_price =>
      if fleb entry_price fzero then Ok (None, None)
      else let is_buy := match side with BUY => true | SELL => false end in
           let? sl := distance entry_price stop_loss is_buy in
           let? tp := distance entry_price take_profit (negb is_buy) in
           Ok (sl, tp)
  end.

(** [names of the protection wanted but not sent] *)
Definition dropped_protection (stop_loss take_profit : price) (sl_rel tp_rel : option Z) : list string :=
  (match stop_loss, sl_rel with Some _, None => ["stop loss"] | _, _ => [] end) ++
  (match take_profit, tp_rel with Some _, None => ["take profit"] | _, _ => [] end).

(** An int field cannot be set to [None]. *)
Definition require_int (o : option Z) : result Z :=
  match o with
  | Some z => Ok z
  | None => Raise (TypeError "'NoneType' object cannot be interpreted as an integer")
  end.

Definition limit_price (t : PendingType) (p : float64) : option float64 :=
  match t with LIMIT => Some p | STOP => None end.
Definition stop_price (t : PendingType) (p : float64) : option float64 :=
  match t with LIMIT => None | STOP => Some p end.

(** The account, the request, and the protection it could not express (the
    [_DROPPED_PROTECTION] entry, which the caller pops right after). *)
Definition build_request (intent : SlaveIntent) : result (Z * request * option (OpenMarket * list string)) :=
  match intent with
  | IOpenMarket i =>
      let? rel := relative_protection (om_side i) (om_entry_price i) (om_stop_loss i) (om_take_profit i) in
      let dropped := dropped_protection (om_stop_loss i) (om_take_profit i) rel.1 rel.2 in
      Ok (om_slave_account_id i,
          NewOrderReq {|
            no_ctidTraderAccountId := om_slave_account_id i; no_symbolId := om_symbol_id i;
            no_orderType := OT_MARKET; no_tradeSide := proto_side (om_side i);
            no_volume := om_volume i; no_limitPrice := None; no_stopPrice := None;
            no_expirationTimestamp := None; no_stopLoss := None; no_takeProfit := None;
            no_label := om_label i;
            no_clientOrderId := default "" (client_order_id_for intent);
            no_relativeStopLoss := rel.1; no_relativeTakeProfit := rel.2 |},
          match dropped with [] => None | _ => Some (i, dropped) end)
  | IClosePosition i =>
      Ok (cp_slave_account_id i,
          ClosePositionReq (cp_slave_account_id i) (cp_position_id i) (cp_volume i), None)
  | IAmendPositionSLTP i =>
      Ok (ap_slave_account_id i,
          AmendPositionSLTPReq (ap_slave_account_id i) (ap_position_id i)
                               (ap_stop_loss i) (ap_take_profit i), None)
  | IPlacePending i =>
      Ok (pp_slave_account_id i,
          NewOrderReq {|
            no_ctidTraderAccountId := pp_slave_account_id i; no_symbolId := pp_symbol_id i;
            no_orderType := match pp_order_type i with LIMIT => OT_LIMIT | STOP => OT_STOP end;
            no_tradeSide := proto_side (pp_side i); no_volume := pp_volume i;
            no_limitPrice := limit_price (pp_order_type i) (pp_price i);
            no_stopPrice := stop_price (pp_order_type i) (pp_price i);
            no_expirationTimestamp := pp_expiry_ts_ms i;
            no_stopLoss := pp_stop_loss i; no_takeProfit := pp_take_profit i;
            no_label := pp_label i;
            no_clientOrderId := default "" (client_order_id_for intent);
            no_relativeStopLoss := None; no_relativeTakeProfit := None |}, None)
  | IAmendPending i =>
      let? order_id := require_int (ao_order_id i) in
      Ok (ao_slave_account_id i,
          AmendOrderReq {|
            am_ctidTraderAccountId := ao_slave_account_id i; am_orderId := order_id;
            am_volume := ao_volume i;
            am_limitPrice := limit_price (ao_order_type i) (ao_price i);
            am_stopPrice := stop_price (ao_order_type i) (ao_price i);
            am_stopLoss := ao_stop_loss i; am_takeProfit := ao_take_profit i |}, None)
  | ICancelPending i =>
      let? order_id := require_int (co_order_id i) in
      Ok (co_slave_account_id i, CancelOrderReq (co_slave_account_id i) order_id, None)
  | ILinkPendingFill _ | IAlert _ =>
      Raise (ValueError ("Unknown intent type: " +:+ intent_type_name intent))
  end.

(** ** Request summaries: every field that is set, enums by name *)

Definition opt_field {A} (name : string) (f : A -> json) (o : option A) : payload :=
  match o with Some x => [(name, f x)] | None => [] end.

Definition trade_side_json (s : ProtoOATradeSide) : json :=
  match s with TS_BUY => JStr "BUY" | TS_SELL => JStr "SELL" | TS_OTHER n => JInt n end.

Definition _request_summary (req : request) : payload :=
  match req with
  | NewOrderReq r =>
      [("message_type", JStr "ProtoOANewOrderReq");
       ("ctidTraderAccountId", JInt (no_ctidTraderAccountId r)); ("symbolId", JInt (no_symbolId r));
       ("orderType", JStr (order_type_name (no_orderType r)));
       ("tradeSide", trade_side_json (no_tradeSide r)); ("volume", JInt (no_volume r))] ++
      opt_field "limitPrice" JFloat (no_limitPrice r) ++ opt_field "stopPrice" JFloat (no_stopPrice r) ++
      opt_field "expirationTimestamp" JInt (no_expirationTimestamp r) ++
      opt_field "stopLoss" JFloat (no_stopLoss r) ++ opt_field "takeProfit" JFloat (no_takeProfit r) ++
      [("label", JStr (no_label r)); ("clientOrderId", JStr (no_clientOrderId r))] ++
      opt_field "relativeStopLoss" JInt (no_relativeStopLoss r) ++
      opt_field "relativeTakeProfit" JInt (no_relativeTakeProfit r)
  | ClosePositionReq a p v =>
      [("message_type", JStr "ProtoOAClosePositionReq"); ("ctidTraderAccountId", JInt a);
       ("positionId", JInt p); ("volume", JInt v)]
  | AmendPositionSLTPReq a p sl tp =>
      [("message_type", JStr "ProtoOAAmendPositionSLTPReq"); ("ctidTraderAccountId", JInt a);
       ("positionId", JInt p)] ++ opt_field "stopLoss" JFloat sl ++ opt_field "takeProfit" JFloat tp
  | AmendOrderReq r =>
      [("message_type", JStr "ProtoOAAmendOrderReq");
       ("ctidTraderAccountId", JInt (am_ctidTraderAccountId r)); ("orderId", JInt (am_orderId r));
       ("volume", JInt (am_volume r))] ++
      opt_field "limitPrice" JFloat (am_limitPrice r) ++ opt_field "stopPrice" JFloat (am_stopPrice r) ++
      opt_field "stopLoss" JFloat (am_stopLoss r) ++ opt_field "takeProfit" JFloat (am_takeProfit r)
  | CancelOrderReq a o =>
      [("message_type", JStr "ProtoOACancelOrderReq"); ("ctidTraderAccountId", JInt a);
       ("orderId", JInt o)]
  end.

(** ** The engine state *)

(** A send in progress: the request, how many attempts came before, and how
    long (ms) this one waits before it asks for its token. *)
Record send_task := { st_account : Z; st_req : request; st_attempt : Z; st_delay_ms : Z }.

Definition RETRY_DELAYS_MS : list Z := [1000; 2000; 4000].

Record engine := { e_db : db; e_sends : list send_task }.

(** Repository calls *)
Definition on_db {A} (m : M db A) : M engine A :=
  fun e => match m (e_db e) with
           | (r, d) => (r, {| e_db := d; e_sends := e_sends e |})
           end.

Definition add_send (t : send_task) : M engine unit :=
  modify (fun e => {| e_db := e_db e; e_sends := e_sends e ++ [t] |}).

Definition e_log (category : string) (sev : severity) (p : payload) (account org : option Z)
    : M engine unit := on_db (log_event category sev p account org).

(** ** The dispatcher *)

Section Dispatcher.
(** [mt5_targets] and [mt5_outbox] (by its margin-mode callback) *)
Context (mt5_targets : option (Z -> option (gmap Z string)))
        (mt5_outbox : option (Z -> option margin_mode)).

Definition _send_with_retries (account_id : Z) (req : request) (attempt delay_ms : Z) : M engine unit :=
  add_send {| st_account := account_id; st_req := req; st_attempt := attempt;
              st_delay_ms := delay_ms |}.

Definition send_direct (account_id : Z) (req : request) : M engine unit :=
  _send_with_retries account_id req 0 0.

Definition _handle_alert (i : Alert) (org_id : Z) : M engine unit :=
  e_log "slave_action" Warning [("message", JStr (al_message i))] (al_slave_account_id i) (Some org_id).

Definition _handle_link_pending_fill (i : LinkPendingFill) (org_id : Z) : M engine unit :=
  try_except
    (on_db (link_pending_fill (lf_master_order_id i) (lf_slave_account_id i) (lf_master_position_id i)) ;;;
     e_log "slave_action" Info
       [("action", JStr "link_pending_fill"); ("master_order_id", JInt (lf_master_order_id i));
        ("master_position_id", JInt (lf_master_position_id i))]
       (Some (lf_slave_account_id i)) (Some org_id))
    (fun e => if is_mapping_not_found e
              then e_log "slave_action" Error
                     [("action", JStr "link_pending_fill"); ("error", JExn e)]
                     (Some (lf_slave_account_id i)) (Some org_id)
              else raise e).

(** [symbol_name or None] *)
Definition or_none (s : string) : option string := if bool_decide (s = "") then None else Some s.

Definition _create_mapping (intent : SlaveIntent) (account_id org_id : Z) : M engine unit :=
  match intent with
  | IOpenMarket i =>
      on_db (create_position_mapping (om_master_position_id i) account_id
               (default "" (client_order_id_for intent)) org_id (or_none (om_symbol_name i)))
  | IPlacePending i =>
      on_db (create_order_mapping (pp_master_order_id i) account_id
               (default "" (client_order_id_for intent)) org_id (or_none (pp_symbol_name i)))
  | _ => ret tt
  end.

Definition _handle_kill_switch (intent : SlaveIntent) (org_id : Z) : M engine unit :=
  e_log "slave_action" Info
    [("skipped", JStr "kill_switch"); ("intent_type", JStr (intent_type_name intent))]
    (intent_account intent) (Some org_id).

Definition _warn_dropped_protection (entry : option (OpenMarket * list string))
    (account_id org_id : Z) : M engine unit :=
  match entry with
  | None => ret tt
  | Some (i, dropped) =>
      e_log "slave_action" Warning
        [("action", JStr "protection_dropped");
         ("master_position_id", JInt (om_master_position_id i));
         ("dropped", JList (JStr <$> dropped));
         ("stop_loss", JPrice (om_stop_loss i)); ("take_profit", JPrice (om_take_profit i));
         ("entry_price", JPrice (om_entry_price i));
         ("detail", JStr ("copy placed WITHOUT this protection: the level could " +:+
                          "not be expressed as a distance from the fill"))]
        (Some account_id) (Some org_id)
  end.

Definition _handle_dry_run (intent : SlaveIntent) (org_id : Z) : M engine unit :=
  let! built := lift_result (build_request intent) in
  let '(account_id, req, entry) := built in
  _create_mapping intent account_id org_id ;;;
  _warn_dropped_protection entry account_id org_id ;;;
  e_log "slave_action" Info
    [("dry_run", JBool true); ("would_send", JObj (_request_summary req));
     ("note", JStr "mapping stays pending, cleaned by resync")]
    (Some account_id) (Some org_id).

Definition unmatched_payload (account_id : Z) (symbol_name : string) : payload :=
  [("action", JStr "mt5_symbol_unmatched"); ("symbol", JStr symbol_name);
   ("message", JStr ("cannot copy to MT5 account " +:+ pretty account_id +:+ ": no broker symbol " +:+
      "is mapped to " +:+ py_repr symbol_name +:+ "; set the mapping in the " +:+
      "account's Details panel"))].

(** The broker's name of an order's symbol ([""] for the other intents),
    or the canonical name that has none. *)
Definition broker_symbol_of (targets : gmap Z string) (intent : SlaveIntent) : string + string :=
  match intent with
  | IOpenMarket i => match targets !! om_symbol_id i with
                     | Some b => inl b | None => inr (om_symbol_name i) end
  | IPlacePending i => match targets !! pp_symbol_id i with
                       | Some b => inl b | None => inr (pp_symbol_name i) end
  | _ => inl ""
  end.

Definition _enqueue_for_mt5 (intent : SlaveIntent) (account_id org_id : Z) : M engine bool :=
  match mt5_targets, mt5_outbox with
  | Some targets_of, Some margin_mode_of =>
      match targets_of account_id with
      | None => ret false
      | Some targets =>
          match broker_symbol_of targets intent with
          | inr symbol_name =>
              e_log "slave_action" Warning (unmatched_payload account_id symbol_name)
                (Some account_id) (Some org_id) ;;;
              ret true
          | inl broker_symbol =>
              _create_mapping intent account_id org_id ;;;
              let! command_id := on_db (enqueue_intent margin_mode_of intent account_id org_id broker_symbol) in
              e_log "slave_action" Info
                [("action", JStr "mt5_command_queued"); ("command_id", JInt command_id);
                 ("intent_type", JStr (intent_type_name intent))]
                (Some account_id) (Some org_id) ;;;
              ret true
          end
      end
  | _, _ => ret false
  end.

(** An intent that reaches this point has an account: alerts, the only ones
    that may lack one, are handled before. *)
Definition _handle_live_send (intent : SlaveIntent) (org_id : Z) : M engine unit :=
  let! handled := match intent_account intent with
                  | Some account_id => _enqueue_for_mt5 intent account_id org_id
                  | None => ret false
                  end in
  if handled then ret tt
  else let! built := lift_result (build_request intent) in
       let '(account_id, req, entry) := built in
       _create_mapping intent account_id org_id ;;;
       _warn_dropped_protection entry account_id org_id ;;;
       _send_with_retries account_id req 0 0.

Definition handle_intent (org : OrgRow) (org_id : Z) (intent : SlaveIntent) : M engine unit :=
  match intent with
  | IAlert i => _handle_alert i org_id
  | ILinkPendingFill i => _handle_link_pending_fill i org_id
  | _ => if negb (org_copying_enabled org) then _handle_kill_switch intent org_id
         else if org_dry_run org then _handle_dry_run intent org_id
         else _handle_live_send intent org_id
  end.

Definition intent_failed (intent : SlaveIntent) (org_id : Z) (e : exn) : M engine unit :=
  e_log "slave_action" Error
    [("action", JStr "intent_processing_failed"); ("intent_type", JStr (intent_type_name intent));
     ("error", JExn e)] (intent_account intent) (Some org_id) ;;;
  match intent_account intent with
  | Some a => on_db (set_account_status a StDegraded (JExn e))
  | None => ret tt
  end.

Definition dispatch (intents : list SlaveIntent) (org_id : Z) : M engine unit :=
  let! org := on_db (get_org org_id) in
  for_each (fun intent => try_except (handle_intent org org_id intent) (intent_failed intent org_id))
    intents.
End Dispatcher.

(** ** The end of an attempt *)

(** How an attempt ends: the broker took it, it never left this process
    ([SendNotAttempted]), or nobody knows. *)
Inductive send_outcome := SendOk | SendNotAttempted (e : exn) | SendAmbiguous (e : exn).

Definition _on_send_success (account_id : Z) : M engine unit :=
  let! cleared := on_db (clear_degraded account_id) in
  if cleared : bool
  then e_log "slave_action" Info
         [("action", JStr "degraded_cleared"); ("reason", JStr "successful send")]
         (Some account_id) None
  else ret tt.

Definition _on_send_failure (outcome : send_outcome) (account_id : Z) (req : request) (attempt : Z)
    : M engine unit :=
  match outcome with
  | SendNotAttempted e =>
      if attempt <? 3
      then _send_with_retries account_id req (attempt + 1)
             (default 0 (RETRY_DELAYS_MS !! Z.to_nat attempt))
      else on_db (set_account_status account_id StDegraded (JExn e)) ;;;
           e_log "slave_action" Error
             [("action", JStr "send_failed_degraded"); ("attempt", JInt (attempt + 1));
              ("error", JExn e); ("request_summary", JObj (_request_summary req))]
             (Some account_id) None
  | SendAmbiguous e =>
      on_db (set_account_status account_id StDegraded (JExn e)) ;;;
      e_log "slave_action" Error
        [("action", JStr "send_failed_ambiguous_no_retry"); ("error", JExn e);
         ("request_summary", JObj (_request_summary req))]
        (Some account_id) None
  | SendOk => ret tt
  end.

Definition settle_send (t : send_task) (outcome : send_outcome) : M engine unit :=
  match outcome with
  | SendOk => _on_send_success (st_account t)
  | _ => _on_send_failure outcome (st_account t) (st_req t) (st_attempt t)
  end.
