(* ===== verification/DispatchFacts.v ===== *)
(** * Facts about the dispatcher

    The copy gates, exception isolation, org stamping, the mapping row before
    the send, and the retry ladder. *)

From S2P Require Import Prelude PyStr PyDecimal PyFloat Models Normalize Db Repo RepoFacts Protocol.
From S2P Require Import Outbox Dispatch Routing.

(** ** Lifting *)

Lemma respects_on_db (R : engine -> engine -> Prop) {A} (m : M db A) :
  (forall e, R e {| e_db := exec m (e_db e); e_sends := e_sends e |}) -> respects R (on_db m).
Proof. intros H e. specialize (H e). unfold exec, on_db in *. by destruct (m (e_db e)). Qed.

(** A computation that never raises. *)
Definition total {S A} (m : M S A) : Prop := forall s, exists a, value m s = Ok a.

Lemma total_bind {S A B} (m : M S A) (f : A -> M S B) :
  total m -> (forall a, total (f a)) -> total (bind m f).
Proof.
  intros Hm Hf s. destruct (Hm s) as [a Ha]. unfold value, bind in *.
  destruct (m s) as [r s']; simpl in *. subst r. apply (Hf a).
Qed.

Lemma total_try {S A} (m : M S A) (h : exn -> M S A) : (forall e, total (h e)) -> total (try_except m h).
Proof.
  intros Hh s. unfold value, try_except. destruct (m s) as [[a|e] s']; [by exists a|]. apply (Hh e).
Qed.

Lemma total_for_each {S A} (f : A -> M S unit) l : (forall x, total (f x)) -> total (for_each f l).
Proof.
  intros Hf. induction l as [|x l IH]; simpl; [by intros s; exists tt|].
  by apply total_bind.
Qed.

Lemma total_on_db {A} (m : M db A) : total m -> total (on_db m).
Proof.
  intros H e. destruct (H (e_db e)) as [a Ha]. exists a. unfold value, on_db in *.
  by destruct (m (e_db e)).
Qed.

Lemma exec_for_each_app {S A} (f : A -> M S unit) l k s :
  (forall x, total (f x)) ->
  exec (for_each f (l ++ k)) s = exec (for_each f k) (exec (for_each f l) s).
Proof.
  intros Hf. revert s. induction l as [|x l IH]; intros s; [done|]. simpl.
  unfold exec, bind. destruct (Hf x s) as [a Ha]. unfold value in Ha.
  destruct (f x s) as [r s']; simpl in *; subst r. apply IH.
Qed.

Lemma total_modify {S} (f : S -> S) : total (modify f).
Proof. intros s. by exists tt. Qed.

Lemma intent_failed_total i o e : total (intent_failed i o e).
Proof.
  apply total_bind; [by apply total_on_db, total_modify|]. intros _.
  destruct (intent_account i); [by apply total_on_db, total_modify|]. intros s. by exists tt.
Qed.

(** ** Steps of a dispatch, for any relation the writes respect *)

Section steps.
Context (R : engine -> engine -> Prop) `{!Reflexive R, !Transitive R}.
Context (targets : option (Z -> option (gmap Z string))) (outbox : option (Z -> option margin_mode)).
Context (org_id : Z).

Context (Hlog : forall cat sev p a, respects R (e_log cat sev p a (Some org_id)))
        (Hstatus : forall a e, respects R (on_db (set_account_status a StDegraded (JExn e))))
        (Hlink : forall mo a mp, respects R (on_db (link_pending_fill mo a mp))).

Lemma dispatch_respects org i :
  (forall i', i' = i -> match i' with IAlert _ | ILinkPendingFill _ => False | _ => True end ->
     respects R (handle_intent targets outbox org org_id i')) ->
  respects R (try_except (handle_intent targets outbox org org_id i) (intent_failed i org_id)).
Proof.
  intros Hh. apply respects_try; [done| |].
  - destruct i; try by apply Hh.
    + simpl. unfold _handle_link_pending_fill. apply respects_try; [done| |].
      * apply respects_bind; [done|apply Hlink|]. intros _. apply Hlog.
      * intros e. case_match; [apply Hlog|by apply respects_raise].
    + apply Hlog.
  - intros e. unfold intent_failed. apply respects_bind; [done|apply Hlog|]. intros _.
    destruct (intent_account i); [apply Hstatus|by apply respects_ret].
Qed.
End steps.

(** ** The gates *)

(** Nothing sent, nothing queued for a terminal. *)
Definition quiet (e e' : engine) : Prop :=
  e_sends e' = e_sends e /\ db_commands (e_db e') = db_commands (e_db e).
#[export] Instance quiet_refl : Reflexive quiet.
Proof. done. Qed.
#[export] Instance quiet_trans : Transitive quiet.
Proof. unfold quiet. intros a b c [] []. split; congruence. Qed.

(** ... and no mapping row added or removed. *)
Definition suppressed (e e' : engine) : Prop :=
  quiet e e' /\ (m_id <$> db_mappings (e_db e')) = (m_id <$> db_mappings (e_db e)).
#[export] Instance suppressed_refl : Reflexive suppressed.
Proof. done. Qed.
#[export] Instance suppressed_trans : Transitive suppressed.
Proof. unfold suppressed. intros a b c [] []. split; [by etrans|congruence]. Qed.

Lemma link_rows mo a mp s :
  exec (link_pending_fill mo a mp) s =
    exec (update_mappings (fun r => col_eqb (m_master_order_id r) mo && (m_slave_account_id r =? a) &&
                                    bool_decide (m_status r = Active))
                          (fun r => touch (db_now s) (set_m_master_position_id (Some mp) r))) s.
Proof. unfold link_pending_fill, exec, bind, gets, update_mappings, require_rows. simpl. by case_match. Qed.

Lemma update_ids cond upd (s : db) :
  (forall r, m_id (upd r) = m_id r) ->
  m_id <$> db_mappings (exec (update_mappings cond upd) s) = m_id <$> db_mappings s.
Proof.
  intros H. unfold exec, update_mappings; simpl. apply fmap_fmap_id. intros r _. by case_match.
Qed.

Lemma log_suppressed cat sev p a o : respects suppressed (e_log cat sev p a o).
Proof. by apply respects_on_db. Qed.
Lemma status_suppressed a st j : respects suppressed (on_db (set_account_status a st j)).
Proof. by apply respects_on_db. Qed.
Lemma link_suppressed mo a mp : respects suppressed (on_db (link_pending_fill mo a mp)).
Proof. apply respects_on_db. intros e. split; simpl; [by rewrite link_rows|]. rewrite link_rows. by apply update_ids. Qed.

Lemma suppressed_quiet {A} (m : M engine A) : respects suppressed m -> respects quiet m.
Proof. intros H e. by apply H. Qed.

Lemma create_mapping_quiet i a o : respects quiet (_create_mapping i a o).
Proof.
  destruct i; simpl; try by apply respects_ret; apply _.
  - apply respects_on_db. intros e. unfold create_position_mapping, exec, bind, gets.
    by destruct (coid_taken _ _).
  - apply respects_on_db. intros e. unfold create_order_mapping, exec, bind, gets.
    by destruct (coid_taken _ _).
Qed.

Lemma warn_quiet entry a o : respects quiet (_warn_dropped_protection entry a o).
Proof.
  destruct entry as [[]|]; simpl; [|apply respects_ret; apply _].
  apply suppressed_quiet, log_suppressed.
Qed.

Lemma dry_run_quiet i o : respects quiet (_handle_dry_run i o).
Proof.
  unfold _handle_dry_run. apply respects_bind; [apply _|apply respects_lift; apply _|]. intros [[a req] entry].
  apply respects_bind; [apply _|apply create_mapping_quiet|]. intros _.
  apply respects_bind; [apply _|apply warn_quiet|]. intros _. apply suppressed_quiet, log_suppressed.
Qed.

(** The org row a dispatch reads. *)
Definition org_row (org : Z) (s : db) : option OrgRow := List.find (fun o => org =? org_id o) (db_orgs s).

Lemma get_org_run org s o : org_row org s = Some o -> get_org org s = (Ok o, s).
Proof. intros H. unfold get_org, bind, gets. unfold org_row in H. by rewrite H. Qed.

Lemma get_org_none org s : org_row org s = None -> exists x, get_org org s = (Raise x, s).
Proof. intros H. unfold get_org, bind, gets. unfold org_row in H. rewrite H. by eexists. Qed.

Lemma dispatch_run targets outbox intents org e o :
  org_row org (e_db e) = Some o ->
  dispatch targets outbox intents org e =
    for_each (fun i => try_except (handle_intent targets outbox o org i) (intent_failed i org)) intents e.
Proof. intros H. unfold dispatch, bind, on_db. rewrite (get_org_run _ _ _ H). by destruct e. Qed.

(** C3: the copy gates hold.  When the org's kill switch is on, a dispatch
    sends nothing, queues no terminal command and creates no mapping; in dry
    run it sends nothing and queues nothing.  Whatever the intents are. *)
Theorem gated_dispatch_sends_nothing targets outbox intents org o e :
  org_row org (e_db e) = Some o ->
  (org_copying_enabled o = false -> suppressed e (exec (dispatch targets outbox intents org) e)) /\
  (org_dry_run o = true -> quiet e (exec (dispatch targets outbox intents org) e)).
Proof.
  intros Ho. unfold exec. rewrite (dispatch_run _ _ _ _ _ _ Ho). split; intros Hgate.
  - revert e Ho. intros e _. revert e. apply respects_for_each; try apply _. intros i _.
    apply dispatch_respects; try apply _; auto using log_suppressed, status_suppressed, link_suppressed.
    intros i' -> Hi. destruct i; try done; simpl; rewrite Hgate; apply log_suppressed.
  - revert e Ho. intros e _. revert e. apply respects_for_each; try apply _. intros i _.
    apply dispatch_respects; try apply _;
      auto using suppressed_quiet, log_suppressed, status_suppressed, link_suppressed.
    intros i' -> Hi. destruct i; try done; simpl; rewrite Hgate;
      (case_match; [apply suppressed_quiet, log_suppressed|apply dry_run_quiet]).
Qed.

(** ** Isolation *)

Definition same_orgs (e e' : engine) : Prop := db_orgs (e_db e') = db_orgs (e_db e).
#[export] Instance same_orgs_refl : Reflexive same_orgs.
Proof. done. Qed.
#[export] Instance same_orgs_trans : Transitive same_orgs.
Proof. unfold same_orgs. congruence. Qed.

(** ** Org stamping *)

(** What a dispatch for [org] may write: events and commands stamped with the
    org at the end of their tables, mapping rows of the org at the end of
    theirs; no row changes its org, no org row changes. *)
Definition stamped_rows (org : Z) (s s' : db) : Prop :=
  db_orgs s' = db_orgs s /\
  (exists evs, db_events s' = db_events s ++ evs /\ Forall (fun r => evr_org_id r = Some org) evs) /\
  (exists cmds, db_commands s' = db_commands s ++ cmds /\ Forall (fun c => c_org_id c = org) cmds) /\
  (exists kept new, db_mappings s' = kept ++ new /\
     (m_org_id <$> kept) = (m_org_id <$> db_mappings s) /\ Forall (fun r => m_org_id r = org) new).

Definition stamped (org : Z) (e e' : engine) : Prop := stamped_rows org (e_db e) (e_db e').

Lemma extends_refl {A} (P : A -> Prop) (l : list A) : exists new, l = l ++ new /\ Forall P new.
Proof. exists []. by rewrite app_nil_r. Qed.

Lemma extends_trans {A} (P : A -> Prop) (l1 l2 l3 : list A) :
  (exists new, l2 = l1 ++ new /\ Forall P new) -> (exists new, l3 = l2 ++ new /\ Forall P new) ->
  exists new, l3 = l1 ++ new /\ Forall P new.
Proof.
  intros (n1 & -> & H1) (n2 & -> & H2). exists (n1 ++ n2). rewrite app_assoc.
  split; [done|]. by apply Forall_app.
Qed.

Lemma kept_refl org (l : list mapping_row) :
  exists kept new, l = kept ++ new /\ (m_org_id <$> kept) = (m_org_id <$> l) /\
                   Forall (fun r => m_org_id r = org) new.
Proof. exists l, []. by rewrite app_nil_r. Qed.

#[export] Instance stamped_rows_refl org : Reflexive (stamped_rows org).
Proof. intros s. split; [done|]. split; [apply extends_refl|]. split; [apply extends_refl|apply kept_refl]. Qed.
#[export] Instance stamped_rows_trans org : Transitive (stamped_rows org).
Proof.
  intros a b c (Ho1 & He1 & Hc1 & k1 & n1 & Em1 & Hk1 & Hn1) (Ho2 & He2 & Hc2 & k2 & n2 & Em2 & Hk2 & Hn2).
  split; [congruence|]. split; [by eapply extends_trans|]. split; [by eapply extends_trans|].
  rewrite Em1, fmap_app in Hk2.
  exists (take (length k1) k2), (drop (length k1) k2 ++ n2).
  assert (length k1 <= length k2)%nat as Hlen.
  { apply (f_equal length) in Hk2. rewrite length_app, !length_fmap in Hk2. lia. }
  split; [by rewrite app_assoc, take_drop|]. split.
  - rewrite fmap_take, Hk2, take_app_le by (rewrite length_fmap; lia).
    rewrite <-(length_fmap m_org_id k1), firstn_all. done.
  - apply Forall_app. split; [|done].
    assert (m_org_id <$> drop (length k1) k2 = m_org_id <$> n1) as Heq.
    { rewrite fmap_drop, Hk2, drop_app_ge by (rewrite length_fmap; lia).
      by rewrite length_fmap, Nat.sub_diag. }
    assert (Forall (fun o => o = org) (m_org_id <$> drop (length k1) k2)) as Hall
      by (rewrite Heq; by apply Forall_fmap).
    by apply Forall_fmap in Hall.
Qed.
#[export] Instance stamped_refl org : Reflexive (stamped org).
Proof. intros e. by apply (stamped_rows_refl org). Qed.
#[export] Instance stamped_trans org : Transitive (stamped org).
Proof. intros a b c. apply (stamped_rows_trans org). Qed.

Lemma stamped_on_db org {A} (m : M db A) : respects (stamped_rows org) m -> respects (stamped org) (on_db m).
Proof. intros H. apply respects_on_db. intros e. apply H. Qed.

Lemma log_stamped org cat sev p a : respects (stamped_rows org) (log_event cat sev p a (Some org)).
Proof.
  intros s. split; [done|]. split; [|split; [apply extends_refl|apply kept_refl]].
  eexists. split; [reflexivity|]. by repeat constructor.
Qed.

Lemma status_stamped org a st j : respects (stamped_rows org) (set_account_status a st j).
Proof. intros s. split; [done|]. split; [apply extends_refl|]. split; [apply extends_refl|apply kept_refl]. Qed.

Lemma update_stamped org cond upd :
  (forall r, m_org_id (upd r) = m_org_id r) -> respects (stamped_rows org) (update_mappings cond upd).
Proof.
  intros H s. split; [done|]. split; [apply extends_refl|]. split; [apply extends_refl|].
  eexists _, []. split; [by rewrite app_nil_r|]. split; [|done].
  simpl. apply fmap_fmap_id. intros r _. by case_match.
Qed.

Lemma insert_stamped org mk :
  (forall s, m_org_id (mk s) = org) -> respects (stamped_rows org) (insert_mapping mk).
Proof.
  intros H s. split; [done|]. split; [apply extends_refl|]. split; [apply extends_refl|].
  eexists _, _. split; [reflexivity|]. split; [done|]. by repeat constructor.
Qed.

Lemma seq_stamped org : respects (stamped_rows org)
  (modify (fun s => set_db_next_mapping_id (db_next_mapping_id s + 1) s)).
Proof. intros s. split; [done|]. split; [apply extends_refl|]. split; [apply extends_refl|apply kept_refl]. Qed.

Lemma enqueue_stamped org a k p c : respects (stamped_rows org) (enqueue_mt5_command a org k p c).
Proof.
  intros s. split; [done|]. split; [apply extends_refl|]. split; [|apply kept_refl].
  eexists. split; [reflexivity|]. by repeat constructor.
Qed.

Lemma require_rows_stamped org n msg : respects (stamped_rows org) (require_rows n msg).
Proof. unfold require_rows. case_match; [apply respects_raise|apply respects_ret]; apply _. Qed.

Ltac stamped_step :=
  first [ apply respects_ret | apply respects_raise | apply respects_gets | apply respects_lift
        | apply log_stamped | apply status_stamped | apply require_rows_stamped | apply seq_stamped
        | apply enqueue_stamped | (apply update_stamped; by intros) | (apply insert_stamped; by intros)
        | apply respects_bind; [apply _| |intro] ]; try apply _.

Lemma link_stamped org mo a mp : respects (stamped_rows org) (link_pending_fill mo a mp).
Proof. unfold link_pending_fill. repeat stamped_step. Qed.

Lemma create_mapping_stamped org i a : respects (stamped org) (_create_mapping i a org).
Proof.
  destruct i; simpl; try (apply respects_ret; apply _); apply stamped_on_db.
  - unfold create_position_mapping. stamped_step; [stamped_step|]. case_match; repeat stamped_step.
  - unfold create_order_mapping. stamped_step; [stamped_step|]. case_match; repeat stamped_step.
Qed.

Lemma enqueue_intent_stamped org mm i a sym : respects (stamped_rows org) (enqueue_intent mm i a org sym).
Proof.
  assert (respects (stamped_rows org) (enqueue_plain i a org sym)) as Hplain
    by (unfold enqueue_plain, enqueue; repeat stamped_step).
  unfold enqueue_intent. destruct i; try done. destruct (cp_master_position_id i); [|done].
  case_match; [|done]. stamped_step; [|case_match; [stamped_step|done]].
  unfold _enqueue_netting_close, mapping_side, mt5_open_payload, enqueue.
  repeat stamped_step. repeat case_match; repeat stamped_step.
Qed.

Lemma enqueue_mt5_stamped org targets outbox i a : respects (stamped org) (_enqueue_for_mt5 targets outbox i a org).
Proof.
  unfold _enqueue_for_mt5. destruct targets as [tg|]; [|apply respects_ret; apply _].
  destruct outbox as [mm|]; [|apply respects_ret; apply _].
  destruct (tg a); [|apply respects_ret; apply _].
  destruct (broker_symbol_of _ _).
  - apply respects_bind; [apply _|apply create_mapping_stamped|]. intros _.
    apply respects_bind; [apply _|apply stamped_on_db, enqueue_intent_stamped|]. intros id.
    apply respects_bind; [apply _|apply stamped_on_db, log_stamped|]. intros _. apply respects_ret; apply _.
  - apply respects_bind; [apply _|apply stamped_on_db, log_stamped|]. intros _. apply respects_ret; apply _.
Qed.

Lemma warn_stamped org entry a : respects (stamped org) (_warn_dropped_protection entry a org).
Proof.
  destruct entry as [[]|]; simpl; [|apply respects_ret; apply _]. apply stamped_on_db, log_stamped.
Qed.

Lemma dry_run_stamped org i : respects (stamped org) (_handle_dry_run i org).
Proof.
  unfold _handle_dry_run. apply respects_bind; [apply _|apply respects_lift; apply _|]. intros [[a req] entry].
  apply respects_bind; [apply _|apply create_mapping_stamped|]. intros _.
  apply respects_bind; [apply _|apply warn_stamped|]. intros _. apply stamped_on_db, log_stamped.
Qed.

Lemma live_send_stamped org targets outbox i : respects (stamped org) (_handle_live_send targets outbox i org).
Proof.
  unfold _handle_live_send. apply respects_bind; [apply _| |].
  { destruct (intent_account i); [apply enqueue_mt5_stamped|apply respects_ret; apply _]. }
  intros [|]; [apply respects_ret; apply _|].
  apply respects_bind; [apply _|apply respects_lift; apply _|]. intros [[a req] entry].
  apply respects_bind; [apply _|apply create_mapping_stamped|]. intros _.
  apply respects_bind; [apply _|apply warn_stamped|]. intros _.
  intros e. apply (stamped_rows_refl org).
Qed.

Lemma dispatch_stamped org targets outbox o i :
  respects (stamped org) (try_except (handle_intent targets outbox o org i) (intent_failed i org)).
Proof.
  apply dispatch_respects; try apply _.
  - intros. apply stamped_on_db, log_stamped.
  - intros. apply stamped_on_db, status_stamped.
  - intros. apply stamped_on_db, link_stamped.
  - intros i' -> Hi. destruct i; try done; simpl;
      (case_match; [apply stamped_on_db, log_stamped|]); (case_match; [apply dry_run_stamped|apply live_send_stamped]).
Qed.

Lemma dispatch_intent_total targets outbox o org i :
  total (try_except (handle_intent targets outbox o org i) (intent_failed i org)).
Proof. apply total_try. intros. apply intent_failed_total. Qed.

(** One intent's failure never blocks the others.  For an org that
    exists, a dispatch never raises, and dispatching two batches in a row is
    dispatching their concatenation: whatever an intent raised (a build error,
    a duplicate id, a missing mapping), the intents after it are processed
    exactly as if it were the last of its own batch. *)
Theorem dispatch_isolates_failures targets outbox l1 l2 org o e :
  org_row org (e_db e) = Some o ->
  (exists u, value (dispatch targets outbox (l1 ++ l2) org) e = Ok u) /\
  exec (dispatch targets outbox (l1 ++ l2) org) e =
    exec (dispatch targets outbox l2 org) (exec (dispatch targets outbox l1 org) e).
Proof.
  intros Ho. unfold value, exec. rewrite !(dispatch_run _ _ _ _ _ _ Ho).
  set (f := fun i => try_except (handle_intent targets outbox o org i) (intent_failed i org)).
  assert (forall i, total (f i)) as Hf by (intros; apply dispatch_intent_total).
  split; [apply (total_for_each f (l1 ++ l2) Hf e)|].
  assert (db_orgs (e_db (exec (for_each f l1) e)) = db_orgs (e_db e)) as Horgs.
  { assert (respects (stamped org) (for_each f l1)) as Hs.
    { apply respects_for_each; try apply _. intros. apply dispatch_stamped. }
    apply (Hs e). }
  rewrite (dispatch_run _ _ _ _ (snd (for_each f l1 e)) o); [by apply exec_for_each_app|].
  unfold org_row in *. unfold exec in Horgs. by rewrite Horgs.
Qed.

(** A dispatch writes for its own org only.  Every event, terminal
    command and mapping row a dispatch for [org] adds is stamped with [org],
    rows that were there keep their org, nothing is removed, and no org's
    switches change. *)
Theorem dispatch_stamps_org targets outbox intents org e :
  stamped org e (exec (dispatch targets outbox intents org) e).
Proof.
  destruct (org_row org (e_db e)) as [o|] eqn:Ho.
  - unfold exec. rewrite (dispatch_run _ _ _ _ _ _ Ho). revert e Ho. intros e _. revert e.
    apply respects_for_each; try apply _. intros. apply dispatch_stamped.
  - destruct (get_org_none org _ Ho) as (x & Hx). unfold exec, dispatch, bind, on_db. rewrite Hx.
    apply (stamped_rows_refl org).
Qed.

(** ** The mapping row comes before the send *)

(** A pending send carries its account, and a new order's client order id has
    a mapping row of that account to match the fill to. *)
Definition send_ok (s : db) (t : send_task) : Prop :=
  match st_req t with
  | NewOrderReq r => st_account t = no_ctidTraderAccountId r /\ coid_taken (no_clientOrderId r) s = true
  | ClosePositionReq a _ _ | AmendPositionSLTPReq a _ _ _ | CancelOrderReq a _ => st_account t = a
  | AmendOrderReq r => st_account t = am_ctidTraderAccountId r
  end.
Definition sends_ok (e : engine) : Prop := Forall (send_ok (e_db e)) (e_sends e).

(** Client order ids are never released. *)
Definition coids_grow (s s' : db) : Prop := forall c, coid_taken c s = true -> coid_taken c s' = true.

Definition keeps_sends (e e' : engine) : Prop :=
  coids_grow (e_db e) (e_db e') /\ (sends_ok e -> sends_ok e').
#[export] Instance keeps_sends_refl : Reflexive keeps_sends.
Proof. intros e. split; [by intros c|done]. Qed.
#[export] Instance keeps_sends_trans : Transitive keeps_sends.
Proof. intros a b c [] []. split; [by unfold coids_grow in *; auto|auto]. Qed.

Lemma send_ok_grow s s' t : coids_grow s s' -> send_ok s t -> send_ok s' t.
Proof. intros Hg. unfold send_ok. destruct (st_req t); try done. intros [? ?]. split; [done|auto]. Qed.

Lemma keeps_sends_db {A} (m : M db A) :
  (forall s, coids_grow s (exec m s)) -> respects keeps_sends (on_db m).
Proof.
  intros Hm. apply respects_on_db. intros e. split; simpl; [apply Hm|].
  unfold sends_ok; simpl. intros H. eapply Forall_impl; [exact H|]. intros t. apply send_ok_grow, Hm.
Qed.

Lemma coids_same s s' : db_mappings s' = db_mappings s -> coids_grow s s'.
Proof. intros H c. unfold coid_taken. by rewrite H. Qed.

Lemma coids_update cond upd s :
  (forall r, m_client_order_id (upd r) = m_client_order_id r) ->
  coids_grow s (exec (update_mappings cond upd) s).
Proof.
  intros H c. unfold coid_taken, exec, update_mappings; simpl. rewrite !existsb_exists.
  intros (r & Hr & Hc). exists (if cond r then upd r else r). split.
  - apply list_elem_of_In, list_elem_of_fmap. exists r. by rewrite list_elem_of_In.
  - destruct (cond r); [by rewrite H|done].
Qed.

Lemma coids_insert mk s : coids_grow s (exec (insert_mapping mk) s).
Proof. intros c. unfold coid_taken, exec, insert_mapping, modify; simpl. rewrite existsb_app. intros ->. done. Qed.

Lemma insert_taken mk s c :
  m_client_order_id (mk s) = Some c -> coid_taken c (exec (insert_mapping mk) s) = true.
Proof.
  intros H. unfold coid_taken, exec, insert_mapping, modify; simpl. rewrite existsb_app. simpl.
  unfold col_eqb. rewrite H, bool_decide_eq_true_2 by done. by rewrite orb_true_r.
Qed.

Lemma link_keeps_sends mo a mp : respects keeps_sends (on_db (link_pending_fill mo a mp)).
Proof. apply keeps_sends_db. intros s. rewrite link_rows. by apply coids_update. Qed.

Lemma create_position_coids mp a c o y s :
  coids_grow s (exec (create_position_mapping mp a c o y) s) /\
  (forall u, value (create_position_mapping mp a c o y) s = Ok u ->
             coid_taken c (exec (create_position_mapping mp a c o y) s) = true).
Proof.
  unfold create_position_mapping, exec, value, bind, gets. destruct (coid_taken c s) eqn:E.
  - split; [by apply coids_same|done].
  - split; [apply coids_insert|]. intros _ _. by apply insert_taken.
Qed.

Lemma create_order_coids mo a c o y s :
  coids_grow s (exec (create_order_mapping mo a c o y) s) /\
  (forall u, value (create_order_mapping mo a c o y) s = Ok u ->
             coid_taken c (exec (create_order_mapping mo a c o y) s) = true).
Proof.
  unfold create_order_mapping, exec, value, bind, gets. destruct (coid_taken c s) eqn:E.
  - split; [by apply coids_same|done].
  - split; [apply coids_insert|]. intros _ _. by apply insert_taken.
Qed.

(** Creating the mapping of an intent leaves its client order id taken. *)
Lemma create_mapping_sends i a o : respects keeps_sends (_create_mapping i a o).
Proof.
  destruct i; simpl; try (apply respects_ret; apply _); apply keeps_sends_db; intros s.
  - apply create_position_coids.
  - apply create_order_coids.
Qed.

Lemma create_mapping_taken i a o e u e' c :
  _create_mapping i a o e = (Ok u, e') -> client_order_id_for i = Some c -> coid_taken c (e_db e') = true.
Proof.
  destruct i; simpl; intros H Hc; simplify_eq/=; unfold on_db in H.
  - destruct (create_position_coids (om_master_position_id i) a
      ("cm" +:+ pretty (om_master_position_id i) +:+ "." +:+ pretty (om_slave_account_id i)) o
      (or_none (om_symbol_name i)) (e_db e)) as [_ Ht].
    unfold value, exec in Ht. destruct (create_position_mapping _ _ _ _ _ _) as [r d].
    simplify_eq/=. by eapply Ht.
  - destruct (create_order_coids (pp_master_order_id i) a
      ("co" +:+ pretty (pp_master_order_id i) +:+ "." +:+ pretty (pp_slave_account_id i)) o
      (or_none (pp_symbol_name i)) (e_db e)) as [_ Ht].
    unfold value, exec in Ht. destruct (create_order_mapping _ _ _ _ _ _) as [r d].
    simplify_eq/=. by eapply Ht.
Qed.

(** What [build_request] answers: the request is for the account it is sent
    to, and a new order carries the intent's client order id. *)
Lemma build_request_send_ok i a req entry s :
  build_request i = Ok (a, req, entry) ->
  (forall c, client_order_id_for i = Some c -> coid_taken c s = true) ->
  send_ok s {| st_account := a; st_req := req; st_attempt := 0; st_delay_ms := 0 |}.
Proof.
  intros Hb Hc. unfold send_ok. destruct i; cbn [build_request] in Hb; simpl.
  - destruct (relative_protection _ _ _ _) as [[sl tp]|]; simplify_eq/=. split; [done|]. by apply Hc.
  - by simplify_eq/=.
  - by simplify_eq/=.
  - simplify_eq/=. split; [done|]. by apply Hc.
  - destruct (require_int (ao_order_id i)); by simplify_eq/=.
  - destruct (require_int (co_order_id i)); by simplify_eq/=.
  - done.
  - done.
Qed.

Lemma log_keeps_sends cat sev p a o : respects keeps_sends (e_log cat sev p a o).
Proof. apply keeps_sends_db. intros s. by apply coids_same. Qed.

Lemma warn_keeps_sends entry a o : respects keeps_sends (_warn_dropped_protection entry a o).
Proof. destruct entry as [[]|]; simpl; [apply log_keeps_sends|apply respects_ret; apply _]. Qed.

Lemma enqueue_intent_mappings mm i a o sym s :
  db_mappings (exec (enqueue_intent mm i a o sym) s) = db_mappings s.
Proof.
  assert (forall s, db_mappings (exec (enqueue_plain i a o sym) s) = db_mappings s) as Hplain.
  { intros s'. unfold enqueue_plain, exec, bind, lift_result. by destruct (command_for_intent i sym). }
  unfold enqueue_intent. destruct i; try apply Hplain. destruct (cp_master_position_id i); [|apply Hplain].
  destruct (_is_netting mm a); [|apply Hplain].
  unfold exec, bind, _enqueue_netting_close, mapping_side, mt5_open_payload, gets, bind, ret. simpl.
  destruct (json_side _); [destruct (payload_symbol _); [done|]|]; (etrans; [apply Hplain|done]).
Qed.

Lemma enqueue_mt5_sends targets outbox i a o : respects keeps_sends (_enqueue_for_mt5 targets outbox i a o).
Proof.
  unfold _enqueue_for_mt5. destruct targets as [tg|]; [|apply respects_ret; apply _].
  destruct outbox as [mm|]; [|apply respects_ret; apply _].
  destruct (tg a); [|apply respects_ret; apply _].
  destruct (broker_symbol_of _ _); (apply respects_bind; [apply _| |intros]);
    auto using create_mapping_sends, log_keeps_sends; [|apply respects_ret; apply _].
  apply respects_bind; [apply _| |intros].
  - apply keeps_sends_db. intros s'. by apply coids_same, enqueue_intent_mappings.
  - apply respects_bind; [apply _|apply log_keeps_sends|]. intros. apply respects_ret; apply _.
Qed.

Lemma live_send_sends targets outbox i o : respects keeps_sends (_handle_live_send targets outbox i o).
Proof.
  unfold _handle_live_send. apply respects_bind; [apply _| |].
  { destruct (intent_account i); [apply enqueue_mt5_sends|apply respects_ret; apply _]. }
  intros [|]; [apply respects_ret; apply _|].
  intros e. unfold exec, bind, lift_result.
  destruct (build_request i) as [[[a req] entry]|] eqn:Hb; [|apply keeps_sends_refl].
  pose proof (create_mapping_sends i a o e) as H1. unfold exec in H1.
  destruct (_create_mapping i a o e) as [[u|x] e1] eqn:E1; simpl in H1 |- *; [|done].
  pose proof (warn_keeps_sends entry a o e1) as H2. unfold exec in H2.
  destruct (_warn_dropped_protection entry a o e1) as [[u'|x] e2] eqn:E2; simpl in H2 |- *; [|by etrans].
  etrans; [exact H1|]. etrans; [exact H2|]. split; simpl; [by intros c|].
  unfold sends_ok; simpl. intros H. apply Forall_app. split; [done|]. constructor; [|done].
  eapply build_request_send_ok; [exact Hb|]. intros c Hc. apply (proj1 H2).
  by eapply create_mapping_taken.
Qed.

Lemma dry_run_sends i o : respects keeps_sends (_handle_dry_run i o).
Proof.
  unfold _handle_dry_run. apply respects_bind; [apply _|apply respects_lift; apply _|]. intros [[a req] entry].
  apply respects_bind; [apply _|apply create_mapping_sends|]. intros _.
  apply respects_bind; [apply _|apply warn_keeps_sends|]. intros _. apply log_keeps_sends.
Qed.

(** The mapping row exists before its order can fill.  After any
    dispatch, every send under way (those that were and the new ones) goes to
    the account its request names, and every new order among them has a
    mapping row with its client order id, so whatever fill comes back finds
    the copy it belongs to. *)
Theorem sends_have_mappings targets outbox intents org e :
  sends_ok e -> sends_ok (exec (dispatch targets outbox intents org) e).
Proof.
  enough (respects keeps_sends (dispatch targets outbox intents org)) as H by apply (H e).
  unfold dispatch. apply respects_bind; [apply _| |].
  { apply keeps_sends_db. intros s. apply coids_same. unfold exec, get_org, bind, gets. simpl. by case_match. }
  intros o. apply respects_for_each; try apply _. intros i _. apply dispatch_respects; try apply _.
  - intros. apply log_keeps_sends.
  - intros. apply keeps_sends_db. intros s. by apply coids_same.
  - intros. apply link_keeps_sends.
  - intros i' -> Hi. destruct i; try done; simpl;
      (case_match; [apply log_keeps_sends|]); (case_match; [apply dry_run_sends|apply live_send_sends]).
Qed.

(** *** Witnesses *)

Definition demo_org (copying dry : bool) : OrgRow :=
  {| org_id := 1; org_name := "desk"; org_copying_enabled := copying; org_dry_run := dry;
     org_settings_version := 1 |}.
Definition demo_engine (copying dry : bool) : engine :=
  {| e_db := set_db_accounts demo_accounts (set_db_orgs [demo_org copying dry] (empty_db 0));
     e_sends := [] |}.
Definition demo_intent (acct : Z) : SlaveIntent :=
  IOpenMarket {| om_slave_account_id := acct; om_master_position_id := 7; om_symbol_id := 1;
    om_side := BUY; om_volume := 100; om_stop_loss := None; om_take_profit := None;
    om_label := "copy:m7"; om_symbol_name := "EURUSD"; om_entry_price := None |}.
(** A cancel whose order id was never recorded cannot be built. *)
Definition demo_bad_intent : SlaveIntent :=
  ICancelPending {| co_slave_account_id := 12; co_order_id := None |}.
Definition demo_intents : list SlaveIntent := [demo_intent 11; demo_bad_intent; demo_intent 12].

Lemma gated_dispatch_sends_nothing_witness :
  suppressed (demo_engine false false) (exec (dispatch None None demo_intents 1) (demo_engine false false)) /\
  quiet (demo_engine true true) (exec (dispatch None None demo_intents 1) (demo_engine true true)) /\
  length (e_sends (exec (dispatch None None demo_intents 1) (demo_engine true false))) = 2%nat.
Proof.
  split; [|split; [|vm_compute; reflexivity]].
  - apply (gated_dispatch_sends_nothing None None demo_intents 1 (demo_org false false)); reflexivity.
  - apply (gated_dispatch_sends_nothing None None demo_intents 1 (demo_org true true)); reflexivity.
Defined.

(** The middle intent raises; the third is still sent. *)
Lemma dispatch_isolates_failures_witness :
  exec (dispatch None None demo_intents 1) (demo_engine true false) =
    exec (dispatch None None [demo_intent 12] 1)
      (exec (dispatch None None [demo_intent 11; demo_bad_intent] 1) (demo_engine true false)) /\
  (st_account <$> e_sends (exec (dispatch None None demo_intents 1) (demo_engine true false))) = [11; 12].
Proof.
  split; [|vm_compute; reflexivity].
  apply (dispatch_isolates_failures None None [demo_intent 11; demo_bad_intent] [demo_intent 12] 1
           (demo_org true false) (demo_engine true false)).
  reflexivity.
Defined.

Lemma sends_have_mappings_witness :
  sends_ok (exec (dispatch None None demo_intents 1) (demo_engine true false)).
Proof. apply (sends_have_mappings None None demo_intents 1). apply List.Forall_nil. Defined.

(** ** The retry ladder *)

Definition send_key (t : send_task) : Z * request := (st_account t, st_req t).

(** An attempt that ended: the request, what the client reported of it, and whether
    its bytes went out.  The dispatcher sees the report only. *)
Record attempt := { at_key : Z * request; at_report : send_outcome; at_gone : bool }.

Definition not_attempted (o : send_outcome) : bool := match o with SendNotAttempted _ => true | _ => false end.

(** One attempt of one task ends. *)
Inductive net_step : engine * list attempt -> engine * list attempt -> Prop :=
  | net_attempt d pre t post log outcome gone :
      net_step ({| e_db := d; e_sends := pre ++ t :: post |}, log)
               (exec (settle_send t outcome) {| e_db := d; e_sends := pre ++ post |},
                log ++ [{| at_key := send_key t; at_report := outcome; at_gone := gone |}]).

(** Of the attempts that ended: the requests that may be out for all the dispatcher
    was told; those that are out; and those that are out although the client
    reported that they never left *)
Definition told (log : list attempt) : list (Z * request) := at_key <$> List.filter (fun x => negb (not_attempted (at_report x))) log.
Definition wire (log : list attempt) : list (Z * request) := at_key <$> List.filter at_gone log.
Definition misreported (log : list attempt) : list (Z * request) :=
  at_key <$> List.filter (fun x => at_gone x && not_attempted (at_report x)) log.

(** Attempts a list of tasks may still make. *)
Definition attempts_left (ts : list send_task) : Z := Zsum ((fun t => 4 - st_attempt t) <$> ts).
Definition attempts_ok (ts : list send_task) : Prop := Forall (fun t => 0 <= st_attempt t <= 3) ts.

(** The tasks after an attempt: the task again, one attempt later, exactly when
    it is reported as not attempted and may be tried again. *)
Definition retried (t : send_task) (o : send_outcome) : list send_task :=
  match o with
  | SendNotAttempted _ =>
      if st_attempt t <? 3
      then [{| st_account := st_account t; st_req := st_req t; st_attempt := st_attempt t + 1;
               st_delay_ms := default 0 (RETRY_DELAYS_MS !! Z.to_nat (st_attempt t)) |}]
      else []
  | _ => []
  end.

Lemma settle_sends t o e : e_sends (exec (settle_send t o) e) = e_sends e ++ retried t o.
Proof.
  unfold settle_send, retried. destruct o as [|x|x]; simpl.
  - unfold _on_send_success, exec, bind, on_db, clear_degraded, gets, modify, ret. simpl.
    destruct (0 <? length _)%nat; simpl; by rewrite app_nil_r.
  - case_match; [done|]. unfold exec; simpl. by rewrite app_nil_r.
  - by rewrite app_nil_r.
Qed.

Lemma attempts_left_app l k : attempts_left (l ++ k) = attempts_left l + attempts_left k.
Proof. unfold attempts_left. by rewrite fmap_app, Zsum_app. Qed.

Lemma at_app f (l k : list attempt) : at_key <$> List.filter f (l ++ k) = (at_key <$> List.filter f l) ++ (at_key <$> List.filter f k).
Proof. by rewrite List.filter_app, fmap_app. Qed.

Lemma net_step_bounds e log e' log' :
  net_step (e, log) (e', log') -> attempts_ok (e_sends e) ->
  attempts_ok (e_sends e') /\ attempts_left (e_sends e') + 1 <= attempts_left (e_sends e) /\
  told log' ++ (send_key <$> e_sends e') ⊆+ told log ++ (send_key <$> e_sends e).
Proof.
  inversion 1 as [d pre t post l o gone]; subst. intros Hok. rewrite settle_sends. simpl in *.
  apply Forall_app in Hok as [Hpre [Ht Hpost]%Forall_cons].
  assert (attempts_ok (retried t o) /\ attempts_left (retried t o) + 1 <= attempts_left [t] /\
          (if not_attempted o then [] else [send_key t]) ++ (send_key <$> retried t o) ⊆+ [send_key t])
    as (Hr & Hl & Hs).
  { unfold retried, not_attempted, attempts_left, Zsum. destruct o as [|x|x]; simpl.
    - split; [constructor|]. split; [lia|done].
    - destruct (st_attempt t <? 3) eqn:E; bsimp; simpl.
      + split; [constructor; [simpl; lia|constructor]|]. split; [lia|done].
      + split; [constructor|]. split; [lia|]. apply submseteq_nil_l.
    - split; [constructor|]. split; [lia|done]. }
  split; [|split].
  - apply Forall_app. split; [|done]. by apply Forall_app.
  - change (pre ++ t :: post) with (pre ++ [t] ++ post). rewrite !attempts_left_app. lia.
  - unfold told. rewrite at_app. replace (at_key <$> List.filter _ [_]) with (if not_attempted o then [] else [send_key t])
      by (simpl; by destruct (not_attempted o)).
    rewrite <-app_assoc, !fmap_app, fmap_cons. apply submseteq_skips_l.
    rewrite (Permutation_app_comm ((send_key <$> pre) ++ (send_key <$> post))), app_assoc.
    transitivity ([send_key t] ++ ((send_key <$> pre) ++ (send_key <$> post))).
    + by apply submseteq_skips_r.
    + apply Permutation_submseteq. simpl. by rewrite <-Permutation_middle.
Qed.

(** What is out was told, or misreported. *)
Lemma wire_told log : wire log ⊆+ told log ++ misreported log.
Proof.
  unfold wire, told, misreported. induction log as [|x log IH]; [done|]. simpl.
  destruct (at_gone x), (not_attempted (at_report x)); simpl.
  - rewrite <- Permutation_middle. by apply submseteq_skip.
  - by apply submseteq_skip.
  - done.
  - by apply submseteq_cons.
Qed.

#[export] Instance ProtoOAOrderType_eq_dec : EqDecision ProtoOAOrderType.
Proof. solve_decision. Defined.
#[export] Instance ProtoOATradeSide_eq_dec : EqDecision ProtoOATradeSide.
Proof. solve_decision. Defined.
#[export] Instance new_order_eq_dec : EqDecision ProtoOANewOrderReq.
Proof. solve_decision. Defined.
#[export] Instance amend_order_eq_dec : EqDecision ProtoOAAmendOrderReq.
Proof. solve_decision. Defined.
#[export] Instance request_eq_dec : EqDecision request.
Proof. solve_decision. Defined.

(** Attempts of one request, and those it may still have *)
Definition attempts_of (k : Z * request) (log : list attempt) : Z := Zsum ((fun x => if decide (at_key x = k) then 1 else 0) <$> log).
Definition left_of (k : Z * request) (ts : list send_task) : Z :=
  Zsum ((fun t => if decide (send_key t = k) then 4 - st_attempt t else 0) <$> ts).

Lemma net_step_left k e log e' log' :
  net_step (e, log) (e', log') -> attempts_ok (e_sends e) ->
  attempts_of k log' + left_of k (e_sends e') <= attempts_of k log + left_of k (e_sends e).
Proof.
  inversion 1 as [d pre t post l o gone]; subst. intros Hok. rewrite settle_sends.
  simpl in *. apply Forall_app in Hok as [_ [Ht _]%Forall_cons].
  unfold attempts_of, left_of. change (pre ++ t :: post) with (pre ++ [t] ++ post). rewrite !fmap_app, !Zsum_app.
  assert (Zsum ((fun t => if decide (send_key t = k) then 4 - st_attempt t else 0) <$> retried t o) +
          (if decide (send_key t = k) then 1 else 0) <= if decide (send_key t = k) then 4 - st_attempt t else 0) as Hr.
  { unfold retried. destruct o as [|x|x]; unfold Zsum; simpl; [case_decide; lia| |case_decide; lia].
    destruct (st_attempt t <? 3) eqn:E; bsimp; simpl; [|case_decide; lia]. unfold send_key. simpl. case_decide; lia. }
  unfold Zsum in *. simpl in *. lia.
Qed.

(** [n] attempts. *)
Inductive net_steps : nat -> engine * list attempt -> engine * list attempt -> Prop :=
  | net_done x : net_steps 0 x x
  | net_more n x y z : net_step x y -> net_steps n y z -> net_steps (S n) x z.

(** C34: a send is tried at most four times, and tried again only when the client
    reported that the attempt before never left.  In any interleaving of attempts
    and of their outcomes, starting from [e]: the number of attempts, of all tasks
    and of each request, is bounded by what the tasks may still make (four for a
    fresh one), so retrying comes to an end; a request that was sent, or whose
    fate is unknown, is not sent again -- those reported so and those still under
    way are never more, request by request and account by account, than those that
    were handed over; and so what really went out is no more than what was handed
    over, but for one transmission for each attempt that the client misreported as
    never having left.  (It can: [raising_transport_is_retried].) *)
Theorem send_ladder n e e' log' k :
  attempts_ok (e_sends e) -> net_steps n (e, []) (e', log') ->
  Z.of_nat n + attempts_left (e_sends e') <= attempts_left (e_sends e) /\
  attempts_of k log' + left_of k (e_sends e') <= left_of k (e_sends e) /\
  attempts_ok (e_sends e') /\
  told log' ++ (send_key <$> e_sends e') ⊆+ send_key <$> e_sends e /\
  wire log' ++ (send_key <$> e_sends e') ⊆+ (send_key <$> e_sends e) ++ misreported log'.
Proof.
  intros Hok Hrun. enough (forall log, net_steps n (e, log) (e', log') ->
    Z.of_nat n + attempts_left (e_sends e') <= attempts_left (e_sends e) /\
    attempts_of k log' + left_of k (e_sends e') <= attempts_of k log + left_of k (e_sends e) /\
    attempts_ok (e_sends e') /\ told log' ++ (send_key <$> e_sends e') ⊆+ told log ++ (send_key <$> e_sends e)) as H.
  { destruct (H [] Hrun) as (Hn & Hk & Ho & Ht). split_and!; [done|done|done|done|].
    transitivity ((told log' ++ (send_key <$> e_sends e')) ++ misreported log'); [|by apply submseteq_skips_r].
    rewrite <- app_assoc, (Permutation_app_comm (send_key <$> e_sends e')), app_assoc. apply submseteq_skips_r, wire_told. }
  clear Hrun. intros log Hrun. remember (e, log) as x eqn:Ex. remember (e', log') as z eqn:Ez.
  revert e log Ex Hok. induction Hrun as [x|n x [e1 log1] z Hstep Hrun IH]; intros e log -> Hok; simplify_eq.
  - split_and!; [lia|lia|done|done].
  - destruct (net_step_bounds _ _ _ _ Hstep Hok) as (Hok1 & Hl1 & Hs1). pose proof (net_step_left k _ _ _ _ Hstep Hok) as Hk1.
    destruct (IH eq_refl e1 log1 eq_refl Hok1) as (Hl & Hk & Hok' & Hs).
    split_and!; [lia|lia|done|]. by etrans.
Qed.

Definition demo_task (attempt delay : Z) : send_task :=
  {| st_account := 11; st_req := ClosePositionReq 11 901 100; st_attempt := attempt;
     st_delay_ms := delay |}.
Definition demo_down : send_outcome := SendNotAttempted (RuntimeError "connection down").

(** Three attempts: the first fails before the wire, the second is written although
    the client reports that it is not, the third is sent.  Two transmissions, one
    of them misreported. *)
Definition demo_log : list attempt :=
  let tried o gone := {| at_key := send_key (demo_task 0 0); at_report := o; at_gone := gone |} in
  [tried demo_down false; tried demo_down true; tried SendOk true].
Lemma send_ladder_witness :
  let e := {| e_db := empty_db 0; e_sends := [demo_task 0 0] |} in
  let e' := {| e_db := empty_db 0; e_sends := [] |} in
  net_steps 3 (e, []) (e', demo_log) /\ length (wire demo_log) = 2%nat /\ length (misreported demo_log) = 1%nat /\
  wire demo_log ++ (send_key <$> e_sends e') ⊆+ (send_key <$> e_sends e) ++ misreported demo_log.
Proof.
  intros e e'. assert (net_steps 3 (e, []) (e', demo_log)) as Hrun.
  { refine (net_more 2 _ _ _ (net_attempt (empty_db 0) [] (demo_task 0 0) [] [] demo_down false) _).
    refine (net_more 1 _ _ _ (net_attempt (empty_db 0) [] (demo_task 1 1000) [] _ demo_down true) _).
    refine (net_more 0 _ _ _ (net_attempt (empty_db 0) [] (demo_task 2 2000) [] _ SendOk true) _).
    apply net_done. }
  split; [exact Hrun|]. split; [reflexivity|]. split; [reflexivity|].
  apply (send_ladder 3 e e' demo_log (send_key (demo_task 0 0))); [|exact Hrun].
  constructor; [simpl; lia|constructor].
Defined.

(** ** Protection on market orders *)

Lemma distance_pos entry target below d :
  distance entry target below = Ok (Some d) -> 1 <= d /\ exists x, target = Some x.
Proof.
  unfold distance. destruct target as [x|]; [|done].
  destruct (fleb _ _); [done|]. destruct (py_round _) as [u|]; simpl; [|done].
  destruct (1 <=? u) eqn:E; [|done]. intros [= <-]. bsimp. eauto.
Qed.

Lemma relative_protection_pos side entry sl tp rsl rtp :
  relative_protection side entry sl tp = Ok (rsl, rtp) ->
  (forall d, rsl = Some d -> 1 <= d /\ is_Some sl) /\ (forall d, rtp = Some d -> 1 <= d /\ is_Some tp).
Proof.
  unfold relative_protection. destruct entry as [p|]; [|by intros [= <- <-]].
  destruct (fleb p fzero); [by intros [= <- <-]|].
  destruct (distance p sl _) as [d1|] eqn:E1; simpl; [|done].
  destruct (distance p tp _) as [d2|] eqn:E2; simpl; [|done]. intros [= <- <-].
  split; intros d ->; [apply distance_pos in E1 as (? & ? & ->)|apply distance_pos in E2 as (? & ? & ->)]; eauto.
Qed.

(** No protection is lost in silence.  The market order built for a copy
    never carries an absolute stop or target (the broker refuses those); each
    level the master has is either sent as a distance of at least one wire
    unit or named in the warning the dispatcher logs; and no distance is sent
    for a level the master does not have. *)
Theorem market_protection_accounted i a req entry :
  build_request (IOpenMarket i) = Ok (a, req, entry) ->
  exists r, req = NewOrderReq r /\ no_orderType r = OT_MARKET /\ no_volume r = om_volume i /\
    no_stopLoss r = None /\ no_takeProfit r = None /\
    (forall d, no_relativeStopLoss r = Some d -> 1 <= d /\ is_Some (om_stop_loss i)) /\
    (forall d, no_relativeTakeProfit r = Some d -> 1 <= d /\ is_Some (om_take_profit i)) /\
    (is_Some (om_stop_loss i) -> no_relativeStopLoss r = None ->
       exists names, entry = Some (i, names) /\ "stop loss" ∈ names) /\
    (is_Some (om_take_profit i) -> no_relativeTakeProfit r = None ->
       exists names, entry = Some (i, names) /\ "take profit" ∈ names).
Proof.
  cbn [build_request].
  destruct (relative_protection _ _ _ _) as [[rsl rtp]|] eqn:E; simpl; [|done].
  apply relative_protection_pos in E as [Hsl Htp].
  intros [= <- <- <-]. eexists. split; [reflexivity|]. simpl.
  repeat (split; [done|]). unfold dropped_protection.
  split; intros [x Hx] Hn; rewrite Hx, Hn; simpl.
  - eexists. split; [reflexivity|]. set_solver.
  - destruct (om_stop_loss i), rsl; simpl; eexists; (split; [reflexivity|]); set_solver.
Qed.

(** Prices in ten-thousandths. *)
Definition px (n : Z) : float64 := default fzero (int_truediv n 10000).
Definition demo_protected : OpenMarket :=
  {| om_slave_account_id := 11; om_master_position_id := 7; om_symbol_id := 1;
     om_side := BUY; om_volume := 100; om_stop_loss := Some (px 10950); om_take_profit := Some (px 10900);
     om_label := "copy:m7"; om_symbol_name := "EURUSD"; om_entry_price := Some (px 11000) |}.

(** A stop 50 pips below goes out as 500 units; a target below the entry of a
    BUY cannot be expressed and is reported. *)
Lemma market_protection_accounted_witness :
  exists a req entry, build_request (IOpenMarket demo_protected) = Ok (a, req, entry) /\
    exists r, req = NewOrderReq r /\ no_relativeStopLoss r = Some 500 /\
      exists names, entry = Some (demo_protected, names) /\ "take profit" ∈ names.
Proof.
  destruct (build_request (IOpenMarket demo_protected)) as [[[a req] entry]|] eqn:E;
    [|vm_compute in E; discriminate].
  exists a, req, entry. split; [reflexivity|].
  destruct (market_protection_accounted demo_protected a req entry E)
    as (r & Hr & _ & _ & _ & _ & _ & _ & _ & Htp).
  exists r. split; [exact Hr|]. subst req.
  assert (no_relativeStopLoss r = Some 500 /\ no_relativeTakeProfit r = None) as [H1 H2].
  { vm_compute in E. injection E as <- <- <-. split; reflexivity. }
  split; [exact H1|]. apply Htp; [vm_compute; eexists; reflexivity|exact H2].
Defined.

(** ** A failed send un-pauses an account *)

Lemma status_row s x st j r :
  r ∈ db_accounts s -> acc_account_id r = x ->
  set_acc_last_error j (set_acc_status st r) ∈ db_accounts (exec (set_account_status x st j) s).
Proof.
  intros Hr <-. unfold set_account_status, exec, modify; simpl. apply list_elem_of_fmap.
  exists r. by rewrite Z.eqb_refl.
Qed.

(** A failed send resumes a paused account.  When a send that was under
    way as the operator paused the account ends in an ambiguous failure (or
    exhausts its retries), the account's status becomes degraded, and the
    routing built from then on treats the slave as enabled again; so does
    the next successful send, which clears it to ok. *)
Theorem failed_send_resumes_paused t x e row loader aliases :
  row ∈ db_accounts (e_db e) -> acc_account_id row = st_account t ->
  acc_status row = StPaused -> acc_enabled row = true ->
  enabled (slave_config loader aliases row) = false /\
  exists row', row' ∈ db_accounts (e_db (exec (settle_send t (SendAmbiguous x)) e)) /\
    acc_account_id row' = acc_account_id row /\ acc_status row' = StDegraded /\
    enabled (slave_config loader aliases row') = true.
Proof.
  intros Hin Hid Hst Hen. split; [simpl; by rewrite Hst, Hen|].
  exists (set_acc_last_error (JExn x) (set_acc_status StDegraded row)).
  split; [by apply status_row|]. simpl. split; [done|]. split; [done|]. by rewrite Hen.
Qed.

Lemma failed_send_resumes_paused_witness :
  exists row', row' ∈ db_accounts (e_db (exec (settle_send
      {| st_account := 12; st_req := ClosePositionReq 12 901 100; st_attempt := 0; st_delay_ms := 0 |}
      (SendAmbiguous (RuntimeError "timeout"))) (demo_engine true false))) /\
    acc_account_id row' = 12 /\ enabled (slave_config (fun _ => ∅) None row') = true.
Proof.
  destruct (failed_send_resumes_paused
      {| st_account := 12; st_req := ClosePositionReq 12 901 100; st_attempt := 0; st_delay_ms := 0 |}
      (RuntimeError "timeout") (demo_engine true false) (demo_account 12 1 RoleSlave StPaused)
      (fun _ => ∅) None) as (_ & row' & H1 & H2 & _ & H3).
  - do 2 apply list_elem_of_further. apply list_elem_of_here.
  - reflexivity.
  - reflexivity.
  - reflexivity.
  - exists row'. split; [exact H1|]. split; [exact H2|exact H3].
Defined.
