(* ===== verification/Service.v ===== *)
(** * The copier service: [copier/engine/service.py]

    The wiring of the replication flow: a master's execution event is
    normalised, decided and dispatched; a slave's event only updates
    mappings; both are scoped to the org that owns the account.  [service] is
    the engine plus what the service keeps: the master protection levels it
    remembers for copies not filled yet, the pending-fill checks it has
    scheduled, and the calls it made to the app's callbacks.  The routing
    snapshot of an event is an argument (reading it may fail), as are the
    master symbol caches.  The contents of the captured execution rows and the
    latency figures are left out. *)

From S2P Require Import Prelude PyStr PyDecimal PyFloat Models Sizing Decision Normalize Db Repo.
From S2P Require Import Routing Protocol Outbox Dispatch.
From Stdlib Require Import Ascii.

(** ** State *)

Record service := {
  sv_engine : engine;
  sv_master_protection : list (Z * (price * price));
  sv_checks : list (Z * MasterPendingFilled);           (* due 30 s after *)
  sv_notified : list (option Z);                        (* on_positions_changed calls *)
  sv_amends : list (Z * Z * price * price);             (* master_amend_sltp calls *)
  sv_captured : list (option Z * Z * bool * ProtoOAExecutionEvent)
}.

Definition MAX_REMEMBERED_PROTECTION : Z := 2000.

Definition on_engine {A} (m : M engine A) : M service A :=
  fun s => match m (sv_engine s) with
           | (r, e) => (r, {| sv_engine := e; sv_master_protection := sv_master_protection s;
                              sv_checks := sv_checks s; sv_notified := sv_notified s;
                              sv_amends := sv_amends s; sv_captured := sv_captured s |})
           end.
Definition on_repo {A} (m : M db A) : M service A := on_engine (on_db m).

Definition set_protection (p : list (Z * (price * price))) (s : service) : service :=
  {| sv_engine := sv_engine s; sv_master_protection := p; sv_checks := sv_checks s;
     sv_notified := sv_notified s; sv_amends := sv_amends s; sv_captured := sv_captured s |}.

(** ** Pure helpers *)

(** ["cm665938284.48434542" -> 665938284], [None] if it is not a copy's id *)
Definition master_position_of (client_order_id : option string) : option Z :=
  match client_order_id with
  | None | Some "" => None
  | Some coid =>
      if str_starts "cm" coid then py_int (str_before "."%char (str_drop 2 coid)) else None
  end.

Record SlaveFill := {
  sf_account_id : Z;
  sf_client_order_id : option string;
  sf_position_id : Z;
  sf_filled_volume : Z;
  sf_fill_price : price;
  sf_closed_volume : option Z;
  sf_label : string;
  sf_order_id : option Z;
  sf_stop_loss : price;
  sf_take_profit : price
}.

(** [1e-7] *)
Definition LEVEL_TOLERANCE : float64 := default fzero (int_truediv 1 10000000).

Definition _same_level (a b : price) : bool :=
  match a, b with
  | None, None => true
  | Some x, Some y => isclose_abs LEVEL_TOLERANCE x y
  | _, _ => false
  end.

(** The remembered levels after a normalised event. *)
Definition remember_level (position_id : Z) (levels : price * price)
    (mem : list (Z * (price * price))) : list (Z * (price * price)) :=
  match levels with
  | (None, None) => od_pop position_id mem
  | _ =>
      let mem := if negb (od_mem position_id mem) && (MAX_REMEMBERED_PROTECTION <=? Z.of_nat (length mem))
                 then match mem with (k, _) :: _ => od_pop k mem | [] => mem end
                 else mem in
      od_set position_id levels mem
  end.

Definition remember (normalized : MasterEvent) (mem : list (Z * (price * price)))
    : list (Z * (price * price)) :=
  match normalized with
  | EvPositionClosed e => od_pop (mpc_position_id e) mem
  | EvPositionOpened e => remember_level (mpo_position_id e) (mpo_stop_loss e, mpo_take_profit e) mem
  | EvPositionSLTPAmended e => remember_level (mpa_position_id e) (mpa_stop_loss e, mpa_take_profit e) mem
  | _ => mem
  end.

Definition _remember_master_protection (normalized : MasterEvent) : M service unit :=
  modify (fun s => set_protection (remember normalized (sv_master_protection s)) s).

Definition _notify_positions_changed (org_id : option Z) : M service unit :=
  modify (fun s => {| sv_engine := sv_engine s; sv_master_protection := sv_master_protection s;
    sv_checks := sv_checks s; sv_notified := sv_notified s ++ [org_id]; sv_amends := sv_amends s;
    sv_captured := sv_captured s |}).

Definition _submit_execution (org_id : option Z) (account_id : Z) (evt : ProtoOAExecutionEvent)
    (is_master : bool) : M service unit :=
  modify (fun s => {| sv_engine := sv_engine s; sv_master_protection := sv_master_protection s;
    sv_checks := sv_checks s; sv_notified := sv_notified s; sv_amends := sv_amends s;
    sv_captured := sv_captured s ++ [(org_id, account_id, is_master, evt)] |}).

Definition s_log (category : string) (sev : severity) (p : payload) (account org : option Z)
    : M service unit := on_repo (log_event category sev p account org).

Section CopierService.
Context (mt5_targets : option (Z -> option (gmap Z string)))
        (mt5_outbox : option (Z -> option margin_mode)).
(** [master_symbols_by_org], and whether [master_amend_sltp] is wired *)
Context (master_symbols_by_org : gmap Z (gmap Z SymbolInfo)) (amend_wired : bool).

Definition s_dispatch (intents : list SlaveIntent) (org_id : Z) : M service unit :=
  on_engine (dispatch mt5_targets mt5_outbox intents org_id).

(** ** Slave fills *)

Definition _protect_new_copy (account_id : Z) (client_order_id : option string)
    (slave_position_id org_id : Z) (current : price * price) : M service unit :=
  match master_position_of client_order_id with
  | None => ret tt
  | Some master_position_id =>
      let! mem := gets sv_master_protection in
      match od_get master_position_id mem with
      | None => ret tt
      | Some (stop_loss, take_profit) =>
          if _same_level stop_loss current.1 && _same_level take_profit current.2 then ret tt
          else try_except
                 (s_dispatch [IAmendPositionSLTP {| ap_slave_account_id := account_id;
                                ap_position_id := slave_position_id; ap_stop_loss := stop_loss;
                                ap_take_profit := take_profit |}] org_id)
                 (fun _ => ret tt)
      end
  end.

(** [except MappingNotFound: h] *)
Definition on_not_found (m h : M service unit) : M service unit :=
  try_except m (fun e => if is_mapping_not_found e then h else raise e).

Definition is_copy_id (prefix : string) (coid : option string) : option string :=
  match coid with
  | Some c => if negb (bool_decide (c = "")) && str_starts prefix c then Some c else None
  | None => None
  end.

Definition closed_payload (fill : SlaveFill) (closed : Z) (coid : option string) : payload :=
  [("action", JStr "position_closed"); ("slave_position_id", JInt (sf_position_id fill));
   ("closed_volume", JInt closed)] ++ opt_field "client_order_id" JStr coid.

Definition unmatched_fill (org_id : Z) (fill : SlaveFill) : M service unit :=
  if bool_decide (sf_label fill = MANUAL_ORDER_LABEL)
  then s_log "slave_action" Info
         [("action", JStr "manual_fill"); ("slave_order_id", JOptInt (sf_order_id fill));
          ("slave_position_id", JInt (sf_position_id fill));
          ("filled_volume", JInt (sf_filled_volume fill)); ("fill_price", JPrice (sf_fill_price fill))]
         (Some (sf_account_id fill)) (Some org_id)
  else s_log "slave_action" Warning
         [("action", JStr "unmatched_slave_fill"); ("slave_order_id", JOptInt (sf_order_id fill));
          ("slave_position_id", JInt (sf_position_id fill));
          ("client_order_id", JOptStr (sf_client_order_id fill));
          ("reason", JStr "No matching position or order mapping")]
         (Some (sf_account_id fill)) (Some org_id).

Definition handle_slave_fill (org_id : Z) (fill : SlaveFill) : M service unit :=
  let account_id := sf_account_id fill in
  match sf_closed_volume fill with
  | Some closed =>
      let coid := is_copy_id "cm" (sf_client_order_id fill) in
      on_repo (reduce_position_mapping account_id (sf_position_id fill) closed coid) ;;;
      s_log "slave_action" Info (closed_payload fill closed coid) (Some account_id) (Some org_id)
  | None =>
      match is_copy_id "cm" (sf_client_order_id fill) with
      | Some coid =>
          on_not_found
            (on_repo (activate_position_mapping account_id coid (sf_position_id fill)
                        (sf_filled_volume fill) (sf_fill_price fill)) ;;;
             s_log "slave_action" Info
               [("action", JStr "position_filled"); ("client_order_id", JStr coid);
                ("slave_position_id", JInt (sf_position_id fill));
                ("filled_volume", JInt (sf_filled_volume fill));
                ("fill_price", JPrice (sf_fill_price fill))] (Some account_id) (Some org_id) ;;;
             _protect_new_copy account_id (Some coid) (sf_position_id fill) org_id
               (sf_stop_loss fill, sf_take_profit fill))
            (s_log "slave_action" Warning
               [("action", JStr "unknown_fill"); ("client_order_id", JStr coid);
                ("reason", JStr "No matching position mapping")] (Some account_id) (Some org_id))
      | None =>
          on_not_found
            (on_repo (activate_pending_fill account_id (sf_order_id fill) (sf_position_id fill)
                        (sf_filled_volume fill) (sf_fill_price fill)) ;;;
             s_log "slave_action" Info
               [("action", JStr "pending_fill");
                ("client_order_id", JOptStr (sf_client_order_id fill));
                ("slave_order_id", JOptInt (sf_order_id fill));
                ("slave_position_id", JInt (sf_position_id fill));
                ("filled_volume", JInt (sf_filled_volume fill));
                ("fill_price", JPrice (sf_fill_price fill))] (Some account_id) (Some org_id))
            (unmatched_fill org_id fill)
      end
  end.

Definition handle_slave_order_accepted (org_id account_id : Z) (client_order_id : option string)
    (slave_order_id : option Z) : M service unit :=
  match is_copy_id "co" client_order_id with
  | None => ret tt
  | Some coid =>
      on_not_found
        (on_repo (activate_order_mapping account_id coid slave_order_id) ;;;
         s_log "slave_action" Info
           [("action", JStr "order_accepted"); ("client_order_id", JStr coid);
            ("slave_order_id", JOptInt slave_order_id)] (Some account_id) (Some org_id))
        (s_log "slave_action" Warning
           [("action", JStr "order_accepted_no_mapping"); ("client_order_id", JStr coid)]
           (Some account_id) (Some org_id))
  end.

Definition handle_slave_order_cancelled (org_id account_id slave_order_id : Z) : M service unit :=
  on_not_found
    (on_repo (close_order_mapping account_id (Some slave_order_id)) ;;;
     s_log "slave_action" Info
       [("action", JStr "order_cancelled"); ("slave_order_id", JInt slave_order_id)]
       (Some account_id) (Some org_id))
    (s_log "slave_action" Warning
       [("action", JStr "order_cancel_no_mapping"); ("slave_order_id", JInt slave_order_id);
        ("reason", JStr "Order mapping not found or already closed")]
       (Some account_id) (Some org_id)).

Definition handle_slave_rejection (org_id account_id : Z) (client_order_id : option string)
    (reason : string) (error_code : option string) : M service unit :=
  (match client_order_id with
   | None | Some "" => ret tt
   | Some coid => on_not_found (on_repo (fail_mapping account_id coid reason)) (ret tt)
   end) ;;;
  s_log "slave_action" Error
    [("action", JStr "order_rejected"); ("client_order_id", JOptStr client_order_id);
     ("error_code", JOptStr error_code); ("error", JStr reason)]
    (Some account_id) (Some org_id).

(** *** The cTrader slave's side *)

Definition _handle_slave_fill (org_id account_id : Z) (evt : ProtoOAExecutionEvent) : M service unit :=
  let deal := ev_deal evt in
  handle_slave_fill org_id
    {| sf_account_id := account_id; sf_client_order_id := o_clientOrderId (ev_order evt);
       sf_position_id := dl_positionId deal; sf_filled_volume := dl_filledVolume deal;
       sf_fill_price := dl_executionPrice deal; sf_closed_volume := dl_closedVolume deal;
       sf_label := td_label (o_tradeData (ev_order evt));
       sf_order_id := Some (o_orderId (ev_order evt));
       sf_stop_loss := None; sf_take_profit := None |}.

Definition _handle_slave_order_rejected (org_id account_id : Z) (evt : ProtoOAExecutionEvent)
    : M service unit :=
  let error_code := if bool_decide (ev_errorCode evt = "") then "UNKNOWN" else ev_errorCode evt in
  handle_slave_rejection org_id account_id (o_clientOrderId (ev_order evt))
    ("Order rejected: " +:+ error_code) (Some error_code).

Definition is_enabled_slave (routing : OrgRouting) (org_id account_id : Z) : bool :=
  existsb (fun s => (account_id =? Models.account_id s) && enabled s) (org_slaves routing org_id).

Definition _handle_slave_event (org_id account_id : Z) (evt : ProtoOAExecutionEvent)
    (routing : OrgRouting) : M service unit :=
  if negb (is_enabled_slave routing org_id account_id)
  then s_log "drift" Info
         [("action", JStr "event_from_unknown_or_disabled_slave"); ("account_id", JInt account_id);
          ("execution_type", JStr (execution_type_name (ev_executionType evt)))]
         (Some account_id) (Some org_id)
  else
    _submit_execution (Some org_id) account_id evt false ;;;
    match ev_executionType evt with
    | ORDER_FILLED | ORDER_PARTIAL_FILL =>
        _handle_slave_fill org_id account_id evt ;;; _notify_positions_changed (Some org_id)
    | ORDER_ACCEPTED =>
        handle_slave_order_accepted org_id account_id (o_clientOrderId (ev_order evt))
          (Some (o_orderId (ev_order evt))) ;;;
        _notify_positions_changed (Some org_id)
    | ORDER_CANCELLED =>
        handle_slave_order_cancelled org_id account_id (o_orderId (ev_order evt)) ;;;
        _notify_positions_changed (Some org_id)
    | ORDER_REJECTED =>
        _handle_slave_order_rejected org_id account_id evt ;;; _notify_positions_changed (Some org_id)
    | t => s_log "slave_action" Info
             [("action", JStr "unclassified_slave_event");
              ("execution_type", JStr (execution_type_name t))]
             (Some account_id) (Some org_id)
    end.

(** ** Master events *)

Definition _audit_master_event (org_id master_account_id : Z) (p : payload) : M service unit :=
  try_except (s_log "master_event" Info p (Some master_account_id) (Some org_id)) (fun _ => ret tt).

Definition _decide_dispatch_audit (org_id master_account_id : Z) (normalized : MasterEvent)
    (routing : OrgRouting) (p : payload) : M service unit :=
  _remember_master_protection normalized ;;;
  try_finally
    (let! d := on_repo (gets (fun d => d)) in
     let! intents := lift_result (Replication.decide normalized d (org_slaves routing org_id)) in
     match intents with
     | [] => ret tt
     | _ => s_dispatch intents org_id
     end)
    (_audit_master_event org_id master_account_id p).

Definition _schedule_pending_fill_check (org_id : Z) (pf : MasterPendingFilled) : M service unit :=
  modify (fun s => {| sv_engine := sv_engine s; sv_master_protection := sv_master_protection s;
    sv_checks := sv_checks s ++ [(org_id, pf)]; sv_notified := sv_notified s;
    sv_amends := sv_amends s; sv_captured := sv_captured s |}).

(** The scheduled check, with the routing of the moment it runs. *)
Definition check_pending_fills (routing : OrgRouting) (org_id : Z) (pf : MasterPendingFilled)
    : M service unit :=
  let! entries := on_repo (gets (fun d => order_entries d (mpf_order_id pf))) in
  for_each (fun entry =>
    if negb (bool_decide (org_by_account routing !! ome_slave_account_id entry = Some org_id))
    then ret tt
    else let! pes := on_repo (gets (fun d => position_entries d (mpf_position_id pf))) in
         if existsb (fun pe => pme_slave_account_id pe =? ome_slave_account_id entry) pes then ret tt
         else s_log "slave_action" Warning
                [("action", JStr "pending_fill_alert");
                 ("master_position_id", JInt (mpf_position_id pf));
                 ("slave_account_id", JInt (ome_slave_account_id entry));
                 ("message", JStr ("Slave " +:+ pretty (ome_slave_account_id entry) +:+
                                   " order filled but position not yet linked"))]
                (Some (ome_slave_account_id entry)) (Some org_id)) entries.

(** [entry - side_sign * points] and [entry + side_sign * points] *)
Definition offset_price (entry points : float64) (plus : bool) (side : Side) : float64 :=
  let signed := fmul (f_of_Z (match side with BUY => 1 | SELL => -1 end)) points in
  if plus then fadd entry signed else fsub entry signed.

Definition fill_in_levels (e : MasterPositionOpened) (rule : RiskRule) (entry : float64) : price * price :=
  (match mpo_stop_loss e, rr_stop_points rule with
   | None, Some pts => Some (offset_price entry pts false (mpo_side e))
   | sl, _ => sl
   end,
   match mpo_take_profit e, rr_target_points rule with
   | None, Some pts => Some (offset_price entry pts true (mpo_side e))
   | tp, _ => tp
   end).

Definition master_amend_sltp (account position : Z) (sl tp : price) : M service unit :=
  if amend_wired
  then modify (fun s => {| sv_engine := sv_engine s; sv_master_protection := sv_master_protection s;
         sv_checks := sv_checks s; sv_notified := sv_notified s;
         sv_amends := sv_amends s ++ [(account, position, sl, tp)]; sv_captured := sv_captured s |})
  else ret tt.

Definition _apply_risk_engine (org_id master_account_id : Z) (normalized : MasterEvent) : M service unit :=
  match normalized with
  | EvPositionClosed e =>
      if mpc_remaining_volume e =? 0
      then on_repo (delete_trailing_state master_account_id (mpc_position_id e))
      else ret tt
  | EvPositionOpened e =>
      let! rule := on_repo (load_risk_rule org_id (mpo_symbol_name e)) in
      match rule, mpo_entry_price e with
      | Some rule, Some entry =>
          let levels := fill_in_levels e rule entry in
          (if levels_eqb levels (mpo_stop_loss e, mpo_take_profit e) then ret tt
           else master_amend_sltp master_account_id (mpo_position_id e) levels.1 levels.2) ;;;
          match rr_trailing_enabled rule, levels.1 with
          | true, Some stop =>
              on_repo (upsert_trailing_state master_account_id (mpo_position_id e) entry stop)
          | _, _ => ret tt
          end
      | _, _ => ret tt
      end
  | _ => ret tt
  end.

Definition _after_master_event (org_id master_account_id : Z) (normalized : MasterEvent) : M service unit :=
  (match normalized with
   | EvPendingFilled pf => _schedule_pending_fill_check org_id pf
   | _ => ret tt
   end) ;;;
  _apply_risk_engine org_id master_account_id normalized ;;;
  _notify_positions_changed (Some org_id).

Definition act_on_master_event (org_id master_account_id : Z) (normalized : MasterEvent)
    (source : string) (routing : result OrgRouting) : M service unit :=
  let! routing := lift_result routing in
  _decide_dispatch_audit org_id master_account_id normalized routing
    [("source", JStr source); ("normalized", JStr (event_type_name normalized))] ;;;
  _after_master_event org_id master_account_id normalized.

(** [executionTimestamp or None] *)
Definition nonzero (z : Z) : option Z := if z =? 0 then None else Some z.

Definition _handle_master_event (org_id master_account_id : Z) (evt : ProtoOAExecutionEvent)
    (routing : OrgRouting) : M service unit :=
  let! normalized := lift_result (normalize evt (default ∅ (master_symbols_by_org !! org_id))) in
  let name := execution_type_name (ev_executionType evt) in
  match normalized with
  | None =>
      _audit_master_event org_id master_account_id
        [("execution_type", JStr name); ("normalized", JNull);
         ("order_type", JStr (order_type_name (o_orderType (ev_order evt))));
         ("symbol_id", JInt (td_symbolId (o_tradeData (ev_order evt))))] ;;;
      _submit_execution (Some org_id) master_account_id evt true
  | Some normalized =>
      _decide_dispatch_audit org_id master_account_id normalized routing
        [("execution_type", JStr name); ("normalized", JStr (event_type_name normalized))] ;;;
      _submit_execution (Some org_id) master_account_id evt true ;;;
      (match dl_executionPrice (ev_deal evt), nonzero (dl_positionId (ev_deal evt)) with
       | Some p, Some pos =>
           on_repo (record_master_fill org_id pos (Some p) (nonzero (dl_executionTimestamp (ev_deal evt))))
       | _, _ => ret tt
       end) ;;;
      _after_master_event org_id master_account_id normalized
  end.

(** ** The entry point *)

Definition handle_execution (account_id : Z) (evt : ProtoOAExecutionEvent) (routing : result OrgRouting)
    : M service unit :=
  match routing with
  | Raise e => s_log "connection" Error
                 [("action", JStr "event_processing_failed"); ("account_id", JInt account_id);
                  ("error", JExn e); ("error_type", JStr (exn_name e))] None None
  | Ok routing =>
      match org_by_account routing !! account_id with
      | None => s_log "drift" Info
                  [("action", JStr "event_from_unknown_account"); ("account_id", JInt account_id);
                   ("execution_type", JStr (execution_type_name (ev_executionType evt)))]
                  (Some account_id) None
      | Some org_id =>
          try_except
            (if bool_decide (master_by_org routing !! org_id = Some account_id)
             then _handle_master_event org_id account_id evt routing
             else _handle_slave_event org_id account_id evt routing)
            (fun e => s_log "connection" Error
               [("action", JStr "event_processing_failed"); ("account_id", JInt account_id);
                ("error", JExn e); ("error_type", JStr (exn_name e))] None (Some org_id))
      end
  end.
End CopierService.
