(* ===== verification/ServiceFacts.v ===== *)
(** * Facts about the copier service

    The event pump never dies, what an event may touch stays inside the org of
    its account, a slave's event never causes a copy, and a new copy gets the
    protection its master has. *)

From S2P Require Import Prelude PyStr PyDecimal PyFloat Models Sizing Decision Normalize Db Repo.
From S2P Require Import RepoFacts Routing Protocol Outbox OutboxFacts Dispatch DispatchFacts.
From S2P Require Import Service.
From Stdlib Require Import Ascii.

(** ** What an event may touch *)

(** Writes confined to the accounts [P] and the org [org]: new sends and
    commands go to such accounts, and the mapping rows and account rows of
    other accounts (and, for mappings, of other orgs) stay as they were. *)
Section confined.
Context (P : Z -> bool) (org : Z).

Definition foreign_mapping (r : mapping_row) : bool :=
  negb (P (m_slave_account_id r)) && negb (m_org_id r =? org).
Definition foreign_account (a : AccountRow) : bool := negb (P (acc_account_id a)).

Record confined_db (s s' : db) : Prop := {
  cf_cmds : exists new, db_commands s' = db_commands s ++ new /\
              Forall (fun c => P (c_account_id c) = true /\ db_next_command_id s <= c_id c) new;
  cf_next : db_next_command_id s <= db_next_command_id s';
  cf_ids : ids_inv s -> ids_inv s';
  cf_cmd_ids : cmd_ids_inv s -> cmd_ids_inv s';
  cf_mappings : List.filter foreign_mapping (db_mappings s') = List.filter foreign_mapping (db_mappings s);
  cf_accounts : List.filter foreign_account (db_accounts s') = List.filter foreign_account (db_accounts s);
  cf_orgs : db_orgs s' = db_orgs s;
  cf_dismissals : db_dismissals s' = db_dismissals s;
  cf_watermarks : db_watermarks s' = db_watermarks s;
  cf_net_ledger : db_net_ledger s' = db_net_ledger s
}.

(** Writes that leave the command table alone. *)
Lemma confined_same s s' :
  db_commands s' = db_commands s -> db_next_command_id s' = db_next_command_id s ->
  List.filter foreign_mapping (db_mappings s') = List.filter foreign_mapping (db_mappings s) ->
  m_id <$> db_mappings s' = m_id <$> db_mappings s -> db_next_mapping_id s <= db_next_mapping_id s' ->
  List.filter foreign_account (db_accounts s') = List.filter foreign_account (db_accounts s) ->
  db_orgs s' = db_orgs s -> db_dismissals s' = db_dismissals s -> db_watermarks s' = db_watermarks s ->
  db_net_ledger s' = db_net_ledger s -> confined_db s s'.
Proof.
  intros Hc Hn Hf Hi Hm. split; try done; [rewrite Hc; apply extends_refl|lia| |].
  2: { unfold cmd_ids_inv. by rewrite Hc, Hn. }
  intros [Hnd Hb]. split; [by rewrite Hi|]. rewrite Hi. eapply Forall_impl; [exact Hb|]. simpl. lia.
Qed.

#[export] Instance confined_db_refl : Reflexive confined_db.
Proof. intros s. by apply confined_same. Qed.
#[export] Instance confined_db_trans : Transitive confined_db.
Proof.
  intros a b c [(n1 & E1 & F1) N1 I1 J1 M1 A1 O1 D1 W1 L1] [(n2 & E2 & F2) N2 I2 J2 M2 A2 O2 D2 W2 L2].
  split; [|lia|auto..|congruence|congruence|congruence|congruence|congruence|congruence]. exists (n1 ++ n2). split; [by rewrite E2, E1, app_assoc|].
  apply Forall_app. split; [done|]. eapply Forall_impl; [exact F2|]. intros x [? ?]. split; [done|lia].
Qed.

Definition confined_engine (e e' : engine) : Prop :=
  confined_db (e_db e) (e_db e') /\
  exists new, e_sends e' = e_sends e ++ new /\ Forall (fun t => P (st_account t) = true) new.
#[export] Instance confined_engine_refl : Reflexive confined_engine.
Proof. intros e. split; [reflexivity|apply extends_refl]. Qed.
#[export] Instance confined_engine_trans : Transitive confined_engine.
Proof. intros a b c [D1 S1] [D2 S2]. split; [by etrans|by eapply extends_trans]. Qed.

Definition confined (s s' : service) : Prop := confined_engine (sv_engine s) (sv_engine s').
#[export] Instance confined_refl : Reflexive confined.
Proof. intros s. by apply confined_engine_refl. Qed.
#[export] Instance confined_trans : Transitive confined.
Proof. intros a b c. apply confined_engine_trans. Qed.

Lemma confined_on_db {A} (m : M db A) : respects confined_db m -> respects confined_engine (on_db m).
Proof. intros H. apply respects_on_db. intros e. split; [apply H|apply extends_refl]. Qed.

Lemma confined_on_engine {A} (m : M engine A) : respects confined_engine m -> respects confined (on_engine m).
Proof.
  intros H s. specialize (H (sv_engine s)). unfold exec, on_engine in *.
  by destruct (m (sv_engine s)).
Qed.

Lemma confined_on_repo {A} (m : M db A) : respects confined_db m -> respects confined (on_repo m).
Proof. intros H. by apply confined_on_engine, confined_on_db. Qed.

Lemma confined_modify (f : service -> service) :
  (forall s, sv_engine (f s) = sv_engine s) -> respects confined (modify f).
Proof. intros H s. unfold confined, exec, modify; simpl. rewrite H. apply confined_engine_refl. Qed.

(** *** The repository's writes *)

Lemma log_confined cat sev p a o : respects confined_db (log_event cat sev p a o).
Proof. intros s. by apply confined_same. Qed.

Lemma status_confined a st j : P a = true -> respects confined_db (set_account_status a st j).
Proof.
  intros HP s. apply confined_same; try done. simpl.
  induction (db_accounts s) as [|r l IH]; csimpl; [done|]. rewrite IH.
  destruct (acc_account_id r =? a) eqn:E; [|done]. bsimp.
  unfold foreign_account; simpl. by rewrite E, HP.
Qed.

Lemma update_confined cond upd :
  (forall r, cond r = true -> P (m_slave_account_id r) = true \/ m_org_id r = org) ->
  (forall r, m_slave_account_id (upd r) = m_slave_account_id r /\ m_org_id (upd r) = m_org_id r /\ m_id (upd r) = m_id r) ->
  respects confined_db (update_mappings cond upd).
Proof.
  intros Hc Hu s. apply confined_same; simpl; try done; [|apply fmap_fmap_id; intros r _; case_match; [apply Hu|done]].
  induction (db_mappings s) as [|r l IH]; csimpl; [done|]. rewrite IH.
  destruct (cond r) eqn:E; [|done].
  assert (foreign_mapping (upd r) = foreign_mapping r) as -> by
    (unfold foreign_mapping; by rewrite (proj1 (Hu r)), (proj1 (proj2 (Hu r)))).
  assert (foreign_mapping r = false) as ->; [|done].
  unfold foreign_mapping. destruct (Hc r E) as [->| ->]; [done|]. by rewrite Z.eqb_refl, andb_false_r.
Qed.

Lemma insert_confined mk :
  (forall s, P (m_slave_account_id (mk s)) = true /\ m_id (mk s) = db_next_mapping_id s) ->
  respects confined_db (insert_mapping mk).
Proof.
  intros H s. split; simpl; [apply extends_refl|lia| |done| |done..].
  - intros [Hnd Hb]. split; simpl.
    + rewrite fmap_app. apply NoDup_app. split; [done|]. split; [|apply NoDup_singleton].
      intros i (r & -> & Hin)%list_elem_of_fmap Heq. csimpl in Heq. apply list_elem_of_singleton in Heq.
      rewrite (proj2 (H s)) in Heq. rewrite Forall_forall in Hb.
      specialize (Hb _ (list_elem_of_fmap_2 m_id _ _ Hin)). lia.
    + rewrite fmap_app. apply Forall_app. split; [|constructor; [rewrite (proj2 (H s)); lia|done]].
      eapply Forall_impl; [exact Hb|]. simpl. lia.
  - rewrite List.filter_app. simpl. unfold foreign_mapping at 2. by rewrite (proj1 (H s)), app_nil_r.
Qed.

Lemma seq_confined : respects confined_db
  (modify (fun s => set_db_next_mapping_id (db_next_mapping_id s + 1) s)).
Proof. intros s. apply confined_same; simpl; try done; lia. Qed.

Lemma trailing_confined (f : gmap (Z * Z) TrailingState -> Z -> gmap (Z * Z) TrailingState) :
  respects confined_db (modify (fun s => set_db_trailing (f (db_trailing s) (db_now s)) s)).
Proof. intros s. by apply confined_same. Qed.

Lemma enqueue_confined a o k p c : P a = true -> respects confined_db (enqueue_mt5_command a o k p c).
Proof.
  intros HP s. split; simpl; [|lia|done| |done..].
  - eexists. split; [reflexivity|]. repeat constructor; [done|simpl; lia].
  - intros [Hnd Hb]. split; simpl; rewrite fmap_app.
    + apply NoDup_app. split; [done|]. split; [|apply NoDup_singleton].
      intros i Hi ->%list_elem_of_singleton. rewrite Forall_forall in Hb. specialize (Hb _ Hi). simpl in Hb. lia.
    + apply Forall_app. split; [|repeat constructor; simpl; lia].
      eapply Forall_impl; [exact Hb|]. simpl. lia.
Qed.

Lemma require_rows_confined n msg : respects confined_db (require_rows n msg).
Proof. unfold require_rows. case_match; [apply respects_raise|apply respects_ret]; apply _. Qed.
End confined.

Ltac confined_step :=
  first [ apply respects_ret | apply respects_raise | apply respects_gets | apply respects_lift
        | apply log_confined | apply require_rows_confined | apply seq_confined
        | (apply enqueue_confined; done) | (apply status_confined; done)
        | (apply insert_confined; by intros)
        | apply respects_bind; [apply _| |intro] ]; try apply _.

(** Row conditions that name the account. *)
Ltac owner_cond := intros ? Hcond; left; unfold owned_by, active_order in Hcond; bsimp; by subst.

Section confined_repo.
Context (P : Z -> bool) (org a : Z) (HP : P a = true).
Abbreviation conf := (respects (confined_db P org)).

Lemma link_confined mo mp : conf (link_pending_fill mo a mp).
Proof. unfold link_pending_fill. repeat confined_step. apply update_confined; [owner_cond|done]. Qed.

Lemma activate_position_confined c p v f : conf (activate_position_mapping a c p v f).
Proof. unfold activate_position_mapping. repeat confined_step. apply update_confined; [owner_cond|done]. Qed.

Lemma reduce_position_confined p v c : conf (reduce_position_mapping a p v c).
Proof.
  unfold reduce_position_mapping. repeat confined_step. apply update_confined; [owner_cond|].
  intros r. unfold reduce_row. by case_match.
Qed.

Lemma fail_mapping_confined c e : conf (fail_mapping a c e).
Proof. unfold fail_mapping. repeat confined_step. apply update_confined; [owner_cond|done]. Qed.

Lemma activate_order_confined c o : conf (activate_order_mapping a c o).
Proof. unfold activate_order_mapping. repeat confined_step. apply update_confined; [owner_cond|done]. Qed.

Lemma close_order_confined o : conf (close_order_mapping a o).
Proof. unfold close_order_mapping. repeat confined_step. apply update_confined; [owner_cond|done]. Qed.

Lemma activate_pending_confined o p v f : conf (activate_pending_fill a o p v f).
Proof. unfold activate_pending_fill. repeat confined_step. apply update_confined; [owner_cond|done]. Qed.

Lemma create_mapping_confined i o : respects (confined_engine P org) (_create_mapping i a o).
Proof.
  destruct i; simpl; try (apply respects_ret; apply _); apply confined_on_db.
  - unfold create_position_mapping. confined_step; [confined_step|]. case_match; repeat confined_step.
  - unfold create_order_mapping. confined_step; [confined_step|]. case_match; repeat confined_step.
Qed.

Lemma enqueue_intent_confined mm i o sym :
  intent_account i = Some a -> conf (enqueue_intent mm i a o sym).
Proof.
  intros Ha. assert (conf (enqueue_plain i a o sym)) as Hplain
    by (unfold enqueue_plain, enqueue; repeat confined_step).
  unfold enqueue_intent. destruct i; try done. destruct (cp_master_position_id i); [|done].
  case_match; [|done]. confined_step; [|case_match; [confined_step|done]].
  simpl in Ha. injection Ha as Ha.
  unfold _enqueue_netting_close, mapping_side, mt5_open_payload, enqueue. rewrite Ha.
  repeat confined_step. repeat case_match; repeat confined_step.
Qed.
End confined_repo.

Lemma record_master_fill_confined P org mp f t :
  respects (confined_db P org) (record_master_fill org mp f t).
Proof.
  unfold record_master_fill. repeat case_match; try (apply respects_ret; apply _).
  all: repeat confined_step; (apply update_confined; [|done]);
    intros r Hr; right; bsimp; done.
Qed.

(** *** A dispatch stays with the accounts of its intents *)

Lemma build_request_account i a req entry :
  build_request i = Ok (a, req, entry) -> intent_account i = Some a.
Proof.
  destruct i; cbn [build_request]; try done.
  - destruct (relative_protection _ _ _ _); simpl; intros; by simplify_eq/=.
  - intros; by simplify_eq/=.
  - intros; by simplify_eq/=.
  - intros; by simplify_eq/=.
  - destruct (require_int (ao_order_id i)); simpl; intros; by simplify_eq/=.
  - destruct (require_int (co_order_id i)); simpl; intros; by simplify_eq/=.
Qed.

Section confined_dispatch.
Context (P : Z -> bool) (org : Z).
Context (targets : option (Z -> option (gmap Z string))) (outbox : option (Z -> option margin_mode)).
Abbreviation conf := (respects (confined_engine P org)).

Lemma e_log_confined cat sev p a o : conf (e_log cat sev p a o).
Proof. apply confined_on_db, log_confined. Qed.

Lemma warn_confined entry a o : conf (_warn_dropped_protection entry a o).
Proof. destruct entry as [[]|]; simpl; [apply e_log_confined|apply respects_ret; apply _]. Qed.

Lemma add_send_confined t : P (st_account t) = true -> conf (add_send t).
Proof.
  intros HP e. split; simpl; [reflexivity|]. exists [t]. split; [done|]. by repeat constructor.
Qed.

Lemma enqueue_mt5_confined i a o :
  intent_account i = Some a -> P a = true -> conf (_enqueue_for_mt5 targets outbox i a o).
Proof.
  intros Ha HP. unfold _enqueue_for_mt5. destruct targets as [tg|]; [|apply respects_ret; apply _].
  destruct outbox as [mm|]; [|apply respects_ret; apply _].
  destruct (tg a); [|apply respects_ret; apply _].
  destruct (broker_symbol_of _ _); (apply respects_bind; [apply _| |intros]);
    auto using create_mapping_confined, e_log_confined; [|apply respects_ret; apply _].
  apply respects_bind; [apply _|by apply confined_on_db, enqueue_intent_confined|intros].
  apply respects_bind; [apply _|apply e_log_confined|]. intros. apply respects_ret; apply _.
Qed.

Lemma handle_intent_confined o i :
  (forall a, intent_account i = Some a -> P a = true) ->
  conf (try_except (handle_intent targets outbox o org i) (intent_failed i org)).
Proof.
  intros HP.
  assert (conf (_handle_dry_run i org)) as Hdry.
  { unfold _handle_dry_run. intros e. unfold exec, bind, lift_result.
    destruct (build_request i) as [[[a req] entry]|] eqn:Hb; [|apply confined_engine_refl].
    apply build_request_account, HP in Hb.
    change (confined_engine P org e (exec (_create_mapping i a org ;;; (_warn_dropped_protection entry a org ;;;
      e_log "slave_action" Info [("dry_run", JBool true); ("would_send", JObj (_request_summary req));
        ("note", JStr "mapping stays pending, cleaned by resync")] (Some a) (Some org))) e)).
    apply respects_bind; [apply _|by apply create_mapping_confined|]. intros _.
    apply respects_bind; [apply _|apply warn_confined|]. intros _. apply e_log_confined. }
  assert (conf (_handle_live_send targets outbox i org)) as Hlive.
  { unfold _handle_live_send. apply respects_bind; [apply _| |].
    { destruct (intent_account i) eqn:Ha; [|apply respects_ret; apply _].
      apply enqueue_mt5_confined; auto. }
    intros [|]; [apply respects_ret; apply _|].
    intros e. unfold exec, bind at 1, lift_result.
    destruct (build_request i) as [[[a req] entry]|] eqn:Hb; [|apply confined_engine_refl].
    apply build_request_account, HP in Hb. revert e.
    apply respects_bind; [apply _|by apply create_mapping_confined|]. intros _.
    apply respects_bind; [apply _|apply warn_confined|]. intros _. by apply add_send_confined. }
  apply respects_try; [apply _| |].
  - destruct i; simpl; try by (case_match; [apply e_log_confined|]; case_match).
    + unfold _handle_link_pending_fill. apply respects_try; [apply _| |].
      * apply respects_bind; [apply _|apply confined_on_db, link_confined; by apply HP|].
        intros _. apply e_log_confined.
      * intros x. case_match; [apply e_log_confined|apply respects_raise; apply _].
    + apply e_log_confined.
  - intros x. unfold intent_failed. apply respects_bind; [apply _|apply e_log_confined|]. intros _.
    destruct (intent_account i) eqn:Ha; [|apply respects_ret; apply _].
    apply confined_on_db, status_confined. by apply HP.
Qed.

Lemma dispatch_confined intents :
  (forall i a, i ∈ intents -> intent_account i = Some a -> P a = true) ->
  conf (dispatch targets outbox intents org).
Proof.
  intros HP. unfold dispatch. apply respects_bind; [apply _| |].
  { apply confined_on_db. intros s. unfold exec, get_org, bind, gets. simpl.
    case_match; apply confined_db_refl. }
  intros o. apply respects_for_each; try apply _. intros i Hi. apply handle_intent_confined.
  intros a Ha. by eapply HP.
Qed.
End confined_dispatch.

(** ** The shape of a slave event's handling *)

(** The repository calls a slave's event can lead to. *)
Inductive slave_op (a : Z) : M db unit -> Prop :=
  | op_activate_position c p v f : slave_op a (activate_position_mapping a c p v f)
  | op_reduce_position p v c : slave_op a (reduce_position_mapping a p v c)
  | op_fail c e : slave_op a (fail_mapping a c e)
  | op_activate_order c o : slave_op a (activate_order_mapping a c o)
  | op_close_order o : slave_op a (close_order_mapping a o)
  | op_activate_pending o p v f : slave_op a (activate_pending_fill a o p v f).

(** Any relation the calls respect holds across the whole handler. *)
Section slave_handler.
Context (R : service -> service -> Prop) `{!Reflexive R, !Transitive R}.
Context (targets : option (Z -> option (gmap Z string))) (outbox : option (Z -> option margin_mode)).
Context (org a : Z).
Context (Hlog : forall cat sev p x o, respects R (s_log cat sev p x o))
        (Hops : forall m, slave_op a m -> respects R (on_repo m))
        (Hprotect : forall coid p cur, respects R (_protect_new_copy targets outbox a coid p org cur))
        (Hmodify : forall f, (forall s, sv_engine (f s) = sv_engine s) -> respects R (modify f)).

Lemma not_found_respects m h : respects R m -> respects R h -> respects R (on_not_found m h).
Proof.
  intros Hm Hh. apply respects_try; [done|done|]. intros e. case_match; [done|by apply respects_raise].
Qed.

Lemma notify_respects o : respects R (_notify_positions_changed o).
Proof. apply Hmodify. reflexivity. Qed.
Lemma submit_respects o x evt m : respects R (_submit_execution o x evt m).
Proof. apply Hmodify. reflexivity. Qed.

Lemma slave_fill_respects fill :
  sf_account_id fill = a -> respects R (handle_slave_fill targets outbox org fill).
Proof.
  intros <-. unfold handle_slave_fill. destruct (sf_closed_volume fill) as [v|].
  - apply respects_bind; [done|apply Hops, op_reduce_position|]. intros _. apply Hlog.
  - destruct (is_copy_id "cm" _) as [c|]; apply not_found_respects.
    + apply respects_bind; [done|apply Hops, op_activate_position|]. intros _.
      apply respects_bind; [done|apply Hlog|]. intros _. apply Hprotect.
    + apply Hlog.
    + apply respects_bind; [done|apply Hops, op_activate_pending|]. intros _. apply Hlog.
    + unfold unmatched_fill. case_match; apply Hlog.
Qed.

Lemma order_accepted_respects c o : respects R (handle_slave_order_accepted org a c o).
Proof.
  unfold handle_slave_order_accepted. destruct (is_copy_id _ _); [|by apply respects_ret].
  apply not_found_respects; [|apply Hlog].
  apply respects_bind; [done|apply Hops, op_activate_order|]. intros _. apply Hlog.
Qed.

Lemma order_cancelled_respects o : respects R (handle_slave_order_cancelled org a o).
Proof.
  apply not_found_respects; [|apply Hlog].
  apply respects_bind; [done|apply Hops, op_close_order|]. intros _. apply Hlog.
Qed.

Lemma rejection_respects c reason code : respects R (handle_slave_rejection org a c reason code).
Proof.
  unfold handle_slave_rejection. apply respects_bind; [done| |intros; apply Hlog].
  destruct c as [[|]|]; try (by apply respects_ret).
  apply not_found_respects; [apply Hops, op_fail|by apply respects_ret].
Qed.

Lemma slave_event_respects evt routing :
  respects R (_handle_slave_event targets outbox org a evt routing).
Proof.
  unfold _handle_slave_event. case_match; [apply Hlog|].
  apply respects_bind; [done|apply submit_respects|]. intros _.
  destruct (ev_executionType evt); try apply Hlog;
    (apply respects_bind; [done| |intros; apply notify_respects]);
    first [apply order_accepted_respects | apply order_cancelled_respects | apply rejection_respects
          | by apply slave_fill_respects].
Qed.
End slave_handler.

(** ** Org isolation *)

Definition in_org (routing : OrgRouting) (org a : Z) : bool :=
  bool_decide (org_by_account routing !! a = Some org).

(** Routing tables as [build_routing] makes them: a fleet's slaves belong to
    the org they are filed under. *)
Definition routing_ok (routing : OrgRouting) : Prop :=
  forall org s, s ∈ org_slaves routing org -> org_by_account routing !! account_id s = Some org.

Lemma org_slaves_in routing org : routing_ok routing -> forall c, c ∈ org_slaves routing org -> in_org routing org (account_id c) = true.
Proof. intros H c Hc. apply bool_decide_eq_true. by apply H. Qed.

Lemma build_routing_ok loader aliases accounts :
  NoDup (acc_account_id <$> accounts) -> routing_ok (build_routing loader aliases accounts).
Proof.
  intros Hnd org s. rewrite build_slaves. intros (a & -> & Ha)%list_elem_of_fmap.
  apply list_elem_of_In, filter_In in Ha as [Hin Hs]. apply list_elem_of_In in Hin.
  unfold is_slave_of in Hs. bsimp. subst org. simpl.
  by destruct (build_org loader aliases accounts a Hnd Hin).
Qed.

#[export] Instance is_rejected_dec ev : Decision (exists e, ev = EvRejected e).
Proof. destruct ev; [right; by intros []..|left; eauto]. Defined.

Lemma decide_accounts {S} `{!MappingState S} ev (d : S) slaves intents i a :
  Replication.decide ev d slaves = Ok intents -> i ∈ intents -> intent_account i = Some a ->
  a ∈ enabled_ids slaves.
Proof.
  intros Hd Hi Ha. destruct (decide (exists e, ev = EvRejected e)) as [[e ->]|Hne].
  - simplify_eq/=. set_solver.
  - apply (decide_targets ev d slaves intents); [|done|eauto]. intros e ->. eauto.
Qed.

Section isolation.
Context (targets : option (Z -> option (gmap Z string))) (outbox : option (Z -> option margin_mode)).
Context (symbols : gmap Z (gmap Z SymbolInfo)) (wired : bool).
Context (routing : OrgRouting) (org : Z) (P : Z -> bool).
Context (Hslaves : forall c, c ∈ org_slaves routing org -> P (account_id c) = true).
Abbreviation conf := (respects (confined P org)).

Lemma s_log_confined cat sev p a o : conf (s_log cat sev p a o).
Proof. apply confined_on_repo, log_confined. Qed.

Lemma protect_confined a coid p cur :
  P a = true -> conf (_protect_new_copy targets outbox a coid p org cur).
Proof.
  intros HP. unfold _protect_new_copy. destruct (master_position_of coid); [|apply respects_ret; apply _].
  apply respects_bind; [apply _|apply respects_gets; apply _|]. intros mem.
  destruct (od_get _ _) as [[sl tp]|]; [|apply respects_ret; apply _].
  case_match; [apply respects_ret; apply _|].
  apply respects_try; [apply _| |intros; apply respects_ret; apply _].
  apply confined_on_engine, dispatch_confined. intros i a' ->%list_elem_of_singleton Ha.
  simpl in Ha. by simplify_eq.
Qed.

Lemma slave_op_confined a m : P a = true -> slave_op a m -> respects (confined_db P org) m.
Proof.
  intros HP []; auto using activate_position_confined, reduce_position_confined,
    fail_mapping_confined, activate_order_confined, close_order_confined, activate_pending_confined.
Qed.

Lemma notify_confined o : conf (_notify_positions_changed o).
Proof. by apply confined_modify. Qed.

Lemma slave_event_confined a evt :
  P a = true -> conf (_handle_slave_event targets outbox org a evt routing).
Proof.
  intros HP. apply slave_event_respects; try apply _.
  - apply s_log_confined.
  - intros m Hm. apply confined_on_repo. by eapply slave_op_confined.
  - intros. by apply protect_confined.
  - apply confined_modify.
Qed.

Lemma audit_confined a p : conf (_audit_master_event org a p).
Proof. apply respects_try; [apply _|apply s_log_confined|intros; apply respects_ret; apply _]. Qed.

Lemma decide_dispatch_confined a ev p : conf (_decide_dispatch_audit targets outbox org a ev routing p).
Proof.
  unfold _decide_dispatch_audit. apply respects_bind; [apply _|by apply confined_modify|]. intros _.
  apply respects_finally; [apply _| |apply audit_confined].
  apply respects_bind; [apply _|apply confined_on_repo, respects_gets; apply _|]. intros d.
  intros s. unfold exec, bind, lift_result.
  destruct (Replication.decide ev d (org_slaves routing org)) as [intents|] eqn:Hd;
    [|apply confined_refl].
  destruct intents as [|i intents]; [apply confined_refl|].
  apply confined_on_engine, dispatch_confined. intros i' a' Hi' Ha'.
  destruct (proj1 (list_elem_of_fmap _ _ _) (decide_accounts _ _ _ _ _ _ Hd Hi' Ha'))
    as (sl & -> & [Hsl _]%elem_of_enabled). by apply Hslaves.
Qed.

Lemma after_confined a ev : conf (_after_master_event wired org a ev).
Proof.
  unfold _after_master_event. apply respects_bind; [apply _| |intros _].
  { case_match; try (apply respects_ret; apply _). by apply confined_modify. }
  apply respects_bind; [apply _| |intros; apply notify_confined].
  unfold _apply_risk_engine. destruct ev; try (apply respects_ret; apply _).
  - apply respects_bind; [apply _|apply confined_on_repo, respects_gets; apply _|]. intros rule.
    destruct rule as [rule|]; [|apply respects_ret; apply _].
    destruct (mpo_entry_price e) as [entry|]; [|apply respects_ret; apply _].
    apply respects_bind; [apply _| |intros _].
    + case_match; [apply respects_ret; apply _|]. unfold master_amend_sltp.
      case_match; [by apply confined_modify|apply respects_ret; apply _].
    + destruct (rr_trailing_enabled rule); [|apply respects_ret; apply _].
      destruct (fill_in_levels e rule entry).1; [|apply respects_ret; apply _].
      apply confined_on_repo. intros s0. by apply confined_same.
  - case_match; [|apply respects_ret; apply _].
    apply confined_on_repo. intros s0. by apply confined_same.
Qed.

Lemma master_event_confined a evt :
  conf (_handle_master_event targets outbox symbols wired org a evt routing).
Proof.
  unfold _handle_master_event. apply respects_bind; [apply _|apply respects_lift; apply _|].
  intros [ev|].
  - apply respects_bind; [apply _|apply decide_dispatch_confined|]. intros _.
    apply respects_bind; [apply _|by apply confined_modify|]. intros _.
    apply respects_bind; [apply _| |intros _; apply after_confined].
    destruct (dl_executionPrice _), (nonzero (dl_positionId (ev_deal evt))); try (apply respects_ret; apply _).
    apply confined_on_repo, record_master_fill_confined.
  - apply respects_bind; [apply _|apply audit_confined|]. intros _. by apply confined_modify.
Qed.
End isolation.

(** C8: an event on one org's account never reaches another org.  With the
    routing table built from the accounts (whose ids are unique), an execution
    event on an account of [org] only sends orders and queues commands for
    accounts of that org; mapping rows of other orgs' accounts, account
    statuses of other orgs and every org's switches stay exactly as they
    were, whichever handler runs and whatever it raises. *)
Theorem execution_confined_to_org targets outbox symbols wired loader aliases accounts a evt org s :
  NoDup (acc_account_id <$> accounts) ->
  let routing := build_routing loader aliases accounts in
  org_by_account routing !! a = Some org ->
  confined (in_org routing org) org s
    (exec (handle_execution targets outbox symbols wired a evt (Ok routing)) s).
Proof.
  intros Hnd routing Ha. pose proof (build_routing_ok loader aliases accounts Hnd) as Hr. fold routing in Hr.
  enough (respects (confined (in_org routing org) org)
            (handle_execution targets outbox symbols wired a evt (Ok routing))) as H by apply (H s).
  unfold handle_execution. rewrite Ha.
  apply respects_try; [apply _| |intros; apply s_log_confined].
  pose proof (org_slaves_in routing org Hr) as Hs.
  case_bool_decide; [by apply master_event_confined|].
  apply slave_event_confined. unfold in_org. by rewrite bool_decide_true.
Qed.

(** Two orgs, both holding a master position 7: an open on org 1's master. *)
Definition demo_routing : OrgRouting := build_routing (fun _ => {["EURUSD" := Fleet.eurusd]}) None demo_accounts.
Definition demo_fill_event (pos : Z) : ProtoOAExecutionEvent :=
  {| ev_executionType := ORDER_FILLED;
     ev_order := {| o_orderId := 501;
       o_tradeData := {| td_symbolId := 1; td_volume := 10000000; td_tradeSide := TS_BUY; td_label := "" |};
       o_orderType := OT_MARKET; o_limitPrice := None; o_stopPrice := None; o_stopLoss := None;
       o_takeProfit := None; o_expirationTimestamp := None; o_clientOrderId := None |};
     ev_deal := {| dl_positionId := pos; dl_filledVolume := 10000000; dl_executionPrice := Some (px 11000);
                   dl_executionTimestamp := 1; dl_closedVolume := None |};
     ev_position := {| ps_positionId := pos; ps_tradeVolume := 10000000; ps_price := Some (px 11000);
                       ps_stopLoss := None; ps_takeProfit := None |};
     ev_errorCode := "" |}.
Definition demo_service : service :=
  {| sv_engine := demo_engine true false; sv_master_protection := []; sv_checks := [];
     sv_notified := []; sv_amends := []; sv_captured := [] |}.
Definition demo_symbols : gmap Z (gmap Z SymbolInfo) := {[1 := {[1 := Fleet.eurusd]}]}.

Lemma execution_confined_to_org_witness :
  let s' := exec (handle_execution None None demo_symbols true 1 (demo_fill_event 7) (Ok demo_routing))
                 demo_service in
  confined (in_org demo_routing 1) 1 demo_service s' /\
  (st_account <$> e_sends (sv_engine s')) = [11].
Proof.
  intros s'. split; [|vm_compute; reflexivity].
  apply (execution_confined_to_org None None demo_symbols true
           (fun _ => {["EURUSD" := Fleet.eurusd]}) None demo_accounts 1 (demo_fill_event 7) 1 demo_service).
  - apply (bool_decide_eq_true_1 _). vm_compute. reflexivity.
  - vm_compute. reflexivity.
Defined.

(** ** The pump *)

Lemma on_repo_total {A} (m : M db A) : total m -> total (on_repo m).
Proof.
  intros H s. destruct (total_on_db m H (sv_engine s)) as [x Hx]. exists x.
  unfold value, on_repo, on_engine in *. by destruct (on_db m (sv_engine s)).
Qed.

Lemma s_log_total cat sev p a o : total (s_log cat sev p a o).
Proof. apply on_repo_total. intros s. by exists tt. Qed.

(** No event can stop the event stream.  Whatever the account, the event,
    the routing (also when reading it failed) and the state, handling an
    execution event returns normally. *)
Theorem handle_execution_never_raises targets outbox symbols wired a evt routing s :
  exists u, value (handle_execution targets outbox symbols wired a evt routing) s = Ok u.
Proof.
  unfold handle_execution. destruct routing as [r|e]; [|apply s_log_total].
  destruct (org_by_account r !! a); [|apply s_log_total].
  apply total_try. intros. apply s_log_total.
Qed.

(** ** Loop-proof: a slave's event never copies *)

Definition is_amend (r : request) : bool :=
  match r with AmendPositionSLTPReq _ _ _ _ => true | _ => false end.

(** The only trades a slave's event can cause: stop/target amendments on that
    slave itself.  No mapping row appears or disappears. *)
Record amends_only_engine (a : Z) (e e' : engine) : Prop := {
  ao_sends : exists new, e_sends e' = e_sends e ++ new /\
               Forall (fun t => st_account t = a /\ is_amend (st_req t) = true) new;
  ao_cmds : exists new, db_commands (e_db e') = db_commands (e_db e) ++ new /\
              Forall (fun c => c_account_id c = a /\ c_kind c = KAmend) new;
  ao_rows : m_id <$> db_mappings (e_db e') = m_id <$> db_mappings (e_db e)
}.
Definition amends_only (a : Z) (s s' : service) : Prop := amends_only_engine a (sv_engine s) (sv_engine s').

#[export] Instance amends_only_engine_refl a : Reflexive (amends_only_engine a).
Proof. intros e. split; [apply extends_refl|apply extends_refl|done]. Qed.
#[export] Instance amends_only_engine_trans a : Transitive (amends_only_engine a).
Proof. intros x y z [] []. split; [by eapply extends_trans|by eapply extends_trans|congruence]. Qed.
#[export] Instance amends_only_refl a : Reflexive (amends_only a).
Proof. intros s. apply amends_only_engine_refl. Qed.
#[export] Instance amends_only_trans a : Transitive (amends_only a).
Proof. intros x y z. apply amends_only_engine_trans. Qed.

Lemma amends_on_db a {A} (m : M db A) :
  (forall s, db_commands (exec m s) = db_commands s) ->
  (forall s, m_id <$> db_mappings (exec m s) = m_id <$> db_mappings s) ->
  respects (amends_only_engine a) (on_db m).
Proof.
  intros Hc Hm. apply respects_on_db. intros e. split; simpl; [apply extends_refl| |apply Hm].
  rewrite Hc. apply extends_refl.
Qed.

Lemma amends_on_engine a {A} (m : M engine A) :
  respects (amends_only_engine a) m -> respects (amends_only a) (on_engine m).
Proof.
  intros H s. specialize (H (sv_engine s)). unfold amends_only, exec, on_engine in *.
  by destruct (m (sv_engine s)).
Qed.

Lemma amends_log a cat sev p x o : respects (amends_only_engine a) (e_log cat sev p x o).
Proof. by apply amends_on_db. Qed.

(** Dispatching an amendment sends or queues that amendment, or nothing. *)
Lemma amends_dispatch targets outbox a p sl tp org :
  respects (amends_only_engine a)
    (dispatch targets outbox [IAmendPositionSLTP {| ap_slave_account_id := a; ap_position_id := p;
       ap_stop_loss := sl; ap_take_profit := tp |}] org).
Proof.
  unfold dispatch. apply respects_bind; [apply _| |].
  { apply amends_on_db; intros s; unfold exec, get_org, bind, gets; simpl; by case_match. }
  intros o. cbn [for_each]. apply respects_bind; [apply _| |intros; apply respects_ret; apply _].
  apply respects_try; [apply _| |].
  - simpl. case_match; [apply amends_log|]. case_match.
    + unfold _handle_dry_run. simpl. apply respects_bind; [apply _|apply respects_lift; apply _|].
      intros [[x req] entry]. apply respects_bind; [apply _|apply respects_ret; apply _|]. intros _.
      apply respects_bind; [apply _| |intros; apply amends_log].
      destruct entry as [[]|]; [apply amends_log|apply respects_ret; apply _].
    + unfold _handle_live_send. simpl. apply respects_bind; [apply _| |].
      * unfold _enqueue_for_mt5. destruct targets as [tg|]; [|apply respects_ret; apply _].
        destruct outbox as [mm|]; [|apply respects_ret; apply _].
        destruct (tg a); [|apply respects_ret; apply _]. simpl.
        apply respects_bind; [apply _|apply respects_ret; apply _|]. intros _.
        apply respects_bind; [apply _| |intros; apply respects_bind;
          [apply _|apply amends_log|intros; apply respects_ret; apply _]].
        intros e. split; simpl; [apply extends_refl| |done].
        eexists. split; [reflexivity|]. by repeat constructor.
      * intros [|]; [apply respects_ret; apply _|].
        intros e. split; simpl; [|apply extends_refl|done].
        eexists. split; [reflexivity|]. by repeat constructor.
  - intros x. unfold intent_failed. apply respects_bind; [apply _|apply amends_log|]. intros _.
    by apply amends_on_db.
Qed.

Lemma amends_slave_op a b m : slave_op b m -> respects (amends_only a) (on_repo m).
Proof.
  intros Hop. apply amends_on_engine, amends_on_db; intros s.
  - destruct Hop; unfold exec, activate_position_mapping, reduce_position_mapping, fail_mapping,
      activate_order_mapping, close_order_mapping, activate_pending_fill, bind, gets, update_mappings,
      require_rows; simpl; try done; by case_match.
  - assert (forall (cond : mapping_row -> bool) (upd : mapping_row -> mapping_row), (forall r, m_id (upd r) = m_id r) ->
      m_id <$> ((fun r => if cond r then upd r else r) <$> db_mappings s) = m_id <$> db_mappings s) as Hu.
    { intros cond upd H. apply fmap_fmap_id. intros r _. by case_match. }
    destruct Hop; unfold exec, activate_position_mapping, reduce_position_mapping, fail_mapping,
      activate_order_mapping, close_order_mapping, activate_pending_fill, bind, gets, update_mappings,
      require_rows, ret, raise; simpl.
    2: { apply Hu. intros r. unfold reduce_row. by case_match. }
    all: case_match; by apply Hu.
Qed.

Lemma protect_amends targets outbox a coid p org cur :
  respects (amends_only a) (_protect_new_copy targets outbox a coid p org cur).
Proof.
  unfold _protect_new_copy. destruct (master_position_of coid); [|apply respects_ret; apply _].
  apply respects_bind; [apply _|apply respects_gets; apply _|]. intros mem.
  destruct (od_get _ _) as [[sl tp]|]; [|apply respects_ret; apply _].
  case_match; [apply respects_ret; apply _|].
  apply respects_try; [apply _| |intros; apply respects_ret; apply _].
  apply amends_on_engine, amends_dispatch.
Qed.

Lemma s_log_amends a cat sev p x o : respects (amends_only a) (s_log cat sev p x o).
Proof. apply amends_on_engine, amends_log. Qed.

(** C9: slave events are loop-proof.  An execution event on an account that
    is not its org's master never leads to a copy: the only trades it can
    cause are stop/target amendments of that very account (the protection of
    a copy that just filled), and no mapping row is created or removed. *)
Theorem slave_event_never_copies targets outbox symbols wired a evt routing org s :
  org_by_account routing !! a = Some org -> master_by_org routing !! org <> Some a ->
  amends_only a s (exec (handle_execution targets outbox symbols wired a evt (Ok routing)) s).
Proof.
  intros Ho Hm.
  assert (forall cat sev p x o, respects (amends_only a) (s_log cat sev p x o)) as Hlog
    by (intros; apply amends_on_engine, amends_log).
  enough (respects (amends_only a) (handle_execution targets outbox symbols wired a evt (Ok routing))) as H
    by apply (H s).
  unfold handle_execution. rewrite Ho, bool_decide_false by done.
  apply respects_try; [apply _| |intros; apply Hlog].
  apply slave_event_respects; try apply _; [done| | |].
  - intros m Hop. by eapply amends_slave_op.
  - intros. apply protect_amends.
  - intros f Hf s'. unfold amends_only, exec, modify; simpl. rewrite Hf. apply amends_only_engine_refl.
Qed.

Lemma slave_event_never_copies_witness :
  amends_only 11 demo_service
    (exec (handle_execution None None demo_symbols true 11 (demo_fill_event 7) (Ok demo_routing)) demo_service).
Proof.
  apply (slave_event_never_copies None None demo_symbols true 11 (demo_fill_event 7) demo_routing 1).
  - vm_compute. reflexivity.
  - vm_compute. discriminate.
Defined.

(** ** Remembered protection *)

Lemma remember_level_wf p lv mem : od_wf mem -> od_wf (remember_level p lv mem).
Proof.
  intros H. unfold remember_level.
  assert (od_wf (od_set p lv (if negb (od_mem p mem) && (MAX_REMEMBERED_PROTECTION <=? Z.of_nat (length mem))
    then match mem with (k, _) :: _ => od_pop k mem | [] => mem end else mem))) as Hs.
  { apply od_wf_set. case_match; [|done]. destruct mem as [|[k v] mem]; [done|]. by apply od_wf_pop. }
  destruct lv as [[sl|] [tp|]]; [exact Hs..|by apply od_wf_pop].
Qed.

Lemma remember_wf ev mem : od_wf mem -> od_wf (remember ev mem).
Proof. intros H. destruct ev; cbn [remember]; first [done | by apply remember_level_wf | by apply od_wf_pop]. Qed.

Lemma remember_level_bound p lv mem :
  Z.of_nat (length mem) <= MAX_REMEMBERED_PROTECTION ->
  Z.of_nat (length (remember_level p lv mem)) <= MAX_REMEMBERED_PROTECTION.
Proof.
  intros H. unfold remember_level. pose proof (length_od_pop p mem) as Hpop.
  assert (0 < MAX_REMEMBERED_PROTECTION) as Hpos by done.
  assert (Z.of_nat (length (od_set p lv
    (if negb (od_mem p mem) && (MAX_REMEMBERED_PROTECTION <=? Z.of_nat (length mem))
     then match mem with (k, _) :: _ => od_pop k mem | [] => mem end else mem)))
    <= MAX_REMEMBERED_PROTECTION) as Hs.
  { destruct (od_mem p mem) eqn:Em; cbn [negb andb]; [by rewrite length_od_set, Em|].
    destruct (Z.leb_spec MAX_REMEMBERED_PROTECTION (Z.of_nat (length mem))) as [El|El].
    - destruct mem as [|[k v] mem]; [simpl in El; lia|].
      cbn [od_pop]. rewrite decide_True by done. rewrite length_od_set.
      cbn [length] in H. destruct (od_mem p mem); lia.
    - rewrite length_od_set, Em. lia. }
  destruct lv as [[sl|] [tp|]]; [exact Hs..|lia].
Qed.

Lemma remember_bound ev mem :
  Z.of_nat (length mem) <= MAX_REMEMBERED_PROTECTION ->
  Z.of_nat (length (remember ev mem)) <= MAX_REMEMBERED_PROTECTION.
Proof.
  intros H. destruct ev; cbn [remember]; auto using remember_level_bound.
  pose proof (length_od_pop (mpc_position_id e) mem). lia.
Qed.

(** The levels an event states for a position. *)
Definition stated (ev : MasterEvent) : option (Z * (price * price)) :=
  match ev with
  | EvPositionOpened e => Some (mpo_position_id e, (mpo_stop_loss e, mpo_take_profit e))
  | EvPositionSLTPAmended e => Some (mpa_position_id e, (mpa_stop_loss e, mpa_take_profit e))
  | EvPositionClosed e => Some (mpc_position_id e, (None, None))
  | _ => None
  end.

Lemma remember_level_get p lv mem :
  od_wf mem -> od_get p (remember_level p lv mem) = if decide (lv = (None, None)) then None else Some lv.
Proof.
  intros H. unfold remember_level. destruct lv as [[sl|] [tp|]]; simpl.
  1, 2, 3: by rewrite od_get_set, decide_True.
  by rewrite od_get_pop, !decide_True.
Qed.

(** The memory of master protection is bounded and current.  After any
    sequence of master events it has at most 2000 entries, one per position;
    and right after an event that states a position's levels (an open, an
    amendment, or a close, which states none) it answers exactly those levels
    for that position, and nothing when there are none. *)
Theorem protection_memory_bounded evs :
  let mem := fold_left (fun m ev => remember ev m) evs [] in
  Z.of_nat (length mem) <= 2000 /\ od_wf mem /\
  forall ev p lv, stated ev = Some (p, lv) ->
    od_get p (remember ev mem) = if decide (lv = (None, None)) then None else Some lv.
Proof.
  intros mem.
  assert (Z.of_nat (length mem) <= MAX_REMEMBERED_PROTECTION /\ od_wf mem) as [Hb Hw].
  { unfold mem. assert (forall l, Z.of_nat (length l) <= MAX_REMEMBERED_PROTECTION -> od_wf l ->
      Z.of_nat (length (fold_left (fun m ev => remember ev m) evs l)) <= MAX_REMEMBERED_PROTECTION /\
      od_wf (fold_left (fun m ev => remember ev m) evs l)) as H.
    { induction evs as [|ev evs IH]; intros l Hl Hlw; simpl; [done|].
      apply IH; [by apply remember_bound|by apply remember_wf]. }
    apply H; [done|apply NoDup_nil_2]. }
  split; [exact Hb|]. split; [exact Hw|]. intros ev p lv Hst.
  destruct ev; cbn [stated remember] in *; simplify_eq; [by apply remember_level_get| |by apply remember_level_get].
  by rewrite od_get_pop, decide_True.
Qed.

(** *** A new copy gets its master's protection *)

Lemma master_position_of_coid mp a : master_position_of (Some (position_coid mp a)) = Some mp.
Proof.
  change (py_int (str_before "."%char (pretty mp +:+ String "."%char (pretty a))) = Some mp).
  rewrite str_before_app by apply pretty_no_dot. apply py_int_pretty.
Qed.

Lemma is_copy_coid mp a : is_copy_id "cm" (Some (position_coid mp a)) = Some (position_coid mp a).
Proof. reflexivity. Qed.

(** The send an amendment of a cTrader copy turns into. *)
Definition amend_task (a p : Z) (sl tp : price) : send_task :=
  {| st_account := a; st_req := AmendPositionSLTPReq a p sl tp; st_attempt := 0; st_delay_ms := 0 |}.

Lemma dispatch_amend targets outbox a p sl tp org o e :
  org_row org (e_db e) = Some o -> org_copying_enabled o = true -> org_dry_run o = false ->
  (forall tg, targets = Some tg -> tg a = None) ->
  e_sends (exec (dispatch targets outbox [IAmendPositionSLTP {| ap_slave_account_id := a;
    ap_position_id := p; ap_stop_loss := sl; ap_take_profit := tp |}] org) e)
  = e_sends e ++ [amend_task a p sl tp].
Proof.
  intros Ho Hc Hd Ht. unfold exec. rewrite (dispatch_run _ _ _ _ _ _ Ho). simpl.
  unfold bind, try_except. simpl. rewrite Hc, Hd. simpl.
  unfold _handle_live_send, _enqueue_for_mt5. simpl.
  destruct targets as [tg|]; [|done]. destruct outbox; [|done]. by rewrite (Ht tg eq_refl).
Qed.

Lemma activate_ok a c p v f s :
  existsb (owned_by a c) (db_mappings s) = true ->
  value (activate_position_mapping a c p v f) s = Ok tt /\
  db_orgs (exec (activate_position_mapping a c p v f) s) = db_orgs s.
Proof.
  intros Hex. unfold activate_position_mapping, value, exec, bind, gets, update_mappings, require_rows.
  simpl. destruct (Z.eqb_spec (Z.of_nat (length (List.filter (owned_by a c) (db_mappings s)))) 0) as [H|H];
    [|done].
  exfalso. apply existsb_exists in Hex as (r & Hr & Hc).
  assert (In r (List.filter (owned_by a c) (db_mappings s))) as Hin by by apply filter_In.
  destruct (List.filter _ _); [done|]. simpl in H. lia.
Qed.

(** The state in which a copy's protection can be decided: the copy's mapping
    row exists and its org copies live. *)
Definition live_copy (targets : option (Z -> option (gmap Z string))) (org a mp : Z) (s : service) : Prop :=
  existsb (owned_by a (position_coid mp a)) (db_mappings (e_db (sv_engine s))) = true /\
  (exists o, org_row org (e_db (sv_engine s)) = Some o /\ org_copying_enabled o = true /\
             org_dry_run o = false) /\
  (forall tg, targets = Some tg -> tg a = None).

(** A market copy's fill, before anything was closed. *)
Definition copy_fill (a mp pos vol : Z) (f sl tp : price) : SlaveFill :=
  {| sf_account_id := a; sf_client_order_id := Some (position_coid mp a); sf_position_id := pos;
     sf_filled_volume := vol; sf_fill_price := f; sf_closed_volume := None; sf_label := "";
     sf_order_id := None; sf_stop_loss := sl; sf_take_profit := tp |}.

Definition with_db (d : db) (s : service) : service :=
  {| sv_engine := {| e_db := d; e_sends := e_sends (sv_engine s) |};
     sv_master_protection := sv_master_protection s; sv_checks := sv_checks s;
     sv_notified := sv_notified s; sv_amends := sv_amends s; sv_captured := sv_captured s |}.

Lemma on_repo_ok {A} (m : M db A) s d r :
  m (e_db (sv_engine s)) = (r, d) -> on_repo m s = (r, with_db d s).
Proof. intros H. unfold on_repo, on_engine, on_db. by rewrite H. Qed.

Lemma copy_fill_run targets outbox org a mp pos vol f sl tp s :
  existsb (owned_by a (position_coid mp a)) (db_mappings (e_db (sv_engine s))) = true ->
  exists s1,
    sv_master_protection s1 = sv_master_protection s /\
    e_sends (sv_engine s1) = e_sends (sv_engine s) /\
    db_orgs (e_db (sv_engine s1)) = db_orgs (e_db (sv_engine s)) /\
    handle_slave_fill targets outbox org (copy_fill a mp pos vol f sl tp) s =
      on_not_found (_protect_new_copy targets outbox a (Some (position_coid mp a)) pos org (sl, tp))
        (s_log "slave_action" Warning
          [("action", JStr "unknown_fill"); ("client_order_id", JStr (position_coid mp a));
           ("reason", JStr "No matching position mapping")] (Some a) (Some org)) s1.
Proof.
  intros Hex. destruct (activate_ok a (position_coid mp a) pos vol f _ Hex) as [Hv Ho].
  unfold value, exec in *.
  destruct (activate_position_mapping a (position_coid mp a) pos vol f (e_db (sv_engine s))) as [r d] eqn:E.
  simpl in Hv, Ho. subst r.
  pose proof (on_repo_ok _ s d _ E) as Hact.
  set (log := s_log "slave_action" Info
    [("action", JStr "position_filled"); ("client_order_id", JStr (position_coid mp a));
     ("slave_position_id", JInt pos); ("filled_volume", JInt vol); ("fill_price", JPrice f)] (Some a) (Some org)).
  exists (exec log (with_db d s)). split; [done|]. split; [done|]. split; [exact Ho|].
  unfold on_not_found, try_except.
  change (handle_slave_fill targets outbox org (copy_fill a mp pos vol f sl tp) s) with
    (on_not_found (on_repo (activate_position_mapping a (position_coid mp a) pos vol f) ;;; (log ;;;
       _protect_new_copy targets outbox a (Some (position_coid mp a)) pos org (sl, tp)))
       (s_log "slave_action" Warning
          [("action", JStr "unknown_fill"); ("client_order_id", JStr (position_coid mp a));
           ("reason", JStr "No matching position mapping")] (Some a) (Some org)) s).
  unfold on_not_found, try_except. rewrite (bind_ok _ _ _ _ _ Hact).
  rewrite (bind_ok log _ (with_db d s) tt (exec log (with_db d s)) eq_refl). done.
Qed.

(** A copy is protected the moment it exists.  When a market copy fills
    and its master position is known to carry a stop or target that the copy
    is not known to have, exactly one amendment with the master's levels is
    sent, to that copy, on that account; when the copy is known to carry the
    levels already, or its master has none, nothing is sent. *)
Theorem new_copy_gets_master_protection targets outbox org a mp pos vol f cur_sl cur_tp s :
  live_copy targets org a mp s ->
  e_sends (sv_engine (exec (handle_slave_fill targets outbox org (copy_fill a mp pos vol f cur_sl cur_tp)) s))
  = e_sends (sv_engine s) ++
    match od_get mp (sv_master_protection s) with
    | Some (sl, tp) => if _same_level sl cur_sl && _same_level tp cur_tp then []
                       else [amend_task a pos sl tp]
    | None => []
    end.
Proof.
  intros (Hex & (o & Ho & Hc & Hd) & Ht).
  destruct (copy_fill_run targets outbox org a mp pos vol f cur_sl cur_tp s Hex) as (s1 & Hm & Hs & Horg & Hrun).
  unfold exec. rewrite Hrun. unfold on_not_found, try_except, _protect_new_copy.
  rewrite master_position_of_coid. unfold bind, gets. rewrite Hm.
  destruct (od_get mp (sv_master_protection s)) as [[sl tp]|]; [|cbn; by rewrite Hs, app_nil_r].
  cbn [fst snd]. destruct (_same_level sl cur_sl && _same_level tp cur_tp); [cbn; by rewrite Hs, app_nil_r|].
  unfold try_except, s_dispatch, on_engine.
  assert (org_row org (e_db (sv_engine s1)) = Some o) as Ho1 by (unfold org_row in *; by rewrite Horg).
  pose proof (dispatch_amend targets outbox a pos sl tp org o (sv_engine s1) Ho1 Hc Hd Ht) as Hsend.
  unfold exec in Hsend. rewrite <-Hs, <-Hsend.
  destruct (dispatch _ _ _ _ _) as [[u|x] e']; done.
Qed.

(** Org 1 live, account 11's copy of master position 7 waiting for its fill,
    the master protected meanwhile. *)
Definition demo_waiting : service :=
  {| sv_engine := {| e_db := exec (create_position_mapping 7 11 "cm7.11" 1 None)
                               (e_db (demo_engine true false)); e_sends := [] |};
     sv_master_protection := [(7, (Some (px 10950), None))]; sv_checks := [];
     sv_notified := []; sv_amends := []; sv_captured := [] |}.

Lemma new_copy_gets_master_protection_witness :
  e_sends (sv_engine (exec (handle_slave_fill None None 1 (copy_fill 11 7 901 100 None None None)) demo_waiting))
  = [amend_task 11 901 (Some (px 10950)) None].
Proof.
  rewrite (new_copy_gets_master_protection None None 1 11 7 901 100 None None None demo_waiting).
  - vm_compute. reflexivity.
  - split; [vm_compute; reflexivity|]. split; [|intros tg Htg; discriminate Htg].
    exists (demo_org true false). split; [reflexivity|]. split; reflexivity.
Defined.

(** A partial close of the master forgets its protection.  Although the
    master position stays open (and protected) after a partial close, a copy
    of it that fills afterwards is sent no stop and no target. *)
Theorem partial_close_forgets_protection targets outbox org a mp pos vol f e s :
  live_copy targets org a mp s -> od_wf (sv_master_protection s) ->
  mpc_position_id e = mp -> 0 < mpc_remaining_volume e ->
  let s1 := exec (_remember_master_protection (EvPositionClosed e)) s in
  e_sends (sv_engine (exec (handle_slave_fill targets outbox org (copy_fill a mp pos vol f None None)) s1))
  = e_sends (sv_engine s).
Proof.
  intros (Hex & _ & _) Hwf <- _ s1.
  destruct (copy_fill_run targets outbox org a (mpc_position_id e) pos vol f None None s1 Hex)
    as (s2 & Hm & Hs & _ & Hrun).
  unfold exec. rewrite Hrun. unfold on_not_found, try_except, _protect_new_copy.
  rewrite master_position_of_coid. unfold bind, gets. rewrite Hm.
  assert (od_get (mpc_position_id e) (sv_master_protection s1) = None) as ->.
  { unfold s1; simpl. by rewrite od_get_pop, decide_True. }
  cbn. by rewrite Hs.
Qed.

Lemma partial_close_forgets_protection_witness :
  let e := {| mpc_position_id := 7; mpc_symbol_name := "EURUSD"; mpc_closed_volume := 10;
              mpc_remaining_volume := 90 |} in
  e_sends (sv_engine (exec (handle_slave_fill None None 1 (copy_fill 11 7 901 100 None None None))
    (exec (_remember_master_protection (EvPositionClosed e)) demo_waiting))) = [].
Proof.
  intros e. apply (partial_close_forgets_protection None None 1 11 7 901 100 None e demo_waiting).
  - split; [vm_compute; reflexivity|]. split; [|intros tg Htg; discriminate Htg].
    exists (demo_org true false). split; [reflexivity|]. split; reflexivity.
  - apply (bool_decide_eq_true_1 _). vm_compute. reflexivity.
  - reflexivity.
  - reflexivity.
Defined.

(** Two orgs copy live; org 1's account 11 waits for its copy of org 1's
    master position 7, which carries no protection. *)
Definition demo_two_orgs : service :=
  {| sv_engine := {| e_db := set_db_orgs
       [demo_org true false;
        {| org_id := 2; org_name := "other"; org_copying_enabled := true; org_dry_run := false;
           org_settings_version := 1 |}] (e_db (sv_engine demo_waiting)); e_sends := [] |};
     sv_master_protection := []; sv_checks := []; sv_notified := []; sv_amends := [];
     sv_captured := [] |}.

(** Protection crosses orgs.  The memory is keyed by the master position
    id alone, and ids repeat across accounts: after org 2's master sets a stop
    on its own position 7, org 1's copy of org 1's position 7, whose master
    has no stop, is sent org 2's stop when it fills. *)
Theorem protection_crosses_orgs :
  let amend := EvPositionSLTPAmended {| mpa_position_id := 7; mpa_stop_loss := Some (px 10950);
                                        mpa_take_profit := None |} in
  let s1 := exec (act_on_master_event None None true 2 2 amend "mt5" (Ok demo_routing)) demo_two_orgs in
  let s2 := exec (handle_slave_fill None None 1 (copy_fill 11 7 901 100 None None None)) s1 in
  e_sends (sv_engine s2) = [amend_task 11 901 (Some (px 10950)) None].
Proof. vm_compute. reflexivity. Qed.
