(* ===== verification/Reconcile.v ===== *)
(** * Reconciliation: [copier/engine/reconcile.py]

    [compute_drift] compares the broker's books with the mapping table in six
    checks; the [Reconciler] runs it, hides what the operator dismissed, logs
    what is new and offers the remedies.  [digest] stands for the first twelve
    hex digits of MD5: nothing here depends on which function it is.  Dicts
    keep their order, times are microseconds. *)

From S2P Require Import Prelude PyStr PyDecimal PyFloat Models Normalize Db Repo Protocol Outbox.
From S2P Require Import Dispatch.
From Stdlib Require Import Ascii.

(** ** Snapshots *)

Record PositionSnapshot := {
  psn_position_id : Z;
  psn_symbol_id : Z;
  psn_side : Side;
  psn_volume : Z;
  psn_price : float64;
  psn_label : string;
  psn_stop_loss : price;
  psn_take_profit : price
}.

Record OrderSnapshot := {
  osn_order_id : Z;
  osn_symbol_id : Z;
  osn_volume : Z;
  osn_label : string;
  osn_side : option Side;
  osn_order_type : option string;
  osn_price : price;
  osn_stop_loss : price;
  osn_take_profit : price
}.

Inductive drift_kind :=
  | orphan_slave_position | missing_slave_copy | unmapped_master_position
  | unfilled_slave_order | stale_pending_copy.
#[export] Instance drift_kind_eq_dec : EqDecision drift_kind.
Proof. solve_decision. Defined.

Definition kind_name (k : drift_kind) : string :=
  match k with
  | orphan_slave_position => "orphan_slave_position"
  | missing_slave_copy => "missing_slave_copy"
  | unmapped_master_position => "unmapped_master_position"
  | unfilled_slave_order => "unfilled_slave_order"
  | stale_pending_copy => "stale_pending_copy"
  end.

Record DriftItem := {
  di_id : string;
  di_kind : drift_kind;
  di_account_id : option Z;
  di_position_id : option Z;
  di_order_id : option Z;
  di_detail : string;
  di_volume : option Z
}.

Definition STALE_PENDING_AFTER_S : float64 := f_of_Z 300.

(** [str(None)] or [str(n)] *)
Definition str_opt (o : option Z) : string := match o with Some z => pretty z | None => "None" end.
Definition str_opt_s (o : option string) : string := match o with Some s => s | None => "None" end.

Definition _signed_volume (volume : Z) : string :=
  if volume =? 0 then "flat"
  else (if 0 <? volume then "BUY" else "SELL") +:+ " " +:+ pretty (Z.abs volume).

(** Truth of an [int | None] *)
Definition truthy (o : option Z) : bool := match o with Some z => negb (z =? 0) | None => false end.

Definition is_active (m : mapping_row) : bool := bool_decide (m_status m = Active).

(** ** The pure checks *)

Section compute_drift.
Context (digest : string -> string).

Definition _stable_id (parts : list string) : string := digest (str_join "|" parts).

Context (master_positions : list PositionSnapshot)
        (slave_positions : list (Z * list PositionSnapshot))
        (mappings : list mapping_row)
        (enabled_slave_ids : gset Z)
        (netting_slave_ids : gset Z)
        (sides : list (string * option Side)).

Definition master_open (mp : option Z) : bool :=
  match mp with
  | Some p => existsb (fun x => psn_position_id x =? p) master_positions
  | None => false
  end.

Definition holds_key (a p : Z) (m : mapping_row) : bool :=
  is_active m && truthy (m_slave_position_id m) && (m_slave_account_id m =? a) &&
  col_eqb (m_slave_position_id m) p.

(** [mappings_by_slave_pos.get((a, p))]: the last row wins *)
Definition mapping_for (a p : Z) : option mapping_row := List.find (holds_key a p) (rev mappings).

(** [slave_pos_by_account.get(a, {}).get(p)]: the last position wins *)
Definition slave_position (a p : Z) : option PositionSnapshot :=
  match od_get a slave_positions with
  | Some ps => List.find (fun x => psn_position_id x =? p) (rev ps)
  | None => None
  end.

(** *** Check 1 *)
Definition orphan_item (a p : Z) (detail : string) : DriftItem :=
  {| di_id := _stable_id ["orphan_slave_position"; pretty a; pretty p];
     di_kind := orphan_slave_position; di_account_id := Some a; di_position_id := Some p;
     di_order_id := None; di_detail := detail; di_volume := None |}.

Definition orphan_of (a : Z) (pos : PositionSnapshot) : option DriftItem :=
  if str_starts "copy:" (psn_label pos)
  then match mapping_for a (psn_position_id pos) with
       | Some m =>
           if master_open (m_master_position_id m) then None
           else Some (orphan_item a (psn_position_id pos)
                  ("Mapping exists but master position " +:+ str_opt (m_master_position_id m) +:+ " is gone"))
       | None => Some (orphan_item a (psn_position_id pos) "Labeled copy:* but no active mapping")
       end
  else None.

Definition check_orphans : list DriftItem :=
  mjoin ((fun ap : Z * list PositionSnapshot =>
    if bool_decide (ap.1 ∈ enabled_slave_ids) then omap (orphan_of ap.1) ap.2 else []) <$> slave_positions).

(** *** The tickets check 6 compares *)

(** [setdefault(key, []).append(m)] *)
Definition group_add (g : list ((Z * Z) * list mapping_row)) (m : mapping_row)
    : list ((Z * Z) * list mapping_row) :=
  match m_slave_position_id m with
  | Some p =>
      if is_active m && truthy (m_slave_position_id m) &&
         bool_decide (m_slave_account_id m ∈ netting_slave_ids)
      then od_set (m_slave_account_id m, p)
             (default [] (od_get (m_slave_account_id m, p) g) ++ [m]) g
      else g
  | None => g
  end.
Definition net_groups : list ((Z * Z) * list mapping_row) := fold_left group_add mappings [].

(** [sides.get(coid)] when it is a side *)
Definition side_of_copy (m : mapping_row) : option Side :=
  match m_client_order_id m with
  | Some c => match od_get c sides with Some (Some s) => Some s | _ => None end
  | None => None
  end.

Definition all_sided (rows : list mapping_row) : bool :=
  forallb (fun m => match side_of_copy m with Some _ => true | None => false end) rows.

Definition compared : list ((Z * Z) * list mapping_row) :=
  List.filter (fun g => all_sided g.2) net_groups.

Definition is_compared (a p : Z) : bool := existsb (fun g => bool_decide (g.1 = (a, p))) compared.

(** *** Check 2 *)
Definition missing_of (m : mapping_row) : option DriftItem :=
  match m_slave_position_id m with
  | Some p =>
      if is_active m && negb (m_slave_account_id m =? 0) && negb (p =? 0) &&
         bool_decide (m_slave_account_id m ∈ enabled_slave_ids) &&
         negb (is_compared (m_slave_account_id m) p) && master_open (m_master_position_id m)
      then match slave_position (m_slave_account_id m) p with
           | Some _ => None
           | None => Some
               {| di_id := _stable_id ["missing_slave_copy"; pretty (m_slave_account_id m); pretty p];
                  di_kind := missing_slave_copy; di_account_id := Some (m_slave_account_id m);
                  di_position_id := Some p; di_order_id := None;
                  di_detail := "Active mapping but slave position " +:+ pretty p +:+ " vanished";
                  di_volume := None |}
           end
      else None
  | None => None
  end.
Definition check_missing : list DriftItem := omap missing_of mappings.

(** *** Check 3 *)
Definition has_mapping (p : Z) : bool :=
  existsb (fun m => is_active m && truthy (m_master_position_id m) &&
                    col_eqb (m_master_position_id m) p) mappings.
Definition unmapped_of (pos : PositionSnapshot) : option DriftItem :=
  if has_mapping (psn_position_id pos) then None
  else Some {| di_id := _stable_id ["unmapped_master_position"; pretty (psn_position_id pos)];
               di_kind := unmapped_master_position; di_account_id := None;
               di_position_id := Some (psn_position_id pos); di_order_id := None;
               di_detail := "Master position " +:+ pretty (psn_position_id pos) +:+
                            " opened while copier was down";
               di_volume := None |}.
Definition check_unmapped : list DriftItem := omap unmapped_of master_positions.

(** *** Check 4 *)
Definition has_corresponding_position (m : mapping_row) : bool :=
  existsb (fun pos => str_contains ("copy:o" +:+ str_opt (m_master_order_id m)) (psn_label pos))
    (default [] (od_get (m_slave_account_id m) slave_positions)).
Definition unfilled_of (m : mapping_row) : option DriftItem :=
  match m_slave_order_id m with
  | Some o =>
      if is_active m && negb (m_slave_account_id m =? 0) && negb (o =? 0) &&
         truthy (m_master_position_id m) &&
         bool_decide (m_slave_account_id m ∈ enabled_slave_ids) &&
         negb (has_corresponding_position m)
      then Some {| di_id := _stable_id ["unfilled_slave_order"; pretty (m_slave_account_id m); pretty o];
                   di_kind := unfilled_slave_order; di_account_id := Some (m_slave_account_id m);
                   di_position_id := None; di_order_id := Some o;
                   di_detail := "Order mapping linked to master fill but no slave position materialized";
                   di_volume := None |}
      else None
  | None => None
  end.
Definition check_unfilled : list DriftItem := omap unfilled_of mappings.

(** *** Check 5 *)
Definition stale_detail (m : mapping_row) (age_s : float64) : string :=
  "Copy for master " +:+
  (if truthy (m_master_position_id m) then "position " +:+ str_opt (m_master_position_id m)
   else "order " +:+ str_opt (m_master_order_id m)) +:+
  " has been pending for " +:+ pretty (f_trunc age_s) +:+ "s and never activated " +:+
  "(client_order_id=" +:+ str_opt_s (m_client_order_id m) +:+ "); the slave may be " +:+
  "carrying no exposure for it".

Definition stale_of (now : Z) (after_s : float64) (m : mapping_row) : option DriftItem :=
  let age_s := timestamp (now - m_created_at m) in
  if bool_decide (m_status m = Pending) && bool_decide (m_slave_account_id m ∈ enabled_slave_ids) &&
     negb (fltb age_s after_s)
  then Some {| di_id := _stable_id ["stale_pending_copy"; pretty (m_slave_account_id m);
                                    str_opt_s (m_client_order_id m)];
               di_kind := stale_pending_copy; di_account_id := Some (m_slave_account_id m);
               di_position_id := m_master_position_id m; di_order_id := m_master_order_id m;
               di_detail := stale_detail m age_s; di_volume := None |}
  else None.
Definition check_stale (dry_run : bool) (now : Z) (after_s : float64) : list DriftItem :=
  if dry_run then [] else omap (stale_of now after_s) mappings.

(** *** Check 6 *)
Definition sign_of (s : Side) : Z := match s with BUY => 1 | SELL => -1 end.
Definition expected_net (rows : list mapping_row) : Z :=
  Zsum ((fun m => default 0 (m_slave_volume m) *
                  match side_of_copy m with Some s => sign_of s | None => -1 end) <$> rows).
Definition actual_net (a ticket : Z) : Z :=
  match slave_position a ticket with
  | Some pos => psn_volume pos * sign_of (psn_side pos)
  | None => 0
  end.
(** [1 if (expected or actual) > 0 else -1] *)
Definition direction (expected actual : Z) : Z :=
  if 0 <? (if expected =? 0 then actual else expected) then 1 else -1.

Definition net_detail (ticket actual expected short : Z) (rows : list mapping_row) : string :=
  "Netting position " +:+ pretty ticket +:+ " holds " +:+ _signed_volume actual +:+ " but its " +:+
  pretty (Z.of_nat (length rows)) +:+ " active cop" +:+
  (if (length rows =? 1)%nat then "y" else "ies") +:+ " sum to " +:+ _signed_volume expected +:+ " (" +:+
  (if 0 <? short then "short" else "excess") +:+ " " +:+ pretty (Z.abs short) +:+ " centilots)".

Definition net_of (g : (Z * Z) * list mapping_row) : option DriftItem :=
  let '((a, ticket), rows) := g in
  let expected := expected_net rows in
  let actual := actual_net a ticket in
  let short := Z.abs expected - actual * direction expected actual in
  if bool_decide (a ∈ enabled_slave_ids) && negb (actual =? expected)
  then Some {| di_id := _stable_id ["net_volume"; pretty a; pretty ticket];
               di_kind := if 0 <? short then missing_slave_copy else orphan_slave_position;
               di_account_id := Some a; di_position_id := Some ticket; di_order_id := None;
               di_detail := net_detail ticket actual expected short rows;
               di_volume := Some (Z.abs short) |}
  else None.

(** [sorted(compared)]: by account, then ticket *)
Definition ticket_le (g h : (Z * Z) * list mapping_row) : Prop :=
  g.1.1 < h.1.1 \/ (g.1.1 = h.1.1 /\ g.1.2 <= h.1.2).
#[export] Instance ticket_le_dec : RelDecision ticket_le.
Proof. intros g h. unfold ticket_le. apply _. Defined.

Definition check_net : list DriftItem := omap net_of (merge_sort ticket_le compared).

(** [sort(key=lambda item: item.id)] *)
Definition id_le (i j : DriftItem) : Prop := String.leb (di_id i) (di_id j) = true.
#[export] Instance id_le_dec : RelDecision id_le.
Proof. intros i j. unfold id_le. apply _. Defined.

Definition all_drift (dry_run : bool) (now : Z) (after_s : float64) : list DriftItem :=
  check_orphans ++ check_missing ++ check_unmapped ++ check_unfilled ++
  check_stale dry_run now after_s ++ check_net.

Definition compute_drift (dry_run : bool) (now : Z) (after_s : float64) : list DriftItem :=
  merge_sort id_le (all_drift dry_run now after_s).
End compute_drift.

(** ** The reconciler *)

Record reconciler := {
  rec_engine : engine;
  rec_current : list DriftItem;
  rec_dismissed : gset string;
  rec_slave_positions : list (Z * list PositionSnapshot);
  rec_master_positions : list PositionSnapshot;
  rec_master_orders : list OrderSnapshot
}.

Definition r_engine {A} (m : M engine A) : M reconciler A :=
  fun r => match m (rec_engine r) with
           | (x, e) => (x, {| rec_engine := e; rec_current := rec_current r;
                              rec_dismissed := rec_dismissed r;
                              rec_slave_positions := rec_slave_positions r;
                              rec_master_positions := rec_master_positions r;
                              rec_master_orders := rec_master_orders r |})
           end.
Definition r_repo {A} (m : M db A) : M reconciler A := r_engine (on_db m).

Definition set_current (items : list DriftItem) (r : reconciler) : reconciler :=
  {| rec_engine := rec_engine r; rec_current := items; rec_dismissed := rec_dismissed r;
     rec_slave_positions := rec_slave_positions r; rec_master_positions := rec_master_positions r;
     rec_master_orders := rec_master_orders r |}.
Definition set_dismissed (d : gset string) (r : reconciler) : reconciler :=
  {| rec_engine := rec_engine r; rec_current := rec_current r; rec_dismissed := d;
     rec_slave_positions := rec_slave_positions r; rec_master_positions := rec_master_positions r;
     rec_master_orders := rec_master_orders r |}.
Definition set_master_book (ps : list PositionSnapshot) (os : list OrderSnapshot) (r : reconciler) : reconciler :=
  {| rec_engine := rec_engine r; rec_current := rec_current r; rec_dismissed := rec_dismissed r;
     rec_slave_positions := rec_slave_positions r; rec_master_positions := ps; rec_master_orders := os |}.
Definition set_slave_book (b : list (Z * list PositionSnapshot)) (r : reconciler) : reconciler :=
  {| rec_engine := rec_engine r; rec_current := rec_current r; rec_dismissed := rec_dismissed r;
     rec_slave_positions := b; rec_master_positions := rec_master_positions r;
     rec_master_orders := rec_master_orders r |}.

Section Reconciler.
Context (digest : string -> string).
Context (mt5_targets : option (Z -> option (gmap Z string)))
        (mt5_outbox : option (Z -> option margin_mode)).
Context (master_account_id org_id : Z).

(** [Reconciler(...)]: the dismissals come from the database. *)
Definition rec_init (e : engine) : reconciler :=
  {| rec_engine := e; rec_current := [];
     rec_dismissed := match value (load_drift_dismissals org_id) (e_db e) with Ok d => d | Raise _ => ∅ end;
     rec_slave_positions := []; rec_master_positions := []; rec_master_orders := [] |}.

Definition _apply_dismissals (items : list DriftItem) : M reconciler (list DriftItem) :=
  let! before := gets rec_dismissed in
  let kept := before ∩ list_to_set (di_id <$> items) in
  modify (set_dismissed kept) ;;;
  (if (size kept =? size before)%nat then ret tt
   else r_repo (prune_drift_dismissals org_id kept)) ;;;
  ret (List.filter (fun i => negb (bool_decide (di_id i ∈ kept))) items).

Definition drift_payload (i : DriftItem) : payload :=
  [("drift_kind", JStr (kind_name (di_kind i))); ("position_id", JOptInt (di_position_id i));
   ("order_id", JOptInt (di_order_id i)); ("detail", JStr (di_detail i))].

Definition log_new (items : list DriftItem) : M reconciler unit :=
  let! current := gets rec_current in
  for_each (fun i =>
    if bool_decide (di_id i ∈ di_id <$> current) then ret tt
    else r_repo (log_event "drift" Warning (drift_payload i) (di_account_id i) (Some org_id))) items.

(** [mapping_side] of every active copy of a netting follower *)
Definition load_sides (netting_ids : gset Z) (mappings : list mapping_row)
    : M reconciler (list (string * option Side)) :=
  gets (fun r => od_of_list (omap (fun m =>
    match m_client_order_id m with
    | None | Some "" => None
    | Some c =>
        if is_active m && bool_decide (m_slave_account_id m ∈ netting_ids)
        then match value (mapping_side c) (e_db (rec_engine r)) with
             | Ok s => Some (c, s)
             | Raise _ => None
             end
        else None
    end) mappings)).

(** Fetching the slaves one after the other; the first failure ends it. *)
Fixpoint fetch_all (fetch : Z -> result (list PositionSnapshot * list OrderSnapshot)) (ids : list Z)
    : result (list (Z * list PositionSnapshot)) :=
  match ids with
  | [] => Ok []
  | a :: ids' => let? po := fetch a in
                 let? rest := fetch_all fetch ids' in
                 Ok ((a, po.1) :: rest)
  end.

(** One pass, with what the accounts answered.  [netting_slaves] is the MT5
    lane's answer ([None]: no lane). *)
Definition run (fetch : Z -> result (list PositionSnapshot * list OrderSnapshot))
    (netting_slaves : option (gset Z)) : M reconciler (list DriftItem) :=
  let! accounts := r_repo load_accounts in
  let own := List.filter (fun a => acc_org_id a =? org_id) accounts in
  let slave_ids := acc_account_id <$>
    List.filter (fun a => bool_decide (acc_role a = RoleSlave) && acc_enabled a) own in
  let enabled_slave_ids : gset Z := list_to_set slave_ids in
  let! master := lift_result (fetch master_account_id) in
  modify (set_master_book master.1 master.2) ;;;
  let! slave_positions := lift_result (fetch_all fetch (elements enabled_slave_ids)) in
  modify (set_slave_book slave_positions) ;;;
  let! mappings := r_repo (mapping_rows (Some org_id)) in
  let! dry_run := try_except (let! o := r_repo (get_org org_id) in ret (org_dry_run o))
                             (fun _ => ret false) in
  let netting_ids := match netting_slaves with Some n => n ∩ enabled_slave_ids | None => ∅ end in
  let! sides := load_sides netting_ids mappings in
  let! now := r_repo (gets db_now) in
  let! items := _apply_dismissals
    (compute_drift digest master.1 slave_positions mappings enabled_slave_ids netting_ids sides
       dry_run now STALE_PENDING_AFTER_S) in
  log_new items ;;;
  modify (set_current items) ;;;
  ret items.

(** ** The remedies *)

Definition _find_current_item (item_id : string) (r : reconciler) : option DriftItem :=
  List.find (fun i => bool_decide (di_id i = item_id)) (rec_current r).

Definition _lookup_slave_volume (account_id position_id : Z) : M reconciler (option Z) :=
  gets (fun r =>
    match slave_position (rec_slave_positions r) account_id position_id with
    | Some snap => Some (psn_volume snap)
    | None =>
        match List.find (fun m => (m_slave_account_id m =? account_id) &&
                                  col_eqb (m_slave_position_id m) position_id && is_active m)
                (List.filter (fun m => m_org_id m =? org_id) (db_mappings (e_db (rec_engine r)))) with
        | Some m => m_slave_volume m
        | None => None
        end
    end).

(** The item a remedy may act on, or the error its Deferred fails with. *)
Definition orphan_target (item_id : string) : M reconciler (DriftItem * Z * Z) :=
  let! found := gets (_find_current_item item_id) in
  match found with
  | None => raise (ValueError ("Drift item " +:+ item_id +:+ " not found"))
  | Some item =>
      if negb (bool_decide (di_kind item = orphan_slave_position))
      then raise (ValueError ("Item " +:+ item_id +:+ " is not an orphan_slave_position"))
      else match di_account_id item, di_position_id item with
           | Some a, Some p =>
               if (a =? 0) || (p =? 0)
               then raise (ValueError ("Item " +:+ item_id +:+ " missing account_id or position_id"))
               else ret (item, a, p)
           | _, _ => raise (ValueError ("Item " +:+ item_id +:+ " missing account_id or position_id"))
           end
  end.

Definition no_volume (p : Z) : exn :=
  ValueError ("Could not determine volume for position " +:+ pretty p).

Definition close_orphan (item_id : string) : M reconciler unit :=
  let! t := orphan_target item_id in
  let '(item, a, p) := t in
  let! volume := if truthy (di_volume item) then ret (di_volume item) else _lookup_slave_volume a p in
  match volume with
  | Some v =>
      if v =? 0 then raise (no_volume p)
      else r_engine (dispatch mt5_targets mt5_outbox
             [IClosePosition {| cp_slave_account_id := a; cp_position_id := p; cp_volume := v;
                                cp_master_position_id := None |}] org_id)
  | None => raise (no_volume p)
  end.

Definition adopt (item_id : string) (master_position_id : Z) : M reconciler unit :=
  let! t := orphan_target item_id in
  let '(item, a, p) := t in
  let! volume := _lookup_slave_volume a p in
  match volume with
  | Some v =>
      if v =? 0 then raise (no_volume p)
      else r_repo (adopt_position_mapping master_position_id a p v org_id)
  | None => raise (no_volume p)
  end.

Definition dismiss (item_id : string) : M reconciler unit :=
  let! found := gets (_find_current_item item_id) in
  match found with
  | None => raise (ValueError ("Drift item " +:+ item_id +:+ " not found"))
  | Some item =>
      r_repo (log_event "drift" Info (("action", JStr "dismissed") :: drift_payload item)
                (di_account_id item) (Some org_id)) ;;;
      r_repo (save_drift_dismissal org_id item_id) ;;;
      modify (fun r => set_dismissed ({[item_id]} ∪ rec_dismissed r) r) ;;;
      modify (fun r => set_current (List.filter (fun i => negb (bool_decide (di_id i = item_id)))
                                      (rec_current r)) r)
  end.
End Reconciler.
