(* ===== verification/ReconcileFacts.v ===== *)
(** * Facts about reconciliation

    No report means the books agree, the net-volume check names the exact
    difference, a pass only reports, and dismissals survive a restart. *)

From S2P Require Import Prelude PyStr PyDecimal PyFloat Models Normalize Db Repo RepoFacts Protocol.
From S2P Require Import Outbox Dispatch DispatchFacts Service ServiceFacts Reconcile.

(** ** Silence means in sync *)

Lemma omap_nil {A B} (f : A -> option B) (l : list A) :
  omap f l = [] <-> forall x, x ∈ l -> f x = None.
Proof.
  induction l as [|x l IH]; csimpl; [set_solver|].
  destruct (f x) eqn:E; split.
  - done.
  - intros H. rewrite H in E by set_solver. done.
  - rewrite IH. intros H y [->|Hy]%elem_of_cons; auto.
  - intros H. apply IH. intros y Hy. apply H. set_solver.
Qed.

Lemma merge_sort_nil {A} (R : A -> A -> Prop) `{!RelDecision R} (l : list A) :
  merge_sort R l = [] <-> l = [].
Proof.
  split; [|by intros ->]. intros H. pose proof (merge_sort_Permutation R l) as HP. rewrite H in HP.
  by apply Permutation_nil_l in HP.
Qed.

Lemma mjoin_nil {A} (ls : list (list A)) : mjoin ls = [] <-> forall l, l ∈ ls -> l = [].
Proof.
  induction ls as [|l ls IH]; csimpl; [set_solver|]. split.
  - intros H. assert (l = [] /\ mjoin ls = []) as [-> Hl] by (apply app_nil; exact H).
    intros l' [->|Hl']%elem_of_cons; [done|]. by apply IH.
  - intros H. rewrite (H l) by set_solver. simpl. apply IH. intros l' Hl'. apply H. set_solver.
Qed.

Lemma find_none_iff {A} (f : A -> bool) (l : list A) :
  List.find f l = None <-> forall x, x ∈ l -> f x = false.
Proof.
  split; [|induction l as [|y l IH]; csimpl; [done|]].
  - intros H x Hx. eapply List.find_none; [exact H|]. by apply list_elem_of_In.
  - intros H. rewrite (H y) by set_solver. apply IH. intros x Hx. apply H. set_solver.
Qed.

Lemma elem_of_rev {A} (l : list A) (x : A) : x ∈ rev l <-> x ∈ l.
Proof. by rewrite !list_elem_of_In, <-in_rev. Qed.

(** The last element of [l] that passes [f]. *)
Lemma find_rev_last {A} (f : A -> bool) (l : list A) (x : A) :
  List.find f (rev l) = Some x <->
  exists pre post, l = pre ++ x :: post /\ f x = true /\ forall y, y ∈ post -> f y = false.
Proof.
  induction l as [|y l IH] using rev_ind; csimpl.
  { split; [done|]. by intros ([|? ?] & post & ? & _). }
  rewrite rev_app_distr. csimpl. destruct (f y) eqn:E.
  - split.
    + intros [= <-]. exists l, []. split; [done|]. split; [done|]. set_solver.
    + intros (pre & post & Hl & Hx & Hpost). destruct post as [|z post _] using rev_ind.
      * by apply app_inj_tail in Hl as [_ ->].
      * rewrite app_comm_cons, app_assoc in Hl. apply app_inj_tail in Hl as [_ ->].
        rewrite Hpost in E by set_solver. done.
  - rewrite IH. split.
    + intros (pre & post & -> & Hx & Hpost). exists pre, (post ++ [y]).
      rewrite <-app_assoc. split; [done|]. split; [done|].
      intros z [Hz | ->%list_elem_of_singleton]%elem_of_app; auto.
    + intros (pre & post & Hl & Hx & Hpost). destruct post as [|z post _] using rev_ind.
      * apply app_inj_tail in Hl as [_ ->]. congruence.
      * rewrite app_comm_cons, app_assoc in Hl. apply app_inj_tail in Hl as [-> _].
        exists pre, post. split; [done|]. split; [done|]. intros; apply Hpost. set_solver.
Qed.

Lemma str_contains_spec p s :
  str_contains p s = true <-> exists before after, s = before +:+ (p +:+ after).
Proof.
  induction s as [|c s IH]; simpl; rewrite orb_true_iff, str_starts_spec.
  - split; [|intros (b & a & H); left; exists a; destruct b; [exact H|done]].
    intros [[a ->]|?]; [|done]. by exists "", a.
  - rewrite IH. split.
    + intros [[a H]|(b & a & ->)]; [exists "", a; exact H|]. by exists (String c b), a.
    + intros (b & a & H). destruct b as [|c' b]; simpl in H; [left; by exists a|].
      right. injection H as _ ->. exists b, a. reflexivity.
Qed.

Section sync.
Context (digest : string -> string).
Context (master_positions : list PositionSnapshot) (slave_positions : list (Z * list PositionSnapshot))
        (mappings : list mapping_row) (enabled netting : gset Z) (sides : list (string * option Side)).
Context (dry_run : bool) (now : Z) (after_s : float64).

(** *** What the books say, read off the data *)

(** The master holds position [p]. *)
Definition master_holds (p : Z) : Prop :=
  exists pos, pos ∈ master_positions /\ psn_position_id pos = p.

(** Slave [a] holds [pos]. *)
Definition slave_holds (a : Z) (pos : PositionSnapshot) : Prop :=
  exists ps, (a, ps) ∈ slave_positions /\ pos ∈ ps.

(** Row [m] says that ticket [p] of account [a] is a copy. *)
Definition copies_to (a p : Z) (m : mapping_row) : Prop :=
  m_status m = Active /\ m_slave_account_id m = a /\ m_slave_position_id m = Some p /\ p <> 0.

#[local] Instance copies_to_dec a p m : Decision (copies_to a p m).
Proof. unfold copies_to. apply _. Defined.

(** The latest row that says so. *)
Definition latest_copy (a p : Z) (m : mapping_row) : Prop :=
  exists pre post, mappings = pre ++ m :: post /\ copies_to a p m /\
    forall m', m' ∈ post -> ~ copies_to a p m'.

(** The side the repository derives for the copy [m]. *)
Definition copy_side (m : mapping_row) (s : Side) : Prop :=
  exists c, m_client_order_id m = Some c /\ od_get c sides = Some (Some s).

(** The volumes of ticket [p]'s copies on one side. *)
Definition copied (a p : Z) (s : Side) : Z :=
  Zsum ((fun m => default 0 (m_slave_volume m)) <$>
    filter (fun m => (c ← m_client_order_id m; mjoin (od_get c sides)) = Some s) (filter (copies_to a p) mappings)).

(** A netting follower's ticket whose copies' sides are all known. *)
Definition net_ticket (a p : Z) : Prop :=
  a ∈ netting /\ (exists m, m ∈ mappings /\ copies_to a p m) /\
  forall m, m ∈ mappings -> copies_to a p m -> exists s, copy_side m s.

(** Ticket [p] of slave [a] is [n] long ([- n] short); flat when it is not there. *)
Definition net_held (a p n : Z) : Prop :=
  (exists pos, slave_holds a pos /\ psn_position_id pos = p /\
     n = match psn_side pos with BUY => psn_volume pos | SELL => - psn_volume pos end) \/
  ((forall pos, slave_holds a pos -> psn_position_id pos <> p) /\ n = 0).

(** The books agree, as far as the report compares them:
    - every [copy:] position of an enabled slave has an active mapping row, and
      the latest of them names an open master position;
    - the slave position named by an active row of an open master position is
      there (tickets compared by net volume apart);
    - every open master position has an active row;
    - for every active order row linked to a master fill the slave holds a
      position whose label contains [copy:o] and the master order's number;
    - outside dry run, no row has been pending for [after_s] seconds or more;
    - a netting follower's ticket holds what its copies bought less what they
      sold. *)
Record in_sync : Prop := {
  sync_copies : forall a pos, a ∈ enabled -> slave_holds a pos ->
    (exists rest, psn_label pos = "copy:" +:+ rest) ->
    exists m p, latest_copy a (psn_position_id pos) m /\ m_master_position_id m = Some p /\ master_holds p;
  sync_mappings : forall a p m mp, a ∈ enabled -> a <> 0 -> m ∈ mappings -> copies_to a p m ->
    ~ net_ticket a p -> m_master_position_id m = Some mp -> master_holds mp ->
    exists pos, slave_holds a pos /\ psn_position_id pos = p;
  sync_masters : forall pos, pos ∈ master_positions ->
    exists m, m ∈ mappings /\ m_status m = Active /\
      m_master_position_id m = Some (psn_position_id pos) /\ psn_position_id pos <> 0;
  sync_orders : forall m o mp, m ∈ mappings -> m_status m = Active -> m_slave_account_id m ∈ enabled ->
    m_slave_account_id m <> 0 -> m_slave_order_id m = Some o -> o <> 0 ->
    m_master_position_id m = Some mp -> mp <> 0 ->
    exists pos before after, slave_holds (m_slave_account_id m) pos /\
      psn_label pos = before +:+ (("copy:o" +:+ str_opt (m_master_order_id m)) +:+ after);
  sync_pending : dry_run = false -> forall m, m ∈ mappings -> m_status m = Pending ->
    m_slave_account_id m ∈ enabled -> fltb (timestamp (now - m_created_at m)) after_s = true;
  sync_net : forall a p, a ∈ enabled -> net_ticket a p -> net_held a p (copied a p BUY - copied a p SELL)
}.

(** The broker's books: one list of positions per account, one position per
    ticket. *)
Record well_booked : Prop := {
  booked_accounts : od_wf slave_positions;
  booked_tickets : forall a ps, (a, ps) ∈ slave_positions -> NoDup (psn_position_id <$> ps)
}.

(** *** The code's indexes say the same *)

Lemma master_open_spec mp :
  master_open master_positions mp = true <-> exists p, mp = Some p /\ master_holds p.
Proof.
  unfold master_open, master_holds. destruct mp as [p|]; [|split; [done|]; by intros (? & ? & _)].
  rewrite existsb_exists. split.
  - intros (x & Hx%list_elem_of_In & E%Z.eqb_eq). exists p. eauto.
  - intros (? & [= <-] & x & Hx%list_elem_of_In & <-). exists x. by rewrite Z.eqb_refl.
Qed.

Lemma holds_key_spec a p m : holds_key a p m = true <-> copies_to a p m.
Proof.
  unfold holds_key, copies_to, is_active, col_eqb, truthy. rewrite !andb_true_iff, !bool_decide_eq_true, Z.eqb_eq.
  destruct (m_slave_position_id m) as [q|]; [|naive_solver].
  rewrite negb_true_iff, Z.eqb_neq. naive_solver.
Qed.

Lemma holds_key_false a p m : holds_key a p m = false <-> ~ copies_to a p m.
Proof. rewrite <-holds_key_spec. by destruct (holds_key a p m). Qed.

Lemma mapping_for_spec a p m : mapping_for mappings a p = Some m <-> latest_copy a p m.
Proof.
  unfold mapping_for, latest_copy. rewrite find_rev_last.
  setoid_rewrite holds_key_spec. by setoid_rewrite holds_key_false.
Qed.

Lemma slave_position_none a p :
  slave_position slave_positions a p = None <->
  forall ps, od_get a slave_positions = Some ps -> forall pos, pos ∈ ps -> psn_position_id pos <> p.
Proof.
  unfold slave_position. destruct (od_get a slave_positions) as [ps|]; [|naive_solver].
  rewrite find_none_iff. setoid_rewrite (elem_of_rev ps). setoid_rewrite Z.eqb_neq. naive_solver.
Qed.

Context (Hbooks : well_booked).

Lemma slave_holds_get a pos :
  slave_holds a pos <-> exists ps, od_get a slave_positions = Some ps /\ pos ∈ ps.
Proof.
  unfold slave_holds. split; intros (ps & H & ?); exists ps; (split; [|done]).
  - by apply od_get_in; [apply Hbooks|].
  - by apply od_get_Some_in.
Qed.

Lemma slave_position_spec a p pos :
  slave_position slave_positions a p = Some pos <-> slave_holds a pos /\ psn_position_id pos = p.
Proof.
  rewrite slave_holds_get. unfold slave_position. destruct (od_get a slave_positions) as [ps|] eqn:E; [|naive_solver].
  apply od_get_Some_in, Hbooks in E. rewrite find_rev_last. setoid_rewrite Z.eqb_eq. split.
  - intros (pre & post & -> & Hp & _). split; [|done]. exists (pre ++ pos :: post). split; [done|]. set_solver.
  - intros [(ps' & [= <-] & (pre & post & ->)%list_elem_of_split) Hp]. exists pre, post. split; [done|].
    split; [done|]. intros y Hy. apply Z.eqb_neq. intros Hy'.
    rewrite fmap_app, fmap_cons, NoDup_app, NoDup_cons in E. destruct E as (_ & _ & Hnin & _).
    apply Hnin. rewrite Hp, <-Hy'. by apply list_elem_of_fmap_2.
Qed.

Lemma slave_position_absent a p :
  slave_position slave_positions a p = None <-> forall pos, slave_holds a pos -> psn_position_id pos <> p.
Proof.
  rewrite slave_position_none. setoid_rewrite slave_holds_get. naive_solver.
Qed.

Lemma has_mapping_spec p :
  has_mapping mappings p = true <->
  exists m, m ∈ mappings /\ m_status m = Active /\ m_master_position_id m = Some p /\ p <> 0.
Proof.
  unfold has_mapping. rewrite existsb_exists. setoid_rewrite <-list_elem_of_In.
  unfold is_active, col_eqb, truthy. setoid_rewrite andb_true_iff. setoid_rewrite andb_true_iff.
  setoid_rewrite bool_decide_eq_true.
  split; intros (m & Hm & H); exists m; (split; [done|]);
    destruct (m_master_position_id m); rewrite ?negb_true_iff, ?Z.eqb_neq in *; naive_solver.
Qed.

Lemma corresponding_spec m :
  has_corresponding_position slave_positions m = true <->
  exists pos before after, slave_holds (m_slave_account_id m) pos /\
    psn_label pos = before +:+ (("copy:o" +:+ str_opt (m_master_order_id m)) +:+ after).
Proof.
  unfold has_corresponding_position. rewrite existsb_exists. setoid_rewrite <-list_elem_of_In.
  setoid_rewrite str_contains_spec. setoid_rewrite slave_holds_get.
  destruct (od_get (m_slave_account_id m) slave_positions); simpl; [naive_solver|set_solver].
Qed.

(** *** The tickets compared by net volume *)

Lemma side_of_copy_spec m s : side_of_copy sides m = Some s <-> copy_side m s.
Proof.
  unfold side_of_copy, copy_side. destruct (m_client_order_id m) as [c|]; [|naive_solver].
  split; [|by intros (? & [= <-] & ->)]. intros H. exists c. split; [done|].
  destruct (od_get c sides) as [[?|]|]; by simplify_eq.
Qed.

Lemma side_of_copy_bind m : side_of_copy sides m = (c ← m_client_order_id m; mjoin (od_get c sides)).
Proof.
  unfold side_of_copy. destruct (m_client_order_id m) as [c|]; simpl; [|done].
  by destruct (od_get c sides) as [[?|]|].
Qed.

Lemma groups_wf ms : od_wf (fold_left (group_add netting) ms []).
Proof.
  induction ms as [|m ms IH] using rev_ind; [apply NoDup_nil_2|].
  rewrite fold_left_app. simpl. unfold group_add at 1.
  repeat case_match; auto using od_wf_set.
Qed.

(** A ticket's group is its copies, in table order. *)
Lemma groups_get a p ms :
  od_get (a, p) (fold_left (group_add netting) ms []) =
  if decide (a ∈ netting) then
    match filter (copies_to a p) ms with [] => None | l => Some l end
  else None.
Proof.
  induction ms as [|m ms IH] using rev_ind; [by case_decide|].
  rewrite fold_left_app, filter_app. simpl. unfold group_add at 1.
  destruct (m_slave_position_id m) as [q|] eqn:Eq.
  2: { rewrite IH, filter_cons_False, filter_nil, app_nil_r; [done|]. unfold copies_to. naive_solver. }
  destruct (is_active m && truthy (Some q) && bool_decide (m_slave_account_id m ∈ netting)) eqn:E.
  - rewrite !andb_true_iff in E. destruct E as [[Hact Hq] Hin]. apply bool_decide_eq_true in Hact, Hin.
    simpl in Hq. bsimp. rewrite od_get_set.
    destruct (decide ((a, p) = (m_slave_account_id m, q))) as [Hk|Hk].
    + injection Hk as -> ->. rewrite IH, !(decide_True (P := m_slave_account_id m ∈ netting)) by done.
      rewrite filter_cons_True, filter_nil by done.
      by destruct (filter _ ms).
    + rewrite IH, filter_cons_False, filter_nil, app_nil_r; [done|]. unfold copies_to. naive_solver.
  - rewrite IH. case_decide as Hn; [|done].
    rewrite filter_cons_False, filter_nil, app_nil_r; [done|].
    intros (Hact & <- & Hp & Hp0). rewrite Eq in Hp. simplify_eq.
    rewrite andb_false_iff, andb_false_iff in E. unfold is_active in E. rewrite !bool_decide_eq_false in E.
    simpl in E. rewrite negb_false_iff, Z.eqb_eq in E. naive_solver.
Qed.

Lemma compared_spec a p rows :
  ((a, p), rows) ∈ compared mappings netting sides <->
  net_ticket a p /\ rows = filter (copies_to a p) mappings.
Proof.
  unfold compared, net_groups. rewrite list_elem_of_In, List.filter_In, <-list_elem_of_In. simpl.
  assert (((a, p), rows) ∈ fold_left (group_add netting) mappings [] <->
          od_get (a, p) (fold_left (group_add netting) mappings []) = Some rows) as ->.
  { split; [apply od_get_in, groups_wf|apply od_get_Some_in]. }
  rewrite groups_get. unfold all_sided, net_ticket. rewrite forallb_forall.
  setoid_rewrite <-list_elem_of_In.
  assert (forall m, m ∈ mappings -> copies_to a p m <-> m ∈ filter (copies_to a p) mappings) as Hf.
  { intros m Hm. rewrite list_elem_of_filter. naive_solver. }
  case_decide as Hn; [|naive_solver].
  split.
  - intros [Hrows Hs].
    assert (rows = filter (copies_to a p) mappings /\ rows <> []) as [-> Hne] by (destruct (filter _ mappings); naive_solver).
    split; [|done]. split; [done|]. split.
    + destruct (filter (copies_to a p) mappings) as [|m l] eqn:El; [done|]. exists m.
      assert (m ∈ filter (copies_to a p) mappings) as Hm by (rewrite El; set_solver).
      apply list_elem_of_filter in Hm. naive_solver.
    + intros m Hm Hc. specialize (Hs m ltac:(by apply Hf)). destruct (side_of_copy sides m) as [s|] eqn:E; [|done].
      exists s. by apply side_of_copy_spec.
  - intros [(_ & (m & Hm & Hc) & Hall) ->]. split.
    + apply Hf in Hc; [|done]. destruct (filter (copies_to a p) mappings); set_solver.
    + intros m' [Hc' Hm']%list_elem_of_filter. destruct (Hall m' Hm' Hc') as [s Hs%side_of_copy_spec]. by rewrite Hs.
Qed.

Lemma is_compared_spec a p : is_compared mappings netting sides a p = true <-> net_ticket a p.
Proof.
  unfold is_compared. rewrite existsb_exists. setoid_rewrite <-list_elem_of_In. split.
  - intros ([[a' p'] rows] & H & E%bool_decide_eq_true). simpl in E. simplify_eq. by apply compared_spec in H as [? _].
  - intros H. exists ((a, p), filter (copies_to a p) mappings). split; [by apply compared_spec|].
    by apply bool_decide_eq_true.
Qed.

Lemma expected_copied a p :
  net_ticket a p ->
  expected_net sides (filter (copies_to a p) mappings) = copied a p BUY - copied a p SELL.
Proof.
  intros (_ & _ & Hall). unfold expected_net, copied.
  assert (forall m, m ∈ filter (copies_to a p) mappings -> is_Some (side_of_copy sides m)) as Hs.
  { intros m [Hc Hm]%list_elem_of_filter. destruct (Hall m Hm Hc) as [s Hs%side_of_copy_spec]. by exists s. }
  clear Hall. induction (filter (copies_to a p) mappings) as [|m l IH]; [done|].
  specialize (IH ltac:(intros; apply Hs; set_solver)). destruct (Hs m) as [s Es]; [set_solver|].
  rewrite fmap_cons, Zsum_cons, IH, !filter_cons, <-side_of_copy_bind, Es.
  destruct s; csimpl; rewrite ?Zsum_cons; lia.
Qed.

Lemma actual_held a p n : actual_net slave_positions a p = n <-> net_held a p n.
Proof.
  unfold actual_net, net_held. destruct (slave_position slave_positions a p) as [pos|] eqn:E.
  - pose proof (proj1 (slave_position_spec a p pos) E) as [Hpos Hp]. split.
    + intros <-. left. exists pos. split; [done|]. split; [done|]. destruct (psn_side pos); simpl; lia.
    + intros [(pos' & Hpos' & Hp' & ->)|[H _]]; [|by destruct (H pos)].
      assert (slave_position slave_positions a p = Some pos') as E' by (by apply slave_position_spec).
      rewrite E in E'. simplify_eq. destruct (psn_side pos'); simpl; lia.
  - pose proof (proj1 (slave_position_absent a p) E) as H. split; [intros <-; by right|].
    intros [(pos & Hpos & Hp & _)|[_ ->]]; [by destruct (H pos)|done].
Qed.

(** *** The six checks *)

Lemma orphans_nil :
  check_orphans digest master_positions slave_positions mappings enabled = [] <->
  forall a pos, a ∈ enabled -> slave_holds a pos -> (exists rest, psn_label pos = "copy:" +:+ rest) ->
    exists m p, latest_copy a (psn_position_id pos) m /\ m_master_position_id m = Some p /\ master_holds p.
Proof.
  assert (forall a pos, orphan_of digest master_positions mappings a pos = None <->
    ((exists rest, psn_label pos = "copy:" +:+ rest) ->
     exists m p, latest_copy a (psn_position_id pos) m /\ m_master_position_id m = Some p /\ master_holds p)) as Hof.
  { intros a pos. unfold orphan_of. rewrite <-str_starts_spec.
    destruct (str_starts _ _); [|split; [done|done]].
    setoid_rewrite <-mapping_for_spec. destruct (mapping_for _ _ _) as [m|].
    - pose proof (master_open_spec (m_master_position_id m)) as Ho.
      destruct (master_open _ _).
      + split; [|done]. intros _ _. destruct (proj1 Ho eq_refl) as (p & ? & ?). eauto.
      + split; [done|]. intros H. destruct (H eq_refl) as (m' & p & [= <-] & Hp). exfalso. by discriminate (proj2 Ho (ex_intro _ p Hp)).
    - split; [done|]. intros H. by destruct (H eq_refl) as (? & ? & ? & _). }
  unfold check_orphans. rewrite mjoin_nil. split.
  - intros H a pos Ha (ps & Hin & Hpos). apply Hof.
    eapply omap_nil; [|exact Hpos]. apply H. apply list_elem_of_fmap.
    exists (a, ps). split; [|done]. simpl. by rewrite bool_decide_true.
  - intros H l ([a ps] & -> & Hin)%list_elem_of_fmap. simpl. case_bool_decide as Ha; [|done].
    apply omap_nil. intros pos Hpos. apply Hof, H; [done|]. by exists ps.
Qed.

Lemma missing_nil :
  check_missing digest master_positions slave_positions mappings enabled netting sides = [] <->
  forall a p m mp, a ∈ enabled -> a <> 0 -> m ∈ mappings -> copies_to a p m -> ~ net_ticket a p ->
    m_master_position_id m = Some mp -> master_holds mp ->
    exists pos, slave_holds a pos /\ psn_position_id pos = p.
Proof.
  unfold check_missing. rewrite omap_nil. split.
  - intros H a p m mp Ha Ha0 Hm (Hact & <- & Hp & Hp0) Hnet Hmp Hopen. specialize (H m Hm).
    unfold missing_of, is_active in H. rewrite Hp, !bool_decide_true in H by done.
    rewrite <-is_compared_spec, not_true_iff_false in Hnet. rewrite Hnet in H.
    assert (master_open master_positions (m_master_position_id m) = true) as Ho by (apply master_open_spec; eauto).
    apply Z.eqb_neq in Ha0, Hp0. rewrite Ha0, Hp0, Ho in H. simpl in H.
    destruct (slave_position _ _ _) as [pos|] eqn:E; [|done]. exists pos. by apply slave_position_spec.
  - intros H m Hm. unfold missing_of. destruct (m_slave_position_id m) as [p|] eqn:Hp; [|done].
    case_match eqn:E; [|done]. rewrite !andb_true_iff in E.
    destruct E as [[[[[Hact Ha0] Hp0] Ha] Hnet] (mp & Hmp & Hopen)%master_open_spec].
    unfold is_active in Hact. apply bool_decide_eq_true in Hact, Ha.
    rewrite negb_true_iff, Z.eqb_neq in Ha0, Hp0. rewrite negb_true_iff, <-not_true_iff_false, is_compared_spec in Hnet.
    destruct (H (m_slave_account_id m) p m mp) as (pos & Hpos); try done.
    by rewrite (proj2 (slave_position_spec _ _ pos) Hpos).
Qed.

Lemma unfilled_nil :
  check_unfilled digest slave_positions mappings enabled = [] <->
  forall m o mp, m ∈ mappings -> m_status m = Active -> m_slave_account_id m ∈ enabled ->
    m_slave_account_id m <> 0 -> m_slave_order_id m = Some o -> o <> 0 ->
    m_master_position_id m = Some mp -> mp <> 0 ->
    exists pos before after, slave_holds (m_slave_account_id m) pos /\
      psn_label pos = before +:+ (("copy:o" +:+ str_opt (m_master_order_id m)) +:+ after).
Proof.
  unfold check_unfilled. rewrite omap_nil. split.
  - intros H m o mp Hm Hact Ha Ha0 Ho Ho0 Hmp Hmp0. specialize (H m Hm).
    apply corresponding_spec. unfold unfilled_of, is_active, truthy in H.
    rewrite Ho, Hmp, !bool_decide_true in H by done. apply Z.eqb_neq in Ha0, Ho0, Hmp0.
    rewrite Ha0, Ho0, Hmp0 in H. simpl in H. by destruct (has_corresponding_position _ _).
  - intros H m Hm. unfold unfilled_of. destruct (m_slave_order_id m) as [o|] eqn:Ho; [|done].
    case_match eqn:E; [|done]. exfalso. rewrite !andb_true_iff in E.
    destruct E as [[[[[Hact Ha0] Ho0] Hmp] Ha] Hcor].
    unfold is_active in Hact. apply bool_decide_eq_true in Hact, Ha.
    unfold truthy in Hmp. destruct (m_master_position_id m) as [mp|] eqn:Emp; [|done].
    rewrite negb_true_iff, Z.eqb_neq in Ha0, Ho0, Hmp. rewrite negb_true_iff, <-not_true_iff_false in Hcor.
    apply Hcor, corresponding_spec. by eapply H.
Qed.

Lemma stale_nil :
  check_stale digest mappings enabled dry_run now after_s = [] <->
  (dry_run = false -> forall m, m ∈ mappings -> m_status m = Pending ->
    m_slave_account_id m ∈ enabled -> fltb (timestamp (now - m_created_at m)) after_s = true).
Proof.
  unfold check_stale. destruct dry_run; [done|]. rewrite omap_nil. split.
  - intros H _ m Hm Hst Ha. specialize (H m Hm). unfold stale_of in H.
    rewrite !bool_decide_true in H by done. by destruct (fltb _ _).
  - intros H m Hm. unfold stale_of. case_match eqn:E; [|done]. bsimp. by rewrite (H eq_refl m) in * by done.
Qed.

Lemma net_nil :
  check_net digest slave_positions mappings enabled netting sides = [] <->
  forall a p, a ∈ enabled -> net_ticket a p -> net_held a p (copied a p BUY - copied a p SELL).
Proof.
  unfold check_net. rewrite omap_nil. setoid_rewrite merge_sort_Permutation. split.
  - intros H a p Ha Hnet.
    specialize (H ((a, p), filter (copies_to a p) mappings) ltac:(by apply compared_spec)).
    unfold net_of in H. rewrite bool_decide_true in H by done. simpl in H.
    apply actual_held. rewrite <-expected_copied by done.
    destruct (Z.eqb_spec (actual_net slave_positions a p) (expected_net sides (filter (copies_to a p) mappings))); done.
  - intros H [[a p] rows] [Hnet ->]%compared_spec. unfold net_of.
    case_bool_decide as Ha; [|done]. simpl. rewrite expected_copied by done.
    by rewrite (proj2 (actual_held a p _) (H a p Ha Hnet)), Z.eqb_refl.
Qed.

Lemma sync_checks :
  compute_drift digest master_positions slave_positions mappings enabled netting sides dry_run now after_s = []
  <-> in_sync.
Proof.
  unfold compute_drift, all_drift. rewrite merge_sort_nil, !app_nil.
  rewrite orphans_nil, missing_nil, unfilled_nil, stale_nil, net_nil.
  unfold check_unmapped. rewrite omap_nil.
  assert ((forall pos, pos ∈ master_positions -> unmapped_of digest mappings pos = None) <->
    (forall pos, pos ∈ master_positions -> exists m, m ∈ mappings /\ m_status m = Active /\
      m_master_position_id m = Some (psn_position_id pos) /\ psn_position_id pos <> 0)) as ->.
  { setoid_rewrite <-has_mapping_spec. unfold unmapped_of.
    split; intros H pos Hpos; specialize (H pos Hpos); by destruct (has_mapping _ _). }
  split; [intros (?&?&?&?&?&?); by split|by intros [????? ?]].
Qed.
End sync.

(** C38: an empty report says exactly this much of the books, and books that
    agree this far give an empty report ([in_sync], read off the positions
    and the mapping table without the code's indexes): every [copy:]
    position's latest active row names an open master position, every copy of
    an open master position is there, every master position has an active
    row, a label answers for every filled order row, nothing is overdue, and
    each netting ticket is what was bought less what was sold.  The broker
    lists an account once and a ticket once.  What the report does not
    compare is outside: volumes of hedging copies, and labels beyond
    containment ([unfilled_order_hidden_by_prefix]). *)
Theorem drift_empty_iff_in_sync digest master_positions slave_positions mappings enabled netting sides
    dry_run now after_s :
  well_booked slave_positions ->
  compute_drift digest master_positions slave_positions mappings enabled netting sides dry_run now after_s = []
  <-> in_sync master_positions slave_positions mappings enabled netting sides dry_run now after_s.
Proof. apply sync_checks. Qed.

(** ** The net-volume check *)

Lemma direction_spec expected actual :
  (direction expected actual = 1 \/ direction expected actual = -1) /\
  Z.abs expected = direction expected actual * expected.
Proof. unfold direction. repeat case_match; bsimp; lia. Qed.

Lemma compute_drift_elem digest mps sps rows en net sides dry now after i :
  i ∈ compute_drift digest mps sps rows en net sides dry now after <->
  i ∈ all_drift digest mps sps rows en net sides dry now after.
Proof. unfold compute_drift. by rewrite merge_sort_Permutation. Qed.

Lemma omap_volume {A} (f : A -> option DriftItem) (l : list A) (i : DriftItem) :
  (forall x j, f x = Some j -> di_volume j = None) -> i ∈ omap f l -> di_volume i = None.
Proof. intros H (x & _ & Hx)%list_elem_of_omap. by eapply H. Qed.

(** Only the net-volume check quantifies its items. *)
Lemma volume_from_net digest mps sps rows en net sides dry now after i v :
  i ∈ compute_drift digest mps sps rows en net sides dry now after -> di_volume i = Some v ->
  exists g, g ∈ compared rows net sides /\ net_of digest sps en sides g = Some i.
Proof.
  rewrite compute_drift_elem. unfold all_drift. rewrite !elem_of_app.
  intros [H|[H|[H|[H|[H|H]]]]] Hv.
  - exfalso. unfold check_orphans in H. rewrite list_elem_of_join in H. destruct H as (l & Hi & Hl).
    apply list_elem_of_fmap in Hl as ([a ps] & -> & _). simpl in Hi. case_bool_decide; [|set_solver].
    eapply omap_volume in Hi; [congruence|]. unfold orphan_of. intros x j. repeat case_match; intros; by simplify_eq.
  - exfalso. eapply omap_volume in H; [congruence|].
    unfold missing_of. intros x j. repeat case_match; intros; by simplify_eq.
  - exfalso. eapply omap_volume in H; [congruence|].
    unfold unmapped_of. intros x j. repeat case_match; intros; by simplify_eq.
  - exfalso. eapply omap_volume in H; [congruence|].
    unfold unfilled_of. intros x j. repeat case_match; intros; by simplify_eq.
  - exfalso. unfold check_stale in H. case_match; [set_solver|]. eapply omap_volume in H; [congruence|].
    unfold stale_of. intros x j. repeat case_match; intros; by simplify_eq.
  - unfold check_net in H. apply list_elem_of_omap in H as (g & Hg & Hi). exists g.
    by rewrite merge_sort_Permutation in Hg.
Qed.

(** An item with a volume is about one net position of an enabled netting
    follower, and the volume is exactly the trade that puts the position
    right: a shortfall is what is missing along the copies' side, an excess is
    what is held beyond them, never more than the position holds. *)
Theorem net_drift_volume_exact digest mps sps rows en net sides dry now after i v :
  i ∈ compute_drift digest mps sps rows en net sides dry now after -> di_volume i = Some v ->
  exists a t copies, ((a, t), copies) ∈ compared rows net sides /\ a ∈ en /\
    di_account_id i = Some a /\ di_position_id i = Some t /\ 0 < v /\
    let expected := expected_net sides copies in
    let actual := actual_net sps a t in
    let d := direction expected actual in
    ((di_kind i = missing_slave_copy /\ actual + d * v = expected) \/
     (di_kind i = orphan_slave_position /\ actual - d * v = expected /\ v <= Z.abs actual)).
Proof.
  intros Hi Hv. destruct (volume_from_net _ _ _ _ _ _ _ _ _ _ _ _ Hi Hv) as ([[a t] copies] & Hg & Hn).
  unfold net_of in Hn. case_match eqn:E; [|done]. bsimp. simplify_eq/=.
  pose proof (direction_spec (expected_net sides copies) (actual_net sps a t)) as [Hd Habs].
  exists a, t, copies. split; [done|]. split; [done|]. split; [done|]. split; [done|].
  rewrite Habs in *. destruct (Z.ltb_spec 0 (direction (expected_net sides copies) (actual_net sps a t) *
    expected_net sides copies - actual_net sps a t * direction (expected_net sides copies) (actual_net sps a t)));
    (split; [nia|]); [left|right]; split; try done; nia.
Qed.

(** ** A pass, step by step *)

Definition with_engine_db (d : db) (r : reconciler) : reconciler :=
  {| rec_engine := {| e_db := d; e_sends := e_sends (rec_engine r) |}; rec_current := rec_current r;
     rec_dismissed := rec_dismissed r; rec_slave_positions := rec_slave_positions r;
     rec_master_positions := rec_master_positions r; rec_master_orders := rec_master_orders r |}.
Definition rec_db (r : reconciler) : db := e_db (rec_engine r).
Definition dismissals (org : Z) (s : db) : gset string :=
  set_map snd (filter (fun p : Z * string => p.1 = org) (db_dismissals s)).

Lemma r_repo_run {A} (m : M db A) r x d :
  m (rec_db r) = (x, d) -> r_repo m r = (x, with_engine_db d r).
Proof. intros H. unfold r_repo, r_engine, on_db. unfold rec_db in H. by rewrite H. Qed.

Lemma elem_of_dismissals org s x : x ∈ dismissals org s <-> (org, x) ∈ db_dismissals s.
Proof.
  unfold dismissals. rewrite elem_of_map. split.
  - intros ([o y] & -> & Hin). apply elem_of_filter in Hin as [Ho Hin]. simpl in *. by subst.
  - intros H. exists (org, x). split; [done|]. by apply elem_of_filter.
Qed.

Section pass.
Context (org : Z).

Definition drift_event (i : DriftItem) : event_row :=
  {| evr_category := "drift"; evr_severity := Warning; evr_payload := drift_payload i;
     evr_account_id := di_account_id i; evr_org_id := Some org |}.
Definition unreported (known : list DriftItem) (items : list DriftItem) : list DriftItem :=
  List.filter (fun i => negb (bool_decide (di_id i ∈ di_id <$> known))) items.
Definition undismissed (d : gset string) (items : list DriftItem) : list DriftItem :=
  List.filter (fun i => negb (bool_decide (di_id i ∈ d))) items.

Lemma add_no_events s : set_db_events (db_events s ++ []) s = s.
Proof. rewrite app_nil_r. by destruct s. Qed.
Lemma with_same_db r : with_engine_db (rec_db r) r = r.
Proof. destruct r as [[]]. done. Qed.

Lemma log_new_run items r :
  log_new org items r =
  (Ok tt, with_engine_db (set_db_events (db_events (rec_db r) ++ (drift_event <$> unreported (rec_current r) items))
                            (rec_db r)) r).
Proof.
  unfold log_new, bind, gets. set (known := rec_current r). clearbody known. revert r.
  induction items as [|i items IH]; intros r; simpl.
  - unfold ret. by rewrite add_no_events, with_same_db.
  - unfold bind. case_bool_decide; simpl; [apply IH|].
    rewrite IH. destruct r as [[[] ?]]. unfold with_engine_db. simpl. do 2 f_equal. f_equal.
    unfold rec_db. simpl. by rewrite <-app_assoc.
Qed.

Definition pruned_db (kept before : gset string) (s : db) : db :=
  if (size kept =? size before)%nat then s else exec (prune_drift_dismissals org kept) s.

Lemma apply_dismissals_run items r :
  let kept := rec_dismissed r ∩ list_to_set (di_id <$> items) in
  _apply_dismissals org items r =
  (Ok (undismissed (rec_dismissed r) items),
   with_engine_db (pruned_db kept (rec_dismissed r) (rec_db r)) (set_dismissed kept r)).
Proof.
  intros kept. unfold _apply_dismissals, bind, gets, modify, ret. fold kept.
  assert (List.filter (fun i => negb (bool_decide (di_id i ∈ kept))) items =
          undismissed (rec_dismissed r) items) as Hf.
  { apply filter_ext_in. intros i Hi. f_equal. apply bool_decide_ext. unfold kept.
    rewrite elem_of_intersection, elem_of_list_to_set. split; [by intros []|].
    intros H. split; [done|]. apply list_elem_of_fmap. exists i. by rewrite list_elem_of_In. }
  rewrite Hf. unfold pruned_db. destruct (_ =? _)%nat.
  - by destruct r as [[]].
  - unfold r_repo, r_engine, on_db, prune_drift_dismissals, modify, exec. simpl. done.
Qed.
End pass.

Lemma r_repo_same {A} (m : M db A) r x : m (rec_db r) = (x, rec_db r) -> r_repo m r = (x, r).
Proof. intros H. by rewrite (r_repo_run _ _ _ _ H), with_same_db. Qed.

Section run_facts.
Context (digest : string -> string) (master_account_id org : Z).
Abbreviation run_org := (run digest master_account_id org).

Definition org_slave_ids (s : db) : list Z :=
  acc_account_id <$> List.filter (fun a => bool_decide (acc_role a = RoleSlave) && acc_enabled a)
    (List.filter (fun a => acc_org_id a =? org) (db_accounts s)).

(** What a pass that got its answers computes. *)
Definition saw (fetch : Z -> result (list PositionSnapshot * list OrderSnapshot)) (s : db)
    (items : list DriftItem) : Prop :=
  exists master sps nets sides dry,
    let enabled : gset Z := list_to_set (org_slave_ids s) in
    fetch master_account_id = Ok master /\ fetch_all fetch (elements enabled) = Ok sps /\
    items = compute_drift digest master.1 sps (List.filter (fun r => m_org_id r =? org) (db_mappings s))
              enabled nets sides dry (db_now s) STALE_PENDING_AFTER_S.

Record pass_failed (r r' : reconciler) : Prop := {
  pf_engine : rec_engine r' = rec_engine r;
  pf_current : rec_current r' = rec_current r;
  pf_dismissed : rec_dismissed r' = rec_dismissed r
}.
Record pass_done (r r' : reconciler) (items shown : list DriftItem) : Prop := {
  pd_shown : shown = undismissed (rec_dismissed r) items;
  pd_current : rec_current r' = shown;
  pd_dismissed : rec_dismissed r' = rec_dismissed r ∩ list_to_set (di_id <$> items);
  pd_sends : e_sends (rec_engine r') = e_sends (rec_engine r);
  pd_db : rec_db r' =
    (let s := pruned_db org (rec_dismissed r') (rec_dismissed r) (rec_db r) in
     set_db_events (db_events s ++ (drift_event org <$> unreported (rec_current r) shown)) s)
}.

Lemma org_dry_run_same r :
  exists b, try_except (let! o := r_repo (get_org org) in ret (org_dry_run o)) (fun _ => ret false) r = (Ok b, r).
Proof.
  unfold try_except, bind. destruct (org_row org (rec_db r)) as [o|] eqn:Ho.
  - rewrite (r_repo_run _ r _ _ (get_org_run _ _ _ Ho)), with_same_db. by eexists.
  - destruct (get_org_none _ _ Ho) as [x Hx]. rewrite (r_repo_run _ r _ _ Hx), with_same_db. by eexists.
Qed.

Lemma run_run fetch nets r :
  (exists x r', run_org fetch nets r = (Raise x, r') /\ pass_failed r r') \/
  (exists items shown r', run_org fetch nets r = (Ok shown, r') /\ saw fetch (rec_db r) items /\
     pass_done r r' items shown).
Proof.
  unfold run. erewrite bind_ok by apply r_repo_same, eq_refl. cbv beta zeta.
  fold (org_slave_ids (rec_db r)). set (enabled := list_to_set (org_slave_ids (rec_db r)) : gset Z).
  destruct (fetch master_account_id) as [master|x] eqn:Hm;
    [|left; exists x, r; split; [done|]; by constructor].
  erewrite (bind_ok (lift_result (Ok master))) by reflexivity. cbv beta.
  erewrite (bind_ok (modify _)) by reflexivity. set (r1 := set_master_book _ _ r). cbv beta.
  destruct (fetch_all fetch (elements enabled)) as [sps|x] eqn:Hs;
    [|left; exists x, r1; split; [done|]; by constructor].
  erewrite (bind_ok (lift_result (Ok sps))) by reflexivity. cbv beta.
  erewrite (bind_ok (modify _)) by reflexivity. set (r2 := set_slave_book sps r1). cbv beta. right.
  erewrite bind_ok by apply r_repo_same, eq_refl. cbv beta.
  destruct (org_dry_run_same r2) as [dry Hdry]. erewrite bind_ok by exact Hdry. cbv beta.
  erewrite (bind_ok (load_sides _ _)) by reflexivity. cbv beta.
  erewrite bind_ok by apply r_repo_same, eq_refl. cbv beta.
  erewrite bind_ok by apply apply_dismissals_run. cbv beta.
  erewrite bind_ok by apply log_new_run. cbv beta. erewrite bind_ok by reflexivity. unfold ret.
  eexists _, _, _. split; [reflexivity|]. split; [|by constructor].
  unfold saw. do 5 eexists. split; [done|]. split; [exact Hs|]. reflexivity.
Qed.
End run_facts.

(** A pass only reports.  It sends nothing, queues nothing and leaves
    mappings, accounts and orgs alone, whatever the accounts answer; a pass
    whose accounts answered shows exactly the computed drift the operator has
    not dismissed, and logs one event for each shown item that the previous
    pass did not show, no other. *)
Theorem run_only_reports digest master org fetch nets r :
  let r' := exec (run digest master org fetch nets) r in
  e_sends (rec_engine r') = e_sends (rec_engine r) /\
  db_commands (rec_db r') = db_commands (rec_db r) /\ db_mappings (rec_db r') = db_mappings (rec_db r) /\
  db_accounts (rec_db r') = db_accounts (rec_db r) /\ db_orgs (rec_db r') = db_orgs (rec_db r) /\
  match value (run digest master org fetch nets) r with
  | Raise _ => db_events (rec_db r') = db_events (rec_db r)
  | Ok shown => exists items, saw digest master org fetch (rec_db r) items /\
      shown = undismissed (rec_dismissed r) items /\ rec_current r' = shown /\
      db_events (rec_db r') = db_events (rec_db r) ++ (drift_event org <$> unreported (rec_current r) shown)
  end.
Proof.
  intros r'. unfold r', exec, value.
  destruct (run_run digest master org fetch nets r) as [(x & r1 & -> & [He _ _])|(items & shown & r1 & -> & Hsaw & H)];
    simpl.
  - unfold rec_db. by rewrite He.
  - destruct H as [Hs Hc Hd Hse Hdb]. rewrite Hdb. unfold pruned_db. destruct (_ =? _)%nat; simpl;
      (do 5 (split; [done|])); by exists items.
Qed.

(** ** Dismissals *)

Inductive rec_op :=
  | OpRun (fetch : Z -> result (list PositionSnapshot * list OrderSnapshot)) (nets : option (gset Z))
  | OpClose (item_id : string)
  | OpAdopt (item_id : string) (master_position_id : Z)
  | OpDismiss (item_id : string).

Section dismissals.
Context (digest : string -> string).
Context (targets : option (Z -> option (gmap Z string))) (outbox : option (Z -> option margin_mode)).
Context (master org : Z).

Definition rec_step (r : reconciler) (op : rec_op) : reconciler :=
  match op with
  | OpRun fetch nets => exec (run digest master org fetch nets) r
  | OpClose i => exec (close_orphan targets outbox org i) r
  | OpAdopt i mp => exec (adopt org i mp) r
  | OpDismiss i => exec (dismiss org i) r
  end.
Definition rec_run (ops : list rec_op) (r : reconciler) : reconciler := fold_left rec_step ops r.

(** The operator's dismissals in memory are the stored ones, and no other
    org's change. *)
Record persists (r r' : reconciler) : Prop := {
  ps_own : rec_dismissed r = dismissals org (rec_db r) -> rec_dismissed r' = dismissals org (rec_db r');
  ps_others : forall o, o <> org -> dismissals o (rec_db r') = dismissals o (rec_db r)
}.
#[export] Instance persists_refl : Reflexive persists.
Proof. intros r. by split. Qed.
#[export] Instance persists_trans : Transitive persists.
Proof. intros a b c [H1 O1] [H2 O2]. split; [auto|]. intros o Ho. by rewrite O2, O1. Qed.

Lemma persists_same r r' :
  rec_dismissed r' = rec_dismissed r -> db_dismissals (rec_db r') = db_dismissals (rec_db r) -> persists r r'.
Proof. intros H1 H2. split; intros; unfold dismissals in *; by rewrite ?H1, ?H2. Qed.

(** Pruning when the sizes differ loses nothing: equal sizes mean nothing
    cleared. *)
Lemma pruned_own kept s :
  kept ⊆ dismissals org s -> dismissals org (pruned_db org kept (dismissals org s) s) = kept.
Proof.
  intros Hsub. unfold pruned_db. destruct (Nat.eqb_spec (size kept) (size (dismissals org s))) as [Hsz|Hsz].
  - symmetry. apply (set_subseteq_size_eq (C:=gset string)); [done|lia].
  - apply set_eq. intros x. rewrite elem_of_dismissals. unfold exec, prune_drift_dismissals, modify. simpl.
    rewrite elem_of_filter. simpl. rewrite <-elem_of_dismissals.
    destruct (decide (x ∈ kept)); naive_solver.
Qed.

Lemma pruned_others kept before s o : o <> org -> dismissals o (pruned_db org kept before s) = dismissals o s.
Proof.
  intros Ho. unfold pruned_db. case_match; [done|].
  apply set_eq. intros x. rewrite elem_of_dismissals. unfold exec, prune_drift_dismissals, modify. simpl.
  rewrite elem_of_filter. simpl. rewrite elem_of_dismissals. naive_solver.
Qed.

Lemma run_persists fetch nets r : persists r (exec (run digest master org fetch nets) r).
Proof.
  unfold exec. destruct (run_run digest master org fetch nets r)
    as [(x & r1 & -> & [He Hc Hd])|(items & shown & r1 & -> & _ & [_ _ Hd _ Hdb])]; simpl.
  - apply persists_same; [done|]. unfold rec_db. by rewrite He.
  - split.
    + intros Hr. rewrite Hdb, Hd, Hr.
      symmetry. apply pruned_own. set_solver.
    + intros o Ho. rewrite Hdb. by apply pruned_others.
Qed.

Lemma dismiss_persists i r : persists r (exec (dismiss org i) r).
Proof.
  unfold dismiss, exec, bind, gets. destruct (_find_current_item i r) as [it|]; [|reflexivity].
  split; unfold rec_db; simpl.
  - intros Hr. rewrite Hr. apply set_eq. intros x. rewrite elem_of_union, !elem_of_dismissals. simpl. set_solver.
  - intros o Ho. apply set_eq. intros x. rewrite !elem_of_dismissals. simpl. set_solver.
Qed.

Lemma orphan_target_run i r :
  (exists x, orphan_target i r = (Raise x, r)) \/
  (exists it a p, orphan_target i r = (Ok (it, a, p), r) /\ _find_current_item i r = Some it /\
     di_kind it = orphan_slave_position /\ di_account_id it = Some a /\ di_position_id it = Some p).
Proof.
  unfold orphan_target, bind, gets. destruct (_find_current_item i r) as [it|]; [|left; by eexists].
  case_bool_decide as Hk; simpl; [|left; by eexists].
  destruct (di_account_id it) as [a|] eqn:Ha; [|left; by eexists].
  destruct (di_position_id it) as [p|] eqn:Hp; [|left; by eexists].
  case_match; [left; by eexists|]. right. by exists it, a, p.
Qed.

(** *** The close a remedy asks for *)

Definition close_intent (a p v : Z) : SlaveIntent :=
  IClosePosition {| cp_slave_account_id := a; cp_position_id := p; cp_volume := v;
                    cp_master_position_id := None |}.
Definition close_task (a p v : Z) : send_task :=
  {| st_account := a; st_req := ClosePositionReq a p v; st_attempt := 0; st_delay_ms := 0 |}.

Definition same_sends (e e' : engine) : Prop := e_sends e' = e_sends e.
#[export] Instance same_sends_refl : Reflexive same_sends.
Proof. done. Qed.
#[export] Instance same_sends_trans : Transitive same_sends.
Proof. unfold same_sends. congruence. Qed.

Lemma on_db_same_sends {A} (m : M db A) : respects same_sends (on_db m).
Proof. by apply respects_on_db. Qed.

Lemma enqueue_same_sends a p v : respects same_sends (_enqueue_for_mt5 targets outbox (close_intent a p v) a org).
Proof.
  unfold _enqueue_for_mt5. destruct targets as [tg|]; [|by apply respects_ret, _].
  destruct outbox as [mm|]; [|by apply respects_ret, _].
  destruct (tg a); [|by apply respects_ret, _]. simpl.
  apply respects_bind; [apply _|by apply respects_ret, _|]. intros _.
  apply respects_bind; [apply _|apply on_db_same_sends|]. intros id.
  apply respects_bind; [apply _|apply on_db_same_sends|]. intros _. by apply respects_ret, _.
Qed.

Lemma close_sends o a p v e :
  let e' := exec (try_except (handle_intent targets outbox o org (close_intent a p v))
                             (intent_failed (close_intent a p v) org)) e in
  e_sends e' = e_sends e \/ e_sends e' = e_sends e ++ [close_task a p v].
Proof.
  intros e'. unfold e', exec, try_except. simpl.
  destruct (negb (org_copying_enabled o)); [by left|]. destruct (org_dry_run o); [by left|].
  unfold _handle_live_send. simpl.
  pose proof (enqueue_same_sends a p v e) as Hs. unfold same_sends, exec in Hs.
  unfold bind. destruct (_enqueue_for_mt5 targets outbox (close_intent a p v) a org e) as [[[|]|x] e1]; simpl in *;
    [by left|right; by rewrite Hs|left; by rewrite <-Hs].
Qed.

Lemma lookup_volume_run a p r : exists vol, _lookup_slave_volume org a p r = (Ok vol, r).
Proof. by eexists. Qed.

Lemma close_orphan_run i r :
  (exists x, close_orphan targets outbox org i r = (Raise x, r)) \/
  (exists it a p v, close_orphan targets outbox org i r =
       r_engine (dispatch targets outbox [close_intent a p v] org) r /\
     _find_current_item i r = Some it /\ di_kind it = orphan_slave_position /\
     di_account_id it = Some a /\ di_position_id it = Some p /\ v <> 0 /\
     (if truthy (di_volume it) then di_volume it = Some v
      else value (_lookup_slave_volume org a p) r = Ok (Some v))).
Proof.
  unfold close_orphan.
  destruct (orphan_target_run i r) as [[x Hx]|(it & a & p & Ht & Hf & Hk & Ha & Hp)].
  { left. exists x. by apply bind_raise. }
  rewrite (bind_ok _ _ _ _ _ Ht). destruct (truthy (di_volume it)) eqn:Et.
  - destruct (di_volume it) as [v|] eqn:Ev; [|done]. rewrite (bind_ok (ret (Some v)) _ r (Some v) r) by done.
    simpl in Et. bsimp. rewrite (proj2 (Z.eqb_neq v 0)) by done.
    right. exists it, a, p, v. rewrite Ev. simpl. by rewrite (proj2 (Z.eqb_neq v 0)).
  - destruct (lookup_volume_run a p r) as [vol Hl]. rewrite (bind_ok _ _ _ _ _ Hl).
    destruct vol as [v|]; [|left; by eexists].
    destruct (Z.eqb_spec v 0); [left; by eexists|]. right. exists it, a, p, v. unfold value. by rewrite Et, Hl.
Qed.

Lemma r_engine_exec {A} (m : M engine A) r : rec_engine (exec (r_engine m) r) = exec m (rec_engine r).
Proof. unfold exec, r_engine. by destruct (m (rec_engine r)). Qed.
Lemma r_engine_dismissed {A} (m : M engine A) r : rec_dismissed (exec (r_engine m) r) = rec_dismissed r.
Proof. unfold exec, r_engine. by destruct (m (rec_engine r)). Qed.

Lemma close_persists i r : persists r (exec (close_orphan targets outbox org i) r).
Proof.
  unfold exec at 1. destruct (close_orphan_run i r) as [[x ->]|(it & a & p & v & -> & _)]; [reflexivity|].
  apply persists_same; [apply r_engine_dismissed|].
  pose proof (dispatch_confined (fun _ => true) org targets outbox [close_intent a p v]) as Hc.
  assert (respects (confined_engine (fun _ => true) org) (dispatch targets outbox [close_intent a p v] org)) as Hr
    by (apply Hc; done).
  specialize (Hr (rec_engine r)) as [[_ _ _ _ Hd] _]. unfold rec_db. fold (exec (r_engine (dispatch targets outbox
    [close_intent a p v] org)) r). by rewrite r_engine_exec.
Qed.

Lemma adopt_persists i mp r : persists r (exec (adopt org i mp) r).
Proof.
  unfold adopt, exec. destruct (orphan_target_run i r) as [[x Hx]|(it & a & p & Ht & _)].
  { by rewrite (bind_raise _ _ _ _ _ Hx). }
  rewrite (bind_ok _ _ _ _ _ Ht). destruct (lookup_volume_run a p r) as [vol Hl]. rewrite (bind_ok _ _ _ _ _ Hl).
  destruct vol as [v|]; [|reflexivity]. destruct (v =? 0); [reflexivity|]. by apply persists_same.
Qed.

Lemma rec_run_persists ops r : persists r (rec_run ops r).
Proof.
  revert r. induction ops as [|op ops IH]; intros r; simpl; [reflexivity|].
  etrans; [|apply IH]. destruct op; simpl;
    auto using run_persists, close_persists, adopt_persists, dismiss_persists.
Qed.

(** Dismissals survive a restart and stay in their org.  After any
    sequence of passes and remedies, a reconciler started afresh from the
    database has exactly the dismissals of the running one, and no other
    org's dismissals have changed. *)
Theorem dismissals_survive_restart ops e :
  let r := rec_run ops (rec_init org e) in
  rec_dismissed (rec_init org (rec_engine r)) = rec_dismissed r /\
  forall o, o <> org -> value (load_drift_dismissals o) (rec_db r) = value (load_drift_dismissals o) (e_db e).
Proof.
  intros r. destruct (rec_run_persists ops (rec_init org e)) as [H1 H2]. split.
  - symmetry. by apply H1.
  - intros o Ho. unfold value, load_drift_dismissals, gets. simpl. f_equal. by apply H2.
Qed.

(** Closing an orphan trades the orphan and nothing else.  Either the
    engine is left alone and the operator gets the error, or the item is a
    current orphan, at most one request is sent, which closes that position
    for the reported excess (or, without one, the volume last seen), and no
    other account is touched. *)
Theorem close_orphan_exact i r :
  let r' := exec (close_orphan targets outbox org i) r in
  (isOk (value (close_orphan targets outbox org i) r) = false -> rec_engine r' = rec_engine r) /\
  (isOk (value (close_orphan targets outbox org i) r) = true ->
   exists it a p v, _find_current_item i r = Some it /\ di_kind it = orphan_slave_position /\
     di_account_id it = Some a /\ di_position_id it = Some p /\ v <> 0 /\
     (if truthy (di_volume it) then di_volume it = Some v
      else value (_lookup_slave_volume org a p) r = Ok (Some v)) /\
     (e_sends (rec_engine r') = e_sends (rec_engine r) \/
      e_sends (rec_engine r') = e_sends (rec_engine r) ++ [close_task a p v]) /\
     confined_engine (fun x => x =? a) org (rec_engine r) (rec_engine r')).
Proof.
  intros r'. unfold r', exec, value at 1 2. clear r'.
  destruct (close_orphan_run i r) as [[x ->]|(it & a & p & v & Heq & Hf & Hk & Ha & Hp & Hv & Hvol)]; [done|].
  rewrite Heq. unfold r_engine. destruct (org_row org (rec_db r)) as [o|] eqn:Ho.
  - pose proof (dispatch_confined (fun x => x =? a) org targets outbox [close_intent a p v]) as Hc.
    specialize (Hc ltac:(intros j b ->%list_elem_of_singleton; simpl; intros [= ->]; apply Z.eqb_refl) (rec_engine r)).
    pose proof (close_sends o a p v (rec_engine r)) as Hs. unfold exec in *.
    rewrite (dispatch_run _ _ _ _ _ _ Ho) in *. simpl in *.
    destruct (dispatch_intent_total targets outbox o org (close_intent a p v) (rec_engine r)) as [u Hu].
    unfold value, bind in *. destruct (try_except _ _ (rec_engine r)) as [y e1]. simpl in *. subst y. simpl in *.
    split; [done|]. intros _. exists it, a, p, v. done.
  - unfold dispatch, bind, on_db. destruct (get_org_none _ _ Ho) as [x Hx]. unfold rec_db in Hx. rewrite Hx.
    simpl. split; [|done]. intros _. by destruct (rec_engine r).
Qed.
End dismissals.

(** ** Examples and limits *)

Definition demo_position (id : Z) (s : Side) (vol : Z) (label : string) : PositionSnapshot :=
  {| psn_position_id := id; psn_symbol_id := 1; psn_side := s; psn_volume := vol; psn_price := fzero;
     psn_label := label; psn_stop_loss := None; psn_take_profit := None |}.
Definition demo_copy (mp vol : Z) : mapping_row :=
  new_mapping (empty_db 0) (Some mp) None (Some 900) (Some vol) 11 (Some (position_coid mp 11)) 1 Active None.
Definition demo_sides : list (string * option Side) :=
  [(position_coid 1 11, Some BUY); (position_coid 2 11, Some SELL)].
(** Two copies, 50 bought and 20 sold, in one net position that holds 45. *)
Definition demo_net_drift : list DriftItem :=
  compute_drift (fun s => s) [demo_position 1 BUY 50 ""; demo_position 2 SELL 20 ""]
    [(11, [demo_position 900 BUY 45 "copy:m1"])] [demo_copy 1 50; demo_copy 2 20] {[11]} {[11]} demo_sides
    false 0 STALE_PENDING_AFTER_S.
Definition demo_excess : DriftItem :=
  {| di_id := "net_volume|11|900"; di_kind := orphan_slave_position; di_account_id := Some 11;
     di_position_id := Some 900; di_order_id := None;
     di_detail := "Netting position 900 holds BUY 45 but its 2 active copies sum to BUY 30 (excess 15 centilots)";
     di_volume := Some 15 |}.

(** The books with [vol] bought in that net position, and an order copy. *)
Definition demo_books (vol : Z) : list (Z * list PositionSnapshot) :=
  [(11, [demo_position 900 BUY vol "copy:m1"; demo_position 901 SELL 7 "copy:o5a11"])].
Definition demo_rows : list mapping_row :=
  [demo_copy 1 50; demo_copy 2 20;
   set_m_slave_order_id (Some 70)
     (new_mapping (empty_db 0) (Some 3) (Some 5) (Some 901) (Some 7) 11 (Some "co5a11") 1 Active None)].
Definition demo_masters : list PositionSnapshot :=
  [demo_position 1 BUY 50 ""; demo_position 2 SELL 20 ""; demo_position 3 SELL 7 ""].

(** 30 held answers to 50 bought and 20 sold; 45 does not. *)
Lemma drift_empty_iff_in_sync_witness :
  in_sync demo_masters (demo_books 30) demo_rows {[11]} {[11]} demo_sides false 0 STALE_PENDING_AFTER_S /\
  ~ in_sync demo_masters (demo_books 45) demo_rows {[11]} {[11]} demo_sides false 0 STALE_PENDING_AFTER_S.
Proof.
  assert (forall vol, well_booked (demo_books vol)) as Hb.
  { intros vol. split; [by apply NoDup_singleton|].
    intros a ps H. apply list_elem_of_singleton in H. simplify_eq. by apply (bool_decide_unpack _). }
  split.
  - apply (drift_empty_iff_in_sync (fun s => s)); [apply Hb|vm_compute; reflexivity].
  - intros H. apply (drift_empty_iff_in_sync (fun s => s)) in H; [|apply Hb]. vm_compute in H. discriminate H.
Defined.

Lemma net_drift_volume_exact_witness :
  demo_net_drift = [demo_excess] /\
  exists a t copies, ((a, t), copies) ∈ compared [demo_copy 1 50; demo_copy 2 20] {[11]} demo_sides /\
    a ∈ ({[11]} : gset Z) /\ di_account_id demo_excess = Some a /\ di_position_id demo_excess = Some t /\ 0 < 15 /\
    let expected := expected_net demo_sides copies in
    let actual := actual_net [(11, [demo_position 900 BUY 45 "copy:m1"])] a t in
    let d := direction expected actual in
    ((di_kind demo_excess = missing_slave_copy /\ actual + d * 15 = expected) \/
     (di_kind demo_excess = orphan_slave_position /\ actual - d * 15 = expected /\ 15 <= Z.abs actual)).
Proof.
  assert (demo_net_drift = [demo_excess]) as H by (vm_compute; reflexivity). split; [exact H|].
  eapply (net_drift_volume_exact (fun s => s) [demo_position 1 BUY 50 ""; demo_position 2 SELL 20 ""] _ _ _ _ _
            false 0 STALE_PENDING_AFTER_S); [|reflexivity].
  fold demo_net_drift. rewrite H. apply list_elem_of_singleton. reflexivity.
Defined.

(** An order copy of master order [mo], linked to its fill as position [mp]. *)
Definition demo_order_copy (mo mp : Z) : mapping_row :=
  set_m_slave_order_id (Some 70)
    (new_mapping (empty_db 0) (Some mp) (Some mo) None None 11 (Some "co5a11") 1 Active None).

(** The unfilled-order check matches labels by substring.  Master order 5
    filled and the slave's copy of it never did; the check reports it, unless
    the slave also holds the copy of another order whose number merely starts
    with 5, which hides it. *)
Theorem unfilled_order_hidden_by_prefix :
  let books label := compute_drift (fun s => s) [demo_position 6 BUY 10 ""]
    [(11, [demo_position 901 BUY 10 label])] [demo_order_copy 5 6] {[11]} ∅ [] false 0 STALE_PENDING_AFTER_S in
  (unfilled_slave_order ∈ di_kind <$> books "copy:o60") /\
  (unfilled_slave_order ∉ di_kind <$> books "copy:o57").
Proof. intros books. split; by apply (bool_decide_unpack _); vm_compute. Qed.
