(* ===== verification/Ingress.v ===== *)
(** * An MT5 master's report: [copier/mt5/ingress.py]

    [NetLedger] expands a netting master's one position per symbol into virtual
    positions, consumed oldest first; [master_events_from_report] turns a
    terminal's report into the events the decision core consumes.

    [VirtualPosition] objects are shared: the position list and the dirty dict
    hold references to the same object, which later deals mutate.  The ledger
    therefore keeps its objects in a store, and a reference is an index into
    it. *)

From S2P Require Import Prelude PyStr PyDecimal PyFloat Models Normalize Db Repo Protocol Outbox.
From S2P Require Import Dispatch Reconcile.

(** ** The ledger of a netting master *)

(** One row of [mt5_net_ledger]; [row] and [from_row] are the identity here. *)
Abbreviation VirtualPosition := ledger_row.

(** [==] on two virtual positions *)
Definition vp_eqb (v w : VirtualPosition) : bool :=
  (lr_virtual_id v =? lr_virtual_id w) && bool_decide (lr_symbol v = lr_symbol w) &&
  bool_decide (lr_side v = lr_side w) && (lr_volume_open v =? lr_volume_open w) &&
  (lr_volume_left v =? lr_volume_left w) && price_eqb (lr_stop_loss v) (lr_stop_loss w) &&
  price_eqb (lr_take_profit v) (lr_take_profit w) && (lr_opened_at_ms v =? lr_opened_at_ms w).

Record NetLedger := {
  nl_objects : list VirtualPosition;     (* the store *)
  nl_positions : list nat;               (* [_positions] *)
  nl_dirty : list (Z * nat);             (* [_dirty] *)
  nl_deleted : list Z                    (* [_deleted] *)
}.

Definition with_objects (o : list VirtualPosition) (l : NetLedger) : NetLedger :=
  {| nl_objects := o; nl_positions := nl_positions l; nl_dirty := nl_dirty l; nl_deleted := nl_deleted l |}.
Definition with_positions (p : list nat) (l : NetLedger) : NetLedger :=
  {| nl_objects := nl_objects l; nl_positions := p; nl_dirty := nl_dirty l; nl_deleted := nl_deleted l |}.
Definition with_dirty (d : list (Z * nat)) (l : NetLedger) : NetLedger :=
  {| nl_objects := nl_objects l; nl_positions := nl_positions l; nl_dirty := d; nl_deleted := nl_deleted l |}.
Definition with_deleted (d : list Z) (l : NetLedger) : NetLedger :=
  {| nl_objects := nl_objects l; nl_positions := nl_positions l; nl_dirty := nl_dirty l; nl_deleted := d |}.

(** [_order_key(v) <= _order_key(w)], through the references *)
Definition ref_older (objects : list VirtualPosition) (r q : nat) : Prop :=
  match objects !! r, objects !! q with
  | Some v, Some w => ledger_older v w
  | _, _ => True
  end.
#[export] Instance ref_older_dec objects : RelDecision (ref_older objects).
Proof. intros r q. unfold ref_older. repeat case_match; apply _. Defined.

(** [NetLedger(rows)] *)
Definition nl_init (rows : list VirtualPosition) : NetLedger :=
  {| nl_objects := rows; nl_positions := merge_sort (ref_older rows) (seq 0 (length rows));
     nl_dirty := []; nl_deleted := [] |}.

(** [positions()], dereferenced *)
Definition positions (l : NetLedger) : list VirtualPosition :=
  omap (fun r => nl_objects l !! r) (nl_positions l).

Definition has_symbol (symbol : string) (v : VirtualPosition) : bool := bool_decide (lr_symbol v = symbol).
Definition _of_symbol (symbol : string) (l : NetLedger) : list nat :=
  List.filter (fun r => match nl_objects l !! r with Some v => has_symbol symbol v | None => false end)
    (nl_positions l).

Definition side_of_deal (t : DealType) : option Side :=
  match t with DtBuy => Some BUY | DtSell => Some SELL | _ => None end.

Definition new_virtual (deal : ReportDeal) (side : Side) (volume : Z) (sl tp : price) : VirtualPosition :=
  {| lr_virtual_id := rd_ticket deal; lr_symbol := rd_symbol deal; lr_side := side;
     lr_volume_open := volume; lr_volume_left := volume; lr_stop_loss := sl; lr_take_profit := tp;
     lr_opened_at_ms := rd_time_ms deal |}.

(** The new object is appended to the store, so its reference is its length. *)
Definition _open (deal : ReportDeal) (side : Side) (volume : Z) (sl tp : price) (l : NetLedger) : NetLedger :=
  let vp := new_virtual deal side volume sl tp in
  let objects := nl_objects l ++ [vp] in
  let r := length (nl_objects l) in
  {| nl_objects := objects;
     nl_positions := merge_sort (ref_older objects) (nl_positions l ++ [r]);
     nl_dirty := od_set (lr_virtual_id vp) r (nl_dirty l);
     nl_deleted := List.filter (fun d => negb (d =? lr_virtual_id vp)) (nl_deleted l) |}.

(** [list.remove(vp)]: the first element that is, or equals, the object *)
Fixpoint remove_ref (objects : list VirtualPosition) (r : nat) (vp : VirtualPosition) (refs : list nat) : list nat :=
  match refs with
  | [] => []
  | q :: refs' =>
      if (q =? r)%nat || match objects !! q with Some w => vp_eqb w vp | None => false end
      then refs' else q :: remove_ref objects r vp refs'
  end.

(** One virtual position gives up [take]. *)
Definition take_from (r : nat) (vp : VirtualPosition) (take : Z) (l : NetLedger) : NetLedger :=
  let vp' := set_lr_volume_left (lr_volume_left vp - take) vp in
  let l1 := with_objects (<[r := vp']> (nl_objects l)) l in
  if lr_volume_left vp' <=? 0
  then with_deleted (nl_deleted l1 ++ [lr_virtual_id vp'])
         (with_dirty (od_pop (lr_virtual_id vp') (nl_dirty l1))
           (with_positions (remove_ref (nl_objects l1) r vp' (nl_positions l1)) l1))
  else with_dirty (od_set (lr_virtual_id vp') r (nl_dirty l1)) l1.

Definition closed_event (canonical : string) (vp : VirtualPosition) (take : Z) : MasterEvent :=
  EvPositionClosed {| mpc_position_id := lr_virtual_id vp; mpc_symbol_name := canonical;
                      mpc_closed_volume := take; mpc_remaining_volume := lr_volume_left vp - take |}.

Fixpoint consume_refs (canonical : string) (remaining : Z) (refs : list nat) (l : NetLedger)
    : list MasterEvent * NetLedger :=
  match refs with
  | [] => ([], l)
  | r :: refs' =>
      if remaining <=? 0 then ([], l)
      else match nl_objects l !! r with
           | None => consume_refs canonical remaining refs' l
           | Some vp =>
               let take := Z.min (lr_volume_left vp) remaining in
               if take <=? 0 then consume_refs canonical remaining refs' l
               else let '(evs, l') := consume_refs canonical (remaining - take) refs' (take_from r vp take l) in
                    (closed_event canonical vp take :: evs, l')
           end
  end.

Definition _consume (symbol canonical : string) (volume : Z) (l : NetLedger) : list MasterEvent * NetLedger :=
  consume_refs canonical volume (_of_symbol symbol l) l.

Definition opened_event (deal : ReportDeal) (canonical : string) (side : Side) (volume : Z) (sl tp : price)
    : MasterEvent :=
  EvPositionOpened {| mpo_position_id := rd_ticket deal; mpo_symbol_name := canonical; mpo_side := side;
    mpo_volume := volume; mpo_lot_size := CENTILOTS; mpo_stop_loss := sl; mpo_take_profit := tp;
    mpo_entry_price := Some (rd_price deal) |}.

(** What the symbol's virtual positions still hold. *)
Definition held_volume_of (symbol : string) (l : NetLedger) : Z :=
  Zsum (lr_volume_left <$> List.filter (has_symbol symbol) (positions l)).

Definition apply_deal (deal : ReportDeal) (canonical : string) (sl tp : price) (l : NetLedger)
    : list MasterEvent * NetLedger :=
  match side_of_deal (rd_deal_type deal) with
  | None => ([], l)
  | Some side =>
      if rd_volume deal <=? 0 then ([], l)
      else match rd_entry deal with
           | DeIn => ([opened_event deal canonical side (rd_volume deal) sl tp],
                      _open deal side (rd_volume deal) sl tp l)
           | DeOut | DeOutBy => _consume (rd_symbol deal) canonical (rd_volume deal) l
           | DeInOut =>
               let held := held_volume_of (rd_symbol deal) l in
               let '(evs, l') := _consume (rd_symbol deal) canonical held l in
               let remainder := rd_volume deal - held in
               if 0 <? remainder
               then (evs ++ [opened_event deal canonical side remainder sl tp], _open deal side remainder sl tp l')
               else (evs, l')
           | DeNone => ([], l)
           end
  end.

Fixpoint protect_refs (sl tp : price) (refs : list nat) (l : NetLedger) : list MasterEvent * NetLedger :=
  match refs with
  | [] => ([], l)
  | r :: refs' =>
      match nl_objects l !! r with
      | None => protect_refs sl tp refs' l
      | Some vp =>
          if levels_eqb (lr_stop_loss vp, lr_take_profit vp) (sl, tp) then protect_refs sl tp refs' l
          else let vp' := set_lr_take_profit tp (set_lr_stop_loss sl vp) in
               let '(evs, l') := protect_refs sl tp refs'
                 (with_dirty (od_set (lr_virtual_id vp') r (nl_dirty l))
                   (with_objects (<[r := vp']> (nl_objects l)) l)) in
               (EvPositionSLTPAmended {| mpa_position_id := lr_virtual_id vp'; mpa_stop_loss := sl;
                                         mpa_take_profit := tp |} :: evs, l')
      end
  end.
Definition apply_protection (symbol : string) (sl tp : price) (l : NetLedger) : list MasterEvent * NetLedger :=
  protect_refs sl tp (_of_symbol symbol l) l.

(** Upserts and deleted ids since the last call; both are cleared. *)
Definition dirty_rows (l : NetLedger) : (list VirtualPosition * list Z) * NetLedger :=
  ((omap (fun d : Z * nat => nl_objects l !! d.2) (nl_dirty l), nl_deleted l),
   with_deleted [] (with_dirty [] l)).

(** The database half of [_persist_net_ledger]; the calls on empty lists, which
    the code skips, write nothing. *)
Definition _persist_net_ledger (account_id : Z) (l : NetLedger) : M db NetLedger :=
  let '((upserts, deleted), l') := dirty_rows l in
  (match upserts with [] => ret tt | _ => upsert_net_ledger account_id upserts end) ;;;
  (match deleted with [] => ret tt | _ => delete_net_ledger account_id deleted end) ;;;
  ret l'.

(** [net_ledger(account_id)] on first use *)
Definition load_ledger (account_id : Z) : M db NetLedger :=
  let! rows := load_net_ledger account_id in ret (nl_init rows).

(** ** A report's events *)

Definition _side_of (order_type : string) : Side := if str_starts "BUY" order_type then BUY else SELL.
Definition _pending_type_of (order_type : string) : PendingType :=
  if str_ends "LIMIT" order_type then LIMIT else STOP.

(** [sorted(report.deals, key=lambda d: (d.time_ms, d.ticket))] *)
Definition deal_le (d e : ReportDeal) : Prop :=
  rd_time_ms d < rd_time_ms e \/ (rd_time_ms d = rd_time_ms e /\ rd_ticket d <= rd_ticket e).
#[export] Instance deal_le_dec : RelDecision deal_le.
Proof. intros d e. unfold deal_le. apply _. Defined.

Definition is_close_entry (e : DealEntry) : bool :=
  match e with DeOut | DeOutBy | DeInOut => true | _ => false end.

Section report.
Context (aliases_reverse : gmap string string) (symbols : gmap string SymbolInfo).

Definition canonical (broker_name : string) : string := default broker_name (aliases_reverse !! broker_name).
Definition lot_size_of (broker_name : string) : Z :=
  match symbols !! broker_name with Some info => lot_size info | None => CENTILOTS end.

Context (prev_orders : list (Z * OrderSnapshot)) (cur_positions : list (Z * ReportPosition)).

Definition pos_levels (d : ReportDeal) : price * price :=
  match od_get (rd_position d) cur_positions with
  | Some pos => (rp_stop_loss pos, rp_take_profit pos)
  | None => (None, None)
  end.

(** A hedging master's deal *)
Definition hedging_deal (side : Side) (d : ReportDeal) : list MasterEvent :=
  match rd_entry d with
  | DeIn =>
      if od_mem (rd_order d) prev_orders
      then [EvPendingFilled {| mpf_order_id := rd_order d; mpf_position_id := rd_position d |}]
      else [EvPositionOpened {| mpo_position_id := rd_position d; mpo_symbol_name := canonical (rd_symbol d);
              mpo_side := side; mpo_volume := rd_volume d; mpo_lot_size := lot_size_of (rd_symbol d);
              mpo_stop_loss := (pos_levels d).1; mpo_take_profit := (pos_levels d).2;
              mpo_entry_price := Some (rd_price d) |}]
  | e => if is_close_entry e
         then [EvPositionClosed {| mpc_position_id := rd_position d; mpc_symbol_name := canonical (rd_symbol d);
                 mpc_closed_volume := rd_volume d;
                 mpc_remaining_volume := match od_get (rd_position d) cur_positions with
                                         | Some pos => rp_volume pos | None => 0 end |}]
         else []
  end.

(** A netting master's deal, through its ledger *)
Definition netting_deal (d : ReportDeal) (l : NetLedger) : list MasterEvent * NetLedger :=
  let '(produced, l') := apply_deal d (canonical (rd_symbol d)) (pos_levels d).1 (pos_levels d).2 l in
  if bool_decide (rd_entry d = DeIn) && od_mem (rd_order d) prev_orders
  then ([EvPendingFilled {| mpf_order_id := rd_order d; mpf_position_id := rd_ticket d |}], l')
  else (produced, l').

Definition deal_events (d : ReportDeal) (ledger : option NetLedger) : list MasterEvent * option NetLedger :=
  match side_of_deal (rd_deal_type d) with
  | None => ([], ledger)
  | Some side =>
      match ledger with
      | None => (hedging_deal side d, None)
      | Some l => let '(evs, l') := netting_deal d l in (evs, Some l')
      end
  end.

(** [for x in xs: events.extend(f(x))], the ledger threaded through *)
Fixpoint collect_events {A} (f : A -> option NetLedger -> list MasterEvent * option NetLedger)
    (xs : list A) (ledger : option NetLedger) : list MasterEvent * option NetLedger :=
  match xs with
  | [] => ([], ledger)
  | x :: xs' => let '(evs, l1) := f x ledger in
                let '(rest, l2) := collect_events f xs' l1 in
                (evs ++ rest, l2)
  end.

Definition protection_change (prev_positions : list (Z * PositionSnapshot)) (tp : Z * ReportPosition)
    (ledger : option NetLedger) : list MasterEvent * option NetLedger :=
  let '(ticket, pos) := tp in
  match od_get ticket prev_positions with
  | None => ([], ledger)
  | Some prev =>
      if levels_eqb (psn_stop_loss prev, psn_take_profit prev) (rp_stop_loss pos, rp_take_profit pos)
      then ([], ledger)
      else match ledger with
           | Some l => let '(evs, l') := apply_protection (rp_symbol pos) (rp_stop_loss pos) (rp_take_profit pos) l in
                       (evs, Some l')
           | None => ([EvPositionSLTPAmended {| mpa_position_id := ticket; mpa_stop_loss := rp_stop_loss pos;
                                                mpa_take_profit := rp_take_profit pos |}], None)
           end
  end.

Definition order_unchanged (prev : OrderSnapshot) (o : ReportOrder) : bool :=
  (osn_volume prev =? ro_volume o) && price_eqb (osn_price prev) (Some (ro_price o)) &&
  price_eqb (osn_stop_loss prev) (ro_stop_loss o) && price_eqb (osn_take_profit prev) (ro_take_profit o).

Definition order_change (to : Z * ReportOrder) : list MasterEvent :=
  let '(ticket, o) := to in
  match od_get ticket prev_orders with
  | None => [EvPendingPlaced {| mpp_order_id := ticket; mpp_symbol_name := canonical (ro_symbol o);
               mpp_side := _side_of (ro_order_type o); mpp_order_type := _pending_type_of (ro_order_type o);
               mpp_volume := ro_volume o; mpp_lot_size := lot_size_of (ro_symbol o); mpp_price := ro_price o;
               mpp_stop_loss := ro_stop_loss o; mpp_take_profit := ro_take_profit o; mpp_expiry_ts_ms := None |}]
  | Some prev =>
      if order_unchanged prev o then []
      else [EvPendingReplaced {| mpr_order_id := ticket; mpr_symbol_name := canonical (ro_symbol o);
              mpr_lot_size := lot_size_of (ro_symbol o); mpr_order_type := _pending_type_of (ro_order_type o);
              mpr_volume := ro_volume o; mpr_price := ro_price o; mpr_stop_loss := ro_stop_loss o;
              mpr_take_profit := ro_take_profit o |}]
  end.

Definition cancelled (cur_orders : list (Z * ReportOrder)) (filled : list Z) : list MasterEvent :=
  omap (fun ticket => if od_mem ticket cur_orders || bool_decide (ticket ∈ filled) then None
                      else Some (EvPendingCancelled {| mpx_order_id := ticket |})) (od_keys prev_orders).
End report.

(** [{d.order for d in report.deals if d.order and d.entry == "IN"}] *)
Definition filled_orders (deals : list ReportDeal) : list Z :=
  rd_order <$> List.filter (fun d => negb (rd_order d =? 0) && bool_decide (rd_entry d = DeIn)) deals.

Definition master_events_from_report (report : SyncReport)
    (previous : option (list PositionSnapshot * list OrderSnapshot))
    (aliases_reverse : gmap string string) (symbols : gmap string SymbolInfo) (ledger : option NetLedger)
    : list MasterEvent * option NetLedger :=
  let book := default ([], []) previous in
  let prev_positions := od_of_list ((fun p => (psn_position_id p, p)) <$> book.1) in
  let prev_orders := od_of_list ((fun o => (osn_order_id o, o)) <$> book.2) in
  let cur_positions := od_of_list ((fun p => (rp_ticket p, p)) <$> sr_positions report) in
  let cur_orders := od_of_list ((fun o => (ro_ticket o, o)) <$> sr_orders report) in
  let '(evs, l1) := collect_events (deal_events aliases_reverse symbols prev_orders cur_positions)
                      (merge_sort deal_le (sr_deals report)) ledger in
  match previous with
  | None => (evs, l1)
  | Some _ =>
      let '(amends, l2) := collect_events (protection_change prev_positions) cur_positions l1 in
      (evs ++ amends ++ mjoin (order_change aliases_reverse symbols prev_orders <$> cur_orders) ++
       cancelled prev_orders cur_orders (filled_orders (sr_deals report)), l2)
  end.
