(* ===== verification/IngressFacts.v ===== *)
(** * Facts about the MT5 ingress

    The virtual-position ledger: its invariant, the exact effect of every
    deal, and that the rows written after each report rebuild it after a
    restart.  Then the events of a report. *)

From S2P Require Import Prelude PyStr PyDecimal PyFloat Models Normalize Db Repo RepoFacts Protocol.
From S2P Require Import Outbox Dispatch Reconcile Ingress Sizing.

(** ** Order and lookup by id *)

#[export] Instance ledger_older_total : Total ledger_older.
Proof. intros a b. unfold ledger_older. lia. Qed.
#[export] Instance ledger_older_trans : Transitive ledger_older.
Proof. intros a b c. unfold ledger_older. lia. Qed.
#[export] Instance ref_older_total objects : Total (ref_older objects).
Proof. intros r q. unfold ref_older. repeat case_match; auto. apply (total ledger_older). Qed.

Definition ids (vs : list VirtualPosition) : list Z := lr_virtual_id <$> vs.
Definition vget (v : Z) (vs : list VirtualPosition) : option VirtualPosition :=
  List.find (fun w => lr_virtual_id w =? v) vs.

Lemma vget_Some v vs w : NoDup (ids vs) -> vget v vs = Some w <-> w ∈ vs /\ lr_virtual_id w = v.
Proof.
  intros Hnd. split.
  - intros [Hin Hv]%List.find_some. bsimp. by rewrite list_elem_of_In.
  - intros [Hin Hv]. destruct (vget v vs) as [w'|] eqn:E; unfold vget in E.
    + apply List.find_some in E as [Hin' Hv']. bsimp. f_equal.
      apply (NoDup_fmap_elem lr_virtual_id vs); [done|by rewrite list_elem_of_In|done|congruence].
    + rewrite list_elem_of_In in Hin. apply (List.find_none _ _ E) in Hin. bsimp. done.
Qed.

Lemma vget_None v vs : vget v vs = None <-> v ∉ ids vs.
Proof.
  split.
  - unfold vget, ids. intros E (w & -> & Hw)%list_elem_of_fmap. rewrite list_elem_of_In in Hw.
    apply (List.find_none _ _ E) in Hw. bsimp. done.
  - intros H. destruct (vget v vs) as [w|] eqn:E; [|done].
    apply List.find_some in E as [Hw Hv]. bsimp. exfalso. apply H. apply list_elem_of_fmap. exists w.
    by rewrite list_elem_of_In.
Qed.

(** Two lists with the same lookups, and unique ids, hold the same rows. *)
Lemma vget_perm vs ws :
  NoDup (ids vs) -> NoDup (ids ws) -> (forall v, vget v vs = vget v ws) -> vs ≡ₚ ws.
Proof.
  intros H1 H2 H. apply NoDup_Permutation; [by eapply NoDup_fmap_1|by eapply NoDup_fmap_1|].
  intros w. specialize (H (lr_virtual_id w)). split; intros Hw.
  - assert (vget (lr_virtual_id w) vs = Some w) as E by (by apply vget_Some).
    rewrite H in E. by apply vget_Some in E as [].
  - assert (vget (lr_virtual_id w) ws = Some w) as E by (by apply vget_Some).
    rewrite <-H in E. by apply vget_Some in E as [].
Qed.

(** Sorted lists of the same rows, with unique ids, are equal. *)
Lemma sorted_rows_eq vs ws :
  NoDup (ids vs) -> StronglySorted ledger_older vs -> StronglySorted ledger_older ws -> vs ≡ₚ ws -> vs = ws.
Proof.
  intros Hnd Hs1 Hs2 Hp. apply (StronglySorted_unique_strong ledger_older); [|done..].
  intros x y Hx Hy Hxy Hyx. rewrite <-Hp in Hy. apply (NoDup_fmap_elem lr_virtual_id vs); [done..|].
  unfold ledger_older in *. lia.
Qed.

(** ** The invariant *)

Definition deref (l : NetLedger) (r : nat) : option VirtualPosition := nl_objects l !! r.

Record ledger_wf (l : NetLedger) : Prop := {
  wf_refs : NoDup (nl_positions l);
  wf_bound : forall r, r ∈ nl_positions l -> is_Some (deref l r);
  wf_ids : NoDup (ids (positions l));
  wf_sorted : StronglySorted ledger_older (positions l);
  wf_left : Forall (fun v => 0 < lr_volume_left v) (positions l);
  wf_dirty_keys : od_wf (nl_dirty l);
  wf_dirty : forall v r, (v, r) ∈ nl_dirty l ->
    r ∈ nl_positions l /\ exists vp, deref l r = Some vp /\ lr_virtual_id vp = v;
  wf_deleted : forall v, v ∈ nl_deleted l -> v ∉ ids (positions l)
}.

Lemma elem_of_positions l w : w ∈ positions l <-> exists r, r ∈ nl_positions l /\ deref l r = Some w.
Proof. unfold positions. by rewrite list_elem_of_omap. Qed.

Lemma same_id_same_ref l r q vp wp :
  ledger_wf l -> r ∈ nl_positions l -> q ∈ nl_positions l -> deref l r = Some vp -> deref l q = Some wp ->
  lr_virtual_id vp = lr_virtual_id wp -> r = q.
Proof.
  intros [_ _ Hids _ _ _ _ _] Hr Hq Hvr Hvq Heq. unfold positions, deref in *. revert Hids Hr Hq.
  induction (nl_positions l) as [|x refs IH]; csimpl; [set_solver|]. intros Hids Hr Hq.
  assert (forall y wy, y ∈ refs -> nl_objects l !! y = Some wy ->
    lr_virtual_id wy ∈ ids (omap (fun r => nl_objects l !! r) refs)) as Hin.
  { intros y wy Hy Hwy. apply list_elem_of_fmap. exists wy. split; [done|]. apply list_elem_of_omap. by exists y. }
  apply elem_of_cons in Hr as [->|Hr], Hq as [->|Hq]; [done| | |].
  - rewrite Hvr in Hids. csimpl in Hids. apply NoDup_cons in Hids as [Hni _]. exfalso. apply Hni.
    rewrite Heq. by eapply Hin.
  - rewrite Hvq in Hids. csimpl in Hids. apply NoDup_cons in Hids as [Hni _]. exfalso. apply Hni.
    rewrite <-Heq. by eapply Hin.
  - apply IH; try done. destruct (nl_objects l !! x); [|done]. csimpl in Hids. by apply NoDup_cons in Hids as [].
Qed.

(** ** The two ways an object changes *)

Definition same_core (v w : VirtualPosition) : Prop :=
  lr_virtual_id v = lr_virtual_id w /\ lr_symbol v = lr_symbol w /\ lr_side v = lr_side w /\
  lr_volume_open v = lr_volume_open w /\ lr_opened_at_ms v = lr_opened_at_ms w.

(** The object at [r] becomes [vp'] and is marked dirty ... *)
Definition update_ref (r : nat) (vp' : VirtualPosition) (l : NetLedger) : NetLedger :=
  with_dirty (od_set (lr_virtual_id vp') r (nl_dirty l)) (with_objects (<[r := vp']> (nl_objects l)) l).
(** ... or it leaves the ledger. *)
Definition drop_ref (r : nat) (vp' : VirtualPosition) (l : NetLedger) : NetLedger :=
  with_deleted (nl_deleted l ++ [lr_virtual_id vp'])
    (with_dirty (od_pop (lr_virtual_id vp') (nl_dirty l))
      (with_positions (List.filter (fun q => negb (q =? r)%nat) (nl_positions l))
        (with_objects (<[r := vp']> (nl_objects l)) l))).

Definition replace_row (vp' : VirtualPosition) (vs : list VirtualPosition) : list VirtualPosition :=
  (fun w => if lr_virtual_id w =? lr_virtual_id vp' then vp' else w) <$> vs.
Definition remove_row (v : Z) (vs : list VirtualPosition) : list VirtualPosition :=
  List.filter (fun w => negb (lr_virtual_id w =? v)) vs.

Lemma remove_ref_filter l r vp vp' :
  ledger_wf l -> r ∈ nl_positions l -> deref l r = Some vp -> lr_virtual_id vp' = lr_virtual_id vp ->
  remove_ref (<[r := vp']> (nl_objects l)) r vp' (nl_positions l)
  = List.filter (fun q => negb (q =? r)%nat) (nl_positions l).
Proof.
  intros Hwf Hr Hvp Hid.
  assert (forall q w, q ∈ nl_positions l -> q <> r -> deref l q = Some w -> vp_eqb w vp' = false) as Hne.
  { intros q w Hq Hqr Hw. unfold vp_eqb. destruct (Z.eqb_spec (lr_virtual_id w) (lr_virtual_id vp')); [|done].
    exfalso. apply Hqr. eapply (same_id_same_ref l q r w vp); eauto. congruence. }
  pose proof (wf_refs l Hwf) as Hnd. revert Hr Hne Hnd. unfold deref.
  induction (nl_positions l) as [|q refs IH]; intros Hr Hne Hnd; [done|]. simpl.
  apply NoDup_cons in Hnd as [Hni Hnd].
  destruct (Nat.eqb_spec q r) as [->|Hqr]; simpl.
  - clear IH Hne Hr. induction refs as [|x refs IH]; [done|]. simpl.
    destruct (Nat.eqb_spec x r) as [->|]; [set_solver|]. simpl. f_equal.
    apply IH; [set_solver|]. by apply NoDup_cons in Hnd as [].
  - rewrite list_lookup_insert_ne by done.
    assert (match nl_objects l !! q with Some w => vp_eqb w vp' | None => false end = false) as ->.
    { destruct (nl_objects l !! q) as [w|] eqn:E; [|done]. apply (Hne q w); [set_solver|done..]. }
    f_equal. apply IH; [set_solver| |done]. intros y w Hy. apply Hne. set_solver.
Qed.

Lemma take_from_ref l r vp take :
  ledger_wf l -> r ∈ nl_positions l -> deref l r = Some vp ->
  take_from r vp take l =
    (if lr_volume_left vp - take <=? 0 then drop_ref else update_ref)
      r (set_lr_volume_left (lr_volume_left vp - take) vp) l.
Proof.
  intros Hwf Hr Hvp. unfold take_from. simpl. case_match; [|done].
  unfold drop_ref. simpl. by rewrite (remove_ref_filter l r vp).
Qed.

Lemma omap_objects_ne (objs : list VirtualPosition) r vp' (refs : list nat) :
  r ∉ refs -> omap (fun q => <[r := vp']> objs !! q) refs = omap (fun q => objs !! q) refs.
Proof.
  intros Hr. induction refs as [|q refs IH]; csimpl; [done|].
  rewrite list_lookup_insert_ne by set_solver. rewrite IH by set_solver. done.
Qed.

Lemma filter_refs_ne (r : nat) (refs : list nat) : r ∉ refs -> List.filter (fun q => negb (q =? r)%nat) refs = refs.
Proof.
  intros Hr. induction refs as [|q refs IH]; simpl; [done|].
  destruct (Nat.eqb_spec q r); [set_solver|]. simpl. rewrite IH by set_solver. done.
Qed.

Lemma remove_row_notin v vs : v ∉ ids vs -> remove_row v vs = vs.
Proof.
  intros H. induction vs as [|w vs IH]; simpl; [done|]. unfold ids in *. csimpl in H.
  destruct (Z.eqb_spec (lr_virtual_id w) v); [set_solver|]. simpl. f_equal. apply IH. set_solver.
Qed.
Lemma replace_row_notin vp vs : lr_virtual_id vp ∉ ids vs -> replace_row vp vs = vs.
Proof.
  intros H. induction vs as [|w vs IH]; csimpl; [done|]. unfold ids in *. csimpl in H.
  destruct (Z.eqb_spec (lr_virtual_id w) (lr_virtual_id vp)); [set_solver|]. f_equal. apply IH. set_solver.
Qed.

(** Around the reference: what is before it and what is after. *)
Lemma positions_around l r vp :
  ledger_wf l -> r ∈ nl_positions l -> deref l r = Some vp ->
  exists pre post, nl_positions l = pre ++ r :: post /\ (r ∉ pre) /\ (r ∉ post) /\
    positions l = omap (deref l) pre ++ vp :: omap (deref l) post /\
    (lr_virtual_id vp ∉ ids (omap (deref l) pre)) /\ (lr_virtual_id vp ∉ ids (omap (deref l) post)).
Proof.
  intros Hwf Hr Hvp. apply list_elem_of_split in Hr as (pre & post & Hp). exists pre, post.
  pose proof (wf_refs l Hwf) as Hnd. pose proof (wf_ids l Hwf) as Hids.
  assert (positions l = omap (deref l) pre ++ vp :: omap (deref l) post) as Hv.
  { unfold positions. rewrite Hp, omap_app. csimpl. unfold deref in Hvp. by rewrite Hvp. }
  rewrite Hp in Hnd. apply NoDup_app in Hnd as (H1 & H2 & H3). apply NoDup_cons in H3 as [H3 _].
  rewrite Hv in Hids. unfold ids in *. rewrite fmap_app in Hids. csimpl in Hids.
  apply NoDup_app in Hids as (I1 & I2 & I3). apply NoDup_cons in I3 as [I3 _].
  repeat split; try done; set_solver.
Qed.

Lemma positions_update l r vp vp' :
  ledger_wf l -> r ∈ nl_positions l -> deref l r = Some vp -> lr_virtual_id vp' = lr_virtual_id vp ->
  positions (update_ref r vp' l) = replace_row vp' (positions l).
Proof.
  intros Hwf Hr Hvp Hid.
  destruct (positions_around l r vp Hwf Hr Hvp) as (pre & post & Hp & Hpre & Hpost & Hv & I1 & I2).
  rewrite Hv. unfold positions at 1. simpl. rewrite Hp, omap_app. csimpl.
  rewrite !omap_objects_ne by done. rewrite list_lookup_insert_eq by (by eapply lookup_lt_Some).
  unfold replace_row. rewrite fmap_app. csimpl. rewrite Hid, Z.eqb_refl. rewrite <-Hid in I1, I2.
  fold (replace_row vp' (omap (deref l) pre)) (replace_row vp' (omap (deref l) post)).
  pose proof (replace_row_notin vp' _ I1) as E1. pose proof (replace_row_notin vp' _ I2) as E2.
  unfold replace_row in *. rewrite Hid in *. by rewrite E1, E2.
Qed.

Lemma positions_drop l r vp vp' :
  ledger_wf l -> r ∈ nl_positions l -> deref l r = Some vp -> lr_virtual_id vp' = lr_virtual_id vp ->
  positions (drop_ref r vp' l) = remove_row (lr_virtual_id vp) (positions l).
Proof.
  intros Hwf Hr Hvp Hid.
  destruct (positions_around l r vp Hwf Hr Hvp) as (pre & post & Hp & Hpre & Hpost & Hv & I1 & I2).
  rewrite Hv. unfold positions at 1. simpl. rewrite Hp, List.filter_app, omap_app. simpl.
  rewrite Nat.eqb_refl. simpl. rewrite !filter_refs_ne by done. rewrite !omap_objects_ne by done.
  apply remove_row_notin in I1, I2. unfold remove_row in *. rewrite List.filter_app. simpl.
  rewrite Z.eqb_refl. simpl. f_equal; by symmetry.
Qed.

Lemma ids_replace vp vs : ids (replace_row vp vs) = ids vs.
Proof.
  unfold ids, replace_row. induction vs as [|w vs IH]; csimpl; [done|]. rewrite IH. f_equal.
  by destruct (Z.eqb_spec (lr_virtual_id w) (lr_virtual_id vp)).
Qed.

Lemma vget_replace vp vs v :
  lr_virtual_id vp ∈ ids vs -> vget v (replace_row vp vs) = if v =? lr_virtual_id vp then Some vp else vget v vs.
Proof.
  intros Hin. unfold vget, replace_row. induction vs as [|w vs IH]; csimpl; [by apply elem_of_nil in Hin|].
  destruct (Z.eqb_spec (lr_virtual_id w) (lr_virtual_id vp)) as [E|E].
  - destruct (Z.eqb_spec v (lr_virtual_id vp)) as [->|Hv]; [by rewrite Z.eqb_refl|].
    rewrite (proj2 (Z.eqb_neq (lr_virtual_id vp) v)), (proj2 (Z.eqb_neq (lr_virtual_id w) v)) by congruence.
    destruct (decide (lr_virtual_id vp ∈ ids vs)) as [Hi|Hi]; [rewrite IH by done|].
    + by destruct (Z.eqb_spec v (lr_virtual_id vp)).
    + pose proof (replace_row_notin vp vs Hi) as Hr. unfold replace_row in Hr. by rewrite Hr.
  - unfold ids in Hin. csimpl in Hin. rewrite IH by set_solver.
    destruct (Z.eqb_spec (lr_virtual_id w) v), (Z.eqb_spec v (lr_virtual_id vp)); congruence.
Qed.

Lemma vget_remove v vs i : vget v (remove_row i vs) = if v =? i then None else vget v vs.
Proof.
  unfold vget, remove_row. induction vs as [|w vs IH]; simpl; [by case_match|].
  destruct (Z.eqb_spec (lr_virtual_id w) i) as [E|E]; simpl.
  - rewrite IH. destruct (Z.eqb_spec v i); [done|]. by rewrite (proj2 (Z.eqb_neq (lr_virtual_id w) v)) by congruence.
  - rewrite IH. destruct (Z.eqb_spec (lr_virtual_id w) v), (Z.eqb_spec v i); congruence.
Qed.

Lemma replace_sorted vp vs :
  (forall w, w ∈ vs -> lr_virtual_id w = lr_virtual_id vp -> lr_opened_at_ms w = lr_opened_at_ms vp) ->
  StronglySorted ledger_older vs -> StronglySorted ledger_older (replace_row vp vs).
Proof.
  intros Hk Hs. unfold replace_row. induction Hs as [|w vs Hs IH Hall]; csimpl; [constructor|].
  constructor; [apply IH; intros x Hx; apply Hk; set_solver|].
  apply Forall_fmap, Forall_forall. intros x Hx. rewrite Forall_forall in Hall. specialize (Hall x Hx).
  pose proof (Hk w ltac:(set_solver)) as Kw. pose proof (Hk x ltac:(set_solver)) as Kx. unfold compose, ledger_older in *.
  destruct (Z.eqb_spec (lr_virtual_id w) (lr_virtual_id vp)), (Z.eqb_spec (lr_virtual_id x) (lr_virtual_id vp)); lia.
Qed.

Lemma StronglySorted_filter_bool {A} (R : A -> A -> Prop) (f : A -> bool) l :
  StronglySorted R l -> StronglySorted R (List.filter f l).
Proof.
  induction 1 as [|x l Hs IH Hall]; simpl; [constructor|]. case_match; [|done]. constructor; [done|].
  rewrite Forall_forall in *. intros y Hy. apply Hall. rewrite list_elem_of_In in *.
  by apply List.filter_In in Hy as [].
Qed.

Lemma elem_filter_bool {A} (f : A -> bool) l x : x ∈ List.filter f l <-> x ∈ l /\ f x = true.
Proof. by rewrite !list_elem_of_In, List.filter_In. Qed.

Lemma NoDup_filter_bool {A} (f : A -> bool) (l : list A) : NoDup l -> NoDup (List.filter f l).
Proof. rewrite !NoDup_ListNoDup. apply List.NoDup_filter. Qed.

Lemma ids_filter_NoDup f vs : NoDup (ids vs) -> NoDup (ids (List.filter f vs)).
Proof.
  unfold ids. induction vs as [|w vs IH]; csimpl; [done|]. intros [Hni Hnd]%NoDup_cons.
  case_match; csimpl; [|auto]. constructor; [|auto]. intros (x & Hx & Hin)%list_elem_of_fmap.
  apply elem_filter_bool in Hin as [Hin _]. apply Hni. apply list_elem_of_fmap. by exists x.
Qed.

Inductive lstep (l : NetLedger) : NetLedger -> Prop :=
  | step_update r vp vp' : r ∈ nl_positions l -> deref l r = Some vp -> same_core vp' vp ->
      0 < lr_volume_left vp' -> lstep l (update_ref r vp' l)
  | step_drop r vp vp' : r ∈ nl_positions l -> deref l r = Some vp -> same_core vp' vp ->
      lstep l (drop_ref r vp' l).

Lemma deref_update l r vp' q : deref (update_ref r vp' l) q = if decide (r = q) then
  match deref l q with Some _ => Some vp' | None => None end else deref l q.
Proof.
  unfold deref, update_ref; simpl. case_decide as E; [subst q|by apply list_lookup_insert_ne].
  destruct (nl_objects l !! r) eqn:Hr; [apply list_lookup_insert_eq; by eapply lookup_lt_Some|].
  apply list_lookup_insert_None. done.
Qed.

Lemma update_wf l r vp vp' :
  ledger_wf l -> r ∈ nl_positions l -> deref l r = Some vp -> same_core vp' vp -> 0 < lr_volume_left vp' ->
  ledger_wf (update_ref r vp' l).
Proof.
  intros Hwf Hr Hvp (Hid & Hsym & Hside & Hopen & Hms) Hleft.
  pose proof (positions_update l r vp vp' Hwf Hr Hvp Hid) as Hview.
  assert (vp ∈ positions l) as Hin by (apply elem_of_positions; eauto).
  split; rewrite ?Hview, ?ids_replace; try apply Hwf.
  - intros q Hq. rewrite deref_update. destruct (wf_bound l Hwf q Hq) as [w ->]. case_decide; eauto.
  - apply replace_sorted; [|apply Hwf]. intros w Hw Hwid.
    rewrite (NoDup_fmap_elem lr_virtual_id (positions l) w vp); [done|apply Hwf|done|done|congruence].
  - unfold replace_row. apply Forall_fmap, Forall_forall. intros w Hw. unfold compose. case_match; [done|].
    pose proof (wf_left l Hwf) as Hl. rewrite Forall_forall in Hl. by apply Hl.
  - apply od_wf_set, Hwf.
  - simpl. intros v q Hq. apply od_get_in in Hq; [|apply od_wf_set, Hwf]. rewrite od_get_set in Hq.
    case_decide as Hv.
    + simplify_eq. split; [done|]. exists vp'. rewrite deref_update, decide_True, Hvp by done. done.
    + apply od_get_Some_in in Hq. destruct (wf_dirty l Hwf v q Hq) as (Hq' & w & Hw & Hwv).
      split; [done|]. rewrite deref_update, Hw. case_decide; [subst q; simplify_eq; congruence|eauto].
Qed.

Lemma drop_wf l r vp vp' :
  ledger_wf l -> r ∈ nl_positions l -> deref l r = Some vp -> lr_virtual_id vp' = lr_virtual_id vp ->
  ledger_wf (drop_ref r vp' l).
Proof.
  intros Hwf Hr Hvp Hid. pose proof (positions_drop l r vp vp' Hwf Hr Hvp Hid) as Hview.
  assert (forall q, q <> r -> deref (drop_ref r vp' l) q = deref l q) as Hd.
  { intros q Hq. unfold deref; simpl. by apply list_lookup_insert_ne. }
  split; rewrite ?Hview; simpl.
  - apply NoDup_filter_bool, Hwf.
  - intros q [Hq Hne]%elem_filter_bool. rewrite Hd by (by intros ->; rewrite Nat.eqb_refl in Hne).
    by apply Hwf.
  - apply ids_filter_NoDup, Hwf.
  - apply StronglySorted_filter_bool, Hwf.
  - pose proof (wf_left l Hwf) as Hl. rewrite Forall_forall in *. intros w [Hw _]%elem_filter_bool. auto.
  - apply od_wf_pop, Hwf.
  - intros v q Hq. apply od_get_in in Hq; [|apply od_wf_pop, Hwf]. rewrite od_get_pop in Hq by apply Hwf.
    case_decide as Hv; [done|]. apply od_get_Some_in in Hq.
    destruct (wf_dirty l Hwf v q Hq) as (Hq' & w & Hw & Hwv).
    assert (q <> r) as Hqr by (intros ->; congruence). split.
    + apply elem_filter_bool. split; [done|]. apply negb_true_iff. by apply Nat.eqb_neq.
    + exists w. by rewrite Hd.
  - intros v Hv (w & -> & [Hw Hn]%elem_filter_bool)%list_elem_of_fmap. bsimp.
    apply elem_of_app in Hv as [Hv|Hv%list_elem_of_singleton]; [|congruence].
    apply (wf_deleted l Hwf _ Hv). apply list_elem_of_fmap. by exists w.
Qed.

Lemma lstep_wf l l' : ledger_wf l -> lstep l l' -> ledger_wf l'.
Proof.
  intros Hwf [r vp vp' Hr Hvp Hc Hleft|r vp vp' Hr Hvp Hc]; [by eapply update_wf|].
  eapply drop_wf; [done..|]. apply Hc.
Qed.

Lemma rtc_lstep_wf l l' : ledger_wf l -> rtc lstep l l' -> ledger_wf l'.
Proof. intros Hwf H. induction H; eauto using lstep_wf. Qed.

(** ** What a close takes *)

(** The reference: walk the symbol's virtual positions, oldest first, taking
    from each what is left to close. *)
Fixpoint takes (remaining : Z) (ws : list VirtualPosition) : list (VirtualPosition * Z) :=
  match ws with
  | [] => []
  | w :: ws' =>
      if remaining <=? 0 then []
      else let take := Z.min (lr_volume_left w) remaining in
           if take <=? 0 then takes remaining ws' else (w, take) :: takes (remaining - take) ws'
  end.
Definition take_row (vs : list VirtualPosition) (wt : VirtualPosition * Z) : list VirtualPosition :=
  let left := lr_volume_left wt.1 - wt.2 in
  if left <=? 0 then remove_row (lr_virtual_id wt.1) vs else replace_row (set_lr_volume_left left wt.1) vs.

Lemma take_step l r vp take :
  ledger_wf l -> r ∈ nl_positions l -> deref l r = Some vp ->
  lstep l (take_from r vp take l) /\ positions (take_from r vp take l) = take_row (positions l) (vp, take) /\
  (forall q, q <> r -> q ∈ nl_positions l ->
     q ∈ nl_positions (take_from r vp take l) /\ deref (take_from r vp take l) q = deref l q).
Proof.
  intros Hwf Hr Hvp. rewrite (take_from_ref l r vp take Hwf Hr Hvp). unfold take_row; simpl.
  set (vp' := set_lr_volume_left _ vp). assert (same_core vp' vp) as Hc by done.
  destruct (Z.leb_spec (lr_volume_left vp - take) 0) as [H0|H0].
  - split; [by eapply step_drop|]. split; [by rewrite (positions_drop l r vp vp')|].
    intros q Hq Hin. split; [|by apply list_lookup_insert_ne].
    apply elem_filter_bool. split; [done|]. apply negb_true_iff. by apply Nat.eqb_neq.
  - split; [by eapply step_update|]. split; [by rewrite (positions_update l r vp vp')|].
    intros q Hq Hin. split; [done|]. by apply list_lookup_insert_ne.
Qed.

Lemma consume_spec canonical refs remaining l :
  ledger_wf l -> NoDup refs -> (forall r, r ∈ refs -> r ∈ nl_positions l) ->
  let ts := takes remaining (omap (deref l) refs) in
  let res := consume_refs canonical remaining refs l in
  res.1 = (fun wt => closed_event canonical wt.1 wt.2) <$> ts /\
  positions res.2 = fold_left take_row ts (positions l) /\ rtc lstep l res.2.
Proof.
  revert remaining l. induction refs as [|r refs IH]; intros remaining l Hwf Hnd Hin; csimpl;
    [split; [done|]; split; [done|constructor]|].
  apply NoDup_cons in Hnd as [Hni Hnd].
  destruct (wf_bound l Hwf r ltac:(set_solver)) as [vp Hvp]. rewrite Hvp. csimpl.
  destruct (Z.leb_spec remaining 0) as [H0|H0]; [split; [done|]; split; [done|constructor]|].
  match goal with |- context [match ?x with Some _ => _ | None => _ end] => change x with (deref l r) end.
  rewrite Hvp.
  destruct (Z.leb_spec (Z.min (lr_volume_left vp) remaining) 0) as [H1|H1].
  { apply IH; [done..|]. intros q Hq. apply Hin. set_solver. }
  destruct (take_step l r vp (Z.min (lr_volume_left vp) remaining) Hwf ltac:(set_solver) Hvp) as (Hstep & Hview & Hoth).
  set (l1 := take_from r vp _ l) in *.
  assert (omap (deref l1) refs = omap (deref l) refs) as Heq.
  { apply list_omap_ext, Forall2_same_length_lookup_2; [done|]. intros i x y Hx Hy. simplify_eq.
    apply Hoth; [intros ->; apply Hni; by eapply list_elem_of_lookup_2|].
    apply Hin. apply elem_of_cons. right. by eapply list_elem_of_lookup_2. }
  specialize (IH (remaining - Z.min (lr_volume_left vp) remaining) l1 (lstep_wf _ _ Hwf Hstep) Hnd).
  rewrite Heq in IH. destruct IH as (He & Hv & Hs).
  { intros q Hq. apply Hoth; [intros ->; done|apply Hin; set_solver]. }
  destruct (consume_refs canonical _ refs l1) as [evs l2]. simpl in *. split; [by rewrite He|].
  split; [by rewrite Hv, Hview|]. by econstructor.
Qed.

Lemma protect_steps sl tp refs l :
  ledger_wf l -> (forall r, r ∈ refs -> r ∈ nl_positions l) -> rtc lstep l (protect_refs sl tp refs l).2.
Proof.
  revert l. induction refs as [|r refs IH]; intros l Hwf Hin; simpl; [constructor|].
  destruct (nl_objects l !! r) as [vp|] eqn:Hvp; [|apply IH; [done|set_solver]].
  case_match; [apply IH; [done|set_solver]|].
  set (vp' := set_lr_take_profit tp (set_lr_stop_loss sl vp)).
  change (with_dirty _ _) with (update_ref r vp' l).
  assert (r ∈ nl_positions l) as Hr by set_solver.
  assert (lstep l (update_ref r vp' l)) as Hstep.
  { eapply step_update; [done|exact Hvp|done|]. pose proof (wf_left l Hwf) as Hl. rewrite Forall_forall in Hl.
    apply (Hl vp). apply elem_of_positions. by exists r. }
  assert (ledger_wf (update_ref r vp' l)) as Hwf' by (by eapply lstep_wf).
  specialize (IH (update_ref r vp' l) Hwf' ltac:(intros q Hq; apply Hin; set_solver)).
  destruct (protect_refs sl tp refs (update_ref r vp' l)). simpl in *. by econstructor.
Qed.

Lemma of_symbol_in symbol l r : r ∈ _of_symbol symbol l -> r ∈ nl_positions l.
Proof. unfold _of_symbol. by intros []%elem_filter_bool. Qed.

Lemma of_symbol_view symbol l :
  ledger_wf l -> omap (deref l) (_of_symbol symbol l) = List.filter (has_symbol symbol) (positions l).
Proof.
  intros _. unfold _of_symbol, positions, deref. induction (nl_positions l) as [|r refs IH]; csimpl; [done|].
  destruct (nl_objects l !! r) as [v|] eqn:Hv; csimpl; [|done].
  destruct (has_symbol symbol v) eqn:Hs; csimpl; [by rewrite Hv, IH|done].
Qed.

(** ** Opening *)

Lemma sorted_refs objs (refs : list nat) :
  (forall r, r ∈ refs -> is_Some (objs !! r)) -> Sorted (ref_older objs) refs ->
  StronglySorted ledger_older (omap (fun r => objs !! r) refs).
Proof.
  intros Hb Hs. apply Sorted_StronglySorted; [apply _|].
  induction Hs as [|r refs Hs IH Hh]; csimpl; [constructor|].
  destruct (Hb r ltac:(set_solver)) as [v Hv]. rewrite Hv. constructor; [apply IH; intros q Hq; apply Hb; set_solver|].
  destruct Hh as [|q refs Hq]; csimpl; [constructor|].
  destruct (Hb q ltac:(set_solver)) as [w Hw]. rewrite Hw. constructor. unfold ref_older in Hq. by rewrite Hv, Hw in Hq.
Qed.

Lemma omap_one {A B} (f : A -> option B) x y : f x = Some y -> omap f [x] = [y].
Proof. intros H. csimpl. by rewrite H. Qed.

Section opening.
Context (deal : ReportDeal) (side : Side) (volume : Z) (sl tp : price) (l : NetLedger).
Context (Hwf : ledger_wf l) (Hfresh : rd_ticket deal ∉ ids (positions l)) (Hvol : 0 < volume).
Let vp := new_virtual deal side volume sl tp.
Let l' := _open deal side volume sl tp l.

Lemma open_deref r : r ∈ nl_positions l -> deref l' r = deref l r.
Proof. intros Hr. destruct (wf_bound l Hwf r Hr) as [w Hw]. rewrite Hw. by apply lookup_app_l_Some. Qed.
Lemma open_deref_new : deref l' (length (nl_objects l)) = Some vp.
Proof. unfold deref, l', _open; simpl. rewrite lookup_app_r by lia. by rewrite Nat.sub_diag. Qed.
Lemma open_new_ref : length (nl_objects l) ∉ nl_positions l.
Proof.
  intros Hin. destruct (wf_bound l Hwf _ Hin) as [w Hw]. apply lookup_lt_Some in Hw. lia.
Qed.
Lemma open_refs : nl_positions l' ≡ₚ nl_positions l ++ [length (nl_objects l)].
Proof. apply merge_sort_Permutation. Qed.
Lemma open_in r : r ∈ nl_positions l' <-> r ∈ nl_positions l \/ r = length (nl_objects l).
Proof. rewrite open_refs. set_solver. Qed.

Lemma open_positions : positions l' ≡ₚ positions l ++ [vp].
Proof.
  change (omap (deref l') (nl_positions l') ≡ₚ omap (deref l) (nl_positions l) ++ [vp]).
  rewrite open_refs, omap_app, (omap_one _ _ vp open_deref_new).
  assert (omap (deref l') (nl_positions l) = omap (deref l) (nl_positions l)) as E.
  { apply list_omap_ext, Forall2_same_length_lookup_2; [done|]. intros i x y Hx Hy. simplify_eq.
    apply open_deref. by eapply list_elem_of_lookup_2. }
  by rewrite E.
Qed.

Lemma open_ids : ids (positions l') ≡ₚ ids (positions l) ++ [rd_ticket deal].
Proof. unfold ids. by rewrite open_positions, fmap_app. Qed.

Lemma open_wf : ledger_wf l'.
Proof.
  split.
  - rewrite open_refs. apply NoDup_app. split; [apply Hwf|]. split; [|apply NoDup_singleton].
    intros r Hr ->%list_elem_of_singleton. by apply open_new_ref.
  - intros r [Hr| ->]%open_in; [rewrite open_deref by done; by apply Hwf|]. rewrite open_deref_new. eauto.
  - rewrite open_ids. apply NoDup_app. split; [apply Hwf|]. split; [|apply NoDup_singleton].
    intros v Hv ->%list_elem_of_singleton. done.
  - apply sorted_refs; [|apply (Sorted_merge_sort (ref_older (nl_objects l')))].
    intros r [Hr| ->]%open_in; [|pose proof open_deref_new as H; unfold deref in H; rewrite H; eauto].
    pose proof (open_deref r Hr) as H. unfold deref in H. rewrite H. by apply (wf_bound l Hwf).
  - rewrite open_positions. apply Forall_app. split; [apply Hwf|]. by repeat constructor.
  - apply od_wf_set, Hwf.
  - intros v r Hr. apply od_get_in in Hr; [|apply od_wf_set, Hwf]. simpl in Hr. rewrite od_get_set in Hr.
    case_decide as Hv.
    + simplify_eq. split; [apply open_in; by right|]. exists vp. by rewrite open_deref_new.
    + apply od_get_Some_in in Hr. destruct (wf_dirty l Hwf v r Hr) as (Hr' & w & Hw & Hwv).
      split; [apply open_in; by left|]. exists w. by rewrite open_deref.
  - intros v [Hv Hne]%elem_filter_bool. bsimp. rewrite open_ids, elem_of_app, list_elem_of_singleton.
    intros [Hi|Hi]; [by eapply (wf_deleted l Hwf)|done].
Qed.
End opening.

(** ** The stored rows *)

Definition table := list (Z * ledger_row).
Definition rows_of (a : Z) (t : table) : list VirtualPosition := (List.filter (fun p => p.1 =? a) t).*2.
Definition rows_else (a : Z) (t : table) : table := List.filter (fun p => negb (p.1 =? a)) t.

(** What [ON CONFLICT DO UPDATE] makes of the stored row [w]. *)
Definition refreshed (u w : VirtualPosition) : VirtualPosition :=
  set_lr_take_profit (lr_take_profit u) (set_lr_stop_loss (lr_stop_loss u)
    (set_lr_volume_left (lr_volume_left u) w)).

Lemma refreshed_core u w : same_core w u -> refreshed u w = u.
Proof. destruct u, w. unfold same_core, refreshed; simpl. intros (-> & -> & -> & -> & ->). done. Qed.

Lemma rows_of_app a t k : rows_of a (t ++ k) = rows_of a t ++ rows_of a k.
Proof. unfold rows_of. by rewrite List.filter_app, fmap_app. Qed.

Lemma stored_iff a v t : existsb (ledger_key a v) t = true <-> v ∈ ids (rows_of a t).
Proof.
  unfold rows_of, ids. rewrite existsb_exists. split.
  - intros ([b w] & Hin & Hk). unfold ledger_key in Hk. bsimp. simpl in *. subst.
    apply list_elem_of_fmap. exists w. split; [done|]. apply list_elem_of_fmap. exists (a, w). split; [done|].
    apply elem_filter_bool. rewrite list_elem_of_In. split; [done|]. apply Z.eqb_refl.
  - intros (w & -> & Hw)%list_elem_of_fmap. apply list_elem_of_fmap in Hw as ([b w'] & -> & Hw).
    apply elem_filter_bool in Hw as [Hw Hb]. simpl in *. bsimp. subst b. exists (a, w').
    rewrite <-list_elem_of_In. split; [done|]. unfold ledger_key. simpl. by rewrite !Z.eqb_refl.
Qed.

Lemma upsert_rows a u t :
  NoDup (ids (rows_of a t)) ->
  rows_of a (upsert_ledger_row a u t) =
    match vget (lr_virtual_id u) (rows_of a t) with
    | Some w => replace_row (refreshed u w) (rows_of a t)
    | None => rows_of a t ++ [u]
    end.
Proof.
  intros Hnd. unfold upsert_ledger_row.
  destruct (vget (lr_virtual_id u) (rows_of a t)) as [w|] eqn:Ew.
  - assert (existsb (ledger_key a (lr_virtual_id u)) t = true) as ->.
    { apply stored_iff. apply vget_Some in Ew as [Hw Hid]; [|done]. apply list_elem_of_fmap. by exists w. }
    assert (forall x, x ∈ rows_of a t -> lr_virtual_id x = lr_virtual_id u -> x = w) as Huniq.
    { intros x Hx Hid. apply vget_Some in Ew as [Hw Hw']; [|done].
      apply (NoDup_fmap_elem lr_virtual_id (rows_of a t)); [done..|congruence]. }
    assert (lr_virtual_id w = lr_virtual_id u) as Hwid by (by apply vget_Some in Ew as []).
    clear Ew Hnd. revert Huniq. unfold rows_of, replace_row.
    change (lr_virtual_id (refreshed u w)) with (lr_virtual_id w). rewrite Hwid.
    induction t as [|[b x] t IH]; intros Huniq; csimpl; [done|].
    change (ledger_key a (lr_virtual_id u) (b, x)) with ((b =? a) && (lr_virtual_id x =? lr_virtual_id u)). destruct (Z.eqb_spec b a) as [->|Hb]; simpl.
    + cbn [List.filter fst] in Huniq. rewrite Z.eqb_refl in Huniq. csimpl in Huniq.
      destruct (Z.eqb_spec (lr_virtual_id x) (lr_virtual_id u)) as [E|E]; simpl; rewrite Z.eqb_refl; csimpl.
      * rewrite (Huniq x) by set_solver. f_equal. apply IH. intros y Hy. apply Huniq. set_solver.
      * f_equal. apply IH. intros y Hy. apply Huniq. set_solver.
    + cbn [List.filter fst] in Huniq. rewrite (proj2 (Z.eqb_neq b a)) in * by done. apply IH. done.
  - assert (existsb (ledger_key a (lr_virtual_id u)) t = false) as ->.
    { apply vget_None in Ew. apply not_true_iff_false. by rewrite stored_iff. }
    rewrite rows_of_app. unfold rows_of at 2. simpl. by rewrite Z.eqb_refl.
Qed.

Lemma upsert_else a u t : rows_else a (upsert_ledger_row a u t) = rows_else a t.
Proof.
  unfold upsert_ledger_row, rows_else. case_match.
  - clear. induction t as [|[b x] t IH]; csimpl; [done|]. change (ledger_key a (lr_virtual_id u) (b, x)) with ((b =? a) && (lr_virtual_id x =? lr_virtual_id u)).
    destruct (Z.eqb_spec b a) as [->|Hb]; simpl; [|by rewrite (proj2 (Z.eqb_neq b a)), IH by done].
    destruct (lr_virtual_id x =? lr_virtual_id u); simpl; rewrite Z.eqb_refl; apply IH.
  - rewrite List.filter_app. simpl. by rewrite Z.eqb_refl, app_nil_r.
Qed.

Lemma vget_app v vs ws : vget v (vs ++ ws) = match vget v vs with Some w => Some w | None => vget v ws end.
Proof. unfold vget. induction vs as [|w vs IH]; simpl; [done|]. by destruct (lr_virtual_id w =? v). Qed.

Lemma upsert_vget a u t v :
  NoDup (ids (rows_of a t)) ->
  vget v (rows_of a (upsert_ledger_row a u t)) =
    if v =? lr_virtual_id u
    then Some (match vget v (rows_of a t) with Some w => refreshed u w | None => u end)
    else vget v (rows_of a t).
Proof.
  intros Hnd. rewrite upsert_rows by done.
  destruct (vget (lr_virtual_id u) (rows_of a t)) as [w|] eqn:Ew.
  - assert (lr_virtual_id w = lr_virtual_id u) as Hid by (by apply vget_Some in Ew as []).
    rewrite vget_replace; [|apply vget_Some in Ew as [Hw _]; [|done]; apply list_elem_of_fmap; by exists w].
    simpl. rewrite Hid. destruct (Z.eqb_spec v (lr_virtual_id u)) as [->|]; [by rewrite Ew|done].
  - rewrite vget_app. destruct (Z.eqb_spec v (lr_virtual_id u)) as [->|Hv].
    + rewrite Ew. unfold vget. simpl. by rewrite Z.eqb_refl.
    + destruct (vget v (rows_of a t)); [done|]. unfold vget. simpl. by rewrite (proj2 (Z.eqb_neq (lr_virtual_id u) v)).
Qed.

Lemma upsert_NoDup a u t : NoDup (ids (rows_of a t)) -> NoDup (ids (rows_of a (upsert_ledger_row a u t))).
Proof.
  intros Hnd. rewrite upsert_rows by done.
  destruct (vget (lr_virtual_id u) (rows_of a t)) as [w|] eqn:Ew; [by rewrite ids_replace|].
  unfold ids. rewrite fmap_app. apply NoDup_app. split; [done|]. split; [|apply NoDup_singleton].
  apply vget_None in Ew. intros v Hv ->%list_elem_of_singleton. done.
Qed.

Definition upsert_all (a : Z) (us : list VirtualPosition) (t : table) : table :=
  fold_left (fun t u => upsert_ledger_row a u t) us t.

Lemma upsert_all_spec a us t :
  NoDup (ids (rows_of a t)) -> NoDup (ids us) ->
  NoDup (ids (rows_of a (upsert_all a us t))) /\ rows_else a (upsert_all a us t) = rows_else a t /\
  forall v, vget v (rows_of a (upsert_all a us t)) =
    match vget v us with
    | Some u => Some (match vget v (rows_of a t) with Some w => refreshed u w | None => u end)
    | None => vget v (rows_of a t)
    end.
Proof.
  unfold upsert_all. revert t. induction us as [|u us IH]; intros t Hnd Hus; simpl; [done|].
  unfold ids in Hus. csimpl in Hus. apply NoDup_cons in Hus as [Hni Hus].
  destruct (IH (upsert_ledger_row a u t) (upsert_NoDup a u t Hnd) Hus) as (H1 & H2 & H3).
  split; [done|]. split; [by rewrite H2, upsert_else|]. intros v. rewrite H3, upsert_vget by done.
  change (vget v (u :: us)) with (if lr_virtual_id u =? v then Some u else vget v us).
  rewrite (Z.eqb_sym (lr_virtual_id u) v). destruct (Z.eqb_spec v (lr_virtual_id u)) as [->|Hv]; [|done].
  assert (vget (lr_virtual_id u) us = None) as -> by (by apply vget_None). done.
Qed.

Definition delete_all (a : Z) (vs : list Z) (t : table) : table :=
  List.filter (fun p => negb ((p.1 =? a) && bool_decide (lr_virtual_id p.2 ∈ vs))) t.

Lemma delete_all_spec a vs t :
  NoDup (ids (rows_of a t)) ->
  NoDup (ids (rows_of a (delete_all a vs t))) /\ rows_else a (delete_all a vs t) = rows_else a t /\
  forall v, vget v (rows_of a (delete_all a vs t)) =
    if bool_decide (v ∈ vs) then None else vget v (rows_of a t).
Proof.
  intros Hnd.
  assert (rows_of a (delete_all a vs t) = List.filter (fun w => negb (bool_decide (lr_virtual_id w ∈ vs))) (rows_of a t)) as E.
  { clear Hnd. unfold rows_of, delete_all. induction t as [|[b w] t IH]; csimpl; [done|].
    destruct (Z.eqb_spec b a) as [->|Hb]; simpl.
    - case_bool_decide; csimpl; [done|]. rewrite Z.eqb_refl. csimpl. by rewrite IH.
    - by rewrite (proj2 (Z.eqb_neq b a)). }
  split; [rewrite E; by apply ids_filter_NoDup|]. split.
  - unfold rows_else, delete_all. clear. induction t as [|[b w] t IH]; simpl; [done|].
    destruct (Z.eqb_spec b a) as [->|Hb]; simpl.
    + case_match; simpl; [by rewrite Z.eqb_refl|done].
    + by rewrite (proj2 (Z.eqb_neq b a)), IH.
  - intros v. rewrite E. unfold vget. clear. induction (rows_of a t) as [|w ws IH]; simpl; [by case_match|].
    destruct (decide (lr_virtual_id w ∈ vs)) as [Hw|Hw].
    + rewrite (bool_decide_true (lr_virtual_id w ∈ vs)) by done. simpl. rewrite IH.
      case_bool_decide as Hv; [done|]. destruct (Z.eqb_spec (lr_virtual_id w) v); [congruence|done].
    + rewrite (bool_decide_false (lr_virtual_id w ∈ vs)) by done. simpl. rewrite IH.
      destruct (Z.eqb_spec (lr_virtual_id w) v) as [<-|]; [|done]. by rewrite bool_decide_false.
Qed.

(** ** What is still to be written *)

(** The stored rows and the ledger agree outside what is marked dirty or
    deleted; a dirty row, if stored, differs only in the columns an upsert
    refreshes. *)
Record pending (a : Z) (l : NetLedger) (t : table) : Prop := {
  pend_ids : NoDup (ids (rows_of a t));
  pend_dirty : forall v r w, od_get v (nl_dirty l) = Some r -> vget v (rows_of a t) = Some w ->
    exists vp, vget v (positions l) = Some vp /\ same_core w vp;
  pend_clean : forall v, od_get v (nl_dirty l) = None -> v ∉ nl_deleted l ->
    vget v (rows_of a t) = vget v (positions l)
}.

Lemma same_core_trans u v w : same_core u v -> same_core v w -> same_core u w.
Proof. unfold same_core. naive_solver congruence. Qed.
Lemma same_core_sym v w : same_core v w -> same_core w v.
Proof. unfold same_core. naive_solver congruence. Qed.

Lemma positions_vget l r vp :
  ledger_wf l -> r ∈ nl_positions l -> deref l r = Some vp -> vget (lr_virtual_id vp) (positions l) = Some vp.
Proof. intros Hwf Hr Hvp. apply vget_Some; [apply Hwf|]. split; [|done]. apply elem_of_positions. eauto. Qed.

(** A stored row of an object the ledger holds has its fixed columns. *)
Lemma stored_core a l t r vp w :
  ledger_wf l -> pending a l t -> r ∈ nl_positions l -> deref l r = Some vp ->
  vget (lr_virtual_id vp) (rows_of a t) = Some w -> same_core w vp.
Proof.
  intros Hwf [_ Hd Hc] Hr Hvp Hw. pose proof (positions_vget l r vp Hwf Hr Hvp) as Hg.
  destruct (od_get (lr_virtual_id vp) (nl_dirty l)) as [q|] eqn:E.
  - destruct (Hd _ _ _ E Hw) as (x & Hx & Hcore). by simplify_eq.
  - rewrite Hc in Hw; [|done|].
    + simplify_eq. done.
    + intros Hdel. apply (wf_deleted l Hwf _ Hdel). apply list_elem_of_fmap. exists vp. split; [done|].
      apply elem_of_positions. eauto.
Qed.

Lemma lstep_pending a l l' t : ledger_wf l -> pending a l t -> lstep l l' -> pending a l' t.
Proof.
  intros Hwf Hp Hstep. pose proof Hp as [Hnd Hd Hc].
  destruct Hstep as [r vp vp' Hr Hvp Hcore Hleft|r vp vp' Hr Hvp Hcore];
    assert (lr_virtual_id vp' = lr_virtual_id vp) as Hid by apply Hcore.
  - assert (forall v, vget v (positions (update_ref r vp' l)) =
        if v =? lr_virtual_id vp then Some vp' else vget v (positions l)) as Hview.
    { intros v. rewrite (positions_update l r vp vp') by done. rewrite vget_replace; [by rewrite Hid|].
      rewrite Hid. apply list_elem_of_fmap. exists vp. split; [done|]. apply elem_of_positions. eauto. }
    split; [done| |]; simpl; intros v; rewrite od_get_set, Hview, Hid.
    + intros q w Hq Hw. case_decide as Hv.
      * subst v. rewrite Z.eqb_refl. exists vp'. split; [done|].
        eapply same_core_trans; [by eapply stored_core|by apply same_core_sym].
      * rewrite (proj2 (Z.eqb_neq _ _)) by done. by eapply Hd.
    + case_decide as Hv; [done|]. rewrite (proj2 (Z.eqb_neq _ _)) by done. apply Hc.
  - assert (forall v, vget v (positions (drop_ref r vp' l)) =
        if v =? lr_virtual_id vp then None else vget v (positions l)) as Hview.
    { intros v. by rewrite (positions_drop l r vp vp'), vget_remove by done. }
    split; [done| |]; simpl; intros v; rewrite od_get_pop, Hview, Hid by apply Hwf.
    + intros q w Hq Hw. case_decide as Hv; [done|]. rewrite (proj2 (Z.eqb_neq _ _)) by done. by eapply Hd.
    + case_decide as Hv; [set_solver|]. rewrite (proj2 (Z.eqb_neq _ _)) by done. intros H1 H2. apply Hc; set_solver.
Qed.

Lemma rtc_lstep_pending a l l' t : ledger_wf l -> pending a l t -> rtc lstep l l' -> pending a l' t.
Proof. intros Hwf Hp H. induction H; eauto using lstep_pending, lstep_wf. Qed.

Lemma open_pending a deal side volume sl tp l t :
  ledger_wf l -> rd_ticket deal ∉ ids (positions l) -> rd_ticket deal ∉ ids (rows_of a t) -> 0 < volume ->
  pending a l t -> pending a (_open deal side volume sl tp l) t.
Proof.
  intros Hwf Hf Hs Hvol [Hnd Hd Hc]. pose proof (open_wf deal side volume sl tp l Hwf Hf Hvol) as Hwf'.
  assert (forall v, v <> rd_ticket deal -> vget v (positions (_open deal side volume sl tp l)) = vget v (positions l)) as Hview.
  { intros v Hv. apply option_eq. intros w. rewrite !vget_Some by apply Hwf || apply Hwf'.
    rewrite open_positions by done. rewrite elem_of_app, list_elem_of_singleton.
    split; [|naive_solver]. intros [[Hw| ->] Hid]; [done|]. simpl in Hid. congruence. }
  split; [done| |]; simpl; intros v; rewrite od_get_set.
  - intros q w Hq Hw. case_decide as Hv.
    + subst v. exfalso. apply Hs. apply vget_Some in Hw as [Hw Hid]; [|done]. apply list_elem_of_fmap. eauto.
    + rewrite Hview by done. by eapply Hd.
  - case_decide as Hv; [done|]. intros H1 H2. rewrite Hview by done. apply Hc; [done|].
    intros Hdel. apply H2. apply elem_filter_bool. split; [done|]. apply negb_true_iff. by apply Z.eqb_neq.
Qed.

(** Writing the dirty rows and deleting the consumed ones brings the table
    level with the ledger. *)
Lemma flush_spec a l t :
  ledger_wf l -> pending a l t ->
  let t' := delete_all a (nl_deleted l) (upsert_all a (dirty_rows l).1.1 t) in
  NoDup (ids (rows_of a t')) /\ rows_else a t' = rows_else a t /\
  forall v, vget v (rows_of a t') = vget v (positions l).
Proof.
  intros Hwf Hp. set (us := (dirty_rows l).1.1).
  assert (forall v r, od_get v (nl_dirty l) = Some r -> exists vp, deref l r = Some vp /\ lr_virtual_id vp = v /\
     r ∈ nl_positions l) as Hdirty.
  { intros v r Hr. apply od_get_Some_in in Hr. destruct (wf_dirty l Hwf v r Hr) as (H1 & vp & H2 & H3). eauto. }
  assert (ids us = od_keys (nl_dirty l)) as Hids.
  { unfold us, dirty_rows, ids, od_keys; simpl.
    assert (forall v r, (v, r) ∈ nl_dirty l -> exists vp, nl_objects l !! r = Some vp /\ lr_virtual_id vp = v) as Hd
      by (intros v r Hr; destruct (wf_dirty l Hwf v r Hr) as (_ & H); exact H).
    revert Hd. clear Hdirty. induction (nl_dirty l) as [|[v r] d IH]; intros Hd; csimpl; [done|].
    destruct (Hd v r ltac:(set_solver)) as (vp & Hvp & Hid). rewrite Hvp. csimpl. f_equal; [done|].
    apply IH. intros v' r' H. apply Hd. set_solver. }
  assert (NoDup (ids us)) as Hnus by (rewrite Hids; apply Hwf).
  assert (forall v, vget v us = match od_get v (nl_dirty l) with Some r => deref l r | None => None end) as Hus.
  { intros v. destruct (od_get v (nl_dirty l)) as [r|] eqn:E.
    - destruct (Hdirty v r E) as (vp & Hvp & Hid & Hin). rewrite Hvp. apply vget_Some; [done|]. split; [|done].
      unfold us, dirty_rows; simpl. apply list_elem_of_omap. exists (v, r). split; [by apply od_get_Some_in|done].
    - apply vget_None. rewrite Hids. by apply od_get_None. }
  destruct (upsert_all_spec a us t (pend_ids a l t Hp) Hnus) as (H1 & H2 & H3).
  destruct (delete_all_spec a (nl_deleted l) _ H1) as (H4 & H5 & H6).
  split; [done|]. split; [by rewrite H5|]. intros v. rewrite H6, H3, Hus.
  case_bool_decide as Hdel; [symmetry; apply vget_None; by apply (wf_deleted l Hwf)|].
  destruct (od_get v (nl_dirty l)) as [r|] eqn:E; [|by apply Hp].
  destruct (Hdirty v r E) as (vp & Hvp & Hid & Hin). rewrite Hvp. subst v.
  rewrite (positions_vget l r vp Hwf Hin Hvp). f_equal.
  destruct (vget (lr_virtual_id vp) (rows_of a t)) as [w|] eqn:Ew; [|done].
  apply refreshed_core. by eapply (stored_core a l t r).
Qed.

(** ** Restarts *)

Inductive ledger_op :=
  | LDeal (d : ReportDeal) (canonical : string) (sl tp : price)
  | LProtect (symbol : string) (sl tp : price)
  | LPersist.

Definition ledger_step (a : Z) (ls : NetLedger * db) (op : ledger_op) : NetLedger * db :=
  match op with
  | LDeal d c sl tp => ((apply_deal d c sl tp ls.1).2, ls.2)
  | LProtect sym sl tp => ((apply_protection sym sl tp ls.1).2, ls.2)
  | LPersist => match _persist_net_ledger a ls.1 ls.2 with
                | (Ok l', s') => (l', s')
                | (Raise _, s') => (ls.1, s')
                end
  end.
Definition ledger_run (a : Z) (ops : list ledger_op) (ls : NetLedger * db) : NetLedger * db :=
  fold_left (ledger_step a) ops ls.

(** The tickets an operation may open a virtual position for. *)
Definition opens (op : ledger_op) : list Z :=
  match op with
  | LDeal d _ _ _ => match rd_entry d with DeIn | DeInOut => [rd_ticket d] | _ => [] end
  | _ => []
  end.

Lemma lstep_ids l l' : ledger_wf l -> lstep l l' -> ids (positions l') ⊆ ids (positions l).
Proof.
  intros Hwf [r vp vp' Hr Hvp Hcore Hleft|r vp vp' Hr Hvp Hcore].
  - rewrite (positions_update l r vp vp' Hwf Hr Hvp) by apply Hcore. by rewrite ids_replace.
  - rewrite (positions_drop l r vp vp' Hwf Hr Hvp) by apply Hcore.
    intros v (w & -> & [Hw _]%elem_filter_bool)%list_elem_of_fmap. apply list_elem_of_fmap. by exists w.
Qed.

Lemma rtc_lstep_ids l l' : ledger_wf l -> rtc lstep l l' -> ids (positions l') ⊆ ids (positions l).
Proof.
  intros Hwf H. induction H as [|x y z Hxy _ IH]; [done|].
  etrans; [apply IH; by eapply lstep_wf|by apply lstep_ids].
Qed.

(** A deal's effect: some positions change or leave, then one may be opened. *)
Lemma deal_steps d c sl tp l :
  ledger_wf l ->
  rtc lstep l (apply_deal d c sl tp l).2 \/
  exists side v l1, rtc lstep l l1 /\ 0 < v /\ opens (LDeal d c sl tp) = [rd_ticket d] /\
    (apply_deal d c sl tp l).2 = _open d side v sl tp l1.
Proof.
  intros Hwf. unfold apply_deal. destruct (side_of_deal (rd_deal_type d)) as [side|]; [|left; constructor].
  destruct (Z.leb_spec (rd_volume d) 0) as [Hv|Hv]; [left; constructor|].
  assert (forall vol, rtc lstep l (_consume (rd_symbol d) c vol l).2) as Hc.
  { intros vol. apply consume_spec; [done| |apply of_symbol_in].
    apply NoDup_filter_bool, Hwf. }
  unfold opens. destruct (rd_entry d) eqn:He; simpl; try (by left; apply Hc); try (left; constructor).
  - right. exists side, (rd_volume d), l. split; [constructor|]. done.
  - specialize (Hc (held_volume_of (rd_symbol d) l)). destruct (_consume _ _ _ l) as [evs l1]. simpl in *.
    destruct (Z.ltb_spec 0 (rd_volume d - held_volume_of (rd_symbol d) l)); [|by left].
    right. by exists side, (rd_volume d - held_volume_of (rd_symbol d) l), l1.
Qed.

Lemma persist_run a l s :
  _persist_net_ledger a l s =
    (Ok (dirty_rows l).2,
     set_db_net_ledger (delete_all a (nl_deleted l) (upsert_all a (dirty_rows l).1.1 (db_net_ledger s))) s).
Proof.
  assert (forall t, delete_all a [] t = t) as Hdel.
  { intros t. unfold delete_all. induction t as [|p t IH]; simpl; [done|].
    rewrite andb_false_r. simpl. f_equal. exact IH. }
  unfold _persist_net_ledger, dirty_rows. simpl. unfold bind, ret.
  destruct (omap _ (nl_dirty l)) as [|u us]; simpl; destruct (nl_deleted l) as [|v vs]; simpl; try done.
  - rewrite Hdel. by destruct s.
  - by rewrite Hdel.
Qed.

Record ledger_inv (a : Z) (other : table) (used : list Z) (ls : NetLedger * db) : Prop := {
  li_wf : ledger_wf ls.1;
  li_pending : pending a ls.1 (db_net_ledger ls.2);
  li_other : rows_else a (db_net_ledger ls.2) = other;
  li_used : ids (positions ls.1) ⊆ used;
  li_stored : ids (rows_of a (db_net_ledger ls.2)) ⊆ used
}.

Lemma persist_wf l : ledger_wf l -> ledger_wf (dirty_rows l).2.
Proof. intros [H1 H2 H3 H4 H5 H6 H7 H8]. split; try done; simpl; try set_solver. apply NoDup_nil_2. Qed.

Lemma vget_ids vs ws : (forall v, vget v vs = vget v ws) -> ids vs ⊆ ids ws.
Proof.
  intros H v Hv. destruct (decide (v ∈ ids ws)) as [|Hn]; [done|]. exfalso.
  apply vget_None in Hn. rewrite <-H in Hn. by apply vget_None in Hn.
Qed.

Lemma ledger_step_inv a other used op ls :
  ledger_inv a other used ls -> (forall v, v ∈ opens op -> v ∉ used) ->
  ledger_inv a other (used ++ opens op) (ledger_step a ls op).
Proof.
  destruct ls as [l s]. intros [Hwf Hp Ho Hu Hst] Hfresh. simpl in *.
  destruct op as [d c sl tp|sym sl tp|]; cbn [ledger_step fst snd].
  - destruct (deal_steps d c sl tp l Hwf) as [Hs|(side & v & l1 & Hs & Hv & Hop & ->)].
    + split; cbn [fst snd]; [by eapply rtc_lstep_wf|by eapply rtc_lstep_pending|done| |set_solver].
      pose proof (rtc_lstep_ids _ _ Hwf Hs). set_solver.
    + pose proof (rtc_lstep_ids _ _ Hwf Hs) as Hi. pose proof (rtc_lstep_wf _ _ Hwf Hs) as Hwf1.
      assert (rd_ticket d ∉ used) as Hn by (apply Hfresh; rewrite Hop; set_solver). rewrite Hop.
      assert (rd_ticket d ∉ ids (positions l1)) as Hn1 by set_solver.
      split; cbn [fst snd]; [by apply open_wf| |done| |set_solver].
      * apply open_pending; [done|done|set_solver|done|by apply (rtc_lstep_pending a l l1)].
      * intros x Hx. rewrite open_ids in Hx by done. set_solver.
  - assert (rtc lstep l (apply_protection sym sl tp l).2) as Hs by (apply protect_steps; [done|apply of_symbol_in]).
    split; simpl; [by eapply rtc_lstep_wf|by eapply rtc_lstep_pending|done| |set_solver].
    pose proof (rtc_lstep_ids _ _ Hwf Hs). set_solver.
  - rewrite persist_run. destruct (flush_spec a l (db_net_ledger s) Hwf Hp) as (H1 & H2 & H3).
    split; cbn [fst snd set_db_net_ledger db_net_ledger]; [by apply persist_wf| |by rewrite H2|rewrite app_nil_r; exact Hu|].
    + split; [done|by intros|]. intros v _ _. apply H3.
    + rewrite app_nil_r. etrans; [by apply vget_ids|exact Hu].
Qed.

Lemma ledger_run_inv a other used ops ls :
  ledger_inv a other used ls -> NoDup (mjoin (opens <$> ops)) ->
  (forall v, v ∈ mjoin (opens <$> ops) -> v ∉ used) ->
  ledger_inv a other (used ++ mjoin (opens <$> ops)) (ledger_run a ops ls).
Proof.
  unfold ledger_run. revert used ls. induction ops as [|op ops IH]; intros used ls Hi Hnd Hf; csimpl;
    [by rewrite app_nil_r|].
  csimpl in Hnd. apply NoDup_app in Hnd as (H1 & H2 & H3). csimpl in Hf. rewrite app_assoc.
  apply IH; [|done|].
  - apply ledger_step_inv; [done|]. intros v Hv. apply Hf. set_solver.
  - intros v Hv. rewrite elem_of_app. intros [Hu|Ho]; [eapply Hf; [|exact Hu]; set_solver|]. by eapply H2.
Qed.

(** The table's primary key and its check constraint. *)
Definition table_ok (a : Z) (s : db) : Prop :=
  NoDup (ids (rows_of a (db_net_ledger s))) /\
  Forall (fun v => 0 < lr_volume_left v) (rows_of a (db_net_ledger s)).

Lemma init_positions rows :
  NoDup (ids rows) -> positions (nl_init rows) ≡ₚ rows /\ StronglySorted ledger_older (positions (nl_init rows)).
Proof.
  intros Hnd.
  assert (nl_positions (nl_init rows) ≡ₚ seq 0 (length rows)) as Hp by apply merge_sort_Permutation.
  assert (omap (fun r => rows !! r) (seq 0 (length rows)) = rows) as Hall.
  { clear. induction rows as [|v rows IH] using rev_ind; [done|].
    rewrite length_app, Nat.add_comm. simpl (length [v] + length rows)%nat. rewrite seq_S, omap_app. simpl.
    rewrite lookup_app_r, Nat.sub_diag by lia. simpl. f_equal. etrans; [|exact IH].
    apply list_omap_ext, Forall2_same_length_lookup_2; [done|]. intros i x y Hx Hy. simplify_eq.
    apply lookup_seq in Hx as [-> Hi]. by apply lookup_app_l. }
  split.
  - unfold positions. rewrite Hp. simpl. by rewrite Hall.
  - apply sorted_refs; [|apply (Sorted_merge_sort (ref_older rows))].
    intros r Hr. rewrite Hp, elem_of_seq in Hr. apply lookup_lt_is_Some. simpl. lia.
Qed.

Lemma ledger_init_inv a s :
  table_ok a s ->
  ledger_inv a (rows_else a (db_net_ledger s)) (ids (rows_of a (db_net_ledger s)))
    (nl_init (merge_sort ledger_older (rows_of a (db_net_ledger s))), s).
Proof.
  intros [Hnd Hleft]. set (rows := merge_sort ledger_older (rows_of a (db_net_ledger s))).
  assert (rows ≡ₚ rows_of a (db_net_ledger s)) as Hp by apply merge_sort_Permutation.
  clearbody rows. assert (NoDup (ids rows)) as Hnd' by (unfold ids; by rewrite Hp).
  assert (nl_positions (nl_init rows) ≡ₚ seq 0 (length rows)) as Hseq by apply merge_sort_Permutation.
  destruct (init_positions rows Hnd') as [Hpos Hsort].
  assert (NoDup (ids (positions (nl_init rows)))) as Hnd2 by (unfold ids; by rewrite Hpos).
  split; cbn [fst snd]; try done.
  - split; try done; try set_solver.
    + rewrite Hseq. apply NoDup_seq.
    + intros r Hr. rewrite Hseq, elem_of_seq in Hr. apply lookup_lt_is_Some. simpl. lia.
    + by rewrite Hpos, Hp.
    + apply NoDup_nil_2.
  - split; [done|done|]. intros v _ _. apply option_eq. intros w. rewrite !vget_Some by done.
    by rewrite Hpos, Hp.
  - unfold ids. rewrite Hpos, Hp. done.
Qed.

(** C36: the ledger of a netting master survives a restart.  From the stored
    rows, after any sequence of deals, stop/target changes and persists that
    opens each ticket once, persisting makes the stored rows exactly the
    ledger's positions, oldest first: a ledger rebuilt from them has the same
    positions, and no other account's rows have changed. *)
Theorem ledger_survives_restart a s ops :
  table_ok a s -> NoDup (ids (rows_of a (db_net_ledger s)) ++ mjoin (opens <$> ops)) ->
  exists l0, load_ledger a s = (Ok l0, s) /\
    let ls := ledger_run a (ops ++ [LPersist]) (l0, s) in
    ledger_wf ls.1 /\ value (load_net_ledger a) ls.2 = Ok (positions ls.1) /\
    (exists l1, load_ledger a ls.2 = (Ok l1, ls.2) /\ positions l1 = positions ls.1) /\
    rows_else a (db_net_ledger ls.2) = rows_else a (db_net_ledger s).
Proof.
  intros Hok Hnd. eexists. split; [reflexivity|]. fold (rows_of a (db_net_ledger s)).
  set (l0 := nl_init _). apply NoDup_app in Hnd as (_ & Hdisj & Hnd).
  assert (mjoin (opens <$> ops ++ [LPersist]) = mjoin (opens <$> ops)) as Hops.
  { rewrite fmap_app, join_app. csimpl. by rewrite app_nil_r. }
  set (ls := ledger_run a (ops ++ [LPersist]) (l0, s)).
  assert (ledger_inv a (rows_else a (db_net_ledger s))
            (ids (rows_of a (db_net_ledger s)) ++ mjoin (opens <$> ops ++ [LPersist])) ls) as [Hwf Hp Ho _ _].
  { apply ledger_run_inv; [by apply ledger_init_inv|by rewrite Hops|]. rewrite Hops. intros v Hv Hu. by eapply Hdisj. }
  assert (nl_dirty ls.1 = [] /\ nl_deleted ls.1 = []) as [Hd1 Hd2].
  { unfold ls, ledger_run. rewrite fold_left_app. simpl. by rewrite persist_run. }
  assert (positions ls.1 ≡ₚ rows_of a (db_net_ledger ls.2)) as Hperm.
  { apply vget_perm; [apply Hwf|apply Hp|]. intros v. symmetry. apply (pend_clean _ _ _ Hp); [by rewrite Hd1|].
    rewrite Hd2. set_solver. }
  assert (positions ls.1 = merge_sort ledger_older (rows_of a (db_net_ledger ls.2))) as Hload.
  { apply sorted_rows_eq; [apply Hwf|apply Hwf|apply (StronglySorted_merge_sort ledger_older)|].
    by rewrite merge_sort_Permutation. }
  split; [done|]. split; [by rewrite Hload|]. split; [|done].
  exists (nl_init (positions ls.1)). split; [rewrite Hload; reflexivity|].
  destruct (init_positions (positions ls.1) (wf_ids _ Hwf)) as [H1 H2].
  symmetry. apply sorted_rows_eq; [apply Hwf|apply Hwf|done|by symmetry].
Qed.

Definition demo_deal (ticket pos : Z) (ty : DealType) (en : DealEntry) (vol ms : Z) : ReportDeal :=
  {| rd_ticket := ticket; rd_position := pos; rd_order := 0; rd_symbol := "EURUSD"; rd_deal_type := ty;
     rd_entry := en; rd_volume := vol; rd_price := fzero; rd_profit := fzero; rd_swap := fzero;
     rd_commission := fzero; rd_time_ms := ms; rd_comment := ""; rd_magic := 0 |}.
Definition demo_ledger_ops : list ledger_op :=
  [LDeal (demo_deal 1 9 DtBuy DeIn 50 100) "EURUSD" None None;
   LDeal (demo_deal 2 9 DtBuy DeIn 30 200) "EURUSD" None None; LPersist;
   LDeal (demo_deal 3 9 DtSell DeOut 60 300) "EURUSD" None None;
   LDeal (demo_deal 4 9 DtSell DeInOut 25 400) "EURUSD" None None].

Lemma ledger_survives_restart_witness :
  table_ok 7 (empty_db 0) /\
  NoDup (ids (rows_of 7 (db_net_ledger (empty_db 0))) ++ mjoin (opens <$> demo_ledger_ops)) /\
  exists l0, load_ledger 7 (empty_db 0) = (Ok l0, empty_db 0) /\
    let ls := ledger_run 7 (demo_ledger_ops ++ [LPersist]) (l0, empty_db 0) in
    ledger_wf ls.1 /\ value (load_net_ledger 7) ls.2 = Ok (positions ls.1) /\
    (exists l1, load_ledger 7 ls.2 = (Ok l1, ls.2) /\ positions l1 = positions ls.1) /\
    rows_else 7 (db_net_ledger ls.2) = rows_else 7 (db_net_ledger (empty_db 0)).
Proof.
  assert (table_ok 7 (empty_db 0)) as H1 by (split; [apply NoDup_nil_2|apply Forall_nil_2]).
  assert (NoDup (ids (rows_of 7 (db_net_ledger (empty_db 0))) ++ mjoin (opens <$> demo_ledger_ops))) as H2
    by (apply (bool_decide_unpack _); vm_compute; exact I).
  split; [exact H1|]. split; [exact H2|]. exact (ledger_survives_restart 7 (empty_db 0) demo_ledger_ops H1 H2).
Defined.

(** ** The exact effect of a deal *)

Definition held_in (symbol : string) (vs : list VirtualPosition) : Z :=
  Zsum (lr_volume_left <$> List.filter (has_symbol symbol) vs).

Lemma held_perm symbol vs ws : vs ≡ₚ ws -> held_in symbol vs = held_in symbol ws.
Proof.
  intros H. unfold held_in.
  assert (List.filter (has_symbol symbol) vs ≡ₚ List.filter (has_symbol symbol) ws) as ->; [|done].
  induction H; simpl; repeat case_match; try constructor; try done; by etrans.
Qed.

Lemma held_cons symbol v vs :
  held_in symbol (v :: vs) = (if has_symbol symbol v then lr_volume_left v else 0) + held_in symbol vs.
Proof. unfold held_in. simpl. case_match; csimpl; lia. Qed.

Lemma takes_elem rem ws wt :
  wt ∈ takes rem ws -> wt.1 ∈ ws /\ 0 < wt.2 <= lr_volume_left wt.1.
Proof.
  revert rem. induction ws as [|w ws IH]; intros rem; simpl; [set_solver|].
  destruct (Z.leb_spec rem 0); [set_solver|].
  destruct (Z.leb_spec (Z.min (lr_volume_left w) rem) 0); [intros [H1 H2]%IH; set_solver|].
  intros [->|[H1 H2]%IH]%elem_of_cons; simpl; [|set_solver]. split; [set_solver|lia].
Qed.

Lemma takes_sum rem ws :
  Forall (fun w => 0 < lr_volume_left w) ws ->
  Zsum ((takes rem ws).*2) = Z.max 0 (Z.min rem (Zsum (lr_volume_left <$> ws))).
Proof.
  intros Hall. revert rem. induction Hall as [|w ws Hw Hall IH]; intros rem; csimpl; [lia|].
  assert (0 <= Zsum (lr_volume_left <$> ws)) as Hpos.
  { apply Zsum_nonneg, Forall_fmap. eapply Forall_impl; [exact Hall|]. simpl. lia. }
  destruct (Z.leb_spec rem 0); [csimpl; lia|].
  destruct (Z.leb_spec (Z.min (lr_volume_left w) rem) 0); [lia|]. csimpl. rewrite IH. lia.
Qed.

(** Oldest first: the positions touched are the first ones, and all but the
    last are emptied. *)
Lemma takes_fifo rem ws :
  Forall (fun w => 0 < lr_volume_left w) ws ->
  (takes rem ws).*1 `prefix_of` ws /\
  forall pre wt post, takes rem ws = pre ++ wt :: post -> post <> [] -> wt.2 = lr_volume_left wt.1.
Proof.
  intros Hall. revert rem. induction Hall as [|w ws Hw Hall IH]; intros rem; csimpl.
  { split; [done|]. intros [|] ? ? ?; done. }
  destruct (Z.leb_spec rem 0); [split; [apply prefix_nil|by intros [|]]|].
  destruct (Z.leb_spec (Z.min (lr_volume_left w) rem) 0); [lia|]. csimpl.
  destruct (IH (rem - Z.min (lr_volume_left w) rem)) as [H1 H2]. split; [by apply prefix_cons|].
  intros [|x pre] wt post Heq Hne; simplify_eq/=; [|by eapply H2].
  destruct (Z.le_gt_cases rem (lr_volume_left w)); [|lia]. exfalso. apply Hne.
  rewrite Z.min_r, Z.sub_diag by lia. by destruct ws.
Qed.

(** A position out of the ledger's rows, and the rest of them. *)
Lemma row_out w vs :
  NoDup (ids vs) -> w ∈ vs ->
  exists rest, vs ≡ₚ w :: rest /\ (lr_virtual_id w ∉ ids rest) /\ remove_row (lr_virtual_id w) vs ≡ₚ rest /\
    forall w', lr_virtual_id w' = lr_virtual_id w -> replace_row w' vs ≡ₚ w' :: rest.
Proof.
  intros Hnd Hin. apply elem_of_Permutation in Hin as [rest Hp]. exists rest.
  assert (lr_virtual_id w ∉ ids rest) as Hni.
  { unfold ids in *. rewrite Hp in Hnd. csimpl in Hnd. by apply NoDup_cons in Hnd as []. }
  split; [done|]. split; [done|]. split.
  - assert (remove_row (lr_virtual_id w) vs ≡ₚ remove_row (lr_virtual_id w) (w :: rest)) as ->.
    { unfold remove_row. clear -Hp. induction Hp; simpl; repeat case_match; try constructor; try done; by etrans. }
    unfold remove_row at 1. simpl. rewrite Z.eqb_refl. simpl. fold (remove_row (lr_virtual_id w) rest).
    by rewrite remove_row_notin.
  - intros w' Hid. unfold replace_row. rewrite Hp. csimpl. rewrite Hid, Z.eqb_refl.
    pose proof (replace_row_notin w' rest) as Hr. rewrite Hid in Hr. specialize (Hr Hni).
    unfold replace_row in Hr. rewrite Hid in Hr. by rewrite Hr.
Qed.

Lemma take_row_spec vs w t :
  NoDup (ids vs) -> w ∈ vs -> 0 < t <= lr_volume_left w ->
  NoDup (ids (take_row vs (w, t))) /\
  (forall x, lr_virtual_id x <> lr_virtual_id w -> x ∈ vs -> x ∈ take_row vs (w, t)) /\
  forall symbol, held_in symbol (take_row vs (w, t)) = held_in symbol vs - (if has_symbol symbol w then t else 0).
Proof.
  intros Hnd Hin Ht. destruct (row_out w vs Hnd Hin) as (rest & Hp & Hni & Hrem & Hrep).
  assert (NoDup (ids rest)) as Hndr.
  { unfold ids in *. rewrite Hp in Hnd. csimpl in Hnd. by apply NoDup_cons in Hnd as []. }
  unfold take_row; simpl. destruct (Z.leb_spec (lr_volume_left w - t) 0) as [H0|H0].
  - split; [unfold ids in *; by rewrite Hrem|]. split.
    + intros x Hx. rewrite Hrem, Hp. intros [->|]%elem_of_cons; done.
    + intros symbol. rewrite (held_perm _ _ _ Hrem), (held_perm _ _ _ Hp), held_cons. case_match; lia.
  - specialize (Hrep (set_lr_volume_left (lr_volume_left w - t) w) eq_refl).
    split; [unfold ids in *; rewrite Hrep; csimpl; by constructor|]. split.
    + intros x Hx. rewrite Hrep, Hp. intros [->|]%elem_of_cons; [done|]. by apply elem_of_cons; right.
    + intros symbol. rewrite (held_perm _ _ _ Hrep), (held_perm _ _ _ Hp), !held_cons.
      change (has_symbol symbol (set_lr_volume_left (lr_volume_left w - t) w)) with (has_symbol symbol w).
      simpl. case_match; lia.
Qed.

Lemma take_rows_held symbol ts vs :
  NoDup (ids vs) -> NoDup (ids ts.*1) -> (forall wt, wt ∈ ts -> wt.1 ∈ vs /\ 0 < wt.2 <= lr_volume_left wt.1) ->
  (forall wt, wt ∈ ts -> has_symbol symbol wt.1 = true) ->
  held_in symbol (fold_left take_row ts vs) = held_in symbol vs - Zsum ts.*2 /\
  forall other, other <> symbol -> held_in other (fold_left take_row ts vs) = held_in other vs.
Proof.
  revert vs. induction ts as [|[w t] ts IH]; intros vs Hnd Hts Hin Hsym; csimpl; [split; [lia|done]|].
  unfold ids in Hts. csimpl in Hts. apply NoDup_cons in Hts as [Hni Hts].
  destruct (Hin (w, t) ltac:(set_solver)) as [Hw Ht]. simpl in *.
  destruct (take_row_spec vs w t Hnd Hw Ht) as (H1 & H2 & H3).
  pose proof (Hsym (w, t) ltac:(set_solver)) as Hs. simpl in Hs.
  destruct (IH (take_row vs (w, t)) H1 Hts) as [I1 I2].
  - intros wt Hwt. destruct (Hin wt ltac:(set_solver)) as [Hx Hy]. split; [|done]. apply H2; [|done].
    intros Heq. apply Hni. rewrite <-Heq. apply list_elem_of_fmap. exists wt.1. split; [done|].
    apply list_elem_of_fmap. by exists wt.
  - intros wt Hwt. apply Hsym. set_solver.
  - split; [rewrite I1, H3, Hs; lia|]. intros other Ho. rewrite I2, H3 by done.
    unfold has_symbol in *. bsimp. subst symbol. rewrite bool_decide_false by done. lia.
Qed.

(** What a deal takes out of its symbol, and what it opens. *)
Definition deal_closes (d : ReportDeal) (held : Z) : Z :=
  match rd_entry d with DeOut | DeOutBy => Z.min (rd_volume d) held | DeInOut => held | _ => 0 end.
Definition deal_opens (d : ReportDeal) (held : Z) : Z :=
  match rd_entry d with DeIn => rd_volume d | DeInOut => Z.max 0 (rd_volume d - held) | _ => 0 end.

(** Oldest first: the first positions, all but the last emptied. *)
Definition fifo_takes (ts : list (VirtualPosition * Z)) (ws : list VirtualPosition) : Prop :=
  ts.*1 `prefix_of` ws /\ Forall (fun wt => 0 < wt.2 <= lr_volume_left wt.1) ts /\
  forall pre wt post, ts = pre ++ wt :: post -> post <> [] -> wt.2 = lr_volume_left wt.1.

Lemma fifo_takes_nil ws : fifo_takes [] ws.
Proof. split; [apply prefix_nil|]. split; [by constructor|]. by intros [|]. Qed.

Lemma consume_exact symbol c vol l :
  ledger_wf l -> let held := held_in symbol (positions l) in
  exists ts, (_consume symbol c vol l).1 = ((fun wt => closed_event c wt.1 wt.2) <$> ts) /\
    ledger_wf (_consume symbol c vol l).2 /\ ids (positions (_consume symbol c vol l).2) ⊆ ids (positions l) /\
    Zsum ts.*2 = Z.max 0 (Z.min vol held) /\
    held_in symbol (positions (_consume symbol c vol l).2) = held - Zsum ts.*2 /\
    (forall other, other <> symbol ->
       held_in other (positions (_consume symbol c vol l).2) = held_in other (positions l)) /\
    fifo_takes ts (List.filter (has_symbol symbol) (positions l)).
Proof.
  intros Hwf held. unfold _consume.
  destruct (consume_spec c (_of_symbol symbol l) vol l Hwf) as (He & Hv & Hs);
    [apply NoDup_filter_bool, Hwf|apply of_symbol_in|]. rewrite of_symbol_view in He, Hv by done.
  set (ws := List.filter (has_symbol symbol) (positions l)) in *.
  assert (Forall (fun w => 0 < lr_volume_left w) ws) as Hall.
  { pose proof (wf_left l Hwf) as Hl. rewrite Forall_forall in *. intros w [Hw _]%elem_filter_bool. auto. }
  exists (takes vol ws). split; [done|]. split; [by eapply rtc_lstep_wf|].
  split; [by apply rtc_lstep_ids|]. destruct (takes_fifo vol ws Hall) as [Hpre Hfull].
  split; [by rewrite takes_sum|].
  assert (NoDup (ids (takes vol ws).*1)) as Hnd.
  { destruct Hpre as [k Hk]. assert (NoDup (ids ws)) as H by (apply ids_filter_NoDup, Hwf).
    rewrite Hk in H. unfold ids in *. rewrite fmap_app in H. by apply NoDup_app in H as []. }
  destruct (take_rows_held symbol (takes vol ws) (positions l) (wf_ids l Hwf) Hnd) as [H1 H2].
  { intros wt Hwt. destruct (takes_elem vol ws wt Hwt) as [Hw Ht]. apply elem_filter_bool in Hw as [Hw _]. done. }
  { intros wt Hwt. destruct (takes_elem vol ws wt Hwt) as [Hw Ht]. by apply elem_filter_bool in Hw as []. }
  rewrite Hv. split; [done|]. split; [done|]. split; [done|]. split; [|done].
  apply Forall_forall. intros wt Hwt. by apply (takes_elem vol ws).
Qed.

Lemma open_held d side v sl tp l symbol :
  ledger_wf l ->
  held_in symbol (positions (_open d side v sl tp l)) =
    held_in symbol (positions l) + (if bool_decide (rd_symbol d = symbol) then v else 0).
Proof.
  intros Hwf. rewrite (held_perm _ _ _ (open_positions d side v sl tp l Hwf)).
  rewrite (held_perm _ _ (new_virtual d side v sl tp :: positions l)) by (by rewrite Permutation_app_comm).
  rewrite held_cons. unfold has_symbol. simpl. case_bool_decide; lia.
Qed.

(** A deal of a netting master changes exactly what it should.  An IN
    opens its volume as one virtual position, an OUT closes its volume (or all
    there is), a reversal closes everything and opens the rest; the closes go
    to the oldest positions of the symbol first, each emptied before the next
    is touched, the events say exactly what was taken, and no other symbol
    changes. *)
Theorem net_deal_exact d c sl tp l side evs l' :
  ledger_wf l -> side_of_deal (rd_deal_type d) = Some side -> 0 < rd_volume d ->
  rd_ticket d ∉ ids (positions l) -> apply_deal d c sl tp l = (evs, l') ->
  let held := held_in (rd_symbol d) (positions l) in
  ledger_wf l' /\
  held_in (rd_symbol d) (positions l') = held - deal_closes d held + deal_opens d held /\
  (forall other, other <> rd_symbol d -> held_in other (positions l') = held_in other (positions l)) /\
  exists ts, fifo_takes ts (List.filter (has_symbol (rd_symbol d)) (positions l)) /\
    Zsum ts.*2 = deal_closes d held /\
    evs = ((fun wt => closed_event c wt.1 wt.2) <$> ts) ++
          (if 0 <? deal_opens d held then [opened_event d c side (deal_opens d held) sl tp] else []).
Proof.
  intros Hwf Hside Hvol Hfresh. unfold apply_deal. rewrite Hside, (proj2 (Z.leb_gt _ _)) by done.
  change (held_volume_of (rd_symbol d) l) with (held_in (rd_symbol d) (positions l)).
  set (held := held_in (rd_symbol d) (positions l)).
  assert (0 <= held) as Hh.
  { apply Zsum_nonneg, Forall_fmap, Forall_forall. intros w [Hw _]%elem_filter_bool.
    pose proof (wf_left l Hwf) as Hl. rewrite Forall_forall in Hl. specialize (Hl w Hw). simpl in *. lia. }
  unfold deal_closes, deal_opens. destruct (rd_entry d); intros Heq; simplify_eq.
  - split; [by apply open_wf|]. split; [rewrite open_held by done; rewrite bool_decide_true by done; lia|]. split.
    + intros other Ho. rewrite open_held by done. rewrite bool_decide_false by done. lia.
    + exists []. split; [apply fifo_takes_nil|]. split; [done|]. by rewrite (proj2 (Z.ltb_lt _ _)).
  - destruct (consume_exact (rd_symbol d) c (rd_volume d) l Hwf) as (ts & He & Hw & _ & Hs & H1 & H2 & Hf).
    rewrite Heq in *. simpl in *. fold held in Hs, H1. split; [done|]. split; [lia|]. split; [done|].
    exists ts. rewrite app_nil_r. split; [done|]. split; [lia|done].
  - destruct (consume_exact (rd_symbol d) c held l Hwf) as (ts & He & Hw & Hi & Hs & H1 & H2 & Hf).
    destruct (_consume (rd_symbol d) c held l) as [evs1 l1]. simpl in *. fold held in Hs, H1. subst evs1.
    assert (rd_ticket d ∉ ids (positions l1)) as Hn by set_solver.
    destruct (Z.ltb_spec 0 (rd_volume d - held)) as [Hr|Hr]; simplify_eq.
    + rewrite Z.max_r by lia. split; [by apply open_wf|].
      split; [rewrite open_held by done; rewrite bool_decide_true by done; lia|]. split.
      * intros other Ho. rewrite open_held by done. rewrite bool_decide_false by done. rewrite H2 by done. lia.
      * exists ts. rewrite (proj2 (Z.ltb_lt _ _)) by lia. split; [done|]. split; [lia|done].
    + rewrite Z.max_l by lia. split; [done|]. split; [lia|]. split; [done|]. exists ts. simpl.
      rewrite app_nil_r. split; [done|]. split; [lia|done].
  - destruct (consume_exact (rd_symbol d) c (rd_volume d) l Hwf) as (ts & He & Hw & _ & Hs & H1 & H2 & Hf).
    rewrite Heq in *. simpl in *. fold held in Hs, H1. split; [done|]. split; [lia|]. split; [done|].
    exists ts. rewrite app_nil_r. split; [done|]. split; [lia|done].
  - split; [done|]. split; [lia|]. split; [done|]. exists []. split; [apply fifo_takes_nil|done].
Qed.

Definition demo_ledger : NetLedger :=
  _open (demo_deal 2 9 DtBuy DeIn 30 200) BUY 30 None None
    (_open (demo_deal 1 9 DtBuy DeIn 50 100) BUY 50 None None (nl_init [])).

Lemma demo_ledger_wf : ledger_wf demo_ledger.
Proof.
  assert (ledger_wf (nl_init [])) as H.
  { destruct (ledger_init_inv 7 (empty_db 0)) as [H _ _ _ _]; [|exact H].
    split; [apply NoDup_nil_2|apply Forall_nil_2]. }
  apply open_wf; [apply open_wf; [exact H| |done]| |done]; vm_compute; set_solver.
Qed.

(** Selling 60 empties the first position and leaves 20 of the second. *)
Lemma net_deal_exact_witness :
  let d := demo_deal 3 9 DtSell DeOut 60 300 in
  let r := apply_deal d "EURUSD" None None demo_ledger in
  ledger_wf r.2 /\ held_in "EURUSD" (positions demo_ledger) = 80 /\ held_in "EURUSD" (positions r.2) = 20 /\
  exists ts, fifo_takes ts (List.filter (has_symbol "EURUSD") (positions demo_ledger)) /\ Zsum ts.*2 = 60.
Proof.
  intros d r. assert (rd_ticket d ∉ ids (positions demo_ledger)) as Hf by (apply (bool_decide_unpack _); vm_compute; exact I).
  destruct (net_deal_exact d "EURUSD" None None demo_ledger SELL r.1 r.2 demo_ledger_wf eq_refl ltac:(reflexivity) Hf)
    as (H1 & H2 & _ & ts & H3 & H4 & _); [by destruct r eqn:E; unfold r in E; rewrite E|].
  split; [exact H1|]. split; [vm_compute; reflexivity|]. split; [vm_compute; reflexivity|]. exists ts. split; [exact H3|].
  rewrite H4. vm_compute. reflexivity.
Defined.

(** ** A limit of the hedging path *)

Definition demo_report_position (ticket vol : Z) : ReportPosition :=
  {| rp_ticket := ticket; rp_symbol := "EURUSD"; rp_side := BUY; rp_volume := vol; rp_open_price := fzero;
     rp_stop_loss := None; rp_take_profit := None; rp_current_price := None; rp_pnl := fzero; rp_swap := fzero;
     rp_comment := ""; rp_magic := 0; rp_opened_at_ms := 0 |}.
Definition demo_report (vol : Z) (deals : list ReportDeal) : SyncReport :=
  {| sr_seq := 1; sr_ts_ms := 0; sr_balance := fzero; sr_equity := fzero; sr_margin := fzero;
     sr_margin_free := fzero; sr_positions := [demo_report_position 9 vol]; sr_orders := []; sr_deals := deals;
     sr_acks := [] |}.
Definition demo_closed (closed remaining : Z) : MasterEvent :=
  EvPositionClosed {| mpc_position_id := 9; mpc_symbol_name := "EURUSD"; mpc_closed_volume := closed;
                      mpc_remaining_volume := remaining |}.

(** Two partial closes of one hedging position in one report both carry
    the final remaining volume.  A master that goes from 100 to 50 by closing
    30 and then 20 is reported as 30 closed of 80 and 20 closed of 70; a
    follower of 100 then closes 37 and 18 and is left with 45, where the same
    closes in two reports close 30 and 20 and leave 50. *)
Theorem batched_partial_closes_overclose :
  let out30 := demo_deal 21 9 DtSell DeOut 30 100 in
  let out20 := demo_deal 22 9 DtSell DeOut 20 200 in
  let events r := (master_events_from_report r None ∅ ∅ None).1 in
  events (demo_report 50 [out30; out20]) = [demo_closed 30 50; demo_closed 20 50] /\
  events (demo_report 70 [out30]) ++ events (demo_report 50 [out20]) = [demo_closed 30 70; demo_closed 20 50] /\
  partial_close_volume 100 30 50 1 = Ok 37 /\ partial_close_volume (100 - 37) 20 50 1 = Ok 18 /\
  partial_close_volume 100 30 70 1 = Ok 30 /\ partial_close_volume (100 - 30) 20 50 1 = Ok 20.
Proof. vm_compute. repeat split. Qed.
