(* ===== verification/Deals.v ===== *)
(** * A terminal's deals as rows: [copier/mt5/deals.py]

    The rows of the [deals] table for a batch of reported deals, each with an
    estimate of the balance that stood right after it.  MT5 keeps no balance per
    deal, so the estimate walks the batch backwards from the balance reported
    now.  The database's conversion of doubles to NUMERIC columns is left out. *)

From S2P Require Import Prelude PyStr PyFloat Models Db Repo Protocol Ingress.
From Stdlib Require Import SpecFloat.

(** ** Definitions *)

(** [f"{x:.2f}"] of a double: the exact value rounded to hundredths, ties to even. *)
Definition hundredths (x : float64) : Z :=
  match x with
  | S754_finite s m e =>
      let z := 100 * Zpos m in
      if 0 <=? e then z * 2 ^ e else round_even_div z (2 ^ (- e))
  | _ => 0
  end.
Definition format_2f (x : float64) : string :=
  let a := hundredths x in
  match x with
  | S754_nan => "nan"
  | S754_infinity s => if s then "-inf" else "inf"
  | S754_zero s | S754_finite s _ _ =>
      (if s then "-" else "") +:+ pretty (a / 100) +:+ "." +:+
      (if a mod 100 <? 10 then "0" else "") +:+ pretty (a mod 100)
  end.

(** [queries._lots] *)
Definition _lots (volume : option Z) (lot_size : Z) : result (option string) :=
  match volume with
  | None => Ok None
  | Some v =>
      if lot_size =? 0 then Ok None
      else match int_truediv v lot_size with
           | Some x => Ok (Some (format_2f x))
           | None => Raise (OverflowError "integer division result too large for a float")
           end
  end.

Example lots_text : _lots (Some 7) CENTILOTS = Ok (Some "0.07") /\ _lots (Some 1250) CENTILOTS = Ok (Some "12.50").
Proof. split; reflexivity. Qed.

(** [CLOSE_ENTRIES] is [is_close_entry]. *)
Definition is_trade_type (t : DealType) : bool := match t with DtBuy | DtSell => true | _ => false end.

Definition sort_deals (deals : list ReportDeal) : list ReportDeal := merge_sort deal_le deals.

(** [d.profit + d.swap + d.commission] *)
Definition deal_change (d : ReportDeal) : float64 := fadd (fadd (rd_profit d) (rd_swap d)) (rd_commission d).

(** The loop, over the deals newest first. *)
Fixpoint estimates (running : float64) (newest_first : list ReportDeal) (out : list (Z * float64))
    : list (Z * float64) :=
  match newest_first with
  | [] => out
  | d :: rest => estimates (fsub running (deal_change d)) rest (od_set (rd_ticket d) (py_round2 running) out)
  end.

Definition balance_after_estimates (deals : list ReportDeal) (current_balance : float64) : list (Z * float64) :=
  estimates current_balance (reverse (sort_deals deals)) [].

(** [row["close"]] *)
Record close_detail := {
  cd_entry_price : price;
  cd_gross_profit : float64;
  cd_swap : float64;
  cd_commission : float64;
  cd_balance : float64;
  cd_closed_volume : Z;
  cd_closed_volume_lots : option string
}.

Record DealDict := {
  dd_deal_id : Z;
  dd_order_id : option Z;
  dd_position_id : option Z;
  dd_symbol_id : option Z;
  dd_symbol : option string;
  dd_side : DealType;
  dd_volume : Z;
  dd_filled_volume : Z;
  dd_volume_lots : option string;
  dd_execution_price : price;
  dd_status : string;
  dd_commission : price;
  dd_create_timestamp : Z;
  dd_execution_timestamp : Z;
  dd_label : option string;
  dd_close : option close_detail;
  dd_balance_after : float64;
  dd_gross_profit : price
}.

(** [x or None] *)
Definition int_or_none (z : Z) : option Z := if z =? 0 then None else Some z.
Definition str_or_none (s : string) : option string := match s with "" => None | _ => Some s end.

Section rows.
Context (symbols : list (string * SymbolInfo)) (entry_price_for : Z -> price).

Definition deal_dict (estimates : list (Z * float64)) (d : ReportDeal) : result DealDict :=
  let is_trade := is_trade_type (rd_deal_type d) in
  (* every ticket of the batch has an estimate *)
  let estimate := default fzero (od_get (rd_ticket d) estimates) in
  let? lots := _lots (Some (rd_volume d)) CENTILOTS in
  Ok {| dd_deal_id := rd_ticket d; dd_order_id := int_or_none (rd_order d);
        dd_position_id := int_or_none (rd_position d);
        dd_symbol_id := symbol_id <$> od_get (rd_symbol d) symbols;
        dd_symbol := str_or_none (rd_symbol d); dd_side := rd_deal_type d;
        dd_volume := rd_volume d; dd_filled_volume := rd_volume d; dd_volume_lots := lots;
        dd_execution_price := if is_trade then Some (rd_price d) else None;
        dd_status := "FILLED";
        dd_commission := if is_trade then Some (rd_commission d) else None;
        dd_create_timestamp := rd_time_ms d; dd_execution_timestamp := rd_time_ms d;
        dd_label := str_or_none (rd_comment d);
        dd_close := if is_trade && is_close_entry (rd_entry d)
                    then Some {| cd_entry_price := entry_price_for (rd_position d);
                                 cd_gross_profit := rd_profit d; cd_swap := rd_swap d;
                                 cd_commission := rd_commission d; cd_balance := estimate;
                                 cd_closed_volume := rd_volume d; cd_closed_volume_lots := lots |}
                    else None;
        dd_balance_after := estimate;
        dd_gross_profit := if is_trade then None else Some (rd_profit d) |}.

Definition deal_rows (deals : list ReportDeal) (current_balance : float64) : result (list DealDict) :=
  rmap (deal_dict (balance_after_estimates deals current_balance)) (sort_deals deals).
End rows.

(** ** The estimates *)

(** The estimates of the deals before [d] are not touched by the walk over older ones. *)
Lemma estimates_other ds running out t :
  t ∉ rd_ticket <$> ds -> od_get t (estimates running ds out) = od_get t out.
Proof.
  revert running out. induction ds as [|d ds IH]; intros running out Hn; [done|].
  csimpl in Hn. apply not_elem_of_cons in Hn as [Hne Hn]. simpl. rewrite IH by done.
  by rewrite od_get_set, decide_False.
Qed.

(** What is left of [running] below the deals [newer], newest first. *)
Definition balance_below (current : float64) (newer : list ReportDeal) : float64 :=
  foldl (fun b d => fsub b (deal_change d)) current newer.

Lemma estimates_at running newer d older out :
  rd_ticket d ∉ rd_ticket <$> older ->
  od_get (rd_ticket d) (estimates running (newer ++ d :: older) out) =
  Some (py_round2 (balance_below running newer)).
Proof.
  intros Hn. revert running out. induction newer as [|n newer IH]; intros running out; simpl; [|apply IH].
  rewrite estimates_other by done. by rewrite od_get_set, decide_True.
Qed.

#[export] Instance deal_le_total : Total deal_le.
Proof. intros d e. unfold deal_le. lia. Qed.
#[export] Instance deal_le_trans : Transitive deal_le.
Proof. intros a b c. unfold deal_le. lia. Qed.

Lemma sort_deals_perm deals : sort_deals deals ≡ₚ deals.
Proof. apply merge_sort_Permutation. Qed.
Lemma sort_deals_sorted deals : StronglySorted deal_le (sort_deals deals).
Proof. apply StronglySorted_merge_sort; apply _. Qed.

Lemma deal_rows_ids symbols entry deals current rows :
  deal_rows symbols entry deals current = Ok rows -> dd_deal_id <$> rows = rd_ticket <$> sort_deals deals.
Proof.
  intros H%rmap_Forall2. induction H as [|d r ds rs Hr _ IH]; [done|]. csimpl. rewrite IH. f_equal.
  unfold deal_dict in Hr. simpl in Hr. destruct (int_truediv (rd_volume d) CENTILOTS); [|done]. by injection Hr as <-.
Qed.

(** Every deal of a batch gets a row, in time order; the row's balance is the
    reported one less what the batch's later deals changed, and a closing
    trade's row repeats it. *)
Theorem deal_rows_correct symbols entry deals current rows :
  NoDup (rd_ticket <$> deals) ->
  deal_rows symbols entry deals current = Ok rows ->
  StronglySorted deal_le (sort_deals deals) /\
  Forall2 (fun d r => dd_deal_id r = rd_ticket d /\ dd_execution_timestamp r = rd_time_ms d /\
      (dd_close r = None <-> is_trade_type (rd_deal_type d) && is_close_entry (rd_entry d) = false) /\
      (forall c, dd_close r = Some c -> cd_balance c = dd_balance_after r /\ cd_entry_price c = entry (rd_position d)) /\
      forall older newer, sort_deals deals = older ++ d :: newer ->
        dd_balance_after r = py_round2 (balance_below current (reverse newer)))
    (sort_deals deals) rows.
Proof.
  intros Hnd Hrows. split; [apply sort_deals_sorted|]. apply rmap_Forall2 in Hrows.
  eapply Forall2_impl; [exact Hrows|]. intros d r Hr.
  unfold deal_dict in Hr. simpl in Hr. destruct (int_truediv (rd_volume d) CENTILOTS) as [x|]; [|done]. injection Hr as <-. simpl.
  split; [done|]. split; [done|]. split; [|split].
  - case_match; split; intros; congruence.
  - case_match; intros c Hc; [|done]. by injection Hc as <-.
  - intros older newer Hsplit. unfold balance_after_estimates. rewrite Hsplit.
    rewrite reverse_app, reverse_cons, <- app_assoc. simpl. rewrite estimates_at; [done|].
    assert (NoDup (rd_ticket <$> older ++ d :: newer)) as Hnd'.
    { rewrite <- Hsplit. by rewrite sort_deals_perm. }
    rewrite fmap_app in Hnd'. apply NoDup_app in Hnd' as (_ & Hd & _).
    intros [x' [E Hx]]%list_elem_of_fmap. rewrite elem_of_reverse in Hx.
    apply (Hd (rd_ticket d)); [rewrite E; by apply list_elem_of_fmap_2|]. csimpl. left.
Qed.

(** A buy closed at a profit of 10, with the balance then at 1010 *)
Definition example_deal (ticket : Z) (en : DealEntry) (profit : Z) : ReportDeal :=
  {| rd_ticket := ticket; rd_position := 9; rd_order := 0; rd_symbol := "EURUSD"; rd_deal_type := DtBuy;
     rd_entry := en; rd_volume := 50; rd_price := fzero; rd_profit := f_of_Z profit; rd_swap := fzero;
     rd_commission := fzero; rd_time_ms := ticket; rd_comment := ""; rd_magic := 0 |}.
Definition example_deals : list ReportDeal := [example_deal 2 DeOut 10; example_deal 1 DeIn 0].

Lemma deal_rows_correct_witness :
  exists rows, deal_rows [] (fun _ => None) example_deals (f_of_Z 1010) = Ok rows /\
    NoDup (rd_ticket <$> example_deals) /\
    Forall2 (fun d r => dd_deal_id r = rd_ticket d) (sort_deals example_deals) rows /\
    (dd_balance_after <$> rows) = [f_of_Z 1000; f_of_Z 1010].
Proof.
  destruct (deal_rows [] (fun _ => None) example_deals (f_of_Z 1010)) as [rows|e] eqn:E; [|vm_compute in E; discriminate].
  exists rows. split; [reflexivity|].
  assert (NoDup (rd_ticket <$> example_deals)) as Hnd by (apply (bool_decide_unpack _); vm_compute; exact I).
  split; [exact Hnd|]. split; [|vm_compute in E; injection E as <-; vm_compute; reflexivity].
  eapply Forall2_impl; [exact (proj2 (deal_rows_correct [] (fun _ => None) example_deals (f_of_Z 1010) rows Hnd E))|].
  intros d r H. exact (proj1 H).
Defined.
