(* ===== verification/Mt5Db.v ===== *)
(** * Tables of the MT5 bridge: the rest of [copier/db/repo.py] it uses

    Terminal links, the symbol cache, symbol aliases, positions, deals and the
    backfill state, next to the tables of [Db]; one Definition per method.  A
    position row is written at once (the background writer's delay is left out). *)

From S2P Require Import Prelude PyStr PyFloat Models Db Repo Protocol Wire.
From S2P Require Import Ingress Deals Reconcile.

(** ** Rows *)

Record LinkRow := {
  lk_login : option Z;
  lk_broker : option string;
  lk_server : option string;
  lk_currency : option string;
  lk_hedging : option bool;
  lk_trade_mode : option string;
  lk_leverage : option Z;
  lk_ea_version : option string;
  lk_ea_build : option Z;
  lk_last_seen_at : option Z;
  lk_balance : price;
  lk_equity : price
}.

Inductive alias_source := SrcAuto | SrcManual.
#[export] Instance alias_source_eq_dec : EqDecision alias_source.
Proof. solve_decision. Defined.

Inductive position_status := PosOpen | PosClosed.
#[export] Instance position_status_eq_dec : EqDecision position_status.
Proof. solve_decision. Defined.

Record PositionRow := {
  pr_org_id : option Z;
  pr_symbol_id : Z;
  pr_symbol : option string;
  pr_side : Side;
  pr_volume : Z;
  pr_entry_price : float64;
  pr_stop_loss : price;
  pr_take_profit : price;
  pr_label : option string;
  pr_status : position_status;
  pr_closed_at : option Z
}.

Record DealRow := {
  de_org_id : option Z;
  de_order_id : option Z;
  de_position_id : option Z;
  de_symbol_id : option Z;
  de_symbol : option string;
  de_side : DealType;
  de_volume : Z;
  de_filled_volume : Z;
  de_execution_price : price;
  de_status : string;
  de_commission : price;
  de_create_timestamp : Z;
  de_execution_timestamp : Z;
  de_label : option string;
  de_is_close : bool;
  de_entry_price : price;
  de_gross_profit : price;
  de_swap : price;
  de_balance_after : price;
  de_closed_volume : option Z
}.

Record BackfillRow := { bf_from_ms : option Z; bf_to_ms : option Z; bf_exhausted : bool }.

(** Symbol caches and aliases keep their rows in the order they were inserted. *)
Record mt5_tables := {
  t_links : gmap Z LinkRow;
  t_symbol_cache : gmap Z (list (string * SymbolInfo));
  t_aliases : gmap Z (list (string * (string * alias_source)));
  t_positions : gmap (Z * Z) PositionRow;
  t_deals : gmap (Z * Z) DealRow;
  t_backfill : gmap Z BackfillRow
}.

Definition set_t_links (v : gmap Z LinkRow) (t : mt5_tables) : mt5_tables :=
  Build_mt5_tables v (t_symbol_cache t) (t_aliases t) (t_positions t) (t_deals t) (t_backfill t).
Definition set_t_symbol_cache (v : gmap Z (list (string * SymbolInfo))) (t : mt5_tables) : mt5_tables :=
  Build_mt5_tables (t_links t) v (t_aliases t) (t_positions t) (t_deals t) (t_backfill t).
Definition set_t_aliases (v : gmap Z (list (string * (string * alias_source)))) (t : mt5_tables) : mt5_tables :=
  Build_mt5_tables (t_links t) (t_symbol_cache t) v (t_positions t) (t_deals t) (t_backfill t).
Definition set_t_positions (v : gmap (Z * Z) PositionRow) (t : mt5_tables) : mt5_tables :=
  Build_mt5_tables (t_links t) (t_symbol_cache t) (t_aliases t) v (t_deals t) (t_backfill t).
Definition set_t_deals (v : gmap (Z * Z) DealRow) (t : mt5_tables) : mt5_tables :=
  Build_mt5_tables (t_links t) (t_symbol_cache t) (t_aliases t) (t_positions t) v (t_backfill t).
Definition set_t_backfill (v : gmap Z BackfillRow) (t : mt5_tables) : mt5_tables :=
  Build_mt5_tables (t_links t) (t_symbol_cache t) (t_aliases t) (t_positions t) (t_deals t) v.

(** ** Symbol cache and aliases *)

(** A dict keyed by name has unique names, so the INSERTs cannot collide. *)
Definition save_symbol_cache (account_id : Z) (infos : list (string * SymbolInfo)) : M mt5_tables unit :=
  modify (fun t => set_t_symbol_cache (<[account_id := infos]> (t_symbol_cache t)) t).

Definition load_symbol_cache (account_id : Z) : M mt5_tables (list (string * SymbolInfo)) :=
  gets (fun t => default [] (t_symbol_cache t !! account_id)).

Definition load_symbol_aliases (account_id : Z) : M mt5_tables (list (string * string)) :=
  gets (fun t => (fun r : string * (string * alias_source) => (r.1, r.2.1)) <$> default [] (t_aliases t !! account_id)).

(** One alias: an empty broker name deletes, an ['auto'] write leaves a
    ['manual'] row alone. *)
Definition save_alias (source : alias_source) (rows : list (string * (string * alias_source)))
    (alias : string * string) : list (string * (string * alias_source)) :=
  let '(canonical, broker_name) := alias in
  if bool_decide (broker_name = "") then od_pop canonical rows
  else match od_get canonical rows with
       | Some (_, SrcManual) =>
           match source with
           | SrcAuto => rows
           | SrcManual => od_set canonical (broker_name, source) rows
           end
       | _ => od_set canonical (broker_name, source) rows
       end.

Definition save_symbol_aliases (account_id : Z) (aliases : list (string * string)) (source : alias_source)
    : M mt5_tables unit :=
  modify (fun t => set_t_aliases
    (<[account_id := foldl (save_alias source) (default [] (t_aliases t !! account_id)) aliases]> (t_aliases t)) t).

(** ** Links *)

Definition load_mt5_link (account_id : Z) : M mt5_tables (option LinkRow) :=
  gets (fun t => t_links t !! account_id).

(** The UPDATE of [mt5_links]; the second statement is [set_trader_login]. *)
Definition update_link_hello (account_id : Z) (h : HelloReport) : M mt5_tables unit :=
  modify (fun t => set_t_links (alter (fun l =>
    {| lk_login := Some (hr_login h); lk_broker := Some (hr_broker h); lk_server := Some (hr_server h);
       lk_currency := Some (hr_currency h); lk_hedging := Some (hr_hedging h);
       lk_trade_mode := Some (hr_trade_mode h); lk_leverage := Some (hr_leverage h);
       lk_ea_version := Some (hr_ea_version h); lk_ea_build := Some (hr_ea_build h);
       lk_last_seen_at := lk_last_seen_at l; lk_balance := lk_balance l; lk_equity := lk_equity l |})
    account_id (t_links t)) t).

Definition set_trader_login (account_id login : Z) : M db unit :=
  modify (fun s => set_db_accounts
    ((fun a => if acc_account_id a =? account_id
               then Build_AccountRow (acc_account_id a) (acc_org_id a) (acc_connection_id a) login (acc_is_live a)
                      (acc_role a) (acc_enabled a) (acc_multiplier a) (acc_status a) (acc_last_error a) (acc_platform a)
               else a) <$> db_accounts s) s).

Definition touch_mt5_link (account_id : Z) (balance equity : float64) (seen_at : Z) : M mt5_tables unit :=
  modify (fun t => set_t_links (alter (fun l =>
    {| lk_login := lk_login l; lk_broker := lk_broker l; lk_server := lk_server l; lk_currency := lk_currency l;
       lk_hedging := lk_hedging l; lk_trade_mode := lk_trade_mode l; lk_leverage := lk_leverage l;
       lk_ea_version := lk_ea_version l; lk_ea_build := lk_ea_build l;
       lk_last_seen_at := Some seen_at; lk_balance := Some balance; lk_equity := Some equity |})
    account_id (t_links t)) t).

(** ** Positions *)

Definition upsert_position (account_id : Z) (org_id : option Z) (symbols_by_id : gmap Z SymbolInfo)
    (positions : gmap (Z * Z) PositionRow) (snap : PositionSnapshot) : gmap (Z * Z) PositionRow :=
  let key := (account_id, psn_position_id snap) in
  <[key := {| pr_org_id := org_id; pr_symbol_id := psn_symbol_id snap;
              pr_symbol := name <$> symbols_by_id !! psn_symbol_id snap; pr_side := psn_side snap;
              pr_volume := psn_volume snap; pr_entry_price := psn_price snap;
              pr_stop_loss := psn_stop_loss snap; pr_take_profit := psn_take_profit snap;
              pr_label := str_or_none (psn_label snap); pr_status := PosOpen;
              pr_closed_at := positions !! key ≫= pr_closed_at |}]> positions.

Definition upsert_positions (account_id : Z) (org_id : option Z) (snapshots : list PositionSnapshot)
    (symbols_by_id : gmap Z SymbolInfo) : M mt5_tables unit :=
  modify (fun t => set_t_positions
    (foldl (upsert_position account_id org_id symbols_by_id) (t_positions t) snapshots) t).

(** [closed_at = COALESCE(closed_at, now())]; [now] is the transaction's time. *)
Definition close_position_row (now : Z) (r : PositionRow) : PositionRow :=
  {| pr_org_id := pr_org_id r; pr_symbol_id := pr_symbol_id r; pr_symbol := pr_symbol r; pr_side := pr_side r;
     pr_volume := pr_volume r; pr_entry_price := pr_entry_price r; pr_stop_loss := pr_stop_loss r;
     pr_take_profit := pr_take_profit r; pr_label := pr_label r; pr_status := PosClosed;
     pr_closed_at := Some (default now (pr_closed_at r)) |}.

Definition close_missing_positions (account_id : Z) (open_position_ids : list Z) (now : Z) : M mt5_tables unit :=
  modify (fun t => set_t_positions (map_imap (fun key r =>
    Some (if (key.1 =? account_id) && bool_decide (pr_status r = PosOpen) && negb (bool_decide (key.2 ∈ open_position_ids))
          then close_position_row now r else r)) (t_positions t)) t).

(** ** Deals and the backfill state *)

Definition _deal_row (org_id : option Z) (d : DealDict) : DealRow :=
  let close := dd_close d in
  {| de_org_id := org_id; de_order_id := dd_order_id d; de_position_id := dd_position_id d;
     de_symbol_id := dd_symbol_id d; de_symbol := dd_symbol d; de_side := dd_side d;
     de_volume := dd_volume d; de_filled_volume := dd_filled_volume d;
     de_execution_price := dd_execution_price d; de_status := dd_status d; de_commission := dd_commission d;
     de_create_timestamp := dd_create_timestamp d; de_execution_timestamp := dd_execution_timestamp d;
     de_label := dd_label d; de_is_close := bool_decide (is_Some close);
     de_entry_price := close ≫= cd_entry_price;
     de_gross_profit := match close with Some c => Some (cd_gross_profit c) | None => dd_gross_profit d end;
     de_swap := cd_swap <$> close;
     de_balance_after := Some (match close with Some c => cd_balance c | None => dd_balance_after d end);
     de_closed_volume := cd_closed_volume <$> close |}.

(** ON CONFLICT DO NOTHING, counting the rows inserted. *)
Fixpoint insert_deals (account_id : Z) (org_id : option Z) (rows : list DealDict)
    (deals : gmap (Z * Z) DealRow) : Z * gmap (Z * Z) DealRow :=
  match rows with
  | [] => (0, deals)
  | d :: rows' =>
      let key := (account_id, dd_deal_id d) in
      match deals !! key with
      | Some _ => insert_deals account_id org_id rows' deals
      | None => let '(n, deals') := insert_deals account_id org_id rows' (<[key := _deal_row org_id d]> deals) in
                (n + 1, deals')
      end
  end.

Definition upsert_mt5_deals (account_id : Z) (org_id : option Z) (rows : list DealDict) : M mt5_tables Z :=
  fun t => let '(n, deals) := insert_deals account_id org_id rows (t_deals t) in
           (Ok n, set_t_deals deals t).

(** LEAST and GREATEST, which ignore NULL *)
Definition sql_least (a b : option Z) : option Z := union_with (fun x y => Some (Z.min x y)) a b.
Definition sql_greatest (a b : option Z) : option Z := union_with (fun x y => Some (Z.max x y)) a b.

Definition set_backfill_state (account_id : Z) (from_ms to_ms : option Z) (exhausted : bool) : M mt5_tables unit :=
  modify (fun t => set_t_backfill (<[account_id :=
    match t_backfill t !! account_id with
    | None => {| bf_from_ms := from_ms; bf_to_ms := to_ms; bf_exhausted := exhausted |}
    | Some r => {| bf_from_ms := sql_least (bf_from_ms r) from_ms; bf_to_ms := sql_greatest (bf_to_ms r) to_ms;
                   bf_exhausted := exhausted |}
    end]> (t_backfill t)) t).
