(* ===== verification/Registry.v ===== *)
(** * The MT5 registry: [copier/mt5/registry.py]

    What every MT5 terminal last reported -- its book, symbols, margin mode and,
    for a netting master, its net ledger -- and the snapshots the rest of the
    copier reads from it.  The state is the whole application's, [CopierApp]: the
    copier service, the bridge's tables and the in-memory state of main.py that
    the bridge touches.  The registry's read models for the dashboard
    ([account_block], [_virtual_marks]) are left out. *)

From S2P Require Import Prelude PyStr PyFloat Models Db Repo Protocol Wire Routing.
From S2P Require Import Outbox Dispatch Service Reconcile Ingress Symbols Deals Mt5Db.
From Stdlib Require Import Ascii.

(** ** State *)

Definition OFFLINE_AFTER_S : float64 := f_of_Z 15.

(** An entry of the persisted signature *)
Abbreviation book_entry := (Z * Z * price * price)%type.

(** [_AccountState] *)
Record AccountState := {
  as_org_id : Z;
  as_hedging : option bool;
  as_hedging_loaded : bool;
  as_hello_symbols : list HelloSymbol;
  as_symbols : option (list (string * SymbolInfo));
  as_report : option SyncReport;
  as_last_seen : option float64;
  as_persisted_signature : option (list book_entry);
  as_ledger : option NetLedger
}.

Definition new_state (org_id : Z) : AccountState :=
  {| as_org_id := org_id; as_hedging := None; as_hedging_loaded := false; as_hello_symbols := [];
     as_symbols := None; as_report := None; as_last_seen := None; as_persisted_signature := None;
     as_ledger := None |}.

Definition set_as_org_id (v : Z) (r : AccountState) : AccountState :=
  Build_AccountState v (as_hedging r) (as_hedging_loaded r) (as_hello_symbols r) (as_symbols r) (as_report r)
    (as_last_seen r) (as_persisted_signature r) (as_ledger r).
Definition set_as_hedging (v : option bool) (r : AccountState) : AccountState :=
  Build_AccountState (as_org_id r) v true (as_hello_symbols r) (as_symbols r) (as_report r)
    (as_last_seen r) (as_persisted_signature r) (as_ledger r).
Definition set_as_hello_symbols (v : list HelloSymbol) (r : AccountState) : AccountState :=
  Build_AccountState (as_org_id r) (as_hedging r) (as_hedging_loaded r) v (as_symbols r) (as_report r)
    (as_last_seen r) (as_persisted_signature r) (as_ledger r).
Definition set_as_symbols (v : option (list (string * SymbolInfo))) (r : AccountState) : AccountState :=
  Build_AccountState (as_org_id r) (as_hedging r) (as_hedging_loaded r) (as_hello_symbols r) v (as_report r)
    (as_last_seen r) (as_persisted_signature r) (as_ledger r).
Definition set_as_report (v : option SyncReport) (r : AccountState) : AccountState :=
  Build_AccountState (as_org_id r) (as_hedging r) (as_hedging_loaded r) (as_hello_symbols r) (as_symbols r) v
    (as_last_seen r) (as_persisted_signature r) (as_ledger r).
Definition set_as_last_seen (v : option float64) (r : AccountState) : AccountState :=
  Build_AccountState (as_org_id r) (as_hedging r) (as_hedging_loaded r) (as_hello_symbols r) (as_symbols r)
    (as_report r) v (as_persisted_signature r) (as_ledger r).
Definition set_as_signature (v : option (list book_entry)) (r : AccountState) : AccountState :=
  Build_AccountState (as_org_id r) (as_hedging r) (as_hedging_loaded r) (as_hello_symbols r) (as_symbols r)
    (as_report r) (as_last_seen r) v (as_ledger r).
Definition set_as_ledger (v : option NetLedger) (r : AccountState) : AccountState :=
  Build_AccountState (as_org_id r) (as_hedging r) (as_hedging_loaded r) (as_hello_symbols r) (as_symbols r)
    (as_report r) (as_last_seen r) (as_persisted_signature r) v.

(** The application: [CopierApp] of main.py, as far as the bridge reads or
    writes it.  [ca_invalidated] counts the invalidations of the routing cache,
    [ca_resyncs] is the set of orgs with a resync requested. *)
Record CopierApp := {
  ca_service : service;
  ca_tables : mt5_tables;
  ca_accounts : gmap Z AccountState;                     (* the registry's [_accounts] *)
  ca_aliases : gmap Z (list (string * string));          (* [_mt5_aliases_cache] *)
  ca_last_touch : gmap Z float64;                        (* [_mt5_last_touch] *)
  ca_settled : gmap Z (gset Z);                          (* [_mt5_settled_deals] *)
  ca_resyncs : gset Z;                                   (* [_resync_requested] *)
  ca_master_symbols : gmap Z (gmap Z SymbolInfo);        (* [master_symbols_by_org] *)
  ca_invalidated : nat
}.

Definition set_ca_service (v : service) (s : CopierApp) : CopierApp :=
  Build_CopierApp v (ca_tables s) (ca_accounts s) (ca_aliases s) (ca_last_touch s) (ca_settled s) (ca_resyncs s)
    (ca_master_symbols s) (ca_invalidated s).
Definition set_ca_tables (v : mt5_tables) (s : CopierApp) : CopierApp :=
  Build_CopierApp (ca_service s) v (ca_accounts s) (ca_aliases s) (ca_last_touch s) (ca_settled s) (ca_resyncs s)
    (ca_master_symbols s) (ca_invalidated s).
Definition set_ca_accounts (v : gmap Z AccountState) (s : CopierApp) : CopierApp :=
  Build_CopierApp (ca_service s) (ca_tables s) v (ca_aliases s) (ca_last_touch s) (ca_settled s) (ca_resyncs s)
    (ca_master_symbols s) (ca_invalidated s).
Definition set_ca_aliases (v : gmap Z (list (string * string))) (s : CopierApp) : CopierApp :=
  Build_CopierApp (ca_service s) (ca_tables s) (ca_accounts s) v (ca_last_touch s) (ca_settled s) (ca_resyncs s)
    (ca_master_symbols s) (ca_invalidated s).
Definition set_ca_last_touch (v : gmap Z float64) (s : CopierApp) : CopierApp :=
  Build_CopierApp (ca_service s) (ca_tables s) (ca_accounts s) (ca_aliases s) v (ca_settled s) (ca_resyncs s)
    (ca_master_symbols s) (ca_invalidated s).
Definition set_ca_settled (v : gmap Z (gset Z)) (s : CopierApp) : CopierApp :=
  Build_CopierApp (ca_service s) (ca_tables s) (ca_accounts s) (ca_aliases s) (ca_last_touch s) v (ca_resyncs s)
    (ca_master_symbols s) (ca_invalidated s).
Definition set_ca_resyncs (v : gset Z) (s : CopierApp) : CopierApp :=
  Build_CopierApp (ca_service s) (ca_tables s) (ca_accounts s) (ca_aliases s) (ca_last_touch s) (ca_settled s) v
    (ca_master_symbols s) (ca_invalidated s).
Definition set_ca_master_symbols (v : gmap Z (gmap Z SymbolInfo)) (s : CopierApp) : CopierApp :=
  Build_CopierApp (ca_service s) (ca_tables s) (ca_accounts s) (ca_aliases s) (ca_last_touch s) (ca_settled s)
    (ca_resyncs s) v (ca_invalidated s).
Definition set_ca_invalidated (v : nat) (s : CopierApp) : CopierApp :=
  Build_CopierApp (ca_service s) (ca_tables s) (ca_accounts s) (ca_aliases s) (ca_last_touch s) (ca_settled s)
    (ca_resyncs s) (ca_master_symbols s) v.

(** Calls into the parts *)
Definition on_service {A} (m : M service A) : M CopierApp A :=
  fun s => match m (ca_service s) with (r, v) => (r, set_ca_service v s) end.
Definition on_tables {A} (m : M mt5_tables A) : M CopierApp A :=
  fun s => match m (ca_tables s) with (r, t) => (r, set_ca_tables t s) end.
Definition a_repo {A} (m : M db A) : M CopierApp A := on_service (on_repo m).
Definition ca_db (s : CopierApp) : db := e_db (sv_engine (ca_service s)).
Definition a_log (category : string) (sev : severity) (p : payload) (account org : option Z) : M CopierApp unit :=
  a_repo (log_event category sev p account org).

(** ** Account states *)

(** [_state(account_id, org_id)] *)
Definition _state (account_id : Z) (org_id : option Z) : M CopierApp AccountState :=
  fun s =>
    let st := default (new_state (default 0 org_id)) (ca_accounts s !! account_id) in
    let st := match org_id with Some o => set_as_org_id o st | None => st end in
    (Ok st, set_ca_accounts (<[account_id := st]> (ca_accounts s)) s).

(** An assignment to an attribute of the account's state *)
Definition upd_state (account_id : Z) (f : AccountState -> AccountState) : M CopierApp unit :=
  modify (fun s => set_ca_accounts (alter f account_id (ca_accounts s)) s).

Definition symbols_by_name (account_id : Z) : M CopierApp (list (string * SymbolInfo)) :=
  let! st := _state account_id None in
  match as_symbols st with
  | Some syms => ret syms
  | None =>
      let! syms := on_tables (load_symbol_cache account_id) in
      upd_state account_id (set_as_symbols (Some syms)) ;;;
      ret syms
  end.

Definition _symbol_id (symbols : list (string * SymbolInfo)) (n : string) : Z :=
  match od_get n symbols with Some info => symbol_id info | None => 0 end.

(** [{info.name: info for info in infos}] and [symbols_by_id] *)
Definition infos_by_name (infos : list SymbolInfo) : list (string * SymbolInfo) :=
  od_of_list ((fun i => (name i, i)) <$> infos).
Definition symbols_by_id (symbols : list (string * SymbolInfo)) : gmap Z SymbolInfo :=
  foldl (fun m (p : string * SymbolInfo) => <[symbol_id p.2 := p.2]> m) ∅ symbols.

(** ** Reads *)

Definition report (account_id : Z) : M CopierApp (option SyncReport) :=
  gets (fun s => ca_accounts s !! account_id ≫= as_report).

Definition find_position (ticket : Z) (r : option SyncReport) : option ReportPosition :=
  r ≫= fun r => List.find (fun p => rp_ticket p =? ticket) (sr_positions r).
Definition position (account_id ticket : Z) : M CopierApp (option ReportPosition) :=
  let! r := report account_id in ret (find_position ticket r).

Definition truthy (z : option Z) : option Z := match z with Some 0 => None | z => z end.

(** The labels one mapping row contributes *)
Definition row_labels (account_id : Z) (labels : list (Z * string)) (m : mapping_row) : list (Z * string) :=
  if negb (m_slave_account_id m =? account_id) then labels
  else match truthy (m_master_order_id m) with
       | Some o =>
           let label := "copy:o" +:+ pretty o in
           let labels := match truthy (m_slave_order_id m) with Some so => od_set so label labels | None => labels end in
           match truthy (m_slave_position_id m) with Some sp => od_set sp label labels | None => labels end
       | None =>
           match truthy (m_master_position_id m), truthy (m_slave_position_id m) with
           | Some mp, Some sp => od_set sp ("copy:m" +:+ pretty mp) labels
           | _, _ => labels
           end
       end.

Definition _labels (st : AccountState) (account_id : Z) : M CopierApp (list (Z * string)) :=
  let! rows := a_repo (mapping_rows (Some (as_org_id st))) in
  ret (foldl (row_labels account_id) [] rows).

Definition net_ledger (account_id : Z) : M CopierApp NetLedger :=
  let! st := _state account_id None in
  match as_ledger st with
  | Some l => ret l
  | None =>
      let! l := a_repo (load_ledger account_id) in
      upd_state account_id (set_as_ledger (Some l)) ;;;
      ret l
  end.

Definition position_snapshot (symbols : list (string * SymbolInfo)) (labels : list (Z * string))
    (p : ReportPosition) : PositionSnapshot :=
  {| psn_position_id := rp_ticket p; psn_symbol_id := _symbol_id symbols (rp_symbol p); psn_side := rp_side p;
     psn_volume := rp_volume p; psn_price := rp_open_price p;
     psn_label := default (rp_comment p) (od_get (rp_ticket p) labels);
     psn_stop_loss := rp_stop_loss p; psn_take_profit := rp_take_profit p |}.

(** [order_type.split("_", 1)[1]]: the protocol's order types all have a "_". *)
Definition order_snapshot (symbols : list (string * SymbolInfo)) (labels : list (Z * string))
    (o : ReportOrder) : OrderSnapshot :=
  {| osn_order_id := ro_ticket o; osn_symbol_id := _symbol_id symbols (ro_symbol o); osn_volume := ro_volume o;
     osn_label := default (ro_comment o) (od_get (ro_ticket o) labels);
     osn_side := Some (_side_of (ro_order_type o)); osn_order_type := str_after "_"%char (ro_order_type o);
     osn_price := Some (ro_price o); osn_stop_loss := ro_stop_loss o; osn_take_profit := ro_take_profit o |}.

Definition virtual_snapshot (symbols : list (string * SymbolInfo)) (net : list (string * ReportPosition))
    (v : VirtualPosition) : PositionSnapshot :=
  {| psn_position_id := lr_virtual_id v; psn_symbol_id := _symbol_id symbols (lr_symbol v); psn_side := lr_side v;
     psn_volume := lr_volume_left v;
     psn_price := match od_get (lr_symbol v) net with Some p => rp_open_price p | None => fzero end;
     psn_label := ""; psn_stop_loss := lr_stop_loss v; psn_take_profit := lr_take_profit v |}.

(** [{p.symbol: p for p in report.positions}] *)
Definition net_by_symbol (r : SyncReport) : list (string * ReportPosition) :=
  od_of_list ((fun p => (rp_symbol p, p)) <$> sr_positions r).

Definition _virtual_positions (account_id : Z) (r : SyncReport) (symbols : list (string * SymbolInfo))
    : M CopierApp (list PositionSnapshot) :=
  let! l := net_ledger account_id in
  ret (virtual_snapshot symbols (net_by_symbol r) <$> positions l).

Definition snapshot (account_id : Z) (with_labels virtual : bool)
    : M CopierApp (option (list PositionSnapshot * list OrderSnapshot)) :=
  let! st := gets (fun s => ca_accounts s !! account_id) in
  match st, st ≫= as_report with
  | Some st, Some r =>
      let! symbols := symbols_by_name account_id in
      let! labels := if with_labels then _labels st account_id else ret [] in
      let! ps := if virtual then _virtual_positions account_id r symbols
                 else ret (position_snapshot symbols labels <$> sr_positions r) in
      ret (Some (ps, order_snapshot symbols labels <$> sr_orders r))
  | _, _ => ret None
  end.

(** ** Reports in *)

Definition update_from_hello (account_id org_id : Z) (hello : HelloReport) (now : float64) : M CopierApp unit :=
  let! st := _state account_id (Some org_id) in
  let hello_symbols := (if hr_chunk hello <=? 1 then [] else as_hello_symbols st) ++ hr_symbols hello in
  upd_state account_id (fun st => set_as_hello_symbols hello_symbols
                                    (set_as_last_seen (Some now) (set_as_hedging (Some (hr_hedging hello)) st))) ;;;
  let! infos := lift_result (symbol_infos_from_hello hello_symbols) in
  let symbols := infos_by_name infos in
  upd_state account_id (set_as_symbols (Some symbols)) ;;;
  if hr_chunks hello <=? hr_chunk hello then on_tables (save_symbol_cache account_id symbols) else ret tt.

(** *** The signature of a book

    [sorted] compares tuples; two entries of one ticket and volume whose levels
    compare a number with [None] make it raise. *)
Definition entry_of (p : ReportPosition) : book_entry :=
  (rp_ticket p, rp_volume p, rp_stop_loss p, rp_take_profit p).

Definition none_against_some (a b : price) : bool :=
  match a, b with Some _, None | None, Some _ => true | _, _ => false end.
Definition entry_clash (p q : book_entry) : bool :=
  let '(t, v, sl, tp) := p in
  let '(t', v', sl', tp') := q in
  (t =? t') && (v =? v') && (none_against_some sl sl' || (price_eqb sl sl' && none_against_some tp tp')).

Definition price_lt (a b : price) : bool := match a, b with Some x, Some y => fltb x y | _, _ => false end.
Definition entry_lt (p q : book_entry) : bool :=
  let '(t, v, sl, tp) := p in
  let '(t', v', sl', tp') := q in
  if negb (t =? t') then t <? t' else if negb (v =? v') then v <? v'
  else if negb (price_eqb sl sl') then price_lt sl sl' else price_lt tp tp'.
Definition entry_le (p q : book_entry) : Prop := entry_lt q p = false.
#[export] Instance entry_le_dec : RelDecision entry_le.
Proof. intros p q. unfold entry_le. apply _. Defined.

Definition signature (ps : list ReportPosition) : result (list book_entry) :=
  let entries := entry_of <$> ps in
  if existsb (fun p => existsb (entry_clash p) entries) entries
  then Raise (TypeError "'<' not supported between instances of 'float' and 'NoneType'")
  else Ok (merge_sort entry_le entries).

Definition entry_eqb (p q : book_entry) : bool :=
  let '(t, v, sl, tp) := p in
  let '(t', v', sl', tp') := q in
  (t =? t') && (v =? v') && price_eqb sl sl' && price_eqb tp tp'.
Fixpoint signature_eqb (a b : list book_entry) : bool :=
  match a, b with
  | [], [] => true
  | p :: a', q :: b' => entry_eqb p q && signature_eqb a' b'
  | _, _ => false
  end.

Definition _persist (account_id org_id : Z) (ps : list PositionSnapshot) : M CopierApp unit :=
  let! symbols := symbols_by_name account_id in
  let! now := gets (fun s => db_now (ca_db s)) in
  on_tables (upsert_positions account_id (Some org_id) ps (symbols_by_id symbols)) ;;;
  on_tables (close_missing_positions account_id (psn_position_id <$> ps) now).

Definition update_from_sync (account_id org_id : Z) (r : SyncReport) (now : float64) (persist : bool)
    : M CopierApp unit :=
  let! _ := _state account_id (Some org_id) in
  upd_state account_id (fun st => set_as_last_seen (Some now) (set_as_report (Some r) st)) ;;;
  if negb persist then ret tt
  else
    let! sig := lift_result (signature (sr_positions r)) in
    let! old := gets (fun s => ca_accounts s !! account_id ≫= as_persisted_signature) in
    if match old with Some o => signature_eqb sig o | None => false end then ret tt
    else
      let! snap := snapshot account_id true false in
      match snap with
      | Some (ps, _) =>
          _persist account_id org_id ps ;;;
          upd_state account_id (set_as_signature (Some sig))
      | None => raise (TypeError "cannot unpack non-iterable NoneType object")
      end.

(** ** Presence and margin mode *)

Definition last_seen (s : CopierApp) (account_id : Z) : option float64 := ca_accounts s !! account_id ≫= as_last_seen.

Definition is_online (s : CopierApp) (account_id : Z) (now : float64) : bool :=
  match last_seen s account_id with
  | Some last => fltb (fsub now last) OFFLINE_AFTER_S
  | None => false
  end.

(** What [hedging(account_id)] answers in a state *)
Definition hedging_of (s : CopierApp) (account_id : Z) : option bool :=
  let from_link := t_links (ca_tables s) !! account_id ≫= lk_hedging in
  match ca_accounts s !! account_id with
  | Some st => if as_hedging_loaded st then as_hedging st
               else match from_link with Some h => Some h | None => as_hedging st end
  | None => from_link
  end.

(** The call, which also keeps a flag it had to read from the link row. *)
Definition hedging (account_id : Z) : M CopierApp (option bool) :=
  let! h := gets (fun s => hedging_of s account_id) in
  let! st := gets (fun s => ca_accounts s !! account_id) in
  let! link := on_tables (load_mt5_link account_id) in
  (if match st with Some st => as_hedging_loaded st | None => false end then ret tt
   else match link ≫= lk_hedging with
        | Some v => let! _ := _state account_id None in upd_state account_id (set_as_hedging (Some v))
        | None => ret tt
        end) ;;;
  ret h.

Definition mode_of (h : option bool) : option margin_mode :=
  match h with None => None | Some true => Some Hedging | Some false => Some Netting end.
Definition margin_mode (account_id : Z) : M CopierApp (option margin_mode) :=
  let! h := hedging account_id in ret (mode_of h).

(** The callback the outbox was built with.  Within one call of the service it
    reads the state the service was called in: nothing the service writes can
    change an answer. *)
Definition margin_mode_of (s : CopierApp) (account_id : Z) : option Outbox.margin_mode := mode_of (hedging_of s account_id).

(** ** Netting masters *)

Definition persist_virtual_positions (account_id : Z) : M CopierApp unit :=
  let! st := gets (fun s => ca_accounts s !! account_id) in
  match st, st ≫= as_report with
  | Some st, Some _ =>
      let! snap := snapshot account_id false true in
      match snap with
      | Some (ps, _) => _persist account_id (as_org_id st) ps
      | None => ret tt
      end
  | _, _ => ret tt
  end.

Definition position_price (account_id position_id : Z) : M CopierApp price :=
  let! r := report account_id in
  match r with
  | None => ret None
  | Some r =>
      match find_position position_id (Some r) with
      | Some p => ret (rp_current_price p)
      | None =>
          let! l := net_ledger account_id in
          match List.find (fun v => lr_virtual_id v =? position_id) (positions l) with
          | None => ret None
          | Some v => ret (List.find (fun p => bool_decide (rp_symbol p = lr_symbol v)) (sr_positions r) ≫= rp_current_price)
          end
      end
  end.
