(* ===== verification/Bridge.v ===== *)
(** * The MT5 bridge: the terminal's calls of [copier/main.py]

    [mt5_hello] and [mt5_sync], the two requests a terminal makes, with
    everything they drive -- symbols, aliases, acknowledgements, deals, the
    master's events, the net ledger, a follower's own deals, the commands handed
    over -- and the offline check.  The routing snapshot of a sync is an
    argument (its cache may be up to a second old); after the invalidation in
    [mt5_hello] it is built from the tables.  [log.info] lines are left out. *)

From S2P Require Import Prelude PyStr PyFloat Models Db Repo Protocol Wire Routing.
From S2P Require Import Outbox Dispatch Service Reconcile Ingress Symbols Deals Mt5Db Registry.
From Stdlib Require Import Ascii SpecFloat.

(** ** Instants as text

    [datetime.fromtimestamp(t, tz=utc).isoformat(timespec='seconds')] for an
    instant in microseconds since 1970, in the proleptic Gregorian calendar of
    Python's [datetime], whose years run from 1 to 9999. *)

(** ** The calendar *)

(** Year, month and day of a day number (1970-01-01 is 0); years here start in
    March and come in eras of 400. *)
Definition civil_of_days (n : Z) : Z * Z * Z :=
  let z := n + 719468 in
  let era := z / 146097 in
  let doe := z mod 146097 in
  let yoe := (doe - doe / 1460 + doe / 36524 - doe / 146096) / 365 in
  let doy := doe - (365 * yoe + yoe / 4 - yoe / 100) in
  let mp := (5 * doy + 2) / 153 in
  let m := if mp <? 10 then mp + 3 else mp - 9 in
  (yoe + era * 400 + (if m <=? 2 then 1 else 0), m, doy - (153 * mp + 2) / 5 + 1).

Definition pad2 (n : Z) : string := (if n <? 10 then "0" else "") +:+ pretty n.
Definition pad4 (n : Z) : string :=
  (if n <? 10 then "000" else if n <? 100 then "00" else if n <? 1000 then "0" else "") +:+ pretty n.

Definition iso_seconds (us : Z) : result string :=
  let secs := us / 1000000 in
  let '(y, m, d) := civil_of_days (secs / 86400) in
  let s := secs mod 86400 in
  if (1 <=? y) && (y <=? 9999)
  then Ok (pad4 y +:+ "-" +:+ pad2 m +:+ "-" +:+ pad2 d +:+ "T" +:+
           pad2 (s / 3600) +:+ ":" +:+ pad2 (s / 60 mod 60) +:+ ":" +:+ pad2 (s mod 60) +:+ "+00:00")
  else Raise (ValueError ("year " +:+ pretty y +:+ " is out of range")).

Example iso_epoch : iso_seconds 0 = Ok "1970-01-01T00:00:00+00:00".
Proof. reflexivity. Qed.
Example iso_leap : iso_seconds 1709251199999999 = Ok "2024-02-29T23:59:59+00:00".
Proof. reflexivity. Qed.
Example iso_century : iso_seconds 4107542400000000 = Ok "2100-03-01T00:00:00+00:00".
Proof. reflexivity. Qed.

Definition MT5_LINK_TOUCH_INTERVAL_S : float64 := f_of_Z 10.
Definition DEFAULT_POLL_MS : Z := 250.

Definition find_account (account_id : Z) (accounts : list AccountRow) : option AccountRow :=
  List.find (fun a => acc_account_id a =? account_id) accounts.
Definition _account_row (account_id : Z) : M CopierApp (option AccountRow) :=
  let! accounts := a_repo load_accounts in ret (find_account account_id accounts).

Definition is_mt5 (a : AccountRow) : bool := bool_decide (acc_platform a = MT5).

Definition _mt5_aliases (account_id : Z) : M CopierApp (list (string * string)) :=
  let! cached := gets (fun s => ca_aliases s !! account_id) in
  match cached with
  | Some aliases => ret aliases
  | None =>
      let! aliases := on_tables (load_symbol_aliases account_id) in
      modify (fun s => set_ca_aliases (<[account_id := aliases]> (ca_aliases s)) s) ;;;
      ret aliases
  end.

Definition request_resync (org_id : Z) : M CopierApp unit :=
  modify (fun s => set_ca_resyncs ({[org_id]} ∪ ca_resyncs s) s).

(** [routing_provider.invalidate()] *)
Definition invalidate : M CopierApp unit := modify (fun s => set_ca_invalidated (S (ca_invalidated s)) s).

(** What the provider builds when its cache is empty. *)
Definition fresh_routing (s : CopierApp) : OrgRouting :=
  build_routing (fun a => list_to_map (default [] (t_symbol_cache (ca_tables s) !! a)))
    (Some (fun a => (fun r : string * (string * alias_source) => (r.1, r.2.1)) <$> default [] (t_aliases (ca_tables s) !! a)))
    (db_accounts (ca_db s)).

(** [_build_mt5_targets]: a follower's symbol names by id, read off the routing. *)
Definition targets_of (symbols : gmap string SymbolInfo) : gmap Z string :=
  map_fold (fun _ info m => <[symbol_id info := name info]> m) ∅ symbols.
Definition mt5_targets (routing : OrgRouting) (account_id : Z) : option (gmap Z string) :=
  if bool_decide (platform_by_account routing !! account_id = Some MT5)
  then Some (match List.find (fun c => Models.account_id c =? account_id)
                     (mjoin ((map_to_list (slaves_by_org routing)).*2)) with
             | Some c => targets_of (Models.symbols c)
             | None => ∅
             end)
  else None.

(** ** Hello *)

Definition string_le (a b : string) : Prop := String.leb a b = true.
#[export] Instance string_le_dec : RelDecision string_le.
Proof. intros a b. unfold string_le. apply _. Defined.

(** [sorted(set(names))] *)
Definition sorted_names (names : list string) : list string := merge_sort string_le (remove_dups names).

Definition _canonical_names_for (routing : OrgRouting) (account : AccountRow) : M CopierApp (list string) :=
  let org_id := acc_org_id account in
  let of_followers :=
    mjoin ((fun c => match platform_by_account routing !! Models.account_id c with
                     | Some MT5 => []
                     | _ => (map_to_list (Models.symbols c)).*1
                     end) <$> org_slaves routing org_id) in
  match master_by_org routing !! org_id with
  | Some master_id =>
      if master_id =? acc_account_id account then ret (sorted_names of_followers)
      else
        let! names := gets (fun s => (fun p : Z * SymbolInfo => name p.2) <$>
                              map_to_list (default ∅ (ca_master_symbols s !! org_id))) in
        match names with
        | [] => let! cached := on_tables (load_symbol_cache master_id) in ret (sorted_names (cached.*1))
        | _ => ret (sorted_names names)
        end
  | None => ret (sorted_names of_followers)
  end.

Definition _auto_match_aliases (account_id : Z) (account : AccountRow) : M CopierApp unit :=
  let! routing := gets fresh_routing in
  let! canonical_names := _canonical_names_for routing account in
  let! symbols := symbols_by_name account_id in
  (match canonical_names with
   | [] => ret tt
   | _ => on_tables (save_symbol_aliases account_id (auto_match canonical_names (symbols.*1)) SrcAuto)
   end) ;;;
  modify (fun s => set_ca_aliases (delete account_id (ca_aliases s)) s) ;;;
  invalidate.

Definition upsert_mt5_link_hello (account_id : Z) (h : HelloReport) : M CopierApp unit :=
  on_tables (update_link_hello account_id h) ;;; a_repo (set_trader_login account_id (hr_login h)).

Definition cleared_payload (reason : string) : payload :=
  [("action", JStr "degraded_cleared"); ("reason", JStr reason)].

Definition clear_and_log (account_id org_id : Z) (category : string) (p : payload) : M CopierApp unit :=
  let! cleared := a_repo (clear_degraded account_id) in
  if cleared then a_log category Info p (Some account_id) (Some org_id) else ret tt.

(** The last chunk of a hello *)
Definition hello_complete (account_id : Z) (account : AccountRow) (hello : HelloReport) : M CopierApp unit :=
  let org_id := acc_org_id account in
  upsert_mt5_link_hello account_id hello ;;;
  invalidate ;;;
  _auto_match_aliases account_id account ;;;
  (if bool_decide (acc_role account = RoleMaster)
   then let! symbols := symbols_by_name account_id in
        modify (fun s => set_ca_master_symbols (<[org_id := symbols_by_id symbols]> (ca_master_symbols s)) s)
   else ret tt) ;;;
  clear_and_log account_id org_id "slave_action" (cleared_payload "terminal reconnected") ;;;
  let! symbols := symbols_by_name account_id in
  a_log "connection" Info
    [("action", JStr "mt5_hello"); ("login", JInt (hr_login hello)); ("broker", JStr (hr_broker hello));
     ("server", JStr (hr_server hello)); ("hedging", JBool (hr_hedging hello));
     ("ea_version", JStr (hr_ea_version hello)); ("symbols", JInt (Z.of_nat (length symbols)))]
    (Some account_id) (Some org_id).

(** Answers the [last_deal_ticket] of the response. *)
Definition mt5_hello (account_id : Z) (body : json) (now : float64) : M CopierApp Z :=
  let! account := _account_row account_id in
  match account with
  | Some account =>
      if negb (is_mt5 account)
      then raise (ValueError ("account " +:+ pretty account_id +:+ " is not an MT5 account"))
      else
        let! hello := lift_result (parse_hello body) in
        update_from_hello account_id (acc_org_id account) hello now ;;;
        (if hr_chunks hello <=? hr_chunk hello then hello_complete account_id account hello else ret tt) ;;;
        let! wm := a_repo (mt5_watermark account_id) in
        ret wm.1
  | None => raise (ValueError ("account " +:+ pretty account_id +:+ " is not an MT5 account"))
  end.

(** ** Sync: acknowledgements *)

(** [sorted({master ids of the other active copies})] *)
Definition shares (account_id position : Z) (except_coid : option string) (m : mapping_row) : option Z :=
  if (m_slave_account_id m =? account_id) && col_eqb (m_slave_position_id m) position &&
     bool_decide (m_status m = Active) && negb (bool_decide (m_client_order_id m = except_coid))
  then truthy (m_master_position_id m) else None.

Definition _copies_sharing (org_id account_id position : Z) (except_coid : option string) : M CopierApp (list Z) :=
  let! rows := a_repo (mapping_rows (Some org_id)) in
  ret (merge_sort Z.le (remove_dups (omap (shares account_id position except_coid) rows))).

Definition JInts (l : list Z) : json := JList (JInt <$> l).

Definition _record_netting_override (org_id account_id pos : Z) (set_by : option string) : M CopierApp unit :=
  let! others := _copies_sharing org_id account_id pos set_by in
  match others with
  | [] => ret tt
  | _ =>
      let! p := position account_id pos in
      a_log "slave_action" Info
        [("action", JStr "mt5_netting_protection_override"); ("position", JInt pos); ("set_by", JOptStr set_by);
         ("overrides", JInts others); ("stop_loss", JPrice (p ≫= rp_stop_loss));
         ("take_profit", JPrice (p ≫= rp_take_profit));
         ("detail", JStr ("one stop and one target per symbol on a netting account: the latest " +:+
                          "open or amend sets them for every copy sharing the net position"))]
        (Some account_id) (Some org_id)
  end.

Definition entry_value (e : DealEntry) : string :=
  match e with DeIn => "IN" | DeOut => "OUT" | DeInOut => "INOUT" | DeOutBy => "OUT_BY" | DeNone => "" end.

(** [deals_by_ticket.get(outcome.deal) if outcome.deal else None] *)
Definition deal_of (deals : list ReportDeal) (ticket : option Z) : option ReportDeal :=
  truthy ticket ≫= fun t => od_get t (od_of_list ((fun d => (rd_ticket d, d)) <$> deals)).

Definition nonempty (coid : option string) : option string := match coid with Some "" => None | c => c end.

Section sync.
Context (routing : OrgRouting) (amend_wired : bool).

(** A call of the service, with the dispatcher's view of the MT5 side. *)
Definition with_service {A}
    (m : option (Z -> option (gmap Z string)) -> option (Z -> option Outbox.margin_mode) -> M service A) : M CopierApp A :=
  fun s => on_service (m (Some (mt5_targets routing)) (Some (margin_mode_of s))) s.

Definition slave_fill (org_id : Z) (fill : SlaveFill) : M CopierApp unit :=
  with_service (fun targets outbox => handle_slave_fill targets outbox org_id fill).

Definition open_fill (account_id ticket : Z) (o : AckOutcome) (p : option ReportPosition) : SlaveFill :=
  {| sf_account_id := account_id; sf_client_order_id := ao_client_order_id o; sf_position_id := ticket;
     sf_filled_volume := default 0 (ao_out_volume o); sf_fill_price := ao_out_price o; sf_closed_volume := None;
     sf_label := match ao_client_order_id o with None => MANUAL_ORDER_LABEL | Some _ => "" end;
     sf_order_id := ao_order o; sf_stop_loss := p ≫= rp_stop_loss; sf_take_profit := p ≫= rp_take_profit |}.

Definition close_fill (account_id : Z) (o : AckOutcome) (deal : option ReportDeal) : SlaveFill :=
  {| sf_account_id := account_id; sf_client_order_id := ao_client_order_id o;
     sf_position_id := match truthy (ao_position o) with
                       | Some p => p
                       | None => match deal with Some d => rd_position d | None => 0 end
                       end;
     sf_filled_volume := default 0 (ao_out_volume o); sf_fill_price := ao_out_price o;
     sf_closed_volume := Some (default 0 (ao_out_volume o)); sf_label := ""; sf_order_id := None;
     sf_stop_loss := None; sf_take_profit := None |}.

Definition outcome_open (org_id account_id : Z) (o : AckOutcome) (netting : bool) (deal : option ReportDeal)
    : M CopierApp unit :=
  let ticket := match truthy (ao_position o) with
                | Some p => Some p
                | None => truthy (rd_position <$> deal)
                end in
  match ticket with
  | None =>
      a_log "slave_action" Warning
        [("action", JStr "mt5_open_ack_without_position"); ("command_id", JInt (ao_command_id o));
         ("deal", JOptInt (ao_deal o))] (Some account_id) (Some org_id)
  | Some ticket =>
      let! p := position account_id ticket in
      slave_fill org_id (open_fill account_id ticket o p) ;;;
      if negb netting then ret tt
      else
        (match nonempty (ao_client_order_id o), deal with
         | Some coid, Some d =>
             if is_close_entry (rd_entry d)
             then let! against := _copies_sharing org_id account_id ticket (Some coid) in
                  a_log "slave_action" Info
                    [("action", JStr "mt5_netting_opposite_copy"); ("client_order_id", JStr coid);
                     ("position", JInt ticket); ("entry", JStr (entry_value (rd_entry d)));
                     ("volume", JInt (default 0 (ao_out_volume o))); ("nets_against", JInts against)]
                    (Some account_id) (Some org_id)
             else ret tt
         | _, _ => ret tt
         end) ;;;
        _record_netting_override org_id account_id ticket (ao_client_order_id o)
  end.

Definition outcome_receipt (org_id account_id : Z) (o : AckOutcome) (netting : bool) : M CopierApp unit :=
  a_log "slave_action" Info
    [("action", JStr ("mt5_" +:+ kind_value (ao_kind o) +:+ "_done")); ("command_id", JInt (ao_command_id o));
     ("position", JOptInt (ao_position o)); ("order", JOptInt (ao_order o))] (Some account_id) (Some org_id) ;;;
  match netting, ao_kind o, ao_position o with
  | true, KAmend, Some p => _record_netting_override org_id account_id p None
  | _, _, _ => ret tt
  end.

Definition outcome_ok (org_id account_id : Z) (o : AckOutcome) (netting : bool) (deal : option ReportDeal)
    : M CopierApp unit :=
  match ao_kind o, nonempty (ao_client_order_id o), ao_order o with
  | KOpen, _, _ => outcome_open org_id account_id o netting deal
  | KClose, Some _, _ => slave_fill org_id (close_fill account_id o deal)
  | KPlacePending, _, _ =>
      on_service (handle_slave_order_accepted org_id account_id (ao_client_order_id o) (ao_order o))
  | KCancelPending, _, Some order => on_service (handle_slave_order_cancelled org_id account_id order)
  | _, _, _ => outcome_receipt org_id account_id o netting
  end.

Definition opens (k : cmd_kind) : bool := match k with KOpen | KPlacePending => true | _ => false end.

Definition _apply_mt5_outcome (org_id account_id : Z) (netting : bool) (deals : list ReportDeal) (o : AckOutcome)
    : M CopierApp unit :=
  let deal := deal_of deals (ao_deal o) in
  if negb (ao_ok o)
  then
    let reason := "terminal rejected " +:+ kind_value (ao_kind o) +:+ ": " +:+ ao_message o in
    let coid := if opens (ao_kind o) then ao_client_order_id o else None in
    on_service (handle_slave_rejection org_id account_id coid reason None) ;;;
    a_repo (set_account_status account_id StDegraded (JStr reason))
  else
    outcome_ok org_id account_id o netting deal ;;;
    clear_and_log account_id org_id "slave_action" (cleared_payload "terminal executed a command").

(** ** Sync: deals *)

Definition max_of (f : ReportDeal -> Z) (d : ReportDeal) (ds : list ReportDeal) : Z := foldl Z.max (f d) (f <$> ds).
Definition min_of (f : ReportDeal -> Z) (d : ReportDeal) (ds : list ReportDeal) : Z := foldl Z.min (f d) (f <$> ds).

(** The deals past the watermark, in time order *)
Definition fresh_deals (last_ticket : Z) (deals : list ReportDeal) : list ReportDeal :=
  sort_deals (List.filter (fun d => last_ticket <? rd_ticket d) deals).

Definition entry_prices (previous current : list ReportPosition) : list (Z * float64) :=
  od_of_list ((fun p => (rp_ticket p, rp_open_price p)) <$> previous ++ current).

(** The rows go in before the watermark moves. *)
Definition store_deals (account_id org_id : Z) (r : SyncReport) (previous_report : option SyncReport)
    (d : ReportDeal) (ds : list ReportDeal) : M CopierApp unit :=
  let! symbols := symbols_by_name account_id in
  let prices := entry_prices (match previous_report with Some p => sr_positions p | None => [] end)
                  (sr_positions r) in
  let! rows := lift_result (deal_rows symbols (fun t => od_get t prices) (d :: ds) (sr_balance r)) in
  on_tables (upsert_mt5_deals account_id (Some org_id) rows) ;;;
  a_repo (set_mt5_watermark account_id (max_of rd_ticket d ds) (max_of rd_time_ms d ds)) ;;;
  on_tables (set_backfill_state account_id (Some (min_of rd_time_ms d ds)) (Some (max_of rd_time_ms d ds)) true).

Definition _ingest_mt5_deals (account_id org_id : Z) (r : SyncReport) (previous_report : option SyncReport)
    : M CopierApp (list ReportDeal) :=
  let! wm := a_repo (mt5_watermark account_id) in
  match fresh_deals wm.1 (sr_deals r) with
  | [] => ret []
  | d :: ds => store_deals account_id org_id r previous_report d ds ;;; ret (d :: ds)
  end.

(** ** Sync: the master's events *)

(** [{broker: canonical for canonical, broker in aliases}] *)
Definition reverse_aliases (aliases : list (string * string)) : gmap string string :=
  foldl (fun m (a : string * string) => <[a.2 := a.1]> m) ∅ aliases.

Definition act_on_event (org_id account_id : Z) (event : MasterEvent) : M CopierApp unit :=
  try_except
    (with_service (fun targets outbox =>
       act_on_master_event targets outbox amend_wired org_id account_id event "mt5" (Ok routing)))
    (fun e => a_log "connection" Error
       [("action", JStr "event_processing_failed"); ("account_id", JInt account_id); ("error", JExn e);
        ("error_type", JStr (exn_name e))] None (Some org_id)).

(** The key a deal's copies are mapped under, if it opened something *)
Definition fill_key (netting : bool) (d : ReportDeal) : option Z :=
  if negb (is_trade_type (rd_deal_type d)) then None
  else match netting, rd_entry d with
       | true, (DeIn | DeInOut) => Some (rd_ticket d)
       | false, DeIn => Some (rd_position d)
       | _, _ => None
       end.

Definition stamp_fill (org_id : Z) (netting : bool) (d : ReportDeal) : M CopierApp unit :=
  match fill_key netting d with
  | Some key => a_repo (record_master_fill org_id key (Some (rd_price d)) (Some (rd_time_ms d)))
  | None => ret tt
  end.

Definition with_deals (ds : list ReportDeal) (r : SyncReport) : SyncReport :=
  {| sr_seq := sr_seq r; sr_ts_ms := sr_ts_ms r; sr_balance := sr_balance r; sr_equity := sr_equity r;
     sr_margin := sr_margin r; sr_margin_free := sr_margin_free r; sr_positions := sr_positions r;
     sr_orders := sr_orders r; sr_deals := ds; sr_acks := sr_acks r |}.

Definition _mt5_master_events (account_id org_id : Z) (r : SyncReport)
    (previous : option (list PositionSnapshot * list OrderSnapshot)) (netting : bool) : M CopierApp unit :=
  let! aliases := _mt5_aliases account_id in
  let! symbols := symbols_by_name account_id in
  let! ledger := if netting then let! l := net_ledger account_id in ret (Some l) else ret None in
  let '(events, ledger) := master_events_from_report r previous (reverse_aliases aliases)
                             (list_to_map symbols) ledger in
  (match ledger with
   | Some l => upd_state account_id (set_as_ledger (Some l))
   | None => ret tt
   end) ;;;
  for_each (act_on_event org_id account_id) events ;;;
  for_each (stamp_fill org_id netting) (sr_deals r).

Definition _persist_net_ledger (account_id : Z) : M CopierApp unit :=
  let! l := net_ledger account_id in
  let '((upserts, deleted), l') := dirty_rows l in
  upd_state account_id (set_as_ledger (Some l')) ;;;
  let! _ := a_repo (Ingress._persist_net_ledger account_id l) in
  match upserts, deleted with
  | [], [] => ret tt
  | _, _ => persist_virtual_positions account_id
  end.

(** ** Sync: a follower's own deals *)

Definition settles (o : AckOutcome) : option Z :=
  match ao_ok o, nonempty (ao_client_order_id o), ao_kind o with
  | true, Some _, (KOpen | KClose) => truthy (ao_deal o)
  | _, _, _ => None
  end.

Definition acked_position (o : AckOutcome) : option Z :=
  match ao_ok o, ao_kind o with true, KOpen => truthy (ao_position o) | _, _ => None end.

Definition in_fill (account_id : Z) (d : ReportDeal) (p : option ReportPosition) : SlaveFill :=
  {| sf_account_id := account_id; sf_client_order_id := None; sf_position_id := rd_position d;
     sf_filled_volume := rd_volume d; sf_fill_price := Some (rd_price d); sf_closed_volume := None;
     sf_label := if bool_decide (rd_comment d = MANUAL_ORDER_LABEL) then MANUAL_ORDER_LABEL else "";
     sf_order_id := int_or_none (rd_order d); sf_stop_loss := p ≫= rp_stop_loss; sf_take_profit := p ≫= rp_take_profit |}.

Definition out_fill (account_id : Z) (d : ReportDeal) : SlaveFill :=
  {| sf_account_id := account_id; sf_client_order_id := None; sf_position_id := rd_position d;
     sf_filled_volume := rd_volume d; sf_fill_price := Some (rd_price d); sf_closed_volume := Some (rd_volume d);
     sf_label := ""; sf_order_id := int_or_none (rd_order d); sf_stop_loss := None; sf_take_profit := None |}.

Definition swallow (m : M CopierApp unit) : M CopierApp unit := try_except m (fun _ => ret tt).

Definition slave_deal (org_id account_id : Z) (netting : bool) (known acked : list Z) (d : ReportDeal) : M CopierApp unit :=
  if negb (is_trade_type (rd_deal_type d)) then ret tt
  else
    let! settled := gets (fun s => default ∅ (ca_settled s !! account_id)) in
    if bool_decide (rd_ticket d ∈ settled)
    then modify (fun s => set_ca_settled (<[account_id := settled ∖ {[rd_ticket d]}]> (ca_settled s)) s)
    else match rd_entry d with
         | DeIn =>
             if bool_decide (rd_position d ∈ known) || bool_decide (rd_position d ∈ acked) then ret tt
             else let! p := position account_id (rd_position d) in
                  swallow (slave_fill org_id (in_fill account_id d p))
         | DeOut | DeOutBy | DeInOut =>
             if netting
             then let! touched := a_repo (reduce_position_mappings_fifo account_id (rd_position d) (rd_volume d)) in
                  for_each (fun ft =>
                    a_log "slave_action" Info
                      [("action", JStr "position_closed"); ("slave_position_id", JInt (rd_position d));
                       ("client_order_id", JOptStr (ft_client_order_id ft)); ("closed_volume", JInt (ft_closed_volume ft))]
                      (Some account_id) (Some org_id)) touched
             else swallow (slave_fill org_id (out_fill account_id d))
         | DeNone => ret tt
         end.

Definition _mt5_slave_deals (org_id account_id : Z) (deals : list ReportDeal) (outcomes : list AckOutcome)
    (netting : bool) : M CopierApp unit :=
  modify (fun s => set_ca_settled
    (<[account_id := list_to_set (omap settles outcomes) ∪ default ∅ (ca_settled s !! account_id)]> (ca_settled s)) s) ;;;
  let! rows := a_repo (mapping_rows (Some org_id)) in
  let known := omap (fun m => if m_slave_account_id m =? account_id then truthy (m_slave_position_id m) else None) rows in
  for_each (slave_deal org_id account_id netting known (omap acked_position outcomes)) deals.

(** ** Sync *)

Definition _mt5_back_online (account_id org_id : Z) : M CopierApp unit :=
  clear_and_log account_id org_id "connection" [("action", JStr "mt5_online")].

Definition touch_link (account_id : Z) (r : SyncReport) (now : float64) : M CopierApp unit :=
  let! last := gets (fun s => default (S754_infinity true) (ca_last_touch s !! account_id)) in
  if fleb MT5_LINK_TOUCH_INTERVAL_S (fsub now last)
  then let! seen := lift_result (_ts now) in
       on_tables (touch_mt5_link account_id (sr_balance r) (sr_equity r) seen) ;;;
       modify (fun s => set_ca_last_touch (<[account_id := now]> (ca_last_touch s)) s)
  else ret tt.

(** What a sync knows once its report is stored and its acknowledgements are
    settled: the book and report before it, and the outcomes. *)
Record settled_report := {
  rs_netting : bool;
  rs_previous : option (list PositionSnapshot * list OrderSnapshot);
  rs_previous_report : option SyncReport;
  rs_outcomes : list AckOutcome
}.

Definition is_master_of (account : AccountRow) : bool :=
  bool_decide (master_by_org routing !! acc_org_id account = Some (acc_account_id account)).

Definition settle_report (account : AccountRow) (r : SyncReport) (now : float64) : M CopierApp settled_report :=
  let account_id := acc_account_id account in
  let org_id := acc_org_id account in
  let! mode := Registry.margin_mode account_id in
  let netting := bool_decide (mode = Some Netting) in
  let! was_online := gets (fun s => is_online s account_id now) in
  let! previous := snapshot account_id false false in
  let! previous_report := report account_id in
  update_from_sync account_id org_id r now (negb (netting && is_master_of account)) ;;;
  touch_link account_id r now ;;;
  (if was_online then ret tt else _mt5_back_online account_id org_id) ;;;
  let! outcomes := a_repo (apply_acks account_id now (sr_acks r)) in
  for_each (_apply_mt5_outcome org_id account_id netting (sr_deals r)) outcomes ;;;
  ret {| rs_netting := netting; rs_previous := previous; rs_previous_report := previous_report;
         rs_outcomes := outcomes |}.

(** What its fresh deals lead to. *)
Definition act_on_deals (account : AccountRow) (r : SyncReport) (st : settled_report) (fresh : list ReportDeal)
    : M CopierApp unit :=
  let account_id := acc_account_id account in
  let org_id := acc_org_id account in
  if is_master_of account
  then _mt5_master_events account_id org_id (with_deals fresh r) (rs_previous st) (rs_netting st) ;;;
       (if rs_netting st then _persist_net_ledger account_id else ret tt)
  else match acc_role account, fresh, rs_outcomes st with
       | RoleSlave, [], [] => ret tt
       | RoleSlave, _, _ => _mt5_slave_deals org_id account_id fresh (rs_outcomes st) (rs_netting st)
       | _, _, _ => ret tt
       end.

(** The report of an MT5 account, up to the delivery of commands: the outcomes
    it settled and the deals it brought. *)
Definition take_report (account : AccountRow) (r : SyncReport) (now : float64)
    : M CopierApp (list AckOutcome * list ReportDeal) :=
  let! st := settle_report account r now in
  let! fresh := _ingest_mt5_deals (acc_account_id account) (acc_org_id account) r (rs_previous_report st) in
  act_on_deals account r st fresh ;;;
  ret (rs_outcomes st, fresh).

(** [int(now * 1000)] *)
Definition server_ms (now : float64) : Z := f_trunc (fmul now (f_of_Z 1000)).

(** The end of a sync: the commands that are due, and the response. *)
Definition hand_over (account : AccountRow) (now : float64) (settled : list AckOutcome * list ReportDeal)
    : M CopierApp string :=
  let! commands := a_repo (deliverable (acc_account_id account) now) in
  (match settled with ([], []) => ret tt | _ => request_resync (acc_org_id account) end) ;;;
  lift_result (encode_response "OK" (server_ms now) DEFAULT_POLL_MS commands None None).

Definition mt5_sync (account_id : Z) (body : json) (now : float64) : M CopierApp string :=
  let! account := _account_row account_id in
  match account with
  | Some account =>
      if negb (is_mt5 account)
      then lift_result (encode_response "STOP" (server_ms now) 0 [] None (Some "account removed"))
      else
        let! r := lift_result (parse_sync body) in
        let! settled := take_report account r now in
        hand_over account now settled
  | None => lift_result (encode_response "STOP" (server_ms now) 0 [] None (Some "account removed"))
  end.
End sync.

(** ** Status and the offline check *)

Record Mt5Status := {
  st_online : bool;
  st_last_seen_at : option string;
  st_pending_commands : Z;
  st_hedging : option bool
}.

Definition since_text (last : float64) : result string := let? us := _ts last in iso_seconds us.

Definition mt5_status (account_id : Z) (now : float64) : M CopierApp Mt5Status :=
  let! account := _account_row account_id in
  match account with
  | None => raise (ValueError ("account " +:+ pretty account_id +:+ " not found"))
  | Some _ =>
      let! last := gets (fun s => last_seen s account_id) in
      let! online := gets (fun s => is_online s account_id now) in
      let! at_ := match last with
                  | Some l => let! t := lift_result (since_text l) in ret (Some t)
                  | None => ret None
                  end in
      let! pending := a_repo (pending_count account_id) in
      let! h := hedging account_id in
      ret {| st_online := online; st_last_seen_at := at_; st_pending_commands := pending; st_hedging := h |}
  end.

(** [(account.last_error or '').startswith('terminal offline')] *)
Definition marked_offline (a : AccountRow) : bool :=
  bool_decide (acc_status a = StDegraded) &&
  match acc_last_error a with JStr e => str_starts "terminal offline" e | _ => false end.

Definition check_account (now : float64) (a : AccountRow) : M CopierApp unit :=
  let id := acc_account_id a in
  if negb (is_mt5 a) || bool_decide (acc_status a = StPaused) then ret tt
  else
    let! last := gets (fun s => last_seen s id) in
    let! online := gets (fun s => is_online s id now) in
    match last with
    | None => ret tt
    | Some last =>
        if online || marked_offline a then ret tt
        else
          let! since := lift_result (since_text last) in
          a_repo (set_account_status id StDegraded (JStr ("terminal offline since " +:+ since))) ;;;
          a_log "connection" Warning [("action", JStr "mt5_offline"); ("since", JStr since)]
            (Some id) (Some (acc_org_id a))
    end.

Definition check_mt5_offline (now : float64) : M CopierApp unit :=
  swallow (let! accounts := a_repo load_accounts in for_each (check_account now) accounts).
