(* ===== verification/BridgeDemo.v ===== *)
(** * A desk on MT5, to try the bridge on

    Two orgs: the first with MT5 account 7 as master and 11 as its follower, the
    second with account 21.  The terminal of 7 says hello, is empty, and then
    reports a market buy. *)

From S2P Require Import Prelude PyStr PyFloat PyDecimal PyDecOps Models Db Repo Protocol Wire Routing.
From S2P Require Import Outbox Dispatch Service Reconcile Ingress Symbols Deals Mt5Db Registry Bridge.

Definition desk_account (i org : Z) (role : account_role) : AccountRow :=
  {| acc_account_id := i; acc_org_id := org; acc_connection_id := None; acc_trader_login := 9001;
     acc_is_live := false; acc_role := role; acc_enabled := true; acc_multiplier := Dec 1 0;
     acc_status := StOk; acc_last_error := JNull; acc_platform := MT5 |}.
Definition desk_accounts : list AccountRow :=
  [desk_account 7 1 RoleMaster; desk_account 11 1 RoleSlave; desk_account 21 2 RoleSlave].

Definition desk_org (i : Z) : OrgRow :=
  {| org_id := i; org_name := "desk"; org_copying_enabled := true; org_dry_run := false; org_settings_version := 1 |}.

Definition desk_link : LinkRow :=
  {| lk_login := None; lk_broker := None; lk_server := None; lk_currency := None; lk_hedging := None;
     lk_trade_mode := None; lk_leverage := None; lk_ea_version := None; lk_ea_build := None;
     lk_last_seen_at := None; lk_balance := None; lk_equity := None |}.

(** Before any terminal called *)
Definition desk : CopierApp :=
  {| ca_service :=
       {| sv_engine := {| e_db := set_db_accounts desk_accounts (set_db_orgs [desk_org 1; desk_org 2] (empty_db 0));
                          e_sends := [] |};
          sv_master_protection := []; sv_checks := []; sv_notified := []; sv_amends := []; sv_captured := [] |};
     ca_tables := {| t_links := list_to_map [(7, desk_link); (11, desk_link); (21, desk_link)]; t_symbol_cache := ∅;
                     t_aliases := ∅; t_positions := ∅; t_deals := ∅; t_backfill := ∅ |};
     ca_accounts := ∅; ca_aliases := ∅; ca_last_touch := ∅; ca_settled := ∅; ca_resyncs := ∅;
     ca_master_symbols := ∅; ca_invalidated := 0 |}.

(** ** What the terminals post *)

Definition fnum (n d : Z) : json := JFloat (fdiv (f_of_Z n) (f_of_Z d)).

Definition hello_body : json :=
  JObj [("login", JInt 9001); ("broker", JStr "Demo"); ("hedging", JBool true);
        ("symbols", JList [JObj [("n", JStr "EURUSD"); ("d", JInt 5); ("vmin", fnum 1 100); ("vstep", fnum 1 100)]])].

Definition sync_body (positions deals acks : list json) : json :=
  JObj [("positions", JList positions); ("orders", JList []); ("deals", JList deals); ("acks", JList acks);
        ("seq", JInt 1); ("ts", JInt 1700000000000); ("balance", fnum 1000 1); ("equity", fnum 1000 1)].

Definition position_body (ticket : Z) : json :=
  JObj [("t", JInt ticket); ("s", JStr "EURUSD"); ("side", JStr "BUY"); ("lots", fnum 1 2); ("open", fnum 108 100)].
Definition deal_body (ticket position : Z) : json :=
  JObj [("t", JInt ticket); ("pos", JInt position); ("s", JStr "EURUSD"); ("type", JStr "BUY"); ("entry", JStr "IN");
        ("lots", fnum 1 2); ("price", fnum 108 100); ("time", JInt 1700000000000)].

Definition empty_sync : json := sync_body [] [] [].
Definition buy_sync : json := sync_body [position_body 501] [deal_body 601 501] [].
Definition fill_sync : json :=
  sync_body [position_body 801] [deal_body 701 801]
    [JObj [("id", JInt 1); ("ok", JBool true); ("pos", JInt 801); ("deal", JInt 701); ("lots", fnum 1 2)]].

Definition at_ (s : Z) : float64 := f_of_Z s.

(** Both terminals have said hello and the master was empty. *)
Definition desk_ready : CopierApp :=
  exec (mt5_hello 11 hello_body (at_ 1)) (exec (mt5_hello 7 hello_body (at_ 0)) desk).
Definition desk_routing : OrgRouting := fresh_routing desk_ready.
Definition desk_idle : CopierApp := exec (mt5_sync desk_routing true 7 empty_sync (at_ 2)) desk_ready.
Definition desk_bought : CopierApp := exec (mt5_sync desk_routing true 7 buy_sync (at_ 3)) desk_idle.

(** The buy becomes an open for the follower, which its terminal's next sync
    receives and a later one acknowledges. *)
Definition desk_handed : result string * CopierApp := mt5_sync desk_routing true 11 empty_sync (at_ 4) desk_bought.
Definition desk_filled : CopierApp := exec (mt5_sync desk_routing true 11 fill_sync (at_ 5)) desk_handed.2.

Example desk_copies :
  (c_account_id <$> db_commands (ca_db desk_bought)) = [11] /\
  str_contains "open	EURUSD	BUY	0.5" (match desk_handed.1 with Ok text => text | Raise _ => "" end) = true /\
  ((fun m => (m_slave_account_id m, m_status m)) <$> db_mappings (ca_db desk_handed.2)) = [(11, Pending)] /\
  ((fun m => (m_slave_position_id m, m_status m)) <$> db_mappings (ca_db desk_filled)) = [(Some 801, Active)].
Proof. vm_compute. done. Qed.
