(* ===== verification/BridgeFacts.v ===== *)
(** * Facts about the MT5 bridge

    [sync_steps] is the shape of a sync: any relation that the writes of a sync
    respect holds across the whole of it.  The facts below instantiate it: what
    a sync may touch, what a follower's sync may cause, and how often a deal is
    acted on. *)

From S2P Require Import Prelude PyStr PyFloat Models Db Repo RepoFacts Protocol Wire Routing.
From S2P Require Import Outbox OutboxFacts Dispatch DispatchFacts Service ServiceFacts Reconcile Ingress.
From S2P Require Import Symbols Deals Mt5Db Registry Bridge.

(** ** Reads change nothing *)

Lemma on_service_read {A} (m : M service A) s : exec m (ca_service s) = ca_service s -> exec (on_service m) s = s.
Proof. unfold exec, on_service. destruct (m (ca_service s)); simpl. intros ->. by destruct s. Qed.
Lemma a_repo_read {A} (m : M db A) s : exec m (ca_db s) = ca_db s -> exec (a_repo m) s = s.
Proof.
  intros H. apply on_service_read. unfold exec, ca_db, on_repo, on_engine, on_db in *.
  destruct (m (e_db (sv_engine (ca_service s)))); simpl in *. subst. by destruct (ca_service s) as [[]].
Qed.
Lemma on_tables_read {A} (m : M mt5_tables A) s : exec m (ca_tables s) = ca_tables s -> exec (on_tables m) s = s.
Proof. unfold exec, on_tables. destruct (m (ca_tables s)); simpl. intros ->. by destruct s. Qed.

Lemma account_row_run a s : _account_row a s = (Ok (find_account a (db_accounts (ca_db s))), s).
Proof. by destruct s as [[[]]]. Qed.

Lemma find_account_id a accounts acct : find_account a accounts = Some acct -> acct ∈ accounts /\ acc_account_id acct = a.
Proof. intros [Hin E]%find_some. apply Z.eqb_eq in E. by apply list_elem_of_In in Hin. Qed.

(** A sync either answers without doing anything or takes a report. *)
Lemma sync_run routing wired a body now s acct r :
  find_account a (db_accounts (ca_db s)) = Some acct -> is_mt5 acct = true -> parse_sync body = Ok r ->
  mt5_sync routing wired a body now s =
  bind (take_report routing wired acct r now) (hand_over acct now) s.
Proof.
  intros Ha Hm Hp. unfold mt5_sync. unfold bind at 1. rewrite account_row_run, Ha, Hm, Hp. done.
Qed.

Lemma sync_idle routing wired a body now s :
  (forall acct r, find_account a (db_accounts (ca_db s)) = Some acct -> parse_sync body = Ok r -> is_mt5 acct = false) ->
  exec (mt5_sync routing wired a body now) s = s.
Proof.
  intros H. unfold mt5_sync, exec. unfold bind at 1. rewrite account_row_run.
  destruct (find_account a (db_accounts (ca_db s))) as [acct|]; [|done].
  destruct (is_mt5 acct) eqn:Em; [|done]. destruct (parse_sync body) as [r|] eqn:Ep; [|done].
  specialize (H acct r eq_refl eq_refl). congruence.
Qed.

(** ** The shape of a sync *)

(** Writes of a sync to the bridge's tables *)
Inductive table_op (a : Z) : M mt5_tables unit -> Prop :=
  | op_touch b e t : table_op a (touch_mt5_link a b e t)
  | op_upsert_positions o ps m : table_op a (upsert_positions a o ps m)
  | op_close_missing ids t : table_op a (close_missing_positions a ids t)
  | op_backfill f t : table_op a (set_backfill_state a f t true).

(** Writes of a sync to one account's entries of the application's memory *)
Inductive memory_op (a : Z) : M CopierApp unit -> Prop :=
  | op_symbols v : memory_op a (upd_state a (set_as_symbols v))
  | op_hedging v : memory_op a (upd_state a (set_as_hedging v))
  | op_ledger v : memory_op a (upd_state a (set_as_ledger v))
  | op_aliases v : memory_op a (modify (fun s => set_ca_aliases (<[a := v]> (ca_aliases s)) s))
  | op_last_touch v : memory_op a (modify (fun s => set_ca_last_touch (<[a := v]> (ca_last_touch s)) s))
  | op_settled v : memory_op a (modify (fun s => set_ca_settled (<[a := v s]> (ca_settled s)) s)).

Section sync_steps.
Context (R : CopierApp -> CopierApp -> Prop) `{!Reflexive R, !Transitive R}.
Context (routing : OrgRouting) (wired : bool) (a org : Z).
Abbreviation res := (respects R).
Context (Hstate : forall o, o = None \/ o = Some org -> res (_state a o))
        (Hmem : forall m, memory_op a m -> res m)
        (Htab : forall m, table_op a m -> res (on_tables m))
        (Hlog : forall cat sev p x, res (a_log cat sev p x (Some org))).

(** One step through a computation, by the head of its text. *)
Ltac step :=
  match goal with
  | |- respects _ (ret _) => apply respects_ret; apply _
  | |- respects _ (raise _) => apply respects_raise; apply _
  | |- respects _ (gets _) => apply respects_gets; apply _
  | |- respects _ (lift_result _) => apply respects_lift; apply _
  | |- respects _ (a_log _ _ _ _ _) => apply Hlog
  | |- respects _ (upd_state _ _) => apply Hmem; constructor
  | |- respects _ (modify _) => apply Hmem; constructor
  | |- respects _ (on_tables _) => apply Htab; constructor
  | |- respects _ (_state _ _) => apply Hstate; auto; fail
  | |- respects _ (bind _ _) => apply respects_bind; [apply _| |intro]
  end.
Ltac steps := repeat step.

Lemma read_repo_respects {A} (m : M db A) : (forall s, exec m s = s) -> res (a_repo m).
Proof. intros H s. by rewrite a_repo_read. Qed.
Lemma read_tables_respects {A} (m : M mt5_tables A) : (forall s, exec m s = s) -> res (on_tables m).
Proof. intros H s. by rewrite on_tables_read. Qed.

Lemma symbols_by_name_respects : res (symbols_by_name a).
Proof.
  unfold symbols_by_name. step; [step|]. destruct (as_symbols _); steps. by apply read_tables_respects.
Qed.

Lemma net_ledger_respects : res (net_ledger a).
Proof. unfold net_ledger. step; [step|]. destruct (as_ledger _); steps. by apply read_repo_respects. Qed.

Lemma margin_mode_respects : res (Registry.margin_mode a).
Proof.
  unfold Registry.margin_mode, hedging. steps; [by apply read_tables_respects|].
  repeat case_match; steps.
Qed.

Lemma position_respects t : res (position a t).
Proof. unfold position, report. steps. Qed.

Lemma snapshot_respects l v : res (snapshot a l v).
Proof.
  unfold snapshot. step; [step|]. case_match; [|step]. case_match; [|step].
  step; [apply symbols_by_name_respects|]. step.
  { case_match; [|step]. unfold _labels. step; [by apply read_repo_respects|step]. }
  step; [|step]. case_match; [|step]. unfold _virtual_positions. step; [apply net_ledger_respects|step].
Qed.

Lemma persist_respects o ps : res (_persist a o ps).
Proof. unfold _persist. step; [apply symbols_by_name_respects|]. steps. Qed.

Lemma copies_sharing_respects p c : res (_copies_sharing org a p c).
Proof. unfold _copies_sharing. step; [by apply read_repo_respects|step]. Qed.

Lemma override_respects p c : res (_record_netting_override org a p c).
Proof.
  unfold _record_netting_override. step; [apply copies_sharing_respects|]. case_match; [step|]. step; [apply position_respects|step].
Qed.

(** *** After the report is stored *)

Context (Hclear : res (a_repo (clear_degraded a)))
        (Hstatus : forall j, res (a_repo (set_account_status a StDegraded j)))
        (Hacks : forall now acks, res (a_repo (apply_acks a now acks)))
        (Hfill : forall fill, sf_account_id fill = a -> res (slave_fill routing org fill))
        (Haccepted : forall c o, res (on_service (handle_slave_order_accepted org a c o)))
        (Hcancelled : forall o, res (on_service (handle_slave_order_cancelled org a o)))
        (Hrejected : forall c r e, res (on_service (handle_slave_rejection org a c r e)))
        (Hfifo : forall p v, res (a_repo (reduce_position_mappings_fifo a p v))).

Lemma clear_and_log_respects cat p : res (clear_and_log a org cat p).
Proof. unfold clear_and_log. step; [apply Hclear|]. case_match; steps. Qed.

Lemma outcome_respects netting deals o : res (_apply_mt5_outcome routing org a netting deals o).
Proof.
  unfold _apply_mt5_outcome. case_match; [step; [apply Hrejected|apply Hstatus]|].
  step; [|apply clear_and_log_respects]. unfold outcome_ok.
  assert (res (outcome_receipt org a o netting)) as Hreceipt.
  { unfold outcome_receipt. step; [step|]. repeat case_match; try step. apply override_respects. }
  destruct (ao_kind o); try done.
  - unfold outcome_open. destruct (match truthy (ao_position o) with Some _ => _ | None => _ end) as [t|]; [|step].
    step; [apply position_respects|].
    step; [by apply Hfill|]. destruct (negb netting); [step|]. step; [|apply override_respects].
    repeat case_match; try step; [apply copies_sharing_respects|step].
  - case_match; [by apply Hfill|done].
  - case_match; [apply Hcancelled|done].
Qed.

Lemma touch_link_respects r now : res (touch_link a r now).
Proof. unfold touch_link. step; [step|]. case_match; steps. Qed.

Lemma slave_deals_respects deals outcomes netting : res (_mt5_slave_deals routing org a deals outcomes netting).
Proof.
  unfold _mt5_slave_deals. step; [apply Hmem, op_settled|]. step; [by apply read_repo_respects|].
  apply respects_for_each; try apply _. intros d _. unfold slave_deal. case_match; [step|].
  assert (forall fill, sf_account_id fill = a -> res (swallow (slave_fill routing org fill))) as Hsw.
  { intros fill E. apply respects_try; [apply _|by apply Hfill|intros; step]. }
  step; [step|]. case_match.
  { apply (Hmem (modify (fun s => set_ca_settled (<[a := _ s]> (ca_settled s)) s))).
    apply (op_settled a (fun _ => _)). }
  assert (res (let! touched := a_repo (reduce_position_mappings_fifo a (rd_position d) (rd_volume d)) in
      for_each (fun ft => a_log "slave_action" Info
        [("action", JStr "position_closed"); ("slave_position_id", JInt (rd_position d));
         ("client_order_id", JOptStr (ft_client_order_id ft)); ("closed_volume", JInt (ft_closed_volume ft))]
        (Some a) (Some org)) touched)) as Hf.
  { step; [apply Hfifo|]. apply respects_for_each; try apply _. intros. apply Hlog. }
  destruct (rd_entry d); [|destruct netting; [exact Hf|by apply Hsw]..|step].
  case_match; [step|]. step; [apply position_respects|]. by apply Hsw.
Qed.

(** *** The master's half *)

Context (Hevent : master_by_org routing !! org = Some a -> forall ev, res (act_on_event routing wired org a ev))
        (Hstamp : master_by_org routing !! org = Some a -> forall k p t, res (a_repo (record_master_fill org k p t)))
        (Hled : master_by_org routing !! org = Some a -> forall l, res (a_repo (Ingress._persist_net_ledger a l))).

Lemma master_events_respects r prev netting :
  master_by_org routing !! org = Some a -> res (_mt5_master_events routing wired a org r prev netting).
Proof.
  intros Hm. unfold _mt5_master_events. step.
  { unfold _mt5_aliases. step; [step|]. case_match; steps. by apply read_tables_respects. }
  step; [apply symbols_by_name_respects|]. step; [case_match; steps; apply net_ledger_respects|].
  case_match. step; [case_match; steps|]. step.
  - apply respects_for_each; try apply _. intros ev _. by apply Hevent.
  - apply respects_for_each; try apply _. intros d _. unfold stamp_fill. case_match; [by apply Hstamp|step].
Qed.

Lemma persist_ledger_respects :
  master_by_org routing !! org = Some a -> res (Bridge._persist_net_ledger a).
Proof.
  intros Hm. unfold Bridge._persist_net_ledger. step; [apply net_ledger_respects|].
  destruct (dirty_rows _) as [[up del] l']. step; [step|]. step; [by apply Hled|].
  assert (res (persist_virtual_positions a)) as Hp.
  { unfold persist_virtual_positions. step; [step|]. repeat case_match; try step; [apply snapshot_respects|].
    case_match; [|step]. case_match. apply persist_respects. }
  destruct up, del; try step; apply Hp.
Qed.

(** *** The whole report *)

Context (acct : AccountRow) (Hacct : acc_account_id acct = a) (Horg : acc_org_id acct = org).
Context (Hreport : forall r now, res (upd_state a (fun st => set_as_last_seen (Some now) (set_as_report (Some r) st))))
        (Hsig : forall v, res (upd_state a (set_as_signature v))).

Lemma update_from_sync_respects r now persist : res (update_from_sync a org r now persist).
Proof.
  unfold update_from_sync. step; [step|]. step; [apply Hreport|]. destruct (negb persist); [step|].
  step; [step|]. step; [step|]. destruct (match _ with Some _ => _ | None => false end); [step|].
  step; [apply snapshot_respects|]. case_match; [|step]. case_match. step; [apply persist_respects|apply Hsig].
Qed.

Lemma settle_report_respects r now : res (settle_report routing acct r now).
Proof.
  unfold settle_report. rewrite Hacct, Horg. step; [apply margin_mode_respects|]. step; [step|].
  step; [apply snapshot_respects|]. step; [unfold report; step|]. step; [apply update_from_sync_respects|].
  step; [apply touch_link_respects|]. step; [case_match; [step|apply clear_and_log_respects]|].
  step; [apply Hacks|]. step; [apply respects_for_each; try apply _; intros; apply outcome_respects|]. step.
Qed.

Lemma act_on_deals_respects r st fresh : res (act_on_deals routing wired acct r st fresh).
Proof.
  unfold act_on_deals, is_master_of. rewrite Hacct, Horg. case_bool_decide as Hm.
  - step; [by apply master_events_respects|]. case_match; [by apply persist_ledger_respects|step].
  - repeat case_match; try step; apply slave_deals_respects.
Qed.

Section take.
Context (Hdeals : forall rows, res (on_tables (upsert_mt5_deals a (Some org) rows)))
        (Hwm : forall t ms, res (a_repo (set_mt5_watermark a t ms))).

Lemma ingest_respects r prev : res (_ingest_mt5_deals a org r prev).
Proof.
  unfold _ingest_mt5_deals. step; [by apply read_repo_respects|]. case_match; [step|]. step; [|step].
  unfold store_deals. step; [apply symbols_by_name_respects|]. step; [step|]. step; [apply Hdeals|].
  step; [apply Hwm|]. steps.
Qed.

Lemma take_report_respects r now : res (take_report routing wired acct r now).
Proof.
  unfold take_report. rewrite Hacct, Horg. step; [apply settle_report_respects|].
  step; [apply ingest_respects|]. step; [apply act_on_deals_respects|step].
Qed.
End take.
End sync_steps.
