(* ===== verification/BridgeFrame.v ===== *)
(** * What a terminal's sync may touch

    The frame of [mt5_sync]: a report of one account stays in that account's org,
    whatever the report says. *)

From S2P Require Import Prelude PyStr PyFloat Models Db Repo RepoFacts Protocol Wire Routing.
From S2P Require Import Outbox OutboxFacts Dispatch DispatchFacts Service ServiceFacts Reconcile Ingress.
From S2P Require Import Symbols Deals Mt5Db Registry Bridge BridgeDemo BridgeFacts.

(** ** Frames *)

Definition same_but {K} `{Countable K} {A} (a : K) (m m' : gmap K A) : Prop := forall b, b <> a -> m' !! b = m !! b.
Definition same_but_account {A} (a : Z) (m m' : gmap (Z * Z) A) : Prop := forall k, k.1 <> a -> m' !! k = m !! k.

#[export] Instance same_but_refl {K} `{Countable K} {A} (a : K) : Reflexive (same_but (A:=A) a).
Proof. by intros m b. Qed.
#[export] Instance same_but_trans {K} `{Countable K} {A} (a : K) : Transitive (same_but (A:=A) a).
Proof. intros x y z H1 H2 b Hb. by rewrite H2, H1. Qed.
#[export] Instance same_but_account_refl {A} a : Reflexive (same_but_account (A:=A) a).
Proof. by intros m b. Qed.
#[export] Instance same_but_account_trans {A} a : Transitive (same_but_account (A:=A) a).
Proof. intros x y z H1 H2 b Hb. by rewrite H2, H1. Qed.

Lemma same_but_insert {K} `{Countable K} {A} (a : K) (v : A) m : same_but a m (<[a := v]> m).
Proof. intros b Hb. by rewrite lookup_insert_ne. Qed.
Lemma same_but_alter {K} `{Countable K} {A} (a : K) (f : A -> A) m : same_but a m (alter f a m).
Proof. intros b Hb. by rewrite lookup_alter_ne. Qed.

Section frame.
Context (P : Z -> bool) (org a : Z).

Definition foreign_command (c : command_row) : bool := negb (P (c_account_id c)).

(** The database: rows of the accounts outside [P] (for mappings, outside the
    org as well) stay; so do the other accounts' watermarks and ledgers. *)
Record frame_db (s s' : db) : Prop := {
  fd_cmds : List.filter foreign_command (db_commands s') = List.filter foreign_command (db_commands s);
  fd_mappings : List.filter (foreign_mapping P org) (db_mappings s') = List.filter (foreign_mapping P org) (db_mappings s);
  fd_accounts : List.filter (foreign_account P) (db_accounts s') = List.filter (foreign_account P) (db_accounts s);
  fd_orgs : db_orgs s' = db_orgs s;
  fd_dismissals : db_dismissals s' = db_dismissals s;
  fd_watermarks : same_but a (db_watermarks s) (db_watermarks s');
  fd_net_ledger : List.filter (fun p => negb (p.1 =? a)) (db_net_ledger s') =
                  List.filter (fun p => negb (p.1 =? a)) (db_net_ledger s)
}.
#[export] Instance frame_db_refl : Reflexive frame_db.
Proof. intros s. by split. Qed.
#[export] Instance frame_db_trans : Transitive frame_db.
Proof. intros x y z [] []. split; try congruence. by etrans. Qed.

(** Ids stay unique, and with unique ids the frame holds. *)
Definition db_ids (s : db) : Prop := ids_inv s /\ cmd_ids_inv s.
Definition within_db (s s' : db) : Prop := db_ids s -> db_ids s' /\ frame_db s s'.
#[export] Instance within_db_refl : Reflexive within_db.
Proof. by intros s H. Qed.
#[export] Instance within_db_trans : Transitive within_db.
Proof.
  intros x y z H1 H2 H. destruct (H1 H) as [Hy F1]. destruct (H2 Hy) as [Hz F2].
  split; [done|by etrans].
Qed.

(** The rest of the application *)
Record frame_tables (t t' : mt5_tables) : Prop := {
  ft_links : same_but a (t_links t) (t_links t');
  ft_cache : t_symbol_cache t' = t_symbol_cache t;
  ft_aliases : t_aliases t' = t_aliases t;
  ft_positions : same_but_account a (t_positions t) (t_positions t');
  ft_deals : same_but_account a (t_deals t) (t_deals t');
  ft_backfill : same_but a (t_backfill t) (t_backfill t')
}.
#[export] Instance frame_tables_refl : Reflexive frame_tables.
Proof. intros s. by split. Qed.
#[export] Instance frame_tables_trans : Transitive frame_tables.
Proof. intros x y z [] []. split; try congruence; by etrans. Qed.

Record frame (s s' : CopierApp) : Prop := {
  fr_db : frame_db (ca_db s) (ca_db s');
  fr_sends : exists new, e_sends (sv_engine (ca_service s')) = e_sends (sv_engine (ca_service s)) ++ new /\
               Forall (fun t => P (st_account t) = true) new;
  fr_tables : frame_tables (ca_tables s) (ca_tables s');
  fr_accounts : same_but a (ca_accounts s) (ca_accounts s');
  fr_aliases : same_but a (ca_aliases s) (ca_aliases s');
  fr_touch : same_but a (ca_last_touch s) (ca_last_touch s');
  fr_settled : same_but a (ca_settled s) (ca_settled s');
  fr_resyncs : ca_resyncs s' ⊆ {[org]} ∪ ca_resyncs s;
  fr_symbols : ca_master_symbols s' = ca_master_symbols s
}.
#[export] Instance frame_refl : Reflexive frame.
Proof. intros s. split; try done; [apply extends_refl|set_solver]. Qed.
#[export] Instance frame_trans : Transitive frame.
Proof.
  intros x y z [] []. split; try congruence; try (by etrans); [by eapply extends_trans|set_solver].
Qed.

Definition within (s s' : CopierApp) : Prop := db_ids (ca_db s) -> db_ids (ca_db s') /\ frame s s'.
#[export] Instance within_refl : Reflexive within.
Proof. by intros s H. Qed.
#[export] Instance within_trans : Transitive within.
Proof.
  intros x y z H1 H2 H. destruct (H1 H) as [Hy F1]. destruct (H2 Hy) as [Hz F2].
  split; [done|by etrans].
Qed.

(** ** Lifting *)

Lemma confined_within s s' : confined_db P org s s' -> within_db s s'.
Proof.
  intros [(new & Hc & Hnew) Hn Hi Hci Hm Ha Ho Hd Hw Hl] [Hid Hcid]. split; [split; auto|].
  split; try done; [|by rewrite Hw|by rewrite Hl].
  rewrite Hc, List.filter_app.
  assert (List.filter foreign_command new = []) as ->; [|by rewrite app_nil_r].
  clear Hc. induction Hnew as [|c new [Hp _] _ IH]; simpl; [done|]. unfold foreign_command at 1. by rewrite Hp.
Qed.

Lemma within_service {A} (m : M service A) : respects (confined P org) m -> respects within (on_service m).
Proof.
  intros H s Hids. destruct (H (ca_service s)) as [Hdb Hs]. unfold exec, on_service in *.
  destruct (m (ca_service s)) as [r v]; simpl in *.
  destruct (confined_within _ _ Hdb Hids) as [Hids' Hf]. split; [done|].
  split; simpl; try done. set_solver.
Qed.

Lemma within_repo {A} (m : M db A) : respects within_db m -> respects within (a_repo m).
Proof.
  intros H s Hids. specialize (H (ca_db s)).
  unfold exec, a_repo, on_service, on_repo, on_engine, on_db, ca_db in *.
  destruct (m (e_db (sv_engine (ca_service s)))) as [r d]; simpl in *.
  destruct (H Hids) as [Hids' Hf]. split; [done|]. split; simpl; try done; [apply extends_refl|set_solver].
Qed.

Lemma within_confined {A} (m : M db A) : respects (confined_db P org) m -> respects within_db m.
Proof. intros H s. apply confined_within, H. Qed.

Lemma within_tables {A} (m : M mt5_tables A) : respects frame_tables m -> respects within (on_tables m).
Proof.
  intros H s Hids. specialize (H (ca_tables s)). unfold exec, on_tables in *.
  destruct (m (ca_tables s)) as [r t]; simpl in *. split; [done|]. split; simpl; try done; [apply extends_refl|set_solver].
Qed.

Lemma within_memory (f : CopierApp -> CopierApp) :
  (forall s, ca_service (f s) = ca_service s /\ ca_tables (f s) = ca_tables s /\
     same_but a (ca_accounts s) (ca_accounts (f s)) /\ same_but a (ca_aliases s) (ca_aliases (f s)) /\
     same_but a (ca_last_touch s) (ca_last_touch (f s)) /\ same_but a (ca_settled s) (ca_settled (f s)) /\
     ca_resyncs (f s) = ca_resyncs s /\ ca_master_symbols (f s) = ca_master_symbols s) ->
  respects within (modify f).
Proof.
  intros H. apply respects_modify. intros s Hids.
  destruct (H s) as (Hv & Ht & ? & ? & ? & ? & Hr & ?). unfold ca_db in *. rewrite Hv. split; [done|].
  split; unfold ca_db; rewrite ?Hv, ?Ht, ?Hr; try done; [apply extends_refl|set_solver].
Qed.

Lemma within_upd f : respects within (upd_state a f).
Proof.
  apply within_memory. intros s. simpl. repeat (split; [done|]). split; [apply same_but_alter|]. done.
Qed.

Lemma within_state o : respects within (_state a o).
Proof.
  assert (respects within (modify (fun s => set_ca_accounts (<[a :=
    match o with Some o => set_as_org_id o (default (new_state o) (ca_accounts s !! a))
               | None => default (new_state 0) (ca_accounts s !! a) end]> (ca_accounts s)) s))) as H.
  { apply within_memory. intros s. simpl. repeat (split; [done|]). split; [apply same_but_insert|]. done. }
  intros s. specialize (H s). destruct o; exact H.
Qed.

Lemma within_memory_op m : memory_op a m -> respects within m.
Proof.
  intros []; try apply within_upd; apply within_memory; intros s; simpl;
    repeat (split; [done || apply same_but_insert|]); done.
Qed.

Lemma within_table_op m : table_op a m -> respects frame_tables m.
Proof.
  intros [] t0; unfold exec; simpl; split; simpl; try done.
  - apply same_but_alter.
  - generalize (t_positions t0). induction ps as [|p ps IH]; intros pos; simpl; [done|].
    etrans; [|apply IH]. intros k Hk. unfold upsert_position. rewrite lookup_insert_ne; [done|].
    intros E. apply Hk. by rewrite <- E.
  - intros k Hk. rewrite map_lookup_imap. destruct (t_positions t0 !! k); simpl; [|done].
    by apply Z.eqb_neq in Hk as ->.
  - intros b Hb. by rewrite lookup_insert_ne.
Qed.

Lemma within_deals o rows : respects frame_tables (upsert_mt5_deals a o rows).
Proof.
  intros t. unfold exec, upsert_mt5_deals. destruct (insert_deals _ _ _ _) as [n deals] eqn:E. split; simpl; try done.
  revert n deals E. generalize (t_deals t). induction rows as [|d rows IH]; intros m n deals; simpl.
  - by intros [= _ <-].
  - destruct (m !! (a, dd_deal_id d)); [apply IH|].
    destruct (insert_deals a o rows _) as [n' deals'] eqn:E. intros [= _ <-]. apply IH in E.
    etrans; [|exact E]. intros k Hk. rewrite lookup_insert_ne; [done|]. intros <-. by apply Hk.
Qed.
End frame.

(** ** The database calls of a sync *)

Section repo_calls.
Context (P : Z -> bool) (org a : Z) (HP : P a = true).
Abbreviation wd := (respects (within_db P org a)).

(** Writes to columns other than a command's id and account, on rows of [a]. *)
Lemma within_commands_at (g : command_row -> command_row) (s s' : db) :
  db_commands s' = g <$> db_commands s ->
  (db_next_command_id s' = db_next_command_id s /\ db_mappings s' = db_mappings s /\
   db_next_mapping_id s' = db_next_mapping_id s /\ db_accounts s' = db_accounts s /\ db_orgs s' = db_orgs s /\
   db_dismissals s' = db_dismissals s /\ db_watermarks s' = db_watermarks s /\ db_net_ledger s' = db_net_ledger s) ->
  (forall c, cmd_ids_inv s -> c ∈ db_commands s -> c_id (g c) = c_id c /\
     c_account_id (g c) = c_account_id c /\ (c_account_id c <> a -> g c = c)) ->
  within_db P org a s s'.
Proof.
  intros Hg (Hn & Hm & Hnm & Ha & Ho & Hd & Hw & Hl) Hrow [Hids Hc].
  assert (c_id <$> (g <$> db_commands s) = c_id <$> db_commands s) as Hcids.
  { apply fmap_fmap_id. intros c Hin. by apply Hrow. }
  split; [split; [unfold ids_inv; by rewrite Hm, Hnm|unfold cmd_ids_inv; by rewrite Hg, Hcids, Hn]|].
  split; rewrite ?Hm, ?Ha, ?Hw, ?Hl; try done.
  rewrite Hg. assert (forall c, c ∈ db_commands s -> foreign_command P (g c) = foreign_command P c /\
    (foreign_command P c = true -> g c = c)) as Hf.
  { intros c Hin. destruct (Hrow c Hc Hin) as (_ & Hacc & Hsame). unfold foreign_command. rewrite Hacc.
    split; [done|]. intros Hf. apply Hsame. intros E. by rewrite E, HP in Hf. }
  clear -Hf. induction (db_commands s) as [|c l IH]; csimpl; [done|].
  destruct (Hf c) as [E1 E2]; [set_solver|]. rewrite E1, IH by set_solver.
  destruct (foreign_command P c); [|done]. by rewrite E2.
Qed.

Lemma complete_within i ok r t : wd (complete_mt5_command i ok r t (Some a)).
Proof.
  intros s. apply (within_commands_at (completed i a ok r t)); [done|done|].
  intros c _ _. unfold completed. destruct (completable i (Some a) c) eqn:E; [|done].
  split; [done|]. split; [done|]. intros Hne. unfold completable in E. bsimp. done.
Qed.

Lemma apply_acks_within now acks : wd (apply_acks a now acks).
Proof.
  induction acks as [|ack acks IH]; simpl; [apply respects_ret; apply _|].
  apply respects_bind; [apply _|apply respects_lift; apply _|]. intros t.
  apply respects_bind; [apply _|apply complete_within|]. intros [row|]; [|done].
  apply respects_bind; [apply _|apply respects_lift; apply _|]. intros o.
  apply respects_bind; [apply _|done|]. intros; apply respects_ret; apply _.
Qed.

(** A row-wise update of the accounts that only concerns [a] *)
Lemma accounts_confined (f : AccountRow -> AccountRow) (s : db) :
  (forall r, acc_account_id (f r) = acc_account_id r) -> (forall r, acc_account_id r <> a -> f r = r) ->
  confined_db P org s (set_db_accounts (f <$> db_accounts s) s).
Proof.
  intros Hid Hf. apply confined_same; try done. simpl. induction (db_accounts s) as [|r l IH]; csimpl; [done|].
  rewrite IH. unfold foreign_account. rewrite Hid. destruct (P (acc_account_id r)) eqn:E; [done|]. simpl.
  rewrite Hf; [done|]. intros Ea. by rewrite Ea, HP in E.
Qed.

Lemma clear_degraded_within : wd (clear_degraded a).
Proof.
  apply within_confined. intros s. unfold exec, clear_degraded, bind, gets, modify, ret. simpl.
  apply accounts_confined; intros r; case_match; try done. intros Hne. bsimp. done.
Qed.

Lemma fifo_within p v : wd (reduce_position_mappings_fifo a p v).
Proof.
  intros s [Hids Hc]. pose proof (fifo_others a p v s Hids) as Ho.
  unfold reduce_position_mappings_fifo in *. case_match; [done|].
  unfold exec, bind, gets, ret in *. simpl in *.
  set (l := fifo_walk v (fifo_rows a p s)) in *.
  pose proof (for_each_touch_ok (db_now s) l s) as Hok. unfold value in Hok.
  pose proof (for_each_touch_rows (db_now s) l s (fifo_walk_NoDup v a p s Hids)) as Hrows. unfold exec in Hrows.
  assert (forall x s0, set_db_mappings (db_mappings (exec (for_each (apply_touch x) l) s0)) s0 =
                       exec (for_each (apply_touch x) l) s0) as Hset.
  { intros x. clear. induction l as [|ft l IH]; intros s0; [by destruct s0|].
    change (exec (for_each (apply_touch x) (ft :: l)) s0)
      with (exec (for_each (apply_touch x) l) (exec (apply_touch x ft) s0)).
    rewrite <- IH. simpl. by destruct s0. }
  specialize (Hset (db_now s) s). unfold exec in Hset.
  destruct (for_each _ _ _) as [[[]|] s1] eqn:E; simpl in *; [|done]. clear Hok.
  rewrite <- Hset. unfold same_others, others in Ho.
  split; [split; [|done]|split; try done].
  - destruct Hids as [Hnd Hb]. unfold ids_inv. simpl. rewrite Hrows.
    rewrite fmap_fmap_id; [by split|]. intros r _. apply touched_row_id.
  - simpl. assert (forall rows, List.filter (foreign_mapping P org) rows =
      List.filter (foreign_mapping P org) (List.filter (fun r => negb (m_slave_account_id r =? a)) rows)) as Hsub.
    { clear -HP. induction rows as [|r rows IH]; simpl; [done|].
      destruct (Z.eqb_spec (m_slave_account_id r) a) as [E|E]; simpl; [|by rewrite IH].
      assert (foreign_mapping P org r = false) as -> by (unfold foreign_mapping; by rewrite E, HP). exact IH. }
    rewrite (Hsub (db_mappings s1)), (Hsub (db_mappings s)). by rewrite Ho.
Qed.

Lemma watermark_within t ms : wd (set_mt5_watermark a t ms).
Proof. intros s [? ?]. split; [done|]. split; try done. simpl. apply same_but_insert. Qed.

Lemma ledger_within (f : list (Z * ledger_row) -> list (Z * ledger_row)) :
  (forall l, List.filter (fun p => negb (p.1 =? a)) (f l) = List.filter (fun p => negb (p.1 =? a)) l) ->
  wd (modify (fun s => set_db_net_ledger (f (db_net_ledger s)) s)).
Proof. intros H s [? ?]. split; [done|]. split; try done. simpl. apply H. Qed.

Lemma upsert_ledger_filter row l :
  List.filter (fun p => negb (p.1 =? a)) (upsert_ledger_row a row l) = List.filter (fun p => negb (p.1 =? a)) l.
Proof.
  unfold upsert_ledger_row. case_match.
  - clear. induction l as [|[b r] l IH]; csimpl; [done|]. rewrite IH. unfold ledger_key. simpl.
    destruct (b =? a) eqn:E; simpl; [destruct (lr_virtual_id r =? lr_virtual_id row)|]; simpl; by rewrite E.
  - rewrite List.filter_app. simpl. rewrite Z.eqb_refl. simpl. by rewrite app_nil_r.
Qed.

Lemma persist_ledger_within l : wd (Ingress._persist_net_ledger a l).
Proof.
  unfold Ingress._persist_net_ledger. destruct (dirty_rows l) as [[up del] l'].
  apply respects_bind; [apply _| |intros _; apply respects_bind; [apply _| |intros; apply respects_ret; apply _]].
  - destruct up as [|r up]; [apply respects_ret; apply _|]. unfold upsert_net_ledger.
    apply (ledger_within (fun t => fold_left (fun t row => upsert_ledger_row a row t) (r :: up) t)).
    intros t. generalize (r :: up). clear. intros rows. revert t.
    induction rows as [|row rows IH]; intros t; simpl; [done|]. by rewrite IH, upsert_ledger_filter.
  - destruct del as [|d del]; [apply respects_ret; apply _|]. unfold delete_net_ledger.
    apply (ledger_within (List.filter (fun p => negb ((p.1 =? a) && bool_decide (lr_virtual_id p.2 ∈ d :: del))))).
    intros t. clear. induction t as [|[b r] t IH]; [done|]. cbn [List.filter fst snd].
    destruct (b =? a) eqn:E; cbn [andb negb].
    + case_match; cbn [List.filter fst]; rewrite ?E; apply IH.
    + cbn [List.filter fst]. rewrite E. cbn [negb]. by rewrite IH.
Qed.

(** *** Delivery *)

Lemma stale_within cutoff : wd (fail_stale_mt5_opens a cutoff).
Proof.
  unfold fail_stale_mt5_opens. apply respects_bind; [apply _|apply respects_gets; apply _|]. intros cmds.
  apply respects_bind; [apply _|apply respects_gets; apply _|]. intros t.
  apply respects_bind; [apply _| |intros _].
  { intros s. apply (within_commands_at (fun c => if stale_open a cutoff c
      then set_c_done_at (Some t) (set_c_result (Some offline_result) (set_c_status CmdFailed c)) else c)); [done|done|].
    intros c _ _. case_match eqn:E; [|done]. split; [done|]. split; [done|]. intros Hne.
    unfold stale_open in E. bsimp. done. }
  apply respects_bind; [apply _| |intros; apply respects_ret; apply _].
  case_match; [apply respects_ret; apply _|]. apply within_confined.
  apply respects_bind; [apply _| |intros; apply respects_ret; apply _].
  apply update_confined; [|done]. intros r Hr. bsimp. left. by subst.
Qed.

Lemma give_up_within row now : wd (_give_up a row now).
Proof.
  unfold _give_up. apply respects_bind; [apply _|apply respects_lift; apply _|]. intros t.
  apply respects_bind; [apply _|apply complete_within|]. intros _.
  apply respects_bind; [apply _| |intros _; apply within_confined, log_confined].
  destruct (c_client_order_id row) as [[|]|]; try (apply respects_ret; apply _).
  apply respects_try; [apply _|by apply within_confined, fail_mapping_confined|].
  intros e. case_match; [apply respects_ret|apply respects_raise]; apply _.
Qed.

Lemma collect_within now rows : wd (collect a now rows).
Proof.
  induction rows as [|row rows IH]; simpl; [apply respects_ret; apply _|].
  case_match; [|done|].
  - apply respects_bind; [apply _|done|]. intros; apply respects_ret; apply _.
  - apply respects_bind; [apply _|apply give_up_within|done].
Qed.

(** With unique ids, the ids handed out name rows of [a]. *)
Lemma mark_sent_within ids t s :
  (forall i, i ∈ ids -> exists row, row ∈ db_commands s /\ c_id row = i /\ c_account_id row = a) ->
  within_db P org a s (exec (mark_mt5_commands_sent ids t) s).
Proof.
  intros Hrows. apply (within_commands_at (fun c => if bool_decide (c_id c ∈ ids)
    then set_c_attempts (c_attempts c + 1) (set_c_sent_at (Some t) (set_c_status Sent c)) else c)); [done|done|].
  intros c [Hnd _] Hc. case_bool_decide as Hin; [|done]. split; [done|]. split; [done|]. intros Hne.
  destruct (Hrows _ Hin) as (row & Hrow & Hid & Ha).
  assert (c = row) as -> by (by eapply (NoDup_fmap_elem c_id)). done.
Qed.

Lemma deliverable_within now : wd (deliverable a now).
Proof.
  unfold deliverable. apply respects_bind; [apply _|apply respects_lift; apply _|]. intros cutoff.
  apply respects_bind; [apply _|apply stale_within|]. intros expired.
  apply respects_bind; [apply _|apply respects_for_each; try apply _; intros; apply within_confined, log_confined|].
  intros _ s [Hids [Hnd Hb]]. unfold exec, bind, mt5_commands_open, gets.
  set (rows := List.filter _ (db_commands s)).
  assert (forall row, row ∈ rows -> row ∈ db_commands s /\ c_account_id row = a) as Hin.
  { intros row [H1 H2]%list_elem_of_In%filter_In. apply list_elem_of_In in H1. by bsimp. }
  pose proof (collect_within now rows s ltac:(done)) as Hcw. unfold exec in Hcw.
  destruct (collect a now rows s) as [[out|e] s1] eqn:E; simpl in Hcw |- *; [|done].
  destruct out as [|cmd out]; [done|]. destruct (_ts now) as [t|e]; simpl; [|done].
  destruct Hcw as [Hids1 Hf1]. enough (within_db P org a s1 (exec (mark_mt5_commands_sent (cmd_id <$> cmd :: out) t) s1)) as H.
  { destruct (H Hids1) as [? ?]. split; [done|]. by etrans. }
  apply mark_sent_within. intros i (cmd' & -> & Hcmd)%list_elem_of_fmap.
  assert (NoDup (c_id <$> rows)) as Hndr.
  { apply NoDup_fmap_2_strong.
    - intros x y Hx%Hin Hy%Hin Heq. by eapply (NoDup_fmap_elem c_id); [|apply Hx|apply Hy|].
    - apply NoDup_ListNoDup, List.NoDup_filter, NoDup_ListNoDup. by eapply NoDup_fmap_1. }
  destruct (collect_out a now rows s _ s1 Hndr ltac:(intros; by apply Hin) E cmd' Hcmd) as (row & Hrow & -> & _ & Hrow1).
  exists row. split; [done|]. split; [done|]. by apply Hin.
Qed.
End repo_calls.

(** ** A report stays in its org *)

Section sync_frame.
Context (routing : OrgRouting) (Hrouting : routing_ok routing) (wired : bool) (org a : Z).
Context (Ha : org_by_account routing !! a = Some org).
Abbreviation P := (in_org routing org).
Abbreviation wi := (respects (within P org a)).

Lemma own_account : P a = true.
Proof. unfold in_org. by apply bool_decide_eq_true. Qed.
Hint Resolve own_account : core.

Lemma a_log_within cat sev p x o : wi (a_log cat sev p x o).
Proof. apply within_service, s_log_confined. Qed.

Lemma handler_within {A} (m : M service A) :
  (forall R `{!Reflexive R, !Transitive R},
     (forall cat sev p x o, respects R (s_log cat sev p x o)) ->
     (forall op, slave_op a op -> respects R (on_repo op)) -> respects R m) -> wi (on_service m).
Proof.
  intros H. apply within_service, H; try apply _; [intros; apply s_log_confined|].
  intros op Hop. by eapply confined_on_repo, slave_op_confined.
Qed.

Lemma slave_fill_within fill : sf_account_id fill = a -> wi (slave_fill routing org fill).
Proof.
  intros Hf s. apply within_service. apply (slave_fill_respects (confined P org)) with (a := a); try done; try apply _.
  - intros. apply s_log_confined.
  - intros m Hm. by eapply confined_on_repo, slave_op_confined.
  - intros. by apply protect_confined.
Qed.

Lemma event_within ev : wi (act_on_event routing wired org a ev).
Proof.
  unfold act_on_event. apply respects_try; [apply _| |intros; apply a_log_within].
  intros s. apply within_service. unfold act_on_master_event. intros v.
  apply (respects_bind (confined P org) (_decide_dispatch_audit _ _ org a ev routing _) _); [by apply decide_dispatch_confined, org_slaves_in|].
  intros _. apply after_confined.
Qed.

Lemma take_report_within acct r now :
  acc_account_id acct = a -> acc_org_id acct = org -> wi (take_report routing wired acct r now).
Proof.
  intros Hid Horg. apply (take_report_respects (within P org a) routing wired a org); try apply _; try done.
  - intros o _. apply within_state.
  - apply within_memory_op.
  - intros m Hm. apply within_tables. by apply within_table_op.
  - intros. apply a_log_within.
  - apply within_repo, clear_degraded_within. done.
  - intros j. apply within_repo, within_confined, status_confined. done.
  - intros. apply within_repo, apply_acks_within. done.
  - intros fill. apply slave_fill_within.
  - intros c o. apply handler_within. intros. by apply (order_accepted_respects R).
  - intros o. apply handler_within. intros. by apply (order_cancelled_respects R).
  - intros c e x. apply handler_within. intros. by apply (rejection_respects R).
  - intros p v. apply within_repo, fifo_within. done.
  - intros _ ev. apply event_within.
  - intros _ k p t. apply within_repo, within_confined, record_master_fill_confined.
  - intros _ l. apply within_repo, persist_ledger_within.
  - intros. apply within_upd.
  - intros. apply within_upd.
  - intros rows. apply within_tables, within_deals.
  - intros. apply within_repo, watermark_within.
Qed.
End sync_frame.

(** C13: a terminal reaches no further than its own org.  Whatever it posts, a sync
    of account [a] sends orders and queues or settles commands only for
    accounts of the account's org; other orgs' mappings, account rows and
    switches, every other account's watermark, net ledger, positions, deals,
    link, registry entry and settled deals, all aliases and symbol caches stay as
    they were; and no row id is used twice. *)
Theorem sync_confined_to_org loader aliases accounts wired a body now s acct :
  NoDup (acc_account_id <$> accounts) ->
  let routing := build_routing loader aliases accounts in
  find_account a (db_accounts (ca_db s)) = Some acct ->
  org_by_account routing !! a = Some (acc_org_id acct) ->
  db_ids (ca_db s) ->
  let s' := exec (mt5_sync routing wired a body now) s in
  db_ids (ca_db s') /\ frame (in_org routing (acc_org_id acct)) (acc_org_id acct) a s s'.
Proof.
  intros Hnd routing Hfind Horg Hids. pose proof (build_routing_ok loader aliases accounts Hnd) as Hr. fold routing in Hr.
  destruct (find_account_id _ _ _ Hfind) as [_ Hid].
  set (P := in_org routing (acc_org_id acct)). set (org := acc_org_id acct) in *.
  enough (within P org a s (exec (mt5_sync routing wired a body now) s)) as H by apply (H Hids).
  unfold mt5_sync. unfold exec, bind at 1. rewrite account_row_run, Hfind.
  match goal with |- within _ _ _ s (snd (?m s)) => enough (respects (within P org a) m) as H by apply (H s) end.
  destruct (is_mt5 acct); cbn [negb]; [|apply respects_lift; apply _].
  apply respects_bind; [apply _|apply respects_lift; apply _|]. intros r.
  apply respects_bind; [apply _|by apply take_report_within|]. intros settled. unfold hand_over. rewrite Hid. fold org.
  apply respects_bind; [apply _|apply within_repo, deliverable_within; by apply own_account|]. intros commands.
  apply respects_bind; [apply _| |intros _; apply respects_lift; apply _].
  destruct settled as [[] []]; [apply respects_ret; apply _|..]; intros s0 Hs0; (split; [done|]);
    split; simpl; try done; apply extends_refl.
Qed.

Lemma sync_confined_to_org_witness :
  let routing := build_routing (fun _ => ∅) None desk_accounts in
  let s' := exec (mt5_sync routing true 7 buy_sync (at_ 3)) desk in
  NoDup (acc_account_id <$> desk_accounts) /\ db_ids (ca_db s') /\
  frame (in_org routing 1) 1 7 desk s'.
Proof.
  intros routing s'.
  assert (NoDup (acc_account_id <$> desk_accounts)) as H1 by (apply (bool_decide_unpack _); vm_compute; exact I).
  assert (db_ids (ca_db desk)) as H2 by (split; split; constructor).
  split; [exact H1|].
  exact (sync_confined_to_org (fun _ => ∅) None desk_accounts true 7 buy_sync (at_ 3) desk _ H1
           ltac:(vm_compute; reflexivity) ltac:(vm_compute; reflexivity) H2).
Defined.
