(* ===== verification/BridgeRuns.v ===== *)
(** * Runs of the MT5 bridge

    Sequences of terminal calls -- hellos, syncs of any accounts, offline checks
    -- and how often a reported deal is acted on in them; a report that is sent
    again; and what a follower's report may cause. *)

From S2P Require Import Prelude PyStr PyFloat Models Db Repo RepoFacts Protocol Wire Routing.
From S2P Require Import Outbox OutboxFacts Dispatch DispatchFacts Service ServiceFacts Reconcile Ingress.
From S2P Require Import Symbols Deals Mt5Db Registry Bridge BridgeDemo BridgeFacts.

(** ** Calls that leave watermarks and deals alone *)

Definition quiet (s s' : CopierApp) : Prop :=
  db_watermarks (ca_db s') = db_watermarks (ca_db s) /\ t_deals (ca_tables s') = t_deals (ca_tables s).
#[export] Instance quiet_refl : Reflexive quiet.
Proof. done. Qed.
#[export] Instance quiet_trans : Transitive quiet.
Proof. intros x y z [? ?] [? ?]. split; congruence. Qed.

Definition same_wm (s s' : db) : Prop := db_watermarks s' = db_watermarks s.
#[export] Instance same_wm_refl : Reflexive same_wm.
Proof. done. Qed.
#[export] Instance same_wm_trans : Transitive same_wm.
Proof. unfold same_wm. congruence. Qed.

Lemma quiet_service {A} org (m : M service A) : respects (confined (fun _ => true) org) m -> respects quiet (on_service m).
Proof.
  intros H s. destruct (H (ca_service s)) as [Hdb _]. unfold exec, on_service in *.
  destruct (m (ca_service s)) as [r v]. split; [apply Hdb|done].
Qed.
Lemma quiet_repo {A} (m : M db A) : respects same_wm m -> respects quiet (a_repo m).
Proof.
  intros H s. specialize (H (ca_db s)). unfold exec, a_repo, on_service, on_repo, on_engine, on_db, ca_db, quiet in *.
  by destruct (m (e_db (sv_engine (ca_service s)))).
Qed.
Lemma quiet_tables {A} (m : M mt5_tables A) : (forall t, t_deals (exec m t) = t_deals t) -> respects quiet (on_tables m).
Proof. intros H s. specialize (H (ca_tables s)). unfold exec, on_tables in *. by destruct (m (ca_tables s)). Qed.
Lemma quiet_memory (f : CopierApp -> CopierApp) :
  (forall s, ca_service (f s) = ca_service s /\ ca_tables (f s) = ca_tables s) -> respects quiet (modify f).
Proof. intros H. apply respects_modify. intros s. destruct (H s) as [Hv Ht]. unfold quiet, ca_db. by rewrite Hv, Ht. Qed.

Lemma wm_confined org {A} (m : M db A) : respects (confined_db (fun _ => true) org) m -> respects same_wm m.
Proof. intros H s. apply (H s). Qed.

Lemma acks_wm a now acks : respects same_wm (apply_acks a now acks).
Proof. by apply acks_respects; try apply _. Qed.
Lemma fifo_wm a p v : respects same_wm (reduce_position_mappings_fifo a p v).
Proof. by apply fifo_respects; try apply _. Qed.
Lemma deliverable_wm a now : respects same_wm (deliverable a now).
Proof. by apply deliverable_respects; try apply _. Qed.

Lemma ledger_wm a l : respects same_wm (Ingress._persist_net_ledger a l).
Proof.
  unfold Ingress._persist_net_ledger. destruct (dirty_rows l) as [[up del] l'].
  apply respects_bind; [apply _|by destruct up|]. intros _.
  apply respects_bind; [apply _|by destruct del|]. intros; apply respects_ret; apply _.
Qed.

(** *** A sync's steps around the ingestion *)

Section quiet_sync.
Context (routing : OrgRouting) (wired : bool) (a org : Z).
Abbreviation Q := (respects quiet).

Lemma quiet_log cat sev p x o : Q (a_log cat sev p x o).
Proof. apply quiet_repo. by intros s. Qed.
Lemma quiet_upd f : Q (upd_state a f).
Proof. by apply quiet_memory. Qed.
Lemma quiet_state o : Q (_state a o).
Proof. by intros s. Qed.
Lemma quiet_memory_op m : memory_op a m -> Q m.
Proof. intros []; try apply quiet_upd; by apply quiet_memory. Qed.
Lemma quiet_table_op m : table_op a m -> Q (on_tables m).
Proof. intros []; apply quiet_tables; done. Qed.
Lemma quiet_clear : Q (a_repo (clear_degraded a)).
Proof. apply quiet_repo. by intros s. Qed.

Lemma quiet_handler {A} (m : M service A) :
  (forall R `{!Reflexive R, !Transitive R},
     (forall cat sev p x o, respects R (s_log cat sev p x o)) ->
     (forall op, slave_op a op -> respects R (on_repo op)) -> respects R m) -> Q (on_service m).
Proof.
  intros H. apply (quiet_service org), H; try apply _; [intros; apply s_log_confined|].
  intros op Hop. by eapply confined_on_repo, slave_op_confined.
Qed.

Lemma quiet_fill fill : sf_account_id fill = a -> Q (slave_fill routing org fill).
Proof.
  intros Hf s. apply (quiet_service org). apply (slave_fill_respects (confined (fun _ => true) org)) with (a := a); try done; try apply _.
  - intros. apply s_log_confined.
  - intros m Hm. by eapply confined_on_repo, slave_op_confined.
  - intros. by apply protect_confined.
Qed.

Lemma quiet_event ev : Q (act_on_event routing wired org a ev).
Proof.
  unfold act_on_event. apply respects_try; [apply _| |intros; apply quiet_log].
  intros s. apply (quiet_service org). unfold act_on_master_event. intros v.
  apply (respects_bind (confined (fun _ => true) org) (_decide_dispatch_audit _ _ org a ev routing _) _); [by apply decide_dispatch_confined|].
  intros _. apply after_confined.
Qed.

Context (acct : AccountRow) (Hacct : acc_account_id acct = a) (Horg : acc_org_id acct = org).

Lemma settle_report_quiet r now : Q (settle_report routing acct r now).
Proof.
  apply (settle_report_respects quiet routing a org); try apply _; try exact Hacct; try exact Horg.
  - intros. apply quiet_state.
  - apply quiet_memory_op.
  - apply quiet_table_op.
  - intros. apply quiet_log.
  - apply quiet_clear.
  - intros j. apply quiet_repo. by intros s.
  - intros. apply quiet_repo, acks_wm.
  - intros fill. apply quiet_fill.
  - intros c o. apply quiet_handler. intros. by apply (order_accepted_respects R).
  - intros o. apply quiet_handler. intros. by apply (order_cancelled_respects R).
  - intros c e x. apply quiet_handler. intros. by apply (rejection_respects R).
  - intros. apply quiet_upd.
  - intros. apply quiet_upd.
Qed.

Lemma act_on_deals_quiet r st fresh : Q (act_on_deals routing wired acct r st fresh).
Proof.
  apply (act_on_deals_respects quiet routing wired a org); try apply _; try exact Hacct; try exact Horg.
  - intros. apply quiet_state.
  - apply quiet_memory_op.
  - apply quiet_table_op.
  - intros. apply quiet_log.
  - intros fill. apply quiet_fill.
  - intros p v. apply quiet_repo, fifo_wm.
  - intros _ ev. apply quiet_event.
  - intros _ k p t. apply quiet_repo, (wm_confined org), record_master_fill_confined.
  - intros _ l. apply quiet_repo, ledger_wm.
Qed.
End quiet_sync.

(** *** The ingestion *)

Definition wm_of (a : Z) (s : CopierApp) : Z := (default (0, 0) (db_watermarks (ca_db s) !! a)).1.

Lemma repo_gets_run {A} (f : db -> A) s : a_repo (gets f) s = (Ok (f (ca_db s)), s).
Proof. by destruct s as [[[]]]. Qed.
Lemma repo_modify_run (f : db -> db) s :
  exists s', a_repo (modify f) s = (Ok tt, s') /\ ca_db s' = f (ca_db s) /\ ca_tables s' = ca_tables s.
Proof. by eexists. Qed.

Lemma max_of_ge f d ds x : x ∈ d :: ds -> f x <= max_of f d ds.
Proof.
  unfold max_of. assert (forall l (m : Z), m <= foldl Z.max m l) as Hm.
  { induction l as [|y l IH]; intros m; simpl; [lia|]. specialize (IH (Z.max m y)). lia. }
  intros [->|Hin]%elem_of_cons; [apply Hm|]. generalize (f d). induction ds as [|y ds IH]; intros m; csimpl; [set_solver|].
  apply elem_of_cons in Hin as [->|Hin]; [|by apply IH]. specialize (Hm (f <$> ds) (Z.max m (f y))). lia.
Qed.

Lemma fresh_deals_elem w ds d : d ∈ fresh_deals w ds <-> d ∈ ds /\ w < rd_ticket d.
Proof.
  unfold fresh_deals. rewrite sort_deals_perm, list_elem_of_In, filter_In, <- list_elem_of_In, Z.ltb_lt. done.
Qed.

Lemma insert_deals_spec a o rows m n m' :
  insert_deals a o rows m = (n, m') ->
  (forall k, is_Some (m !! k) -> m' !! k = m !! k) /\ (forall d, d ∈ rows -> is_Some (m' !! (a, dd_deal_id d))).
Proof.
  revert m n m'. induction rows as [|d rows IH]; intros m n m'; simpl; [intros [= _ <-]; set_solver|].
  destruct (m !! (a, dd_deal_id d)) as [x|] eqn:E.
  - intros [Hk Hd]%IH. split; [done|]. intros d' [->|Hin]%elem_of_cons; [|by apply Hd]. rewrite Hk; by eexists.
  - destruct (insert_deals a o rows _) as [n' m1] eqn:E1. intros [= _ <-]. apply IH in E1 as [Hk Hd]. split.
    + intros k [x Hx]. assert (k <> (a, dd_deal_id d)) by congruence.
      rewrite Hk; rewrite lookup_insert_ne by done; [done|by eexists].
    + intros d' [->|Hin]%elem_of_cons; [|by apply Hd]. rewrite Hk; rewrite lookup_insert_eq; by eexists.
Qed.

(** Watermarks and the deals table only grow. *)
Definition advances (s s' : CopierApp) : Prop :=
  (forall b, wm_of b s <= wm_of b s') /\ (forall k, is_Some (t_deals (ca_tables s) !! k) -> is_Some (t_deals (ca_tables s') !! k)).
#[export] Instance advances_refl : Reflexive advances.
Proof. split; [lia|done]. Qed.
#[export] Instance advances_trans : Transitive advances.
Proof. intros x y z [W1 D1] [W2 D2]. split; [intros b; etrans; [apply W1|apply W2]|auto]. Qed.
Lemma quiet_advances s s' : quiet s s' -> advances s s'.
Proof. intros [Hw Hd]. split; [intros b; unfold wm_of; by rewrite Hw|by rewrite Hd]. Qed.
Lemma quiet_wm b s s' : quiet s s' -> wm_of b s' = wm_of b s.
Proof. intros [Hw _]. unfold wm_of. by rewrite Hw. Qed.

Lemma set_watermark_run a t ms s :
  wm_of a s < t ->
  exists s', a_repo (set_mt5_watermark a t ms) s = (Ok tt, s') /\ ca_tables s' = ca_tables s /\
    wm_of a s' = t /\ forall b, b <> a -> wm_of b s' = wm_of b s.
Proof.
  intros Ht. eexists. split; [reflexivity|]. split; [done|]. unfold wm_of in *. unfold ca_db at 1 3. simpl.
  split; [|intros b Hb; by rewrite lookup_insert_ne].
  rewrite lookup_insert_eq. unfold ca_db in Ht. simpl. destruct (db_watermarks _ !! a) as [[]|]; simpl in *; lia.
Qed.

(** Reading the symbols *)
Lemma symbols_quiet a : respects quiet (symbols_by_name a).
Proof.
  apply (symbols_by_name_respects quiet a 0); try apply _; [intros; apply quiet_state|apply quiet_memory_op].
Qed.

(** Storing rows of fresh deals *)
Lemma store_deals_run a org r prev d ds s :
  (forall x, x ∈ d :: ds -> wm_of a s < rd_ticket x) ->
  match store_deals a org r prev d ds s with
  | (Ok _, s') => advances s s' /\
      (forall x, x ∈ d :: ds -> rd_ticket x <= wm_of a s' /\ is_Some (t_deals (ca_tables s') !! (a, rd_ticket x)))
  | (Raise _, s') => advances s s'
  end.
Proof.
  intros Hfresh. unfold store_deals. unfold bind at 1. pose proof (symbols_quiet a s) as Hq. unfold exec in Hq.
  destruct (symbols_by_name a s) as [[syms|e] s1]; simpl in Hq; [|by apply quiet_advances].
  cbv zeta. set (prices := entry_prices _ _). unfold bind at 1, lift_result.
  destruct (deal_rows syms (fun t => od_get t prices) (d :: ds) (sr_balance r)) as [rows|e] eqn:Er; [|by apply quiet_advances].
  unfold bind at 1, on_tables at 1, upsert_mt5_deals.
  destruct (insert_deals a (Some org) rows (t_deals (ca_tables s1))) as [n deals] eqn:Ei.
  apply insert_deals_spec in Ei as [Hkeep Hrows].
  set (s2 := set_ca_tables (set_t_deals deals (ca_tables s1)) s1).
  assert (forall b, wm_of b s2 = wm_of b s) as Hwm2 by (intros b; by rewrite <- (quiet_wm b _ _ Hq)).
  pose proof (max_of_ge rd_ticket d ds) as Hmax.
  destruct (set_watermark_run a (max_of rd_ticket d ds) (max_of rd_time_ms d ds) s2) as (s3 & E3 & Ht & Ha & Hb).
  { rewrite Hwm2. specialize (Hfresh d ltac:(left)). specialize (Hmax d ltac:(left)). lia. }
  unfold bind at 1. rewrite E3. unfold on_tables. simpl.
  assert (forall x, x ∈ d :: ds -> is_Some (deals !! (a, rd_ticket x))) as Hrow.
  { intros x Hx. apply deal_rows_ids in Er. assert (rd_ticket x ∈ dd_deal_id <$> rows) as (row & -> & Hin)%list_elem_of_fmap.
    { rewrite Er. apply list_elem_of_fmap_2. by rewrite sort_deals_perm. }
    by apply Hrows. }
  split; [split|].
  - intros b. change (wm_of b _) with (wm_of b s3) at 2. destruct (decide (b = a)) as [->|Hne].
    + rewrite Ha. specialize (Hfresh d ltac:(left)). specialize (Hmax d ltac:(left)). lia.
    + rewrite Hb, Hwm2 by done. lia.
  - intros k Hk. simpl. rewrite Ht. simpl. rewrite Hkeep; by rewrite (proj2 Hq).
  - intros x Hx. split; [change (wm_of a _) with (wm_of a s3); rewrite Ha; by apply Hmax|].
    simpl. rewrite Ht. by apply Hrow.
Qed.

(** What is ingested are the deals past the watermark, and the watermark passes them. *)
Lemma ingest_run a org r prev s :
  match _ingest_mt5_deals a org r prev s with
  | (Ok fresh, s') => advances s s' /\ fresh = fresh_deals (wm_of a s) (sr_deals r) /\
      (forall x, x ∈ fresh -> rd_ticket x <= wm_of a s' /\ is_Some (t_deals (ca_tables s') !! (a, rd_ticket x)))
  | (Raise _, s') => advances s s'
  end.
Proof.
  unfold _ingest_mt5_deals, mt5_watermark. unfold bind at 1. rewrite repo_gets_run. fold (wm_of a s).
  destruct (fresh_deals (wm_of a s) (sr_deals r)) as [|d ds] eqn:Ef.
  { split; [reflexivity|]. split; [done|]. set_solver. }
  assert (forall x, x ∈ d :: ds -> wm_of a s < rd_ticket x) as Hx.
  { intros x Hx. rewrite <- Ef in Hx. by apply fresh_deals_elem in Hx as [_ ?]. }
  unfold bind. pose proof (store_deals_run a org r prev d ds s Hx) as H.
  destruct (store_deals a org r prev d ds s) as [[u|e] s']; [|done]. by destruct H.
Qed.

(** A sync up to its deals: the acknowledgements settled and the deals ingested *)
Definition to_act_on (routing : OrgRouting) (acct : AccountRow) (r : SyncReport) (now : float64)
    : M CopierApp (settled_report * list ReportDeal) :=
  let! st := settle_report routing acct r now in
  let! fresh := _ingest_mt5_deals (acc_account_id acct) (acc_org_id acct) r (rs_previous_report st) in
  ret (st, fresh).

Lemma to_act_on_run routing acct r now s :
  let a := acc_account_id acct in
  match to_act_on routing acct r now s with
  | (Ok (_, fresh), s') => advances s s' /\ fresh = fresh_deals (wm_of a s) (sr_deals r) /\
      (forall x, x ∈ fresh -> rd_ticket x <= wm_of a s' /\ is_Some (t_deals (ca_tables s') !! (a, rd_ticket x)))
  | (Raise _, s') => advances s s'
  end.
Proof.
  intros a. unfold to_act_on. unfold bind at 1.
  pose proof (settle_report_quiet routing a (acc_org_id acct) acct eq_refl eq_refl r now s) as H1. unfold exec in H1.
  destruct (settle_report routing acct r now s) as [[st|e] s1]; simpl in H1; [|by apply quiet_advances].
  unfold bind at 1. pose proof (ingest_run a (acc_org_id acct) r (rs_previous_report st) s1) as H2. fold a.
  destruct (_ingest_mt5_deals a (acc_org_id acct) r (rs_previous_report st) s1) as [[fresh|e] s2];
    [|by etrans; [apply quiet_advances|]].
  destruct H2 as (Hadv & -> & Hall). rewrite (quiet_wm a _ _ H1) in *.
  split; [by etrans; [apply quiet_advances|]|done].
Qed.

Lemma bind_ext {S A B} (m : M S A) (f g : A -> M S B) s :
  (forall x s', f x s' = g x s') -> bind m f s = bind m g s.
Proof. intros H. unfold bind. by destruct (m s) as [[]]. Qed.

(** ** What acting on deals is

    Each deal of the list is looked at once, in order: a master's deals are turned
    into events and afterwards stamp the fills of their copies; a follower's deals
    settle, report or close its own copies.  The changes of a master's positions
    and orders that follow are read off the books alone. *)
Section acting.
Context (routing : OrgRouting) (wired : bool).

(** Of a master's books: amended protection, changed, placed and cancelled orders *)
Definition book_events (r : SyncReport) (previous : option (list PositionSnapshot * list OrderSnapshot))
    (aliases : gmap string string) (symbols : gmap string SymbolInfo) (filled : list Z) (ledger : option NetLedger)
    : list MasterEvent * option NetLedger :=
  match previous with
  | None => ([], ledger)
  | Some (positions, orders) =>
      let prev_orders := od_of_list ((fun o => (osn_order_id o, o)) <$> orders) in
      let cur_orders := od_of_list ((fun o => (ro_ticket o, o)) <$> sr_orders r) in
      let '(amends, ledger) :=
        collect_events (protection_change (od_of_list ((fun p => (psn_position_id p, p)) <$> positions)))
          (od_of_list ((fun p => (rp_ticket p, p)) <$> sr_positions r)) ledger in
      (amends ++ mjoin (order_change aliases symbols prev_orders <$> cur_orders) ++
       cancelled prev_orders cur_orders filled, ledger)
  end.

Definition master_acts (a org : Z) (r : SyncReport) (st : settled_report) (ds : list ReportDeal) : M CopierApp unit :=
  let! aliases := _mt5_aliases a in
  let! symbols := symbols_by_name a in
  let! ledger := if rs_netting st then let! l := net_ledger a in ret (Some l) else ret None in
  let prev_orders := od_of_list ((fun o => (osn_order_id o, o)) <$> (default ([], []) (rs_previous st)).2) in
  let cur_positions := od_of_list ((fun p => (rp_ticket p, p)) <$> sr_positions r) in
  let '(of_deals, ledger) :=
    collect_events (deal_events (reverse_aliases aliases) (list_to_map symbols) prev_orders cur_positions) ds ledger in
  let '(of_books, ledger) :=
    book_events r (rs_previous st) (reverse_aliases aliases) (list_to_map symbols) (filled_orders ds) ledger in
  (match ledger with Some l => upd_state a (set_as_ledger (Some l)) | None => ret tt end) ;;;
  for_each (act_on_event routing wired org a) (of_deals ++ of_books) ;;;
  for_each (stamp_fill org (rs_netting st)) ds.

Definition slave_acts (a org : Z) (st : settled_report) (ds : list ReportDeal) : M CopierApp unit :=
  modify (fun s => set_ca_settled
    (<[a := list_to_set (omap settles (rs_outcomes st)) ∪ default ∅ (ca_settled s !! a)]> (ca_settled s)) s) ;;;
  let! rows := a_repo (mapping_rows (Some org)) in
  for_each (slave_deal routing org a (rs_netting st)
              (omap (fun m => if m_slave_account_id m =? a then truthy (m_slave_position_id m) else None) rows)
              (omap acked_position (rs_outcomes st))) ds.

Definition acts_on (acct : AccountRow) (r : SyncReport) (st : settled_report) (ds : list ReportDeal) : M CopierApp unit :=
  let a := acc_account_id acct in
  let org := acc_org_id acct in
  if is_master_of routing acct
  then master_acts a org r st ds ;;; (if rs_netting st then _persist_net_ledger a else ret tt)
  else if bool_decide (acc_role acct = RoleSlave) && negb (bool_decide (ds = []) && bool_decide (rs_outcomes st = []))
       then slave_acts a org st ds
       else ret tt.

Lemma master_events_split r previous aliases symbols ledger ds :
  StronglySorted deal_le ds -> NoDup (rd_ticket <$> ds) ->
  master_events_from_report (with_deals ds r) previous aliases symbols ledger =
  let '(of_deals, l1) :=
    collect_events (deal_events aliases symbols
        (od_of_list ((fun o => (osn_order_id o, o)) <$> (default ([], []) previous).2))
        (od_of_list ((fun p => (rp_ticket p, p)) <$> sr_positions r))) ds ledger in
  let '(of_books, l2) := book_events r previous aliases symbols (filled_orders ds) l1 in
  (of_deals ++ of_books, l2).
Proof.
  intros Hs Hnd. unfold master_events_from_report. cbn [with_deals sr_positions sr_orders sr_deals].
  assert (merge_sort deal_le ds = ds) as ->.
  { apply (StronglySorted_unique_strong deal_le); [|apply (sort_deals_sorted ds)|done|apply (merge_sort_Permutation deal_le)].
    intros x y Hx Hy Hxy Hyx. rewrite (merge_sort_Permutation deal_le) in Hx.
    assert (rd_ticket x = rd_ticket y) as E by (unfold deal_le in *; lia).
    by apply (NoDup_fmap_elem rd_ticket ds). }
  unfold book_events. destruct (collect_events _ ds ledger) as [evs l1].
  destruct previous as [[positions orders]|]; cbn [default fst snd]; [|by rewrite app_nil_r].
  by destruct (collect_events _ _ l1).
Qed.

(** The program acts on exactly the deals it is handed, each once. *)
Lemma act_on_deals_acts acct r st ds s :
  StronglySorted deal_le ds -> NoDup (rd_ticket <$> ds) ->
  act_on_deals routing wired acct r st ds s = acts_on acct r st ds s.
Proof.
  intros Hs Hnd. unfold act_on_deals, acts_on. destruct (is_master_of routing acct).
  - enough (_mt5_master_events routing wired (acc_account_id acct) (acc_org_id acct) (with_deals ds r)
      (rs_previous st) (rs_netting st) s = master_acts (acc_account_id acct) (acc_org_id acct) r st ds s) as E
      by (unfold bind; by rewrite E).
    unfold _mt5_master_events, master_acts. apply bind_ext; intros aliases s1. apply bind_ext; intros symbols s2.
    apply bind_ext; intros ledger s3. rewrite master_events_split by done.
    destruct (collect_events _ ds ledger) as [evs l1]. by destruct (book_events _ _ _ _ _ l1).
  - destruct (acc_role acct), ds, (rs_outcomes st) eqn:E; repeat (case_bool_decide; simpl); try done;
      unfold slave_acts; by rewrite E.
Qed.
End acting.

(** A sync of a terminal, acting on the deals [ds] *)
Definition sync_acting_on (routing : OrgRouting) (wired : bool) (acct : AccountRow) (r : SyncReport) (now : float64)
    (ds : list ReportDeal) : M CopierApp string :=
  let! settled := to_act_on routing acct r now in
  acts_on routing wired acct r settled.1 ds ;;;
  hand_over acct now (rs_outcomes settled.1, ds).

(** *** Hellos and offline checks *)


(** ** Runs *)

Inductive bridge_call :=
  | CallHello (account_id : Z) (body : json) (now : float64)
  | CallSync (routing : OrgRouting) (wired : bool) (account_id : Z) (body : json) (now : float64)
  | CallOffline (now : float64).

(** The state after a call, whatever it answers *)
Definition run_call (c : bridge_call) (s : CopierApp) : CopierApp :=
  match c with
  | CallHello a body now => exec (mt5_hello a body now) s
  | CallSync routing wired a body now => exec (mt5_sync routing wired a body now) s
  | CallOffline now => exec (check_mt5_offline now) s
  end.

(** The deals of account [b] a call acts on: the fresh ones of its report, once
    they are ingested *)
Definition call_deals (b : Z) (c : bridge_call) (s : CopierApp) : list ReportDeal :=
  match c with
  | CallSync routing wired a body now =>
      match find_account a (db_accounts (ca_db s)), parse_sync body with
      | Some acct, Ok r =>
          if (a =? b) && is_mt5 acct
          then match value (to_act_on routing acct r now) s with Ok (_, fresh) => fresh | Raise _ => [] end
          else []
      | _, _ => []
      end
  | _ => []
  end.

Fixpoint run_calls (calls : list bridge_call) (s : CopierApp) : CopierApp :=
  match calls with [] => s | c :: rest => run_calls rest (run_call c s) end.
Fixpoint acted (b : Z) (calls : list bridge_call) (s : CopierApp) : list ReportDeal :=
  match calls with [] => [] | c :: rest => call_deals b c s ++ acted b rest (run_call c s) end.

Ltac quiet_step :=
  match goal with
  | |- respects _ (ret _) => apply respects_ret; apply _
  | |- respects _ (raise _) => apply respects_raise; apply _
  | |- respects _ (gets _) => apply respects_gets; apply _
  | |- respects _ (lift_result _) => apply respects_lift; apply _
  | |- respects _ (a_log _ _ _ _ _) => apply quiet_log
  | |- respects _ (upd_state _ _) => apply quiet_upd
  | |- respects _ (_state _ _) => apply quiet_state
  | |- respects _ (modify _) => by apply quiet_memory
  | |- respects _ (symbols_by_name _) => apply symbols_quiet
  | |- respects _ (on_tables _) => apply quiet_tables; done
  | |- respects _ (a_repo _) => apply quiet_repo; by intros ?
  | |- respects _ (bind _ _) => apply respects_bind; [apply _| |intro]
  | |- respects _ invalidate => by apply quiet_memory
  | |- respects _ (_account_row _) => unfold _account_row
  | |- respects _ (match ?x with _ => _ end) => destruct x
  end.

Lemma hello_quiet a body now : respects quiet (mt5_hello a body now).
Proof.
  unfold mt5_hello, update_from_hello, hello_complete, upsert_mt5_link_hello, _auto_match_aliases, _canonical_names_for,
    clear_and_log.
  repeat quiet_step.
Qed.

Lemma offline_quiet now : respects quiet (check_mt5_offline now).
Proof.
  unfold check_mt5_offline, swallow. apply respects_try; [apply _| |intros; quiet_step].
  apply respects_bind; [apply _|quiet_step|]. intros accounts. apply respects_for_each; try apply _.
  intros x _. unfold check_account. repeat quiet_step.
Qed.

Lemma hand_over_quiet acct now settled : respects quiet (hand_over acct now settled).
Proof.
  unfold hand_over. quiet_step; [apply quiet_repo, deliverable_wm|]. quiet_step; [|quiet_step].
  destruct settled as [[] []]; try quiet_step; by apply quiet_memory.
Qed.

(** Past the ingestion, a sync touches neither watermarks nor deals. *)
Lemma sync_after routing wired acct r now s :
  exists s1, exec (to_act_on routing acct r now) s = s1 /\
    quiet s1 (exec (bind (take_report routing wired acct r now) (hand_over acct now)) s).
Proof.
  eexists. split; [reflexivity|]. unfold take_report, to_act_on, exec, bind.
  destruct (settle_report routing acct r now s) as [[st|e] s1]; [|done].
  destruct (_ingest_mt5_deals _ _ r _ s1) as [[fresh|e] s2]; [|done]. simpl.
  pose proof (act_on_deals_quiet routing wired (acc_account_id acct) (acc_org_id acct) acct eq_refl eq_refl r st fresh s2) as H.
  unfold exec in H. destruct (act_on_deals _ _ _ _ _ _ s2) as [[u|e] s3]; simpl in H |- *; [|done].
  etrans; [exact H|]. apply (hand_over_quiet acct now (rs_outcomes st, fresh) s3).
Qed.

Definition distinct_tickets (c : bridge_call) : Prop :=
  match c with
  | CallSync _ _ _ body _ => forall r, parse_sync body = Ok r -> NoDup (rd_ticket <$> sr_deals r)
  | _ => True
  end.

Lemma fresh_NoDup w ds : NoDup (rd_ticket <$> ds) -> NoDup (rd_ticket <$> fresh_deals w ds).
Proof.
  intros H. unfold fresh_deals. rewrite sort_deals_perm. revert H. induction ds as [|d ds IH]; csimpl; [done|].
  rewrite NoDup_cons. intros [Hn Hnd]. case_match; [|by apply IH]. csimpl. apply NoDup_cons. split; [|by apply IH].
  intros (x & E & [Hx _]%list_elem_of_In%filter_In)%list_elem_of_fmap. apply Hn. rewrite E.
  apply list_elem_of_fmap_2. by apply list_elem_of_In.
Qed.

Lemma fresh_sorted w ds : StronglySorted deal_le (fresh_deals w ds).
Proof. apply sort_deals_sorted. Qed.

(** A sync acts on its account's [call_deals], and on nothing else. *)
Lemma sync_acts_on routing wired a body now s acct r :
  find_account a (db_accounts (ca_db s)) = Some acct -> is_mt5 acct = true -> parse_sync body = Ok r ->
  NoDup (rd_ticket <$> sr_deals r) ->
  mt5_sync routing wired a body now s =
  sync_acting_on routing wired acct r now (call_deals a (CallSync routing wired a body now) s) s.
Proof.
  intros Ha Hm Hp Hnd. rewrite (sync_run _ _ _ _ _ _ _ _ Ha Hm Hp). cbn [call_deals]. rewrite Ha, Hp, Hm, Z.eqb_refl. simpl.
  pose proof (to_act_on_run routing acct r now s) as H.
  unfold sync_acting_on, value, take_report, to_act_on, bind in *.
  destruct (settle_report routing acct r now s) as [[st|e] s1]; [|done].
  destruct (_ingest_mt5_deals _ _ r _ s1) as [[fresh|e] s2]; [|done]. simpl in H |- *. destruct H as (_ & Hf & _).
  rewrite act_on_deals_acts by (subst fresh; first [apply fresh_sorted|by apply fresh_NoDup]).
  by destruct (acts_on routing wired acct r st fresh s2) as [[[]|e] s3].
Qed.

(** One call: it only advances, and what it acts on lies between the
    watermarks before and after, is stored, and names each ticket once. *)
Lemma call_run b c s :
  let s' := run_call c s in
  advances s s' /\
  (forall x, x ∈ call_deals b c s ->
     wm_of b s < rd_ticket x <= wm_of b s' /\ is_Some (t_deals (ca_tables s') !! (b, rd_ticket x))) /\
  (distinct_tickets c -> NoDup (rd_ticket <$> call_deals b c s)).
Proof.
  destruct c as [a body now|routing wired a body now|now]; cbn [run_call call_deals].
  1, 3: split; [apply quiet_advances; first [apply hello_quiet|apply offline_quiet]|split; [set_solver|intros; constructor]].
  set (s' := exec (mt5_sync routing wired a body now) s).
  destruct (find_account a (db_accounts (ca_db s))) as [acct|] eqn:Ea, (parse_sync body) as [r|e] eqn:Ep.
  2-4: assert (s' = s) as -> by (apply sync_idle; intros; congruence);
    split; [reflexivity|split; [set_solver|intros; constructor]].
  destruct (is_mt5 acct) eqn:Em; rewrite ?andb_true_r, ?andb_false_r.
  2: assert (s' = s) as -> by (apply sync_idle; intros; congruence);
    split; [reflexivity|split; [set_solver|intros; constructor]].
  destruct (find_account_id _ _ _ Ea) as [_ Hid].
  pose proof (to_act_on_run routing acct r now s) as H. unfold value. rewrite Hid in H.
  destruct (sync_after routing wired acct r now s) as (s1 & E1 & Hq).
  assert (s' = exec (bind (take_report routing wired acct r now) (hand_over acct now)) s) as Hs'
    by (unfold s', exec; by rewrite (sync_run _ _ _ _ _ _ _ _ Ea Em Ep)).
  rewrite <- Hs' in Hq. clear Hs'. clearbody s'. unfold exec in E1.
  destruct (to_act_on routing acct r now s) as [[[st fresh]|e] s2]; simpl in H, E1 |- *; subst s2.
  2: { split; [etrans; [exact H|by apply quiet_advances]|]. split; [case_match; set_solver|intros; case_match; constructor]. }
  destruct H as (Hadv & -> & Hall). split; [etrans; [exact Hadv|by apply quiet_advances]|].
  destruct (Z.eqb_spec a b) as [<-|Hne]; [|split; [set_solver|intros; constructor]]. split.
  - intros x Hx. destruct (Hall x Hx) as [Hle Hrow]. apply fresh_deals_elem in Hx as [_ Hlt].
    by rewrite (quiet_wm a _ _ Hq), (proj2 Hq).
  - intros Hd. simpl in Hd. apply fresh_NoDup. by apply Hd.
Qed.

(** Every sync of account [b] in a run, at the state it is reached in, is the sync
    that acts on its share of [acted]. *)
Definition acts_as_told (b : Z) (calls : list bridge_call) (s : CopierApp) : Prop :=
  forall before routing wired body now after acct r,
    calls = before ++ CallSync routing wired b body now :: after ->
    let s0 := run_calls before s in
    find_account b (db_accounts (ca_db s0)) = Some acct -> is_mt5 acct = true -> parse_sync body = Ok r ->
    mt5_sync routing wired b body now s0 =
    sync_acting_on routing wired acct r now (call_deals b (CallSync routing wired b body now) s0) s0.

Lemma run_keeps_row calls k s :
  is_Some (t_deals (ca_tables s) !! k) -> is_Some (t_deals (ca_tables (run_calls calls s)) !! k).
Proof.
  revert s. induction calls as [|c calls IH]; intros s Hk; [done|]. simpl. apply IH.
  by apply (proj2 (proj1 (call_run 0 c s))).
Qed.

(** C14: a terminal's deal is acted on at most once, whatever the terminal re-sends
    and in whatever order calls arrive.  Over any run of hellos, syncs and offline
    checks of all accounts, where a report names each ticket once: the deals of
    account [b] acted on carry pairwise distinct tickets, all above the watermark
    the run began with, and each has its row in the deals table; and acting is
    what the word says -- every sync of [b] in the run, state and answer, is the
    one that hands exactly its share of those deals, each once and in order, to
    the ledger, the events and the stamped fills of a master or to the copies of a
    follower.  A report's other deals only price the acknowledgements of commands. *)
Theorem deals_acted_on_once wired_calls b s :
  Forall distinct_tickets wired_calls ->
  NoDup (rd_ticket <$> acted b wired_calls s) /\
  Forall (fun x => wm_of b s < rd_ticket x /\
            is_Some (t_deals (ca_tables (run_calls wired_calls s)) !! (b, rd_ticket x))) (acted b wired_calls s) /\
  acts_as_told b wired_calls s.
Proof.
  intros Hd. apply and_assoc. split; [|intros before routing wired body now after acct r -> s0 Ha Hm Hp;
    apply sync_acts_on; try done; apply Forall_app in Hd as [_ [Hc _]%Forall_cons]; by apply Hc].
  revert s. induction Hd as [|c calls Hc _ IH]; intros s; simpl; [split; constructor|].
  destruct (call_run b c s) as ([Hw Hrows] & Hin & Hnd). destruct (IH (run_call c s)) as [IHn IHf].
  rewrite Forall_forall in IHf. split.
  - rewrite fmap_app. apply NoDup_app. split; [by apply Hnd|]. split; [|done].
    intros t (x & -> & Hx)%list_elem_of_fmap (y & E & Hy)%list_elem_of_fmap.
    destruct (Hin x Hx) as [[_ Hle] _]. destruct (IHf y Hy) as [Hlt _]. lia.
  - apply Forall_app. split; apply Forall_forall.
    + intros x Hx. destruct (Hin x Hx) as [[? _] ?]. split; [done|by apply run_keeps_row].
    + intros x Hx. destruct (IHf x Hx) as [? ?]. split; [specialize (Hw b); lia|done].
Qed.

(** The buy is posted twice; the second time its deal is no longer fresh. *)
Definition desk_calls : list bridge_call :=
  [CallHello 7 hello_body (at_ 0); CallHello 11 hello_body (at_ 1); CallSync desk_routing true 7 empty_sync (at_ 2);
   CallSync desk_routing true 7 buy_sync (at_ 3); CallSync desk_routing true 7 buy_sync (at_ 4); CallOffline (at_ 60)].

Lemma deals_acted_on_once_witness :
  Forall distinct_tickets desk_calls /\
  (rd_ticket <$> acted 7 desk_calls desk) = [601] /\
  acts_as_told 7 desk_calls desk.
Proof.
  assert (Forall distinct_tickets desk_calls) as H.
  { repeat constructor; intros r Hr; vm_compute in Hr; injection Hr as <-; apply (bool_decide_unpack _); vm_compute; exact I. }
  split; [exact H|]. split; [vm_compute; reflexivity|]. exact (proj2 (proj2 (deals_acted_on_once desk_calls 7 desk H))).
Defined.
