(* ===== verification/BridgeFollower.v ===== *)
(** * A follower's terminal

    What the sync of an account that is not its org's master can cause: the
    bookkeeping of its own copies and, at most, amendments of its own
    protection -- never a copy. *)

From S2P Require Import Prelude PyStr PyFloat Models Db Repo RepoFacts Protocol Wire Routing.
From S2P Require Import Outbox OutboxFacts Dispatch DispatchFacts Service ServiceFacts Reconcile Ingress.
From S2P Require Import Symbols Deals Mt5Db Registry Bridge BridgeDemo BridgeFacts.

(** ** The relation *)

(** Mapping rows neither appear nor disappear, commands keep what they say, and
    new commands and sends only amend protection on [a]. *)
Record follows_db (a : Z) (s s' : db) : Prop := {
  fo_cmds : exists kept new, db_commands s' = kept ++ new /\ meta <$> kept = meta <$> db_commands s /\
              Forall (fun c => c_account_id c = a /\ c_kind c = KAmend) new;
  fo_rows : m_id <$> db_mappings s' = m_id <$> db_mappings s
}.
Definition follows (a : Z) (s s' : CopierApp) : Prop :=
  follows_db a (ca_db s) (ca_db s') /\
  exists new, e_sends (sv_engine (ca_service s')) = e_sends (sv_engine (ca_service s)) ++ new /\
    Forall (fun t => st_account t = a /\ is_amend (st_req t) = true) new.

(** Writes that queue nothing *)
Lemma follows_same a s s' :
  meta <$> db_commands s' = meta <$> db_commands s -> m_id <$> db_mappings s' = m_id <$> db_mappings s -> follows_db a s s'.
Proof. intros Hc Hm. split; [|done]. exists (db_commands s'), []. rewrite app_nil_r. done. Qed.

#[export] Instance follows_db_refl a : Reflexive (follows_db a).
Proof. intros s. by apply follows_same. Qed.
#[export] Instance follows_db_trans a : Transitive (follows_db a).
Proof.
  intros x y z [(k1 & n1 & E1 & M1 & F1) R1] [(k2 & n2 & E2 & M2 & F2) R2]. split; [|congruence].
  rewrite E1, fmap_app in M2. apply fmap_app_inv in M2 as (k & n & Hk & Hn & ->).
  exists k, (n ++ n2). split; [by rewrite E2, app_assoc|]. split; [congruence|]. apply Forall_app. split; [|done].
  apply Forall_forall. intros c Hc. rewrite Forall_forall in F1.
  assert (meta c ∈ meta <$> n1) as (c1 & Em & Hc1)%list_elem_of_fmap by (rewrite Hn; by apply list_elem_of_fmap_2).
  specialize (F1 c1 Hc1). unfold meta in Em. injection Em as _ -> _ -> _ _ _. done.
Qed.
#[export] Instance follows_refl a : Reflexive (follows a).
Proof. intros s. split; [reflexivity|apply extends_refl]. Qed.
#[export] Instance follows_trans a : Transitive (follows a).
Proof. intros x y z [D1 S1] [D2 S2]. split; [by etrans|by eapply extends_trans]. Qed.

(** ** Lifting *)

Lemma follows_service a {A} (m : M service A) : respects (amends_only a) m -> respects (follows a) (on_service m).
Proof.
  intros H s. destruct (H (ca_service s)) as [Hs (new & Hc & Hnew) Hm]. unfold exec, on_service in *.
  destruct (m (ca_service s)) as [r v]. split; [|exact Hs]. split; [|exact Hm]. by exists (db_commands (ca_db s)), new.
Qed.
Lemma follows_repo a {A} (m : M db A) : respects (follows_db a) m -> respects (follows a) (a_repo m).
Proof.
  intros H s. specialize (H (ca_db s)). unfold exec, a_repo, on_service, on_repo, on_engine, on_db, ca_db in *.
  destruct (m (e_db (sv_engine (ca_service s)))) as [r d]. split; [exact H|apply extends_refl].
Qed.
Lemma follows_tables a {A} (m : M mt5_tables A) : respects (follows a) (on_tables m).
Proof.
  intros s. unfold exec, on_tables. destruct (m (ca_tables s)). split; [by apply follows_same|apply extends_refl].
Qed.
Lemma follows_memory a (f : CopierApp -> CopierApp) :
  (forall s, ca_service (f s) = ca_service s) -> respects (follows a) (modify f).
Proof.
  intros H. apply respects_modify. intros s. unfold follows, ca_db. rewrite H. split; [by apply follows_same|apply extends_refl].
Qed.

(** ** The database calls *)

Section calls.
Context (a : Z).
Abbreviation fd := (respects (follows_db a)).

Lemma follows_cmd_map (f : command_row -> command_row) s :
  (forall c, meta (f c) = meta c) -> follows_db a s (set_db_commands (f <$> db_commands s) s).
Proof.
  intros H. apply follows_same; [|done]. simpl. rewrite <- list_fmap_compose. apply list_fmap_ext. intros; apply H.
Qed.
Lemma follows_map_update cond upd : (forall r, m_id (upd r) = m_id r) -> fd (update_mappings cond upd).
Proof.
  intros H s. apply follows_same; [done|]. unfold exec, update_mappings. simpl. apply fmap_fmap_id.
  intros r _. case_match; [apply H|done].
Qed.
Lemma follows_log cat sev p x o : fd (log_event cat sev p x o).
Proof. intros s. by apply follows_same. Qed.

Lemma follows_acks now acks : fd (apply_acks a now acks).
Proof. apply acks_respects; auto using follows_cmd_map, follows_map_update, follows_log; apply _. Qed.
Lemma follows_fifo p v : fd (reduce_position_mappings_fifo a p v).
Proof. apply fifo_respects; auto using follows_cmd_map, follows_map_update, follows_log; apply _. Qed.
Lemma follows_deliverable now : fd (deliverable a now).
Proof. apply deliverable_respects; auto using follows_cmd_map, follows_map_update, follows_log; apply _. Qed.
End calls.

(** ** A follower's sync never copies *)

Section follower.
Context (routing : OrgRouting) (wired : bool) (a org : Z).
Context (Hm : master_by_org routing !! org <> Some a).
Abbreviation F := (respects (follows a)).

Lemma follower_handler {A} (m : M service A) :
  (forall R `{!Reflexive R, !Transitive R},
     (forall cat sev p x o, respects R (s_log cat sev p x o)) ->
     (forall op, slave_op a op -> respects R (on_repo op)) -> respects R m) -> F (on_service m).
Proof.
  intros H. apply follows_service, H; try apply _; [intros; apply s_log_amends|].
  intros op Hop. by eapply amends_slave_op.
Qed.

Lemma follower_report acct r now :
  acc_account_id acct = a -> acc_org_id acct = org -> F (take_report routing wired acct r now).
Proof.
  intros Hid Horg. apply (take_report_respects (follows a) routing wired a org); try apply _; try done.
  - intros o _ s. split; [by apply follows_same|apply extends_refl].
  - intros m []; by apply follows_memory.
  - intros; apply follows_tables.
  - intros. apply follows_repo, follows_log.
  - apply follows_repo. intros s. by apply follows_same.
  - intros j. apply follows_repo. intros s. by apply follows_same.
  - intros. apply follows_repo, follows_acks.
  - intros fill Hf s. apply follows_service. apply (slave_fill_respects (amends_only a)) with (a := a); try done; try apply _.
    + intros. apply s_log_amends.
    + intros m Hop. by eapply amends_slave_op.
    + intros. apply protect_amends.
  - intros c o. apply follower_handler. intros. by apply (order_accepted_respects R).
  - intros o. apply follower_handler. intros. by apply (order_cancelled_respects R).
  - intros c e x. apply follower_handler. intros. by apply (rejection_respects R).
  - intros p v. apply follows_repo, follows_fifo.
  - intros. by apply follows_memory.
  - intros. by apply follows_memory.
  - intros. apply follows_tables.
  - intros t ms. apply follows_repo. intros s. by apply follows_same.
Qed.
End follower.

(** C15: a follower's terminal cannot make the copier copy.  Whatever an account
    that is not its org's master reports -- positions, deals of its own, any
    acknowledgements -- its sync creates and removes no mapping, and the only
    trades it can cause are stop/target amendments of that very account. *)
Theorem follower_sync_never_copies routing wired a body now s acct :
  find_account a (db_accounts (ca_db s)) = Some acct ->
  master_by_org routing !! acc_org_id acct <> Some a ->
  follows a s (exec (mt5_sync routing wired a body now) s).
Proof.
  intros Hfind Hm. destruct (find_account_id _ _ _ Hfind) as [_ Hid].
  destruct (parse_sync body) as [r|e] eqn:Ep; [destruct (is_mt5 acct) eqn:Em|].
  2, 3: rewrite sync_idle; [reflexivity|intros; congruence].
  unfold exec. rewrite (sync_run _ _ _ _ _ _ _ _ Hfind Em Ep).
  match goal with |- follows _ s (snd (?m s)) => enough (respects (follows a) m) as H by apply (H s) end.
  apply respects_bind; [apply _|by eapply follower_report|]. intros settled. unfold hand_over. rewrite Hid.
  apply respects_bind; [apply _|apply follows_repo, follows_deliverable|]. intros commands.
  apply respects_bind; [apply _| |intros _; apply respects_lift; apply _].
  destruct settled as [[] []]; [apply respects_ret; apply _|..]; by apply follows_memory.
Qed.

Lemma follower_sync_never_copies_witness :
  find_account 11 (db_accounts (ca_db desk_handed.2)) = Some (desk_account 11 1 RoleSlave) /\
  master_by_org desk_routing !! 1 <> Some 11 /\
  follows 11 desk_handed.2 desk_filled.
Proof.
  assert (find_account 11 (db_accounts (ca_db desk_handed.2)) = Some (desk_account 11 1 RoleSlave)) as H1.
  { vm_compute; reflexivity. }
  assert (master_by_org desk_routing !! 1 <> Some 11) as H2 by (vm_compute; discriminate).
  split; [exact H1|]. split; [exact H2|].
  exact (follower_sync_never_copies desk_routing true 11 fill_sync (at_ 5) desk_handed.2 _ H1 H2).
Defined.
