(* ===== verification/Prog.v ===== *)
(** * Concurrent requests: programs that act in atomic steps

    A request of the web API runs on a connection in autocommit mode: each SQL
    statement, or each [with conn.transaction()] block, is one atomic step on
    the shared state, and the steps of concurrent requests interleave.  A
    program is a tree of such steps: [Step upd k] moves the state [s] to
    [upd s] and goes on as [k s].

    The second half is a rely-guarantee logic: [wp I R p Q s] says that every
    step of [p] keeps the invariant [I] and makes a move of the preorder [R],
    whatever moves of [R] the other requests make in between. *)

From S2P Require Import Prelude.

Inductive prog (S A : Type) :=
  | Ret (a : A)
  | Throw (e : exn)
  | Step (upd : S -> S) (k : S -> prog S A).
Arguments Ret {S A} a.
Arguments Throw {S A} e.
Arguments Step {S A} upd k.

Section prog.
Context {S : Type}.

Definition of_result {A} (r : result A) : prog S A :=
  match r with Ok a => Ret a | Raise e => Throw e end.

(** One atomic step. *)
Definition stmt {A} (m : M S A) : prog S A := Step (exec m) (fun s => of_result (value m s)).

(** A query: the state stays. *)
Definition query {A} (f : S -> A) : prog S A := stmt (gets f).

Fixpoint pbind {A B} (p : prog S A) (f : A -> prog S B) : prog S B :=
  match p with
  | Ret a => f a
  | Throw e => Throw e
  | Step upd k => Step upd (fun s => pbind (k s) f)
  end.

(** [try: p except Exception as e: h e] *)
Fixpoint pcatch {A} (p : prog S A) (h : exn -> prog S A) : prog S A :=
  match p with
  | Ret a => Ret a
  | Throw e => h e
  | Step upd k => Step upd (fun s => pcatch (k s) h)
  end.

(** [for x in l: f x] *)
Fixpoint pfor {A} (f : A -> prog S unit) (l : list A) : prog S unit :=
  match l with [] => Ret tt | x :: l' => pbind (f x) (fun _ => pfor f l') end.

(** A request that runs alone. *)
Fixpoint run_alone {A} (p : prog S A) (s : S) : result A * S :=
  match p with
  | Ret a => (Ok a, s)
  | Throw e => (Raise e, s)
  | Step upd k => run_alone (k s) (upd s)
  end.

(** [try: p finally: f] *)
Definition pfinally {A} (p : prog S A) (f : prog S unit) : prog S A :=
  pbind (pcatch (pbind p (fun a => Ret (Ok a))) (fun e => Ret (Raise e)))
        (fun r => pbind f (fun _ => of_result r)).

Fixpoint pcollect {A} (ps : list (prog S A)) : prog S (list A) :=
  match ps with
  | [] => Ret []
  | p :: ps' => pbind p (fun a => pbind (pcollect ps') (fun l => Ret (a :: l)))
  end.

(** Programs that run concurrently, and the list of their answers: [schedule]
    says whose turn it is; after it they run one by one. *)
Fixpoint gather {A} (schedule : list nat) (ps : list (prog S A)) : prog S (list A) :=
  match schedule with
  | [] => pcollect ps
  | i :: schedule' =>
      match ps !! i with
      | Some (Step upd k) => Step upd (fun s => gather schedule' (<[i := k s]> ps))
      | _ => gather schedule' ps
      end
  end.

(** ** Pools of requests *)

(** One step of a request, when it has one left. *)
Definition advance {A} (p : prog S A) (s : S) : prog S A * S :=
  match p with Step upd k => (k s, upd s) | _ => (p, s) end.

(** Request [i] of the pool makes a step. *)
Definition pool_step {A} (i : nat) (w : list (prog S A) * S) : list (prog S A) * S :=
  match w.1 !! i with
  | Some p => let '(p', s') := advance p w.2 in (<[i := p']> w.1, s')
  | None => w
  end.

Definition run_pool {A} (schedule : list nat) (w : list (prog S A) * S) : list (prog S A) * S :=
  foldl (fun w i => pool_step i w) w schedule.
End prog.

Notation "'let*' x ':=' p 'in' k" := (pbind p (fun x => k))
  (at level 10, x pattern, p at level 100, k at level 200) : copier_scope.
Notation "p '>>>' k" := (pbind p (fun _ => k))
  (at level 100, k at level 200, right associativity) : copier_scope.

(** ** Rely and guarantee *)

Section rely_guarantee.
Context {S : Type} (I : S -> Prop) (R : S -> S -> Prop) `{!PreOrder R}.

Fixpoint wp {A} (p : prog S A) (Q : result A -> S -> Prop) (s : S) : Prop :=
  match p with
  | Ret a => Q (Ok a) s
  | Throw e => Q (Raise e) s
  | Step upd k => forall s', R s s' -> I s' -> I (upd s') /\ R s' (upd s') /\ wp (k s') Q (upd s')
  end.

(** The program keeps the promise, whatever it answers. *)
Definition safe {A} (p : prog S A) (s : S) : Prop := wp p (fun _ _ => True) s.

Lemma wp_mono {A} (p : prog S A) (Q Q' : result A -> S -> Prop) s :
  (forall r s', Q r s' -> Q' r s') -> wp p Q s -> wp p Q' s.
Proof.
  intros HQ. revert s. induction p as [a|e|upd k IH]; intros s; simpl; [apply HQ|apply HQ|].
  intros H s' HR HI. destruct (H s' HR HI) as (? & ? & Hk). split_and!; [done|done|by apply IH].
Qed.

Lemma wp_bind {A B} (p : prog S A) (f : A -> prog S B) Q s :
  wp p (fun r s' => match r with Ok a => wp (f a) Q s' | Raise e => Q (Raise e) s' end) s -> wp (pbind p f) Q s.
Proof.
  revert s. induction p as [a|e|upd k IH]; intros s; simpl; [done|done|].
  intros H s' HR HI. destruct (H s' HR HI) as (? & ? & Hk). split_and!; [done|done|by apply IH].
Qed.

Lemma wp_catch {A} (p : prog S A) (h : exn -> prog S A) Q s :
  wp p (fun r s' => match r with Ok a => Q (Ok a) s' | Raise e => wp (h e) Q s' end) s -> wp (pcatch p h) Q s.
Proof.
  revert s. induction p as [a|e|upd k IH]; intros s; simpl; [done|done|].
  intros H s' HR HI. destruct (H s' HR HI) as (? & ? & Hk). split_and!; [done|done|by apply IH].
Qed.

Lemma wp_of_result {A} (r : result A) Q s : Q r s -> wp (of_result r) Q s.
Proof. by destruct r. Qed.

Lemma wp_stmt {A} (m : M S A) Q s :
  (forall s', R s s' -> I s' -> I (exec m s') /\ R s' (exec m s') /\ Q (value m s') (exec m s')) -> wp (stmt m) Q s.
Proof.
  intros H s' HR HI. destruct (H s' HR HI) as (? & ? & ?). split_and!; [done|done|by apply wp_of_result].
Qed.

Lemma wp_query {A} (f : S -> A) Q s :
  (forall s', R s s' -> I s' -> Q (Ok (f s')) s') -> wp (query f) Q s.
Proof. intros H. apply wp_stmt. intros s' HR HI. split_and!; [done|reflexivity|by apply H]. Qed.

Lemma safe_bind {A B} (p : prog S A) (f : A -> prog S B) s :
  wp p (fun r s' => match r with Ok a => safe (f a) s' | Raise _ => True end) s -> safe (pbind p f) s.
Proof. intros H. apply wp_bind. eapply wp_mono; [|exact H]. by intros []. Qed.

Lemma safe_catch {A} (p : prog S A) (h : exn -> prog S A) s :
  wp p (fun r s' => match r with Ok _ => True | Raise e => safe (h e) s' end) s -> safe (pcatch p h) s.
Proof. intros H. apply wp_catch. eapply wp_mono; [|exact H]. by intros []. Qed.

Lemma safe_of_result {A} (r : result A) s : safe (of_result r) s.
Proof. by destruct r. Qed.

(** A program that is safe now is safe after the others have moved. *)
Lemma safe_later {A} (p : prog S A) s s' : R s s' -> safe p s -> safe p s'.
Proof.
  intros HR. destruct p as [a|e|upd k]; [done|done|]. intros H t Ht. apply H. by trans s'.
Qed.

Lemma advance_safe {A} (p : prog S A) s :
  I s -> safe p s -> I (advance p s).2 /\ R s (advance p s).2 /\ safe (advance p s).1 (advance p s).2.
Proof.
  intros HI Hp. destruct p as [a|e|upd k]; simpl; [done|done|]. by apply Hp.
Qed.

(** Any interleaving of safe requests keeps the invariant, and moves the state
    by [R] only. *)
Lemma run_pool_safe {A} schedule : forall (ps : list (prog S A)) s,
  I s -> Forall (fun p => safe p s) ps ->
  let w := run_pool schedule (ps, s) in I w.2 /\ R s w.2 /\ Forall (fun p => safe p w.2) w.1.
Proof.
  induction schedule as [|i schedule IH]; intros ps s HI Hps; simpl; [done|].
  assert (I (pool_step i (ps, s)).2 /\ R s (pool_step i (ps, s)).2 /\
    Forall (fun p => safe p (pool_step i (ps, s)).2) (pool_step i (ps, s)).1) as (HI' & HR & Hps').
  { unfold pool_step. simpl. destruct (ps !! i) as [p|] eqn:Ep; [|done].
    pose proof (Forall_lookup_1 _ _ _ _ Hps Ep) as Hp. destruct (advance_safe p s HI Hp) as (HI' & HR & Hp').
    destruct (advance p s) as [p' s']. simpl in *. split_and!; [done|done|].
    apply Forall_insert; [|done]. eapply Forall_impl; [exact Hps|]. intros q. by apply safe_later. }
  destruct (pool_step i (ps, s)) as [ps' s']. simpl in *. destruct (IH ps' s' HI' Hps') as (? & ? & ?).
  split_and!; [done|by trans s'|done].
Qed.

(** What one request keeps among the others: [J] is stable under their moves
    and under its own steps. *)
Lemma run_pool_index {A} (J : prog S A -> S -> Prop) schedule i :
  (forall p s s', R s s' -> J p s -> J p s') ->
  (forall p s, I s -> safe p s -> J p s -> J (advance p s).1 (advance p s).2) ->
  forall (ps : list (prog S A)) s p, I s -> Forall (fun p => safe p s) ps -> ps !! i = Some p -> J p s ->
  exists p', (run_pool schedule (ps, s)).1 !! i = Some p' /\ J p' (run_pool schedule (ps, s)).2.
Proof.
  intros Hstable Hown. induction schedule as [|j schedule IH]; intros ps s p HI Hps Hp HJ; [by exists p|].
  change (run_pool (j :: schedule) (ps, s)) with (run_pool schedule (pool_step j (ps, s))).
  destruct (run_pool_safe [j] ps s HI Hps) as (HI' & HR & Hps').
  change (run_pool [j] (ps, s)) with (pool_step j (ps, s)) in *.
  assert (exists p', (pool_step j (ps, s)).1 !! i = Some p' /\ J p' (pool_step j (ps, s)).2) as (p' & Hp' & HJ').
  { unfold pool_step in *. simpl in *. destruct (ps !! j) as [q|] eqn:Eq; [|by exists p].
    destruct (advance q s) as [q' s'] eqn:Ea. simpl in *. destruct (decide (i = j)) as [->|Hne].
    - rewrite list_lookup_insert_eq by by eapply lookup_lt_Some. exists q'. split; [done|]. simplify_eq.
      pose proof (Hown p s HI (Forall_lookup_1 _ _ _ _ Hps Hp) HJ) as H. by rewrite Ea in H.
    - rewrite list_lookup_insert_ne by done. exists p. split; [done|]. by eapply Hstable. }
  destruct (pool_step j (ps, s)) as [ps' s']. simpl in *. by eapply IH.
Qed.
End rely_guarantee.

(** ** How many statements a request takes *)

Section within.
Context {S : Type}.

Fixpoint within {A} (n : nat) (p : prog S A) {struct p} : Prop :=
  match p, n with
  | Step upd k, Datatypes.S n' => forall s, within n' (k s)
  | Step _ _, O => False
  | _, _ => True
  end.

Definition answered {A} (p : prog S A) : bool := match p with Step _ _ => false | _ => true end.

Lemma within_mono {A} n m (p : prog S A) : within n p -> (n <= m)%nat -> within m p.
Proof.
  revert m p. induction n as [|n IH]; intros m [a|e|upd k] Hp Hm; try done.
  destruct m as [|m]; [lia|]. intros s. apply IH; [apply Hp|lia].
Qed.

Lemma within_bind {A B} n m (p : prog S A) (f : A -> prog S B) :
  within n p -> (forall a, within m (f a)) -> within (n + m) (pbind p f).
Proof.
  intros Hp Hf. revert p Hp. induction n as [|n IH]; intros [a|e|upd k] Hp; try done.
  - apply Hf.
  - eapply within_mono; [apply Hf|lia].
  - intros s. apply IH, Hp.
Qed.

Lemma within_stmt {A} (m : M S A) : within 1 (stmt m).
Proof. intros s. unfold of_result. by destruct (value m s). Qed.

Lemma advance_within {A} n (p : prog S A) s : within (Datatypes.S n) p -> within n (advance p s).1.
Proof. destruct p as [a|e|upd k]; simpl; [by destruct n|by destruct n|]. done. Qed.

(** A request that gets its turns has answered. *)
Lemma run_pool_answers {A} schedule i n : forall (ps : list (prog S A)) s p,
  ps !! i = Some p -> within n p -> (n <= count_occ Nat.eq_dec schedule i)%nat ->
  exists p', (run_pool schedule (ps, s)).1 !! i = Some p' /\ answered p' = true.
Proof.
  revert n. induction schedule as [|j schedule IH]; intros n ps s p Hp Hn Hc; simpl in Hc.
  - exists p. split; [done|]. assert (n = O) as -> by lia. by destruct p.
  - change (run_pool (j :: schedule) (ps, s)) with (run_pool schedule (pool_step j (ps, s))). unfold pool_step. simpl.
    destruct (Nat.eq_dec j i) as [->|Hne].
    + rewrite Hp. destruct (advance p s) as [p' s'] eqn:Ea.
      apply (IH (pred n) _ _ p'); [by rewrite list_lookup_insert_eq by by eapply lookup_lt_Some| |lia].
      replace p' with (advance p s).1 by by rewrite Ea. apply advance_within. destruct n as [|n]; [by destruct p|done].
    + destruct (ps !! j) as [q|] eqn:Eq; [|by apply (IH n _ _ p)]. destruct (advance q s) as [q' s'].
      apply (IH n _ _ p); [by rewrite list_lookup_insert_ne|done|done].
Qed.
End within.

(** Running alone is one schedule: nobody moves in between. *)
Lemma wp_run_alone {S A} (I : S -> Prop) (R : S -> S -> Prop) `{!PreOrder R} (p : prog S A) Q s :
  I s -> wp I R p Q s -> Q (run_alone p s).1 (run_alone p s).2.
Proof.
  revert s. induction p as [a|e|upd k IH]; intros s HI H; simpl in *; [done|done|].
  destruct (H s) as (? & ? & ?); [reflexivity|done|]. by apply IH.
Qed.

(** ** What a program does itself, and what it leaves behind *)

Section alone_among_others.
Context {S : Type}.

(** Every step of the program, from whatever state with [I] the others left,
    makes a move of [G]. *)
Fixpoint makes {A} (I : S -> Prop) (G : S -> S -> Prop) (p : prog S A) : Prop :=
  match p with
  | Step upd k => forall s, I s -> G s (upd s) /\ makes I G (k s)
  | _ => True
  end.

(** The program ends with [Q], if the others make only moves of [R] between its
    steps. *)
Fixpoint under {A} (R : S -> S -> Prop) (p : prog S A) (Q : result A -> S -> Prop) (s : S) : Prop :=
  match p with
  | Ret a => Q (Ok a) s
  | Throw e => Q (Raise e) s
  | Step upd k => forall s', R s s' -> under R (k s') Q (upd s')
  end.

Lemma makes_bind {A B} I G (p : prog S A) (f : A -> prog S B) :
  makes I G p -> (forall a, makes I G (f a)) -> makes I G (pbind p f).
Proof.
  intros Hp Hf. induction p as [a|e|upd k IH]; simpl; [apply Hf|done|].
  intros s Hs. destruct (Hp s Hs) as [? ?]. split; [done|by apply IH].
Qed.
Lemma makes_catch {A} I G (p : prog S A) h : makes I G p -> (forall e, makes I G (h e)) -> makes I G (pcatch p h).
Proof.
  intros Hp Hh. induction p as [a|e|upd k IH]; simpl; [done|apply Hh|].
  intros s Hs. destruct (Hp s Hs) as [? ?]. split; [done|by apply IH].
Qed.
Lemma makes_of_result {A} I G (r : result A) : makes I G (of_result r).
Proof. by destruct r. Qed.
Lemma makes_stmt {A} (I : S -> Prop) G (m : M S A) : (forall s, I s -> G s (exec m s)) -> makes I G (stmt m).
Proof. intros H s Hs. split; [by apply H|apply makes_of_result]. Qed.
(** ... when what follows depends on the answer *)
Lemma makes_stmt_bind {A B} (I : S -> Prop) G (m : M S A) (f : A -> prog S B) :
  (forall s, I s -> G s (exec m s) /\ forall a, value m s = Ok a -> makes I G (f a)) ->
  makes I G (pbind (stmt m) f).
Proof.
  intros H s Hs. destruct (H s Hs) as [HG Hf]. split; [done|]. destruct (value m s); simpl; auto.
Qed.
Lemma makes_finally {A} I G (p : prog S A) f : makes I G p -> makes I G f -> makes I G (pfinally p f).
Proof.
  intros Hp Hf. unfold pfinally. apply makes_bind; [apply makes_catch; [by apply makes_bind|done]|].
  intros r. apply makes_bind; [done|intros; apply makes_of_result].
Qed.
Lemma makes_collect {A} I G (ps : list (prog S A)) : Forall (makes I G) ps -> makes I G (pcollect ps).
Proof. induction 1; simpl; [done|]. apply makes_bind; [done|]. intros a. by apply makes_bind. Qed.
Lemma makes_gather {A} I G schedule : forall ps : list (prog S A), Forall (makes I G) ps -> makes I G (gather schedule ps).
Proof.
  induction schedule as [|i schedule IH]; intros ps Hps; simpl; [by apply makes_collect|].
  destruct (ps !! i) as [[a|e|upd k]|] eqn:E; try by apply IH.
  intros s Hs. destruct (Forall_lookup_1 _ _ _ _ Hps E s Hs) as [? ?].
  split; [done|]. apply IH. by apply Forall_insert.
Qed.
Lemma makes_impl {A} (I J : S -> Prop) (G H : S -> S -> Prop) (p : prog S A) :
  (forall s, J s -> I s) -> (forall s s', J s -> G s s' -> H s s') -> makes I G p -> makes J H p.
Proof.
  intros HI HG. induction p as [a|e|upd k IH]; simpl; [done|done|]. intros Hp s Hs.
  destruct (Hp s (HI s Hs)) as [? ?]. split; [auto|by apply IH].
Qed.

Lemma under_mono {A} R (p : prog S A) (Q Q' : result A -> S -> Prop) s :
  (forall r s', Q r s' -> Q' r s') -> under R p Q s -> under R p Q' s.
Proof. intros HQ. revert s. induction p as [a|e|upd k IH]; intros s; simpl; [apply HQ|apply HQ|]. eauto. Qed.
Lemma under_bind {A B} R (p : prog S A) (f : A -> prog S B) Q s :
  under R p (fun r s' => match r with Ok a => under R (f a) Q s' | Raise e => Q (Raise e) s' end) s ->
  under R (pbind p f) Q s.
Proof. revert s. induction p as [a|e|upd k IH]; intros s; simpl; [done|done|]. eauto. Qed.
Lemma under_catch {A} R (p : prog S A) h Q s :
  under R p (fun r s' => match r with Ok a => Q (Ok a) s' | Raise e => under R (h e) Q s' end) s ->
  under R (pcatch p h) Q s.
Proof. revert s. induction p as [a|e|upd k IH]; intros s; simpl; [done|done|]. eauto. Qed.
Lemma under_of_result {A} R (r : result A) (Q : result A -> S -> Prop) s : Q r s -> under R (of_result r) Q s.
Proof. by destruct r. Qed.
Lemma under_stmt {A} (R : S -> S -> Prop) (m : M S A) Q s :
  (forall s', R s s' -> Q (value m s') (exec m s')) -> under R (stmt m) Q s.
Proof. intros H s' HR. by apply under_of_result, H. Qed.

(** A program whose own steps and whose neighbours all make moves of [R]
    leaves a state that [R] reaches. *)
Lemma under_reaches {A} (I : S -> Prop) (R : S -> S -> Prop) `{!Transitive R} (p : prog S A) s0 s :
  (forall x y, I x -> R x y -> I y) -> I s -> R s0 s -> makes I R p -> under R p (fun _ s' => I s' /\ R s0 s') s.
Proof.
  intros HI. revert s. induction p as [a|e|upd k IH]; intros s Hs H0 Hp; simpl; [done|done|].
  intros s' Hs'. assert (I s') as His' by eauto. destruct (Hp s' His') as [HG Hk].
  apply IH; [by eapply HI|by do 2 (etrans; [done|])|done].
Qed.

(** Programs that do not raise *)
Fixpoint never_raises {A} (p : prog S A) : Prop :=
  match p with Ret _ => True | Throw _ => False | Step upd k => forall s, never_raises (k s) end.
Lemma never_raises_bind {A B} (p : prog S A) (f : A -> prog S B) :
  never_raises p -> (forall a, never_raises (f a)) -> never_raises (pbind p f).
Proof. intros Hp Hf. induction p as [a|e|upd k IH]; simpl; [apply Hf|done|auto]. Qed.
Lemma never_raises_catch {A} (p : prog S A) h : (forall e, never_raises (h e)) -> never_raises (pcatch p h).
Proof. intros Hh. induction p as [a|e|upd k IH]; simpl; [done|apply Hh|auto]. Qed.
Lemma never_raises_collect {A} (ps : list (prog S A)) : Forall never_raises ps -> never_raises (pcollect ps).
Proof. induction 1; simpl; [done|]. apply never_raises_bind; [done|]. intros a. by apply never_raises_bind. Qed.
Lemma never_raises_gather {A} schedule : forall ps : list (prog S A),
  Forall never_raises ps -> never_raises (gather schedule ps).
Proof.
  induction schedule as [|i schedule IH]; intros ps Hps; simpl; [by apply never_raises_collect|].
  destruct (ps !! i) as [[a|e|upd k]|] eqn:E; try by apply IH.
  intros s. apply IH. apply Forall_insert; [done|]. by apply (Forall_lookup_1 _ _ _ _ Hps E).
Qed.

Lemma under_ok {A} R (p : prog S A) (Q : result A -> S -> Prop) s :
  never_raises p -> under R p Q s -> under R p (fun r s' => Q r s' /\ isOk r = true) s.
Proof.
  revert s. induction p as [a|e|upd k IH]; intros s Hp; simpl in *; [done|done|]. intros H s' HR. by apply IH; [|apply H].
Qed.

(** Under the environment's moves, step by step *)
Inductive env_run {A} (R : S -> S -> Prop) : prog S A * S -> prog S A * S -> Prop :=
  | env_done w : env_run R w w
  | env_step upd k s s' w : R s s' -> env_run R (k s', upd s') w -> env_run R (Step upd k, s) w.

Lemma under_run {A} R (p p' : prog S A) Q s s' :
  under R p Q s -> env_run R (p, s) (p', s') ->
  match p' with Ret a => Q (Ok a) s' | Throw e => Q (Raise e) s' | Step _ _ => True end.
Proof.
  intros Hp Hrun. remember (p, s) as w eqn:Ew. remember (p', s') as w' eqn:Ew'. revert p s Ew Hp.
  induction Hrun as [w|upd k t t' w HR _ IH]; intros p s Ew Hp; simplify_eq.
  - by destruct p.
  - eapply IH; [done|done|]. by apply Hp.
Qed.
End alone_among_others.
