(* ===== verification/Lane.v ===== *)
(** * Operator actions on an MT5 account: [copier/mt5/lane.py]

    An operator's order, close, amendment or cancel becomes a command in the
    outbox, checked against the registry.  [flatten] spans several turns of the
    reactor, so it is a program ([Prog]): whatever else the copier does between
    two of its rounds may happen there.  Beside them, the read models of the
    History and Details pages.  The operator's name (the actor column) is left
    out. *)

From S2P Require Import Prelude PyStr PyFloat PyRepr Models Db PyJson Repo Protocol Wire Routing.
From S2P Require Import Outbox Dispatch Service Reconcile Ingress Symbols Deals Mt5Db Registry Prog.
From Stdlib Require Import SpecFloat.

(** ** Prices *)

Definition not_a_price {A} (name : string) : result A :=
  Raise (ValueError (name +:+ " must be a positive, finite price")).

(** [float(raw)], a TypeError or ValueError turned into another ValueError *)
Definition float_or (msg : string) (raw : json) : result float64 :=
  match json_float raw with
  | Raise (TypeError _) | Raise (ValueError _) => Raise (ValueError msg)
  | r => r
  end.

Definition validated_price (name : string) (raw : json) : result price :=
  match raw with
  | JNull | JStr "" => Ok None
  | _ =>
      let? value := float_or (name +:+ " must be a number") raw in
      if negb (is_finite value) || fleb value fzero then not_a_price name else Ok (Some value)
  end.

(** [round(x, digits)]: the exact value rounded to that many decimals, ties to
    even, then the nearest double.  CPython answers outside these bounds without
    rounding. *)
Definition py_round_digits (x : float64) (digits : Z) : result float64 :=
  match x with
  | S754_finite s m e =>
      if 323 <? digits then Ok x
      else if digits <? - 308 then Ok (S754_zero s)
      else
        let num := Zpos m * (if 0 <=? e then 2 ^ e else 1) * (if 0 <=? digits then 10 ^ digits else 1) in
        let den := (if 0 <=? e then 1 else 2 ^ (- e)) * (if 0 <=? digits then 1 else 10 ^ (- digits)) in
        match float_of_dec s (round_even_div num den) (- digits) with
        | S754_infinity _ => Raise (OverflowError "rounded value too large to represent")
        | y => Ok y
        end
  | _ => Ok x
  end.

Example round_price :
  py_round_digits (fdiv (f_of_Z 4572158888889) (f_of_Z 1000000000)) 2 = Ok (fdiv (f_of_Z 457216) (f_of_Z 100)).
Proof. vm_compute. done. Qed.

(** [_rounded] takes a number or nothing. *)
Definition _rounded (p : price) (digits : Z) : result float64 :=
  match p with Some x => py_round_digits x digits | None => Ok fzero end.
Definition rounded_level (p : price) (digits : Z) : result price :=
  match p with Some x => let? y := py_round_digits x digits in Ok (Some y) | None => Ok None end.

(** ** What the lane reads *)

Definition _org (account_id : Z) : M CopierApp Z :=
  let! org := a_repo (org_for_account account_id) in
  match org with
  | Some o => ret o
  | None => raise (ValueError ("account " +:+ pretty account_id +:+ " not found"))
  end.

Definition _position (account_id position_id : Z) : M CopierApp ReportPosition :=
  let! p := position account_id position_id in
  match p with
  | Some p => ret p
  | None => raise (ValueError ("position " +:+ pretty position_id +:+ " not found on account " +:+ pretty account_id))
  end.

Definition symbol_by_name (account_id : Z) (n : string) : M CopierApp (option SymbolInfo) :=
  let! symbols := symbols_by_name account_id in ret (od_get n symbols).

Definition _digits (account_id : Z) (n : string) : M CopierApp Z :=
  let! info := symbol_by_name account_id n in
  ret (match info with Some i => digits i | None => 5 end).

Definition a_enqueue (account_id org_id : Z) (kind : cmd_kind) (p : payload) : M CopierApp Z :=
  a_repo (enqueue account_id org_id kind p None).

(** ** Operator actions *)

(** The symbol of an order: the broker's own name, or the alias of a canonical
    name. *)
Definition order_symbol (account_id : Z) (symbol : string) : M CopierApp (string * SymbolInfo) :=
  let! info := symbol_by_name account_id symbol in
  match info with
  | Some i => ret (symbol, i)
  | None =>
      let! aliases := on_tables (load_symbol_aliases account_id) in
      let! found := match od_get symbol aliases with
                    | Some broker_name =>
                        let! info := symbol_by_name account_id broker_name in
                        ret (match info with Some i => Some (broker_name, i) | None => None end)
                    | None => ret None
                    end in
      match found with
      | Some r => ret r
      | None => raise (ValueError ("unknown symbol " +:+ py_repr symbol +:+ " for account " +:+ pretty account_id))
      end
  end.

(** Centilots of a lot size, floored to the symbol's step *)
Definition order_volume (info : SymbolInfo) (symbol : string) (volume_lots : float64) : result Z :=
  let? volume := centilots volume_lots in
  let volume := if step_volume info =? 0 then volume else volume - volume mod step_volume info in
  if (volume <=? 0) || (volume <? min_volume info)
  then Raise (ValueError ("volume " +:+ float_repr volume_lots +:+ " lots is below the minimum for " +:+ symbol))
  else Ok volume.

(** [x or None], [x or y] of a level *)
Definition level_or_none (x : float64) : json := if feqb x fzero then JNull else JFloat x.
Definition protection_entry (sl tp : float64) : payload :=
  if feqb sl fzero && feqb tp fzero then []
  else [("protection", JObj [("stop_loss", level_or_none sl); ("take_profit", level_or_none tp)])].

(** The command of an order *)
Definition order_command (symbol side order_type : string) (digits_ volume : Z) (limit_price stop_price : json)
    (sl tp : float64) : result (cmd_kind * payload) :=
  if bool_decide (order_type = "MARKET")
  then Ok (KOpen, [("symbol", JStr symbol); ("side", JStr side); ("lots", JFloat (lots volume));
                   ("sl", JFloat sl); ("tp", JFloat tp); ("comment", JStr MANUAL_ORDER_LABEL)])
  else
    let? p := match (if bool_decide (order_type = "LIMIT") then limit_price else stop_price) with
              | JNull => Ok None
              | raw => let? x := json_float raw in Ok (Some x)
              end in
    let? p := _rounded p digits_ in
    Ok (KPlacePending, [("symbol", JStr symbol); ("type", JStr (side +:+ "_" +:+ order_type));
                        ("lots", JFloat (lots volume)); ("price", JFloat p); ("sl", JFloat sl); ("tp", JFloat tp);
                        ("expiry_ms", JInt 0); ("comment", JStr MANUAL_ORDER_LABEL)]).

Definition lane_place_order (account_id org_id : Z) (symbol side order_type : string) (volume_lots : float64)
    (limit_price stop_price : json) (stop_loss take_profit : price) : M CopierApp payload :=
  let! found := order_symbol account_id symbol in
  let '(symbol, info) := found in
  let! volume := lift_result (order_volume info symbol volume_lots) in
  let! sl := lift_result (_rounded stop_loss (digits info)) in
  let! tp := lift_result (_rounded take_profit (digits info)) in
  let! command := lift_result (order_command symbol side order_type (digits info) volume limit_price stop_price sl tp) in
  let '(kind, p) := command in
  let! command_id := a_enqueue account_id org_id kind p in
  let summary := [("account_id", JInt account_id); ("symbol", JStr symbol); ("side", JStr side);
                  ("order_type", JStr order_type); ("volume", JInt volume);
                  ("volume_lots", JStr (format_2f (default fzero (int_truediv volume CENTILOTS))));
                  ("command_id", JInt command_id)] in
  a_log "control" Info ([("action", JStr "manual_order")] ++ summary ++ protection_entry sl tp)
    (Some account_id) (Some org_id) ;;;
  ret (("status", JStr "submitted") :: summary).

(** What a close takes: everything, or the lots asked for and no more. *)
Definition close_volume (pos : ReportPosition) (volume_lots : json) : result Z :=
  match volume_lots with
  | JNull => Ok (rp_volume pos)
  | raw =>
      let? l := json_float raw in
      let? v := centilots l in
      let v := Z.min v (rp_volume pos) in
      if v <=? 0 then Raise (ValueError "volume_lots must be greater than 0") else Ok v
  end.

Definition close_payload (pos : ReportPosition) (volume : Z) : payload :=
  [("position", JInt (rp_ticket pos));
   ("lots", JFloat (if rp_volume pos <=? volume then fzero else lots volume))].

Definition lane_close_position (account_id position_id : Z) (volume_lots : json) : M CopierApp payload :=
  let! org_id := _org account_id in
  let! pos := _position account_id position_id in
  let! volume := lift_result (close_volume pos volume_lots) in
  let! command_id := a_enqueue account_id org_id KClose (close_payload pos volume) in
  a_log "control" Info
    [("action", JStr "manual_close"); ("position_id", JInt (rp_ticket pos)); ("volume", JInt volume);
     ("command_id", JInt command_id)] (Some account_id) (Some org_id) ;;;
  ret [("status", JStr "submitted"); ("account_id", JInt account_id); ("position_id", JInt (rp_ticket pos));
       ("volume", JInt volume); ("command_id", JInt command_id)].

(** The levels come in as [CopierApp.amend_position_sltp] validated them. *)
Definition amend_payload (pos : ReportPosition) (sl tp : price) : payload :=
  [("position", JInt (rp_ticket pos)); ("sl", JFloat (default fzero sl)); ("tp", JFloat (default fzero tp))].

Definition lane_amend_position_sltp (account_id position_id : Z) (stop_loss take_profit : price) : M CopierApp payload :=
  let! org_id := _org account_id in
  let! sl := lift_result (validated_price "stop_loss" (JPrice stop_loss)) in
  let! tp := lift_result (validated_price "take_profit" (JPrice take_profit)) in
  let! pos := _position account_id position_id in
  let! d := _digits account_id (rp_symbol pos) in
  let! sl := lift_result (rounded_level sl d) in
  let! tp := lift_result (rounded_level tp d) in
  let! command_id := a_enqueue account_id org_id KAmend (amend_payload pos sl tp) in
  a_log "control" Info
    [("action", JStr "amend_sltp"); ("position_id", JInt (rp_ticket pos)); ("stop_loss", JPrice sl);
     ("take_profit", JPrice tp); ("command_id", JInt command_id)] (Some account_id) (Some org_id) ;;;
  ret [("status", JStr "submitted"); ("account_id", JInt account_id); ("position_id", JInt (rp_ticket pos));
       ("stop_loss", JPrice sl); ("take_profit", JPrice tp); ("command_id", JInt command_id)].

Definition lane_cancel_order (account_id order_id : Z) : M CopierApp payload :=
  let! org_id := _org account_id in
  let! command_id := a_enqueue account_id org_id KCancelPending [("order", JInt order_id)] in
  a_log "control" Info
    [("action", JStr "manual_cancel"); ("order_id", JInt order_id); ("command_id", JInt command_id)]
    (Some account_id) (Some org_id) ;;;
  ret [("status", JStr "submitted"); ("account_id", JInt account_id); ("order_id", JInt order_id);
       ("command_id", JInt command_id)].

(** ** Flatten *)

Definition FLATTEN_ROUNDS : nat := 3.

Record FlattenSummary := {
  fs_account_id : Z;
  fs_positions_closed : Z;
  fs_orders_cancelled : Z;
  fs_positions_remaining : option (list Z);
  fs_orders_remaining : option (list Z);
  fs_rounds : Z;
  fs_error : option string
}.

(** The tickets a report shows: positions and orders *)
Definition book := (list Z * list Z)%type.
Definition book_of (r : SyncReport) : book := (rp_ticket <$> sr_positions r, ro_ticket <$> sr_orders r).

Definition current_book (account_id : Z) : M CopierApp book :=
  let! r := report account_id in
  match r with
  | Some r => ret (book_of r)
  | None => raise (AttributeError "'NoneType' object has no attribute 'positions'")
  end.

(** The tickets named by queued commands of a kind *)
Definition queued_tickets (kind : cmd_kind) (key : string) (rows : list command_row) : list Z :=
  omap (fun c => if bool_decide (c_kind c = kind) then payload_int key (c_payload c) else None) rows.

Definition enqueue_missing (account_id org_id : Z) (kind : cmd_kind) (p : Z -> payload) (queued tickets : list Z)
    : M CopierApp unit :=
  for_each (fun t => if bool_decide (t ∈ queued) then ret tt
                     else let! _ := a_enqueue account_id org_id kind (p t) in ret tt) tickets.

Definition close_all_of (t : Z) : payload := [("position", JInt t); ("lots", JFloat fzero)].
Definition cancel_of (t : Z) : payload := [("order", JInt t)].

(** One round, in one turn: what is open, and commands for what has none. *)
Definition flatten_round (account_id org_id : Z) : M CopierApp book :=
  let! b := current_book account_id in
  match b with
  | ([], []) => ret b
  | _ =>
      let! queued := a_repo (mt5_commands_open account_id) in
      enqueue_missing account_id org_id KClose close_all_of (queued_tickets KClose "position" queued) b.1 ;;;
      enqueue_missing account_id org_id KCancelPending cancel_of (queued_tickets KCancelPending "order" queued) b.2 ;;;
      ret b
  end.

Abbreviation program := (prog CopierApp).

(** The rounds that are left: the first book, the last book, the rounds used.
    The reactor waits between two of them ([task.deferLater]). *)
Fixpoint flatten_rounds (account_id org_id : Z) (left : nat) (first : option book) (used : Z)
    : program (book * book * Z) :=
  match left with
  | O => let* b := stmt (current_book account_id) in Ret (default ([], []) first, b, used)
  | Datatypes.S left' =>
      let* b := stmt (flatten_round account_id org_id) in
      let first := match first with Some f => Some f | None => Some b end in
      match b with
      | ([], []) => Ret (default ([], []) first, b, used)
      | _ => flatten_rounds account_id org_id left' first (used + 1)
      end
  end.

Definition JTickets (l : list Z) : json := JList (JInt <$> l).

(** What of the first book is gone from the last *)
Definition gone (first last : list Z) : Z :=
  Z.of_nat (size (list_to_set first : gset Z)) - Z.of_nat (size (list_to_set first ∩ list_to_set last : gset Z)).

Definition flatten_error (b : book) (used : Z) : option string :=
  match b with
  | ([], []) => None
  | (ps, os) => Some (pretty (length ps) +:+ " position(s) and " +:+ pretty (length os) +:+
                      " order(s) still open after " +:+ pretty used +:+ " attempt(s)")
  end.

Definition flatten_summary (account_id : Z) (outcome : book * book * Z) : FlattenSummary :=
  let '(first, last, used) := outcome in
  {| fs_account_id := account_id; fs_positions_closed := gone first.1 last.1; fs_orders_cancelled := gone first.2 last.2;
     fs_positions_remaining := Some last.1; fs_orders_remaining := Some last.2; fs_rounds := used;
     fs_error := flatten_error last used |}.

Definition flatten_event (s : FlattenSummary) : payload :=
  [("action", JStr "kill_switch_flatten"); ("positions_closed", JInt (fs_positions_closed s));
   ("orders_cancelled", JInt (fs_orders_cancelled s));
   ("positions_remaining", JTickets (default [] (fs_positions_remaining s)));
   ("orders_remaining", JTickets (default [] (fs_orders_remaining s))); ("rounds", JInt (fs_rounds s))].

(** [flatten]: no report yet is refused. *)
Definition flatten_start (account_id : Z) : M CopierApp Z :=
  let! org_id := _org account_id in
  let! r := report account_id in
  match r with
  | Some _ => ret org_id
  | None => raise (ValueError ("MT5 account " +:+ pretty account_id +:+
                               " has not reported yet: is the terminal connected?"))
  end.

Definition flatten (account_id : Z) : program FlattenSummary :=
  let* org_id := stmt (flatten_start account_id) in
  let* outcome := flatten_rounds account_id org_id FLATTEN_ROUNDS None 0 in
  let s := flatten_summary account_id outcome in
  stmt (a_log "control" (match fs_error s with Some _ => Error | None => Warning end) (flatten_event s)
          (Some account_id) (Some org_id)) >>>
  Ret s.
