(* ===== verification/History.v ===== *)
(** * The history pages of an MT5 account: read models of [copier/mt5/lane.py]

    What was ingested as deals comes back as deal history, orders, cash flow and
    the deals of a position ([load_deals] and [load_mt5_cash_flow] of
    db/repo.py).  PostgreSQL leaves rows with equal sort keys in any order; the
    model takes one. *)

From S2P Require Import Prelude PyStr PyFloat Models Db Repo Protocol Wire Routing.
From S2P Require Import Outbox Dispatch Service Reconcile Ingress Symbols Deals Mt5Db Registry.

(** ** [load_deals] *)

Record LoadedClose := {
  lc_entry_price : price;
  lc_gross_profit : float64;
  lc_swap : float64;
  lc_commission : float64;
  lc_balance : float64;
  lc_closed_volume : option Z
}.

Record LoadedDeal := {
  ld_deal_id : Z;
  ld_order_id : option Z;
  ld_position_id : option Z;
  ld_symbol_id : option Z;
  ld_symbol : option string;
  ld_side : DealType;
  ld_volume : Z;
  ld_filled_volume : Z;
  ld_execution_price : price;
  ld_status : string;
  ld_commission : price;
  ld_create_timestamp : Z;
  ld_execution_timestamp : Z;
  ld_label : option string;
  ld_close : option LoadedClose
}.

Definition loaded_deal (deal_id : Z) (r : DealRow) : LoadedDeal :=
  {| ld_deal_id := deal_id; ld_order_id := de_order_id r; ld_position_id := de_position_id r;
     ld_symbol_id := de_symbol_id r; ld_symbol := de_symbol r; ld_side := de_side r; ld_volume := de_volume r;
     ld_filled_volume := de_filled_volume r; ld_execution_price := de_execution_price r; ld_status := de_status r;
     ld_commission := de_commission r; ld_create_timestamp := de_create_timestamp r;
     ld_execution_timestamp := de_execution_timestamp r; ld_label := de_label r;
     ld_close := if de_is_close r
                 then Some {| lc_entry_price := de_entry_price r;
                              lc_gross_profit := default fzero (de_gross_profit r);
                              lc_swap := default fzero (de_swap r);
                              lc_commission := default fzero (de_commission r);
                              lc_balance := default fzero (de_balance_after r);
                              lc_closed_volume := de_closed_volume r |}
                 else None |}.

Definition bounded_by (since until : option Z) (t : Z) : bool :=
  match since with Some s => s <=? t | None => true end && match until with Some u => t <=? u | None => true end.

Definition deal_selected (account_id : Z) (since_ms until_ms position_id : option Z) (key : Z * Z) (r : DealRow) : bool :=
  (key.1 =? account_id) && bounded_by since_ms until_ms (de_execution_timestamp r) &&
  match position_id with Some p => bool_decide (de_position_id r = Some p) | None => true end.

Definition by_time (a b : (Z * Z) * DealRow) : Prop := de_execution_timestamp a.2 <= de_execution_timestamp b.2.
#[export] Instance by_time_dec : RelDecision by_time.
Proof. intros a b. unfold by_time. apply _. Defined.

Definition load_deals (account_id : Z) (since_ms until_ms position_id : option Z) (limit : nat)
    : M mt5_tables (list LoadedDeal) :=
  gets (fun t =>
    (fun kr => loaded_deal kr.1.2 kr.2) <$>
    take limit (merge_sort by_time
      (List.filter (fun kr => deal_selected account_id since_ms until_ms position_id kr.1 kr.2)
                   (map_to_list (t_deals t))))).

Definition DEALS_LIMIT : nat := Z.to_nat 50000.

(** ** [load_mt5_cash_flow] *)

Record CashRow := { ca_deal_id : Z; ca_side : DealType; ca_amount : float64; ca_balance_after : price; ca_timestamp : Z }.

Definition by_time_and_id (a b : (Z * Z) * DealRow) : Prop :=
  de_execution_timestamp a.2 < de_execution_timestamp b.2 \/
  de_execution_timestamp a.2 = de_execution_timestamp b.2 /\ a.1.2 <= b.1.2.
#[export] Instance by_time_and_id_dec : RelDecision by_time_and_id.
Proof. intros a b. unfold by_time_and_id. apply _. Defined.

Definition is_cash (t : DealType) : bool := match t with DtBalance | DtCredit => true | _ => false end.

Definition load_mt5_cash_flow (account_id from_ms to_ms : Z) : M mt5_tables (list CashRow) :=
  gets (fun t =>
    (fun kr => {| ca_deal_id := kr.1.2; ca_side := de_side kr.2; ca_amount := default fzero (de_gross_profit kr.2);
                  ca_balance_after := de_balance_after kr.2; ca_timestamp := de_execution_timestamp kr.2 |}) <$>
    merge_sort by_time_and_id
      (List.filter (fun kr => deal_selected account_id (Some from_ms) (Some to_ms) None kr.1 kr.2 && is_cash (de_side kr.2))
                   (map_to_list (t_deals t)))).

(** ** The lane's read models *)

(** A deal as the History page shows it: no label, lots instead. *)
Record ShownDeal := { sd_deal : LoadedDeal; sd_volume_lots : option string; sd_closed_volume_lots : option string }.

Definition _deal (row : LoadedDeal) : result ShownDeal :=
  let? volume := _lots (Some (ld_filled_volume row)) CENTILOTS in
  let? closed := match ld_close row with
                 | Some c => _lots (lc_closed_volume c) CENTILOTS
                 | None => Ok None
                 end in
  Ok {| sd_deal := row; sd_volume_lots := volume; sd_closed_volume_lots := closed |}.

Definition deal_history (account_id from_ms to_ms : Z) : M CopierApp (list ShownDeal) :=
  let! rows := on_tables (load_deals account_id (Some from_ms) (Some to_ms) None DEALS_LIMIT) in
  lift_result (rmap _deal (List.filter (fun r => is_trade_type (ld_side r)) rows)).

Definition position_deals (account_id position_id from_ms to_ms : Z) : M CopierApp (list ShownDeal) :=
  let! rows := on_tables (load_deals account_id (Some from_ms) (Some to_ms) (Some position_id) DEALS_LIMIT) in
  lift_result (rmap _deal rows).

(** One filled market order per trade deal *)
Record ShownOrder := {
  so_order_id : option Z;
  so_symbol_id : option Z;
  so_symbol : option string;
  so_side : DealType;
  so_volume : Z;
  so_volume_lots : option string;
  so_execution_price : price;
  so_executed_volume : Z;
  so_position_id : option Z;
  so_label : string;
  so_timestamp : Z
}.

Definition shown_order (r : LoadedDeal) : result ShownOrder :=
  let? l := _lots (Some (ld_volume r)) CENTILOTS in
  Ok {| so_order_id := ld_order_id r; so_symbol_id := ld_symbol_id r; so_symbol := ld_symbol r; so_side := ld_side r;
        so_volume := ld_volume r; so_volume_lots := l; so_execution_price := ld_execution_price r;
        so_executed_volume := ld_filled_volume r; so_position_id := ld_position_id r;
        so_label := default "" (ld_label r); so_timestamp := ld_execution_timestamp r |}.

Definition order_history (account_id from_ms to_ms : Z) : M CopierApp (list ShownOrder) :=
  let! rows := on_tables (load_deals account_id (Some from_ms) (Some to_ms) None DEALS_LIMIT) in
  lift_result (rmap shown_order (List.filter (fun r => is_trade_type (ld_side r)) rows)).

Inductive cash_kind := CashCredit | CashDeposit | CashWithdraw.

Definition kind_of_cash (r : CashRow) : cash_kind :=
  match ca_side r with
  | DtCredit => CashCredit
  | _ => if fleb fzero (ca_amount r) then CashDeposit else CashWithdraw
  end.

Definition cash_flow (account_id from_ms to_ms : Z) : M CopierApp (list (cash_kind * CashRow)) :=
  let! rows := on_tables (load_mt5_cash_flow account_id from_ms to_ms) in
  ret ((fun r => (kind_of_cash r, r)) <$> rows).
