(* ===== verification/Operator.v ===== *)
(** * Operator actions of [copier/main.py]

    Orders, closes, amendments and cancellations by hand on accounts of either
    platform; pausing, resuming and dry-run.  Left out: the reload that follows
    a pause or resume, and the operator's name on events. *)

From S2P Require Import Prelude PyStr PyFloat PyRepr Models Db PyJson Repo Normalize Protocol Wire Routing.
From S2P Require Import Outbox Dispatch Service Reconcile Ingress Symbols Deals Mt5Db Registry Bridge Prog Lane.
From Stdlib Require Import SpecFloat.

(** ** What the cTrader side answers *)

(** A reconcile response: whose book it says it is, positions with their
    symbol and volume, orders *)
Record BrokerPosition := { bp_position_id : Z; bp_symbol_id : Z; bp_volume : Z }.
Record BookAnswer := { ba_account : option Z; ba_positions : list BrokerPosition; ba_orders : list Z }.

(** The clients (ctrader/client.py), quotes and known positions are not part of
    the model: [cv_client] is an account's client with its refusal, if the broker
    refused the account; [cv_answer] what the broker answers to the [n]-th
    request for a book; [cv_quote] the live bid and ask ([_spot_for]);
    [cv_positions] the positions the org's reconciler saw last. *)
Record ctrader_view := {
  cv_client : Z -> option (option string);
  cv_answer : nat -> Z -> result BookAnswer;
  cv_quote : Z -> string -> price * price;
  cv_positions : Z -> list PositionSnapshot
}.

Section operator.
Context (routing : OrgRouting) (view : ctrader_view) (max_lots_text : string).

Definition _is_mt5 (account_id : Z) : bool := bool_decide (platform_by_account routing !! account_id = Some MT5).

Definition send_request (account_id : Z) (req : request) : M CopierApp unit :=
  on_service (on_engine (send_direct account_id req)).

(** [_query_context]: the account's symbols, when it can be reached *)
Definition _query_context (account_id : Z) : M CopierApp (list (string * SymbolInfo)) :=
  let! account := _account_row account_id in
  match account with
  | None => raise (ValueError ("account " +:+ pretty account_id +:+ " not found"))
  | Some account =>
      if is_mt5 account then on_tables (load_symbol_cache account_id)
      else match cv_client view account_id with
           | None => raise (ValueError ("no client for account " +:+ pretty account_id))
           | Some (Some reason) =>
               raise (ValueError ("account " +:+ pretty account_id +:+
                                  " is not authorized: the broker refused with " +:+ reason))
           | Some None => on_tables (load_symbol_cache account_id)
           end
  end.

Definition _require_account_in_org (org_id account_id : Z) : M CopierApp unit :=
  let! account := _account_row account_id in
  match account with
  | Some a => if acc_org_id a =? org_id then ret tt
              else raise (ValueError ("account " +:+ pretty account_id +:+ " not in org " +:+ pretty org_id))
  | None => raise (ValueError ("account " +:+ pretty account_id +:+ " not in org " +:+ pretty org_id))
  end.

(** ** Orders *)

Definition _max_manual_lots : float64 :=
  match py_float max_lots_text with
  | Some value => if fltb fzero value then value else f_of_Z 10
  | None => f_of_Z 10
  end.

Definition order_lots (params : payload) : result float64 :=
  let? l := float_or "volume_lots must be a number" (get params "volume_lots") in
  if negb (is_finite l) then Raise (ValueError "volume_lots must be a finite number")
  else if fleb l fzero then Raise (ValueError "volume_lots must be greater than 0")
  else if fltb _max_manual_lots l
  then Raise (ValueError ("volume " +:+ float_repr l +:+ " lots exceeds the manual-order limit of " +:+
                          float_repr _max_manual_lots +:+ " lots (fat-finger guard; raise MAX_MANUAL_ORDER_LOTS to change it)"))
  else Ok l.

Definition check_price (params : payload) (field : string) : result unit :=
  match get params field with
  | JNull => Ok tt
  | raw =>
      let? value := float_or (field +:+ " must be a number") raw in
      if negb (is_finite value) || fleb value fzero then not_a_price field else Ok tt
  end.

(** The request's fields, checked *)
Record order_form := { of_account : Z; of_side : string; of_type : string; of_lots : float64 }.

Definition is_null (v : json) : bool := match v with JNull => true | _ => false end.

Definition parse_order_form (params : payload) : result order_form :=
  match get params "account_id" with
  | JNull => Raise (ValueError "account_id required")
  | raw =>
      let? account_id := json_int raw in
      let side := str_upper (json_str (default (JStr "") (od_get "side" params))) in
      if negb (bool_decide (side ∈ ["BUY"; "SELL"])) then Raise (ValueError "side must be BUY or SELL")
      else
        let type := str_upper (json_str (default (JStr "") (od_get "order_type" params))) in
        if negb (bool_decide (type ∈ ["MARKET"; "LIMIT"; "STOP"]))
        then Raise (ValueError "order_type must be MARKET, LIMIT or STOP")
        else
          let? l := order_lots params in
          if bool_decide (type = "LIMIT") && is_null (get params "limit_price")
          then Raise (ValueError "limit_price required for LIMIT orders")
          else if bool_decide (type = "STOP") && is_null (get params "stop_price")
          then Raise (ValueError "stop_price required for STOP orders")
          else
            let? _ := check_price params "limit_price" in
            let? _ := check_price params "stop_price" in
            let? _ := check_price params "stop_loss" in
            let? _ := check_price params "take_profit" in
            Ok {| of_account := account_id; of_side := side; of_type := type; of_lots := l |}
  end.

(** [symbols.get(symbol_name)]: a list or dict is no key. *)
Definition find_symbol (symbols : list (string * SymbolInfo)) (symbol_name : json) : result (option SymbolInfo) :=
  match symbol_name with
  | JStr n => Ok (od_get n symbols)
  | JList _ => Raise (TypeError "unhashable type: 'list'")
  | JObj _ => Raise (TypeError "unhashable type: 'dict'")
  | _ => Ok None
  end.

Definition ctrader_volume (sym : SymbolInfo) (symbol_name : json) (volume_lots : float64) : result Z :=
  let? volume := json_int (JFloat (fmul volume_lots (f_of_Z (lot_size sym)))) in
  let volume := if step_volume sym =? 0 then volume else volume - volume mod step_volume sym in
  if volume <? min_volume sym
  then Raise (ValueError ("volume " +:+ float_repr volume_lots +:+ " lots is below the minimum for " +:+ json_str symbol_name))
  else Ok volume.

Definition optional_float (raw : json) : result price :=
  match raw with JNull => Ok None | _ => let? x := json_float raw in Ok (Some x) end.

(** Protection of a manual order: absolute levels, relative distances, and the
    audit entry *)
Record order_protection := {
  op_levels : price * price; op_distances : option Z * option Z; op_audit : option payload
}.

Definition market_protection (side : string) (account_id : Z) (symbol_name : string) (sl tp : price)
    : result order_protection :=
  let (bid, ask) := cv_quote view account_id symbol_name in
  match (if bool_decide (side = "BUY") then ask else bid) with
  | None =>
      Raise (ValueError ("no live price for " +:+ symbol_name +:+ " yet, so a stop loss or " +:+
        "take profit cannot be placed with a market order -- try again in a moment, or place the order " +:+
        "without protection and set it on the position"))
  | Some reference =>
      let? rel := relative_protection (if bool_decide (side = "BUY") then BUY else SELL) (Some reference) sl tp in
      match sl, rel.1 with
      | Some _, None => Raise (ValueError ("a " +:+ side +:+ " stop loss must sit on the losing side of the market (" +:+
                                           float_repr reference +:+ ")"))
      | _, _ =>
          match tp, rel.2 with
          | Some _, None => Raise (ValueError ("a " +:+ side +:+ " take profit must sit on the winning side " +:+
                                               "of the market (" +:+ float_repr reference +:+ ")"))
          | _, _ =>
              Ok {| op_levels := (None, None); op_distances := rel;
                    op_audit := Some [("requested_stop_loss", JPrice sl); ("requested_take_profit", JPrice tp);
                      ("reference_price", JFloat reference); ("relative_stop_loss", JOptInt rel.1);
                      ("relative_take_profit", JOptInt rel.2);
                      ("note", JStr ("market-order protection is placed relative to " +:+
                                     "the fill, so the final level moves with slippage"))] |}
          end
      end
  end.

Definition protect_order (form : order_form) (symbol_name : string) (params : payload) : result order_protection :=
  match get params "stop_loss", get params "take_profit" with
  | JNull, JNull => Ok {| op_levels := (None, None); op_distances := (None, None); op_audit := None |}
  | raw_sl, raw_tp =>
      let? sl := optional_float raw_sl in
      let? tp := optional_float raw_tp in
      if bool_decide (of_type form = "MARKET") then market_protection (of_side form) (of_account form) symbol_name sl tp
      else Ok {| op_levels := (sl, tp); op_distances := (None, None);
                 op_audit := Some [("stop_loss", JPrice sl); ("take_profit", JPrice tp)] |}
  end.

Definition order_type_of (t : string) : ProtoOAOrderType :=
  if bool_decide (t = "MARKET") then OT_MARKET else if bool_decide (t = "LIMIT") then OT_LIMIT else OT_STOP.

Definition ctrader_order (form : order_form) (params : payload) (sym : SymbolInfo) (volume : Z)
    (p : order_protection) : result request :=
  let? limit_price := optional_float (get params "limit_price") in
  let? stop_price := optional_float (get params "stop_price") in
  Ok (NewOrderReq
    {| no_ctidTraderAccountId := of_account form; no_symbolId := symbol_id sym;
       no_orderType := order_type_of (of_type form);
       no_tradeSide := if bool_decide (of_side form = "BUY") then TS_BUY else TS_SELL;
       Dispatch.no_volume := volume; no_limitPrice := limit_price; no_stopPrice := stop_price; no_expirationTimestamp := None;
       no_stopLoss := (op_levels p).1; no_takeProfit := (op_levels p).2; no_label := MANUAL_ORDER_LABEL;
       no_clientOrderId := ""; no_relativeStopLoss := (op_distances p).1; no_relativeTakeProfit := (op_distances p).2 |}).

Definition place_ctrader_order (form : order_form) (org_id : option Z) (params : payload) : M CopierApp payload :=
  let account_id := of_account form in
  let symbol_name := get params "symbol" in
  let! symbols := on_tables (load_symbol_cache account_id) in
  let! found := lift_result (find_symbol symbols symbol_name) in
  match found with
  | None => raise (ValueError ("unknown symbol " +:+ json_repr symbol_name +:+ " for account " +:+ pretty account_id))
  | Some sym =>
      let! volume := lift_result (ctrader_volume sym symbol_name (of_lots form)) in
      let! p := lift_result (protect_order form (json_str symbol_name) params) in
      let! req := lift_result (ctrader_order form params sym volume p) in
      send_request account_id req ;;;
      let! l := lift_result (match int_truediv volume (lot_size sym) with
                             | Some x => Ok (format_2f x)
                             | None => Raise (ZeroDivisionError "division by zero")
                             end) in
      let summary := [("account_id", JInt account_id); ("symbol", symbol_name); ("side", JStr (of_side form));
                      ("order_type", JStr (of_type form)); ("volume", JInt volume); ("volume_lots", JStr l)] in
      a_log "control" Info
        ([("action", JStr "manual_order")] ++ summary ++
         match op_audit p with Some audit => [("protection", JObj audit)] | None => [] end)
        (Some account_id) org_id ;;;
      ret (("status", JStr "submitted") :: summary)
  end.

Definition DRY_RUN_REFUSAL : exn :=
  ValueError ("this workspace is in dry-run: manual orders are disabled until dry-run is turned off").

Definition place_order (params : payload) : M CopierApp payload :=
  let! form := lift_result (parse_order_form params) in
  let account_id := of_account form in
  _query_context account_id ;;;
  let! org_id := a_repo (org_for_account account_id) in
  let! dry := match org_id with
              | Some o => let! org := a_repo (get_org o) in ret (org_dry_run org)
              | None => ret false
              end in
  if dry : bool then raise DRY_RUN_REFUSAL
  else if _is_mt5 account_id
  then match org_id with
       | None => raise (ValueError ("account " +:+ pretty account_id +:+ " not found"))
       | Some o =>
           let! sl := lift_result (validated_price "stop_loss" (get params "stop_loss")) in
           let! tp := lift_result (validated_price "take_profit" (get params "take_profit")) in
           lane_place_order account_id o (json_str (get params "symbol")) (of_side form) (of_type form) (of_lots form)
             (get params "limit_price") (get params "stop_price") sl tp
       end
  else place_ctrader_order form org_id params.

(** ** Closes, amendments, cancellations *)

(** [_reconcile_book]: the broker's answer, when it is about the account asked for *)
Definition reconcile_book (n : nat) (account_id : Z) : result BookAnswer :=
  let? rec := cv_answer view n account_id in
  match ba_account rec with
  | Some answered_for =>
      if answered_for =? account_id then Ok rec
      else Raise (QueryFailed ("reconcile for account " +:+ pretty account_id +:+ " was answered with account " +:+
                               pretty answered_for +:+ "'s book"))
  | None => Ok rec
  end.

Definition partial_volume (pos : BrokerPosition) (symbols : list (string * SymbolInfo)) (volume_lots : json) : result Z :=
  match volume_lots with
  | JNull => Ok (bp_volume pos)
  | raw =>
      match symbols_by_id symbols !! bp_symbol_id pos with
      | None => Raise (ValueError ("no symbol info for symbol id " +:+ pretty (bp_symbol_id pos)))
      | Some sym =>
          let? l := json_float raw in
          let? v := json_int (JFloat (fmul l (f_of_Z (lot_size sym)))) in
          let v := Z.min v (bp_volume pos) in
          if v <=? 0 then Raise (ValueError "volume_lots must be greater than 0") else Ok v
      end
  end.

(** After the broker answered: one turn. *)
Definition close_answered (account_id position_id : Z) (symbols : list (string * SymbolInfo)) (volume_lots : json)
    (rec : BookAnswer) : M CopierApp payload :=
  match List.find (fun p => bp_position_id p =? position_id) (ba_positions rec) with
  | None => raise (ValueError ("position " +:+ pretty position_id +:+ " not found on account " +:+ pretty account_id))
  | Some pos =>
      let! volume := lift_result (partial_volume pos symbols volume_lots) in
      send_request account_id (ClosePositionReq account_id position_id volume) ;;;
      let! org_id := a_repo (org_for_account account_id) in
      a_log "control" Info
        [("action", JStr "manual_close"); ("position_id", JInt position_id); ("volume", JInt volume)]
        (Some account_id) org_id ;;;
      ret [("status", JStr "submitted"); ("account_id", JInt account_id); ("position_id", JInt position_id);
           ("volume", JInt volume)]
  end.

Definition close_position (account_id position_id : Z) (volume_lots : json) : program payload :=
  if _is_mt5 account_id then stmt (lane_close_position account_id position_id volume_lots)
  else
    let* symbols := stmt (_query_context account_id) in
    let* rec := of_result (cv_answer view 0 account_id) in
    stmt (close_answered account_id position_id symbols volume_lots rec).

(** Decimals of a position's symbol, when the org's reconciler knows it *)
Definition _digits_for_position (account_id position_id : Z) (symbols : list (string * SymbolInfo))
    : M CopierApp (option Z) :=
  let! org_id := a_repo (org_for_account account_id) in
  ret (org_id ≫= fun o =>
         List.find (fun p => psn_position_id p =? position_id) (cv_positions view o) ≫= fun pos =>
         digits <$> symbols_by_id symbols !! psn_symbol_id pos).

Definition round_to (d : option Z) (p : price) : result price :=
  match d with Some d => rounded_level p d | None => Ok p end.

Definition amend_position_sltp (account_id position_id : Z) (stop_loss take_profit : json) : M CopierApp payload :=
  let! sl := lift_result (validated_price "stop_loss" stop_loss) in
  let! tp := lift_result (validated_price "take_profit" take_profit) in
  if _is_mt5 account_id then lane_amend_position_sltp account_id position_id sl tp
  else
    let! symbols := _query_context account_id in
    let! d := _digits_for_position account_id position_id symbols in
    let! sl := lift_result (round_to d sl) in
    let! tp := lift_result (round_to d tp) in
    send_request account_id (AmendPositionSLTPReq account_id position_id sl tp) ;;;
    let! org_id := a_repo (org_for_account account_id) in
    a_log "control" Info
      [("action", JStr "amend_sltp"); ("position_id", JInt position_id); ("stop_loss", JPrice sl);
       ("take_profit", JPrice tp)] (Some account_id) org_id ;;;
    ret [("status", JStr "submitted"); ("account_id", JInt account_id); ("position_id", JInt position_id);
         ("stop_loss", JPrice sl); ("take_profit", JPrice tp)].

Definition cancel_order (account_id order_id : Z) : M CopierApp payload :=
  if _is_mt5 account_id then lane_cancel_order account_id order_id
  else
    _query_context account_id ;;;
    send_request account_id (CancelOrderReq account_id order_id) ;;;
    let! org_id := a_repo (org_for_account account_id) in
    a_log "control" Info [("action", JStr "manual_cancel"); ("order_id", JInt order_id)] (Some account_id) org_id ;;;
    ret [("status", JStr "submitted"); ("account_id", JInt account_id); ("order_id", JInt order_id)].

(** ** Pausing and dry run: what an operator writes *)

Definition switch_copying (on : bool) (org_id : Z) (account_id : option Z) : M CopierApp unit :=
  a_repo (get_org org_id) ;;;
  match account_id with
  | None =>
      a_repo (set_org_setting org_id (SetCopyingEnabled on)) ;;;
      a_log "control" Info [("action", JStr (if on then "resume_org" else "pause_org"))] None (Some org_id)
  | Some a =>
      _require_account_in_org org_id a ;;;
      a_repo (set_account_status a (if on then StOk else StPaused) JNull) ;;;
      a_log "control" Info [("action", JStr (if on then "resume_slave" else "pause_slave")); ("account_id", JInt a)]
        (Some a) (Some org_id)
  end.
Definition pause : Z -> option Z -> M CopierApp unit := switch_copying false.
Definition resume : Z -> option Z -> M CopierApp unit := switch_copying true.

Definition set_dry_run (org_id : Z) (enabled : bool) : M CopierApp unit :=
  a_repo (get_org org_id) ;;;
  a_repo (set_org_setting org_id (SetDryRun enabled)) ;;;
  a_log "control" Info [("action", JStr "set_dry_run"); ("enabled", JBool enabled)] None (Some org_id).
End operator.
