(* ===== verification/OperatorFacts.v ===== *)
(** * Facts about operator actions

    A manual order is all or nothing and passes every guard; a manual close takes
    no more than the position holds. *)

From S2P Require Import Prelude PyStr PyFloat PyRepr Models Db PyJson Repo RepoFacts Normalize Protocol Wire Routing.
From S2P Require Import Outbox Dispatch DispatchFacts Service Reconcile Ingress Symbols Deals Mt5Db Registry Bridge BridgeDemo BridgeFacts Prog Lane Operator.

(** ** How a computation ends *)

Section ends.
Context {S : Type}.

Definition ends {A} (m : M S A) (Q : result A -> S -> Prop) (s : S) : Prop := Q (value m s) (exec m s).

Lemma ends_bind {A B} (m : M S A) (f : A -> M S B) Q s :
  ends m (fun r s' => match r with Ok a => ends (f a) Q s' | Raise e => Q (Raise e) s' end) s -> ends (bind m f) Q s.
Proof. unfold ends, value, exec, bind. by destruct (m s) as [[a|e] s']. Qed.

Lemma ends_lift {A} (r : result A) (Q : result A -> S -> Prop) s : Q r s -> ends (lift_result r) Q s.
Proof. done. Qed.

Lemma ends_respects {A} (R : S -> S -> Prop) (m : M S A) (Q : result A -> S -> Prop) s :
  respects R m -> (forall r s', value m s = r -> R s s' -> Q r s') -> ends m Q s.
Proof. intros Hm HQ. by apply HQ, Hm. Qed.
End ends.

(** ** Nothing is traded *)

Record untraded (s s' : CopierApp) : Prop := {
  ut_cmds : db_commands (ca_db s') = db_commands (ca_db s);
  ut_sends : e_sends (sv_engine (ca_service s')) = e_sends (sv_engine (ca_service s));
  ut_orgs : db_orgs (ca_db s') = db_orgs (ca_db s);
  ut_accounts : db_accounts (ca_db s') = db_accounts (ca_db s)
}.
#[export] Instance untraded_refl : Reflexive untraded.
Proof. by split. Qed.
#[export] Instance untraded_trans : Transitive untraded.
Proof. intros x y z [] []. split; congruence. Qed.

Lemma untraded_read {A} (m : M CopierApp A) : (forall s, exec m s = s) -> respects untraded m.
Proof. intros H s. rewrite H. reflexivity. Qed.
Lemma untraded_log cat sev p a o : respects untraded (a_log cat sev p a o).
Proof. by intros s. Qed.
Lemma untraded_memory (f : CopierApp -> CopierApp) :
  (forall s, ca_service (f s) = ca_service s) -> respects untraded (modify f).
Proof. intros H. apply respects_modify. intros s. unfold ca_db. split; unfold ca_db; by rewrite H. Qed.
Lemma untraded_upd a f : respects untraded (upd_state a f).
Proof. by apply untraded_memory. Qed.

Lemma untraded_symbols a : respects untraded (symbols_by_name a).
Proof.
  apply respects_bind; [apply _|by intros s|]. intros st. destruct (as_symbols st); [apply respects_ret, _|].
  apply respects_bind; [apply _|intros s; by rewrite on_tables_read|]. intros syms.
  apply respects_bind; [apply _|apply untraded_upd|intros; apply respects_ret, _].
Qed.

Lemma untraded_symbol a n : respects untraded (symbol_by_name a n).
Proof. apply respects_bind; [apply _|apply untraded_symbols|intros; apply respects_ret, _]. Qed.

Lemma untraded_order_symbol a n : respects untraded (order_symbol a n).
Proof.
  unfold order_symbol. apply respects_bind; [apply _|apply untraded_symbol|]. intros [i|]; [apply respects_ret, _|].
  apply respects_bind; [apply _|intros s; by rewrite on_tables_read|]. intros aliases.
  apply respects_bind; [apply _| |intros [r|]; [apply respects_ret, _|apply respects_raise, _]].
  destruct (od_get n aliases); [|apply respects_ret, _].
  apply respects_bind; [apply _|apply untraded_symbol|intros; apply respects_ret, _].
Qed.

Lemma query_context_read view a s : exec (_query_context view a) s = s.
Proof.
  unfold _query_context, exec, bind. rewrite account_row_run. destruct (find_account a (db_accounts (ca_db s))) as [acct|]; [|done].
  destruct (is_mt5 acct); [by destruct s|]. destruct (cv_client view a) as [[]|]; [done|by destruct s|done].
Qed.

(** ** Volumes *)

(** [volume] is [v0] floored to the symbol's step, and no less than its minimum. *)
Definition floored (info : SymbolInfo) (v0 volume : Z) : Prop :=
  min_volume info <= volume /\ volume = (if step_volume info =? 0 then v0 else v0 - v0 mod step_volume info).

Lemma floored_step info v0 volume :
  floored info v0 volume -> 0 < step_volume info ->
  (step_volume info | volume) /\ v0 - step_volume info < volume <= v0.
Proof.
  intros [_ ->] Hs. destruct (Z.eqb_spec (step_volume info) 0); [lia|].
  pose proof (Z.mod_pos_bound v0 (step_volume info) Hs). split; [|lia].
  exists (v0 / step_volume info). pose proof (Z.div_mod v0 (step_volume info)). lia.
Qed.

Lemma order_volume_floored info symbol l volume :
  order_volume info symbol l = Ok volume -> 0 < volume /\ exists v0, centilots l = Ok v0 /\ floored info v0 volume.
Proof.
  unfold order_volume. destruct (centilots l) as [v0|]; [|done]. simpl. case_match eqn:E; [done|]. intros [= <-].
  bsimp. split; [lia|]. exists v0. split; [done|]. by split.
Qed.
Lemma ctrader_volume_floored info symbol l volume :
  ctrader_volume info symbol l = Ok volume ->
  exists v0, json_int (JFloat (fmul l (f_of_Z (lot_size info)))) = Ok v0 /\ floored info v0 volume.
Proof.
  unfold ctrader_volume. destruct (json_int _) as [v0|]; [|done]. simpl. case_match eqn:E; [done|]. intros [= <-].
  bsimp. exists v0. split; [done|]. by split.
Qed.

(** ** Manual orders *)

(** A queued command *)
Lemma a_enqueue_run a o kind p s :
  exists s' c i, a_enqueue a o kind p s = (Ok i, s') /\ db_commands (ca_db s') = db_commands (ca_db s) ++ [c] /\
    e_sends (sv_engine (ca_service s')) = e_sends (sv_engine (ca_service s)) /\ ca_accounts s' = ca_accounts s /\
    c_account_id c = a /\ c_status c = Queued /\ c_kind c = kind /\ c_payload c = p /\ c_client_order_id c = None.
Proof. do 3 eexists. split; [reflexivity|]. repeat split. Qed.

Lemma ends_read {S A} (m : M S A) (Q : result A -> S -> Prop) s :
  (forall s, exec m s = s) -> (forall r, value m s = r -> Q r s) -> ends m Q s.
Proof. intros Hm HQ. unfold ends. rewrite Hm. by apply HQ. Qed.

(** ** What an order asks for *)

(** A field of the request, in upper case *)
Definition asked (field : string) (params : payload) : string :=
  str_upper (json_str (default (JStr "") (od_get field params))).

(** The account, side, type and size a request asks for; the size finite, above
    zero and within the fat-finger limit [max] *)
Record asks (max : float64) (params : payload) (form : order_form) : Prop := {
  ask_account : json_int (get params "account_id") = Ok (of_account form);
  ask_side : of_side form = asked "side" params /\ of_side form ∈ ["BUY"; "SELL"];
  ask_type : of_type form = asked "order_type" params /\ of_type form ∈ ["MARKET"; "LIMIT"; "STOP"];
  ask_lots : json_float (get params "volume_lots") = Ok (of_lots form);
  ask_finite : is_finite (of_lots form) = true;
  ask_positive : fleb (of_lots form) fzero = false;
  ask_within : fltb max (of_lots form) = false
}.

Lemma order_lots_spec max params l :
  order_lots max params = Ok l ->
  json_float (get params "volume_lots") = Ok l /\ is_finite l = true /\ fleb l fzero = false /\
  fltb (_max_manual_lots max) l = false.
Proof.
  unfold order_lots, float_or. destruct (json_float (get params "volume_lots")) as [x|[]]; try done. simpl.
  destruct (is_finite x) eqn:E1; [|done]. destruct (fleb x fzero) eqn:E2; [done|].
  destruct (fltb _ x) eqn:E3; [done|]. by intros [= <-].
Qed.

Lemma order_form_asks max params form : parse_order_form max params = Ok form -> asks (_max_manual_lots max) params form.
Proof.
  intros H. unfold parse_order_form in H. destruct (get params "account_id") eqn:Ea; [done|..].
  all: apply rbind_ok in H as (a & Ha & H); destruct (negb _) eqn:E1 in H; [done|]; destruct (negb _) eqn:E2 in H; [done|];
    apply rbind_ok in H as (size & Hsize & H); destruct (_ && _) in H; [done|]; destruct (_ && _) in H; [done|];
    do 4 apply rbind_ok in H as (? & _ & H); injection H as <-;
    apply order_lots_spec in Hsize as (? & ? & ? & ?); bsimp; split; cbn [of_account of_side of_type of_lots]; rewrite ?Ea; by split || done.
Qed.

(** ** The symbol it names *)

(** What the bridge knows of an account's symbols: in memory, or in the table *)
Definition known_symbols (s : CopierApp) (a : Z) : list (string * SymbolInfo) :=
  default (default [] (t_symbol_cache (ca_tables s) !! a)) (ca_accounts s !! a ≫= as_symbols).

Definition known_aliases (s : CopierApp) (a : Z) : list (string * string) :=
  (fun r => (r.1, r.2.1)) <$> default [] (t_aliases (ca_tables s) !! a).

(** [n] names the broker's symbol [sym]: directly, or as the canonical name of an alias *)
Definition names_symbol (s : CopierApp) (a : Z) (n sym : string) (info : SymbolInfo) : Prop :=
  od_get sym (known_symbols s a) = Some info /\
  (sym = n \/ od_get n (known_symbols s a) = None /\ od_get n (known_aliases s a) = Some sym).

Lemma symbols_by_name_value a s :
  exists s', symbols_by_name a s = (Ok (known_symbols s a), s') /\ ca_tables s' = ca_tables s /\
    known_symbols s' a = known_symbols s a.
Proof.
  unfold symbols_by_name, _state, known_symbols, bind. cbn [default].
  destruct (ca_accounts s !! a) as [st|] eqn:E; cbn [default option_bind mbind];
    [destruct (as_symbols st) as [l|] eqn:El|]; destruct s as [? ? ? ? ? ?]; (eexists; split; [simpl; rewrite ?El; reflexivity|]; split; [done|]);
    simpl in *; rewrite ?lookup_alter_eq, lookup_insert_eq; simpl; by rewrite ?El.
Qed.

Lemma symbol_by_name_value a n s :
  exists s', symbol_by_name a n s = (Ok (od_get n (known_symbols s a)), s') /\ ca_tables s' = ca_tables s /\
    known_symbols s' a = known_symbols s a.
Proof.
  destruct (symbols_by_name_value a s) as (s' & E & H). exists s'. split; [|done].
  unfold symbol_by_name, bind. by rewrite E.
Qed.

Lemma order_symbol_names a n s sym info s' :
  order_symbol a n s = (Ok (sym, info), s') -> names_symbol s a n sym info.
Proof.
  unfold order_symbol, names_symbol. destruct (symbol_by_name_value a n s) as (s1 & E1 & Ht1 & Hk1).
  unfold bind at 1. rewrite E1. destruct (od_get n (known_symbols s a)) as [i|] eqn:En; [intros [= <- <- _]; by split; [|left]|].
  unfold bind at 1. destruct (on_tables (load_symbol_aliases a) s1) as [r s2] eqn:E2.
  assert (r = Ok (known_aliases s a) /\ s2 = s1) as [-> ->].
  { unfold known_aliases. rewrite <- Ht1. destruct s1. by injection E2 as <- <-. }
  destruct (od_get n (known_aliases s a)) as [b|] eqn:Eb; [|done]. unfold bind at 1 2.
  destruct (symbol_by_name_value a b s1) as (s3 & E3 & _). rewrite E3, Hk1. simpl.
  destruct (od_get b (known_symbols s a)) as [i|] eqn:Ei; [|by simpl]. intros [= <- <- _].
  split; [done|]. by right.
Qed.

(** The command of an order: a market order carries its side, a pending one its type *)
Definition commands_order (form : order_form) (sym : string) (kind : cmd_kind) (p : payload) : Prop :=
  od_get "symbol" p = Some (JStr sym) /\ od_get "comment" p = Some (JStr MANUAL_ORDER_LABEL) /\
  if bool_decide (of_type form = "MARKET")
  then kind = KOpen /\ od_get "side" p = Some (JStr (of_side form))
  else kind = KPlacePending /\ od_get "type" p = Some (JStr (of_side form +:+ "_" +:+ of_type form)).

(** The request of an order *)
Definition requests_order (form : order_form) (params : payload) (r : ProtoOANewOrderReq) : Prop :=
  no_ctidTraderAccountId r = of_account form /\ no_label r = MANUAL_ORDER_LABEL /\ no_clientOrderId r = "" /\
  (no_tradeSide r = TS_BUY <-> of_side form = "BUY") /\
  (no_orderType r = OT_MARKET <-> of_type form = "MARKET") /\ (no_orderType r = OT_LIMIT <-> of_type form = "LIMIT") /\
  optional_float (get params "limit_price") = Ok (no_limitPrice r) /\
  optional_float (get params "stop_price") = Ok (no_stopPrice r).

(** What went out, at the end of an order that was accepted: one command on the
    lane, or one request to cTrader, for the symbol it names and the volume of its
    size in that symbol's own terms *)
Inductive order_out (form : order_form) (params : payload) (s s' : CopierApp) : Prop :=
  | out_command c sym info v0 volume :
      names_symbol s (of_account form) (json_str (get params "symbol")) sym info ->
      db_commands (ca_db s') = db_commands (ca_db s) ++ [c] ->
      e_sends (sv_engine (ca_service s')) = e_sends (sv_engine (ca_service s)) ->
      c_account_id c = of_account form -> c_client_order_id c = None ->
      commands_order form sym (c_kind c) (c_payload c) ->
      od_get "lots" (c_payload c) = Some (JFloat (lots volume)) ->
      centilots (of_lots form) = Ok v0 -> 0 < volume -> floored info v0 volume -> order_out form params s s'
  | out_send r n info v0 :
      get params "symbol" = JStr n ->
      od_get n (default [] (t_symbol_cache (ca_tables s) !! of_account form)) = Some info ->
      e_sends (sv_engine (ca_service s')) = e_sends (sv_engine (ca_service s)) ++
        [{| st_account := of_account form; st_req := NewOrderReq r; st_attempt := 0; st_delay_ms := 0 |}] ->
      db_commands (ca_db s') = db_commands (ca_db s) ->
      requests_order form params r -> no_symbolId r = symbol_id info ->
      json_int (JFloat (fmul (of_lots form) (f_of_Z (lot_size info)))) = Ok v0 ->
      floored info v0 (Dispatch.no_volume r) -> order_out form params s s'.

Lemma order_command_spec form sym d volume lp sp sl tp kind p :
  order_command sym (of_side form) (of_type form) d volume lp sp sl tp = Ok (kind, p) ->
  commands_order form sym kind p /\ od_get "lots" p = Some (JFloat (lots volume)).
Proof.
  unfold order_command, commands_order. destruct (bool_decide (of_type form = "MARKET")); [by intros [= <- <-]|].
  intros Hr. apply rbind_ok in Hr as (x & _ & Hr). apply rbind_ok in Hr as (y & _ & Hr). by injection Hr as <- <-.
Qed.

Lemma ctrader_order_spec form params sym volume p req :
  of_type form ∈ ["MARKET"; "LIMIT"; "STOP"] -> ctrader_order form params sym volume p = Ok req ->
  exists r, req = NewOrderReq r /\ requests_order form params r /\ no_symbolId r = symbol_id sym /\ Dispatch.no_volume r = volume.
Proof.
  intros Ht Hr. apply rbind_ok in Hr as (lp & Hl & Hr). apply rbind_ok in Hr as (sp & Hs & Hr). injection Hr as <-.
  eexists. split; [reflexivity|]. unfold requests_order. cbn -[String.eqb]. rewrite Hl, Hs. unfold order_type_of.
  split_and!; try done; try (by case_bool_decide);
    rewrite !elem_of_cons, elem_of_nil in Ht; destruct Ht as [->|[->|[->|[]]]]; done.
Qed.

(** The end of an order, against the state it began in *)
Definition order_ends (form : order_form) (params : payload) (s0 : CopierApp) (r : result payload) (s : CopierApp) : Prop :=
  match r with Ok _ => order_out form params s0 s | Raise _ => untraded s0 s end.

Lemma lane_order_ends form params o lp sp sl tp s :
  ends (lane_place_order (of_account form) o (json_str (get params "symbol")) (of_side form) (of_type form) (of_lots form) lp sp sl tp)
    (order_ends form params s) s.
Proof.
  unfold lane_place_order. set (a := of_account form). apply ends_bind.
  pose proof (untraded_order_symbol a (json_str (get params "symbol")) s) as H1. unfold exec in H1. unfold ends at 1, value, exec.
  destruct (order_symbol a (json_str (get params "symbol")) s) as [[[sym info]|e] s1] eqn:En; simpl in H1 |- *; [|done].
  apply order_symbol_names in En.
  apply ends_bind, ends_lift. destruct (order_volume info sym (of_lots form)) as [volume|e] eqn:Ev; [|done].
  apply ends_bind, ends_lift. destruct (_rounded sl (digits info)) as [sl'|e]; [|done].
  apply ends_bind, ends_lift. destruct (_rounded tp (digits info)) as [tp'|e]; [|done].
  apply ends_bind, ends_lift. destruct (order_command _ _ _ _ _ _ _ _ _) as [[kind p]|e] eqn:Ec; [|done].
  apply order_command_spec in Ec as [Hk Hp]. apply order_volume_floored in Ev as (Hpos & v0 & Hv & Hf).
  destruct (a_enqueue_run a o kind p s1) as (s2 & c & i & E & Hc & Hs & _ & Ha & _ & Hkind & Hpay & Hcoid).
  apply ends_bind. unfold ends at 1, value, exec. rewrite E. simpl fst. cbv iota. simpl snd.
  apply ends_bind. eapply ends_respects; [apply untraded_log|]. intros [u|e] s3 Hlog [Hc3 Hs3 _ _]; [|done].
  destruct H1 as [Hc1 Hs1 _ _]. unfold ends, value, exec. simpl.
  apply (out_command form params _ _ c sym info v0 volume); rewrite ?Hkind, ?Hpay; try done; congruence.
Qed.

(** A request handed to the dispatcher *)
Lemma send_request_run a req s :
  exists s', send_request a req s = (Ok tt, s') /\ db_commands (ca_db s') = db_commands (ca_db s) /\
    e_sends (sv_engine (ca_service s')) = e_sends (sv_engine (ca_service s)) ++
      [{| st_account := a; st_req := req; st_attempt := 0; st_delay_ms := 0 |}].
Proof. eexists. split; [reflexivity|]. done. Qed.

Lemma ctrader_order_ends view form o params s :
  of_type form ∈ ["MARKET"; "LIMIT"; "STOP"] ->
  (forall n info, od_get n (default [] (t_symbol_cache (ca_tables s) !! of_account form)) = Some info -> lot_size info <> 0) ->
  ends (place_ctrader_order view form o params) (order_ends form params s) s.
Proof.
  intros Ht Hlot. unfold place_ctrader_order. apply ends_bind, ends_read; [by intros []|]. intros r Hr.
  assert (r = Ok (default [] (t_symbol_cache (ca_tables s) !! of_account form))) as -> by (by destruct s).
  apply ends_bind, ends_lift. destruct (find_symbol _ _) as [[sym|]|e] eqn:Ef; [|done|done].
  assert (exists n, get params "symbol" = JStr n /\
    od_get n (default [] (t_symbol_cache (ca_tables s) !! of_account form)) = Some sym) as (n & Hn & Hsym).
  { unfold find_symbol in Ef. destruct (get params "symbol"); simplify_eq/=. by eexists. }
  apply ends_bind, ends_lift. destruct (ctrader_volume _ _ _) as [volume|e] eqn:Ev; [|done].
  apply ctrader_volume_floored in Ev as (v0 & Hv & Hf).
  apply ends_bind, ends_lift. destruct (protect_order _ _ _ _) as [p|e]; [|done].
  apply ends_bind, ends_lift. destruct (ctrader_order _ _ _ _ _) as [req|e] eqn:Er; [|done].
  apply ctrader_order_spec in Er as (r & -> & Hreq & Hid & Hvol); [|done].
  destruct (send_request_run (of_account form) (NewOrderReq r) s) as (s1 & E & Hc & Hs).
  apply ends_bind. unfold ends at 1, value, exec. rewrite E. simpl fst. cbv iota. simpl snd. apply ends_bind, ends_lift.
  destruct (int_truediv volume (lot_size sym)) as [x|] eqn:Ex;
    [|exfalso; apply (Hlot n sym Hsym); clear -Ex; destruct volume, (lot_size sym); simpl in Ex; try done; by repeat case_match].
  apply ends_bind. eapply ends_respects; [apply untraded_log|]. intros [u|e] s3 Hlog [Hc3 Hs3 _ _]; [|done].
  unfold ends, value, exec. simpl.
  by apply (out_send form params _ _ r n sym v0); try rewrite Hvol; try rewrite Hs3, Hs; try congruence.
Qed.

Lemma org_for_account_value a s :
  value (a_repo (org_for_account a)) s = Ok (acc_org_id <$> find_account a (db_accounts (ca_db s))).
Proof. by destruct s as [[[]]]. Qed.
Lemma get_org_read_app o s : exec (a_repo (get_org o)) s = s.
Proof. apply a_repo_read. unfold exec, get_org, bind, gets. by case_match. Qed.
Lemma get_org_value o s org :
  value (a_repo (get_org o)) s = Ok org -> List.find (fun r => o =? Db.org_id r) (db_orgs (ca_db s)) = Some org.
Proof.
  destruct s as [[[d se] ? ? ? ? ?]]. unfold value, a_repo, on_service, on_repo, on_engine, on_db, get_org, bind, gets, ca_db. simpl.
  destruct (List.find _ _); simpl; [by intros [= ->]|done].
Qed.

(** What an order promises: accepted past every guard, or nothing traded *)
Definition order_contract (max : string) (params : payload) (s : CopierApp) (r : result payload) (s' : CopierApp) : Prop :=
  match r with
  | Raise _ => db_commands (ca_db s') = db_commands (ca_db s) /\
               e_sends (sv_engine (ca_service s')) = e_sends (sv_engine (ca_service s))
  | Ok _ => exists form acct org,
      asks (_max_manual_lots max) params form /\
      find_account (of_account form) (db_accounts (ca_db s)) = Some acct /\
      List.find (fun r => acc_org_id acct =? Db.org_id r) (db_orgs (ca_db s)) = Some org /\
      org_dry_run org = false /\ order_out form params s s'
  end.

(** C26: a manual order passes every guard or trades nothing.  An order that is
    accepted has a size above zero and within the fat-finger limit, names an
    account of a workspace that is not in dry run, and sends exactly one order
    for it -- on the account, side and type the request asks for, for the symbol
    the account's own symbol table has under the name (or, on the lane, under its
    alias), with the volume of the size floored to that symbol's step and at least
    its minimum; an order that is refused, wherever it is refused, queues and
    sends nothing. *)
Theorem manual_order_guarded routing view max params s :
  (forall a n info, od_get n (default [] (t_symbol_cache (ca_tables s) !! a)) = Some info -> lot_size info <> 0) ->
  ends (place_order routing view max params) (order_contract max params s) s.
Proof.
  intros Hlot. unfold place_order. apply ends_bind, ends_lift.
  destruct (parse_order_form max params) as [form|e] eqn:Ef; [|done].
  apply ends_bind, ends_read; [apply query_context_read|]. intros [symbols|e] Hq; [|done].
  assert (exists acct, find_account (of_account form) (db_accounts (ca_db s)) = Some acct) as [acct Ha].
  { unfold value, _query_context, bind in Hq. rewrite account_row_run in Hq. destruct (find_account _ _); [by eexists|done]. }
  apply ends_bind, ends_read; [intros s0; by apply a_repo_read|]. intros r Hr.
  rewrite org_for_account_value, Ha in Hr. simpl in Hr. subst r.
  apply ends_bind, ends_bind, ends_read; [apply get_org_read_app|]. intros [org|e] Ho; [|done]. apply get_org_value in Ho.
  unfold ends at 1. cbn [value exec ret fst snd]. destruct (org_dry_run org) eqn:Ed; [done|].
  assert (forall m : M CopierApp payload, ends m (order_ends form params s) s ->
    ends m (order_contract max params s) s) as Hend.
  { intros m H. unfold ends, order_ends, order_contract in *. destruct (value m s); [|by destruct H].
    exists form, acct, org. by split; [apply order_form_asks|]. }
  pose proof (ask_type _ _ _ (order_form_asks _ _ _ Ef)) as [_ Htype]. apply Hend. destruct (_is_mt5 routing (of_account form)).
  - apply ends_bind, ends_lift. destruct (validated_price "stop_loss" _) as [sl|e]; [|done].
    apply ends_bind, ends_lift. destruct (validated_price "take_profit" _) as [tp|e]; [|done].
    apply lane_order_ends.
  - apply ctrader_order_ends; [done|]. by intros n info H; eapply Hlot.
Qed.

Definition example_order : payload :=
  [("account_id", JInt 11); ("side", JStr "buy"); ("order_type", JStr "market"); ("symbol", JStr "EURUSD");
   ("volume_lots", JFloat (fdiv (f_of_Z 1) (f_of_Z 4)))].

Definition no_broker : ctrader_view :=
  {| cv_client := fun _ => None; cv_answer := fun _ _ => Raise (QueryFailed "no broker"); cv_quote := fun _ _ => (None, None);
     cv_positions := fun _ => [] |}.

Lemma manual_order_guarded_witness :
  (forall a n info, od_get n (default [] (t_symbol_cache (ca_tables desk_ready) !! a)) = Some info -> lot_size info <> 0) /\
  isOk (value (place_order desk_routing no_broker "10" example_order) desk_ready) = true /\
  ends (place_order desk_routing no_broker "10" example_order) (order_contract "10" example_order desk_ready) desk_ready.
Proof.
  assert (forall a n info, od_get n (default [] (t_symbol_cache (ca_tables desk_ready) !! a)) = Some info -> lot_size info <> 0) as H.
  { assert (map_Forall (fun _ l => Forall (fun p : string * SymbolInfo => lot_size p.2 <> 0) l) (t_symbol_cache (ca_tables desk_ready))) as Hf
      by (apply (bool_decide_unpack _); vm_compute; exact I).
    intros a n info Hg. destruct (t_symbol_cache (ca_tables desk_ready) !! a) as [l|] eqn:E; [|done]. simpl in Hg.
    specialize (Hf a l E). apply od_get_Some_in in Hg. rewrite Forall_forall in Hf. by apply (Hf _ Hg). }
  split; [exact H|]. split; [vm_compute; reflexivity|].
  exact (manual_order_guarded desk_routing no_broker "10" example_order desk_ready H).
Defined.
