(* ===== verification/KillSwitch.v ===== *)
(** * The kill switch of [copier/main.py]

    [close_all] flattens one account or all of an org, and [_flatten_account]
    closes what the broker reports and asks again.  The web API writes an org's
    settings to the database while this runs, so the kill switch is a program
    whose steps are its statements ([Prog]); the accounts of an org are
    flattened concurrently, [schedule] being the order of their turns.

    Left out: the flatten's own token bucket (a send waits in the engine's list
    anyway), the grace before copying resumes, the log file, and the second try
    of a restore whose statement fails. *)

From S2P Require Import Prelude PyStr PyFloat Models Db Repo Protocol Wire Routing.
From S2P Require Import Outbox Dispatch Service Reconcile Ingress Symbols Deals Mt5Db Registry Bridge Prog Lane Operator.

(** ** One account *)

(** [str(e)]; the text of a database error is its class. *)
Definition failure_text (e : exn) : string :=
  match e with
  | ValueError m | RuntimeError m | ZeroDivisionError m | OverflowError m | TypeError m | AttributeError m
  | MappingNotFound m | ProtocolError m | LedgerError m | QueryFailed m | DatabaseError m => m
  | KeyError m => py_repr m
  | _ => exn_name e
  end.

Definition summary_json (s : FlattenSummary) : json :=
  JObj [("account_id", JInt (fs_account_id s)); ("positions_closed", JInt (fs_positions_closed s));
        ("orders_cancelled", JInt (fs_orders_cancelled s));
        ("positions_remaining", match fs_positions_remaining s with Some l => JTickets l | None => JNull end);
        ("orders_remaining", match fs_orders_remaining s with Some l => JTickets l | None => JNull end);
        ("rounds", JInt (fs_rounds s)); ("error", JOptStr (fs_error s))].

Section kill_switch.
Context (routing : OrgRouting) (view : ctrader_view).

(** The closes and cancels of a round, in one turn *)
Definition send_round (account_id : Z) (rec : BookAnswer) : M CopierApp unit :=
  for_each (fun p => send_request account_id (ClosePositionReq account_id (bp_position_id p) (bp_volume p)))
    (ba_positions rec) ;;;
  for_each (fun o => send_request account_id (CancelOrderReq account_id o)) (ba_orders rec).

Definition answered_book (rec : BookAnswer) : book := (bp_position_id <$> ba_positions rec, ba_orders rec).

(** [n] counts the requests for the book. *)
Fixpoint account_rounds (account_id : Z) (n left : nat) (first : option book) (used : Z)
    : program (book * book * Z) :=
  let* rec := of_result (reconcile_book view n account_id) in
  let b := answered_book rec in
  match left with
  | O => Ret (default ([], []) first, b, used)
  | Datatypes.S left' =>
      let first := match first with Some f => Some f | None => Some b end in
      match b with
      | ([], []) => Ret (default ([], []) first, b, used)
      | _ => stmt (send_round account_id rec) >>> account_rounds account_id (Datatypes.S n) left' first (used + 1)
      end
  end.

Definition _flatten_account (account_id : Z) : program FlattenSummary :=
  if _is_mt5 routing account_id then flatten account_id
  else
    stmt (_query_context view account_id) >>>
    let* outcome := account_rounds account_id 0 FLATTEN_ROUNDS None 0 in
    let s := flatten_summary account_id outcome in
    stmt (a_log "control" (match fs_error s with Some _ => Error | None => Warning end) (flatten_event s)
            (Some account_id) None) >>>
    Ret s.

Definition failed_flatten (account_id : Z) (e : exn) : FlattenSummary :=
  {| fs_account_id := account_id; fs_positions_closed := 0; fs_orders_cancelled := 0;
     fs_positions_remaining := None; fs_orders_remaining := None; fs_rounds := 0;
     fs_error := Some (failure_text e) |}.

Definition _flatten_account_safely (account_id : Z) : program FlattenSummary :=
  pcatch (_flatten_account account_id) (fun e => Ret (failed_flatten account_id e)).

(** ** One org *)

Definition _restore_copying_after_flatten (org_id guard_version : Z) : program unit :=
  let* restored := stmt (a_repo (restore_copying_if_unchanged org_id guard_version)) in
  if restored : bool then Ret tt
  else stmt (a_log "control" Warning
               [("action", JStr "close_all_restore_skipped");
                ("detail", JStr ("settings were changed during the flatten; " +:+
                                 "leaving them as the newer write put them"))] None (Some org_id)).

Definition flatten_targets (org_id : Z) (accounts : list AccountRow) : list Z :=
  acc_account_id <$> List.filter (fun a => (acc_org_id a =? org_id) && acc_enabled a &&
                                           negb (bool_decide (acc_status a = StPaused))) accounts.

Definition flatten_all (schedule : list nat) (org_id : Z) : program (list FlattenSummary) :=
  let* accounts := stmt (a_repo load_accounts) in
  gather schedule (_flatten_account_safely <$> flatten_targets org_id accounts).

(** After the pause: the [try] with its [finally] *)
Definition flatten_org (schedule : list nat) (org_id : Z) (was_copying : bool) (guard_version : Z)
    : program (list FlattenSummary) :=
  pfinally (flatten_all schedule org_id)
    (if was_copying then _restore_copying_after_flatten org_id guard_version else Ret tt).

(** Whether copying is off, as it stands; on a failed read, the safe claim *)
Definition copying_paused (org_id : Z) : program bool :=
  pcatch (let* org := stmt (a_repo (get_org org_id)) in Ret (negb (org_copying_enabled org))) (fun _ => Ret true).

Record CloseAllResult := { cr_paused : bool; cr_accounts : list FlattenSummary }.

Definition log_kill_switch (org_id : Z) (account_id : option Z) (r : CloseAllResult) : program CloseAllResult :=
  stmt (a_log "control" Warning
    [("action", JStr "kill_switch"); ("org_wide", JBool (bool_decide (account_id = None)));
     ("copying_paused", JBool (cr_paused r)); ("accounts", JList (summary_json <$> cr_accounts r))]
    account_id (Some org_id)) >>>
  Ret r.

Definition close_org (schedule : list nat) (org_id : Z) (org : OrgRow) : program CloseAllResult :=
  let was_copying := org_copying_enabled org in
  stmt (a_repo (set_org_setting org_id (SetCopyingEnabled false))) >>>
  let* guard_version := stmt (a_repo (get_org_settings_version org_id)) in
  let* results := flatten_org schedule org_id was_copying guard_version in
  let* paused := copying_paused org_id in
  log_kill_switch org_id None {| cr_paused := paused; cr_accounts := results |}.

Definition close_all (schedule : list nat) (org_id : Z) (account_id : option Z) : program CloseAllResult :=
  let* org := stmt (a_repo (get_org org_id)) in
  match account_id with
  | Some a =>
      stmt (_require_account_in_org org_id a) >>>
      let* summary := _flatten_account_safely a in
      log_kill_switch org_id account_id {| cr_paused := false; cr_accounts := [summary] |}
  | None => close_org schedule org_id org
  end.
End kill_switch.
