(* ===== verification/KillSwitchFacts.v ===== *)
(** * Facts about the kill switch

    What [close_all] may do, what it does to an org's copying switch among
    concurrent writes, and what a flatten's answer says. *)

From S2P Require Import Prelude PyStr PyFloat Models Db Repo RepoFacts Protocol Wire Routing.
From S2P Require Import Outbox Dispatch DispatchFacts Service Reconcile Ingress Symbols Deals Mt5Db Registry Bridge BridgeDemo BridgeFacts Prog Lane Operator KillSwitch.

(** ** It only closes *)

Definition closes (c : command_row) : bool := match c_kind c with KClose | KCancelPending => true | _ => false end.
Definition closing_request (r : request) : bool :=
  match r with ClosePositionReq _ _ _ | CancelOrderReq _ _ => true | _ => false end.
Definition request_account (r : request) : Z :=
  match r with
  | NewOrderReq o => no_ctidTraderAccountId o
  | ClosePositionReq a _ _ | AmendPositionSLTPReq a _ _ _ | CancelOrderReq a _ => a
  | AmendOrderReq o => am_ctidTraderAccountId o
  end.

Section closing.
Context (P : Z -> bool) (org : Z).

(** New commands and requests close or cancel on accounts of [P]; mappings,
    accounts and other orgs stay, and no org's dry-run flag changes. *)
Record closing_db (s s' : db) : Prop := {
  cg_cmds : exists new, db_commands s' = db_commands s ++ new /\
              Forall (fun c => P (c_account_id c) = true /\ closes c = true) new;
  cg_mappings : db_mappings s' = db_mappings s;
  cg_accounts : db_accounts s' = db_accounts s;
  cg_orgs : List.filter (fun o => negb (Db.org_id o =? org)) (db_orgs s') =
            List.filter (fun o => negb (Db.org_id o =? org)) (db_orgs s);
  cg_dry : org_dry_run <$> db_orgs s' = org_dry_run <$> db_orgs s
}.
Definition closing (s s' : CopierApp) : Prop :=
  closing_db (ca_db s) (ca_db s') /\
  exists new, e_sends (sv_engine (ca_service s')) = e_sends (sv_engine (ca_service s)) ++ new /\
    Forall (fun t => P (st_account t) = true /\ closing_request (st_req t) = true) new.

#[export] Instance closing_db_refl : Reflexive closing_db.
Proof. intros s. split; try done. apply extends_refl. Qed.
#[export] Instance closing_db_trans : Transitive closing_db.
Proof. intros x y z [] []. split; try congruence. by eapply extends_trans. Qed.
#[export] Instance closing_refl : Reflexive closing.
Proof. intros s. split; [reflexivity|apply extends_refl]. Qed.
#[export] Instance closing_trans : Transitive closing.
Proof. intros x y z [D1 S1] [D2 S2]. split; [by etrans|by eapply extends_trans]. Qed.

Lemma closing_repo {A} (m : M db A) : respects closing_db m -> respects closing (a_repo m).
Proof.
  intros H s. specialize (H (ca_db s)). unfold exec, a_repo, on_service, on_repo, on_engine, on_db, ca_db in *.
  destruct (m (e_db (sv_engine (ca_service s)))) as [r d]. split; [exact H|apply extends_refl].
Qed.
Lemma closing_log cat sev p a o : respects closing (a_log cat sev p a o).
Proof. apply closing_repo. intros s. split; try done. apply extends_refl. Qed.
Lemma closing_read {A} (f : CopierApp -> A) : respects closing (gets f).
Proof. apply respects_gets, _. Qed.
Lemma closing_repo_read {A} (f : db -> A) : respects closing (a_repo (gets f)).
Proof. apply closing_repo, respects_gets, _. Qed.

Lemma closing_enqueue a o kind p :
  P a = true -> match kind with KClose | KCancelPending => True | _ => False end ->
  respects closing (a_enqueue a o kind p).
Proof.
  intros Ha Hk. apply closing_repo. intros s. split; try done. eexists. split; [reflexivity|].
  repeat constructor; [done|]. by destruct kind.
Qed.

Lemma closing_send a req :
  P a = true -> closing_request req = true -> respects closing (send_request a req).
Proof.
  intros Ha Hr s. split; [reflexivity|]. eexists. split; [reflexivity|]. repeat constructor; done.
Qed.

(** One step through a computation *)
Ltac closing_step :=
  match goal with
  | |- respects _ (ret _) => apply respects_ret; apply _
  | |- respects _ (raise _) => apply respects_raise; apply _
  | |- respects _ (gets _) => apply closing_read
  | |- respects _ (lift_result _) => apply respects_lift; apply _
  | |- respects _ (a_log _ _ _ _ _) => apply closing_log
  | |- respects _ (a_repo (gets _)) => apply closing_repo_read
  | |- respects _ (a_enqueue _ _ _ _) => by apply closing_enqueue
  | |- respects _ (send_request _ _) => by apply closing_send
  | |- respects _ (for_each _ _) => apply respects_for_each; [apply _|apply _|intros]
  | |- respects _ (bind _ _) => apply respects_bind; [apply _| |intro]
  | |- respects _ (match ?x with _ => _ end) => destruct x
  | |- respects _ (on_tables (load_symbol_cache _)) => intros s; rewrite on_tables_read; [reflexivity|done]
  end.
Ltac closing_steps := repeat closing_step.

Context (a : Z) (Ha : P a = true).

Lemma flatten_start_closing : respects closing (flatten_start a).
Proof. unfold flatten_start, _org, org_for_account, report. closing_steps. Qed.
Lemma current_book_closing : respects closing (current_book a).
Proof. unfold current_book, report. closing_steps. Qed.
Lemma flatten_round_closing o : respects closing (flatten_round a o).
Proof.
  unfold flatten_round, mt5_commands_open, enqueue_missing. closing_step; [apply current_book_closing|]. closing_steps.
Qed.
Lemma send_round_closing rec : respects closing (send_round a rec).
Proof. unfold send_round. closing_steps. Qed.
Lemma query_context_closing view : respects closing (_query_context view a).
Proof. unfold _query_context, _account_row, load_accounts. closing_steps. Qed.

(** *** Programs *)

(** Every account of the org is one of [P]'s. *)
Definition covers (s : CopierApp) : Prop :=
  forall r, r ∈ db_accounts (ca_db s) -> acc_org_id r = org -> P (acc_account_id r) = true.
Abbreviation mk := (makes covers closing).

Lemma mk_stmt {A} (m : M CopierApp A) : respects closing m -> mk (stmt m).
Proof. intros H. apply makes_stmt. intros s _. apply H. Qed.

Lemma flatten_rounds_makes o left first used : mk (flatten_rounds a o left first used).
Proof.
  revert first used. induction left as [|left IH]; intros first used; cbn [flatten_rounds].
  - apply makes_bind; [apply mk_stmt, current_book_closing|done].
  - apply makes_bind; [apply mk_stmt, flatten_round_closing|]. intros [[|] [|]]; [done|apply IH..].
Qed.

Lemma account_rounds_makes view n left first used : mk (account_rounds view a n left first used).
Proof.
  revert n first used. induction left as [|left IH]; intros n first used; cbn [account_rounds];
    (apply makes_bind; [apply makes_of_result|]; intros rec); [done|].
  destruct (answered_book rec) as [[|] [|]]; [done|..];
    (apply makes_bind; [apply mk_stmt, send_round_closing|intros _; apply IH]).
Qed.

Lemma flatten_account_makes routing view : mk (_flatten_account_safely routing view a).
Proof.
  apply makes_catch; [|done]. unfold _flatten_account, flatten. case_match.
  - apply makes_bind; [apply mk_stmt, flatten_start_closing|]. intros o.
    apply makes_bind; [apply flatten_rounds_makes|]. intros out.
    apply makes_bind; [apply mk_stmt, closing_log|done].
  - apply makes_bind; [apply mk_stmt, query_context_closing|]. intros _.
    apply makes_bind; [apply account_rounds_makes|]. intros out.
    apply makes_bind; [apply mk_stmt, closing_log|done].
Qed.
End closing.

Section close_all.
Context (P : Z -> bool) (org : Z).
Abbreviation mk := (makes (covers P org) (closing P org)).

Lemma filter_fmap_other (f : OrgRow -> OrgRow) l :
  (forall o, Db.org_id (f o) = Db.org_id o) -> (forall o, Db.org_id o <> org -> f o = o) ->
  List.filter (fun o => negb (Db.org_id o =? org)) (f <$> l) = List.filter (fun o => negb (Db.org_id o =? org)) l.
Proof.
  intros Hid Hf. induction l as [|o l IH]; [done|]. csimpl. rewrite Hid. case_match; [|done].
  f_equal; [|done]. apply Hf. lia.
Qed.

Lemma closing_orgs_map (f : OrgRow -> OrgRow) s :
  (forall o, Db.org_id (f o) = Db.org_id o /\ org_dry_run (f o) = org_dry_run o) -> (forall o, Db.org_id o <> org -> f o = o) ->
  closing_db P org s (set_db_orgs (f <$> db_orgs s) s).
Proof.
  intros H Hf. split; simpl; try done; [apply extends_refl|apply filter_fmap_other; [apply H|done]|].
  rewrite <- list_fmap_compose. apply list_fmap_ext. intros; apply H.
Qed.

Lemma set_copying_closing b : respects (closing P org) (a_repo (set_org_setting org (SetCopyingEnabled b))).
Proof.
  apply closing_repo. intros s. apply (closing_orgs_map (fun o => if org =? Db.org_id o then bump (set_org_copying_enabled b o) else o)).
  - intros o. by case_match.
  - intros o Hne. case_match; [lia|done].
Qed.
Lemma restore_closing v : respects (closing P org) (a_repo (restore_copying_if_unchanged org v)).
Proof.
  apply closing_repo. intros s. apply (closing_orgs_map (fun o =>
    if (org =? Db.org_id o) && (org_settings_version o =? v) then bump (set_org_copying_enabled true o) else o)).
  - intros o. by case_match.
  - intros o Hne. case_match; [lia|done].
Qed.

Lemma read_makes {A} (m : M db A) : (forall s, exec m s = s) -> mk (stmt (a_repo m)).
Proof. intros H. apply mk_stmt. intros s. rewrite a_repo_read; [reflexivity|apply H]. Qed.

Lemma get_org_read o s : exec (get_org o) s = s.
Proof. unfold exec, get_org, bind, gets. by case_match. Qed.
Lemma get_version_read o s : exec (get_org_settings_version o) s = s.
Proof. unfold exec, get_org_settings_version, bind, gets. by case_match. Qed.

Lemma flatten_all_makes routing view schedule : mk (flatten_all routing view schedule org).
Proof.
  apply makes_stmt_bind. intros s Hs. split; [by rewrite a_repo_read|].
  intros accounts [= <-]. apply makes_gather. apply Forall_fmap, Forall_forall. intros a Ha. apply flatten_account_makes.
  unfold flatten_targets in Ha. apply list_elem_of_fmap in Ha as (r & -> & [Hr Hc]%list_elem_of_In%filter_In).
  apply Hs; [by apply list_elem_of_In|]. bsimp. lia.
Qed.

Lemma restore_makes v : mk (_restore_copying_after_flatten org v).
Proof.
  apply makes_bind; [apply mk_stmt, restore_closing|]. intros []; [done|]. apply mk_stmt, closing_log.
Qed.

Lemma close_org_makes routing view schedule o : mk (close_org routing view schedule org o).
Proof.
  unfold close_org. apply makes_bind; [apply mk_stmt, set_copying_closing|]. intros _.
  apply makes_bind; [apply read_makes, get_version_read|]. intros v.
  apply makes_bind; [apply makes_finally; [apply flatten_all_makes|destruct (org_copying_enabled o); [apply restore_makes|done]]|].
  intros results. apply makes_bind.
  - apply makes_catch; [|done]. apply makes_bind; [apply read_makes, get_org_read|done].
  - intros paused. apply makes_bind; [apply mk_stmt, closing_log|done].
Qed.
End close_all.

(** C16: the kill switch only closes, and only on its own org.  Whatever happens
    between its steps, each step of [close_all] queues and sends nothing but
    closes and cancellations, on accounts of the org; it changes no mapping and
    no account, no other org's row, and no dry-run flag. *)
Theorem kill_switch_only_closes routing view schedule org account_id (P : Z -> bool) :
  makes (covers P org) (closing P org) (close_all routing view schedule org account_id).
Proof.
  apply makes_bind; [apply read_makes, get_org_read|]. intros o. destruct account_id as [a|]; [|apply close_org_makes].
  apply makes_stmt_bind. intros s Hs. unfold _require_account_in_org, exec, value, bind. rewrite account_row_run.
  destruct (find_account a (db_accounts (ca_db s))) as [r|] eqn:E; [|done].
  destruct (acc_org_id r =? org) eqn:Eo; [|done]. split; [reflexivity|]. intros u _.
  apply find_account_id in E as [Hr <-]. apply makes_bind.
  - apply flatten_account_makes. apply Hs; [done|lia].
  - intros summary. apply makes_bind; [apply mk_stmt, closing_log|done].
Qed.

(** ** The copying switch *)

(** The rows of an org (one, by the primary key) *)
Definition org_rows (org : Z) (s : CopierApp) : list OrgRow := List.filter (fun o => org =? Db.org_id o) (db_orgs (ca_db s)).
Definition same_org (org : Z) (s s' : CopierApp) : Prop := org_rows org s' = org_rows org s.
#[export] Instance same_org_refl org : Reflexive (same_org org).
Proof. done. Qed.
#[export] Instance same_org_trans org : Transitive (same_org org).
Proof. unfold same_org. congruence. Qed.

(** Flattening leaves every org's row alone. *)
Lemma closing_same_org org s s' : closing_db (fun _ => true) (org + 1) (ca_db s) (ca_db s') -> same_org org s s'.
Proof.
  intros [_ _ _ Ho _]. unfold same_org, org_rows. assert (forall l : list OrgRow,
    List.filter (fun o => org =? Db.org_id o) l =
    List.filter (fun o => org =? Db.org_id o) (List.filter (fun o => negb (Db.org_id o =? org + 1)) l)) as H.
  { induction l as [|o l IH]; [done|]. cbn [List.filter]. rewrite IH. destruct (Z.eqb_spec org (Db.org_id o)).
    - destruct (Z.eqb_spec (Db.org_id o) (org + 1)); [lia|]. cbn [List.filter negb]. by destruct (Z.eqb_spec org (Db.org_id o)).
    - destruct (Z.eqb_spec (Db.org_id o) (org + 1)); [done|]. cbn [List.filter negb]. by destruct (Z.eqb_spec org (Db.org_id o)). }
  rewrite (H (db_orgs (ca_db s'))), (H (db_orgs (ca_db s))). by rewrite Ho.
Qed.

Lemma flatten_all_same_org routing view schedule org :
  makes (fun _ => True) (same_org org) (flatten_all routing view schedule org).
Proof.
  apply (makes_impl (covers (fun _ => true) (org + 1)) _ (closing (fun _ => true) (org + 1))); [done| |].
  - intros s s' _ [H _]. by apply closing_same_org.
  - apply makes_bind; [by apply read_makes|]. intros accounts. apply makes_gather, Forall_fmap, Forall_forall.
    intros a _. by apply flatten_account_makes.
Qed.

Lemma flatten_all_ok routing view schedule org : never_raises (flatten_all routing view schedule org).
Proof.
  intros s. simpl. apply never_raises_gather, Forall_fmap, Forall_forall. intros a _. by apply never_raises_catch.
Qed.

(** The org's row after the pause, and after the restore *)
Definition paused_row (o : OrgRow) : OrgRow := bump (set_org_copying_enabled false o).
Definition resumed_row (o : OrgRow) : OrgRow :=
  if org_copying_enabled o then bump (set_org_copying_enabled true (paused_row o)) else paused_row o.

Lemma find_org_rows org (l : list OrgRow) :
  List.find (fun o => org =? Db.org_id o) l = head (List.filter (fun o => org =? Db.org_id o) l).
Proof. induction l as [|o l IH]; [done|]. simpl. by case_match. Qed.

Lemma app_org_run org s o : org_rows org s = [o] -> a_repo (get_org org) s = (Ok o, s).
Proof.
  intros H. destruct s as [[[d se] ? ? ? ? ?]]. unfold org_rows, ca_db in H. simpl in H.
  unfold a_repo, on_service, on_repo, on_engine, on_db, get_org, bind, gets. simpl. by rewrite find_org_rows, H.
Qed.
Lemma get_version_run org s o :
  org_rows org s = [o] -> a_repo (get_org_settings_version org) s = (Ok (org_settings_version o), s).
Proof.
  intros H. destruct s as [[[d se] ? ? ? ? ?]]. unfold org_rows, ca_db in H. simpl in H.
  unfold a_repo, on_service, on_repo, on_engine, on_db, get_org_settings_version, bind, gets. simpl. by rewrite find_org_rows, H.
Qed.

(** An update of the rows with the org's id *)
Lemma filter_update_org (org : Z) (f : OrgRow -> OrgRow) (l : list OrgRow) :
  (forall o, Db.org_id (f o) = Db.org_id o) ->
  List.filter (fun o => org =? Db.org_id o) ((fun o => if org =? Db.org_id o then f o else o) <$> l) =
  f <$> List.filter (fun o => org =? Db.org_id o) l.
Proof.
  intros Hf. induction l as [|o l IH]; [done|]. cbn [fmap list_fmap List.filter].
  destruct (org =? Db.org_id o) eqn:E; [rewrite Hf, E; cbn [fmap list_fmap]; by f_equal|by rewrite E].
Qed.

Lemma set_copying_rows org b s :
  org_rows org (exec (a_repo (set_org_setting org (SetCopyingEnabled b))) s) =
  (fun o => bump (set_org_copying_enabled b o)) <$> org_rows org s.
Proof. by apply (filter_update_org org (fun o => bump (set_org_copying_enabled b o))). Qed.

Lemma restore_rows org v s o :
  org_rows org s = [o] ->
  value (a_repo (restore_copying_if_unchanged org v)) s = Ok (org_settings_version o =? v) /\
  org_rows org (exec (a_repo (restore_copying_if_unchanged org v)) s) =
    [if org_settings_version o =? v then bump (set_org_copying_enabled true o) else o].
Proof.
  intros H. assert (forall l : list OrgRow, List.filter (fun o => (org =? Db.org_id o) && (org_settings_version o =? v)) l =
    List.filter (fun o => org_settings_version o =? v) (List.filter (fun o => org =? Db.org_id o) l)) as Hf.
  { induction l as [|x l IH]; [done|]. simpl. destruct (org =? Db.org_id x); simpl; [case_match; congruence|done]. }
  split.
  - unfold value. destruct s as [[[d se] ? ? ? ? ?]]. unfold org_rows, ca_db in H. simpl in H.
    unfold a_repo, on_service, on_repo, on_engine, on_db, restore_copying_if_unchanged, bind, gets, modify, ret. simpl.
    rewrite Hf, H. simpl. by case_match.
  - transitivity ((fun o => if org_settings_version o =? v then bump (set_org_copying_enabled true o) else o) <$> org_rows org s);
      [|by rewrite H].
    unfold org_rows, ca_db. simpl.
    rewrite <- (filter_update_org org (fun o => if org_settings_version o =? v then bump (set_org_copying_enabled true o) else o)).
    + f_equal. apply list_fmap_ext. intros i x _. by destruct (org =? Db.org_id x).
    + intros x. by case_match.
Qed.

Lemma log_same_org org cat sev p a o' s : same_org org s (exec (a_log cat sev p a o') s).
Proof. done. Qed.

Lemma under_finally {S A} (R : S -> S -> Prop) (p : prog S A) f Q s :
  under R p (fun r s1 => under R f (fun u s2 => Q (match u with Ok _ => r | Raise e => Raise e end) s2) s1) s ->
  under R (pfinally p f) Q s.
Proof.
  intros H. unfold pfinally. apply under_bind, under_catch, under_bind. eapply under_mono; [|exact H].
  intros [a|e] s1 H1; simpl; apply under_bind; (eapply under_mono; [|exact H1]); intros [u|e'] s2 H2;
    first [by apply under_of_result|done].
Qed.

Section switch.
Context (org : Z).
Abbreviation un := (under (same_org org)).

Lemma restore_switch v s o Q :
  org_rows org s = [o] ->
  (forall s', org_rows org s' = [if org_settings_version o =? v then bump (set_org_copying_enabled true o) else o] -> Q (Ok tt) s') ->
  un (_restore_copying_after_flatten org v) Q s.
Proof.
  intros Ho HQ. unfold _restore_copying_after_flatten. apply under_bind, under_stmt. intros s1 Hs1.
  unfold same_org in Hs1. rewrite Ho in Hs1. destruct (restore_rows org v s1 o Hs1) as [-> Hr].
  destruct (org_settings_version o =? v) eqn:E; [by apply HQ|].
  apply under_stmt. intros s2 Hs2. apply HQ. rewrite log_same_org. by rewrite Hs2, Hr.
Qed.

Lemma flatten_org_switch routing view schedule o s Q :
  org_rows org s = [paused_row o] ->
  (forall l s', org_rows org s' = [resumed_row o] -> Q (Ok l) s') ->
  un (flatten_org routing view schedule org (org_copying_enabled o) (org_settings_version (paused_row o))) Q s.
Proof.
  intros Ho HQ. unfold flatten_org. apply under_finally. eapply under_mono; [|apply under_ok; [apply flatten_all_ok|
    apply (under_reaches (fun _ => True) (same_org org)); [done|done|reflexivity|apply flatten_all_same_org]]].
  intros [l|e] s1 [[_ Hs1] Hok]; [|done]. unfold same_org in Hs1. rewrite Ho in Hs1. unfold resumed_row in HQ.
  destruct (org_copying_enabled o); [|by apply HQ].
  apply (restore_switch _ _ (paused_row o)); [done|]. rewrite Z.eqb_refl. intros s2 Hs2. by apply HQ.
Qed.

Lemma copying_paused_switch o s Q :
  org_rows org s = [o] ->
  (forall s', org_rows org s' = [o] -> Q (Ok (negb (org_copying_enabled o))) s') -> un (copying_paused org) Q s.
Proof.
  intros Ho HQ. unfold copying_paused. apply under_catch, under_bind, under_stmt. intros s1 Hs1.
  unfold same_org in Hs1. rewrite Ho in Hs1. unfold value, exec. rewrite (app_org_run _ _ _ Hs1). simpl. by apply HQ.
Qed.
End switch.

(** Once the org's row is newer than the guard, [flatten_org] leaves it alone. *)
Definition newer_than (org guard : Z) (s : CopierApp) : Prop :=
  exists o, org_rows org s = [o] /\ guard < org_settings_version o.

Lemma newer_write_stays routing view schedule org was guard :
  makes (newer_than org guard) (same_org org) (flatten_org routing view schedule org was guard).
Proof.
  apply makes_finally; [eapply makes_impl; [| |apply flatten_all_same_org]; done|]. destruct was; [|done].
  unfold _restore_copying_after_flatten. apply makes_bind; [|intros []; [done|by apply makes_stmt]].
  apply makes_stmt. intros s (o & Ho & Hv). destruct (restore_rows org guard s o Ho) as [_ Hr].
  unfold same_org. rewrite Hr, Ho. by destruct (Z.eqb_spec (org_settings_version o) guard); [lia|].
Qed.

(** C17: the kill switch does not stop the copier.  If nobody else writes the org's
    settings meanwhile, an org-wide [close_all] always answers, whatever the
    accounts answer and whatever else happens: at the end the row is as it was
    but for its version -- copying on again exactly if it was on -- and the answer
    says so.  And after the guard
    version is read, a newer write of the row is never touched. *)
Theorem kill_switch_restores_copying routing view schedule org s o :
  org_rows org s = [o] ->
  under (same_org org) (close_all routing view schedule org None)
    (fun r s' => org_rows org s' = [resumed_row o] /\
                 exists res, r = Ok res /\ cr_paused res = negb (org_copying_enabled o)) s /\
  (forall was guard, makes (newer_than org guard) (same_org org) (flatten_org routing view schedule org was guard)).
Proof.
  intros Ho. split; [|intros; apply newer_write_stays].
  unfold close_all. apply under_bind, under_stmt. intros s1 Hs1. unfold same_org in Hs1. rewrite Ho in Hs1.
  unfold value, exec. rewrite (app_org_run _ _ _ Hs1). simpl fst. cbv iota. simpl snd. unfold close_org.
  apply under_bind, under_stmt. intros s2 Hs2. unfold same_org in Hs2. rewrite Hs1 in Hs2.
  change (value (a_repo (set_org_setting org (SetCopyingEnabled false))) s2) with (Ok tt : result unit). cbv iota.
  pose proof (set_copying_rows org false s2) as Hp. rewrite Hs2 in Hp. cbn [fmap list_fmap] in Hp. fold (paused_row o) in Hp.
  set (s3 := exec (a_repo (set_org_setting org (SetCopyingEnabled false))) s2) in *. clearbody s3.
  apply under_bind, under_stmt. intros s4 Hs4. unfold same_org in Hs4. rewrite Hp in Hs4.
  unfold value, exec. rewrite (get_version_run _ _ _ Hs4). simpl fst. cbv iota. simpl snd.
  apply under_bind, (flatten_org_switch org _ _ _ o); [done|]. intros l s5 Hs5.
  apply under_bind, (copying_paused_switch org (resumed_row o)); [done|]. intros s6 Hs6.
  unfold log_kill_switch. apply under_bind, under_stmt. intros s7 Hs7. unfold same_org in Hs7. rewrite Hs6 in Hs7.
  split; [by rewrite log_same_org|]. eexists. split; [reflexivity|]. simpl. unfold resumed_row.
  by destruct (org_copying_enabled o) eqn:E.
Qed.

Definition no_ctrader : ctrader_view :=
  {| cv_client := fun _ => None; cv_answer := fun _ _ => Raise (QueryFailed "no broker"); cv_quote := fun _ _ => (None, None);
     cv_positions := fun _ => [] |}.

Lemma kill_switch_restores_copying_witness :
  org_rows 1 desk = [desk_org 1] /\
  under (same_org 1) (close_all desk_routing no_ctrader [] 1 None)
    (fun r s' => org_rows 1 s' = [resumed_row (desk_org 1)] /\
                 exists res, r = Ok res /\ cr_paused res = false) desk.
Proof.
  assert (org_rows 1 desk = [desk_org 1]) as H by (vm_compute; reflexivity).
  split; [exact H|]. exact (proj1 (kill_switch_restores_copying desk_routing no_ctrader [] 1 desk (desk_org 1) H)).
Defined.

(** ... but a write that lands between the pause and the reading of the guard
    version is taken for the pause itself: the web API stops copying there, and
    the kill switch starts it again. *)
Definition api_stop (org : Z) : program unit := stmt (a_repo (set_org_setting org (SetCopyingEnabled false))).

Theorem stop_before_guard_is_undone :
  let pool := [pbind (close_all desk_routing no_ctrader [] 1 None) (fun _ => Ret tt); api_stop 1] in
  let stopped := (run_pool [0; 0; 1]%nat (pool, desk)).2 in
  let final := run_pool ([0; 0; 1] ++ repeat 0 12)%nat (pool, desk) in
  (org_copying_enabled <$> org_rows 1 stopped) = [false] /\
  forallb answered final.1 = true /\
  (org_copying_enabled <$> org_rows 1 final.2) = [true].
Proof. vm_compute. done. Qed.

(** ** What a flatten says and does *)

Definition report_of (a : Z) (s : CopierApp) : option SyncReport := ca_accounts s !! a ≫= as_report.
Definition book_now (a : Z) (s : CopierApp) : option book := book_of <$> report_of a s.

Lemma current_book_run a s :
  current_book a s = (match book_now a s with
                      | Some b => Ok b
                      | None => Raise (AttributeError "'NoneType' object has no attribute 'positions'")
                      end, s).
Proof. unfold current_book, report, bind, gets, book_now, report_of. simpl. by destruct (_ ≫= as_report). Qed.

(** The commands that name a ticket and are not settled *)
Definition naming (a : Z) (kind : cmd_kind) (key : string) (t : Z) (c : command_row) : bool :=
  (c_account_id c =? a) && is_open_status (c_status c) && bool_decide (c_kind c = kind) &&
  bool_decide (payload_int key (c_payload c) = Some t).
Definition named (a : Z) (kind : cmd_kind) (key : string) (t : Z) (s : CopierApp) : nat :=
  length (List.filter (naming a kind key t) (db_commands (ca_db s))).

Lemma enqueue_missing_run a o kind p queued tickets s :
  exists s' new, enqueue_missing a o kind p queued tickets s = (Ok tt, s') /\
    db_commands (ca_db s') = db_commands (ca_db s) ++ new /\ ca_accounts s' = ca_accounts s /\
    Forall2 (fun t c => c_account_id c = a /\ c_status c = Queued /\ c_kind c = kind /\ c_payload c = p t)
      (List.filter (fun t => negb (bool_decide (t ∈ queued))) tickets) new.
Proof.
  revert s. induction tickets as [|t tickets IH]; intros s; simpl.
  - exists s, []. rewrite app_nil_r. done.
  - unfold enqueue_missing. cbn [for_each]. unfold bind at 1. case_bool_decide; cbn [negb].
    + apply IH.
    + unfold bind at 1. destruct (a_enqueue a o kind (p t) s) as [r s1] eqn:E.
      assert (r = Ok (db_next_command_id (ca_db s)) /\ ca_accounts s1 = ca_accounts s /\
        exists c, db_commands (ca_db s1) = db_commands (ca_db s) ++ [c] /\
          c_account_id c = a /\ c_status c = Queued /\ c_kind c = kind /\ c_payload c = p t) as (-> & Ha & c & Hc & Hall).
      { unfold a_enqueue, a_repo, on_service, on_repo, on_engine, on_db, enqueue, enqueue_mt5_command in E.
        injection E as <- <-. split; [done|]. split; [done|]. by eexists. }
      simpl. destruct (IH s1) as (s' & new & E' & Hc' & Ha' & HF). exists s', (c :: new). unfold enqueue_missing in E'. rewrite E'.
      split; [done|]. split; [by rewrite Hc', Hc, <- app_assoc|]. split; [congruence|]. by constructor.
Qed.

(** What a batch of new commands adds for a ticket *)
Lemma naming_batch a kind key p ts new t :
  Forall2 (fun t c => c_account_id c = a /\ c_status c = Queued /\ c_kind c = kind /\ c_payload c = p t) ts new ->
  NoDup ts -> (forall t, payload_int key (p t) = Some t) ->
  length (List.filter (naming a kind key t) new) = (if bool_decide (t ∈ ts) then 1 else 0)%nat.
Proof.
  intros HF Hnd Hp. induction HF as [|x c ts new (Ha & Hs & Hk & Hpay) _ IH]; [done|].
  apply NoDup_cons in Hnd as [Hx Hnd]. specialize (IH Hnd). cbn [List.filter]. unfold naming at 1.
  rewrite Ha, Hs, Hk, Hpay, Hp, Z.eqb_refl. cbn [is_open_status andb]. rewrite bool_decide_true by done. cbn [andb].
  destruct (decide (x = t)) as [->|Hxt].
  - rewrite bool_decide_true by done. simpl. rewrite IH. by rewrite bool_decide_false, bool_decide_true by set_solver.
  - rewrite bool_decide_false by congruence. rewrite IH. case_bool_decide; case_bool_decide; set_solver.
Qed.

Lemma naming_batch_other a kind (p : Z -> payload) ts new k key t :
  Forall2 (fun t c => c_account_id c = a /\ c_status c = Queued /\ c_kind c = kind /\ c_payload c = p t) ts new ->
  k <> kind -> List.filter (naming a k key t) new = [].
Proof.
  intros HF Hne. induction HF as [|x c ts new (_ & _ & Hk & _) _ IH]; [done|]. cbn [List.filter]. unfold naming at 1.
  rewrite Hk, (bool_decide_false (kind = k)) by congruence. by rewrite andb_false_r.
Qed.

Lemma queued_named a kind key t s :
  t ∈ queued_tickets kind key (List.filter (fun c => (c_account_id c =? a) && is_open_status (c_status c)) (db_commands (ca_db s))) <->
  (1 <= named a kind key t s)%nat.
Proof.
  unfold queued_tickets, named. generalize (db_commands (ca_db s)). induction l as [|c l IH]; [simpl; set_solver by lia|].
  cbn [List.filter]. unfold naming at 1. destruct ((c_account_id c =? a) && is_open_status (c_status c)); cbn [andb]; [|done].
  csimpl. destruct (decide (c_kind c = kind)) as [Hk|Hk].
  - rewrite !(bool_decide_true (c_kind c = kind)) by done. destruct (payload_int key (c_payload c)) as [x|]; csimpl; [|done].
    rewrite elem_of_cons, IH. destruct (decide (x = t)) as [->|]; [rewrite bool_decide_true by done; simpl; lia|].
    rewrite bool_decide_false by congruence. cbn [andb]. split; [by intros [?|?]; [congruence|]|by right].
  - rewrite !(bool_decide_false (c_kind c = kind)) by done. done.
Qed.

Abbreviation open_of a s := (List.filter (fun c => (c_account_id c =? a) && is_open_status (c_status c)) (db_commands (ca_db s))).

(** One batch: the tickets that no open command names get one. *)
Lemma missing_named a o kind key p tickets s t :
  (forall t, payload_int key (p t) = Some t) -> NoDup tickets ->
  named a kind key t (exec (enqueue_missing a o kind p (queued_tickets kind key (open_of a s)) tickets) s) =
  (if bool_decide (t ∈ tickets) then Nat.max 1 (named a kind key t s) else named a kind key t s)%nat.
Proof.
  intros Hp Hnd. pose proof (queued_named a kind key t s) as Hq. revert Hq. generalize (queued_tickets kind key (open_of a s)).
  intros queued Hq. destruct (enqueue_missing_run a o kind p queued tickets s) as (s1 & new & E & Hc & _ & HF).
  unfold exec. rewrite E. unfold named at 1. cbn [snd]. rewrite Hc, List.filter_app, length_app.
  rewrite (naming_batch _ _ _ _ _ _ t HF) by (try done; by apply NoDup_ListNoDup, List.NoDup_filter, NoDup_ListNoDup).
  fold (named a kind key t s). destruct (decide (t ∈ tickets)) as [Ht|Ht].
  - rewrite (bool_decide_true (t ∈ tickets)) by done. destruct (decide (t ∈ queued)) as [Hin|Hin].
    + rewrite bool_decide_false; [apply Hq in Hin; lia|]. rewrite list_elem_of_In, filter_In, bool_decide_true by done. by intros [? ?].
    + rewrite bool_decide_true; [|rewrite list_elem_of_In, filter_In, bool_decide_false by done; by rewrite <- list_elem_of_In].
      assert (named a kind key t s = 0)%nat by (destruct (named a kind key t s) eqn:En; [done|exfalso; apply Hin, Hq; lia]). lia.
  - rewrite !bool_decide_false; [lia|done|]. rewrite list_elem_of_In, filter_In, <- list_elem_of_In. tauto.
Qed.

Lemma missing_other a o kind p queued tickets s k key t :
  k <> kind -> named a k key t (exec (enqueue_missing a o kind p queued tickets) s) = named a k key t s.
Proof.
  intros Hne. destruct (enqueue_missing_run a o kind p queued tickets s) as (s1 & new & E & Hc & _ & HF).
  unfold exec. rewrite E. unfold named. cbn [snd]. rewrite Hc, List.filter_app.
  by rewrite (naming_batch_other _ _ _ _ _ k key t HF Hne), app_nil_r.
Qed.

Lemma queued_other_kind a o kind p queued tickets s s' k key :
  exec (enqueue_missing a o kind p queued tickets) s = s' -> k <> kind ->
  queued_tickets k key (open_of a s') = queued_tickets k key (open_of a s).
Proof.
  intros Hs' Hne. destruct (enqueue_missing_run a o kind p queued tickets s) as (s1 & new & E & Hc & _ & HF).
  unfold exec in Hs'. rewrite E in Hs'. simpl in Hs'. subst s1. unfold queued_tickets. rewrite Hc, List.filter_app, omap_app.
  assert (omap (fun c => if bool_decide (c_kind c = k) then payload_int key (c_payload c) else None)
    (List.filter (fun c => (c_account_id c =? a) && is_open_status (c_status c)) new) = []) as ->; [|by rewrite app_nil_r].
  clear Hc E. induction HF as [|t c ts new (_ & _ & Hk & _) _ IH]; [done|]. cbn [List.filter]. destruct ((_ =? _) && _); [|done].
  csimpl. rewrite bool_decide_false by congruence. done.
Qed.

Lemma flatten_round_eq a o s :
  flatten_round a o s =
  match book_now a s with
  | None => (Raise (AttributeError "'NoneType' object has no attribute 'positions'"), s)
  | Some ([], []) => (Ok ([], []), s)
  | Some b =>
      (Ok b, exec (enqueue_missing a o KCancelPending cancel_of (queued_tickets KCancelPending "order" (open_of a s)) b.2)
              (exec (enqueue_missing a o KClose close_all_of (queued_tickets KClose "position" (open_of a s)) b.1) s))
  end.
Proof.
  unfold flatten_round. unfold bind at 1. rewrite current_book_run. destruct (book_now a s) as [b|]; [|done].
  assert (a_repo (mt5_commands_open a) s = (Ok (open_of a s), s)) as Eq by (by destruct s as [[[]]]).
  destruct (enqueue_missing_run a o KClose close_all_of (queued_tickets KClose "position" (open_of a s)) b.1 s)
    as (s1 & n1 & E1 & _).
  destruct (enqueue_missing_run a o KCancelPending cancel_of (queued_tickets KCancelPending "order" (open_of a s)) b.2 s1)
    as (s2 & n2 & E2 & _).
  unfold exec. rewrite E1. cbn [snd]. rewrite E2. cbn [snd].
  destruct b as [[|x l] [|y l']]; [done|..]; unfold bind; rewrite Eq, E1, E2; reflexivity.
Qed.

(** A round looks at the book, and gives each of its tickets a command unless
    one is still open. *)
Lemma flatten_round_named a o s b :
  book_now a s = Some b -> NoDup b.1 -> NoDup b.2 ->
  let s' := exec (flatten_round a o) s in
  forall t, named a KClose "position" t s' =
              (if bool_decide (t ∈ b.1) then Nat.max 1 (named a KClose "position" t s) else named a KClose "position" t s) /\
            named a KCancelPending "order" t s' =
              (if bool_decide (t ∈ b.2) then Nat.max 1 (named a KCancelPending "order" t s)
               else named a KCancelPending "order" t s).
Proof.
  intros Hb H1 H2 s' t. set (s1 := exec (enqueue_missing a o KClose close_all_of (queued_tickets KClose "position" (open_of a s)) b.1) s).
  assert (queued_tickets KCancelPending "order" (open_of a s) = queued_tickets KCancelPending "order" (open_of a s1)) as Hq
    by (symmetry; by eapply (queued_other_kind a o KClose close_all_of)).
  assert (s' = exec (enqueue_missing a o KCancelPending cancel_of (queued_tickets KCancelPending "order" (open_of a s1)) b.2) s1) as Hs'.
  { unfold s'. unfold exec at 1. rewrite flatten_round_eq, Hb, <- Hq. destruct b as [[|x l] [|y l']]; done. }
  rewrite Hs'. split.
  - rewrite missing_other by done. by apply missing_named.
  - rewrite missing_named by done. unfold s1. by rewrite missing_other.
Qed.

(** *** What the answer says *)

Lemma flatten_rounds_look a o left : forall first used s,
  under (fun _ _ => True) (flatten_rounds a o left first used)
    (fun r s' => match r with
                 | Ok (f, last, u) => book_now a s' = Some last /\ used <= u <= used + Z.of_nat left /\
                                      (last = ([], []) \/ u = used + Z.of_nat left) /\ (forall b, first = Some b -> f = b)
                 | Raise _ => book_now a s' = None
                 end) s.
Proof.
  induction left as [|left IH]; intros first used s; cbn [flatten_rounds]; apply under_bind, under_stmt; intros s1 _.
  - unfold value, exec. rewrite current_book_run. simpl. destruct (book_now a s1) as [b|] eqn:E; [|done]. simpl.
    split; [done|]. split; [lia|]. split; [right; lia|]. by intros b' ->.
  - unfold value, exec. rewrite flatten_round_eq. destruct (book_now a s1) as [b|] eqn:E; [|done].
    destruct b as [[|x l] [|y l']]; simpl fst; cbv iota; simpl snd.
    { simpl. split; [done|]. split; [lia|]. split; [by left|]. by intros b' ->. }
    all: eapply under_mono; [|apply IH]; intros [[[f last] u]|e] s2 H; [|done]; destruct H as (? & ? & Hl & Hf);
      (split; [done|]); (split; [lia|]); (split; [destruct Hl; [by left|right; lia]|]); intros b' ->; by apply Hf.
Qed.

(** What is gone of the first book *)
Lemma gone_difference first last : gone first last = Z.of_nat (size (list_to_set first ∖ list_to_set last : gset Z)).
Proof.
  unfold gone. set (f := list_to_set first : gset Z). set (l := list_to_set last : gset Z).
  assert (size f = (size (f ∖ l) + size (f ∩ l))%nat) as ->; [|lia].
  rewrite <- size_union by set_solver. f_equal. apply leibniz_equiv. intros x.
  destruct (decide (x ∈ l)); set_solver.
Qed.

Lemma flatten_error_none b used : flatten_error b used = None <-> b = ([], []).
Proof. destruct b as [[|x l] [|y l']]; simpl; split; congruence. Qed.

(** A terminal reports each of its tickets once. *)
Definition tickets_unique (a : Z) (s : CopierApp) : Prop :=
  forall b, book_now a s = Some b -> NoDup b.1 /\ NoDup b.2.

(** No ticket gets a second open command. *)
Definition no_second (a : Z) (s s' : CopierApp) : Prop :=
  forall t, (named a KClose "position" t s' <= Nat.max 1 (named a KClose "position" t s))%nat /\
            (named a KCancelPending "order" t s' <= Nat.max 1 (named a KCancelPending "order" t s))%nat.

Lemma no_second_same a s s' : db_commands (ca_db s') = db_commands (ca_db s) -> no_second a s s'.
Proof. intros H t. unfold named. rewrite H. lia. Qed.

Lemma flatten_no_second a : makes (tickets_unique a) (no_second a) (flatten a).
Proof.
  unfold flatten. apply makes_bind.
  { apply makes_stmt. intros s _. destruct (flatten_start_closing (fun _ => false) 0 a s) as [[(new & Hc & Hnew) _ _ _ _] _].
    apply no_second_same. destruct Hnew as [|c new [? _] _]; [by rewrite app_nil_r in Hc|done]. }
  intros o. apply makes_bind; [|intros out; apply makes_bind; [apply makes_stmt; intros s _; by apply no_second_same|done]].
  generalize (None : option book), 0. induction FLATTEN_ROUNDS as [|left IH]; intros first used; cbn [flatten_rounds].
  - apply makes_bind; [|done]. apply makes_stmt. intros s _. unfold exec. rewrite current_book_run. by apply no_second_same.
  - apply makes_bind; [|intros [[|] [|]]; [done|apply IH..]]. apply makes_stmt. intros s Hs. destruct (book_now a s) as [b|] eqn:E.
    + destruct (Hs b E) as [H1 H2]. intros t. destruct (flatten_round_named a o s b E H1 H2 t) as [-> ->].
      split; case_bool_decide; lia.
    + unfold exec. rewrite flatten_round_eq, E. by apply no_second_same.
Qed.

(** The answer of a flatten is measured, not assumed.  Whatever happens between
    its rounds, it ends after at most three with the book the terminal shows at
    the last look: what it names as remaining is that book, the error is absent
    exactly when the account is flat, and the counts are the tickets of the
    first book that are gone.  After a round every open ticket has a command,
    and no step ever queues a second one for a ticket that has one. *)
Theorem flatten_measures a o :
  (forall s, under (fun _ _ => True) (flatten_rounds a o FLATTEN_ROUNDS None 0)
     (fun r s' => match r with
                  | Ok out =>
                      let x := flatten_summary a out in
                      exists last, book_now a s' = Some last /\ fs_positions_remaining x = Some last.1 /\
                        fs_orders_remaining x = Some last.2 /\ (fs_error x = None <-> last = ([], [])) /\
                        fs_positions_closed x = Z.of_nat (size (list_to_set out.1.1.1 ∖ list_to_set last.1 : gset Z)) /\
                        fs_orders_cancelled x = Z.of_nat (size (list_to_set out.1.1.2 ∖ list_to_set last.2 : gset Z)) /\
                        0 <= fs_rounds x <= 3
                  | Raise _ => book_now a s' = None
                  end) s) /\
  makes (tickets_unique a) (no_second a) (flatten a) /\
  (forall s b, tickets_unique a s -> book_now a s = Some b ->
     (forall t, t ∈ b.1 -> 1 <= named a KClose "position" t (exec (flatten_round a o) s))%nat /\
     (forall t, t ∈ b.2 -> 1 <= named a KCancelPending "order" t (exec (flatten_round a o) s))%nat).
Proof.
  split; [|split; [apply flatten_no_second|]].
  - intros s. eapply under_mono; [|apply flatten_rounds_look]. intros [[[f last] u]|e] s' H; [|done].
    destruct H as (Hb & Hu & _ & _). exists last. simpl. rewrite !gone_difference, flatten_error_none.
    split_and!; try done; try lia. unfold FLATTEN_ROUNDS in Hu. simpl in Hu. lia.
  - intros s b Hs Hb. destruct (Hs b Hb) as [H1 H2].
    split; intros t Ht; destruct (flatten_round_named a o s b Hb H1 H2 t) as [E1 E2];
      [rewrite E1|rewrite E2]; rewrite bool_decide_true by done; lia.
Qed.

(** The master of the desk is long; a flatten queues one close for it. *)
Lemma flatten_measures_witness :
  tickets_unique 7 desk_bought /\ book_now 7 desk_bought = Some ([501], []) /\
  named 7 KClose "position" 501 desk_bought = 0%nat /\
  (1 <= named 7 KClose "position" 501 (exec (flatten_round 7 1) desk_bought))%nat.
Proof.
  assert (book_now 7 desk_bought = Some ([501], [])) as Hb by (vm_compute; reflexivity).
  assert (tickets_unique 7 desk_bought) as Hu.
  { intros b H. rewrite Hb in H. injection H as <-. split; apply (bool_decide_unpack _); vm_compute; exact I. }
  split; [exact Hu|]. split; [exact Hb|]. split; [vm_compute; reflexivity|].
  apply (proj1 (proj2 (proj2 (flatten_measures 7 1)) desk_bought ([501], []) Hu Hb) 501). left.
Defined.

(** The kill switch alone on the desk: one close for the master's position. *)
Example kill_switch_run :
  let s := (run_alone (close_all desk_routing no_ctrader [] 1 None) desk_bought).2 in
  ((fun c => (c_account_id c, c_kind c, payload_int "position" (c_payload c))) <$> db_commands (ca_db s)) =
    [(11, KOpen, None); (7, KClose, Some 501)] /\
  (org_copying_enabled <$> org_rows 1 s) = [true].
Proof. vm_compute. done. Qed.
