(* ===== verification/Limiter.v ===== *)
(** * The sliding-window limiter: [LoginRateLimiter] of [api/auth.py]

    In-memory attempts per key, swept when the dict grows.  Times are whole
    numbers in any unit ([time.time()] in the code), read once per call. *)

From S2P Require Import Prelude.

Record limiter := {
  li_max_attempts : Z;
  li_window : Z;
  li_attempts : gmap string (list Z);
  li_sweep_at : Z
}.

Definition limiter_init (max_attempts window_s : Z) : limiter :=
  {| li_max_attempts := max_attempts; li_window := window_s; li_attempts := ∅; li_sweep_at := 1024 |}.

(** [self.attempts[key]] of a [defaultdict(list)] *)
Definition attempts_of (m : gmap string (list Z)) (key : string) : list Z := default [] (m !! key).

Definition list_max (v : list Z) : option Z :=
  match v with [] => None | t :: ts => Some (foldl Z.max t ts) end.

(** [v and max(v) > cutoff] *)
Definition live (cutoff : Z) (v : list Z) : bool :=
  match list_max v with Some t => cutoff <? t | None => false end.

(** The clean-up of the whole dict, when it has grown. *)
Definition sweep (cutoff : Z) (l : limiter) (m : gmap string (list Z)) : gmap string (list Z) * Z :=
  if li_sweep_at l <? Z.of_nat (size m)
  then let m' := filter (fun kv => live cutoff kv.2 = true) m in
       (m', Z.max 1024 (Z.of_nat (size m') * 2))
  else (m, li_sweep_at l).

Definition is_limited (key : string) (max_attempts : option Z) (now : Z) (l : limiter) : bool * limiter :=
  let limit := default (li_max_attempts l) max_attempts in
  let cutoff := now - li_window l in
  let m := <[key := filter (fun t => cutoff < t) (attempts_of (li_attempts l) key)]> (li_attempts l) in
  let '(m', sweep_at) := sweep cutoff l m in
  let ts := attempts_of m' key in
  if limit <=? Z.of_nat (length ts)
  then (true, {| li_max_attempts := li_max_attempts l; li_window := li_window l;
                 li_attempts := <[key := ts]> m'; li_sweep_at := sweep_at |})
  else (false, {| li_max_attempts := li_max_attempts l; li_window := li_window l;
                  li_attempts := <[key := ts ++ [now]]> m'; li_sweep_at := sweep_at |}).

(** ** Runs *)

(** What was let through, per key, oldest first. *)
Abbreviation passed := (gmap string (list Z)).

(** A sequence of calls: key and time. *)
Definition call1 (s : limiter * passed) (c : string * Z) : limiter * passed :=
  let '(limited, l) := is_limited c.1 None c.2 s.1 in
  (l, if limited then s.2 else <[c.1 := attempts_of s.2 c.1 ++ [c.2]]> s.2).

Definition calls (l : limiter) (cs : list (string * Z)) : limiter * passed := foldl call1 (l, ∅) cs.

Lemma foldl_max_le t ts x : foldl Z.max t ts <= x -> Forall (fun y => y <= x) (t :: ts).
Proof.
  revert t. induction ts as [|u ts IH]; intros t; simpl; [intros; by repeat constructor|].
  intros H. apply IH in H. inversion_clear H as [|? ? H1 H2]. constructor; [lia|]. constructor; [lia|done].
Qed.

Lemma live_false cutoff v : live cutoff v = false -> Forall (fun t => t <= cutoff) v.
Proof.
  unfold live, list_max. destruct v as [|t ts]; [constructor|]. intros H. apply foldl_max_le. bsimp. done.
Qed.

(** The kept attempts of a key are the latest ones let through; the others are
    at or before the cutoff [c]. *)
Definition kept (c : Z) (log ts : list Z) : Prop :=
  exists n, ts = drop n log /\ Forall (fun t => t <= c) (take n log).

Lemma kept_weaken c c' log ts : c <= c' -> kept c log ts -> kept c' log ts.
Proof. intros Hc (n & -> & H). exists n. split; [done|]. eapply Forall_impl; [exact H|]. simpl. intros; lia. Qed.

Lemma kept_nil c log ts : kept c log ts -> Forall (fun t => t <= c) ts -> kept c log [].
Proof.
  intros (n & -> & H) Hts. exists (length log). rewrite drop_all, take_ge by lia. split; [done|].
  rewrite <- (take_drop n log). by apply Forall_app.
Qed.

(** Filtering a sorted list drops a prefix. *)
Lemma filter_sorted c (l : list Z) :
  StronglySorted Z.le l -> exists n, filter (fun t => c < t) l = drop n l /\ Forall (fun t => t <= c) (take n l).
Proof.
  induction 1 as [|t l Hs IH Hall]; [by exists 0%nat|]. rewrite filter_cons. case_decide as E.
  - exists 0%nat. rewrite drop_0, take_0. split; [|constructor]. f_equal. apply filter_Forall.
    eapply Forall_impl; [exact Hall|]. simpl. intros; lia.
  - destruct IH as (n & -> & Hn). exists (S n). split; [done|]. simpl. constructor; [lia|done].
Qed.

Lemma kept_filter c log ts :
  StronglySorted Z.le log -> kept c log ts -> kept c log (filter (fun t => c < t) ts).
Proof.
  intros Hs (n & -> & Hn).
  assert (StronglySorted Z.le (drop n log)) as Hd.
  { rewrite <- (take_drop n log) in Hs. by apply StronglySorted_app_1_r in Hs. }
  destruct (filter_sorted c _ Hd) as (k & -> & Hk). exists (n + k)%nat. rewrite drop_drop.
  split; [done|]. rewrite <- take_take_drop. by apply Forall_app.
Qed.

(** *** The invariant *)

Section run.
Context (limit : nat) (window : Z).

Record run_inv (T : Z) (s : limiter * passed) : Prop := {
  ri_limit : li_max_attempts s.1 = Z.of_nat limit;
  ri_window : li_window s.1 = window;
  ri_sorted : forall k, StronglySorted Z.le (attempts_of s.2 k);
  ri_past : forall k, Forall (fun t => t <= T) (attempts_of s.2 k);
  ri_kept : forall k, kept (T - window) (attempts_of s.2 k) (attempts_of (li_attempts s.1) k);
  ri_spaced : forall k i t t', attempts_of s.2 k !! i = Some t -> attempts_of s.2 k !! (i + limit)%nat = Some t' -> t + window <= t'
}.

Lemma attempts_insert m k v k' : attempts_of (<[k := v]> m) k' = if decide (k' = k) then v else attempts_of m k'.
Proof.
  unfold attempts_of. case_decide; subst; [by rewrite lookup_insert_eq|by rewrite lookup_insert_ne].
Qed.

Lemma sweep_kept cutoff l m k log :
  kept cutoff log (attempts_of m k) -> kept cutoff log (attempts_of (sweep cutoff l m).1 k).
Proof.
  intros H. unfold sweep. destruct (_ <? _); [|done]. simpl. unfold attempts_of in *.
  destruct (filter _ m !! k) as [v|] eqn:E; simpl.
  - apply map_lookup_filter_Some in E as [E _]. by rewrite E in H.
  - destruct (m !! k) as [v|] eqn:Em; [|done]. apply (kept_nil _ _ v); [done|]. apply live_false.
    apply map_lookup_filter_None in E as [E|E]; [congruence|]. specialize (E v Em). simpl in E.
    by destruct (live cutoff v).
Qed.

Lemma call1_inv T s k now :
  (0 < limit)%nat -> T <= now -> run_inv T s -> run_inv now (call1 s (k, now)).
Proof.
  intros Hl HT [H1 H2 H3 H4 H5 H6]. unfold call1, is_limited. simpl.
  set (m := <[k := _]> _). destruct (sweep (now - li_window s.1) s.1 m) as [m' sw] eqn:Es.
  assert (forall k', kept (now - window) (attempts_of s.2 k') (attempts_of m' k')) as Hkept.
  { intros k'. pose proof (sweep_kept (now - li_window s.1) s.1 m k' (attempts_of s.2 k')) as Hsw.
    rewrite Es, H2 in Hsw. apply Hsw. subst m. rewrite attempts_insert. case_decide as Ek; [rewrite Ek|].
    - rewrite H2. apply kept_filter; [done|]. eapply kept_weaken; [|apply H5]. lia.
    - eapply kept_weaken; [|apply H5]. lia. }
  assert (forall k', Forall (fun t => t <= now) (attempts_of s.2 k')) as Hpast.
  { intros k'. eapply Forall_impl; [apply H4|]. simpl. intros; lia. }
  rewrite H1. destruct (Z.leb_spec (Z.of_nat limit) (Z.of_nat (length (attempts_of m' k)))) as [Hle|Hlt].
  - split; simpl; try done. intros k'. rewrite attempts_insert. case_decide as Ek; [rewrite Ek|]; apply Hkept.
  - split; simpl; try done; intros k'; rewrite ?attempts_insert; case_decide as Ek; try rewrite Ek; try done.
    + apply StronglySorted_app_2; [|apply H3|by repeat constructor].
      intros x y Hx ->%list_elem_of_singleton. specialize (Hpast k). rewrite Forall_forall in Hpast. by apply Hpast.
    + apply Forall_app. split; [done|]. by repeat constructor.
    + destruct (Hkept k) as (n & -> & Hn). destruct (decide (n <= length (attempts_of s.2 k))%nat) as [Hle|Hle].
      * exists n. rewrite drop_app_le, take_app_le by done. done.
      * exists (length (attempts_of s.2 k)). rewrite drop_app_length, take_app_length.
        rewrite drop_ge by lia. split; [done|]. by rewrite take_ge in Hn by lia.
    + intros i t t' Hi Hj. destruct (Hkept k) as (n & En & Hn).
      destruct (decide (i + limit < length (attempts_of s.2 k))%nat) as [Hlt'|Hge].
      * rewrite lookup_app_l in Hi, Hj by lia. by eapply H6.
      * assert (i + limit = length (attempts_of s.2 k))%nat as Ei.
        { apply lookup_lt_Some in Hj. rewrite length_app in Hj. simpl in Hj. lia. }
        rewrite lookup_app_r, Ei, Nat.sub_diag in Hj by lia. injection Hj as <-.
        rewrite lookup_app_l in Hi by lia. rewrite En, length_drop in Hlt.
        rewrite Forall_forall in Hn. assert (t <= now - window); [|lia]. apply Hn.
        apply (list_elem_of_lookup_2 _ i). rewrite lookup_take_lt by lia. done.
    + apply H6.
Qed.
End run.

(** The limiter bounds the rate.  In any run of calls at times that do not
    go back, any [limit + 1] consecutive attempts that were let through under
    one key span at least the window; sweeping the dict never forgets an
    attempt that still counts. *)
Theorem limiter_rate_bound limit window cs :
  (0 < limit)%nat -> StronglySorted Z.le cs.*2 ->
  forall k i t t', let log := attempts_of (calls (limiter_init (Z.of_nat limit) window) cs).2 k in
    log !! i = Some t -> log !! (i + limit)%nat = Some t' -> t + window <= t'.
Proof.
  intros Hl Hs k i t t' log. subst log.
  assert (exists T, run_inv limit window T (calls (limiter_init (Z.of_nat limit) window) cs) /\
    match last cs.*2 with Some t => T = t | None => cs = [] end) as (T & Hinv & _); [|by apply (ri_spaced _ _ _ _ Hinv)].
  induction cs as [|[k' now] cs IH] using rev_ind.
  - exists 0. split; [|done]. split; simpl; try done; intros; unfold attempts_of in *; rewrite ?lookup_empty in *; simpl; try done; try constructor.
    exists 0%nat. done.
  - rewrite fmap_app in Hs. simpl in Hs. pose proof (StronglySorted_app_1_l _ _ _ Hs) as Hs'. destruct (IH Hs') as (T & Hinv & HT).
    exists now. rewrite fmap_app. simpl. rewrite last_snoc. split; [|done]. unfold calls in *. rewrite foldl_app. simpl.
    destruct (last cs.*2) as [u|] eqn:E.
    + subst T. eapply call1_inv; [done| |exact Hinv].
      apply (StronglySorted_app_1_elem_of _ cs.*2 [now]); [done|by apply last_Some_elem_of|set_solver].
    + subst cs. simpl. eapply call1_inv; [done|reflexivity|].
      destruct Hinv as [I1 I2 I3 I4 I5 I6]. split; try done; intros k0; simpl in *; unfold attempts_of in *; rewrite ?lookup_empty; simpl; try constructor.
      exists 0%nat. done.
Qed.

Lemma limiter_rate_bound_witness :
  attempts_of (calls (limiter_init 2 60) [("a", 1); ("a", 5); ("a", 30); ("b", 31); ("a", 61)]).2 "a" = [1; 5; 61] /\ 1 + 60 <= 61.
Proof.
  split; [vm_compute; reflexivity|].
  apply (limiter_rate_bound 2 60 [("a", 1); ("a", 5); ("a", 30); ("b", 31); ("a", 61)]) with (k := "a") (i := 0%nat).
  - lia.
  - simpl. repeat first [apply SSorted_nil | apply SSorted_cons | apply Forall_cons; split | apply Forall_nil; exact I | lia].
  - vm_compute. reflexivity.
  - vm_compute. reflexivity.
Defined.
