(* ===== verification/PortalLedger.v ===== *)
(** * The client portal's money rules: [api/portal_ledger.py]

    The pure part of the portal: what an amount may look like, balances, holds
    and the available figure, fees, the status machines, the transfer pairs.
    Statuses, wallets and tables are enumerated types, which the source's
    strings range over (the database has CHECK constraints for them). *)

From S2P Require Import Prelude PyStr PyDecimal PyFloat PyRepr PyDecOps Models Db PyJson.
From Stdlib Require Import SpecFloat.

(** ** Wallets and statuses *)

Inductive wallet := WMain | WCredit | WPamm | WSocial.
Definition WALLETS : list wallet := [WMain; WCredit; WPamm; WSocial].
Definition wallet_name (w : wallet) : string :=
  match w with WMain => "main" | WCredit => "credit" | WPamm => "pamm" | WSocial => "social" end.

Inductive req_table := Deposits | Withdrawals | Transfers | PayoutDestinations.
Inductive req_status :=
  | SPending | SConfirmed | SRejected | SCancelled | SRequested | SApproved | SPaid | SDone | SRemoved.
Definition status_name (s : req_status) : string :=
  match s with
  | SPending => "pending" | SConfirmed => "confirmed" | SRejected => "rejected" | SCancelled => "cancelled"
  | SRequested => "requested" | SApproved => "approved" | SPaid => "paid" | SDone => "done" | SRemoved => "removed"
  end.

#[export] Instance wallet_eq_dec : EqDecision wallet.
Proof. solve_decision. Defined.
#[export] Instance req_table_eq_dec : EqDecision req_table.
Proof. solve_decision. Defined.
#[export] Instance req_status_eq_dec : EqDecision req_status.
Proof. solve_decision. Defined.

(** ** Amounts and texts *)

Definition MAX_TEXT : Z := 128.
Definition MAX_INTEGER_DIGITS : Z := 12.
(** The exponent of [CENT] *)
Definition CENT_EXP : Z := -2.

Definition parse_amount (raw : json) (field : string) : result decimal :=
  match raw with
  | JBool _ | JNull | JStr "" => Raise (LedgerError (field +:+ " is required, e.g. 250.00"))
  | JFloat S754_nan => Raise (LedgerError (field +:+ " must be a number"))
  | _ =>
      match dec_parse (json_str raw) with
      | None => Raise (LedgerError (field +:+ " must be a number, got " +:+ json_repr raw))
      | Some (Fin value) =>
          if dec_leb value (Dec 0 0) then Raise (LedgerError (field +:+ " must be greater than 0"))
          else
            match quantize ROUND_HALF_EVEN value CENT_EXP with
            | Raise _ => Raise (LedgerError (field +:+ " is too large"))
            | Ok quantized =>
                if negb (dec_eqb value quantized)
                then Raise (LedgerError (field +:+ " may have at most two decimals"))
                else if dec_leb (Dec (10 ^ MAX_INTEGER_DIGITS) 0) value
                then Raise (LedgerError (field +:+ " is too large"))
                else Ok value
            end
      | Some _ => Raise (LedgerError (field +:+ " must be greater than 0"))
      end
  end.

Definition clean_text (raw : json) (field : string) (max_len : Z) (required : bool) : result (option string) :=
  let text := match raw with JNull => "" | _ => str_strip (json_str raw) end in
  if bool_decide (text = "") then
    if required then Raise (LedgerError (field +:+ " is required")) else Ok None
  else if max_len <? Z.of_nat (String.length text)
  then Raise (LedgerError (field +:+ " must be at most " +:+ pretty max_len +:+ " characters"))
  else Ok (Some text).

(** ** Cents *)

Definition floor_cents (value : decimal) : result decimal := quantize ROUND_DOWN value CENT_EXP.
Definition round_cents (value : decimal) : result decimal := quantize ROUND_HALF_UP value CENT_EXP.

(** [amount * pct / Decimal(100)] *)
Definition percent (amount pct : decimal) : decimal := default (Dec 0 0) (dec_div (dec_mul amount pct) (Dec 100 0)).

Definition fee_for (amount fee_pct : decimal) : result decimal := round_cents (percent amount fee_pct).

Definition deposit_bonus (amount pct : decimal) (cap : option decimal) : result decimal :=
  let? bonus := round_cents (percent amount pct) in
  Ok (match cap with None => bonus | Some cap => dec_min bonus cap end).

(** The JSON form: a float rounded to cents. *)
Definition money (value : option decimal) : result (option float64) :=
  match value with
  | None => Ok None
  | Some v => let? r := round_cents v in
              Ok (Some (float_of_dec (d_coef r <? 0) (Z.abs (d_coef r)) (d_exp r)))
  end.

(** ** Figures

    The dicts have the four wallets as keys from the start: functions. *)

Definition add_to (out : wallet -> decimal) (w : wallet) (amount : decimal) : wallet -> decimal :=
  fun w' => if decide (w' = w) then dec_add (out w) amount else out w'.

Definition balance (entries : list (wallet * decimal)) : wallet -> decimal :=
  foldl (fun out e => add_to out e.1 e.2) (fun _ => Dec 0 0) entries.

Definition holds (open_withdrawals : list decimal) (open_transfers : list (wallet * decimal)) : wallet -> decimal :=
  let out := foldl (fun out amount => add_to out WMain amount) (fun _ => Dec 0 0) open_withdrawals in
  foldl (fun out e => add_to out e.1 e.2) out open_transfers.

Definition available (balance hold : decimal) : result decimal := floor_cents (dec_sub balance hold).

(** ** Transitions *)

Definition DEPOSIT_TRANSITIONS (s : req_status) : list req_status :=
  match s with SPending => [SConfirmed; SRejected; SCancelled] | _ => [] end.
Definition WITHDRAWAL_TRANSITIONS (s : req_status) : list req_status :=
  match s with SRequested => [SApproved; SRejected; SCancelled] | SApproved => [SPaid; SRejected] | _ => [] end.
Definition TRANSFER_TRANSITIONS (s : req_status) : list req_status :=
  match s with SRequested => [SApproved; SDone; SRejected; SCancelled] | SApproved => [SDone; SRejected] | _ => [] end.
Definition DESTINATION_TRANSITIONS (s : req_status) : list req_status :=
  match s with SPending => [SApproved; SRejected; SRemoved] | SApproved => [SRemoved] | _ => [] end.

Definition _TRANSITIONS (t : req_table) : req_status -> list req_status :=
  match t with
  | Deposits => DEPOSIT_TRANSITIONS
  | Withdrawals => WITHDRAWAL_TRANSITIONS
  | Transfers => TRANSFER_TRANSITIONS
  | PayoutDestinations => DESTINATION_TRANSITIONS
  end.

Definition can_transition (t : req_table) (current new : req_status) : bool :=
  bool_decide (new ∈ _TRANSITIONS t current).

(** ** Transfers *)

(** A wallet, or the trading account. *)
Inductive endpoint := EWallet (w : wallet) | EAccount.
#[export] Instance endpoint_eq_dec : EqDecision endpoint.
Proof. solve_decision. Defined.

Definition TRANSFER_PAIRS : list (endpoint * endpoint) :=
  [(EWallet WMain, EAccount); (EAccount, EWallet WMain); (EWallet WPamm, EWallet WMain);
   (EWallet WSocial, EWallet WMain); (EWallet WCredit, EAccount)].

(** [MoneyRef]: an end of a transfer as the request names it. *)
Record MoneyRef := { mr_kind : string; mr_wallet : option string; mr_account_id : option Z }.

Definition _NOT_ALLOWED : exn := LedgerError "that transfer is not allowed".

Definition wallet_of_name (s : string) : option wallet := od_get s ((fun w => (wallet_name w, w)) <$> WALLETS).

Definition _end (ref : MoneyRef) : result endpoint :=
  match bool_decide (mr_kind ref = "wallet"), mr_wallet ref ≫= wallet_of_name with
  | true, Some w => Ok (EWallet w)
  | _, _ =>
      if bool_decide (mr_kind ref = "account") && bool_decide (is_Some (mr_account_id ref))
      then Ok EAccount else Raise _NOT_ALLOWED
  end.

Definition transfer_pair (source target : MoneyRef) : result (endpoint * endpoint) :=
  let? s := _end source in
  let? t := _end target in
  if bool_decide ((s, t) ∈ TRANSFER_PAIRS) then Ok (s, t) else Raise _NOT_ALLOWED.

(** ** What an accepted amount is *)

Lemma parse_amount_spec raw field d :
  parse_amount raw field = Ok d -> exists c, has_cents d c /\ 0 < c < 10 ^ 14.
Proof.
  unfold parse_amount. intros H.
  assert (exists value q, quantize ROUND_HALF_EVEN value CENT_EXP = Ok q /\ dec_leb value (Dec 0 0) = false /\
    dec_eqb value q = true /\ dec_leb (Dec (10 ^ MAX_INTEGER_DIGITS) 0) value = false /\ d = value)
    as (value & q & Hq & Hpos & Heq & Hlt & ->).
  { destruct raw as [|b|z|f|s|l|l|e]; try done; [| |destruct s as [|a s]; [done|]| | |].
    2: destruct f; try done.
    all: destruct (dec_parse _) as [[value| |]|]; try done;
      destruct (dec_leb value (Dec 0 0)) eqn:E1; [done|];
      (destruct (quantize _ _ _) as [q|] eqn:E2; [|done]);
      (destruct (dec_eqb value q) eqn:E3; [|done]); simpl in H;
      (destruct (dec_leb (Dec _ _) _) eqn:E4; [done|]); simplify_eq; by eexists _, _. }
  apply quantize_inv in Hq as [He _]. destruct q as [c e]. cbn [d_exp] in He. subst e.
  apply is_dec_eqb_inv in Heq. exists c. split; [exact Heq|].
  rewrite (is_dec_leb value (Dec 0 0) c 0 (-2)) in Hpos by (done || apply is_dec_zero).
  rewrite (is_dec_leb (Dec _ 0) value (10 ^ 14) c (-2)) in Hlt by done. bsimp. lia.
Qed.

(** ** Exact figures *)

Section figures.

Definition cents_of (l : list (wallet * Z)) (w : wallet) : Z :=
  Zsum (snd <$> filter (fun e => e.1 = w) l).

(** How much money moves in total: no figure can exceed it. *)
Definition turnover {A} (l : list (A * Z)) : Z := Zsum ((fun e => Z.abs e.2) <$> l).

Lemma cents_of_app l k w : cents_of (l ++ k) w = cents_of l w + cents_of k w.
Proof. unfold cents_of. by rewrite filter_app, fmap_app, Zsum_app. Qed.

Lemma turnover_app {A} (l k : list (A * Z)) : turnover (l ++ k) = turnover l + turnover k.
Proof. unfold turnover. by rewrite fmap_app, Zsum_app. Qed.

Lemma turnover_cons {A} (a : A) c l : turnover ((a, c) :: l) = Z.abs c + turnover l.
Proof. done. Qed.

Lemma turnover_nonneg {A} (l : list (A * Z)) : 0 <= turnover l.
Proof. apply Zsum_nonneg. apply Forall_fmap, Forall_true. intros. simpl. lia. Qed.

Lemma cents_of_bound l w : Z.abs (cents_of l w) <= turnover l.
Proof.
  unfold cents_of, turnover. induction l as [|[v c] l IH]; [done|]. rewrite filter_cons. csimpl.
  case_decide; csimpl; rewrite ?Zsum_cons; lia.
Qed.

(** A dict of decimals that is a dict of cents. *)
Definition figures_are (out : wallet -> decimal) (f : wallet -> Z) : Prop := forall w, has_cents (out w) (f w).

Lemma add_all_exact out f (l : list (wallet * Z)) (ds : list (wallet * decimal)) B :
  figures_are out f -> (forall w, Z.abs (f w) <= B) -> B + turnover l < 10 ^ PREC ->
  Forall2 (fun d e => d.1 = e.1 /\ has_cents d.2 e.2) ds l ->
  figures_are (foldl (fun out e => add_to out e.1 e.2) out ds) (fun w => f w + cents_of l w).
Proof.
  intros Hout Hf HB Hds. revert out f B Hout Hf HB.
  induction Hds as [|[w d] [w' c] ds l [Hw Hd] Hds IH]; intros out f B Hout Hf HB; simpl in *; subst.
  - intros w. specialize (Hout w). unfold cents_of. simpl. by rewrite Z.add_0_r.
  - rewrite turnover_cons in HB. pose proof (turnover_nonneg l).
    specialize (IH (add_to out w' d) (fun w => f w + (if decide (w = w') then c else 0)) (B + Z.abs c)).
    intros w. assert (cents_of ((w', c) :: l) w = (if decide (w = w') then c else 0) + cents_of l w) as ->.
    { unfold cents_of. rewrite filter_cons. simpl. repeat case_decide; simplify_eq; done. }
    rewrite Z.add_assoc. apply IH.
    + intros v. unfold add_to. case_decide as E; [subst|by rewrite Z.add_0_r].
      apply is_dec_add; [apply Hout|done|]. specialize (Hf w'). lia.
    + intros v. specialize (Hf v). case_decide; lia.
    + lia.
Qed.

Definition as_decs {A} (l : list (A * Z)) : list (A * decimal) := prod_map id of_cents <$> l.

Lemma as_decs_exact {A} (l : list (A * Z)) : Forall2 (fun d e => d.1 = e.1 /\ has_cents d.2 e.2) (as_decs l) l.
Proof. unfold as_decs. induction l as [|[w c] l IH]; [constructor|]. constructor; [|done]. split; [done|apply has_cents_of_cents]. Qed.

(** The balances of entries read from the database, while all the money that
    ever moved fits 28 digits. *)
Lemma balance_exact l : turnover l < 10 ^ PREC -> figures_are (balance (as_decs l)) (cents_of l).
Proof.
  intros H. intros w. replace (cents_of l w) with (0 + cents_of l w) by lia.
  apply (add_all_exact (fun _ => Dec 0 0) (fun _ => 0) l _ 0); [intros v; apply is_dec_zero|done|done|apply as_decs_exact].
Qed.

Lemma main_holds ws o :
  foldl (fun out amount => add_to out WMain amount) o (of_cents <$> ws) =
  foldl (fun out e => add_to out e.1 e.2) o (as_decs ((fun c => (WMain, c)) <$> ws)).
Proof. revert o. induction ws as [|c ws IH]; intros o; csimpl; [done|]. apply IH. Qed.

Lemma holds_exact (ws : list Z) (ts : list (wallet * Z)) :
  turnover ((fun c => (WMain, c)) <$> ws) + turnover ts < 10 ^ PREC ->
  figures_are (holds (of_cents <$> ws) (as_decs ts)) (cents_of (((fun c => (WMain, c)) <$> ws) ++ ts)).
Proof.
  intros H. set (l := (fun c => (WMain, c)) <$> ws) in *. pose proof (turnover_nonneg ts). pose proof (turnover_nonneg l).
  assert (figures_are (foldl (fun out amount => add_to out WMain amount) (fun _ => Dec 0 0) (of_cents <$> ws)) (cents_of l)) as Hmain.
  { rewrite main_holds. apply balance_exact. lia. }
  intros w. rewrite cents_of_app. unfold holds.
  apply (add_all_exact _ (cents_of l) ts _ (turnover l)); [done|intros v; apply cents_of_bound|done|apply as_decs_exact].
Qed.

(** The available figure is the exact difference. *)
Lemma available_exact b h x y :
  has_cents b x -> has_cents h y -> Z.abs (x - y) < 10 ^ PREC -> available b h = Ok (of_cents (x - y)).
Proof. intros Hb Hh Hlt. apply quantize_cents; [by apply is_dec_sub|done]. Qed.
End figures.

(** ** Fees and bonuses *)

(** A share of an amount in thousandths of a percent, rounded half up. *)
Definition share (c p : Z) : Z := (2 * (c * p) + 10 ^ 5) / (2 * 10 ^ 5).

Lemma share_bounds c p : 0 <= c -> 0 <= p <= 10 ^ 5 -> 0 <= share c p <= c.
Proof.
  intros Hc Hp. unfold share. split; [apply Z.div_pos; nia|].
  apply Z.lt_succ_r, Z.div_lt_upper_bound; [lia|]. nia.
Qed.

Lemma percent_exact amount pct c p :
  has_cents amount c -> is_dec pct p (-3) -> 0 <= c < 10 ^ 14 -> 0 <= p <= 10 ^ 5 ->
  is_dec (percent amount pct) (c * p) (-7).
Proof.
  intros Ha Hp Hc Hp'. assert (Z.abs (c * p) < 10 ^ PREC) as Hlt by (unfold PREC; nia).
  pose proof (is_dec_mul amount pct c p (-2) (-3) Ha Hp Hlt) as Hm. unfold percent.
  assert (0 <= d_coef (dec_mul amount pct) < 10 ^ PREC) as Hd.
  { split.
    - unfold is_dec in Hm. assert (0 < 10 ^ Z.max (d_exp (dec_mul amount pct) - (-2 + -3)) 0) by (apply pow10_pos; lia).
      assert (0 < 10 ^ Z.max (-2 + -3 - d_exp (dec_mul amount pct)) 0) by (apply pow10_pos; lia). nia.
    - unfold dec_mul. pose proof (dec_fix_coef (Dec (d_coef amount * d_coef pct) (d_exp amount + d_exp pct))). lia. }
  destruct (is_dec_div_pow10 _ _ _ 2 Hm Hd ltac:(lia)) as (q & Hq & Hv).
  change (Dec (10 ^ 2) 0) with (Dec 100 0) in Hq. rewrite Hq. exact Hv.
Qed.

Lemma round_percent amount pct c p :
  has_cents amount c -> is_dec pct p (-3) -> 0 <= c < 10 ^ 14 -> 0 <= p <= 10 ^ 5 ->
  round_cents (percent amount pct) = Ok (of_cents (share c p)).
Proof.
  intros Ha Hp Hc Hp'. pose proof (percent_exact amount pct c p Ha Hp Hc Hp') as Hv.
  pose proof (share_bounds c p ltac:(lia) Hp') as Hb. unfold round_cents. apply quantize_rescaled.
  - rewrite (is_dec_rescale_half_up _ (c * p) (-7) (-2)) by (done || nia). done.
  - unfold PREC. lia.
  - destruct (is_dec_digits _ (c * p) (-7) Hv) as [?|?]; [unfold PREC; nia|by left|right; lia].
Qed.

(** Fees and bonuses are exact.  For an amount below ten to the twelfth and
    a percentage with three decimals, up to 100, the fee the code computes in
    28-digit decimal arithmetic is the exact percentage rounded half up to the
    cent: never negative, never more than the amount; and a deposit bonus is the
    same share, cut at the cap. *)
Theorem shares_exact amount pct c p cap k :
  has_cents amount c -> is_dec pct p (-3) -> 0 <= c < 10 ^ 14 -> 0 <= p <= 10 ^ 5 ->
  fee_for amount pct = Ok (of_cents (share c p)) /\ 0 <= share c p <= c /\
  deposit_bonus amount pct None = Ok (of_cents (share c p)) /\
  (has_cents cap k -> exists b, deposit_bonus amount pct (Some cap) = Ok b /\ has_cents b (Z.min (share c p) k)).
Proof.
  intros Ha Hp Hc Hp'. pose proof (round_percent amount pct c p Ha Hp Hc Hp') as Hr.
  pose proof (share_bounds c p ltac:(lia) Hp') as Hb.
  split; [exact Hr|]. split; [done|]. unfold deposit_bonus. rewrite Hr. simpl. split; [done|]. intros Hk.
  eexists. split; [done|]. unfold dec_min.
  rewrite (is_dec_ltb cap (of_cents (share c p)) k (share c p) (-2)) by (done || apply has_cents_of_cents).
  destruct (Z.ltb_spec k (share c p)); [by rewrite Z.min_r by lia|rewrite Z.min_l by lia; apply has_cents_of_cents].
Qed.

Lemma shares_exact_witness :
  fee_for (Dec 25050 (-2)) (Dec 1500 (-3)) = Ok (of_cents 376) /\ 0 <= 376 <= 25050 /\
  deposit_bonus (Dec 25050 (-2)) (Dec 1500 (-3)) None = Ok (of_cents 376) /\
  (has_cents (Dec 3 0) 300 -> exists b, deposit_bonus (Dec 25050 (-2)) (Dec 1500 (-3)) (Some (Dec 3 0)) = Ok b /\ has_cents b (Z.min 376 300)).
Proof. apply (shares_exact (Dec 25050 (-2)) (Dec 1500 (-3)) 25050 1500 (Dec 3 0) 300); [reflexivity|reflexivity|lia|lia]. Defined.
