(* ===== verification/Mpin.v ===== *)
(** * The MPIN check of the web API: [api/mpin_core.py]

    The connection is in autocommit mode ([api/db.py]), so each SQL statement
    is atomic and the statements of concurrent requests interleave.  A request
    is therefore a thread whose steps are the statements of [check_mpin], and
    the API's clock and the database's are two clocks.  Argon2 is a parameter:
    [verify hash guess]. *)

From S2P Require Import Prelude.

Definition MPIN_MAX_ATTEMPTS : Z := 5.
Definition MPIN_LOCK_MINUTES : Z := 15.
(** [timedelta(minutes=MPIN_LOCK_MINUTES)], in microseconds *)
Definition LOCK_US : Z := MPIN_LOCK_MINUTES * 60 * 1000000.

(** The MPIN columns of a row of [users]. *)
Record user_row := { u_mpin_hash : option string; u_failed : Z; u_locked_until : option Z }.
Abbreviation users := (gmap Z user_row).

(** ** The statements *)

(** [mpin_locked_until IS NULL OR mpin_locked_until <= now()] *)
Definition unlocked (now : Z) (u : user_row) : bool :=
  match u_locked_until u with None => true | Some t => t <=? now end.

(** [UPDATE users SET mpin_failed_attempts = mpin_failed_attempts + 1 WHERE
    ... RETURNING mpin_failed_attempts, mpin_hash] *)
Definition reserve (user_id now : Z) (s : users) : option (Z * string) * users :=
  match s !! user_id with
  | Some u =>
      match u_mpin_hash u with
      | Some h =>
          if unlocked now u && (u_failed u <? MPIN_MAX_ATTEMPTS)
          then (Some (u_failed u + 1, h),
                <[user_id := {| u_mpin_hash := Some h; u_failed := u_failed u + 1;
                                u_locked_until := u_locked_until u |}]> s)
          else (None, s)
      | None => (None, s)
      end
  | None => (None, s)
  end.

(** [lock_state]; [None] is the 401 of a missing user. *)
Definition lock_state (user_id : Z) (s : users) : option (option string * Z * option Z) :=
  (fun u => (u_mpin_hash u, u_failed u, u_locked_until u)) <$> s !! user_id.

(** The [UPDATE] of [_lock] *)
Definition _lock (user_id until : Z) (s : users) : users :=
  alter (fun u => {| u_mpin_hash := u_mpin_hash u; u_failed := 0; u_locked_until := Some until |}) user_id s.

(** The [UPDATE] after a right guess *)
Definition clear_lock (user_id : Z) (s : users) : users :=
  alter (fun u => {| u_mpin_hash := u_mpin_hash u; u_failed := 0; u_locked_until := None |}) user_id s.

(** ** The request as a thread *)

Inductive response :=
  | Passed                                (* [None]: the MPIN is right *)
  | NotAuthenticated                      (* 401, no such user *)
  | NotSet                                (* 409 *)
  | Locked (until : Z)                    (* 423 *)
  | Invalid (attempts_left : Z).          (* 401 *)

(** Where a request is, with the values it has read. *)
Inductive pc :=
  | Begin                                           (* nothing done yet *)
  | Reserving (now : Z)                             (* [now = datetime.now(...)] read *)
  | Looking                                         (* no try reserved *)
  | Judging (locked_until : option Z)               (* [SELECT now()] is next *)
  | Locking (until : Z)                             (* [_lock] is next *)
  | Verifying (now attempts : Z) (hash : string)    (* a try is reserved *)
  | Clearing                                        (* the guess was right *)
  | Done (r : response).

Section check_mpin.
Context (verify : string -> string -> bool).
Context (user_id : Z) (mpin : string).

(** One statement of [check_mpin], with the two clocks' readings.  The argon2
    verification is part of the step it precedes. *)
Definition step (api_now db_now : Z) (p : pc) (s : users) : pc * users :=
  match p with
  | Begin => (Reserving api_now, s)
  | Reserving now =>
      match reserve user_id db_now s with
      | (Some (attempts, hash), s') => (Verifying now attempts hash, s')
      | (None, s') => (Looking, s')
      end
  | Looking =>
      match lock_state user_id s with
      | None => (Done NotAuthenticated, s)
      | Some (None, _, _) => (Done NotSet, s)
      | Some (Some _, _, until) => (Judging until, s)
      end
  | Judging until =>
      match until with
      | Some t => if t <=? db_now then (Locking (db_now + LOCK_US), s) else (Done (Locked t), s)
      | None => (Locking (db_now + LOCK_US), s)
      end
  | Locking until => (Done (Locked until), _lock user_id until s)
  | Verifying now attempts hash =>
      if verify hash mpin then (Clearing, s)
      else if MPIN_MAX_ATTEMPTS <=? attempts then (Locking (now + LOCK_US), s)
      else (Done (Invalid (MPIN_MAX_ATTEMPTS - attempts)), s)
  | Clearing => (Done Passed, clear_lock user_id s)
  | Done r => (Done r, s)
  end.

(** A request that runs alone; both clocks stand still. *)
Fixpoint run_steps (n : nat) (api_now db_now : Z) (ps : pc * users) : pc * users :=
  match n with
  | O => ps
  | S n' => run_steps n' api_now db_now (step api_now db_now ps.1 ps.2)
  end.

Definition check_mpin (api_now db_now : Z) (s : users) : pc * users :=
  run_steps 5 api_now db_now (Begin, s).
End check_mpin.

(** [MPIN_RE.fullmatch] *)
Definition six_digits (s : string) : bool :=
  (String.length s =? 6)%nat &&
  forallb (fun c => (48 <=? Z.of_nat (Ascii.nat_of_ascii c)) && (Z.of_nat (Ascii.nat_of_ascii c) <=? 57))
    (String.list_ascii_of_string s).

(** [require_mpin]: [None] is the 400, and no try is spent. *)
Definition require_mpin (verify : string -> string -> bool) (user_id : Z) (mpin : string)
    (api_now db_now : Z) (s : users) : option (pc * users) :=
  if six_digits mpin then Some (check_mpin verify user_id mpin api_now db_now s) else None.

(** ** A request alone *)

(** A request running alone always gets its answer, and it is the documented
    one: refused while locked or out of tries, else the guess is verified. *)
Lemma check_mpin_answers verify uid mpin api db s u h :
  s !! uid = Some u -> u_mpin_hash u = Some h ->
  (check_mpin verify uid mpin api db s).1 = Done
    (if unlocked db u && (u_failed u <? MPIN_MAX_ATTEMPTS)
     then if verify h mpin then Passed
          else if MPIN_MAX_ATTEMPTS <=? u_failed u + 1 then Locked (api + LOCK_US)
          else Invalid (MPIN_MAX_ATTEMPTS - (u_failed u + 1))
     else match u_locked_until u with
          | Some t => if t <=? db then Locked (db + LOCK_US) else Locked t
          | None => Locked (db + LOCK_US)
          end).
Proof.
  intros Hu Hh. unfold check_mpin.
  assert (run_steps verify uid mpin 5 api db (Begin, s) =
          run_steps verify uid mpin 3 api db (step verify uid mpin api db (Reserving api) s)) as -> by done.
  unfold step at 1, reserve. rewrite Hu, Hh.
  destruct (unlocked db u && (u_failed u <? MPIN_MAX_ATTEMPTS)); cbn.
  - destruct (verify h mpin); [done|]. cbn. destruct (MPIN_MAX_ATTEMPTS <=? u_failed u + 1); done.
  - unfold lock_state. rewrite Hu. cbn. rewrite Hh. cbn.
    destruct (u_locked_until u) as [t|]; cbn; [|done]. destruct (t <=? db); done.
Qed.

(** ** Concurrent requests *)

Record request := {
  rq_user : Z;
  rq_mpin : string;
  rq_pc : pc;
  rq_read : Z          (* the database's time when the request last read a clock *)
}.

Record world := {
  w_users : users;
  w_requests : list request;
  w_time : Z;                (* the database's clock *)
  w_tries : list Z           (* when the target's MPIN was tried, newest first *)
}.

(** Does this step read a clock? *)
Definition reads_clock (p : pc) : bool := match p with Begin | Judging _ => true | _ => false end.

Section attack.
Context (verify : string -> string -> bool).
(** The user under attack; how far the API's clock may be behind; how long a
    request may take from reading a clock to writing the lock. *)
Context (target behind latency : Z).

Definition advance (q : request) (p : pc) (t : Z) : request :=
  {| rq_user := rq_user q; rq_mpin := rq_mpin q; rq_pc := p;
     rq_read := if reads_clock (rq_pc q) then t else rq_read q |}.

(** Does the step from [p] to [p'] spend a try of the target? *)
Definition tries (q : request) (p' : pc) (t : Z) (log : list Z) : list Z :=
  match rq_pc q, p' with
  | Reserving _, Verifying _ _ _ => if rq_user q =? target then t :: log else log
  | _, _ => log
  end.

(** One statement of one request, at a later time; every guess at the target's
    MPIN is wrong. *)
Inductive attack : world -> world -> Prop :=
  | arrive w uid guess :
      attack w {| w_users := w_users w; w_time := w_time w; w_tries := w_tries w;
                  w_requests := w_requests w ++ [{| rq_user := uid; rq_mpin := guess; rq_pc := Begin; rq_read := w_time w |}] |}
  | proceed w i q p' s' api t :
      w_requests w !! i = Some q -> w_time w <= t ->
      step verify (rq_user q) (rq_mpin q) api t (rq_pc q) (w_users w) = (p', s') ->
      (rq_pc q = Begin -> t - behind <= api) ->
      (forall until, rq_pc q = Locking until -> t - rq_read q <= latency) ->
      (rq_user q = target -> p' <> Clearing) ->
      attack w {| w_users := s'; w_time := t; w_tries := tries q p' t (w_tries w);
                  w_requests := <[i := advance q p' t]> (w_requests w) |}.

(** The time that five wrong tries buy. *)
Definition window : Z := LOCK_US - latency - behind.

Definition request_ok (q : request) : Prop :=
  match rq_pc q with
  | Reserving now | Verifying now _ _ => rq_read q - behind <= now
  | Locking until => rq_read q - behind + LOCK_US <= until
  | Clearing => rq_user q <> target
  | _ => True
  end.

(** Tries older than the counter's are paid for by a lock. *)
Definition paid (u : user_row) (log : list Z) : Prop :=
  0 <= u_failed u /\
  forall j t, u_failed u <= Z.of_nat j -> log !! j = Some t ->
    exists l, u_locked_until u = Some l /\ t + window <= l.

Record attack_inv (w : world) : Prop := {
  ai_requests : Forall request_ok (w_requests w);
  ai_tries : Forall (fun t => t <= w_time w) (w_tries w);
  ai_paid : match w_users w !! target with Some u => paid u (w_tries w) | None => w_tries w = [] end;
  ai_spaced : forall j t t', w_tries w !! j = Some t -> w_tries w !! (j + 5)%nat = Some t' -> t' + window <= t
}.

(** *** The steps *)

Lemma step_request_ok q p' s s' api t :
  0 <= behind -> request_ok q -> (rq_pc q = Begin -> t - behind <= api) -> (rq_user q = target -> p' <> Clearing) ->
  step verify (rq_user q) (rq_mpin q) api t (rq_pc q) s = (p', s') -> request_ok (advance q p' t).
Proof.
  intros Hb Hq Hapi Hc Hs. unfold request_ok, advance in *. simpl. destruct (rq_pc q); simpl in *.
  - simplify_eq. simpl. by apply Hapi.
  - destruct (reserve _ _ _) as [[[]|] ?]; by simplify_eq.
  - destruct (lock_state _ _) as [[[[?|] ?] ?]|]; by simplify_eq.
  - destruct locked_until as [l|]; [destruct (l <=? t)|]; simplify_eq; simpl; lia || done.
  - by simplify_eq.
  - destruct (verify _ _); [simplify_eq; simpl; intros E; by apply Hc in E|].
    destruct (_ <=? _); simplify_eq; simpl; lia || done.
  - by simplify_eq.
  - by simplify_eq.
Qed.

(** What a step does to the target's row. *)
Lemma step_row q p' s s' api t :
  request_ok q -> step verify (rq_user q) (rq_mpin q) api t (rq_pc q) s = (p', s') ->
  (s' !! target = s !! target /\ tries q p' t = tries q (Done Passed) t) \/
  (exists u h, s !! target = Some u /\ unlocked t u = true /\ u_failed u < MPIN_MAX_ATTEMPTS /\
     (forall log, tries q p' t log = t :: log) /\
     s' !! target = Some {| u_mpin_hash := h; u_failed := u_failed u + 1; u_locked_until := u_locked_until u |}) \/
  (exists until, rq_pc q = Locking until /\ (forall log, tries q p' t log = log) /\
     s' !! target = (fun u => {| u_mpin_hash := u_mpin_hash u; u_failed := 0; u_locked_until := Some until |}) <$> s !! target).
Proof.
  intros Hq Hs. unfold tries, request_ok in *. destruct (rq_pc q) eqn:Ep; simpl in Hs.
  - left. by simplify_eq.
  - destruct (reserve (rq_user q) t s) as [[[att h]|] s1] eqn:Er; simplify_eq; [|left; split; [|done]];
      unfold reserve in Er; destruct (s !! rq_user q) as [u|] eqn:Eu; simplify_eq; try done;
      destruct (u_mpin_hash u) as [h'|] eqn:Eh; simplify_eq; try done;
      destruct (unlocked t u && (u_failed u <? MPIN_MAX_ATTEMPTS)) eqn:Ec; simplify_eq; try done.
    destruct (Z.eqb_spec (rq_user q) target) as [E|E]; [right; left|left].
    + bsimp. exists u, (Some h). rewrite <-E, lookup_insert_eq. by repeat split.
    + split; [by apply lookup_insert_ne|done].
  - left. destruct (lock_state _ _) as [[[[?|] ?] ?]|]; by simplify_eq.
  - left. destruct locked_until as [l|]; [destruct (l <=? t)|]; by simplify_eq.
  - simplify_eq. destruct (Z.eqb_spec (rq_user q) target) as [E|E].
    + right; right. exists until. rewrite E. unfold _lock. by rewrite lookup_alter_eq.
    + left. split; [by apply lookup_alter_ne|done].
  - left. destruct (verify _ _); [by simplify_eq|]. destruct (_ <=? _); by simplify_eq.
  - simplify_eq. left. split; [by apply lookup_alter_ne|done].
  - left. by simplify_eq.
Qed.

Lemma attack_step_inv w w' :
  0 <= behind -> attack w w' -> attack_inv w -> attack_inv w'.
Proof.
  intros Hb Hstep [Hreq Htries Hpaid Hsp].
  destruct Hstep as [w uid guess|w i q p' s' api t Hi Ht Hs Hapi Hlat Hc].
  { split; simpl; [|done..]. apply Forall_app. split; [done|]. by repeat constructor. }
  assert (request_ok q) as Hq by (by eapply Forall_lookup_1).
  pose proof (step_request_ok q p' _ s' api t Hb Hq Hapi Hc Hs) as Hq'.
  assert (Forall (fun x => x <= t) (w_tries w)) as Hle
    by (eapply Forall_impl; [exact Htries|]; simpl; intros; lia).
  destruct (step_row q p' _ s' api t Hq Hs)
    as [[Hrow Htr]|[(u & h & Hu & Hun & Hlt & Htr & Hrow)|(until & Hpc & Htr & Hrow)]].
  - assert (tries q p' t (w_tries w) = w_tries w) as E
      by (rewrite Htr; unfold tries; by destruct (rq_pc q)).
    split; simpl; rewrite ?E; [by apply Forall_insert|done|by rewrite Hrow|done].
  - rewrite Hu in Hpaid. destruct Hpaid as [Hnn Hpay].
    split; simpl; rewrite ?Htr; [by apply Forall_insert|by constructor| |].
    + rewrite Hrow. split; simpl; [lia|]. intros [|j] x Hj Hx; simpl in *; [lia|]. apply (Hpay j); [lia|done].
    + intros [|j] x x' Hx Hx'; simpl in *; [|by eapply Hsp]. simplify_eq.
      destruct (Hpay 4%nat x') as (l & Hl & Hw); [unfold MPIN_MAX_ATTEMPTS in Hlt; lia|done|].
      unfold unlocked in Hun. rewrite Hl in Hun. bsimp. lia.
  - split; simpl; rewrite ?Htr; [by apply Forall_insert|done| |done].
    rewrite Hrow. destruct (w_users w !! target) as [u|]; simpl; [|done]. split; simpl; [lia|].
    intros j x _ Hx. exists until. split; [done|]. rewrite Forall_lookup in Hle. specialize (Hle j x Hx).
    specialize (Hlat until Hpc). unfold request_ok in Hq. rewrite Hpc in Hq. unfold window. simpl in *. lia.
Qed.

(** C40: five wrong guesses at an MPIN, wherever they come from and however
    their requests interleave, buy a pause.  From any state of the table with
    no request in flight, as long as every guess at the user's MPIN is wrong,
    any six tries span at least the lock time, less how far the API's clock is
    behind the database's and how long a request takes. *)
Theorem mpin_guess_bound w0 w :
  0 <= behind -> w_requests w0 = [] -> w_tries w0 = [] ->
  (forall u, w_users w0 !! target = Some u -> 0 <= u_failed u) ->
  rtc attack w0 w ->
  forall j t t', w_tries w !! j = Some t -> w_tries w !! (j + 5)%nat = Some t' -> t' + window <= t.
Proof.
  intros Hb Hr Ht Hn Hrtc.
  assert (attack_inv w0) as Hinv.
  { split; rewrite ?Hr, ?Ht; [by constructor|by constructor| |].
    - destruct (w_users w0 !! target) as [u|] eqn:Hu; [|done]. split; [by apply Hn|]. intros j t _ H. by rewrite lookup_nil in H.
    - intros j t t' H. by rewrite lookup_nil in H. }
  apply ai_spaced. clear Hr Ht Hn. induction Hrtc as [|x y z Hxy _ IH]; [done|].
  apply IH. by eapply attack_step_inv.
Qed.
End attack.

(** ** Examples *)

(** The relation as a function of the schedule, for the examples. *)
Inductive event :=
  | Arrives (uid : Z) (guess : string)
  | Proceeds (i : nat) (api t : Z).

Definition locking (p : pc) : bool := match p with Locking _ => true | _ => false end.
Definition clearing (p : pc) : bool := match p with Clearing => true | _ => false end.

Definition play1 (verify : string -> string -> bool) (target behind latency : Z) (w : world) (e : event) : option world :=
  match e with
  | Arrives uid guess =>
      Some {| w_users := w_users w; w_time := w_time w; w_tries := w_tries w;
              w_requests := w_requests w ++ [{| rq_user := uid; rq_mpin := guess; rq_pc := Begin; rq_read := w_time w |}] |}
  | Proceeds i api t =>
      match w_requests w !! i with
      | None => None
      | Some q =>
          let r := step verify (rq_user q) (rq_mpin q) api t (rq_pc q) (w_users w) in
          if (w_time w <=? t) && (t - behind <=? api)
             && (negb (locking (rq_pc q)) || (t - rq_read q <=? latency))
             && (negb (rq_user q =? target) || negb (clearing r.1))
          then Some {| w_users := r.2; w_time := t; w_tries := tries target q r.1 t (w_tries w);
                       w_requests := <[i := advance q r.1 t]> (w_requests w) |}
          else None
      end
  end.

Definition play verify target behind latency (w : world) (es : list event) : option world :=
  foldl (fun ow e => w ← ow; play1 verify target behind latency w e) (Some w) es.

Lemma play1_attack verify target behind latency w e w' :
  play1 verify target behind latency w e = Some w' -> attack verify target behind latency w w'.
Proof.
  destruct e as [uid guess|i api t]; simpl; [intros [= <-]; constructor|].
  destruct (w_requests w !! i) as [q|] eqn:Hq; [|done].
  destruct (step verify (rq_user q) (rq_mpin q) api t (rq_pc q) (w_users w)) as [p' s'] eqn:Hs. simpl.
  destruct (_ && _) eqn:Hg; [|done]. intros [= <-]. rewrite !andb_true_iff, !orb_true_iff, !negb_true_iff in Hg.
  destruct Hg as [[[Ht Hapi] Hl] Hc].
  eapply (proceed _ _ _ _ w i q p' s' api t); [done|lia|done|intros; lia| |].
  - intros l E. rewrite E in Hl. simpl in Hl. destruct Hl; [done|lia].
  - intros E F. rewrite F in Hc. simpl in Hc. destruct Hc; [lia|done].
Qed.

Lemma play_attack verify target behind latency es : forall w w',
  play verify target behind latency w es = Some w' -> rtc (attack verify target behind latency) w w'.
Proof.
  induction es as [|e es IH] using rev_ind; intros w w'; unfold play; [intros [= <-]; constructor|].
  rewrite foldl_app. simpl. intros H. fold (play verify target behind latency w es) in H.
  destruct (play verify target behind latency w es) as [w1|] eqn:E; [|done].
  eapply rtc_r; [by apply IH|]. by apply (play1_attack _ _ _ _ _ e).
Qed.

Definition demo_verify (h g : string) : bool := bool_decide (h = g).
Definition demo_world : world :=
  {| w_users := {[7 := {| u_mpin_hash := Some "123456"; u_failed := 0; u_locked_until := None |}]};
     w_requests := []; w_time := 1000; w_tries := [] |}.

(** Six requests arrive together.  Five reserve a try, the sixth is refused
    after the fifth's lock; a seventh comes when the lock is over. *)
Definition demo_schedule : list event :=
  replicate 6 (Arrives 7 "000000") ++
  [Proceeds 0 1000 1000; Proceeds 1 1000 1000; Proceeds 2 1000 1001; Proceeds 3 1000 1001; Proceeds 4 1000 1001;
   Proceeds 5 1001 1001;
   Proceeds 0 1001 1002; Proceeds 1 1002 1003; Proceeds 2 1003 1004; Proceeds 3 1004 1005; Proceeds 4 1005 1006;
   Proceeds 4 1006 1007; Proceeds 4 1007 1008; Proceeds 5 1008 1009; Proceeds 5 1009 1010; Proceeds 5 1010 1011;
   Proceeds 0 1011 1012;
   Arrives 7 "000001"; Proceeds 6 (1000 + LOCK_US) (1000 + LOCK_US); Proceeds 6 (1001 + LOCK_US) (1001 + LOCK_US)].

Definition demo_tried : world := default demo_world (play demo_verify 7 1 50 demo_world demo_schedule).

Example demo_tries : w_tries demo_tried = [1001 + LOCK_US; 1006; 1005; 1004; 1003; 1002].
Proof. reflexivity. Qed.

Lemma mpin_guess_bound_witness :
  w_tries demo_tried !! 0%nat = Some (1001 + LOCK_US) /\ w_tries demo_tried !! 5%nat = Some 1002 /\
  1002 + window 1 50 <= 1001 + LOCK_US.
Proof.
  split; [reflexivity|]. split; [reflexivity|].
  apply (mpin_guess_bound demo_verify 7 1 50 demo_world demo_tried) with (j := 0%nat);
    [lia|reflexivity|reflexivity| | |reflexivity|reflexivity].
  - intros u H. vm_compute in H. injection H as <-. vm_compute. discriminate.
  - apply (play_attack _ _ _ _ demo_schedule). vm_compute. reflexivity.
Defined.
