(* ===== verification/PortalDb.v ===== *)
(** * The client portal's database

    The tables the portal's routes read and write ([db/migrations/022] to
    [025]), as finite maps from ids to rows.  Money columns [NUMERIC(18,2)] are
    whole numbers of cents, percentages [NUMERIC(6,3)] thousandths of a percent.
    Columns with a CHECK on an enumeration are enumerated types.  Timestamps
    ([created_at], [decided_at], ...) are left out: nothing here is decided by
    them.  Inserts take their ids from the table's sequence, which a failed
    transaction does not put back. *)

From S2P Require Import Prelude PyStr PyDecimal PyFloat PyRepr PyDecOps Models Db PyJson Limiter PortalLedger Mpin.

(** ** Rows *)

Inductive member_role := RInvestor | RViewer | RAdmin.
Inductive ref_table := RefDeposits | RefWithdrawals | RefTransfers | RefBonuses.
Inductive entry_kind := KDeposit | KWithdrawal | KTransfer | KAdjustment | KBonus | KCommission | KFee.
Inductive bonus_source := BSignup | BKyc | BDeposit | BManual.
Inductive severity := Info | Warning.
Inductive topic := TMoney | TIdentity | TSupport | TBonus.
(** [deposits.target] *)
Inductive deposit_target := ToWallet | ToAccount.

#[export] Instance member_role_eq_dec : EqDecision member_role.
Proof. solve_decision. Defined.
#[export] Instance ref_table_eq_dec : EqDecision ref_table.
Proof. solve_decision. Defined.
#[export] Instance entry_kind_eq_dec : EqDecision entry_kind.
Proof. solve_decision. Defined.
#[export] Instance bonus_source_eq_dec : EqDecision bonus_source.
Proof. solve_decision. Defined.
#[export] Instance deposit_target_eq_dec : EqDecision deposit_target.
Proof. solve_decision. Defined.

Record account_row := { ac_org : Z; ac_investor : option Z; ac_role : string; ac_platform : string }.

Record file_row := { fi_org : Z; fi_user : Z; fi_purpose : string }.

Record settings_row := { st_withdrawal_min : Z; st_withdrawal_fee_pct : Z; st_max_live_accounts : Z }.

Record rules_row := {
  ru_signup_enabled : bool; ru_signup_amount : Z;
  ru_kyc_enabled : bool; ru_kyc_amount : Z;
  ru_deposit_enabled : bool; ru_deposit_pct : Z; ru_deposit_cap : option Z
}.

Record method_row := {
  me_org : Z; me_kind : string; me_label : string; me_enabled : bool; me_currency : string;
  me_details : payload; me_min_amount : Z; me_fee_pct : Z; me_instructions : option string; me_sort_order : Z
}.

Record destination_row := {
  de_org : Z; de_user : Z; de_kind : string; de_nickname : string; de_details : payload;
  de_proof : option Z; de_status : req_status; de_decided_by : option Z; de_decision_note : option string
}.

(** A reference is a pair or absent, never half of one. *)
Record entry_row := {
  we_org : Z; we_user : Z; we_wallet : wallet; we_amount : Z; we_kind : entry_kind;
  we_ref : option (ref_table * Z); we_note : option string; we_created_by : option Z
}.

Record deposit_row := {
  dp_org : Z; dp_user : Z; dp_method : option Z; dp_method_kind : string; dp_method_label : string;
  dp_amount : Z; dp_fee : Z; dp_credited : option Z; dp_reference : string; dp_receipt : option Z;
  dp_target : deposit_target; dp_target_account : option Z; dp_note : option string;
  dp_status : req_status; dp_decided_by : option Z; dp_decision_note : option string
}.

Record withdrawal_row := {
  wd_org : Z; wd_user : Z; wd_destination : Z; wd_destination_kind : string; wd_destination_summary : string;
  wd_amount : Z; wd_fee : Z; wd_net : Z; wd_status : req_status;
  wd_decided_by : option Z; wd_decision_note : option string; wd_paid_by : option Z; wd_txid : option string
}.

(** One end of a transfer: the columns [kind], [wallet] and [account_id] under
    their CHECKs.  The id of an account that was removed is NULL. *)
Inductive transfer_end := TWallet (w : wallet) | TAccount (account : option Z).
#[export] Instance transfer_end_eq_dec : EqDecision transfer_end.
Proof. solve_decision. Defined.

Record transfer_row := {
  tr_org : Z; tr_user : Z; tr_source : transfer_end; tr_target : transfer_end; tr_amount : Z;
  tr_status : req_status; tr_equity : option Z; tr_equity_verified : bool;
  tr_decided_by : option Z; tr_decision_note : option string; tr_done_by : option Z
}.

Record bonus_row := {
  bo_org : Z; bo_user : Z; bo_source : bonus_source; bo_source_id : option Z; bo_amount : Z;
  bo_note : option string; bo_created_by : option Z
}.

(** An audit row: who did what, about whom.  The free-text detail is left out. *)
Record event := {
  ev_org : Z; ev_account : option Z; ev_severity : severity; ev_action : string; ev_user : option Z; ev_actor : string
}.

(** A notification: for whom, about what, leading where.  Its words are left out. *)
Record notice := { no_org : Z; no_user : Z; no_topic : topic; no_link : string }.

(** ** Tables with a sequence *)

Record table (A : Type) := { rows : gmap Z A; next_id : Z }.
Arguments rows {A} t.
Arguments next_id {A} t.

Definition add_row {A} (r : A) (t : table A) : table A :=
  {| rows := <[next_id t := r]> (rows t); next_id := next_id t + 1 |}.
Definition set_row {A} (id : Z) (r : A) (t : table A) : table A :=
  {| rows := <[id := r]> (rows t); next_id := next_id t |}.
Definition map_rows {A} (f : A -> A) (t : table A) : table A :=
  {| rows := f <$> rows t; next_id := next_id t |}.
(** An INSERT that wrote nothing still took an id. *)
Definition skip_id {A} (t : table A) : table A := {| rows := rows t; next_id := next_id t + 1 |}.
Definition undo {A} (old t : table A) : table A := {| rows := rows old; next_id := next_id t |}.

(** [SELECT 1 FROM t WHERE p] *)
Definition any_row {A} (p : A -> bool) (m : gmap Z A) : bool := existsb (fun kv => p kv.2) (map_to_list m).

(** [SELECT SUM(f) FROM t] *)
Definition msum {A} (f : A -> Z) (m : gmap Z A) : Z := Zsum ((fun kv => f kv.2) <$> map_to_list m).

(** ** The state *)

Record portal := {
  (** [org_memberships], by org and user *)
  p_members : gmap (Z * Z) member_role;
  (** [users.email] *)
  p_emails : gmap Z string;
  (** the MPIN columns of [users] *)
  p_mpin : users;
  (** [accounts], by [ctid_trader_account_id] *)
  p_accounts : gmap Z account_row;
  (** [mt5_links.equity] where not null *)
  p_mt5_equity : gmap Z float64;
  (** [files] *)
  p_files : gmap Z file_row;
  (** files that KYC profiles and ticket messages name *)
  p_other_files : gset Z;
  (** [portal_settings], by org *)
  p_settings : gmap Z settings_row;
  (** [bonus_rules], by org *)
  p_rules : gmap Z rules_row;
  (** [payment_methods] *)
  p_methods : table method_row;
  (** [payout_destinations] *)
  p_destinations : table destination_row;
  (** [wallet_entries] *)
  p_entries : table entry_row;
  (** [deposits] *)
  p_deposits : table deposit_row;
  (** [withdrawals] *)
  p_withdrawals : table withdrawal_row;
  (** [transfers] *)
  p_transfers : table transfer_row;
  (** [bonuses] *)
  p_bonuses : table bonus_row;
  (** [events] of the portal *)
  p_events : list event;
  (** [notifications] *)
  p_notices : list notice;
  (** the routers' in-memory limiter *)
  p_hourly : limiter;
  (** [time.time()] *)
  p_api_now : Z;
  (** [now()] of the database *)
  p_db_now : Z
}.

(** ** Updates of one table *)

Definition upd_mpin (f : users -> users) (s : portal) : portal :=
  {| p_members := p_members s; p_emails := p_emails s; p_mpin := f (p_mpin s); p_accounts := p_accounts s;
  p_mt5_equity := p_mt5_equity s; p_files := p_files s; p_other_files := p_other_files s; p_settings :=
  p_settings s; p_rules := p_rules s; p_methods := p_methods s; p_destinations := p_destinations s; p_entries :=
  p_entries s; p_deposits := p_deposits s; p_withdrawals := p_withdrawals s; p_transfers := p_transfers s;
  p_bonuses := p_bonuses s; p_events := p_events s; p_notices := p_notices s; p_hourly := p_hourly s; p_api_now
  := p_api_now s; p_db_now := p_db_now s |}.
Definition upd_accounts (f : gmap Z account_row -> gmap Z account_row) (s : portal) : portal :=
  {| p_members := p_members s; p_emails := p_emails s; p_mpin := p_mpin s; p_accounts := f (p_accounts s);
  p_mt5_equity := p_mt5_equity s; p_files := p_files s; p_other_files := p_other_files s; p_settings :=
  p_settings s; p_rules := p_rules s; p_methods := p_methods s; p_destinations := p_destinations s; p_entries :=
  p_entries s; p_deposits := p_deposits s; p_withdrawals := p_withdrawals s; p_transfers := p_transfers s;
  p_bonuses := p_bonuses s; p_events := p_events s; p_notices := p_notices s; p_hourly := p_hourly s; p_api_now
  := p_api_now s; p_db_now := p_db_now s |}.
Definition upd_settings (f : gmap Z settings_row -> gmap Z settings_row) (s : portal) : portal :=
  {| p_members := p_members s; p_emails := p_emails s; p_mpin := p_mpin s; p_accounts := p_accounts s;
  p_mt5_equity := p_mt5_equity s; p_files := p_files s; p_other_files := p_other_files s; p_settings := f
  (p_settings s); p_rules := p_rules s; p_methods := p_methods s; p_destinations := p_destinations s; p_entries
  := p_entries s; p_deposits := p_deposits s; p_withdrawals := p_withdrawals s; p_transfers := p_transfers s;
  p_bonuses := p_bonuses s; p_events := p_events s; p_notices := p_notices s; p_hourly := p_hourly s; p_api_now
  := p_api_now s; p_db_now := p_db_now s |}.
Definition upd_rules (f : gmap Z rules_row -> gmap Z rules_row) (s : portal) : portal :=
  {| p_members := p_members s; p_emails := p_emails s; p_mpin := p_mpin s; p_accounts := p_accounts s;
  p_mt5_equity := p_mt5_equity s; p_files := p_files s; p_other_files := p_other_files s; p_settings :=
  p_settings s; p_rules := f (p_rules s); p_methods := p_methods s; p_destinations := p_destinations s;
  p_entries := p_entries s; p_deposits := p_deposits s; p_withdrawals := p_withdrawals s; p_transfers :=
  p_transfers s; p_bonuses := p_bonuses s; p_events := p_events s; p_notices := p_notices s; p_hourly :=
  p_hourly s; p_api_now := p_api_now s; p_db_now := p_db_now s |}.
Definition upd_methods (f : table method_row -> table method_row) (s : portal) : portal :=
  {| p_members := p_members s; p_emails := p_emails s; p_mpin := p_mpin s; p_accounts := p_accounts s;
  p_mt5_equity := p_mt5_equity s; p_files := p_files s; p_other_files := p_other_files s; p_settings :=
  p_settings s; p_rules := p_rules s; p_methods := f (p_methods s); p_destinations := p_destinations s;
  p_entries := p_entries s; p_deposits := p_deposits s; p_withdrawals := p_withdrawals s; p_transfers :=
  p_transfers s; p_bonuses := p_bonuses s; p_events := p_events s; p_notices := p_notices s; p_hourly :=
  p_hourly s; p_api_now := p_api_now s; p_db_now := p_db_now s |}.
Definition upd_destinations (f : table destination_row -> table destination_row) (s : portal) : portal :=
  {| p_members := p_members s; p_emails := p_emails s; p_mpin := p_mpin s; p_accounts := p_accounts s;
  p_mt5_equity := p_mt5_equity s; p_files := p_files s; p_other_files := p_other_files s; p_settings :=
  p_settings s; p_rules := p_rules s; p_methods := p_methods s; p_destinations := f (p_destinations s);
  p_entries := p_entries s; p_deposits := p_deposits s; p_withdrawals := p_withdrawals s; p_transfers :=
  p_transfers s; p_bonuses := p_bonuses s; p_events := p_events s; p_notices := p_notices s; p_hourly :=
  p_hourly s; p_api_now := p_api_now s; p_db_now := p_db_now s |}.
Definition upd_entries (f : table entry_row -> table entry_row) (s : portal) : portal :=
  {| p_members := p_members s; p_emails := p_emails s; p_mpin := p_mpin s; p_accounts := p_accounts s;
  p_mt5_equity := p_mt5_equity s; p_files := p_files s; p_other_files := p_other_files s; p_settings :=
  p_settings s; p_rules := p_rules s; p_methods := p_methods s; p_destinations := p_destinations s; p_entries :=
  f (p_entries s); p_deposits := p_deposits s; p_withdrawals := p_withdrawals s; p_transfers := p_transfers s;
  p_bonuses := p_bonuses s; p_events := p_events s; p_notices := p_notices s; p_hourly := p_hourly s; p_api_now
  := p_api_now s; p_db_now := p_db_now s |}.
Definition upd_deposits (f : table deposit_row -> table deposit_row) (s : portal) : portal :=
  {| p_members := p_members s; p_emails := p_emails s; p_mpin := p_mpin s; p_accounts := p_accounts s;
  p_mt5_equity := p_mt5_equity s; p_files := p_files s; p_other_files := p_other_files s; p_settings :=
  p_settings s; p_rules := p_rules s; p_methods := p_methods s; p_destinations := p_destinations s; p_entries :=
  p_entries s; p_deposits := f (p_deposits s); p_withdrawals := p_withdrawals s; p_transfers := p_transfers s;
  p_bonuses := p_bonuses s; p_events := p_events s; p_notices := p_notices s; p_hourly := p_hourly s; p_api_now
  := p_api_now s; p_db_now := p_db_now s |}.
Definition upd_withdrawals (f : table withdrawal_row -> table withdrawal_row) (s : portal) : portal :=
  {| p_members := p_members s; p_emails := p_emails s; p_mpin := p_mpin s; p_accounts := p_accounts s;
  p_mt5_equity := p_mt5_equity s; p_files := p_files s; p_other_files := p_other_files s; p_settings :=
  p_settings s; p_rules := p_rules s; p_methods := p_methods s; p_destinations := p_destinations s; p_entries :=
  p_entries s; p_deposits := p_deposits s; p_withdrawals := f (p_withdrawals s); p_transfers := p_transfers s;
  p_bonuses := p_bonuses s; p_events := p_events s; p_notices := p_notices s; p_hourly := p_hourly s; p_api_now
  := p_api_now s; p_db_now := p_db_now s |}.
Definition upd_transfers (f : table transfer_row -> table transfer_row) (s : portal) : portal :=
  {| p_members := p_members s; p_emails := p_emails s; p_mpin := p_mpin s; p_accounts := p_accounts s;
  p_mt5_equity := p_mt5_equity s; p_files := p_files s; p_other_files := p_other_files s; p_settings :=
  p_settings s; p_rules := p_rules s; p_methods := p_methods s; p_destinations := p_destinations s; p_entries :=
  p_entries s; p_deposits := p_deposits s; p_withdrawals := p_withdrawals s; p_transfers := f (p_transfers s);
  p_bonuses := p_bonuses s; p_events := p_events s; p_notices := p_notices s; p_hourly := p_hourly s; p_api_now
  := p_api_now s; p_db_now := p_db_now s |}.
Definition upd_bonuses (f : table bonus_row -> table bonus_row) (s : portal) : portal :=
  {| p_members := p_members s; p_emails := p_emails s; p_mpin := p_mpin s; p_accounts := p_accounts s;
  p_mt5_equity := p_mt5_equity s; p_files := p_files s; p_other_files := p_other_files s; p_settings :=
  p_settings s; p_rules := p_rules s; p_methods := p_methods s; p_destinations := p_destinations s; p_entries :=
  p_entries s; p_deposits := p_deposits s; p_withdrawals := p_withdrawals s; p_transfers := p_transfers s;
  p_bonuses := f (p_bonuses s); p_events := p_events s; p_notices := p_notices s; p_hourly := p_hourly s;
  p_api_now := p_api_now s; p_db_now := p_db_now s |}.
Definition upd_events (f : list event -> list event) (s : portal) : portal :=
  {| p_members := p_members s; p_emails := p_emails s; p_mpin := p_mpin s; p_accounts := p_accounts s;
  p_mt5_equity := p_mt5_equity s; p_files := p_files s; p_other_files := p_other_files s; p_settings :=
  p_settings s; p_rules := p_rules s; p_methods := p_methods s; p_destinations := p_destinations s; p_entries :=
  p_entries s; p_deposits := p_deposits s; p_withdrawals := p_withdrawals s; p_transfers := p_transfers s;
  p_bonuses := p_bonuses s; p_events := f (p_events s); p_notices := p_notices s; p_hourly := p_hourly s;
  p_api_now := p_api_now s; p_db_now := p_db_now s |}.
Definition upd_notices (f : list notice -> list notice) (s : portal) : portal :=
  {| p_members := p_members s; p_emails := p_emails s; p_mpin := p_mpin s; p_accounts := p_accounts s;
  p_mt5_equity := p_mt5_equity s; p_files := p_files s; p_other_files := p_other_files s; p_settings :=
  p_settings s; p_rules := p_rules s; p_methods := p_methods s; p_destinations := p_destinations s; p_entries :=
  p_entries s; p_deposits := p_deposits s; p_withdrawals := p_withdrawals s; p_transfers := p_transfers s;
  p_bonuses := p_bonuses s; p_events := p_events s; p_notices := f (p_notices s); p_hourly := p_hourly s;
  p_api_now := p_api_now s; p_db_now := p_db_now s |}.
Definition upd_hourly (f : limiter -> limiter) (s : portal) : portal :=
  {| p_members := p_members s; p_emails := p_emails s; p_mpin := p_mpin s; p_accounts := p_accounts s;
  p_mt5_equity := p_mt5_equity s; p_files := p_files s; p_other_files := p_other_files s; p_settings :=
  p_settings s; p_rules := p_rules s; p_methods := p_methods s; p_destinations := p_destinations s; p_entries :=
  p_entries s; p_deposits := p_deposits s; p_withdrawals := p_withdrawals s; p_transfers := p_transfers s;
  p_bonuses := p_bonuses s; p_events := p_events s; p_notices := p_notices s; p_hourly := f (p_hourly s);
  p_api_now := p_api_now s; p_db_now := p_db_now s |}.

(** What a failed transaction leaves: the rows of before, with the sequences
    and the process's own memory as they are. *)
Definition rollback (old s : portal) : portal :=
  {| p_members := p_members old; p_emails := p_emails old; p_mpin := p_mpin old; p_accounts := p_accounts old;
  p_mt5_equity := p_mt5_equity old; p_files := p_files old; p_other_files := p_other_files old; p_settings :=
  p_settings old; p_rules := p_rules old; p_methods := undo (p_methods old) (p_methods s); p_destinations :=
  undo (p_destinations old) (p_destinations s); p_entries := undo (p_entries old) (p_entries s); p_deposits :=
  undo (p_deposits old) (p_deposits s); p_withdrawals := undo (p_withdrawals old) (p_withdrawals s); p_transfers
  := undo (p_transfers old) (p_transfers s); p_bonuses := undo (p_bonuses old) (p_bonuses s); p_events :=
  p_events old; p_notices := p_notices old; p_hourly := p_hourly s; p_api_now := p_api_now s; p_db_now :=
  p_db_now s |}.

(** [with conn.transaction():] *)
Definition transaction {A} (m : M portal A) : M portal A :=
  fun s => match m s with
           | (Ok a, s') => (Ok a, s')
           | (Raise e, s') => (Raise e, rollback s s')
           end.

(** An INSERT into a table with a sequence; a constraint may refuse it. *)
Definition insert_row {A} (get : portal -> table A) (upd : (table A -> table A) -> portal -> portal)
    (refused : option exn) (r : A) : M portal Z :=
  fun s => match refused with
           | Some e => (Raise e, upd skip_id s)
           | None => (Ok (next_id (get s)), upd (add_row r) s)
           end.

Definition check_violation : exn := DatabaseError "check constraint violated".
Definition fk_violation : exn := DatabaseError "foreign key violated".
Definition refuse_unless (b : bool) (e : exn) (rest : option exn) : option exn := if b then rest else Some e.

(** A foreign key that may be NULL. *)
Definition fk_ok {V} (k : option Z) (m : gmap Z V) : bool :=
  match k with Some k => bool_decide (is_Some (m !! k)) | None => true end.

(** ** Money columns *)

(** [NUMERIC(6,3)] *)
Definition of_mils (p : Z) : decimal := Dec p (-3).
Definition to_mils (d : decimal) : result Z :=
  let c := rescale ROUND_HALF_UP d (-3) in
  if Z.abs c <? 10 ^ 6 then Ok c else Raise (DatabaseError "numeric field overflow").

(** ** Whose row *)

Definition mine (org user org' user' : Z) : bool := (org' =? org) && (user' =? user).

Definition OPEN_WITHDRAWAL_STATUSES : list req_status := [SRequested; SApproved].
Definition OPEN_TRANSFER_STATUSES : list req_status := [SRequested; SApproved].

Definition open_withdrawal (r : withdrawal_row) : bool := bool_decide (wd_status r ∈ OPEN_WITHDRAWAL_STATUSES).
Definition open_transfer (r : transfer_row) : bool := bool_decide (tr_status r ∈ OPEN_TRANSFER_STATUSES).

(** ** Accounts *)

Definition owns_account (org user : Z) (account : option Z) (s : portal) : bool :=
  match account with
  | Some a =>
      match p_accounts s !! a with
      | Some r => (ac_org r =? org) && bool_decide (ac_investor r = Some user)
      | None => false
      end
  | None => false
  end.

Definition linked_accounts (org user : Z) (s : portal) : list Z :=
  merge_sort Z.le (filter (fun a => owns_account org user (Some a) s = true) ((map_to_list (p_accounts s)).*1)).

Definition pick_account (org user : Z) (account : option Z) (field : string) (s : portal) : result Z :=
  match account with
  | Some a => if owns_account org user (Some a) s then Ok a else Raise (HTTPException 404 "Account not found")
  | None =>
      match linked_accounts org user s with
      | [] => Raise (HTTPException 409 "no account linked yet")
      | [a] => Ok a
      | _ => Raise (HTTPException 400 (field +:+ " is required"))
      end
  end.

(** ** Wallet figures *)

Definition entry_amount (org user : Z) (w : wallet) (e : entry_row) : Z :=
  if mine org user (we_org e) (we_user e) && bool_decide (we_wallet e = w) then we_amount e else 0.

(** The groups of [GROUP BY wallet]: a wallet without entries has no row. *)
Definition entry_sums (org user : Z) (s : portal) : list (wallet * Z) :=
  omap (fun w =>
    if any_row (fun e => mine org user (we_org e) (we_user e) && bool_decide (we_wallet e = w)) (rows (p_entries s))
    then Some (w, msum (entry_amount org user w) (rows (p_entries s))) else None) WALLETS.

Definition wallet_balances (org user : Z) (s : portal) : wallet -> decimal :=
  balance (as_decs (entry_sums org user s)).

Definition held_withdrawals (org user : Z) (s : portal) : list Z :=
  omap (fun kv => if mine org user (wd_org kv.2) (wd_user kv.2) && open_withdrawal kv.2 then Some (wd_amount kv.2) else None)
    (map_to_list (rows (p_withdrawals s))).

Definition held_transfers (org user : Z) (s : portal) : list (wallet * Z) :=
  omap (fun kv => match tr_source kv.2 with
                  | TWallet w => if mine org user (tr_org kv.2) (tr_user kv.2) && open_transfer kv.2
                                 then Some (w, tr_amount kv.2) else None
                  | TAccount _ => None
                  end)
    (map_to_list (rows (p_transfers s))).

Definition wallet_holds (org user : Z) (s : portal) : wallet -> decimal :=
  holds (of_cents <$> held_withdrawals org user s) (as_decs (held_transfers org user s)).

Record figures := { fg_balance : decimal; fg_on_hold : decimal; fg_available : decimal }.

(** Balances and holds as of one moment.  The code reads them in separate
    statements; every caller that compares them with an amount holds the
    investor's ledger lock ([lock_investor_ledger]), which every writer of the
    ledger takes first, so between the reads only requests that move no ledger
    row (a cancellation, a rejection) can commit, and those only free money. *)
Definition wallet_figures (org user : Z) (s : portal) : result (wallet -> figures) :=
  let balances := wallet_balances org user s in
  let held := wallet_holds org user s in
  let fig w := let? a := available (balances w) (held w) in
               Ok {| fg_balance := balances w; fg_on_hold := held w; fg_available := a |} in
  let? main := fig WMain in
  let? credit := fig WCredit in
  let? pamm := fig WPamm in
  let? social := fig WSocial in
  Ok (fun w => match w with WMain => main | WCredit => credit | WPamm => pamm | WSocial => social end).

(** ** What an account may give back *)

Definition out_of_account (org user account : Z) (r : transfer_row) : bool :=
  mine org user (tr_org r) (tr_user r) && open_transfer r && bool_decide (tr_source r = TAccount (Some account)).

Definition open_account_transfers_out (org user account : Z) (s : portal) : decimal :=
  of_cents (msum (fun r => if out_of_account org user account r then tr_amount r else 0) (rows (p_transfers s))).

Definition credit_into (org user account : Z) (r : transfer_row) : bool :=
  mine org user (tr_org r) (tr_user r) && bool_decide (tr_source r = TWallet WCredit) &&
  bool_decide (tr_target r = TAccount (Some account)).

Definition credit_transfer_open (org user account : Z) (s : portal) : bool :=
  any_row (fun r => credit_into org user account r && open_transfer r) (rows (p_transfers s)).

Definition credit_funded (org user account : Z) (s : portal) : decimal :=
  of_cents (msum (fun r => if credit_into org user account r && bool_decide (tr_status r = SDone)
                           then tr_amount r else 0) (rows (p_transfers s))).

(** A figure with an infinite or undefined equity raises in [quantize] or [max]. *)
Definition account_movable (org user account : Z) (equity : pydec) (s : portal) : result decimal :=
  match equity with
  | Fin e =>
      let? movable := floor_cents (dec_sub (dec_sub e (open_account_transfers_out org user account s))
                                           (credit_funded org user account s)) in
      Ok (dec_max movable (Dec 0 (-2)))
  | _ => Raise InvalidOperation
  end.

Definition net_funded (org user account : Z) (s : portal) : decimal :=
  of_cents (msum (fun r =>
    if mine org user (tr_org r) (tr_user r) && bool_decide (tr_status r = SDone) then
      if bool_decide (tr_target r = TAccount (Some account)) then tr_amount r
      else if bool_decide (tr_source r = TAccount (Some account)) then - tr_amount r else 0
    else 0) (rows (p_transfers s))).

(** ** Settlement *)

(** The partial unique index [(ref_table, ref_id, wallet)]. *)
Definition settled (r : ref_table * Z) (w : wallet) (e : entry_row) : bool :=
  bool_decide (we_ref e = Some r) && bool_decide (we_wallet e = w).

Definition settle (org user : Z) (w : wallet) (amount : decimal) (kind : entry_kind)
    (ref : option (ref_table * Z)) (note : option string) (created_by : option Z) : M portal bool :=
  let! cents := lift_result (to_cents amount) in
  let row := {| we_org := org; we_user := user; we_wallet := w; we_amount := cents; we_kind := kind;
                we_ref := ref; we_note := note; we_created_by := created_by |} in
  let! es := gets (fun s => rows (p_entries s)) in
  if cents =? 0 then
    let! _ := insert_row p_entries upd_entries (Some check_violation) row in ret false
  else if match ref with Some r => any_row (settled r w) es | None => false end then
    modify (upd_entries skip_id) ;;; ret false
  else
    let! _ := insert_row p_entries upd_entries None row in ret true.

(** ** Settings and bonus rules: the row is created on first read *)

Definition DEFAULT_SETTINGS : settings_row :=
  {| st_withdrawal_min := 0; st_withdrawal_fee_pct := 0; st_max_live_accounts := 5 |}.
Definition DEFAULT_RULES : rules_row :=
  {| ru_signup_enabled := false; ru_signup_amount := 0; ru_kyc_enabled := false; ru_kyc_amount := 0;
     ru_deposit_enabled := false; ru_deposit_pct := 0; ru_deposit_cap := None |}.

(** The CHECKs of the two tables. *)
Definition settings_checks (r : settings_row) : bool :=
  (0 <=? st_withdrawal_min r) && (0 <=? st_withdrawal_fee_pct r) && (st_withdrawal_fee_pct r <? 100000) &&
  (1 <=? st_max_live_accounts r) && (st_max_live_accounts r <=? 50).
Definition rules_checks (r : rules_row) : bool :=
  (0 <=? ru_signup_amount r) && (0 <=? ru_kyc_amount r) && (0 <=? ru_deposit_pct r) && (ru_deposit_pct r <=? 100000) &&
  match ru_deposit_cap r with Some c => 0 <? c | None => true end.

Definition get_or_create {V} (k : Z) (d : V) (m : gmap Z V) : gmap Z V :=
  match m !! k with Some _ => m | None => <[k := d]> m end.

Definition portal_settings (org : Z) : M portal settings_row :=
  modify (upd_settings (get_or_create org DEFAULT_SETTINGS)) ;;;
  gets (fun s => default DEFAULT_SETTINGS (p_settings s !! org)).

Definition bonus_rules (org : Z) : M portal rules_row :=
  modify (upd_rules (get_or_create org DEFAULT_RULES)) ;;;
  gets (fun s => default DEFAULT_RULES (p_rules s !! org)).

(** ** Bonuses *)

Definition rule_bonus (org : Z) (source : bonus_source) (base : option decimal) : M portal decimal :=
  match source, base with
  | BManual, _ => raise (ValueError "rule_bonus does not pay the 'manual' source; use pay_bonus directly")
  | BDeposit, None => raise (ValueError "rule_bonus requires base for source 'deposit'")
  | BDeposit, Some base =>
      let! rules := bonus_rules org in
      if ru_deposit_enabled rules
      then lift_result (deposit_bonus base (of_mils (ru_deposit_pct rules)) (of_cents <$> ru_deposit_cap rules))
      else ret (Dec 0 0)
  | BSignup, _ =>
      let! rules := bonus_rules org in
      ret (if ru_signup_enabled rules then of_cents (ru_signup_amount rules) else Dec 0 0)
  | BKyc, _ =>
      let! rules := bonus_rules org in
      ret (if ru_kyc_enabled rules then of_cents (ru_kyc_amount rules) else Dec 0 0)
  end.

(** The two partial unique indexes of [bonuses]. *)
Definition same_bonus (r e : bonus_row) : bool :=
  match bo_source r with
  | BSignup | BKyc => mine (bo_org r) (bo_user r) (bo_org e) (bo_user e) && bool_decide (bo_source e = bo_source r)
  | BDeposit => (bo_org e =? bo_org r) && bool_decide (bo_source e = BDeposit) && bool_decide (bo_source_id e = bo_source_id r)
  | BManual => false
  end.

Definition bonus_checks (r : bonus_row) : bool :=
  negb (bo_amount r =? 0) && ((0 <? bo_amount r) || bool_decide (bo_source r = BManual)) &&
  bool_decide (bo_source r = BDeposit <-> is_Some (bo_source_id r)).

Definition pay_bonus (org user : Z) (source : bonus_source) (amount : decimal) (source_id : option Z)
    (note : option string) (created_by : option Z) : M portal (option Z) :=
  if dec_eqb amount (Dec 0 0) then ret None
  else
    let! cents := lift_result (to_cents amount) in
    let row := {| bo_org := org; bo_user := user; bo_source := source; bo_source_id := source_id;
                  bo_amount := cents; bo_note := note; bo_created_by := created_by |} in
    let! bs := gets (fun s => rows (p_bonuses s)) in
    if negb (bonus_checks row) then
      let! _ := insert_row p_bonuses upd_bonuses (Some check_violation) row in ret None
    else if any_row (same_bonus row) bs then modify (upd_bonuses skip_id) ;;; ret None
    else
      let! bonus_id := insert_row p_bonuses upd_bonuses None row in
      let! wrote := settle org user WCredit amount KBonus (Some (RefBonuses, bonus_id)) note created_by in
      if wrote then ret (Some bonus_id)
      else raise (RuntimeError "bonus was recorded but settle() wrote no ledger entry").
