(* ===== verification/PortalCommon.v ===== *)
(** * The client portal: what its routers share

    [api/rbac.py], the MPIN gate, [api/portal_common.py] and [file_belongs] of
    [api/routes/portal_files.py].  A route is a program ([Prog.v]): its
    statements are steps of their own, a [with conn.transaction()] block is one
    step.  Every block that writes the ledger takes the investor's advisory lock
    first, so two such blocks of one investor never overlap; what other requests
    may still do while one runs (a cancellation, a decision without money) never
    adds to a hold.

    Texts are byte strings; lengths count bytes. *)

From S2P Require Import Prelude PyStr PyDecimal PyFloat PyRepr PyDecOps Models Db PyJson Limiter PortalLedger Mpin Prog PortalDb.

Abbreviation route := (prog portal).

(** [except pc.LedgerError as exc: raise HTTPException(400, detail=str(exc))] *)
Definition as_400 {A} (r : result A) : result A :=
  match r with Raise (LedgerError msg) => Raise (HTTPException 400 msg) | _ => r end.

Definition refuse {A} (code : Z) (detail : string) : route A := Throw (HTTPException code detail).
(** [if not b: raise HTTPException(code, detail)] *)
Definition guard (b : bool) (code : Z) (detail : string) : route unit :=
  if b then Ret tt else refuse code detail.
(** The same inside a transaction. *)
Definition mguard (b : bool) (code : Z) (detail : string) : M portal unit :=
  if b then ret tt else raise (HTTPException code detail).

(** ** Who is asking *)

Definition ROLE_RANK (r : member_role) : Z := match r with RInvestor => -1 | RViewer => 0 | RAdmin => 1 end.

Record OrgContext := { cx_org : Z; cx_user : Z; cx_role : member_role; cx_email : string }.

(** [org_memberships m JOIN users u] *)
Definition membership (org user : Z) (s : portal) : option (member_role * string) :=
  r ← p_members s !! (org, user); e ← p_emails s !! user; Some (r, e).

Definition require_org_role (min_role : member_role) (org user : Z) : route OrgContext :=
  let* row := query (membership org user) in
  match row with
  | None => refuse 404 "Not found"
  | Some (role, email) =>
      if ROLE_RANK role <? ROLE_RANK min_role then refuse 403 "Insufficient role"
      else Ret {| cx_org := org; cx_user := user; cx_role := role; cx_email := email |}
  end.

Definition require_investor (org user : Z) : route OrgContext :=
  let* ctx := require_org_role RInvestor org user in
  if bool_decide (cx_role ctx = RInvestor) then Ret ctx else refuse 403 "Insufficient role".

(** ** The MPIN gate of the money routes *)

Inductive mpin_failure :=
  | MpinFormat                     (* 400: not six digits *)
  | MpinRefused (r : response).    (* 409, 423 or 401 *)

(** What a money route answers. *)
Inductive answer (A : Type) := Answer (a : A) | Refused (f : mpin_failure).
Arguments Answer {A} a.
Arguments Refused {A} f.

Section mpin.
Context (verify : string -> string -> bool).

(** The statements of [check_mpin], one step each; five are enough. *)
Fixpoint mpin_steps (fuel : nat) (user : Z) (mpin : string) (p : pc) : route response :=
  match p, fuel with
  | Done r, _ => Ret r
  | _, O => Throw (RuntimeError "out of steps")
  | _, S fuel' =>
      Step (fun s => upd_mpin (fun us => (step verify user mpin (p_api_now s) (p_db_now s) p us).2) s)
           (fun s => mpin_steps fuel' user mpin (step verify user mpin (p_api_now s) (p_db_now s) p (p_mpin s)).1)
  end.

Definition require_mpin (user : Z) (mpin : json) : route (option mpin_failure) :=
  match mpin with
  | JStr m =>
      if six_digits m then
        let* r := mpin_steps 5 user m Begin in
        match r with
        | Passed => Ret None
        | NotAuthenticated => refuse 401 "Not authenticated"
        | _ => Ret (Some (MpinRefused r))
        end
      else Ret (Some MpinFormat)
  | _ => Ret (Some MpinFormat)
  end.

(** [failure = require_mpin(...); if failure is not None: return failure] *)
Definition with_mpin {A} (user : Z) (mpin : json) (k : route A) : route (answer A) :=
  let* failure := require_mpin user mpin in
  match failure with
  | Some f => Ret (Refused f)
  | None => let* a := k in Ret (Answer a)
  end.
End mpin.

(** ** The hourly limiter *)

Definition REQUESTS_PER_HOUR : Z := 10.
(** The window of an hour; clocks count microseconds. *)
Definition hourly_init : limiter := limiter_init REQUESTS_PER_HOUR (3600 * 1000000).
Definition RATE_LIMITED : string := "too many requests; try again later".

Definition hourly_limited (kind : string) (org user : Z) : M portal bool :=
  fun s =>
    let '(limited, l) := is_limited ("portal-" +:+ kind +:+ ":" +:+ pretty org +:+ ":" +:+ pretty user) None (p_api_now s) (p_hourly s) in
    (Ok limited, upd_hourly (fun _ => l) s).

(** ** Audit and notifications: best effort, after the change *)

Definition audit_control (org : Z) (action actor : string) (user : Z) (sev : severity) (account : option Z) : route unit :=
  stmt (modify (upd_events (fun l => l ++ [{| ev_org := org; ev_account := account; ev_severity := sev;
                                               ev_action := action; ev_user := Some user; ev_actor := actor |}]))).

Definition investor_link (org : Z) (page : string) : string := "/org/" +:+ pretty org +:+ "/invest/" +:+ page.

Definition notify (org user : Z) (t : topic) (link : string) : route unit :=
  stmt (modify (upd_notices (fun l => l ++ [{| no_org := org; no_user := user; no_topic := t; no_link := link |}]))).

(** ** Accounts *)

Definition account_limit_text (limit : Z) : string :=
  "you have reached the limit of " +:+ pretty limit +:+ " live accounts".

Definition NOT_LINKABLE : string := "Account not found in this workspace, or already linked".

Definition link_account (org user account : Z) (mt5_only : bool) : M portal unit :=
  let! owned := gets (owns_account org user (Some account)) in
  if owned then ret tt
  else
    let! row := gets (fun s => p_accounts s !! account) in
    match row with
    | Some r =>
        mguard (ac_org r =? org) 404 NOT_LINKABLE ;;;
        mguard (negb (bool_decide (ac_role r = "master"))) 400 "The master account cannot be linked to an investor" ;;;
        mguard (negb (mt5_only && negb (bool_decide (ac_platform r = "mt5")))) 400 "Only an MT5 account can be linked here" ;;;
        let! settings := portal_settings org in
        let limit := st_max_live_accounts settings in
        let! linked := gets (linked_accounts org user) in
        mguard (Z.of_nat (length linked) <? limit) 409 (account_limit_text limit) ;;;
        mguard (bool_decide (ac_investor r = None)) 404 NOT_LINKABLE ;;;
        modify (upd_accounts (insert account {| ac_org := ac_org r; ac_investor := Some user; ac_role := ac_role r;
                                                ac_platform := ac_platform r |}))
    | None => raise (HTTPException 404 NOT_LINKABLE)
    end.

(** ** Equity *)

(** A snapshot of the copier's [/state], [None] when it could not be had; the
    live figure first, then the terminal's last report. *)
Definition equity_from (state : option json) (account : Z) (s : portal) : result (option pydec * string) :=
  let accounts := match state with Some (JObj kvs) => get kvs "accounts" | _ => JNull end in
  let entry := match accounts with JObj kvs => get kvs (pretty account) | _ => JNull end in
  let live := match entry with JObj kvs => get kvs "equity" | _ => JNull end in
  match live with
  | JNull =>
      match p_mt5_equity s !! account with
      | Some x => match dec_parse (float_repr x) with
                  | Some d => Ok (Some d, "last known")
                  | None => Raise InvalidOperation
                  end
      | None => Ok (None, "unknown")
      end
  | v => match dec_parse (json_str v) with
         | Some d => Ok (Some d, "live")
         | None => Raise InvalidOperation
         end
  end.

(** ** Files *)

Definition names_file (file : Z) (o : option Z) : bool := bool_decide (o = Some file).

(** An investor's file of this purpose, not attached anywhere yet. *)
Definition file_belongs (org user : Z) (file : option Z) (purpose : string) (s : portal) : bool :=
  match file with
  | None => true
  | Some f =>
      match p_files s !! f with
      | Some r =>
          mine org user (fi_org r) (fi_user r) && bool_decide (fi_purpose r = purpose) &&
          negb (any_row (fun d => names_file f (dp_receipt d)) (rows (p_deposits s))) &&
          negb (any_row (fun d => names_file f (de_proof d)) (rows (p_destinations s))) &&
          negb (bool_decide (f ∈ p_other_files s))
      | None => false
      end
  end.

(** ** Texts *)

(** [str(v or '')] *)
Definition str_or_empty (v : json) : string := if json_bool v then json_str v else "".

Definition last_chars (n : nat) (s : string) : string := str_drop (String.length s - n) s.

Definition short_address (a : string) : string :=
  if (String.length a <=? 8)%nat then a else str_take 1 a +:+ "…" +:+ last_chars 2 a.

Definition destination_summary (kind : string) (details : payload) : string :=
  if bool_decide (kind = "bank")
  then str_strip (str_or_empty (get details "bank_name") +:+ " ••" +:+ last_chars 4 (str_or_empty (get details "account_number")))
  else str_strip (str_or_empty (get details "network") +:+ " " +:+ short_address (str_or_empty (get details "address"))).

(** ** Decisions *)

Record DecisionBody := { dc_status : string; dc_note : option string }.

Definition require_note_on_reject (status : req_status) (note : option string) : result (option string) :=
  clean_text (JOptStr note) "note" 500 (bool_decide (status = SRejected)).

(** [body.status.strip().lower()] when it is one of the allowed statuses *)
Definition status_in (allowed : list req_status) (text : string) : option req_status :=
  od_get (str_lower (str_strip text)) ((fun st => (status_name st, st)) <$> allowed).

(** [UPDATE t SET ... WHERE id = %s AND p RETURNING ...] *)
Definition update_where {A} (get : portal -> table A) (upd : (table A -> table A) -> portal -> portal)
    (id : Z) (p : A -> bool) (f : A -> A) : M portal (option A) :=
  fun s => match rows (get s) !! id with
           | Some r => if p r then (Ok (Some (f r)), upd (set_row id (f r)) s) else (Ok None, s)
           | None => (Ok None, s)
           end.

Definition DECIDED_BY_SOMEONE : string := "decided by someone else".

(** [if not row: raise HTTPException(409, "decided by someone else")] *)
Definition returned {A} (row : option A) : M portal A :=
  match row with Some r => ret r | None => raise (HTTPException 409 DECIDED_BY_SOMEONE) end.

(** ** Bonuses after the fact *)

Definition announce_bonus (org user : Z) (source : bonus_source) (actor : string) : route unit :=
  audit_control org "investor_bonus_paid" actor user (match source with BManual => Warning | _ => Info end) None >>>
  notify org user TBonus (investor_link org "bonus").

(** The signup or kyc rule's bonus: a failure is logged, never surfaced. *)
Definition award_rule_bonus (org user : Z) (source : bonus_source) (actor : option string) : route (option Z) :=
  pcatch
    (let* bonus_id := stmt (transaction (
       let! amount := rule_bonus org source None in
       pay_bonus org user source amount None None None)) in
     match bonus_id with
     | None => Ret None
     | Some id =>
         let* email := match actor with
                       | Some e => Ret e
                       | None => query (fun s => default ("user " +:+ pretty user) (p_emails s !! user))
                       end in
         announce_bonus org user source email >>> Ret (Some id)
     end)
    (fun _ => Ret None).
