(* ===== verification/PortalInvestor.v ===== *)
(** * The client portal, investor side: [api/routes/portal_investor.py]

    The routes that change something, whole: guards and refusals in the code's
    order, the statements as steps, the audit row after the change.  A route
    answers the row it wrote with its id. *)

From S2P Require Import Prelude PyStr PyDecimal PyFloat PyRepr PyDecOps Models Db PyJson Limiter PortalLedger Mpin Prog PortalDb PortalCommon.

(** ** Deposits *)

Record DepositNotice := {
  dn_method_id : Z; dn_amount : json; dn_reference : string; dn_receipt : option Z;
  dn_target : string; dn_target_account : option Z; dn_note : option string
}.

Definition parse_target (text : string) : option deposit_target :=
  let t := str_lower (str_strip (if bool_decide (text = "") then "wallet" else text)) in
  if bool_decide (t = "wallet") then Some ToWallet else if bool_decide (t = "account") then Some ToAccount else None.

Definition live_deposit (r : deposit_row) : bool := bool_decide (dp_status r ∈ [SPending; SConfirmed]).

(** Why the database refuses a new notice: the CHECK, the two unique indexes,
    the foreign keys. *)
Definition deposit_refused (r : deposit_row) (s : portal) : option exn :=
  refuse_unless (0 <? dp_amount r) check_violation
  (refuse_unless (negb (any_row (fun d => live_deposit d && (dp_org d =? dp_org r) &&
                                          bool_decide (str_lower (dp_reference d) = str_lower (dp_reference r)))
                                (rows (p_deposits s))))
                 (UniqueViolation "deposits_one_live_reference" (dp_reference r))
  (refuse_unless (negb (match dp_receipt r with
                        | Some f => any_row (fun d => names_file f (dp_receipt d)) (rows (p_deposits s))
                        | None => false end))
                 (UniqueViolation "deposits_one_receipt" "")
  (refuse_unless (fk_ok (dp_method r) (rows (p_methods s)) &&
                  fk_ok (dp_receipt r) (p_files s) &&
                  fk_ok (dp_target_account r) (p_accounts s))
                 fk_violation None))).

Definition insert_deposit (r : deposit_row) : M portal Z :=
  fun s => insert_row p_deposits upd_deposits (deposit_refused r s) r s.

Definition ATTACHED : string := "receipt file is already attached to another notice".

Definition attached_elsewhere (org user file : Z) (s : portal) : bool :=
  any_row (fun d => names_file file (dp_receipt d)) (rows (p_deposits s)) &&
  match p_files s !! file with
  | Some r => mine org user (fi_org r) (fi_user r) && bool_decide (fi_purpose r = "deposit_receipt")
  | None => false
  end.

Definition file_deposit (org caller : Z) (body : DepositNotice) : route (Z * deposit_row) :=
  let* ctx := require_investor org caller in
  let* (amount, reference, note) := of_result (as_400 (
    let? amount := parse_amount (dn_amount body) "amount" in
    let? reference := clean_text (JStr (dn_reference body)) "reference" MAX_TEXT true in
    let? note := clean_text (JOptStr (dn_note body)) "note" 500 false in
    Ok (amount, default "" reference, note))) in
  let* target := match parse_target (dn_target body) with
                 | Some t => Ret t
                 | None => refuse 400 "target must be wallet or account"
                 end in
  let* method := query (fun s => rows (p_methods s) !! dn_method_id body) in
  match method with
  | None => refuse 404 "Payment method not found"
  | Some m =>
      guard ((me_org m =? org) && me_enabled m) 404 "Payment method not found" >>>
      guard (negb (dec_ltb amount (of_cents (me_min_amount m)))) 400
        ("minimum deposit for this method is " +:+ fmt2 (of_cents (me_min_amount m))) >>>
      guard (negb (bool_decide (me_kind m = "bank") && bool_decide (dn_receipt body = None))) 400
        "receipt is required for bank deposits" >>>
      match dn_receipt body with
      | Some f =>
          let* used := query (attached_elsewhere org caller f) in
          guard (negb used) 400 ATTACHED >>>
          let* belongs := query (file_belongs org caller (Some f) "deposit_receipt") in
          guard belongs 400 "receipt file not found"
      | None => Ret tt
      end >>>
      let* account := match target with
                      | ToWallet => Ret None
                      | ToAccount =>
                          let* owned := query (linked_accounts org caller) in
                          match owned with
                          | [] => refuse 409 "no account linked yet"
                          | _ => let* a := stmt (fun s => (pick_account org caller (dn_target_account body) "target_account_id" s, s)) in
                                 Ret (Some a)
                          end
                      end in
      let* limited := stmt (hourly_limited "deposit" org caller) in
      guard (negb limited) 429 RATE_LIMITED >>>
      let* fee := of_result (fee_for amount (of_mils (me_fee_pct m))) in
      let* row_id := pcatch
        (stmt (let! cents := lift_result (to_cents amount) in
               let! fee_cents := lift_result (to_cents fee) in
               let row := {| dp_org := org; dp_user := caller; dp_method := Some (dn_method_id body);
                             dp_method_kind := me_kind m; dp_method_label := me_label m; dp_amount := cents;
                             dp_fee := fee_cents; dp_credited := None; dp_reference := reference;
                             dp_receipt := dn_receipt body; dp_target := target; dp_target_account := account;
                             dp_note := note; dp_status := SPending; dp_decided_by := None;
                             dp_decision_note := None |} in
               let! id := insert_deposit row in ret (id, row)))
        (fun e => match e with
                  | UniqueViolation c _ =>
                      if bool_decide (c = "deposits_one_live_reference")
                      then refuse 409 "A notice with this reference already exists"
                      else if bool_decide (c = "deposits_one_receipt") then refuse 400 ATTACHED
                      else Throw e
                  | _ => Throw e
                  end) in
      audit_control org "investor_deposit_noticed" (cx_email ctx) caller Warning account >>>
      Ret row_id
  end.

(** [SET status = ..., decided_by = ...] and, when decided by the desk, the note
    and the credited amount *)
Definition dp_move (st : req_status) (by_ : Z) (r : deposit_row) : deposit_row :=
  {| dp_org := dp_org r; dp_user := dp_user r; dp_method := dp_method r; dp_method_kind := dp_method_kind r;
     dp_method_label := dp_method_label r; dp_amount := dp_amount r; dp_fee := dp_fee r; dp_credited := dp_credited r;
     dp_reference := dp_reference r; dp_receipt := dp_receipt r; dp_target := dp_target r;
     dp_target_account := dp_target_account r; dp_note := dp_note r; dp_status := st; dp_decided_by := Some by_;
     dp_decision_note := dp_decision_note r |}.

(** The row of a caller, when it is theirs. *)
Definition own_row {A} (get : portal -> table A) (org_of user_of : A -> Z) (org user id : Z) (s : portal) : option A :=
  r ← rows (get s) !! id; if mine org user (org_of r) (user_of r) then Some r else None.

Definition cancel_deposit (org caller id : Z) : route deposit_row :=
  let* ctx := require_investor org caller in
  let* current := query (own_row p_deposits dp_org dp_user org caller id) in
  match current with
  | None => refuse 404 "Deposit not found"
  | Some c =>
      guard (can_transition Deposits (dp_status c) SCancelled) 409 ("deposit is already " +:+ status_name (dp_status c)) >>>
      let* row := stmt (let! row := update_where p_deposits upd_deposits id
                                      (fun r => (dp_org r =? org) && bool_decide (dp_status r = SPending))
                                      (dp_move SCancelled caller) in returned row) in
      audit_control org "investor_deposit_cancelled" (cx_email ctx) caller Info (dp_target_account row) >>>
      Ret row
  end.

(** ** Payout destinations *)

Record DestinationBody := {
  db_kind : string; db_nickname : string; db_details : payload; db_proof : option Z; db_mpin : json
}.

Definition BANK_REQUIRED : list string := ["bank_name"; "holder"; "account_number"; "code"].
Definition BANK_OPTIONAL : list string := ["bank_address"; "country"].
Definition CRYPTO_REQUIRED : list string := ["coin"; "network"; "address"].

(** The keys of a list, each cleaned, in order; an absent optional one is left out. *)
Definition clean_keys (raw : payload) (keys : list string) (max_len : Z) (required : bool) : result payload :=
  let? vs := rmap (fun k => let? v := clean_text (get raw k) k max_len required in
                            Ok ((fun t => (k, JStr t)) <$> v)) keys in
  Ok (omap id vs).

Definition clean_destination_details (kind : string) (raw : payload) : result payload :=
  let? out := clean_keys raw (if bool_decide (kind = "bank") then BANK_REQUIRED else CRYPTO_REQUIRED) 128 true in
  let? more := if bool_decide (kind = "bank") then clean_keys raw BANK_OPTIONAL 256 false else Ok [] in
  Ok (out ++ more).

Definition destination_refused (r : destination_row) (s : portal) : option exn :=
  refuse_unless (fk_ok (de_proof r) (p_files s)) fk_violation None.

Definition de_move (st : req_status) (by_ : Z) (note : option string) (r : destination_row) : destination_row :=
  {| de_org := de_org r; de_user := de_user r; de_kind := de_kind r; de_nickname := de_nickname r;
     de_details := de_details r; de_proof := de_proof r; de_status := st; de_decided_by := Some by_;
     de_decision_note := note |}.

Section money_routes.
Context (verify : string -> string -> bool).

Definition add_destination (org caller : Z) (body : DestinationBody) : route (answer (Z * destination_row)) :=
  let* ctx := require_investor org caller in
  with_mpin verify caller (db_mpin body) (
    let kind := str_lower (str_strip (db_kind body)) in
    guard (bool_decide (kind = "bank") || bool_decide (kind = "crypto")) 400 "kind must be bank or crypto" >>>
    let* (nickname, details) := of_result (as_400 (
      let? nickname := clean_text (JStr (db_nickname body)) "nickname" 64 true in
      let? details := clean_destination_details kind (db_details body) in
      Ok (default "" nickname, details))) in
    let* belongs := query (file_belongs org caller (db_proof body) "payout_proof") in
    guard belongs 400 "proof file not found" >>>
    let* limited := stmt (hourly_limited "destination" org caller) in
    guard (negb limited) 429 RATE_LIMITED >>>
    let row := {| de_org := org; de_user := caller; de_kind := kind; de_nickname := nickname; de_details := details;
                  de_proof := db_proof body; de_status := SPending; de_decided_by := None; de_decision_note := None |} in
    let* id := stmt (fun s => insert_row p_destinations upd_destinations (destination_refused row s) row s) in
    audit_control org "investor_destination_added" (cx_email ctx) caller Warning None >>>
    Ret (id, row)).

Definition remove_destination (org caller id : Z) : route destination_row :=
  let* ctx := require_investor org caller in
  let* current := query (own_row p_destinations de_org de_user org caller id) in
  match current with
  | None => refuse 404 "Payout account not found"
  | Some c =>
      guard (can_transition PayoutDestinations (de_status c) SRemoved) 409
        ("payout account is already " +:+ status_name (de_status c)) >>>
      let* in_use := query (fun s => any_row (fun w => (wd_destination w =? id) && open_withdrawal w) (rows (p_withdrawals s))) in
      guard (negb in_use) 409 "a withdrawal is still using this payout account" >>>
      let* row := stmt (let! row := update_where p_destinations upd_destinations id
                                      (fun r => (de_org r =? org) && bool_decide (de_status r = de_status c))
                                      (fun r => de_move SRemoved caller (de_decision_note r) r) in returned row) in
      audit_control org "investor_destination_removed" (cx_email ctx) caller Info None >>>
      Ret row
  end.

(** ** Withdrawals *)

Record WithdrawalRequest := { wr_destination_id : Z; wr_amount : json; wr_mpin : json }.

Definition withdrawal_refused (r : withdrawal_row) (s : portal) : option exn :=
  refuse_unless (0 <? wd_amount r) check_violation
  (refuse_unless (bool_decide (is_Some (rows (p_destinations s) !! wd_destination r))) fk_violation None).

(** The locked block: the cap is checked against the figures the INSERT commits to. *)
Definition withdrawal_block (org caller : Z) (amount : decimal) (destination : Z) (dest : destination_row)
    (settings : settings_row) : M portal (Z * withdrawal_row) :=
  let! figs := (fun s => (wallet_figures org caller s, s)) in
  let available := fg_available (figs WMain) in
  mguard (negb (dec_ltb available amount)) 400 ("amount exceeds what is available (" +:+ fmt2 available +:+ ")") ;;;
  let! fee := lift_result (fee_for amount (of_mils (st_withdrawal_fee_pct settings))) in
  let net := dec_sub amount fee in
  mguard (negb (dec_leb net (Dec 0 0))) 400 "amount is too small to cover the fee" ;;;
  let! limited := hourly_limited "withdrawal" org caller in
  mguard (negb limited) 429 RATE_LIMITED ;;;
  let! cents := lift_result (to_cents amount) in
  let! fee_cents := lift_result (to_cents fee) in
  let! net_cents := lift_result (to_cents net) in
  let row := {| wd_org := org; wd_user := caller; wd_destination := destination; wd_destination_kind := de_kind dest;
                wd_destination_summary := destination_summary (de_kind dest) (de_details dest);
                wd_amount := cents; wd_fee := fee_cents; wd_net := net_cents; wd_status := SRequested;
                wd_decided_by := None; wd_decision_note := None; wd_paid_by := None; wd_txid := None |} in
  let! id := (fun s => insert_row p_withdrawals upd_withdrawals (withdrawal_refused row s) row s) in
  ret (id, row).

Definition request_withdrawal (org caller : Z) (body : WithdrawalRequest) : route (answer (Z * withdrawal_row)) :=
  let* ctx := require_investor org caller in
  with_mpin verify caller (wr_mpin body) (
    let* amount := of_result (as_400 (parse_amount (wr_amount body) "amount")) in
    let* dest := query (own_row p_destinations de_org de_user org caller (wr_destination_id body)) in
    match dest with
    | None => refuse 404 "Payout account not found"
    | Some d =>
        guard (bool_decide (de_status d = SApproved)) 404 "Payout account not found" >>>
        let* settings := stmt (portal_settings org) in
        guard (negb (dec_ltb amount (of_cents (st_withdrawal_min settings)))) 400
          ("minimum withdrawal is " +:+ fmt2 (of_cents (st_withdrawal_min settings))) >>>
        let* row := stmt (transaction (withdrawal_block org caller amount (wr_destination_id body) d settings)) in
        audit_control org "investor_withdrawal_requested" (cx_email ctx) caller Warning None >>>
        Ret row
    end).

Definition wd_move (st : req_status) (by_ : Z) (note : option string) (r : withdrawal_row) : withdrawal_row :=
  {| wd_org := wd_org r; wd_user := wd_user r; wd_destination := wd_destination r;
     wd_destination_kind := wd_destination_kind r; wd_destination_summary := wd_destination_summary r;
     wd_amount := wd_amount r; wd_fee := wd_fee r; wd_net := wd_net r; wd_status := st; wd_decided_by := Some by_;
     wd_decision_note := note; wd_paid_by := wd_paid_by r; wd_txid := wd_txid r |}.

Definition cancel_withdrawal (org caller id : Z) : route withdrawal_row :=
  let* ctx := require_investor org caller in
  let* current := query (own_row p_withdrawals wd_org wd_user org caller id) in
  match current with
  | None => refuse 404 "Withdrawal not found"
  | Some c =>
      guard (can_transition Withdrawals (wd_status c) SCancelled) 409 ("withdrawal is already " +:+ status_name (wd_status c)) >>>
      let* row := stmt (let! row := update_where p_withdrawals upd_withdrawals id
                                      (fun r => (wd_org r =? org) && bool_decide (wd_status r = wd_status c))
                                      (fun r => wd_move SCancelled caller (wd_decision_note r) r) in returned row) in
      audit_control org "investor_withdrawal_cancelled" (cx_email ctx) caller Info None >>>
      Ret row
  end.

(** ** Transfers *)

Record TransferRequest := { tq_source : MoneyRef; tq_target : MoneyRef; tq_amount : json; tq_mpin : json }.

Definition is_account (e : endpoint) : bool := match e with EAccount => true | _ => false end.
Definition end_of (e : endpoint) (account : option Z) : transfer_end :=
  match e with EWallet w => TWallet w | EAccount => TAccount account end.

Definition account_of_end (e : transfer_end) : option Z := match e with TAccount a => a | TWallet _ => None end.

Definition transfer_refused (r : transfer_row) (s : portal) : option exn :=
  refuse_unless (0 <? tr_amount r) check_violation
  (refuse_unless (negb (bool_decide (tr_source r = tr_target r))) check_violation
  (refuse_unless (fk_ok (account_of_end (tr_source r)) (p_accounts s) &&
                  fk_ok (account_of_end (tr_target r)) (p_accounts s))
                 fk_violation None)).

Definition insert_transfer (r : transfer_row) : M portal Z :=
  fun s => insert_row p_transfers upd_transfers (transfer_refused r s) r s.

(** Both directions over one account exclude each other while open; a cap per
    source: the account's movable equity, or what the wallet has available. *)
Definition transfer_checks (org caller : Z) (amount : decimal) (source target : endpoint) (account : Z)
    (equity : option pydec) : M portal unit :=
  match source with
  | EAccount =>
      let! credit_open := gets (credit_transfer_open org caller account) in
      mguard (negb credit_open) 409
        "a bonus credit transfer into this account is still open; wait for it to finish" ;;;
      match equity with
      | Some e =>
          let! movable := (fun s => (account_movable org caller account e s, s)) in
          mguard (negb (dec_ltb movable amount)) 400
            ("amount exceeds the account's available equity (" +:+ fmt2 movable +:+ ")")
      | None =>
          let! funded := gets (credit_funded org caller account) in
          mguard (dec_leb funded (Dec 0 0)) 409 "this account holds bonus credit; try again when its balance is live"
      end
  | EWallet w =>
      (if bool_decide (w = WCredit) && is_account target then
         let! out := gets (open_account_transfers_out org caller account) in
         mguard (dec_leb out (Dec 0 0)) 409 "this account has a transfer out still open; wait for it to finish"
       else ret tt) ;;;
      let! figs := (fun s => (wallet_figures org caller s, s)) in
      let available := fg_available (figs w) in
      mguard (negb (dec_ltb available amount)) 400 ("amount exceeds what is available (" +:+ fmt2 available +:+ ")")
  end.

Definition equity_cents (equity : option pydec) : result (option Z) :=
  match equity with
  | None => Ok None
  | Some (Fin e) => let? c := to_cents e in Ok (Some c)
  | Some _ => Raise (DatabaseError "numeric field overflow")
  end.

Definition transfer_block (org caller : Z) (amount : decimal) (source target : endpoint) (account : option Z)
    (equity : option pydec) (live : bool) : M portal (Z * transfer_row) :=
  transfer_checks org caller amount source target (default 0 account) equity ;;;
  let! limited := hourly_limited "transfer" org caller in
  mguard (negb limited) 429 RATE_LIMITED ;;;
  let instant := negb (is_account source) && negb (is_account target) in
  let! cents := lift_result (to_cents amount) in
  let! at_request := lift_result (equity_cents equity) in
  let row := {| tr_org := org; tr_user := caller; tr_source := end_of source account; tr_target := end_of target account;
                tr_amount := cents; tr_status := if instant then SDone else SRequested; tr_equity := at_request;
                tr_equity_verified := live; tr_decided_by := None; tr_decision_note := None; tr_done_by := None |} in
  let! id := insert_transfer row in
  match source, target with
  | EWallet sw, EWallet tw =>
      let! _ := settle org caller sw (dec_neg amount) KTransfer (Some (RefTransfers, id)) None None in
      let! _ := settle org caller tw amount KTransfer (Some (RefTransfers, id)) None None in
      ret (id, row)
  | _, _ => ret (id, row)
  end.

(** [copier] is what the copier answers to [/state] while the request waits. *)
Definition request_transfer (copier : option json) (org caller : Z) (body : TransferRequest) : route (answer (Z * transfer_row)) :=
  let* ctx := require_investor org caller in
  with_mpin verify caller (tq_mpin body) (
    let* (amount, (source, target)) := of_result (as_400 (
      let? amount := parse_amount (tq_amount body) "amount" in
      let? ends := transfer_pair (tq_source body) (tq_target body) in
      Ok (amount, ends))) in
    let* account :=
      if is_account source || is_account target then
        let named := if is_account source then mr_account_id (tq_source body) else mr_account_id (tq_target body) in
        let* owned := query (owns_account org caller named) in
        if owned then Ret named
        else
          let* linked := query (linked_accounts org caller) in
          match linked with [] => refuse 409 "no account linked yet" | _ => refuse 404 "Account not found" end
      else Ret None in
    let* (equity, equity_source) :=
      if is_account source then stmt (fun s => (equity_from copier (default 0 account) s, s)) else Ret (None, "unknown") in
    let* row := stmt (transaction (
      transfer_block org caller amount source target account equity (bool_decide (equity_source = "live")))) in
    let instant := negb (is_account source) && negb (is_account target) in
    audit_control org "investor_transfer_requested" (cx_email ctx) caller (if instant then Info else Warning) account >>>
    Ret row).

Definition tr_move (st : req_status) (by_ : Z) (note : option string) (r : transfer_row) : transfer_row :=
  {| tr_org := tr_org r; tr_user := tr_user r; tr_source := tr_source r; tr_target := tr_target r;
     tr_amount := tr_amount r; tr_status := st; tr_equity := tr_equity r; tr_equity_verified := tr_equity_verified r;
     tr_decided_by := Some by_; tr_decision_note := note; tr_done_by := tr_done_by r |}.

Definition cancel_transfer (org caller id : Z) : route transfer_row :=
  let* ctx := require_investor org caller in
  let* current := query (own_row p_transfers tr_org tr_user org caller id) in
  match current with
  | None => refuse 404 "Transfer not found"
  | Some c =>
      guard (can_transition Transfers (tr_status c) SCancelled) 409 ("transfer is already " +:+ status_name (tr_status c)) >>>
      let* row := stmt (let! row := update_where p_transfers upd_transfers id
                                      (fun r => (tr_org r =? org) && bool_decide (tr_status r = tr_status c))
                                      (fun r => tr_move SCancelled caller (tr_decision_note r) r) in returned row) in
      audit_control org "investor_transfer_cancelled" (cx_email ctx) caller Info None >>>
      Ret row
  end.
End money_routes.
