(* ===== verification/PortalAdmin.v ===== *)
(** * The client portal, desk side: [api/routes/portal_admin.py] and
      [api/routes/portal_bonus.py]

    Payment methods, settings, the decisions on requests, account links, ledger
    adjustments and bonuses; and the removal of an MT5 account
    ([api/routes/mt5.py]), which detaches the portal's rows from it. *)

From S2P Require Import Prelude PyStr PyDecimal PyFloat PyRepr PyDecOps Models Db PyJson Limiter PortalLedger Mpin Prog PortalDb PortalCommon PortalInvestor.
From Stdlib Require Import Ascii.

(** ** Reading what the desk types *)

Definition METHOD_KINDS : list string := ["crypto"; "bank"].
Definition REQUIRED_DETAILS (kind : string) : list string :=
  if bool_decide (kind = "crypto") then ["coin"; "network"; "address"] else ["bank_name"; "holder"; "account_number"; "code"].
Definition OPTIONAL_DETAILS (kind : string) : list string :=
  if bool_decide (kind = "crypto") then ["memo"] else ["bank_address"; "country"].

Definition clean_details (kind : string) (raw : payload) : result payload :=
  let? out := clean_keys raw (REQUIRED_DETAILS kind) 128 true in
  let? more := clean_keys raw (OPTIONAL_DETAILS kind) 256 false in
  Ok (out ++ more).

Definition reads_zero (raw : json) : bool :=
  match raw with
  | JBool _ => false
  | _ => match dec_parse (json_str raw) with Some (Fin d) => dec_eqb d (Dec 0 0) | _ => false end
  end.

Definition parse_min (raw : json) (field : string) : result decimal :=
  match raw with
  | JNull | JStr "" => Ok (Dec 0 0)
  | _ => if reads_zero raw then Ok (Dec 0 0) else parse_amount raw field
  end.

(** A percentage with at most three decimals; [top] says whether 100 is refused. *)
Definition read_pct (raw : json) (refused : decimal -> bool) (message precise : string) : result decimal :=
  match raw with
  | JBool _ => Raise (LedgerError message)
  | _ =>
      match dec_parse (json_str raw) with
      | Some (Fin value) =>
          if dec_ltb value (Dec 0 0) || refused value then Raise (LedgerError message)
          else
            let? q := quantize ROUND_HALF_EVEN value (-3) in
            if dec_eqb value q then Ok value else Raise (LedgerError precise)
      | _ => Raise (LedgerError message)
      end
  end.

Definition parse_pct (raw : json) (field : string) : result decimal :=
  let message := field +:+ " must be between 0 and 99.999" in
  match raw with
  | JNull | JStr "" => Raise (LedgerError message)
  | _ => read_pct raw (fun v => dec_leb (Dec 100 0) v) message message
  end.

Definition parse_deposit_pct (raw : json) : result decimal :=
  match raw with
  | JNull | JStr "" => Ok (Dec 0 0)
  | _ => read_pct raw (fun v => dec_ltb (Dec 100 0) v) "deposit_pct must be between 0 and 100"
           "deposit_pct may have at most three decimals"
  end.

(** [[+-]?[0-9]+(\.[0-9]{1,2})?] *)
Definition SIGNED_AMOUNT (text : string) : bool :=
  let '(_, n, rest) := take_digits 0 0 (take_sign text).2 in
  negb (n =? 0)%nat &&
  match rest with
  | EmptyString => true
  | String "."%char r => let '(_, k, rest') := take_digits 0 0 r in
                    bool_decide (rest' = "") && ((k =? 1)%nat || (k =? 2)%nat)
  | _ => false
  end.

(** [text.lstrip("+-")] *)
Fixpoint strip_signs (s : string) : string :=
  match s with
  | String "+"%char s' => strip_signs s'
  | String "-"%char s' => strip_signs s'
  | _ => s
  end.

Definition parse_signed_amount (raw : json) : result decimal :=
  let text := match raw with JNull | JBool _ => "" | _ => str_strip (json_str raw) end in
  let full := negb (bool_decide (text = "")) in
  if full && negb (SIGNED_AMOUNT text)
  then Raise (HTTPException 400 "amount must be a signed number with at most two decimals, e.g. -25.00")
  else if full && reads_zero (JStr text) then Raise (HTTPException 400 "amount must not be zero")
  else
    let? magnitude := as_400 (parse_amount (if full then JStr (strip_signs text) else raw) "amount") in
    Ok (if str_starts "-" text then dec_neg magnitude else magnitude).

(** The investor member's email. *)
Definition _require_investor (org user : Z) : route string :=
  let* row := query (membership org user) in
  match row with
  | Some (RInvestor, email) => Ret email
  | _ => refuse 404 "Investor not found"
  end.

(** ** Payment methods *)

Definition org_row {A} (get : portal -> table A) (org_of : A -> Z) (org id : Z) (s : portal) : option A :=
  r ← rows (get s) !! id; if org_of r =? org then Some r else None.

Definition _method_row (org id : Z) : route method_row :=
  let* row := query (org_row p_methods me_org org id) in
  match row with Some m => Ret m | None => refuse 404 "Payment method not found" end.

Definition _audit_method (ctx : OrgContext) : route unit :=
  audit_control (cx_org ctx) "payment_method_changed" (cx_email ctx) (cx_user ctx) Warning None.

Record MethodBody := {
  mb_kind : string; mb_label : string; mb_currency : string; mb_details : payload; mb_min_amount : json;
  mb_fee_pct : json; mb_instructions : option string; mb_sort_order : Z
}.

Definition method_checks (r : method_row) : bool :=
  (0 <=? me_min_amount r) && (0 <=? me_fee_pct r) && (me_fee_pct r <? 100000).

(** [(clean_text(raw, "currency", max_len=8, required=False) or "USD").upper()] *)
Definition clean_currency (raw : string) : result string :=
  let? c := clean_text (JStr raw) "currency" 8 false in Ok (str_upper (default "USD" c)).

Definition create_method (org caller : Z) (body : MethodBody) : route (Z * method_row) :=
  let* ctx := require_org_role RAdmin org caller in
  let kind := str_lower (str_strip (mb_kind body)) in
  guard (bool_decide (kind ∈ METHOD_KINDS)) 400 "kind must be crypto or bank" >>>
  let* (label, currency, details, min_amount, fee_pct, instructions) := of_result (as_400 (
    let? label := clean_text (JStr (mb_label body)) "label" 64 true in
    let? currency := clean_currency (mb_currency body) in
    let? details := clean_details kind (mb_details body) in
    let? min_amount := parse_min (mb_min_amount body) "min_amount" in
    let? fee_pct := parse_pct (mb_fee_pct body) "fee_pct" in
    let? instructions := clean_text (JOptStr (mb_instructions body)) "instructions" 1000 false in
    Ok (default "" label, currency, details, min_amount, fee_pct, instructions))) in
  let* row := stmt (
    let! min_cents := lift_result (to_cents min_amount) in
    let! mils := lift_result (to_mils fee_pct) in
    let row := {| me_org := org; me_kind := kind; me_label := label; me_enabled := true; me_currency := currency;
                  me_details := details; me_min_amount := min_cents; me_fee_pct := mils;
                  me_instructions := instructions; me_sort_order := mb_sort_order body |} in
    let! id := insert_row p_methods upd_methods (refuse_unless (method_checks row) check_violation None) row in
    ret (id, row)) in
  _audit_method ctx >>> Ret row.

Record MethodPatch := {
  mp_label : option string; mp_currency : option string; mp_details : option payload; mp_min_amount : json;
  mp_fee_pct : json; mp_instructions : option string; mp_sort_order : option Z; mp_enabled : option bool
}.

(** The columns a patch sets, cleaned; an absent one is left alone. *)
Definition maybe {A B} (o : option A) (f : A -> result B) : result (option B) :=
  match o with Some a => let? b := f a in Ok (Some b) | None => Ok None end.
Definition given (v : json) : option json := match v with JNull => None | _ => Some v end.

Definition patch_empty (b : MethodPatch) : bool :=
  match b with
  | {| mp_label := None; mp_currency := None; mp_details := None; mp_min_amount := JNull; mp_fee_pct := JNull;
       mp_instructions := None; mp_sort_order := None; mp_enabled := None |} => true
  | _ => false
  end.

Definition update_method (org caller id : Z) (body : MethodPatch) : route method_row :=
  let* ctx := require_org_role RAdmin org caller in
  let* current := _method_row org id in
  let* (label, currency, details, min_amount, fee_pct, instructions) := of_result (as_400 (
    let? label := maybe (mp_label body) (fun l => let? t := clean_text (JStr l) "label" 64 true in Ok (default "" t)) in
    let? currency := maybe (mp_currency body) clean_currency in
    let? details := maybe (mp_details body) (clean_details (me_kind current)) in
    let? min_amount := maybe (given (mp_min_amount body)) (fun v => parse_min v "min_amount") in
    let? fee_pct := maybe (given (mp_fee_pct body)) (fun v => parse_pct v "fee_pct") in
    let? instructions := maybe (mp_instructions body) (fun t => clean_text (JStr t) "instructions" 1000 false) in
    Ok (label, currency, details, min_amount, fee_pct, instructions))) in
  if patch_empty body
  then Ret current
  else
    let* row := stmt (transaction (
      let! min_cents := lift_result (maybe min_amount to_cents) in
      let! mils := lift_result (maybe fee_pct to_mils) in
      let set r := {| me_org := me_org r; me_kind := me_kind r; me_label := default (me_label r) label;
                      me_enabled := default (me_enabled r) (mp_enabled body);
                      me_currency := default (me_currency r) currency; me_details := default (me_details r) details;
                      me_min_amount := default (me_min_amount r) min_cents; me_fee_pct := default (me_fee_pct r) mils;
                      me_instructions := default (me_instructions r) instructions;
                      me_sort_order := default (me_sort_order r) (mp_sort_order body) |} in
      let! row := update_where p_methods upd_methods id (fun r => me_org r =? org) set in
      match row with
      | Some r => if method_checks r then ret r else raise check_violation
      | None => raise (TypeError "'NoneType' object is not subscriptable")
      end)) in
    _audit_method ctx >>> Ret row.

(** [ON DELETE SET NULL] of [deposits.method_id] *)
Definition dp_detach_method (id : Z) (r : deposit_row) : deposit_row :=
  {| dp_org := dp_org r; dp_user := dp_user r;
     dp_method := if bool_decide (dp_method r = Some id) then None else dp_method r;
     dp_method_kind := dp_method_kind r; dp_method_label := dp_method_label r; dp_amount := dp_amount r;
     dp_fee := dp_fee r; dp_credited := dp_credited r; dp_reference := dp_reference r; dp_receipt := dp_receipt r;
     dp_target := dp_target r; dp_target_account := dp_target_account r; dp_note := dp_note r;
     dp_status := dp_status r; dp_decided_by := dp_decided_by r; dp_decision_note := dp_decision_note r |}.

Definition drop_row {A} (id : Z) (t : table A) : table A := {| rows := delete id (rows t); next_id := next_id t |}.

Definition delete_method (org caller id : Z) : route unit :=
  let* ctx := require_org_role RAdmin org caller in
  let* _ := _method_row org id in
  let* pending := query (fun s => any_row (fun d => bool_decide (dp_method d = Some id) && bool_decide (dp_status d = SPending))
                                          (rows (p_deposits s))) in
  guard (negb pending) 409 "a pending deposit still uses this method" >>>
  stmt (let! row := gets (org_row p_methods me_org org id) in
        match row with
        | Some _ => modify (fun s => upd_deposits (map_rows (dp_detach_method id)) (upd_methods (drop_row id) s))
        | None => ret tt
        end) >>>
  _audit_method ctx.

(** ** Portal settings *)

Record SettingsBody := { sb_withdrawal_min : json; sb_withdrawal_fee_pct : json; sb_max_live_accounts : json }.

Definition put_settings (org caller : Z) (body : SettingsBody) : route settings_row :=
  let* ctx := require_org_role RAdmin org caller in
  let* (withdrawal_min, fee_pct) := of_result (as_400 (
    let? m := parse_min (sb_withdrawal_min body) "withdrawal_min" in
    let? p := parse_pct (sb_withdrawal_fee_pct body) "withdrawal_fee_pct" in
    Ok (m, p))) in
  let* current := stmt (portal_settings org) in
  let* cap := match sb_max_live_accounts body with
              | JNull => Ret (st_max_live_accounts current)
              | JInt n => if (1 <=? n) && (n <=? 50) then Ret n
                          else refuse 400 "max_live_accounts must be a whole number from 1 to 50"
              | _ => refuse 400 "max_live_accounts must be a whole number from 1 to 50"
              end in
  let* row := stmt (
    let! min_cents := lift_result (to_cents withdrawal_min) in
    let! mils := lift_result (to_mils fee_pct) in
    let row := {| st_withdrawal_min := min_cents; st_withdrawal_fee_pct := mils; st_max_live_accounts := cap |} in
    if settings_checks row then modify (upd_settings (alter (fun _ => row) org)) ;;; ret row
    else raise check_violation) in
  audit_control org "portal_settings_changed" (cx_email ctx) caller Info None >>> Ret row.

(** ** Decisions on deposits *)

Record DepositDecision := { dd_status : string; dd_credited_amount : json; dd_note : option string }.

Definition dp_decide (st : req_status) (by_ : Z) (note : option string) (credited : option Z) (r : deposit_row) : deposit_row :=
  {| dp_org := dp_org r; dp_user := dp_user r; dp_method := dp_method r; dp_method_kind := dp_method_kind r;
     dp_method_label := dp_method_label r; dp_amount := dp_amount r; dp_fee := dp_fee r; dp_credited := credited;
     dp_reference := dp_reference r; dp_receipt := dp_receipt r; dp_target := dp_target r;
     dp_target_account := dp_target_account r; dp_note := dp_note r; dp_status := st; dp_decided_by := Some by_;
     dp_decision_note := note |}.

(** What a confirmation credits: the amount less the fee unless the desk says. *)
Definition credited_amount (c : deposit_row) (raw : json) : result decimal :=
  let? credited := as_400 (match raw with
                           | JNull => Ok (dec_sub (of_cents (dp_amount c)) (of_cents (dp_fee c)))
                           | _ => parse_amount raw "credited_amount"
                           end) in
  if dec_leb credited (Dec 0 0) then Raise (HTTPException 400 "credited_amount must be greater than 0")
  else if dec_ltb (of_cents (dp_amount c)) credited
  then Raise (HTTPException 400 ("credited amount cannot exceed the notice amount (" +:+ fmt2 (of_cents (dp_amount c)) +:+ ")"))
  else Ok credited.

Definition NO_ACCOUNT : string := "(no account linked; credited to wallet)".

(** The ledger row, for a trading-account deposit the approved transfer that
    holds the money, and the deposit rule's bonus. *)
Definition confirm_money (org caller id investor : Z) (credited : decimal) (linked : option Z) : M portal (option Z) :=
  let! _ := settle org investor WMain credited KDeposit (Some (RefDeposits, id)) None (Some caller) in
  (match linked with
   | Some a =>
       let! cents := lift_result (to_cents credited) in
       let! _ := insert_transfer
         {| tr_org := org; tr_user := investor; tr_source := TWallet WMain; tr_target := TAccount (Some a);
            tr_amount := cents; tr_status := SApproved; tr_equity := None; tr_equity_verified := false;
            tr_decided_by := Some caller; tr_decision_note := Some ("funded from deposit #" +:+ pretty id);
            tr_done_by := None |} in ret tt
   | None => ret tt
   end) ;;;
  let! bonus := rule_bonus org BDeposit (Some credited) in
  pay_bonus org investor BDeposit bonus (Some id) (Some ("deposit #" +:+ pretty id)) (Some caller).

Definition deposit_block (org caller id : Z) (c : deposit_row) (new_status : req_status) (note : option string)
    (credited : option decimal) : M portal (deposit_row * option Z * option Z) :=
  let to_account := bool_decide (new_status = SConfirmed) && bool_decide (dp_target c = ToAccount) in
  let! owned := gets (owns_account org (dp_user c) (dp_target_account c)) in
  let linked := if to_account && owned then dp_target_account c else None in
  let note := if to_account && negb owned
              then Some (match note with Some n => n +:+ " " +:+ NO_ACCOUNT | None => NO_ACCOUNT end) else note in
  let! cents := lift_result (maybe credited to_cents) in
  let! row := update_where p_deposits upd_deposits id
                (fun r => (dp_org r =? org) && bool_decide (dp_status r = SPending))
                (dp_decide new_status caller note cents) in
  let! row := returned row in
  let! bonus_id := match credited with
                   | Some amount => confirm_money org caller id (dp_user c) amount linked
                   | None => ret None
                   end in
  ret (row, linked, bonus_id).

Definition decide_deposit (org caller id : Z) (body : DepositDecision) : route deposit_row :=
  let* ctx := require_org_role RAdmin org caller in
  match status_in [SConfirmed; SRejected] (dd_status body) with
  | None => refuse 400 "status must be confirmed or rejected"
  | Some new_status =>
      let* note := of_result (as_400 (require_note_on_reject new_status (dd_note body))) in
      let* current := query (org_row p_deposits dp_org org id) in
      match current with
      | None => refuse 404 "Deposit not found"
      | Some c =>
          guard (can_transition Deposits (dp_status c) new_status) 409 ("deposit is already " +:+ status_name (dp_status c)) >>>
          let* credited := if bool_decide (new_status = SConfirmed)
                           then of_result (let? d := credited_amount c (dd_credited_amount body) in Ok (Some d))
                           else Ret None in
          let* (row, linked, bonus_id) := stmt (transaction (deposit_block org caller id c new_status note credited)) in
          audit_control org "investor_deposit_decided" (cx_email ctx) (dp_user c) Info linked >>>
          notify org (dp_user c) TMoney (investor_link org "deposit") >>>
          (match bonus_id with
           | Some _ => announce_bonus org (dp_user c) BDeposit (cx_email ctx)
           | None => Ret tt
           end) >>>
          Ret row
      end
  end.

(** ** Decisions on withdrawals *)

Definition decide_withdrawal (org caller id : Z) (body : DecisionBody) : route withdrawal_row :=
  let* ctx := require_org_role RAdmin org caller in
  match status_in [SApproved; SRejected] (dc_status body) with
  | None => refuse 400 "status must be approved or rejected"
  | Some new_status =>
      let* note := of_result (as_400 (require_note_on_reject new_status (dc_note body))) in
      let* current := query (org_row p_withdrawals wd_org org id) in
      match current with
      | None => refuse 404 "Withdrawal not found"
      | Some c =>
          guard (can_transition Withdrawals (wd_status c) new_status) 409 ("withdrawal is already " +:+ status_name (wd_status c)) >>>
          let* row := stmt (let! row := update_where p_withdrawals upd_withdrawals id
                                          (fun r => (wd_org r =? org) && bool_decide (wd_status r = wd_status c))
                                          (wd_move new_status caller note) in returned row) in
          audit_control org "investor_withdrawal_decided" (cx_email ctx) (wd_user c) Info None >>>
          notify org (wd_user c) TMoney (investor_link org "withdraw") >>>
          Ret row
      end
  end.

Definition wd_pay (by_ : Z) (txid : option string) (r : withdrawal_row) : withdrawal_row :=
  {| wd_org := wd_org r; wd_user := wd_user r; wd_destination := wd_destination r;
     wd_destination_kind := wd_destination_kind r; wd_destination_summary := wd_destination_summary r;
     wd_amount := wd_amount r; wd_fee := wd_fee r; wd_net := wd_net r; wd_status := SPaid;
     wd_decided_by := wd_decided_by r; wd_decision_note := wd_decision_note r; wd_paid_by := Some by_; wd_txid := txid |}.

Definition paid_block (org caller id : Z) (c : withdrawal_row) (txid : option string) : M portal withdrawal_row :=
  let! row := update_where p_withdrawals upd_withdrawals id
                (fun r => (wd_org r =? org) && bool_decide (wd_status r = SApproved)) (wd_pay caller txid) in
  let! row := returned row in
  let! _ := settle org (wd_user c) WMain (dec_neg (of_cents (wd_amount c))) KWithdrawal (Some (RefWithdrawals, id)) None None in
  ret row.

Definition mark_withdrawal_paid (org caller id : Z) (txid : string) : route withdrawal_row :=
  let* ctx := require_org_role RAdmin org caller in
  let* txid := of_result (as_400 (clean_text (JStr txid) "txid" MAX_TEXT true)) in
  let* current := query (org_row p_withdrawals wd_org org id) in
  match current with
  | None => refuse 404 "Withdrawal not found"
  | Some c =>
      guard (can_transition Withdrawals (wd_status c) SPaid) 409
        ("withdrawal is " +:+ status_name (wd_status c) +:+ ", not approved") >>>
      let* row := stmt (transaction (paid_block org caller id c txid)) in
      audit_control org "investor_withdrawal_paid" (cx_email ctx) (wd_user c) Info None >>>
      notify org (wd_user c) TMoney (investor_link org "withdraw") >>>
      Ret row
  end.

(** ** Decisions on payout destinations *)

Definition decide_destination (org caller id : Z) (body : DecisionBody) : route destination_row :=
  let* ctx := require_org_role RAdmin org caller in
  match status_in [SApproved; SRejected] (dc_status body) with
  | None => refuse 400 "status must be approved or rejected"
  | Some new_status =>
      let* note := of_result (as_400 (require_note_on_reject new_status (dc_note body))) in
      let* current := query (org_row p_destinations de_org org id) in
      match current with
      | None => refuse 404 "Payout account not found"
      | Some c =>
          guard (can_transition PayoutDestinations (de_status c) new_status) 409
            ("payout account is already " +:+ status_name (de_status c)) >>>
          let* row := stmt (let! row := update_where p_destinations upd_destinations id
                                          (fun r => (de_org r =? org) && bool_decide (de_status r = de_status c))
                                          (de_move new_status caller note) in returned row) in
          audit_control org "investor_destination_decided" (cx_email ctx) (de_user c) Info None >>>
          notify org (de_user c) TMoney (investor_link org "payout-accounts") >>>
          Ret row
      end
  end.

(** ** Decisions on transfers *)

(** Bonus credit never leaves the account: what may still move is judged by the
    equity of the request. *)
Definition credit_cap (org user account : Z) (equity : Z) (s : portal) : result decimal :=
  let? cap := floor_cents (dec_sub (of_cents equity) (credit_funded org user account s)) in
  Ok (dec_max cap (Dec 0 (-2))).

Definition credit_check (org : Z) (c : transfer_row) (new_status : req_status) : M portal unit :=
  match tr_source c, tr_equity c with
  | TAccount (Some a), Some equity =>
      if bool_decide (new_status ∈ [SApproved; SDone]) then
        let! cap := (fun s => (credit_cap org (tr_user c) a equity s, s)) in
        mguard (negb (dec_ltb cap (of_cents (tr_amount c)))) 409
          ("bonus credit cannot leave the account (at most " +:+ fmt2 cap +:+ " may move out); reject this transfer instead")
      else ret tt
  | _, _ => ret tt
  end.

(** [COALESCE(decided_by, ...)], [COALESCE(note, decision_note)] *)
Definition tr_done (by_ : Z) (note : option string) (r : transfer_row) : transfer_row :=
  {| tr_org := tr_org r; tr_user := tr_user r; tr_source := tr_source r; tr_target := tr_target r;
     tr_amount := tr_amount r; tr_status := SDone; tr_equity := tr_equity r; tr_equity_verified := tr_equity_verified r;
     tr_decided_by := Some (default by_ (tr_decided_by r));
     tr_decision_note := match note with Some n => Some n | None => tr_decision_note r end; tr_done_by := Some by_ |}.

(** An end whose account was removed. *)
Definition headless (r : transfer_row) : bool :=
  bool_decide (tr_source r = TAccount None) || bool_decide (tr_target r = TAccount None).

Definition move_transfer (org caller id : Z) (c : transfer_row) (new_status : req_status) (note : option string)
    : M portal (option transfer_row) :=
  if bool_decide (new_status = SDone)
  then update_where p_transfers upd_transfers id
         (fun r => (tr_org r =? org) && bool_decide (tr_status r = tr_status c) && negb (headless r)) (tr_done caller note)
  else update_where p_transfers upd_transfers id
         (fun r => (tr_org r =? org) && bool_decide (tr_status r = tr_status c)) (tr_move new_status caller note).

Definition settle_end (org user : Z) (e : transfer_end) (amount : decimal) (id : Z) : M portal unit :=
  match e with
  | TWallet w => let! _ := settle org user w amount KTransfer (Some (RefTransfers, id)) None None in ret tt
  | TAccount _ => ret tt
  end.

Definition transfer_decision_block (org caller id : Z) (c : transfer_row) (new_status : req_status) (note : option string)
    : M portal transfer_row :=
  credit_check org c new_status ;;;
  let! row := move_transfer org caller id c new_status note in
  let! gone := gets (fun s => match rows (p_transfers s) !! id with
                              | Some r => bool_decide (tr_status r = tr_status c) && headless r
                              | None => false
                              end) in
  mguard (negb (bool_decide (row = None) && bool_decide (new_status = SDone) && gone)) 409
    "the trading account was removed; reject this transfer instead" ;;;
  let! row := returned row in
  (if bool_decide (new_status = SDone) then
     settle_end org (tr_user c) (tr_source c) (dec_neg (of_cents (tr_amount c))) id ;;;
     settle_end org (tr_user c) (tr_target c) (of_cents (tr_amount c)) id
   else ret tt) ;;;
  ret row.

Definition decide_transfer (org caller id : Z) (body : DecisionBody) : route transfer_row :=
  let* ctx := require_org_role RAdmin org caller in
  match status_in [SApproved; SDone; SRejected] (dc_status body) with
  | None => refuse 400 "status must be approved, done or rejected"
  | Some new_status =>
      let* note := of_result (as_400 (require_note_on_reject new_status (dc_note body))) in
      let* current := query (org_row p_transfers tr_org org id) in
      match current with
      | None => refuse 404 "Transfer not found"
      | Some c =>
          guard (can_transition Transfers (tr_status c) new_status) 409 ("transfer is already " +:+ status_name (tr_status c)) >>>
          let* row := stmt (transaction (transfer_decision_block org caller id c new_status note)) in
          audit_control org "investor_transfer_decided" (cx_email ctx) (tr_user c) Info
            (match account_of_end (tr_source c) with Some a => Some a | None => account_of_end (tr_target c) end) >>>
          notify org (tr_user c) TMoney (investor_link org "transfer") >>>
          Ret row
      end
  end.

(** ** Investors' accounts *)

Definition link_investor_account (org caller user account : Z) : route unit :=
  let* ctx := require_org_role RAdmin org caller in
  let* _ := _require_investor org user in
  stmt (transaction (link_account org user account false)) >>>
  audit_control org "investor_account_linked" (cx_email ctx) user Info (Some account).

Definition touches_account (account : Z) (r : transfer_row) : bool :=
  bool_decide (account_of_end (tr_source r) = Some account) || bool_decide (account_of_end (tr_target r) = Some account).

Definition unlink_block (org user account : Z) : M portal unit :=
  let! owned := gets (owns_account org user (Some account)) in
  mguard owned 404 "Account not found" ;;;
  let! busy := gets (fun s => any_row (fun r => mine org user (tr_org r) (tr_user r) && open_transfer r && touches_account account r)
                                      (rows (p_transfers s))) in
  mguard (negb busy) 409 "this account has open transfers; finish or reject them first" ;;;
  modify (upd_accounts (alter (fun r => {| ac_org := ac_org r; ac_investor := None; ac_role := ac_role r;
                                           ac_platform := ac_platform r |}) account)).

Definition unlink_investor_account (org caller user account : Z) : route unit :=
  let* ctx := require_org_role RAdmin org caller in
  let* _ := _require_investor org user in
  stmt (transaction (unlink_block org user account)) >>>
  audit_control org "investor_account_unlinked" (cx_email ctx) user Info (Some account).

(** The foreign keys of an account that is removed: NULL. *)
Definition detach_end (account : Z) (e : transfer_end) : transfer_end :=
  match e with
  | TAccount a => TAccount (if bool_decide (a = Some account) then None else a)
  | TWallet w => TWallet w
  end.
Definition tr_detach (account : Z) (r : transfer_row) : transfer_row :=
  {| tr_org := tr_org r; tr_user := tr_user r; tr_source := detach_end account (tr_source r);
     tr_target := detach_end account (tr_target r); tr_amount := tr_amount r; tr_status := tr_status r;
     tr_equity := tr_equity r; tr_equity_verified := tr_equity_verified r; tr_decided_by := tr_decided_by r;
     tr_decision_note := tr_decision_note r; tr_done_by := tr_done_by r |}.
Definition dp_detach_account (account : Z) (r : deposit_row) : deposit_row :=
  {| dp_org := dp_org r; dp_user := dp_user r; dp_method := dp_method r; dp_method_kind := dp_method_kind r;
     dp_method_label := dp_method_label r; dp_amount := dp_amount r; dp_fee := dp_fee r; dp_credited := dp_credited r;
     dp_reference := dp_reference r; dp_receipt := dp_receipt r; dp_target := dp_target r;
     dp_target_account := if bool_decide (dp_target_account r = Some account) then None else dp_target_account r;
     dp_note := dp_note r; dp_status := dp_status r; dp_decided_by := dp_decided_by r;
     dp_decision_note := dp_decision_note r |}.

(** [DELETE FROM accounts], as the portal's tables see it *)
Definition delete_account (account : Z) (s : portal) : portal :=
  upd_transfers (map_rows (tr_detach account))
    (upd_deposits (map_rows (dp_detach_account account)) (upd_accounts (delete account) s)).

(** [audit] of [api/routes/settings_control.py] *)
Definition audit (org : Z) (actor action : string) (account : option Z) : route unit :=
  stmt (modify (upd_events (fun l => l ++ [{| ev_org := org; ev_account := account; ev_severity := Info;
                                               ev_action := action; ev_user := None; ev_actor := actor |}]))).

Definition remove_mt5_account (org caller account : Z) : route unit :=
  let* ctx := require_org_role RAdmin org caller in
  let* row := query (fun s => p_accounts s !! account) in
  match row with
  | None => refuse 404 "Account not found"
  | Some r =>
      guard (ac_org r =? org) 404 "Account not found" >>>
      guard (bool_decide (ac_platform r = "mt5")) 400
        "not an MT5 account -- a cTrader account is removed by disconnecting its grant" >>>
      guard (negb (bool_decide (ac_role r = "master"))) 400
        "this account is the master -- move the master role to another account (or set this one to Ignored) before removing it" >>>
      let* deleted := stmt (
        let! row := gets (fun s => p_accounts s !! account) in
        match row with
        | Some r =>
            if (ac_org r =? org) && bool_decide (ac_platform r = "mt5") && negb (bool_decide (ac_role r = "master"))
            then modify (delete_account account) ;;; ret true else ret false
        | None => ret false
        end) in
      guard deleted 409 "the account changed while removing it -- reload and retry" >>>
      audit org (cx_email ctx) "mt5_account_removed" (Some account)
  end.

(** ** Adjustments *)

Record AdjustmentBody := { ab_wallet : string; ab_amount : json; ab_note : string; ab_mpin : json }.

Definition adjustment_block (org caller user : Z) (w : wallet) (amount : decimal) (note : option string)
    : M portal (Z * entry_row) :=
  let! cents := lift_result (to_cents amount) in
  let row := {| we_org := org; we_user := user; we_wallet := w; we_amount := cents; we_kind := KAdjustment;
                we_ref := None; we_note := note; we_created_by := Some caller |} in
  let! id := insert_row p_entries upd_entries (refuse_unless (negb (cents =? 0)) check_violation None) row in
  ret (id, row).

Section desk_money.
Context (verify : string -> string -> bool).

Definition post_adjustment (org caller user : Z) (body : AdjustmentBody) : route (answer (Z * entry_row)) :=
  let* ctx := require_org_role RAdmin org caller in
  with_mpin verify caller (ab_mpin body) (
    let* _ := _require_investor org user in
    match wallet_of_name (str_lower (str_strip (ab_wallet body))) with
    | None => refuse 400 "wallet must be one of main, credit, pamm, social"
    | Some w =>
        let* amount := of_result (parse_signed_amount (ab_amount body)) in
        let* note := of_result (as_400 (clean_text (JStr (ab_note body)) "note" 500 true)) in
        let* row := stmt (transaction (adjustment_block org caller user w amount note)) in
        audit_control org "investor_ledger_adjusted" (cx_email ctx) user Warning None >>>
        notify org user TMoney (investor_link org "transactions") >>>
        Ret row
    end).

(** ** Bonuses *)

Record RulesBody := {
  rb_signup_enabled : json; rb_signup_amount : json; rb_kyc_enabled : json; rb_kyc_amount : json;
  rb_deposit_enabled : json; rb_deposit_pct : json; rb_deposit_cap : json
}.

Definition parse_flag (v : json) (flag : string) : result bool :=
  match v with JBool b => Ok b | _ => Raise (LedgerError (flag +:+ " must be true or false")) end.

(** A rule switched on must pay something. *)
Definition must_pay (on : bool) (v : decimal) (field source : string) : result unit :=
  if on && dec_eqb v (Dec 0 0)
  then Raise (LedgerError (field +:+ " must be above 0 while the " +:+ source +:+ " rule is on")) else Ok tt.

Record parsed_rules := {
  pr_signup_enabled : bool; pr_signup_amount : decimal; pr_kyc_enabled : bool; pr_kyc_amount : decimal;
  pr_deposit_enabled : bool; pr_deposit_pct : decimal; pr_deposit_cap : option decimal
}.

Definition parse_rules (b : RulesBody) : result parsed_rules :=
  let? signup := parse_flag (rb_signup_enabled b) "signup_enabled" in
  let? kyc := parse_flag (rb_kyc_enabled b) "kyc_enabled" in
  let? deposit := parse_flag (rb_deposit_enabled b) "deposit_enabled" in
  let? signup_amount := parse_min (rb_signup_amount b) "signup_amount" in
  let? kyc_amount := parse_min (rb_kyc_amount b) "kyc_amount" in
  let? pct := parse_deposit_pct (rb_deposit_pct b) in
  let? cap := match rb_deposit_cap b with
              | JNull | JStr "" => Ok None
              | v => let? c := parse_amount v "deposit_cap" in Ok (Some c)
              end in
  let? _ := must_pay signup signup_amount "signup_amount" "signup" in
  let? _ := must_pay kyc kyc_amount "kyc_amount" "kyc" in
  let? _ := must_pay deposit pct "deposit_pct" "deposit" in
  Ok {| pr_signup_enabled := signup; pr_signup_amount := signup_amount; pr_kyc_enabled := kyc;
        pr_kyc_amount := kyc_amount; pr_deposit_enabled := deposit; pr_deposit_pct := pct; pr_deposit_cap := cap |}.

Definition put_rules (org caller : Z) (body : RulesBody) : route rules_row :=
  let* ctx := require_org_role RAdmin org caller in
  let* r := of_result (as_400 (parse_rules body)) in
  let* _ := stmt (bonus_rules org) in
  stmt (
    let! signup := lift_result (to_cents (pr_signup_amount r)) in
    let! kyc := lift_result (to_cents (pr_kyc_amount r)) in
    let! pct := lift_result (to_mils (pr_deposit_pct r)) in
    let! cap := lift_result (maybe (pr_deposit_cap r) to_cents) in
    let row := {| ru_signup_enabled := pr_signup_enabled r; ru_signup_amount := signup; ru_kyc_enabled := pr_kyc_enabled r;
                  ru_kyc_amount := kyc; ru_deposit_enabled := pr_deposit_enabled r; ru_deposit_pct := pct;
                  ru_deposit_cap := cap |} in
    if rules_checks row then modify (upd_rules (alter (fun _ => row) org)) else raise check_violation) >>>
  let* out := stmt (bonus_rules org) in
  audit_control org "bonus_rules_changed" (cx_email ctx) caller Info None >>>
  Ret out.

Record GrantBody := { gb_amount : json; gb_note : json; gb_mpin : json }.

Definition grant_block (org caller user : Z) (amount : decimal) (note : option string) : M portal (option Z) :=
  (if dec_ltb amount (Dec 0 0) then
     let! figs := (fun s => (wallet_figures org user s, s)) in
     let available := fg_available (figs WCredit) in
     mguard (negb (dec_ltb (dec_add available amount) (Dec 0 0))) 400
       ("a claw-back cannot take the Credit wallet below zero (available " +:+ fmt2 available +:+ ")")
   else ret tt) ;;;
  pay_bonus org user BManual amount None note (Some caller).

Definition grant_bonus (org caller user : Z) (body : GrantBody) : route (answer (option Z)) :=
  let* ctx := require_org_role RAdmin org caller in
  with_mpin verify caller (gb_mpin body) (
    let* _ := _require_investor org user in
    let* amount := of_result (parse_signed_amount (gb_amount body)) in
    let* note := of_result (as_400 (clean_text (gb_note body) "note" 500 true)) in
    let* bonus_id := stmt (transaction (grant_block org caller user amount note)) in
    announce_bonus org user BManual (cx_email ctx) >>>
    Ret bonus_id).
End desk_money.
