(* ===== verification/PortalBooks.v ===== *)
(** * The books: what the client portal promises about money

    The abstract specification of the portal's ledger.  Its state is the five
    money tables; its moves are the changes an investor or the desk may make,
    each with the condition under which it may.  [PortalFacts.v] proves that
    every route makes only such moves, whatever else runs at the same time; here
    the moves are shown to keep the books in order. *)

From S2P Require Import Prelude PyDecimal PyDecOps PyRepr PortalLedger PortalDb PortalInvestor PortalAdmin.

Record books := {
  b_entries : gmap Z entry_row;
  b_deposits : gmap Z deposit_row;
  b_withdrawals : gmap Z withdrawal_row;
  b_transfers : gmap Z transfer_row;
  b_bonuses : gmap Z bonus_row
}.

Definition books_of (s : portal) : books :=
  {| b_entries := rows (p_entries s); b_deposits := rows (p_deposits s); b_withdrawals := rows (p_withdrawals s);
     b_transfers := rows (p_transfers s); b_bonuses := rows (p_bonuses s) |}.

(** ** Sums over tables *)

Lemma msum_new {A} (f : A -> Z) m k v : m !! k = None -> msum f (<[k := v]> m) = f v + msum f m.
Proof. intros H. unfold msum. by rewrite map_to_list_insert. Qed.

Lemma msum_old {A} (f : A -> Z) m k v0 v : m !! k = Some v0 -> msum f (<[k := v]> m) = f v - f v0 + msum f m.
Proof.
  intros H. rewrite <- (insert_delete_id m k v0 H), insert_insert_eq.
  rewrite !msum_new by apply lookup_delete_eq. lia.
Qed.

Lemma msum_fmap {A} (f : A -> Z) g m : (forall v, f (g v) = f v) -> msum f (g <$> m) = msum f m.
Proof.
  intros H. unfold msum. rewrite map_to_list_fmap, <- list_fmap_compose. f_equal. apply list_fmap_ext. intros i [k v] _. apply H.
Qed.

Lemma msum_0 {A} (f : A -> Z) m : (forall k v, m !! k = Some v -> f v = 0) -> msum f m = 0.
Proof.
  unfold msum. intros H. assert (Forall (fun kv => f kv.2 = 0) (map_to_list m)) as Hl.
  { apply Forall_forall. intros [k v] Hkv%elem_of_map_to_list. by apply (H k). }
  induction Hl as [|x l Hx Hl IH]; [done|]. rewrite fmap_cons, Zsum_cons, IH. lia.
Qed.

Lemma msum_nonneg {A} (f : A -> Z) m : (forall k v, m !! k = Some v -> 0 <= f v) -> 0 <= msum f m.
Proof.
  intros H. apply Zsum_nonneg, Forall_fmap, Forall_forall. intros [k v] Hkv%elem_of_map_to_list. by apply (H k).
Qed.

Lemma msum_abs {A} (f : A -> Z) m B :
  (forall k v, m !! k = Some v -> Z.abs (f v) <= B) -> msum (fun v => Z.abs (f v)) m <= B * Z.of_nat (size m).
Proof.
  intros H. unfold msum. rewrite <- length_map_to_list.
  assert (Forall (fun kv => Z.abs (f kv.2) <= B) (map_to_list m)) as Hl.
  { apply Forall_forall. intros [k v] Hkv%elem_of_map_to_list. by apply (H k). }
  induction Hl as [|x l Hx Hl IH]; [simpl; lia|]. rewrite fmap_cons, Zsum_cons. simpl length. lia.
Qed.

Lemma any_row_true {A} (p : A -> bool) m : any_row p m = true <-> exists k v, m !! k = Some v /\ p v = true.
Proof.
  unfold any_row. rewrite existsb_exists. split.
  - intros ([k v] & Hin & Hp). exists k, v. split; [|done]. by apply elem_of_map_to_list, list_elem_of_In.
  - intros (k & v & Hm & Hp). exists (k, v). split; [|done]. by apply list_elem_of_In, elem_of_map_to_list.
Qed.

Lemma any_row_false {A} (p : A -> bool) m : any_row p m = false <-> forall k v, m !! k = Some v -> p v = false.
Proof.
  rewrite <- not_true_iff_false, any_row_true. split.
  - intros H k v Hm. apply not_true_iff_false. intros Hp. apply H. by exists k, v.
  - intros H (k & v & Hm & Hp). rewrite (H k v Hm) in Hp. done.
Qed.

(** ** Figures *)

Section figures.
Context (b : books) (o u : Z) (w : wallet).

Definition wd_held (r : withdrawal_row) : Z := if mine o u (wd_org r) (wd_user r) && open_withdrawal r then wd_amount r else 0.
Definition tr_held (r : transfer_row) : Z :=
  if mine o u (tr_org r) (tr_user r) && open_transfer r && bool_decide (tr_source r = TWallet w) then tr_amount r else 0.

Definition bal : Z := msum (entry_amount o u w) (b_entries b).
Definition hold : Z :=
  (if decide (w = WMain) then msum wd_held (b_withdrawals b) else 0) + msum tr_held (b_transfers b).
Definition avail : Z := bal - hold.

(** What the desk took by hand: the negative adjustments. *)
Definition taken (e : entry_row) : Z :=
  if bool_decide (we_kind e = KAdjustment) then Z.max 0 (- entry_amount o u w e) else 0.
Definition overdraft : Z := msum taken (b_entries b).

(** *** What the requests say a wallet holds *)

Definition dep_part (r : deposit_row) : Z :=
  if mine o u (dp_org r) (dp_user r) && bool_decide (dp_status r = SConfirmed) && bool_decide (w = WMain)
  then default 0 (dp_credited r) else 0.
Definition wd_part (r : withdrawal_row) : Z :=
  if mine o u (wd_org r) (wd_user r) && bool_decide (wd_status r = SPaid) && bool_decide (w = WMain) then - wd_amount r else 0.
Definition tr_part (r : transfer_row) : Z :=
  if mine o u (tr_org r) (tr_user r) && bool_decide (tr_status r = SDone)
  then (if bool_decide (tr_target r = TWallet w) then tr_amount r else 0)
       - (if bool_decide (tr_source r = TWallet w) then tr_amount r else 0)
  else 0.
Definition bo_part (r : bonus_row) : Z :=
  if mine o u (bo_org r) (bo_user r) && bool_decide (w = WCredit) then bo_amount r else 0.
Definition adj_part (e : entry_row) : Z := if bool_decide (we_kind e = KAdjustment) then entry_amount o u w e else 0.

Definition requested_balance : Z :=
  msum dep_part (b_deposits b) + msum wd_part (b_withdrawals b) + msum tr_part (b_transfers b) +
  msum bo_part (b_bonuses b) + msum adj_part (b_entries b).
End figures.

(** ** Moves *)

Definition endpoint_of (e : transfer_end) : endpoint := match e with TWallet w => EWallet w | TAccount _ => EAccount end.

(** The columns that never change. *)
Definition same_deposit (r r' : deposit_row) : Prop :=
  dp_org r' = dp_org r /\ dp_user r' = dp_user r /\ dp_amount r' = dp_amount r /\ dp_fee r' = dp_fee r /\
  dp_reference r' = dp_reference r /\ dp_receipt r' = dp_receipt r.
Definition same_withdrawal (r r' : withdrawal_row) : Prop :=
  wd_org r' = wd_org r /\ wd_user r' = wd_user r /\ wd_amount r' = wd_amount r /\ wd_fee r' = wd_fee r /\
  wd_net r' = wd_net r /\ wd_destination r' = wd_destination r.
Definition same_transfer (r r' : transfer_row) : Prop :=
  tr_org r' = tr_org r /\ tr_user r' = tr_user r /\ tr_amount r' = tr_amount r /\
  tr_source r' = tr_source r /\ tr_target r' = tr_target r /\ tr_equity r' = tr_equity r.

(** The credit that moved into an account for good. *)
Definition funded_credit (b : books) (o u a : Z) : Z :=
  msum (fun r => if credit_into o u a r && bool_decide (tr_status r = SDone) then tr_amount r else 0) (b_transfers b).

(** What is on its way out of an account. *)
Definition leaving (b : books) (o u a : Z) : Z :=
  msum (fun r => if out_of_account o u a r then tr_amount r else 0) (b_transfers b).

(** A transfer out of an account is covered by the equity the request saw, less
    what is already leaving and the credit that must stay; with no equity known
    there must be no credit. *)
Definition covered (b : books) (r : transfer_row) : Prop :=
  forall a, tr_source r = TAccount (Some a) ->
    match tr_equity r with
    | Some q => tr_amount r + leaving b (tr_org r) (tr_user r) a + funded_credit b (tr_org r) (tr_user r) a <= q
    | None => funded_credit b (tr_org r) (tr_user r) a <= 0
    end.

(** A credit transfer into an account and a transfer out of it may not both be
    under way. *)
Definition may_start (b : books) (r : transfer_row) : Prop :=
  (forall a, tr_source r = TAccount (Some a) ->
     forall k x, b_transfers b !! k = Some x -> credit_into (tr_org r) (tr_user r) a x && open_transfer x = false) /\
  (forall a, tr_source r = TWallet WCredit -> tr_target r = TAccount (Some a) ->
     forall k x, b_transfers b !! k = Some x -> out_of_account (tr_org r) (tr_user r) a x = false).

(** The ledger row of one end of a settled transfer. *)
Definition is_entry (e : entry_row) (o u : Z) (w : wallet) (amount : Z) (kind : entry_kind) (ref : ref_table * Z) : Prop :=
  we_org e = o /\ we_user e = u /\ we_wallet e = w /\ we_amount e = amount /\ we_kind e = kind /\ we_ref e = Some ref.

(** The entries after one end is settled: a wallet end writes one row. *)
Inductive end_settled (es : gmap Z entry_row) (o u : Z) (amount id : Z) : transfer_end -> gmap Z entry_row -> Prop :=
  | EndAccount a : end_settled es o u amount id (TAccount a) es
  | EndWallet w k e :
      es !! k = None -> is_entry e o u w amount KTransfer (RefTransfers, id) ->
      end_settled es o u amount id (TWallet w) (<[k := e]> es).

Inductive move : books -> books -> Prop :=
  | MFile es ds ws ts bs id r :
      ds !! id = None -> dp_status r = SPending -> 0 < dp_amount r ->
      (forall k x, ds !! k = Some x -> live_deposit x && (dp_org x =? dp_org r) &&
         bool_decide (str_lower (dp_reference x) = str_lower (dp_reference r)) = false) ->
      (forall k x f, ds !! k = Some x -> dp_receipt r = Some f -> dp_receipt x <> Some f) ->
      move (Build_books es ds ws ts bs) (Build_books es (<[id := r]> ds) ws ts bs)
  | MDropDeposit es ds ws ts bs id r r' :
      ds !! id = Some r -> dp_status r = SPending -> dp_status r' = SRejected \/ dp_status r' = SCancelled ->
      same_deposit r r' ->
      move (Build_books es ds ws ts bs) (Build_books es (<[id := r']> ds) ws ts bs)
  | MConfirm es ds ws ts bs id r r' c k e ts' :
      ds !! id = Some r -> dp_status r = SPending -> dp_status r' = SConfirmed -> dp_credited r' = Some c ->
      0 < c <= dp_amount r -> same_deposit r r' ->
      es !! k = None -> is_entry e (dp_org r) (dp_user r) WMain c KDeposit (RefDeposits, id) ->
      (* nothing more, or the hold for the trading account *)
      ts' = ts \/ (exists j t, ts !! j = None /\ ts' = <[j := t]> ts /\ tr_org t = dp_org r /\ tr_user t = dp_user r /\
        tr_source t = TWallet WMain /\ (exists a, tr_target t = TAccount (Some a)) /\ tr_amount t = c /\ tr_status t = SApproved) ->
      move (Build_books es ds ws ts bs) (Build_books (<[k := e]> es) (<[id := r']> ds) ws ts' bs)
  | MWithdraw es ds ws ts bs id r :
      ws !! id = None -> wd_status r = SRequested -> 0 < wd_net r -> 0 <= wd_fee r -> wd_net r + wd_fee r = wd_amount r ->
      wd_amount r <= avail (Build_books es ds ws ts bs) (wd_org r) (wd_user r) WMain ->
      move (Build_books es ds ws ts bs) (Build_books es ds (<[id := r]> ws) ts bs)
  | MMoveWithdrawal es ds ws ts bs id r r' :
      ws !! id = Some r -> can_transition Withdrawals (wd_status r) (wd_status r') = true -> wd_status r' <> SPaid ->
      same_withdrawal r r' ->
      move (Build_books es ds ws ts bs) (Build_books es ds (<[id := r']> ws) ts bs)
  | MPay es ds ws ts bs id r r' k e :
      ws !! id = Some r -> wd_status r = SApproved -> wd_status r' = SPaid -> same_withdrawal r r' ->
      es !! k = None -> is_entry e (wd_org r) (wd_user r) WMain (- wd_amount r) KWithdrawal (RefWithdrawals, id) ->
      move (Build_books es ds ws ts bs) (Build_books (<[k := e]> es) ds (<[id := r']> ws) ts bs)
  | MTransfer es ds ws ts bs id r :
      ts !! id = None -> tr_status r = SRequested -> 0 < tr_amount r ->
      (endpoint_of (tr_source r), endpoint_of (tr_target r)) ∈ TRANSFER_PAIRS ->
      (forall w, tr_source r = TWallet w -> tr_amount r <= avail (Build_books es ds ws ts bs) (tr_org r) (tr_user r) w) ->
      may_start (Build_books es ds ws ts bs) r -> covered (Build_books es ds ws ts bs) r ->
      move (Build_books es ds ws ts bs) (Build_books es ds ws (<[id := r]> ts) bs)
  | MInstant es ds ws ts bs id r sw tw es1 es2 :
      ts !! id = None -> tr_status r = SDone -> 0 < tr_amount r -> tr_source r = TWallet sw -> tr_target r = TWallet tw ->
      (EWallet sw, EWallet tw) ∈ TRANSFER_PAIRS ->
      tr_amount r <= avail (Build_books es ds ws ts bs) (tr_org r) (tr_user r) sw ->
      end_settled es (tr_org r) (tr_user r) (- tr_amount r) id (tr_source r) es1 ->
      end_settled es1 (tr_org r) (tr_user r) (tr_amount r) id (tr_target r) es2 ->
      move (Build_books es ds ws ts bs) (Build_books es2 ds ws (<[id := r]> ts) bs)
  | MMoveTransfer es ds ws ts bs id r r' :
      ts !! id = Some r -> can_transition Transfers (tr_status r) (tr_status r') = true -> tr_status r' <> SDone ->
      same_transfer r r' ->
      move (Build_books es ds ws ts bs) (Build_books es ds ws (<[id := r']> ts) bs)
  | MDone es ds ws ts bs id r r' es1 es2 :
      ts !! id = Some r -> can_transition Transfers (tr_status r) SDone = true -> tr_status r' = SDone -> same_transfer r r' ->
      tr_source r <> TAccount None -> tr_target r <> TAccount None ->
      (* credit that moved into the account stays there *)
      (forall a q, tr_source r = TAccount (Some a) -> tr_equity r = Some q ->
         tr_amount r + funded_credit (Build_books es ds ws ts bs) (tr_org r) (tr_user r) a <= q) ->
      end_settled es (tr_org r) (tr_user r) (- tr_amount r) id (tr_source r) es1 ->
      end_settled es1 (tr_org r) (tr_user r) (tr_amount r) id (tr_target r) es2 ->
      move (Build_books es ds ws ts bs) (Build_books es2 ds ws (<[id := r']> ts) bs)
  | MAdjust es ds ws ts bs k e :
      es !! k = None -> we_kind e = KAdjustment -> we_ref e = None ->
      move (Build_books es ds ws ts bs) (Build_books (<[k := e]> es) ds ws ts bs)
  | MBonus es ds ws ts bs id r k e :
      bs !! id = None -> es !! k = None -> bonus_checks r = true ->
      (forall j x, bs !! j = Some x -> same_bonus r x = false) ->
      is_entry e (bo_org r) (bo_user r) WCredit (bo_amount r) KBonus (RefBonuses, id) ->
      (bo_amount r < 0 -> 0 <= avail (Build_books es ds ws ts bs) (bo_org r) (bo_user r) WCredit + bo_amount r) ->
      move (Build_books es ds ws ts bs) (Build_books (<[k := e]> es) ds ws ts (<[id := r]> bs))
  | MDetachMethod es ds ws ts bs m :
      move (Build_books es ds ws ts bs) (Build_books es (dp_detach_method m <$> ds) ws ts bs)
  | MDetachAccount es ds ws ts bs a :
      move (Build_books es ds ws ts bs) (Build_books es (dp_detach_account a <$> ds) ws (tr_detach a <$> ts) bs).

(** ** Books in order *)

Definition ref_settled (b : books) (e : entry_row) : Prop :=
  match we_ref e with
  | None => we_kind e = KAdjustment
  | Some (RefDeposits, id) => exists r, b_deposits b !! id = Some r /\ dp_status r = SConfirmed
  | Some (RefWithdrawals, id) => exists r, b_withdrawals b !! id = Some r /\ wd_status r = SPaid
  | Some (RefTransfers, id) => exists r, b_transfers b !! id = Some r /\ tr_status r = SDone
  | Some (RefBonuses, id) => is_Some (b_bonuses b !! id)
  end.

Definition deposit_ok (r : deposit_row) : Prop :=
  0 < dp_amount r /\ dp_status r ∈ [SPending; SConfirmed; SRejected; SCancelled] /\
  (dp_status r = SConfirmed -> exists c, dp_credited r = Some c /\ 0 < c <= dp_amount r).
Definition withdrawal_ok (r : withdrawal_row) : Prop :=
  0 < wd_net r /\ 0 <= wd_fee r /\ wd_net r + wd_fee r = wd_amount r /\
  wd_status r ∈ [SRequested; SApproved; SPaid; SRejected; SCancelled].
Definition transfer_ok (r : transfer_row) : Prop :=
  0 < tr_amount r /\ (endpoint_of (tr_source r), endpoint_of (tr_target r)) ∈ TRANSFER_PAIRS /\
  tr_status r ∈ [SRequested; SApproved; SDone; SRejected; SCancelled].

Definition exclusive (ts : gmap Z transfer_row) : Prop :=
  forall o u a k x j y, ts !! k = Some x -> ts !! j = Some y ->
    credit_into o u a x && open_transfer x = true -> out_of_account o u a y = false.

(** Two notices of the same money: a live reference twice, or a receipt twice. *)
Definition clash (x y : deposit_row) : Prop :=
  (live_deposit x = true /\ live_deposit y = true /\ dp_org x = dp_org y /\
   str_lower (dp_reference x) = str_lower (dp_reference y)) \/
  (exists f, dp_receipt x = Some f /\ dp_receipt y = Some f).

Record in_order (b : books) : Prop := {
  io_deposits : map_Forall (fun _ => deposit_ok) (b_deposits b);
  io_withdrawals : map_Forall (fun _ => withdrawal_ok) (b_withdrawals b);
  io_transfers : map_Forall (fun _ => transfer_ok) (b_transfers b);
  io_bonuses : map_Forall (fun _ r => bonus_checks r = true) (b_bonuses b);
  io_refs : map_Forall (fun _ => ref_settled b) (b_entries b);
  io_balance : forall o u w, bal b o u w = requested_balance b o u w;
  io_solvent : forall o u w, - overdraft b o u w <= avail b o u w;
  (** credit coming into an account and money leaving it exclude each other *)
  io_exclusive : exclusive (b_transfers b);
  (** a rule pays once *)
  io_once : forall k x j y, b_bonuses b !! k = Some x -> b_bonuses b !! j = Some y -> same_bonus x y = true -> k = j;
  (** one live notice per reference, one notice per receipt *)
  io_notices : forall k x j y, b_deposits b !! k = Some x -> b_deposits b !! j = Some y -> clash x y -> k = j
}.

Section moves.

Ltac by_cases := repeat (case_bool_decide || case_decide || match goal with |- context [if ?c then _ else _] => destruct c eqn:? end);
  simplify_eq; try done; try lia.

Ltac unfold_figures := unfold avail, bal, hold, overdraft, requested_balance; cbn [b_entries b_deposits b_withdrawals b_transfers b_bonuses].

(** What one more row does to the sums. *)
Lemma entry_sums_new es k e o u w amount kind ref o' u' w' :
  es !! k = None -> is_entry e o u w amount kind ref -> kind <> KAdjustment ->
  let d := if mine o' u' o u && bool_decide (w = w') then amount else 0 in
  msum (entry_amount o' u' w') (<[k := e]> es) = d + msum (entry_amount o' u' w') es /\
  msum (taken o' u' w') (<[k := e]> es) = msum (taken o' u' w') es /\
  msum (adj_part o' u' w') (<[k := e]> es) = msum (adj_part o' u' w') es.
Proof.
  intros Hk (<- & <- & <- & <- & <- & _) Hne d. rewrite !msum_new by done.
  unfold taken at 1, adj_part at 1. rewrite bool_decide_eq_false_2 by done. done.
Qed.

Lemma end_settled_sums es es' o u amount id e o' u' w' :
  end_settled es o u amount id e es' ->
  let d := if mine o' u' o u && bool_decide (e = TWallet w') then amount else 0 in
  msum (entry_amount o' u' w') es' = d + msum (entry_amount o' u' w') es /\
  msum (taken o' u' w') es' = msum (taken o' u' w') es /\ msum (adj_part o' u' w') es' = msum (adj_part o' u' w') es.
Proof.
  intros [a|w k r Hk Hr] d; subst d.
  - rewrite bool_decide_eq_false_2, andb_false_r by done. done.
  - destruct (entry_sums_new es k r o u w amount KTransfer _ o' u' w' Hk Hr) as (-> & -> & ->); [done|].
    split; [|done]. do 2 case_bool_decide; simplify_eq; done.
Qed.

Lemma overdraft_nonneg b o u w : 0 <= overdraft b o u w.
Proof. apply msum_nonneg. intros k e _. unfold taken. case_bool_decide; lia. Qed.

(** A request that moves on was open; it keeps its hold or frees it, and was not
    in the balance. *)
Lemma wd_moved o u r r' :
  withdrawal_ok r -> can_transition Withdrawals (wd_status r) (wd_status r') = true -> same_withdrawal r r' ->
  withdrawal_ok r' /\ wd_held o u r = (if mine o u (wd_org r) (wd_user r) then wd_amount r else 0) /\ wd_held o u r' = (if open_withdrawal r' then wd_held o u r else 0) /\ (forall w, wd_part o u w r = 0).
Proof.
  intros (Hn & Hf & Ha & Hs) Ht (H1 & H2 & H3 & H4 & H5 & _). unfold withdrawal_ok, wd_held, wd_part, open_withdrawal.
  rewrite H1, H2, H3, H4, H5.
  destruct (wd_status r); try discriminate Ht; destruct (wd_status r'); try discriminate Ht;
    (split; [split_and!; [done..|set_solver]|]); destruct (mine o u _ _); done.
Qed.

Lemma tr_moved o u r r' :
  transfer_ok r -> can_transition Transfers (tr_status r) (tr_status r') = true -> same_transfer r r' ->
  transfer_ok r' /\ open_transfer r = true /\ (forall w, tr_held o u w r = if mine o u (tr_org r) (tr_user r) && bool_decide (tr_source r = TWallet w) then tr_amount r else 0) /\ (forall w, tr_held o u w r' = (if open_transfer r' then tr_held o u w r else 0)) /\ (forall w, tr_part o u w r = 0).
Proof.
  intros (Hn & Hp & Hs) Ht (H1 & H2 & H3 & H4 & H5 & _). unfold transfer_ok, tr_held, tr_part, open_transfer.
  rewrite H1, H2, H3, H4, H5.
  destruct (tr_status r); try discriminate Ht; destruct (tr_status r'); try discriminate Ht;
    (split; [split_and!; [done..|set_solver]|]); destruct (mine o u _ _); done.
Qed.

(** Detached rows count as before. *)
Lemma tr_detach_sums a (ts : gmap Z transfer_row) o u w :
  msum (tr_held o u w) (tr_detach a <$> ts) = msum (tr_held o u w) ts /\ msum (tr_part o u w) (tr_detach a <$> ts) = msum (tr_part o u w) ts.
Proof.
  assert (forall e, bool_decide (detach_end a e = TWallet w) = bool_decide (e = TWallet w)) as He.
  { intros [w'|x]; [done|]. by rewrite !bool_decide_eq_false_2. }
  split; apply msum_fmap; intros r; unfold tr_held, tr_part, open_transfer; simpl; by rewrite !He.
Qed.

(** Rewrites the sums over a changed table. *)
Ltac sum_rows := repeat match goal with
  | Hk : ?es !! ?k = None, He : is_entry ?e _ _ _ _ ?kind _ |- context [msum (entry_amount ?o ?u ?w) (<[?k := ?e]> ?es)] =>
      let E1 := fresh in let E2 := fresh in let E3 := fresh in
      destruct (entry_sums_new es k e _ _ _ _ _ _ o u w Hk He ltac:(done)) as (E1 & E2 & E3);
      rewrite E1; rewrite ?E2; rewrite ?E3; clear E1 E2 E3
  | He : end_settled ?es _ _ _ _ _ ?es' |- context [msum (entry_amount ?o ?u ?w) ?es'] =>
      let E1 := fresh in let E2 := fresh in let E3 := fresh in
      destruct (end_settled_sums es es' _ _ _ _ _ o u w He) as (E1 & E2 & E3);
      rewrite E1; rewrite ?E2; rewrite ?E3; clear E1 E2 E3
  | H : ?m !! ?k = None |- context [msum ?f (<[?k := ?v]> ?m)] => rewrite (msum_new f m k v H)
  | H : ?m !! ?k = Some ?v0 |- context [msum ?f (<[?k := ?v]> ?m)] => rewrite (msum_old f m k v0 v H)
  end.

Ltac rewrite_fields := repeat match goal with
  | H : same_deposit _ _ |- _ => destruct H as (?Eq & ?Eq & ?Eq & ?Eq & ?Eq & ?Eq)
  | H : same_withdrawal _ _ |- _ => destruct H as (?Eq & ?Eq & ?Eq & ?Eq & ?Eq & ?Eq)
  | H : same_transfer _ _ |- _ => destruct H as (?Eq & ?Eq & ?Eq & ?Eq & ?Eq & ?Eq)
  end.

Lemma dep_part_0 o u w r : dp_status r <> SConfirmed -> dep_part o u w r = 0.
Proof. intros H. unfold dep_part. by rewrite (bool_decide_eq_false_2 _ H), andb_false_r. Qed.
Lemma wd_part_0 o u w r : wd_status r <> SPaid -> wd_part o u w r = 0.
Proof. intros H. unfold wd_part. by rewrite (bool_decide_eq_false_2 _ H), andb_false_r. Qed.
Lemma tr_part_0 o u w r : tr_status r <> SDone -> tr_part o u w r = 0.
Proof. intros H. unfold tr_part. by rewrite (bool_decide_eq_false_2 _ H), andb_false_r. Qed.

Lemma dep_part_confirmed o u w r c :
  dp_status r = SConfirmed -> dp_credited r = Some c ->
  dep_part o u w r = if mine o u (dp_org r) (dp_user r) && bool_decide (WMain = w) then c else 0.
Proof.
  intros Hs Hc. unfold dep_part. rewrite (bool_decide_eq_true_2 _ Hs), andb_true_r, Hc.
  by rewrite (bool_decide_ext (w = WMain) (WMain = w)) by done.
Qed.
Lemma wd_part_paid o u w r :
  wd_status r = SPaid ->
  wd_part o u w r = if mine o u (wd_org r) (wd_user r) && bool_decide (WMain = w) then - wd_amount r else 0.
Proof.
  intros Hs. unfold wd_part. rewrite (bool_decide_eq_true_2 _ Hs), andb_true_r.
  by rewrite (bool_decide_ext (w = WMain) (WMain = w)) by done.
Qed.
Lemma bo_part_eq o u w r :
  bo_part o u w r = if mine o u (bo_org r) (bo_user r) && bool_decide (WCredit = w) then bo_amount r else 0.
Proof. unfold bo_part. by rewrite (bool_decide_ext (w = WCredit) (WCredit = w)) by done. Qed.

(** The two ends of a settled transfer are its part of the balance. *)
Lemma tr_part_done o u w r :
  tr_status r = SDone ->
  tr_part o u w r =
    (if mine o u (tr_org r) (tr_user r) && bool_decide (tr_target r = TWallet w) then tr_amount r else 0) +
    (if mine o u (tr_org r) (tr_user r) && bool_decide (tr_source r = TWallet w) then - tr_amount r else 0).
Proof.
  intros H. unfold tr_part. rewrite (bool_decide_eq_true_2 _ H), andb_true_r.
  destruct (mine o u _ _); simpl; [|lia]. by_cases.
Qed.

Lemma move_balance b b' :
  in_order b -> move b b' -> forall o u w, bal b' o u w = requested_balance b' o u w.
Proof.
  intros Hb Hm o u w. pose proof (io_balance b Hb o u w) as Hbal. revert Hbal.
  destruct Hm; unfold_figures; intros Hbal; sum_rows; rewrite Hbal.
  - rewrite (dep_part_0 o u w r) by congruence. lia.
  - rewrite !dep_part_0 by (intuition congruence). lia.
  - rewrite (dep_part_0 o u w r) by congruence.
    assert (msum (tr_part o u w) ts' = msum (tr_part o u w) ts) as ->.
    { destruct H7 as [->|(j & t & Hj & -> & _ & _ & _ & _ & _ & Ht)]; [done|].
      rewrite msum_new, (tr_part_0 o u w t) by congruence. lia. }
    rewrite (dep_part_confirmed o u w r' c) by done. destruct H4 as (-> & -> & _). lia.
  - rewrite (wd_part_0 o u w r) by congruence. lia.
  - destruct (wd_moved o u r r' (io_withdrawals _ Hb _ _ H) H0 H2) as (_ & _ & _ & ->).
    rewrite wd_part_0 by done. lia.
  - rewrite (wd_part_0 o u w r) by congruence. rewrite (wd_part_paid o u w r') by done. destruct H2 as (-> & -> & -> & _). lia.
  - rewrite (tr_part_0 o u w r) by congruence. lia.
  - rewrite (tr_part_done o u w r) by done. lia.
  - destruct (tr_moved o u r r' (io_transfers _ Hb _ _ H) H0 H2) as (_ & _ & _ & _ & ->).
    rewrite tr_part_0 by done. lia.
  - rewrite (tr_part_done o u w r') by done. rewrite <- H1 in H0.
    destruct (tr_moved o u r r' (io_transfers _ Hb _ _ H) H0 H2) as (_ & _ & _ & _ & ->).
    destruct H2 as (-> & -> & -> & -> & -> & _). lia.
  - unfold adj_part at 2. rewrite H0, bool_decide_eq_true_2 by done. lia.
  - rewrite (bo_part_eq o u w r). lia.
  - rewrite msum_fmap; [lia|]. intros x. done.
  - rewrite msum_fmap by done. destruct (tr_detach_sums a ts o u w) as [_ ->]. lia.
Qed.

Lemma mine_true o u o' u' : mine o u o' u' = true <-> o' = o /\ u' = u.
Proof. unfold mine. rewrite andb_true_iff, !Z.eqb_eq. done. Qed.

Lemma tr_held_new o u w r : tr_held o u w r = 0 \/
  (tr_org r = o /\ tr_user r = u /\ open_transfer r = true /\ tr_source r = TWallet w /\ tr_held o u w r = tr_amount r).
Proof.
  unfold tr_held. destruct (mine o u _ _) eqn:E; [|by left]. apply mine_true in E as [-> ->].
  destruct (open_transfer r) eqn:E; [|by left]. case_bool_decide; [right|left]; done.
Qed.

Lemma move_solvent b b' :
  in_order b -> move b b' -> forall o u w, - overdraft b' o u w <= avail b' o u w.
Proof.
  intros Hb Hm o u w. pose proof (io_solvent b Hb o u w) as Hs. pose proof (overdraft_nonneg b o u w) as Ho. revert Hs Ho.
  destruct Hm; unfold_figures; intros Hs Ho; sum_rows.
  - lia.
  - lia.
  - assert (msum (tr_held o u w) ts' <= (if mine o u (dp_org r) (dp_user r) && bool_decide (WMain = w) then c else 0) + msum (tr_held o u w) ts) as Hh.
    { destruct H7 as [->|(j & t & Hj & -> & Eo & Eu & Es & _ & Ea & _)]; [destruct (mine _ _ _ _ && _); lia|].
      rewrite msum_new by done. destruct (tr_held_new o u w t) as [->|(<- & <- & _ & Es' & ->)]; [destruct (mine _ _ _ _ && _); lia|].
      rewrite Es in Es'. simplify_eq. rewrite (proj2 (mine_true _ _ _ _)) by done. rewrite bool_decide_eq_true_2 by done. simpl. lia. }
    lia.
  - unfold avail, bal, hold in H4. cbn in H4. unfold wd_held at 1.
    destruct (mine o u _ _) eqn:Em; simpl; [apply mine_true in Em as [<- <-]|case_decide; lia].
    case_decide; [subst|lia]. rewrite decide_True in H4 by done.
    replace (open_withdrawal r) with true by (unfold open_withdrawal; by rewrite H0). lia.
  - destruct (wd_moved o u r r' (io_withdrawals _ Hb _ _ H) H0 H2) as ((_ & _ & _ & _) & E1 & E2 & _).
    destruct (io_withdrawals _ Hb _ _ H) as (? & ? & ? & _). rewrite E2, E1.
    case_decide; [|lia]. destruct (open_withdrawal r'), (mine _ _ _ _); lia.
  - destruct (wd_moved o u r r' (io_withdrawals _ Hb _ _ H)) as (_ & E1 & E2 & _); [by rewrite H0, H1|done|].
    replace (open_withdrawal r') with false in E2 by (unfold open_withdrawal; by rewrite H1). rewrite E1, E2.
    case_decide; [subst|rewrite bool_decide_eq_false_2, andb_false_r by done; lia].
    rewrite bool_decide_eq_true_2, andb_true_r by done. destruct (mine _ _ _ _); lia.
  - destruct (tr_held_new o u w r) as [->|(<- & <- & _ & Es & ->)]; [lia|].
    specialize (H3 w Es). unfold avail, bal, hold in H3. cbn [b_entries b_withdrawals b_transfers] in H3. lia.
  - unfold tr_held at 1. replace (open_transfer r) with false by (unfold open_transfer; by rewrite H0).
    rewrite andb_false_r. simpl. unfold avail, bal, hold in H5. cbn [b_entries b_withdrawals b_transfers] in H5. rewrite H2, H3.
    destruct (mine o u _ _) eqn:Em; simpl; [apply mine_true in Em as [<- <-]|lia].
    case_bool_decide; case_bool_decide; simplify_eq; lia.
  - destruct (tr_moved o u r r' (io_transfers _ Hb _ _ H) H0 H2) as (_ & _ & E1 & E2 & _).
    destruct (io_transfers _ Hb _ _ H) as (? & _ & _). rewrite E2, E1.
    destruct (open_transfer r'), (mine _ _ _ _ && _); lia.
  - destruct (tr_moved o u r r' (io_transfers _ Hb _ _ H)) as (_ & _ & E1 & E2 & _); [by rewrite H1|done|].
    destruct (io_transfers _ Hb _ _ H) as (? & _ & _). rewrite E2, E1.
    replace (open_transfer r') with false by (unfold open_transfer; by rewrite H1).
    destruct (mine o u _ _); simpl; [|lia]. do 2 case_bool_decide; lia.
  - unfold taken at 1. rewrite H0, bool_decide_eq_true_2 by done. lia.
  - destruct (mine o u _ _) eqn:Em; simpl; [apply mine_true in Em as [<- <-]|lia]. case_bool_decide; [subst|lia].
    destruct (Z.le_gt_cases 0 (bo_amount r)) as [?|Hlt]; [lia|]. specialize (H4 Hlt).
    unfold avail, bal, hold in H4. cbn [b_entries b_withdrawals b_transfers] in H4. lia.
  - lia.
  - destruct (tr_detach_sums a ts o u w) as [-> _]. lia.
Qed.
(** *** The rows *)

Lemma move_deposits b b' : in_order b -> move b b' -> map_Forall (fun _ => deposit_ok) (b_deposits b').
Proof.
  intros Hb Hm. pose proof (io_deposits b Hb) as Hd. destruct Hm; cbn [b_deposits] in *; try done.
  - apply map_Forall_insert_2; [|done]. split_and!; [done|rewrite H0; set_solver|congruence].
  - destruct (Hd _ _ H) as (? & _ & _). apply map_Forall_insert_2; [|done]. destruct H2 as (_ & _ & Ea & _).
    unfold deposit_ok. rewrite Ea. split_and!; [done|set_solver|intuition congruence].
  - destruct (Hd _ _ H) as (? & _ & _). apply map_Forall_insert_2; [|done]. destruct H4 as (_ & _ & Ea & _).
    unfold deposit_ok. rewrite Ea, H1, H2. split_and!; [done|set_solver|]. intros _. by exists c.
  - intros k x. rewrite lookup_fmap_Some. intros (y & <- & Hy). apply (Hd _ _ Hy).
  - intros k x. rewrite lookup_fmap_Some. intros (y & <- & Hy). apply (Hd _ _ Hy).
Qed.

Lemma move_withdrawals b b' : in_order b -> move b b' -> map_Forall (fun _ => withdrawal_ok) (b_withdrawals b').
Proof.
  intros Hb Hm. pose proof (io_withdrawals b Hb) as Hd. destruct Hm; cbn [b_withdrawals] in *; try done;
    (apply map_Forall_insert_2; [|done]).
  - split_and!; [done..|rewrite H0; set_solver].
  - by destruct (wd_moved 0 0 r r' (Hd _ _ H) H0 H2).
  - destruct (wd_moved 0 0 r r' (Hd _ _ H)); [by rewrite H0, H1|done|done].
Qed.

Lemma detach_endpoint a e : endpoint_of (detach_end a e) = endpoint_of e.
Proof. by destruct e. Qed.

Lemma move_transfers b b' : in_order b -> move b b' -> map_Forall (fun _ => transfer_ok) (b_transfers b').
Proof.
  intros Hb Hm. pose proof (io_transfers b Hb) as Hd. destruct Hm; cbn [b_transfers] in *; try done.
  - destruct H7 as [->|(j & t & Hj & -> & _ & _ & Es & [a Et] & Ea & Est)]; [done|]. apply map_Forall_insert_2; [|done].
    unfold transfer_ok. rewrite Es, Et, Ea, Est. split_and!; [lia|set_solver|set_solver].
  - apply map_Forall_insert_2; [|done]. split_and!; [done..|rewrite H0; set_solver].
  - apply map_Forall_insert_2; [|done]. unfold transfer_ok. rewrite H2, H3, H0. split_and!; [done|done|set_solver].
  - apply map_Forall_insert_2; [|done]. by destruct (tr_moved 0 0 r r' (Hd _ _ H) H0 H2).
  - apply map_Forall_insert_2; [|done]. destruct (tr_moved 0 0 r r' (Hd _ _ H)); [by rewrite H1|done|done].
  - intros k x. rewrite lookup_fmap_Some. intros (y & <- & Hy). destruct (Hd _ _ Hy) as (? & ? & ?).
    unfold transfer_ok. simpl. by rewrite !detach_endpoint.
Qed.

(** What is settled stays settled. *)
Lemma move_settled b b' :
  in_order b -> move b b' ->
  (forall id r, b_deposits b !! id = Some r -> dp_status r = SConfirmed ->
     exists r', b_deposits b' !! id = Some r' /\ dp_status r' = SConfirmed) /\
  (forall id r, b_withdrawals b !! id = Some r -> wd_status r = SPaid ->
     exists r', b_withdrawals b' !! id = Some r' /\ wd_status r' = SPaid) /\
  (forall id r, b_transfers b !! id = Some r -> tr_status r = SDone ->
     exists r', b_transfers b' !! id = Some r' /\ tr_status r' = SDone) /\
  (forall id, is_Some (b_bonuses b !! id) -> is_Some (b_bonuses b' !! id)).
Proof.
  intros Hb Hm. destruct Hm; cbn [b_deposits b_withdrawals b_transfers b_bonuses].
  all: split_and!; try (by eauto); try (by intros i Hi; apply lookup_insert_is_Some'; right).
  all: intros i x Hx Hst; try (rewrite lookup_fmap, Hx; by eexists).
  all: try (destruct (decide (i = id)) as [->|Hne]; [rewrite lookup_insert_eq|rewrite lookup_insert_ne by done; by eauto]; simplify_eq).
  all: try (by eexists); try congruence; try (destruct H7 as [->|(j & t & Hj & -> & _)]; [by eauto|]).
  all: try (rewrite lookup_insert_ne by congruence; by eauto).
  all: rewrite Hst in H0; discriminate H0.
Qed.

Lemma ref_settled_stays b b' e : in_order b -> move b b' -> ref_settled b e -> ref_settled b' e.
Proof.
  intros Hb Hm. destruct (move_settled b b' Hb Hm) as (Hd & Hw & Ht & Hs). unfold ref_settled.
  destruct (we_ref e) as [[[] id]|]; [| | | |done].
  - intros (r & ? & ?). by apply (Hd _ r).
  - intros (r & ? & ?). by apply (Hw _ r).
  - intros (r & ? & ?). by apply (Ht _ r).
  - apply Hs.
Qed.

Lemma end_settled_entries es o u amount id e es' (P : entry_row -> Prop) :
  end_settled es o u amount id e es' -> map_Forall (fun _ => P) es ->
  (forall x, we_ref x = Some (RefTransfers, id) -> P x) -> map_Forall (fun _ => P) es'.
Proof.
  intros [a|w k r Hk (_ & _ & _ & _ & _ & Hr)] Hes HP; [done|]. apply map_Forall_insert_2; [by apply HP|done].
Qed.

Lemma move_refs b b' : in_order b -> move b b' -> map_Forall (fun _ => ref_settled b') (b_entries b').
Proof.
  intros Hb Hm. assert (map_Forall (fun _ => ref_settled b') (b_entries b)) as Hold.
  { eapply map_Forall_impl; [apply (io_refs b Hb)|]. intros k e. by apply ref_settled_stays. }
  assert (forall es0 es1 o u amount id e, end_settled es0 o u amount id e es1 ->
    (exists r, b_transfers b' !! id = Some r /\ tr_status r = SDone) ->
    map_Forall (fun _ => ref_settled b') es0 -> map_Forall (fun _ => ref_settled b') es1) as Hend.
  { intros es0 es1 o u amount id e He Hr Hes. eapply end_settled_entries; [exact He|done|].
    intros x Hx. unfold ref_settled. by rewrite Hx. }
  destruct Hm; cbn [b_entries] in *; try done.
  - apply map_Forall_insert_2; [|done]. destruct H6 as (_ & _ & _ & _ & _ & Hr). unfold ref_settled. rewrite Hr.
    exists r'. cbn; by rewrite lookup_insert_eq.
  - apply map_Forall_insert_2; [|done]. destruct H4 as (_ & _ & _ & _ & _ & Hr). unfold ref_settled. rewrite Hr.
    exists r'. cbn; by rewrite lookup_insert_eq.
  - eapply Hend; [exact H7| |]; [exists r; cbn; by rewrite lookup_insert_eq|].
    eapply Hend; [exact H6| |done]. exists r. cbn; by rewrite lookup_insert_eq.
  - eapply Hend; [exact H7| |]; [exists r'; cbn; by rewrite lookup_insert_eq|].
    eapply Hend; [exact H6| |done]. exists r'. cbn; by rewrite lookup_insert_eq.
  - apply map_Forall_insert_2; [|done]. unfold ref_settled. by rewrite H1.
  - apply map_Forall_insert_2; [|done]. destruct H3 as (_ & _ & _ & _ & _ & Hr). unfold ref_settled. rewrite Hr.
    cbn [b_bonuses]. by rewrite lookup_insert_eq.
Qed.
(** *** Exclusion *)

(** A row that counts for less: closed, or with an end detached. *)
Definition weaker (x' x : transfer_row) : Prop :=
  forall o u a, (credit_into o u a x' && open_transfer x' = true -> credit_into o u a x && open_transfer x = true) /\
                (out_of_account o u a x' = true -> out_of_account o u a x = true).

Lemma exclusive_weaker ts ts' :
  exclusive ts -> (forall k x', ts' !! k = Some x' -> exists x, ts !! k = Some x /\ weaker x' x) -> exclusive ts'.
Proof.
  intros He Hw o u a k x j y Hx Hy Hc. apply not_true_iff_false. intros Ho.
  destruct (Hw _ _ Hx) as (x0 & Hx0 & Wx), (Hw _ _ Hy) as (y0 & Hy0 & Wy).
  apply Wx in Hc. apply Wy in Ho. by rewrite (He _ _ _ _ _ _ _ Hx0 Hy0 Hc) in Ho.
Qed.

Lemma weaker_refl x : weaker x x.
Proof. by intros o u a. Qed.

Lemma exclusive_update ts id r r' : exclusive ts -> ts !! id = Some r -> weaker r' r -> exclusive (<[id := r']> ts).
Proof.
  intros He Hr Hw. apply (exclusive_weaker ts); [done|]. intros k x'. destruct (decide (k = id)) as [->|Hne].
  - rewrite lookup_insert_eq. intros [= <-]. by exists r.
  - rewrite lookup_insert_ne by done. intros Hx. exists x'. split; [done|apply weaker_refl].
Qed.

(** A new row that is neither credit coming in nor money leaving. *)
Lemma exclusive_new ts id r :
  exclusive ts -> ts !! id = None -> (exists w, tr_source r = TWallet w) ->
  (forall a, tr_source r = TWallet WCredit -> tr_target r = TAccount (Some a) ->
     forall k x, ts !! k = Some x -> out_of_account (tr_org r) (tr_user r) a x = false) ->
  exclusive (<[id := r]> ts).
Proof.
  intros He Hid [w Hw] Hstart o u a k x j y Hx Hy Hc. apply not_true_iff_false. intros Ho.
  apply lookup_insert_Some in Hy as [[<- <-]|[_ Hy]].
  { unfold out_of_account in Ho. rewrite Hw, andb_false_r in Ho. done. }
  apply lookup_insert_Some in Hx as [[<- <-]|[_ Hx]]; [|by rewrite (He _ _ _ _ _ _ _ Hx Hy Hc) in Ho].
  unfold credit_into in Hc. apply andb_true_iff in Hc as [Hc _]. apply andb_true_iff in Hc as [Hc Ht].
  apply andb_true_iff in Hc as [Hm Hsr]. apply mine_true in Hm as [<- <-].
  apply bool_decide_eq_true_1 in Hsr, Ht. by rewrite (Hstart a Hsr Ht j y Hy) in Ho.
Qed.

Lemma same_transfer_weaker r r' : open_transfer r = true -> same_transfer r r' -> weaker r' r.
Proof.
  intros Hop (Eo & Eu & _ & Es & Et & _) o u a. unfold out_of_account, credit_into. rewrite Eo, Eu, Es, Et, Hop.
  rewrite !andb_true_iff. tauto.
Qed.

Lemma detach_weaker a x : weaker (tr_detach a x) x.
Proof.
  intros o u a'. unfold out_of_account, credit_into, open_transfer. simpl.
  assert (forall e, bool_decide (detach_end a e = TAccount (Some a')) = true -> bool_decide (e = TAccount (Some a')) = true) as H1.
  { intros [w|y]; simpl; [done|]. destruct (bool_decide (y = Some a)); [by rewrite bool_decide_eq_false_2|done]. }
  assert (bool_decide (detach_end a (tr_source x) = TWallet WCredit) = bool_decide (tr_source x = TWallet WCredit)) as ->.
  { by destruct (tr_source x). }
  rewrite !andb_true_iff. split; intros H; intuition auto.
Qed.

Lemma move_exclusive b b' : in_order b -> move b b' -> exclusive (b_transfers b').
Proof.
  intros Hb Hm. pose proof (io_exclusive b Hb) as He. destruct Hm; cbn [b_transfers] in *; try done.
  - destruct H7 as [->|(j & t & Hj & -> & _ & _ & Es & _)]; [done|].
    apply exclusive_new; [done|done|by eexists|]. intros a' Ec. congruence.
  - destruct H4 as [Hs1 Hs2]. cbn [b_transfers] in *. destruct (tr_source r) as [w|oa] eqn:Es.
    { apply exclusive_new; [done|done|by eexists|by rewrite Es]. }
    intros o u a k x j y Hx Hy Hc.
    assert (ts !! k = Some x) as Hx'.
    { apply lookup_insert_Some in Hx as [[<- <-]|[_ ?]]; [|done]. unfold credit_into in Hc. rewrite Es in Hc.
      by rewrite (bool_decide_eq_false_2 (TAccount oa = _)), andb_false_r in Hc by done. }
    apply lookup_insert_Some in Hy as [[<- <-]|[_ Hy]]; [|by apply (He _ _ _ _ _ _ _ Hx' Hy)].
    apply not_true_iff_false. intros Ho. unfold out_of_account in Ho. apply andb_true_iff in Ho as [Ho Hsr].
    apply andb_true_iff in Ho as [Hm' _]. apply mine_true in Hm' as [<- <-]. apply bool_decide_eq_true_1 in Hsr.
    rewrite Es in Hsr. simplify_eq. by rewrite (Hs1 a eq_refl k x Hx') in Hc.
  - apply exclusive_new; [done|done|by eexists|]. intros a. congruence.
  - eapply exclusive_update; [done|exact H|]. apply same_transfer_weaker; [|done].
    by destruct (tr_moved 0 0 r r' (io_transfers _ Hb _ _ H) H0 H2) as (_ & ? & _).
  - eapply exclusive_update; [done|exact H|]. apply same_transfer_weaker; [|done].
    destruct (tr_moved 0 0 r r' (io_transfers _ Hb _ _ H)) as (_ & ? & _); [by rewrite H1|done|done].
  - apply (exclusive_weaker ts); [done|]. intros k x'. rewrite lookup_fmap_Some. intros (x & <- & Hx).
    exists x. split; [done|apply detach_weaker].
Qed.
(** *** Bonuses and notices *)

Lemma move_once b b' : in_order b -> move b b' ->
  map_Forall (fun _ r => bonus_checks r = true) (b_bonuses b') /\
  (forall k x j y, b_bonuses b' !! k = Some x -> b_bonuses b' !! j = Some y -> same_bonus x y = true -> k = j).
Proof.
  intros Hb Hm. pose proof (io_bonuses b Hb) as Hc. pose proof (io_once b Hb) as Ho.
  destruct Hm; cbn [b_bonuses] in *; try done. split; [by apply map_Forall_insert_2|].
  intros i x j y Hx Hy Hs. apply lookup_insert_Some in Hx as [[<- <-]|[Hi Hx]];
    apply lookup_insert_Some in Hy as [[<- <-]|[Hj Hy]]; try done.
  - by rewrite (H2 _ _ Hy) in Hs.
  - assert (same_bonus r x = true) as Hs'; [|by rewrite (H2 _ _ Hx) in Hs'].
    unfold same_bonus, mine in *. destruct (bo_source x) eqn:Ex, (bo_source r) eqn:Er;
      rewrite ?Ex, ?andb_true_iff, ?Z.eqb_eq, ?bool_decide_eq_true in *; intuition congruence.
  - by apply (Ho _ x _ y).
Qed.

Lemma same_deposit_clash r r' x : live_deposit r = true -> same_deposit r r' -> clash r' x -> clash r x.
Proof.
  intros Hl (Eo & _ & _ & _ & Er & Ec). unfold clash. rewrite Eo, Er, Ec. intuition.
Qed.
Lemma clash_sym x y : clash x y -> clash y x.
Proof. unfold clash. intros [(? & ? & ? & ?)|(f & ? & ?)]; [left|right; exists f]; intuition. Qed.

Lemma move_notices b b' : in_order b -> move b b' ->
  forall k x j y, b_deposits b' !! k = Some x -> b_deposits b' !! j = Some y -> clash x y -> k = j.
Proof.
  intros Hb Hm. pose proof (io_notices b Hb) as Hn.
  assert (forall id r r', b_deposits b !! id = Some r -> live_deposit r = true -> same_deposit r r' ->
    forall k x j y, <[id := r']> (b_deposits b) !! k = Some x -> <[id := r']> (b_deposits b) !! j = Some y -> clash x y -> k = j) as Hupd.
  { intros id r r' Hr Hl Hsame k x j y Hx Hy Hc.
    apply lookup_insert_Some in Hx as [[<- <-]|[Hi Hx]]; apply lookup_insert_Some in Hy as [[<- <-]|[Hj Hy]]; try done.
    - apply (Hn _ r _ y); [done|done|]. by eapply same_deposit_clash.
    - apply (Hn _ x _ r); [done|done|]. apply clash_sym. eapply same_deposit_clash; [done|done|by apply clash_sym].
    - by apply (Hn _ x _ y). }
  destruct Hm; cbn [b_deposits] in *; try done.
  - assert (forall k x, ds !! k = Some x -> clash x r -> False) as Hno.
    { intros k x Hx [(Hl & _ & Eo & Er)|(f & Hf & Hr)]; [|by apply (H3 k x f)].
      specialize (H2 k x Hx). rewrite Hl, (proj2 (Z.eqb_eq _ _) Eo), bool_decide_eq_true_2 in H2 by done. done. }
    intros k x j y Hx Hy Hc.
    apply lookup_insert_Some in Hx as [[<- <-]|[Hi Hx]]; apply lookup_insert_Some in Hy as [[<- <-]|[Hj Hy]]; try done.
    + exfalso. eapply Hno; [exact Hy|by apply clash_sym].
    + exfalso. by eapply Hno.
    + by apply (Hn _ x _ y).
  - eapply Hupd; [exact H| |done]. unfold live_deposit. by rewrite H0.
  - eapply Hupd; [exact H| |done]. unfold live_deposit. by rewrite H0.
  - intros k x j y. rewrite !lookup_fmap_Some. intros (x0 & <- & Hx) (y0 & <- & Hy) Hc. by apply (Hn _ x0 _ y0).
  - intros k x j y. rewrite !lookup_fmap_Some. intros (x0 & <- & Hx) (y0 & <- & Hy) Hc. by apply (Hn _ x0 _ y0).
Qed.

(** Every move keeps the books in order. *)
Lemma move_in_order b b' : in_order b -> move b b' -> in_order b'.
Proof.
  intros Hb Hm. destruct (move_once b b' Hb Hm) as [? ?]. split;
    eauto using move_deposits, move_withdrawals, move_transfers, move_refs, move_balance, move_solvent, move_exclusive, move_notices.
Qed.

Lemma moves_in_order b b' : in_order b -> rtc move b b' -> in_order b'.
Proof. intros Hb Hm. induction Hm; [done|]. apply IHHm. by eapply move_in_order. Qed.
End moves.

(** ** The history of a request *)

(** Owners and amounts never change, and a status only moves along the edges of
    its machine: what two states of the books have to do with each other. *)
Definition deposit_later (r r' : deposit_row) : Prop :=
  dp_org r' = dp_org r /\ dp_user r' = dp_user r /\ dp_amount r' = dp_amount r /\
  (dp_status r' = dp_status r /\ dp_credited r' = dp_credited r \/ can_transition Deposits (dp_status r) (dp_status r') = true).
Definition withdrawal_later (r r' : withdrawal_row) : Prop :=
  same_withdrawal r r' /\ rtc (fun a b => can_transition Withdrawals a b = true) (wd_status r) (wd_status r').
(** An end stays, but for an account that is removed. *)
Definition end_later (e e' : transfer_end) : Prop := e' = e \/ (exists a, e = TAccount a) /\ e' = TAccount None.
Definition transfer_later (r r' : transfer_row) : Prop :=
  tr_org r' = tr_org r /\ tr_user r' = tr_user r /\ tr_amount r' = tr_amount r /\
  end_later (tr_source r) (tr_source r') /\ end_later (tr_target r) (tr_target r') /\
  tr_equity r' = tr_equity r /\ rtc (fun a b => can_transition Transfers a b = true) (tr_status r) (tr_status r').


#[export] Instance deposit_later_preorder : PreOrder deposit_later.
Proof.
  split; [intros r; unfold deposit_later; intuition|]. intros x y z (A1 & A2 & A3 & Hxy) (B1 & B2 & B3 & Hyz).
  split_and!; [congruence..|]. destruct Hxy as [[E1 E2]|Hxy], Hyz as [[E3 E4]|Hyz].
  - left. split; congruence.
  - right. by rewrite <- E1.
  - right. by rewrite E3.
  - destruct (dp_status x), (dp_status y); discriminate Hxy || discriminate Hyz.
Qed.
#[export] Instance withdrawal_later_preorder : PreOrder withdrawal_later.
Proof.
  split; [intros r; split; [done|reflexivity]|].
  intros x y z [(A1 & A2 & A3 & A4 & A5 & A6) Hxy] [(B1 & B2 & B3 & B4 & B5 & B6) Hyz].
  split; [split_and!; congruence|by trans (wd_status y)].
Qed.
#[export] Instance end_later_preorder : PreOrder end_later.
Proof.
  split; [by left|]. intros x y z [->|[[a ->] ->]] [->|[[c Hc] ->]]; unfold end_later; eauto.
Qed.
#[export] Instance transfer_later_preorder : PreOrder transfer_later.
Proof.
  split; [intros r; split_and!; done|].
  intros x y z (A1 & A2 & A3 & A4 & A5 & A6 & Hxy) (B1 & B2 & B3 & B4 & B5 & B6 & Hyz).
  split_and!; [congruence..|by trans (tr_source y)|by trans (tr_target y)|congruence|by trans (tr_status y)].
Qed.

(** Every row stays, as a later form of itself. *)
Definition rows_later {A} (later : A -> A -> Prop) (m m' : gmap Z A) : Prop :=
  forall id r, m !! id = Some r -> exists r', m' !! id = Some r' /\ later r r'.

Section rows_later.
Context {A : Type} (later : A -> A -> Prop) `{!PreOrder later}.

Lemma rows_later_refl m : rows_later later m m.
Proof. intros id r Hr. by exists r. Qed.
Lemma rows_later_trans m1 m2 m3 : rows_later later m1 m2 -> rows_later later m2 m3 -> rows_later later m1 m3.
Proof.
  intros H12 H23 id r Hr. destruct (H12 id r Hr) as (x & Hx & ?). destruct (H23 id x Hx) as (y & Hy & ?).
  exists y. split; [done|by trans x].
Qed.
Lemma rows_later_new m id r : m !! id = None -> rows_later later m (<[id := r]> m).
Proof. intros Hid k x Hx. exists x. split; [by rewrite lookup_insert_ne by congruence|done]. Qed.
Lemma rows_later_old m id r r' : m !! id = Some r -> later r r' -> rows_later later m (<[id := r']> m).
Proof.
  intros Hr Hl k x Hx. destruct (decide (k = id)) as [->|Hne].
  - exists r'. rewrite lookup_insert_eq. split; [done|]. by simplify_eq.
  - exists x. by rewrite lookup_insert_ne.
Qed.
Lemma rows_later_fmap (f : A -> A) m : (forall r, later r (f r)) -> rows_later later m (f <$> m).
Proof. intros Hf k x Hx. exists (f x). rewrite lookup_fmap, Hx. done. Qed.
End rows_later.

Record history (b b' : books) : Prop := {
  hi_entries : b_entries b ⊆ b_entries b';
  hi_deposits : rows_later deposit_later (b_deposits b) (b_deposits b');
  hi_withdrawals : rows_later withdrawal_later (b_withdrawals b) (b_withdrawals b');
  hi_transfers : rows_later transfer_later (b_transfers b) (b_transfers b');
  hi_bonuses : b_bonuses b ⊆ b_bonuses b'
}.

#[export] Instance history_preorder : PreOrder history.
Proof.
  split.
  - intros b. split; try done; intros id r Hr; by exists r.
  - intros x y z [A1 A2 A3 A4 A5] [B1 B2 B3 B4 B5]. split; [by trans (b_entries y)| | | |by trans (b_bonuses y)].
    + by eapply (rows_later_trans deposit_later).
    + by eapply (rows_later_trans withdrawal_later).
    + by eapply (rows_later_trans transfer_later).
Qed.

Lemma end_settled_grows es o u amount id e es' : end_settled es o u amount id e es' -> es ⊆ es'.
Proof. intros [a|w k r Hk _]; [done|by apply insert_subseteq]. Qed.



Lemma same_transfer_later r r' :
  same_transfer r r' -> can_transition Transfers (tr_status r) (tr_status r') = true -> transfer_later r r'.
Proof.
  intros (E1 & E2 & E3 & E4 & E5 & E6) Ht. unfold transfer_later. rewrite E1, E2, E3, E4, E5, E6.
  split_and!; [done..|]. by apply rtc_once.
Qed.

Lemma detach_end_later a e : end_later e (detach_end a e).
Proof. destruct e as [w|x]; [by left|]. simpl. case_bool_decide; [right; eauto|by left]. Qed.

Lemma move_history b b' : move b b' -> history b b'.
Proof.
  intros Hm. destruct Hm; split; cbn [b_entries b_deposits b_withdrawals b_transfers b_bonuses]; try done;
    try apply rows_later_refl; try (by apply insert_subseteq); try apply _;
    try (apply rows_later_new; [apply _|done]).
  all: try (etrans; eapply end_settled_grows; done).
  - eapply rows_later_old; [apply _|exact H|]. destruct H2 as (? & ? & ? & _). split_and!; [done..|right].
    rewrite H0. by destruct H1 as [-> | ->].
  - eapply rows_later_old; [apply _|exact H|]. destruct H4 as (? & ? & ? & _). split_and!; [done..|right]. by rewrite H0, H1.
  - destruct H7 as [->|(j & t & Hj & -> & _)]; [apply rows_later_refl|apply rows_later_new]; (apply _ || done).
  - eapply rows_later_old; [apply _|exact H|]. split; [done|by apply rtc_once].
  - eapply rows_later_old; [apply _|exact H|]. split; [done|apply rtc_once]. by rewrite H0, H1.
  - eapply rows_later_old; [apply _|exact H|]. by apply same_transfer_later.
  - eapply rows_later_old; [apply _|exact H|]. apply same_transfer_later; [done|by rewrite H1].
  - apply rows_later_fmap. intros r. split_and!; try done. by left.
  - apply rows_later_fmap. intros r. split_and!; try done. by left.
  - apply rows_later_fmap. intros r. split_and!; try done; simpl; apply detach_end_later.
Qed.

Lemma moves_history b b' : rtc move b b' -> history b b'.
Proof. intros Hm. induction Hm; [reflexivity|]. etrans; [by apply move_history|done]. Qed.
