(* ===== verification/PortalSim.v ===== *)
(** * The portal's blocks make the books' moves

    Well-formedness of the tables, the exactness of the wallet figures while the
    tables have fewer than ten to the ninth rows, and, block by block, which
    move of [PortalBooks.v] a committed block is. *)

From S2P Require Import Prelude PyStr PyDecimal PyFloat PyRepr PyDecOps Models Db PyJson Limiter PortalLedger Mpin Prog PortalDb.
From S2P Require Import PortalCommon PortalInvestor PortalAdmin PortalBooks.

(** ** Well-formed tables *)

Definition table_wf {A} (t : table A) : Prop := 1 <= next_id t /\ forall k, is_Some (rows t !! k) -> 1 <= k < next_id t.

Record wf (s : portal) : Prop := {
  wf_entries : table_wf (p_entries s);
  wf_deposits : table_wf (p_deposits s);
  wf_withdrawals : table_wf (p_withdrawals s);
  wf_transfers : table_wf (p_transfers s);
  wf_bonuses : table_wf (p_bonuses s);
  wf_entry_amounts : map_Forall (fun _ e => Z.abs (we_amount e) < 10 ^ 18) (rows (p_entries s));
  wf_deposit_amounts : map_Forall (fun _ r => 0 < dp_amount r < 10 ^ 14 /\ Z.abs (dp_fee r) < 10 ^ 18) (rows (p_deposits s));
  wf_withdrawal_amounts : map_Forall (fun _ r => 0 < wd_amount r < 10 ^ 14) (rows (p_withdrawals s));
  wf_transfer_amounts : map_Forall (fun _ r => 0 < tr_amount r < 10 ^ 14) (rows (p_transfers s));
  wf_equities : map_Forall (fun _ r => forall q, tr_equity r = Some q -> Z.abs q < 10 ^ 18) (rows (p_transfers s));
  wf_settings : map_Forall (fun _ r => settings_checks r = true) (p_settings s)
}.

Definition nexts_le (s s' : portal) : Prop :=
  next_id (p_entries s) <= next_id (p_entries s') /\ next_id (p_deposits s) <= next_id (p_deposits s') /\
  next_id (p_withdrawals s) <= next_id (p_withdrawals s') /\ next_id (p_transfers s) <= next_id (p_transfers s') /\
  next_id (p_bonuses s) <= next_id (p_bonuses s').

#[export] Instance nexts_le_preorder : PreOrder nexts_le.
Proof. unfold nexts_le. split; [intros s; lia|intros x y z; lia]. Qed.

(** Fewer than ten to the ninth rows: sums of columns fit 28 digits. *)
Definition small (s : portal) : Prop :=
  next_id (p_entries s) <= 10 ^ 9 /\ next_id (p_withdrawals s) <= 10 ^ 9 /\ next_id (p_transfers s) <= 10 ^ 9.

Lemma small_le s s' : nexts_le s s' -> small s' -> small s.
Proof. unfold nexts_le, small. lia. Qed.

Lemma table_wf_size {A} (t : table A) : table_wf t -> Z.of_nat (size (rows t)) < next_id t.
Proof.
  intros [Hn Hk]. assert (dom (rows t) ⊆ list_to_set (seqZ 1 (next_id t - 1))) as Hs.
  { intros k Hd. apply elem_of_dom in Hd. apply elem_of_list_to_set, elem_of_seqZ. specialize (Hk k Hd). lia. }
  apply subseteq_size in Hs. rewrite size_dom in Hs. rewrite size_list_to_set in Hs by apply NoDup_seqZ.
  rewrite length_seqZ in Hs. lia.
Qed.

Lemma table_wf_fresh {A} (t : table A) : table_wf t -> rows t !! next_id t = None.
Proof. intros [_ Hk]. destruct (rows t !! next_id t) eqn:E; [|done]. specialize (Hk _ (mk_is_Some _ _ E)). lia. Qed.

Lemma table_wf_add {A} (r : A) t : table_wf t -> table_wf (add_row r t).
Proof.
  intros [Hn Hk]. split; simpl; [lia|]. intros k. rewrite lookup_insert_is_Some'. intros [<-|H]; [lia|]. specialize (Hk k H). lia.
Qed.
Lemma table_wf_skip {A} (t : table A) : table_wf t -> table_wf (skip_id t).
Proof. intros [Hn Hk]. split; simpl; [lia|]. intros k H. specialize (Hk k H). lia. Qed.
Lemma table_wf_set {A} id (r : A) t : table_wf t -> is_Some (rows t !! id) -> table_wf (set_row id r t).
Proof.
  intros [Hn Hk] Hid. split; simpl; [lia|]. intros k. rewrite lookup_insert_is_Some'. intros [<-|H]; [by apply Hk|by apply Hk].
Qed.
Lemma table_wf_map {A} (f : A -> A) t : table_wf t -> table_wf (map_rows f t).
Proof. intros [Hn Hk]. split; simpl; [lia|]. intros k. rewrite lookup_fmap, fmap_is_Some. apply Hk. Qed.
Lemma table_wf_undo {A} (old t : table A) : table_wf old -> next_id old <= next_id t -> table_wf (undo old t).
Proof. intros [Hn Hk] Hle. split; simpl; [lia|]. intros k H. specialize (Hk k H). lia. Qed.

#[export] Hint Resolve table_wf_add table_wf_skip table_wf_set table_wf_map table_wf_undo table_wf_fresh : copier.

(** ** Exact figures *)

Lemma omap_sum {A} (f : A -> option Z) (g : A -> Z) (l : list A) :
  (forall x, default 0 (f x) = g x) -> Zsum (omap f l) = Zsum (g <$> l).
Proof.
  intros H. induction l as [|x l IH]; [done|]. rewrite fmap_cons, Zsum_cons, <- IH, <- H. simpl. by destruct (f x).
Qed.

Lemma held_withdrawals_sum o u s : Zsum (held_withdrawals o u s) = msum (wd_held o u) (rows (p_withdrawals s)).
Proof.
  unfold held_withdrawals, msum. apply omap_sum. intros [k r]. unfold wd_held. simpl.
  by destruct (mine _ _ _ _ && open_withdrawal r).
Qed.

Lemma cents_of_main (l : list Z) w : cents_of ((fun c => (WMain, c)) <$> l) w = if decide (w = WMain) then Zsum l else 0.
Proof.
  unfold cents_of. destruct (decide (w = WMain)) as [->|Hne]; induction l as [|c l IH]; try done; rewrite fmap_cons, filter_cons.
  - rewrite decide_True by done. rewrite fmap_cons, !Zsum_cons, IH. done.
  - rewrite decide_False by (simpl; congruence). exact IH.
Qed.

Lemma held_transfers_sum o u s w : cents_of (held_transfers o u s) w = msum (tr_held o u w) (rows (p_transfers s)).
Proof.
  unfold held_transfers, msum, cents_of. induction (map_to_list (rows (p_transfers s))) as [|[k r] l IH]; [done|].
  rewrite fmap_cons, Zsum_cons, <- IH. simpl. unfold tr_held.
  destruct (tr_source r) as [w'|a]; [|rewrite bool_decide_eq_false_2, andb_false_r by done; done].
  destruct (mine o u (tr_org r) (tr_user r) && open_transfer r); [|done]. rewrite filter_cons. cbn [fst andb].
  case_decide; case_bool_decide; simplify_eq; done.
Qed.

Lemma turnover_omap {A B} (f : A -> option (B * Z)) (g : A -> Z) l :
  (forall x, match f x with Some y => Z.abs y.2 <= g x | None => 0 <= g x end) -> turnover (omap f l) <= Zsum (g <$> l).
Proof.
  intros H. induction l as [|x l IH]; [done|]. rewrite fmap_cons, Zsum_cons. specialize (H x).
  change (omap f (x :: l)) with (match f x with Some y => y :: omap f l | None => omap f l end).
  destruct (f x) as [[b c]|]; simpl in H; [rewrite turnover_cons|]; lia.
Qed.

Lemma turnover_held_w o u s :
  wf s -> small s -> turnover ((fun c => (WMain, c)) <$> held_withdrawals o u s) <= 10 ^ 14 * 10 ^ 9.
Proof.
  intros Hwf Hsm. assert (turnover ((fun c => (WMain, c)) <$> held_withdrawals o u s) <= msum (fun r => Z.abs (wd_amount r)) (rows (p_withdrawals s))) as H.
  { unfold held_withdrawals, msum. rewrite list_fmap_omap. apply turnover_omap. intros [k r]. simpl. destruct (_ && _); simpl; lia. }
  etrans; [exact H|]. etrans; [apply (msum_abs _ _ (10 ^ 14))|].
  - intros k v Hv. pose proof (wf_withdrawal_amounts s Hwf k v Hv). simpl in *. lia.
  - pose proof (table_wf_size _ (wf_withdrawals s Hwf)). destruct Hsm as (_ & ? & _). lia.
Qed.

Lemma turnover_held_t o u s : wf s -> small s -> turnover (held_transfers o u s) <= 10 ^ 14 * 10 ^ 9.
Proof.
  intros Hwf Hsm. assert (turnover (held_transfers o u s) <= msum (fun r => Z.abs (tr_amount r)) (rows (p_transfers s))) as H.
  { apply turnover_omap. intros [k r]. simpl. destruct (tr_source r); [destruct (_ && _)|]; simpl; lia. }
  etrans; [exact H|]. etrans; [apply (msum_abs _ _ (10 ^ 14))|].
  - intros k v Hv. pose proof (wf_transfer_amounts s Hwf k v Hv). simpl in *. lia.
  - pose proof (table_wf_size _ (wf_transfers s Hwf)). destruct Hsm as (_ & _ & ?). lia.
Qed.

Lemma hold_exact o u s w : wf s -> small s -> has_cents (wallet_holds o u s w) (hold (books_of s) o u w).
Proof.
  intros Hwf Hsm. unfold wallet_holds. pose proof (turnover_held_w o u s Hwf Hsm). pose proof (turnover_held_t o u s Hwf Hsm).
  pose proof (holds_exact (held_withdrawals o u s) (held_transfers o u s)) as He.
  specialize (He ltac:(unfold PREC; lia) w). rewrite cents_of_app, cents_of_main, held_withdrawals_sum, held_transfers_sum in He.
  done.
Qed.

Lemma msum_abs_le {A} (f : A -> Z) m : Z.abs (msum f m) <= msum (fun v => Z.abs (f v)) m.
Proof.
  unfold msum. induction (map_to_list m) as [|x l IH]; [done|]. rewrite !fmap_cons, !Zsum_cons. lia.
Qed.

Lemma bal_bound o u s w : wf s -> small s -> Z.abs (bal (books_of s) o u w) <= 10 ^ 18 * 10 ^ 9.
Proof.
  intros Hwf Hsm. unfold bal. etrans; [apply msum_abs_le|]. etrans; [apply (msum_abs _ _ (10 ^ 18))|].
  - intros k v Hv. pose proof (wf_entry_amounts s Hwf k v Hv). simpl in *. unfold entry_amount. destruct (_ && _); lia.
  - pose proof (table_wf_size _ (wf_entries s Hwf)). destruct Hsm as (? & _ & _). simpl. lia.
Qed.

Lemma entry_sums_cents o u s w : cents_of (entry_sums o u s) w = bal (books_of s) o u w.
Proof.
  unfold entry_sums, bal. cbn [books_of b_entries].
  assert (forall v, any_row (fun e => mine o u (we_org e) (we_user e) && bool_decide (we_wallet e = v)) (rows (p_entries s)) = false ->
    msum (entry_amount o u v) (rows (p_entries s)) = 0) as H0.
  { intros v Hv. apply msum_0. intros k e Hk. apply (proj1 (any_row_false _ _) Hv) in Hk. unfold entry_amount. by rewrite Hk. }
  assert (forall l, NoDup l -> w ∈ l -> cents_of (omap (fun v =>
    if any_row (fun e => mine o u (we_org e) (we_user e) && bool_decide (we_wallet e = v)) (rows (p_entries s))
    then Some (v, msum (entry_amount o u v) (rows (p_entries s))) else None) l) w = msum (entry_amount o u w) (rows (p_entries s))) as Hl.
  { assert (forall l, w ∉ l -> cents_of (omap (fun v =>
      if any_row (fun e => mine o u (we_org e) (we_user e) && bool_decide (we_wallet e = v)) (rows (p_entries s))
      then Some (v, msum (entry_amount o u v) (rows (p_entries s))) else None) l) w = 0) as Hno.
    { unfold cents_of. induction l as [|v l IH]; [done|]. intros Hnot. simpl. destruct (any_row _ _); [|apply IH; set_solver].
      rewrite filter_cons. simpl. case_decide; [set_solver|]. apply IH. set_solver. }
    unfold cents_of in *. induction 1 as [|v l Hv Hnd IH]; [set_solver|]. intros Hw.
    destruct (decide (w = v)) as [<-|Hne].
    - simpl. destruct (any_row _ _) eqn:E.
      + rewrite filter_cons. simpl. rewrite decide_True by done. rewrite fmap_cons, Zsum_cons, Hno by done. simpl. lia.
      + rewrite Hno by done. by rewrite H0.
    - simpl. destruct (any_row _ _); [|apply IH; set_solver]. rewrite filter_cons. simpl. rewrite decide_False by congruence.
      apply IH. set_solver. }
  apply Hl; [|destruct w; set_solver]. unfold WALLETS. repeat constructor; set_solver.
Qed.

Lemma turnover_entries o u s : wf s -> small s -> turnover (entry_sums o u s) <= 4 * (10 ^ 18 * 10 ^ 9).
Proof.
  intros Hwf Hsm. etrans; [apply (turnover_omap _ (fun _ => 10 ^ 18 * 10 ^ 9))|done]. intros v.
  pose proof (bal_bound o u s v Hwf Hsm) as Hb. unfold bal in Hb. destruct (any_row _ _); [exact Hb|lia].
Qed.

Lemma bal_exact o u s w : wf s -> small s -> has_cents (wallet_balances o u s w) (bal (books_of s) o u w).
Proof.
  intros Hwf Hsm. rewrite <- entry_sums_cents. apply balance_exact.
  pose proof (turnover_entries o u s Hwf Hsm). unfold PREC. lia.
Qed.

(** The figures a cap is checked against are the exact ones. *)
Lemma figures_exact o u s :
  wf s -> small s ->
  exists f, wallet_figures o u s = Ok f /\ forall w, fg_available (f w) = of_cents (avail (books_of s) o u w).
Proof.
  intros Hwf Hsm. pose proof (turnover_held_w o u s Hwf Hsm). pose proof (turnover_held_t o u s Hwf Hsm).
  assert (forall w, available (wallet_balances o u s w) (wallet_holds o u s w) = Ok (of_cents (avail (books_of s) o u w))) as Ha.
  { intros w. apply available_exact; [by apply bal_exact|by apply hold_exact|].
    pose proof (bal_bound o u s w Hwf Hsm).
    assert (Z.abs (hold (books_of s) o u w) <= 2 * (10 ^ 14 * 10 ^ 9)) as Hh.
    { unfold hold. cbn [books_of b_withdrawals b_transfers]. rewrite <- held_withdrawals_sum, <- held_transfers_sum.
      pose proof (cents_of_bound (held_transfers o u s) w).
      pose proof (cents_of_bound ((fun c => (WMain, c)) <$> held_withdrawals o u s) w) as Hw. rewrite cents_of_main in Hw.
      case_decide; lia. }
    unfold PREC. lia. }
  unfold wallet_figures. rewrite !Ha. simpl. eexists. split; [done|]. by intros [].
Qed.

(** ** Committed blocks *)

(** A step that keeps the tables well formed and moves the books by moves. *)
Definition good (s s2 : portal) : Prop :=
  nexts_le s s2 /\ wf s2 /\ (small s2 -> in_order (books_of s) -> rtc move (books_of s) (books_of s2)).

Section inversion.
Context {A B : Type}.

Lemma insert_inv get upd refused (r : A) s id s2 :
  insert_row get upd refused r s = (Ok id, s2) -> refused = None /\ id = next_id (get s) /\ s2 = upd (add_row r) s.
Proof. unfold insert_row. destruct refused; [done|]. by intros [= <- <-]. Qed.
Lemma update_inv get upd id p (f : A -> A) s row s2 :
  update_where get upd id p f s = (Ok row, s2) ->
  (row = None /\ s2 = s) \/ exists r, rows (get s) !! id = Some r /\ p r = true /\ row = Some (f r) /\ s2 = upd (set_row id (f r)) s.
Proof.
  unfold update_where. destruct (rows (get s) !! id) as [r|]; [|intros [= <- <-]; by left].
  destruct (p r) eqn:E; intros [= <- <-]; [right|by left]. by exists r.
Qed.
Lemma returned_inv (row : option A) s r s2 : returned row s = (Ok r, s2) -> row = Some r /\ s2 = s.
Proof. unfold returned. destruct row; [|done]. intros [-> ->]%ret_inv. done. Qed.
End inversion.

Lemma modify_inv (f : portal -> portal) s a s2 : modify f s = (Ok a, s2) -> s2 = f s.
Proof. unfold modify. by intros [= _ <-]. Qed.
Lemma mguard_inv b code d s a s2 : mguard b code d s = (Ok a, s2) -> b = true /\ s2 = s.
Proof. unfold mguard. destruct b; [|done]. by intros [_ ->]%ret_inv. Qed.
Lemma hourly_inv kind o u s b s2 : hourly_limited kind o u s = (Ok b, s2) -> exists l, s2 = upd_hourly (fun _ => l) s.
Proof. unfold hourly_limited. destruct (is_limited _ _ _ _) as [b' l]. intros [= _ <-]. by exists l. Qed.
Lemma pure_inv {A} (f : portal -> result A) (s : portal) a s2 :
  (fun s => (f s, s)) s = (Ok a, s2) -> f s = Ok a /\ s2 = s.
Proof. by intros [= -> ->]. Qed.

(** Take a block that ended well apart, statement by statement. *)
Ltac minv1 H :=
  lazymatch type of H with
  | bind _ _ _ = (Ok _, _) =>
      let a := fresh "v" in let s1 := fresh "st" in let H1 := fresh "Hm" in
      apply bind_inv in H as (a & s1 & H1 & H); minv1 H1
  | ret _ _ = _ => apply ret_inv in H as [? ?]; subst
  | gets _ _ = _ => apply gets_inv in H as [? ?]; subst
  | lift_result _ _ = _ => apply lift_inv in H as [H ?]; subst
  | modify _ _ = _ => apply modify_inv in H; subst
  | mguard _ _ _ _ = _ => apply mguard_inv in H as [H ?]; subst
  | hourly_limited _ _ _ _ = _ => apply hourly_inv in H as [? ?]; subst
  | insert_row _ _ _ _ _ = _ => apply insert_inv in H as (H & ? & ?); subst
  | returned _ _ = _ => apply returned_inv in H as [? ?]; subst
  | raise _ _ = _ => discriminate H
  | (_, _) = (Ok _, _) => injection H as H ?; subst
  | _ => idtac
  end.
Ltac minv H := repeat (progress (minv1 H; try (progress cbv beta zeta in H))).

(** *** Settlement *)

Lemma settle_inv o u w amount kind ref note by_ s b s2 c :
  settle o u w amount kind ref note by_ s = (Ok b, s2) -> to_cents amount = Ok c ->
  c <> 0 /\ Z.abs c < 10 ^ 18 /\
  ((exists r, b = false /\ ref = Some r /\ any_row (settled r w) (rows (p_entries s)) = true /\ s2 = upd_entries skip_id s) \/
   (exists e, b = true /\ s2 = upd_entries (add_row e) s /\ we_org e = o /\ we_user e = u /\ we_wallet e = w /\ we_amount e = c /\
      we_kind e = kind /\ we_ref e = ref)).
Proof.
  unfold settle. intros H Hc. apply bind_inv in H as (c' & s1 & H1 & H). apply lift_inv in H1 as [H1 ->].
  assert (c' = c) as -> by congruence. clear H1. apply bind_inv in H as (es & s1 & H1 & H). apply gets_inv in H1 as [-> ->].
  assert (Z.abs c < 10 ^ 18) as Hb.
  { unfold to_cents in Hc. destruct (Z.ltb_spec (Z.abs (rescale ROUND_HALF_UP amount (-2))) (10 ^ 18)); [|done]. by simplify_eq. }
  destruct (Z.eqb_spec c 0) as [E|E]; [by apply bind_inv in H as (? & ? & H1%insert_inv & _); destruct H1|].
  split; [done|]. split; [done|].
  destruct (match ref with Some r => any_row (settled r w) (rows (p_entries s)) | None => false end) eqn:Er.
  - left. destruct ref as [r|]; [|done]. minv H. by exists r.
  - right. minv H. eexists. split_and!; done.
Qed.

(** *** A new withdrawal *)

Lemma settings_pct r : settings_checks r = true -> 0 <= st_withdrawal_fee_pct r <= 10 ^ 5.
Proof. unfold settings_checks. rewrite !andb_true_iff, !Z.leb_le, !Z.ltb_lt. lia. Qed.

(** The tables that stay are as they were. *)
Ltac wf_tables Hwf := destruct Hwf; split; cbn; try done; eauto with copier.

Lemma wf_add_withdrawal s r :
  wf s -> 0 < wd_amount r < 10 ^ 14 -> wf (upd_withdrawals (add_row r) s).
Proof. intros Hwf Hr. wf_tables Hwf. by apply map_Forall_insert_2. Qed.

Lemma withdrawal_block_good o u amount c destination dest settings s v s2 :
  wf s -> has_cents amount c -> 0 < c < 10 ^ 14 -> settings_checks settings = true ->
  withdrawal_block o u amount destination dest settings s = (Ok v, s2) -> good s s2.
Proof.
  intros Hwf Ha Hc Hset H. pose proof (settings_pct _ Hset) as Hp. unfold withdrawal_block in H. minv H. rename st into s.
  set (p := st_withdrawal_fee_pct settings) in *.
  unfold fee_for in Hm1. rewrite (round_percent amount (of_mils p) c p) in Hm1 by (done || lia). injection Hm1 as <-.
  pose proof (share_bounds c p ltac:(lia) Hp) as Hsh.
  assert (has_cents (dec_sub amount (of_cents (share c p))) (c - share c p)) as Hnet.
  { apply is_dec_sub; [done|apply has_cents_of_cents|unfold PREC; lia]. }
  rewrite (has_cents_to_cents _ _ Ha) in Hm4 by lia. rewrite (has_cents_to_cents _ _ (has_cents_of_cents _)) in Hm5 by lia.
  rewrite (has_cents_to_cents _ _ Hnet) in Hm6 by lia. simplify_eq.
  assert (0 < v6 - share v6 p) as Hpos.
  { rewrite (is_dec_leb _ (Dec 0 0) (v6 - share v6 p) 0 (-2)) in Hm2 by (done || apply is_dec_zero).
    destruct (Z.leb_spec (v6 - share v6 p) 0); [done|lia]. }
  split; [unfold nexts_le; cbn; lia|]. split.
  { apply (wf_add_withdrawal (upd_hourly (fun _ => x) s)); [by wf_tables Hwf|done]. }
  intros Hsm Hin. assert (small s) as Hsm0 by (eapply small_le; [|exact Hsm]; unfold nexts_le; cbn; lia).
  destruct (figures_exact o u s Hwf Hsm0) as (f & Hf & Hav). rewrite Hm in Hf. injection Hf as <-.
  rewrite Hav, (is_dec_ltb _ amount (avail (books_of s) o u WMain) v6 (-2)) in Hm0 by (done || apply has_cents_of_cents).
  apply rtc_once. apply MWithdraw; cbn; try done; try lia.
  - apply table_wf_fresh, wf_withdrawals, Hwf.
  - destruct (Z.ltb_spec (avail (books_of s) o u WMain) v6); [done|]. done.
Qed.

(** *** A bonus *)

Lemma good_refl s : wf s -> good s s.
Proof. intros Hwf. split; [reflexivity|]. split; [done|reflexivity]. Qed.

Lemma good_trans s1 s2 s3 : good s1 s2 -> good s2 s3 -> good s1 s3.
Proof.
  intros (N1 & W1 & M1) (N2 & W2 & M2). split; [by trans s2|]. split; [done|]. intros Hsm Hin.
  assert (small s2) as Hsm2 by by eapply small_le. trans (books_of s2); [by apply M1|]. apply M2; [done|].
  eapply moves_in_order; [exact Hin|by apply M1].
Qed.

(** Only the sequences moved. *)
Lemma good_same s s2 :
  nexts_le s s2 -> wf s2 -> books_of s2 = books_of s -> good s s2.
Proof. intros Hn Hw Hb. split; [done|]. split; [done|]. intros _ _. by rewrite Hb. Qed.

Lemma wf_add_entry s e : wf s -> Z.abs (we_amount e) < 10 ^ 18 -> wf (upd_entries (add_row e) s).
Proof. intros Hwf He. wf_tables Hwf. by apply map_Forall_insert_2. Qed.

Lemma pay_bonus_good o u source amount sid note by_ s v s2 :
  wf s ->
  (forall c, to_cents amount = Ok c -> source = BManual -> c < 0 -> small s -> 0 <= avail (books_of s) o u WCredit + c) ->
  pay_bonus o u source amount sid note by_ s = (Ok v, s2) -> good s s2.
Proof.
  intros Hwf Hneg H. unfold pay_bonus in H. destruct (dec_eqb amount (Dec 0 0)); [minv H; by apply good_refl|].
  minv H. rename v0 into c, Hm into Hc. destruct (bonus_checks _) eqn:Hck; cbn [negb] in H; [|by minv H].
  destruct (any_row _ _) eqn:Hdup.
  { minv H. apply good_same; [unfold nexts_le; cbn; lia|by wf_tables Hwf|done]. }
  apply bind_inv in H as (id & s1 & H1 & H). apply insert_inv in H1 as (_ & -> & ->).
  apply bind_inv in H as (wrote & s1 & H1 & H).
  destruct (settle_inv _ _ _ _ _ _ _ _ _ _ _ c H1 Hc) as (Hne & Hb & [(r & -> & _)|(e & -> & -> & He)]); [done|]. minv H.
  destruct He as (E1 & E2 & E3 & E4 & E5 & E6).
  split; [unfold nexts_le; cbn; lia|]. split.
  { apply wf_add_entry; [by wf_tables Hwf|by rewrite E4]. }
  clear H1. intros Hsm Hin. apply rtc_once. apply MBonus.
  - apply table_wf_fresh, wf_bonuses, Hwf.
  - apply (table_wf_fresh (p_entries s)), wf_entries, Hwf.
  - done.
  - by apply any_row_false.
  - done.
  - cbn. intros Hlt. apply Hneg; [done| |done|].
    + unfold bonus_checks in Hck. cbn in Hck. rewrite !andb_true_iff, orb_true_iff, Z.ltb_lt, bool_decide_eq_true in Hck. intuition lia.
    + eapply small_le; [|exact Hsm]. unfold nexts_le. cbn. lia.
Qed.

Lemma grant_block_good o by_ u amount c note s v s2 :
  wf s -> has_cents amount c -> Z.abs c < 10 ^ 14 -> grant_block o by_ u amount note s = (Ok v, s2) -> good s s2.
Proof.
  intros Hwf Ha Hc H. unfold grant_block in H. apply bind_inv in H as (t & s1 & H1 & H).
  assert (s1 = s /\ (c < 0 -> small s -> 0 <= avail (books_of s) o u WCredit + c)) as [-> Hneg].
  { rewrite (is_dec_ltb amount (Dec 0 0) c 0 (-2)) in H1 by (done || apply is_dec_zero).
    destruct (Z.ltb_spec c 0); [|minv H1; split; [done|lia]]. minv H1. split; [done|]. intros _ Hsm.
    destruct (figures_exact o u st Hwf Hsm) as (f & Hf & Hav). rewrite Hm in Hf. injection Hf as <-.
    pose proof (bal_bound o u st WCredit Hwf Hsm).
    assert (Z.abs (hold (books_of st) o u WCredit) <= 10 ^ 24) as Hh.
    { unfold hold. cbn [books_of b_withdrawals b_transfers decide]. rewrite decide_False by done. rewrite <- held_transfers_sum.
      pose proof (cents_of_bound (held_transfers o u st) WCredit). pose proof (turnover_held_t o u st Hwf Hsm). lia. }
    rewrite Hav in H1. rewrite (is_dec_ltb _ (Dec 0 0) (avail (books_of st) o u WCredit + c) 0 (-2)) in H1;
      [|apply is_dec_add; [apply has_cents_of_cents|done|unfold PREC, avail; lia]|apply is_dec_zero].
    destruct (Z.ltb_spec (avail (books_of st) o u WCredit + c) 0); [done|lia]. }
  eapply pay_bonus_good; [done| |exact H]. intros c' Hc' _. rewrite (has_cents_to_cents _ _ Ha) in Hc' by lia. simplify_eq. apply Hneg.
Qed.

Lemma adjustment_block_good o by_ u w amount note s v s2 :
  wf s -> adjustment_block o by_ u w amount note s = (Ok v, s2) -> good s s2.
Proof.
  intros Hwf H. unfold adjustment_block in H. minv H. rename st into s || idtac. rename v0 into c, Hm into Hc.
  assert (Z.abs c < 10 ^ 18) as Hb.
  { unfold to_cents in Hc. destruct (Z.ltb_spec (Z.abs (rescale ROUND_HALF_UP amount (-2))) (10 ^ 18)); [|done]. by simplify_eq. }
  split; [unfold nexts_le; cbn; lia|]. split; [by apply wf_add_entry|]. intros Hsm Hin. apply rtc_once.
  apply MAdjust; [|done|done]. apply table_wf_fresh, wf_entries, Hwf.
Qed.

(** *** Settlement of requests *)

Definition unsettled (b : books) (ref : ref_table * Z) : Prop :=
  match ref with
  | (RefDeposits, id) => forall r, b_deposits b !! id = Some r -> dp_status r <> SConfirmed
  | (RefWithdrawals, id) => forall r, b_withdrawals b !! id = Some r -> wd_status r <> SPaid
  | (RefTransfers, id) => forall r, b_transfers b !! id = Some r -> tr_status r <> SDone
  | (RefBonuses, id) => b_bonuses b !! id = None
  end.

(** A request that is not settled has no entry: the unique index cannot get in
    the way of its settlement. *)
Lemma no_conflict b ref w : in_order b -> unsettled b ref -> any_row (settled ref w) (b_entries b) = false.
Proof.
  intros Hb Hu. apply any_row_false. intros k e He. unfold settled. apply andb_false_iff. left.
  apply bool_decide_eq_false_2. intros Er. pose proof (io_refs b Hb k e He) as Hr. unfold ref_settled in Hr. rewrite Er in Hr.
  destruct ref as [[] id]; simpl in *.
  1-3: destruct Hr as (r & Hl & Hs); by apply (Hu r).
  rewrite Hu in Hr. by destruct Hr.
Qed.

Lemma settle_ok o u w amount kind ref note by_ s b s2 :
  settle o u w amount kind ref note by_ s = (Ok b, s2) -> exists c, to_cents amount = Ok c.
Proof. unfold settle. intros H. apply bind_inv in H as (c & s1 & H1 & _). apply lift_inv in H1 as [H1 _]. by exists c. Qed.

(** Settling always leaves well-formed tables. *)
Lemma settle_wf o u w amount kind ref note by_ s b s2 :
  wf s -> settle o u w amount kind ref note by_ s = (Ok b, s2) ->
  wf s2 /\ nexts_le s s2 /\ p_deposits s2 = p_deposits s /\ p_withdrawals s2 = p_withdrawals s /\
  p_transfers s2 = p_transfers s /\ p_bonuses s2 = p_bonuses s /\ p_rules s2 = p_rules s.
Proof.
  intros Hwf H. destruct (settle_ok _ _ _ _ _ _ _ _ _ _ _ H) as [c Hc].
  destruct (settle_inv _ _ _ _ _ _ _ _ _ _ _ c H Hc) as (_ & Hb & [(r & _ & _ & _ & ->)|(e & _ & -> & _ & _ & _ & Ec & _)]).
  - split_and!; try done; [by wf_tables Hwf|unfold nexts_le; cbn; lia].
  - split_and!; try done; [apply wf_add_entry; [done|by rewrite Ec]|unfold nexts_le; cbn; lia].
Qed.

(** Without a conflict, settling writes the entry. *)
Lemma settle_writes o u w amount kind ref note by_ s b s2 c :
  any_row (settled ref w) (rows (p_entries s)) = false ->
  settle o u w amount kind (Some ref) note by_ s = (Ok b, s2) -> to_cents amount = Ok c ->
  exists e, s2 = upd_entries (add_row e) s /\ is_entry e o u w c kind ref.
Proof.
  intros Hno H Hc.
  destruct (settle_inv _ _ _ _ _ _ _ _ _ _ _ c H Hc) as (_ & _ & [(r & _ & Er & Hconf & _)|(e & _ & -> & He)]).
  - injection Er as <-. congruence.
  - by exists e.
Qed.

Lemma wf_set_withdrawal s id r r' :
  wf s -> rows (p_withdrawals s) !! id = Some r -> wd_amount r' = wd_amount r -> wf (upd_withdrawals (set_row id r') s).
Proof.
  intros Hwf Hr Ha. pose proof (wf_withdrawal_amounts s Hwf id r Hr) as Hb. wf_tables Hwf.
  apply map_Forall_insert_2; [by rewrite Ha|done].
Qed.

(** A settled request's own row was changed first, to its settled status: the
    entries it needs are judged by the state before. *)
Lemma paid_block_good o by_ id c txid s v s2 :
  wf s -> (small s -> forall r, rows (p_withdrawals s) !! id = Some r -> withdrawal_later c r) ->
  paid_block o by_ id c txid s = (Ok v, s2) -> good s s2.
Proof.
  intros Hwf Hc H. unfold paid_block in H. minv H. rename Hm into Hup, Hm0 into Hst.
  apply update_inv in Hup as [[? _]|(r & Hr & Hg & [= ->] & ->)]; [done|].
  apply andb_true_iff in Hg as [Ho%Z.eqb_eq Hs%bool_decide_eq_true_1].
  set (s1 := upd_withdrawals (set_row id (wd_pay by_ txid r)) s) in *.
  assert (wf s1) as Hwf1 by by eapply wf_set_withdrawal.
  destruct (settle_wf _ _ _ _ _ _ _ _ _ _ _ Hwf1 Hst) as (Hwf2 & Hn & _).
  split; [trans s1; [unfold nexts_le; cbn; lia|done]|]. split; [done|]. intros Hsm Hin.
  assert (small s) as Hsm0 by (eapply small_le; [|exact Hsm]; trans s1; [unfold nexts_le; cbn; lia|done]).
  destruct (Hc Hsm0 r Hr) as [(_ & Eu & Ea & _) _]. pose proof (wf_withdrawal_amounts s Hwf id r Hr) as Hb. simpl in Hb.
  assert (to_cents (dec_neg (of_cents (wd_amount c))) = Ok (- wd_amount c)) as Hcents.
  { apply has_cents_to_cents; [apply is_dec_neg, has_cents_of_cents|lia]. }
  assert (any_row (settled (RefWithdrawals, id) WMain) (rows (p_entries s1)) = false) as Hno.
  { apply (no_conflict (books_of s)); [done|]. intros r0 Hr0. cbn in Hr0. simplify_eq. congruence. }
  destruct (settle_writes _ _ _ _ _ _ _ _ _ _ _ _ Hno Hst Hcents) as (e & -> & He).
  apply rtc_once. cbn. eapply MPay; cbn; try done; [by apply table_wf_fresh, wf_entries|].
  rewrite Eu, Ea, Ho. done.
Qed.

(** *** A new transfer *)

Lemma wf_add_transfer s r :
  wf s -> 0 < tr_amount r < 10 ^ 14 -> (forall q, tr_equity r = Some q -> Z.abs q < 10 ^ 18) -> wf (upd_transfers (add_row r) s).
Proof. intros Hwf Hr Hq. wf_tables Hwf; by apply map_Forall_insert_2. Qed.

Lemma to_cents_bound d c : to_cents d = Ok c -> Z.abs c < 10 ^ 18.
Proof. unfold to_cents. destruct (Z.ltb_spec (Z.abs (rescale ROUND_HALF_UP d (-2))) (10 ^ 18)); [|done]. by injection 1 as <-. Qed.

(** A column of the transfers, summed over some of the rows. *)
Lemma column_bound s (p : transfer_row -> bool) :
  wf s -> small s -> 0 <= msum (fun r => if p r then tr_amount r else 0) (rows (p_transfers s)) <= 10 ^ 14 * 10 ^ 9.
Proof.
  intros Hwf Hsm. set (f := fun r => if p r then tr_amount r else 0).
  assert (forall k r, rows (p_transfers s) !! k = Some r -> 0 <= f r <= 10 ^ 14) as Hf.
  { intros k r Hr. pose proof (wf_transfer_amounts s Hwf k r Hr). simpl in *. unfold f. destruct (p r); lia. }
  split; [apply msum_nonneg; intros k r Hr; specialize (Hf k r Hr); lia|].
  pose proof (msum_abs_le f (rows (p_transfers s))).
  pose proof (table_wf_size _ (wf_transfers s Hwf)). destruct Hsm as (_ & _ & ?).
  assert (msum (fun v => Z.abs (f v)) (rows (p_transfers s)) <= 10 ^ 14 * Z.of_nat (size (rows (p_transfers s)))); [|lia].
  apply msum_abs. intros k r Hr. specialize (Hf k r Hr). lia.
Qed.

Lemma to_cents_rescale d c : to_cents d = Ok c -> rescale ROUND_HALF_UP d (-2) = c.
Proof. unfold to_cents. destruct (_ <? _); [|done]. by injection 1. Qed.

Lemma cents_in_mils n : is_dec (of_cents n) (10 * n) (-3).
Proof. unfold is_dec, of_cents. cbn [d_coef d_exp]. change (10 ^ Z.max (-2 - -3) 0) with 10. change (10 ^ Z.max (-3 - -2) 0) with 1. lia. Qed.

#[local] Opaque dec_sub rescale quantize to_cents.
(** Two subtractions that round, a floor and a cap at zero: what is left covers
    the amount only if the figure rounded to the cent did. *)
Lemma floor_covered e L F amount c q fl :
  has_cents amount c -> 0 < c < 10 ^ 14 -> 0 <= L < 10 ^ 24 -> 0 <= F < 10 ^ 24 ->
  floor_cents (dec_sub (dec_sub e (of_cents L)) (of_cents F)) = Ok fl ->
  dec_ltb (dec_max fl (Dec 0 (-2))) amount = false -> to_cents e = Ok q -> c + L + F <= q.
Proof.
  intros Ha Hc HL HF Hfl Hcap Hq. apply Z.le_ngt. intros Hlt.
  assert (rescale ROUND_HALF_UP e (-2) = q) as Eq.
  { by apply to_cents_rescale. }
  assert (below e (10 * (c + L + F) - 5) (-3)) as Hb by (apply half_up_below; lia).
  assert (below (dec_sub e (of_cents L)) (10 * (c + F) - 5) (-3)) as Hb1.
  { replace (10 * (c + F) - 5) with (10 * (c + L + F) - 5 - 10 * L) by lia. apply below_sub; [done|apply cents_in_mils|unfold PREC; lia]. }
  assert (below (dec_sub (dec_sub e (of_cents L)) (of_cents F)) (10 * c - 5) (-3)) as Hb2.
  { replace (10 * c - 5) with (10 * (c + F) - 5 - 10 * F) by lia. apply below_sub; [done|apply cents_in_mils|unfold PREC; lia]. }
  apply quantize_inv in Hfl as [E1 E2]. unfold CENT_EXP in *.
  pose proof (floor_below _ _ c Hb2 ltac:(lia) ltac:(lia)) as Hlow. rewrite <- E2 in Hlow.
  destruct fl as [n ex]. cbn [d_exp d_coef] in *. subst ex. unfold dec_max in Hcap.
  destruct (dec_ltb (Dec n (-2)) (Dec 0 (-2))) eqn:Em.
  - rewrite (is_dec_ltb (Dec 0 (-2)) amount 0 c (-2)) in Hcap by (done || apply is_dec_zero).
    destruct (Z.ltb_spec 0 c); [done|lia].
  - rewrite (is_dec_ltb (Dec n (-2)) amount n c (-2)) in Hcap by (done || apply is_dec_refl).
    destruct (Z.ltb_spec n c); [done|lia].
Qed.

#[local] Opaque floor_cents dec_max.
(** What the account check lets through is covered by the equity as it is
    stored, to the cent. *)
Lemma movable_covered s o u a e amount c q mv :
  wf s -> small s -> has_cents amount c -> 0 < c < 10 ^ 14 ->
  account_movable o u a (Fin e) s = Ok mv -> dec_ltb mv amount = false -> to_cents e = Ok q ->
  c + leaving (books_of s) o u a + funded_credit (books_of s) o u a <= q.
Proof.
  intros Hwf Hsm Ha Hc Hmv Hcap Hq. unfold account_movable in Hmv.
  pose proof (column_bound s (out_of_account o u a) Hwf Hsm) as HL.
  pose proof (column_bound s (fun r => credit_into o u a r && bool_decide (tr_status r = SDone)) Hwf Hsm) as HF.
  unfold leaving, funded_credit. cbn [books_of b_transfers].
  unfold open_account_transfers_out, credit_funded in Hmv. destruct (floor_cents _) as [fl|] eqn:Hfl; [|done].
  cbn [rbind] in Hmv. injection Hmv as <-. eapply floor_covered; [done|done|lia|lia|exact Hfl|done|done].
Qed.
#[local] Transparent dec_sub rescale quantize to_cents floor_cents dec_max.

(** What the checks of a request establish. *)
Lemma transfer_checks_inv o u amount source target a equity s x s2 :
  transfer_checks o u amount source target a equity s = (Ok x, s2) ->
  s2 = s /\
  match source with
  | EAccount =>
      credit_transfer_open o u a s = false /\
      match equity with
      | Some e => exists mv, account_movable o u a e s = Ok mv /\ dec_ltb mv amount = false
      | None => dec_leb (credit_funded o u a s) (Dec 0 0) = true
      end
  | EWallet w =>
      (w = WCredit -> target = EAccount -> dec_leb (open_account_transfers_out o u a s) (Dec 0 0) = true) /\
      exists f, wallet_figures o u s = Ok f /\ dec_ltb (fg_available (f w)) amount = false
  end.
Proof.
  intros H. unfold transfer_checks in H. destruct source as [w|].
  - apply bind_inv in H as (t & s1 & H1 & H).
    assert (s1 = s /\ (w = WCredit -> target = EAccount -> dec_leb (open_account_transfers_out o u a s) (Dec 0 0) = true)) as [-> Hout].
    { destruct (bool_decide (w = WCredit) && is_account target) eqn:E; minv H1; split; try done.
      intros -> ->. rewrite bool_decide_eq_true_2 in E by done. done. }
    minv H. split; [done|]. split; [done|]. exists v. split; [done|]. by apply negb_true_iff.
  - minv H. destruct equity as [e|]; minv H; (split; [done|]); (split; [by apply negb_true_iff|]); [|done].
    eexists. split; [done|]. by apply negb_true_iff.
Qed.

Lemma may_move s o u w amount c f :
  wf s -> small s -> has_cents amount c -> wallet_figures o u s = Ok f ->
  dec_ltb (fg_available (f w)) amount = false -> c <= avail (books_of s) o u w.
Proof.
  intros Hwf Hsm Ha Hf Hlt. destruct (figures_exact o u s Hwf Hsm) as (g & Hg & Hav). rewrite Hf in Hg. injection Hg as <-.
  rewrite Hav, (is_dec_ltb _ amount (avail (books_of s) o u w) c (-2)) in Hlt by (done || apply has_cents_of_cents).
  by apply Z.ltb_ge in Hlt.
Qed.

(** No open transfer of a kind: their sum is zero, as every amount is positive. *)
Lemma no_column s (p : transfer_row -> bool) :
  wf s -> dec_leb (of_cents (msum (fun r => if p r then tr_amount r else 0) (rows (p_transfers s)))) (Dec 0 0) = true ->
  forall k r, rows (p_transfers s) !! k = Some r -> p r = false.
Proof.
  intros Hwf Hle k r Hr. rewrite (is_dec_leb _ (Dec 0 0) _ 0 (-2) (has_cents_of_cents _) (is_dec_zero _ _)) in Hle.
  apply Z.leb_le in Hle. apply not_true_iff_false. intros Hp. revert Hle.
  rewrite <- (insert_delete_id (rows (p_transfers s)) k r Hr), msum_new by apply lookup_delete_eq. rewrite Hp.
  pose proof (wf_transfer_amounts s Hwf k r Hr) as Ha. simpl in Ha.
  assert (0 <= msum (fun r => if p r then tr_amount r else 0) (delete k (rows (p_transfers s)))); [|lia].
  apply msum_nonneg. intros j x [_ Hx]%lookup_delete_Some. pose proof (wf_transfer_amounts s Hwf j x Hx). simpl in *. destruct (p x); lia.
Qed.

(** The two ends settled one after the other. *)
Lemma ends_settled o u e1 e2 a1 a2 id s s1 s2 c :
  wf s -> any_row (fun e => bool_decide (we_ref e = Some (RefTransfers, id))) (rows (p_entries s)) = false ->
  e1 <> e2 -> to_cents a1 = Ok (- c) -> to_cents a2 = Ok c ->
  settle_end o u e1 a1 id s = (Ok tt, s1) -> settle_end o u e2 a2 id s1 = (Ok tt, s2) ->
  exists es, end_settled (rows (p_entries s)) o u (- c) id e1 es /\ end_settled es o u c id e2 (rows (p_entries s2)).
Proof.
  intros Hwf Hno Hne Hc1 Hc2 H1 H2. rewrite any_row_false in Hno.
  assert (exists es, end_settled (rows (p_entries s)) o u (- c) id e1 es /\ rows (p_entries s1) = es /\ wf s1 /\
    forall w, e2 = TWallet w -> any_row (settled (RefTransfers, id) w) es = false) as (es & He1 & Es & Hwf1 & Hno2).
  { unfold settle_end in H1. destruct e1 as [w|a]; [|minv H1; eexists; split; [constructor|]; split_and!; try done].
    - apply bind_inv in H1 as (b & sx & Hs & H1). minv H1.
      assert (any_row (settled (RefTransfers, id) w) (rows (p_entries s)) = false) as Hn.
      { apply any_row_false. intros k e He. unfold settled. by rewrite (Hno k e He). }
      destruct (settle_wf _ _ _ _ _ _ _ _ _ _ _ Hwf Hs) as (Hwfx & _).
      destruct (settle_writes _ _ _ _ _ _ _ _ _ _ _ _ Hn Hs Hc1) as (e & -> & He). eexists. split; [|split; [done|split; [done|]]].
      + constructor; [by apply table_wf_fresh, wf_entries|done].
      + intros w' ->. apply any_row_false. intros k x Hx. cbn in Hx. apply lookup_insert_Some in Hx as [[<- <-]|[_ Hx]].
        * destruct He as (_ & _ & Ew & _). unfold settled. rewrite Ew. rewrite (bool_decide_eq_false_2 (w = w')) by congruence. apply andb_false_r.
        * unfold settled. by rewrite (Hno k x Hx).
    - intros w' _. apply any_row_false. intros k x Hx. unfold settled. by rewrite (Hno k x Hx). }
  exists es. split; [done|]. subst es. unfold settle_end in H2. destruct e2 as [w|a]; [|minv H2; constructor].
  apply bind_inv in H2 as (b & sx & Hs & H2). minv H2.
  destruct (settle_writes _ _ _ _ _ _ _ _ _ _ _ _ (Hno2 w eq_refl) Hs Hc2) as (e & -> & He).
  constructor; [by apply table_wf_fresh, wf_entries|done].
Qed.

Lemma settle_end_wf o u e amount id s x s2 :
  wf s -> settle_end o u e amount id s = (Ok x, s2) ->
  wf s2 /\ nexts_le s s2 /\ p_deposits s2 = p_deposits s /\ p_withdrawals s2 = p_withdrawals s /\
  p_transfers s2 = p_transfers s /\ p_bonuses s2 = p_bonuses s.
Proof.
  intros Hwf H. destruct e as [w|a]; simpl in H; [|by minv H].
  apply bind_inv in H as (b & sx & Hs & H). minv H. destruct (settle_wf _ _ _ _ _ _ _ _ _ _ _ Hwf Hs) as (? & ? & ? & ? & ? & ? & _).
  split_and!; done.
Qed.

Lemma no_transfer_entry b id :
  in_order b -> unsettled b (RefTransfers, id) ->
  any_row (fun e => bool_decide (we_ref e = Some (RefTransfers, id))) (b_entries b) = false.
Proof.
  intros Hb Hu. apply any_row_false. intros k e He. pose proof (no_conflict b (RefTransfers, id) (we_wallet e) Hb Hu) as Hn.
  rewrite any_row_false in Hn. specialize (Hn k e He). unfold settled in Hn.
  by rewrite (bool_decide_eq_true_2 (we_wallet e = we_wallet e)), andb_true_r in Hn.
Qed.

Lemma settle_end_wallet o u w amount id s b s1 :
  settle o u w amount KTransfer (Some (RefTransfers, id)) None None s = (Ok b, s1) ->
  settle_end o u (TWallet w) amount id s = (Ok tt, s1).
Proof. intros H. unfold settle_end. by rewrite (bind_ok _ _ _ _ _ H). Qed.

(** The conditions of a request that waits for the desk. *)
Lemma request_covered o u amount c source target account equity s r :
  wf s -> small s -> has_cents amount c -> 0 < c < 10 ^ 14 -> (source, target) ∈ TRANSFER_PAIRS ->
  (is_account source || is_account target = true -> is_Some account) ->
  match source with
  | EAccount =>
      credit_transfer_open o u (default 0 account) s = false /\
      match equity with
      | Some e => exists mv, account_movable o u (default 0 account) e s = Ok mv /\ dec_ltb mv amount = false
      | None => dec_leb (credit_funded o u (default 0 account) s) (Dec 0 0) = true
      end
  | EWallet w =>
      (w = WCredit -> target = EAccount -> dec_leb (open_account_transfers_out o u (default 0 account) s) (Dec 0 0) = true) /\
      exists f, wallet_figures o u s = Ok f /\ dec_ltb (fg_available (f w)) amount = false
  end ->
  equity_cents equity = Ok (tr_equity r) -> tr_org r = o -> tr_user r = u -> tr_amount r = c ->
  tr_source r = end_of source account -> tr_target r = end_of target account ->
  (forall w, tr_source r = TWallet w -> tr_amount r <= avail (books_of s) o u w) /\
  may_start (books_of s) r /\ covered (books_of s) r.
Proof.
  intros Hwf Hsm Ha Hc Hpair Hacc Hck Heq Eo Eu Ec Es Et. unfold may_start, covered. rewrite Eo, Eu, Ec, Es, Et.
  destruct source as [w|].
  - destruct Hck as [Hout (f & Hf & Hlt)]. split; [|split; [split|]]; try done.
    + intros w' [= <-]. by eapply may_move.
    + intros a [= ->] Ht k x Hx. destruct target as [|]; [done|]. injection Ht as ->.
      apply (no_column s (out_of_account o u a) Hwf (Hout eq_refl eq_refl) k x Hx).
  - destruct (Hacc eq_refl) as [a ->]. destruct Hck as [Hno Heqty]. simpl in *. split; [|split; [split|]]; try done.
    + intros a' [= <-] k x Hx. by apply (proj1 (any_row_false _ _) Hno k x).
    + intros a' [= <-]. destruct equity as [[e| |]|]; simpl in Heq.
      * destruct (to_cents e) as [q|] eqn:Hq; [|done]. simpl in Heq. injection Heq as <-.
        destruct Heqty as (mv & Hmv & Hlt). by eapply movable_covered.
      * done.
      * done.
      * injection Heq as <-. unfold credit_funded in Heqty.
        rewrite (is_dec_leb _ (Dec 0 0) _ 0 (-2) (has_cents_of_cents _) (is_dec_zero _ _)) in Heqty. by apply Z.leb_le in Heqty.
Qed.

Lemma transfer_block_good o u amount c source target account equity live s v s2 :
  wf s -> has_cents amount c -> 0 < c < 10 ^ 14 -> (source, target) ∈ TRANSFER_PAIRS ->
  (is_account source || is_account target = true -> is_Some account) ->
  transfer_block o u amount source target account equity live s = (Ok v, s2) -> good s s2.
Proof.
  intros Hwf Ha Hc Hpair Hacc H. unfold transfer_block in H. minv H.
  apply transfer_checks_inv in Hm as [-> Hck]. rename Hm1 into Hcents, Hm2 into Heq, Hm3 into Hins.
  unfold insert_transfer in Hins. apply insert_inv in Hins as (_ & -> & ->).
  rewrite (has_cents_to_cents _ _ Ha) in Hcents by lia. simplify_eq. rename v3 into c.
  set (r := {| tr_org := o |}) in *. set (s1 := upd_transfers (add_row r) _) in *.
  assert (wf s1) as Hwf1.
  { apply (wf_add_transfer (upd_hourly (fun _ => x) s)); [by wf_tables Hwf|done|]. intros q Hq. cbn in Hq.
    unfold equity_cents in Heq. destruct equity as [[e| |]|]; try done; [|congruence].
    destruct (to_cents e) as [q'|] eqn:Ee; [|done]. simpl in Heq. apply to_cents_bound in Ee. by simplify_eq. }
  assert (nexts_le s s1) as Hn1 by (unfold nexts_le; cbn; lia).
  pose proof (table_wf_fresh _ (wf_transfers s Hwf)) as Hfresh.
  destruct (is_account source || is_account target) eqn:Eacc.
  { assert (s2 = s1) as -> by (destruct source, target; by minv H). split; [done|]. split; [done|]. intros Hsm Hin.
    assert (small s) as Hsm0 by by eapply small_le.
    destruct (request_covered o u amount c source target account equity s r) as (? & ? & ?); try done; [by rewrite Eacc|].
    apply rtc_once. apply MTransfer; try done; cbn; [|lia|].
    - by destruct source, target.
    - by destruct source, target. }
  destruct source as [sw|], target as [tw|]; try done. destruct Hck as [_ (f & Hf & Hlt)].
  apply bind_inv in H as (b1 & sa & Hs1 & H). apply bind_inv in H as (b2 & sb & Hs2 & H). minv H.
  apply settle_end_wallet in Hs1, Hs2.
  destruct (settle_end_wf _ _ _ _ _ _ _ _ Hwf1 Hs1) as (Hwfa & Hna & Ed1 & Ew1 & Et1 & Eb1).
  destruct (settle_end_wf _ _ _ _ _ _ _ _ Hwfa Hs2) as (Hwfb & Hnb & Ed2 & Ew2 & Et2 & Eb2).
  split; [trans s1; [done|]; by trans sa|]. split; [done|]. intros Hsm Hin.
  assert (small s) as Hsm0 by (eapply small_le; [|exact Hsm]; trans s1; [done|]; by trans sa).
  pose proof (no_transfer_entry (books_of s) (next_id (p_transfers s)) Hin) as Hno.
  destruct (ends_settled o u (TWallet sw) (TWallet tw) (dec_neg amount) amount (next_id (p_transfers s)) s1 sa sb c) as (es & He1 & He2); try done.
  - apply Hno. intros r0 Hr0. cbn in Hr0. congruence.
  - intros [= ->]. clear -Hpair. unfold TRANSFER_PAIRS in Hpair. destruct tw; set_solver.
  - apply has_cents_to_cents; [by apply is_dec_neg|lia].
  - apply has_cents_to_cents; [done|lia].
  - apply rtc_once. unfold books_of at 2. rewrite Ed2, Ed1, Ew2, Ew1, Et2, Et1, Eb2, Eb1. cbn.
    apply (MInstant _ _ _ _ _ _ r sw tw es); try done; cbn; [lia|]. by eapply may_move.
Qed.

(** *** Decisions on deposits *)

Lemma wf_set_deposit s id r r' :
  wf s -> rows (p_deposits s) !! id = Some r -> dp_amount r' = dp_amount r -> dp_fee r' = dp_fee r ->
  wf (upd_deposits (set_row id r') s).
Proof.
  intros Hwf Hr Ha Hf. pose proof (wf_deposit_amounts s Hwf id r Hr) as Hb. wf_tables Hwf.
  apply map_Forall_insert_2; [by rewrite Ha, Hf|done].
Qed.

Lemma dp_decide_same st by_ note credited r : same_deposit r (dp_decide st by_ note credited r).
Proof. by repeat split. Qed.

Lemma bonus_rules_inv o s r s2 : bonus_rules o s = (Ok r, s2) -> s2 = upd_rules (get_or_create o DEFAULT_RULES) s.
Proof. unfold bonus_rules. intros H. by minv H. Qed.

Lemma rule_bonus_quiet o source base s d s2 :
  rule_bonus o source base s = (Ok d, s2) -> s2 = upd_rules (get_or_create o DEFAULT_RULES) s.
Proof.
  unfold rule_bonus. intros H. destruct source, base; try (by minv H); apply bind_inv in H as (rules & s1 & H1 & H);
    apply bonus_rules_inv in H1 as ->; destruct rules; simpl in H; try destruct (_ : bool); by minv H.
Qed.

Lemma wf_rules_upd f s : wf s -> wf (upd_rules f s).
Proof. intros Hwf. by wf_tables Hwf. Qed.

(** The confirmation itself, up to the bonus. *)
Lemma confirm_good o by_ id r note k amount linked s s1 s2 :
  wf s -> rows (p_deposits s) !! id = Some r -> dp_status r = SPending -> dp_org r = o ->
  has_cents amount k -> (small s -> 0 < k <= dp_amount r) -> 0 < k < 10 ^ 14 ->
  s1 = upd_deposits (set_row id (dp_decide SConfirmed by_ note (Some k) r)) s ->
  forall user v, (small s -> user = dp_user r) ->
  confirm_money o by_ id user amount linked s1 = (Ok v, s2) -> good s s2.
Proof.
  intros Hwf Hr Hst Ho Ha Hk Hb Es1 user v Hu H. unfold confirm_money in H. 
  assert (wf s1) as Hwf1 by (subst s1; by eapply wf_set_deposit).
  assert (nexts_le s s1) as Hn1 by (subst s1; unfold nexts_le; cbn; lia).
  apply bind_inv in H as (b & sa & Hs & H). destruct (settle_wf _ _ _ _ _ _ _ _ _ _ _ Hwf1 Hs) as (Hwfa & Hna & Ed & Ew & Et & Eb & _).
  apply bind_inv in H as (x & sb & Hins & H). apply bind_inv in H as (bonus & sc & Hrule & Hpay).
  apply rule_bonus_quiet in Hrule. assert (wf sb /\ nexts_le sa sb /\
    (sb = sa \/ exists a t, linked = Some a /\ sb = upd_transfers (add_row t) sa /\ tr_org t = o /\ tr_user t = user /\
      tr_source t = TWallet WMain /\ tr_target t = TAccount (Some a) /\ tr_amount t = k /\ tr_status t = SApproved)) as (Hwfb & Hnb & Hsb).
  { destruct linked as [a|]; [|minv Hins; split; [done|split; [done|by left]]]. minv Hins.
    rename Hm into Hc, Hm0 into Hi. rewrite (has_cents_to_cents _ _ Ha) in Hc by lia. injection Hc as <-.
    unfold insert_transfer in Hi. apply insert_inv in Hi as (_ & _ & ->). split; [by apply wf_add_transfer|].
    split; [unfold nexts_le; cbn; lia|]. right. eexists a, _. split_and!; done. }
  apply (good_trans s sc); [|eapply pay_bonus_good; [| |exact Hpay]; [subst sc; by apply wf_rules_upd|by intros ? ? [=]]].
  assert (nexts_le sb sc) as Hnc by (subst sc; unfold nexts_le; cbn; lia).
  split; [trans s1; [done|]; trans sa; [done|]; by trans sb|]. split; [subst sc; by apply wf_rules_upd|]. intros Hsm Hin.
  assert (small s) as Hsm0 by (eapply small_le; [|exact Hsm]; trans s1; [done|]; trans sa; [done|]; by trans sb).
  assert (any_row (settled (RefDeposits, id) WMain) (rows (p_entries s1)) = false) as Hno.
  { subst s1. apply (no_conflict (books_of s)); [done|]. intros r0 Hr0. cbn in Hr0. simplify_eq. congruence. }
  destruct (settle_writes _ _ _ _ _ _ _ _ _ _ _ _ Hno Hs (has_cents_to_cents _ _ Ha ltac:(lia))) as (e & -> & He).
  rewrite (Hu Hsm0) in *.
  apply rtc_once. replace (books_of sc) with (books_of sb) by by subst sc.
  assert (rows (p_entries s) !! next_id (p_entries s) = None) as Hfresh by by apply table_wf_fresh, wf_entries.
  destruct Hsb as [->|(a & t & _ & -> & Eo & Eu & Es & Etg & Ea & Est)]; subst s1 o;
    (eapply (MConfirm _ _ _ _ _ id r); cbn; try done; [by apply Hk|]).
  - by left.
  - right. eexists _, t. split_and!; try done; [by apply (table_wf_fresh (p_transfers s)), wf_transfers|by eexists].
Qed.

(** What a decision carries: a confirmation its amount, a rejection none. *)
Definition decision_ok (c : deposit_row) (new_status : req_status) (credited : option decimal) : Prop :=
  match credited with
  | Some d => new_status = SConfirmed /\ exists k, has_cents d k /\ 0 < k <= dp_amount c /\ k < 10 ^ 14
  | None => new_status = SRejected
  end.

Lemma deposit_block_good o by_ id c new_status note credited s v s2 :
  wf s -> (small s -> forall r, rows (p_deposits s) !! id = Some r -> deposit_later c r) -> decision_ok c new_status credited ->
  deposit_block o by_ id c new_status note credited s = (Ok v, s2) -> good s s2.
Proof.
  intros Hwf Hlater Hd H. unfold deposit_block in H. minv H.
  rename Hm into Hcents, Hm0 into Hup, Hm1 into Hmoney.
  apply update_inv in Hup as [[? _]|(r & Hr & Hg & [= ->] & ->)]; [done|].
  apply andb_true_iff in Hg as [Ho%Z.eqb_eq Hst%bool_decide_eq_true_1].
  destruct credited as [d|]; simpl in Hd.
  - destruct Hd as [-> (k & Hk & Hk1 & Hk2)]. unfold maybe in Hcents. rewrite (has_cents_to_cents _ _ Hk) in Hcents by lia.
    simpl in Hcents. injection Hcents as <-.
    eapply (confirm_good o by_ id r); [done|done|done|done|exact Hk| |lia|reflexivity| |exact Hmoney].
    + intros Hsm. destruct (Hlater Hsm r Hr) as (_ & _ & -> & _). lia.
    + intros Hsm. by destruct (Hlater Hsm r Hr) as (_ & -> & _).
  - subst new_status. unfold maybe in Hcents. injection Hcents as <-. minv Hmoney.
    split; [unfold nexts_le; cbn; lia|]. split; [by eapply wf_set_deposit|]. intros Hsm Hin. apply rtc_once.
    eapply (MDropDeposit _ _ _ _ _ id r); try done. by left.
Qed.

(** *** Decisions on transfers *)

Lemma wf_set_transfer s id r r' :
  wf s -> rows (p_transfers s) !! id = Some r -> tr_amount r' = tr_amount r -> tr_equity r' = tr_equity r ->
  wf (upd_transfers (set_row id r') s).
Proof.
  intros Hwf Hr Ha He. pose proof (wf_transfer_amounts s Hwf id r Hr) as Hb. pose proof (wf_equities s Hwf id r Hr) as Hq. wf_tables Hwf.
  - apply map_Forall_insert_2; [by rewrite Ha|done].
  - apply map_Forall_insert_2; [by rewrite He|done].
Qed.

(** The re-check of the bonus credit, in cents. *)
Lemma credit_check_inv o c new_status s x s2 :
  wf s -> credit_check o c new_status s = (Ok x, s2) ->
  s2 = s /\ (small s -> 0 < tr_amount c < 10 ^ 14 -> (forall q, tr_equity c = Some q -> Z.abs q < 10 ^ 18) ->
    forall a q, tr_source c = TAccount (Some a) -> tr_equity c = Some q -> new_status = SDone ->
      tr_amount c + funded_credit (books_of s) o (tr_user c) a <= q).
Proof.
  intros Hwf H. unfold credit_check in H.
  destruct (tr_source c) as [w|[a|]] eqn:Es, (tr_equity c) as [q|] eqn:Eq; try (minv H; split; [done|]; intros; congruence).
  case_bool_decide as Hin; [|minv H; split; [done|]; intros; subst; set_solver].
  minv H. split; [done|]. intros Hsm Hc Hq a' q' [= <-] [= <-] _. specialize (Hq q eq_refl).
  unfold credit_cap in Hm. destruct (floor_cents _) as [fl|] eqn:Hfl; [|done]. cbn [rbind] in Hm. injection Hm as <-.
  apply negb_true_iff in H.
  pose proof (column_bound st (fun r => credit_into o (tr_user c) a r && bool_decide (tr_status r = SDone)) Hwf Hsm) as HF.
  unfold floor_cents, credit_funded in Hfl. rewrite (quantize_cents _ _ (q - funded_credit (books_of st) o (tr_user c) a)) in Hfl.
  - injection Hfl as <-. unfold dec_max in H.
    rewrite (is_dec_ltb (of_cents _) (Dec 0 (-2)) _ 0 (-2) (has_cents_of_cents _) (is_dec_zero _ _)) in H.
    destruct (Z.ltb_spec (q - funded_credit (books_of st) o (tr_user c) a) 0).
    + rewrite (is_dec_ltb (Dec 0 (-2)) _ 0 (tr_amount c) (-2) (is_dec_zero _ _) (has_cents_of_cents _)) in H.
      apply Z.ltb_ge in H. lia.
    + rewrite (is_dec_ltb (of_cents _) _ _ (tr_amount c) (-2) (has_cents_of_cents _) (has_cents_of_cents _)) in H.
      apply Z.ltb_ge in H. lia.
  - apply is_dec_sub; [apply has_cents_of_cents|apply has_cents_of_cents|]. unfold funded_credit, PREC. cbn. lia.
  - unfold funded_credit, PREC. cbn. lia.
Qed.

(** The row that moves: guarded by the status the desk saw. *)
Lemma move_transfer_inv o by_ id c new_status note s row s2 :
  move_transfer o by_ id c new_status note s = (Ok (Some row), s2) ->
  exists r, rows (p_transfers s) !! id = Some r /\ tr_org r = o /\ tr_status r = tr_status c /\
    (new_status = SDone -> headless r = false) /\ same_transfer r row /\ tr_status row = new_status /\
    s2 = upd_transfers (set_row id row) s.
Proof.
  unfold move_transfer. case_bool_decide as E; intros [[? _]|(r & Hr & Hg & [= ->] & ->)]%update_inv; try done;
    repeat (apply andb_true_iff in Hg as [Hg ?]); exists r.
  - split_and!; try done; [by apply Z.eqb_eq|by eapply bool_decide_eq_true_1|by intros _; apply negb_true_iff].
  - split_and!; try done; [by apply Z.eqb_eq|by eapply bool_decide_eq_true_1].
Qed.

Lemma headless_false r : headless r = false -> tr_source r <> TAccount None /\ tr_target r <> TAccount None.
Proof. unfold headless. rewrite orb_false_iff, !bool_decide_eq_false. done. Qed.

Lemma transfer_decision_good o by_ id c new_status note s v s2 :
  wf s -> (small s -> forall r, rows (p_transfers s) !! id = Some r -> transfer_later c r) ->
  can_transition Transfers (tr_status c) new_status = true ->
  transfer_decision_block o by_ id c new_status note s = (Ok v, s2) -> good s s2.
Proof.
  intros Hwf Hlater Htr H. unfold transfer_decision_block in H. minv H. rename Hm into Hck, Hm0 into Hmv, Hm2 into Hset.
  destruct (credit_check_inv _ _ _ _ _ _ Hwf Hck) as [-> Hcap]. clear Hck.
  apply move_transfer_inv in Hmv as (r & Hr & Ho & Hs & Hhead & Hsame & Hst & ->). rename v3 into row, st1 into s2. clear Hm1.
  set (s1 := upd_transfers (set_row id row) s) in *.
  assert (wf s1) as Hwf1 by (destruct Hsame as (_ & _ & ? & _ & _ & ?); by eapply wf_set_transfer).
  assert (nexts_le s s1) as Hn1 by (unfold nexts_le; cbn; lia).
  case_bool_decide as Ed.
  2: { minv Hset. split; [done|]. split; [done|]. intros Hsm Hin. apply rtc_once.
       eapply (MMoveTransfer _ _ _ _ _ id r); try done; by rewrite Hs. }
  apply bind_inv in Hset as ([] & sa & Hs1 & Hs2). destruct v1.
  destruct (settle_end_wf _ _ _ _ _ _ _ _ Hwf1 Hs1) as (Hwfa & Hna & Ed1 & Ew1 & Et1 & Eb1).
  destruct (settle_end_wf _ _ _ _ _ _ _ _ Hwfa Hs2) as (Hwfb & Hnb & Ed2 & Ew2 & Et2 & Eb2).
  split; [trans s1; [done|]; by trans sa|]. split; [done|]. intros Hsm Hin.
  assert (small s) as Hsm0 by (eapply small_le; [|exact Hsm]; trans s1; [done|]; by trans sa).
  destruct (Hlater Hsm0 r Hr) as (Eo & Eu & Ea & Les & Let_ & Eq & _).
  pose proof (wf_transfer_amounts s Hwf id r Hr) as Hb. simpl in Hb. pose proof (wf_equities s Hwf id r Hr) as Hq. simpl in Hq.
  destruct (headless_false r (Hhead Ed)) as [Hns Hnt].
  assert (tr_source r = tr_source c) as Esrc by (destruct Les as [?|[_ ?]]; congruence).
  assert (tr_target r = tr_target c) as Etgt by (destruct Let_ as [?|[_ ?]]; congruence).
  rewrite <- Esrc, <- Etgt, <- Eu, <- Ea in *. rewrite <- Eq in *.
  destruct (io_transfers _ Hin _ _ Hr) as (_ & Hp & _).
  destruct (ends_settled o (tr_user r) (tr_source r) (tr_target r) (dec_neg (of_cents (tr_amount r))) (of_cents (tr_amount r))
    id s1 sa s2 (tr_amount r)) as (es & He1 & He2);
    [done| | | | |exact Hs1|exact Hs2|].
  - apply (no_transfer_entry (books_of s) id Hin). intros r0 Hr0. cbn in Hr0. simplify_eq. rewrite Hs.
    intros E. rewrite E in Htr. discriminate Htr.
  - intros E. rewrite E in Hp. clear -Hp. unfold TRANSFER_PAIRS in Hp. destruct (tr_target r) as [[]|]; set_solver.
  - apply has_cents_to_cents; [apply is_dec_neg, has_cents_of_cents|lia].
  - apply has_cents_to_cents; [apply has_cents_of_cents|lia].
  - apply rtc_once. unfold books_of at 2. rewrite Ed2, Ed1, Ew2, Ew1, Et2, Et1, Eb2, Eb1. cbn.
    apply (MDone _ _ _ _ _ id r row es); try done; try (by rewrite Ho).
    + by rewrite Hs, <- Ed.
    + by rewrite Hst.
    + intros a q Hsa Hqa. rewrite Ho. by apply Hcap.
Qed.
