(* ===== verification/PortalFacts.v ===== *)
(** * The portal keeps its books

    Every request of the portal, run step by step among any others, keeps the
    tables well formed and moves the books only by the moves of
    [PortalBooks.v]. *)

From S2P Require Import Prelude PyStr PyDecimal PyFloat PyRepr PyDecOps Models Db PyJson Limiter PortalLedger Mpin Prog PortalDb.
From S2P Require Import PortalCommon PortalInvestor PortalAdmin PortalBooks PortalSim.

(** ** The invariant and the moves of a state *)

Definition sound (s : portal) : Prop := wf s /\ (small s -> in_order (books_of s)).

(** What other requests may have done to the state in the meantime. *)
Definition later (s s' : portal) : Prop :=
  nexts_le s s' /\ (small s' -> in_order (books_of s) -> rtc move (books_of s) (books_of s')).

#[export] Instance later_preorder : PreOrder later.
Proof.
  split; [intros s; split; [done|reflexivity]|]. intros x y z [N1 M1] [N2 M2]. split; [by trans y|]. intros Hsm Hin.
  assert (small y) by by eapply small_le. trans (books_of y); [by apply M1|]. apply M2; [done|].
  eapply moves_in_order; [exact Hin|by apply M1].
Qed.

Lemma good_sound s s2 : sound s -> good s s2 -> sound s2 /\ later s s2.
Proof.
  intros [Hwf Hin] (Hn & Hwf2 & Hm). split; [|by split]. split; [done|]. intros Hsm.
  assert (small s) as Hsm0 by by eapply small_le. eapply moves_in_order; [by apply Hin|]. by apply Hm; [|apply Hin].
Qed.

Abbreviation pwp := (wp sound later).
Abbreviation psafe := (safe sound later).

Lemma wp_good {A} (m : M portal A) Q s :
  (forall s', later s s' -> sound s' -> good s' (exec m s') /\ Q (value m s') (exec m s')) -> pwp (stmt m) Q s.
Proof.
  intros H. apply wp_stmt. intros s' Hl Hs. destruct (H s' Hl Hs) as [Hg HQ].
  destruct (good_sound _ _ Hs Hg). done.
Qed.

(** *** Sequences only grow *)

Lemma nexts_insert {A} get upd refused (r : A) :
  (forall f s, (forall t, next_id t <= next_id (f t)) -> nexts_le s (upd f s)) -> respects nexts_le (insert_row get upd refused r).
Proof. intros H s. unfold insert_row, exec. destruct refused; simpl; apply H; intros t; simpl; lia. Qed.

Lemma nexts_update {A} get upd id p (f : A -> A) :
  (forall f s, (forall t, next_id t <= next_id (f t)) -> nexts_le s (upd f s)) -> respects nexts_le (update_where get upd id p f).
Proof. intros H s. unfold update_where, exec. repeat case_match; simpl; try done. apply H. intros t. simpl. lia. Qed.

Lemma nexts_entries f s : (forall t, next_id t <= next_id (f t)) -> nexts_le s (upd_entries f s).
Proof. intros Hf. unfold nexts_le. cbn. specialize (Hf (p_entries s)). lia. Qed.
Lemma nexts_deposits f s : (forall t, next_id t <= next_id (f t)) -> nexts_le s (upd_deposits f s).
Proof. intros Hf. unfold nexts_le. cbn. specialize (Hf (p_deposits s)). lia. Qed.
Lemma nexts_withdrawals f s : (forall t, next_id t <= next_id (f t)) -> nexts_le s (upd_withdrawals f s).
Proof. intros Hf. unfold nexts_le. cbn. specialize (Hf (p_withdrawals s)). lia. Qed.
Lemma nexts_transfers f s : (forall t, next_id t <= next_id (f t)) -> nexts_le s (upd_transfers f s).
Proof. intros Hf. unfold nexts_le. cbn. specialize (Hf (p_transfers s)). lia. Qed.
Lemma nexts_bonuses f s : (forall t, next_id t <= next_id (f t)) -> nexts_le s (upd_bonuses f s).
Proof. intros Hf. unfold nexts_le. cbn. specialize (Hf (p_bonuses s)). lia. Qed.
#[export] Hint Resolve nexts_entries nexts_deposits nexts_withdrawals nexts_transfers nexts_bonuses nexts_insert nexts_update : copier.

Lemma nexts_same f : (forall s, nexts_le s (f s)) -> respects nexts_le (modify f).
Proof. intros H s. apply H. Qed.
Lemma nexts_pure {A} (f : portal -> result A) : respects nexts_le (fun s => (f s, s)).
Proof. intros s. done. Qed.
Lemma nexts_mguard b code d : respects nexts_le (mguard b code d).
Proof. unfold mguard. destruct b; intros s; done. Qed.
Lemma nexts_hourly kind o u : respects nexts_le (hourly_limited kind o u).
Proof. intros s. unfold hourly_limited, exec. destruct (is_limited _ _ _ _). done. Qed.
Lemma nexts_returned {A} (row : option A) : respects nexts_le (returned row).
Proof. unfold returned. destruct row; intros s; done. Qed.
Lemma nexts_settings o : respects nexts_le (portal_settings o).
Proof. intros s. done. Qed.
Lemma nexts_rules o : respects nexts_le (bonus_rules o).
Proof. intros s. done. Qed.

Lemma nexts_insert_state {A} get upd (refused : portal -> option exn) (r : A) :
  (forall f s, (forall t, next_id t <= next_id (f t)) -> nexts_le s (upd f s)) ->
  respects nexts_le (fun s => insert_row get upd (refused s) r s).
Proof. intros H s. apply nexts_insert, H. Qed.
#[export] Hint Resolve nexts_pure nexts_mguard nexts_hourly nexts_returned nexts_settings nexts_rules nexts_insert_state : copier.

(** Walk through a block. *)
Ltac grows := repeat first
  [ apply (respects_bind nexts_le)
  | apply (respects_ret nexts_le) | apply (respects_raise nexts_le) | apply (respects_gets nexts_le) | apply (respects_lift nexts_le)
  | apply nexts_pure | apply nexts_mguard | apply nexts_hourly | apply nexts_returned | apply nexts_settings | apply nexts_rules
  | apply nexts_insert_state; by eauto with copier | apply nexts_insert; by eauto with copier
  | apply nexts_update; by eauto with copier
  | apply nexts_same; intros ?; first [apply nexts_entries | apply nexts_bonuses]; intros; simpl; lia
  | match goal with |- forall _, respects _ _ => intros ? end | case_match ].

Lemma settle_grows o u w amount kind ref note by_ : respects nexts_le (settle o u w amount kind ref note by_).
Proof. unfold settle. grows. Qed.

Lemma pay_bonus_grows o u source amount sid note by_ : respects nexts_le (pay_bonus o u source amount sid note by_).
Proof. unfold pay_bonus. grows; apply settle_grows. Qed.
Lemma rule_bonus_grows o source base : respects nexts_le (rule_bonus o source base).
Proof. unfold rule_bonus. grows. Qed.
Lemma settle_end_grows o u e amount id : respects nexts_le (settle_end o u e amount id).
Proof. unfold settle_end. grows; apply settle_grows. Qed.
Lemma withdrawal_grows o u amount d dest settings : respects nexts_le (withdrawal_block o u amount d dest settings).
Proof. unfold withdrawal_block. grows. Qed.
Lemma transfer_grows o u amount source target account equity live :
  respects nexts_le (transfer_block o u amount source target account equity live).
Proof. unfold transfer_block, transfer_checks, insert_transfer. grows; apply settle_grows. Qed.
Lemma deposit_grows o by_ id c st note credited : respects nexts_le (deposit_block o by_ id c st note credited).
Proof. unfold deposit_block, confirm_money, insert_transfer. grows; first [apply settle_grows|apply rule_bonus_grows|apply pay_bonus_grows]. Qed.
Lemma paid_grows o by_ id c txid : respects nexts_le (paid_block o by_ id c txid).
Proof. unfold paid_block. grows; apply settle_grows. Qed.
Lemma decision_grows o by_ id c st note : respects nexts_le (transfer_decision_block o by_ id c st note).
Proof. unfold transfer_decision_block, credit_check, move_transfer. grows; apply settle_end_grows. Qed.
Lemma adjustment_grows o by_ u w amount note : respects nexts_le (adjustment_block o by_ u w amount note).
Proof. unfold adjustment_block. grows. Qed.
Lemma grant_grows o by_ u amount note : respects nexts_le (grant_block o by_ u amount note).
Proof. unfold grant_block. grows; apply pay_bonus_grows. Qed.

(** *** Transactions *)

Lemma rollback_good s s2 : wf s -> nexts_le s s2 -> good s (rollback s s2).
Proof.
  intros Hwf Hn. unfold nexts_le in Hn. apply good_same; [unfold nexts_le; cbn; lia| |done].
  destruct Hwf. split; cbn; try done; apply table_wf_undo; (done || lia).
Qed.

Lemma transaction_good {A} (m : M portal A) s :
  respects nexts_le m -> wf s -> (forall a s2, m s = (Ok a, s2) -> good s s2) -> good s (exec (transaction m) s).
Proof.
  intros Hg Hwf H. specialize (Hg s). unfold exec, transaction in *. destruct (m s) as [[a|e] s2] eqn:E; simpl in *.
  - by apply (H a).
  - by apply rollback_good.
Qed.

Lemma safe_transaction {A B} (m : M portal A) (k : A -> route B) s :
  respects nexts_le m ->
  (forall s' a s2, later s s' -> sound s' -> m s' = (Ok a, s2) -> good s' s2) ->
  (forall a s', later s s' -> psafe (k a) s') -> psafe (pbind (stmt (transaction m)) k) s.
Proof.
  intros Hg Hm Hk. apply safe_bind, wp_good. intros s' Hl Hs.
  assert (good s' (exec (transaction m) s')) as Hgood.
  { apply transaction_good; [done|apply Hs|]. intros a s2. by apply Hm. }
  split; [done|]. destruct (value _ _) as [a|]; [|done]. apply Hk. trans s'; [done|]. by apply good_sound.
Qed.

(** *** Programs that leave the money alone *)

Fixpoint silent {A} (p : route A) : Prop :=
  match p with
  | Ret _ | Throw _ => True
  | Step upd k => (forall s, wf s -> wf (upd s) /\ nexts_le s (upd s) /\ books_of (upd s) = books_of s) /\ (forall s, silent (k s))
  end.

Lemma wp_silent {A} (p : route A) Q s :
  silent p -> (forall r s', later s s' -> Q r s') -> pwp p Q s.
Proof.
  revert s. induction p as [a|e|upd k IH]; intros s Hp HQ; simpl in *; [by apply HQ|by apply HQ|].
  intros s' Hl Hs. destruct Hp as [Hu Hk]. destruct (Hu s' (proj1 Hs)) as (Hwf & Hn & Hb).
  destruct (good_sound s' (upd s') Hs (good_same _ _ Hn Hwf Hb)) as [? Hl']. split_and!; [done|done|].
  apply IH; [done|]. intros r t Ht. apply HQ. trans s'; [done|]. by trans (upd s').
Qed.

Lemma silent_bind {A B} (p : route A) (k : A -> route B) : silent p -> (forall a, silent (k a)) -> silent (pbind p k).
Proof. intros Hp Hk. induction p as [a|e|upd f IH]; simpl in *; [done|done|]. destruct Hp as [? ?]. split; [done|]. intros s. by apply IH. Qed.

Lemma silent_of_result {A} (r : result A) : silent (of_result r).
Proof. by destruct r. Qed.

Lemma silent_stmt {A} (m : M portal A) :
  (forall s, wf s -> wf (exec m s) /\ nexts_le s (exec m s) /\ books_of (exec m s) = books_of s) -> silent (stmt m).
Proof. intros H. split; [done|]. intros s. apply silent_of_result. Qed.

Lemma silent_query {A} (f : portal -> A) : silent (query f).
Proof. by apply silent_stmt. Qed.

Lemma silent_pure {A} (f : portal -> result A) : silent (stmt (fun s => (f s, s))).
Proof. by apply silent_stmt. Qed.

Lemma silent_guard b code d : silent (guard b code d).
Proof. unfold guard. by destruct b. Qed.

Lemma silent_safe {A} (p : route A) s : silent p -> psafe p s.
Proof. intros H. by apply wp_silent. Qed.

Lemma safe_silent {A B} (p : route A) (k : A -> route B) s :
  silent p -> (forall a s', later s s' -> psafe (k a) s') -> psafe (pbind p k) s.
Proof. intros Hp Hk. apply safe_bind, wp_silent; [done|]. intros [a|e] s' Hl; [by apply Hk|done]. Qed.

Lemma safe_pure {A B} (r : result A) (k : A -> route B) s :
  (forall a, r = Ok a -> psafe (k a) s) -> psafe (pbind (of_result r) k) s.
Proof. intros H. destruct r as [a|e]; [by apply H|done]. Qed.

Lemma safe_query {A B} (f : portal -> A) (k : A -> route B) s :
  (forall s', later s s' -> sound s' -> psafe (k (f s')) s') -> psafe (pbind (query f) k) s.
Proof. intros H. apply safe_bind, wp_query; [apply _|]. done. Qed.

Lemma safe_guard {B} b code d (k : route B) s : (b = true -> psafe k s) -> psafe (guard b code d >>> k) s.
Proof. unfold guard. intros H. destruct b; [by apply H|done]. Qed.

(** *** The small programs *)

Ltac silent_field := apply silent_stmt; let s := fresh in let H := fresh in intros s H; split; [by wf_tables H|]; split; [done|done].

Lemma silent_audit o action actor u sev account : silent (audit_control o action actor u sev account).
Proof. unfold audit_control. silent_field. Qed.
Lemma silent_notify o u t link : silent (notify o u t link).
Proof. unfold notify. silent_field. Qed.
Lemma silent_announce o u source actor : silent (announce_bonus o u source actor).
Proof. apply silent_bind; [apply silent_audit|]. intros _. apply silent_notify. Qed.
Lemma silent_hourly kind o u : silent (stmt (hourly_limited kind o u)).
Proof.
  apply silent_stmt. intros s Hs. unfold hourly_limited, exec. destruct (is_limited _ _ _ _). simpl.
  split; [by wf_tables Hs|done].
Qed.
Lemma silent_role role o u : silent (require_org_role role o u).
Proof. apply silent_bind; [apply silent_query|]. intros [[r e]|]; [|done]. by destruct (_ <? _). Qed.
Lemma silent_investor o u : silent (require_investor o u).
Proof. apply silent_bind; [apply silent_role|]. intros c. by case_bool_decide. Qed.
Lemma silent_require_investor o u : silent (_require_investor o u).
Proof. apply silent_bind; [apply silent_query|]. by intros [[[] e]|]. Qed.

Lemma silent_mpin verify fuel u m p : silent (mpin_steps verify fuel u m p).
Proof.
  revert p. induction fuel as [|n IH]; intros p; [by destruct p|].
  destruct p; simpl; try done; (split; [|intros s; apply IH]); intros s Hs; (split; [by wf_tables Hs|done]).
Qed.
Lemma silent_require_mpin verify u m : silent (require_mpin verify u m).
Proof.
  unfold require_mpin. destruct m; try done. destruct (six_digits _); [|done]. apply silent_bind; [apply silent_mpin|]. by intros [].
Qed.

Lemma wf_get_or_create s o : wf s -> wf (upd_settings (get_or_create o DEFAULT_SETTINGS) s).
Proof.
  intros Hs. wf_tables Hs. unfold get_or_create. destruct (p_settings s !! o); [done|]. by apply map_Forall_insert_2.
Qed.

#[export] Hint Resolve silent_audit silent_notify silent_announce silent_hourly silent_role silent_investor
  silent_require_investor silent_require_mpin silent_query silent_pure silent_guard silent_of_result : copier.

Lemma safe_mpin {A} verify u m (k : route A) s : (forall s', later s s' -> psafe k s') -> psafe (with_mpin verify u m k) s.
Proof.
  intros H. apply safe_silent; [apply silent_require_mpin|]. intros [f|] s' Hl; [done|].
  apply safe_bind. eapply wp_mono; [|by apply H]. by intros [a|e] t.
Qed.

(** *** What a request read before *)

Lemma stale s0 s' : sound s0 -> later s0 s' -> small s' -> history (books_of s0) (books_of s').
Proof.
  intros [Hwf Hin] [Hn Hm] Hsm. apply moves_history, Hm; [done|]. apply Hin. by eapply small_le.
Qed.

Lemma stale_deposit s0 s' id c :
  sound s0 -> rows (p_deposits s0) !! id = Some c -> later s0 s' -> small s' ->
  forall r, rows (p_deposits s') !! id = Some r -> deposit_later c r.
Proof.
  intros Hs Hc Hl Hsm r Hr. destruct (hi_deposits _ _ (stale s0 s' Hs Hl Hsm) id c Hc) as (x & Hx & Hlat).
  cbn in Hx. by simplify_eq.
Qed.
Lemma stale_withdrawal s0 s' id c :
  sound s0 -> rows (p_withdrawals s0) !! id = Some c -> later s0 s' -> small s' ->
  forall r, rows (p_withdrawals s') !! id = Some r -> withdrawal_later c r.
Proof.
  intros Hs Hc Hl Hsm r Hr. destruct (hi_withdrawals _ _ (stale s0 s' Hs Hl Hsm) id c Hc) as (x & Hx & Hlat).
  cbn in Hx. by simplify_eq.
Qed.
Lemma stale_transfer s0 s' id c :
  sound s0 -> rows (p_transfers s0) !! id = Some c -> later s0 s' -> small s' ->
  forall r, rows (p_transfers s') !! id = Some r -> transfer_later c r.
Proof.
  intros Hs Hc Hl Hsm r Hr. destruct (hi_transfers _ _ (stale s0 s' Hs Hl Hsm) id c Hc) as (x & Hx & Hlat).
  cbn in Hx. by simplify_eq.
Qed.

Lemma own_row_Some {A} get (org_of user_of : A -> Z) o u id s r :
  own_row get org_of user_of o u id s = Some r -> rows (get s) !! id = Some r /\ org_of r = o /\ user_of r = u.
Proof.
  unfold own_row. destruct (rows (get s) !! id) as [x|]; simpl; [|done]. destruct (mine _ _ _ _) eqn:E; [|done].
  intros [= ->]. apply mine_true in E. done.
Qed.
Lemma org_row_Some {A} get (org_of : A -> Z) o id s r :
  org_row get org_of o id s = Some r -> rows (get s) !! id = Some r /\ org_of r = o.
Proof.
  unfold org_row. destruct (rows (get s) !! id) as [x|]; simpl; [|done]. destruct (Z.eqb_spec (org_of x) o); [|done]. by intros [= ->].
Qed.

(** *** Guarded updates *)

Lemma safe_update {A B} get upd id p (f : A -> A) (k : A -> route B) s :
  (forall s' r, later s s' -> sound s' -> rows (get s') !! id = Some r -> p r = true -> good s' (upd (set_row id (f r)) s')) ->
  (forall a s', later s s' -> psafe (k a) s') ->
  psafe (pbind (stmt (let! row := update_where get upd id p f in returned row)) k) s.
Proof.
  intros Hg Hk. apply safe_bind, wp_good. intros s' Hl Hs. unfold value, exec, bind, update_where, returned.
  destruct (rows (get s') !! id) as [r|] eqn:Er; simpl; [|split; [by apply good_refl, Hs|done]].
  destruct (p r) eqn:Ep; simpl; [|split; [by apply good_refl, Hs|done]].
  pose proof (Hg s' r Hl Hs Er Ep) as Hgood. split; [done|]. apply Hk. trans s'; [done|]. by apply good_sound.
Qed.

Lemma move_withdrawal_good o id st st' by_ note s r :
  wf s -> rows (p_withdrawals s) !! id = Some r -> (wd_org r =? o) && bool_decide (wd_status r = st) = true ->
  can_transition Withdrawals st st' = true -> st' <> SPaid -> good s (upd_withdrawals (set_row id (wd_move st' by_ note r)) s).
Proof.
  intros Hwf Hr Hg Ht Hne. apply andb_true_iff in Hg as [_ Es%bool_decide_eq_true_1].
  split; [unfold nexts_le; cbn; lia|]. split; [by eapply wf_set_withdrawal|]. intros _ _. apply rtc_once.
  eapply (MMoveWithdrawal _ _ _ _ _ id r); try done. by rewrite Es.
Qed.

Lemma move_transfer_good o id st st' by_ note s r :
  wf s -> rows (p_transfers s) !! id = Some r -> (tr_org r =? o) && bool_decide (tr_status r = st) = true ->
  can_transition Transfers st st' = true -> st' <> SDone -> good s (upd_transfers (set_row id (tr_move st' by_ note r)) s).
Proof.
  intros Hwf Hr Hg Ht Hne. apply andb_true_iff in Hg as [_ Es%bool_decide_eq_true_1].
  split; [unfold nexts_le; cbn; lia|]. split; [by eapply wf_set_transfer|]. intros _ _. apply rtc_once.
  eapply (MMoveTransfer _ _ _ _ _ id r); try done. by rewrite Es.
Qed.

(** ** The investor's routes *)

Ltac quietly := repeat first
  [ apply safe_silent; [by eauto with copier|intros ? ? ?]
  | apply safe_guard; intros ?
  | by apply silent_safe; eauto with copier
  | done ].

Lemma safe_tail {A} (p : route unit) (a : A) s : silent p -> psafe (p >>> Ret a) s.
Proof. intros H. apply safe_silent; [done|]. done. Qed.

Lemma cancel_deposit_safe o u id s : psafe (cancel_deposit o u id) s.
Proof.
  unfold cancel_deposit. apply safe_silent; [by eauto with copier|]. intros ctx s1 _.
  apply safe_query. intros s2 _ Hs2. destruct (own_row _ _ _ _ _ _ _) as [c|] eqn:Ec; [|done]. apply safe_guard. intros Ht.
  apply safe_update.
  - intros s3 r _ [Hwf _] Hr Hg. apply andb_true_iff in Hg as [_ Es%bool_decide_eq_true_1].
    split; [unfold nexts_le; cbn; lia|]. split; [by eapply wf_set_deposit|]. intros _ _. apply rtc_once.
    eapply (MDropDeposit _ _ _ _ _ id r); try done. by right.
  - intros row s3 _. apply safe_tail, silent_audit.
Qed.

Lemma cancel_withdrawal_safe o u id s : psafe (cancel_withdrawal o u id) s.
Proof.
  unfold cancel_withdrawal. apply safe_silent; [by eauto with copier|]. intros ctx s1 _.
  apply safe_query. intros s2 _ Hs2. destruct (own_row _ _ _ _ _ _ _) as [c|] eqn:Ec; [|done]. apply safe_guard. intros Ht.
  apply safe_update.
  - intros s3 r _ [Hwf _] Hr Hg. by eapply move_withdrawal_good.
  - intros row s3 _. apply safe_tail, silent_audit.
Qed.

Lemma cancel_transfer_safe o u id s : psafe (cancel_transfer o u id) s.
Proof.
  unfold cancel_transfer. apply safe_silent; [by eauto with copier|]. intros ctx s1 _.
  apply safe_query. intros s2 _ Hs2. destruct (own_row _ _ _ _ _ _ _) as [c|] eqn:Ec; [|done]. apply safe_guard. intros Ht.
  apply safe_update.
  - intros s3 r _ [Hwf _] Hr Hg. by eapply move_transfer_good.
  - intros row s3 _. apply safe_tail, silent_audit.
Qed.

Lemma silent_update_destination id p f :
  silent (stmt (let! row := update_where p_destinations upd_destinations id p f in returned row)).
Proof.
  apply silent_stmt. intros s Hs. unfold exec, bind, update_where, returned.
  destruct (rows (p_destinations s) !! id); [destruct (p _)|]; (split; [by wf_tables Hs|done]).
Qed.

Lemma remove_destination_silent o u id : silent (remove_destination o u id).
Proof.
  unfold remove_destination. apply silent_bind; [by eauto with copier|]. intros ctx.
  apply silent_bind; [apply silent_query|]. intros [c|]; [|done].
  repeat (apply silent_bind; [by eauto using silent_update_destination with copier|intros ?]). done.
Qed.

Lemma add_destination_silent verify o u body : silent (add_destination verify o u body).
Proof.
  unfold add_destination. apply silent_bind; [by eauto with copier|]. intros ctx.
  apply silent_bind; [by eauto with copier|]. intros [f|]; [done|]. apply silent_bind; [|done].
  repeat (apply silent_bind; [by eauto with copier|intros ?]); try done.
  destruct a0 as [nickname details]. repeat (apply silent_bind; [by eauto with copier|intros ?]).
  apply silent_bind; [|intros ?; apply silent_bind; [by eauto with copier|done]].
  apply silent_stmt. intros s' Hs. unfold insert_row, exec, destination_refused. destruct (refuse_unless _ _ _); (split; [by wf_tables Hs|done]).
Qed.

(** What the database checked when it took a notice. *)
Lemma deposit_refused_None r s :
  deposit_refused r s = None ->
  0 < dp_amount r /\
  (forall k x, rows (p_deposits s) !! k = Some x -> live_deposit x && (dp_org x =? dp_org r) &&
     bool_decide (str_lower (dp_reference x) = str_lower (dp_reference r)) = false) /\
  (forall k x f, rows (p_deposits s) !! k = Some x -> dp_receipt r = Some f -> dp_receipt x <> Some f).
Proof.
  unfold deposit_refused, refuse_unless. destruct (Z.ltb_spec 0 (dp_amount r)); [|done].
  destruct (negb (any_row _ _)) eqn:E1; [|done]. apply negb_true_iff in E1. rewrite any_row_false in E1.
  destruct (negb match dp_receipt r with Some f => _ | None => _ end) eqn:E2; [|done]. intros _. split_and!; [done|done|].
  intros k x f Hx Hf. rewrite Hf in E2. apply negb_true_iff in E2. rewrite any_row_false in E2. specialize (E2 k x Hx).
  unfold names_file in E2. by apply bool_decide_eq_false_1 in E2.
Qed.

(** The INSERT of a notice. *)
Lemma insert_deposit_good amount fee row s :
  wf s -> (exists c, has_cents amount c /\ 0 < c < 10 ^ 14) ->
  (forall c f, to_cents amount = Ok c -> to_cents fee = Ok f ->
     dp_amount (row c f) = c /\ dp_fee (row c f) = f /\ dp_status (row c f) = SPending) ->
  good s (exec (let! cents := lift_result (to_cents amount) in
                let! fee_cents := lift_result (to_cents fee) in
                let r := row cents fee_cents in
                let! id := insert_deposit r in ret (id, r)) s).
Proof.
  intros Hwf (c & Hc & Hb) Hrow. unfold exec, bind, lift_result. rewrite (has_cents_to_cents _ _ Hc) by lia.
  destruct (to_cents fee) as [f|e] eqn:Ef; [|by apply good_refl].
  destruct (Hrow c f) as (Ea & Efe & Est); [by apply has_cents_to_cents; [|lia]|done|].
  unfold insert_deposit, insert_row. destruct (deposit_refused (row c f) s) eqn:Er; simpl.
  - apply good_same; [unfold nexts_le; cbn; lia|by wf_tables Hwf|done].
  - apply to_cents_bound in Ef. apply deposit_refused_None in Er as (H1 & H2 & H3).
    split; [unfold nexts_le; cbn; lia|]. split.
    { wf_tables Hwf. apply map_Forall_insert_2; [by rewrite Ea, Efe|done]. }
    intros _ _. apply rtc_once. eapply MFile; try done. by apply table_wf_fresh, wf_deposits.
Qed.

Lemma as_400_ok {A} (r : result A) a : as_400 r = Ok a -> r = Ok a.
Proof. destruct r as [x|[]]; simpl; by intros [= ->]. Qed.

Lemma file_deposit_safe o u body s : psafe (file_deposit o u body) s.
Proof.
  unfold file_deposit. apply safe_silent; [by eauto with copier|]. intros ctx s1 _.
  apply safe_pure. intros [[amount reference] note] Hp. apply as_400_ok in Hp.
  destruct (parse_amount (dn_amount body) "amount") as [am|] eqn:Ea; [|done].
  assert (am = amount) as ->.
  { simpl in Hp. repeat (destruct (clean_text _ _ _ _); [|done]; simpl in Hp). congruence. }
  clear Hp. apply safe_silent; [by destruct (parse_target _)|]. intros target s2 _.
  apply safe_query. intros s3 _ _. destruct (rows (p_methods s3) !! dn_method_id body) as [m|]; [|done].
  do 3 (apply safe_guard; intros _).
  apply safe_silent; [|intros _ s4 _].
  { destruct (dn_receipt body); [|done]. repeat (apply silent_bind; [by eauto with copier|intros ?]). by eauto with copier. }
  apply safe_silent; [|intros account s5 _].
  { destruct target; [done|]. apply silent_bind; [by eauto with copier|]. intros [|]; [done|].
    apply silent_bind; [apply silent_pure|done]. }
  apply safe_silent; [by eauto with copier|]. intros limited s6 _. apply safe_guard. intros _.
  apply safe_pure. intros fee _. apply safe_bind, wp_catch, wp_good. intros s7 Hl [Hwf Hin]. split.
  - eapply (insert_deposit_good amount fee (fun c f => _)); [done|by eapply parse_amount_spec|]. done.
  - destruct (value _ _) as [x|e].
    + apply safe_tail, silent_audit.
    + destruct e; try done. simpl. by repeat case_bool_decide.
Qed.

Lemma wp_settings o (Q : result settings_row -> portal -> Prop) s :
  (forall r s', later s s' -> settings_checks r = true -> Q (Ok r) s') -> pwp (stmt (portal_settings o)) Q s.
Proof.
  intros H. apply wp_good. intros s' Hl [Hwf Hin].
  assert (good s' (exec (portal_settings o) s')) as Hg.
  { apply good_same; [done|by apply wf_get_or_create|done]. }
  split; [done|]. apply H; [trans s'; [done|]; by apply good_sound|].
  simpl. unfold get_or_create. destruct (p_settings s' !! o) as [r|] eqn:E; simpl.
  - rewrite E. simpl. by apply (wf_settings s' Hwf o r).
  - by rewrite lookup_insert_eq.
Qed.

Lemma request_withdrawal_safe verify o u body s : psafe (request_withdrawal verify o u body) s.
Proof.
  unfold request_withdrawal. apply safe_silent; [by eauto with copier|]. intros ctx s1 _. apply safe_mpin. intros s2 _.
  apply safe_pure. intros amount Ha%as_400_ok. destruct (parse_amount_spec _ _ _ Ha) as (c & Hc & Hb).
  apply safe_query. intros s3 _ _. destruct (own_row _ _ _ _ _ _ _) as [d|]; [|done]. apply safe_guard. intros _.
  apply safe_bind, wp_settings. intros settings s4 _ Hset. apply safe_guard. intros _.
  apply safe_transaction; [apply withdrawal_grows| |].
  - intros s5 a s6 _ [Hwf _] H. by eapply withdrawal_block_good.
  - intros row s5 _. apply safe_tail, silent_audit.
Qed.

Lemma transfer_pair_ok source target p : transfer_pair source target = Ok p -> p ∈ TRANSFER_PAIRS.
Proof.
  unfold transfer_pair. destruct (_end source); [|done]. simpl. destruct (_end target); [|done]. simpl.
  case_bool_decide; [|done]. by intros [= <-].
Qed.

Lemma request_transfer_safe verify copier o u body s : psafe (request_transfer verify copier o u body) s.
Proof.
  unfold request_transfer. apply safe_silent; [by eauto with copier|]. intros ctx s1 _. apply safe_mpin. intros s2 _.
  apply safe_pure. intros [amount [source target]] Hp%as_400_ok.
  destruct (parse_amount (tq_amount body) "amount") as [am|] eqn:Ea; [|done]. simpl in Hp.
  destruct (transfer_pair _ _) as [p|] eqn:Ep; [|done]. simpl in Hp. simplify_eq.
  apply transfer_pair_ok in Ep. destruct (parse_amount_spec _ _ _ Ea) as (c & Hc & Hb).
  apply safe_bind. eapply wp_mono with (Q := fun r s' => match r with
    | Ok account => is_account source || is_account target = true -> is_Some account | Raise _ => True end).
  { intros [account|] s3 Hacc; [|done].
    apply safe_silent; [by destruct (is_account source); [apply silent_pure|]|]. intros [equity src] s4 _.
    apply safe_transaction; [apply transfer_grows| |].
    - intros s5 a s6 _ [Hwf _] H. by eapply transfer_block_good.
    - intros row s5 _. apply safe_tail, silent_audit. }
  destruct (is_account source || is_account target) eqn:E; [|done].
  apply wp_bind, wp_query; [apply _|]. intros s3 _ _. 
  set (named := if is_account source then _ else _).
  destruct (owns_account o u named s3) eqn:Eo.
  - simpl. intros _. destruct named as [a|]; [by eexists|]. done.
  - apply wp_bind, wp_query; [apply _|]. intros s4 _ _. by destruct (linked_accounts _ _ _).
Qed.

(** ** The desk's routes *)

(** A block that never touches the money, whatever it answers. *)
Definition untouched {A} (m : M portal A) : Prop :=
  forall s, wf s -> wf (exec m s) /\ nexts_le s (exec m s) /\ books_of (exec m s) = books_of s.

Lemma untouched_pure {A} (f : portal -> result A) : untouched (fun s => (f s, s)).
Proof. by intros s Hs. Qed.
Lemma untouched_bind {A B} (m : M portal A) (f : A -> M portal B) :
  untouched m -> (forall a, untouched (f a)) -> untouched (bind m f).
Proof.
  intros Hm Hf s Hs. destruct (Hm s Hs) as (H1 & H2 & H3). unfold exec, bind in *. destruct (m s) as [[a|e] s1]; simpl in *; [|done].
  destruct (Hf a s1 H1) as (H4 & H5 & H6). unfold exec in *. split; [done|]. split; [by trans s1|congruence].
Qed.
Lemma untouched_transaction {A} (m : M portal A) : untouched m -> untouched (transaction m).
Proof.
  intros Hm s Hs. destruct (Hm s Hs) as (H1 & H2 & H3). unfold exec, transaction in *. destruct (m s) as [[a|e] s1]; simpl in *; [done|].
  destruct (rollback_good s s1 Hs H2) as (Hn & Hw & _). done.
Qed.
Lemma untouched_modify f : (forall s, wf s -> wf (f s) /\ nexts_le s (f s) /\ books_of (f s) = books_of s) -> untouched (modify f).
Proof. done. Qed.
Lemma untouched_methods f : untouched (modify (upd_methods f)).
Proof. intros s Hs. split; [by wf_tables Hs|done]. Qed.
Lemma untouched_accounts f : untouched (modify (upd_accounts f)).
Proof. intros s Hs. split; [by wf_tables Hs|done]. Qed.
Lemma untouched_insert_method refused r : untouched (insert_row p_methods upd_methods refused r).
Proof. intros s Hs. unfold exec, insert_row. destruct refused; (split; [by wf_tables Hs|done]). Qed.
Lemma untouched_update_method id p f : untouched (update_where p_methods upd_methods id p f).
Proof. intros s Hs. unfold exec, update_where. repeat case_match; (split; [by wf_tables Hs|done]). Qed.
Lemma untouched_mguard b code d : untouched (mguard b code d).
Proof. intros s Hs. unfold mguard. by destruct b. Qed.
Lemma untouched_rules o : untouched (bonus_rules o).
Proof. intros s Hs. split; [by apply wf_rules_upd|done]. Qed.

Lemma untouched_settings o : untouched (portal_settings o).
Proof. intros s Hs. split; [by apply wf_get_or_create|done]. Qed.

Ltac untouched := repeat first
  [ apply untouched_bind | apply untouched_pure | apply untouched_transaction | apply untouched_methods | apply untouched_accounts
  | apply untouched_insert_method | apply untouched_update_method | apply untouched_mguard | apply untouched_rules | apply untouched_settings
  | match goal with |- forall _, untouched _ => intros ? end | case_match ].

Lemma silent_method org id : silent (_method_row org id).
Proof. apply silent_bind; [apply silent_query|]. by intros [|]. Qed.
Lemma silent_audit_method ctx : silent (_audit_method ctx).
Proof. apply silent_audit. Qed.
#[export] Hint Resolve silent_method silent_audit_method : copier.

Lemma create_method_safe o u body s : psafe (create_method o u body) s.
Proof.
  unfold create_method. do 3 (apply safe_silent; [by eauto with copier|]; intros ? ? _).
  destruct a1 as [[[[[label currency] details] min_amount] fee_pct] instructions].
  apply safe_silent; [apply silent_stmt; untouched|]. intros row s4 _. apply safe_tail, silent_audit_method.
Qed.

Lemma update_method_safe o u id body s : psafe (update_method o u id body) s.
Proof.
  unfold update_method. do 3 (apply safe_silent; [by eauto with copier|]; intros ? ? _).
  destruct a1 as [[[[[label currency] details] min_amount] fee_pct] instructions]. destruct (patch_empty body); [done|].
  apply safe_silent; [apply silent_stmt; untouched|]. intros row s4 _. apply safe_tail, silent_audit_method.
Qed.

Lemma wf_map_deposits s f :
  wf s -> (forall r, dp_amount (f r) = dp_amount r) -> (forall r, dp_fee (f r) = dp_fee r) -> wf (upd_deposits (map_rows f) s).
Proof.
  intros Hs Ha Hf. pose proof (wf_deposit_amounts s Hs) as Hd. wf_tables Hs.
  apply map_Forall_fmap. eapply map_Forall_impl; [exact Hd|]. intros k r H. simpl. by rewrite Ha, Hf.
Qed.

Lemma wf_map_transfers s f :
  wf s -> (forall r, tr_amount (f r) = tr_amount r) -> (forall r, tr_equity (f r) = tr_equity r) -> wf (upd_transfers (map_rows f) s).
Proof.
  intros Hs Ha Hf. pose proof (wf_transfer_amounts s Hs) as Hd. pose proof (wf_equities s Hs) as Hq. wf_tables Hs;
    apply map_Forall_fmap.
  - eapply map_Forall_impl; [exact Hd|]. intros k r H. simpl. by rewrite Ha.
  - eapply map_Forall_impl; [exact Hq|]. intros k r H q. simpl. rewrite Hf. apply H.
Qed.

Lemma delete_method_good o id s :
  wf s -> good s (exec (let! row := gets (org_row p_methods me_org o id) in
        match row with
        | Some _ => modify (fun s => upd_deposits (map_rows (dp_detach_method id)) (upd_methods (drop_row id) s))
        | None => ret tt
        end) s).
Proof.
  intros Hs. unfold exec, bind, gets. destruct (org_row _ _ _ _ _); simpl; [|by apply good_refl].
  split; [done|]. split; [|intros _ _; apply rtc_once, MDetachMethod].
  apply (wf_map_deposits (upd_methods (drop_row id) s)); [|done|done]. by wf_tables Hs.
Qed.

Lemma delete_method_safe o u id s : psafe (delete_method o u id) s.
Proof.
  unfold delete_method. do 4 (apply safe_silent; [by eauto with copier|]; intros ? ? _).
  apply safe_bind, wp_good. intros t _ [Hwf _]. split; [by apply delete_method_good|].
  destruct (value _ _); [|done]. apply silent_safe, silent_audit_method.
Qed.

Lemma put_settings_safe o u body s : psafe (put_settings o u body) s.
Proof.
  unfold put_settings. do 2 (apply safe_silent; [by eauto with copier|]; intros ? ? _). destruct a0 as [withdrawal_min fee_pct].
  apply safe_bind, wp_settings. intros current s3 _ _.
  apply safe_silent; [by destruct (sb_max_live_accounts body); try done; case_match|]. intros cap s4 _.
  apply safe_silent; [|intros row s5 _; apply safe_tail, silent_audit].
  apply silent_stmt, untouched_bind; [apply untouched_pure|]. intros m. apply untouched_bind; [apply untouched_pure|].
  intros p. destruct (settings_checks _) eqn:E; [|apply untouched_pure]. intros t Ht. split; [|done]. simpl.
  pose proof (wf_settings t Ht) as Hset. wf_tables Ht. intros k r. destruct (decide (k = o)) as [->|].
  - rewrite lookup_alter_eq. destruct (p_settings t !! o); simpl; [|done]. by intros [= <-].
  - rewrite lookup_alter_ne by done. apply Hset.
Qed.

Lemma put_rules_safe o u body s : psafe (put_rules o u body) s.
Proof.
  apply silent_safe. unfold put_rules. do 2 (apply silent_bind; [by eauto with copier|]; intros ?).
  apply silent_bind; [apply silent_stmt, untouched_rules|]. intros _. apply silent_bind.
  - apply silent_stmt. untouched. intros t Ht. split; [by apply wf_rules_upd|done].
  - intros _. apply silent_bind; [apply silent_stmt, untouched_rules|]. intros out. apply silent_bind; [apply silent_audit|done].
Qed.

(** *** Decisions *)

Lemma status_in_elem allowed text st : status_in allowed text = Some st -> st ∈ allowed.
Proof.
  unfold status_in. intros H%od_get_Some_in. apply list_elem_of_fmap in H as (x & Hx & Hin). by simplify_eq.
Qed.

#[local] Opaque dec_sub.
Lemma credited_amount_ok c raw d :
  0 < dp_amount c < 10 ^ 14 -> Z.abs (dp_fee c) < 10 ^ 18 -> credited_amount c raw = Ok d -> decision_ok c SConfirmed (Some d).
Proof.
  intros Ha Hf H. unfold credited_amount in H. destruct (as_400 _) as [x|] eqn:E; [|done]. apply as_400_ok in E. simpl in H.
  assert (exists k, has_cents x k) as [k Hk].
  { destruct raw; try (destruct (parse_amount_spec _ _ _ E) as (k & ? & _); by exists k). injection E as <-.
    eexists. apply is_dec_sub; [apply has_cents_of_cents..|unfold PREC; lia]. }
  rewrite (is_dec_leb x (Dec 0 0) k 0 (-2)) in H by (done || apply is_dec_zero).
  rewrite (is_dec_ltb _ x (dp_amount c) k (-2)) in H by (done || apply has_cents_of_cents).
  destruct (Z.leb_spec k 0); [done|]. destruct (Z.ltb_spec (dp_amount c) k); [done|]. injection H as <-.
  split; [done|]. exists k. split; [done|]. lia.
Qed.
#[local] Transparent dec_sub.

Lemma decide_deposit_safe o u id body s : psafe (decide_deposit o u id body) s.
Proof.
  unfold decide_deposit. apply safe_silent; [by eauto with copier|]. intros ctx s1 _.
  destruct (status_in _ _) as [st|] eqn:Est; [|done]. apply status_in_elem in Est.
  apply safe_silent; [by eauto with copier|]. intros note s2 _. apply safe_query. intros s3 _ Hs3.
  destruct (org_row _ _ _ _ _) as [c|] eqn:Ec; [|done]. apply org_row_Some in Ec as [Hc _]. apply safe_guard. intros _.
  apply safe_bind. eapply wp_mono with (Q := fun r s' => later s3 s' /\ match r with Ok d => decision_ok c st d | Raise _ => True end).
  - intros [d|] s4 [Hl4 Hd]; [|done]. apply safe_transaction; [apply deposit_grows| |].
    + intros s5 a s6 Hl5 [Hwf _] H. eapply deposit_block_good; [done| |done|done]. intros Hsm.
      apply (stale_deposit s3); [done|done|by trans s4|done].
    + intros [[row linked] bonus] s5 _. do 2 (apply safe_silent; [by eauto with copier|]; intros ? ? _).
      apply safe_tail. destruct bonus; [apply silent_announce|done].
  - destruct (wf_deposit_amounts s3 (proj1 Hs3) id c Hc) as [Ha Hf]. case_bool_decide as E.
    + apply wp_of_result. split; [reflexivity|]. destruct (credited_amount c _) as [d|] eqn:Ed; simpl; [|done].
      rewrite E. by eapply credited_amount_ok.
    + simpl. split; [reflexivity|]. set_solver.
Qed.

Lemma decide_withdrawal_safe o u id body s : psafe (decide_withdrawal o u id body) s.
Proof.
  unfold decide_withdrawal. apply safe_silent; [by eauto with copier|]. intros ctx s1 _.
  destruct (status_in _ _) as [st|] eqn:Est; [|done]. apply status_in_elem in Est.
  apply safe_silent; [by eauto with copier|]. intros note s2 _. apply safe_query. intros s3 _ Hs3.
  destruct (org_row _ _ _ _ _) as [c|] eqn:Ec; [|done]. apply safe_guard. intros Ht. apply safe_update.
  - intros s4 r _ [Hwf _] Hr Hg. eapply move_withdrawal_good; try done. intros ->. set_solver.
  - intros row s4 _. apply safe_silent; [by eauto with copier|]. intros _ s5 _. apply safe_tail, silent_notify.
Qed.

Lemma mark_withdrawal_paid_safe o u id txid s : psafe (mark_withdrawal_paid o u id txid) s.
Proof.
  unfold mark_withdrawal_paid. do 2 (apply safe_silent; [by eauto with copier|]; intros ? ? _). apply safe_query. intros s3 _ Hs3.
  destruct (org_row _ _ _ _ _) as [c|] eqn:Ec; [|done]. apply org_row_Some in Ec as [Hc _]. apply safe_guard. intros _.
  apply safe_transaction; [apply paid_grows| |].
  - intros s4 x s5 Hl [Hwf _] H. eapply paid_block_good; [done| |done]. intros Hsm. by apply (stale_withdrawal s3).
  - intros row s4 _. apply safe_silent; [by eauto with copier|]. intros _ s5 _. apply safe_tail, silent_notify.
Qed.

Lemma decide_destination_safe o u id body s : psafe (decide_destination o u id body) s.
Proof.
  apply silent_safe. unfold decide_destination. apply silent_bind; [by eauto with copier|]. intros ctx.
  destruct (status_in _ _); [|done]. apply silent_bind; [by eauto with copier|]. intros note.
  apply silent_bind; [apply silent_query|]. intros [c|]; [|done].
  repeat (apply silent_bind; [by eauto using silent_update_destination with copier|intros ?]). done.
Qed.

Lemma decide_transfer_safe o u id body s : psafe (decide_transfer o u id body) s.
Proof.
  unfold decide_transfer. apply safe_silent; [by eauto with copier|]. intros ctx s1 _.
  destruct (status_in _ _) as [st|] eqn:Est; [|done].
  apply safe_silent; [by eauto with copier|]. intros note s2 _. apply safe_query. intros s3 _ Hs3.
  destruct (org_row _ _ _ _ _) as [c|] eqn:Ec; [|done]. apply org_row_Some in Ec as [Hc _]. apply safe_guard. intros Ht.
  apply safe_transaction; [apply decision_grows| |].
  - intros s4 x s5 Hl [Hwf _] H. eapply transfer_decision_good; [done| |done|done]. intros Hsm. by apply (stale_transfer s3).
  - intros row s4 _. apply safe_silent; [by eauto with copier|]. intros _ s5 _. apply safe_tail, silent_notify.
Qed.

(** *** Accounts *)

Lemma link_investor_account_safe o u user a s : psafe (link_investor_account o u user a) s.
Proof.
  unfold link_investor_account. do 2 (apply safe_silent; [by eauto with copier|]; intros ? ? _).
  apply safe_silent; [|intros _ s3 _; apply silent_safe, silent_audit].
  apply silent_stmt. unfold link_account. untouched.
Qed.

Lemma unlink_investor_account_safe o u user a s : psafe (unlink_investor_account o u user a) s.
Proof.
  unfold unlink_investor_account. do 2 (apply safe_silent; [by eauto with copier|]; intros ? ? _).
  apply safe_silent; [|intros _ s3 _; apply silent_safe, silent_audit].
  apply silent_stmt. unfold unlink_block. untouched.
Qed.

Lemma delete_account_good a s : wf s -> good s (delete_account a s).
Proof.
  intros Hs. split; [done|]. split; [|intros _ _; apply rtc_once, MDetachAccount].
  apply wf_map_transfers; [|done|done]. apply wf_map_deposits; [|done|done]. by wf_tables Hs.
Qed.

Lemma silent_audit_plain o actor action a : silent (audit o actor action a).
Proof. unfold audit. silent_field. Qed.

Lemma remove_mt5_account_safe o u a s : psafe (remove_mt5_account o u a) s.
Proof.
  unfold remove_mt5_account. apply safe_silent; [by eauto with copier|]. intros ctx s1 _.
  apply safe_query. intros s2 _ _. destruct (p_accounts s2 !! a) as [r|]; [|done]. do 3 (apply safe_guard; intros _).
  apply safe_bind, wp_good. intros s3 _ [Hwf _]. split.
  2: { destruct (value _ _); [|done]. apply safe_guard. intros _. apply silent_safe, silent_audit_plain. }
  unfold exec, bind, gets. destruct (p_accounts s3 !! a); simpl; [|by apply good_refl].
  case_match; simpl; [by apply delete_account_good|by apply good_refl].
Qed.

(** *** Adjustments and bonuses *)

Lemma parse_signed_spec raw d : parse_signed_amount raw = Ok d -> exists c, has_cents d c /\ Z.abs c < 10 ^ 14.
Proof.
  unfold parse_signed_amount. intros H. destruct (_ && negb (SIGNED_AMOUNT _)); [done|]. destruct (_ && reads_zero _); [done|].
  destruct (as_400 _) as [m|] eqn:E; [|done]. apply as_400_ok, parse_amount_spec in E as (c & Hc & Hb). simpl in H. injection H as <-.
  case_match; [exists (- c)|exists c]; (split; [by try apply is_dec_neg|lia]).
Qed.

Lemma post_adjustment_safe verify o u user body s : psafe (post_adjustment verify o u user body) s.
Proof.
  unfold post_adjustment. apply safe_silent; [by eauto with copier|]. intros ctx s1 _. apply safe_mpin. intros s2 _.
  apply safe_silent; [by eauto with copier|]. intros email s3 _. destruct (wallet_of_name _) as [w|]; [|done].
  do 2 (apply safe_silent; [by eauto with copier|]; intros ? ? _). apply safe_transaction; [apply adjustment_grows| |].
  - intros s5 v s6 _ [Hwf _] H. by eapply adjustment_block_good.
  - intros row s5 _. apply safe_silent; [by eauto with copier|]. intros _ s6 _. apply safe_tail, silent_notify.
Qed.

Lemma grant_bonus_safe verify o u user body s : psafe (grant_bonus verify o u user body) s.
Proof.
  unfold grant_bonus. apply safe_silent; [by eauto with copier|]. intros ctx s1 _. apply safe_mpin. intros s2 _.
  apply safe_silent; [by eauto with copier|]. intros email s3 _. apply safe_pure. intros amount (c & Hc & Hb)%parse_signed_spec.
  apply safe_silent; [by eauto with copier|]. intros note s4 _. apply safe_transaction; [apply grant_grows| |].
  - intros s5 v s6 _ [Hwf _] H. by eapply grant_block_good.
  - intros row s5 _. apply safe_tail, silent_announce.
Qed.

Lemma rule_block_good o u source s v s2 :
  wf s -> (let! amount := rule_bonus o source None in pay_bonus o u source amount None None None) s = (Ok v, s2) -> good s s2.
Proof.
  intros Hwf H. apply bind_inv in H as (d & s1 & H1 & H2).
  assert (source <> BManual) as Hne by (intros ->; discriminate H1).
  apply rule_bonus_quiet in H1 as ->.
  eapply good_trans; [|eapply pay_bonus_good; [by apply wf_rules_upd|by intros c Hc E|exact H2]].
  by apply good_same; [|apply wf_rules_upd|].
Qed.

Lemma award_rule_bonus_safe o u source actor s : psafe (award_rule_bonus o u source actor) s.
Proof.
  apply safe_catch, wp_bind, wp_good. intros s1 _ Hs1.
  assert (good s1 (exec (transaction (let! amount := rule_bonus o source None in pay_bonus o u source amount None None None)) s1)) as Hg.
  { apply transaction_good; [|apply Hs1|].
    - apply (respects_bind nexts_le); [apply rule_bonus_grows|]. intros d. apply pay_bonus_grows.
    - intros v s2. apply rule_block_good, Hs1. }
  split; [done|]. destruct (value _ _) as [[id|]|e]; [|done|done].
  apply wp_bind, wp_silent; [by destruct actor; eauto with copier|]. intros [email|] s2 _; [|done].
  apply wp_bind, wp_silent; [apply silent_announce|]. by intros [] s3 _.
Qed.
