(* ===== verification/PortalRuns.v ===== *)
(** * Runs of the client portal

    The portal's requests as one type, a pool of them run under any schedule of
    their statements, and what holds of the books at every point of such a run:
    the specification of [PortalBooks.v] is refined, the wallets agree with the
    requests and stay solvent, rows only move forward, an answer always comes. *)

From S2P Require Import Prelude PyStr PyDecimal PyFloat PyRepr PyDecOps Models Db PyJson Limiter PortalLedger Mpin Prog PortalDb.
From S2P Require Import PortalCommon PortalInvestor PortalAdmin PortalBooks PortalSim PortalFacts.

(** ** Requests *)

Inductive request :=
  (* the investor's routes *)
  | FileDeposit (o u : Z) (body : DepositNotice)
  | CancelDeposit (o u id : Z)
  | AddDestination (o u : Z) (body : DestinationBody)
  | RemoveDestination (o u id : Z)
  | RequestWithdrawal (o u : Z) (body : WithdrawalRequest)
  | CancelWithdrawal (o u id : Z)
  | RequestTransfer (copier : option json) (o u : Z) (body : TransferRequest)
  | CancelTransfer (o u id : Z)
  (* the desk's routes *)
  | CreateMethod (o u : Z) (body : MethodBody)
  | UpdateMethod (o u id : Z) (body : MethodPatch)
  | DeleteMethod (o u id : Z)
  | PutSettings (o u : Z) (body : SettingsBody)
  | DecideDeposit (o u id : Z) (body : DepositDecision)
  | DecideWithdrawal (o u id : Z) (body : DecisionBody)
  | MarkWithdrawalPaid (o u id : Z) (txid : string)
  | DecideDestination (o u id : Z) (body : DecisionBody)
  | DecideTransfer (o u id : Z) (body : DecisionBody)
  | LinkAccount (o u investor account : Z)
  | UnlinkAccount (o u investor account : Z)
  | RemoveMt5Account (o u account : Z)
  | PostAdjustment (o u investor : Z) (body : AdjustmentBody)
  | PutRules (o u : Z) (body : RulesBody)
  | GrantBonus (o u investor : Z) (body : GrantBody)
  (* the bonus of a signup or of an accepted identity *)
  | AwardBonus (o u : Z) (source : bonus_source) (actor : option string)
  (* a cTrader account that is disconnected *)
  | AccountGone (account : Z)
  (* what the rest of the system changes: members, MPINs, accounts, files, clocks *)
  | Elsewhere (members : gmap (Z * Z) member_role) (emails : gmap Z string) (mpin : users) (accounts : gmap Z account_row)
      (equity : gmap Z float64) (files : gmap Z file_row) (other_files : gset Z) (api_now db_now : Z).

(** The part of the state that is not the portal's own. *)
Definition elsewhere members emails mpin accounts equity files other_files api_now db_now (s : portal) : portal :=
  {| p_members := members; p_emails := emails; p_mpin := mpin; p_accounts := accounts; p_mt5_equity := equity;
     p_files := files; p_other_files := other_files; p_settings := p_settings s; p_rules := p_rules s;
     p_methods := p_methods s; p_destinations := p_destinations s; p_entries := p_entries s; p_deposits := p_deposits s;
     p_withdrawals := p_withdrawals s; p_transfers := p_transfers s; p_bonuses := p_bonuses s; p_events := p_events s;
     p_notices := p_notices s; p_hourly := p_hourly s; p_api_now := api_now; p_db_now := db_now |}.

(** The answer's body is of no interest here. *)
Definition forget {A} (p : route A) : route unit := p >>> Ret tt.

Section runs.
Context (verify : string -> string -> bool).

Definition serve (r : request) : route unit :=
  match r with
  | FileDeposit o u body => forget (file_deposit o u body)
  | CancelDeposit o u id => forget (cancel_deposit o u id)
  | AddDestination o u body => forget (add_destination verify o u body)
  | RemoveDestination o u id => forget (remove_destination o u id)
  | RequestWithdrawal o u body => forget (request_withdrawal verify o u body)
  | CancelWithdrawal o u id => forget (cancel_withdrawal o u id)
  | RequestTransfer copier o u body => forget (request_transfer verify copier o u body)
  | CancelTransfer o u id => forget (cancel_transfer o u id)
  | CreateMethod o u body => forget (create_method o u body)
  | UpdateMethod o u id body => forget (update_method o u id body)
  | DeleteMethod o u id => forget (delete_method o u id)
  | PutSettings o u body => forget (put_settings o u body)
  | DecideDeposit o u id body => forget (decide_deposit o u id body)
  | DecideWithdrawal o u id body => forget (decide_withdrawal o u id body)
  | MarkWithdrawalPaid o u id txid => forget (mark_withdrawal_paid o u id txid)
  | DecideDestination o u id body => forget (decide_destination o u id body)
  | DecideTransfer o u id body => forget (decide_transfer o u id body)
  | LinkAccount o u i a => forget (link_investor_account o u i a)
  | UnlinkAccount o u i a => forget (unlink_investor_account o u i a)
  | RemoveMt5Account o u a => forget (remove_mt5_account o u a)
  | PostAdjustment o u i body => forget (post_adjustment verify o u i body)
  | PutRules o u body => forget (put_rules o u body)
  | GrantBonus o u i body => forget (grant_bonus verify o u i body)
  | AwardBonus o u source actor => forget (award_rule_bonus o u source actor)
  | AccountGone a => stmt (modify (delete_account a))
  | Elsewhere ms es mp acs eq fs ofs an dn => stmt (modify (elsewhere ms es mp acs eq fs ofs an dn))
  end.

(** The state after a schedule: entry [i] lets request [i] run one statement or
    one transaction. *)
Definition run_portal (rs : list request) (schedule : list nat) (s : portal) : portal :=
  (run_pool schedule (serve <$> rs, s)).2.

(** A portal before its first request. *)
Definition opening (s : portal) : Prop :=
  books_of s = Build_books ∅ ∅ ∅ ∅ ∅ /\ map_Forall (fun _ r => settings_checks r = true) (p_settings s) /\
  1 <= next_id (p_entries s) /\ 1 <= next_id (p_deposits s) /\ 1 <= next_id (p_withdrawals s) /\
  1 <= next_id (p_transfers s) /\ 1 <= next_id (p_bonuses s).

Lemma forget_safe {A} (p : route A) s : psafe p s -> psafe (forget p) s.
Proof. intros H. apply safe_bind. eapply wp_mono; [|exact H]. by intros [a|e] t. Qed.

Lemma serve_safe r s : psafe (serve r) s.
Proof.
  destruct r; try apply forget_safe.
  - apply file_deposit_safe.
  - apply cancel_deposit_safe.
  - apply silent_safe, add_destination_silent.
  - apply silent_safe, remove_destination_silent.
  - apply request_withdrawal_safe.
  - apply cancel_withdrawal_safe.
  - apply request_transfer_safe.
  - apply cancel_transfer_safe.
  - apply create_method_safe.
  - apply update_method_safe.
  - apply delete_method_safe.
  - apply put_settings_safe.
  - apply decide_deposit_safe.
  - apply decide_withdrawal_safe.
  - apply mark_withdrawal_paid_safe.
  - apply decide_destination_safe.
  - apply decide_transfer_safe.
  - apply link_investor_account_safe.
  - apply unlink_investor_account_safe.
  - apply remove_mt5_account_safe.
  - apply post_adjustment_safe.
  - apply put_rules_safe.
  - apply grant_bonus_safe.
  - apply award_rule_bonus_safe.
  - apply wp_good. intros t _ [Hwf _]. split; [by apply delete_account_good|done].
  - apply wp_good. intros t _ [Hwf _]. split; [|done]. apply good_same; [done| |done]. destruct Hwf. by split.
Qed.

Lemma empty_in_order : in_order (Build_books ∅ ∅ ∅ ∅ ∅).
Proof.
  split; try apply map_Forall_empty; [by intros o u []..| | |].
  - intros o u a k x j y H. cbn in H. by rewrite lookup_empty in H.
  - intros k x j y H. cbn in H. by rewrite lookup_empty in H.
  - intros k x j y H. cbn in H. by rewrite lookup_empty in H.
Qed.

Lemma empty_table_wf {A} (t : table A) : rows t = ∅ -> 1 <= next_id t -> table_wf t.
Proof. intros E H. split; [done|]. rewrite E. intros k [x Hx]. by rewrite lookup_empty in Hx. Qed.

Lemma opening_sound s : opening s -> sound s.
Proof.
  intros (Hb & Hset & H1 & H2 & H3 & H4 & H5). split; [|intros _; rewrite Hb; apply empty_in_order].
  injection Hb as E1 E2 E3 E4 E5. split; try done; try by apply empty_table_wf.
  all: rewrite ?E1, ?E2, ?E3, ?E4; apply map_Forall_empty.
Qed.

(** Every point of a run is sound, and later than every point before it. *)
Lemma run_sound rs schedule s : sound s -> sound (run_portal rs schedule s) /\ later s (run_portal rs schedule s).
Proof.
  intros Hs. destruct (run_pool_safe sound later schedule (serve <$> rs) s Hs) as (H1 & H2 & _); [|done].
  apply Forall_fmap, Forall_forall. intros r _. apply serve_safe.
Qed.

Lemma run_in_order rs schedule s :
  opening s -> small (run_portal rs schedule s) -> in_order (books_of (run_portal rs schedule s)).
Proof. intros Ho%opening_sound Hsm. destruct (run_sound rs schedule s Ho) as [[_ H] _]. by apply H. Qed.
End runs.

(** ** A worked day *)

Module Demo.
Definition same_pin (hash guess : string) : bool := bool_decide (hash = guess).

Definition day : portal :=
  {| p_members := {[ (1, 10) := RAdmin; (1, 20) := RInvestor ]};
     p_emails := {[ 10 := "desk@x.io"; 20 := "ann@x.io" ]};
     p_mpin := {[ 20 := {| u_mpin_hash := Some "123456"; u_failed := 0; u_locked_until := None |} ]};
     p_accounts := {[ 77 := {| ac_org := 1; ac_investor := Some 20; ac_role := "slave"; ac_platform := "mt5" |} ]}; p_mt5_equity := ∅; p_files := ∅; p_other_files := ∅; p_settings := ∅;
     p_rules := {[ 1 := {| ru_signup_enabled := false; ru_signup_amount := 0; ru_kyc_enabled := false; ru_kyc_amount := 0;
                          ru_deposit_enabled := true; ru_deposit_pct := 10000; ru_deposit_cap := None |} ]};
     p_methods := {| rows := {[ 1 := {| me_org := 1; me_kind := "crypto"; me_label := "USDT"; me_enabled := true;
                                        me_currency := "USD"; me_details := []; me_min_amount := 0; me_fee_pct := 1000;
                                        me_instructions := None; me_sort_order := 0 |} ]}; next_id := 2 |};
     p_destinations := {| rows := {[ 1 := {| de_org := 1; de_user := 20; de_kind := "crypto"; de_nickname := "cold";
                                             de_details := []; de_proof := None; de_status := SApproved;
                                             de_decided_by := Some 10; de_decision_note := None |} ]}; next_id := 2 |};
     p_entries := {| rows := ∅; next_id := 1 |}; p_deposits := {| rows := ∅; next_id := 1 |};
     p_withdrawals := {| rows := ∅; next_id := 1 |}; p_transfers := {| rows := ∅; next_id := 1 |};
     p_bonuses := {| rows := ∅; next_id := 1 |}; p_events := []; p_notices := []; p_hourly := hourly_init;
     p_api_now := 0; p_db_now := 0 |}.

Definition sixty : WithdrawalRequest := {| wr_destination_id := 1; wr_amount := JStr "60.00"; wr_mpin := JStr "123456" |}.

(** What the copier reports of the account, and the two ways across it. *)
Definition state : option json := Some (JObj [("accounts", JObj [("77", JObj [("equity", JInt 1000)])])]).
Definition account : MoneyRef := {| mr_kind := "account"; mr_wallet := None; mr_account_id := Some 77 |}.
Definition wallet (w : string) : MoneyRef := {| mr_kind := "wallet"; mr_wallet := Some w; mr_account_id := None |}.
Definition five (source target : MoneyRef) : TransferRequest :=
  {| tq_source := source; tq_target := target; tq_amount := JStr "5.00"; tq_mpin := JStr "123456" |}.

(** A deposit is confirmed, two withdrawals race for the same money, the one
    that was taken is approved and paid; then bonus credit into the account
    races with money out of it. *)
Definition pool : list request :=
  [ FileDeposit 1 20 {| dn_method_id := 1; dn_amount := JStr "100.00"; dn_reference := "tx-1"; dn_receipt := None;
                        dn_target := "wallet"; dn_target_account := None; dn_note := None |};
    DecideDeposit 1 10 1 {| dd_status := "confirmed"; dd_credited_amount := JNull; dd_note := None |};
    RequestWithdrawal 1 20 sixty; RequestWithdrawal 1 20 sixty;
    DecideWithdrawal 1 10 1 {| dc_status := "approved"; dc_note := None |};
    MarkWithdrawalPaid 1 10 1 "0xabc";
    RequestTransfer state 1 20 (five (wallet "credit") account); RequestTransfer state 1 20 (five account (wallet "main")) ].

Definition schedule : list nat :=
  replicate 12 0%nat ++ replicate 12 1%nat ++ concat (replicate 14 [2; 3]%nat) ++ replicate 8 4%nat ++ replicate 8 5%nat ++
  concat (replicate 14 [6; 7]%nat).
End Demo.

Lemma demo_day_opening : opening Demo.day.
Proof. split; [done|]. split; [apply map_Forall_empty|]. by vm_compute. Qed.

Lemma demo_day_small : small (run_portal Demo.same_pin Demo.pool Demo.schedule Demo.day).
Proof. by vm_compute. Qed.

Example demo_day :
  let s := run_portal Demo.same_pin Demo.pool Demo.schedule Demo.day in
  bal (books_of s) 1 20 WMain = 3900 /\ bal (books_of s) 1 20 WCredit = 990 /\
  (wd_status <$> rows (p_withdrawals s)) = {[ 1 := SPaid ]} /\
  ((fun r => (tr_source r, tr_target r, tr_status r)) <$> rows (p_transfers s)) =
    {[ 1 := (TWallet WCredit, TAccount (Some 77), SRequested) ]}.
Proof. vm_compute. done. Qed.

(** ** What holds in every run *)

(** C4: however the statements of any set of requests interleave, the tables
    change only by the moves of the specification: every ledger row belongs to
    a settled request, every request has the money or the equity it needs when
    it is taken, and a status changes only along its state machine. *)
Theorem portal_refines verify rs schedule s :
  opening s -> small (run_portal verify rs schedule s) -> rtc move (books_of s) (books_of (run_portal verify rs schedule s)).
Proof.
  intros Ho Hsm. pose proof (opening_sound s Ho) as Hs. destruct (run_sound verify rs schedule s Hs) as [_ [Hn Hm]].
  apply Hm; [done|]. apply Hs. by eapply small_le.
Qed.

Lemma portal_refines_witness :
  rtc move (books_of Demo.day) (books_of (run_portal Demo.same_pin Demo.pool Demo.schedule Demo.day)).
Proof. apply portal_refines; [exact demo_day_opening|exact demo_day_small]. Defined.

(** C2: at every point of every run the figures the portal shows are exact: a
    wallet's available money is its ledger balance less its holds, and it is
    never below zero by more than the desk itself took with adjustments.  Two
    requests never spend the same money. *)
Theorem wallets_solvent verify rs schedule s o u :
  opening s -> small (run_portal verify rs schedule s) ->
  let s' := run_portal verify rs schedule s in
  exists f, wallet_figures o u s' = Ok f /\
    forall w, fg_available (f w) = of_cents (bal (books_of s') o u w - hold (books_of s') o u w) /\
              - overdraft (books_of s') o u w <= bal (books_of s') o u w - hold (books_of s') o u w.
Proof.
  intros Ho Hsm s'. destruct (run_sound verify rs schedule s (opening_sound s Ho)) as [[Hwf _] _].
  destruct (figures_exact o u s' Hwf Hsm) as (f & Hf & Hav). exists f. split; [done|]. intros w. split; [apply Hav|].
  by apply io_solvent, run_in_order.
Qed.

Lemma wallets_solvent_witness :
  let s' := run_portal Demo.same_pin Demo.pool Demo.schedule Demo.day in
  exists f, wallet_figures 1 20 s' = Ok f /\
    forall w, fg_available (f w) = of_cents (bal (books_of s') 1 20 w - hold (books_of s') 1 20 w) /\
              - overdraft (books_of s') 1 20 w <= bal (books_of s') 1 20 w - hold (books_of s') 1 20 w.
Proof. apply (wallets_solvent Demo.same_pin Demo.pool Demo.schedule Demo.day 1 20); [exact demo_day_opening|exact demo_day_small]. Defined.

(** C5: at every point of every run the ledger agrees with the requests: a
    wallet's balance is what its confirmed deposits credited, less its paid
    withdrawals, plus and less its settled transfers, plus its bonuses and
    adjustments.  No request is settled twice and none is lost. *)
Theorem ledger_matches_requests verify rs schedule s o u w :
  opening s -> small (run_portal verify rs schedule s) ->
  bal (books_of (run_portal verify rs schedule s)) o u w = requested_balance (books_of (run_portal verify rs schedule s)) o u w.
Proof. intros Ho Hsm. by apply io_balance, run_in_order. Qed.

Lemma ledger_matches_requests_witness :
  requested_balance (books_of (run_portal Demo.same_pin Demo.pool Demo.schedule Demo.day)) 1 20 WMain = 3900.
Proof. rewrite <- ledger_matches_requests; [by vm_compute|exact demo_day_opening|exact demo_day_small]. Defined.

(** Between any two points of a run the ledger only grows, no request
    disappears or changes its owner or amount, and its status moves along its
    state machine; a decided deposit keeps what it credited. *)
Theorem books_only_move_on verify rs sch1 sch2 s :
  opening s -> small (run_portal verify rs (sch1 ++ sch2) s) ->
  history (books_of (run_portal verify rs sch1 s)) (books_of (run_portal verify rs (sch1 ++ sch2) s)).
Proof.
  intros Ho Hsm. pose proof (opening_sound s Ho) as Hs.
  destruct (run_pool_safe sound later sch1 (serve verify <$> rs) s Hs) as (H1 & _ & H3).
  { apply Forall_fmap, Forall_forall. intros r _. apply serve_safe. }
  unfold run_portal, run_pool in *. rewrite foldl_app in *. fold (run_pool sch1 (serve verify <$> rs, s)) in *.
  destruct (run_pool sch1 (serve verify <$> rs, s)) as [ps t]. simpl in *.
  destruct (run_pool_safe sound later sch2 ps t H1 H3) as (_ & Hl & _). unfold run_pool in Hl. simpl in Hl. by apply stale.
Qed.

Lemma books_only_move_on_witness :
  history (books_of (run_portal Demo.same_pin Demo.pool (take 40 Demo.schedule) Demo.day))
          (books_of (run_portal Demo.same_pin Demo.pool (take 40 Demo.schedule ++ drop 40 Demo.schedule) Demo.day)).
Proof. apply books_only_move_on; [exact demo_day_opening|by vm_compute]. Defined.

(** At no point of any run is bonus credit on its way into a trading
    account while money is on its way out of it, so the credit an account was
    funded with is known whenever a transfer out is judged. *)
Theorem credit_and_outflow_exclude verify rs schedule s :
  opening s -> small (run_portal verify rs schedule s) ->
  forall o u a k x j y, rows (p_transfers (run_portal verify rs schedule s)) !! k = Some x ->
    rows (p_transfers (run_portal verify rs schedule s)) !! j = Some y ->
    credit_into o u a x && open_transfer x = true -> out_of_account o u a y = false.
Proof. intros Ho Hsm. by apply (io_exclusive _ (run_in_order verify rs schedule s Ho Hsm)). Qed.

Lemma demo_credit_under_way :
  exists x, rows (p_transfers (run_portal Demo.same_pin Demo.pool Demo.schedule Demo.day)) !! 1 = Some x /\
    credit_into 1 20 77 x && open_transfer x = true.
Proof. vm_compute. eexists. done. Qed.

Lemma credit_and_outflow_exclude_witness :
  exists x, rows (p_transfers (run_portal Demo.same_pin Demo.pool Demo.schedule Demo.day)) !! 1 = Some x /\
    credit_into 1 20 77 x && open_transfer x = true /\ out_of_account 1 20 77 x = false.
Proof.
  destruct demo_credit_under_way as (x & Hx & Hin). exists x. split; [exact Hx|]. split; [exact Hin|].
  exact (credit_and_outflow_exclude Demo.same_pin Demo.pool Demo.schedule Demo.day demo_day_opening demo_day_small
           1 20 77 1 x 1 x Hx Hx Hin).
Defined.

(** At every point of every run a rule has paid an investor at most once
    for the same cause, and two notices never claim the same payment: a live
    reference or a receipt file occurs once. *)
Theorem paid_and_claimed_once verify rs schedule s :
  opening s -> small (run_portal verify rs schedule s) ->
  let s' := run_portal verify rs schedule s in
  (forall k x j y, rows (p_bonuses s') !! k = Some x -> rows (p_bonuses s') !! j = Some y -> same_bonus x y = true -> k = j) /\
  (forall k x j y, rows (p_deposits s') !! k = Some x -> rows (p_deposits s') !! j = Some y -> clash x y -> k = j).
Proof.
  intros Ho Hsm s'. pose proof (run_in_order verify rs schedule s Ho Hsm) as H. split; [apply (io_once _ H)|apply (io_notices _ H)].
Qed.

Lemma paid_and_claimed_once_witness :
  let s' := run_portal Demo.same_pin Demo.pool Demo.schedule Demo.day in
  (forall k x j y, rows (p_bonuses s') !! k = Some x -> rows (p_bonuses s') !! j = Some y -> same_bonus x y = true -> k = j) /\
  (forall k x j y, rows (p_deposits s') !! k = Some x -> rows (p_deposits s') !! j = Some y -> clash x y -> k = j).
Proof. apply paid_and_claimed_once; [exact demo_day_opening|exact demo_day_small]. Defined.

(** ** Who may ask *)

(** The caller of a route and the role it takes. *)
Definition caller (r : request) : option (Z * Z * member_role) :=
  match r with
  | FileDeposit o u _ | CancelDeposit o u _ | AddDestination o u _ | RemoveDestination o u _ | RequestWithdrawal o u _
  | CancelWithdrawal o u _ | RequestTransfer _ o u _ | CancelTransfer o u _ => Some (o, u, RInvestor)
  | CreateMethod o u _ | UpdateMethod o u _ _ | DeleteMethod o u _ | PutSettings o u _ | DecideDeposit o u _ _
  | DecideWithdrawal o u _ _ | MarkWithdrawalPaid o u _ _ | DecideDestination o u _ _ | DecideTransfer o u _ _
  | LinkAccount o u _ _ | UnlinkAccount o u _ _ | RemoveMt5Account o u _ | PostAdjustment o u _ _ | PutRules o u _
  | GrantBonus o u _ _ => Some (o, u, RAdmin)
  | AwardBonus _ _ _ _ | AccountGone _ | Elsewhere _ _ _ _ _ _ _ _ _ => None
  end.

Lemma admin_first {A} o u (k : OrgContext -> route A) s :
  (forall e, membership o u s <> Some (RAdmin, e)) ->
  exists code detail, advance (forget (pbind (require_org_role RAdmin o u) k)) s = (Throw (HTTPException code detail), s) /\
    (code = 403 \/ code = 404).
Proof.
  intros H. unfold advance, forget, require_org_role, query, stmt, value, gets. simpl.
  destruct (membership o u s) as [[[] e]|]; simpl; eauto 6. by destruct (H e).
Qed.

Lemma investor_first {A} o u (k : OrgContext -> route A) s :
  (forall e, membership o u s <> Some (RInvestor, e)) ->
  exists code detail, advance (forget (pbind (require_investor o u) k)) s = (Throw (HTTPException code detail), s) /\
    (code = 403 \/ code = 404).
Proof.
  intros H. unfold advance, forget, require_investor, require_org_role, query, stmt, value, gets. simpl.
  destruct (membership o u s) as [[[] e]|]; simpl; eauto 6. by destruct (H e).
Qed.

(** The first statement of every route reads the caller's membership, and
    without the role the route takes it answers 403 or 404 and ends there, with
    the state as it was: the desk's routes need an admin of the workspace, the
    money routes its investor. *)
Theorem role_decides verify r s o u role :
  caller r = Some (o, u, role) -> (forall e, membership o u s <> Some (role, e)) ->
  exists code detail, advance (serve verify r) s = (Throw (HTTPException code detail), s) /\ (code = 403 \/ code = 404).
Proof.
  intros Hc H. destruct r; cbv [caller] in Hc; try discriminate Hc; injection Hc as <- <- <-;
    first [exact (investor_first _ _ _ _ H) | exact (admin_first _ _ _ _ H)].
Qed.

Lemma role_decides_witness :
  exists code detail, advance (serve Demo.same_pin (MarkWithdrawalPaid 1 20 1 "0xabc")) Demo.day =
    (Throw (HTTPException code detail), Demo.day) /\ (code = 403 \/ code = 404).
Proof.
  apply (role_decides Demo.same_pin (MarkWithdrawalPaid 1 20 1 "0xabc") Demo.day 1 20 RAdmin); [done|].
  intros e H. vm_compute in H. discriminate H.
Defined.

(** ** The MPIN *)

(** The MPIN a request carries, where its route asks for one. *)
Definition mpin_of (r : request) : option json :=
  match r with
  | AddDestination _ _ body => Some (db_mpin body)
  | RequestWithdrawal _ _ body => Some (wr_mpin body)
  | RequestTransfer _ _ _ body => Some (tq_mpin body)
  | PostAdjustment _ _ _ body => Some (ab_mpin body)
  | GrantBonus _ _ _ body => Some (gb_mpin body)
  | _ => None
  end.

(** A silent program whose answers are all in [Q]. *)
Fixpoint quiet {A} (Q : A -> Prop) (p : route A) : Prop :=
  match p with
  | Ret a => Q a
  | Throw _ => True
  | Step upd k => (forall s, wf s -> wf (upd s) /\ nexts_le s (upd s) /\ books_of (upd s) = books_of s) /\ (forall s, quiet Q (k s))
  end.

Lemma quiet_bind {A B} (Q : A -> Prop) (Q' : B -> Prop) (p : route A) (f : A -> route B) :
  quiet Q p -> (forall a, Q a -> quiet Q' (f a)) -> quiet Q' (pbind p f).
Proof.
  intros Hp Hf. induction p as [a|e|upd k IH]; simpl in *; [by apply Hf|done|]. destruct Hp as [? ?]. split; [done|].
  intros s. by apply IH.
Qed.

Lemma quiet_silent {A} (Q : A -> Prop) (p : route A) : quiet Q p -> silent p.
Proof. induction p as [a|e|upd k IH]; simpl; [done|done|]. intros [? ?]. split; [done|]. intros s. by apply IH. Qed.

(** With a guess no hash accepts the check does not pass. *)
Lemma quiet_refused verify fuel u m p :
  (forall h, verify h m = false) -> p <> Clearing -> p <> Done Passed ->
  quiet (fun r => r <> Passed) (mpin_steps verify fuel u m p).
Proof.
  intros Hv. revert p. induction fuel as [|n IH]; intros p Hc Hd; [destruct p; simpl; (done || congruence)|].
  destruct p; try done; try (simpl; congruence).
  all: split; [intros s Hs; split; [by wf_tables Hs|done]|]; intros s; apply IH; simpl;
    rewrite ?Hv; repeat case_match; simplify_eq; done.
Qed.

Definition guess_fails (verify : string -> string -> bool) (mpin : json) : Prop :=
  match mpin with JStr g => forall h, verify h g = false | _ => True end.

Lemma silent_with_mpin {A} verify u m (k : route A) : guess_fails verify m -> silent (with_mpin verify u m k).
Proof.
  intros H. apply (quiet_silent (fun _ => True)), (quiet_bind (fun f => f <> None)); [|by intros [f|] Hf].
  unfold require_mpin. destruct m; try done. case_match; [|done].
  eapply quiet_bind; [by apply quiet_refused|]. by intros [].
Qed.

Lemma serve_silent verify r m : mpin_of r = Some m -> guess_fails verify m -> silent (serve verify r).
Proof.
  intros Hm Hg. destruct r; try discriminate Hm; injection Hm as <-; (apply silent_bind; [|done]);
    (apply silent_bind; [by eauto with copier|]); intros ctx; by apply silent_with_mpin.
Qed.

(** A request that carries an MPIN no stored hash accepts, or none at all,
    never changes the books, whatever runs beside it and whatever point it has
    reached. *)
Theorem mpin_guards_money verify rs schedule s i r m :
  opening s -> rs !! i = Some r -> mpin_of r = Some m -> guess_fails verify m ->
  let w := run_pool schedule (serve verify <$> rs, s) in books_of (pool_step i w).2 = books_of w.2.
Proof.
  intros Ho%opening_sound Hi Hm Hg w.
  assert (Forall (fun p => psafe p s) (serve verify <$> rs)) as Hall.
  { apply Forall_fmap, Forall_forall. intros x _. apply serve_safe. }
  destruct (run_pool_index sound later (fun (p : route unit) _ => silent p) schedule i) with (ps := serve verify <$> rs) (s := s) (p := serve verify r)
    as (p & Hp & Hsilent); [done| |done|done| |by eapply serve_silent|].
  - intros [a|e|upd k] t _ _ H; [done|done|]. apply H.
  - by rewrite list_lookup_fmap, Hi.
  - fold w in Hp, Hsilent. destruct (run_pool_safe sound later schedule _ s Ho Hall) as ([Hwf _] & _ & _). fold w in Hwf.
    unfold pool_step. rewrite Hp. destruct p as [a|e|upd k]; simpl; [done|done|]. apply Hsilent, Hwf.
Qed.

Lemma mpin_guards_money_witness :
  let w := run_pool Demo.schedule
    (serve Demo.same_pin <$> [RequestWithdrawal 1 20 {| wr_destination_id := 1; wr_amount := JInt 5; wr_mpin := JNull |}], Demo.day) in
  books_of (pool_step 0 w).2 = books_of w.2.
Proof. eapply mpin_guards_money; [exact demo_day_opening|reflexivity|reflexivity|exact I]. Defined.

(** ** Answers *)

Lemma within_then {A B} n m (p : route A) (f : A -> route B) k :
  within n p -> k = (n + m)%nat -> (forall a, within m (f a)) -> within k (pbind p f).
Proof. intros Hp -> Hf. by apply within_bind. Qed.

Lemma within_mpin verify fuel u m p : within fuel (mpin_steps verify fuel u m p).
Proof. revert p. induction fuel as [|n IH]; intros p; [by destruct p|]. destruct p; simpl; try done; intros s; apply IH. Qed.

Lemma within_role role o u : within 1 (require_org_role role o u).
Proof. intros s. simpl. repeat case_match; done. Qed.
Lemma within_investor o u : within 1 (require_investor o u).
Proof. apply (within_then 1 0); [apply within_role|done|]. intros c. by case_bool_decide. Qed.
Lemma within_of_result {A} (r : result A) : within 0 (of_result r : route A).
Proof. by destruct r. Qed.
Lemma within_guard b code d : within 0 (guard b code d).
Proof. unfold guard. by destruct b. Qed.
Lemma within_notify o u t link : within 1 (notify o u t link).
Proof. apply within_stmt. Qed.
Lemma within_audit o action actor u sev a : within 1 (audit_control o action actor u sev a).
Proof. apply within_stmt. Qed.
Lemma within_require_mpin verify u m : within 5 (require_mpin verify u m).
Proof.
  unfold require_mpin. destruct m; try done. case_match; [|done]. apply (within_then 5 0); [apply within_mpin|done|]. by intros [].
Qed.

Lemma within_with_mpin {A} verify u m k n (p : route A) : k = (5 + n)%nat -> within n p -> within k (with_mpin verify u m p).
Proof.
  intros -> H. apply (within_then 5 n); [apply within_require_mpin|done|]. intros [f|]; [done|].
  replace n with (n + 0)%nat by lia. by apply within_bind.
Qed.
Lemma within_assoc {A B C} n (p : route A) (f : A -> route B) (g : B -> route C) :
  within n (pbind p (fun a => pbind (f a) g)) -> within n (pbind (pbind p f) g).
Proof. revert n. induction p as [a|e|upd k IH]; intros n H; [done|done|]. destruct n; [done|]. intros s. apply IH, H. Qed.
Lemma within_announce o u source actor : within 2 (announce_bonus o u source actor).
Proof. apply (within_then 1 1); [apply within_audit|done|]. intros _. apply within_notify. Qed.
Lemma within_catch {A} n (p : route A) h : within n p -> (forall e, within 0 (h e)) -> within n (pcatch p h).
Proof.
  intros Hp Hh. revert n Hp. induction p as [a|e|upd k IH]; intros n Hp; [done|by eapply within_mono; [apply Hh|lia]|].
  destruct n as [|n]; [done|]. intros s. by apply IH.
Qed.
Lemma within_method o id : within 1 (_method_row o id).
Proof. apply (within_then 1 0); [apply within_stmt|done|]. by intros [|]. Qed.
Lemma within_member o u : within 1 (_require_investor o u).
Proof. apply (within_then 1 0); [apply within_stmt|done|]. by intros [[[] e]|]. Qed.
Lemma within_one {A} n (p : route A) : within 1 p -> within (S n) p.
Proof. intros H. eapply within_mono; [exact H|lia]. Qed.

(** Count the statements of a route, in order. *)
Ltac one_step := first [apply within_stmt | apply within_role | apply within_investor | apply within_notify | apply within_audit
  | apply within_method | apply within_member].
Ltac count_bind p := lazymatch p with
  | Ret _ => cbn [pbind]
  | Throw _ => exact I
  | refuse _ _ => exact I
  | pbind _ _ => apply within_assoc
  | of_result _ => eapply (within_then 0); [apply within_of_result|reflexivity|intros ?]
  | guard _ _ _ => eapply (within_then 0); [apply within_guard|reflexivity|intros ?]
  | announce_bonus _ _ _ _ => eapply (within_then 2); [apply within_announce|reflexivity|intros ?]
  | pcatch _ _ => eapply (within_then 1); [apply within_catch; [one_step|intros []; count_all]|reflexivity|intros ?]
  | match ?x with _ => _ end => destruct x
  | _ => eapply (within_then 1); [one_step|reflexivity|intros ?]
  end
with count_step := cbv beta iota zeta; lazymatch goal with
  | |- within _ (Ret _) => exact I
  | |- within _ (Throw _) => exact I
  | |- within _ (refuse _ _) => exact I
  | |- within _ (guard _ _ _) => eapply within_mono; [apply within_guard|lia]
  | |- within _ (pbind ?p _) => count_bind p
  | |- within _ (with_mpin _ _ _ _) => eapply within_with_mpin; [reflexivity|]
  | |- within _ (match ?x with _ => _ end) => destruct x
  | |- within _ _ => apply within_one; one_step
  end
with count_all := repeat count_step.
Lemma forget_within {A} n (p : route A) : within n p -> within n (forget p).
Proof. intros H. replace n with (n + 0)%nat by lia. by apply within_bind. Qed.

Ltac head_of p := lazymatch p with ?f _ => head_of f | _ => p end.

(** A dozen statements, five of them the MPIN's, are enough for any route. *)
Lemma serve_within verify r : within 12 (serve verify r).
Proof.
  destruct r; try apply forget_within.
  all: try (lazymatch goal with |- within _ ?p => let f := head_of p in unfold f end; count_all; fail).
  unfold award_rule_bonus. apply within_catch; [|done]. count_all.
Qed.

(** A request never waits for another one: once it had twelve turns it has
    answered, whatever the others did in between. *)
Theorem requests_answer verify rs schedule s i r :
  rs !! i = Some r -> (12 <= count_occ Nat.eq_dec schedule i)%nat ->
  exists p, (run_pool schedule (serve verify <$> rs, s)).1 !! i = Some p /\ answered p = true.
Proof.
  intros Hi Hc. apply (run_pool_answers schedule i 12 _ _ (serve verify r)); [|apply serve_within|done].
  by rewrite list_lookup_fmap, Hi.
Qed.

Lemma requests_answer_witness :
  exists p, (run_pool Demo.schedule (serve Demo.same_pin <$> Demo.pool, Demo.day)).1 !! 3%nat = Some p /\ answered p = true.
Proof. apply (requests_answer Demo.same_pin Demo.pool Demo.schedule Demo.day 3 (RequestWithdrawal 1 20 Demo.sixty)); [reflexivity|vm_compute; lia]. Defined.
