(* ===== verification/PortalConfine.v ===== *)
(** * An investor's requests stay with the investor

    Whatever runs beside it, a request of an investor changes no ledger row, no
    request and no bonus of anybody else. *)

From S2P Require Import Prelude PyStr PyDecimal PyFloat PyRepr PyDecOps Models Db PyJson Limiter PortalLedger Mpin Prog PortalDb.
From S2P Require Import PortalCommon PortalInvestor PortalAdmin PortalBooks PortalSim PortalFacts PortalRuns.

(** The rows of others are the same rows. *)
Definition foreign {A} (owner : A -> Z * Z) (ou : Z * Z) (m m' : gmap Z A) : Prop :=
  forall id r, owner r <> ou -> (m !! id = Some r <-> m' !! id = Some r).

Definition others_same (ou : Z * Z) (b b' : books) : Prop :=
  foreign (fun e => (we_org e, we_user e)) ou (b_entries b) (b_entries b') /\
  foreign (fun r => (dp_org r, dp_user r)) ou (b_deposits b) (b_deposits b') /\
  foreign (fun r => (wd_org r, wd_user r)) ou (b_withdrawals b) (b_withdrawals b') /\
  foreign (fun r => (tr_org r, tr_user r)) ou (b_transfers b) (b_transfers b') /\
  foreign (fun r => (bo_org r, bo_user r)) ou (b_bonuses b) (b_bonuses b').

#[export] Instance foreign_preorder {A} (owner : A -> Z * Z) ou : PreOrder (foreign owner ou).
Proof. split; [done|]. intros x y z H1 H2 id r Hr. rewrite (H1 id r Hr). by apply H2. Qed.
#[export] Instance others_preorder ou : PreOrder (others_same ou).
Proof.
  split; [intros b; by split_and!|]. intros x y z (A1 & A2 & A3 & A4 & A5) (B1 & B2 & B3 & B4 & B5).
  split_and!; by etrans.
Qed.

Lemma foreign_new {A} (owner : A -> Z * Z) ou m id r : m !! id = None -> owner r = ou -> foreign owner ou m (<[id := r]> m).
Proof.
  intros Hid Hr k x Hx. destruct (decide (k = id)) as [->|Hne]; [|by rewrite lookup_insert_ne].
  rewrite lookup_insert_eq, Hid. split; [done|]. intros [= ->]. done.
Qed.
Lemma foreign_old {A} (owner : A -> Z * Z) ou m id r r' :
  m !! id = Some r -> owner r = ou -> owner r' = ou -> foreign owner ou m (<[id := r']> m).
Proof.
  intros Hid Hr Hr' k x Hx. destruct (decide (k = id)) as [->|Hne]; [|by rewrite lookup_insert_ne].
  rewrite lookup_insert_eq, Hid. split; intros [= ->]; done.
Qed.

(** ** Blocks *)

(** Every table gives out fresh ids. *)
Definition ids_ok (s : portal) : Prop :=
  table_wf (p_entries s) /\ table_wf (p_deposits s) /\ table_wf (p_withdrawals s) /\ table_wf (p_transfers s) /\ table_wf (p_bonuses s).

Lemma wf_ids s : wf s -> ids_ok s.
Proof. intros []. by split_and!. Qed.

Definition confined {A} (ou : Z * Z) (m : M portal A) : Prop :=
  forall s, ids_ok s -> ids_ok (exec m s) /\ others_same ou (books_of s) (books_of (exec m s)).

Section confined.
Context (o u : Z).

Lemma confined_bind {A B} (m : M portal A) (f : A -> M portal B) :
  confined (o, u) m -> (forall a, confined (o, u) (f a)) -> confined (o, u) (bind m f).
Proof.
  intros Hm Hf s Hs. destruct (Hm s Hs) as [H1 H2]. unfold exec, bind in *. destruct (m s) as [[a|e] s1]; simpl in *; [|done].
  destruct (Hf a s1 H1) as [H3 H4]. split; [done|by etrans].
Qed.
Lemma confined_pure {A} (f : portal -> result A) : confined (o, u) (fun s => (f s, s)).
Proof. by intros s Hs. Qed.
Lemma confined_mguard b code d : confined (o, u) (mguard b code d).
Proof. intros s Hs. unfold mguard. by destruct b. Qed.
Lemma confined_hourly kind : confined (o, u) (hourly_limited kind o u).
Proof. intros s Hs. unfold hourly_limited, exec. by destruct (is_limited _ _ _ _). Qed.
Lemma confined_skip_entry : confined (o, u) (modify (upd_entries skip_id)).
Proof. intros s (H1 & H2). split; [by split; [apply table_wf_skip|]|reflexivity]. Qed.

Lemma confined_insert_entry refused r :
  (we_org r, we_user r) = (o, u) -> confined (o, u) (insert_row p_entries upd_entries refused r).
Proof.
  intros Hr s (H1 & H2). unfold insert_row, exec. destruct refused; simpl.
  - split; [by split; [apply table_wf_skip|]|reflexivity].
  - split; [by split; [apply table_wf_add|]|]. split_and!; try done. by apply foreign_new; [apply table_wf_fresh|].
Qed.
Lemma confined_insert_deposit r : (dp_org r, dp_user r) = (o, u) -> confined (o, u) (insert_deposit r).
Proof.
  intros Hr s (H1 & H2 & H3 & H4 & H5). unfold insert_deposit, insert_row, exec. destruct (deposit_refused r s); simpl.
  - split; [by split_and!; [|apply table_wf_skip| ..]|reflexivity].
  - split; [by split_and!; [|apply table_wf_add|..]|]. split_and!; try done. by apply foreign_new; [apply table_wf_fresh|].
Qed.
Lemma confined_insert_withdrawal r :
  (wd_org r, wd_user r) = (o, u) ->
  confined (o, u) (fun s => insert_row p_withdrawals upd_withdrawals (withdrawal_refused r s) r s).
Proof.
  intros Hr s (H1 & H2 & H3 & H4 & H5). unfold insert_row, exec. destruct (withdrawal_refused r s); simpl.
  - split; [by split_and!; [| |apply table_wf_skip| ..]|reflexivity].
  - split; [by split_and!; [| |apply table_wf_add|..]|]. split_and!; try done. by apply foreign_new; [apply table_wf_fresh|].
Qed.
Lemma confined_insert_transfer r : (tr_org r, tr_user r) = (o, u) -> confined (o, u) (insert_transfer r).
Proof.
  intros Hr s (H1 & H2 & H3 & H4 & H5). unfold insert_transfer, insert_row, exec. destruct (transfer_refused r s); simpl.
  - split; [by split_and!; [| | |apply table_wf_skip|]|reflexivity].
  - split; [by split_and!; [| | |apply table_wf_add|]|]. split_and!; try done. by apply foreign_new; [apply table_wf_fresh|].
Qed.
End confined.

Ltac confine := repeat first
  [ apply confined_bind | apply confined_pure | apply confined_mguard | apply confined_hourly | apply confined_skip_entry
  | apply confined_insert_entry; reflexivity | apply confined_insert_deposit; reflexivity
  | apply confined_insert_withdrawal; reflexivity | apply confined_insert_transfer; reflexivity
  | match goal with |- forall _, confined _ _ => intros ? end | case_match ].

Lemma confined_settle o u w amount kind ref note by_ : confined (o, u) (settle o u w amount kind ref note by_).
Proof. unfold settle. confine. Qed.
Lemma confined_withdrawal o u amount d dest settings : confined (o, u) (withdrawal_block o u amount d dest settings).
Proof. unfold withdrawal_block. confine. Qed.
Lemma confined_transfer o u amount source target account equity live :
  confined (o, u) (transfer_block o u amount source target account equity live).
Proof. unfold transfer_block, transfer_checks. confine; apply confined_settle. Qed.

Lemma confined_transaction {A} ou (m : M portal A) s :
  wf s -> confined ou m -> others_same ou (books_of s) (books_of (exec (transaction m) s)).
Proof.
  intros Hs Hm. destruct (Hm s (wf_ids s Hs)) as [_ H]. unfold exec, transaction in *. by destruct (m s) as [[a|e] s1].
Qed.

(** ** Programs *)

(** Beside safe requests, each step of the program leaves the others' rows, as
    long as the tables are small. *)
Fixpoint stays {A} (ou : Z * Z) (p : route A) (s : portal) : Prop :=
  match p with
  | Ret _ | Throw _ => True
  | Step upd k => forall s', later s s' -> sound s' ->
      (small s' -> others_same ou (books_of s') (books_of (upd s'))) /\ (later s' (upd s') -> stays ou (k s') (upd s'))
  end.

Section stays.
Context (ou : Z * Z).

Lemma stays_later {A} (p : route A) s s' : later s s' -> stays ou p s -> stays ou p s'.
Proof. intros Hl. destruct p as [a|e|upd k]; [done|done|]. intros H t Ht. apply H. by trans s'. Qed.

Lemma stays_bind_silent {A B} (p : route A) (f : A -> route B) s :
  silent p -> (forall a s', later s s' -> stays ou (f a) s') -> stays ou (pbind p f) s.
Proof.
  revert s. induction p as [a|e|upd k IH]; intros s Hp Hf; [by apply Hf|done|]. destruct Hp as [Hu Hk].
  intros s' Hl Hs. destruct (Hu s' (proj1 Hs)) as (_ & _ & Hb). split; [intros _; by rewrite Hb|]. intros Hl'.
  apply IH; [done|]. intros a t Ht. apply Hf. trans s'; [done|]. by trans (upd s').
Qed.

Lemma stays_silent {A} (p : route A) s : silent p -> stays ou p s.
Proof.
  revert s. induction p as [a|e|upd k IH]; intros s Hp; [done|done|]. destruct Hp as [Hu Hk].
  intros s' Hl Hs. destruct (Hu s' (proj1 Hs)) as (_ & _ & Hb). split; [intros _; by rewrite Hb|]. intros _. by apply IH.
Qed.

Lemma stays_query {A B} (f : portal -> A) (k : A -> route B) s :
  (forall s', later s s' -> sound s' -> stays ou (k (f s')) s') -> stays ou (pbind (query f) k) s.
Proof. intros H s' Hl Hs. split; [done|]. intros _. by apply H. Qed.

Lemma stays_pure {A B} (r : result A) (k : A -> route B) s :
  (forall a, r = Ok a -> stays ou (k a) s) -> stays ou (pbind (of_result r) k) s.
Proof. intros H. destruct r as [a|e]; [by apply H|done]. Qed.

Lemma stays_guard {B} b code d (k : route B) s : (b = true -> stays ou k s) -> stays ou (guard b code d >>> k) s.
Proof. unfold guard. intros H. destruct b; [by apply H|done]. Qed.

Lemma stays_stmt {A B} (m : M portal A) (k : A -> route B) s :
  (forall s', later s s' -> sound s' -> small s' -> others_same ou (books_of s') (books_of (exec m s'))) ->
  (forall a s', later s s' -> stays ou (k a) s') -> stays ou (pbind (stmt m) k) s.
Proof.
  intros Hm Hk s' Hl Hs. split; [by apply Hm|]. intros Hl'. unfold of_result. destruct (value m s') as [a|e]; [|done].
  apply Hk. by trans s'.
Qed.

Lemma stays_transaction {A B} (m : M portal A) (k : A -> route B) s :
  confined ou m -> (forall a s', later s s' -> stays ou (k a) s') -> stays ou (pbind (stmt (transaction m)) k) s.
Proof. intros Hm. apply stays_stmt. intros s' _ [Hwf _] _. by apply confined_transaction. Qed.

Lemma stays_mpin {A} verify u m (k : route A) s : (forall s', later s s' -> stays ou k s') -> stays ou (with_mpin verify u m k) s.
Proof.
  intros H. apply stays_bind_silent; [apply silent_require_mpin|]. intros [f|] s' Hl; [done|].
  specialize (H s' Hl). clear Hl. revert s' H. generalize k as p. clear k. induction p as [a|e|upd k IH]; intros s' H; [done|done|].
  intros t Ht Hs. destruct (H t Ht Hs) as [H1 H2]. split; [done|]. intros Hl. by apply IH, H2.
Qed.

Lemma stays_catch {A} (m : M portal A) h s :
  (forall s', later s s' -> sound s' -> small s' -> others_same ou (books_of s') (books_of (exec m s'))) ->
  (forall e, answered (h e) = true) -> forall B (k : A -> route B),
  (forall a s', later s s' -> stays ou (k a) s') -> stays ou (pbind (pcatch (stmt m) h) k) s.
Proof.
  intros Hm Hh B k Hk s' Hl Hs. split; [by apply Hm|]. intros Hl'. unfold of_result.
  assert (forall a, stays ou (k a) (exec m s')) as Hk' by (intros a; apply Hk; by trans s').
  destruct (value m s') as [a|e]; [apply Hk'|]. simpl. specialize (Hh e). destruct (h e); [apply Hk'|done|done].
Qed.

Lemma stays_forget {A} (p : route A) s : stays ou p s -> stays ou (forget p) s.
Proof.
  revert s. induction p as [a|e|upd k IH]; intros s H; [done|done|]. intros t Ht Hs. destruct (H t Ht Hs) as [H1 H2].
  split; [done|]. intros Hl. by apply IH, H2.
Qed.
End stays.

(** ** The routes *)

(** A guarded update of a row the request has read as its own. *)
Lemma stays_update {A B} get upd id (owner : A -> Z * Z) (p : A -> bool) (f : A -> A) (k : A -> route B) ou s :
  (forall s' r, rows (get s') !! id = Some r -> owner r = ou ->
     others_same ou (books_of s') (books_of (upd (set_row id (f r)) s'))) ->
  (forall s' r, later s s' -> sound s' -> small s' -> rows (get s') !! id = Some r -> owner r = ou) ->
  (forall a s', later s s' -> stays ou (k a) s') ->
  stays ou (pbind (stmt (let! row := update_where get upd id p f in returned row)) k) s.
Proof.
  intros Hset Howner. apply stays_stmt. intros s' Hl Hs Hsm. unfold exec, bind, update_where, returned.
  destruct (rows (get s') !! id) as [r|] eqn:Er; simpl; [|done]. destruct (p r); simpl; [|done].
  apply Hset; [done|by apply (Howner s')].
Qed.

Ltac updated := intros ? ? ? ?; split_and!; try done; eapply foreign_old; [eassumption|assumption|assumption].

Lemma cancel_deposit_stays o u id s : stays (o, u) (cancel_deposit o u id) s.
Proof.
  unfold cancel_deposit. apply stays_bind_silent; [by eauto with copier|]. intros ctx s1 _. apply stays_query. intros s2 _ Hs2.
  destruct (own_row _ _ _ _ _ _ _) as [c|] eqn:Ec; [|done]. apply own_row_Some in Ec as (Hc & Ho & Hu). apply stays_guard. intros _.
  apply (stays_update _ _ _ (fun r => (dp_org r, dp_user r))); [updated| |].
  - intros s3 r Hl Hs3 Hsm Hr. destruct (stale_deposit s2 s3 id c Hs2 Hc Hl Hsm r Hr) as (? & ? & _). congruence.
  - intros row s3 _. apply stays_silent. apply silent_bind; [apply silent_audit|done].
Qed.

Lemma cancel_withdrawal_stays o u id s : stays (o, u) (cancel_withdrawal o u id) s.
Proof.
  unfold cancel_withdrawal. apply stays_bind_silent; [by eauto with copier|]. intros ctx s1 _. apply stays_query. intros s2 _ Hs2.
  destruct (own_row _ _ _ _ _ _ _) as [c|] eqn:Ec; [|done]. apply own_row_Some in Ec as (Hc & Ho & Hu). apply stays_guard. intros _.
  apply (stays_update _ _ _ (fun r => (wd_org r, wd_user r))); [updated| |].
  - intros s3 r Hl Hs3 Hsm Hr. destruct (stale_withdrawal s2 s3 id c Hs2 Hc Hl Hsm r Hr) as ((? & ? & _) & _). congruence.
  - intros row s3 _. apply stays_silent. apply silent_bind; [apply silent_audit|done].
Qed.

Lemma cancel_transfer_stays o u id s : stays (o, u) (cancel_transfer o u id) s.
Proof.
  unfold cancel_transfer. apply stays_bind_silent; [by eauto with copier|]. intros ctx s1 _. apply stays_query. intros s2 _ Hs2.
  destruct (own_row _ _ _ _ _ _ _) as [c|] eqn:Ec; [|done]. apply own_row_Some in Ec as (Hc & Ho & Hu). apply stays_guard. intros _.
  apply (stays_update _ _ _ (fun r => (tr_org r, tr_user r))); [updated| |].
  - intros s3 r Hl Hs3 Hsm Hr. destruct (stale_transfer s2 s3 id c Hs2 Hc Hl Hsm r Hr) as (? & ? & _). congruence.
  - intros row s3 _. apply stays_silent. apply silent_bind; [apply silent_audit|done].
Qed.

Lemma file_deposit_stays o u body s : stays (o, u) (file_deposit o u body) s.
Proof.
  unfold file_deposit. apply stays_bind_silent; [by eauto with copier|]. intros ctx s1 _.
  apply stays_pure. intros [[amount reference] note] _. apply stays_bind_silent; [by destruct (parse_target _)|]. intros target s2 _.
  apply stays_query. intros s3 _ _. destruct (rows (p_methods s3) !! dn_method_id body) as [m|]; [|done].
  do 3 (apply stays_guard; intros _).
  apply stays_bind_silent; [|intros _ s4 _].
  { destruct (dn_receipt body); [|done]. repeat (apply silent_bind; [by eauto with copier|intros ?]). by eauto with copier. }
  apply stays_bind_silent; [|intros account s5 _].
  { destruct target; [done|]. apply silent_bind; [by eauto with copier|]. intros [|]; [done|].
    apply silent_bind; [apply silent_pure|done]. }
  apply stays_bind_silent; [by eauto with copier|]. intros limited s6 _. apply stays_guard. intros _. apply stays_pure. intros fee _.
  apply stays_catch.
  - intros s7 _ [Hwf _] _. eapply (fun H => proj2 (H s7 (wf_ids s7 Hwf))). confine.
  - intros []; simpl; repeat case_bool_decide; done.
  - intros row s7 _. apply stays_silent, silent_bind; [apply silent_audit|done].
Qed.

Lemma request_withdrawal_stays verify o u body s : stays (o, u) (request_withdrawal verify o u body) s.
Proof.
  unfold request_withdrawal. apply stays_bind_silent; [by eauto with copier|]. intros ctx s1 _. apply stays_mpin. intros s2 _.
  apply stays_pure. intros amount _. apply stays_query. intros s3 _ _. destruct (own_row _ _ _ _ _ _ _) as [d|]; [|done].
  apply stays_guard. intros _. apply stays_bind_silent; [apply silent_stmt, untouched_settings|]. intros settings s4 _.
  apply stays_guard. intros _. apply stays_transaction; [apply confined_withdrawal|].
  intros row s5 _. apply stays_silent, silent_bind; [apply silent_audit|done].
Qed.

Lemma request_transfer_stays verify copier o u body s : stays (o, u) (request_transfer verify copier o u body) s.
Proof.
  unfold request_transfer. apply stays_bind_silent; [by eauto with copier|]. intros ctx s1 _. apply stays_mpin. intros s2 _.
  apply stays_pure. intros [amount [source target]] _. apply stays_bind_silent; [|intros account s3 _].
  { destruct (is_account source || is_account target); [|done]. apply silent_bind; [by eauto with copier|]. intros [|]; [done|].
    apply silent_bind; [by eauto with copier|]. by intros [|]. }
  apply stays_bind_silent; [by destruct (is_account source); [apply silent_pure|]|]. intros [equity src] s4 _.
  apply stays_transaction; [apply confined_transfer|]. intros row s5 _. apply stays_silent, silent_bind; [apply silent_audit|done].
Qed.

Lemma serve_stays verify r o u s : caller r = Some (o, u, RInvestor) -> stays (o, u) (serve verify r) s.
Proof.
  intros Hc. destruct r; cbv [caller] in Hc; try discriminate Hc; injection Hc as <- <-; apply stays_forget.
  - apply file_deposit_stays.
  - apply cancel_deposit_stays.
  - apply stays_silent, add_destination_silent.
  - apply stays_silent, remove_destination_silent.
  - apply request_withdrawal_stays.
  - apply cancel_withdrawal_stays.
  - apply request_transfer_stays.
  - apply cancel_transfer_stays.
Qed.

(** C33: whatever other requests run beside it and whatever point it has
    reached, the next statement of an investor's request changes no ledger
    row, deposit, withdrawal, transfer or bonus of anybody else, of the same
    workspace or of another. *)
Theorem investor_confined verify rs schedule s i r o u :
  opening s -> rs !! i = Some r -> caller r = Some (o, u, RInvestor) ->
  let w := run_pool schedule (serve verify <$> rs, s) in
  small w.2 -> others_same (o, u) (books_of w.2) (books_of (pool_step i w).2).
Proof.
  intros Ho%opening_sound Hi Hc w Hsm.
  assert (Forall (fun p => psafe p s) (serve verify <$> rs)) as Hall.
  { apply Forall_fmap, Forall_forall. intros x _. apply serve_safe. }
  destruct (run_pool_index sound later (stays (A := unit) (o, u)) schedule i) with (ps := serve verify <$> rs) (s := s) (p := serve verify r)
    as (p & Hp & Hst); [intros ? ? ?; apply stays_later| |done|done| |by apply serve_stays|].
  - intros [a|e|upd k] t Ht Hsafe H; [done|done|]. destruct (Hsafe t) as (_ & Hl & _); [done|done|]. by apply (H t).
  - by rewrite list_lookup_fmap, Hi.
  - fold w in Hp, Hst. destruct (run_pool_safe sound later schedule _ s Ho Hall) as (Hs & _ & _). fold w in Hs.
    unfold pool_step. rewrite Hp. destruct p as [a|e|upd k]; simpl; [done|done|]. by apply Hst.
Qed.

Lemma investor_confined_witness :
  let w := run_pool (take 40 Demo.schedule) (serve Demo.same_pin <$> Demo.pool, Demo.day) in
  others_same (1, 20) (books_of w.2) (books_of (pool_step 2 w).2).
Proof. eapply investor_confined; [exact demo_day_opening|reflexivity|reflexivity|by vm_compute]. Defined.
