(* ===== verification/Alerts.v ===== *)
(** * Alerts: [api/tradingview_alerts.py] and [api/vt_bridge_alerts.py]

    What an alert's message must say to become an order, and the gate of the
    HTF-to-LTF bridge.  Text is a string of bytes: letters outside ASCII are not
    changed by [upper] and [lower], and lengths are in bytes.  Times are whole
    microseconds. *)

From S2P Require Import Prelude PyStr PyFloat PyRepr Db PyJson.
From Stdlib Require Import Ascii SpecFloat.

(** ** [format(x, "g")] *)

Fixpoint strip_zeros (s : string) : string :=
  match s with
  | EmptyString => EmptyString
  | String c s' =>
      match strip_zeros s' with
      | EmptyString => if bool_decide (c = "0"%char) then EmptyString else String c EmptyString
      | t => String c t
      end
  end.

(** A fraction's digits after the point, without trailing zeros *)
Definition with_point (whole frac : string) : string :=
  match strip_zeros frac with EmptyString => whole | f => whole +:+ "." +:+ f end.

(** Six significant digits [ds] of a number below [10 ^ k] *)
Definition g_digits (ds : string) (k : Z) : string :=
  let x := k - 1 in
  if (x <? -4) || (6 <=? x)
  then with_point (str_take 1 ds) (str_drop 1 ds) +:+ "e" +:+ (if x <? 0 then "-" else "+") +:+
       (if Z.abs x <? 10 then "0" else "") +:+ pretty (Z.abs x)
  else if k <=? 0 then with_point "0" (zeros (Z.to_nat (- k)) +:+ ds)
  else with_point (str_take (Z.to_nat k) ds) (str_drop (Z.to_nat k) ds).

Definition format_g (x : float64) : string :=
  match x with
  | S754_nan => "nan"
  | S754_infinity s => if s then "-inf" else "inf"
  | S754_zero s => if s then "-0" else "0"
  | S754_finite s m e =>
      let num := frac_num (Zpos m) e in
      let den := frac_den e in
      let k := decpt_of num den in
      let q := if k <=? 6 then round_even_div (num * 10 ^ (6 - k)) den else round_even_div num (den * 10 ^ (k - 6)) in
      (if s then "-" else "") +:+
      (if q =? 10 ^ 6 then g_digits (pretty (10 ^ 5)) (k + 1) else g_digits (pretty q) k)
  end.

Example g_examples :
  (format_g <$> [f_of_Z 50; default fzero (int_truediv 1 100); default fzero (int_truediv 4370253 1000);
                 default fzero (int_truediv 1 30000); f_of_Z 12345678; default fzero (int_truediv 9999999 10000)]) =
  ["50"; "0.01"; "4370.25"; "3.33333e-05"; "1.23457e+07"; "1000"].
Proof. vm_compute. reflexivity. Qed.

(** ** Tickers *)

Definition in_range (lo hi c : ascii) : bool :=
  (nat_of_ascii lo <=? nat_of_ascii c)%nat && (nat_of_ascii c <=? nat_of_ascii hi)%nat.
Definition is_capital (c : ascii) : bool := in_range "A" "Z" c.
Definition is_name_char (c : ascii) : bool := is_capital c || is_digit c.

(** The longest prefix of such characters, and the rest *)
Fixpoint span (P : ascii -> bool) (s : string) : string * string :=
  match s with
  | String c s' => if P c then let '(a, b) := span P s' in (String c a, b) else (EmptyString, s)
  | EmptyString => (EmptyString, EmptyString)
  end.

(** [_EXCHANGE_PREFIX.sub("", ticker, count=1)], for [^[A-Z0-9_]+:] *)
Definition strip_exchange (s : string) : string :=
  match span (fun c => is_name_char c || bool_decide (c = "_"%char)) s with
  | (String _ _, String ":" rest) => rest
  | _ => s
  end.

(** [_SUFFIXES], [(\d*!|\.[A-Z]+)+$], as an automaton: at the start, among the
    digits before a mark, behind a point, in a name, behind a mark.  (A ticker
    ends in no line break here, so the dollar is the end.) *)
Inductive deco := DStart | DDigits | DPoint | DName | DMark.

Definition deco_token (c : ascii) : option deco :=
  if is_digit c then Some DDigits
  else if bool_decide (c = "!"%char) then Some DMark
  else if bool_decide (c = "."%char) then Some DPoint
  else None.

Definition deco_step (q : deco) (c : ascii) : option deco :=
  match q with
  | DStart | DMark => deco_token c
  | DDigits => if is_digit c then Some DDigits else if bool_decide (c = "!"%char) then Some DMark else None
  | DPoint => if is_capital c then Some DName else None
  | DName => if is_capital c then Some DName else deco_token c
  end.

Fixpoint deco_match (q : deco) (s : string) : bool :=
  match s with
  | EmptyString => match q with DName | DMark => true | _ => false end
  | String c s' => match deco_step q c with Some q' => deco_match q' s' | None => false end
  end.

(** [_SUFFIXES.sub("", ticker)]: the leftmost match *)
Fixpoint strip_suffixes (s : string) : string :=
  if deco_match DStart s then EmptyString
  else match s with String c s' => String c (strip_suffixes s') | EmptyString => EmptyString end.

Definition line_feed : string := String (ascii_of_nat 10) EmptyString.

(** [_ALLOWED.match], for [^[A-Z0-9]{3,20}$]: the dollar also stands before a
    final line break. *)
Definition allowed_ticker (s : string) : bool :=
  let '(name, rest) := span is_name_char s in
  (3 <=? String.length name)%nat && (String.length name <=? 20)%nat &&
  (bool_decide (rest = "") || bool_decide (rest = line_feed)).

(** In double quotes *)
Definition quoted (s : string) : string := String double_quote s +:+ String double_quote "".
Definition refuse {A} (msg : string) : result A := Raise (AlertError msg).

Definition unreadable_symbol {A} (raw : string) : result A :=
  refuse ("could not read a symbol from " +:+ py_repr raw +:+ "; expected something like " +:+
    quoted "XAUUSD" +:+ " or " +:+ quoted "OANDA:XAUUSD").

Definition normalise_ticker (raw : json) : result string :=
  match raw with
  | JStr text =>
      let ticker := strip_suffixes (strip_exchange (str_upper (str_strip text))) in
      if allowed_ticker ticker then Ok ticker else unreadable_symbol text
  | _ => refuse ("symbol must be text, e.g. " +:+ quoted "XAUUSD" +:+ " or " +:+ quoted "OANDA:XAUUSD")
  end.

Example tickers :
  (fun s => normalise_ticker (JStr s)) <$> ["OANDA:XAUUSD"; " fx:eurusd"; "BINANCE:BTCUSDT.P"; "ES1!"; "CME:ES12!.CFD"] =
  [Ok "XAUUSD"; Ok "EURUSD"; Ok "BTCUSDT"; unreadable_symbol "ES1!"; unreadable_symbol "CME:ES12!.CFD"].
Proof. vm_compute. reflexivity. Qed.

(** ** Numbers and prices *)

Definition _number (raw : json) (key : string) : result float64 :=
  match raw with
  | JBool _ => refuse (key +:+ " must be a number, got " +:+ json_repr raw)
  | _ =>
      if match raw with JStr s => (32 <? String.length s)%nat | _ => false end
      then refuse (key +:+ " is not a valid number")
      else match json_float raw with
           | Raise (TypeError _) | Raise (ValueError _) | Raise (OverflowError _) =>
               refuse (key +:+ " must be a number, got " +:+ json_repr raw)
           | r => r
           end
  end.

Definition is_blank (raw : json) : bool := match raw with JNull | JStr "" => true | _ => false end.

Definition positive_price (key : string) (raw : json) : result float64 :=
  let? value := _number raw key in
  if negb (is_finite value) || fleb value fzero
  then refuse (key +:+ " must be a positive price, got " +:+ json_repr raw) else Ok value.

Definition _price (body : payload) (key : string) : result price :=
  let raw := get body key in
  if is_blank raw then Ok None else let? value := positive_price key raw in Ok (Some value).

(** [str(body.get(key, ""))] *)
Definition text_of (body : payload) (key : string) : string := json_str (default (JStr "") (od_get key body)).
(** [body.get("symbol", body.get("ticker"))] *)
Definition symbol_field (body : payload) : json := default (get body "ticker") (od_get "symbol" body).

Definition HARD_MAX_LOTS : float64 := f_of_Z 50.

(** The size of an alert, under the org's cap and the ceiling *)
Definition checked_lots (body : payload) (max_lots : price) (missing : string) : result float64 :=
  let raw := get body "lots" in
  if is_blank raw then refuse missing
  else
    let? l := _number raw "lots" in
    if negb (is_finite l) || fleb l fzero then refuse ("lots must be greater than 0, got " +:+ json_repr raw)
    else
      match max_lots with
      | Some m =>
          if negb (is_finite m) || fleb m fzero
          then refuse "this workspace has no lot cap configured; set one in Automation"
          else
            let cap := fmin m HARD_MAX_LOTS in
            if fltb cap l
            then refuse ("lots " +:+ format_g l +:+ " is above this workspace's cap of " +:+ format_g cap +:+
                         ". Raise the cap in Automation settings if that size is intended.")
            else Ok l
      | None => refuse "this workspace has no lot cap configured; set one in Automation"
      end.

(** ** TradingView alerts *)

Record Alert := {
  al_action : string;
  al_symbol : string;
  al_lots : price;
  al_stop_loss : price;
  al_take_profit : price;
  al_alert_id : option string;
  al_order_type : string;
  al_price : price
}.

Definition ACTIONS : list string := ["buy"; "sell"; "close"; "cancel"].
Definition ORDER_TYPES : list string := ["market"; "stop"; "limit"].

(** [_UNEXPANDED.search], for [\{\{.*\}\}]: within a line *)
Fixpoint unexpanded (s : string) : bool :=
  match s with
  | EmptyString => false
  | String _ s' =>
      (str_starts "{{" s && str_contains "}}" (str_before (ascii_of_nat 10) (str_drop 2 s))) || unexpanded s'
  end.

Definition alert_id_of (body : payload) : result string :=
  let id := match get body "id" with JNull => "" | raw => str_take 128 (str_strip (json_str raw)) end in
  if bool_decide (id = "") then refuse ("id is required -- add " +:+ quoted "id" +:+ ": " +:+ quoted "{{timenow}}" +:+
    " to the alert message so repeated signals are not mistaken for one another")
  else if unexpanded id then refuse ("id arrived as the literal " +:+ py_repr id +:+ ": TradingView did not expand " +:+
    "the placeholder. Placeholders only render in the alert dialog's Message box, not inside strategy.entry(alert_message=...)")
  else Ok id.

Definition plain_alert (action symbol id : string) : Alert :=
  {| al_action := action; al_symbol := symbol; al_lots := None; al_stop_loss := None; al_take_profit := None;
     al_alert_id := Some id; al_order_type := "market"; al_price := None |}.

(** [str(body.get("order_type") or "market").strip().lower()] *)
Definition order_type_of (body : payload) : string :=
  let raw := get body "order_type" in
  str_lower (str_strip (json_str (if json_bool raw then raw else JStr "market"))).

Definition order_alert (body : payload) (action symbol id : string) (max_lots : price) : result Alert :=
  let? l := checked_lots body max_lots ("lots is required for buy and sell, e.g. " +:+ quoted "lots" +:+ ": 0.01") in
  let? stop_loss := _price body "stop_loss" in
  let? take_profit := _price body "take_profit" in
  let order_type := order_type_of body in
  if negb (bool_decide (order_type ∈ ORDER_TYPES))
  then refuse ("order_type must be one of " +:+ str_join ", " ORDER_TYPES +:+ "; got " +:+ json_repr (get body "order_type"))
  else
    let? p := _price body "price" in
    if negb (bool_decide (order_type = "market")) && bool_decide (p = None)
    then refuse ("price is required for a " +:+ order_type +:+ " order, e.g. " +:+ quoted "price" +:+ ": 4370.25")
    else Ok {| al_action := action; al_symbol := symbol; al_lots := Some l; al_stop_loss := stop_loss;
               al_take_profit := take_profit; al_alert_id := Some id; al_order_type := order_type;
               al_price := if bool_decide (order_type = "market") then None else p |}.

Definition not_an_object {A} (fields : string) : result A := refuse ("the alert message must be JSON, e.g. " +:+ fields).
Definition field (key value : string) : string := quoted key +:+ ":" +:+ value.

Definition parse_alert (body : json) (max_lots : price) : result Alert :=
  match body with
  | JObj body =>
      let action := str_lower (str_strip (text_of body "action")) in
      if negb (bool_decide (action ∈ ACTIONS))
      then refuse ("action must be one of " +:+ str_join ", " ACTIONS +:+ "; got " +:+ json_repr (get body "action"))
      else
        let? symbol := normalise_ticker (symbol_field body) in
        let? id := alert_id_of body in
        if bool_decide (action ∈ ["close"; "cancel"]) then Ok (plain_alert action symbol id)
        else order_alert body action symbol id max_lots
  | _ => not_an_object ("{" +:+ str_join "," [field "action" (quoted "buy"); field "symbol" (quoted "XAUUSD"); field "lots" "0.01"] +:+ "}")
  end.

(** ** The copier's book *)

(** [for x in v], of a JSON value *)
Definition py_iter (v : json) : result (list json) :=
  match v with
  | JList l => Ok l
  | JObj kvs => Ok ((fun kv => JStr kv.1) <$> kvs)
  | JStr s => Ok ((fun c => JStr (String c "")) <$> String.list_ascii_of_string s)
  | _ => Raise (TypeError "object is not iterable")
  end.
(** [state.get(key) or []] *)
Definition rows_of (state : payload) (key : string) : result (list json) :=
  let v := get state key in if json_bool v then py_iter v else Ok [].

Definition is_wanted (wanted : list string) (pos : json) : bool :=
  match pos with
  | JObj p =>
      match get p "symbol", get p "position_id" with
      | _, JNull => false
      | JStr name, _ => bool_decide (str_upper name ∈ wanted)
      | _, _ => false
      end
  | _ => false
  end.

Definition find_master_positions (state : json) (symbol : string) (broker_name : option string) : result (list json) :=
  match state with
  | JObj s =>
      let? positions := rows_of s "master_positions" in
      let wanted := str_upper symbol :: match broker_name with None | Some "" => [] | Some n => [str_upper n] end in
      Ok (List.filter (is_wanted wanted) positions)
  | _ => Ok []
  end.

(** ** The HTF-to-LTF bridge *)

Definition ROLES : list string := ["htf"; "ltf"].
Definition BIASES : list string := ["long"; "short"].

Record VTAlert := {
  vt_role : string;
  vt_symbol : string;
  vt_tf : string;
  vt_bias : string;
  vt_entry : float64;
  vt_stop : float64;
  vt_target : float64;
  vt_price : float64;
  vt_valid : bool;
  vt_trigger : option bool;
  vt_lots : price;
  vt_bar_ms : Z
}.

Record VTSnapshot := {
  sn_bias : string;
  sn_stop : float64;
  sn_target : float64;
  sn_tf : string;
  sn_received_at : Z
}.

Definition _finite_positive (body : payload) (key : string) : result float64 :=
  let raw := get body key in
  if is_blank raw then refuse (key +:+ " is required, e.g. " +:+ quoted key +:+ ": 4385.34") else positive_price key raw.

Definition _bool_field (body : payload) (key : string) : result bool :=
  match get body key with
  | JBool b => Ok b
  | raw => refuse (key +:+ " must be true or false, got " +:+ json_repr raw)
  end.

(** [int(raw)]; an infinite number raises an OverflowError that is not caught. *)
Definition bar_ms_of (body : payload) : result Z :=
  match json_int (get body "bar_ms") with
  | Raise (TypeError _) | Raise (ValueError _) => refuse "bar_ms is required and must be a whole number of milliseconds"
  | r => r
  end.

Definition parse_vt_alert (body : json) (max_lots : price) : result VTAlert :=
  match body with
  | JObj body =>
      let role := text_of body "role" in
      if negb (bool_decide (role ∈ ROLES))
      then refuse ("role must be one of " +:+ str_join ", " ROLES +:+ "; got " +:+ json_repr (get body "role"))
      else
        let? symbol := normalise_ticker (symbol_field body) in
        let tf := text_of body "tf" in
        if bool_decide (tf = "") then refuse ("tf is required, e.g. " +:+ quoted "tf" +:+ ": " +:+ quoted "60")
        else
          let bias := text_of body "bias" in
          if negb (bool_decide (bias ∈ BIASES))
          then refuse ("bias must be one of " +:+ str_join ", " BIASES +:+ "; got " +:+ json_repr (get body "bias"))
          else
            let? entry := _finite_positive body "entry" in
            let? stop := _finite_positive body "stop" in
            let? target := _finite_positive body "target" in
            let? p := _finite_positive body "price" in
            let? valid := _bool_field body "valid" in
            let? bar_ms := bar_ms_of body in
            let alert trigger l :=
              {| vt_role := role; vt_symbol := symbol; vt_tf := tf; vt_bias := bias; vt_entry := entry; vt_stop := stop;
                 vt_target := target; vt_price := p; vt_valid := valid; vt_trigger := trigger; vt_lots := l;
                 vt_bar_ms := bar_ms |} in
            if bool_decide (role = "htf") then Ok (alert None None)
            else
              let? trigger := _bool_field body "trigger" in
              let? l := checked_lots body max_lots ("lots is required for role " +:+ quoted "ltf" +:+ ", e.g. " +:+ quoted "lots" +:+ ": 0.01") in
              Ok (alert (Some trigger) (Some l))
  | _ => not_an_object ("{" +:+ str_join "," [field "role" (quoted "ltf"); field "symbol" (quoted "XAUUSD");
                                              field "bias" (quoted "long"); "..."] +:+ "}")
  end.

(** *** The gate: [None] passes, else the reason *)

Definition TOL_PCT : float64 := default fzero (int_truediv 2 100).
Definition STALE_MULTIPLIER : Z := 2.

(** [(now - received_at).total_seconds()] *)
Definition age_seconds (now received_at : Z) : float64 := default fzero (int_truediv (now - received_at) 1000000).
(** Seconds until a snapshot of that timeframe is stale *)
Definition max_age_s (tf : string) : Z := STALE_MULTIPLIER * default 0 (py_int tf) * 60.

Definition band (h : VTSnapshot) : float64 * float64 := (fmin (sn_stop h) (sn_target h), fmax (sn_stop h) (sn_target h)).
Definition tolerance (h : VTSnapshot) : float64 := fmul TOL_PCT (fsub (band h).2 (band h).1).
Definition in_band (h : VTSnapshot) (entry : float64) : bool :=
  fleb (fsub (band h).1 (tolerance h)) entry && fleb entry (fadd (band h).2 (tolerance h)).

Definition check_gate (htf : option VTSnapshot) (ltf : VTAlert) (allowed_timeframes : list string) (now : Z)
    : option string :=
  if negb (bool_decide (vt_tf ltf ∈ allowed_timeframes))
  then Some ("entry timeframe " +:+ vt_tf ltf +:+ " is not enabled for this workspace")
  else if negb (vt_valid ltf) then Some "LTF setup is not valid (stop/target on the wrong side of entry)"
  else match htf with
  | None => Some ("no HTF snapshot for " +:+ vt_symbol ltf +:+ " yet")
  | Some h =>
      let age_s := age_seconds now (sn_received_at h) in
      if (max_age_s (sn_tf h) <=? 0) || fltb (f_of_Z (max_age_s (sn_tf h))) age_s
      then Some ("HTF snapshot for " +:+ vt_symbol ltf +:+ " is " +:+ pretty (f_trunc age_s) +:+ "s old (max " +:+
                 pretty (max_age_s (sn_tf h)) +:+ "s)")
      else if negb (bool_decide (vt_bias ltf = sn_bias h))
      then Some ("LTF bias (" +:+ vt_bias ltf +:+ ") does not match HTF bias (" +:+ sn_bias h +:+ ")")
      else if negb (in_band h (vt_entry ltf))
      then Some ("LTF entry " +:+ format_g (vt_entry ltf) +:+ " is outside the HTF band [" +:+ format_g (band h).1 +:+ ", " +:+
                 format_g (band h).2 +:+ "] (±" +:+ format_g (tolerance h) +:+ ")")
      else None
  end.
