(* ===== verification/AlertsFacts.v ===== *)
(** * What an accepted alert says: sizes, shapes, tickers *)

From S2P Require Import Prelude PyStr PyFloat PyRepr Db PyJson Alerts.
From Stdlib Require Import Ascii SpecFloat.

(** ** Sizes *)

(** Above zero, at most the cap and the ceiling *)
Definition within_cap (max_lots : price) (l : float64) : Prop :=
  fltb fzero l = true /\ fleb l HARD_MAX_LOTS = true /\ exists m, max_lots = Some m /\ fleb l m = true.

Lemma is_finite_not_nan x : is_finite x = true -> is_nan x = false.
Proof. by destruct x. Qed.

Lemma positive_of_fleb x : is_nan x = false -> fleb x fzero = false -> fltb fzero x = true.
Proof. intros Hx H. destruct (fltb fzero x) eqn:E; [done|]. pose proof (fltb_false_fleb fzero x eq_refl Hx E) as E'. by rewrite E' in H. Qed.

Lemma checked_lots_ok body max_lots missing l : checked_lots body max_lots missing = Ok l -> within_cap max_lots l.
Proof.
  unfold checked_lots. destruct (is_blank _); [done|]. intros (x & _ & H)%rbind_ok.
  destruct (negb (is_finite x) || fleb x fzero) eqn:E1; [done|]. bsimp.
  destruct max_lots as [m|]; [|done]. destruct (negb (is_finite m) || fleb m fzero) eqn:E2; [done|]. bsimp.
  destruct (fltb (fmin m HARD_MAX_LOTS) x) eqn:E3; [done|]. injection H as <-.
  apply is_finite_not_nan in H0, H2.
  assert (is_nan (fmin m HARD_MAX_LOTS) = false) as Hn.
  { unfold fmin. destruct (fltb HARD_MAX_LOTS m); [reflexivity|exact H2]. }
  apply (fltb_false_fleb _ _ Hn H0) in E3. split_and!.
  - by apply positive_of_fleb.
  - eapply fleb_trans; [exact E3|]. by apply fmin_le_r.
  - exists m. split; [done|]. eapply fleb_trans; [exact E3|]. by apply fmin_le_l.
Qed.

(** ** Shapes *)

(** A plain alert: known words, a size within the cap when it opens, a price
    exactly when it is not at the market *)
Definition good_alert (max_lots : price) (a : Alert) : Prop :=
  al_action a ∈ ACTIONS /\ al_order_type a ∈ ORDER_TYPES /\ (al_order_type a = "market" <-> al_price a = None) /\
  (al_action a ∈ ["buy"; "sell"] -> exists l, al_lots a = Some l /\ within_cap max_lots l).

Lemma parse_alert_good body m a : parse_alert body m = Ok a -> good_alert m a.
Proof.
  unfold parse_alert, good_alert. destruct body; try done.
  set (action := str_lower _). destruct (bool_decide (action ∈ ACTIONS)) eqn:Ea; [|done]. apply bool_decide_eq_true in Ea.
  simpl. intros (symbol & _ & H)%rbind_ok. apply rbind_ok in H as (id & _ & H).
  destruct (bool_decide (action ∈ ["close"; "cancel"])) eqn:Ec.
  { injection H as <-. apply bool_decide_eq_true in Ec. split_and!; [done|by left|done|]. simpl.
    rewrite !elem_of_cons, !elem_of_nil in *. intros [He|[He|[]]]; rewrite He in Ec; naive_solver. }
  unfold order_alert in H. apply rbind_ok in H as (lots & Hl & H). apply checked_lots_ok in Hl.
  apply rbind_ok in H as (sl & _ & H). apply rbind_ok in H as (tp & _ & H).
  destruct (bool_decide (order_type_of l ∈ ORDER_TYPES)) eqn:Et; [|done]. apply bool_decide_eq_true in Et. simpl in H.
  apply rbind_ok in H as (p & _ & H). destruct (_ && _) eqn:Ep; [done|]. injection H as <-. simpl.
  split_and!; [done|done| |by intros _; exists lots].
  destruct (bool_decide (order_type_of l = "market")) eqn:Em.
  - by apply bool_decide_eq_true in Em.
  - simpl in Ep. bsimp. split; [done|]. by intros ->.
Qed.

Definition good_vt (max_lots : price) (vt : VTAlert) : Prop :=
  vt_role vt ∈ ROLES /\ vt_bias vt ∈ BIASES /\
  (vt_role vt = "ltf" -> exists l, vt_lots vt = Some l /\ within_cap max_lots l).

Lemma parse_vt_good body m vt : parse_vt_alert body m = Ok vt -> good_vt m vt.
Proof.
  unfold parse_vt_alert, good_vt. destruct body; try done.
  destruct (bool_decide (text_of l "role" ∈ ROLES)) eqn:Er; [|done]. apply bool_decide_eq_true in Er. cbn [negb].
  intros (symbol & _ & H)%rbind_ok. destruct (bool_decide (text_of l "tf" = "")); [done|].
  destruct (bool_decide (text_of l "bias" ∈ BIASES)) eqn:Eb; [|done]. apply bool_decide_eq_true in Eb. cbn [negb] in H.
  do 6 apply rbind_ok in H as (? & _ & H).
  destruct (bool_decide (text_of l "role" = "htf")) eqn:Eh.
  - apply bool_decide_eq_true in Eh. injection H as <-. simpl. rewrite Eh. split_and!; [by left|done|done].
  - apply rbind_ok in H as (trigger & _ & H). apply rbind_ok in H as (lots & Hl & H). apply checked_lots_ok in Hl.
    injection H as <-. simpl. split_and!; [done|done|]. by exists lots.
Qed.

(** ** Tickers *)

Definition valid_name (name : string) : Prop :=
  str_all is_name_char name = true /\ (3 <= String.length name <= 20)%nat.
Definition exchange_char (c : ascii) : bool := is_name_char c || bool_decide (c = "_"%char).

Lemma name_char_facts c : is_name_char c = true ->
  char_upper c = c /\ is_space c = false /\ c <> "."%char /\ c <> "!"%char /\ c <> ":"%char.
Proof. destruct c as [[] [] [] [] [] [] [] []]; vm_compute; intros; try done; split_and!; done. Qed.
Lemma exchange_char_facts c : exchange_char c = true -> char_upper c = c /\ is_space c = false /\ c <> ":"%char.
Proof. destruct c as [[] [] [] [] [] [] [] []]; vm_compute; intros; try done; split_and!; done. Qed.

(** A decoration as a broker or a charting tool appends one: it starts at a point. *)
Definition decoration (d : string) : Prop := d = "" \/ exists d', d = String "." d' /\ deco_match DStart d = true.

Lemma deco_chars q d : deco_match q d = true -> str_all (fun c => is_name_char c || bool_decide (c = "!"%char) || bool_decide (c = "."%char)) d = true.
Proof.
  revert q. induction d as [|c d IH]; intros q; simpl; [done|].
  destruct (deco_step q c) as [q'|] eqn:E; [|done]. intros H. rewrite (IH q' H), andb_true_r.
  revert E. clear. unfold deco_step, deco_token, is_name_char. destruct (is_digit c) eqn:Ed; [by rewrite orb_true_r|].
  destruct (bool_decide (c = "!"%char)); [by rewrite orb_true_r|]. destruct (bool_decide (c = "."%char)); [by rewrite orb_true_r|].
  destruct (is_capital c); [done|]. by destruct q.
Qed.

(** Text of such characters is untouched by [strip] and [upper]. *)
Definition plain_char (c : ascii) : bool := negb (is_space c) && bool_decide (char_upper c = c).
Lemma strip_upper_plain s : str_all plain_char s = true -> str_upper (str_strip s) = s.
Proof.
  intros Hs. unfold str_strip.
  assert (str_all (fun c => negb (is_space c)) s = true) as Hsp.
  { eapply str_all_impl; [|done]. intros c Hc. unfold plain_char in Hc. by bsimp; apply negb_true_iff. }
  rewrite lstrip_nospace, rstrip_nospace by done. clear Hsp.
  induction s as [|c s IH]; simpl in *; [done|]. unfold plain_char in Hs at 1. bsimp. by rewrite IH; [f_equal|].
Qed.

Lemma name_plain c : is_name_char c = true -> plain_char c = true.
Proof. intros H. destruct (name_char_facts c H) as (Hu & Hs & _). unfold plain_char. by rewrite Hs, bool_decide_eq_true_2. Qed.

(** No match begins inside a name that ends or is followed by a point. *)
Lemma deco_in_name q name d :
  q = DStart \/ q = DDigits -> str_all is_name_char name = true -> (name <> "" \/ q = DDigits) -> decoration d ->
  deco_match q (name +:+ d) = false.
Proof.
  revert q. induction name as [|c name IH]; intros q Hq Hall Hne Hd; simpl.
  - destruct Hne as [?| ->]; [done|]. destruct Hd as [-> | (d' & -> & _)]; reflexivity.
  - simpl in Hall. bsimp. pose proof (name_char_facts c H) as (_ & _ & Hdot & Hmark & _).
    assert (deco_step q c = if is_digit c then Some DDigits else None) as ->.
    { destruct Hq as [-> | ->]; unfold deco_step, deco_token; destruct (is_digit c); try done;
        rewrite ?(bool_decide_eq_false_2 (c = "!"%char)), ?(bool_decide_eq_false_2 (c = "."%char)) by done; done. }
    destruct (is_digit c); [|done]. apply IH; auto.
Qed.

Lemma strip_suffixes_name name d :
  str_all is_name_char name = true -> decoration d -> strip_suffixes (name +:+ d) = name.
Proof.
  intros Hall Hd. induction name as [|c name IH].
  - destruct Hd as [-> |(d' & -> & Hm)]; [done|].
    change (strip_suffixes (String "." d') = ""). cbn [strip_suffixes]. by rewrite Hm.
  - assert (deco_match DStart (String c name +:+ d) = false) as Hno by (apply deco_in_name; [by left|done|by left|done]).
    simpl in Hall. bsimp. rewrite str_app_cons in *. cbn [strip_suffixes]. rewrite Hno. by rewrite IH.
Qed.

Lemma span_all P s t : str_all P s = true -> match t with String c _ => P c = false | EmptyString => True end ->
  span P (s +:+ t) = (s, t).
Proof.
  intros Hs Ht. induction s as [|c s IH]; simpl in *.
  - destruct t as [|c t]; [done|]. simpl. by rewrite Ht.
  - bsimp. rewrite H. by rewrite IH.
Qed.

Lemma allowed_name name : valid_name name -> allowed_ticker name = true.
Proof.
  intros [Hall Hlen]. unfold allowed_ticker. pose proof (span_all is_name_char name "" Hall I) as Hs.
  rewrite str_app_nil_r in Hs. rewrite Hs. apply andb_true_iff. split; [|done].
  apply andb_true_iff. split; apply Nat.leb_le; lia.
Qed.

(** Without an exchange in front: no colon *)
Lemma strip_exchange_none s : has_char ":" s = false -> strip_exchange s = s.
Proof.
  intros Hno. unfold strip_exchange.
  assert (forall P t a b, has_char ":" t = false -> span P t = (a, b) -> match b with String c _ => c <> ":"%char | EmptyString => True end) as Hspan.
  { intros P t. induction t as [|c t IH]; simpl; intros a b Ht Heq; [by simplify_eq|]. bsimp. destruct (P c).
    - destruct (span P t) as [a' b'] eqn:E. simplify_eq. by eapply IH.
    - simplify_eq. congruence. }
  destruct (span _ s) as [a b] eqn:E. pose proof (Hspan _ s a b Hno E) as Hb. destruct a as [|c a]; [done|].
  destruct b as [|c' b]; [done|]. destruct (decide (c' = ":"%char)) as [->|Hne]; [done|].
  clear -Hne. destruct c' as [[] [] [] [] [] [] [] []]; done.
Qed.

Lemma strip_exchange_some ex s : ex <> "" -> str_all exchange_char ex = true -> strip_exchange (ex +:+ String ":" s) = s.
Proof.
  intros Hne Hall. unfold strip_exchange. fold exchange_char. rewrite (span_all exchange_char ex (String ":" s)); [|done|done].
  by destruct ex.
Qed.

Lemma deco_no_colon q d : deco_match q d = true -> has_char ":" d = false.
Proof. intros H%deco_chars. eapply str_all_has_char; [|exact H]. done. Qed.

(** However a ticker is written -- with an exchange in front, with any decoration from a point on -- the alert trades the
    bare symbol, and the bare symbol is read as itself. *)
Theorem ticker_canonical name ex d :
  valid_name name -> ex = "" \/ (exists e, ex = e +:+ ":" /\ e <> "" /\ str_all exchange_char e = true) -> decoration d ->
  normalise_ticker (JStr (ex +:+ name +:+ d)) = Ok name.
Proof.
  intros Hname Hex Hd. pose proof Hname as [Hall Hlen].
  assert (str_all plain_char d = true) as Hpd.
  { destruct Hd as [-> |(d' & -> & Hm)]; [done|]. eapply str_all_impl; [|by eapply deco_chars].
    intros c Hc. destruct (is_name_char c) eqn:E; [by apply name_plain|].
    cbv beta in Hc. rewrite E in Hc. apply orb_true_iff in Hc as [Hc|Hc]; apply bool_decide_eq_true in Hc; by subst. }
  assert (str_all plain_char (name +:+ d) = true) as Hpn.
  { rewrite str_all_app, Hpd, andb_true_r. eapply str_all_impl; [|done]. apply name_plain. }
  assert (has_char ":" (name +:+ d) = false) as Hcolon.
  { rewrite has_char_app. apply orb_false_iff. split.
    - eapply str_all_has_char; [|exact Hall]. done.
    - destruct Hd as [-> |(d' & -> & Hm)]; [done|by eapply deco_no_colon]. }
  assert (strip_exchange (str_upper (str_strip (ex +:+ name +:+ d))) = name +:+ d) as E.
  { destruct Hex as [-> |(e & -> & Hne & He)].
    - rewrite strip_upper_plain by done. by apply strip_exchange_none.
    - rewrite strip_upper_plain.
      + rewrite str_app_assoc. by apply strip_exchange_some.
      + rewrite !str_all_app in *. rewrite Hpn, andb_true_r. apply andb_true_iff. split; [|done].
        eapply str_all_impl; [|done]. intros c Hc. destruct (exchange_char_facts c Hc) as (Hu & Hs & _).
        unfold plain_char. by rewrite Hs, bool_decide_eq_true_2. }
  unfold normalise_ticker. rewrite E, strip_suffixes_name, allowed_name by done. done.
Qed.
