(* ===== verification/Owners.v ===== *)
(** * Requests that own what they wrote

    A second logic for pools of requests ([Prog]): [keeps i s s'] says that a
    move leaves what request [i] owns as it was.  A request may rely on the
    others to keep its own things, and must keep theirs; all keep the invariant
    [I].  The pool's environment [E] (the clock, operators) moves too. *)

From S2P Require Import Prelude Prog.

Section owners.
Context {S : Type} (I : S -> Prop) (keeps : nat -> S -> S -> Prop) {keeps_pre : forall i, PreOrder (keeps i)}.

(** A move of request [i] *)
Definition own_move (i : nat) (s s' : S) : Prop := I s' /\ forall j, j <> i -> keeps j s s'.

Fixpoint wpo {A} (i : nat) (p : prog S A) (Q : result A -> S -> Prop) (s : S) : Prop :=
  match p with
  | Ret a => Q (Ok a) s
  | Throw e => Q (Raise e) s
  | Step upd k => forall s', keeps i s s' -> I s' -> own_move i s' (upd s') /\ wpo i (k s') Q (upd s')
  end.

Lemma wpo_mono {A} i (p : prog S A) (Q Q' : result A -> S -> Prop) s :
  (forall r s', Q r s' -> Q' r s') -> wpo i p Q s -> wpo i p Q' s.
Proof.
  intros HQ. revert s. induction p as [a|e|upd k IH]; intros s; simpl; [apply HQ|apply HQ|].
  intros H s' HR HI. destruct (H s' HR HI). split; [done|by apply IH].
Qed.
Lemma wpo_bind {A B} i (p : prog S A) (f : A -> prog S B) Q s :
  wpo i p (fun r s' => match r with Ok a => wpo i (f a) Q s' | Raise e => Q (Raise e) s' end) s -> wpo i (pbind p f) Q s.
Proof.
  revert s. induction p as [a|e|upd k IH]; intros s; simpl; [done|done|].
  intros H s' HR HI. destruct (H s' HR HI). split; [done|by apply IH].
Qed.
Lemma wpo_catch {A} i (p : prog S A) (h : exn -> prog S A) Q s :
  wpo i p (fun r s' => match r with Ok a => Q (Ok a) s' | Raise e => wpo i (h e) Q s' end) s -> wpo i (pcatch p h) Q s.
Proof.
  revert s. induction p as [a|e|upd k IH]; intros s; simpl; [done|done|].
  intros H s' HR HI. destruct (H s' HR HI). split; [done|by apply IH].
Qed.
Lemma wpo_of_result {A} i (r : result A) Q s : Q r s -> wpo i (of_result r) Q s.
Proof. by destruct r. Qed.
Lemma wpo_stmt {A} i (m : M S A) Q s :
  (forall s', keeps i s s' -> I s' -> own_move i s' (exec m s') /\ Q (value m s') (exec m s')) -> wpo i (stmt m) Q s.
Proof. intros H s' HR HI. destruct (H s' HR HI). split; [done|by apply wpo_of_result]. Qed.
Lemma wpo_query {A} i (f : S -> A) Q s :
  (forall s', keeps i s s' -> I s' -> Q (Ok (f s')) s') -> wpo i (query f) Q s.
Proof. intros H. apply wpo_stmt. intros s' HR HI. split; [split; [done|intros; reflexivity]|by apply H]. Qed.

(** The others' moves do not disturb a request. *)
Lemma wpo_later {A} i (p : prog S A) Q s s' :
  (forall r t t', keeps i t t' -> Q r t -> Q r t') -> keeps i s s' -> wpo i p Q s -> wpo i p Q s'.
Proof.
  intros HQ HR. destruct p as [a|e|upd k]; simpl; [by apply HQ|by apply HQ|]. intros H t Ht. apply H. by trans s'.
Qed.

(** *** Pools *)

Inductive pool_move {A} (E : S -> S -> Prop) : relation (list (prog S A) * S) :=
  | environment_moves ps s s' : E s s' -> pool_move E (ps, s) (ps, s')
  | request_moves i p ps s : ps !! i = Some p ->
      pool_move E (ps, s) (<[i := (advance p s).1]> ps, (advance p s).2).

Context {A : Type} (E : S -> S -> Prop) (Q : nat -> result A -> S -> Prop).
Hypothesis (E_keeps : forall s s' i, E s s' -> keeps i s s') (E_inv : forall s s', E s s' -> I s -> I s').
Hypothesis Q_stable : forall i r s s', keeps i s s' -> Q i r s -> Q i r s'.

Definition all_well (w : list (prog S A) * S) : Prop :=
  I w.2 /\ forall i p, w.1 !! i = Some p -> wpo i p (Q i) w.2.

Lemma pool_move_well w w' : pool_move E w w' -> all_well w -> all_well w'.
Proof.
  intros [ps s s' HE|j p ps s Hp] [HI Hw]; simpl in *.
  - split; [by eapply E_inv|]. intros i p Hp. eapply wpo_later; [apply Q_stable|by apply E_keeps|by apply Hw].
  - pose proof (Hw j p Hp) as Hj. destruct p as [a|e|upd k]; simpl in *.
    + rewrite list_insert_id by done. by split.
    + rewrite list_insert_id by done. by split.
    + destruct (Hj s) as ([HI' Hk] & Hwp); [reflexivity|done|]. split; [done|]. simpl. intros i q Hq.
      destruct (decide (i = j)) as [->|Hne].
      * rewrite list_lookup_insert_eq in Hq by (by eapply lookup_lt_Some). by simplify_eq.
      * rewrite list_lookup_insert_ne in Hq by done. eapply wpo_later; [apply Q_stable|by apply Hk|by apply Hw].
Qed.

(** At every point of every run the invariant holds, and who has answered has
    answered well. *)
Lemma pool_runs_well w w' : rtc (pool_move E) w w' -> all_well w -> all_well w'.
Proof. induction 1 as [|w1 w2 w3 H _ IH]; [done|]. intros Hw. eapply IH, pool_move_well; eauto. Qed.
End owners.

(** ** What a program does itself, and how it ends *)

Section ends.
Context {S : Type} (I : S -> Prop) (G : S -> S -> Prop).

(** As [makes] of [Prog], with a condition on the result *)
Fixpoint ends {A} (p : prog S A) (Q : result A -> Prop) : Prop :=
  match p with
  | Ret a => Q (Ok a)
  | Throw e => Q (Raise e)
  | Step upd k => forall s, I s -> G s (upd s) /\ ends (k s) Q
  end.

Lemma ends_makes {A} (p : prog S A) Q : ends p Q -> makes I G p.
Proof.
  induction p as [a|e|upd k IH]; simpl; [done|done|]. intros H s Hs. destruct (H s Hs). split; [done|by apply IH].
Qed.
Lemma makes_ends {A} (p : prog S A) : makes I G p -> ends p (fun _ => True).
Proof.
  induction p as [a|e|upd k IH]; simpl; [done|done|]. intros H s Hs. destruct (H s Hs). split; [done|by apply IH].
Qed.
Lemma ends_mono {A} (p : prog S A) (Q Q' : result A -> Prop) : (forall r, Q r -> Q' r) -> ends p Q -> ends p Q'.
Proof.
  intros HQ. induction p as [a|e|upd k IH]; simpl; [apply HQ|apply HQ|]. intros H s Hs.
  destruct (H s Hs). split; [done|by apply IH].
Qed.
Lemma ends_then {A B} (p : prog S A) (f : A -> prog S B) Q :
  ends p (fun r => match r with Ok a => ends (f a) Q | Raise e => Q (Raise e) end) -> ends (pbind p f) Q.
Proof.
  induction p as [a|e|upd k IH]; simpl; [done|done|]. intros H s Hs. destruct (H s Hs). split; [done|by apply IH].
Qed.
Lemma ends_catch {A} (p : prog S A) h Q :
  ends p (fun r => match r with Ok a => Q (Ok a) | Raise e => ends (h e) Q end) -> ends (pcatch p h) Q.
Proof.
  induction p as [a|e|upd k IH]; simpl; [done|done|]. intros H s Hs. destruct (H s Hs). split; [done|by apply IH].
Qed.
Lemma ends_of_result {A} (r : result A) (Q : result A -> Prop) : Q r -> ends (of_result r) Q.
Proof. by destruct r. Qed.
Lemma ends_stmt {A} (m : M S A) (Q : result A -> Prop) : (forall s, I s -> G s (exec m s) /\ Q (value m s)) -> ends (stmt m) Q.
Proof. intros H s Hs. destruct (H s Hs). split; [done|by apply ends_of_result]. Qed.
Lemma ends_query {A} (f : S -> A) (Q : result A -> Prop) : (forall s, I s -> G s s /\ Q (Ok (f s))) -> ends (query f) Q.
Proof. apply (ends_stmt (gets f)). Qed.
End ends.

(** Taking turns is one run of the pool. *)
Lemma run_pool_reachable {S A} (E : S -> S -> Prop) schedule (w : list (prog S A) * S) :
  rtc (pool_move E) w (run_pool schedule w).
Proof.
  revert w. induction schedule as [|i schedule IH]; intros [ps s]; [done|]. simpl. etrans; [|apply IH].
  unfold pool_step. simpl. destruct (ps !! i) as [p|] eqn:Ep; [|done]. apply rtc_once.
  pose proof (request_moves E i p ps s Ep) as Hmove. by destruct (advance p s).
Qed.
