(* ===== verification/Webhook.v ===== *)
(** * The alert receiver: [api/routes/webhooks.py] and [api/netaddr.py]

    The one route that places orders without a session.  A request is a program
    ([Prog]) whose steps are its SQL statements (the transaction of the duplicate
    check is one step), its calls to the copier, and its readings of the clock
    and the limiter; other requests, the copier and the operators act in between.

    [reply] is what the copier answers to the [n]-th call, [sha256] the digest,
    [json_loads] the decoder of the standard library ([None]: it raised).  One
    clock, in microseconds, stands for the server's and the database's.  The log
    of calls is a ghost: it also notes the request and the receipt a call was
    made for, and [re_request] the request that wrote a receipt.  Text is bytes;
    the latency columns, log lines and the actor are left out. *)

From S2P Require Import Prelude PyStr PyFloat PyRepr Db PyJson Repo Limiter Prog Alerts.
From Stdlib Require Import Ascii SpecFloat.

(** ** Which address is judged *)

Definition _LOOPBACK : list string := ["127.0.0.1"; "::1"; "localhost"].

(** [_is_trusted_proxy]: [gateway] is [_container_gateway()], [in_networks]
    whether the address is in a network of TRUSTED_PROXY_IPS. *)
Definition _is_trusted_proxy (gateway : option string) (in_networks : string -> bool) (peer : string) : bool :=
  bool_decide (peer ∈ _LOOPBACK) || bool_decide (gateway = Some peer) || in_networks peer.

(** [get_client_ip(request, trust_proxy=True)]: the last hop *)
Definition get_client_ip (peer : string) (forwarded : option string) : string :=
  match forwarded with
  | None | Some "" => peer
  | Some f =>
      default peer (last (List.filter (fun h => negb (bool_decide (h = ""))) (str_strip <$> str_split "," f)))
  end.

Definition client_ip (trust_proxy : bool) (gateway : option string) (in_networks : string -> bool)
    (peer : string) (forwarded : option string) : string :=
  if trust_proxy && _is_trusted_proxy gateway in_networks peer then get_client_ip peer forwarded else peer.

(** ** The tables *)

(** [org_webhooks]; the cap in ten-thousandths of a lot (NUMERIC(10, 4)) *)
Record Hook := {
  ho_org : Z;
  ho_hook_id : string;
  ho_secret_hash : option string;
  ho_enabled : bool;
  ho_max_lots : Z;
  ho_max_per_minute : Z;
  ho_max_open : Z;
  ho_aliases : payload;
  ho_ltf_timeframes : list string
}.

(** [webhook_receipts] *)
Record Receipt := {
  re_id : Z;
  re_request : nat;
  re_org : Z;
  re_received_at : Z;
  re_outcome : string;
  re_reason : option string;
  re_action : option string;
  re_symbol : option string;
  re_lots : price;
  re_fingerprint : option string;
  re_alert_id : option string;
  re_source_ip : string;
  re_body : option json
}.

(** [vt_htf_snapshots], per org and symbol *)
Record SnapshotRow := { hs_entry : float64; hs_price : float64; hs_snapshot : VTSnapshot }.

(** ** Calls to the copier *)

Record OrderBody := {
  ob_account_id : Z;
  ob_symbol : string;
  ob_side : string;
  ob_order_type : string;
  ob_volume_lots : price;
  ob_stop_price : price;
  ob_limit_price : price;
  ob_stop_loss : price;
  ob_take_profit : price
}.

Inductive copier_call :=
  | GetState (org : Z)
  | PostResync (org : Z)
  | PostOrder (o : OrderBody)
  | PostClose (account : Z) (position_id : json)
  | PostCancel (account : Z) (order_id : json).

(** How a call ends: it never left, or it was written and not confirmed (the
    text of the exception), or it was answered. *)
Inductive copier_reply :=
  | NotSent (why : string)
  | Unconfirmed (why : string)
  | Answered (status : Z) (body : option json) (text : string).

Record LoggedCall := { lc_request : nat; lc_receipt : Z; lc_call : copier_call; lc_reply : copier_reply; lc_at : Z }.

Record webhooks := {
  wb_db : db;
  wb_hooks : list Hook;
  wb_receipts : list Receipt;
  wb_next_receipt : Z;
  wb_snapshots : gmap (Z * string) SnapshotRow;
  wb_limiter : limiter;
  wb_calls : list LoggedCall;
  wb_now : Z
}.

Definition set_wb_db (v : db) (s : webhooks) : webhooks :=
  {| wb_db := v; wb_hooks := wb_hooks s; wb_receipts := wb_receipts s; wb_next_receipt := wb_next_receipt s;
     wb_snapshots := wb_snapshots s; wb_limiter := wb_limiter s; wb_calls := wb_calls s; wb_now := wb_now s |}.
Definition set_wb_hooks (v : list Hook) (s : webhooks) : webhooks :=
  {| wb_db := wb_db s; wb_hooks := v; wb_receipts := wb_receipts s; wb_next_receipt := wb_next_receipt s;
     wb_snapshots := wb_snapshots s; wb_limiter := wb_limiter s; wb_calls := wb_calls s; wb_now := wb_now s |}.
Definition set_wb_receipts (v : list Receipt) (n : Z) (s : webhooks) : webhooks :=
  {| wb_db := wb_db s; wb_hooks := wb_hooks s; wb_receipts := v; wb_next_receipt := n;
     wb_snapshots := wb_snapshots s; wb_limiter := wb_limiter s; wb_calls := wb_calls s; wb_now := wb_now s |}.
Definition set_wb_snapshots (v : gmap (Z * string) SnapshotRow) (s : webhooks) : webhooks :=
  {| wb_db := wb_db s; wb_hooks := wb_hooks s; wb_receipts := wb_receipts s; wb_next_receipt := wb_next_receipt s;
     wb_snapshots := v; wb_limiter := wb_limiter s; wb_calls := wb_calls s; wb_now := wb_now s |}.
Definition set_wb_limiter (v : limiter) (s : webhooks) : webhooks :=
  {| wb_db := wb_db s; wb_hooks := wb_hooks s; wb_receipts := wb_receipts s; wb_next_receipt := wb_next_receipt s;
     wb_snapshots := wb_snapshots s; wb_limiter := v; wb_calls := wb_calls s; wb_now := wb_now s |}.
Definition set_wb_calls (v : list LoggedCall) (s : webhooks) : webhooks :=
  {| wb_db := wb_db s; wb_hooks := wb_hooks s; wb_receipts := wb_receipts s; wb_next_receipt := wb_next_receipt s;
     wb_snapshots := wb_snapshots s; wb_limiter := wb_limiter s; wb_calls := v; wb_now := wb_now s |}.
Definition set_wb_now (v : Z) (s : webhooks) : webhooks :=
  {| wb_db := wb_db s; wb_hooks := wb_hooks s; wb_receipts := wb_receipts s; wb_next_receipt := wb_next_receipt s;
     wb_snapshots := wb_snapshots s; wb_limiter := wb_limiter s; wb_calls := wb_calls s; wb_now := v |}.

(** ** Secrets *)

Definition SECRET_PREFIXES : list string := ["tvw_"; "mt5_"].
Definition secret_shaped (s : string) : bool := existsb (fun p => str_starts p s) SECRET_PREFIXES.

Fixpoint _redact (value : json) : json :=
  match value with
  | JStr s => if secret_shaped s then JStr "***" else value
  | JObj kvs => JObj ((fun kv => (kv.1, _redact kv.2)) <$> kvs)
  | JList l => JList (_redact <$> l)
  | _ => value
  end.

(** A character of a secret-shaped token behind its prefix *)
Definition token_char (c : ascii) : bool :=
  is_name_char c || in_range "a" "z" c || bool_decide (c = "_"%char) || bool_decide (c = "-"%char).

(** [_SECRET_SHAPED.sub("***", text)]; [inside]: within a token that was
    replaced *)
Fixpoint scrub (skip : nat) (inside : bool) (text : string) : string :=
  match text with
  | EmptyString => EmptyString
  | String c text' =>
      match skip with
      | Datatypes.S n => scrub n inside text'
      | O =>
          if inside && token_char c then scrub O true text'
          else if secret_shaped text then "***" +:+ scrub 3 true text'
          else String c (scrub O false text')
      end
  end.
Definition scrub_secrets (text : string) : string := scrub O false text.

Example scrubbed : scrub_secrets "key=tvw_ab-C9 and mt5_x, tvwtvw_1" = "key=*** and ***, tvw***".
Proof. reflexivity. Qed.

Fixpoint str_map (f : ascii -> ascii) (s : string) : string :=
  match s with String c s' => String (f c) (str_map f s') | EmptyString => EmptyString end.
Definition is_control (c : ascii) : bool := (nat_of_ascii c <? 32)%nat || (nat_of_ascii c =? 127)%nat.

Definition _safe_preview (text : string) : string :=
  str_map (fun c => if is_control c then " "%char else c) (str_take 30 (scrub_secrets text)).

Definition _CURLY_QUOTES : list string := ["“"; "”"; "‘"; "’"].

Definition _not_json_hint (raw : string) : string :=
  let text := str_strip raw in
  if bool_decide (text = "") then "the Message box is empty"
  else if existsb (fun q => str_contains q text) _CURLY_QUOTES
  then "it contains curly quotes -- the phone keyboard replaced the straight quotes; " +:+
       "delete the box and paste the template again without typing into it"
  else if negb (str_starts "{" text)
  then "it begins with " +:+ py_repr (_safe_preview text) +:+ " instead of { -- the Message box still has " +:+
       "TradingView's own text; delete it and paste the template"
  else "it begins with { but is not complete JSON -- delete the Message box and paste the whole " +:+
       "template again, nothing before or after it".

(** ** Fingerprints *)

(** [json.dumps], of the values a fingerprint is made of *)
Definition escape_char (c : ascii) : string :=
  let n := nat_of_ascii c in
  if bool_decide (c = double_quote) || bool_decide (c = "\"%char) then String "\" (String c "")
  else if (n =? 10)%nat then "\n" else if (n =? 13)%nat then "\r" else if (n =? 9)%nat then "\t"
  else if (n =? 8)%nat then "\b" else if (n =? 12)%nat then "\f"
  else if (n <? 32)%nat || (127 <? n)%nat
       then "\u00" +:+ String (hex_digit (n / 16)%nat) (String (hex_digit (n mod 16)%nat) "")
  else String c "".
Fixpoint escaped (s : string) : string :=
  match s with String c s' => escape_char c +:+ escaped s' | EmptyString => EmptyString end.
Definition dump_string (s : string) : string := String double_quote (escaped s) +:+ String double_quote "".

Definition dump_float (x : float64) : string :=
  match x with
  | S754_nan => "NaN"
  | S754_infinity s => if s then "-Infinity" else "Infinity"
  | _ => float_repr x
  end.

Definition dump_value (v : json) : string :=
  match v with
  | JBool b => if b then "true" else "false"
  | JInt z => pretty z
  | JFloat x => dump_float x
  | JStr s => dump_string s
  | _ => "null"
  end.
Definition json_dumps (parts : list json) : string := "[" +:+ str_join ", " (dump_value <$> parts) +:+ "]".

Section receiver.
Context (sha256 : string -> string) (json_loads : string -> option json)
        (reply : nat -> copier_call -> copier_reply) (extra_ips : list string).

Definition _hash (secret : string) : string := sha256 secret.

Definition fingerprint_parts (org_id : Z) (alert : Alert) : list json :=
  [JInt org_id; JStr (al_action alert); JStr (al_symbol alert); JPrice (al_lots alert); JPrice (al_stop_loss alert);
   JPrice (al_take_profit alert); JStr (al_order_type alert); JPrice (al_price alert);
   if bool_decide (al_action alert = "cancel") then JOptStr (al_alert_id alert) else JNull].
Definition _fingerprint (org_id : Z) (alert : Alert) : string := sha256 (json_dumps (fingerprint_parts org_id alert)).

Definition _vt_fingerprint (org_id : Z) (vt : VTAlert) : string :=
  sha256 (json_dumps [JInt org_id; JStr "vt"; JStr (vt_role vt); JStr (vt_symbol vt); JStr (vt_tf vt); JInt (vt_bar_ms vt)]).

(** ** One call to the copier *)

Definition _TRANSIENT_400 : list string :=
  ["no client for account"; "not found"; "not authorized"; "no live price"; "is starting"; "not connected"].

(** [str(payload.get("detail") or payload.get("error") or response.text or "copier error")] *)
Definition error_detail (p : payload) (text : string) : string :=
  json_str (if json_bool (get p "detail") then get p "detail"
            else if json_bool (get p "error") then get p "error"
            else if bool_decide (text = "") then JStr "copier error" else JStr text).

Definition classify (r : copier_reply) : result payload :=
  match r with
  | NotSent why => Raise (CopierDown why)
  | Unconfirmed why => Raise (CopierUnknown why)
  | Answered status body text =>
      if 500 <=? status then Raise (CopierUnknown ("copier answered " +:+ pretty status))
      else
        let body := default (JObj []) body in
        if 400 <=? status
        then match body with
             | JObj p =>
                 let detail := error_detail p text in
                 if existsb (fun phrase => str_contains phrase (str_lower detail)) _TRANSIENT_400
                 then Raise (CopierDown detail) else Raise (WebhookRejected 422 detail)
             | _ => Raise (AttributeError "object has no attribute 'get'")
             end
        else Ok (match body with JObj p => p | _ => [] end)
  end.

Definition DEADLINE_US : Z := 2000000.

(** [remaining()]: nothing is called past the deadline. *)
Definition remaining (t0 : Z) : M webhooks unit :=
  let! now := gets wb_now in
  if DEADLINE_US <=? now - t0 then raise (CopierDown "too slow, nothing sent") else ret tt.

Definition perform (request : nat) (receipt : Z) (c : copier_call) : M webhooks copier_reply :=
  let! calls := gets wb_calls in
  let! now := gets wb_now in
  let r := reply (length calls) c in
  modify (set_wb_calls (calls ++ [{| lc_request := request; lc_receipt := receipt; lc_call := c; lc_reply := r; lc_at := now |}])) ;;;
  ret r.

(** [_copier(..., remaining())], with the deadline checked in the same turn *)
Definition _copier (request : nat) (receipt t0 : Z) (c : copier_call) : M webhooks payload :=
  remaining t0 ;;;
  let! r := perform request receipt c in
  lift_result (classify r).

(** ** Recording *)

Record response := { rs_status : Z; rs_body : payload }.
Abbreviation handler := (prog webhooks).
Definition _json (status : Z) (body : payload) : response := {| rs_status := status; rs_body := body |}.

(** Who is asking: the request's number, its address, when it came *)
Record caller := { ca_request : nat; ca_ip : string; ca_t0 : Z }.

Definition _insert (who : caller) (org_id : Z) (body : option json) (alert : option Alert) (outcome : string)
    (reason fp : option string) : M webhooks Z :=
  let! receipts := gets wb_receipts in
  let! id := gets wb_next_receipt in
  let! now := gets wb_now in
  modify (set_wb_receipts (receipts ++
    [{| re_id := id; re_request := ca_request who; re_org := org_id; re_received_at := now; re_outcome := outcome;
        re_reason := reason; re_action := al_action <$> alert; re_symbol := al_symbol <$> alert;
        re_lots := alert ≫= al_lots; re_fingerprint := fp; re_alert_id := alert ≫= al_alert_id;
        re_source_ip := ca_ip who; re_body := body |}]) (id + 1)) ;;;
  ret id.

Definition finish_row (outcome : string) (reason : option string) (clear_fp : bool) (r : Receipt) : Receipt :=
  {| re_id := re_id r; re_request := re_request r; re_org := re_org r; re_received_at := re_received_at r;
     re_outcome := outcome; re_reason := reason; re_action := re_action r; re_symbol := re_symbol r; re_lots := re_lots r;
     re_fingerprint := if clear_fp then None else re_fingerprint r; re_alert_id := re_alert_id r;
     re_source_ip := re_source_ip r; re_body := re_body r |}.

Definition _finish (receipt_id : Z) (outcome : string) (reason : option string) (clear_fp : bool) : M webhooks unit :=
  let! receipts := gets wb_receipts in
  let! n := gets wb_next_receipt in
  modify (set_wb_receipts ((fun r => if re_id r =? receipt_id then finish_row outcome reason clear_fp r else r) <$> receipts) n).

Definition control_event (org_id : Z) (account : option Z) (sev : severity) (p : payload) : M webhooks unit :=
  modify (fun s => set_wb_db (exec (log_event "control" sev p account (Some org_id)) (wb_db s)) s).

Definition rejected (status receipt_id : Z) (reason : string) : response :=
  _json status [("status", JStr "rejected"); ("receipt_id", JInt receipt_id); ("reason", JStr reason)].

(** A refusal before anything was acted on: the row and its event, in one step *)
Definition _record (who : caller) (org_id : Z) (body : option json) (alert : option Alert) (status : Z)
    (reason : string) : M webhooks response :=
  let! rid := _insert who org_id body alert "rejected" (Some reason) None in
  control_event org_id None (if bool_decide (status ∈ [401; 403; 429]) then Warning else Info)
    ([("action", JStr (match alert with Some a => al_action a | None => "webhook_alert" end)); ("receipt_id", JInt rid);
      ("outcome", JStr "rejected"); ("reason", JStr reason); ("source_ip", JStr (ca_ip who))] ++
     match alert with Some a => [("symbol", JStr (al_symbol a)); ("lots", JPrice (al_lots a))] | None => [] end) ;;;
  ret (rejected status rid reason).

Definition outcome_severity (outcome : string) : severity :=
  if bool_decide (outcome ∈ ["accepted"; "duplicate"]) then Info
  else if bool_decide (outcome = "unknown") then Error else Warning.

(** [_audit] and [_vt_audit]: the alert's own fields, what happened, and a
    detail when there is one *)
Definition _audit (who : caller) (org_id master receipt_id : Z) (alert : payload) (outcome : string) (detail : option json)
    : prog webhooks unit :=
  stmt (control_event org_id (Some master) (outcome_severity outcome)
    ([("action", JStr "webhook_alert"); ("receipt_id", JInt receipt_id); ("outcome", JStr outcome); ("alert", JObj alert);
      ("source_ip", JStr (ca_ip who))] ++
     match detail with Some d => if json_bool d then [("detail", d)] else [] | None => [] end)).
Definition alert_audit (a : Alert) : payload :=
  [("action", JStr (al_action a)); ("symbol", JStr (al_symbol a)); ("lots", JPrice (al_lots a)); ("id", JOptStr (al_alert_id a))].
Definition vt_audit (vt : VTAlert) : payload :=
  [("role", JStr (vt_role vt)); ("symbol", JStr (vt_symbol vt)); ("tf", JStr (vt_tf vt)); ("bias", JStr (vt_bias vt));
   ("entry", JFloat (vt_entry vt)); ("stop", JFloat (vt_stop vt)); ("target", JFloat (vt_target vt)); ("lots", JPrice (vt_lots vt));
   ("bar_ms", JInt (vt_bar_ms vt))].

(** ** The duplicate check and the caps: one transaction *)

Definition DEDUP_WINDOW_US : Z := 20000000.
Definition MINUTE_US : Z := 60000000.

Definition counts (r : Receipt) : bool := bool_decide (re_outcome r ∈ ["accepted"; "unknown"]).

(** An accepted receipt of the same trading content, inside the window *)
Definition is_duplicate (org_id : Z) (fp : string) (now : Z) (r : Receipt) : bool :=
  (re_org r =? org_id) && bool_decide (re_fingerprint r = Some fp) && counts r && (now - DEDUP_WINDOW_US <? re_received_at r).
Definition in_last_minute (org_id now : Z) (r : Receipt) : bool :=
  (re_org r =? org_id) && counts r && (now - MINUTE_US <? re_received_at r).

(** The latest one ([ORDER BY received_at DESC LIMIT 1]) *)
Definition later (a b : Receipt) : Receipt := if re_received_at a <? re_received_at b then b else a.
Definition newest (l : list Receipt) : option Receipt :=
  match l with [] => None | r :: l' => Some (foldl later r l') end.

(** The answer, or the receipt that now holds the fingerprint *)
Definition reserve (who : caller) (org_id max_per_minute : Z) (body : json) (alert : Alert) (fp : string)
    : M webhooks (response + Z) :=
  let! receipts := gets wb_receipts in
  let! now := gets wb_now in
  match newest (List.filter (is_duplicate org_id fp now) receipts) with
  | Some dup =>
      let! rid := _insert who org_id (Some body) (Some alert) "duplicate"
                    (Some ("same alert accepted " +:+ pretty (re_id dup) +:+ " seconds ago")) None in
      ret (inl (_json 200 [("status", JStr "duplicate"); ("receipt_id", JInt rid); ("duplicate_of", JInt (re_id dup))]))
  | None =>
      if max_per_minute <=? Z.of_nat (length (List.filter (in_last_minute org_id now) receipts))
      then let! r := _record who org_id (Some body) (Some alert) 429
             ("more than " +:+ pretty max_per_minute +:+ " alerts accepted in a minute; " +:+
              "raise the limit in Automation if this is intended") in
           ret (inl r)
      else let! rid := _insert who org_id (Some body) (Some alert) "accepted" None (Some fp) in ret (inr rid)
  end.

(** ** Acting on an alert *)

(** How the attempt ended, when it raised; [audit] writes the event. *)
Definition settle_failure (rid : Z) (audit : string -> option json -> handler unit) (e : exn) : handler response :=
  match e with
  | WebhookRejected status reason =>
      stmt (_finish rid "rejected" (Some reason) true) >>>
      audit "rejected" (Some (JObj [("reason", JStr reason)])) >>>
      Ret (rejected status rid reason)
  | CopierDown why =>
      stmt (_finish rid "failed" (Some ("copier unreachable: " +:+ why)) true) >>>
      audit "failed" (Some (JObj [("reason", JStr why)])) >>>
      Ret (_json 503 [("status", JStr "failed"); ("receipt_id", JInt rid); ("reason", JStr "copier unreachable")])
  | CopierUnknown why =>
      stmt (_finish rid "unknown" (Some ("copier did not confirm: " +:+ why)) false) >>>
      audit "unknown" (Some (JObj [("reason", JStr why)])) >>>
      Ret (_json 200 [("status", JStr "unknown"); ("receipt_id", JInt rid);
                      ("reason", JStr "order may be on the wire -- check Positions")])
  | e => Throw e
  end.

Definition side_of (p : json) : result string :=
  match p with JObj p => Ok (str_upper (text_of p "side")) | _ => Raise (AttributeError "object has no attribute 'get'") end.
(** [any(side == opposite for p in rows)] *)
Fixpoint any_side (opposite : string) (rows : list json) : result bool :=
  match rows with
  | [] => Ok false
  | p :: rows' => let? side := side_of p in if bool_decide (side = opposite) then Ok true else any_side opposite rows'
  end.

Definition opposite_held {A} (symbol : string) : result A :=
  Raise (WebhookRejected 422 ("master holds an opposite position on " +:+ symbol +:+
    "; reverse-on-signal is not supported -- send close first")).

(** No opposite row, and room for one more *)
Definition check_room (state : payload) (symbol opposite : string) (against : list json) (max_open : Z) : result unit :=
  let? blocked := any_side opposite against in
  if blocked : bool then opposite_held symbol
  else
    let? positions := rows_of state "master_positions" in
    let? orders := rows_of state "pending_orders" in
    if max_open <=? Z.of_nat (length positions + length orders)
    then Raise (WebhookRejected 422 ("master already holds " +:+ pretty max_open +:+
                 " open positions or pending orders; raise the limit in Automation if this is intended"))
    else Ok tt.

Section act.
Context (who : caller) (master org_id rid : Z).

Definition call (c : copier_call) : handler payload := stmt (_copier (ca_request who) rid (ca_t0 who) c).

Definition accepted (body : payload) : response := _json 200 ([("status", JStr "accepted"); ("receipt_id", JInt rid)] ++ body).

(** Ask for the book, judge it, place the order. *)
Definition place (order : OrderBody) (judge : payload -> result unit) (audit : string -> option json -> handler unit)
    (answer : payload) : handler response :=
  let* state := call (GetState org_id) in
  of_result (judge state) >>>
  let* summary := call (PostOrder order) in
  stmt (_finish rid "accepted" None false) >>>
  audit "accepted" (Some (JObj summary)) >>>
  Ret (accepted (answer ++ [("account_id", JInt master); ("order", JObj summary)])).

(** *** Close and cancel *)

Definition held_positions (state : payload) (symbol : string) : result (list json) :=
  find_master_positions (JObj state) symbol None.

Definition ignore_unknown (p : handler unit) : handler unit :=
  pcatch p (fun e => match e with CopierUnknown _ => Ret tt | e => Throw e end).

(** What is held; when nothing is, once more after a resync *)
Definition book_to_close (symbol : string) : handler (list json) :=
  let* state := call (GetState org_id) in
  let* held := of_result (held_positions state symbol) in
  match held with
  | [] =>
      ignore_unknown (call (PostResync org_id) >>> Ret tt) >>>
      let* state := call (GetState org_id) in of_result (held_positions state symbol)
  | _ => Ret held
  end.

Definition field_of (row : json) (key : string) : result json :=
  match row with
  | JObj r => match od_get key r with Some v => Ok v | None => Raise (KeyError (py_repr key)) end
  | _ => Raise (TypeError "string indices must be integers")
  end.

Fixpoint close_rows (rows : list json) : handler (list json) :=
  match rows with
  | [] => Ret []
  | row :: rows' =>
      let* id := of_result (field_of row "position_id") in
      call (PostClose master id) >>>
      let* ids := close_rows rows' in Ret (id :: ids)
  end.
Definition _close (symbol : string) : handler (list json) :=
  let* held := book_to_close symbol in close_rows held.

(** [str(o.get("symbol") or "").upper() == wanted] *)
Definition order_on (wanted : string) (o : json) : result bool :=
  match o with
  | JObj r => Ok (bool_decide (str_upper (json_str (if json_bool (get r "symbol") then get r "symbol" else JStr "")) = wanted))
  | _ => Raise (AttributeError "object has no attribute 'get'")
  end.
Fixpoint rfilter (P : json -> result bool) (l : list json) : result (list json) :=
  match l with
  | [] => Ok []
  | x :: l' => let? b := P x in let? l'' := rfilter P l' in Ok (if b : bool then x :: l'' else l'')
  end.
Definition resting_orders (state : payload) (symbol : string) : result (list json) :=
  let? orders := rows_of state "pending_orders" in rfilter (order_on (str_upper symbol)) orders.

Fixpoint cancel_rows (rows : list json) : handler (list json) :=
  match rows with
  | [] => Ret []
  | row :: rows' =>
      let* id := of_result (field_of row "order_id") in
      call (PostCancel master id) >>>
      let* ids := cancel_rows rows' in Ret (id :: ids)
  end.
Definition _cancel (symbol : string) : handler (list json) :=
  let* state := call (GetState org_id) in
  let* resting := of_result (resting_orders state symbol) in cancel_rows resting.

(** The end of a close or cancel: what was done, or that there was nothing *)
Definition done_rows (action key symbol nothing why : string) (ids : list json)
    (audit : string -> option json -> handler unit) : handler response :=
  let outcome := match ids with [] => nothing | _ => "accepted" end in
  stmt (_finish rid outcome (match ids with [] => Some why | _ => None end) false) >>>
  audit outcome None >>>
  Ret (_json 200 [("status", JStr outcome); ("receipt_id", JInt rid); ("action", JStr action); ("symbol", JStr symbol);
                  (key, JList ids)]).

(** *** The order of an alert *)

Definition alert_order (alert : Alert) : OrderBody :=
  {| ob_account_id := master; ob_symbol := al_symbol alert; ob_side := str_upper (al_action alert);
     ob_order_type := str_upper (al_order_type alert); ob_volume_lots := al_lots alert;
     ob_stop_price := if bool_decide (al_order_type alert = "stop") then al_price alert else None;
     ob_limit_price := if bool_decide (al_order_type alert = "limit") then al_price alert else None;
     ob_stop_loss := al_stop_loss alert; ob_take_profit := al_take_profit alert |}.

Definition judge_alert (alert : Alert) (max_open : Z) (state : payload) : result unit :=
  let? held := held_positions state (al_symbol alert) in
  check_room state (al_symbol alert) (if bool_decide (al_action alert = "buy") then "SELL" else "BUY") held max_open.

Definition act (alert : Alert) (max_open : Z) : handler response :=
  let audit := _audit who org_id master rid (alert_audit alert) in
  let symbol := al_symbol alert in
  pcatch
    (if bool_decide (al_action alert = "close") then
       let* ids := _close symbol in
       done_rows "close" "positions_closed" symbol "nothing_to_close" "nothing open on that symbol" ids audit
     else if bool_decide (al_action alert = "cancel") then
       let* ids := _cancel symbol in
       done_rows "cancel" "orders_cancelled" symbol "nothing_to_cancel" "no order resting on that symbol" ids audit
     else place (alert_order alert) (judge_alert alert max_open) audit
            [("action", JStr (al_action alert)); ("symbol", JStr symbol)])
    (settle_failure rid audit).

(** *** The order of a triggered bridge alert: at the market *)

Definition vt_order (vt : VTAlert) : OrderBody :=
  {| ob_account_id := master; ob_symbol := vt_symbol vt; ob_side := if bool_decide (vt_bias vt = "long") then "BUY" else "SELL";
     ob_order_type := "MARKET"; ob_volume_lots := vt_lots vt; ob_stop_price := None; ob_limit_price := None;
     ob_stop_loss := Some (vt_stop vt); ob_take_profit := Some (vt_target vt) |}.

(** [str(o.get("symbol", "")).upper() == vt.symbol] *)
Definition vt_order_on (symbol : string) (o : json) : result bool :=
  match o with
  | JObj r => Ok (bool_decide (str_upper (text_of r "symbol") = symbol))
  | _ => Raise (AttributeError "object has no attribute 'get'")
  end.

Definition judge_vt (vt : VTAlert) (max_open : Z) (state : payload) : result unit :=
  let? held := held_positions state (vt_symbol vt) in
  let? orders := rows_of state "pending_orders" in
  let? resting := rfilter (vt_order_on (vt_symbol vt)) orders in
  check_room state (vt_symbol vt) (if bool_decide (vt_bias vt = "long") then "SELL" else "BUY") (held ++ resting) max_open.

Definition act_vt (vt : VTAlert) (max_open : Z) : handler response :=
  let audit := _audit who org_id master rid (vt_audit vt) in
  pcatch (place (vt_order vt) (judge_vt vt max_open) audit [("role", JStr "ltf"); ("symbol", JStr (vt_symbol vt))])
         (settle_failure rid audit).
End act.

(** ** The door *)

Definition limited (key : string) (attempts : Z) : M webhooks bool := fun s =>
  let '(b, l) := is_limited key (Some attempts) (wb_now s) (wb_limiter s) in (Ok b, set_wb_limiter l s).

Definition secret_ok (h : Hook) (body : json) : bool :=
  match body with
  | JObj b =>
      match od_get "secret" b, ho_secret_hash h with
      | Some (JStr presented), Some hash => bool_decide (_hash presented = hash)
      | _, _ => false
      end
  | _ => false
  end.

(** [float(max_lots)] *)
Definition cap_of (h : Hook) : price := int_truediv (ho_max_lots h) 10000.

Definition _master_of (org_id : Z) (s : webhooks) : option Z :=
  acc_account_id <$> List.find (fun a => (acc_org_id a =? org_id) && bool_decide (acc_role a = RoleMaster) && acc_enabled a)
                       (db_accounts (wb_db s)).

(** The gates: the master's account, or a refusal *)
Definition gates (h : Hook) : handler Z :=
  if negb (ho_enabled h) then Throw (WebhookRejected 403 "automation is switched off for this workspace")
  else
    let* org := query (fun s => List.find (fun o => ho_org h =? Db.org_id o) (db_orgs (wb_db s))) in
    match org with
    | None => Throw (WebhookRejected 403 "copying is stopped for this workspace")
    | Some o =>
        if negb (org_copying_enabled o) then Throw (WebhookRejected 403 "copying is stopped for this workspace")
        else if org_dry_run o
        then Throw (WebhookRejected 422 "this workspace is in dry-run; automation is disabled until it is off")
        else
          let* master := query (_master_of (ho_org h)) in
          match master with
          | None => Throw (WebhookRejected 422 "this workspace has no master account")
          | Some m => Ret m
          end
    end.

(** [except AlertError as exc: raise WebhookRejected(422, str(exc))] *)
Definition as_rejection {A} (r : result A) : result A :=
  match r with Raise (AlertError m) => Raise (WebhookRejected 422 m) | r => r end.

(** The operator's own name for the symbol *)
Definition renamed (aliases : payload) (symbol : string) : result string :=
  match od_get symbol aliases with Some v => normalise_ticker v | None => Ok symbol end.
Definition with_symbol (a : Alert) (symbol : string) : Alert :=
  {| al_action := al_action a; al_symbol := symbol; al_lots := al_lots a; al_stop_loss := al_stop_loss a;
     al_take_profit := al_take_profit a; al_alert_id := al_alert_id a; al_order_type := al_order_type a; al_price := al_price a |}.
Definition with_vt_symbol (v : VTAlert) (symbol : string) : VTAlert :=
  {| vt_role := vt_role v; vt_symbol := symbol; vt_tf := vt_tf v; vt_bias := vt_bias v; vt_entry := vt_entry v;
     vt_stop := vt_stop v; vt_target := vt_target v; vt_price := vt_price v; vt_valid := vt_valid v;
     vt_trigger := vt_trigger v; vt_lots := vt_lots v; vt_bar_ms := vt_bar_ms v |}.

Section handle.
Context (who : caller) (h : Hook) (redacted_body : json).
Abbreviation org := (ho_org h).

(** *** Bridge alerts *)

(** A VTAlert stands in for an alert in the receipts. *)
Definition receipt_alert (vt : VTAlert) : Alert :=
  {| al_action := vt_role vt; al_symbol := vt_symbol vt; al_lots := vt_lots vt; al_stop_loss := None; al_take_profit := None;
     al_alert_id := Some (pretty (vt_bar_ms vt)); al_order_type := "market"; al_price := None |}.

Definition reason_entry (reason : option string) : payload :=
  match reason with Some r => [("reason", JStr r)] | None => [] end.

Definition _record_vt_ok (vt : VTAlert) (reason : option string) : M webhooks response :=
  let! rid := _insert who org (Some redacted_body) (Some (receipt_alert vt)) "accepted" reason None in
  control_event org None Info
    ([("action", JStr "webhook_alert"); ("receipt_id", JInt rid); ("outcome", JStr "accepted"); ("role", JStr (vt_role vt));
      ("symbol", JStr (vt_symbol vt))] ++ reason_entry reason) ;;;
  ret (_json 200 ([("status", JStr "accepted"); ("receipt_id", JInt rid); ("role", JStr (vt_role vt));
                   ("symbol", JStr (vt_symbol vt))] ++ reason_entry reason)).

(** An htf alert's reading replaces the one before it. *)
Definition store_snapshot (vt : VTAlert) : M webhooks unit :=
  let! now := gets wb_now in
  modify (fun s => set_wb_snapshots (<[(org, vt_symbol vt) :=
    {| hs_entry := vt_entry vt; hs_price := vt_price vt;
       hs_snapshot := {| sn_bias := vt_bias vt; sn_stop := vt_stop vt; sn_target := vt_target vt; sn_tf := vt_tf vt;
                         sn_received_at := now |} |}]> (wb_snapshots s)) s).

Definition _handle_vt_ltf (master : Z) (vt : VTAlert) : handler response :=
  match vt_trigger vt with
  | Some true =>
      let* slot := stmt (reserve who org (ho_max_per_minute h) redacted_body (receipt_alert vt) (_vt_fingerprint org vt)) in
      match slot with
      | inl r => Ret r
      | inr rid =>
          let* htf := query (fun s => hs_snapshot <$> wb_snapshots s !! (org, vt_symbol vt)) in
          let* now := query wb_now in
          match check_gate htf vt (ho_ltf_timeframes h) now with
          | Some reason =>
              stmt (_finish rid "rejected" (Some reason) true) >>>
              _audit who org master rid (vt_audit vt) "rejected" (Some (JObj [("reason", JStr reason)])) >>>
              Ret (rejected 422 rid reason)
          | None => act_vt who master org rid vt (ho_max_open h)
          end
      end
  | _ => stmt (_record_vt_ok vt (Some "ltf informational (trigger=false), no action"))
  end.

Definition _handle_vt_bridge (master : Z) (body : json) : handler response :=
  match parse_vt_alert body (cap_of h) with
  | Raise (AlertError m) => stmt (_record who org (Some redacted_body) None 422 m)
  | Raise e => Throw e
  | Ok vt =>
      let* symbol := of_result (renamed (ho_aliases h) (vt_symbol vt)) in
      let vt := with_vt_symbol vt symbol in
      if bool_decide (vt_role vt = "htf") then
        if vt_valid vt then stmt (store_snapshot vt) >>> stmt (_record_vt_ok vt None)
        else stmt (_record_vt_ok vt (Some "htf setup not valid, not stored"))
      else _handle_vt_ltf master vt
  end.

(** *** Behind the secret *)

Definition has_role (body : json) : bool :=
  match body with JObj b => bool_decide (is_Some (od_get "role" b)) | _ => false end.

(** The answer of a refusal or a bridge alert, or the alert and its master *)
Definition screen_request (body : json) : handler (response + (Z * Alert)) :=
  pcatch
    (let* master := gates h in
     if has_role body then let* r := _handle_vt_bridge master body in Ret (inl r)
     else
       let* alert := of_result (as_rejection (parse_alert body (cap_of h))) in
       let* symbol := of_result (renamed (ho_aliases h) (al_symbol alert)) in
       Ret (inr (master, with_symbol alert symbol)))
    (fun e => match e with
              | WebhookRejected status reason =>
                  let* r := stmt (_record who org (Some redacted_body) None status reason) in Ret (inl r)
              | e => Throw e
              end).

Definition authenticated (body : json) : handler response :=
  let* admitted := screen_request body in
  match admitted with
  | inl r => Ret r
  | inr (master, alert) =>
      let* slot := stmt (reserve who org (ho_max_per_minute h) redacted_body alert (_fingerprint org alert)) in
      match slot with
      | inl r => Ret r
      | inr rid => act who master org rid alert (ho_max_open h)
      end
  end.
End handle.

Definition find_hook (hook_id : string) (s : webhooks) : option Hook :=
  List.find (fun h => bool_decide (ho_hook_id h = hook_id)) (wb_hooks s).

Definition _handle (who : caller) (hook_id raw : string) : handler response :=
  let* row := query (find_hook hook_id) in
  match row with
  | None => stmt (limited ("webhook-source:" +:+ ca_ip who) 30) >>> Ret (_json 404 [("detail", JStr "Not found")])
  | Some h =>
      match json_loads raw with
      | None => stmt (_record who (ho_org h) None None 422 ("the alert message must be JSON: " +:+ _not_json_hint raw +:+
                        ". Compare the Message box with the template in Automation"))
      | Some body =>
          if secret_ok h body then authenticated who h (_redact body) body
          else
            let* over := stmt (limited ("webhook-badsecret:" +:+ hook_id) 10) in
            if over : bool then Ret (_json 401 [("status", JStr "rejected"); ("reason", JStr "secret mismatch")])
            else stmt (_record who (ho_org h) None None 401 "secret mismatch")
      end
  end.

Definition MAX_BODY_BYTES : nat := 4096.
Definition TRADINGVIEW_SOURCE_IPS : list string := ["52.89.214.238"; "34.212.75.30"; "54.218.53.128"; "52.32.178.7"].
Definition _source_ips : list string := TRADINGVIEW_SOURCE_IPS ++ extra_ips.

(** A request: its number, the address it is judged by ([client_ip]), the hook
    of its URL and its body *)
Record request := { rq_number : nat; rq_ip : string; rq_hook_id : string; rq_raw : string }.

Definition tradingview (rq : request) : handler response :=
  let* t0 := query wb_now in
  if (MAX_BODY_BYTES <? String.length (rq_raw rq))%nat
  then Ret (_json 413 [("status", JStr "rejected"); ("reason", JStr "body too large")])
  else if negb (bool_decide (rq_ip rq ∈ _source_ips)) then
    stmt (limited ("webhook-source:" +:+ rq_ip rq) 30) >>>
    Ret (_json 403 [("status", JStr "rejected");
                    ("reason", JStr ("source " +:+ rq_ip rq +:+ " is not a TradingView address"))])
  else _handle {| ca_request := rq_number rq; ca_ip := rq_ip rq; ca_t0 := t0 |} (rq_hook_id rq) (rq_raw rq).
End receiver.
