(* ===== verification/WebhookDemo.v ===== *)
(** * A workspace with an alert hook, to try the receiver on

    Org 1 has master account 7, org 2 has none.  The hook's cap is a tenth of a
    lot.  The digest of a secret is the secret with a mark in front; a message is
    the number of one of the bodies below. *)

From S2P Require Import Prelude PyStr PyFloat PyDecimal PyDecOps PyRepr Db PyJson Repo Limiter Prog BridgeDemo Alerts Webhook.
From Stdlib Require Import Ascii SpecFloat.

Definition demo_sha256 (s : string) : string := "#" +:+ s.

Definition demo_hook (org : Z) (hook_id : string) : Hook :=
  {| ho_org := org; ho_hook_id := hook_id; ho_secret_hash := Some "#tvw_s"; ho_enabled := true; ho_max_lots := 1000;
     ho_max_per_minute := 10; ho_max_open := 3; ho_aliases := []; ho_ltf_timeframes := ["5"] |}.

Definition workspace : webhooks :=
  {| wb_db := set_db_accounts desk_accounts (set_db_orgs [desk_org 1; desk_org 2] (empty_db 0));
     wb_hooks := [demo_hook 1 "hook"; demo_hook 2 "masterless"]; wb_receipts := []; wb_next_receipt := 1;
     wb_snapshots := ∅; wb_limiter := limiter_init 10 60000000; wb_calls := []; wb_now := 0 |}.

Definition lots_json (hundredths : Z) : json := JPrice (int_truediv hundredths 100).
Definition alert_body (action id : string) (hundredths : Z) : json :=
  JObj [("secret", JStr "tvw_s"); ("action", JStr action); ("symbol", JStr "OANDA:XAUUSD"); ("id", JStr id);
        ("lots", lots_json hundredths)].
Definition htf_body : json :=
  JObj [("secret", JStr "tvw_s"); ("role", JStr "htf"); ("symbol", JStr "XAUUSD"); ("tf", JStr "60"); ("bias", JStr "long");
        ("entry", JInt 4000); ("stop", JInt 3900); ("target", JInt 4200); ("price", JInt 4000); ("valid", JBool true);
        ("bar_ms", JInt 1)].
Definition ltf_body : json :=
  JObj [("secret", JStr "tvw_s"); ("role", JStr "ltf"); ("symbol", JStr "XAUUSD"); ("tf", JStr "5"); ("bias", JStr "long");
        ("entry", JInt 4000); ("stop", JInt 3950); ("target", JInt 4100); ("price", JInt 4000); ("valid", JBool true);
        ("bar_ms", JInt 2); ("trigger", JBool true); ("lots", lots_json 5)].

Definition demo_loads (raw : string) : option json :=
  od_get raw [("buy", alert_body "buy" "a" 5); ("again", alert_body "buy" "b" 5); ("big", alert_body "buy" "c" 50);
              ("close", alert_body "close" "d" 0); ("htf", htf_body); ("ltf", ltf_body); ("stranger", JObj [])].

Definition book (positions orders : list json) : json :=
  JObj [("master_positions", JList positions); ("pending_orders", JList orders)].
Definition held_row (position_id : Z) : json :=
  JObj [("symbol", JStr "XAUUSD"); ("position_id", JInt position_id); ("side", JStr "BUY")].

(** A copier with an empty book that takes every order *)
Definition willing (n : nat) (c : copier_call) : copier_reply :=
  match c with GetState _ => Answered 200 (Some (book [] [])) "" | _ => Answered 200 (Some (JObj [("order_id", JInt 5)])) "" end.
(** One that does not confirm orders *)
Definition silent (n : nat) (c : copier_call) : copier_reply :=
  match c with PostOrder _ => Unconfirmed "ReadTimeout" | _ => willing n c end.
(** One that holds two positions and goes down after the first close *)
Definition failing (n : nat) (c : copier_call) : copier_reply :=
  match c with
  | GetState _ => Answered 200 (Some (book [held_row 11; held_row 12] [])) ""
  | PostClose _ (JInt 11) => Answered 200 (Some (JObj [])) ""
  | _ => NotSent "ConnectError"
  end.

Definition alert_request (hook_id raw : string) : request :=
  {| rq_number := 0; rq_ip := "52.89.214.238"; rq_hook_id := hook_id; rq_raw := raw |}.

(** What the receiver answers, and the orders sent, alone *)
Definition answer_of (reply : nat -> copier_call -> copier_reply) (s : webhooks) (raw : string) : option Z * webhooks :=
  let '(r, s') := run_alone (tradingview demo_sha256 demo_loads reply [] (alert_request "hook" raw)) s in
  (match r with Ok rs => Some (rs_status rs) | Raise _ => None end, s').
Definition calls_of (s : webhooks) : list copier_call := lc_call <$> wb_calls s.
Definition rows_in (s : webhooks) : list (Z * string) := (fun r => (re_id r, re_outcome r)) <$> wb_receipts s.

Definition demo_order : OrderBody :=
  {| ob_account_id := 7; ob_symbol := "XAUUSD"; ob_side := "BUY"; ob_order_type := "MARKET"; ob_volume_lots := int_truediv 5 100;
     ob_stop_price := None; ob_limit_price := None; ob_stop_loss := None; ob_take_profit := None |}.

Example a_buy : let '(status, s) := answer_of willing workspace "buy" in
  (status, calls_of s, rows_in s) = (Some 200, [GetState 1; PostOrder demo_order], [(1, "accepted")]).
Proof. vm_compute. reflexivity. Qed.

Example a_resend : let '(_, s) := answer_of silent workspace "buy" in
  let '(status, s') := answer_of silent s "again" in
  (status, length (wb_calls s'), rows_in s') = (Some 200, 2%nat, [(1, "unknown"); (2, "duplicate")]).
Proof. vm_compute. reflexivity. Qed.

Example too_big : let '(status, s) := answer_of willing workspace "big" in
  (status, calls_of s, rows_in s) = (Some 422, [], [(1, "rejected")]).
Proof. vm_compute. reflexivity. Qed.

Example bridge_trade : let '(_, s) := answer_of willing workspace "htf" in
  let '(status, s') := answer_of willing s "ltf" in (status, length (wb_calls s'), rows_in s') = (Some 200, 2%nat, [(1, "accepted"); (2, "accepted")]).
Proof. vm_compute. reflexivity. Qed.

(** A close of two positions whose second call is never sent: the first close
    went out, the answer is 503 all the same, and TradingView sends it again. *)
Example half_closed_answers_503 : let '(status, s) := answer_of failing workspace "close" in
  (status, calls_of s, rows_in s) =
  (Some 503, [GetState 1; PostClose 7 (JInt 11); PostClose 7 (JInt 12)], [(1, "failed")]).
Proof. vm_compute. reflexivity. Qed.

(** An MT5 master's book carries the broker's names; an alert's close looks for
    the bare symbol only, and an opposite order is not stopped. *)
Definition aliased (n : nat) (c : copier_call) : copier_reply :=
  match c with
  | GetState _ => Answered 200 (Some (book [JObj [("symbol", JStr "XAUUSDm"); ("position_id", JInt 11); ("side", JStr "SELL")]] [])) ""
  | _ => Answered 200 (Some (JObj [])) ""
  end.
Example aliased_book_is_not_seen :
  let '(closed, s) := answer_of aliased workspace "close" in
  let '(bought, s') := answer_of aliased s "buy" in
  (closed, bought, rows_in s', (fun c => match c with PostClose _ _ => true | _ => false end) <$> calls_of s') =
  (Some 200, Some 200, [(1, "nothing_to_close"); (2, "accepted")], [false; false; false; false; false]).
Proof. vm_compute. reflexivity. Qed.
