(* ===== verification/WebhookRuns.v ===== *)
(** * The alert receiver among its requests: an alert trades once

    The invariant of the receipts and the copier calls, kept by every request
    under every interleaving ([Owners]): a request owns the receipts and the
    calls that carry its number. *)

From S2P Require Import Prelude PyStr PyFloat PyRepr Db PyJson Repo Limiter Prog Owners Alerts AlertsFacts Webhook.
From S2P Require Import WebhookDemo.
From Stdlib Require Import Ascii SpecFloat.

(** ** Orders in the log *)

(** The order of a call may be in the market unless it never left or was
    refused. *)
Definition maybe_live (r : copier_reply) : bool :=
  match r with NotSent _ => false | Unconfirmed _ => true | Answered status _ _ => (status <? 400) || (500 <=? status) end.
Definition order_of (c : LoggedCall) : option OrderBody := match lc_call c with PostOrder o => Some o | _ => None end.
Definition is_order (c : LoggedCall) : bool := match lc_call c with PostOrder _ => true | _ => false end.
Definition live_order (c : LoggedCall) : bool := is_order c && maybe_live (lc_reply c).

(** A receipt of a plain alert that opens *)
Definition plain (r : Receipt) : bool := bool_decide (re_action r ∈ [Some "buy"; Some "sell"]).

Lemma elem_filter {A} (P : A -> bool) (l : list A) x : x ∈ List.filter P l <-> x ∈ l /\ P x = true.
Proof. rewrite !list_elem_of_In. apply filter_In. Qed.

(** ** What a request owns *)

Definition own_receipts (i : nat) (s : webhooks) : list Receipt := List.filter (fun r => Nat.eqb (re_request r) i) (wb_receipts s).
Definition own_calls (i : nat) (s : webhooks) : list LoggedCall := List.filter (fun c => Nat.eqb (lc_request c) i) (wb_calls s).
Definition keeps (i : nat) (s s' : webhooks) : Prop :=
  own_receipts i s' = own_receipts i s /\ own_calls i s' = own_calls i s /\ wb_now s <= wb_now s'.

#[export] Instance keeps_preorder i : PreOrder (keeps i).
Proof.
  split; [by intros s|]. intros s s' s'' (? & ? & ?) (? & ? & ?). split_and!; [congruence|congruence|lia].
Qed.

Lemma elem_own_receipts i s r : r ∈ own_receipts i s <-> r ∈ wb_receipts s /\ re_request r = i.
Proof. unfold own_receipts. by rewrite elem_filter, Nat.eqb_eq. Qed.
Lemma elem_own_calls i s c : c ∈ own_calls i s <-> c ∈ wb_calls s /\ lc_request c = i.
Proof. unfold own_calls. by rewrite elem_filter, Nat.eqb_eq. Qed.

Definition no_orders (i : nat) (s : webhooks) : Prop := forall c, c ∈ own_calls i s -> is_order c = false.
Definition no_live (i : nat) (s : webhooks) : Prop := forall c, c ∈ own_calls i s -> live_order c = false.
Lemma no_orders_live i s : no_orders i s -> no_live i s.
Proof. intros H c Hc. unfold live_order. by rewrite (H c Hc). Qed.

(** A receipt of the request, still accepted, that says [P] *)
Definition holds (i : nat) (rid : Z) (P : Receipt -> Prop) (s : webhooks) : Prop :=
  exists r, r ∈ own_receipts i s /\ re_id r = rid /\ counts r = true /\ P r.

Lemma holds_keeps i rid P s s' : keeps i s s' -> holds i rid P s -> holds i rid P s'.
Proof. intros (Hr & _ & _) (r & Hin & ?). exists r. by rewrite Hr. Qed.
Lemma no_orders_keeps i s s' : keeps i s s' -> no_orders i s -> no_orders i s'.
Proof. intros (_ & Hc & _) H c. rewrite Hc. apply H. Qed.
Lemma no_live_keeps i s s' : keeps i s s' -> no_live i s -> no_live i s'.
Proof. intros (_ & Hc & _) H c. rewrite Hc. apply H. Qed.

Section invariant.
Context (sha256 : string -> string).

(** The fingerprint a plain order has, from what was ordered *)
Definition order_fingerprint (org : Z) (o : OrderBody) : string :=
  sha256 (json_dumps
    [JInt org; JStr (str_lower (ob_side o)); JStr (ob_symbol o); JPrice (ob_volume_lots o); JPrice (ob_stop_loss o);
     JPrice (ob_take_profit o); JStr (str_lower (ob_order_type o));
     JPrice (match ob_stop_price o with Some p => Some p | None => ob_limit_price o end); JNull]).

Definition says (o : OrderBody) (r : Receipt) : Prop :=
  exists fp, re_fingerprint r = Some fp /\ (plain r = true -> fp = order_fingerprint (re_org r) o).

Record books_ok (s : webhooks) : Prop := {
  bo_ids : NoDup (re_id <$> wb_receipts s);
  bo_next : forall r, r ∈ wb_receipts s -> re_id r < wb_next_receipt s;
  bo_past : forall r, r ∈ wb_receipts s -> re_received_at r <= wb_now s;
  bo_spaced : forall r1 r2 fp, r1 ∈ wb_receipts s -> r2 ∈ wb_receipts s -> re_id r1 <> re_id r2 ->
    re_org r1 = re_org r2 -> re_fingerprint r1 = Some fp -> re_fingerprint r2 = Some fp ->
    counts r1 = true -> counts r2 = true -> DEDUP_WINDOW_US <= Z.abs (re_received_at r1 - re_received_at r2);
  bo_calls : forall c o, c ∈ wb_calls s -> order_of c = Some o ->
    exists r, r ∈ wb_receipts s /\ re_id r = lc_receipt c /\ re_request r = lc_request c /\
              (maybe_live (lc_reply c) = true -> counts r = true /\ says o r);
  bo_once : forall a b c1 c2, wb_calls s !! a = Some c1 -> wb_calls s !! b = Some c2 ->
    is_order c1 = true -> is_order c2 = true -> lc_receipt c1 = lc_receipt c2 -> a = b
}.

Abbreviation own_move := (own_move books_ok keeps).

Lemma receipt_unique s r1 r2 : books_ok s -> r1 ∈ wb_receipts s -> r2 ∈ wb_receipts s -> re_id r1 = re_id r2 -> r1 = r2.
Proof. intros H H1 H2. by apply (NoDup_fmap_elem re_id _ _ _ (bo_ids s H)). Qed.

(** *** Moves *)

(** ... that touch neither receipts nor calls *)
Lemma quiet_move i s s' :
  wb_receipts s' = wb_receipts s -> wb_next_receipt s' = wb_next_receipt s -> wb_calls s' = wb_calls s ->
  wb_now s' = wb_now s -> books_ok s -> own_move i s s'.
Proof.
  intros Hr Hn Hc Ht [? ? ? ? ? ?]. split.
  - split; rewrite ?Hr, ?Hn, ?Hc, ?Ht; auto.
  - intros j _. unfold keeps, own_receipts, own_calls. by rewrite Hr, Hc, Ht.
Qed.

(** ... that write a receipt *)
Lemma insert_move i s r :
  books_ok s -> re_id r = wb_next_receipt s -> re_request r = i -> re_received_at r = wb_now s ->
  (forall fp r', re_fingerprint r = Some fp -> counts r = true -> r' ∈ wb_receipts s -> re_org r' = re_org r ->
     re_fingerprint r' = Some fp -> counts r' = true -> re_received_at r' <= wb_now s - DEDUP_WINDOW_US) ->
  own_move i s (set_wb_receipts (wb_receipts s ++ [r]) (wb_next_receipt s + 1) s).
Proof.
  intros [Hids Hnext Hpast Hspaced Hcalls Honce] Hid Hreq Hat Hfree. split.
  - split; simpl; [| | | | |done].
    + rewrite fmap_app, NoDup_app. split_and!; [done| |apply NoDup_singleton]. simpl.
      intros x Hx. apply list_elem_of_fmap in Hx as (r' & -> & Hin). apply Hnext in Hin. rewrite list_elem_of_singleton. lia.
    + intros r' [Hin|Hin%list_elem_of_singleton]%elem_of_app; [apply Hnext in Hin; lia|subst; lia].
    + intros r' [Hin|Hin%list_elem_of_singleton]%elem_of_app; [by apply Hpast|subst r'; lia].
    + intros r1 r2 fp [H1|H1%list_elem_of_singleton]%elem_of_app [H2|H2%list_elem_of_singleton]%elem_of_app; [by apply Hspaced| | |].
      * subst r2. intros _ Ho Hf1 Hf2 Hc1 Hc2. pose proof (Hfree fp r1 Hf2 Hc2 H1 Ho Hf1 Hc1). lia.
      * subst r1. intros _ Ho Hf1 Hf2 Hc1 Hc2. pose proof (Hfree fp r2 Hf1 Hc1 H2 (eq_sym Ho) Hf2 Hc2). lia.
      * by subst.
    + intros c o Hc Ho. destruct (Hcalls c o Hc Ho) as (r' & Hin & ?). exists r'. split; [|done]. apply elem_of_app. by left.
  - intros j Hj. unfold keeps, own_receipts, own_calls. simpl. rewrite List.filter_app. simpl.
    rewrite Hreq. replace (Nat.eqb i j) with false by (symmetry; apply Nat.eqb_neq; congruence).
    by rewrite app_nil_r.
Qed.

(** ... that finish one's own receipt *)
Lemma finish_move i s rid outcome reason clear :
  books_ok s -> (exists r, r ∈ own_receipts i s /\ re_id r = rid) ->
  (bool_decide (outcome ∈ ["accepted"; "unknown"]) = true /\ clear = false /\ holds i rid (fun _ => True) s \/
   bool_decide (outcome ∈ ["accepted"; "unknown"]) = false /\ no_live i s) ->
  own_move i s (exec (_finish rid outcome reason clear) s).
Proof.
  intros Hok (r0 & Hr0 & Hid0) Hcase. apply elem_own_receipts in Hr0 as [Hr0 Hi0].
  pose proof Hok as [Hids Hnext Hpast Hspaced Hcalls Honce].
  set (g := fun r => if re_id r =? rid then finish_row outcome reason clear r else r).
  change (exec (_finish rid outcome reason clear) s) with (set_wb_receipts (g <$> wb_receipts s) (wb_next_receipt s) s).
  assert (forall r, re_id (g r) = re_id r /\ re_request (g r) = re_request r /\ re_org (g r) = re_org r /\
            re_received_at (g r) = re_received_at r /\ re_action (g r) = re_action r) as Hg.
  { intros r. unfold g. by destruct (_ =? _). }
  assert (forall r, r ∈ wb_receipts s -> counts (g r) = true -> counts r = true /\ re_fingerprint (g r) = re_fingerprint r) as Hcount.
  { intros r Hr Hc. unfold g in *. destruct (re_id r =? rid) eqn:E; [|done]. apply Z.eqb_eq in E.
    destruct Hcase as [(Hc' & -> & (r' & Hr' & Hid' & Hc1 & _))|[Hno _]].
    - apply elem_own_receipts in Hr' as [Hr' _]. by rewrite (receipt_unique s r r' Hok Hr Hr' ltac:(congruence)).
    - unfold counts in Hc. simpl in Hc. by rewrite Hno in Hc. }
  split; [split; simpl|].
  - rewrite <- list_fmap_compose. rewrite (list_fmap_ext _ re_id); [done|]. intros k r _. apply Hg.
  - intros r' (r & -> & Hr)%list_elem_of_fmap. rewrite (proj1 (Hg r)). by apply Hnext.
  - intros r' (r & -> & Hr)%list_elem_of_fmap. destruct (Hg r) as (_ & _ & _ & -> & _). by apply Hpast.
  - intros r1' r2' fp (r1 & -> & H1)%list_elem_of_fmap (r2 & -> & H2)%list_elem_of_fmap.
    destruct (Hg r1) as (-> & _ & -> & -> & _), (Hg r2) as (-> & _ & -> & -> & _). intros Hne Ho Hf1 Hf2 Hc1 Hc2.
    destruct (Hcount r1 H1 Hc1) as [Hc1' E1], (Hcount r2 H2 Hc2) as [Hc2' E2]. rewrite E1 in Hf1. rewrite E2 in Hf2. by eapply Hspaced.
  - intros c o Hc Ho. destruct (Hcalls c o Hc Ho) as (r & Hr & Hid & Hq & Hlive). exists (g r).
    destruct (Hg r) as (-> & -> & Horg & _ & Hact). split_and!; [by apply list_elem_of_fmap; exists r|done|done|].
    intros Hl. destruct (Hlive Hl) as [Hcr Hsays]. unfold says, plain. rewrite Horg, Hact. unfold g.
    destruct (re_id r =? rid) eqn:E; [|done]. apply Z.eqb_eq in E.
    destruct Hcase as [(Hc' & -> & _)|[_ Hno]]; [done|]. exfalso.
    assert (c ∈ own_calls i s) as Hown.
    { apply elem_own_calls. split; [done|]. rewrite <- Hq. by rewrite (receipt_unique s r r0 Hok Hr Hr0 ltac:(congruence)). }
    specialize (Hno c Hown). unfold live_order, is_order, order_of in *. destruct (lc_call c); try done. by rewrite Hl in Hno.
  - done.
  - intros j Hj. unfold keeps, own_receipts, own_calls. simpl. split_and!; [|done|lia].
    clear - Hg Hj Hok Hr0 Hi0 Hid0. assert (forall r, r ∈ wb_receipts s -> re_request r = j -> g r = r) as Hid.
    { intros r Hr Hq. unfold g. destruct (re_id r =? rid) eqn:E; [|done]. apply Z.eqb_eq in E.
      rewrite (receipt_unique s r r0 Hok Hr Hr0 ltac:(congruence)) in Hq. congruence. }
    revert Hid. generalize (wb_receipts s). intros l. induction l as [|r l IH]; intros Hid; simpl; [done|].
    rewrite (proj1 (proj2 (Hg r))). destruct (Nat.eqb (re_request r) j) eqn:E.
    + rewrite (Hid r (list_elem_of_here _ _) ltac:(by apply Nat.eqb_eq)). f_equal. apply IH. intros r' Hr'. apply Hid. by right.
    + apply IH. intros r' Hr'. apply Hid. by right.
Qed.

(** ... that log a call *)
Lemma log_move i s c :
  books_ok s -> lc_request c = i ->
  (is_order c = false \/
   no_orders i s /\ exists o, order_of c = Some o /\ holds i (lc_receipt c) (says o) s) ->
  own_move i s (set_wb_calls (wb_calls s ++ [c]) s).
Proof.
  intros Hok Hi Hcase. pose proof Hok as [Hids Hnext Hpast Hspaced Hcalls Honce]. split; [split; simpl; try done|].
  - intros c' o [Hc|Hc%list_elem_of_singleton]%elem_of_app Ho; [by eapply Hcalls|]. subst c'.
    destruct Hcase as [Hno|(_ & o' & Ho' & (r & Hr & Hid & Hcr & Hsays))].
    + unfold is_order, order_of in *. by destruct (lc_call c).
    + assert (o' = o) as -> by congruence. apply elem_own_receipts in Hr as [Hr Hreq]. exists r. by subst i.
  - assert (forall c', c' ∈ wb_calls s -> is_order c' = true -> is_order c = true -> lc_receipt c' = lc_receipt c -> False) as Hnew.
    { intros c' Hc' Ho' Ho He. destruct Hcase as [Hno|(Hno & o & Hoc & (r & Hr & Hid & _))]; [congruence|].
      apply elem_own_receipts in Hr as [Hr Hreq].
      assert (exists o', order_of c' = Some o') as [o' Hoc'] by (unfold is_order, order_of in *; destruct (lc_call c'); eauto; done).
      destruct (Hcalls c' o' Hc' Hoc') as (r' & Hr' & Hid' & Hreq' & _).
      rewrite (receipt_unique s r' r Hok Hr' Hr ltac:(congruence)) in Hreq'.
      rewrite (Hno c') in Ho'; [done|]. apply elem_own_calls. split; [done|congruence]. }
    intros a b c1 c2 H1 H2 Ho1 Ho2 He.
    apply lookup_app_Some in H1 as [H1|[Ha H1]], H2 as [H2|[Hb H2]].
    + by eapply Honce.
    + apply list_lookup_singleton_Some in H2 as [? <-]. exfalso. apply (Hnew c1); [by eapply list_elem_of_lookup_2|done..].
    + apply list_lookup_singleton_Some in H1 as [? <-]. exfalso. apply (Hnew c2); [by eapply list_elem_of_lookup_2|done..].
    + apply list_lookup_singleton_Some in H1 as [? <-], H2 as [? <-]. lia.
  - intros j Hj. unfold keeps, own_receipts, own_calls. simpl. rewrite List.filter_app. simpl. rewrite Hi.
    replace (Nat.eqb i j) with false by (symmetry; apply Nat.eqb_neq; congruence). by rewrite app_nil_r.
Qed.

(** *** Writing *)

(** A receipt holds a fingerprint only while no other of the same org, still
    counting, holds it inside the window. *)
Lemma insert_ok i who org body alert outcome reason fp s :
  ca_request who = i -> books_ok s ->
  (forall f r, fp = Some f -> bool_decide (outcome ∈ ["accepted"; "unknown"]) = true -> r ∈ wb_receipts s -> re_org r = org ->
     re_fingerprint r = Some f -> counts r = true -> re_received_at r <= wb_now s - DEDUP_WINDOW_US) ->
  own_move i s (exec (_insert who org body alert outcome reason fp) s) /\
  own_calls i (exec (_insert who org body alert outcome reason fp) s) = own_calls i s.
Proof.
  intros <- Hok Hfree. split; [|done]. unfold _insert. apply insert_move; [done..|]. simpl. intros f r Hfp Hc. by apply Hfree.
Qed.

Lemma newest_none l : newest l = None -> l = [].
Proof. by destruct l. Qed.

(** The log of one call *)
Lemma copier_cases reply request receipt t0 c s :
  (exec (_copier reply request receipt t0 c) s = s /\ exists w, value (_copier reply request receipt t0 c) s = Raise (CopierDown w)) \/
  (exists lc, lc_request lc = request /\ lc_receipt lc = receipt /\ lc_call lc = c /\
     exec (_copier reply request receipt t0 c) s = set_wb_calls (wb_calls s ++ [lc]) s /\
     value (_copier reply request receipt t0 c) s = classify (lc_reply lc)).
Proof.
  unfold _copier, remaining. unfold exec, value, bind, gets. simpl. destruct (_ <=? _); simpl; [by left; eauto|right].
  eexists {| lc_request := request; lc_receipt := receipt; lc_call := c; lc_reply := reply (length (wb_calls s)) c; lc_at := wb_now s |}. simpl.
  split_and!; [done|done|done| |]; by destruct (classify (reply (length (wb_calls s)) c)).
Qed.

Lemma classify_refused r :
  match classify r with Ok _ | Raise (CopierUnknown _) => True | _ => maybe_live r = false end.
Proof.
  destruct r as [w|w|status body text]; simpl; [done|done|].
  destruct (500 <=? status) eqn:E5; [done|]. destruct (400 <=? status) eqn:E4; [|done].
  assert ((status <? 400) = false) as E by lia. destruct (default (JObj []) body); simpl; rewrite ?E; try done.
  case_match eqn:Eq; case_match; simplify_eq; simpl; by rewrite ?E.
Qed.

(** ** Triples *)

Abbreviation triple i p Q s := (wpo books_ok keeps i p Q s).

(** A step that touches neither receipts nor calls *)
Definition quiet {A} (m : M webhooks A) : Prop := forall s,
  wb_receipts (exec m s) = wb_receipts s /\ wb_next_receipt (exec m s) = wb_next_receipt s /\
  wb_calls (exec m s) = wb_calls s /\ wb_now (exec m s) = wb_now s.

Lemma quiet_keeps {A} (m : M webhooks A) i s : quiet m -> keeps i s (exec m s).
Proof. intros H. destruct (H s) as (Hr & _ & Hc & Ht). unfold keeps, own_receipts, own_calls. by rewrite Hr, Hc, Ht. Qed.

Lemma triple_quiet {A} (m : M webhooks A) i Q s :
  quiet m -> (forall t s', keeps i s s' -> Q (value m t) s') -> triple i (stmt m) Q s.
Proof.
  intros Hm HQ. apply wpo_stmt. intros s' Hk Hok. destruct (Hm s') as (? & ? & ? & ?). split; [by apply quiet_move|].
  apply HQ. etrans; [done|]. by apply quiet_keeps.
Qed.

Lemma triple_query {A} (f : webhooks -> A) i Q s : (forall s', keeps i s s' -> Q (Ok (f s')) s') -> triple i (query f) Q s.
Proof. intros HQ. apply wpo_stmt. intros s' Hk Hok. split; [by apply quiet_move|by apply HQ]. Qed.

Lemma quiet_control_event org account sev p : quiet (control_event org account sev p).
Proof. by intros s. Qed.
Lemma quiet_limited key n : quiet (limited key n).
Proof. intros s. unfold limited, exec. by destruct (is_limited _ _ _ _). Qed.
Lemma quiet_store h vt : quiet (store_snapshot h vt).
Proof. by intros s. Qed.

(** Programs that place no order and keep the request's receipt *)
Definition steady i rid (P : Receipt -> Prop) s : Prop := holds i rid P s /\ no_orders i s.
Lemma steady_keeps i rid P s s' : keeps i s s' -> steady i rid P s -> steady i rid P s'.
Proof. intros Hk [? ?]. split; [by eapply holds_keeps|by eapply no_orders_keeps]. Qed.

Definition calm {A} i (J : webhooks -> Prop) (p : prog webhooks A) : Prop :=
  forall s, J s -> triple i p (fun _ s' => J s') s.

Lemma calm_bind {A B} i J (p : prog webhooks A) (f : A -> prog webhooks B) :
  calm i J p -> (forall a, calm i J (f a)) -> calm i J (pbind p f).
Proof. intros Hp Hf s Hs. apply wpo_bind. eapply wpo_mono; [|by apply Hp]. intros [a|e] s' Hs'; [by apply Hf|done]. Qed.
Lemma calm_catch {A} i J (p : prog webhooks A) h :
  calm i J p -> (forall e, calm i J (h e)) -> calm i J (pcatch p h).
Proof. intros Hp Hh s Hs. apply wpo_catch. eapply wpo_mono; [|by apply Hp]. intros [a|e] s' Hs'; [done|by apply Hh]. Qed.
Lemma calm_of_result {A} i J (r : result A) : calm i J (of_result r).
Proof. intros s Hs. by apply wpo_of_result. Qed.
Lemma calm_ret {A} i J (a : A) : calm i J (Ret a).
Proof. by intros s. Qed.

(** ** A request's answer *)

(** Whatever may be in the market by this request, it answered 200. *)
Definition answers i (r : result response) s : Prop := no_live i s \/ exists rs, r = Ok rs /\ rs_status rs = 200.

Lemma answers_keeps i r s s' : keeps i s s' -> answers i r s -> answers i r s'.
Proof. intros Hk [H|H]; [left; by eapply no_live_keeps|by right]. Qed.

Section act.
Context (reply : nat -> copier_call -> copier_reply) (who : caller) (master org rid : Z) (alert : payload).
Abbreviation i := (ca_request who).
Abbreviation call := (call reply who rid).
Abbreviation audit := (_audit who org master rid alert).
Abbreviation held := (holds i rid (fun _ => True)).

Lemma calm_call P c : match c with PostOrder _ => False | _ => True end -> calm i (steady i rid P) (call c).
Proof.
  intros Hc s Hs. apply wpo_stmt. intros s' Hk Hok. eapply steady_keeps in Hs; [|done].
  destruct (copier_cases reply i rid (ca_t0 who) c s') as [[-> _]|(lc & Hi & _ & Hlc & -> & _)].
  - split; [by apply quiet_move|done].
  - assert (is_order lc = false) as Hno by (unfold is_order; rewrite Hlc; by destruct c).
    split; [apply log_move; auto|]. destruct Hs as [Hh Ho]. split; [done|]. intros x [Hx Hxi]%elem_own_calls. simpl in Hx.
    apply elem_of_app in Hx as [Hx|Hx%list_elem_of_singleton]; [|by subst]. apply Ho. by apply elem_own_calls.
Qed.

(** The one call that may put an order in the market *)
Lemma order_call o s :
  steady i rid (says o) s ->
  triple i (call (PostOrder o)) (fun r s' => held s' /\
    match r with Ok _ | Raise (CopierUnknown _) => True | _ => no_live i s' end) s.
Proof.
  intros Hs. apply wpo_stmt. intros s' Hk Hok. eapply steady_keeps in Hs as [Hh Ho]; [|done].
  assert (held s') as Hheld by (destruct Hh as (r & ? & ? & ? & _); by exists r).
  destruct (copier_cases reply i rid (ca_t0 who) (PostOrder o) s') as [[-> [w ->]]|(lc & Hi & Hrid & Hlc & -> & ->)].
  - split; [by apply quiet_move|]. split; [done|by apply no_orders_live].
  - split.
    + apply log_move; [done|done|]. right. split; [done|]. exists o. unfold order_of. by rewrite Hlc, Hrid.
    + split; [done|]. pose proof (classify_refused (lc_reply lc)) as Href.
      assert (maybe_live (lc_reply lc) = false -> no_live i (set_wb_calls (wb_calls s' ++ [lc]) s')) as Hdead.
      { intros Hl x [Hx Hxi]%elem_own_calls. simpl in Hx. apply elem_of_app in Hx as [Hx|Hx%list_elem_of_singleton].
        - apply (no_orders_live _ _ Ho). by apply elem_own_calls.
        - subst x. unfold live_order. rewrite Hl. apply andb_false_r. }
      destruct (classify _) as [?|[]]; auto.
Qed.

(** *** Finishing *)

Lemma finish_kept outcome reason s s' :
  bool_decide (outcome ∈ ["accepted"; "unknown"]) = true -> keeps i s s' -> books_ok s' -> held s ->
  own_move i s' (exec (_finish rid outcome reason false) s').
Proof.
  intros Ho Hk Hok Hh. eapply holds_keeps in Hh; [|done]. apply finish_move; [done| |by left].
  destruct Hh as (r & ? & ? & _). by exists r.
Qed.
Lemma finish_cleared outcome reason clear s s' :
  bool_decide (outcome ∈ ["accepted"; "unknown"]) = false -> keeps i s s' -> books_ok s' -> held s -> no_live i s ->
  own_move i s' (exec (_finish rid outcome reason clear) s').
Proof.
  intros Ho Hk Hok Hh Hl. eapply holds_keeps in Hh; [|done]. eapply no_live_keeps in Hl; [|done].
  apply finish_move; [done| |by right]. destruct Hh as (r & ? & ? & _). by exists r.
Qed.
Lemma no_live_finish outcome reason clear s s' : keeps i s s' -> no_live i s -> no_live i (exec (_finish rid outcome reason clear) s').
Proof. intros Hk Hl. eapply no_live_keeps in Hl; [|done]. exact Hl. Qed.

(** An event, then an answer of 200 *)
Lemma audited_200 outcome detail rs s : rs_status rs = 200 -> triple i (audit outcome detail >>> Ret rs) (answers i) s.
Proof.
  intros Hrs. apply wpo_bind. apply triple_quiet; [apply quiet_control_event|]. intros t s' _. simpl. right. by exists rs.
Qed.
(** ... or of anything, with nothing in the market *)
Lemma audited_dead outcome detail rs s : no_live i s -> triple i (audit outcome detail >>> Ret rs) (answers i) s.
Proof.
  intros Hl. apply wpo_bind. apply triple_quiet; [apply quiet_control_event|]. intros t s' Hk. simpl. left. by eapply no_live_keeps.
Qed.

Lemma settle_answers e s :
  held s -> match e with CopierUnknown _ => True | _ => no_live i s end -> triple i (settle_failure rid audit e) (answers i) s.
Proof.
  intros Hh He.
  assert (no_live i s -> forall outcome reason o d rs, bool_decide (outcome ∈ ["accepted"; "unknown"]) = false ->
    triple i (stmt (_finish rid outcome reason true) >>> audit o d >>> Ret rs) (answers i) s) as Hdead.
  { intros Hl outcome reason o d rs Ho. apply wpo_bind, wpo_stmt. intros s' Hk Hok.
    split; [by eapply finish_cleared|]. by apply audited_dead, no_live_finish with s. }
  destruct e; cbn [settle_failure];
    lazymatch goal with |- wpo _ _ _ (Throw _) _ _ => left; exact He | _ => idtac end.
  1, 2: apply Hdead; [exact He|reflexivity].
  apply wpo_bind, wpo_stmt. intros s' Hk Hok. split; [by eapply finish_kept|]. by apply audited_200.
Qed.

Lemma place_ok order judge answer s :
  steady i rid (says order) s ->
  triple i (pcatch (place reply who master org rid order judge audit answer) (settle_failure rid audit)) (answers i) s.
Proof.
  intros Hs. apply wpo_catch. unfold place.
  assert (forall s', steady i rid (says order) s' -> held s' /\ no_live i s') as Hsteady.
  { intros s' [(r & ? & ? & ? & _) Ho]. split; [by exists r|by apply no_orders_live]. }
  assert (forall e s', steady i rid (says order) s' -> triple i (settle_failure rid audit e) (answers i) s') as Hraise.
  { intros e s' Hs'. destruct (Hsteady s' Hs'). apply settle_answers; [done|]. by destruct e. }
  apply wpo_bind. eapply wpo_mono; [|by apply (calm_call (says order))]. intros [state|e] s1 Hs1; [|by apply Hraise].
  apply wpo_bind. apply wpo_of_result. destruct (judge state) as [[]|e]; [|by apply Hraise].
  apply wpo_bind. eapply wpo_mono; [|by apply order_call]. intros [summary|e] s2 [Hh Hr]; [|by apply settle_answers].
  apply wpo_bind, wpo_stmt. intros s' Hk Hok. split; [by eapply finish_kept|]. apply wpo_bind.
  apply triple_quiet; [apply quiet_control_event|]. intros t s3 _. simpl. right. by eexists.
Qed.

(** *** Closing and cancelling *)

Lemma calm_close_rows P rows : calm i (steady i rid P) (close_rows reply who master rid rows).
Proof.
  induction rows as [|row rows IH]; cbn [close_rows cancel_rows]; [by intros s|].
  apply calm_bind; [apply calm_of_result|]. intros id. apply calm_bind; [by apply calm_call|]. intros _.
  apply calm_bind; [done|]. by intros ids s.
Qed.
Lemma calm_cancel_rows P rows : calm i (steady i rid P) (cancel_rows reply who master rid rows).
Proof.
  induction rows as [|row rows IH]; cbn [close_rows cancel_rows]; [by intros s|].
  apply calm_bind; [apply calm_of_result|]. intros id. apply calm_bind; [by apply calm_call|]. intros _.
  apply calm_bind; [done|]. by intros ids s.
Qed.
Lemma calm_close P symbol : calm i (steady i rid P) (_close reply who master org rid symbol).
Proof.
  unfold _close. apply calm_bind; [|intros; apply calm_close_rows]. unfold book_to_close.
  apply calm_bind; [by apply calm_call|]. intros state. apply calm_bind; [apply calm_of_result|].
  intros [|p rows]; [|by intros s].
  apply calm_bind; [|intros _; apply calm_bind; [by apply calm_call|intros; apply calm_of_result]].
  apply calm_catch; [apply calm_bind; [by apply calm_call|by intros _ s]|]. by intros [] s.
Qed.
Lemma calm_cancel P symbol : calm i (steady i rid P) (_cancel reply who master org rid symbol).
Proof.
  unfold _cancel. apply calm_bind; [by apply calm_call|]. intros state.
  apply calm_bind; [apply calm_of_result|]. intros. apply calm_cancel_rows.
Qed.

Lemma done_ok P (p : prog webhooks (list json)) action key symbol nothing why s :
  bool_decide (nothing ∈ ["accepted"; "unknown"]) = false -> calm i (steady i rid P) p -> steady i rid P s ->
  triple i (pcatch (pbind p (fun ids => done_rows rid action key symbol nothing why ids audit)) (settle_failure rid audit))
    (answers i) s.
Proof.
  intros Hnothing Hp Hs. apply wpo_catch, wpo_bind. eapply wpo_mono; [|by apply Hp]. intros [ids|e] s1 Hs1.
  - destruct Hs1 as [(r & ? & ? & ? & _) Ho%no_orders_live]. assert (held s1) as Hh by (by exists r).
    unfold done_rows. apply wpo_bind, wpo_stmt. intros s' Hk Hok. split.
    { destruct ids; [by eapply finish_cleared|by eapply finish_kept]. }
    apply wpo_bind. apply triple_quiet; [apply quiet_control_event|]. intros t s3 _. right. by eexists.
  - destruct Hs1 as [(r & ? & ? & ? & _) Ho%no_orders_live]. apply settle_answers; [by exists r|]. by destruct e.
Qed.
End act.

(** ** The duplicate check *)

Definition reserved org fp action (r : Receipt) : Prop :=
  re_fingerprint r = Some fp /\ re_action r = Some action /\ re_org r = org.

(** A refusal or a duplicate holds no fingerprint. *)
Lemma record_ok who org body alert status reason s :
  books_ok s -> own_move (ca_request who) s (exec (_record who org body alert status reason) s).
Proof.
  intros Hok. destruct (insert_ok (ca_request who) who org body alert "rejected" (Some reason) None s) as [[Hok' Hk] _];
    [done|done|intros ? ? [=]|].
  set (s1 := exec (_insert _ _ _ _ _ _ _) s) in *.
  assert (exists sev p, exec (_record who org body alert status reason) s = exec (control_event org None sev p) s1)
    as (sev & p & ->) by (do 2 eexists; reflexivity).
  destruct (quiet_move (ca_request who) s1 (exec (control_event org None sev p) s1)) as [Hok2 Hk2]; [done..|].
  split; [done|]. intros j Hj. etrans; [by apply Hk|by apply Hk2].
Qed.

Lemma reserve_ok who org max_per_minute body alert fp s :
  no_orders (ca_request who) s ->
  triple (ca_request who) (stmt (reserve who org max_per_minute body alert fp))
    (fun r s' => match r with
       | Ok (inr rid) => steady (ca_request who) rid (reserved org fp (al_action alert)) s'
       | _ => no_orders (ca_request who) s' end) s.
Proof.
  intros Hno. apply wpo_stmt. intros s' Hk Hok. eapply no_orders_keeps in Hno; [|done].
  unfold reserve, exec, value, bind, gets. cbn [fst snd].
  destruct (newest (List.filter (is_duplicate org fp (wb_now s')) (wb_receipts s'))) as [dup|] eqn:Ed.
  - cbn. split; [|done]. apply (insert_ok _ who org (Some body) (Some alert) "duplicate" _ None); [done|done|intros ? ? [=]].
  - destruct (max_per_minute <=? _) eqn:Em.
    + split; [|done]. apply (record_ok who org (Some body) (Some alert) 429 _ s' Hok).
    + apply newest_none in Ed. cbn. split.
      * apply (insert_ok _ who org (Some body) (Some alert) "accepted" None (Some fp)); [done|done|].
        intros f r [= <-] _ Hr Ho Hf Hc. assert (is_duplicate org fp (wb_now s') r = false) as Hd.
        { destruct (is_duplicate _ _ _ r) eqn:E; [|done].
          assert (r ∈ List.filter (is_duplicate org fp (wb_now s')) (wb_receipts s')) as Hin by by apply elem_filter.
          rewrite Ed in Hin. by apply elem_of_nil in Hin. }
        unfold is_duplicate in Hd. rewrite Hc, Hf, Ho, Z.eqb_refl, bool_decide_eq_true_2 in Hd by done. simpl in Hd. lia.
      * split; [|done]. eexists. split.
        { apply elem_own_receipts. split; [apply elem_of_app; right; by apply list_elem_of_singleton|done]. }
        done.
Qed.

(** ** What a plain alert's order says *)

Lemma order_says m org master a r :
  good_alert m a -> al_action a <> "close" -> al_action a <> "cancel" ->
  reserved org (_fingerprint sha256 org a) (al_action a) r -> says (alert_order master a) r.
Proof.
  intros (Ha & Ht & [Hm _] & _) Hclose Hcancel (Hf & _ & <-). exists (_fingerprint sha256 (re_org r) a). split; [done|]. intros _.
  unfold _fingerprint, order_fingerprint, fingerprint_parts, alert_order. simpl.
  rewrite (bool_decide_eq_false_2 (al_action a = "cancel")) by done.
  assert (str_lower (str_upper (al_action a)) = al_action a) as ->.
  { unfold ACTIONS in Ha. rewrite !elem_of_cons, elem_of_nil in Ha. by destruct Ha as [->|[->|[->|[->|[]]]]]. }
  unfold ORDER_TYPES in Ht. rewrite !elem_of_cons, elem_of_nil in Ht.
  destruct Ht as [Ht|[Ht|[Ht|[]]]]; rewrite Ht in *; [by rewrite Hm| |]; simpl; by destruct (al_price a).
Qed.

(** ** The whole request *)

Section request.
Context (json_loads : string -> option json) (reply : nat -> copier_call -> copier_reply) (extra_ips : list string).

(** *** Steps before the duplicate check *)

Section before.
Context (who : caller) (J : webhooks -> Prop).
Abbreviation i := (ca_request who).
Hypothesis J_calls : forall s s', own_calls i s' = own_calls i s -> J s -> J s'.

Lemma before_quiet {A} (m : M webhooks A) : quiet m -> calm i J (stmt m).
Proof. intros Hm s Hs. apply triple_quiet; [done|]. intros t s' (_ & Hc & _). by eapply J_calls. Qed.
Lemma before_query {A} (f : webhooks -> A) : calm i J (query f).
Proof. apply before_quiet. by intros s. Qed.
Lemma before_record org body alert status reason : calm i J (stmt (_record who org body alert status reason)).
Proof.
  intros s Hs. apply wpo_stmt. intros s' (_ & Hc & _) Hok. split; [by apply record_ok|].
  apply (J_calls s); [|done]. by rewrite <- Hc.
Qed.
Lemma before_vt_ok h body vt reason : calm i J (stmt (_record_vt_ok who h body vt reason)).
Proof.
  intros s Hs. apply wpo_stmt. intros s' (_ & Hc & _) Hok. split; [|apply (J_calls s); [by rewrite <- Hc|done]].
  destruct (insert_ok i who (ho_org h) (Some body) (Some (receipt_alert vt)) "accepted" reason None s') as [[Hok' Hk'] _];
    [done|done|intros ? ? [=]|].
  set (s1 := exec (_insert _ _ _ _ _ _ _) s') in *.
  assert (exists p, exec (_record_vt_ok who h body vt reason) s' = exec (control_event (ho_org h) None Info p) s1)
    as (p & ->) by (eexists; reflexivity).
  destruct (quiet_move i s1 (exec (control_event (ho_org h) None Info p) s1)) as [Hok2 Hk2]; [done..|].
  split; [done|]. intros j Hj. etrans; [by apply Hk'|by apply Hk2].
Qed.
Lemma before_gates h : calm i J (gates h).
Proof.
  unfold gates. case_match; [by intros s|]. apply calm_bind; [apply before_query|].
  intros [o|]; [|by intros s]. case_match; [by intros s|]. case_match; [by intros s|].
  apply calm_bind; [apply before_query|]. by intros [m|] s.
Qed.
End before.

Section after.
Context (who : caller).
Abbreviation i := (ca_request who).
Abbreviation before p := (calm i (no_orders i) p).

Lemma no_orders_calls s s' : own_calls i s' = own_calls i s -> no_orders i s -> no_orders i s'.
Proof. intros Hc H c. rewrite Hc. apply H. Qed.
Lemma no_live_calls s s' : own_calls i s' = own_calls i s -> no_live i s -> no_live i s'.
Proof. intros Hc H c. rewrite Hc. apply H. Qed.
Lemma calm_answers (p : prog webhooks response) s : before p -> no_orders i s -> triple i p (answers i) s.
Proof. intros Hp Hs. eapply wpo_mono; [|by apply Hp]. intros r s' Hno. left. by apply no_orders_live. Qed.

(** *** Acting *)

Lemma act_ok m master org rid alert max_open s :
  good_alert m alert -> steady i rid (reserved org (_fingerprint sha256 org alert) (al_action alert)) s ->
  triple i (act reply who master org rid alert max_open) (answers i) s.
Proof.
  intros Hgood Hs. unfold act.
  destruct (bool_decide (al_action alert = "close")) eqn:Eclose; [eapply done_ok; [done|by apply calm_close|done]|].
  destruct (bool_decide (al_action alert = "cancel")) eqn:Ecancel; [eapply done_ok; [done|by apply calm_cancel|done]|].
  apply bool_decide_eq_false in Eclose, Ecancel. apply place_ok. destruct Hs as [(r & Hr & Hid & Hc & HP) Hno]. split; [|done].
  exists r. split_and!; [done..|]. by eapply order_says.
Qed.

Lemma act_vt_ok master org rid vt max_open fp s :
  vt_role vt = "ltf" -> steady i rid (reserved org fp (vt_role vt)) s ->
  triple i (act_vt reply who master org rid vt max_open) (answers i) s.
Proof.
  intros Hrole Hs. apply place_ok. destruct Hs as [(r & Hr & Hid & Hc & (Hf & Ha & _)) Hno]. split; [|done].
  exists r. split_and!; [done..|]. exists fp. split; [done|]. unfold plain. rewrite Ha, Hrole. done.
Qed.

Lemma vt_ltf_ok h body master vt s :
  vt_role vt = "ltf" -> no_orders i s -> triple i (_handle_vt_ltf sha256 reply who h body master vt) (answers i) s.
Proof.
  intros Hrole Hs. unfold _handle_vt_ltf. destruct (vt_trigger vt) as [[]|]; [|by apply calm_answers; [apply before_vt_ok, no_orders_calls|]..].
  apply wpo_bind. eapply wpo_mono; [|by apply reserve_ok]. intros [[r|rid]|e] s1 Hs1; [by left; apply no_orders_live| |by left; apply no_orders_live].
  apply wpo_bind, triple_query. intros s2 Hk2. eapply steady_keeps in Hs1; [|done].
  apply wpo_bind, triple_query. intros s3 Hk3. eapply steady_keeps in Hs1; [|done].
  destruct (check_gate _ _ _ _) as [reason|]; [|by eapply act_vt_ok].
  destruct Hs1 as [(r & ? & ? & ? & _) Hno%no_orders_live].
  apply wpo_bind, wpo_stmt. intros s' Hk Hok. split; [eapply finish_cleared; [done|done|done|by exists r|done]|].
  apply audited_dead. by eapply no_live_finish.
Qed.

Lemma vt_bridge_ok h body master raw s :
  no_orders i s -> triple i (_handle_vt_bridge sha256 reply who h body master raw) (answers i) s.
Proof.
  intros Hs. unfold _handle_vt_bridge. destruct (parse_vt_alert raw _) as [vt|e] eqn:Ep.
  - apply wpo_bind, wpo_of_result. destruct (renamed _ _) as [symbol|e]; [|by left; apply no_orders_live].
    cbn [vt_role with_vt_symbol]. destruct (bool_decide (vt_role vt = "htf")) eqn:Eh.
    + apply calm_answers; [|done]. destruct (vt_valid _); [|by apply before_vt_ok, no_orders_calls].
      apply calm_bind; [apply before_quiet; [apply no_orders_calls|apply quiet_store]|]. intros _. apply before_vt_ok, no_orders_calls.
    + apply vt_ltf_ok; [|done]. apply bool_decide_eq_false in Eh. simpl.
      apply parse_vt_good in Ep as [Hin _].
      unfold ROLES in Hin. rewrite !elem_of_cons, elem_of_nil in Hin. naive_solver.
  - destruct e; try (by left; apply no_orders_live). apply calm_answers; [apply before_record, no_orders_calls|done].
Qed.
End after.

Lemma admit_ok who h redacted body s :
  no_orders (ca_request who) s ->
  triple (ca_request who) (screen_request sha256 reply who h redacted body)
    (fun r s' => match r with
       | Ok (inr (_, a)) => good_alert (cap_of h) a /\ no_orders (ca_request who) s'
       | Ok (inl rs) => answers (ca_request who) (Ok rs) s'
       | Raise e => no_live (ca_request who) s' end) s.
Proof.
  intros Hs. unfold screen_request. apply wpo_catch, wpo_bind.
  assert (forall e s', no_live (ca_request who) s' ->
    triple (ca_request who)
      (match e with
       | WebhookRejected status reason =>
           let* r := stmt (_record who (ho_org h) (Some redacted) None status reason) in Ret (inl r)
       | e => Throw e
       end : prog webhooks (response + (Z * Alert))) (fun r s' => match r with
       | Ok (inr (_, a)) => good_alert (cap_of h) a /\ no_orders (ca_request who) s'
       | Ok (inl rs) => answers (ca_request who) (Ok rs) s'
       | Raise e => no_live (ca_request who) s' end) s') as Hraise.
  { intros e s' Hl. destruct e; try exact Hl. apply wpo_bind.
    eapply wpo_mono; [|by eapply before_record; [apply no_live_calls|]]. intros [r|e] s2 Hs2; [by left|done]. }
  eapply wpo_mono; [|by eapply before_gates; [apply no_orders_calls|]].
  intros [master|e] s1 Hs1; [|by apply Hraise, no_orders_live]. destruct (has_role body).
  - apply wpo_bind. eapply wpo_mono; [|by apply vt_bridge_ok]. intros [r|e] s2 Hs2; [done|].
    apply Hraise. by destruct Hs2 as [Hs2|(rs & ? & _)].
  - apply wpo_bind, wpo_of_result. destruct (parse_alert body (cap_of h)) as [alert|e] eqn:Ep.
    + apply parse_alert_good in Ep. apply wpo_bind, wpo_of_result. simpl.
      destruct (renamed _ _); [done|by apply Hraise, no_orders_live].
    + destruct e; by apply Hraise, no_orders_live.
Qed.

Lemma authenticated_ok who h redacted body s :
  no_orders (ca_request who) s ->
  triple (ca_request who) (authenticated sha256 reply who h redacted body) (answers (ca_request who)) s.
Proof.
  intros Hs. unfold authenticated. apply wpo_bind. eapply wpo_mono; [|by apply admit_ok].
  intros [[rs|[master alert]]|e] s1 Hs1; [done| |by left]. destruct Hs1 as [Hgood Hno].
  apply wpo_bind. eapply wpo_mono; [|by apply reserve_ok].
  intros [[r|rid]|e] s2 Hs2; [by left; apply no_orders_live|by eapply act_ok|by left; apply no_orders_live].
Qed.

Lemma tradingview_ok rq s :
  no_orders (rq_number rq) s ->
  triple (rq_number rq) (tradingview sha256 json_loads reply extra_ips rq) (answers (rq_number rq)) s.
Proof.
  intros Hs. unfold tradingview. apply wpo_bind, triple_query. intros s1 Hk. eapply no_orders_keeps in Hs; [|done].
  set (who := {| ca_request := rq_number rq; ca_ip := rq_ip rq; ca_t0 := wb_now s1 |}).
  change (rq_number rq) with (ca_request who) in Hs. change (rq_number rq) with (ca_request who).
  assert (forall key n (rs : response), calm (ca_request who) (no_orders (ca_request who)) (stmt (limited key n) >>> Ret rs)) as Hlimited.
  { intros key n rs. apply calm_bind; [apply before_quiet; [apply no_orders_calls|apply quiet_limited]|by intros _ s']. }
  case_match; [by left; apply no_orders_live|]. case_match; [by apply calm_answers; [apply Hlimited|]|].
  unfold _handle. apply wpo_bind, triple_query. intros s2 Hk2. eapply no_orders_keeps in Hs; [|done].
  destruct (find_hook _ _) as [h|]; [|by apply calm_answers; [apply Hlimited|]].
  destruct (json_loads _) as [body|]; [|by apply calm_answers; [apply before_record, no_orders_calls|]].
  destruct (secret_ok _ _ _); [by apply authenticated_ok|]. apply calm_answers; [|done].
  apply calm_bind; [apply before_quiet; [apply no_orders_calls|apply quiet_limited]|].
  intros []; [by intros s'|apply before_record, no_orders_calls].
Qed.

(** ** Any number of requests *)

(** The requests, by their place in the pool *)
Definition serve (rqs : list request) : list (prog webhooks response) :=
  imap (fun n rq => tradingview sha256 json_loads reply extra_ips
          {| rq_number := n; rq_ip := rq_ip rq; rq_hook_id := rq_hook_id rq; rq_raw := rq_raw rq |}) rqs.

(** What else moves: time goes on, and anything but the receipts and the log
    of calls may change. *)
Definition world_moves (s s' : webhooks) : Prop :=
  wb_receipts s' = wb_receipts s /\ wb_next_receipt s' = wb_next_receipt s /\ wb_calls s' = wb_calls s /\ wb_now s <= wb_now s'.

Lemma world_keeps i s s' : world_moves s s' -> keeps i s s'.
Proof. intros (Hr & _ & Hc & Ht). unfold keeps, own_receipts, own_calls. by rewrite Hr, Hc. Qed.
Lemma world_ok s s' : world_moves s s' -> books_ok s -> books_ok s'.
Proof.
  intros (Hr & Hn & Hc & Ht) [? ? Hpast ? ? ?]. split; rewrite ?Hr, ?Hn, ?Hc; auto.
  intros r Hin. specialize (Hpast r Hin). lia.
Qed.

Lemma served_well rqs s0 w :
  books_ok s0 -> wb_calls s0 = [] -> rtc (pool_move world_moves) (serve rqs, s0) w -> all_well books_ok keeps answers w.
Proof.
  intros Hok Hcalls Hrun. eapply pool_runs_well; [by apply _|by intros; apply world_keeps|apply world_ok|apply answers_keeps|exact Hrun|].
  split; [done|]. simpl. intros n p Hp. unfold serve in Hp. rewrite list_lookup_imap in Hp.
  destruct (rqs !! n) as [rq|]; [|done]. injection Hp as <-.
  apply (tradingview_ok {| rq_number := n; rq_ip := rq_ip rq; rq_hook_id := rq_hook_id rq; rq_raw := rq_raw rq |}).
  intros c Hc%elem_own_calls. rewrite Hcalls in Hc. by destruct Hc as [Hc%elem_of_nil _].
Qed.

(** C18: however alerts, resends, operators and the clock interleave, no trade is made twice: two orders that may both be in
    the market for one workspace with the same trading content -- the same fingerprint, or the same order of two plain alerts
    -- come from receipts at least twenty seconds apart, the window that covers every resend. *)
Theorem no_double_trade rqs s0 ps s a b c1 c2 o1 o2 :
  books_ok s0 -> wb_calls s0 = [] -> rtc (pool_move world_moves) (serve rqs, s0) (ps, s) ->
  a <> b -> wb_calls s !! a = Some c1 -> wb_calls s !! b = Some c2 -> order_of c1 = Some o1 -> order_of c2 = Some o2 ->
  maybe_live (lc_reply c1) = true -> maybe_live (lc_reply c2) = true ->
  exists r1 r2, r1 ∈ wb_receipts s /\ r2 ∈ wb_receipts s /\ re_id r1 = lc_receipt c1 /\ re_id r2 = lc_receipt c2 /\
    re_id r1 <> re_id r2 /\
    (re_org r1 = re_org r2 ->
     re_fingerprint r1 = re_fingerprint r2 \/ plain r1 = true /\ plain r2 = true /\ o1 = o2 ->
     DEDUP_WINDOW_US <= Z.abs (re_received_at r1 - re_received_at r2)).
Proof.
  intros Hok Hcalls Hrun Hab H1 H2 Ho1 Ho2 Hl1 Hl2. destruct (served_well _ _ _ Hok Hcalls Hrun) as [Hok' _]. simpl in Hok'.
  destruct (bo_calls s Hok' c1 o1) as (r1 & Hr1 & Hid1 & _ & Hs1); [by eapply list_elem_of_lookup_2|done|].
  destruct (bo_calls s Hok' c2 o2) as (r2 & Hr2 & Hid2 & _ & Hs2); [by eapply list_elem_of_lookup_2|done|].
  destruct (Hs1 Hl1) as (Hc1 & fp1 & Hf1 & Hp1), (Hs2 Hl2) as (Hc2 & fp2 & Hf2 & Hp2).
  assert (re_id r1 <> re_id r2) as Hne.
  { rewrite Hid1, Hid2. intros He. apply Hab. eapply (bo_once s Hok'); [done|done| | |done];
      unfold is_order, order_of in *; [by destruct (lc_call c1)|by destruct (lc_call c2)]. }
  exists r1, r2. split_and!; [done..|]. intros Horg Hsame.
  assert (fp1 = fp2) as <-.
  { destruct Hsame as [Hsame|(Hplain1 & Hplain2 & ->)]; [congruence|].
    rewrite (Hp1 Hplain1), (Hp2 Hplain2). by rewrite Horg. }
  by eapply (bo_spaced s Hok').
Qed.

(** C19: a request whose order may be in the market, whatever else runs, has answered 200 once it has answered, never an error
    that would make TradingView send the alert again. *)
Theorem live_order_answers_200 rqs s0 ps s n p c :
  books_ok s0 -> wb_calls s0 = [] -> rtc (pool_move world_moves) (serve rqs, s0) (ps, s) ->
  ps !! n = Some p -> c ∈ wb_calls s -> lc_request c = n -> live_order c = true ->
  match p with Ret rs => rs_status rs = 200 | Throw _ => False | Step _ _ => True end.
Proof.
  intros Hok Hcalls Hrun Hp Hc Hn Hl. destruct (served_well _ _ _ Hok Hcalls Hrun) as [_ Hwell].
  specialize (Hwell n p Hp). simpl in Hwell.
  assert (no_live n s -> False) as Hdead.
  { intros Hno. rewrite (Hno c) in Hl; [done|]. by apply elem_own_calls. }
  destruct p as [rs|e|upd k]; simpl in Hwell; [| |done].
  - destruct Hwell as [Hno|(rs' & [= ->] & ?)]; [by destruct (Hdead Hno)|done].
  - destruct Hwell as [Hno|(rs' & [=] & _)]. by apply Hdead.
Qed.
End request.
End invariant.

(** ** A run: an alert, half a minute later the same trade again *)

Lemma workspace_ok sha256 : books_ok sha256 workspace.
Proof. split; simpl; [constructor| | | | |]; intros; first [done|set_solver]. Qed.

Definition two_alerts : list request := [alert_request "hook" "buy"; alert_request "hook" "again"].
Definition demo_pool : list (prog webhooks response) := serve demo_sha256 demo_loads silent [] two_alerts.
Definition half_way : list (prog webhooks response) * webhooks := run_pool (replicate 12 O) (demo_pool, workspace).
Definition at_the_end : list (prog webhooks response) * webhooks :=
  run_pool (replicate 12 1%nat) (half_way.1, set_wb_now 30000000 half_way.2).

Lemma tick (ps : list (prog webhooks response)) s t : (wb_now s <=? t) = true -> pool_move world_moves (ps, s) (ps, set_wb_now t s).
Proof. intros Ht. constructor. split_and!; [done..|]. simpl. lia. Qed.

Lemma demo_reachable : rtc (pool_move world_moves) (demo_pool, workspace) (at_the_end.1, at_the_end.2).
Proof.
  rewrite <- surjective_pairing. trans half_way; [apply run_pool_reachable|].
  trans (half_way.1, set_wb_now 30000000 half_way.2); [|apply run_pool_reachable].
  rewrite (surjective_pairing half_way) at 1. apply rtc_once, tick. vm_compute. reflexivity.
Qed.

Lemma no_double_trade_witness :
  rtc (pool_move world_moves) (demo_pool, workspace) (at_the_end.1, at_the_end.2) /\
  exists r1 r2, r1 ∈ wb_receipts at_the_end.2 /\ r2 ∈ wb_receipts at_the_end.2 /\ re_id r1 <> re_id r2 /\
    (re_org r1 = re_org r2 -> re_fingerprint r1 = re_fingerprint r2 -> DEDUP_WINDOW_US <= Z.abs (re_received_at r1 - re_received_at r2)).
Proof.
  split; [exact demo_reachable|].
  destruct (no_double_trade demo_sha256 demo_loads silent [] two_alerts workspace at_the_end.1 at_the_end.2 1 3
    {| lc_request := 0; lc_receipt := 1; lc_call := PostOrder demo_order; lc_reply := Unconfirmed "ReadTimeout"; lc_at := 0 |}
    {| lc_request := 1; lc_receipt := 2; lc_call := PostOrder demo_order; lc_reply := Unconfirmed "ReadTimeout"; lc_at := 30000000 |}
    demo_order demo_order) as (r1 & r2 & ? & ? & ? & ? & ? & H);
    [apply workspace_ok|done|exact demo_reachable|done|vm_compute; reflexivity|vm_compute; reflexivity|done|done|done|done|].
  exists r1, r2. split_and!; [done..|]. intros Ho Hf. apply H; [done|by left].
Defined.

Lemma live_order_answers_200_witness :
  exists rs, at_the_end.1 !! 1%nat = Some (Ret rs) /\ rs_status rs = 200.
Proof.
  set (c := {| lc_request := 1; lc_receipt := 2; lc_call := PostOrder demo_order; lc_reply := Unconfirmed "ReadTimeout"; lc_at := 30000000 |}).
  assert (exists rs, at_the_end.1 !! 1%nat = Some (Ret rs)) as [rs E] by (eexists; vm_compute; reflexivity).
  exists rs. split; [exact E|].
  apply (live_order_answers_200 demo_sha256 demo_loads silent [] two_alerts workspace at_the_end.1 at_the_end.2 1 (Ret rs) c);
    [apply workspace_ok|reflexivity|exact demo_reachable|exact E| |reflexivity|reflexivity].
  apply list_elem_of_lookup. exists 3%nat. vm_compute. reflexivity.
Defined.
