(* ===== verification/WebhookFacts.v ===== *)
(** * The alert receiver, one request at a time: the doors and the caps

    What a request does, from whatever states the others leave between its
    steps: nothing while one of its doors stays closed, and on the master's
    account and within the cap when it trades. *)

From S2P Require Import Prelude PyStr PyFloat PyRepr Db PyJson Repo Limiter Prog Owners Alerts AlertsFacts Webhook.
From S2P Require Import WebhookDemo.
From Stdlib Require Import Ascii SpecFloat.

Section facts.
Context (sha256 : string -> string) (json_loads : string -> option json)
        (reply : nat -> copier_call -> copier_reply) (extra_ips : list string).
Abbreviation tradingview := (tradingview sha256 json_loads reply extra_ips).

(** ** The doors *)

Inductive door := Size | Source | Mailbox | Secret | Switch | Copying (org : Z) | DryRun (org : Z) | NoMaster (org : Z).

(** The hook of the request, if there is one, is that org's. *)
Definition hook_of (org : Z) (rq : request) (s : webhooks) : Prop :=
  forall h, find_hook (rq_hook_id rq) s = Some h -> ho_org h = org.
Definition org_row (org : Z) (s : webhooks) : option OrgRow := List.find (fun o => org =? org_id o) (db_orgs (wb_db s)).

Definition closed (d : door) (rq : request) (s : webhooks) : Prop :=
  match d with
  | Size => (MAX_BODY_BYTES < String.length (rq_raw rq))%nat
  | Source => rq_ip rq ∉ _source_ips extra_ips
  | Mailbox => find_hook (rq_hook_id rq) s = None
  | Secret => forall h body, find_hook (rq_hook_id rq) s = Some h -> json_loads (rq_raw rq) = Some body -> secret_ok sha256 h body = false
  | Switch => forall h, find_hook (rq_hook_id rq) s = Some h -> ho_enabled h = false
  | Copying org => hook_of org rq s /\ forall o, org_row org s = Some o -> org_copying_enabled o = false
  | DryRun org => hook_of org rq s /\ forall o, org_row org s = Some o -> org_dry_run o = true
  | NoMaster org => hook_of org rq s /\ _master_of org s = None
  end.

(** Before the hook is found nothing is written at all. *)
Definition outside (d : door) : bool := match d with Size | Source | Mailbox => true | _ => false end.

(** What a step may do behind a closed door: count against a limit, and write
    a refused receipt that holds no fingerprint -- and no body, when the secret
    was wrong. *)
Definition turned_away (d : door) (s s' : webhooks) : Prop :=
  wb_calls s' = wb_calls s /\ wb_snapshots s' = wb_snapshots s /\ wb_hooks s' = wb_hooks s /\
  (outside d = true -> wb_receipts s' = wb_receipts s /\ wb_db s' = wb_db s) /\
  (forall r, r ∈ wb_receipts s' -> r ∈ wb_receipts s \/
     re_outcome r = "rejected" /\ re_fingerprint r = None /\ (d = Secret -> re_body r = None)).

#[export] Instance turned_away_refl d : Reflexive (turned_away d).
Proof. intros s. unfold turned_away. split_and!; [done..|]. by left. Qed.

Lemma limited_turned d key n s : turned_away d s (exec (limited key n) s).
Proof.
  unfold limited, exec. destruct (is_limited _ _ _ _) as [b l]. unfold turned_away. simpl. split_and!; [done..|]. by left.
Qed.
Lemma record_turned d who org body status reason s :
  outside d = false -> (d = Secret -> body = None) -> turned_away d s (exec (_record who org body None status reason) s).
Proof.
  intros Hd Hb. unfold turned_away. split_and!; [done..|by rewrite Hd|].
  intros r [Hr|Hr%list_elem_of_singleton]%elem_of_app; [by left|right]. subst r. simpl. split_and!; [done..|]. exact Hb.
Qed.

Section behind.
Context (d : door) (rq : request).
Abbreviation shut p := (makes (closed d rq) (turned_away d) p).
Abbreviation shuts p Q := (ends (closed d rq) (turned_away d) p Q).

Lemma shut_limited key n rs : shut (stmt (limited key n) >>> Ret rs : prog webhooks response).
Proof. apply makes_bind; [|done]. apply makes_stmt. intros s _. apply limited_turned. Qed.
Lemma shut_record who org body status reason :
  outside d = false -> (d = Secret -> body = None) -> shut (stmt (_record who org body None status reason)).
Proof. intros. apply makes_stmt. intros s _. by apply record_turned. Qed.

(** Behind the secret, a closed gate refuses. *)
Lemma gates_refuse h :
  match d with
  | Switch => ho_enabled h = false
  | Copying org | DryRun org | NoMaster org => ho_org h = org
  | _ => False
  end -> shuts (gates h) (fun r => exists status reason, r = Raise (WebhookRejected status reason)).
Proof.
  intros Hd. unfold gates. destruct (ho_enabled h) eqn:Een; [|by do 2 eexists].
  cbn [negb]. apply ends_then, ends_query. intros s Hs. split; [reflexivity|]. fold (org_row (ho_org h) s).
  destruct (org_row (ho_org h) s) as [o|] eqn:Eo; [|by do 2 eexists].
  destruct (org_copying_enabled o) eqn:Ec; [|by do 2 eexists]. cbn [negb].
  destruct (org_dry_run o) eqn:Edry; [by do 2 eexists|].
  apply ends_then, ends_query. intros s2 Hs2. split; [reflexivity|]. destruct (_master_of (ho_org h) s2) as [m|] eqn:Em; [|by do 2 eexists].
  destruct d as [| | | | |org|org|org]; try done; subst org; simpl in Hs, Hs2.
  - destruct Hs as [_ Hs]. by rewrite (Hs o Eo) in Ec.
  - destruct Hs as [_ Hs]. by rewrite (Hs o Eo) in Edry.
  - destruct Hs2 as [_ Hs2]. congruence.
Qed.
End behind.

(** C20: as long as one of the receiver's doors is closed -- the size, the source address, the mailbox, the secret, the switch,
    the workspace's copying, dry run or a missing master -- a request calls the copier not once and stores no bridge reading,
    whatever else it carries and whatever runs beside it; before its mailbox is found it writes nothing at all, and with a
    wrong secret its body is not kept. *)
Theorem closed_door_never_trades d rq : makes (closed d rq) (turned_away d) (tradingview rq).
Proof.
  unfold Webhook.tradingview. apply (ends_makes _ _ _ (fun _ => True)). apply ends_then, ends_query. intros s0 Hs0. split; [reflexivity|]. apply makes_ends.
  set (who := {| ca_request := rq_number rq; ca_ip := rq_ip rq; ca_t0 := wb_now s0 |}).
  destruct (MAX_BODY_BYTES <? String.length (rq_raw rq))%nat eqn:Esize; [done|]. apply Nat.ltb_ge in Esize.
  destruct (negb (bool_decide (rq_ip rq ∈ _source_ips extra_ips))) eqn:Eip; [apply shut_limited|]. bsimp.
  unfold _handle. apply (ends_makes _ _ _ (fun _ => True)). apply ends_then, ends_query. intros s Hs. split; [reflexivity|]. apply makes_ends.
  destruct (find_hook (rq_hook_id rq) s) as [h|] eqn:Eh; [|apply shut_limited].
  assert (outside d = false) as Hout.
  { destruct d; try reflexivity; exfalso; unfold closed in Hs; [lia|done|congruence]. }
  destruct (json_loads (rq_raw rq)) as [body|] eqn:Ej; [|by apply shut_record].
  destruct (secret_ok sha256 h body) eqn:Es.
  - unfold authenticated. apply (ends_makes _ _ _ (fun _ => True)). apply ends_then. unfold screen_request. apply ends_catch, ends_then.
    eapply ends_mono; [|apply (gates_refuse d rq)].
    + intros r (status & reason & ->). apply ends_then, ends_stmt. intros s1 _. split; [|done].
      apply record_turned; [done|]. intros ->. simpl in Hs. by rewrite (Hs h body) in Es.
    + destruct d; unfold closed in Hs; try done; [by rewrite (Hs h body) in Es|by apply Hs|by apply Hs..].
  - apply makes_stmt_bind. intros s1 _. split; [apply limited_turned|]. intros [] _; [done|by apply shut_record].
Qed.

(** ** The caps *)

Section caps.
Context (rq : request) (org : Z) (m : float64) (master : Z -> Prop).

(** The hook of the URL belongs to [org] and its cap is not above [m]; the masters
    of [org] are masters. *)
Definition capped (s : webhooks) : Prop :=
  (forall h, h ∈ wb_hooks s -> ho_hook_id h = rq_hook_id rq ->
     ho_org h = org /\ forall c, cap_of h = Some c -> fleb c m = true) /\
  (forall a, _master_of org s = Some a -> master a).

(** A call on a master's account; an order above zero, within [m] and the ceiling *)
Definition proper (c : copier_call) : Prop :=
  match c with
  | GetState _ | PostResync _ => True
  | PostOrder o => master (ob_account_id o) /\
      exists l, ob_volume_lots o = Some l /\ fltb fzero l = true /\ fleb l m = true /\ fleb l HARD_MAX_LOTS = true
  | PostClose a _ | PostCancel a _ => master a
  end.
Definition calls_properly (s s' : webhooks) : Prop :=
  wb_calls s' = wb_calls s \/ exists c, wb_calls s' = wb_calls s ++ [c] /\ proper (lc_call c).

Abbreviation fine p := (makes capped calls_properly p).

Lemma fine_silent {A} (op : M webhooks A) : (forall s, wb_calls (exec op s) = wb_calls s) -> fine (stmt op).
Proof. intros H. apply makes_stmt. intros s _. left. apply H. Qed.
Lemma fine_query {A} (f : webhooks -> A) : fine (query f).
Proof. by apply fine_silent. Qed.
Lemma fine_limited key n : fine (stmt (limited key n)).
Proof. apply fine_silent. intros s. unfold limited, exec. by destruct (is_limited _ _ _ _). Qed.
Lemma fine_reserve who o n body alert fp : fine (stmt (reserve who o n body alert fp)).
Proof.
  apply fine_silent. intros s. unfold reserve, exec, bind, gets. cbn [fst snd].
  destruct (newest _); [done|]. by destruct (_ <=? _).
Qed.
Lemma fine_call who rid c : proper c -> fine (call reply who rid c).
Proof.
  intros Hc. apply makes_stmt. intros s _. unfold _copier, remaining, exec, bind, gets. cbn [fst snd].
  destruct (_ <=? _); [by left|right]. eexists. split; [cbn; reflexivity|done].
Qed.
Lemma fine_audit who o account rid alert outcome detail : fine (_audit who o account rid alert outcome detail).
Proof. by apply fine_silent. Qed.
Lemma fine_settle who o account rid alert e : fine (settle_failure rid (_audit who o account rid alert) e).
Proof.
  destruct e; cbn [settle_failure]; try exact I;
    (apply makes_bind; [by apply fine_silent|]; intros _; apply makes_bind; [apply fine_audit|done]).
Qed.

Section acting.
Context (who : caller) (a o rid : Z) (alert : payload).
Hypothesis Ha : master a.

Lemma fine_place order judge answer : proper (PostOrder order) ->
  fine (place reply who a o rid order judge (_audit who o a rid alert) answer).
Proof.
  intros Ho. apply makes_bind; [by apply fine_call|]. intros state. apply makes_bind; [apply makes_of_result|]. intros _.
  apply makes_bind; [by apply fine_call|]. intros summary. apply makes_bind; [by apply fine_silent|]. intros _.
  apply makes_bind; [apply fine_audit|done].
Qed.
Lemma fine_close_rows rows : fine (close_rows reply who a rid rows).
Proof.
  induction rows as [|row rows IH]; cbn [close_rows]; [done|]. apply makes_bind; [apply makes_of_result|]. intros id.
  apply makes_bind; [by apply fine_call|]. intros _. by apply makes_bind.
Qed.
Lemma fine_cancel_rows rows : fine (cancel_rows reply who a rid rows).
Proof.
  induction rows as [|row rows IH]; cbn [cancel_rows]; [done|]. apply makes_bind; [apply makes_of_result|]. intros id.
  apply makes_bind; [by apply fine_call|]. intros _. by apply makes_bind.
Qed.
Lemma fine_close symbol : fine (_close reply who a o rid symbol).
Proof.
  apply makes_bind; [|intros; apply fine_close_rows]. apply makes_bind; [by apply fine_call|]. intros state.
  apply makes_bind; [apply makes_of_result|]. intros [|p rows]; [|done].
  apply makes_bind; [|intros _; apply makes_bind; [by apply fine_call|intros; apply makes_of_result]].
  apply makes_catch; [apply makes_bind; [by apply fine_call|by intros]|]. by intros [].
Qed.
Lemma fine_cancel symbol : fine (_cancel reply who a o rid symbol).
Proof.
  apply makes_bind; [by apply fine_call|]. intros state. apply makes_bind; [apply makes_of_result|]. intros. apply fine_cancel_rows.
Qed.
Lemma fine_done action key symbol nothing why ids : fine (done_rows rid action key symbol nothing why ids (_audit who o a rid alert)).
Proof. apply makes_bind; [by apply fine_silent|]. intros _. apply makes_bind; [apply fine_audit|done]. Qed.
End acting.

Lemma within_proper h l : (forall c, cap_of h = Some c -> fleb c m = true) -> within_cap (cap_of h) l ->
  fltb fzero l = true /\ fleb l m = true /\ fleb l HARD_MAX_LOTS = true.
Proof.
  intros Hcap (Hpos & Hhard & c & Hc & Hl). split_and!; [done| |done]. eapply fleb_trans; [exact Hl|by apply Hcap].
Qed.

Lemma fine_act who h a rid alert :
  (forall c, cap_of h = Some c -> fleb c m = true) -> master a -> good_alert (cap_of h) alert ->
  fine (act reply who a (ho_org h) rid alert (ho_max_open h)).
Proof.
  intros Hcap Ha (Hact & _ & _ & Hlots). apply makes_catch; [|intros; apply fine_settle].
  destruct (bool_decide (al_action alert = "close")) eqn:E1; [apply makes_bind; [by apply fine_close|intros; apply fine_done]|].
  destruct (bool_decide (al_action alert = "cancel")) eqn:E2; [apply makes_bind; [by apply fine_cancel|intros; apply fine_done]|].
  bsimp. apply fine_place. split; [done|]. unfold ACTIONS in Hact. rewrite !elem_of_cons, elem_of_nil in Hact.
  destruct Hlots as (l & Hl & Hw); [rewrite !elem_of_cons; tauto|]. exists l. split; [done|]. by eapply within_proper.
Qed.

Lemma fine_vt_ltf who h body a vt :
  (forall c, cap_of h = Some c -> fleb c m = true) -> master a ->
  (exists l, vt_lots vt = Some l /\ within_cap (cap_of h) l) ->
  fine (_handle_vt_ltf sha256 reply who h body a vt).
Proof.
  intros Hcap Ha (l & Hl & Hw). unfold _handle_vt_ltf. destruct (vt_trigger vt) as [[]|]; [|by apply fine_silent..].
  apply makes_bind; [apply fine_reserve|]. intros [r|rid]; [done|].
  apply makes_bind; [apply fine_query|]. intros htf. apply makes_bind; [apply fine_query|]. intros now.
  destruct (check_gate _ _ _ _) as [reason|].
  - apply makes_bind; [by apply fine_silent|]. intros _. apply makes_bind; [apply fine_audit|done].
  - apply makes_catch; [|intros; apply fine_settle]. apply fine_place. split; [done|]. exists l. split; [done|].
    by eapply within_proper.
Qed.

Lemma fine_vt_bridge who h redacted a body :
  (forall c, cap_of h = Some c -> fleb c m = true) -> master a -> fine (_handle_vt_bridge sha256 reply who h redacted a body).
Proof.
  intros Hcap Ha. unfold _handle_vt_bridge. destruct (parse_vt_alert body _) as [vt|e] eqn:Ep.
  - apply parse_vt_good in Ep as (Hrole & _ & Hlots). apply makes_bind; [apply makes_of_result|]. intros symbol.
    cbn [vt_role with_vt_symbol]. destruct (bool_decide (vt_role vt = "htf")) eqn:Eh.
    + destruct (vt_valid _); [|by apply fine_silent]. apply makes_bind; [by apply fine_silent|]. intros _. by apply fine_silent.
    + bsimp. apply fine_vt_ltf; [done|done|]. apply Hlots. unfold ROLES in Hrole. rewrite !elem_of_cons, elem_of_nil in Hrole. tauto.
  - destruct e; try exact I. by apply fine_silent.
Qed.

Lemma gates_master h :
  ho_org h = org -> ends capped calls_properly (gates h) (fun r => match r with Ok a => master a | Raise _ => True end).
Proof.
  intros Horg. unfold gates. case_match; [done|]. apply ends_then, ends_query. intros s Hs. split; [by left|].
  case_match; [|done]. case_match; [done|]. case_match; [done|].
  apply ends_then, ends_query. intros s2 Hs2. split; [by left|].
  rewrite Horg. destruct (_master_of org s2) as [a|] eqn:Ea; [|done]. by apply Hs2.
Qed.

(** C25: whatever an alert says and whatever runs beside it, the receiver acts on
    the account of the master of its mailbox's own workspace only, and every order
    it sends is above zero, within the cap of that very mailbox -- the hook its URL
    names, never another's -- and within the ceiling of fifty lots. *)
Theorem orders_capped : makes capped calls_properly (tradingview rq).
Proof.
  unfold Webhook.tradingview. apply makes_bind; [apply fine_query|]. intros t0. case_match; [done|].
  case_match; [apply makes_bind; [apply fine_limited|done]|].
  set (who := {| ca_request := rq_number rq; ca_ip := rq_ip rq; ca_t0 := t0 |}).
  unfold _handle. apply (ends_makes _ _ _ (fun _ => True)). apply ends_then, ends_query. intros s [Hcap _].
  split; [by left|]. apply makes_ends. destruct (find_hook _ s) as [h|] eqn:Eh; [|apply makes_bind; [apply fine_limited|done]].
  unfold find_hook in Eh. apply find_some in Eh as [Hin Hname]. bsimp. apply list_elem_of_In in Hin.
  destruct (Hcap h Hin) as [Horg Hh]; [congruence|].
  destruct (json_loads _) as [body|]; [|by apply fine_silent].
  case_match; [|apply makes_bind; [apply fine_limited|intros []; [done|by apply fine_silent]]].
  unfold authenticated. apply (ends_makes _ _ _ (fun _ => True)). apply ends_then.
  eapply (ends_mono _ _ _ (fun r => match r with Ok (inr (a, alert)) => master a /\ good_alert (cap_of h) alert | _ => True end)).
  { intros [[r|[a alert]]|e] Hr; [done| |done]. apply makes_ends. destruct Hr as [Ha Hgood].
    apply makes_bind; [apply fine_reserve|]. intros [r|rid]; [done|]. by apply fine_act. }
  unfold screen_request. apply ends_catch, ends_then. eapply ends_mono; [|by apply gates_master].
  assert (forall e, ends capped calls_properly
    (match e with
     | WebhookRejected status reason =>
         let* r := stmt (_record who (ho_org h) (Some (_redact body)) None status reason) in Ret (inl r)
     | e => Throw e
     end : prog webhooks (response + (Z * Alert)))
    (fun r => match r with Ok (inr (a, alert)) => master a /\ good_alert (cap_of h) alert | _ => True end)) as Hrefuse.
  { intros []; try done. apply ends_then, ends_stmt. intros s1 _. by split; [left|]. }
  intros [a|e] Ha; [|by apply Hrefuse]. destruct (has_role body).
  - apply ends_then. eapply ends_mono; [|by apply makes_ends, fine_vt_bridge]. intros [r|e] _; [done|apply Hrefuse].
  - apply ends_then, ends_of_result. destruct (parse_alert body (cap_of h)) as [alert|e] eqn:Ep.
    + apply parse_alert_good in Ep. apply ends_then, ends_of_result. simpl. destruct (renamed _ _); [by split|by apply Hrefuse].
    + by destruct e; apply Hrefuse.
Qed.
End caps.
End facts.

(** ** Secrets *)

(** The texts among a value's values *)
Fixpoint texts (v : json) : list string :=
  match v with
  | JStr s => [s]
  | JObj kvs => concat ((fun kv => texts kv.2) <$> kvs)
  | JList l => concat (texts <$> l)
  | _ => []
  end.

Fixpoint redacted_texts (v : json) : Forall (fun t => secret_shaped t = false) (texts (_redact v)).
Proof.
  destruct v as [| | | |s|l|l|]; simpl; try constructor.
  - destruct (secret_shaped s) eqn:E; simpl; by repeat constructor.
  - induction l as [|v l IH]; simpl; [constructor|]. apply Forall_app. split; [apply redacted_texts|exact IH].
  - induction l as [|[k v] l IH]; simpl; [constructor|]. apply Forall_app. split; [apply redacted_texts|exact IH].
Qed.

(** What the scrubbed text begins with, the text began with, as long as it has
    no star in it. *)
Lemma scrub_starts p text : has_char "*" p = false -> str_starts p (scrub O false text) = true -> str_starts p text = true.
Proof.
  revert text. induction p as [|a p IH]; intros [|c text] Hstar; try done. simpl in Hstar. bsimp.
  cbn [scrub andb]. destruct (secret_shaped (String c text)).
  - simpl. rewrite bool_decide_eq_false_2; [done|congruence].
  - cbn [str_starts]. intros Hs. apply andb_true_iff in Hs as [Ha Hs]. rewrite Ha. by apply IH.
Qed.

Lemma scrub_shaped c text : secret_shaped (String c text) = false -> secret_shaped (String c (scrub O false text)) = false.
Proof.
  intros Hno. destruct (secret_shaped (String c (scrub O false text))) eqn:E; [|done]. exfalso.
  unfold secret_shaped in *. apply existsb_exists in E as (p & Hp & Hs). apply not_true_iff_false in Hno. apply Hno.
  apply existsb_exists. exists p. split; [done|]. destruct p as [|a p]; [done|]. cbn [str_starts] in *.
  apply andb_true_iff in Hs as [-> Hs]. simpl. apply scrub_starts; [|done].
  unfold SECRET_PREFIXES in Hp. simpl in Hp. by destruct Hp as [[= <- <-]|[[= <- <-]|[]]].
Qed.

(** A secret-shaped token somewhere in the text *)
Fixpoint shows_secret (text : string) : bool :=
  secret_shaped text || match text with String _ text' => shows_secret text' | EmptyString => false end.

Lemma scrub_hides text : forall skip inside, shows_secret (scrub skip inside text) = false.
Proof.
  assert (forall t, shows_secret ("***" +:+ t) = shows_secret t) as Hstars by done.
  induction text as [|c text IH]; intros skip inside; [done|]. cbn [scrub]. destruct skip as [|n]; [|apply IH].
  destruct (inside && token_char c); [apply IH|]. destruct (secret_shaped (String c text)) eqn:E; [rewrite Hstars; apply IH|].
  cbn [shows_secret]. rewrite scrub_shaped by done. apply IH.
Qed.

(** A secret is not written down where the receiver scrubs: the text of a log line or of a refusal's preview shows no token
    that looks like a secret, and no text value of a stored body does -- however deep it sits. *)
Theorem secrets_are_scrubbed text body :
  shows_secret (scrub_secrets text) = false /\ Forall (fun t => secret_shaped t = false) (texts (_redact body)).
Proof. split; [apply scrub_hides|apply redacted_texts]. Qed.

(** ... but a key, or a value that a secret is in the middle of, is kept. *)
Example secrets_left :
  _redact (JObj [("tvw_s", JNull); ("note", JStr "key tvw_s")]) = JObj [("tvw_s", JNull); ("note", JStr "key tvw_s")].
Proof. reflexivity. Qed.
