(* ===== verification/WebhookSettings.v ===== *)
(** * The operator's side of the alert receiver: the settings routes of [api/routes/webhooks.py]

    The secret, the caps and the risk rules.  The routes run as programs beside
    the alerts; the membership check of their dependency and the read routes
    ([get_webhook], [list_risk_rules]) are left out.  A random token is an
    argument. *)

From S2P Require Import Prelude PyStr PyFloat PyDecimal PyDecOps PyRepr Db PyJson Repo Limiter Bridge Prog Alerts Webhook.
From S2P Require Import WebhookDemo.
From Stdlib Require Import Ascii SpecFloat.

Definition VT_LTF_TIMEFRAME_CHOICES : list string := ["1"; "3"; "5"; "15"; "30"; "45"; "60"].

(** Fields that are [None] are left as they are. *)
Record WebhookUpdate := {
  wu_enabled : option bool;
  wu_max_lots : price;
  wu_max_per_minute : option Z;
  wu_max_open_positions : option Z;
  wu_symbol_aliases : option (list (string * string));
  wu_vt_ltf_timeframes : option (list string)
}.

Record RiskRuleUpdate := {
  ru_stop_points : price;
  ru_target_points : price;
  ru_trailing_enabled : bool;
  ru_trail_start_points : price;
  ru_trail_step_points : price
}.

(** [s.rstrip("/")] *)
Fixpoint rstrip_slash (s : string) : string :=
  match s with
  | EmptyString => EmptyString
  | String c s' =>
      match rstrip_slash s' with
      | EmptyString => if bool_decide (c = "/"%char) then EmptyString else String c EmptyString
      | t => String c t
      end
  end.

Definition _public_url (public_origin hook_id : string) : option string :=
  let origin := rstrip_slash (str_strip (str_before "," public_origin)) in
  if str_starts "https://" origin then Some (origin +:+ "/api/webhooks/tradingview/" +:+ hook_id) else None.

Example public_urls : (fun o => _public_url o "h") <$> ["https://desk.example/, https://b"; "http://desk"; ""] =
  [Some "https://desk.example/api/webhooks/tradingview/h"; None; None].
Proof. reflexivity. Qed.

(** [audit] of [settings_control.py]: best effort *)
Definition audit (org_id : Z) (action : string) (detail : payload) : prog webhooks unit :=
  stmt (control_event org_id None Info (("action", JStr action) :: detail)).

Definition hook_of_org (org_id : Z) (s : webhooks) : option Hook := List.find (fun h => ho_org h =? org_id) (wb_hooks s).
(** [UPDATE org_webhooks SET ... WHERE org_id = %s] *)
Definition update_hook (org_id : Z) (f : Hook -> Hook) : M webhooks unit :=
  modify (fun s => set_wb_hooks ((fun h => if ho_org h =? org_id then f h else h) <$> wb_hooks s) s).

Section settings.
Context (sha256 : string -> string) (public_origin : string) (org_id : Z).

(** ** The secret *)

Definition with_secret (hash : string) (h : Hook) : Hook :=
  {| ho_org := ho_org h; ho_hook_id := ho_hook_id h; ho_secret_hash := Some hash; ho_enabled := ho_enabled h;
     ho_max_lots := ho_max_lots h; ho_max_per_minute := ho_max_per_minute h; ho_max_open := ho_max_open h;
     ho_aliases := ho_aliases h; ho_ltf_timeframes := ho_ltf_timeframes h |}.

(** A new row has the columns' defaults. *)
Definition new_hook (hook_id hash : string) : Hook :=
  {| ho_org := org_id; ho_hook_id := hook_id; ho_secret_hash := Some hash; ho_enabled := false; ho_max_lots := 1000;
     ho_max_per_minute := 10; ho_max_open := 3; ho_aliases := []; ho_ltf_timeframes := [] |}.

(** [INSERT ... ON CONFLICT (org_id) DO UPDATE ... RETURNING hook_id] *)
Definition upsert_secret (hook_id hash : string) : M webhooks string :=
  let! current := gets (hook_of_org org_id) in
  match current with
  | Some h => update_hook org_id (with_secret hash) ;;; ret (ho_hook_id h)
  | None =>
      let! taken := gets (fun s => existsb (fun h => bool_decide (ho_hook_id h = hook_id)) (wb_hooks s)) in
      if taken : bool then raise (UniqueViolation "org_webhooks_hook_id_key" hook_id)
      else modify (fun s => set_wb_hooks (wb_hooks s ++ [new_hook hook_id hash]) s) ;;; ret hook_id
  end.

(** The answer: the secret, the mailbox and its address *)
Definition rotate_secret (secret_token hook_token : string) : prog webhooks (string * string * option string) :=
  let secret := "tvw_" +:+ secret_token in
  let* hook_id := stmt (upsert_secret hook_token (_hash sha256 secret)) in
  audit org_id "webhook_secret_rotated" [] >>>
  Ret (secret, hook_id, _public_url public_origin hook_id).

(** ** The settings *)

Definition bad_request {A} (detail : string) : result A := Raise (HTTPException 400 detail).

(** [if field is not None: check it] *)
Definition check_opt {A B} (field : option A) (check : A -> result B) : result (option B) :=
  match field with Some x => let? y := check x in Ok (Some y) | None => Ok None end.

(** [Decimal(str(x))] in NUMERIC(10, 4): [None] when it has no place there *)
Definition lots_column (x : float64) : option Z :=
  match dec_parse (float_repr x) with Some (Fin d) => Some (rescale ROUND_HALF_UP d (-4)) | _ => None end.

Definition check_max_lots (x : float64) : result float64 :=
  if negb (fltb fzero x && fleb x HARD_MAX_LOTS)
  then bad_request ("max_lots must be between 0 and " +:+ format_g HARD_MAX_LOTS) else Ok x.
Definition check_between (name : string) (lo hi v : Z) : result Z :=
  if (lo <=? v) && (v <=? hi) then Ok v else bad_request (name +:+ " must be between " +:+ pretty lo +:+ " and " +:+ pretty hi).

(** [{normalise_ticker(k): normalise_ticker(v) for k, v in ...}] *)
Fixpoint clean_aliases (pairs : list (string * string)) (d : payload) : result payload :=
  match pairs with
  | [] => Ok d
  | (k, v) :: pairs' =>
      let? k := normalise_ticker (JStr k) in
      let? v := normalise_ticker (JStr v) in clean_aliases pairs' (od_set k (JStr v) d)
  end.
Definition check_aliases (pairs : list (string * string)) : result payload :=
  match clean_aliases pairs [] with
  | Raise (AlertError m) => bad_request ("symbol_aliases: " +:+ m)
  | r => r
  end.
Definition check_timeframes (tfs : list string) : result (list string) :=
  match List.filter (fun tf => negb (bool_decide (tf ∈ VT_LTF_TIMEFRAME_CHOICES))) tfs with
  | [] => Ok (sorted_names tfs)
  | bad => bad_request ("vt_ltf_timeframes: " +:+ json_repr (JList (JStr <$> bad)) +:+ " not in " +:+
             json_repr (JList (JStr <$> VT_LTF_TIMEFRAME_CHOICES)))
  end.

(** Turning it on takes a secret, a master and a public address. *)
Definition check_enabled (current : Hook) (wanted : bool) : prog webhooks unit :=
  if wanted then
    if bool_decide (ho_secret_hash current = None) then Throw (HTTPException 400 "generate a secret first")
    else
      let* master := query (_master_of org_id) in
      if bool_decide (master = None) then Throw (HTTPException 400 "this workspace has no master account")
      else if bool_decide (_public_url public_origin "x" = None) then Throw (HTTPException 400 "PUBLIC_ORIGIN must be an https:// origin")
      else Ret tt
  else Ret tt.

(** The columns to write *)
Record hook_columns := {
  hc_enabled : option bool;
  hc_max_lots : price;
  hc_max_per_minute : option Z;
  hc_max_open : option Z;
  hc_aliases : option payload;
  hc_timeframes : option (list string)
}.

Definition check_update (body : WebhookUpdate) : result hook_columns :=
  let? max_lots := check_opt (wu_max_lots body) check_max_lots in
  let? per_minute := check_opt (wu_max_per_minute body) (check_between "max_per_minute" 1 60) in
  let? max_open := check_opt (wu_max_open_positions body) (check_between "max_open_positions" 1 50) in
  let? aliases := check_opt (wu_symbol_aliases body) check_aliases in
  let? tfs := check_opt (wu_vt_ltf_timeframes body) check_timeframes in
  Ok {| hc_enabled := wu_enabled body; hc_max_lots := max_lots; hc_max_per_minute := per_minute; hc_max_open := max_open;
        hc_aliases := aliases; hc_timeframes := tfs |}.

Definition write_columns (c : hook_columns) (max_lots : option Z) (h : Hook) : Hook :=
  {| ho_org := ho_org h; ho_hook_id := ho_hook_id h; ho_secret_hash := ho_secret_hash h;
     ho_enabled := default (ho_enabled h) (hc_enabled c); ho_max_lots := default (ho_max_lots h) max_lots;
     ho_max_per_minute := default (ho_max_per_minute h) (hc_max_per_minute c);
     ho_max_open := default (ho_max_open h) (hc_max_open c); ho_aliases := default (ho_aliases h) (hc_aliases c);
     ho_ltf_timeframes := default (ho_ltf_timeframes h) (hc_timeframes c) |}.

(** The UPDATE, with the column's type and CHECK (max_lots > 0) *)
Definition write_update (c : hook_columns) : M webhooks unit :=
  match hc_max_lots c with
  | None => update_hook org_id (write_columns c None)
  | Some x =>
      match lots_column x with
      | Some lots => if 0 <? lots then update_hook org_id (write_columns c (Some lots))
                     else raise (DatabaseError "org_webhooks_max_lots_check")
      | None => raise (DatabaseError "invalid numeric")
      end
  end.

Definition nothing_to_write (c : hook_columns) : bool :=
  bool_decide (hc_enabled c = None) && bool_decide (hc_max_lots c = None) && bool_decide (hc_max_per_minute c = None) &&
  bool_decide (hc_max_open c = None) && match hc_aliases c with None => true | _ => false end &&
  bool_decide (hc_timeframes c = None).

Definition from_to (from to : json) : json := JObj [("from", from); ("to", to)].
Definition entry {A} (key : string) (v : option A) (f : A -> json) : payload := match v with Some x => [(key, f x)] | None => [] end.
(** [changed]: the switch only when it moved, the others when they were given *)
Definition changes (current : Hook) (c : hook_columns) : payload :=
  (if bool_decide (hc_enabled c = None) || bool_decide (hc_enabled c = Some (ho_enabled current)) then []
   else entry "enabled" (hc_enabled c) (fun b => from_to (JBool (ho_enabled current)) (JBool b))) ++
  entry "max_lots" (hc_max_lots c) (fun x => from_to (JPrice (cap_of current)) (JFloat x)) ++
  entry "max_per_minute" (hc_max_per_minute c) (fun v => from_to (JInt (ho_max_per_minute current)) (JInt v)) ++
  entry "max_open_positions" (hc_max_open c) (fun v => from_to (JInt (ho_max_open current)) (JInt v)) ++
  entry "symbol_aliases" (hc_aliases c) (fun a => JObj [("to", JObj a)]) ++
  entry "vt_ltf_timeframes" (hc_timeframes c)
    (fun tfs => from_to (JList (JStr <$> ho_ltf_timeframes current)) (JList (JStr <$> tfs))).

Definition update_webhook (body : WebhookUpdate) : prog webhooks payload :=
  let* current := query (hook_of_org org_id) in
  match current with
  | None => Throw (HTTPException 400 "generate a secret first")
  | Some current =>
      (match wu_enabled body with Some b => check_enabled current b | None => Ret tt end) >>>
      let* c := of_result (check_update body) in
      let changed := changes current c in
      if nothing_to_write c then Ret changed
      else
        stmt (write_update c) >>>
        match changed with [] => Ret changed | _ => audit org_id "webhook_settings_changed" changed >>> Ret changed end
  end.

(** ** Risk rules *)

Definition clean_symbol (symbol : string) : result string :=
  match normalise_ticker (JStr symbol) with Raise (AlertError m) => bad_request m | r => r end.

Definition rule_key (symbol : string) : Z * string := (org_id, symbol).

Definition put_risk_rule (symbol : string) (body : RiskRuleUpdate) : prog webhooks string :=
  let* symbol := of_result (clean_symbol symbol) in
  if ru_trailing_enabled body && (bool_decide (ru_trail_start_points body = None) || bool_decide (ru_trail_step_points body = None))
  then Throw (HTTPException 400 "trail_start_points and trail_step_points are required when trailing_enabled")
  else
    stmt (modify (fun s => set_wb_db (set_db_risk_rules (<[rule_key symbol :=
      {| rr_org_id := org_id; rr_symbol := symbol; rr_stop_points := ru_stop_points body; rr_target_points := ru_target_points body;
         rr_trailing_enabled := ru_trailing_enabled body; rr_trail_start_points := ru_trail_start_points body;
         rr_trail_step_points := ru_trail_step_points body |}]> (db_risk_rules (wb_db s))) (wb_db s)) s)) >>>
    audit org_id "risk_rule_set"
      [("symbol", JStr symbol); ("stop_points", JPrice (ru_stop_points body)); ("target_points", JPrice (ru_target_points body));
       ("trailing_enabled", JBool (ru_trailing_enabled body))] >>>
    Ret symbol.

Definition delete_risk_rule (symbol : string) : prog webhooks unit :=
  let* symbol := of_result (clean_symbol symbol) in
  stmt (modify (fun s => set_wb_db (set_db_risk_rules (delete (rule_key symbol) (db_risk_rules (wb_db s))) (wb_db s)) s)) >>>
  audit org_id "risk_rule_deleted" [("symbol", JStr symbol)].
End settings.

(** A cap the check lets through and the column rounds to zero: the database
    refuses it, not the route. *)
Example tiny_cap_is_not_refused :
  let body := {| wu_enabled := None; wu_max_lots := int_truediv 1 100000; wu_max_per_minute := None;
                 wu_max_open_positions := None; wu_symbol_aliases := None; wu_vt_ltf_timeframes := None |} in
  (run_alone (update_webhook "" 1 body) workspace).1 = Raise (DatabaseError "org_webhooks_max_lots_check").
Proof. vm_compute. reflexivity. Qed.

(** ** The settings stay in bounds *)

Record hook_ok (h : Hook) : Prop := {
  hk_lots : 0 < ho_max_lots h;
  hk_per_minute : 1 <= ho_max_per_minute h <= 60;
  hk_open : 1 <= ho_max_open h <= 50;
  hk_secret : ho_enabled h = true -> is_Some (ho_secret_hash h);
  hk_timeframes : Forall (fun tf => tf ∈ VT_LTF_TIMEFRAME_CHOICES) (ho_ltf_timeframes h)
}.

(** A trailing rule says where it starts and how it steps. *)
Definition rule_ok (r : RiskRule) : Prop :=
  rr_trailing_enabled r = true -> is_Some (rr_trail_start_points r) /\ is_Some (rr_trail_step_points r).

Record settings_ok (s : webhooks) : Prop := {
  so_orgs : NoDup (ho_org <$> wb_hooks s);
  so_hooks : Forall hook_ok (wb_hooks s);
  so_rules : forall k r, db_risk_rules (wb_db s) !! k = Some r -> rule_ok r
}.

(** A workspace that has a secret keeps having one. *)
Definition has_secret (org : Z) (s : webhooks) : Prop := exists h, h ∈ wb_hooks s /\ ho_org h = org /\ is_Some (ho_secret_hash h).
Definition secrets_stay (s s' : webhooks) : Prop := forall org, has_secret org s -> has_secret org s'.
#[export] Instance secrets_stay_preorder : PreOrder secrets_stay.
Proof. split; [by intros s org|]. intros s s' s'' H H' org Ho. by apply H', H. Qed.

(** What an operator may ask for *)
Inductive setting_op :=
  | ORotate (org : Z) (secret_token hook_token : string)
  | OUpdate (org : Z) (body : WebhookUpdate)
  | OPutRule (org : Z) (symbol : string) (body : RiskRuleUpdate)
  | ODeleteRule (org : Z) (symbol : string).

Section settings_facts.
Context (sha256 : string -> string) (public_origin : string).

Definition setting (o : setting_op) : prog webhooks unit :=
  match o with
  | ORotate org secret hook => rotate_secret sha256 public_origin org secret hook >>> Ret tt
  | OUpdate org body => update_webhook public_origin org body >>> Ret tt
  | OPutRule org symbol body => put_risk_rule org symbol body >>> Ret tt
  | ODeleteRule org symbol => delete_risk_rule org symbol
  end.

Abbreviation triple p Q s := (wp settings_ok secrets_stay p Q s).

Lemma hook_of_org_spec org s h : hook_of_org org s = Some h -> h ∈ wb_hooks s /\ ho_org h = org.
Proof. intros H. apply find_some in H as [Hin He]. split; [by apply list_elem_of_In|lia]. Qed.

(** A step that leaves the hooks and the rules alone *)
Lemma triple_event org sev p Q s : (forall s', secrets_stay s s' -> settings_ok s' -> Q (Ok tt) (exec (control_event org None sev p) s')) ->
  triple (stmt (control_event org None sev p)) Q s.
Proof.
  intros HQ. apply wp_stmt. intros s' HR [? ? ?]. split_and!; [by split|by intros o (h & ? & ?); exists h|]. apply HQ; [done|by split].
Qed.

Lemma update_hook_ok org f s :
  settings_ok s -> (forall h, h ∈ wb_hooks s -> ho_org h = org -> hook_ok (f h)) ->
  (forall h, ho_org (f h) = ho_org h) -> (forall h, is_Some (ho_secret_hash h) -> is_Some (ho_secret_hash (f h))) ->
  settings_ok (exec (update_hook org f) s) /\ secrets_stay s (exec (update_hook org f) s).
Proof.
  intros [Horgs Hhooks Hrules] Hf Horg Hsecret.
  set (g := fun h => if ho_org h =? org then f h else h).
  assert (forall h, ho_org (g h) = ho_org h) as Hg by (intros h; unfold g; by destruct (_ =? _)).
  split; [split; simpl; [| |done]|].
  - fold g. rewrite <- list_fmap_compose. rewrite (list_fmap_ext _ ho_org); [done|]. intros k h _. apply Hg.
  - fold g. apply Forall_fmap. apply Forall_forall. intros h Hh. simpl. unfold g.
    destruct (ho_org h =? org) eqn:E; [apply Hf; [done|lia]|by eapply Forall_forall in Hhooks].
  - intros o (h & Hh & <- & Hs). exists (g h). split_and!; [simpl; fold g; by apply list_elem_of_fmap_2|done|].
    unfold g. destruct (_ =? _); [by apply Hsecret|done].
Qed.

Lemma safe_event org sev p s : triple (stmt (control_event org None sev p) >>> Ret tt) (fun _ _ => True) s.
Proof. apply wp_bind. by apply triple_event. Qed.

Lemma rotate_safe org secret hook s : safe settings_ok secrets_stay (rotate_secret sha256 public_origin org secret hook >>> Ret tt) s.
Proof.
  apply wp_bind, wp_bind, wp_stmt. intros s' _ Hok. unfold upsert_secret, exec, value, bind, gets. cbn [fst snd].
  destruct (hook_of_org org s') as [h|] eqn:Eh.
  - pose proof (update_hook_ok org (with_secret (_hash sha256 ("tvw_" +:+ secret))) s' Hok) as H.
    destruct H as [Hok' HR']; [|done|by eexists|].
    + intros h' Hh' _. pose proof (so_hooks s' Hok) as Hall. rewrite Forall_forall in Hall. destruct (Hall h' Hh'). by split.
    + split_and!; [exact Hok'|exact HR'|]. apply wp_bind. by apply triple_event.
  - destruct (existsb _ _); [by split_and!; [|reflexivity|]|]. split; [|split].
    + destruct Hok as [Horgs Hhooks Hrules]. split; simpl; [| |done].
      * rewrite fmap_app. apply NoDup_app. split_and!; [done| |apply NoDup_singleton].
        intros o (h & -> & Hh)%list_elem_of_fmap Ho%list_elem_of_singleton. simpl in Ho.
        pose proof (find_none _ _ Eh h ltac:(by apply list_elem_of_In)) as Hne. simpl in Hne. lia.
      * apply Forall_app. split; [done|]. apply Forall_singleton. split; simpl; [lia|lia|lia|done|constructor].
    + intros o (h & Hh & ?). exists h. split; [|done]. simpl. apply elem_of_app. by left.
    + apply wp_bind. by apply triple_event.
Qed.

Lemma check_between_ok name lo hi v w : check_between name lo hi v = Ok w -> lo <= w <= hi.
Proof. unfold check_between. destruct (_ && _) eqn:E; [|done]. intros [= <-]. bsimp. lia. Qed.
Lemma check_opt_ok {A B} (field : option A) (check : A -> result B) (P : B -> Prop) r :
  (forall x y, check x = Ok y -> P y) -> check_opt field check = Ok r -> match r with Some y => P y | None => True end.
Proof. intros Hc. unfold check_opt. destruct field as [x|]; [|by intros [= <-]]. intros (y & Hy & [= <-])%rbind_ok. by eapply Hc. Qed.
Lemma check_timeframes_ok tfs r : check_timeframes tfs = Ok r -> Forall (fun tf => tf ∈ VT_LTF_TIMEFRAME_CHOICES) r.
Proof.
  unfold check_timeframes. destruct (List.filter _ tfs) as [|x l] eqn:E; [|done]. intros [= <-]. apply Forall_forall. intros tf Htf.
  assert (tf ∈ tfs) as Hin by (revert Htf; unfold sorted_names; by rewrite merge_sort_Permutation, elem_of_remove_dups).
  destruct (decide (tf ∈ VT_LTF_TIMEFRAME_CHOICES)) as [|Hno]; [done|]. exfalso.
  assert (tf ∈ List.filter (fun tf => negb (bool_decide (tf ∈ VT_LTF_TIMEFRAME_CHOICES))) tfs) as Hf.
  { apply list_elem_of_In, filter_In. split; [by apply list_elem_of_In|]. by rewrite bool_decide_eq_false_2. }
  rewrite E in Hf. by apply elem_of_nil in Hf.
Qed.

(** The columns a checked body writes *)
Record columns_ok (c : hook_columns) : Prop := {
  co_per_minute : match hc_max_per_minute c with Some v => 1 <= v <= 60 | None => True end;
  co_open : match hc_max_open c with Some v => 1 <= v <= 50 | None => True end;
  co_timeframes : match hc_timeframes c with Some tfs => Forall (fun tf => tf ∈ VT_LTF_TIMEFRAME_CHOICES) tfs | None => True end
}.
Lemma check_update_ok body c : check_update body = Ok c -> columns_ok c /\ hc_enabled c = wu_enabled body.
Proof.
  unfold check_update. intros (l & _ & H)%rbind_ok. apply rbind_ok in H as (pm & Hpm & H). apply rbind_ok in H as (mo & Hmo & H).
  apply rbind_ok in H as (al & _ & H). apply rbind_ok in H as (tfs & Htfs & H). injection H as <-.
  split; [|done]. split; simpl.
  - apply (check_opt_ok _ _ (fun v => 1 <= v <= 60) _ ltac:(intros; by eapply check_between_ok) Hpm).
  - apply (check_opt_ok _ _ (fun v => 1 <= v <= 50) _ ltac:(intros; by eapply check_between_ok) Hmo).
  - apply (check_opt_ok _ _ _ _ ltac:(intros; by eapply check_timeframes_ok) Htfs).
Qed.

Lemma write_columns_ok c lots h :
  columns_ok c -> match lots with Some l => 0 < l | None => True end ->
  (hc_enabled c = Some true -> is_Some (ho_secret_hash h)) -> hook_ok h -> hook_ok (write_columns c lots h).
Proof.
  intros [Hpm Hmo Htf] Hl Hs [? ? ? Hsecret ?]. split; simpl; [by destruct lots|by destruct (hc_max_per_minute c)|by destruct (hc_max_open c)| |by destruct (hc_timeframes c)].
  destruct (hc_enabled c) as [[]|]; simpl; [by auto|done|done].
Qed.

Lemma write_update_safe org c Q s :
  columns_ok c -> (hc_enabled c = Some true -> has_secret org s) ->
  (forall r s', Q r s') -> triple (stmt (write_update org c)) Q s.
Proof.
  intros Hc Hs HQ. apply wp_stmt. intros s' HR Hok.
  assert (forall lots, match lots with Some l => 0 < l | None => True end ->
    settings_ok (exec (update_hook org (write_columns c lots)) s') /\ secrets_stay s' (exec (update_hook org (write_columns c lots)) s')) as Hw.
  { intros lots Hl. apply update_hook_ok; [done| |done|done]. intros h Hh Ho.
    pose proof (so_hooks s' Hok) as Hall. rewrite Forall_forall in Hall. apply write_columns_ok; [done|done| |by apply Hall].
    intros He. destruct (HR org (Hs He)) as (h' & Hh' & Ho' & Hsome).
    by rewrite (NoDup_fmap_elem ho_org _ h h' (so_orgs s' Hok) Hh Hh' ltac:(congruence)). }
  unfold write_update. destruct (hc_max_lots c) as [x|].
  - destruct (lots_column x) as [l|]; [|by split_and!; [|reflexivity|]]. destruct (0 <? l) eqn:E; [|by split_and!; [|reflexivity|]].
    destruct (Hw (Some l)) as [? ?]; [lia|]. by split_and!.
  - destruct (Hw None) as [? ?]; [done|]. by split_and!.
Qed.

Lemma update_safe org body s : safe settings_ok secrets_stay (update_webhook public_origin org body >>> Ret tt) s.
Proof.
  apply wp_bind, wp_bind, wp_query; [by apply _|]. intros s1 _ Hok. destruct (hook_of_org org s1) as [current|] eqn:Ecur; [|done].
  apply hook_of_org_spec in Ecur as [Hin Horg].
  assert (forall s', (wu_enabled body = Some true -> has_secret org s') ->
    triple (let* c := of_result (check_update body) in
            let changed := changes current c in
            if nothing_to_write c then Ret changed
            else stmt (write_update org c) >>>
                 match changed with [] => Ret changed | _ => audit org "webhook_settings_changed" changed >>> Ret changed end)
      (fun r s'' => match r with Ok _ => triple (Ret tt) (fun _ _ => True) s'' | Raise _ => True end) s') as Hrest.
  { intros s' Hs'. apply wp_bind, wp_of_result. destruct (check_update body) as [c|e] eqn:Ec; [|done].
    apply check_update_ok in Ec as [Hc Hen]. cbv beta iota zeta. destruct (nothing_to_write c); [done|].
    apply wp_bind. apply write_update_safe; [done|by rewrite Hen|]. intros [[]|e] s''; [|done].
    destruct (changes current c); [done|]. apply wp_bind. by apply triple_event. }
  apply wp_bind. destruct (wu_enabled body) as [[]|] eqn:Een; [|by apply Hrest..].
  unfold check_enabled. destruct (bool_decide (ho_secret_hash current = None)) eqn:Esec; [done|]. apply bool_decide_eq_false in Esec.
  apply wp_bind, wp_query; [by apply _|]. intros s2 HR _. simpl.
  destruct (bool_decide _); [done|]. destruct (bool_decide _); [done|]. apply Hrest. intros _. apply HR.
  exists current. split_and!; [done|done|]. by destruct (ho_secret_hash current).
Qed.

Lemma rules_move f Q s :
  (forall m k r, f m !! k = Some r -> (exists k', m !! k' = Some r) \/ rule_ok r) ->
  (forall s', Q (Ok tt) s') ->
  triple (stmt (modify (fun s => set_wb_db (set_db_risk_rules (f (db_risk_rules (wb_db s))) (wb_db s)) s))) Q s.
Proof.
  intros Hf HQ. apply wp_stmt. intros s' _ [? ? Hrules]. split_and!; [|by intros o|apply HQ].
  split; [done|done|]. simpl. intros k r Hk. destruct (Hf _ _ _ Hk) as [[k' Hk']|]; [by eapply Hrules|done].
Qed.

Lemma put_rule_safe org symbol body s : safe settings_ok secrets_stay (put_risk_rule org symbol body >>> Ret tt) s.
Proof.
  apply wp_bind, wp_bind, wp_of_result. destruct (clean_symbol symbol) as [sym|]; [|done]. cbv beta iota.
  destruct (_ && _) eqn:E; [done|]. apply wp_bind.
  apply (rules_move (fun m => <[rule_key org sym := _]> m)).
  - intros m k r. rewrite lookup_insert. case_decide; [|by eauto]. intros [= <-]. right. intros Ht. simpl in *. rewrite Ht in E.
    simpl in E. bsimp. split; by apply not_eq_None_Some.
  - intros s'. apply wp_bind. by apply triple_event.
Qed.
Lemma delete_rule_safe org symbol s : safe settings_ok secrets_stay (delete_risk_rule org symbol) s.
Proof.
  apply wp_bind, wp_of_result. destruct (clean_symbol symbol) as [sym|]; [|done]. cbv beta iota. apply wp_bind.
  apply (rules_move (fun m => delete (rule_key org sym) m)).
  - intros m k r [_ Hk]%lookup_delete_Some. left. by exists k.
  - intros s'. by apply triple_event.
Qed.

(** Under every interleaving of the operators' requests every hook stays within its bounds -- a cap above zero, one to sixty
    alerts a minute, one to fifty positions, known timeframes -- none is on without a secret, no secret is ever lost, and a
    trailing rule always says where it starts and how it steps. *)
Theorem settings_stay_bounded ops schedule s :
  settings_ok s ->
  let s' := (run_pool schedule (setting <$> ops, s)).2 in
  settings_ok s' /\ forall org, has_secret org s -> has_secret org s'.
Proof.
  intros Hok. destruct (run_pool_safe settings_ok secrets_stay schedule (setting <$> ops) s Hok) as (Hok' & HR & _); [|done].
  apply Forall_fmap, Forall_forall. intros o _.
  destruct o; simpl; [apply rotate_safe|apply update_safe|apply put_rule_safe|apply delete_rule_safe].
Qed.
End settings_facts.

Lemma workspace_settings : settings_ok workspace.
Proof.
  split; [|repeat constructor; simpl; try lia; try by eexists|done].
  simpl. repeat (apply NoDup_cons; split; [set_solver|]). constructor.
Qed.

Definition demo_update : WebhookUpdate :=
  {| wu_enabled := Some true; wu_max_lots := int_truediv 1 4; wu_max_per_minute := Some 60; wu_max_open_positions := None;
     wu_symbol_aliases := Some [("OANDA:XAUUSD", "GOLD")]; wu_vt_ltf_timeframes := Some ["5"; "1"; "5"] |}.
Definition demo_ops : list setting_op :=
  [OUpdate 1 demo_update; ORotate 2 "s" "m"; OPutRule 1 "xauusd" {| ru_stop_points := Some fzero; ru_target_points := None;
     ru_trailing_enabled := false; ru_trail_start_points := None; ru_trail_step_points := None |}].

Lemma settings_stay_bounded_witness :
  let s' := (run_pool [0; 1; 0; 2; 0; 1; 0; 2; 0]%nat (setting demo_sha256 "https://desk" <$> demo_ops, workspace)).2 in
  (settings_ok s' /\ forall org, has_secret org workspace -> has_secret org s') /\
  ((fun h => (ho_max_lots h, ho_max_per_minute h, ho_ltf_timeframes h)) <$> hook_of_org 1 s') = Some (2500, 60, ["1"; "5"]).
Proof.
  split; [apply (settings_stay_bounded demo_sha256 "https://desk" demo_ops _ workspace workspace_settings)|vm_compute; reflexivity].
Defined.
