(* ===== verification/Writer.v ===== *)
(** * The background writer: [db/writer.py]

    A bounded queue that the reactor fills and one thread that empties it in
    batches, each batch one transaction.  Values are opaque to the writer: [V] is
    any countable type.  A row is a dict, so a finite map from column names.

    [schema] names the unique key of a table that has one, [accepts] the rows a
    table takes (types, NOT NULL, foreign keys).  How the connection fares during
    an attempt is a parameter of the thread's step.  The lists of what was
    accepted and of how batches ended are ghosts. *)

From S2P Require Import Prelude PyStr Bridge.

Definition DEFAULT_MAXSIZE : nat := 100 * 100.
Definition DEFAULT_BATCH_SIZE : nat := 200.
(** Microseconds *)
Definition DEFAULT_BATCH_INTERVAL_US : Z := 50000.
Definition DROP_LOG_INTERVAL_US : Z := 10000000.

(** ** The statement's text *)

Definition build_statement (table : string) (columns : list string) (upsert_key : option (list string)) (n_rows : nat) : string :=
  let cols := str_join ", " columns in
  let placeholders := "(" +:+ str_join ", " ((fun _ => "%s") <$> columns) +:+ ")" in
  let values := str_join ", " (replicate n_rows placeholders) in
  let sql := "INSERT INTO " +:+ table +:+ " (" +:+ cols +:+ ") VALUES " +:+ values in
  match upsert_key with
  | None | Some [] => sql
  | Some key =>
      let target := str_join ", " key in
      match List.filter (fun c => negb (bool_decide (c ∈ key))) columns with
      | [] => sql +:+ " ON CONFLICT (" +:+ target +:+ ") DO NOTHING"
      | updates =>
          sql +:+ " ON CONFLICT (" +:+ target +:+ ") DO UPDATE SET " +:+
          str_join ", " ((fun c => c +:+ " = EXCLUDED." +:+ c) <$> updates)
      end
  end.

Example a_statement : build_statement "deals" ["account"; "deal_id"; "price"] (Some ["account"; "deal_id"]) 2 =
  "INSERT INTO deals (account, deal_id, price) VALUES (%s, %s, %s), (%s, %s, %s) " +:+
  "ON CONFLICT (account, deal_id) DO UPDATE SET price = EXCLUDED.price".
Proof. reflexivity. Qed.

Section writer.
Context {V : Type} `{Countable V}.
Abbreviation row := (gmap string V).

Record WriteOp := { op_table : string; op_row : row; op_upsert_key : option (list string) }.

(** [if op.upsert_key]: an empty tuple is no key. *)
Definition conflict_target (key : option (list string)) : option (list string) :=
  match key with Some [] => None | k => k end.

(** ** Grouping *)

Definition group_key : Type := string * list string * option (list string).
Inductive bucket := Appended (rows : list row) | Upserted (d : list (list V * row)).

(** [tuple(sorted(op.row.keys()))] *)
Definition columns_of (r : row) : list string := merge_sort string_le (map_to_list r).*1.
Definition key_of (op : WriteOp) : group_key := (op_table op, columns_of (op_row op), op_upsert_key op).
(** [tuple(op.row[c] for c in op.upsert_key)] *)
Definition key_values (cols : list string) (r : row) : option (list V) := mapM (fun c => r !! c) cols.

Definition add_op (groups : list (group_key * bucket)) (op : WriteOp) : result (list (group_key * bucket)) :=
  match conflict_target (op_upsert_key op) with
  | Some cols =>
      match key_values cols (op_row op) with
      | Some kv =>
          let d := match od_get (key_of op) groups with Some (Upserted d) => d | _ => [] end in
          Ok (od_set (key_of op) (Upserted (od_set kv (op_row op) d)) groups)
      | None => Raise (KeyError "upsert_key")
      end
  | None =>
      let rows := match od_get (key_of op) groups with Some (Appended rows) => rows | _ => [] end in
      Ok (od_set (key_of op) (Appended (rows ++ [op_row op])) groups)
  end.

Fixpoint group_from (groups : list (group_key * bucket)) (batch : list WriteOp) : result (list (group_key * bucket)) :=
  match batch with [] => Ok groups | op :: batch' => let? groups' := add_op groups op in group_from groups' batch' end.

Definition bucket_rows (b : bucket) : list row := match b with Appended rows => rows | Upserted d => d.*2 end.
Definition _group (batch : list WriteOp) : result (list (group_key * list row)) :=
  let? groups := group_from [] batch in Ok ((fun g => (g.1, bucket_rows g.2)) <$> groups).

(** ** The tables *)

(** Rows of tables without a key, in order; rows of the others by their key *)
Record store := { st_rows : gmap string (list row); st_keyed : gmap (string * list V) row }.

Section database.
Context (schema : string -> option (list string)) (accepts : string -> row -> bool).

(** [DO UPDATE SET c = EXCLUDED.c] for every column outside the key *)
Definition upsert_row (cols : list string) (r : row) (old : option row) : row :=
  match old with Some o => filter (fun cv => cv.1 ∉ cols) r ∪ o | None => r end.

Definition insert_row (table : string) (upsert_key : option (list string)) (r : row) (st : store) : result store :=
  if negb (accepts table r) then Raise (DatabaseError "the row violates a constraint")
  else
    match schema table, conflict_target upsert_key with
    | None, None => Ok {| st_rows := <[table := default [] (st_rows st !! table) ++ [r]]> (st_rows st); st_keyed := st_keyed st |}
    | Some cols, target =>
        match key_values cols r with
        | None => Raise (NotNullViolation table)
        | Some kv =>
            let old := st_keyed st !! (table, kv) in
            match target with
            | Some key =>
                if bool_decide (key = cols)
                then Ok {| st_rows := st_rows st; st_keyed := <[(table, kv) := upsert_row cols r old]> (st_keyed st) |}
                else Raise (DatabaseError "no unique constraint matches the ON CONFLICT specification")
            | None =>
                if bool_decide (is_Some old) then Raise (UniqueViolation table "")
                else Ok {| st_rows := st_rows st; st_keyed := <[(table, kv) := r]> (st_keyed st) |}
            end
        end
    | None, Some _ => Raise (DatabaseError "no unique constraint matches the ON CONFLICT specification")
    end.

Fixpoint insert_rows (table : string) (upsert_key : option (list string)) (rows : list row) (st : store) : result store :=
  match rows with [] => Ok st | r :: rows' => let? st' := insert_row table upsert_key r st in insert_rows table upsert_key rows' st' end.

(** One statement: it may not update a row twice (SQLSTATE 21000). *)
Definition run_statement (table : string) (columns : list string) (upsert_key : option (list string)) (rows : list row)
    (st : store) : result store :=
  match conflict_target upsert_key with
  | Some cols =>
      if existsb (fun c => negb (bool_decide (c ∈ cols))) columns && negb (bool_decide (NoDup (key_values cols <$> rows)))
      then Raise (DatabaseError "ON CONFLICT DO UPDATE command cannot affect row a second time")
      else insert_rows table upsert_key rows st
  | None => insert_rows table upsert_key rows st
  end.

Fixpoint run_groups (groups : list (group_key * list row)) (st : store) : result store :=
  match groups with
  | [] => Ok st
  | ((table, columns, upsert_key), rows) :: groups' =>
      let? st' := run_statement table columns upsert_key rows st in run_groups groups' st'
  end.

(** ** One attempt *)

(** The connection: it holds; it fails before the commit; it fails when the
    commit was made and not yet confirmed. *)
Inductive link := Up | Down | CommitUnconfirmed.
Definition connection_lost : exn := QueryFailed "server closed the connection unexpectedly".
Definition is_connection_error (e : exn) : bool := match e with QueryFailed _ => true | _ => false end.

(** The transaction: all groups or none *)
Definition _write_batch (l : link) (batch : list WriteOp) (st : store) : result unit * store :=
  match _group batch with
  | Raise e => (Raise e, st)
  | Ok groups =>
      match l, run_groups groups st with
      | Down, _ => (Raise connection_lost, st)
      | _, Raise e => (Raise e, st)
      | Up, Ok st' => (Ok tt, st')
      | CommitUnconfirmed, Ok st' => (Raise connection_lost, st')
      end
  end.

(** ** The writer *)

(** The thread: between batches, collecting one until a deadline, blocked in
    [get], at the first or second attempt to write, returned from [_run] *)
Inductive phase :=
  | Idle
  | Collecting (batch : list WriteOp) (deadline : Z)
  | Waiting (batch : list WriteOp) (deadline : Z)
  | Writing (batch : list WriteOp) (attempt : nat)
  | Ended.

Record AsyncWriter := {
  aw_queue : list WriteOp;
  aw_stop : bool;
  aw_phase : phase;
  aw_connected : bool;
  aw_dropped : Z;
  aw_last_drop_log : Z;
  aw_healthy : bool;
  aw_now : Z;
  aw_store : store;
  aw_accepted : list WriteOp;
  aw_settled : list (list WriteOp * bool);
  aw_overtaken : bool
}.

Context (maxsize batch_size : nat) (batch_interval : Z).

Definition writer_init (st : store) : AsyncWriter :=
  {| aw_queue := []; aw_stop := false; aw_phase := Idle; aw_connected := false; aw_dropped := 0; aw_last_drop_log := 0;
     aw_healthy := true; aw_now := 0; aw_store := st; aw_accepted := []; aw_settled := []; aw_overtaken := false |}.

Definition with_phase (p : phase) (w : AsyncWriter) : AsyncWriter :=
  {| aw_queue := aw_queue w; aw_stop := aw_stop w; aw_phase := p; aw_connected := aw_connected w; aw_dropped := aw_dropped w;
     aw_last_drop_log := aw_last_drop_log w; aw_healthy := aw_healthy w; aw_now := aw_now w; aw_store := aw_store w;
     aw_accepted := aw_accepted w; aw_settled := aw_settled w; aw_overtaken := aw_overtaken w |}.

(** [self._q.put_nowait(...)]: a queue of size zero is unbounded. *)
Definition full (w : AsyncWriter) : bool := (0 <? maxsize)%nat && (maxsize <=? length (aw_queue w))%nat.

Definition submit (op : WriteOp) (w : AsyncWriter) : bool * AsyncWriter :=
  if full w
  then (false,
    {| aw_queue := aw_queue w; aw_stop := aw_stop w; aw_phase := aw_phase w; aw_connected := aw_connected w;
       aw_dropped := aw_dropped w + 1;
       aw_last_drop_log := if DROP_LOG_INTERVAL_US <? aw_now w - aw_last_drop_log w then aw_now w else aw_last_drop_log w;
       aw_healthy := aw_healthy w; aw_now := aw_now w; aw_store := aw_store w; aw_accepted := aw_accepted w;
       aw_settled := aw_settled w; aw_overtaken := aw_overtaken w |})
  else (true,
    {| aw_queue := aw_queue w ++ [op]; aw_stop := aw_stop w; aw_phase := aw_phase w; aw_connected := aw_connected w;
       aw_dropped := aw_dropped w; aw_last_drop_log := aw_last_drop_log w; aw_healthy := aw_healthy w; aw_now := aw_now w;
       aw_store := aw_store w; aw_accepted := aw_accepted w ++ [op]; aw_settled := aw_settled w; aw_overtaken := aw_overtaken w |}).

(** After an attempt of the batch in hand: what is in the tables, whether the
    connection is kept, the next phase, and how the batch ended if it did *)
Definition after_attempt (st : store) (connected healthy : bool) (p : phase) (ended : list (list WriteOp * bool))
    (w : AsyncWriter) : AsyncWriter :=
  {| aw_queue := aw_queue w; aw_stop := aw_stop w; aw_phase := p; aw_connected := connected; aw_dropped := aw_dropped w;
     aw_last_drop_log := aw_last_drop_log w; aw_healthy := healthy; aw_now := aw_now w; aw_store := st;
     aw_accepted := aw_accepted w; aw_settled := aw_settled w ++ ended; aw_overtaken := aw_overtaken w |}.

(** One attempt of [_write_with_retry] *)
Definition attempt_batch (l : link) (batch : list WriteOp) (attempt : nat) (w : AsyncWriter) : AsyncWriter :=
  match _write_batch l batch (aw_store w) with
  | (Ok _, st) => after_attempt st true true Idle [(batch, true)] w
  | (Raise e, st) =>
      let connected := negb (is_connection_error e) in
      if (attempt =? 1)%nat then after_attempt st connected (aw_healthy w) (Writing batch 2) [] w
      else after_attempt st connected false Idle [(batch, false)] w
  end.

(** One step of the thread ([_run], [_collect_batch]): the test at the top of a
    loop, one [get] with its time-out, one attempt *)
Definition thread_step (l : link) (w : AsyncWriter) : AsyncWriter :=
  match aw_phase w with
  | Idle => with_phase (if aw_stop w then Ended else Collecting [] (aw_now w + batch_interval)) w
  | Collecting batch deadline =>
      if (batch_size <=? length batch)%nat || aw_stop w || (deadline <=? aw_now w)
      then with_phase (match batch with [] => Idle | _ => Writing batch 1 end) w
      else with_phase (Waiting batch deadline) w
  | Waiting batch deadline =>
      match aw_queue w with
      | op :: queue =>
          {| aw_queue := queue; aw_stop := aw_stop w; aw_phase := Collecting (batch ++ [op]) deadline;
             aw_connected := aw_connected w; aw_dropped := aw_dropped w; aw_last_drop_log := aw_last_drop_log w;
             aw_healthy := aw_healthy w; aw_now := aw_now w; aw_store := aw_store w; aw_accepted := aw_accepted w;
             aw_settled := aw_settled w; aw_overtaken := aw_overtaken w |}
      | [] => with_phase (Collecting batch deadline) w
      end
  | Writing batch attempt => attempt_batch l batch attempt w
  | Ended => w
  end.

Definition in_hand (w : AsyncWriter) : list WriteOp :=
  match aw_phase w with Collecting b _ | Waiting b _ | Writing b _ => b | _ => [] end.

(** [flush_and_stop]: first the stop flag ... *)
Definition request_stop (w : AsyncWriter) : AsyncWriter :=
  {| aw_queue := aw_queue w; aw_stop := true; aw_phase := aw_phase w; aw_connected := aw_connected w; aw_dropped := aw_dropped w;
     aw_last_drop_log := aw_last_drop_log w; aw_healthy := aw_healthy w; aw_now := aw_now w; aw_store := aw_store w;
     aw_accepted := aw_accepted w; aw_settled := aw_settled w; aw_overtaken := aw_overtaken w |}.

(** ... then, when the thread has ended or the wait for it timed out, what is
    left is written in one attempt, on the caller's thread. *)
Definition write_remaining (l : link) (remaining : list WriteOp) (st : store) : store * list (list WriteOp * bool) :=
  match remaining with
  | [] => (st, [])
  | _ => match _write_batch l remaining st with
         | (Ok _, st') => (st', [(remaining, true)])
         | (Raise _, st') => (st', [(remaining, false)])
         end
  end.

Definition finish_flush (l : link) (w : AsyncWriter) : AsyncWriter :=
  let '(st, ended) := write_remaining l (aw_queue w) (aw_store w) in
  {| aw_queue := []; aw_stop := aw_stop w; aw_phase := aw_phase w; aw_connected := false; aw_dropped := aw_dropped w;
     aw_last_drop_log := aw_last_drop_log w; aw_healthy := aw_healthy w; aw_now := aw_now w; aw_store := st;
     aw_accepted := aw_accepted w; aw_settled := aw_settled w ++ ended;
     aw_overtaken := aw_overtaken w || negb (bool_decide (length (in_hand w) = 0%nat)) |}.

(** ** Runs *)

Inductive writer_move := Submit (op : WriteOp) | Thread (l : link) | Stop | Flush (l : link) | Tick (d : Z).

Definition move (w : AsyncWriter) (m : writer_move) : AsyncWriter :=
  match m with
  | Submit op => (submit op w).2
  | Thread l => thread_step l w
  | Stop => request_stop w
  | Flush l => if aw_stop w then finish_flush l w else w
  | Tick d =>
      {| aw_queue := aw_queue w; aw_stop := aw_stop w; aw_phase := aw_phase w; aw_connected := aw_connected w;
         aw_dropped := aw_dropped w; aw_last_drop_log := aw_last_drop_log w; aw_healthy := aw_healthy w;
         aw_now := aw_now w + Z.max 0 d; aw_store := aw_store w; aw_accepted := aw_accepted w; aw_settled := aw_settled w;
         aw_overtaken := aw_overtaken w |}
  end.
Definition run_writer (st : store) (ms : list writer_move) : AsyncWriter := foldl move (writer_init st) ms.
End database.
End writer.
