(* ===== verification/WriterFacts.v ===== *)
(** * The background writer's promise

    A batch, grouped into statements and stripped of the rows that a later row of
    the batch overwrites, leaves the tables as its rows one after another would;
    and over any run nothing accepted is lost, doubled or reordered. *)

From S2P Require Import Prelude PyStr Bridge Writer.

(** ** Dicts *)

Lemma od_set_split {K A} `{!EqDecision K} (k : K) (v : A) d :
  (od_get k d = None /\ od_set k v d = d ++ [(k, v)]) \/
  (exists d1 v0 d2, d = d1 ++ (k, v0) :: d2 /\ od_get k d = Some v0 /\ od_set k v d = d1 ++ (k, v) :: d2).
Proof.
  induction d as [|[k1 v1] d IH]; simpl; [by left|]. destruct (decide (k = k1)) as [->|Hne]; [right; by exists [], v1, d|].
  destruct IH as [[Hn ->]|(d1 & v0 & d2 & -> & Hg & ->)]; [by left|right]. by exists ((k1, v1) :: d1), v0, d2.
Qed.

Section facts.
Context {V : Type} `{Countable V}.
Abbreviation row := (gmap string V).
Abbreviation op := (@WriteOp V).
Abbreviation store := (@store V _ _).
Context (schema : string -> option (list string)) (accepts : string -> row -> bool).
Abbreviation insert_row := (insert_row schema accepts).
Abbreviation insert_rows := (insert_rows schema accepts).
Abbreviation run_groups := (run_groups schema accepts).

(** ** What one row does *)

(** A row that its table takes, addressed by the table's own key *)
Definition regular (o : op) : Prop :=
  accepts (op_table o) (op_row o) = true /\ conflict_target (op_upsert_key o) = schema (op_table o) /\
  match schema (op_table o) with Some cols => is_Some (key_values cols (op_row o)) | None => True end.

(** The keyed row it writes *)
Definition slot (o : op) : option (string * list V) :=
  match schema (op_table o) with Some cols => (fun kv => (op_table o, kv)) <$> key_values cols (op_row o) | None => None end.

Definition effect (st : store) (o : op) : store :=
  match schema (op_table o) with
  | None => {| st_rows := <[op_table o := default [] (st_rows st !! op_table o) ++ [op_row o]]> (st_rows st); st_keyed := st_keyed st |}
  | Some cols =>
      match key_values cols (op_row o) with
      | Some kv => {| st_rows := st_rows st;
                      st_keyed := <[(op_table o, kv) := upsert_row cols (op_row o) (st_keyed st !! (op_table o, kv))]> (st_keyed st) |}
      | None => st
      end
  end.

(** The rows one after another *)
Definition replay (ops : list op) (st : store) : store := foldl effect st ops.

Lemma insert_regular (o : op) st : regular o -> insert_row (op_table o) (op_upsert_key o) (op_row o) st = Ok (effect st o).
Proof.
  intros (Ha & Ht & Hk). unfold Writer.insert_row, effect. rewrite Ha, Ht. cbn [negb].
  destruct (schema (op_table o)) as [cols|]; [|done]. destruct Hk as [kv ->]. by rewrite bool_decide_eq_true_2.
Qed.

(** Equal tables, but for the order of the rows of a table without a key *)
Definition store_eq (st st' : store) : Prop :=
  st_keyed st = st_keyed st' /\ forall t, default [] (st_rows st !! t) ≡ₚ default [] (st_rows st' !! t).
#[export] Instance store_eq_equiv : Equivalence store_eq.
Proof.
  split.
  - by intros st.
  - intros st st' [? Hr]. split; [done|]. intros t. by rewrite Hr.
  - intros st st' st'' [? Hr] [? Hr']. split; [congruence|]. intros t. by rewrite Hr.
Qed.

(** ** What a list of rows does *)

Definition writes_slot (k : string * list V) (o : op) : bool := bool_decide (slot o = Some k).
Definition appended_to (t : string) (ops : list op) : list row :=
  omap (fun o => if bool_decide (op_table o = t /\ schema t = None) then Some (op_row o) else None) ops.

(** Rows that write the same slot have the same columns. *)
Definition one_shape (ops : list op) : Prop := forall o o', o ∈ ops -> o' ∈ ops -> slot o = slot o' -> is_Some (slot o) ->
  columns_of (op_row o) = columns_of (op_row o').

Lemma replay_rows ops st t : default [] (st_rows (replay ops st) !! t) = default [] (st_rows st !! t) ++ appended_to t ops.
Proof.
  revert st. induction ops as [|o ops IH]; intros st; simpl; [by rewrite app_nil_r|].
  unfold replay in *. simpl. rewrite IH. clear IH. unfold effect, appended_to. simpl. destruct (schema (op_table o)) as [cols|] eqn:Es.
  - replace (st_rows match key_values cols (op_row o) with Some kv => _ | None => st end) with (st_rows st) by (by destruct (key_values _ _)).
    rewrite bool_decide_eq_false_2; [done|]. intros [<- ?]. congruence.
  - simpl. destruct (decide (op_table o = t)) as [<-|Hne].
    + rewrite lookup_insert_eq, bool_decide_eq_true_2 by done. simpl. by rewrite <- app_assoc.
    + rewrite lookup_insert_ne by done. rewrite bool_decide_eq_false_2; [done|]. by intros [? _].
Qed.

Lemma upsert_same_shape cols kv (r1 r2 : row) old :
  key_values cols r1 = Some kv -> key_values cols r2 = Some kv -> dom r1 = dom r2 ->
  upsert_row cols r2 (Some (upsert_row cols r1 old)) = upsert_row cols r2 old.
Proof.
  intros H1 H2 Hdom. apply map_eq. intros c.
  assert (r1 !! c = None <-> r2 !! c = None) as Hnone by (rewrite <- !not_elem_of_dom; by rewrite Hdom).
  assert (c ∈ cols -> r1 !! c = r2 !! c) as Hkey.
  { intros Hc. unfold key_values in *. apply mapM_Some in H1, H2. apply list_elem_of_lookup in Hc as [n Hc].
    destruct (Forall2_lookup_l _ _ _ _ _ H1 Hc) as (v & Hv & ->). destruct (Forall2_lookup_l _ _ _ _ _ H2 Hc) as (v' & Hv' & ->). congruence. }
  unfold upsert_row. destruct old as [o|].
  - rewrite !lookup_union, !map_lookup_filter. destruct (r2 !! c) as [v2|] eqn:E2, (r1 !! c) as [v1|] eqn:E1;
      try (by destruct Hnone; naive_solver); simpl; [|by destruct (o !! c)].
    destruct (decide (c ∈ cols)) as [Hc|Hc].
    + rewrite !option_guard_False by tauto. by destruct (o !! c).
    + rewrite !option_guard_True by tauto. by destruct (o !! c).
  - rewrite lookup_union, map_lookup_filter. destruct (r2 !! c) as [v2|] eqn:E2, (r1 !! c) as [v1|] eqn:E1;
      try (by destruct Hnone; naive_solver); simpl.
    destruct (decide (c ∈ cols)) as [Hc|Hc].
    + rewrite option_guard_False by tauto. by rewrite Hkey.
    + by rewrite option_guard_True by tauto.
Qed.

Lemma columns_dom (r1 r2 : row) : columns_of r1 = columns_of r2 -> dom r1 = dom r2.
Proof.
  assert (forall (r : row) c, c ∈ dom r <-> c ∈ columns_of r) as Hin.
  { intros r c. unfold columns_of. rewrite merge_sort_Permutation, elem_of_dom, list_elem_of_fmap. split.
    - intros [v Hv]. exists (c, v). split; [done|by apply elem_of_map_to_list].
    - intros ([c' v] & -> & Hv%elem_of_map_to_list). by eexists. }
  intros Heq. apply set_eq. intros c. by rewrite !Hin, Heq.
Qed.

(** ** What a slot holds in the end *)

Lemma slot_spec (o : op) k : slot o = Some k -> exists cols kv,
  schema (op_table o) = Some cols /\ key_values cols (op_row o) = Some kv /\ k = (op_table o, kv).
Proof.
  unfold slot. destruct (schema (op_table o)) as [cols|]; [|done]. destruct (key_values cols (op_row o)) as [kv|] eqn:E; [|done].
  intros [= <-]. by exists cols, kv.
Qed.

Lemma replay_keyed ops st k :
  one_shape ops ->
  st_keyed (replay ops st) !! k =
  match last (List.filter (writes_slot k) ops) with
  | Some o => match schema (op_table o) with Some cols => Some (upsert_row cols (op_row o) (st_keyed st !! k)) | None => None end
  | None => st_keyed st !! k
  end.
Proof.
  induction ops as [|o ops IH] using rev_ind; intros Hshape; [done|].
  unfold replay. rewrite foldl_app. simpl. fold (replay ops st).
  assert (one_shape ops) as Hshape' by (intros o1 o2 H1 H2; apply Hshape; apply elem_of_app; by left).
  specialize (IH Hshape'). rewrite List.filter_app. simpl.
  unfold writes_slot at 2. case_bool_decide as Hk.
  - rewrite last_snoc. destruct (slot_spec o k Hk) as (cols & kv & Hs & Hkv & Ek). unfold effect. rewrite Hs, Hkv. simpl.
    rewrite <- Ek, lookup_insert_eq, IH. clear IH. f_equal.
    destruct (last (List.filter (writes_slot k) ops)) as [o'|] eqn:El; [|done].
    assert (o' ∈ ops /\ slot o' = Some k) as [Hin' Hslot'].
    { apply last_Some in El as [l El]. assert (o' ∈ List.filter (writes_slot k) ops) as Hin by (rewrite El; set_solver).
      apply list_elem_of_In, filter_In in Hin as [Hin Hw]. split; [by apply list_elem_of_In|]. by apply bool_decide_eq_true in Hw. }
    destruct (slot_spec o' k Hslot') as (cols' & kv' & Hs' & Hkv' & Ek'). rewrite Hs'. rewrite Ek in Ek'. injection Ek' as Et Ekv.
    assert (cols' = cols) as -> by congruence. subst kv'. apply (upsert_same_shape cols kv); [done|done|].
    apply columns_dom, Hshape; [set_solver|set_solver|congruence|by eexists].
  - rewrite app_nil_r, <- IH. unfold effect. destruct (schema (op_table o)) as [cols|] eqn:Es; [|done].
    destruct (key_values cols (op_row o)) as [kv|] eqn:Ekv; [|done]. simpl. rewrite lookup_insert_ne; [done|].
    intros <-. apply Hk. unfold slot. by rewrite Es, Ekv.
Qed.

(** Two lists of rows that agree on each slot's last row and on what they append
    leave equal tables. *)
Lemma replay_agree ops ops' st :
  one_shape ops -> one_shape ops' ->
  (forall k, last (List.filter (writes_slot k) ops') = last (List.filter (writes_slot k) ops)) ->
  (forall t, appended_to t ops' ≡ₚ appended_to t ops) -> store_eq (replay ops' st) (replay ops st).
Proof.
  intros H1 H2 Hlast Happ. split.
  - apply map_eq. intros k. rewrite !replay_keyed by done. by rewrite Hlast.
  - intros t. rewrite !replay_rows. by rewrite Happ.
Qed.

(** ** The groups, flattened *)

Definition op_in (gk : group_key) (r : row) : op := {| op_table := gk.1.1; op_row := r; op_upsert_key := gk.2 |}.
Definition group_ops (g : group_key * bucket) : list op := op_in g.1 <$> bucket_rows g.2.
Definition flat (groups : list (group_key * bucket)) : list op := concat (group_ops <$> groups).

Lemma flat_app g1 g2 : flat (g1 ++ g2) = flat g1 ++ flat g2.
Proof. unfold flat. by rewrite fmap_app, concat_app. Qed.
Lemma elem_flat o groups : o ∈ flat groups <-> exists gk b, (gk, b) ∈ groups /\ o ∈ group_ops (gk, b).
Proof.
  unfold flat. rewrite list_elem_of_In, in_concat. split.
  - intros (l & Hl & Ho). apply list_elem_of_In, list_elem_of_fmap in Hl as ([gk b] & -> & Hg). exists gk, b. split; [done|by apply list_elem_of_In].
  - intros (gk & b & Hg & Ho). exists (group_ops (gk, b)). split; [|by apply list_elem_of_In].
    apply list_elem_of_In, list_elem_of_fmap. by exists (gk, b).
Qed.

(** A bucket is of the kind its key says and holds rows of its columns, each at
    its own key values. *)
Definition bucket_ok (gk : group_key) (b : bucket) : Prop :=
  match conflict_target gk.2, b with
  | None, Appended rows => forall r, r ∈ rows -> columns_of r = gk.1.2
  | Some cols, Upserted d =>
      NoDup d.*1 /\ forall kv (r : row), (kv, r) ∈ d -> key_values cols r = Some kv /\ columns_of r = gk.1.2
  | _, _ => False
  end.
Record groups_ok (groups : list (group_key * bucket)) : Prop := {
  go_keys : NoDup groups.*1;
  go_buckets : forall gk b, (gk, b) ∈ groups -> bucket_ok gk b
}.

Lemma flat_key o gk b : bucket_ok gk b -> o ∈ group_ops (gk, b) -> key_of o = gk.
Proof.
  intros Hb (r & -> & Hr)%list_elem_of_fmap. unfold key_of, op_in. simpl in *. destruct gk as [[t cols] u].
  unfold bucket_ok in Hb. simpl in *. destruct (conflict_target u), b as [rows|d]; try done; simpl in Hr.
  - apply list_elem_of_fmap in Hr as ([kv r'] & -> & Hin). destruct Hb as [_ Hb], (Hb kv r' Hin) as [_ Hc]. simpl. by rewrite Hc.
  - by rewrite (Hb r Hr).
Qed.

(** Adding a row puts it somewhere, or in the place of a row of the same slot. *)
Inductive placed (ops ops' : list op) (o : op) : Prop :=
  | placed_new A C : ops = A ++ C -> ops' = A ++ o :: C ->
      (forall o0, o0 ∈ ops -> key_of o0 = key_of o -> slot o0 = slot o -> slot o = None) -> placed ops ops' o
  | placed_over A C o0 : ops = A ++ o0 :: C -> ops' = A ++ o :: C -> slot o0 = slot o -> is_Some (slot o) -> placed ops ops' o.

Lemma op_eta (o : op) : op_in (key_of o) (op_row o) = o.
Proof. by destruct o. Qed.

Lemma elem_od_set {K A} `{!EqDecision K} (k k' : K) (v v' : A) d : (k', v') ∈ od_set k v d -> (k', v') = (k, v) \/ (k', v') ∈ d.
Proof. destruct (od_set_split k v d) as [[_ ->]|(d1 & v0 & d2 & -> & _ & ->)]; set_solver. Qed.

Lemma groups_set groups gk b' : groups_ok groups -> bucket_ok gk b' -> groups_ok (od_set gk b' groups).
Proof.
  intros [Hnd Hb] Hok. split; [by apply od_wf_set|]. intros gk1 b1 [[= -> ->]|Hin]%elem_od_set; [done|by apply Hb].
Qed.

(** What is placed in its group is placed among all: rows of its key are there. *)
Lemma set_placed groups b0 b' o :
  groups_ok groups -> group_ops (key_of o, b0) = [] ->
  placed (group_ops (key_of o, default b0 (od_get (key_of o) groups))) (group_ops (key_of o, b')) o ->
  placed (flat groups) (flat (od_set (key_of o) b' groups)) o.
Proof.
  intros [Hnd Hb] H0 Hp.
  assert (forall o0, o0 ∈ flat groups -> key_of o0 = key_of o -> o0 ∈ group_ops (key_of o, default b0 (od_get (key_of o) groups))) as Hall.
  { intros o0 (gk & b & Hg & Ho)%elem_flat Hk. pose proof (flat_key o0 gk b (Hb _ _ Hg) Ho) as Hk'. rewrite Hk in Hk'. subst gk.
    by rewrite (od_get_in _ _ _ Hnd Hg). }
  destruct (od_set_split (key_of o) b' groups) as [[Hn ->]|(g1 & b & g2 & Hg & Hget & ->)].
  - rewrite Hn in Hp, Hall. simpl in Hp, Hall. rewrite H0 in Hp, Hall. rewrite flat_app.
    assert (group_ops (key_of o, b') = [o]) as Hone.
    { destruct Hp as [A C Hnil -> _|A C o0 Hnil]; [symmetry in Hnil; by apply app_eq_nil in Hnil as [-> ->]|by destruct A]. }
    apply (placed_new _ _ _ (flat groups) []); [by rewrite app_nil_r|unfold flat at 2; simpl; by rewrite Hone|].
    intros o0 Hin Hk. by destruct (proj1 (elem_of_nil o0) (Hall o0 Hin Hk)).
  - rewrite Hget in Hp, Hall. simpl in Hp, Hall.
    assert (forall b, flat (g1 ++ (key_of o, b) :: g2) = flat g1 ++ group_ops (key_of o, b) ++ flat g2) as Hflat by (intros; by rewrite flat_app).
    rewrite Hg, Hflat in *. rewrite Hflat. destruct Hp as [A C Ho Ho' Hnew|A C o0 Ho Ho' Hs Hsome]; rewrite Ho, Ho' in *.
    + apply (placed_new _ _ _ (flat g1 ++ A) (C ++ flat g2)); [by rewrite <- !app_assoc..|]. intros o0 Hin Hk. apply Hnew; [by apply Hall|done].
    + by apply (placed_over _ _ _ (flat g1 ++ A) (C ++ flat g2) o0); [rewrite <- !app_assoc..| |].
Qed.

Lemma od_get_bucket groups gk b : groups_ok groups -> od_get gk groups = Some b -> bucket_ok gk b.
Proof. intros [_ Hb] Hget. apply Hb. by apply od_get_Some_in. Qed.

Lemma keyed_bucket_set (o : op) cols kv d :
  conflict_target (op_upsert_key o) = Some cols -> bucket_ok (key_of o) (Upserted d) -> key_values cols (op_row o) = Some kv ->
  bucket_ok (key_of o) (Upserted (od_set kv (op_row o) d)).
Proof.
  unfold bucket_ok. simpl. intros -> [Hnd Hd] Hkv. split; [by apply od_wf_set|]. intros kv' r [[= -> ->]|Hin]%elem_od_set; [done|by apply Hd].
Qed.

Lemma keyed_placed (o : op) cols kv d :
  conflict_target (op_upsert_key o) = Some cols -> schema (op_table o) = Some cols -> bucket_ok (key_of o) (Upserted d) ->
  key_values cols (op_row o) = Some kv ->
  placed (group_ops (key_of o, Upserted d)) (group_ops (key_of o, Upserted (od_set kv (op_row o) d))) o.
Proof.
  unfold bucket_ok. simpl. intros -> Hs [Hnd Hd] Hkv. unfold group_ops. cbn [fst snd bucket_rows].
  assert (forall kv' r, (kv', r) ∈ d -> slot (op_in (key_of o) r) = Some (op_table o, kv')) as Hslots.
  { intros kv' r Hin. unfold slot, op_in. simpl. rewrite Hs. by destruct (Hd kv' r Hin) as [-> _]. }
  assert (slot o = Some (op_table o, kv)) as Hslot by (unfold slot; by rewrite Hs, Hkv).
  destruct (od_set_split kv (op_row o) d) as [[Hn ->]|(d1 & r0 & d2 & -> & _ & ->)]; rewrite !fmap_app; simpl; rewrite op_eta.
  - apply (placed_new _ _ _ (op_in (key_of o) <$> d.*2) []); [by rewrite app_nil_r|done|]. intros o0 Hin _ Heq. exfalso.
    apply list_elem_of_fmap in Hin as (r & -> & ([kv' r'] & -> & Hin)%list_elem_of_fmap). simpl in Heq.
    rewrite (Hslots kv' r' Hin), Hslot in Heq. injection Heq as ->. apply od_get_None in Hn. apply Hn. apply list_elem_of_fmap. by exists (kv, r').
  - apply (placed_over _ _ _ (op_in (key_of o) <$> d1.*2) (op_in (key_of o) <$> d2.*2) (op_in (key_of o) r0)); [done|done| |by eexists].
    rewrite Hslot. apply Hslots. set_solver.
Qed.

Lemma add_op_placed groups (o : op) :
  groups_ok groups -> regular o ->
  exists groups', add_op groups o = Ok groups' /\ groups_ok groups' /\ placed (flat groups) (flat groups') o.
Proof.
  intros Hok (_ & Ht & Hkv). unfold add_op. destruct (conflict_target (op_upsert_key o)) as [cols|] eqn:Ec.
  - symmetry in Ht. rewrite Ht in Hkv. destruct Hkv as [kv Hkv]. rewrite Hkv. eexists. split; [done|].
    assert (exists d, od_get (key_of o) groups = Some (Upserted d) /\ bucket_ok (key_of o) (Upserted d) \/
      od_get (key_of o) groups = None /\ d = []) as (d & Hd).
    { destruct (od_get (key_of o) groups) as [b|] eqn:Eb; [|exists []; by right]. apply (od_get_bucket _ _ _ Hok) in Eb as Hbk.
      destruct b as [|d]; [|exists d; by left]. unfold bucket_ok in Hbk. simpl in Hbk. by rewrite Ec in Hbk. }
    assert (bucket_ok (key_of o) (Upserted d)) as Hbk.
    { destruct Hd as [[_ ?]|[_ ->]]; [done|]. unfold bucket_ok. simpl. rewrite Ec. split; [apply NoDup_nil_2|by intros ? ? ?%elem_of_nil]. }
    replace (match od_get (key_of o) groups with Some (Upserted d0) => d0 | _ => [] end) with d by (by destruct Hd as [[-> _]|[-> ->]]).
    split; [by eapply groups_set, keyed_bucket_set|]. apply (set_placed _ (Upserted [])); [done|done|].
    replace (default _ _) with (Upserted d) by (by destruct Hd as [[-> _]|[-> ->]]). by eapply keyed_placed.
  - eexists. split; [done|]. assert (slot o = None) as Hslot by (unfold slot; by rewrite <- Ht).
    assert (exists rows, od_get (key_of o) groups = Some (Appended rows) /\ bucket_ok (key_of o) (Appended rows) \/
      od_get (key_of o) groups = None /\ rows = []) as (rows & Hrows).
    { destruct (od_get (key_of o) groups) as [b|] eqn:Eb; [|exists []; by right]. apply (od_get_bucket _ _ _ Hok) in Eb as Hbk.
      destruct b as [rows|]; [exists rows; by left|]. unfold bucket_ok in Hbk. simpl in Hbk. by rewrite Ec in Hbk. }
    replace (match od_get (key_of o) groups with Some (Appended rows0) => rows0 | _ => [] end) with rows by (by destruct Hrows as [[-> _]|[-> ->]]).
    split.
    + apply groups_set; [done|]. unfold bucket_ok. simpl. rewrite Ec. intros r [Hr| ->%list_elem_of_singleton]%elem_of_app; [|done].
      destruct Hrows as [[_ Hbk]|[_ ->]]; [|by apply elem_of_nil in Hr]. unfold bucket_ok in Hbk. simpl in Hbk. rewrite Ec in Hbk. by apply Hbk.
    + apply (set_placed _ (Appended [])); [done|done|].
      replace (default _ _) with (Appended rows) by (by destruct Hrows as [[-> _]|[-> ->]]).
      apply (placed_new _ _ _ (group_ops (key_of o, Appended rows)) []); [by rewrite app_nil_r| |done].
      unfold group_ops. simpl. rewrite fmap_app. simpl. by rewrite op_eta.
Qed.

(** ** A whole batch *)

Record grouped (ops : list op) (groups : list (group_key * bucket)) : Prop := {
  gr_ok : groups_ok groups;
  gr_from : forall o, o ∈ flat groups -> o ∈ ops;
  gr_last : forall k, List.filter (writes_slot k) (flat groups) = option_list (last (List.filter (writes_slot k) ops));
  gr_rows : forall t, appended_to t (flat groups) ≡ₚ appended_to t ops
}.

Lemma appended_app t (l1 l2 : list op) : appended_to t (l1 ++ l2) = appended_to t l1 ++ appended_to t l2.
Proof. apply omap_app. Qed.

Lemma filter_slot_empty k (l : list op) : (forall o, o ∈ l -> slot o <> Some k) -> List.filter (writes_slot k) l = [].
Proof.
  induction l as [|o l IH]; intros Hl; [done|]. simpl. unfold writes_slot at 1.
  rewrite bool_decide_eq_false_2 by (apply Hl; set_solver). apply IH. intros o' Ho. apply Hl. set_solver.
Qed.

Lemma appended_slot (o : op) t : is_Some (slot o) -> appended_to t [o] = [].
Proof.
  intros [k (cols & kv & Hs & _)%slot_spec]. unfold appended_to. simpl. rewrite bool_decide_eq_false_2; [done|]. intros [<- ?]. congruence.
Qed.

Lemma same_shape_key (o o' : op) : regular o -> regular o' -> slot o = slot o' -> is_Some (slot o) ->
  columns_of (op_row o) = columns_of (op_row o') -> key_of o = key_of o'.
Proof.
  intros (_ & Ht & _) (_ & Ht' & _) Heq [k Hk] Hc. rewrite Hk in Heq. symmetry in Heq.
  destruct (slot_spec o k Hk) as (cols & kv & Hs & _ & ->), (slot_spec o' _ Heq) as (cols' & kv' & Hs' & _ & [= Et _]).
  assert (op_upsert_key o = op_upsert_key o') as Eu.
  { rewrite <- Et in *. rewrite Hs in Ht, Ht'. destruct (op_upsert_key o) as [[]|], (op_upsert_key o') as [[]|]; simpl in *; congruence. }
  unfold key_of. by rewrite Et, Hc, Eu.
Qed.

Lemma writes_it (o : op) k : slot o = Some k -> writes_slot k o = true.
Proof. intros Hk. by apply bool_decide_eq_true. Qed.
Lemma writes_not (o : op) k : slot o <> Some k -> writes_slot k o = false.
Proof. intros Hk. by apply bool_decide_eq_false. Qed.

Lemma grouped_add ops groups groups' (o : op) :
  grouped ops groups -> (forall o', o' ∈ ops ++ [o] -> regular o') -> one_shape (ops ++ [o]) ->
  groups_ok groups' -> placed (flat groups) (flat groups') o -> grouped (ops ++ [o]) groups'.
Proof.
  intros [_ Hfrom Hlast Hrows] Hreg Hshape Hok' Hp. split; [done| | |].
  - intros o' Ho'. destruct Hp as [A C Hf Hf' _|A C o0 Hf Hf' _ _]; rewrite Hf' in Ho'; rewrite Hf in Hfrom; set_solver.
  - intros k. rewrite List.filter_app. simpl. destruct (decide (slot o = Some k)) as [Hk|Hk]; [rewrite (writes_it o k Hk)|rewrite (writes_not o k Hk)].
    + rewrite last_snoc. simpl. assert (is_Some (slot o)) as Hsome by (by eexists).
      destruct Hp as [A C Hf Hf' Hnew|A C o0 Hf Hf' H0 _].
      * assert (List.filter (writes_slot k) (flat groups) = []) as Hnil.
        { apply filter_slot_empty. intros o0 Hin Hs0. assert (slot o = None); [|congruence].
          apply (Hnew o0 Hin); [|congruence]. apply same_shape_key; [apply Hreg; set_solver|apply Hreg; set_solver|congruence|by eexists|].
          apply Hshape; [set_solver|set_solver|congruence|by eexists]. }
        rewrite Hf, List.filter_app in Hnil. apply app_eq_nil in Hnil as [HA HC].
        rewrite Hf', List.filter_app. simpl. by rewrite (writes_it o k Hk), HA, HC.
      * specialize (Hlast k). rewrite Hf, List.filter_app in Hlast. simpl in Hlast. rewrite (writes_it o0 k) in Hlast by congruence.
        assert (List.filter (writes_slot k) A = [] /\ List.filter (writes_slot k) C = []) as [HA HC].
        { destruct (last _) as [ol|]; simpl in Hlast; [|by destruct (List.filter _ A)].
          destruct (List.filter _ A) as [|a [|]]; simplify_eq/=; done. }
        rewrite Hf', List.filter_app. simpl. by rewrite (writes_it o k Hk), HA, HC.
    + rewrite app_nil_r, <- Hlast. destruct Hp as [A C Hf Hf' _|A C o0 Hf Hf' H0 _]; rewrite Hf, Hf', !List.filter_app; simpl.
      * by rewrite (writes_not o k).
      * rewrite (writes_not o k), (writes_not o0 k) by congruence. done.
  - intros t. rewrite appended_app, <- Hrows. destruct Hp as [A C Hf Hf' _|A C o0 Hf Hf' H0 Hs]; rewrite Hf, Hf', !appended_app.
    + change (o :: C) with ([o] ++ C). rewrite appended_app. solve_Permutation.
    + change (o :: C) with ([o] ++ C). change (o0 :: C) with ([o0] ++ C). rewrite !appended_app.
      rewrite !appended_slot by (try rewrite H0; done). by rewrite app_nil_r.
Qed.

Lemma group_from_grouped done_ops groups batch :
  grouped done_ops groups -> (forall o, o ∈ done_ops ++ batch -> regular o) -> one_shape (done_ops ++ batch) ->
  exists groups', group_from groups batch = Ok groups' /\ grouped (done_ops ++ batch) groups'.
Proof.
  revert done_ops groups. induction batch as [|o batch IH]; intros ops groups Hg Hreg Hshape.
  - exists groups. by rewrite app_nil_r.
  - rewrite cons_middle, app_assoc in Hreg, Hshape |- *.
    destruct (add_op_placed groups o) as (groups1 & Ha & Hok & Hp); [by destruct Hg|apply Hreg; set_solver|].
    simpl. rewrite Ha. apply IH; [|done|done]. eapply grouped_add; [done| | |done|done].
    + intros o' Ho'. apply Hreg. apply elem_of_app. by left.
    + intros o1 o2 H1 H2. apply Hshape; apply elem_of_app; by left.
Qed.

(** ** The statements *)

Lemma insert_rows_replay gk rows st :
  (forall r, r ∈ rows -> regular (op_in gk r)) -> insert_rows gk.1.1 gk.2 rows st = Ok (replay (op_in gk <$> rows) st).
Proof.
  revert st. induction rows as [|r rows IH]; intros st Hreg; [done|]. simpl.
  rewrite (insert_regular (op_in gk r)) by (apply Hreg; set_solver). apply IH. intros r' Hr. apply Hreg. set_solver.
Qed.

Lemma run_statement_replay gk b st :
  bucket_ok gk b -> (forall o, o ∈ group_ops (gk, b) -> regular o) ->
  run_statement schema accepts gk.1.1 gk.1.2 gk.2 (bucket_rows b) st = Ok (replay (group_ops (gk, b)) st).
Proof.
  intros Hb Hreg. unfold run_statement.
  assert (insert_rows gk.1.1 gk.2 (bucket_rows b) st = Ok (replay (group_ops (gk, b)) st)) as Hins.
  { apply insert_rows_replay. intros r Hr. apply Hreg. apply list_elem_of_fmap. by exists r. }
  unfold bucket_ok in Hb. destruct (conflict_target gk.2) as [cols|]; [|done]. destruct b as [|d]; [done|]. destruct Hb as [Hnd Hd].
  rewrite (bool_decide_eq_true_2 (NoDup _)); [by rewrite andb_false_r|]. simpl.
  replace (key_values cols <$> d.*2) with (Some <$> d.*1).
  - apply NoDup_fmap_2; [apply _|done].
  - clear Hnd Hins Hreg. induction d as [|[kv r] d IH]; [done|]. simpl. destruct (Hd kv r) as [-> _]; [set_solver|].
    f_equal. apply IH. intros kv' r' Hin. apply Hd. set_solver.
Qed.

Lemma run_groups_replay groups st :
  (forall gk b, (gk, b) ∈ groups -> bucket_ok gk b) -> (forall o, o ∈ flat groups -> regular o) ->
  run_groups ((fun g => (g.1, bucket_rows g.2)) <$> groups) st = Ok (replay (flat groups) st).
Proof.
  revert st. induction groups as [|[[[t cols] u] b] groups IH]; intros st Hb Hreg; [done|]. simpl.
  rewrite (run_statement_replay (t, cols, u) b); [|apply Hb; set_solver|].
  - simpl. rewrite IH.
    + unfold replay. by rewrite <- foldl_app.
    + intros gk' b' Hin. apply Hb. set_solver.
    + intros o Ho. apply Hreg. change (o ∈ group_ops (t, cols, u, b) ++ flat groups). set_solver.
  - intros o Ho. apply Hreg. change (o ∈ group_ops (t, cols, u, b) ++ flat groups). set_solver.
Qed.

(** C28: a batch is one transaction, and written as if its rows went one after
    another -- under two conditions the second part names.  Whatever the batch and
    however the connection fares, an attempt that fails leaves the tables as they
    were, unless it was the confirmation of a commit that got lost.  Its rows are
    grouped by table, columns and key and stripped of every row that a later one
    of the same key overwrites; when each row is one its table takes and the
    rows of one key have one set of columns, the batch commits, every keyed row
    holds what replaying the rows in order of submission leaves, and every
    table without a key has got the same rows.  (One row its table refuses fails
    the whole batch, and rows of one key with different columns may be written out
    of order: [last_price_lost].) *)
Theorem batch_is_sequential (batch : list op) (st : store) :
  (forall l e st', _write_batch schema accepts l batch st = (Raise e, st') ->
     st' = st \/ l = CommitUnconfirmed /\ _write_batch schema accepts Up batch st = (Ok tt, st')) /\
  ((forall o, o ∈ batch -> regular o) -> one_shape batch ->
   exists st', _write_batch schema accepts Up batch st = (Ok tt, st') /\ store_eq st' (replay batch st)).
Proof.
  split.
  { intros l e st'. unfold _write_batch. destruct (_group batch) as [groups|]; [|intros [= _ <-]; by left].
    destruct l, (run_groups groups st) as [st1|]; simplify_eq/=; intros [= _ <-]; first [by left|by right]. }
  intros Hreg Hshape. destruct (group_from_grouped [] [] batch) as (groups & Hg & [[Hnd Hb] Hfrom Hlast Hrows]).
  - split; [|by intros ? ?%elem_of_nil|done|done]. split; [apply NoDup_nil_2|by intros ? ? ?%elem_of_nil].
  - done.
  - done.
  - unfold _write_batch, _group. rewrite Hg. simpl. rewrite run_groups_replay; [|done|by auto].
    eexists. split; [done|]. simpl in Hfrom. apply replay_agree; [done| | |done].
    + intros o1 o2 H1 H2. apply Hshape; by apply Hfrom.
    + intros k. rewrite Hlast. simpl. by destruct (last (List.filter (writes_slot k) batch)).
Qed.
End facts.

(** ** A demonstration *)

Definition demo_schema (t : string) : option (list string) :=
  if String.eqb t "deals" then Some ["account"; "deal_id"] else None.
Definition demo_accepts (t : string) (r : gmap string Z) : bool := bool_decide (is_Some (r !! "account")).
Definition deal (id price : Z) : WriteOp := {| op_table := "deals"; op_row := {["account" := 1; "deal_id" := id; "price" := price]} : gmap string Z;
  op_upsert_key := Some ["account"; "deal_id"] |}.
Definition demo_event (n : Z) : WriteOp := {| op_table := "events"; op_row := {["account" := 1; "n" := n]} : gmap string Z; op_upsert_key := None |}.
Definition empty_store : @store Z _ _ := {| st_rows := ∅; st_keyed := ∅ |}.

Lemma batch_is_sequential_witness :
  exists st', _write_batch demo_schema demo_accepts Up [deal 7 100; demo_event 1; deal 7 101] empty_store = (Ok tt, st') /\
  store_eq st' (replay demo_schema [deal 7 100; demo_event 1; deal 7 101] empty_store).
Proof.
  apply (proj2 (batch_is_sequential demo_schema demo_accepts _ _)).
  - intros o Ho. repeat (apply elem_of_cons in Ho as [->|Ho]; [split_and!; try reflexivity; by (try eexists; vm_compute)|]). by apply elem_of_nil in Ho.
  - intros o o' Ho Ho' Hs [k Hk].
    repeat (apply elem_of_cons in Ho as [->|Ho]); repeat (apply elem_of_cons in Ho' as [->|Ho']);
      try (by apply elem_of_nil in Ho); try (by apply elem_of_nil in Ho'); try (by vm_compute in Hs); try (by vm_compute in Hk); reflexivity.
Defined.

(** Rows of one key with different columns are written by the order of their
    groups: here the price submitted last is lost. *)
Definition deal_note (id price : Z) : WriteOp := {| op_table := "deals";
  op_row := {["account" := 1; "deal_id" := id; "price" := price; "note" := 9]} : gmap string Z; op_upsert_key := Some ["account"; "deal_id"] |}.
Example last_price_lost :
  let batch := [deal 7 100; deal_note 7 101; deal 7 102] in
  let price st := st_keyed st !! ("deals", [1; 7]) ≫= (fun r => r !! "price") in
  price (_write_batch demo_schema demo_accepts Up batch empty_store).2 = Some 101 /\ price (replay demo_schema batch empty_store) = Some 102.
Proof. vm_compute. done. Qed.
