(* ===== verification/WriterRuns.v ===== *)
(** * The background writer's runs

    Whatever the reactor submits and however the connection fares, the writer
    accounts for every row; and told to stop it comes to an end with nothing
    left in the queue. *)

From S2P Require Import Prelude PyStr Bridge Writer WriterFacts.

Section runs.
Context {V : Type} `{Countable V}.
Abbreviation row := (gmap string V).
Abbreviation op := (@WriteOp V).
Abbreviation store := (@store V _ _).
Abbreviation AsyncWriter := (@AsyncWriter V _ _).
Context (schema : string -> option (list string)) (accepts : string -> row -> bool).
Context (maxsize batch_size : nat) (batch_interval : Z).
Abbreviation _write_batch := (_write_batch schema accepts).
Abbreviation move := (move schema accepts maxsize batch_size batch_interval).
Abbreviation run_writer := (run_writer schema accepts maxsize batch_size batch_interval).

(** ** Accounting *)

(** The tables after the batches that were written, in order *)
Definition written (settled : list (list op * bool)) (st : store) : store :=
  foldl (fun st (b : list op * bool) => if b.2 then (_write_batch Up b.1 st).2 else st) st settled.

(** No commit went through without its confirmation. *)
Definition confirmed (m : @writer_move V) : bool :=
  match m with Thread CommitUnconfirmed | Flush CommitUnconfirmed => false | _ => true end.
Definition is_submit (m : @writer_move V) : bool := match m with Submit _ => true | _ => false end.
Definition is_thread (m : @writer_move V) : bool := match m with Thread _ => true | _ => false end.

Definition settled_ops (w : AsyncWriter) : list op := concat (aw_settled w).*1.

Record accounts (st0 : store) (ms : list writer_move) (w : AsyncWriter) : Prop := {
  ac_ops : aw_accepted w ≡ₚ settled_ops w ++ in_hand w ++ aw_queue w;
  ac_order : aw_overtaken w = false -> aw_accepted w = settled_ops w ++ in_hand w ++ aw_queue w;
  ac_queue : (0 < maxsize)%nat -> (length (aw_queue w) <= maxsize)%nat;
  ac_hand : (length (in_hand w) <= batch_size)%nat;
  ac_phase : match aw_phase w with Waiting b _ => (length b < batch_size)%nat | Writing _ n => n = 1%nat \/ n = 2%nat | _ => True end;
  ac_dropped : aw_dropped w + Z.of_nat (length (aw_accepted w)) = Z.of_nat (length (List.filter is_submit ms));
  ac_store : forallb confirmed ms = true -> aw_store w = written (aw_settled w) st0
}.

Lemma write_batch_raises l batch st e st' :
  _write_batch l batch st = (Raise e, st') -> l <> CommitUnconfirmed -> st' = st.
Proof. unfold Writer._write_batch. destruct (_group batch), l; try case_match; by intros; simplify_eq/=. Qed.

Lemma write_batch_succeeds l batch st st' :
  _write_batch l batch st = (Ok tt, st') -> st' = (_write_batch Up batch st).2.
Proof. unfold Writer._write_batch. destruct (_group batch), l; try case_match; by intros; simplify_eq/=. Qed.

Lemma written_snoc settled b st : written (settled ++ [b]) st = if b.2 then (_write_batch Up b.1 (written settled st)).2 else written settled st.
Proof. unfold written. by rewrite foldl_app. Qed.

(** The end of a batch *)
Lemma write_batch_settles l batch st0 settled r st' :
  _write_batch l batch (written settled st0) = (r, st') -> l <> CommitUnconfirmed ->
  st' = written (settled ++ [(batch, match r with Ok _ => true | Raise _ => false end)]) st0.
Proof.
  intros Hw Hl. rewrite written_snoc. destruct r as [[]|e]; simpl; [by eapply write_batch_succeeds|by eapply write_batch_raises].
Qed.

Lemma filter_snoc_submit ms (m : @writer_move V) :
  length (List.filter is_submit (ms ++ [m])) = (length (List.filter is_submit ms) + if is_submit m then 1 else 0)%nat.
Proof. rewrite List.filter_app, length_app. simpl. by destruct (is_submit m). Qed.

Lemma settled_snoc (l : list (list op * bool)) b : concat (l ++ [b]).*1 = concat l.*1 ++ b.1.
Proof. rewrite fmap_app, concat_app. simpl. by rewrite app_nil_r. Qed.

Lemma attempt_accounts st0 ms w l batch n :
  accounts st0 ms w -> aw_phase w = Writing batch n ->
  accounts st0 (ms ++ [Thread l]) (attempt_batch schema accepts l batch n w).
Proof.
  intros [Hops Hord Hq Hh Hp Hd Hst] Ep. unfold in_hand in *. rewrite Ep in *. unfold attempt_batch.
  assert (forallb confirmed (ms ++ [Thread l]) = true -> aw_store w = written (aw_settled w) st0 /\ l <> CommitUnconfirmed) as Hst'.
  { rewrite forallb_app. intros [Hc Hl]%andb_prop. split; [by apply Hst|]. intros ->. done. }
  destruct (_write_batch l batch (aw_store w)) as [r st'] eqn:Ew.
  assert (forall healthy c ok, (ok = match r with Ok _ => true | Raise _ => false end) ->
    accounts st0 (ms ++ [Thread l]) (after_attempt st' c healthy Idle [(batch, ok)] w)) as Hend.
  { intros healthy c ok ->. split; unfold settled_ops, in_hand in *; simpl; rewrite ?settled_snoc, <- ?app_assoc; try done.
    - lia.
    - rewrite filter_snoc_submit. simpl. lia.
    - intros Hc. destruct (Hst' Hc) as [Es Hl]. rewrite Es in Ew. by eapply write_batch_settles. }
  destruct r as [[]|e]; [by apply Hend|]. destruct (n =? 1)%nat; [|by apply Hend].
  split; unfold settled_ops, in_hand in *; simpl; rewrite ?app_nil_r; try done; [by right|rewrite filter_snoc_submit; simpl; lia|].
  intros Hc. destruct (Hst' Hc) as [Es Hl]. rewrite <- Es. by eapply write_batch_raises.
Qed.

(** A move that settles nothing and writes nothing *)
Lemma accounts_keep st0 ms w m w' :
  accounts st0 ms w -> is_submit m = false -> aw_accepted w' = aw_accepted w -> aw_settled w' = aw_settled w ->
  aw_store w' = aw_store w -> aw_dropped w' = aw_dropped w -> aw_overtaken w' = aw_overtaken w ->
  in_hand w' ++ aw_queue w' = in_hand w ++ aw_queue w ->
  (length (aw_queue w') <= length (aw_queue w))%nat -> (length (in_hand w') <= batch_size)%nat ->
  match aw_phase w' with Waiting b _ => (length b < batch_size)%nat | Writing _ n => n = 1%nat \/ n = 2%nat | _ => True end ->
  accounts st0 (ms ++ [m]) w'.
Proof.
  intros [Hops Hord Hq Hh Hp Hd Hst] Hm Ea Es Et Ed Eo Eh Hl Hh' Hp'. split; unfold settled_ops in *; rewrite ?Ea, ?Es, ?Et, ?Ed, ?Eo, ?Eh; try done.
  - intros Hpos. specialize (Hq Hpos). lia.
  - rewrite filter_snoc_submit, Hm. lia.
  - rewrite forallb_app. intros [Hc _]%andb_prop. by apply Hst.
Qed.

Lemma thread_accounts st0 ms w l : accounts st0 ms w -> accounts st0 (ms ++ [Thread l]) (thread_step schema accepts batch_size batch_interval l w).
Proof.
  intros Hw. pose proof Hw as [_ _ _ Hh Hp _ _]. unfold thread_step. unfold in_hand in Hh.
  destruct (aw_phase w) as [|b d|b d|b n|] eqn:Ep; simpl in *.
  - apply (accounts_keep st0 ms w); try done; unfold in_hand; simpl; rewrite ?Ep; by destruct (aw_stop w); simpl; try lia.
  - destruct (_ || _) eqn:Estop.
    + destruct b; apply (accounts_keep st0 ms w); try done; unfold in_hand; simpl; rewrite ?Ep; simpl; try done; lia.
    + apply orb_false_iff in Estop as [[Hl _]%orb_false_iff _]. apply Nat.leb_gt in Hl.
      apply (accounts_keep st0 ms w); try done; unfold in_hand; simpl; by rewrite ?Ep.
  - destruct (aw_queue w) as [|o q] eqn:Eq; apply (accounts_keep st0 ms w); try done; unfold in_hand; simpl; rewrite ?Ep, ?Eq; simpl; try done; try lia.
    + by rewrite <- app_assoc.
    + rewrite length_app. simpl. lia.
  - by apply attempt_accounts.
  - apply (accounts_keep st0 ms w); try done; unfold in_hand; by rewrite Ep.
Qed.

Lemma submit_accounts st0 ms w o : accounts st0 ms w -> accounts st0 (ms ++ [Submit o]) (submit maxsize o w).2.
Proof.
  intros [Hops Hord Hq Hh Hp Hd Hst]. unfold submit. destruct (full maxsize w) eqn:Ef;
    split; unfold settled_ops, in_hand in *; simpl; try done.
  - rewrite filter_snoc_submit. simpl. lia.
  - rewrite forallb_app. intros [Hc _]%andb_prop. by apply Hst.
  - by rewrite !app_assoc, Hops, <- !app_assoc.
  - intros Ho. by rewrite !app_assoc, (Hord Ho), <- !app_assoc.
  - intros Hpos. rewrite length_app. simpl. unfold full in Ef. apply andb_false_iff in Ef as [Ef|Ef].
    + apply Nat.ltb_ge in Ef. lia.
    + apply Nat.leb_gt in Ef. lia.
  - rewrite filter_snoc_submit, length_app. simpl. lia.
  - rewrite forallb_app. intros [Hc _]%andb_prop. by apply Hst.
Qed.

Lemma write_remaining_settles l q st0 settled st ended :
  write_remaining schema accepts l q (written settled st0) = (st, ended) ->
  concat ended.*1 = q /\ (l <> CommitUnconfirmed -> st = written (settled ++ ended) st0).
Proof.
  unfold write_remaining. destruct q as [|o q]; [intros [= <- <-]; by rewrite app_nil_r|].
  destruct (_write_batch _ _ _) as [r st'] eqn:Ew. intros Heq.
  assert (ended = [(o :: q, match r with Ok _ => true | Raise _ => false end)] /\ st = st') as [-> ->] by (destruct r; by simplify_eq).
  split; [simpl; by rewrite app_nil_r|]. by apply write_batch_settles.
Qed.

Lemma write_remaining_ops l q st st' ended : write_remaining schema accepts l q st = (st', ended) -> concat ended.*1 = q.
Proof. intros Hw. by apply (write_remaining_settles l q st [] st') in Hw as [Hq _]. Qed.

Lemma flush_accounts st0 ms w l : accounts st0 ms w -> accounts st0 (ms ++ [Flush l]) (finish_flush schema accepts l w).
Proof.
  intros [Hops Hord Hq Hh Hp Hd Hst]. unfold finish_flush.
  destruct (write_remaining schema accepts l (aw_queue w) (aw_store w)) as [st ended] eqn:Ew.
  pose proof (write_remaining_ops _ _ _ _ _ Ew) as Hended.
  split; unfold settled_ops, in_hand in *; simpl; rewrite ?fmap_app, ?concat_app, ?Hended, ?app_nil_r; try done.
  - rewrite Hops. rewrite <- app_assoc. f_equiv. apply Permutation_app_comm.
  - intros [Ho Hnil]%orb_false_iff. rewrite (Hord Ho), <- app_assoc. f_equal.
    apply negb_false_iff, bool_decide_eq_true, length_zero_iff_nil in Hnil. rewrite Hnil. by rewrite app_nil_r.
  - intros Hpos. lia.
  - rewrite filter_snoc_submit. simpl. lia.
  - rewrite forallb_app. intros [Hc Hl]%andb_prop. rewrite (Hst Hc) in Ew. apply write_remaining_settles in Ew as [_ Hw].
    apply Hw. by intros ->.
Qed.

Lemma move_accounts st0 ms w m : accounts st0 ms w -> accounts st0 (ms ++ [m]) (move w m).
Proof.
  intros Hw. destruct m as [o|l| |l|d]; simpl.
  - by apply submit_accounts.
  - by apply thread_accounts.
  - destruct (Hw) as [_ _ _ Hh Hp _ _]. by apply (accounts_keep st0 ms w).
  - destruct (aw_stop w); [by apply flush_accounts|]. destruct (Hw) as [_ _ _ Hh Hp _ _]. by apply (accounts_keep st0 ms w).
  - destruct (Hw) as [_ _ _ Hh Hp _ _]. by apply (accounts_keep st0 ms w).
Qed.

Lemma run_accounts st0 ms : accounts st0 ms (run_writer st0 ms).
Proof.
  induction ms as [|m ms IH] using rev_ind.
  - split; simpl; try done; unfold in_hand; simpl; lia.
  - unfold Writer.run_writer. rewrite foldl_app. simpl. by apply move_accounts.
Qed.

(** C27: the writer accounts for every row. However the reactor's submissions,
    the thread's steps, the losses of the connection and the shutdown fall, the
    rows accepted are those of the batches that ended (written or dropped), of
    the batch in hand and of the queue, each once, and in that order unless a
    shutdown gave up on a batch in hand; the queue and the batches keep to their
    sizes; each refused row is counted; and if no commit went unconfirmed, the
    tables hold what writing the written batches once each, in order, leaves. *)
Theorem writer_accounts_for_every_row (st0 : store) (ms : list writer_move) :
  let w := run_writer st0 ms in
  aw_accepted w ≡ₚ settled_ops w ++ in_hand w ++ aw_queue w /\
  (aw_overtaken w = false -> aw_accepted w = settled_ops w ++ in_hand w ++ aw_queue w) /\
  ((0 < maxsize)%nat -> (length (aw_queue w) <= maxsize)%nat) /\ (length (in_hand w) <= batch_size)%nat /\
  aw_dropped w + Z.of_nat (length (aw_accepted w)) = Z.of_nat (length (List.filter is_submit ms)) /\
  (forallb confirmed ms = true -> aw_store w = written (aw_settled w) st0).
Proof. destruct (run_accounts st0 ms). by split_and!. Qed.

(** ** Shutting down *)

(** The thread's own steps left once the stop flag is up *)
Definition steps_left (p : @phase V) : nat :=
  match p with
  | Ended => 0
  | Idle => 1
  | Writing _ n => if (n =? 1)%nat then 3 else 2
  | Collecting [] _ => 2
  | Collecting (_ :: _) _ => 4
  | Waiting _ _ => 5
  end.

Lemma thread_steps_left w l : aw_stop w = true ->
  let w' := thread_step schema accepts batch_size batch_interval l w in
  aw_stop w' = true /\ (steps_left (aw_phase w') <= steps_left (aw_phase w) - 1)%nat.
Proof.
  intros Hs. unfold thread_step. destruct (aw_phase w) as [|b d|b d|b n|] eqn:Ep; simpl.
  - by rewrite Hs.
  - rewrite Hs, orb_true_r. simpl. split; [done|]. by destruct b.
  - destruct (aw_queue w); simpl; (split; [done|]).
    + destruct b; simpl; lia.
    + destruct (b ++ _) eqn:E; [by destruct b|]. lia.
  - unfold attempt_batch. destruct (_write_batch l b (aw_store w)) as [[[]|e] st']; simpl.
    + split; [done|]. destruct (n =? 1)%nat; lia.
    + destruct (n =? 1)%nat; simpl; (split; [done|lia]).
  - by rewrite Ep.
Qed.

Lemma move_steps_left w m : aw_stop w = true ->
  aw_stop (move w m) = true /\
  (steps_left (aw_phase (move w m)) <= steps_left (aw_phase w) - if is_thread m then 1 else 0)%nat.
Proof.
  intros Hs. destruct m as [o|l| |l|d]; simpl.
  - unfold submit. destruct (full maxsize w); simpl; (split; [done|lia]).
  - by apply thread_steps_left.
  - split; [done|lia].
  - rewrite Hs. unfold finish_flush. destruct (write_remaining _ _ _ _ _). simpl. split; [done|lia].
  - split; [done|lia].
Qed.

Lemma moves_steps_left ms w : aw_stop w = true ->
  aw_stop (foldl move w ms) = true /\
  (steps_left (aw_phase (foldl move w ms)) <= steps_left (aw_phase w) - length (List.filter is_thread ms))%nat.
Proof.
  revert w. induction ms as [|m ms IH]; intros w Hs; simpl; [split; [done|lia]|].
  destruct (move_steps_left w m Hs) as [Hs' Hl]. destruct (IH _ Hs') as [Hs'' Hl']. split; [done|].
  destruct (is_thread m); simpl in *; lia.
Qed.

Lemma steps_left_bound p : (steps_left p <= 5)%nat.
Proof. destruct p as [|[]| |? n|]; simpl; try lia. destruct (n =? 1)%nat; lia. Qed.

Lemma stopped_thread_ends st0 ms0 ms1 :
  (5 <= length (List.filter is_thread ms1))%nat ->
  let w := run_writer st0 (ms0 ++ Stop :: ms1) in aw_stop w = true /\ aw_phase w = Ended.
Proof.
  intros Hn w. subst w. unfold Writer.run_writer. rewrite foldl_app. simpl.
  set (w0 := request_stop _). destruct (moves_steps_left ms1 w0 eq_refl) as [Hs Hl]. split; [done|].
  pose proof (steps_left_bound (aw_phase w0)). destruct (aw_phase (foldl move w0 ms1)) as [|[]| |? n|]; simpl in *; try lia; [|done].
  destruct (n =? 1)%nat; lia.
Qed.

(** A shutdown comes to an end and settles everything. From any state, with
    whatever rows the reactor still submits and however the connection fares,
    the thread returns within five of its own steps after the stop flag; the
    final flush then leaves neither queue nor batch, and the batches that ended
    hold every row ever accepted, each once, in order of submission if no
    earlier flush overtook a batch. *)
Theorem shutdown_settles_everything (st0 : store) (ms0 ms1 : list writer_move) (l : link) :
  (5 <= length (List.filter is_thread ms1))%nat ->
  let w := run_writer st0 (ms0 ++ Stop :: ms1) in
  let w' := run_writer st0 (ms0 ++ Stop :: ms1 ++ [Flush l]) in
  aw_phase w = Ended /\ aw_queue w' = [] /\ in_hand w' = [] /\ aw_accepted w' ≡ₚ settled_ops w' /\
  (aw_overtaken w = false -> aw_accepted w' = settled_ops w').
Proof.
  intros Hn w w'. destruct (stopped_thread_ends st0 ms0 ms1 Hn) as [Hs Hp]. fold w in Hs, Hp.
  assert (w' = finish_flush schema accepts l w) as Hw'.
  { unfold w', Writer.run_writer. rewrite app_comm_cons, app_assoc, foldl_app. simpl. fold (run_writer st0 (ms0 ++ Stop :: ms1)). fold w. by rewrite Hs. }
  assert (in_hand w' = [] /\ aw_queue w' = [] /\ (aw_overtaken w = false -> aw_overtaken w' = false)) as (Hh & Hq & Ho).
  { rewrite Hw'. unfold finish_flush, in_hand. destruct (write_remaining _ _ _ _ _). simpl. rewrite Hp. split_and!; [done|done|]. by intros ->. }
  destruct (run_accounts st0 (ms0 ++ Stop :: ms1 ++ [Flush l])) as [Hops Hord _ _ _ _ _]. fold w' in Hops, Hord.
  rewrite Hh, Hq, !app_nil_r in *. split_and!; [done..|]. intros Hw. by apply Hord, Ho.
Qed.
End runs.

(** ** A demonstration *)

(** Three rows, a lost connection, one more row, a shutdown *)
Definition demo_moves : list (@writer_move Z) :=
  [Submit (deal 7 100); Submit (demo_event 1); Submit (deal 7 101); Thread Up; Thread Up; Thread Up; Thread Up; Thread Up; Thread Up; Thread Up;
   Thread Up; Thread Down; Submit (demo_event 2); Thread Up].
Abbreviation demo_run := (run_writer demo_schema demo_accepts 3 3 1000 empty_store).

Lemma shutdown_settles_everything_witness :
  let w' := demo_run (demo_moves ++ Stop :: replicate 5 (Thread Up) ++ [Flush Up]) in
  aw_accepted w' = settled_ops w' /\ aw_queue w' = [].
Proof.
  destruct (shutdown_settles_everything demo_schema demo_accepts 3 3 1000 empty_store demo_moves (replicate 5 (Thread Up)) Up)
    as (_ & Hq & _ & _ & Ho); [vm_compute; lia|].
  split; [apply Ho; vm_compute; reflexivity|exact Hq].
Defined.

(** [_write_with_retry] says that writing a batch again cannot write a row twice,
    because a batch is one transaction.  The commit may go through and its
    confirmation be lost: a table without a key then has the rows twice. *)
Example retry_can_double_write :
  let ms l := Submit (demo_event 1) :: replicate 3 (Thread Up) ++ [Tick 1000; Thread Up; Thread l; Thread Up] in
  length (default [] (st_rows (aw_store (demo_run (ms Up))) !! "events")) = 1%nat /\
  length (default [] (st_rows (aw_store (demo_run (ms CommitUnconfirmed))) !! "events")) = 2%nat /\
  (aw_settled (demo_run (ms CommitUnconfirmed))).*2 = [true].
Proof. vm_compute. done. Qed.
