(* ===== verification/Client.v ===== *)
(** * The broker connection: [ctrader/client.py] and [send_for_account]

    One [CTraderClient]: the application and account authorizations it makes on
    each connection, the loop that re-authorizes every account after a
    reconnect, and the hand-over of trade requests, with [main.py]'s gate in
    front of it.

    The vendored SDK, the socket and the broker are not part of the source: they
    are the events.  What the code relies on is in the shape of the events: a
    request rides the connection that was up when it was sent, or else the next
    one, and is answered on that connection or not at all ([request]'s
    [rq_conn]); its deferred fires once, with the answer or with an error; a
    deferred of [whenConnected] fires at once on a connection, else when the next
    attempt to connect succeeds or fails.  [transport] says what writing a
    message does.  The database row of an account is that of [Db]. *)

From S2P Require Import Prelude PyStr PyFloat PyRepr Models Db Repo.

Definition HEARTBEAT_INTERVAL_S : Z := 8.
Definition SEND_HANDOFF_TIMEOUT_S : Z := 2.

(** ** Trust *)

(** [os.environ] by variable; the contents of a CA file are read elsewhere. *)
Inductive tls_options := NoVerification | CustomTrust (ca_file : string) | PlatformTrust.

Definition _env_flag (environ : string -> option string) (name : string) : bool :=
  bool_decide (str_lower (str_strip (default "" (environ name))) ∈ ["1"; "true"; "yes"; "on"]).

Definition client_tls_options (environ : string -> option string) : tls_options :=
  if _env_flag environ "CTRADER_TLS_INSECURE" then NoVerification
  else let ca_file := str_strip (default "" (environ "CTRADER_TLS_CA_FILE")) in
       if String.eqb ca_file "" then PlatformTrust else CustomTrust ca_file.

(** Nothing but the insecure flag turns the verification off. *)
Lemma verification_is_the_default environ :
  client_tls_options environ = NoVerification -> exists v, environ "CTRADER_TLS_INSECURE" = Some v /\ v <> "".
Proof.
  unfold client_tls_options, _env_flag. destruct (bool_decide _) eqn:E; [|by case_match]. intros _. apply bool_decide_eq_true in E.
  destruct (environ "CTRADER_TLS_INSECURE") as [v|]; [exists v; split; [done|]; intros ->|]; simpl in E; by repeat (apply elem_of_cons in E as [E|E]; [done|]); apply elem_of_nil in E.
Qed.

(** ** Requests *)

(** What [Protobuf.extract] makes of an answer: it raises, it is one of the two
    error messages, or anything else *)
Inductive answer := Undecodable | ErrorAnswer (errorCode : string) | OtherAnswer.

(** What is parked on the request's deferred: nothing; the [_reauth_all] of a
    connection with the accounts still to come; [_authorize_one] *)
Inductive waiter := NoWaiter | ReauthLoop (conn : nat) (rest : list Z) | AuthorizeOne.

Inductive frame := AppAuth | AccountAuth (account_id : Z) (accessToken : string) (w : waiter) | Heartbeat.

Record request := { rq_id : nat; rq_frame : frame; rq_conn : option nat }.

(** A [send_no_reply] that waits for a connection; [settled] as in the code *)
Record handoff := { ho_id : nat; ho_account : Z; ho_settled : bool }.

(** What became of a trade request, as the dispatcher sees it *)
Inductive outcome := HandedOver | NotAttempted.

(** Writing a message: it is written; or the call raises, and the message may
    have been written all the same. *)
Inductive write_result := Written | WriteRaised (reached : bool).

Record CTraderClient := {
  cl_accounts : list (Z * string);
  cl_authed : gset Z;
  cl_auth_errors : gmap Z string;
  cl_ready : bool;
  cl_heartbeat : bool;
  cl_conn : option nat;
  cl_conns : nat;
  cl_requests : list request;
  cl_handoffs : list handoff;
  cl_next : nat;
  cl_db : db;
  cl_wire : list (nat * nat * Z);
  cl_granted : list (nat * Z);
  cl_asked : list (nat * Z);
  cl_outcomes : list (nat * outcome)
}.

Definition set_accounts (x : list (Z * string)) (c : CTraderClient) : CTraderClient :=
  {| cl_accounts := x; cl_authed := cl_authed c; cl_auth_errors := cl_auth_errors c; cl_ready := cl_ready c; cl_heartbeat := cl_heartbeat c;
     cl_conn := cl_conn c; cl_conns := cl_conns c; cl_requests := cl_requests c; cl_handoffs := cl_handoffs c; cl_next := cl_next c;
     cl_db := cl_db c; cl_wire := cl_wire c; cl_granted := cl_granted c; cl_asked := cl_asked c; cl_outcomes := cl_outcomes c |}.
Definition set_authed (x : gset Z) (c : CTraderClient) : CTraderClient :=
  {| cl_accounts := cl_accounts c; cl_authed := x; cl_auth_errors := cl_auth_errors c; cl_ready := cl_ready c; cl_heartbeat := cl_heartbeat c;
     cl_conn := cl_conn c; cl_conns := cl_conns c; cl_requests := cl_requests c; cl_handoffs := cl_handoffs c; cl_next := cl_next c;
     cl_db := cl_db c; cl_wire := cl_wire c; cl_granted := cl_granted c; cl_asked := cl_asked c; cl_outcomes := cl_outcomes c |}.
Definition set_auth_errors (x : gmap Z string) (c : CTraderClient) : CTraderClient :=
  {| cl_accounts := cl_accounts c; cl_authed := cl_authed c; cl_auth_errors := x; cl_ready := cl_ready c; cl_heartbeat := cl_heartbeat c;
     cl_conn := cl_conn c; cl_conns := cl_conns c; cl_requests := cl_requests c; cl_handoffs := cl_handoffs c; cl_next := cl_next c;
     cl_db := cl_db c; cl_wire := cl_wire c; cl_granted := cl_granted c; cl_asked := cl_asked c; cl_outcomes := cl_outcomes c |}.
Definition set_flags (ready heartbeat : bool) (c : CTraderClient) : CTraderClient :=
  {| cl_accounts := cl_accounts c; cl_authed := cl_authed c; cl_auth_errors := cl_auth_errors c; cl_ready := ready; cl_heartbeat := heartbeat;
     cl_conn := cl_conn c; cl_conns := cl_conns c; cl_requests := cl_requests c; cl_handoffs := cl_handoffs c; cl_next := cl_next c;
     cl_db := cl_db c; cl_wire := cl_wire c; cl_granted := cl_granted c; cl_asked := cl_asked c; cl_outcomes := cl_outcomes c |}.
Definition set_socket (conn : option nat) (conns : nat) (c : CTraderClient) : CTraderClient :=
  {| cl_accounts := cl_accounts c; cl_authed := cl_authed c; cl_auth_errors := cl_auth_errors c; cl_ready := cl_ready c; cl_heartbeat := cl_heartbeat c;
     cl_conn := conn; cl_conns := conns; cl_requests := cl_requests c; cl_handoffs := cl_handoffs c; cl_next := cl_next c;
     cl_db := cl_db c; cl_wire := cl_wire c; cl_granted := cl_granted c; cl_asked := cl_asked c; cl_outcomes := cl_outcomes c |}.
Definition set_requests (x : list request) (next : nat) (c : CTraderClient) : CTraderClient :=
  {| cl_accounts := cl_accounts c; cl_authed := cl_authed c; cl_auth_errors := cl_auth_errors c; cl_ready := cl_ready c; cl_heartbeat := cl_heartbeat c;
     cl_conn := cl_conn c; cl_conns := cl_conns c; cl_requests := x; cl_handoffs := cl_handoffs c; cl_next := next;
     cl_db := cl_db c; cl_wire := cl_wire c; cl_granted := cl_granted c; cl_asked := cl_asked c; cl_outcomes := cl_outcomes c |}.
Definition set_handoffs (x : list handoff) (next : nat) (c : CTraderClient) : CTraderClient :=
  {| cl_accounts := cl_accounts c; cl_authed := cl_authed c; cl_auth_errors := cl_auth_errors c; cl_ready := cl_ready c; cl_heartbeat := cl_heartbeat c;
     cl_conn := cl_conn c; cl_conns := cl_conns c; cl_requests := cl_requests c; cl_handoffs := x; cl_next := next;
     cl_db := cl_db c; cl_wire := cl_wire c; cl_granted := cl_granted c; cl_asked := cl_asked c; cl_outcomes := cl_outcomes c |}.
Definition set_client_db (x : db) (c : CTraderClient) : CTraderClient :=
  {| cl_accounts := cl_accounts c; cl_authed := cl_authed c; cl_auth_errors := cl_auth_errors c; cl_ready := cl_ready c; cl_heartbeat := cl_heartbeat c;
     cl_conn := cl_conn c; cl_conns := cl_conns c; cl_requests := cl_requests c; cl_handoffs := cl_handoffs c; cl_next := cl_next c;
     cl_db := x; cl_wire := cl_wire c; cl_granted := cl_granted c; cl_asked := cl_asked c; cl_outcomes := cl_outcomes c |}.
Definition record_ghosts (wire : list (nat * nat * Z)) (granted asked : list (nat * Z)) (outcomes : list (nat * outcome)) (c : CTraderClient) : CTraderClient :=
  {| cl_accounts := cl_accounts c; cl_authed := cl_authed c; cl_auth_errors := cl_auth_errors c; cl_ready := cl_ready c; cl_heartbeat := cl_heartbeat c;
     cl_conn := cl_conn c; cl_conns := cl_conns c; cl_requests := cl_requests c; cl_handoffs := cl_handoffs c; cl_next := cl_next c;
     cl_db := cl_db c; cl_wire := cl_wire c ++ wire; cl_granted := cl_granted c ++ granted; cl_asked := cl_asked c ++ asked;
     cl_outcomes := cl_outcomes c ++ outcomes |}.

Definition client_init (s : db) : CTraderClient :=
  {| cl_accounts := []; cl_authed := ∅; cl_auth_errors := ∅; cl_ready := false; cl_heartbeat := false; cl_conn := None; cl_conns := 0;
     cl_requests := []; cl_handoffs := []; cl_next := 0; cl_db := s; cl_wire := []; cl_granted := []; cl_asked := []; cl_outcomes := [] |}.

(** ** The registry *)

Definition deauthorize_account (account_id : Z) (c : CTraderClient) : CTraderClient :=
  set_auth_errors (delete account_id (cl_auth_errors c)) (set_authed (cl_authed c ∖ {[account_id]})
    (set_accounts (od_pop account_id (cl_accounts c)) c)).
Definition account_auth_error (account_id : Z) (c : CTraderClient) : option string := cl_auth_errors c !! account_id.
Definition is_account_authed (account_id : Z) (c : CTraderClient) : bool := bool_decide (account_id ∈ cl_authed c).

(** ** Sending and its answers *)

(** [self._sdk.send(...)] *)
Definition sdk_send (f : frame) (c : CTraderClient) : CTraderClient :=
  set_requests (cl_requests c ++ [{| rq_id := cl_next c; rq_frame := f; rq_conn := cl_conn c |}]) (S (cl_next c)) c.

(** [self._accounts[account_id]] raises before anything is sent. *)
Definition _send_account_auth (account_id : Z) (w : waiter) (c : CTraderClient) : result CTraderClient :=
  match od_get account_id (cl_accounts c) with
  | Some token =>
      Ok (record_ghosts [] [] (match w with ReauthLoop n _ => [(n, account_id)] | _ => [] end) []
            (sdk_send (AccountAuth account_id token w) c))
  | None => Raise (KeyError (pretty account_id))
  end.

Definition authed_by (account_id : Z) (c : CTraderClient) : CTraderClient :=
  set_auth_errors (delete account_id (cl_auth_errors c)) (set_authed ({[account_id]} ∪ cl_authed c) c).

(** [granted]: the broker said yes on that connection. *)
Definition _on_account_auth_response (response : answer) (conn : nat) (account_id : Z) (c : CTraderClient) : CTraderClient :=
  match response with
  | Undecodable => c
  | ErrorAnswer code =>
      if String.eqb code "ALREADY_LOGGED_IN" then record_ghosts [] [(conn, account_id)] [] [] (authed_by account_id c)
      else set_auth_errors (<[account_id := code]> (cl_auth_errors c)) c
  | OtherAnswer => record_ghosts [] [(conn, account_id)] [] [] (authed_by account_id c)
  end.

Definition _fire_ready (c : CTraderClient) : CTraderClient := set_flags true (cl_heartbeat c) c.

(** [_reauth_all] up to its next [yield]: an error in it ends it, is logged by
    the errback, and [ready] fires all the same. *)
Definition _reauth_all (conn : nat) (accounts : list Z) (c : CTraderClient) : CTraderClient :=
  match accounts with
  | [] => _fire_ready c
  | account_id :: rest =>
      match _send_account_auth account_id (ReauthLoop conn rest) c with
      | Ok c' => c'
      | Raise _ => _fire_ready c
      end
  end.

(** The answer's content plays no part. *)
Definition _on_app_authed (conn : nat) (c : CTraderClient) : CTraderClient :=
  let c := set_flags (cl_ready c) true c in _reauth_all conn (cl_accounts c).*1 c.

(** [_authorize_one] after its [yield]: the deferred never fails, for
    [_send_account_auth]'s errback swallows. *)
Definition authorize_one_done (account_id : Z) (c : CTraderClient) : CTraderClient :=
  match account_auth_error account_id c with
  | Some reason =>
      set_client_db (set_account_status account_id StDegraded (JStr ("broker refused authorization: " +:+ reason)) (cl_db c)).2 c
  | None => set_client_db (clear_degraded account_id (cl_db c)).2 c
  end.

Definition wake (w : waiter) (account_id : Z) (c : CTraderClient) : CTraderClient :=
  match w with
  | NoWaiter => c
  | ReauthLoop conn rest => _reauth_all conn rest c
  | AuthorizeOne => authorize_one_done account_id c
  end.

Definition take_request (id : nat) (c : CTraderClient) : option (request * CTraderClient) :=
  match List.find (fun r => (rq_id r =? id)%nat) (cl_requests c) with
  | Some r => Some (r, set_requests (List.filter (fun r => negb (rq_id r =? id)%nat) (cl_requests c)) (cl_next c) c)
  | None => None
  end.

(** An answer arrives on the current connection: the request's callbacks run. *)
Definition answered (id : nat) (a : answer) (c : CTraderClient) : CTraderClient :=
  match take_request id c with
  | Some (r, c') =>
      match cl_conn c with
      | Some n =>
          if bool_decide (rq_conn r = Some n)
          then match rq_frame r with
               | AppAuth => _on_app_authed n c'
               | AccountAuth account_id _ w => wake w account_id (_on_account_auth_response a n account_id c')
               | Heartbeat => c'
               end
          else c
      | None => c
      end
  | None => c
  end.

(** The request's deferred fails (its time-out, or no connection): the errback
    logs, and whoever waits goes on. *)
Definition expired (id : nat) (c : CTraderClient) : CTraderClient :=
  match take_request id c with
  | Some (r, c') => match rq_frame r with AccountAuth account_id _ w => wake w account_id c' | _ => c' end
  | None => c
  end.

Definition _heartbeat (c : CTraderClient) : CTraderClient := if cl_heartbeat c then sdk_send Heartbeat c else c.

(** [_authorize_one]: [token_store.get] may raise. *)
Definition _authorize_one (account_id : Z) (token : result string) (c : CTraderClient) : CTraderClient :=
  match token with
  | Ok token =>
      match _send_account_auth account_id AuthorizeOne (set_accounts (od_set account_id token (cl_accounts c)) c) with
      | Ok c' => c'
      | Raise _ => c
      end
  | Raise e => set_client_db (set_account_status account_id StDegraded (JExn e) (cl_db c)).2 c
  end.

(** ** Trade requests *)

Section trades.
Context (transport : nat -> write_result).

(** [send_no_reply]'s [_on_connected] for one waiting call *)
Definition hand_over (conn : nat) (h : handoff) (c : CTraderClient) : CTraderClient :=
  if ho_settled h then c
  else match transport (ho_id h) with
       | Written => record_ghosts [(conn, ho_id h, ho_account h)] [] [] [(ho_id h, HandedOver)] c
       | WriteRaised reached =>
           record_ghosts (if reached then [(conn, ho_id h, ho_account h)] else []) [] [] [(ho_id h, NotAttempted)] c
       end.

(** [whenConnected] fires at once on a connection; the timer is then cancelled. *)
Definition send_no_reply (account_id : Z) (c : CTraderClient) : CTraderClient :=
  let h := {| ho_id := cl_next c; ho_account := account_id; ho_settled := false |} in
  match cl_conn c with
  | Some n => hand_over n h (set_handoffs (cl_handoffs c) (S (cl_next c)) c)
  | None => set_handoffs (cl_handoffs c ++ [h]) (S (cl_next c)) c
  end.

(** [_on_timeout]: the wait is reported as failed; the entry stays with the SDK. *)
Definition handoff_timeout (id : nat) (c : CTraderClient) : CTraderClient :=
  match List.find (fun h => (ho_id h =? id)%nat && negb (ho_settled h)) (cl_handoffs c) with
  | Some h =>
      record_ghosts [] [] [] [(id, NotAttempted)]
        (set_handoffs ((fun h => if (ho_id h =? id)%nat then {| ho_id := id; ho_account := ho_account h; ho_settled := true |} else h)
           <$> cl_handoffs c) (cl_next c) c)
  | None => c
  end.

(** The attempt to connect failed: every waiting deferred fails. *)
Definition connect_failed (c : CTraderClient) : CTraderClient :=
  record_ghosts [] [] [] ((fun h => (ho_id h, NotAttempted)) <$> List.filter (fun h => negb (ho_settled h)) (cl_handoffs c))
    (set_handoffs [] (cl_next c) c).

Definition send_gate (account_id : Z) (c : CTraderClient) : bool :=
  cl_ready c && od_mem account_id (cl_accounts c) && is_account_authed account_id c.

(** [send_for_account], for an account whose client this is *)
Definition send_for_account (account_id : Z) (c : CTraderClient) : CTraderClient :=
  if send_gate account_id c then send_no_reply account_id c
  else record_ghosts [] [] [] [(cl_next c, NotAttempted)] (set_handoffs (cl_handoffs c) (S (cl_next c)) c).

(** ** The socket *)

(** A connection is made: what waits for one goes on, and the application
    authorizes itself. *)
Definition connected (c : CTraderClient) : CTraderClient :=
  match cl_conn c with
  | Some _ => c
  | None =>
      let n := cl_conns c in
      let c1 := set_socket (Some n) (S n) c in
      let c2 := set_requests ((fun r => match rq_conn r with None => {| rq_id := rq_id r; rq_frame := rq_frame r; rq_conn := Some n |} | _ => r end)
                  <$> cl_requests c1) (cl_next c1) c1 in
      let c3 := foldl (fun c h => hand_over n h c) (set_handoffs [] (cl_next c2) c2) (cl_handoffs c2) in
      sdk_send AppAuth c3
  end.

Definition _on_disconnected (c : CTraderClient) : CTraderClient :=
  set_authed ∅ (set_flags (cl_ready c) false (set_socket None (cl_conns c) c)).

(** ** Runs *)

Inductive client_event :=
  | Connected | Disconnected | ConnectFailed
  | Answered (id : nat) (a : answer) | Expired (id : nat)
  | Authorize (account_id : Z) (token : result string) | Deauthorize (account_id : Z)
  | Beat
  | Trade (account_id : Z) | SendNoReply (account_id : Z) | HandoffTimeout (id : nat).

Definition client_step (c : CTraderClient) (e : client_event) : CTraderClient :=
  match e with
  | Connected => connected c
  | Disconnected => match cl_conn c with Some _ => _on_disconnected c | None => c end
  | ConnectFailed => match cl_conn c with Some _ => c | None => connect_failed c end
  | Answered id a => answered id a c
  | Expired id => expired id c
  | Authorize account_id token => _authorize_one account_id token c
  | Deauthorize account_id => deauthorize_account account_id c
  | Beat => _heartbeat c
  | Trade account_id => send_for_account account_id c
  | SendNoReply account_id => send_no_reply account_id c
  | HandoffTimeout id => handoff_timeout id c
  end.
Definition run_client (s : db) (es : list client_event) : CTraderClient := foldl client_step (client_init s) es.
End trades.
