(* ===== verification/ClientFacts.v ===== *)
(** * What the broker connection promises

    A trade request goes to the wire only on a connection on which the broker
    has authorized its account; what is reported as not attempted was not
    written; and after a reconnect every registered account is asked for again,
    one at a time, whatever else happens. *)

From S2P Require Import Prelude PyStr PyDecimal Models Db Repo Client.

(** ** What a step leaves alone *)

(** Authorizations, socket, trade requests and their outcomes are the same. *)
Record same_session (c c' : CTraderClient) : Prop := {
  ss_authed : cl_authed c' = cl_authed c;
  ss_conn : cl_conn c' = cl_conn c;
  ss_granted : cl_granted c' = cl_granted c;
  ss_handoffs : cl_handoffs c' = cl_handoffs c;
  ss_next : (cl_next c <= cl_next c')%nat;
  ss_wire : cl_wire c' = cl_wire c;
  ss_outcomes : cl_outcomes c' = cl_outcomes c
}.
Lemma same_session_refl c : same_session c c.
Proof. by split. Qed.
Lemma same_session_trans c1 c2 c3 : same_session c1 c2 -> same_session c2 c3 -> same_session c1 c3.
Proof. intros [] []. split; try congruence. lia. Qed.
#[export] Hint Resolve same_session_refl : core.

Ltac quiet_step := split; simpl; rewrite ?app_nil_r; try done; try lia.

Lemma sdk_send_session f c : same_session c (sdk_send f c).
Proof. quiet_step. Qed.
Lemma account_auth_session a w c c' : _send_account_auth a w c = Ok c' -> same_session c c'.
Proof. unfold _send_account_auth. destruct (od_get a (cl_accounts c)); [|done]. intros [= <-]. quiet_step. Qed.
Lemma reauth_session n l c : same_session c (_reauth_all n l c).
Proof.
  destruct l as [|a rest]; [quiet_step|]. simpl. destruct (_send_account_auth _ _ _) eqn:E; [by eapply account_auth_session|quiet_step].
Qed.
Lemma authorize_done_session a c : same_session c (authorize_one_done a c).
Proof. unfold authorize_one_done. case_match; quiet_step. Qed.
Lemma wake_session w a c : same_session c (wake w a c).
Proof. destruct w; [done|apply reauth_session|apply authorize_done_session]. Qed.
Lemma app_authed_session n c : same_session c (_on_app_authed n c).
Proof. unfold _on_app_authed. eapply same_session_trans; [|apply reauth_session]. quiet_step. Qed.
Lemma authorize_one_session a token c : same_session c (_authorize_one a token c).
Proof.
  unfold _authorize_one. destruct token as [token|e]; [|quiet_step]. destruct (_send_account_auth _ _ _) eqn:E; [|done].
  eapply same_session_trans; [|by eapply account_auth_session]. quiet_step.
Qed.
Lemma expired_session id c : same_session c (expired id c).
Proof.
  unfold expired, take_request. destruct (List.find _ _) as [r|]; [|done]. destruct (rq_frame r) as [|acc token w|]; [quiet_step| |quiet_step].
  eapply same_session_trans; [|apply wake_session]. quiet_step.
Qed.

(** An answer may grant an account on the current connection. *)
Lemma answered_session id a c :
  same_session c (answered id a c) \/
  exists n acc, cl_conn c = Some n /\ cl_authed (answered id a c) = {[acc]} ∪ cl_authed c /\
    cl_granted (answered id a c) = cl_granted c ++ [(n, acc)] /\ cl_conn (answered id a c) = cl_conn c /\
    cl_handoffs (answered id a c) = cl_handoffs c /\ (cl_next c <= cl_next (answered id a c))%nat /\
    cl_wire (answered id a c) = cl_wire c /\ cl_outcomes (answered id a c) = cl_outcomes c.
Proof.
  unfold answered, take_request. destruct (List.find _ _) as [r|]; [|by left]. destruct (cl_conn c) as [n|] eqn:En; [|by left].
  case_bool_decide; [|by left]. destruct (rq_frame r) as [|acc token w|]; [| |left; quiet_step].
  - left. eapply same_session_trans; [|apply app_authed_session]. quiet_step.
  - set (c1 := _on_account_auth_response _ _ _ _). destruct (wake_session w acc c1) as [Ha Hc Hg Hh Hn Hw Ho].
    rewrite Ha, Hc, Hg, Hh, Hw, Ho. clear Ha Hc Hg Hh Hw Ho.
    assert (same_session c c1 \/ cl_authed c1 = {[acc]} ∪ cl_authed c /\ cl_granted c1 = cl_granted c ++ [(n, acc)] /\ cl_conn c1 = cl_conn c /\
      cl_handoffs c1 = cl_handoffs c /\ cl_next c1 = cl_next c /\ cl_wire c1 = cl_wire c /\ cl_outcomes c1 = cl_outcomes c) as Hc1.
    { unfold c1, _on_account_auth_response. destruct a as [|code|]; [left; quiet_step| |right; simpl; by rewrite !app_nil_r].
      destruct (String.eqb code _); [right; simpl; by rewrite !app_nil_r|left; quiet_step]. }
    destruct Hc1 as [Hs|(? & ? & ? & ? & Hn1 & ? & ?)].
    + left. eapply same_session_trans; [exact Hs|]. apply wake_session.
    + right. exists n, acc. rewrite En in *. split_and!; try done. lia.
Qed.

(** ** Authorized means granted *)

(** Every authorized account was granted on the connection that is up. *)
Definition authed_granted (c : CTraderClient) : Prop :=
  forall a, a ∈ cl_authed c -> exists n, cl_conn c = Some n /\ (n, a) ∈ cl_granted c.

Lemma session_granted c c' : same_session c c' -> authed_granted c -> authed_granted c'.
Proof. intros [Ha Hc Hg _ _ _ _] Hi a. rewrite Ha, Hc, Hg. apply Hi. Qed.

Lemma answered_granted id a c : authed_granted c -> authed_granted (answered id a c).
Proof.
  intros Hi. destruct (answered_session id a c) as [Hs|(n & acc & Hn & Ha & Hg & Hc & _)]; [by eapply session_granted|].
  intros x. rewrite Ha, Hg, Hc, Hn. intros [->%elem_of_singleton|Hx]%elem_of_union.
  - exists n. split; [done|]. apply elem_of_app. right. by apply list_elem_of_singleton.
  - destruct (Hi x Hx) as (m & Hm & Hin). assert (m = n) as -> by congruence. exists n. split; [done|]. apply elem_of_app. by left.
Qed.

Section facts.
Context (transport : nat -> write_result).
Abbreviation step := (client_step transport).
Abbreviation run := (run_client transport).

(** What is written, when a waiting call gets its connection *)
Lemma hand_over_parts n h c :
  let c' := hand_over transport n h c in
  cl_authed c' = cl_authed c /\ cl_conn c' = cl_conn c /\ cl_granted c' = cl_granted c /\ cl_handoffs c' = cl_handoffs c /\
  cl_next c' = cl_next c /\ cl_conns c' = cl_conns c /\ cl_requests c' = cl_requests c /\ cl_accounts c' = cl_accounts c /\
  cl_asked c' = cl_asked c /\ cl_ready c' = cl_ready c.
Proof. unfold hand_over. destruct (ho_settled h), (transport (ho_id h)); simpl; by rewrite ?app_nil_r. Qed.

Lemma hand_over_wire n h c x : x ∈ cl_wire (hand_over transport n h c) -> x ∈ cl_wire c \/ x = (n, ho_id h, ho_account h).
Proof.
  unfold hand_over. destruct (ho_settled h); [by left|]. destruct (transport (ho_id h)) as [|[]]; simpl; rewrite ?app_nil_r; set_solver.
Qed.

Lemma hand_overs_parts n hs c :
  let c' := foldl (fun c h => hand_over transport n h c) c hs in
  cl_authed c' = cl_authed c /\ cl_conn c' = cl_conn c /\ cl_granted c' = cl_granted c /\ cl_handoffs c' = cl_handoffs c /\
  cl_next c' = cl_next c /\ cl_conns c' = cl_conns c /\ cl_requests c' = cl_requests c /\ cl_accounts c' = cl_accounts c /\
  cl_asked c' = cl_asked c /\ cl_ready c' = cl_ready c.
Proof.
  revert c. induction hs as [|h hs IH]; intros c; [done|]. simpl. destruct (hand_over_parts n h c) as (? & ? & ? & ? & ? & ? & ? & ? & ? & ?).
  destruct (IH (hand_over transport n h c)) as (? & ? & ? & ? & ? & ? & ? & ? & ? & ?). split_and!; congruence.
Qed.

(** Trades are sent through the gate only. *)
Definition gated (e : client_event) : bool := match e with SendNoReply _ => false | _ => true end.

Record trade_safe (c : CTraderClient) : Prop := {
  ts_authed : authed_granted c;
  ts_waiting : cl_handoffs c = [];
  ts_wire : forall n id a, (n, id, a) ∈ cl_wire c -> (n, a) ∈ cl_granted c
}.

Lemma session_trade_safe c c' : same_session c c' -> trade_safe c -> trade_safe c'.
Proof. intros Hs [Ha Hh Hw]. pose proof Hs as [_ _ Hg Hh' _ Hw' _]. split; [by eapply session_granted|congruence|]. intros n id a. rewrite Hw', Hg. apply Hw. Qed.

Lemma trade_gate_safe a c : trade_safe c -> trade_safe (send_for_account transport a c).
Proof.
  intros [Ha Hh Hw]. unfold send_for_account. destruct (send_gate a c) eqn:Eg.
  - apply andb_prop in Eg as [_ Ea]. apply bool_decide_eq_true in Ea. destruct (Ha a Ea) as (n & Hn & Hg). unfold send_no_reply. rewrite Hn.
    set (h := {| ho_id := _; ho_account := _; ho_settled := _ |}).
    match goal with |- context [hand_over _ _ h ?c] => set (c1 := c) end.
    destruct (hand_over_parts n h c1) as (Pa & Pc & Pg & Ph & _). split.
    + intros x. rewrite Pa, Pc, Pg. apply Ha.
    + by rewrite Ph.
    + intros m id x Hin. rewrite Pg. apply hand_over_wire in Hin as [Hin|[= -> -> ->]]; [by eapply Hw|done].
  - by split; unfold authed_granted; simpl; rewrite ?app_nil_r.
Qed.

Lemma trade_safe_step c e : gated e = true -> trade_safe c -> trade_safe (step c e).
Proof.
  intros Hgate Hi. pose proof Hi as [Ha Hh Hw]. destruct e as [| | |id ans|id|a token|a| |a|a|id]; simpl; try done.
  - unfold connected. destruct (cl_conn c) eqn:En; [done|]. cbn [cl_handoffs set_requests set_socket]. rewrite Hh. split.
    + intros x Hx. simpl in Hx. destruct (Ha x Hx) as (n & Hn & _). congruence.
    + done.
    + exact Hw.
  - destruct (cl_conn c); [|done]. split; [|done|exact Hw]. intros x Hx. by apply elem_of_empty in Hx.
  - destruct (cl_conn c) eqn:En; [done|]. unfold connect_failed. rewrite Hh. split; unfold authed_granted; simpl; rewrite ?app_nil_r; [exact Ha|done|exact Hw].
  - destruct (answered_session id ans c) as [Hs|(n & acc & Hn & Ea & Eg & Ec & Eh & _ & Ew & _)]; [by eapply session_trade_safe|].
    split; [by apply answered_granted|congruence|]. intros m i x. rewrite Ew, Eg. intros Hin. apply elem_of_app. left. by eapply Hw.
  - eapply session_trade_safe; [apply expired_session|done].
  - eapply session_trade_safe; [apply authorize_one_session|done].
  - split; [|done|exact Hw]. intros x Hx. simpl in Hx. apply Ha. set_solver.
  - unfold _heartbeat. destruct (cl_heartbeat c); [|done]. eapply session_trade_safe; [apply sdk_send_session|done].
  - by apply trade_gate_safe.
  - unfold handoff_timeout. by rewrite Hh.
Qed.

Lemma run_trade_safe s es : forallb gated es = true -> trade_safe (run s es).
Proof.
  induction es as [|e es IH] using rev_ind; intros Hg.
  - split; [by intros a Ha%elem_of_empty|done|by intros n id a Hin%elem_of_nil].
  - rewrite forallb_app in Hg. apply andb_prop in Hg as [Hg He]. simpl in He. rewrite andb_true_r in He.
    unfold run_client. rewrite foldl_app. simpl. by apply trade_safe_step, IH.
Qed.

(** C10: no trade reaches a connection the broker has not let the account into.
    However connections come and go, answers and time-outs fall, accounts are
    authorized and removed: an account counts as authorized only if the broker
    granted it on the connection that is up, a trade request that passes the
    gate is handed over at once and never waits for a later connection, and
    every request on the wire is on a connection on which the broker granted
    its account. *)
Theorem trades_only_where_granted (s : db) (es : list client_event) :
  forallb gated es = true ->
  let c := run_client transport s es in
  (forall a, is_account_authed a c = true -> exists n, cl_conn c = Some n /\ (n, a) ∈ cl_granted c) /\
  cl_handoffs c = [] /\
  (forall n id a, (n, id, a) ∈ cl_wire c -> (n, a) ∈ cl_granted c).
Proof.
  intros Hg c. destruct (run_trade_safe s es Hg) as [Ha Hh Hw]. split_and!; [|done|done]. intros a Hin%bool_decide_eq_true. by apply Ha.
Qed.

(** ** Outcomes *)

Definition unsettled (hs : list handoff) : list nat := ho_id <$> List.filter (fun h => negb (ho_settled h)) hs.

(** Each call has one outcome at most; what it says of the wire is true; [hs] are
    the calls that wait. *)
Record outcomes_true (hs : list handoff) (c : CTraderClient) : Prop := {
  ot_once : NoDup (cl_outcomes c).*1;
  ot_open : NoDup (unsettled hs);
  ot_apart : forall id, id ∈ unsettled hs -> id ∉ (cl_outcomes c).*1;
  ot_old : forall id, id ∈ (cl_outcomes c).*1 \/ id ∈ unsettled hs -> (id < cl_next c)%nat;
  ot_wire_once : NoDup (cl_wire c).*1.*2;
  ot_wire : forall n id a, (n, id, a) ∈ cl_wire c ->
    (id, HandedOver) ∈ cl_outcomes c \/ ((id, NotAttempted) ∈ cl_outcomes c /\ transport id = WriteRaised true);
  ot_handed : forall id, (id, HandedOver) ∈ cl_outcomes c -> id ∈ (cl_wire c).*1.*2
}.

Lemma session_outcomes hs c c' : same_session c c' -> outcomes_true hs c -> outcomes_true hs c'.
Proof.
  intros [_ _ _ _ Hn Hw Ho] [H1 H2 H3 H4 H5 H6 H7]. split; rewrite ?Hw, ?Ho; try done. intros id Hid. specialize (H4 id Hid). lia.
Qed.

Lemma elem_fst {A B} (x : A) (y : B) l : (x, y) ∈ l -> x ∈ l.*1.
Proof. intros Hin. apply list_elem_of_fmap. by exists (x, y). Qed.

(** A fresh call that settles with an outcome that is true *)
Lemma outcome_new hs c c' id a o wire :
  outcomes_true hs c -> id ∉ (cl_outcomes c).*1 -> id ∉ unsettled hs -> (id < cl_next c')%nat -> (cl_next c <= cl_next c')%nat ->
  cl_outcomes c' = cl_outcomes c ++ [(id, o)] -> cl_wire c' = cl_wire c ++ wire ->
  (exists n, wire = [(n, id, a)] /\ (o = HandedOver \/ o = NotAttempted /\ transport id = WriteRaised true)) \/ wire = [] /\ o = NotAttempted ->
  outcomes_true hs c'.
Proof.
  intros [H1 H2 H3 H4 H5 H6 H7] Hid Hopen Hlt Hnext Ho Hw Hwire. split; rewrite ?Ho, ?Hw.
  - rewrite fmap_app. apply NoDup_app. split_and!; [done| |apply NoDup_singleton]. by intros x Hx ->%list_elem_of_singleton.
  - done.
  - intros x Hx. rewrite fmap_app. intros [Hx'|Hx'%list_elem_of_singleton]%elem_of_app; [by eapply H3|]. simpl in Hx'. by subst x.
  - intros x. rewrite fmap_app. intros [[Hx|Hx%list_elem_of_singleton]%elem_of_app|Hx].
    + assert (x < cl_next c)%nat by (apply H4; by left). lia.
    + simpl in Hx. by subst x.
    + assert (x < cl_next c)%nat by (apply H4; by right). lia.
  - rewrite !fmap_app. destruct Hwire as [(n & -> & _)|[-> _]]; [|by rewrite app_nil_r].
    apply NoDup_app. split_and!; [done| |apply NoDup_singleton]. intros x Hx Hx'%list_elem_of_singleton. simpl in Hx'. subst x.
    apply list_elem_of_fmap in Hx as ([n' i] & Ei & ([[n'' i'] a'] & Eq & Hin)%list_elem_of_fmap). simpl in *. simplify_eq.
    destruct (H6 _ _ _ Hin) as [Hh|[Hh _]]; by apply Hid, (elem_fst _ _ _ Hh).
  - intros n i x [Hin|Hin]%elem_of_app.
    + destruct (H6 _ _ _ Hin) as [?|[? ?]]; [left|right]; rewrite elem_of_app; tauto.
    + destruct Hwire as [(n' & -> & Hcase)|[-> _]]; [|by apply elem_of_nil in Hin]. apply list_elem_of_singleton in Hin. simplify_eq.
      rewrite !elem_of_app, !list_elem_of_singleton. destruct Hcase as [->|[-> ?]]; tauto.
  - intros i. rewrite !fmap_app. intros [Hin|Hin%list_elem_of_singleton]%elem_of_app; apply elem_of_app.
    + left. by apply H7.
    + simplify_eq. destruct Hwire as [(n' & -> & _)|[_ ?]]; [|done]. right. simpl. by apply list_elem_of_singleton.
Qed.

Lemma unsettled_cons h hs : unsettled (h :: hs) = (if ho_settled h then [] else [ho_id h]) ++ unsettled hs.
Proof. unfold unsettled. simpl. by destruct (ho_settled h). Qed.

Lemma outcomes_tail h hs c : outcomes_true (h :: hs) c ->
  outcomes_true hs c /\ (ho_settled h = false -> ho_id h ∉ (cl_outcomes c).*1 /\ ho_id h ∉ unsettled hs /\ (ho_id h < cl_next c)%nat).
Proof.
  intros [H1 H2 H3 H4 H5 H6 H7]. rewrite unsettled_cons in *. apply NoDup_app in H2 as (Hnd & Hdis & H2). split.
  - split; try done.
    + intros id Hid. apply H3. apply elem_of_app. by right.
    + intros id [Hid|Hid]; apply H4; [by left|]. right. apply elem_of_app. by right.
  - intros Hs. rewrite Hs in *. split_and!.
    + apply H3. apply elem_of_app. left. by apply list_elem_of_singleton.
    + apply Hdis. by apply list_elem_of_singleton.
    + apply H4. right. apply elem_of_app. left. by apply list_elem_of_singleton.
Qed.

Lemma hand_over_outcomes n h hs c : outcomes_true (h :: hs) c -> outcomes_true hs (hand_over transport n h c).
Proof.
  intros [Ho Hfresh]%outcomes_tail. destruct (hand_over_parts n h c) as (_ & _ & _ & _ & Hn & _).
  unfold hand_over in *. destruct (ho_settled h); [done|]. destruct Hfresh as (Hid & Hopen & Hlt); [done|].
  destruct (transport (ho_id h)) as [|reached] eqn:Et.
  - eapply outcome_new; [exact Ho|exact Hid|done|simpl; lia|simpl; lia|done|done|]. left. exists n. split; [done|by left].
  - eapply (outcome_new _ _ _ _ (ho_account h)); [exact Ho|exact Hid|done|simpl; lia|simpl; lia|done|done|].
    destruct reached; [|by right]. left. exists n. split; [done|by right].
Qed.

Lemma hand_overs_outcomes n hs c : outcomes_true hs c -> outcomes_true [] (foldl (fun c h => hand_over transport n h c) c hs).
Proof. revert c. induction hs as [|h hs IH]; intros c Ho; [done|]. simpl. by apply IH, hand_over_outcomes. Qed.

(** Every waiting call fails at once. *)
Lemma fail_all_outcomes hs c : outcomes_true hs c ->
  outcomes_true [] (record_ghosts [] [] [] ((fun h => (ho_id h, NotAttempted)) <$> List.filter (fun h => negb (ho_settled h)) hs)
    (set_handoffs [] (cl_next c) c)).
Proof.
  assert (forall c', cl_outcomes c' = cl_outcomes c -> cl_wire c' = cl_wire c -> cl_next c' = cl_next c -> outcomes_true hs c' ->
    outcomes_true [] (record_ghosts [] [] [] ((fun h => (ho_id h, NotAttempted)) <$> List.filter (fun h => negb (ho_settled h)) hs)
      (set_handoffs [] (cl_next c') c'))) as Hgen; [|intros; by apply Hgen].
  intros c' _ _ _. revert c'. induction hs as [|h hs IH]; intros c' Ho.
  - destruct Ho. split; simpl; rewrite ?app_nil_r; try done.
  - apply outcomes_tail in Ho as [Ho Hfresh]. simpl. destruct (ho_settled h) eqn:Es; simpl; [by apply IH|].
    destruct Hfresh as (Hid & Hopen & Hlt); [done|].
    specialize (IH (record_ghosts [] [] [] [(ho_id h, NotAttempted)] c')).
    destruct IH as [H1 H2 H3 H4 H5 H6 H7].
    + eapply (outcome_new _ _ _ _ 0); [exact Ho|exact Hid|done|simpl; lia|simpl; lia|done|done|by right].
    + simpl in *. rewrite !app_nil_r, <- app_assoc in *. split; simpl; rewrite ?app_nil_r; done.
Qed.

Lemma send_no_reply_outcomes a c : outcomes_true (cl_handoffs c) c -> outcomes_true (cl_handoffs (send_no_reply transport a c)) (send_no_reply transport a c).
Proof.
  intros Ho. unfold send_no_reply. set (h := {| ho_id := cl_next c; ho_account := a; ho_settled := false |}).
  assert (cl_next c ∉ (cl_outcomes c).*1 /\ cl_next c ∉ unsettled (cl_handoffs c)) as [Hf1 Hf2].
  { destruct Ho as [_ _ _ Hold _ _ _]. split; intros Hin; [specialize (Hold (cl_next c) (or_introl Hin))|specialize (Hold (cl_next c) (or_intror Hin))]; lia. }
  destruct Ho as [H1 H2 H3 H4 H5 H6 H7]. destruct (cl_conn c) as [n|].
  - set (c1 := set_handoffs _ _ _). destruct (hand_over_parts n h c1) as (_ & _ & _ & -> & _). apply hand_over_outcomes.
    split; try done; rewrite unsettled_cons; simpl.
    + by apply NoDup_cons.
    + intros id [->|Hid]%elem_of_cons; [done|by apply H3].
    + intros id [Hid|[->|Hid]%elem_of_cons]; [|lia|]; apply Nat.lt_lt_succ_r, H4; tauto.
  - split; try done; unfold unsettled in *; simpl; rewrite List.filter_app, fmap_app; simpl.
    + apply NoDup_app. split_and!; [done| |apply NoDup_singleton]. by intros x Hx ->%list_elem_of_singleton.
    + intros id [Hid| ->%list_elem_of_singleton]%elem_of_app; [by apply H3|done].
    + intros id [Hid|[Hid| ->%list_elem_of_singleton]%elem_of_app]; [| |lia]; apply Nat.lt_lt_succ_r, H4; tauto.
Qed.

Lemma unsettled_settle id hs :
  unsettled ((fun h => if (ho_id h =? id)%nat then {| ho_id := id; ho_account := ho_account h; ho_settled := true |} else h) <$> hs) =
  List.filter (fun x => negb (x =? id)%nat) (unsettled hs).
Proof.
  induction hs as [|h hs IH]; [done|]. rewrite fmap_cons, !unsettled_cons, IH, List.filter_app. f_equal.
  destruct (ho_id h =? id)%nat eqn:E; simpl; [|destruct (ho_settled h); simpl; by rewrite ?E].
  destruct (ho_settled h); simpl; [done|]. by rewrite E.
Qed.

Lemma timeout_outcomes id c : outcomes_true (cl_handoffs c) c -> outcomes_true (cl_handoffs (handoff_timeout id c)) (handoff_timeout id c).
Proof.
  intros Ho. unfold handoff_timeout. destruct (List.find _ (cl_handoffs c)) as [h|] eqn:Ef; [|done].
  apply find_some in Ef as [Hin [Eid Es]%andb_prop]. apply Nat.eqb_eq in Eid. subst id.
  assert (ho_id h ∈ unsettled (cl_handoffs c)) as Hu.
  { apply list_elem_of_fmap. exists h. split; [done|]. apply list_elem_of_In, filter_In. done. }
  pose proof Ho as [H1 H2 H3 H4 H5 H6 H7]. cbn [cl_handoffs record_ghosts set_handoffs].
  eapply (outcome_new _ c _ (ho_id h) 0 NotAttempted []).
  - split; try done; rewrite unsettled_settle.
    + by apply NoDup_ListNoDup, List.NoDup_filter, NoDup_ListNoDup.
    + intros x [Hx _]%list_elem_of_In%filter_In. apply H3. by apply list_elem_of_In.
    + intros x [Hx|[Hx _]%list_elem_of_In%filter_In]; apply H4; [by left|right]. by apply list_elem_of_In.
  - by apply H3.
  - rewrite unsettled_settle. intros [_ Hn]%list_elem_of_In%filter_In. by rewrite Nat.eqb_refl in Hn.
  - simpl. apply H4. by right.
  - simpl. lia.
  - done.
  - simpl. by rewrite app_nil_r.
  - by right.
Qed.

Lemma step_outcomes c e : outcomes_true (cl_handoffs c) c -> outcomes_true (cl_handoffs (step c e)) (step c e).
Proof.
  intros Ho. assert (forall c', same_session c c' -> outcomes_true (cl_handoffs c') c') as Hquiet.
  { intros c' Hs. pose proof Hs as [_ _ _ -> _ _ _]. by eapply session_outcomes. }
  destruct e as [| | |id ans|id|a token|a| |a|a|id]; simpl.
  - unfold connected. destruct (cl_conn c) as [n|]; [done|]. cbn [cl_handoffs set_requests set_socket cl_conns cl_next].
    set (c2 := set_handoffs [] _ _). destruct (hand_overs_parts (cl_conns c) (cl_handoffs c) c2) as (_ & _ & _ & Eh & _).
    simpl. rewrite Eh. eapply session_outcomes; [apply sdk_send_session|]. apply hand_overs_outcomes. by destruct Ho.
  - destruct (cl_conn c); [by destruct Ho|done].
  - destruct (cl_conn c); [done|]. unfold connect_failed. cbn [cl_handoffs record_ghosts set_handoffs]. by apply fail_all_outcomes.
  - destruct (answered_session id ans c) as [Hs|(n & acc & _ & _ & _ & _ & Eh & Hn & Ew & Eo)]; [by apply Hquiet|].
    rewrite Eh. destruct Ho as [H1 H2 H3 H4 H5 H6 H7]. split; rewrite ?Ew, ?Eo; try done. intros i Hi. specialize (H4 i Hi). lia.
  - apply Hquiet, expired_session.
  - apply Hquiet, authorize_one_session.
  - by destruct Ho.
  - unfold _heartbeat. destruct (cl_heartbeat c); [|done]. apply Hquiet, sdk_send_session.
  - unfold send_for_account. destruct (send_gate a c); [by apply send_no_reply_outcomes|].
    assert (cl_next c ∉ (cl_outcomes c).*1 /\ cl_next c ∉ unsettled (cl_handoffs c)) as [Hf1 Hf2].
    { destruct Ho as [_ _ _ Hold _ _ _]. split; intros Hin; [specialize (Hold (cl_next c) (or_introl Hin))|specialize (Hold (cl_next c) (or_intror Hin))]; lia. }
    eapply (outcome_new _ c _ (cl_next c) 0 NotAttempted []); [done|done|done|simpl; lia|simpl; lia|done|simpl; by rewrite app_nil_r|by right].
  - by apply send_no_reply_outcomes.
  - by apply timeout_outcomes.
Qed.

Lemma run_outcomes s es : outcomes_true (cl_handoffs (run s es)) (run s es).
Proof.
  induction es as [|e es IH] using rev_ind.
  - split; simpl; try apply NoDup_nil_2; set_solver.
  - unfold run_client. rewrite foldl_app. simpl. by apply step_outcomes.
Qed.

(** C11: what is reported as not attempted was not written, so that the
    dispatcher may try again. In any run, also one in which calls wait for a
    connection and time out, each send of a trade request has at most one
    outcome and is written at most once; handed over means written; and not
    attempted means that nothing of it is on any wire, then or later, unless
    the transport wrote it and raised. *)
Theorem not_attempted_is_not_written (s : db) (es : list client_event) :
  let c := run_client transport s es in
  NoDup (cl_outcomes c).*1 /\ NoDup (cl_wire c).*1.*2 /\
  (forall id, (id, HandedOver) ∈ cl_outcomes c -> id ∈ (cl_wire c).*1.*2) /\
  (forall id, (id, NotAttempted) ∈ cl_outcomes c -> transport id <> WriteRaised true -> id ∉ (cl_wire c).*1.*2).
Proof.
  intros c. destruct (run_outcomes s es) as [H1 _ _ _ H5 H6 H7]. split_and!; [done..|]. intros id Hna Ht Hin.
  apply list_elem_of_fmap in Hin as ([n i] & Ei & ([[n' i'] a] & Eq & Hin)%list_elem_of_fmap). simpl in *. simplify_eq.
  destruct (H6 _ _ _ Hin) as [Hh|[_ ?]]; [|done]. pose proof (od_get_in _ _ _ H1 Hna). pose proof (od_get_in _ _ _ H1 Hh). congruence.
Qed.
End facts.

(** ** A demonstration *)

Definition demo_account (id : Z) : AccountRow :=
  {| acc_account_id := id; acc_org_id := 1; acc_connection_id := Some 1; acc_trader_login := id; acc_is_live := true; acc_role := RoleSlave;
     acc_enabled := true; acc_multiplier := Dec 1 0; acc_status := StDegraded; acc_last_error := JNull;
     acc_platform := CTrader |}.
Definition demo_clients_db : db := set_db_accounts [demo_account 7; demo_account 8; demo_account 9] (empty_db 0).
Definition demo_run (es : list client_event) : CTraderClient := run_client (fun _ => Written) demo_clients_db es.
Definition demo_status (account_id : Z) (c : CTraderClient) : option account_status :=
  acc_status <$> List.find (fun a => acc_account_id a =? account_id) (db_accounts (cl_db c)).

(** Connect; authorize accounts 7 and 8; the broker takes 7 and refuses 8; both
    trade; the connection is lost and made again; 7 trades before and after its
    authorization there. *)
Definition demo_events : list client_event :=
  [Connected; Answered 0 OtherAnswer; Authorize 7 (Ok "t7"); Authorize 8 (Ok "t8"); Answered 1 OtherAnswer; Answered 2 (ErrorAnswer "RET_ACCOUNT_DISABLED");
   Trade 7; Trade 8; Disconnected; Connected; Trade 7; Answered 5 OtherAnswer; Trade 7; Answered 7 (ErrorAnswer "ALREADY_LOGGED_IN"); Trade 7].

Example demo_wire : cl_wire (demo_run demo_events) = [(0%nat, 3%nat, 7); (1%nat, 10%nat, 7)] /\
  cl_outcomes (demo_run demo_events) = [(3, HandedOver); (4, NotAttempted); (6, NotAttempted); (8, NotAttempted); (10, HandedOver)]%nat.
Proof. vm_compute. done. Qed.

Lemma trades_only_where_granted_witness :
  let c := demo_run demo_events in
  cl_handoffs c = [] /\ (forall n id a, (n, id, a) ∈ cl_wire c -> (n, a) ∈ cl_granted c).
Proof.
  destruct (trades_only_where_granted (fun _ => Written) demo_clients_db demo_events eq_refl) as (_ & Hh & Hw). exact (conj Hh Hw).
Defined.

(** [_on_app_authed] takes any answer for a yes: a refusal of the application
    makes the client ready, with its heartbeat running. *)
Example app_refusal_is_ready :
  let c := demo_run [Connected; Answered 0 (ErrorAnswer "CH_CLIENT_AUTH_FAILURE")] in cl_ready c = true /\ cl_heartbeat c = true.
Proof. vm_compute. done. Qed.

(** [_authorize_one] looks for a refusal only: an authorization that timed out
    clears the account's degraded status. *)
Example timed_out_authorization_clears_degraded :
  let c := demo_run [Connected; Answered 0 OtherAnswer; Authorize 7 (Ok "t7"); Expired 1] in
  is_account_authed 7 c = false /\ demo_status 7 c = Some StOk.
Proof. vm_compute. done. Qed.

(** An account removed while its authorization is under way stays authorized. *)
Example removed_account_counts_as_authed :
  let c := demo_run [Connected; Answered 0 OtherAnswer; Authorize 7 (Ok "t7"); Deauthorize 7; Answered 1 OtherAnswer] in
  is_account_authed 7 c = true /\ od_mem 7 (cl_accounts c) = false.
Proof. vm_compute. done. Qed.

(** When the transport raises after it wrote, the request is reported as not
    attempted, and the dispatcher sends it again. *)
Example raising_transport_is_retried :
  let c := run_client (fun _ => WriteRaised true) demo_clients_db
    [Connected; Answered 0 OtherAnswer; Authorize 7 (Ok "t7"); Answered 1 OtherAnswer; Trade 7] in
  cl_wire c = [(0%nat, 2%nat, 7)] /\ cl_outcomes c = [(2, NotAttempted)]%nat.
Proof. vm_compute. done. Qed.
