(* ===== verification/ClientReauth.v ===== *)
(** * Authorizing again after a reconnect

    The loop of a connection asks for every registered account, one at a time
    and in order, whatever happens meanwhile, as long as no account is removed.
    The last section shows what happens when one is. *)

From S2P Require Import Prelude PyStr PyDecimal Models Db Repo Client ClientFacts.

(** ** The loops under way *)

(** The connection whose loop waits for a request: the application's, or one of
    the loop's own *)
Definition frame_tag (f : frame) (conn : option nat) : option nat :=
  match f with AppAuth => conn | AccountAuth _ _ (ReauthLoop n _) => Some n | _ => None end.
Definition loop_tag (r : request) : option nat := frame_tag (rq_frame r) (rq_conn r).
Definition tags (c : CTraderClient) : list nat := omap loop_tag (cl_requests c).
Definition frames (c : CTraderClient) : list frame := rq_frame <$> cl_requests c.
(** The accounts the loop of connection [n] has asked for *)
Definition asked_by (n : nat) (c : CTraderClient) : list Z := (List.filter (fun p => (p.1 =? n)%nat) (cl_asked c)).*2.

(** A connection has one loop at most. *)
Record loops_ok (c : CTraderClient) : Prop := {
  lo_ids : NoDup (rq_id <$> cl_requests c);
  lo_old : forall r, r ∈ cl_requests c -> (rq_id r < cl_next c)%nat;
  lo_tags : NoDup (tags c);
  lo_known : forall n, n ∈ tags c \/ cl_conn c = Some n \/ n ∈ (cl_asked c).*1 -> (n < cl_conns c)%nat;
  lo_app : forall r, r ∈ cl_requests c -> rq_frame r = AppAuth -> exists n, rq_conn r = Some n /\ asked_by n c = []
}.

Lemma loops_same c c' :
  cl_requests c' = cl_requests c -> (cl_next c <= cl_next c')%nat -> cl_conns c' = cl_conns c -> cl_conn c' = cl_conn c -> cl_asked c' = cl_asked c ->
  loops_ok c -> loops_ok c'.
Proof.
  intros Er En Ecs Ec Ea [H1 H2 H3 H4 H5].
  split; unfold tags, asked_by in *; rewrite ?Er, ?Ecs, ?Ec, ?Ea; try done. intros r Hr. specialize (H2 r Hr). lia.
Qed.

Lemma asked_by_app n c l c' : cl_asked c' = cl_asked c ++ l -> asked_by n c' = asked_by n c ++ (List.filter (fun p => (p.1 =? n)%nat) l).*2.
Proof. intros E. unfold asked_by. by rewrite E, List.filter_app, fmap_app. Qed.

Lemma asked_by_fresh n c : n ∉ (cl_asked c).*1 -> asked_by n c = [].
Proof.
  unfold asked_by. induction (cl_asked c) as [|[m a] l IH]; [done|]. simpl. intros Hn. destruct (m =? n)%nat eqn:E.
  - apply Nat.eqb_eq in E. set_solver.
  - apply IH. set_solver.
Qed.

Lemma tags_send f c : tags (sdk_send f c) = tags c ++ option_list (frame_tag f (cl_conn c)).
Proof. unfold tags. simpl. rewrite omap_app. simpl. unfold loop_tag. simpl. by destruct (frame_tag f (cl_conn c)). Qed.

Lemma send_loops f c :
  loops_ok c -> (forall n, frame_tag f (cl_conn c) = Some n -> n ∉ tags c /\ (n < cl_conns c)%nat) ->
  (f = AppAuth -> exists n, cl_conn c = Some n /\ asked_by n c = []) -> loops_ok (sdk_send f c).
Proof.
  intros [H1 H2 H3 H4 H5] Htag Happ. split.
  - simpl. rewrite fmap_app. apply NoDup_app. split_and!; [done| |apply NoDup_singleton].
    intros x (r & -> & Hr)%list_elem_of_fmap Hx%list_elem_of_singleton. specialize (H2 r Hr). simpl in Hx. lia.
  - intros r [Hr| ->%list_elem_of_singleton]%elem_of_app; simpl; [specialize (H2 r Hr)|]; lia.
  - rewrite tags_send. apply NoDup_app. split_and!; [done| |destruct (frame_tag _ _); [apply NoDup_singleton|apply NoDup_nil_2]].
    intros n Hn Hn'. destruct (frame_tag f (cl_conn c)) as [m|]; [|by apply elem_of_nil in Hn'].
    apply list_elem_of_singleton in Hn'. subst m. destruct (Htag n eq_refl) as [? _]. done.
  - intros n. rewrite tags_send. intros [[Hn|Hn]%elem_of_app|Hn]; [apply H4; by left| |apply H4; by right].
    destruct (frame_tag f (cl_conn c)) as [m|]; [|by apply elem_of_nil in Hn]. apply list_elem_of_singleton in Hn. subst m.
    by destruct (Htag n eq_refl).
  - intros r [Hr| ->%list_elem_of_singleton]%elem_of_app Hf; [by apply H5|by apply Happ].
Qed.

Lemma account_auth_loops a w c c' :
  loops_ok c -> _send_account_auth a w c = Ok c' ->
  (forall n rest, w = ReauthLoop n rest -> n ∉ tags c /\ (n < cl_conns c)%nat) -> loops_ok c'.
Proof.
  intros Hok. unfold _send_account_auth. destruct (od_get a (cl_accounts c)) as [token|]; [|done]. intros [= <-] Hw.
  assert (loops_ok (sdk_send (AccountAuth a token w) c)) as Hs.
  { apply send_loops; [done| |done]. intros n. destruct w as [|m rest|]; simpl; [done| |done]. intros [= ->]. by eapply Hw. }
  destruct w as [|n rest|]; try (by eapply loops_same, Hs; simpl; rewrite ?app_nil_r).
  destruct (Hw n rest eq_refl) as [Hn Hlt]. destruct Hs as [H1 H2 H3 H4 H5]. split; try done.
  - intros m [Hm|[Hm|Hm]]; [apply H4; by left|apply H4; right; by left|]. simpl in Hm. rewrite fmap_app in Hm.
    apply elem_of_app in Hm as [Hm|Hm]; [apply H4; right; by right|]. simpl in Hm. apply list_elem_of_singleton in Hm. by subst m.
  - intros r Hr Hf. destruct (H5 r Hr Hf) as (m & Hm & Ha). exists m. split; [done|]. rewrite (asked_by_app m (sdk_send (AccountAuth a token (ReauthLoop n rest)) c) [(n, a)]) by done.
    rewrite Ha. simpl. destruct (n =? m)%nat eqn:E; [|done]. apply Nat.eqb_eq in E. subst m. exfalso.
    simpl in Hr. apply elem_of_app in Hr as [Hr|Hr%list_elem_of_singleton]; [|by subst r]. apply Hn. apply list_elem_of_omap. exists r.
    split; [done|]. unfold loop_tag. by rewrite Hf.
Qed.

Lemma reauth_loops n l c : loops_ok c -> n ∉ tags c -> (n < cl_conns c)%nat -> loops_ok (_reauth_all n l c).
Proof.
  intros Hok Hn Hlt. destruct l as [|a rest]; [by eapply loops_same, Hok|]. simpl.
  destruct (_send_account_auth _ _ _) as [c'|] eqn:E; [|by eapply loops_same, Hok]. eapply account_auth_loops; [done|exact E|].
  by intros m rest' [= -> ->].
Qed.

Lemma take_request_spec id c r c' : take_request id c = Some (r, c') ->
  r ∈ cl_requests c /\ rq_id r = id /\ c' = set_requests (List.filter (fun r => negb (rq_id r =? id)%nat) (cl_requests c)) (cl_next c) c.
Proof.
  unfold take_request. destruct (List.find _ _) as [r'|] eqn:Ef; [|done]. intros [= -> <-]. apply find_some in Ef as [Hin Hid].
  split_and!; [by apply list_elem_of_In|by apply Nat.eqb_eq|done].
Qed.

Lemma same_id c r r' : loops_ok c -> r ∈ cl_requests c -> r' ∈ cl_requests c -> rq_id r = rq_id r' -> r = r'.
Proof.
  intros [H1 _ _ _ _]. induction (cl_requests c) as [|r0 l IH]; [by intros ?%elem_of_nil|]. simpl in H1. apply NoDup_cons in H1 as [Hn Hnd].
  intros [->|Hr]%elem_of_cons [->|Hr']%elem_of_cons He; [done| | |by apply IH].
  - exfalso. apply Hn. rewrite He. apply list_elem_of_fmap. by exists r'.
  - exfalso. apply Hn. rewrite <- He. apply list_elem_of_fmap. by exists r.
Qed.

Lemma omap_filter_NoDup {A} (f : A -> option nat) (P : A -> bool) l : NoDup (omap f l) -> NoDup (omap f (List.filter P l)).
Proof.
  induction l as [|x l IH]; [done|]. simpl. destruct (f x) as [n|] eqn:E; [|destruct (P x); simpl; rewrite ?E; apply IH].
  intros [Hn Hnd]%NoDup_cons. destruct (P x); simpl; rewrite ?E; [|by apply IH]. apply NoDup_cons. split; [|by apply IH].
  intros (y & Hy & Ey)%list_elem_of_omap. apply Hn. apply list_elem_of_omap. exists y. split; [|done].
  apply list_elem_of_In, filter_In in Hy as [Hy _]. by apply list_elem_of_In.
Qed.

Lemma tag_unique c r r' n : loops_ok c -> r ∈ cl_requests c -> r' ∈ cl_requests c -> loop_tag r = Some n -> loop_tag r' = Some n -> r = r'.
Proof.
  intros [_ _ H3 _ _]. unfold tags in H3. induction (cl_requests c) as [|r0 l IH]; [by intros ?%elem_of_nil|].
  simpl in H3. intros Hr Hr' Ht Ht'. destruct (loop_tag r0) as [m|] eqn:E0.
  - apply NoDup_cons in H3 as [Hn Hnd]. apply elem_of_cons in Hr as [->|Hr], Hr' as [->|Hr']; [done| | |by apply IH].
    + exfalso. apply Hn. apply list_elem_of_omap. exists r'. split; [done|]. congruence.
    + exfalso. apply Hn. apply list_elem_of_omap. exists r. split; [done|]. congruence.
  - apply elem_of_cons in Hr as [->|Hr]; [congruence|]. apply elem_of_cons in Hr' as [->|Hr']; [congruence|]. by apply IH.
Qed.

Lemma request_ids_filter (P : request -> bool) l : NoDup (rq_id <$> l) -> NoDup (rq_id <$> List.filter P l).
Proof.
  assert (forall l : list request, omap (fun r => Some (rq_id r)) l = rq_id <$> l) as Heq by (intros l'; induction l' as [|r l' IH]; [done|]; simpl; f_equal; exact IH).
  rewrite <- !Heq. apply omap_filter_NoDup.
Qed.

Lemma take_loops id c r c' : loops_ok c -> take_request id c = Some (r, c') ->
  loops_ok c' /\ (forall n, loop_tag r = Some n -> n ∉ tags c' /\ (n < cl_conns c')%nat).
Proof.
  intros Hok (Hr & Hid & ->)%take_request_spec. pose proof Hok as [H1 H2 H3 H4 H5].
  assert (forall r', r' ∈ List.filter (fun r => negb (rq_id r =? id)%nat) (cl_requests c) -> r' ∈ cl_requests c /\ rq_id r' <> id) as Hf.
  { intros r' [Hin Hn]%list_elem_of_In%filter_In. split; [by apply list_elem_of_In|]. by apply negb_true_iff, Nat.eqb_neq in Hn. }
  split; [split; simpl|].
  - by apply request_ids_filter.
  - intros r' [Hin _]%Hf. by apply H2.
  - by apply omap_filter_NoDup.
  - intros n [Hn|Hn]; [|apply H4; by right]. apply H4. left. apply list_elem_of_omap in Hn as (r' & [Hin _]%Hf & Ht). apply list_elem_of_omap. by exists r'.
  - intros r' [Hin _]%Hf. by apply H5.
  - intros n Hn. split; [|simpl; apply H4; left; apply list_elem_of_omap; by exists r].
    intros (r' & [Hin Hne]%Hf & Ht)%list_elem_of_omap. apply Hne. assert (r' = r) as -> by (by eapply tag_unique). done.
Qed.

Lemma omap_fmap_same {A B} (g : A -> option B) (f : A -> A) (l : list A) : (forall x, x ∈ l -> g (f x) = g x) -> omap g (f <$> l) = omap g l.
Proof.
  induction l as [|x l IH]; intros Hf; [done|]. simpl. rewrite Hf by set_solver. assert (omap g (f <$> l) = omap g l) as E by (apply IH; set_solver).
  destruct (g x); [f_equal|]; exact E.
Qed.
Lemma fmap_fmap_same {A B} (g : A -> B) (f : A -> A) (l : list A) : (forall x, x ∈ l -> g (f x) = g x) -> g <$> (f <$> l) = g <$> l.
Proof. induction l as [|x l IH]; intros Hf; [done|]. simpl. rewrite Hf by set_solver. f_equal. apply IH. set_solver. Qed.

(** What waited for a connection now rides [n]. *)
Definition onto (n : nat) (r : request) : request :=
  match rq_conn r with None => {| rq_id := rq_id r; rq_frame := rq_frame r; rq_conn := Some n |} | _ => r end.
Lemma onto_same n c r : loops_ok c -> r ∈ cl_requests c ->
  loop_tag (onto n r) = loop_tag r /\ rq_id (onto n r) = rq_id r /\ rq_frame (onto n r) = rq_frame r.
Proof.
  intros Hok Hr. unfold onto. destruct (rq_conn r) as [m|] eqn:Er; [done|]. split_and!; [|done|done]. unfold loop_tag. simpl.
  destruct (rq_frame r) eqn:Ef; try done. destruct (lo_app c Hok r Hr Ef) as (m & ? & _). congruence.
Qed.

Lemma onto_loops c : loops_ok c -> cl_conn c = None ->
  loops_ok (set_requests (onto (cl_conns c) <$> cl_requests c) (cl_next c) (set_socket (Some (cl_conns c)) (S (cl_conns c)) c)).
Proof.
  intros Hok Ec. pose proof Hok as [H1 H2 H3 H4 H5].
  assert (tags (set_requests (onto (cl_conns c) <$> cl_requests c) (cl_next c) (set_socket (Some (cl_conns c)) (S (cl_conns c)) c)) = tags c) as Et.
  { apply omap_fmap_same. intros r Hr. by destruct (onto_same (cl_conns c) c r Hok Hr). }
  split.
  - simpl. rewrite fmap_fmap_same; [done|]. intros r Hr. by destruct (onto_same (cl_conns c) c r Hok Hr) as (_ & ? & _).
  - intros r (r' & -> & Hr)%list_elem_of_fmap. destruct (onto_same (cl_conns c) c r' Hok Hr) as (_ & -> & _). by apply H2.
  - by rewrite Et.
  - intros n. rewrite Et. simpl. intros [Hn|[[= <-]|Hn]]; [|lia|]; apply Nat.lt_lt_succ_r, H4; tauto.
  - intros r (r' & -> & Hr)%list_elem_of_fmap Ef. destruct (onto_same (cl_conns c) c r' Hok Hr) as (_ & _ & E). rewrite E in Ef.
    destruct (H5 r' Hr Ef) as (m & Hm & Ha). exists m. split; [|done]. unfold onto. by rewrite Hm.
Qed.

Lemma connected_loops transport c : loops_ok c -> loops_ok (connected transport c).
Proof.
  intros Hok. unfold connected. destruct (cl_conn c) as [n|] eqn:Ec; [done|]. pose proof (onto_loops c Hok Ec) as Hon.
  cbn [cl_handoffs set_requests set_socket cl_conns cl_next cl_requests]. fold (onto (cl_conns c)).
  set (c2 := set_handoffs [] _ _). destruct (hand_overs_parts transport (cl_conns c) (cl_handoffs c) c2) as (_ & Pc & _ & _ & Pn & Pcs & Pr & _ & Pa & _).
  set (c3 := foldl _ _ _) in *. simpl in Pc, Pn, Pcs, Pr, Pa.
  assert (loops_ok c3) as H3 by (eapply loops_same, Hon; simpl; [done|by rewrite Pn|done..]).
  assert (forall m, m ∈ tags c3 \/ m ∈ (cl_asked c3).*1 -> m <> cl_conns c) as Hold.
  { intros m Hm ->. assert (cl_conns c < cl_conns c)%nat; [|lia]. apply (lo_known c Hok). rewrite Pa in Hm. destruct Hm as [Hm|Hm]; [left|tauto].
    unfold tags in *. rewrite Pr in Hm. rewrite omap_fmap_same in Hm; [done|]. intros r Hr. by destruct (onto_same (cl_conns c) c r Hok Hr). }
  apply send_loops; [done| |].
  - intros m. simpl. rewrite Pc. intros [= <-]. split; [|rewrite Pcs; lia]. intros Hm. by apply (Hold (cl_conns c)); [left|].
  - intros _. exists (cl_conns c). split; [done|]. apply asked_by_fresh. intros Hm. by apply (Hold (cl_conns c)); [right|].
Qed.

Lemma response_parts a n acc c :
  let c' := _on_account_auth_response a n acc c in
  cl_requests c' = cl_requests c /\ cl_next c' = cl_next c /\ cl_conns c' = cl_conns c /\ cl_conn c' = cl_conn c /\ cl_asked c' = cl_asked c /\
  cl_accounts c' = cl_accounts c /\ cl_ready c' = cl_ready c.
Proof. unfold _on_account_auth_response. destruct a as [|code|]; [done| |]; [destruct (String.eqb code _)|]; simpl; by rewrite ?app_nil_r. Qed.

Lemma wake_loops w acc c : loops_ok c -> (forall n rest, w = ReauthLoop n rest -> n ∉ tags c /\ (n < cl_conns c)%nat) -> loops_ok (wake w acc c).
Proof.
  intros Hok Hw. destruct w as [|n rest|]; simpl; [done| |].
  - destruct (Hw n rest eq_refl). by apply reauth_loops.
  - unfold authorize_one_done. case_match; by eapply loops_same, Hok.
Qed.

Lemma answered_loops id a c : loops_ok c -> loops_ok (answered id a c).
Proof.
  intros Hok. unfold answered. destruct (take_request id c) as [[r c']|] eqn:Et; [|done]. destruct (cl_conn c) as [n|] eqn:Ec; [|done].
  case_bool_decide as Hc; [|done]. destruct (take_loops _ _ _ _ Hok Et) as [Hok' Htag].
  destruct (rq_frame r) as [|acc token w|] eqn:Ef; [| |done].
  - unfold _on_app_authed. destruct (Htag n) as [Hn Hlt]; [unfold loop_tag; by rewrite Ef|]. apply reauth_loops; [by eapply loops_same, Hok'|done|done].
  - destruct (response_parts a n acc c') as (P1 & P2 & P3 & P4 & P5 & _). apply wake_loops.
    + eapply loops_same, Hok'; try done. by rewrite P2.
    + intros m rest ->. unfold tags. rewrite P1, P3. apply Htag. unfold loop_tag. by rewrite Ef.
Qed.

Lemma expired_loops id c : loops_ok c -> loops_ok (expired id c).
Proof.
  intros Hok. unfold expired. destruct (take_request id c) as [[r c']|] eqn:Et; [|done]. destruct (take_loops _ _ _ _ Hok Et) as [Hok' Htag].
  destruct (rq_frame r) as [|acc token w|] eqn:Ef; [done| |done]. apply wake_loops; [done|].
  intros m rest ->. apply Htag. unfold loop_tag. by rewrite Ef.
Qed.

Lemma authorize_loops a token c : loops_ok c -> loops_ok (_authorize_one a token c).
Proof.
  intros Hok. unfold _authorize_one. destruct token as [token|e]; [|by eapply loops_same, Hok].
  destruct (_send_account_auth _ _ _) as [c'|] eqn:E; [|done]. eapply account_auth_loops; [|exact E|done]. by eapply loops_same, Hok.
Qed.

Lemma send_no_reply_parts transport a c :
  let c' := send_no_reply transport a c in
  cl_requests c' = cl_requests c /\ (cl_next c <= cl_next c')%nat /\ cl_conns c' = cl_conns c /\ cl_conn c' = cl_conn c /\ cl_asked c' = cl_asked c /\
  cl_accounts c' = cl_accounts c /\ cl_ready c' = cl_ready c.
Proof.
  unfold send_no_reply. destruct (cl_conn c) as [n|] eqn:Ec; [|simpl; split_and!; try done; lia].
  set (h := {| ho_id := _; ho_account := _; ho_settled := _ |}). set (c1 := set_handoffs _ _ _).
  destruct (hand_over_parts transport n h c1) as (_ & -> & _ & _ & -> & -> & -> & -> & -> & ->). simpl. split_and!; try done. lia.
Qed.

(** Trades, their time-outs and lost attempts to connect *)
Lemma trades_parts transport c e :
  match e with ConnectFailed | Trade _ | SendNoReply _ | HandoffTimeout _ => True | _ => False end ->
  let c' := client_step transport c e in
  cl_requests c' = cl_requests c /\ (cl_next c <= cl_next c')%nat /\ cl_conns c' = cl_conns c /\ cl_conn c' = cl_conn c /\ cl_asked c' = cl_asked c /\
  cl_accounts c' = cl_accounts c /\ cl_ready c' = cl_ready c.
Proof.
  destruct e as [| | |id ans|id|a token|a| |a|a|id]; try done; intros _; simpl.
  - destruct (cl_conn c) eqn:Ec; simpl; rewrite ?app_nil_r; split_and!; done.
  - unfold send_for_account. destruct (send_gate a c); [apply send_no_reply_parts|]. simpl. rewrite !app_nil_r. split_and!; try done. lia.
  - apply send_no_reply_parts.
  - unfold handoff_timeout. destruct (List.find _ _); simpl; rewrite ?app_nil_r; split_and!; done.
Qed.

Lemma step_loops transport c e : loops_ok c -> loops_ok (client_step transport c e).
Proof.
  intros Hok. assert (match e with ConnectFailed | Trade _ | SendNoReply _ | HandoffTimeout _ => True | _ => False end -> loops_ok (client_step transport c e)) as Htr.
  { intros He. destruct (trades_parts transport c e He) as (? & ? & ? & ? & ? & _). by eapply loops_same, Hok. }
  destruct e as [| | |id ans|id|a token|a| |a|a|id]; try (by apply Htr); simpl.
  - by apply connected_loops.
  - destruct (cl_conn c); [|done]. destruct Hok as [H1 H2 H3 H4 H5]. split; try done. intros m [Hn|[Hn|Hn]]; [|done|]; apply H4; tauto.
  - by apply answered_loops.
  - by apply expired_loops.
  - by apply authorize_loops.
  - by eapply loops_same, Hok.
  - unfold _heartbeat. destruct (cl_heartbeat c); [|done]. by apply send_loops.
Qed.

Lemma run_loops transport s es : loops_ok (run_client transport s es).
Proof.
  induction es as [|e es IH] using rev_ind.
  - split; simpl; try apply NoDup_nil_2; try (by intros ? ?%elem_of_nil). intros m [Hn|[Hn|Hn]]; [by apply elem_of_nil in Hn|done|by apply elem_of_nil in Hn].
  - unfold run_client. rewrite foldl_app. simpl. by apply step_loops.
Qed.

(** ** Progress *)

Definition is_loop (n : nat) (f : frame) : bool := match f with AccountAuth _ _ (ReauthLoop m _) => (m =? n)%nat | _ => false end.

(** The event settles the request for which the loop of connection [n] waits. *)
Definition settles_loop (n : nat) (c : CTraderClient) (e : client_event) : bool :=
  match e with
  | Answered id _ =>
      match take_request id c with
      | Some (r, _) => is_loop n (rq_frame r) && bool_decide (rq_conn r = cl_conn c /\ is_Some (cl_conn c))
      | None => false
      end
  | Expired id => match take_request id c with Some (r, _) => is_loop n (rq_frame r) | None => false end
  | _ => false
  end.

(** Whatever else happens: the loop's request stays, and so do the accounts. *)
Record keeps (n : nat) (c c' : CTraderClient) : Prop := {
  ks_frames : forall f, is_loop n f = true -> f ∈ frames c -> f ∈ frames c';
  ks_asked : asked_by n c' = asked_by n c;
  ks_accounts : forall a, a ∈ (cl_accounts c).*1 -> a ∈ (cl_accounts c').*1;
  ks_ready : cl_ready c = true -> cl_ready c' = true;
  ks_tags : (n < cl_conns c)%nat -> n ∉ tags c -> n ∉ tags c';
  ks_conns : (cl_conns c <= cl_conns c')%nat
}.
Lemma keeps_trans n c1 c2 c3 : keeps n c1 c2 -> keeps n c2 c3 -> keeps n c1 c3.
Proof.
  intros [K1 K2 K3 K4 K5 K6] [L1 L2 L3 L4 L5 L6]. split; [auto|congruence|auto|auto| |lia]. intros Hlt Hn. apply L5; [lia|auto].
Qed.
Lemma keeps_same n c c' :
  cl_requests c' = cl_requests c -> cl_asked c' = cl_asked c -> cl_conns c' = cl_conns c ->
  (forall a, a ∈ (cl_accounts c).*1 -> a ∈ (cl_accounts c').*1) -> (cl_ready c = true -> cl_ready c' = true) -> keeps n c c'.
Proof. intros Er Ea Ec. by split; unfold frames, asked_by, tags; rewrite ?Er, ?Ea, ?Ec. Qed.

Lemma keeps_send n f c : frame_tag f (cl_conn c) <> Some n -> keeps n c (sdk_send f c).
Proof.
  intros Hf. split; try done.
  - intros g _ Hg. unfold frames. simpl. rewrite fmap_app. apply elem_of_app. by left.
  - intros _ Hn. rewrite tags_send. intros [Hin|Hin]%elem_of_app; [done|]. destruct (frame_tag f (cl_conn c)); [|by apply elem_of_nil in Hin].
    apply list_elem_of_singleton in Hin. congruence.
Qed.

Lemma keeps_account_auth n a w c c' : (forall rest, w <> ReauthLoop n rest) -> _send_account_auth a w c = Ok c' -> keeps n c c'.
Proof.
  intros Hw. unfold _send_account_auth. destruct (od_get a (cl_accounts c)) as [token|]; [|done]. intros [= <-].
  eapply keeps_trans; [apply (keeps_send n (AccountAuth a token w))|].
  - destruct w as [|m rest|]; simpl; [done| |done]. intros [= ->]. by eapply Hw.
  - split; try done. rewrite (asked_by_app n (sdk_send (AccountAuth a token w) c) (match w with ReauthLoop n _ => [(n, a)] | _ => [] end)) by done.
    destruct w as [|m rest|]; simpl; rewrite ?app_nil_r; try done. destruct (m =? n)%nat eqn:E; simpl; [|by rewrite app_nil_r].
    apply Nat.eqb_eq in E. subst m. by destruct (Hw rest).
Qed.

Lemma keeps_reauth n m l c : m <> n -> keeps n c (_reauth_all m l c).
Proof.
  intros Hne. destruct l as [|a rest]; [by apply keeps_same|]. simpl. destruct (_send_account_auth _ _ _) as [c'|] eqn:E; [|by apply keeps_same].
  eapply keeps_account_auth, E. by intros rest' [= ].
Qed.

Lemma keeps_wake n w a c : (forall rest, w <> ReauthLoop n rest) -> keeps n c (wake w a c).
Proof.
  intros Hw. destruct w as [|m rest|]; simpl; [by apply keeps_same| |].
  - apply keeps_reauth. intros ->. by apply (Hw rest).
  - unfold authorize_one_done. case_match; by apply keeps_same.
Qed.

Lemma keeps_take n id c r c' : loops_ok c -> take_request id c = Some (r, c') -> is_loop n (rq_frame r) = false -> keeps n c c'.
Proof.
  intros Hok Ht Hr. pose proof (take_request_spec _ _ _ _ Ht) as (Hin & Hid & ->). split; try done.
  - intros f Hf (r' & -> & Hr')%list_elem_of_fmap. unfold frames. simpl. apply list_elem_of_fmap. exists r'. split; [done|].
    apply list_elem_of_In, filter_In. split; [by apply list_elem_of_In|]. apply negb_true_iff, Nat.eqb_neq. intros He.
    assert (r' = r) as -> by (eapply same_id; [done|done|done|congruence]). congruence.
  - intros _ Hn (r' & Hr' & Htag)%list_elem_of_omap. apply Hn. apply list_elem_of_omap. exists r'. split; [|done].
    apply list_elem_of_In, filter_In in Hr' as [Hr' _]. by apply list_elem_of_In.
Qed.

Lemma keeps_connected transport n c : loops_ok c -> (n < cl_conns c)%nat -> keeps n c (connected transport c).
Proof.
  intros Hok Hlt. unfold connected. destruct (cl_conn c) as [m|] eqn:Ec; [by apply keeps_same|].
  cbn [cl_handoffs set_requests set_socket cl_conns cl_next cl_requests]. fold (onto (cl_conns c)).
  set (c2 := set_handoffs [] _ _). destruct (hand_overs_parts transport (cl_conns c) (cl_handoffs c) c2) as (_ & Pc & _ & _ & Pn & Pcs & Pr & Pacc & Pa & Prd).
  set (c3 := foldl _ _ _) in *. simpl in Pc, Pn, Pcs, Pr, Pa, Pacc, Prd.
  eapply (keeps_trans _ _ c3); [|apply keeps_send; simpl; rewrite Pc; intros [= ?]; lia].
  assert (forall r, r ∈ cl_requests c -> loop_tag (onto (cl_conns c) r) = loop_tag r /\ rq_id (onto (cl_conns c) r) = rq_id r /\
    rq_frame (onto (cl_conns c) r) = rq_frame r) as Hon by (intros; by apply (onto_same (cl_conns c) c)).
  split.
  - intros f _. unfold frames. rewrite Pr, fmap_fmap_same; [done|]. intros r Hr. by destruct (Hon r Hr) as (_ & _ & ?).
  - unfold asked_by. by rewrite Pa.
  - by rewrite Pacc.
  - by rewrite Prd.
  - intros _. unfold tags. rewrite Pr, omap_fmap_same; [done|]. intros r Hr. by destruct (Hon r Hr).
  - rewrite Pcs. lia.
Qed.

Lemma keeps_accounts_set a token (c : CTraderClient) n : keeps n c (set_accounts (od_set a token (cl_accounts c)) c).
Proof.
  apply keeps_same; try done. simpl. intros x Hx. change (x ∈ od_keys (od_set a token (cl_accounts c))). rewrite od_keys_set.
  destruct (od_mem a (cl_accounts c)); [done|]. apply elem_of_app. by left.
Qed.

Definition is_deauthorize (e : client_event) : bool := match e with Deauthorize _ => true | _ => false end.

(** No [AppAuth] of connection [n] is in flight: its loop has begun. *)
Definition begun (n : nat) (c : CTraderClient) : Prop :=
  (n < cl_conns c)%nat /\ forall r, r ∈ cl_requests c -> loop_tag r = Some n -> is_loop n (rq_frame r) = true.

Lemma keeps_step transport n c e :
  loops_ok c -> begun n c -> is_deauthorize e = false -> settles_loop n c e = false -> keeps n c (client_step transport c e).
Proof.
  intros Hok [Hlt Hb] Hd Hs.
  assert (match e with ConnectFailed | Trade _ | SendNoReply _ | HandoffTimeout _ => True | _ => False end -> keeps n c (client_step transport c e)) as Htr.
  { intros He. destruct (trades_parts transport c e He) as (? & ? & ? & ? & ? & Eacc & Er). apply keeps_same; try done; [by rewrite Eacc|by rewrite Er]. }
  destruct e as [| | |id ans|id|a token|a| |a|a|id]; try (by apply Htr); simpl in *; try done.
  - by apply keeps_connected.
  - destruct (cl_conn c); by apply keeps_same.
  - unfold answered. destruct (take_request id c) as [[r c']|] eqn:Et; [|by apply keeps_same].
    pose proof (take_request_spec _ _ _ _ Et) as (Hin & _ & _). destruct (cl_conn c) as [m|] eqn:Ec; [|by apply keeps_same].
    destruct (bool_decide (rq_conn r = Some m)) eqn:Eb; [apply bool_decide_eq_true in Eb as Hc|by apply keeps_same].
    assert (is_loop n (rq_frame r) = false) as Hl.
    { apply andb_false_iff in Hs as [?|Hs]; [done|]. apply bool_decide_eq_false in Hs. by destruct Hs. }
    pose proof (keeps_take n _ _ _ _ Hok Et Hl) as Hk. destruct (rq_frame r) as [|acc token w|] eqn:Ef; [| |done].
    + eapply keeps_trans; [exact Hk|]. unfold _on_app_authed. eapply keeps_trans; [by apply (keeps_same n c' (set_flags (cl_ready c') true c'))|].
      apply keeps_reauth. intros ->. specialize (Hb r Hin). unfold loop_tag in Hb. rewrite Ef in Hb. by specialize (Hb Hc).
    + eapply keeps_trans; [exact Hk|]. destruct (response_parts ans m acc c') as (P1 & _ & P3 & _ & P5 & P6 & P7).
      eapply keeps_trans; [apply (keeps_same n c' (_on_account_auth_response ans m acc c')); try done; [by rewrite P6|by rewrite P7]|].
      apply keeps_wake. intros rest ->. simpl in Hl. by rewrite Nat.eqb_refl in Hl.
  - unfold expired. destruct (take_request id c) as [[r c']|] eqn:Et; [|by apply keeps_same].
    pose proof (keeps_take n _ _ _ _ Hok Et Hs) as Hk. destruct (rq_frame r) as [|acc token w|] eqn:Ef; [done| |done].
    eapply keeps_trans; [exact Hk|]. apply keeps_wake. intros rest ->. simpl in Hs. by rewrite Nat.eqb_refl in Hs.
  - unfold _authorize_one. destruct token as [token|e]; [|by apply keeps_same]. destruct (_send_account_auth _ _ _) as [c'|] eqn:E; [|by apply keeps_same].
    eapply keeps_trans; [apply keeps_accounts_set|]. by eapply keeps_account_auth, E.
  - unfold _heartbeat. destruct (cl_heartbeat c); [|by apply keeps_same]. apply keeps_send. done.
Qed.

(** After [k] answers or time-outs of its requests the loop of connection [n] has
    asked for the first [k + 1] of the accounts [ks], and waits, or is done. *)
Record progress (n : nat) (ks : list Z) (k : nat) (c : CTraderClient) : Prop := {
  pr_asked : asked_by n c = take (S k) ks;
  pr_accounts : forall a, a ∈ ks -> a ∈ (cl_accounts c).*1;
  pr_known : (n < cl_conns c)%nat;
  pr_where : (k < length ks)%nat /\ (exists a token, AccountAuth a token (ReauthLoop n (drop (S k) ks)) ∈ frames c) \/
    (length ks <= k)%nat /\ cl_ready c = true /\ n ∉ tags c
}.

Lemma loop_request n a token rest c : AccountAuth a token (ReauthLoop n rest) ∈ frames c ->
  exists r, r ∈ cl_requests c /\ loop_tag r = Some n /\ rq_frame r = AccountAuth a token (ReauthLoop n rest).
Proof. intros (r & Hf & Hr)%list_elem_of_fmap. exists r. split_and!; [done| |done]. unfold loop_tag. by rewrite <- Hf. Qed.

Lemma progress_begun n ks k c : loops_ok c -> progress n ks k c -> begun n c.
Proof.
  intros Hok [_ _ Hlt Hw]. split; [done|]. intros r Hr Ht. destruct Hw as [[_ (a & token & Hf)]|(_ & _ & Hn)].
  - apply loop_request in Hf as (r' & Hr' & Ht' & Ef). assert (r = r') as -> by (by eapply tag_unique). rewrite Ef. simpl. apply Nat.eqb_refl.
  - exfalso. apply Hn. apply list_elem_of_omap. by exists r.
Qed.

Lemma progress_keeps n ks k c c' : keeps n c c' -> progress n ks k c -> progress n ks k c'.
Proof.
  intros [K1 K2 K3 K4 K5 K6] [H1 H2 H3 H4]. split; [congruence|auto|lia|]. destruct H4 as [[Hlt (a & token & Hf)]|(Hle & Hr & Hn)]; [left|right].
  - split; [done|]. exists a, token. apply K1; [|done]. simpl. apply Nat.eqb_refl.
  - auto.
Qed.

Lemma reauth_progress n ks k c :
  asked_by n c = take k ks -> (forall a, a ∈ ks -> a ∈ (cl_accounts c).*1) -> (n < cl_conns c)%nat -> n ∉ tags c -> (k <= length ks)%nat ->
  progress n ks k (_reauth_all n (drop k ks) c).
Proof.
  intros Ha Hacc Hlt Hn Hle. destruct (ks !! k) as [a|] eqn:Ek.
  - rewrite (drop_S _ _ _ Ek). simpl. unfold _send_account_auth.
    assert (a ∈ (cl_accounts c).*1) as Hin by (apply Hacc; by eapply list_elem_of_lookup_2).
    destruct (od_get a (cl_accounts c)) as [token|] eqn:Eg; [|by apply od_get_None in Eg].
    split; try done.
    + rewrite (asked_by_app n c [(n, a)]) by done. rewrite Ha. simpl. rewrite Nat.eqb_refl. simpl. symmetry. by apply take_S_r.
    + left. split; [by eapply lookup_lt_Some|]. exists a, token. unfold frames. simpl. rewrite fmap_app. apply elem_of_app. right. by apply list_elem_of_singleton.
  - apply lookup_ge_None in Ek. rewrite drop_ge by done. split; try done.
    + change (asked_by n c = take (S k) ks). rewrite Ha, !take_ge by lia. done.
    + right. done.
Qed.

Lemma settle_progress transport n ks k c e :
  loops_ok c -> progress n ks k c -> settles_loop n c e = true -> progress n ks (S k) (client_step transport c e).
Proof.
  intros Hok Hp Hs.
  assert (forall id r c', take_request id c = Some (r, c') -> is_loop n (rq_frame r) = true ->
    (k < length ks)%nat /\ exists a token, rq_frame r = AccountAuth a token (ReauthLoop n (drop (S k) ks)) /\
    forall c1, cl_requests c1 = cl_requests c' -> cl_conns c1 = cl_conns c' -> cl_asked c1 = cl_asked c' -> cl_accounts c1 = cl_accounts c' ->
    progress n ks (S k) (_reauth_all n (drop (S k) ks) c1)) as Hours.
  { intros id r c' Et Hl. pose proof (take_request_spec _ _ _ _ Et) as (Hr & _ & Ec'). destruct (take_loops _ _ _ _ Hok Et) as [_ Htag].
    assert (loop_tag r = Some n) as Ht.
    { unfold loop_tag. destruct (rq_frame r) as [|? ? [|m ?|]|]; try done. simpl in *. apply Nat.eqb_eq in Hl. by subst m. }
    destruct (Htag n Ht) as [Hn Hlt]. destruct Hp as [H1 H2 H3 H4]. destruct H4 as [[Hk (a & token & Hf)]|(_ & _ & Hn')].
    - split; [done|]. exists a, token. apply loop_request in Hf as (r' & Hr' & Ht' & Ef). split; [by rewrite (tag_unique c r r' n)|].
      intros c1 E1 E2 E3 E4. rewrite Ec' in E3, E4. apply reauth_progress; [|by rewrite E4|by rewrite E2| |lia].
      + unfold asked_by in *. by rewrite E3.
      + unfold tags. by rewrite E1.
    - exfalso. apply Hn'. apply list_elem_of_omap. by exists r. }
  destruct e as [| | |id ans|id|a token|a| |a|a|id]; simpl in *; try done.
  - unfold answered. destruct (take_request id c) as [[r c']|] eqn:Et; [|done]. apply andb_prop in Hs as [Hl Hc].
    apply bool_decide_eq_true in Hc as [Hc [m Hm]]. rewrite Hm in *. rewrite bool_decide_eq_true_2 by done.
    destruct (Hours id r c' Et Hl) as (_ & a & token & -> & Hprog). simpl. destruct (response_parts ans m a c') as (P1 & _ & P3 & _ & P5 & P6 & _).
    by apply Hprog.
  - unfold expired. destruct (take_request id c) as [[r c']|] eqn:Et; [|done].
    destruct (Hours id r c' Et Hs) as (_ & a & token & -> & Hprog). simpl. by apply Hprog.
Qed.

(** The answers and time-outs of the loop's requests in a run *)
Fixpoint settlements (transport : nat -> write_result) (n : nat) (c : CTraderClient) (es : list client_event) : nat :=
  match es with
  | [] => 0
  | e :: es' => (if settles_loop n c e then 1 else 0) + settlements transport n (client_step transport c e) es'
  end.

Lemma run_progress transport n ks k c es :
  loops_ok c -> progress n ks k c -> forallb (fun e => negb (is_deauthorize e)) es = true ->
  progress n ks (k + settlements transport n c es) (foldl (client_step transport) c es).
Proof.
  revert k c. induction es as [|e es IH]; intros k c Hok Hp Hd; simpl in *; [by rewrite Nat.add_0_r|].
  apply andb_prop in Hd as [He Hd]. apply negb_true_iff in He. destruct (settles_loop n c e) eqn:Es.
  - replace (k + (1 + _))%nat with (S k + settlements transport n (client_step transport c e) es)%nat by lia.
    apply IH; [by apply step_loops|by apply settle_progress|done].
  - simpl. apply IH; [by apply step_loops| |done]. eapply progress_keeps; [|exact Hp]. apply keeps_step; [done|by eapply progress_begun|done|done].
Qed.

(** C12: after a reconnect every registered account is asked for again. Once
    the application's authorization of a connection is answered, and as long as
    no account is removed, the loop has, after [k] of its requests were answered
    or timed out, asked for exactly the first [k + 1] registered accounts in
    their order, one at a time and none twice, whatever else is answered, lost,
    sent or authorized meanwhile; and after as many as there are accounts the
    client is ready. *)
Theorem reauth_reaches_every_account (transport : nat -> write_result) (s : db) (es es' : list client_event) (id n : nat) (ans : answer) (c' : CTraderClient) :
  let c := run_client transport s es in
  cl_conn c = Some n -> take_request id c = Some ({| rq_id := id; rq_frame := AppAuth; rq_conn := Some n |}, c') ->
  forallb (fun e => negb (is_deauthorize e)) es' = true ->
  let ks := (cl_accounts c).*1 in
  let c0 := client_step transport c (Answered id ans) in
  let k := settlements transport n c0 es' in
  let w := foldl (client_step transport) c0 es' in
  asked_by n w = take (S k) ks /\ ((length ks <= k)%nat -> cl_ready w = true).
Proof.
  intros c Hc Ht Hd ks c0 k w. assert (loops_ok c) as Hok by apply run_loops.
  pose proof (take_request_spec _ _ _ _ Ht) as (Hr & _ & Ec'). destruct (take_loops _ _ _ _ Hok Ht) as [_ Htag].
  destruct (Htag n eq_refl) as [Hn Hlt].
  assert (asked_by n c = []) as Ha by (destruct (lo_app c Hok _ Hr eq_refl) as (m & [= ->] & Ha); exact Ha).
  assert (progress n ks 0 c0) as Hp.
  { unfold c0. simpl. unfold answered. rewrite Ht, Hc, bool_decide_eq_true_2 by done. simpl. unfold _on_app_authed.
    replace (cl_accounts (set_flags (cl_ready c') true c')).*1 with (drop 0 ks) by (by rewrite Ec').
    apply reauth_progress; [by rewrite Ec'|by rewrite Ec'|done|done|lia]. }
  assert (loops_ok c0) as Hok0 by (by apply step_loops).
  destruct (run_progress transport n ks 0 c0 es' Hok0 Hp Hd) as [H1 _ _ H4]. split; [exact H1|].
  intros Hle. destruct H4 as [[Hlt' _]|(_ & Hready & _)]; [|done]. simpl in Hlt'. unfold k in Hle. lia.
Qed.

(** ** A demonstration *)

Definition demo_lost : list client_event :=
  [Connected; Answered 0 OtherAnswer; Authorize 7 (Ok "t7"); Authorize 8 (Ok "t8"); Authorize 9 (Ok "t9");
   Answered 1 OtherAnswer; Answered 2 OtherAnswer; Answered 3 OtherAnswer; Disconnected; Connected].
Definition demo_meanwhile : list client_event := [Trade 7; Answered 5 OtherAnswer; Authorize 10 (Ok "t10"); Expired 7; Trade 7; Answered 9 OtherAnswer].

Lemma reauth_reaches_every_account_witness :
  asked_by 1 (foldl (client_step (fun _ => Written))
    (client_step (fun _ => Written) (run_client (fun _ => Written) demo_clients_db demo_lost) (Answered 4 OtherAnswer)) demo_meanwhile) = [7; 8; 9].
Proof.
  destruct (reauth_reaches_every_account (fun _ => Written) demo_clients_db demo_lost demo_meanwhile 4 1 OtherAnswer
    (set_requests [] 5 (demo_run demo_lost))) as [Hasked _]; [vm_compute; reflexivity|vm_compute; reflexivity|reflexivity|].
  refine (eq_trans Hasked _). vm_compute. reflexivity.
Defined.

(** [_reauth_all] reads the token of an account when its turn comes: one that was
    removed in the meantime raises out of the loop, and the accounts behind it
    are never asked for on this connection, though its comment says that nothing
    can abandon them. *)
Example removal_abandons_the_rest :
  let w := foldl (client_step (fun _ => Written)) (demo_run demo_lost) [Answered 4 OtherAnswer; Deauthorize 8; Answered 5 OtherAnswer] in
  asked_by 1 w = [7] /\ cl_ready w = true /\ cl_requests w = [] /\ od_mem 9 (cl_accounts w) = true /\ is_account_authed 9 w = false.
Proof. vm_compute. done. Qed.
