(* ===== verification/Backfill.v ===== *)
(** * The deal backfill: [engine/backfill.py] and its tick in [main.py]

    A background walk that fetches each cTrader account's deals a week at a time,
    one window of one account per tick: backwards from the first tick to the bound
    of [max_years], then forwards.  What the broker answers to each request of a
    tick is a parameter of the tick, and so is whether the account's client is
    there.  A fetched deal becomes a row handed to the background writer of
    [Writer], which runs on beside the ticks and may refuse it: the code does not
    look, and [bk_refused] keeps what was refused.  The windows the code reports as
    unreachable are kept in [bk_unreachable].

    The promise, in the second half: a window's deals are all fetched or the loss
    is reported, within 127 requests; every deal that the watermarks span is
    accounted for; and every account's history is walked to the bound. *)

From S2P Require Import Prelude PyStr PyFloat Models Db Bridge Deals Mt5Db Writer WriterFacts WriterRuns.
From Stdlib Require Import SpecFloat.

Definition WEEK_MS : Z := 7 * 24 * 3600 * 1000.
Definition YEAR_MS : Z := 365 * 24 * 3600 * 1000.
Definition DEAL_WINDOW_MIN_MS : Z := 60 * 60 * 1000.
Definition DEAL_WINDOW_MAX_FETCHES : nat := 64.

(** ** The next window *)

Definition reached_history_bound (from_ms now_ms max_years : Z) : bool := max_years * YEAR_MS <=? now_ms - from_ms.

(** [state.get("backfilled_to_ms") or now_ms]: zero is false too. *)
Definition next_window (state : option BackfillRow) (now_ms max_years : Z) : option (Z * Z) :=
  match state with
  | None => Some (now_ms - WEEK_MS, now_ms)
  | Some r =>
      if bf_exhausted r
      then let to_ms := match bf_to_ms r with Some t => if t =? 0 then now_ms else t | None => now_ms end in
           if now_ms <=? to_ms then None else Some (to_ms, Z.min now_ms (to_ms + WEEK_MS))
      else match bf_from_ms r with
           | None => Some (now_ms - WEEK_MS, now_ms)
           | Some from_ms => if reached_history_bound from_ms now_ms max_years then None else Some (from_ms - WEEK_MS, from_ms)
           end
  end.

(** ** A deal and its row *)

(** What [queries.deal_history] makes of a deal *)
Record BrokerDeal := {
  bd_deal_id : Z;
  bd_order_id : Z;
  bd_position_id : Z;
  bd_symbol_id : Z;
  bd_symbol : option string;
  bd_side : string;
  bd_volume : Z;
  bd_filled_volume : Z;
  bd_volume_lots : option string;
  bd_execution_price : price;
  bd_status : string;
  bd_commission : price;
  bd_create_timestamp : Z;
  bd_execution_timestamp : Z;
  bd_close : option close_detail
}.

Inductive column := CNull | CInt (z : Z) | CFloat (x : float64) | CStr (s : string) | CBool (b : bool).
#[export] Instance column_eq_dec : EqDecision column.
Proof. solve_decision. Defined.

#[export] Instance float64_countable : Countable float64.
Proof.
  apply (inj_countable'
    (fun x => match x with
              | S754_zero b => inl b | S754_infinity b => inr (inl b) | S754_nan => inr (inr (inl tt))
              | S754_finite b m e => inr (inr (inr (b, m, e)))
              end)
    (fun c : bool + (bool + (unit + bool * positive * Z)) => match c with
              | inl b => S754_zero b | inr (inl b) => S754_infinity b | inr (inr (inl _)) => S754_nan
              | inr (inr (inr (b, m, e))) => S754_finite b m e
              end)).
  by intros [].
Defined.
#[export] Instance column_countable : Countable column.
Proof.
  apply (inj_countable'
    (fun x => match x with CNull => inl tt | CInt z => inr (inl z) | CFloat f => inr (inr (inl f))
                         | CStr s => inr (inr (inr (inl s))) | CBool b => inr (inr (inr (inr b))) end)
    (fun c : unit + (Z + (float64 + (string + bool))) => match c with
              | inl _ => CNull | inr (inl z) => CInt z | inr (inr (inl f)) => CFloat f
              | inr (inr (inr (inl s))) => CStr s | inr (inr (inr (inr b))) => CBool b end)).
  by intros [].
Defined.

Definition c_opt {A} (c : A -> column) (x : option A) : column := match x with Some x => c x | None => CNull end.

(** [close = d.get('close') or {}]; a cTrader deal has neither a label nor the
    fallbacks of an MT5 deal. *)
Definition _deal_row (account_id : Z) (org_id : option Z) (d : BrokerDeal) : gmap string column :=
  let close {A} (f : close_detail -> A) := f <$> bd_close d in
  list_to_map
    [("account_id", CInt account_id); ("deal_id", CInt (bd_deal_id d)); ("org_id", c_opt CInt org_id);
     ("order_id", CInt (bd_order_id d)); ("position_id", CInt (bd_position_id d)); ("symbol_id", CInt (bd_symbol_id d));
     ("symbol", c_opt CStr (bd_symbol d)); ("side", CStr (bd_side d)); ("volume", CInt (bd_volume d));
     ("filled_volume", CInt (bd_filled_volume d)); ("execution_price", c_opt CFloat (bd_execution_price d));
     ("status", CStr (bd_status d)); ("commission", c_opt CFloat (bd_commission d));
     ("create_timestamp", CInt (bd_create_timestamp d)); ("execution_timestamp", CInt (bd_execution_timestamp d));
     ("label", CNull); ("is_close", CBool (bool_decide (is_Some (bd_close d))));
     ("entry_price", c_opt CFloat (mjoin (close cd_entry_price))); ("gross_profit", c_opt CFloat (close cd_gross_profit));
     ("swap", c_opt CFloat (close cd_swap)); ("balance_after", c_opt CFloat (close cd_balance));
     ("closed_volume", c_opt CInt (close cd_closed_volume))].

(** What [self.writer.submit] is given for a deal *)
Definition deal_op (account_id : Z) (org_id : option Z) (d : BrokerDeal) : @WriteOp column :=
  {| op_table := "deals"; op_row := _deal_row account_id org_id d; op_upsert_key := Some ["account_id"; "deal_id"] |}.

Section backfill.
Context (schema : string -> option (list string)) (accepts : string -> gmap string column -> bool).
Context (maxsize batch_size : nat) (batch_interval : Z).
Abbreviation move := (move schema accepts maxsize batch_size batch_interval).

(** ** One window *)

(** [queries.deal_history], by the number of the request within the tick *)
Definition history : Type := nat -> Z -> Z -> result (list BrokerDeal * bool).

(** [pending] is a stack; its top is the list's head. *)
Fixpoint fetch_loop (deal_history : history) (fuel : nat) (pending : list (Z * Z)) (fetches : nat) (deals : list BrokerDeal)
    (unreachable : list (Z * Z)) : option (result (list BrokerDeal * list (Z * Z))) :=
  match fuel with
  | O => None
  | S fuel' =>
      match pending with
      | [] => Some (Ok (deals, unreachable))
      | (lo, hi) :: pending' =>
          match deal_history fetches lo hi with
          | Raise e => Some (Raise e)
          | Ok (new, has_more) =>
              let fetches := S fetches in
              let deals := deals ++ new in
              if negb has_more then fetch_loop deal_history fuel' pending' fetches deals unreachable
              else if (hi - lo <=? DEAL_WINDOW_MIN_MS) || (DEAL_WINDOW_MAX_FETCHES <=? fetches)%nat
              then fetch_loop deal_history fuel' pending' fetches deals (unreachable ++ [(lo, hi)])
              else let mid := (lo + hi) / 2 in
                   fetch_loop deal_history fuel' ((mid, hi) :: (lo, mid) :: pending') fetches deals unreachable
          end
      end
  end.

(** At most 127 requests, so 128 rounds. *)
Definition FETCH_FUEL : nat := 128.
Definition _fetch_deal_window (deal_history : history) (from_ms to_ms : Z) : option (result (list BrokerDeal * list (Z * Z))) :=
  fetch_loop deal_history FETCH_FUEL [(from_ms, to_ms)] 0 [] [].

(** ** One tick *)

Record backfill := {
  bk_cursor : nat;
  bk_tables : mt5_tables;
  bk_writer : @AsyncWriter column _ _;
  bk_refused : list (@WriteOp column);
  bk_unreachable : list (Z * (Z * Z))
}.

(** [tk_meanwhile n] is what happens to the writer before the tick's [n]-th row is
    submitted: the steps of its own thread. *)
Record tick := {
  tk_accounts : result (list AccountRow);
  tk_now_ms : Z;
  tk_client : AccountRow -> bool;
  tk_history : Z -> history;
  tk_meanwhile : nat -> list (@writer_move column)
}.

Definition with_writer (w : @AsyncWriter column _ _) (refused : list WriteOp) (s : backfill) : backfill :=
  {| bk_cursor := bk_cursor s; bk_tables := bk_tables s; bk_writer := w; bk_refused := bk_refused s ++ refused;
     bk_unreachable := bk_unreachable s |}.

(** One row: the answer of [submit] is dropped. *)
Definition submit_row (before : list writer_move) (op : WriteOp) (s : backfill) : backfill :=
  let '(kept, w) := submit maxsize op (foldl move (bk_writer s) before) in
  with_writer w (if kept then [] else [op]) s.

Fixpoint submit_rows (meanwhile : nat -> list writer_move) (ops : list WriteOp) (s : backfill) : backfill :=
  match ops with
  | [] => s
  | op :: ops' => submit_rows (fun n => meanwhile (S n)) ops' (submit_row (meanwhile 0%nat) op s)
  end.

(** [Repo.upsert_deals] with its writer attached *)
Definition upsert_deals (meanwhile : nat -> list writer_move) (account_id : Z) (org_id : option Z) (deals : list BrokerDeal)
    (s : backfill) : backfill := submit_rows meanwhile (deal_op account_id org_id <$> deals) s.

Definition get_backfill_state (account_id : Z) (s : backfill) : option BackfillRow := t_backfill (bk_tables s) !! account_id.

Context (max_years : Z).

(** The window found: fetched, its rows submitted, the watermarks moved; an error
    of the broker leaves all as it is. *)
Definition serve_window (t : tick) (acc : AccountRow) (window : Z * Z) (s : backfill) : backfill :=
  let account_id := acc_account_id acc in
  let '(from_ms, to_ms) := window in
  match _fetch_deal_window (tk_history t account_id) from_ms to_ms with
  | Some (Ok (deals, unreachable)) =>
      let exhausted := match get_backfill_state account_id s with Some r => bf_exhausted r | None => false end
                       || reached_history_bound from_ms (tk_now_ms t) max_years in
      let s := upsert_deals (tk_meanwhile t) account_id (Some (acc_org_id acc)) deals s in
      {| bk_cursor := bk_cursor s; bk_tables := (set_backfill_state account_id (Some from_ms) (Some to_ms) exhausted (bk_tables s)).2;
         bk_writer := bk_writer s; bk_refused := bk_refused s;
         bk_unreachable := bk_unreachable s ++ ((fun w => (account_id, w)) <$> unreachable) |}
  | _ => s
  end.

(** The first account from the cursor on that has a window and a client *)
Fixpoint serve_first (t : tick) (accounts : list AccountRow) (s : backfill) : backfill :=
  match accounts with
  | [] => s
  | acc :: accounts' =>
      match next_window (get_backfill_state (acc_account_id acc) s) (tk_now_ms t) max_years with
      | None => serve_first t accounts' s
      | Some window => if tk_client t acc then serve_window t acc window s else serve_first t accounts' s
      end
  end.

Definition by_account_id (a b : AccountRow) : Prop := acc_account_id a <= acc_account_id b.
#[local] Instance by_account_id_dec : RelDecision by_account_id.
Proof. intros a b. unfold by_account_id. apply _. Defined.
Definition backfill_accounts (rows : list AccountRow) : list AccountRow :=
  merge_sort by_account_id (List.filter (fun a => negb (bool_decide (acc_platform a = MT5))) rows).

Definition backfill_deals_once (t : tick) (s : backfill) : backfill :=
  match tk_accounts t with
  | Raise _ => s
  | Ok rows =>
      match backfill_accounts rows with
      | [] => s
      | accounts =>
          let start := (bk_cursor s mod length accounts)%nat in
          serve_first t (drop start accounts ++ take start accounts)
            {| bk_cursor := S start; bk_tables := bk_tables s; bk_writer := bk_writer s; bk_refused := bk_refused s;
               bk_unreachable := bk_unreachable s |}
      end
  end.

(** Ticks, and the writer's own life between them: its thread, other components'
    rows, its shutdown *)
Inductive backfill_move := BackfillTick (t : tick) | WriterMove (m : @writer_move column).
Definition backfill_step (s : backfill) (m : backfill_move) : backfill :=
  match m with
  | BackfillTick t => backfill_deals_once t s
  | WriterMove m => with_writer (move (bk_writer s) m) [] s
  end.
Definition run_backfill (ms : list backfill_move) (s : backfill) : backfill := foldl backfill_step s ms.

(** ** What the Performance page is told *)

(** [get_analytics]' flag for the last [weeks] weeks, zero meaning all *)
Definition analytics_since (weeks now_ms : Z) : option Z :=
  if weeks =? 0 then None else Some (now_ms - Z.max 1 (Z.min weeks 26) * WEEK_MS).
Definition truncated (account_id weeks now_ms : Z) (s : backfill) : bool :=
  match get_backfill_state account_id s with
  | None => true
  | Some r =>
      if bf_exhausted r then false
      else match bf_from_ms r, analytics_since weeks now_ms with
           | Some from_ms, Some since_ms => since_ms <? from_ms
           | _, _ => true
           end
  end.
End backfill.

(** ** The promise *)

Section facts.

(** ** One window *)

#[local] Opaque DEAL_WINDOW_MAX_FETCHES FETCH_FUEL.

(** What is left to fetch: each request pops a window; one that splits it uses up
    one of the requests that may. *)
Definition requests_left (pending : list (Z * Z)) (fetches : nat) : nat :=
  (length pending + 2 * (DEAL_WINDOW_MAX_FETCHES - 1 - fetches))%nat.

Lemma fetch_ends (h : history) fuel pending fetches deals un :
  (requests_left pending fetches < fuel)%nat -> exists r, fetch_loop h fuel pending fetches deals un = Some r.
Proof.
  revert pending fetches deals un. induction fuel as [|fuel IH]; intros pending fetches deals un Hlt; [lia|]. simpl.
  destruct pending as [|[lo hi] pending]; [by eexists|]. destruct (h fetches lo hi) as [[new more]|e]; [|by eexists].
  unfold requests_left in *. cbn [length] in Hlt. destruct (negb more); [apply IH; lia|].
  destruct (_ || _) eqn:Es; [apply IH; lia|]. apply orb_false_iff in Es as [_ Es]. apply Nat.leb_gt in Es. apply IH. cbn [length]. lia.
Qed.

Definition within (w : Z * Z) (d : BrokerDeal) : Prop := w.1 <= bd_execution_timestamp d <= w.2.

(** An answer that says it is whole holds every deal of its window. *)
Definition honest (broker : list BrokerDeal) (h : history) : Prop :=
  forall k lo hi ds, h k lo hi = Ok (ds, false) -> forall d, d ∈ broker -> within (lo, hi) d -> d ∈ ds.

Lemma fetch_covers (h : history) broker fuel pending fetches deals un deals' un' :
  honest broker h -> fetch_loop h fuel pending fetches deals un = Some (Ok (deals', un')) ->
  forall d, d ∈ broker -> (d ∈ deals \/ (exists w, w ∈ un /\ within w d) \/ (exists w, w ∈ pending /\ within w d)) ->
  d ∈ deals' \/ exists w, w ∈ un' /\ within w d.
Proof.
  intros Hh. revert pending fetches deals un. induction fuel as [|fuel IH]; intros pending fetches deals un; simpl; [done|].
  destruct pending as [|[lo hi] pending].
  - intros [= -> ->] d _ [Hd|[Hw|(w & Hw & _)]]; [by left|by right|by apply elem_of_nil in Hw].
  - destruct (h fetches lo hi) as [[new more]|e] eqn:Eh; [|done]. intros Hf d Hb Hd.
    assert (d ∈ deals ++ new \/ (exists w, w ∈ un /\ within w d) \/ (exists w, w ∈ pending /\ within w d) \/ (within (lo, hi) d /\ (more = false -> d ∈ new)))
      as Hcase.
    { destruct Hd as [Hd|[Hw|(w & [->|Hw]%elem_of_cons & Hin)]]; [left; apply elem_of_app; by left|by right; left| |by right; right; left; exists w].
      right; right; right. split; [done|]. intros ->. by eapply Hh. }
    assert (forall fe u p, fetch_loop h fuel p fe (deals ++ new) u = Some (Ok (deals', un')) ->
      (within (lo, hi) d -> d ∈ deals ++ new \/ (exists w, w ∈ u /\ within w d) \/ exists w, w ∈ p /\ within w d) ->
      (forall w, w ∈ un -> w ∈ u) -> (forall w, w ∈ pending -> w ∈ p) -> d ∈ deals' \/ exists w, w ∈ un' /\ within w d) as Hnext.
    { intros fe u p Hloop Hin Hu Hp. eapply IH; [exact Hloop|exact Hb|].
      destruct Hcase as [?|[(w & Hw & ?)|[(w & Hw & ?)|[Hw _]]]]; [by left|right; left; exists w; auto|right; right; exists w; auto|by apply Hin]. }
    destruct more; simpl in Hf.
    + destruct (_ || _).
      * eapply Hnext; [exact Hf| |intros w Hw; apply elem_of_app; by left|done]. intros Hin. right; left. exists (lo, hi). split; [|done].
        apply elem_of_app. right. by apply list_elem_of_singleton.
      * eapply Hnext; [exact Hf| |done|intros w Hw; set_solver]. intros Hin. right; right. unfold within in *. simpl in *.
        destruct (Z.le_ge_cases (bd_execution_timestamp d) ((lo + hi) / 2)); [exists (lo, (lo + hi) / 2)|exists ((lo + hi) / 2, hi)]; simpl; (split; [set_solver|lia]).
    + eapply Hnext; [exact Hf| |done|done]. intros Hin. destruct Hcase as [?|[?|[?|[_ Hnew]]]]; [by left|by right; left|by right; right|].
      left. apply elem_of_app. right. by apply Hnew.
Qed.

Lemma window_covers (h : history) broker f u deals un :
  honest broker h -> _fetch_deal_window h f u = Some (Ok (deals, un)) ->
  forall d, d ∈ broker -> within (f, u) d -> d ∈ deals \/ exists w, w ∈ un /\ within w d.
Proof.
  intros Hh Hr d Hb Hd. unfold _fetch_deal_window in Hr. eapply (fetch_covers h broker FETCH_FUEL); [done|exact Hr|done|].
  right; right. exists (f, u). split; [by apply list_elem_of_singleton|done].
Qed.

(** A window's deals are all fetched, or the loss is reported. Bisecting
    around the broker's row limit ends after at most 127 requests, whatever the
    broker answers; and if the broker's complete answers are complete, every
    deal of the window was fetched or lies in a sub-window reported as
    unreachable. *)
Theorem window_fetched_or_reported (h : history) (from_ms to_ms : Z) (broker : list BrokerDeal) :
  exists r, _fetch_deal_window h from_ms to_ms = Some r /\
  forall deals unreachable, r = Ok (deals, unreachable) -> honest broker h ->
  forall d, d ∈ broker -> within (from_ms, to_ms) d -> d ∈ deals \/ exists w, w ∈ unreachable /\ within w d.
Proof.
  destruct (fetch_ends h FETCH_FUEL [(from_ms, to_ms)] 0 [] []) as [r Hr]; [by apply Nat.ltb_lt|].
  exists r. split; [done|]. intros deals un ->. intros Hh. by apply window_covers with (h := h).
Qed.

(** ** No gap *)

Context (schema : string -> option (list string)) (accepts : string -> gmap string column -> bool).
Context (maxsize batch_size : nat) (batch_interval : Z).
Context (max_years : Z) (brokers : Z -> list BrokerDeal).
Abbreviation state_of := get_backfill_state.
Abbreviation move := (move schema accepts maxsize batch_size batch_interval).
Abbreviation submit_row := (submit_row schema accepts maxsize batch_size batch_interval).
Abbreviation submit_rows := (submit_rows schema accepts maxsize batch_size batch_interval).
Abbreviation upsert_deals := (upsert_deals schema accepts maxsize batch_size batch_interval).
Abbreviation serve_window := (serve_window schema accepts maxsize batch_size batch_interval max_years).
Abbreviation serve_first := (serve_first schema accepts maxsize batch_size batch_interval max_years).
Abbreviation backfill_deals_once := (backfill_deals_once schema accepts maxsize batch_size batch_interval max_years).
Abbreviation backfill_step := (backfill_step schema accepts maxsize batch_size batch_interval max_years).
Abbreviation run_backfill := (run_backfill schema accepts maxsize batch_size batch_interval max_years).

(** *** Rows that were submitted *)

(** The writer accepted the row, or refused it. *)
Definition submitted (op : WriteOp) (s : backfill) : Prop := op ∈ aw_accepted (bk_writer s) \/ op ∈ bk_refused s.

(** What submitting preserves: rows submitted stay submitted, each refusal is
    counted, and the writer is one that ran from [st0]. *)
Record submits (st0 : store) (s s' : backfill) : Prop := {
  sub_rows : forall op, submitted op s -> submitted op s';
  sub_tables : bk_tables s' = bk_tables s;
  sub_cursor : bk_cursor s' = bk_cursor s;
  sub_unreachable : bk_unreachable s' = bk_unreachable s;
  sub_counted : Z.of_nat (length (bk_refused s')) - Z.of_nat (length (bk_refused s)) <= aw_dropped (bk_writer s') - aw_dropped (bk_writer s);
  sub_writer : (exists ms, accounts schema accepts maxsize batch_size st0 ms (bk_writer s)) ->
               exists ms, accounts schema accepts maxsize batch_size st0 ms (bk_writer s')
}.
#[local] Instance submits_refl st0 : Reflexive (submits st0).
Proof. intros s. split; try done; lia. Qed.
#[local] Instance submits_trans st0 : Transitive (submits st0).
Proof. intros x y z [] []. split; try congruence; try (intros; eauto; lia); auto. Qed.

Lemma move_grows w m : (forall op, op ∈ aw_accepted w -> op ∈ aw_accepted (move w m)) /\ aw_dropped w <= aw_dropped (move w m).
Proof.
  destruct m as [o|l| |l|d]; simpl.
  - unfold submit. destruct (full maxsize w); simpl; (split; [|lia]); [done|]. intros op Hop. apply elem_of_app. by left.
  - unfold thread_step, attempt_batch. repeat case_match; by split.
  - by split.
  - destruct (aw_stop w); [|by split]. unfold finish_flush. destruct (write_remaining _ _ _ _ _). by split.
  - by split.
Qed.

Lemma meanwhile_submits st0 ms s : submits st0 s (with_writer (foldl move (bk_writer s) ms) [] s).
Proof.
  assert ((forall op, op ∈ aw_accepted (bk_writer s) -> op ∈ aw_accepted (foldl move (bk_writer s) ms)) /\
    aw_dropped (bk_writer s) <= aw_dropped (foldl move (bk_writer s) ms)) as [Ha Hd].
  { generalize (bk_writer s). induction ms as [|m ms IH]; intros w; [done|]. simpl. destruct (IH (move w m)) as [Ha Hd], (move_grows w m) as [Hb He].
    split; [auto|lia]. }
  split; simpl; try done; rewrite ?app_nil_r.
  - intros op [Hop|Hop]; [left; by apply Ha|right; simpl; by rewrite app_nil_r].
  - lia.
  - intros [ms0 Hw]. exists (ms0 ++ ms). clear Ha Hd. revert ms0 Hw. generalize (bk_writer s).
    induction ms as [|m ms IH]; intros w ms0 Hw; [by rewrite app_nil_r|]. rewrite cons_middle, app_assoc. by apply IH, move_accounts.
Qed.

Lemma submit_row_submits st0 ms op s : submits st0 s (submit_row ms op s) /\ submitted op (submit_row ms op s).
Proof.
  unfold Backfill.submit_row. pose proof (meanwhile_submits st0 ms s) as Hm. set (w := foldl move (bk_writer s) ms) in *.
  assert (submits st0 (with_writer w [] s) (let '(kept, w') := submit maxsize op w in with_writer w' (if kept then [] else [op]) s) /\
    submitted op (let '(kept, w') := submit maxsize op w in with_writer w' (if kept then [] else [op]) s)) as [Hs Hop].
  2: { split; [|exact Hop]. by etrans. }
  pose proof (move_accounts schema accepts maxsize batch_size batch_interval st0) as Hacc. clear Hm.
  unfold submit in *. destruct (full maxsize w) eqn:Ef; (split; [split; simpl; try done|]).
  - intros o [Ho|Ho]; [by left|right]. simpl in *. rewrite app_nil_r in Ho. apply elem_of_app. by left.
  - rewrite app_nil_r, length_app. simpl. lia.
  - intros [ms0 Hw]. exists (ms0 ++ [Submit op]). specialize (Hacc ms0 w (Submit op) Hw). simpl in Hacc. unfold submit in Hacc. by rewrite Ef in Hacc.
  - right. simpl. apply elem_of_app. right. by apply list_elem_of_singleton.
  - intros o [Ho|Ho]; [left|by right]. simpl in *. apply elem_of_app. by left.
  - rewrite !app_nil_r. lia.
  - intros [ms0 Hw]. exists (ms0 ++ [Submit op]). specialize (Hacc ms0 w (Submit op) Hw). simpl in Hacc. unfold submit in Hacc. by rewrite Ef in Hacc.
  - left. simpl. apply elem_of_app. right. by apply list_elem_of_singleton.
Qed.

Lemma submit_rows_submits st0 meanwhile ops s :
  submits st0 s (submit_rows meanwhile ops s) /\ forall op, op ∈ ops -> submitted op (submit_rows meanwhile ops s).
Proof.
  revert meanwhile s. induction ops as [|op ops IH]; intros meanwhile s; simpl; [by split; [|by intros ? ?%elem_of_nil]|].
  destruct (submit_row_submits st0 (meanwhile 0%nat) op s) as [H1 Hop]. destruct (IH (fun n => meanwhile (S n)) (submit_row (meanwhile 0%nat) op s)) as [H2 Hops].
  split; [by etrans|]. intros o [->|Ho]%elem_of_cons; [by apply H2|by apply Hops].
Qed.

(** *** Deals that are accounted for *)

(** The deal's row was submitted, or the deal reported as unreachable. *)
Definition accounted (a : Z) (d : BrokerDeal) (s : backfill) : Prop :=
  (exists org, submitted (deal_op a (Some org) d) s) \/ exists w, (a, w) ∈ bk_unreachable s /\ within w d.
Definition spanned (a : Z) (f u : Z) (s : backfill) : Prop :=
  forall d, d ∈ brokers a -> f <= bd_execution_timestamp d <= u -> accounted a d s.
Definition no_gap (s : backfill) : Prop := forall a r, state_of a s = Some r ->
  exists f u, bf_from_ms r = Some f /\ bf_to_ms r = Some u /\ f <= u /\ spanned a f u s.

(** What a served window leaves *)
Lemma serve_window_cases t acc f u s :
  serve_window t acc (f, u) s = s \/
  exists deals un, _fetch_deal_window (tk_history t (acc_account_id acc)) f u = Some (Ok (deals, un)) /\
    let s' := serve_window t acc (f, u) s in let a := acc_account_id acc in
    let mid := upsert_deals (tk_meanwhile t) a (Some (acc_org_id acc)) deals s in
    bk_cursor s' = bk_cursor s /\ bk_writer s' = bk_writer mid /\ bk_refused s' = bk_refused mid /\
    bk_unreachable s' = bk_unreachable s ++ ((fun w => (a, w)) <$> un) /\
    (forall b, b <> a -> state_of b s' = state_of b s) /\
    let exhausted := match state_of a s with Some r => bf_exhausted r | None => false end || reached_history_bound f (tk_now_ms t) max_years in
    state_of a s' = Some (match state_of a s with
      | None => {| bf_from_ms := Some f; bf_to_ms := Some u; bf_exhausted := exhausted |}
      | Some r => {| bf_from_ms := sql_least (bf_from_ms r) (Some f); bf_to_ms := sql_greatest (bf_to_ms r) (Some u); bf_exhausted := exhausted |}
      end).
Proof.
  unfold Backfill.serve_window. destruct (_fetch_deal_window _ _ _) as [[[deals un]|e]|]; [|by left|by left]. right. exists deals, un. split; [done|].
  cbn zeta. set (mid := upsert_deals _ _ _ deals s).
  destruct (submit_rows_submits (aw_store (bk_writer s)) (tk_meanwhile t) (deal_op (acc_account_id acc) (Some (acc_org_id acc)) <$> deals) s) as [[] _].
  assert (bk_tables mid = bk_tables s) as Ht by done. assert (bk_cursor mid = bk_cursor s) as Hc by done.
  assert (bk_unreachable mid = bk_unreachable s) as Hu by done. clearbody mid. unfold state_of. simpl. rewrite Ht, Hc, Hu. split_and!; try done.
  - intros b Hb. by rewrite lookup_insert_ne.
  - by rewrite lookup_insert_eq.
Qed.

(** A window's rows are submitted, its losses reported; what was, stays. *)
Lemma serve_submits st0 t acc f u s :
  let s' := serve_window t acc (f, u) s in
  (forall op, submitted op s -> submitted op s') /\ (forall x, x ∈ bk_unreachable s -> x ∈ bk_unreachable s') /\
  Z.of_nat (length (bk_refused s')) - Z.of_nat (length (bk_refused s)) <= aw_dropped (bk_writer s') - aw_dropped (bk_writer s) /\
  ((exists ms, accounts schema accepts maxsize batch_size st0 ms (bk_writer s)) ->
   exists ms, accounts schema accepts maxsize batch_size st0 ms (bk_writer s')).
Proof.
  intros s'. destruct (serve_window_cases t acc f u s) as [E|(ds & un & _ & _ & Ew & Er & Eu & _)].
  - unfold s'. rewrite E. split_and!; try done. lia.
  - destruct (submit_rows_submits st0 (tk_meanwhile t) (deal_op (acc_account_id acc) (Some (acc_org_id acc)) <$> ds) s) as [[H1 _ _ _ H2 H3] _].
    unfold submitted, s'. rewrite Ew, Er, Eu. split_and!; [exact H1| |exact H2|exact H3].
    intros x Hx. apply elem_of_app. by left.
Qed.

Lemma serve_accounted t acc f u s a d : accounted a d s -> accounted a d (serve_window t acc (f, u) s).
Proof.
  destruct (serve_submits (aw_store (bk_writer s)) t acc f u s) as (Hs & Hu & _).
  intros [(org & Ho)|(w & Hw & Hin)]; [left; exists org; by apply Hs|right; exists w; auto].
Qed.

Lemma serve_spans t acc f u s : honest (brokers (acc_account_id acc)) (tk_history t (acc_account_id acc)) ->
  serve_window t acc (f, u) s = s \/ spanned (acc_account_id acc) f u (serve_window t acc (f, u) s).
Proof.
  intros Hh. destruct (serve_window_cases t acc f u s) as [->|(ds & un & Ef & _ & Ew & Er & Eu & _)]; [by left|right]. intros d Hd Ht.
  unfold accounted, submitted. rewrite Ew, Er, Eu. destruct (window_covers _ _ _ _ _ _ Hh Ef d Hd Ht) as [Hin|(w & Hw & Hin)]; [left|right].
  - exists (acc_org_id acc).
    destruct (submit_rows_submits (aw_store (bk_writer s)) (tk_meanwhile t) (deal_op (acc_account_id acc) (Some (acc_org_id acc)) <$> ds) s) as [_ Hops].
    by apply Hops, list_elem_of_fmap_2.
  - exists w. split; [|done]. apply elem_of_app. right. apply list_elem_of_fmap. by exists w.
Qed.

(** Windows are next to what is spanned. *)
Lemma serve_no_gap t acc f u s :
  (forall a, honest (brokers a) (tk_history t a)) -> no_gap s ->
  next_window (state_of (acc_account_id acc) s) (tk_now_ms t) max_years = Some (f, u) -> no_gap (serve_window t acc (f, u) s).
Proof.
  intros Hh Hs Hw a r Hr. assert (forall b f' u', spanned b f' u' s -> spanned b f' u' (serve_window t acc (f, u) s)) as Hkeep.
  { intros b f' u' Hsp d Hd Ht. by apply serve_accounted, Hsp. }
  destruct (serve_window_cases t acc f u s) as [E|(ds & un & Ef & _ & _ & _ & _ & Hother & Hrow)]; [rewrite E in *; by apply Hs|].
  destruct (serve_spans t acc f u s (Hh _)) as [E|Hspan]; [rewrite E in *; by apply Hs|].
  destruct (decide (a = acc_account_id acc)) as [->|Hne].
  - rewrite Hrow in Hr. injection Hr as <-. unfold next_window in Hw. destruct (state_of (acc_account_id acc) s) as [r0|] eqn:E0.
    + destruct (Hs _ _ E0) as (f0 & u0 & Ef0 & Eu0 & Hle & Hsp). rewrite Ef0, Eu0 in *. simpl.
      assert (f <= u0 /\ f0 <= u /\ f <= u) as (H1 & H2 & H3).
      { destruct (bf_exhausted r0).
        - destruct (u0 =? 0) eqn:Ez; [rewrite Z.leb_refl in Hw; done|]. destruct (tk_now_ms t <=? u0) eqn:El; [done|]. apply Z.leb_gt in El.
          injection Hw as <- <-. unfold WEEK_MS in *. lia.
        - destruct (reached_history_bound _ _ _); [done|]. injection Hw as <- <-. unfold WEEK_MS in *. lia. }
      exists (Z.min f0 f), (Z.max u0 u). split_and!; [done|done|lia|]. intros d Hd Ht.
      destruct (Z.le_gt_cases f (bd_execution_timestamp d)), (Z.le_gt_cases (bd_execution_timestamp d) u).
      * by apply Hspan.
      * apply Hkeep with f0 u0; [done|done|lia].
      * apply Hkeep with f0 u0; [done|done|lia].
      * lia.
    + injection Hw as <- <-. exists (tk_now_ms t - WEEK_MS), (tk_now_ms t). split_and!; [done|done|unfold WEEK_MS; lia|done].
  - rewrite Hother in Hr by done. destruct (Hs _ _ Hr) as (f0 & u0 & ? & ? & ? & ?). exists f0, u0. auto.
Qed.

Lemma serve_first_no_gap t accounts s :
  (forall a, honest (brokers a) (tk_history t a)) -> no_gap s -> no_gap (serve_first t accounts s).
Proof.
  intros Hh. induction accounts as [|acc accounts IH]; intros Hs; [done|]. simpl.
  destruct (next_window _ _ _) as [[f u]|] eqn:Ew; [|by apply IH]. destruct (tk_client t acc); [by apply serve_no_gap|by apply IH].
Qed.

Lemma tick_no_gap t s : (forall a, honest (brokers a) (tk_history t a)) -> no_gap s -> no_gap (backfill_deals_once t s).
Proof.
  intros Hh Hs. unfold Backfill.backfill_deals_once. destruct (tk_accounts t) as [rows|]; [|done].
  destruct (backfill_accounts rows) as [|acc accounts]; [done|]. by apply serve_first_no_gap.
Qed.

(** *** Runs *)

(** Along a run: nothing submitted is forgotten, refusals are counted, and the
    writer is one that ran from [st0]. *)
Record books (st0 : store) (s : backfill) : Prop := {
  bo_gap : no_gap s;
  bo_counted : Z.of_nat (length (bk_refused s)) <= aw_dropped (bk_writer s);
  bo_writer : exists ms, accounts schema accepts maxsize batch_size st0 ms (bk_writer s)
}.

Lemma serve_first_books st0 t accounts s :
  (forall a, honest (brokers a) (tk_history t a)) -> books st0 s -> books st0 (serve_first t accounts s).
Proof.
  intros Hh. induction accounts as [|acc accounts IH]; intros Hs; [done|]. simpl.
  destruct (next_window _ _ _) as [[f u]|] eqn:Ew; [|by apply IH]. destruct (tk_client t acc); [|by apply IH].
  destruct Hs as [Hg Hc Hw]. destruct (serve_submits st0 t acc f u s) as (_ & _ & Hd & Hr). split; [by apply serve_no_gap|lia|by apply Hr].
Qed.

Lemma step_books st0 s m :
  (forall t, m = BackfillTick t -> forall a, honest (brokers a) (tk_history t a)) -> books st0 s -> books st0 (backfill_step s m).
Proof.
  intros Hh Hs. destruct m as [t|m]; simpl.
  - unfold Backfill.backfill_deals_once. destruct (tk_accounts t) as [rows|]; [|done].
    destruct (backfill_accounts rows) as [|acc accounts]; [done|]. apply serve_first_books; [by apply Hh|]. by destruct Hs.
  - destruct Hs as [Hg Hc Hw]. destruct (meanwhile_submits st0 [m] s) as [H1 _ _ _ H2 H3]. simpl in *. rewrite ?app_nil_r in H2. split; [|simpl; rewrite app_nil_r; lia|by apply H3].
    intros a r Hr. destruct (Hg a r Hr) as (f & u & ? & ? & ? & Hsp). exists f, u. split_and!; try done.
    intros d Hd Ht. destruct (Hsp d Hd Ht) as [(org & Ho)|Hw']; [left; exists org; by apply H1|by right].
Qed.

Lemma run_books st0 ms s :
  (forall t, BackfillTick t ∈ ms -> forall a, honest (brokers a) (tk_history t a)) -> books st0 s -> books st0 (run_backfill ms s).
Proof.
  revert s. induction ms as [|m ms IH]; intros s Hh Hs; [done|]. apply IH; [intros t Ht; apply Hh; set_solver|].
  apply step_books; [|done]. intros t ->. apply Hh. set_solver.
Qed.

(** Where a deal's row can be: on its way to the tables, in a batch that was
    written, in a batch the writer gave up on, or refused at its door *)
Inductive row_fate (a : Z) (d : BrokerDeal) (s : backfill) : Prop :=
  | on_its_way org : deal_op a (Some org) d ∈ in_hand (bk_writer s) ++ aw_queue (bk_writer s) -> row_fate a d s
  | in_batch org batch (is_written : bool) : (batch, is_written) ∈ aw_settled (bk_writer s) ->
      deal_op a (Some org) d ∈ batch -> row_fate a d s
  | refused org : deal_op a (Some org) d ∈ bk_refused s -> 0 < aw_dropped (bk_writer s) -> row_fate a d s.

Lemma books_fate st0 a d s : books st0 s -> accounted a d s -> row_fate a d s \/ exists w, (a, w) ∈ bk_unreachable s /\ within w d.
Proof.
  intros [_ Hc [ms [Hops _ _ _ _ _ _]]] [(org & [Ho|Ho])|?]; [left|left|by right].
  - rewrite Hops in Ho. apply elem_of_app in Ho as [Ho|Ho]; [|by eapply on_its_way].
    unfold settled_ops in Ho. apply list_elem_of_In, in_concat in Ho as (batch & Hb & Ho%list_elem_of_In).
    apply list_elem_of_In, list_elem_of_fmap in Hb as ([b w] & -> & Hin). by eapply in_batch.
  - eapply refused; [exact Ho|]. destruct (bk_refused s); [by apply elem_of_nil in Ho|]. simpl in Hc. lia.
Qed.

(** C30: the backfill leaves no gap that it hides.  Over any sequence of ticks and
    of the background writer's moves between and within them, whatever accounts,
    clocks, missing clients, broker errors and row limits they meet: every deal
    the broker has of an account between the account's two watermarks was handed
    to the writer as its row, or lies in a sub-window reported as unreachable.
    The row is then on its way (queued, or in the batch in hand), or in a batch
    that ended -- written or given up -- or was refused at a full queue, which the
    writer's drop counter shows: while that counter is zero no row was refused. *)
Theorem backfill_leaves_no_gap (ms : list backfill_move) (s : backfill) (st0 : store) (a : Z) (r : BackfillRow) :
  t_backfill (bk_tables s) = ∅ -> bk_writer s = writer_init st0 -> bk_refused s = [] ->
  (forall t, BackfillTick t ∈ ms -> forall b, honest (brokers b) (tk_history t b)) ->
  let s' := run_backfill ms s in
  state_of a s' = Some r ->
  exists f u, bf_from_ms r = Some f /\ bf_to_ms r = Some u /\ f <= u /\
  forall d, d ∈ brokers a -> f <= bd_execution_timestamp d <= u ->
    row_fate a d s' \/ exists w, (a, w) ∈ bk_unreachable s' /\ within w d.
Proof.
  intros Hempty Hw Hr Hh s' Hs'. assert (books st0 s') as Hb.
  { apply run_books; [done|]. split; [intros b r'; unfold state_of; by rewrite Hempty|rewrite Hr, Hw; done|].
    exists []. rewrite Hw. apply (run_accounts schema accepts maxsize batch_size batch_interval st0 []). }
  destruct (bo_gap _ _ Hb a r Hs') as (f & u & ? & ? & ? & Hsp). exists f, u. split_and!; try done.
  intros d Hd Ht. by apply (books_fate st0), Hsp.
Qed.

(** ** The walk's end *)

(** The account's history has been walked [k] weeks back from [T], or to the
    bound; and an account that is marked exhausted has been walked to the bound. *)
Definition walked (T : Z) (a : Z) (k : nat) (s : backfill) : Prop :=
  match state_of a s with
  | None => k = 0%nat
  | Some r => exists f, bf_from_ms r = Some f /\ (f <= T - Z.of_nat k * WEEK_MS \/ max_years * YEAR_MS <= T - f) /\
                (bf_exhausted r = true -> max_years * YEAR_MS <= T - f)
  end.

Lemma walked_other T t acc f u s a k :
  a <> acc_account_id acc -> walked T a k s -> walked T a k (serve_window t acc (f, u) s).
Proof.
  clear brokers. intros Hne Hw. destruct (serve_window_cases t acc f u s) as [->|(ds & un & _ & _ & _ & _ & _ & Hother & _)]; [done|].
  unfold walked in *. by rewrite Hother.
Qed.

(** A window served leaves the account where it was or [WEEK_MS] further back. *)
Lemma served_walked T t acc f u s k k' :
  let a := acc_account_id acc in
  next_window (state_of a s) (tk_now_ms t) max_years = Some (f, u) -> tk_now_ms t <= T -> walked T a k s ->
  state_of a (serve_window t acc (f, u) s) = Some (match state_of a s with
    | None => {| bf_from_ms := Some f; bf_to_ms := Some u; bf_exhausted := false || reached_history_bound f (tk_now_ms t) max_years |}
    | Some r => {| bf_from_ms := sql_least (bf_from_ms r) (Some f); bf_to_ms := sql_greatest (bf_to_ms r) (Some u);
                   bf_exhausted := bf_exhausted r || reached_history_bound f (tk_now_ms t) max_years |}
    end) ->
  (k' <= S k)%nat -> walked T a k' (serve_window t acc (f, u) s).
Proof.
  clear brokers. intros a Hn HT Hw Hrow Hk. unfold walked in *. rewrite Hrow. unfold next_window, reached_history_bound in *.
  destruct (state_of a s) as [r|].
  - destruct Hw as (f0 & Ef0 & Hf & He). rewrite Ef0 in *. exists (Z.min f0 f). split; [done|].
    destruct (bf_exhausted r); simpl in *.
    + specialize (He eq_refl). split; [right|intros _]; lia.
    + destruct (max_years * YEAR_MS <=? tk_now_ms t - f0); [done|]. injection Hn as <- <-. unfold WEEK_MS in *.
      split; [destruct Hf; [left|right]; lia|]. intros Hb%Z.leb_le. lia.
  - subst k. injection Hn as <- <-. eexists. split; [done|]. unfold WEEK_MS in *. simpl. split; [left; lia|intros Hb%Z.leb_le; lia].
Qed.

Lemma serve_walked T t acc f u s a k :
  next_window (state_of (acc_account_id acc) s) (tk_now_ms t) max_years = Some (f, u) -> tk_now_ms t <= T ->
  walked T a k s -> walked T a k (serve_window t acc (f, u) s).
Proof.
  clear brokers. intros Hn HT Hw. destruct (decide (a = acc_account_id acc)) as [->|Hne]; [|by apply walked_other].
  destruct (serve_window_cases t acc f u s) as [->|(ds & un & _ & _ & _ & _ & _ & _ & Hrow)]; [done|].
  eapply (served_walked T t acc f u s k); [done|done|done| |lia]. rewrite Hrow. by destruct (state_of _ s).
Qed.

Lemma serve_first_walked T t accounts s a k : tk_now_ms t <= T -> walked T a k s -> walked T a k (serve_first t accounts s).
Proof.
  clear brokers. intros HT. induction accounts as [|acc accounts IH]; intros Hw; [done|]. simpl.
  destruct (next_window _ _ _) as [[f u]|] eqn:Ew; [|by apply IH]. destruct (tk_client t acc); [by apply (serve_walked T)|by apply IH].
Qed.

(** The broker answers every request of the tick. *)
Definition answers (h : history) : Prop := forall k lo hi, exists ds more, h k lo hi = Ok (ds, more).

Lemma fetch_answers (h : history) fuel pending fetches deals un r :
  answers h -> fetch_loop h fuel pending fetches deals un = Some r -> exists ds us, r = Ok (ds, us).
Proof.
  clear brokers. intros Hh. revert pending fetches deals un. induction fuel as [|fuel IH]; intros pending fetches deals un; [done|]. cbn [fetch_loop].
  destruct pending as [|[lo hi] pending]; [intros [= <-]; by eexists _, _|]. destruct (Hh fetches lo hi) as (ds & more & ->).
  destruct (negb more); [apply IH|]. destruct (_ || _); apply IH.
Qed.

(** An account whose turn it is gets a week further. *)
Lemma own_turn T t acc accounts s k :
  answers (tk_history t (acc_account_id acc)) -> tk_client t acc = true -> tk_now_ms t <= T ->
  walked T (acc_account_id acc) k s -> walked T (acc_account_id acc) (S k) (serve_first t (acc :: accounts) s).
Proof.
  clear brokers. intros Hh Hc HT Hw. simpl. set (a := acc_account_id acc) in *. destruct (next_window (state_of a s) (tk_now_ms t) max_years) as [[f u]|] eqn:En.
  - rewrite Hc. destruct (fetch_ends (tk_history t a) FETCH_FUEL [(f, u)] 0 [] []) as [res Hres]; [by apply Nat.ltb_lt|].
    destruct (fetch_answers _ _ _ _ _ _ _ Hh Hres) as (ds & un & ->).
    eapply (served_walked T t acc f u s k); [done|done|done| |lia]. fold a.
    destruct (submit_rows_submits (aw_store (bk_writer s)) (tk_meanwhile t) (deal_op a (Some (acc_org_id acc)) <$> ds) s) as [[_ Et _ _ _ _] _].
    unfold Backfill.serve_window. fold a. unfold _fetch_deal_window. rewrite Hres. unfold state_of. simpl.
    unfold Backfill.upsert_deals. rewrite Et, lookup_insert_eq. by destruct (t_backfill _ !! a).
  - apply (serve_first_walked T); [done|]. unfold walked in *. unfold next_window in En. destruct (state_of a s) as [r|]; [|done].
    destruct Hw as (f0 & Ef & Hf & He). rewrite Ef in En. exists f0. split; [done|]. split; [right|done].
    destruct (bf_exhausted r); [by apply He|]. unfold reached_history_bound in En.
    destruct (Z.leb_spec (max_years * YEAR_MS) (tk_now_ms t - f0)); [lia|done].
Qed.

(** A tick in which the same accounts are there, all with their clients, and the
    broker answers *)
Record good_tick (rows : list AccountRow) (t : tick) : Prop := {
  gt_accounts : tk_accounts t = Ok rows;
  gt_clients : forall acc, tk_client t acc = true;
  gt_answers : forall a, answers (tk_history t a)
}.
Definition ticks_run (ticks : list tick) (s : backfill) : backfill := run_backfill (BackfillTick <$> ticks) s.

Lemma tick_walked T rows t s a k :
  good_tick rows t -> tk_now_ms t <= T -> walked T a k s -> walked T a k (backfill_deals_once t s).
Proof.
  clear brokers. intros [Er _ _] HT Hw. unfold Backfill.backfill_deals_once. rewrite Er. destruct (backfill_accounts rows); [done|]. by apply serve_first_walked.
Qed.

Lemma tick_turn T rows t s acc k :
  good_tick rows t -> tk_now_ms t <= T -> backfill_accounts rows !! (bk_cursor s mod length (backfill_accounts rows))%nat = Some acc ->
  walked T (acc_account_id acc) k s -> walked T (acc_account_id acc) (S k) (backfill_deals_once t s).
Proof.
  clear brokers. intros [Er Hc Ha] HT Hl Hw. unfold Backfill.backfill_deals_once. rewrite Er. destruct (backfill_accounts rows) as [|acc0 accounts] eqn:Eacc; [done|].
  rewrite <- Eacc in *. rewrite (drop_S _ _ _ Hl). by apply own_turn.
Qed.

Lemma serve_first_cursor t accounts s : bk_cursor (serve_first t accounts s) = bk_cursor s.
Proof.
  clear brokers. induction accounts as [|acc accounts IH]; [done|]. simpl. destruct (next_window _ _ _) as [[f u]|]; [|done]. destruct (tk_client t acc); [|done].
  destruct (serve_window_cases t acc f u s) as [->|(ds & un & _ & -> & _)]; done.
Qed.

Lemma tick_cursor rows t s : good_tick rows t -> backfill_accounts rows <> [] ->
  bk_cursor (backfill_deals_once t s) = S (bk_cursor s mod length (backfill_accounts rows))%nat.
Proof.
  clear brokers. intros [Er _ _] Hne. unfold Backfill.backfill_deals_once. rewrite Er. destruct (backfill_accounts rows); [done|]. by rewrite serve_first_cursor.
Qed.

Section ticks.
Context (T : Z) (rows : list AccountRow).
Definition good_until (ticks : list tick) : Prop := forall t, t ∈ ticks -> good_tick rows t /\ tk_now_ms t <= T.
Lemma good_cons t ticks : good_until (t :: ticks) -> (good_tick rows t /\ tk_now_ms t <= T) /\ good_until ticks.
Proof. clear brokers. intros Hg. split; [apply Hg; set_solver|]. intros t' Ht'. apply Hg. set_solver. Qed.

Lemma run_walked ticks s a k : good_until ticks -> walked T a k s -> walked T a k (ticks_run ticks s).
Proof.
  clear brokers. revert s. induction ticks as [|t ticks IH]; intros s Hg Hw; [done|]. apply good_cons in Hg as [[Ht HT] Hg].
  apply IH; [done|]. by apply (tick_walked T rows).
Qed.

(** The turn of the account that is [i] places behind the cursor *)
Lemma turn_comes i ticks s acc k :
  good_until ticks -> (i < length ticks)%nat ->
  backfill_accounts rows !! ((bk_cursor s + i) mod length (backfill_accounts rows))%nat = Some acc ->
  walked T (acc_account_id acc) k s -> walked T (acc_account_id acc) (S k) (ticks_run ticks s).
Proof.
  clear brokers. revert ticks s. induction i as [|i IH]; intros [|t ticks] s Hg Hi Hl Hw; simpl in Hi; try lia; apply good_cons in Hg as [[Ht HT] Hg].
  - rewrite Nat.add_0_r in Hl. apply (run_walked ticks (backfill_deals_once t s)); [done|]. by apply (tick_turn T rows).
  - apply (IH ticks (backfill_deals_once t s)); [done|lia| |by apply (tick_walked T rows)].
    simpl. rewrite (tick_cursor rows) by (try done; intros E; by rewrite E in Hl). rewrite <- Hl. f_equal.
    set (n := length (backfill_accounts rows)). replace (S (bk_cursor s mod n) + i)%nat with (bk_cursor s mod n + S i)%nat by lia.
    apply Nat.Div0.add_mod_idemp_l.
Qed.

Lemma round_walked ticks s acc k :
  good_until ticks -> acc ∈ backfill_accounts rows -> (length (backfill_accounts rows) <= length ticks)%nat ->
  walked T (acc_account_id acc) k s -> walked T (acc_account_id acc) (S k) (ticks_run ticks s).
Proof.
  clear brokers. intros Hg [j Hj]%list_elem_of_lookup Hlen Hw. pose proof (lookup_lt_Some _ _ _ Hj) as Hlt. set (n := length (backfill_accounts rows)) in *.
  assert (bk_cursor s mod n < n)%nat as Hc by (apply Nat.mod_upper_bound; lia).
  apply (turn_comes ((j + (n - bk_cursor s mod n)) mod n) ticks s acc k Hg); [|fold n|done].
  - pose proof (Nat.mod_upper_bound (j + (n - bk_cursor s mod n)) n). lia.
  - rewrite <- Hj. f_equal. rewrite Nat.Div0.add_mod_idemp_r, <- Nat.Div0.add_mod_idemp_l.
    replace (bk_cursor s mod n + (j + (n - bk_cursor s mod n)))%nat with (j + 1 * n)%nat by lia. rewrite Nat.Div0.mod_add. by apply Nat.mod_small.
Qed.

Lemma rounds_walked m ticks s acc k :
  good_until ticks -> acc ∈ backfill_accounts rows -> (m * length (backfill_accounts rows) <= length ticks)%nat ->
  walked T (acc_account_id acc) k s -> walked T (acc_account_id acc) (m + k) (ticks_run ticks s).
Proof.
  clear brokers. revert ticks s k. induction m as [|m IH]; intros ticks s k Hg Hin Hlen Hw; [by apply run_walked|].
  set (n := length (backfill_accounts rows)) in *.
  replace (ticks_run ticks s) with (ticks_run (drop n ticks) (ticks_run (take n ticks) s)).
  - replace (S m + k)%nat with (m + S k)%nat by lia. apply IH; [|done|fold n; rewrite length_drop; lia|].
    + intros t Ht. apply Hg. rewrite <- (take_drop n ticks). apply elem_of_app. by right.
    + apply round_walked; [|done|fold n; rewrite length_take; lia|done].
      intros t Ht. apply Hg. rewrite <- (take_drop n ticks). apply elem_of_app. by left.
  - unfold ticks_run, Backfill.run_backfill. by rewrite <- foldl_app, <- fmap_app, take_drop.
Qed.
End ticks.

(** The writer's own moves do not matter to the walk. *)
Definition same_walk (s s' : backfill) : Prop := bk_cursor s' = bk_cursor s /\ bk_tables s' = bk_tables s.
Lemma serve_window_same t acc w s1 s2 : same_walk s1 s2 -> same_walk (serve_window t acc w s1) (serve_window t acc w s2).
Proof.
  clear brokers. intros [Hc Ht]. destruct w as [f u]. unfold Backfill.serve_window. destruct (_fetch_deal_window _ _ _) as [[[ds un]|e]|]; [|done..].
  unfold same_walk, state_of. simpl. unfold Backfill.upsert_deals.
  set (ops := deal_op (acc_account_id acc) (Some (acc_org_id acc)) <$> ds).
  destruct (submit_rows_submits (aw_store (bk_writer s1)) (tk_meanwhile t) ops s1) as [[_ E1 C1 _ _ _] _].
  destruct (submit_rows_submits (aw_store (bk_writer s2)) (tk_meanwhile t) ops s2) as [[_ E2 C2 _ _ _] _].
  by rewrite E1, E2, C1, C2, Hc, Ht.
Qed.
Lemma serve_first_same t accounts s1 s2 : same_walk s1 s2 -> same_walk (serve_first t accounts s1) (serve_first t accounts s2).
Proof.
  clear brokers. induction accounts as [|acc accounts IH]; [done|]. intros H. pose proof H as [_ Ht]. simpl. unfold state_of. rewrite Ht.
  destruct (next_window _ _ _) as [w|]; [|by apply IH]. destruct (tk_client t acc); [by apply serve_window_same|by apply IH].
Qed.
Lemma tick_same t s1 s2 : same_walk s1 s2 -> same_walk (backfill_deals_once t s1) (backfill_deals_once t s2).
Proof.
  clear brokers. intros H. unfold Backfill.backfill_deals_once. destruct (tk_accounts t) as [rows|]; [|done]. destruct (backfill_accounts rows); [done|].
  destruct H as [Hc Ht]. rewrite Hc. by apply serve_first_same.
Qed.

(** The ticks of a run *)
Definition ticks_of (ms : list backfill_move) : list tick := omap (fun m => match m with BackfillTick t => Some t | _ => None end) ms.
Lemma ticks_same ms s1 s2 : same_walk s1 s2 -> same_walk (ticks_run (ticks_of ms) s1) (run_backfill ms s2).
Proof.
  clear brokers. revert s1 s2. induction ms as [|[t|m] ms IH]; intros s1 s2 H; [done| |]; apply IH; [by apply tick_same|]. done.
Qed.
Lemma elem_of_ticks_of t ms : t ∈ ticks_of ms -> BackfillTick t ∈ ms.
Proof. clear brokers. intros ([t'|m] & Hin & E)%list_elem_of_omap; by simplify_eq/=. Qed.

Lemma latest_tick (t : tick) ticks : exists t', t' ∈ t :: ticks /\ forall t0, t0 ∈ t :: ticks -> tk_now_ms t0 <= tk_now_ms t'.
Proof.
  clear brokers. revert t. induction ticks as [|t1 ticks IH]; intros t; [exists t; set_solver by lia|]. destruct (IH t1) as (t' & Hin & Hmax).
  destruct (Z.le_gt_cases (tk_now_ms t) (tk_now_ms t')) as [Hle|Hgt].
  - exists t'. split; [set_solver|]. intros t0 [->|H0]%elem_of_cons; [done|by apply Hmax].
  - exists t. split; [set_solver|]. intros t0 [->|H0]%elem_of_cons; [done|]. specialize (Hmax t0 H0). lia.
Qed.

End facts.

(** ** A demonstration *)

Definition plain_deal (id time : Z) : BrokerDeal :=
  {| bd_deal_id := id; bd_order_id := id; bd_position_id := id; bd_symbol_id := 1; bd_symbol := Some "EURUSD"; bd_side := "BUY";
     bd_volume := 100; bd_filled_volume := 100; bd_volume_lots := None; bd_execution_price := None; bd_status := "FILLED";
     bd_commission := None; bd_create_timestamp := time; bd_execution_timestamp := time; bd_close := None |}.
(** The broker answers all of a window at once. *)
Definition demo_deals (account_id : Z) : list BrokerDeal :=
  if account_id =? 7 then [plain_deal 1 (40 * WEEK_MS); plain_deal 2 (99 * WEEK_MS + 5); plain_deal 3 (100 * WEEK_MS)] else [].
Definition demo_history (broker : list BrokerDeal) : history :=
  fun _ lo hi => Ok (List.filter (fun d => (lo <=? bd_execution_timestamp d) && (bd_execution_timestamp d <=? hi)) broker, false).
Definition backfill_account (id : Z) : AccountRow :=
  {| acc_account_id := id; acc_org_id := 1; acc_connection_id := Some 1; acc_trader_login := id; acc_is_live := true; acc_role := RoleSlave;
     acc_enabled := true; acc_multiplier := PyDecimal.Dec 1 0; acc_status := StOk; acc_last_error := JNull; acc_platform := CTrader |}.
Definition demo_tick (now_ms : Z) : tick :=
  {| tk_accounts := Ok [backfill_account 9; backfill_account 7]; tk_now_ms := now_ms; tk_client := fun _ => true;
     tk_history := fun a => demo_history (demo_deals a); tk_meanwhile := fun _ => [] |}.
Definition empty_deals : @store column _ _ := {| st_rows := ∅; st_keyed := ∅ |}.
Definition no_backfill : backfill :=
  {| bk_cursor := 0;
     bk_tables := {| t_links := ∅; t_symbol_cache := ∅; t_aliases := ∅; t_positions := ∅; t_deals := ∅; t_backfill := ∅ |};
     bk_writer := writer_init empty_deals; bk_refused := []; bk_unreachable := [] |}.
Definition demo_ticks (n : nat) : list backfill_move := replicate n (BackfillTick (demo_tick (100 * WEEK_MS))).
Definition deals_schema (t : string) : option (list string) := if String.eqb t "deals" then Some ["account_id"; "deal_id"] else None.
(** A writer whose queue has room for [maxsize] rows *)
Abbreviation demo_backfill maxsize := (run_backfill deals_schema (fun _ _ => true) maxsize DEFAULT_BATCH_SIZE DEFAULT_BATCH_INTERVAL_US 1).
(** The writer's thread writes what is queued. *)
Definition demo_flush : list backfill_move :=
  WriterMove <$> replicate 12 (Thread Up) ++ [Tick DEFAULT_BATCH_INTERVAL_US; Thread Up; Thread Up; Thread Up].

Lemma demo_honest b : honest (demo_deals b) (demo_history (demo_deals b)).
Proof.
  intros k lo hi ds [= <-] d Hd [Hlo Hhi]. apply list_elem_of_In, filter_In. split; [by apply list_elem_of_In|]. simpl in *.
  apply andb_true_intro. split; by apply Z.leb_le.
Qed.

Lemma demo_ticks_in n t : BackfillTick t ∈ demo_ticks n -> t = demo_tick (100 * WEEK_MS).
Proof. intros [[= ->] _]%elem_of_replicate. done. Qed.

Lemma backfill_leaves_no_gap_witness :
  let s' := demo_backfill 100 (demo_ticks 108) no_backfill in
  exists f u, f <= u /\ forall d, d ∈ demo_deals 7 -> f <= bd_execution_timestamp d <= u ->
    row_fate 7 d s' \/ exists w, (7, w) ∈ bk_unreachable s' /\ within w d.
Proof.
  destruct (backfill_leaves_no_gap deals_schema (fun _ _ => true) 100 DEFAULT_BATCH_SIZE DEFAULT_BATCH_INTERVAL_US 1 demo_deals
    (demo_ticks 108) no_backfill empty_deals 7 {| bf_from_ms := Some (47 * WEEK_MS); bf_to_ms := Some (100 * WEEK_MS); bf_exhausted := true |})
    as (f & u & _ & _ & Hle & Hd); [reflexivity|reflexivity|reflexivity|intros t ->%demo_ticks_in b; apply demo_honest|vm_compute; reflexivity|].
  exists f, u. exact (conj Hle Hd).
Defined.

(** With room in the queue the deals are written; with room for one row, the
    second deal of a window is refused while the watermark moves past it. *)
Example rows_written_or_refused :
  let ids ops := (fun op => op_row op !! "deal_id") <$> ops in
  let s := demo_backfill 100 (demo_ticks 2 ++ demo_flush) no_backfill in
  let s1 := demo_backfill 1 (demo_ticks 2) no_backfill in
  (ids ∘ fst <$> aw_settled (bk_writer s)) = [[Some (CInt 2); Some (CInt 3)]] /\ (aw_settled (bk_writer s)).*2 = [true] /\
  ids (aw_queue (bk_writer s1)) = [Some (CInt 2)] /\ ids (bk_refused s1) = [Some (CInt 3)] /\
  bf_from_ms <$> get_backfill_state 7 s1 = Some (Some (99 * WEEK_MS)).
Proof. vm_compute. done. Qed.


(** An account whose walk comes to the bound between two ticks is not marked as
    exhausted; from then on it has no window at all, and no deal of it is ever
    fetched again. *)
Lemma bound_between_ticks_sticks (max_years : Z) (r : BackfillRow) f now_ms :
  bf_exhausted r = false -> bf_from_ms r = Some f -> reached_history_bound f now_ms max_years = true ->
  forall later, now_ms <= later -> next_window (Some r) later max_years = None.
Proof.
  intros He Hf Hb later Hle. unfold next_window. rewrite He, Hf. unfold reached_history_bound in *. apply Z.leb_le in Hb.
  replace (max_years * YEAR_MS <=? later - f) with true; [done|]. symmetry. apply Z.leb_le. lia.
Qed.

(** 52 windows, then a day and an hour without a tick, then ten weeks of ticks:
    the deals since the first tick are missing, and the page is told that the last
    four weeks are complete. *)
Example stuck_account :
  let at_ h := replicate 2 (BackfillTick (demo_tick (100 * WEEK_MS + h * 3600 * 1000))) in
  let s := demo_backfill 100 (demo_ticks 104 ++ at_ 25 ++ at_ 200 ++ at_ 1680) no_backfill in
  get_backfill_state 7 s = Some {| bf_from_ms := Some (48 * WEEK_MS); bf_to_ms := Some (100 * WEEK_MS); bf_exhausted := false |} /\
  truncated 7 4 (110 * WEEK_MS) s = false.
Proof. vm_compute. done. Qed.

(** [next_window]'s docstring: raising [max_years] resumes from the watermark.  An
    exhausted account only ever walks forwards. *)
Example raising_the_bound_does_not_resume :
  next_window (Some {| bf_from_ms := Some (47 * WEEK_MS); bf_to_ms := Some (100 * WEEK_MS); bf_exhausted := true |}) (100 * WEEK_MS) 5 = None.
Proof. reflexivity. Qed.
