(* ===== verification/Session.v ===== *)
(** * Accounts and sessions of the web API

    [api/auth.py], the routes of [api/routes/mpin.py] and the sockets of the
    broadcaster in [api/ws.py].  A request is a program ([Prog]): its SQL
    statements, its readings of the clock and of the limiter and its sends to
    sockets are steps of their own.

    The portal's tables are part of the state: [org_memberships], [users.email]
    and the MPIN columns are those of [PortalDb].  [dumps] and [loads] are the
    signed serialiser (third party) with the clock they read, [verify] and
    [hash] argon2 with its salt, [sha256] the digest.  Random texts (salts,
    tokens) come with the request.  Clocks count microseconds.  Text is bytes. *)

From S2P Require Import Prelude PyStr PyDecimal PyFloat PyRepr PyDecOps Models Db PyJson Limiter PortalLedger Mpin Prog PortalDb PortalCommon.
From Stdlib Require Import Ascii.

(** ** The tables *)

(** [users], but for the email and the MPIN *)
Record UserRow := { us_password_hash : string; us_display_name : string; us_session_version : Z }.

(** [login_events] *)
Record LoginRow := { lg_user : Z; lg_ip : string; lg_agent : option string; lg_outcome : string; lg_at : Z }.

(** [org_invites] *)
Record InviteRow := {
  iv_org : Z; iv_role : member_role; iv_token_hash : string; iv_created_by : Z; iv_created_at : Z; iv_expires_at : Z;
  iv_consumed_at : option Z; iv_consumed_by : option Z
}.

(** [orgs] *)
Record OrgRow := { og_name : string; og_copying_enabled : bool; og_dry_run : bool; og_created_at : Z }.

(** [account_requests], as far as a change of membership touches them *)
Record AccountRequestRow := {
  ar_org : Z; ar_user : Z; ar_status : string; ar_main_password : option string; ar_investor_password : option string;
  ar_decided_at : option Z
}.

(** [EventBroadcaster.connections]: a dict per org, from sockets to users.  The
    inner dicts are objects: a loop may hold one that was taken out. *)
Record broadcaster := {
  bc_connections : list (Z * nat);
  bc_dicts : gmap nat (list (Z * Z));
  bc_next : nat;
  bc_closed : list (Z * Z)     (* close frames sent: socket and code *)
}.

Record access := {
  x_portal : portal;
  x_users : gmap Z UserRow;
  x_next_user : Z;
  x_logins : table LoginRow;
  x_orgs : table OrgRow;
  x_invites : table InviteRow;
  x_requests : gmap Z AccountRequestRow;
  x_auth_events : list (string * Z);
  x_sockets : broadcaster;
  x_limiter : limiter
}.

Definition set_portal (v : portal) (s : access) : access :=
  {| x_portal := v; x_users := x_users s; x_next_user := x_next_user s; x_logins := x_logins s; x_orgs := x_orgs s;
     x_invites := x_invites s; x_requests := x_requests s; x_auth_events := x_auth_events s; x_sockets := x_sockets s;
     x_limiter := x_limiter s |}.
Definition set_users (v : gmap Z UserRow) (s : access) : access :=
  {| x_portal := x_portal s; x_users := v; x_next_user := x_next_user s; x_logins := x_logins s; x_orgs := x_orgs s;
     x_invites := x_invites s; x_requests := x_requests s; x_auth_events := x_auth_events s; x_sockets := x_sockets s;
     x_limiter := x_limiter s |}.
Definition set_next_user (v : Z) (s : access) : access :=
  {| x_portal := x_portal s; x_users := x_users s; x_next_user := v; x_logins := x_logins s; x_orgs := x_orgs s;
     x_invites := x_invites s; x_requests := x_requests s; x_auth_events := x_auth_events s; x_sockets := x_sockets s;
     x_limiter := x_limiter s |}.
Definition set_logins (v : table LoginRow) (s : access) : access :=
  {| x_portal := x_portal s; x_users := x_users s; x_next_user := x_next_user s; x_logins := v; x_orgs := x_orgs s;
     x_invites := x_invites s; x_requests := x_requests s; x_auth_events := x_auth_events s; x_sockets := x_sockets s;
     x_limiter := x_limiter s |}.
Definition set_orgs (v : table OrgRow) (s : access) : access :=
  {| x_portal := x_portal s; x_users := x_users s; x_next_user := x_next_user s; x_logins := x_logins s; x_orgs := v;
     x_invites := x_invites s; x_requests := x_requests s; x_auth_events := x_auth_events s; x_sockets := x_sockets s;
     x_limiter := x_limiter s |}.
Definition set_invites (v : table InviteRow) (s : access) : access :=
  {| x_portal := x_portal s; x_users := x_users s; x_next_user := x_next_user s; x_logins := x_logins s; x_orgs := x_orgs s;
     x_invites := v; x_requests := x_requests s; x_auth_events := x_auth_events s; x_sockets := x_sockets s;
     x_limiter := x_limiter s |}.
Definition set_requests (v : gmap Z AccountRequestRow) (s : access) : access :=
  {| x_portal := x_portal s; x_users := x_users s; x_next_user := x_next_user s; x_logins := x_logins s; x_orgs := x_orgs s;
     x_invites := x_invites s; x_requests := v; x_auth_events := x_auth_events s; x_sockets := x_sockets s;
     x_limiter := x_limiter s |}.
Definition set_auth_events (v : list (string * Z)) (s : access) : access :=
  {| x_portal := x_portal s; x_users := x_users s; x_next_user := x_next_user s; x_logins := x_logins s; x_orgs := x_orgs s;
     x_invites := x_invites s; x_requests := x_requests s; x_auth_events := v; x_sockets := x_sockets s;
     x_limiter := x_limiter s |}.
Definition set_sockets (v : broadcaster) (s : access) : access :=
  {| x_portal := x_portal s; x_users := x_users s; x_next_user := x_next_user s; x_logins := x_logins s; x_orgs := x_orgs s;
     x_invites := x_invites s; x_requests := x_requests s; x_auth_events := x_auth_events s; x_sockets := v;
     x_limiter := x_limiter s |}.
Definition set_limiter (v : limiter) (s : access) : access :=
  {| x_portal := x_portal s; x_users := x_users s; x_next_user := x_next_user s; x_logins := x_logins s; x_orgs := x_orgs s;
     x_invites := x_invites s; x_requests := x_requests s; x_auth_events := x_auth_events s; x_sockets := x_sockets s;
     x_limiter := v |}.

Abbreviation api := (prog access).

Definition deny {A} (code : Z) (detail : string) : api A := Throw (HTTPException code detail).
Definition api_now (s : access) : Z := p_api_now (x_portal s).
Definition db_now (s : access) : Z := p_db_now (x_portal s).

(** A program of the portal, run on this state. *)
Fixpoint on_portal {A} (p : prog portal A) : api A :=
  match p with
  | Ret a => Ret a
  | Throw e => Throw e
  | Step upd k => Step (fun s => set_portal (upd (x_portal s)) s) (fun s => on_portal (k (x_portal s)))
  end.

Definition upd_members (f : gmap (Z * Z) member_role -> gmap (Z * Z) member_role) (s : portal) : portal :=
  {| p_members := f (p_members s); p_emails := p_emails s; p_mpin := p_mpin s; p_accounts := p_accounts s;
  p_mt5_equity := p_mt5_equity s; p_files := p_files s; p_other_files := p_other_files s; p_settings := p_settings s;
  p_rules := p_rules s; p_methods := p_methods s; p_destinations := p_destinations s; p_entries := p_entries s;
  p_deposits := p_deposits s; p_withdrawals := p_withdrawals s; p_transfers := p_transfers s; p_bonuses := p_bonuses
  s; p_events := p_events s; p_notices := p_notices s; p_hourly := p_hourly s; p_api_now := p_api_now s; p_db_now :=
  p_db_now s |}.
Definition upd_emails (f : gmap Z string -> gmap Z string) (s : portal) : portal :=
  {| p_members := p_members s; p_emails := f (p_emails s); p_mpin := p_mpin s; p_accounts := p_accounts s;
  p_mt5_equity := p_mt5_equity s; p_files := p_files s; p_other_files := p_other_files s; p_settings := p_settings s;
  p_rules := p_rules s; p_methods := p_methods s; p_destinations := p_destinations s; p_entries := p_entries s;
  p_deposits := p_deposits s; p_withdrawals := p_withdrawals s; p_transfers := p_transfers s; p_bonuses := p_bonuses
  s; p_events := p_events s; p_notices := p_notices s; p_hourly := p_hourly s; p_api_now := p_api_now s; p_db_now :=
  p_db_now s |}.

(** The portal's share of a new user: the email and an unset MPIN. *)
Definition add_person (user : Z) (email : string) (p : portal) : portal :=
  upd_emails (insert user email) (upd_mpin (insert user {| u_mpin_hash := None; u_failed := 0; u_locked_until := None |}) p).
(** [INSERT INTO org_memberships ... ON CONFLICT DO NOTHING] *)
Definition add_member (org user : Z) (role : member_role) (p : portal) : portal :=
  upd_members (fun m => match m !! (org, user) with Some _ => m | None => <[(org, user) := role]> m end) p.

(** ** Requests and answers *)

Record ApiConfig := { cf_trust_proxy : bool; cf_public_origin : string; cf_registration_enabled : bool }.

Record envelope := {
  en_session : option string;        (* the session cookie *)
  en_csrf_cookie : option string;
  en_csrf_header : option string;
  en_peer : option string;           (* [request.client.host] *)
  en_forwarded : option string;      (* X-Forwarded-For *)
  en_agent : option string;          (* User-Agent *)
  en_salt : string;                  (* the salt of [hash_password] *)
  en_token : string                  (* [secrets.token_urlsafe(32)] *)
}.

Inductive cookies := KeepCookies | SetCookies (session csrf : string) | DeleteCookies.
Record reply := { rp_status : Z; rp_body : json; rp_cookies : cookies }.

Definition no_content : reply := {| rp_status := 204; rp_body := JNull; rp_cookies := KeepCookies |}.
Definition json_reply (status : Z) (body : json) : reply := {| rp_status := status; rp_body := body; rp_cookies := KeepCookies |}.
Definition detail_reply (status : Z) (detail : string) : reply := json_reply status (JObj [("detail", JStr detail)]).

Definition SESSION_MAX_AGE_S : Z := 43200.
Definition MIN_PASSWORD_LEN : Z := 10.
Definition LOGIN_HISTORY_DAYS : Z := 180.
Definition SIGN_INS_MAX : Z := 200.
(** [make_interval(days => n)] *)
Definition days_us (n : Z) : Z := n * 86400 * 1000000.

(** ** Where a request comes from *)

Definition nonempty (o : option string) : bool := match o with Some s => negb (bool_decide (s = "")) | None => false end.

Definition get_client_ip (e : envelope) (trust_proxy : bool) : string :=
  let peer := default "unknown" (en_peer e) in
  match (if trust_proxy then en_forwarded e else None) with
  | None | Some "" => peer
  | Some f => default peer (last (List.filter (fun h => negb (bool_decide (h = ""))) (str_strip <$> str_split ","%char f)))
  end.

Definition _is_proxy_address (ip : string) : bool := bool_decide (ip ∈ ["127.0.0.1"; "::1"; "localhost"; "unknown"]).

(** [rate_limiter.is_limited(key, max_attempts)] *)
Definition limited (key : string) (max_attempts : option Z) : api bool :=
  stmt (fun s => let '(b, l) := is_limited key max_attempts (api_now s) (x_limiter s) in (Ok b, set_limiter l s)).

(** The two buckets that a login and a forgotten MPIN share. *)
Definition login_buckets (email client_ip : string) : api unit :=
  let* b := limited ("login:" +:+ email +:+ ":" +:+ client_ip) None in
  if b then deny 429 "Too many requests"
  else if _is_proxy_address client_ip then Ret tt
  else let* b := limited ("login-ip:" +:+ client_ip) (Some 20) in
       if b then deny 429 "Too many requests" else Ret tt.

(** ** Sign-in history *)

Definition record_login (cfg : ApiConfig) (e : envelope) (user_id : Z) (outcome : string) : api unit :=
  let ip := get_client_ip e (cf_trust_proxy cfg) in
  let agent := match str_take 256 (default "" (en_agent e)) with "" => None | a => Some a end in
  pcatch
    (stmt (modify (fun s => set_logins {| rows := filter (fun kv => negb ((lg_user kv.2 =? user_id) &&
                                                     (lg_at kv.2 <? db_now s - days_us LOGIN_HISTORY_DAYS)) = true) (rows (x_logins s));
                                          next_id := next_id (x_logins s) |} s)) >>>
     stmt (modify (fun s => set_logins (add_row {| lg_user := user_id; lg_ip := ip; lg_agent := agent; lg_outcome := outcome;
                                                   lg_at := db_now s |} (x_logins s)) s)))
    (fun _ => Ret tt).

(** [ORDER BY created_at DESC, id DESC] *)
Definition login_later (a b : Z * LoginRow) : Prop := lg_at b.2 < lg_at a.2 \/ (lg_at a.2 = lg_at b.2 /\ b.1 <= a.1).
#[export] Instance login_later_dec a b : Decision (login_later a b).
Proof. unfold login_later. apply _. Defined.

Definition login_json (r : Z * LoginRow) : json :=
  JObj [("id", JInt r.1); ("ip", JStr (lg_ip r.2)); ("user_agent", JOptStr (lg_agent r.2)); ("outcome", JStr (lg_outcome r.2));
        ("created_at", JInt (lg_at r.2))].

Definition sign_ins (user_id limit : Z) : api (list json) :=
  let size := Z.max 1 (Z.min limit SIGN_INS_MAX) in
  query (fun s => login_json <$> take (Z.to_nat size)
    (merge_sort login_later (filter (fun kv => lg_user kv.2 = user_id) (map_to_list (rows (x_logins s)))))).

(** ** The broadcaster's sockets *)

Definition dict_of (bc : broadcaster) (d : nat) : list (Z * Z) := default [] (bc_dicts bc !! d).

(** [self.connections.get(org_id, {})] *)
Definition sockets_of (bc : broadcaster) (org : Z) : list (Z * Z) :=
  match od_get org (bc_connections bc) with Some d => dict_of bc d | None => [] end.

(** [self.connections.setdefault(org_id, {})[ws] = user_id] *)
Definition bc_connect (ws org user : Z) (bc : broadcaster) : broadcaster :=
  match od_get org (bc_connections bc) with
  | Some d => {| bc_connections := bc_connections bc; bc_dicts := <[d := od_set ws user (dict_of bc d)]> (bc_dicts bc);
                 bc_next := bc_next bc; bc_closed := bc_closed bc |}
  | None => {| bc_connections := od_set org (bc_next bc) (bc_connections bc);
               bc_dicts := <[bc_next bc := [(ws, user)]]> (bc_dicts bc); bc_next := S (bc_next bc); bc_closed := bc_closed bc |}
  end.

(** [self.connections.get(org_id, {}).pop(ws, None)] *)
Definition disconnect (ws org : Z) (bc : broadcaster) : broadcaster :=
  match od_get org (bc_connections bc) with
  | Some d => {| bc_connections := bc_connections bc; bc_dicts := <[d := od_pop ws (dict_of bc d)]> (bc_dicts bc);
                 bc_next := bc_next bc; bc_closed := bc_closed bc |}
  | None => bc
  end.

(** [await ws.close(code=...)] *)
Definition send_close (ws code : Z) (bc : broadcaster) : broadcaster :=
  {| bc_connections := bc_connections bc; bc_dicts := bc_dicts bc; bc_next := bc_next bc; bc_closed := bc_closed bc ++ [(ws, code)] |}.

Definition drop_org (org : Z) (bc : broadcaster) : broadcaster :=
  {| bc_connections := od_pop org (bc_connections bc); bc_dicts := bc_dicts bc; bc_next := bc_next bc; bc_closed := bc_closed bc |}.

Definition on_sockets (f : broadcaster -> broadcaster) : api unit := stmt (modify (fun s => set_sockets (f (x_sockets s)) s)).

Definition close_one (org code : Z) (ws : Z) : api unit := on_sockets (send_close ws code) >>> on_sockets (disconnect ws org).

Definition close_for (org user : Z) : api unit :=
  let* targets := query (fun s => filter (fun kv => kv.2 = user) (sockets_of (x_sockets s) org)) in
  pfor (fun kv => close_one org 4404 kv.1) targets.

(** The outer dict is copied once, each inner dict when the loop comes to it. *)
Definition close_for_user (user : Z) : api unit :=
  let* orgs := query (fun s => bc_connections (x_sockets s)) in
  pfor (fun od : Z * nat =>
    let* socks := query (fun s => filter (fun kv => kv.2 = user) (dict_of (x_sockets s) od.2)) in
    pfor (fun kv => close_one od.1 4401 kv.1) socks) orgs.

Definition close_org (org : Z) : api unit :=
  let* targets := query (fun s => sockets_of (x_sockets s) org) in
  pfor (fun kv => on_sockets (send_close kv.1 4404)) targets >>> on_sockets (drop_org org).

(** ** Sessions *)

Record SessionInfo := { si_user : Z; si_version : Z; si_pin : bool }.

(** The payload of the cookie; Python's [True] is an [int]. *)
Definition session_payload (user version : Z) (pin : bool) : json :=
  JObj [("user_id", JInt user); ("sv", JInt version); ("pin", JBool pin)].
Definition as_int (v : json) : option Z :=
  match v with JInt n => Some n | JBool b => Some (if b then 1 else 0) | _ => None end.

Definition version_of (user : Z) (s : access) : option Z := us_session_version <$> x_users s !! user.
Definition lowered_email (s : access) (user : Z) : string := default "" (str_lower <$> p_emails (x_portal s) !! user).

Section session.
Context (dumps : Z -> json -> string) (loads : Z -> string -> option json).
Context (verify : string -> string -> bool) (hash : string -> string -> string) (sha256 : string -> string).
Context (cfg : ApiConfig).

Definition unpack_at (now : Z) (session : string) : result (option SessionInfo) :=
  match loads now session with
  | None => Ok None
  | Some (JObj data) =>
      match as_int (PyJson.get data "user_id") with
      | None => Ok None
      | Some user => Ok (Some {| si_user := user; si_version := default 0 (as_int (PyJson.get data "sv"));
                                 si_pin := match PyJson.get data "pin" with JBool true => true | _ => false end |})
      end
  | Some _ => Raise (AttributeError "get")
  end.

Definition _unpack_session (session : string) : api (option SessionInfo) :=
  let* now := query api_now in of_result (unpack_at now session).

Definition session_version_matches (user_id version : Z) : api bool :=
  query (fun s => bool_decide (version_of user_id s = Some version)).

Definition require_half_session (e : envelope) : api SessionInfo :=
  match en_session e with
  | None | Some "" => deny 401 "Not authenticated"
  | Some session =>
      let* unpacked := _unpack_session session in
      match unpacked with
      | None => deny 401 "Not authenticated"
      | Some info =>
          let* current := session_version_matches (si_user info) (si_version info) in
          if current then Ret info else deny 401 "Session expired"
      end
  end.

Definition require_user (e : envelope) : api Z :=
  let* info := require_half_session e in
  if si_pin info then Ret (si_user info) else deny 401 "MPIN required".

(** [_issue_session(response, cfg, user_id, version, pin=pin)] *)
Definition _issue_session (e : envelope) (user_id version : Z) (pin : bool) : api reply :=
  let* now := query api_now in
  Ret {| rp_status := 204; rp_body := JNull;
         rp_cookies := SetCookies (dumps now (session_payload user_id version pin)) (en_token e) |}.

(** [UPDATE users SET session_version = session_version + 1 WHERE id = %s
    RETURNING session_version], with the new password hash if there is one;
    unpacking [None] raises. *)
Definition bump_version (user_id : Z) (password_hash : option string) : api Z :=
  stmt (fun s =>
    match x_users s !! user_id with
    | Some u =>
        let v := us_session_version u + 1 in
        (Ok v, set_users (<[user_id := {| us_password_hash := default (us_password_hash u) password_hash;
                                          us_display_name := us_display_name u; us_session_version := v |}]> (x_users s)) s)
    | None => (Raise (TypeError "cannot unpack non-iterable NoneType object"), s)
    end).

(** *** Signing up and in *)

(** The row of [org_invites] with this token that is neither used nor expired *)
Definition open_invite (token : string) (s : access) (iv : InviteRow) : bool :=
  bool_decide (iv_token_hash iv = sha256 token) && bool_decide (iv_consumed_at iv = None) && (db_now s <? iv_expires_at iv).

Definition _invite_is_open (token : option string) : api bool :=
  match token with
  | None | Some "" => Ret false
  | Some t => query (fun s => any_row (open_invite t s) (rows (x_invites s)))
  end.

(** [WHERE lower(email) = %s] *)
Definition user_by_email (email : string) (s : access) : option Z :=
  head (filter (fun u => lowered_email s u = email) (map_to_list (x_users s)).*1).

(** [INSERT INTO users ... RETURNING id]: [users_email_unique] is on [lower(email)]. *)
Definition insert_user (email password_hash display_name : string) : M access Z :=
  fun s =>
    let id := x_next_user s in
    match user_by_email (str_lower email) s with
    | Some _ => (Raise (UniqueViolation "users_email_unique" email), set_next_user (id + 1) s)
    | None =>
        (Ok id, set_next_user (id + 1)
          (set_users (<[id := {| us_password_hash := password_hash; us_display_name := display_name; us_session_version := 0 |}]> (x_users s))
             (set_portal (add_person id email (x_portal s)) s)))
    end.

Record RegisterRequest := { rg_email : string; rg_password : string; rg_display_name : string; rg_invite_token : option string }.

Definition is_unique_violation (e : exn) : bool := match e with UniqueViolation _ _ => true | _ => false end.

Definition register (e : envelope) (body : RegisterRequest) : api reply :=
  let* allowed := (if cf_registration_enabled cfg then Ret true else _invite_is_open (rg_invite_token body)) in
  if negb allowed then deny 403 "Self-service registration is disabled; ask an administrator for an invite link" else
  let* b := limited ("register:" +:+ get_client_ip e (cf_trust_proxy cfg)) None in
  if b then deny 429 "Too many requests" else
  let email := str_lower (str_strip (rg_email body)) in
  if negb (has_char "@"%char email) || (String.length email <? 3)%nat then deny 400 "A valid email is required" else
  if Z.of_nat (String.length (rg_password body)) <? MIN_PASSWORD_LEN then deny 400 "Password must be at least 10 characters" else
  let display_name := str_strip (rg_display_name body) in
  if bool_decide (display_name = "") then deny 400 "display_name is required" else
  let* user_id := pcatch (stmt (insert_user email (hash (en_salt e) (rg_password body)) display_name))
                         (fun x => if is_unique_violation x then deny 409 "Email already registered" else Throw x) in
  _issue_session e user_id 0 false.

Definition login (e : envelope) (email password : string) : api reply :=
  let client_ip := get_client_ip e (cf_trust_proxy cfg) in
  let email := str_lower (str_strip email) in
  login_buckets email client_ip >>>
  let* row := query (fun s => id ← user_by_email email s; u ← x_users s !! id; Some (id, u)) in
  match row with
  | None => deny 401 "Invalid email or password"
  | Some (id, u) =>
      if verify (us_password_hash u) password
      then record_login cfg e id "password_ok" >>> _issue_session e id (us_session_version u) false
      else record_login cfg e id "failed" >>> deny 401 "Invalid email or password"
  end.

Definition logout : api reply := Ret {| rp_status := 204; rp_body := JNull; rp_cookies := DeleteCookies |}.

(** *** The MPIN *)

Definition audit_auth (user_id : Z) (action : string) : api unit :=
  pcatch (stmt (modify (fun s => set_auth_events (x_auth_events s ++ [(action, user_id)]) s))) (fun _ => Ret tt).

(** [check_mpin], with the answer it makes; [None]: the MPIN is right. *)
Definition check_mpin (user_id : Z) (mpin : string) : api (option reply) :=
  let* r := on_portal (mpin_steps verify 5 user_id mpin Begin) in
  match r with
  | Passed => Ret None
  | NotAuthenticated => deny 401 "Not authenticated"
  | NotSet => Ret (Some (detail_reply 409 "MPIN not set"))
  | Locked until => Ret (Some (json_reply 423 (JObj [("detail", JStr "MPIN locked"); ("locked_until", JInt until)])))
  | Invalid n => Ret (Some (json_reply 401 (JObj [("detail", JStr "Invalid MPIN"); ("attempts_left", JInt n)])))
  end.

Definition require_mpin (user_id : Z) (mpin : json) : api (option reply) :=
  match mpin with
  | JStr m => if six_digits m then check_mpin user_id m else Ret (Some (detail_reply 400 "MPIN must be exactly 6 digits"))
  | _ => Ret (Some (detail_reply 400 "MPIN must be exactly 6 digits"))
  end.

Definition _validate_pair (mpin confirm : string) : api unit :=
  if negb (six_digits mpin) then deny 400 "MPIN must be exactly 6 digits"
  else if bool_decide (mpin = confirm) then Ret tt else deny 400 "MPINs do not match".

Definition store_mpin (user_id : Z) (mpin_hash : string) (us : users) : users :=
  alter (fun _ => {| u_mpin_hash := Some mpin_hash; u_failed := 0; u_locked_until := None |}) user_id us.

Definition _store (e : envelope) (user_id : Z) (mpin : string) : api unit :=
  stmt (modify (fun s => set_portal (upd_mpin (store_mpin user_id (hash (en_salt e) mpin)) (x_portal s)) s)).

Definition set_mpin (e : envelope) (mpin confirm : string) : api reply :=
  let* info := require_half_session e in
  _validate_pair mpin confirm >>>
  let* row := query (fun s => lock_state (si_user info) (p_mpin (x_portal s))) in
  match row with
  | None => deny 401 "Not authenticated"
  | Some (Some _, _, _) => deny 409 "MPIN already set"
  | Some (None, _, _) =>
      _store e (si_user info) mpin >>>
      audit_auth (si_user info) "mpin_set" >>>
      _issue_session e (si_user info) (si_version info) true
  end.

Definition verify_mpin (e : envelope) (mpin : string) : api reply :=
  let* info := require_half_session e in
  if negb (six_digits mpin) then deny 400 "MPIN must be exactly 6 digits" else
  let* failure := check_mpin (si_user info) mpin in
  match failure with
  | Some r => Ret r
  | None =>
      record_login cfg e (si_user info) "mpin_ok" >>>
      _issue_session e (si_user info) (si_version info) true
  end.

Definition reset_mpin (e : envelope) (password mpin confirm : string) : api reply :=
  let* info := require_half_session e in
  _validate_pair mpin confirm >>>
  let user := si_user info in
  let* row := query (fun s => u ← x_users s !! user; Some (lowered_email s user, us_password_hash u)) in
  match row with
  | None => deny 401 "Not authenticated"
  | Some (email, password_hash) =>
      login_buckets email (get_client_ip e (cf_trust_proxy cfg)) >>>
      if negb (verify password_hash password) then deny 401 "Invalid password" else
      _store e user mpin >>>
      let* new_sv := bump_version user None in
      let* response := _issue_session e user new_sv true in
      close_for_user user >>>
      audit_auth user "mpin_reset" >>>
      Ret response
  end.

Definition change_mpin (e : envelope) (current_mpin mpin confirm : string) : api reply :=
  let* user := require_user e in
  _validate_pair mpin confirm >>>
  if negb (six_digits current_mpin) then deny 400 "MPIN must be exactly 6 digits" else
  let* failure := check_mpin user current_mpin in
  match failure with
  | Some r => Ret r
  | None =>
      _store e user mpin >>>
      let* new_sv := bump_version user None in
      let* response := _issue_session e user new_sv true in
      close_for_user user >>>
      audit_auth user "mpin_changed" >>>
      Ret response
  end.

(** *** The password, and signing out everywhere *)

Definition change_password (e : envelope) (current new : string) (mpin : json) : api reply :=
  let* user := require_user e in
  let* failure := require_mpin user mpin in
  match failure with
  | Some r => Ret r
  | None =>
      let* row := query (fun s => us_password_hash <$> x_users s !! user) in
      match row with
      | None => deny 401 "Not authenticated"
      | Some password_hash =>
          if negb (verify password_hash current) then deny 403 "Current password is incorrect" else
          if Z.of_nat (String.length new) <? MIN_PASSWORD_LEN then deny 400 "Password must be at least 10 characters" else
          if bool_decide (new = current) then deny 400 "The new password must be different" else
          let* new_version := bump_version user (Some (hash (en_salt e) new)) in
          close_for_user user >>>
          _issue_session e user new_version true
      end
  end.

(** An UPDATE of a user who is gone changes nothing. *)
Definition logout_everywhere (e : envelope) : api reply :=
  let* user := require_user e in
  stmt (modify (fun s => set_users (alter (fun u => {| us_password_hash := us_password_hash u; us_display_name := us_display_name u;
                                                        us_session_version := us_session_version u + 1 |}) user (x_users s)) s)) >>>
  close_for_user user >>>
  logout.

(** *** Who am I *)

Definition role_name (r : member_role) : string :=
  match r with RInvestor => "investor" | RViewer => "viewer" | RAdmin => "admin" end.

Definition my_sign_ins (e : envelope) (limit : Z) : api reply :=
  let* user := require_user e in
  let* l := sign_ins user limit in
  Ret (json_reply 200 (JList l)).

(** The orgs of a user, by id *)
Definition orgs_of (user : Z) (s : access) : list (Z * string * member_role) :=
  omap (fun org => r ← p_members (x_portal s) !! (org, user); o ← rows (x_orgs s) !! org; Some (org, og_name o, r))
    (merge_sort Z.le (map_to_list (rows (x_orgs s))).*1).

Definition me (e : envelope) : api reply :=
  let* info := require_half_session e in
  let* mpin_set := query (fun s => match p_mpin (x_portal s) !! si_user info with
                                   | Some u => bool_decide (is_Some (u_mpin_hash u)) | None => false end) in
  let mpin pending := ("mpin", JObj [("pending", JBool pending); ("set", JBool mpin_set)]) in
  if negb (si_pin info) then Ret (json_reply 200 (JObj [mpin true])) else
  let* row := query (fun s => u ← x_users s !! si_user info; Some (default "" (p_emails (x_portal s) !! si_user info), us_display_name u)) in
  match row with
  | None => deny 401 "Not authenticated"
  | Some (email, display_name) =>
      let* orgs := query (orgs_of (si_user info)) in
      Ret (json_reply 200 (JObj [
        ("user", JObj [("id", JInt (si_user info)); ("email", JStr email); ("display_name", JStr display_name)]);
        ("orgs", JList ((fun o : Z * string * member_role =>
                           JObj [("id", JInt o.1.1); ("name", JStr o.1.2); ("role", JStr (role_name o.2))]) <$> orgs));
        mpin false]))
  end.
End session.

(** ** The CSRF middleware *)

Definition CSRF_EXEMPT_PREFIXES : list string := ["/api/webhooks/"; "/api/mt5/"].

(** [None]: the request goes on. *)
Definition csrf_dispatch (method path : string) (e : envelope) : option reply :=
  if bool_decide (method ∈ ["POST"; "PUT"; "DELETE"; "PATCH"]) &&
     negb (bool_decide (path ∈ ["/api/login"; "/api/register"])) && negb (existsb (fun p => str_starts p path) CSRF_EXEMPT_PREFIXES)
  then if negb (nonempty (en_csrf_cookie e)) then Some (detail_reply 403 "Missing CSRF token")
       else if negb (nonempty (en_csrf_header e)) || negb (bool_decide (en_csrf_header e = en_csrf_cookie e))
       then Some (detail_reply 403 "Invalid CSRF token") else None
  else None.

(** ** The bootstrap user *)

(** [row := conn.execute(SELECT ...)]; each call is one statement (autocommit). *)
Definition ensure_bootstrap_user (hash : string -> string -> string) (salt email password : string) : api unit :=
  if Z.of_nat (String.length password) <? MIN_PASSWORD_LEN
  then Throw (ValueError "BOOTSTRAP_ADMIN_PASSWORD must be at least 10 characters") else
  let* row := query (user_by_email (str_lower email)) in
  let* user_id := match row with
                  | Some id => Ret id
                  | None => stmt (insert_user email (hash salt password) (str_before "@"%char email))
                  end in
  let* org := query (fun s => fst <$> head (List.filter (fun o : Z * OrgRow => bool_decide (og_name o.2 = "Default") &&
                negb (existsb (fun kv => kv.1.1 =? o.1) (map_to_list (p_members (x_portal s))))) (map_to_list (rows (x_orgs s))))) in
  match org with
  | None => Ret tt
  | Some o => stmt (modify (fun s => set_portal (add_member o user_id RAdmin (x_portal s)) s))
  end.
