(* ===== verification/Members.v ===== *)
(** * Organisations, their members, and who may listen

    [api/routes/orgs.py], the handshake of [api/ws.py], and the routes of this
    part of the API together: [serve] is a request, from the CSRF check on.

    A [with conn.transaction()] block is one step; the block that changes or
    removes a member locks the admins' rows first, so two of them never overlap.
    What the deletion of an org cascades to is given for the tables of this
    state.  Replays of quotes to a new socket are left out. *)

From S2P Require Import Prelude PyStr PyDecimal PyFloat PyRepr PyDecOps Models Db PyJson Limiter PortalLedger Mpin Prog PortalDb PortalCommon Session.
From Stdlib Require Import Ascii.

Definition INVITE_TTL_DAYS : Z := 7.

(** [with conn.transaction():] *)
Definition atomically {A} (m : M access A) : M access A :=
  fun s => match m s with (Ok a, s') => (Ok a, s') | (Raise e, _) => (Raise e, s) end.
Definition mdeny {A} (code : Z) (detail : string) : M access A := raise (HTTPException code detail).

Definition set_members (f : gmap (Z * Z) member_role -> gmap (Z * Z) member_role) (s : access) : access :=
  set_portal (upd_members f (x_portal s)) s.

(** [body.role in ROLE_RANK], as a role *)
Definition role_of_name (s : string) : option member_role :=
  od_get s [("investor", RInvestor); ("viewer", RViewer); ("admin", RAdmin)].

(** ** Tables *)

Definition _cancel_open_account_requests (org user : Z) (s : access) : access :=
  set_requests ((fun r => if mine org user (ar_org r) (ar_user r) && bool_decide (ar_status r = "requested")
                          then {| ar_org := ar_org r; ar_user := ar_user r; ar_status := "cancelled"; ar_main_password := None;
                                  ar_investor_password := None; ar_decided_at := Some (db_now s) |}
                          else r) <$> x_requests s) s.

(** What [DELETE FROM orgs] cascades to: the rows of the org, and of its accounts *)
Definition keep_rows {A} (org_of : A -> Z) (org : Z) (t : table A) : table A :=
  {| rows := filter (fun kv => org_of kv.2 <> org) (rows t); next_id := next_id t |}.

Definition drop_org_rows (org : Z) (p : portal) : portal :=
  let accounts := filter (fun kv => ac_org kv.2 <> org) (p_accounts p) in
  let files := filter (fun kv => fi_org kv.2 <> org) (p_files p) in
  {| p_members := filter (fun kv => kv.1.1 <> org) (p_members p); p_emails := p_emails p; p_mpin := p_mpin p;
     p_accounts := accounts;
     p_mt5_equity := filter (fun kv => is_Some (accounts !! kv.1)) (p_mt5_equity p);
     p_files := files; p_other_files := filter (fun f => is_Some (files !! f)) (p_other_files p);
     p_settings := delete org (p_settings p); p_rules := delete org (p_rules p);
     p_methods := keep_rows me_org org (p_methods p); p_destinations := keep_rows de_org org (p_destinations p);
     p_entries := keep_rows we_org org (p_entries p); p_deposits := keep_rows dp_org org (p_deposits p);
     p_withdrawals := keep_rows wd_org org (p_withdrawals p); p_transfers := keep_rows tr_org org (p_transfers p);
     p_bonuses := keep_rows bo_org org (p_bonuses p); p_events := p_events p;
     p_notices := filter (fun n => no_org n <> org) (p_notices p); p_hourly := p_hourly p;
     p_api_now := p_api_now p; p_db_now := p_db_now p |}.

Definition delete_org_rows (org : Z) (s : access) : access :=
  {| x_portal := drop_org_rows org (x_portal s); x_users := x_users s; x_next_user := x_next_user s; x_logins := x_logins s;
     x_orgs := {| rows := delete org (rows (x_orgs s)); next_id := next_id (x_orgs s) |};
     x_invites := keep_rows iv_org org (x_invites s);
     x_requests := filter (fun kv => ar_org kv.2 <> org) (x_requests s);
     x_auth_events := x_auth_events s; x_sockets := x_sockets s; x_limiter := x_limiter s |}.

(** [SELECT user_id FROM org_memberships WHERE org_id = %s AND role = 'admin'] *)
Definition admins (org : Z) (s : access) : list Z :=
  omap (fun kv => if (kv.1.1 =? org) && bool_decide (kv.2 = RAdmin) then Some kv.1.2 else None)
    (map_to_list (p_members (x_portal s))).

(** ** Time passes *)

Definition set_clocks (api db : Z) (p : portal) : portal :=
  {| p_members := p_members p; p_emails := p_emails p; p_mpin := p_mpin p; p_accounts := p_accounts p;
     p_mt5_equity := p_mt5_equity p; p_files := p_files p; p_other_files := p_other_files p; p_settings := p_settings p;
     p_rules := p_rules p; p_methods := p_methods p; p_destinations := p_destinations p; p_entries := p_entries p;
     p_deposits := p_deposits p; p_withdrawals := p_withdrawals p; p_transfers := p_transfers p; p_bonuses := p_bonuses p;
     p_events := p_events p; p_notices := p_notices p; p_hourly := p_hourly p; p_api_now := api; p_db_now := db |}.

(** The clocks show other times. *)
Definition elapse (api db : Z) : prog access reply :=
  stmt (modify (fun s => set_portal (set_clocks api db (x_portal s)) s)) >>> Ret no_content.

Section members.
Context (dumps : Z -> json -> string) (loads : Z -> string -> option json).
Context (verify : string -> string -> bool) (hash : string -> string -> string) (sha256 : string -> string).
(** [urlsplit(url).netloc] *)
Context (netloc : string -> string).
Context (cfg : ApiConfig).

Definition user_of (e : envelope) : api Z := require_user loads e.

(** [ctx: OrgContext = Depends(require_org_role(min_role))] *)
Definition member_of (min_role : member_role) (e : envelope) (org : Z) : api OrgContext :=
  let* user := user_of e in on_portal (require_org_role min_role org user).

(** ** Orgs *)

Definition create_org (e : envelope) (name : string) : api reply :=
  let* user := user_of e in
  let name := str_strip name in
  if bool_decide (name = "") then deny 400 "name is required" else
  let* org_id := stmt (atomically (fun s =>
    let id := next_id (x_orgs s) in
    (Ok id, set_members (insert (id, user) RAdmin)
      (set_orgs (add_row {| og_name := name; og_copying_enabled := true; og_dry_run := false; og_created_at := db_now s |}
                   (x_orgs s)) s)))) in
  Ret (json_reply 201 (JObj [("id", JInt org_id); ("name", JStr name); ("role", JStr "admin")])).

(** A row to be unpacked; [None] raises. *)
Definition fetched {A} (row : option A) : api A :=
  match row with Some r => Ret r | None => Throw (TypeError "'NoneType' object is not subscriptable") end.

Definition get_org (e : envelope) (org : Z) : api reply :=
  let* ctx := member_of RViewer e org in
  let* row := query (fun s => rows (x_orgs s) !! org) in
  let* o := fetched row in
  Ret (json_reply 200 (JObj [("id", JInt org); ("name", JStr (og_name o)); ("copying_enabled", JBool (og_copying_enabled o));
                             ("dry_run", JBool (og_dry_run o)); ("created_at", JInt (og_created_at o));
                             ("role", JStr (role_name (cx_role ctx)))])).

Definition patch_org (e : envelope) (org : Z) (name : option string) : api reply :=
  let* _ := member_of RAdmin e org in
  (match name with
   | None => Ret tt
   | Some name =>
       let name := str_strip name in
       if bool_decide (name = "") then deny 400 "name must not be empty"
       else stmt (modify (fun s => set_orgs {| rows := alter (fun o => {| og_name := name; og_copying_enabled := og_copying_enabled o;
                     og_dry_run := og_dry_run o; og_created_at := og_created_at o |}) org (rows (x_orgs s));
                     next_id := next_id (x_orgs s) |} s))
   end) >>>
  let* row := query (fun s => rows (x_orgs s) !! org) in
  let* o := fetched row in
  Ret (json_reply 200 (JObj [("id", JInt org); ("name", JStr (og_name o))])).

Definition delete_org (e : envelope) (org : Z) : api reply :=
  let* _ := member_of RAdmin e org in
  stmt (modify (delete_org_rows org)) >>>
  close_org org >>>
  Ret no_content.

(** ** Members *)

(** [org_memberships m JOIN users u]; the order of joining is left out. *)
Definition list_members (e : envelope) (org : Z) : api reply :=
  let* _ := member_of RViewer e org in
  let* l := query (fun s => omap (fun kv : (Z * Z) * member_role =>
    if kv.1.1 =? org then
      u ← x_users s !! kv.1.2;
      Some (JObj [("user_id", JInt kv.1.2); ("email", JStr (default "" (p_emails (x_portal s) !! kv.1.2)));
                  ("display_name", JStr (us_display_name u)); ("role", JStr (role_name kv.2))])
    else None) (map_to_list (p_members (x_portal s)))) in
  Ret (json_reply 200 (JList l)).

(** The block of [patch_member]; it answers the role of before. *)
Definition patch_block (org member : Z) (role : member_role) : M access member_role :=
  let! admin_ids := gets (admins org) in
  let! row := gets (fun s => p_members (x_portal s) !! (org, member)) in
  match row with
  | None => mdeny 404 "Member not found"
  | Some old =>
      (if bool_decide (old = RAdmin) && negb (bool_decide (role = RAdmin)) && (length admin_ids =? 1)%nat
       then mdeny 409 "An org must keep at least one admin" else ret tt) ;;;
      modify (set_members (insert (org, member) role)) ;;;
      (if bool_decide (role = RInvestor) then ret tt else modify (_cancel_open_account_requests org member)) ;;;
      ret old
  end.

Definition patch_member (e : envelope) (org member : Z) (role : string) : api reply :=
  let* ctx := member_of RAdmin e org in
  match role_of_name role with
  | None => deny 400 "Unknown role"
  | Some new =>
      let* old := stmt (atomically (patch_block org member new)) in
      (if bool_decide (new = RInvestor) && negb (bool_decide (old = RInvestor))
       then on_portal (award_rule_bonus org member BSignup (Some (cx_email ctx))) >>> Ret tt else Ret tt) >>>
      Ret (json_reply 200 (JObj [("user_id", JInt member); ("role", JStr role)]))
  end.

Definition remove_block (org member : Z) : M access unit :=
  let! admin_ids := gets (admins org) in
  let! row := gets (fun s => p_members (x_portal s) !! (org, member)) in
  match row with
  | None => mdeny 404 "Member not found"
  | Some old =>
      (if bool_decide (old = RAdmin) && (length admin_ids =? 1)%nat
       then mdeny 409 "An org must keep at least one admin" else ret tt) ;;;
      modify (set_members (delete (org, member))) ;;;
      modify (_cancel_open_account_requests org member)
  end.

Definition remove_member (e : envelope) (org member : Z) : api reply :=
  let* ctx := member_of RViewer e org in
  if negb (bool_decide (cx_role ctx = RAdmin)) && negb (member =? cx_user ctx) then deny 403 "Insufficient role" else
  stmt (atomically (remove_block org member)) >>>
  close_for org member >>>
  Ret no_content.

(** ** Invites *)

Definition create_invite (e : envelope) (org : Z) (role : string) : api reply :=
  let* ctx := member_of RAdmin e org in
  match role_of_name role with
  | None => deny 400 "Invites can grant admin, viewer, or investor"
  | Some r =>
      let token_hash := sha256 (en_token e) in
      let* row := stmt (fun s =>
        let id := next_id (x_invites s) in
        let expires := db_now s + days_us INVITE_TTL_DAYS in
        if any_row (fun iv => bool_decide (iv_token_hash iv = token_hash)) (rows (x_invites s))
        then (Raise (UniqueViolation "org_invites_token_hash_key" token_hash), set_invites (skip_id (x_invites s)) s)
        else if negb (bool_decide (is_Some (rows (x_orgs s) !! org)))
        then (Raise fk_violation, set_invites (skip_id (x_invites s)) s)
        else (Ok (id, expires),
              set_invites (add_row {| iv_org := org; iv_role := r; iv_token_hash := token_hash; iv_created_by := cx_user ctx;
                 iv_created_at := db_now s; iv_expires_at := expires; iv_consumed_at := None; iv_consumed_by := None |}
                 (x_invites s)) s)) in
      Ret (json_reply 201 (JObj [("id", JInt row.1); ("role", JStr role); ("token", JStr (en_token e)); ("expires_at", JInt row.2)]))
  end.

(** [ORDER BY created_at DESC] *)
Definition invite_later (a b : Z * InviteRow) : Prop := iv_created_at b.2 <= iv_created_at a.2.
#[local] Instance invite_later_dec a b : Decision (invite_later a b).
Proof using Type. unfold invite_later. apply _. Defined.

Definition list_invites (e : envelope) (org : Z) : api reply :=
  let* _ := member_of RAdmin e org in
  let* l := query (fun s => merge_sort invite_later (filter (fun kv => iv_org kv.2 = org) (map_to_list (rows (x_invites s))))) in
  Ret (json_reply 200 (JList ((fun kv : Z * InviteRow =>
    JObj [("id", JInt kv.1); ("role", JStr (role_name (iv_role kv.2))); ("created_at", JInt (iv_created_at kv.2));
          ("expires_at", JInt (iv_expires_at kv.2)); ("consumed", JBool (bool_decide (is_Some (iv_consumed_at kv.2))))]) <$> l))).

Definition revoke_invite (e : envelope) (org invite : Z) : api reply :=
  let* _ := member_of RAdmin e org in
  let* rowcount := stmt (fun s =>
    match rows (x_invites s) !! invite with
    | Some iv => if iv_org iv =? org
                 then (Ok 1, set_invites {| rows := delete invite (rows (x_invites s)); next_id := next_id (x_invites s) |} s)
                 else (Ok 0, s)
    | None => (Ok 0, s)
    end) in
  if rowcount =? 0 then deny 404 "Invite not found" else Ret no_content.

(** The block of [join_org]: the invite is spent and the member added, or
    nothing happens. *)
Definition join_block (user : Z) (token : string) : M access (Z * member_role) :=
  let! found := gets (fun s => head (List.filter (fun kv => open_invite sha256 token s kv.2) (map_to_list (rows (x_invites s))))) in
  match found with
  | None => mdeny 410 "Invite is invalid, expired, or already used"
  | Some (id, iv) =>
      modify (fun s => set_invites (set_row id {| iv_org := iv_org iv; iv_role := iv_role iv; iv_token_hash := iv_token_hash iv;
        iv_created_by := iv_created_by iv; iv_created_at := iv_created_at iv; iv_expires_at := iv_expires_at iv;
        iv_consumed_at := Some (db_now s); iv_consumed_by := Some user |} (x_invites s)) s) ;;;
      let! present := gets (fun s => bool_decide (is_Some (p_members (x_portal s) !! (iv_org iv, user)))) in
      if present : bool then mdeny 409 "Already a member" else
      modify (set_members (insert (iv_org iv, user) (iv_role iv))) ;;;
      ret (iv_org iv, iv_role iv)
  end.

Definition join_org (e : envelope) (token : string) : api reply :=
  let* user := user_of e in
  let* granted := stmt (atomically (join_block user token)) in
  let '(org, role) := granted in
  (if bool_decide (role = RInvestor) then on_portal (award_rule_bonus org user BSignup None) >>> Ret tt else Ret tt) >>>
  Ret (json_reply 200 (JObj [("org_id", JInt org); ("role", JStr (role_name role))])).

(** ** The event stream *)

(** [s.rstrip('/')] *)
Fixpoint rstrip_slash (s : string) : string :=
  match s with
  | "" => ""
  | String c s' => match rstrip_slash s' with "" => if bool_decide (c = "/"%char) then "" else String c "" | t => String c t end
  end.

Definition origin_allowed (origin : option string) (public_origin : string) (host : option string) : bool :=
  match origin with
  | None => true
  | Some o =>
      let origin_host := str_lower (netloc o) in
      if bool_decide (origin_host = "") then false
      else if negb (bool_decide (public_origin = ""))
      then bool_decide (origin_host ∈ (fun o => str_lower (netloc (rstrip_slash (str_strip o)))) <$>
             List.filter (fun o => negb (bool_decide (str_strip o = ""))) (str_split ","%char public_origin))
      else nonempty host && bool_decide (origin_host = str_lower (str_strip (default "" host)))
  end.

(** How a handshake ends: the code of the close frame, or the stream was
    opened and the client went away. *)
Definition closed (code : Z) : reply := json_reply code JNull.
Definition ended : reply := json_reply 101 JNull.

Definition websocket_endpoint (ws : Z) (origin host raw_org : option string) (e : envelope) : api reply :=
  if negb (origin_allowed origin (cf_public_origin cfg) host) then Ret (closed 4403) else
  let* identity := (match en_session e with None | Some "" => Ret None | Some session => _unpack_session loads session end) in
  match identity with
  | None => Ret (closed 4401)
  | Some info =>
      if negb (si_pin info) then Ret (closed 4401) else
      match raw_org ≫= py_int with
      | None => Ret (closed 4400)
      | Some org =>
          let* current := session_version_matches (si_user info) (si_version info) in
          if negb current then Ret (closed 4401) else
          let* member := query (fun s => p_members (x_portal s) !! (org, si_user info)) in
          match member with
          | None => Ret (closed 4404)
          | Some RInvestor => Ret (closed 4403)
          | Some _ =>
              on_sockets (bc_connect ws org (si_user info)) >>>
              (* the client goes away *)
              on_sockets (disconnect ws org) >>>
              Ret ended
          end
      end
  end.

(** ** A request *)

Inductive call :=
  | Register (body : RegisterRequest)
  | Login (email password : string)
  | Logout
  | ChangePassword (current new : string) (mpin : json)
  | LogoutEverywhere
  | MySignIns (limit : Z)
  | Me
  | SetMpin (mpin confirm : string)
  | VerifyMpin (mpin : string)
  | ResetMpin (password mpin confirm : string)
  | ChangeMpin (current mpin confirm : string)
  | CreateOrg (name : string)
  | JoinOrg (token : string)
  | GetOrg (org : Z)
  | PatchOrg (org : Z) (name : option string)
  | DeleteOrg (org : Z)
  | ListMembers (org : Z)
  | PatchMember (org member : Z) (role : string)
  | RemoveMember (org member : Z)
  | CreateInvite (org : Z) (role : string)
  | ListInvites (org : Z)
  | RevokeInvite (org invite : Z)
  | WebSocket (ws : Z) (origin host raw_org : option string).

Definition handler (c : call) (e : envelope) : api reply :=
  match c with
  | Register body => register dumps hash sha256 cfg e body
  | Login email password => login dumps verify cfg e email password
  | Logout => logout
  | ChangePassword current new mpin => change_password dumps loads verify hash e current new mpin
  | LogoutEverywhere => logout_everywhere loads e
  | MySignIns limit => my_sign_ins loads e limit
  | Me => me loads e
  | SetMpin mpin confirm => set_mpin dumps loads hash e mpin confirm
  | VerifyMpin mpin => verify_mpin dumps loads verify cfg e mpin
  | ResetMpin password mpin confirm => reset_mpin dumps loads verify hash cfg e password mpin confirm
  | ChangeMpin current mpin confirm => change_mpin dumps loads verify hash e current mpin confirm
  | CreateOrg name => create_org e name
  | JoinOrg token => join_org e token
  | GetOrg org => get_org e org
  | PatchOrg org name => patch_org e org name
  | DeleteOrg org => delete_org e org
  | ListMembers org => list_members e org
  | PatchMember org member role => patch_member e org member role
  | RemoveMember org member => remove_member e org member
  | CreateInvite org role => create_invite e org role
  | ListInvites org => list_invites e org
  | RevokeInvite org invite => revoke_invite e org invite
  | WebSocket ws origin host raw_org => websocket_endpoint ws origin host raw_org e
  end.

(** Method and path of the route; a socket's handshake is not seen by the middleware. *)
Definition route_of (c : call) : string * string :=
  match c with
  | Register _ => ("POST", "/api/register")
  | Login _ _ => ("POST", "/api/login")
  | Logout => ("POST", "/api/logout")
  | ChangePassword _ _ _ => ("POST", "/api/me/password")
  | LogoutEverywhere => ("POST", "/api/me/logout-all")
  | MySignIns _ => ("GET", "/api/me/sign-ins")
  | Me => ("GET", "/api/me")
  | SetMpin _ _ => ("POST", "/api/mpin/set")
  | VerifyMpin _ => ("POST", "/api/mpin/verify")
  | ResetMpin _ _ _ => ("POST", "/api/mpin/reset")
  | ChangeMpin _ _ _ => ("POST", "/api/me/mpin")
  | CreateOrg _ => ("POST", "/api/orgs")
  | JoinOrg _ => ("POST", "/api/orgs/join")
  | GetOrg org => ("GET", "/api/orgs/" +:+ pretty org)
  | PatchOrg org _ => ("PATCH", "/api/orgs/" +:+ pretty org)
  | DeleteOrg org => ("DELETE", "/api/orgs/" +:+ pretty org)
  | ListMembers org => ("GET", "/api/orgs/" +:+ pretty org +:+ "/members")
  | PatchMember org member _ => ("PATCH", "/api/orgs/" +:+ pretty org +:+ "/members/" +:+ pretty member)
  | RemoveMember org member => ("DELETE", "/api/orgs/" +:+ pretty org +:+ "/members/" +:+ pretty member)
  | CreateInvite org _ => ("POST", "/api/orgs/" +:+ pretty org +:+ "/invites")
  | ListInvites org => ("GET", "/api/orgs/" +:+ pretty org +:+ "/invites")
  | RevokeInvite org invite => ("DELETE", "/api/orgs/" +:+ pretty org +:+ "/invites/" +:+ pretty invite)
  | WebSocket _ _ _ _ => ("WEBSOCKET", "/api/ws")
  end.

Definition serve (r : call * envelope) : api reply :=
  match csrf_dispatch (route_of r.1).1 (route_of r.1).2 r.2 with
  | Some refused => Ret refused
  | None => handler r.1 r.2
  end.

(** What takes part in a run. *)
Inductive actor := Request (c : call) (e : envelope) | Time (api db : Z).

Definition act (a : actor) : api reply :=
  match a with Request c e => serve (c, e) | Time api db => elapse api db end.
End members.

(** ** A small workspace

    Concrete serialiser, hash and state for the examples and for the witnesses
    of [SessionFacts], [SessionRuns] and [MembersFacts]. *)

(** Six cookies *)
Definition demo_dumps (t : Z) (d : json) : string :=
  match d with
  | JObj [(_, JInt u); (_, JInt v); (_, JBool p)] =>
      if decide ((u, v, p) = (10, 0, false)) then "ann0-half"
      else if decide ((u, v, p) = (10, 0, true)) then "ann0"
      else if decide ((u, v, p) = (10, 1, true)) then "ann1"
      else if decide ((u, v, p) = (10, 2, true)) then "ann2"
      else if decide ((u, v, p) = (20, 0, true)) then "bob0"
      else if decide ((u, v, p) = (30, 0, true)) then "cid0"
      else ""
  | _ => ""
  end.

Definition demo_loads (now : Z) (text : string) : option json :=
  match text with
  | "ann0-half" => Some (session_payload 10 0 false)
  | "ann0" => Some (session_payload 10 0 true)
  | "ann1" => Some (session_payload 10 1 true)
  | "ann2" => Some (session_payload 10 2 true)
  | "bob0" => Some (session_payload 20 0 true)
  | "cid0" => Some (session_payload 30 0 true)
  | _ => None
  end.

(** The hash of a text is the text. *)
Definition demo_verify (h guess : string) : bool := String.eqb h guess.
Definition demo_hash (salt text : string) : string := text.
Definition demo_sha256 (text : string) : string := "#" +:+ text.
Definition demo_netloc (url : string) : string := url.
Definition demo_cfg : ApiConfig := {| cf_trust_proxy := false; cf_public_origin := ""; cf_registration_enabled := false |}.

Definition demo_portal : portal :=
  {| p_members := {[ (1, 10) := RAdmin; (1, 20) := RAdmin ]};
     p_emails := {[ 10 := "ann@x.org"; 20 := "bob@x.org"; 30 := "cid@x.org" ]};
     p_mpin := {[ 10 := {| u_mpin_hash := Some "123456"; u_failed := 0; u_locked_until := None |};
                  20 := {| u_mpin_hash := Some "654321"; u_failed := 0; u_locked_until := None |};
                  30 := {| u_mpin_hash := None; u_failed := 0; u_locked_until := None |} ]};
     p_accounts := ∅; p_mt5_equity := ∅; p_files := ∅; p_other_files := ∅; p_settings := ∅; p_rules := ∅;
     p_methods := {| rows := ∅; next_id := 1 |}; p_destinations := {| rows := ∅; next_id := 1 |};
     p_entries := {| rows := ∅; next_id := 1 |}; p_deposits := {| rows := ∅; next_id := 1 |};
     p_withdrawals := {| rows := ∅; next_id := 1 |}; p_transfers := {| rows := ∅; next_id := 1 |};
     p_bonuses := {| rows := ∅; next_id := 1 |}; p_events := []; p_notices := []; p_hourly := hourly_init;
     p_api_now := 1000; p_db_now := 1000 |}.

Definition demo_user (password name : string) : UserRow :=
  {| us_password_hash := password; us_display_name := name; us_session_version := 0 |}.

Definition demo_access : access :=
  {| x_portal := demo_portal;
     x_users := {[ 10 := demo_user "ann's password" "Ann"; 20 := demo_user "bob's password" "Bob"; 30 := demo_user "cid's password" "Cid" ]};
     x_next_user := 31;
     x_logins := {| rows := ∅; next_id := 1 |};
     x_orgs := {| rows := {[ 1 := {| og_name := "Desk"; og_copying_enabled := true; og_dry_run := false; og_created_at := 0 |} ]}; next_id := 2 |};
     x_invites := {| rows := {[ 1 := {| iv_org := 1; iv_role := RViewer; iv_token_hash := "#welcome"; iv_created_by := 10; iv_created_at := 0;
                                        iv_expires_at := 5000; iv_consumed_at := None; iv_consumed_by := None |} ]}; next_id := 2 |};
     x_requests := ∅; x_auth_events := [];
     x_sockets := {| bc_connections := []; bc_dicts := ∅; bc_next := O; bc_closed := [] |};
     x_limiter := limiter_init 5 60000000 |}.

(** A browser with this session cookie, and a matching CSRF token *)
Definition browser (session : option string) : envelope :=
  {| en_session := session; en_csrf_cookie := Some "csrf"; en_csrf_header := Some "csrf"; en_peer := Some "203.0.113.7"; en_forwarded := None;
     en_agent := None; en_salt := ""; en_token := "token" |}.

Definition demo_run (acts : list actor) (schedule : list nat) : list (api reply) * access :=
  run_pool schedule (act demo_dumps demo_loads demo_verify demo_hash demo_sha256 demo_netloc demo_cfg <$> acts, demo_access).

(** What was answered *)
Definition answer_of (p : api reply) : option (Z * cookies) :=
  match p with
  | Ret a => Some (rp_status a, rp_cookies a)
  | Throw (HTTPException code _) => Some (code, KeepCookies)
  | _ => None
  end.

(** Turns for each request, one request after the other *)
Definition turns (n : nat) (who : list nat) : list nat := who ≫= replicate n.

(** ** Examples *)

(** A password and an MPIN make a full session. *)
Example signing_in :
  answer_of <$> (demo_run [Request (Login "ann@x.org" "ann's password") (browser None);
                           Request (VerifyMpin "123456") (browser (Some "ann0-half"));
                           Request Me (browser (Some "ann0"))] (turns 20 [0; 1; 2])%nat).1 =
  [Some (204, SetCookies "ann0-half" "token"); Some (204, SetCookies "ann0" "token"); Some (200, KeepCookies)].
Proof. vm_compute. reflexivity. Qed.

(** The second factor falls with the first: whoever knows the password alone
    gets a half session, replaces the MPIN, and with the new one takes the
    account over. *)
Example password_alone_takes_over :
  answer_of <$> (demo_run [Request (Login "ann@x.org" "ann's password") (browser None);
                           Request (ResetMpin "ann's password" "000000" "000000") (browser (Some "ann0-half"));
                           Request (ChangePassword "ann's password" "the thief's one" (JStr "000000")) (browser (Some "ann1"))]
                  (turns 20 [0; 1; 2])%nat).1 =
  [Some (204, SetCookies "ann0-half" "token"); Some (204, SetCookies "ann1" "token"); Some (204, SetCookies "ann2" "token")].
Proof. vm_compute. reflexivity. Qed.

(** A socket whose handshake has passed its checks opens after its user has
    signed out everywhere, and stays open. *)
Example socket_outlives_sign_out :
  let w := demo_run [Request (WebSocket 7 None None (Some "1")) (browser (Some "ann0")); Request LogoutEverywhere (browser (Some "ann0"))]
             (turns 3 [0] ++ turns 20 [1] ++ turns 1 [0])%nat in
  (answer_of <$> w.1, sockets_of (x_sockets w.2) 1, version_of 10 w.2) = ([None; Some (204, DeleteCookies)], [(7, 10)], Some 1).
Proof. vm_compute. reflexivity. Qed.

(** The same with a member who is removed. *)
Example socket_outlives_membership :
  let w := demo_run [Request (WebSocket 7 None None (Some "1")) (browser (Some "bob0")); Request (RemoveMember 1 20) (browser (Some "ann0"))]
             (turns 3 [0] ++ turns 20 [1] ++ turns 1 [0])%nat in
  (answer_of <$> w.1, sockets_of (x_sockets w.2) 1, p_members (x_portal w.2) !! (1, 20)) = ([None; Some (204, KeepCookies)], [(7, 20)], None).
Proof. vm_compute. reflexivity. Qed.

(** Two requests that set a first MPIN at once are both told that it is set;
    one of the two MPINs does not work. *)
Example two_first_mpins :
  let w := demo_run [Request (SetMpin "111111" "111111") (browser (Some "cid0")); Request (SetMpin "222222" "222222") (browser (Some "cid0"))]
             (turns 3 [0; 1] ++ turns 20 [0; 1])%nat in
  (answer_of <$> w.1, u_mpin_hash <$> p_mpin (x_portal w.2) !! 30) =
  ([Some (204, SetCookies "cid0" "token"); Some (204, SetCookies "cid0" "token")], Some (Some "222222")).
Proof. vm_compute. reflexivity. Qed.
