(* ===== verification/SessionFacts.v ===== *)
(** * What a session is worth

    [idle]: no step of the program changes an account, a membership, an org or an
    invite; most of what the routes are made of is idle.
    [hist]: what a program may conclude from the states in which it made its own
    steps.  [full_session_needs_second_factor] is proved with it, in a pool of
    any requests of [Members]. *)

From S2P Require Import Prelude PyStr PyFloat Db PyJson Limiter Mpin Prog PortalDb PortalCommon Session Members.

(** ** The portal's programs that the routes call keep the memberships *)

Definition keeps_members (p p' : portal) : Prop := p_members p' = p_members p.
#[export] Instance keeps_members_preorder : PreOrder keeps_members.
Proof. split; [done|]. intros p1 p2 p3 E1 E2. unfold keeps_members. by etrans. Qed.

Lemma keeps_insert {A} (get : portal -> table A) upd x (r : A) :
  (forall f p, keeps_members p (upd f p)) -> respects keeps_members (insert_row get upd x r).
Proof. intros H p. unfold exec, insert_row. destruct x; simpl; apply H. Qed.

Ltac keeps_step :=
  repeat first
    [ apply respects_bind; [apply _| |intros ?] | apply respects_ret; apply _ | apply respects_raise; apply _ | apply respects_gets; apply _
    | apply respects_lift; apply _ | apply keeps_insert; done | apply respects_modify; done | progress cbv zeta | case_match ].

Lemma keeps_settle o u w amount kind ref note by_ : respects keeps_members (settle o u w amount kind ref note by_).
Proof. unfold settle. keeps_step. Qed.
Lemma keeps_rule_bonus o source base : respects keeps_members (rule_bonus o source base).
Proof. unfold rule_bonus, bonus_rules. keeps_step. Qed.
Lemma keeps_pay_bonus o u source amount id note by_ : respects keeps_members (pay_bonus o u source amount id note by_).
Proof. unfold pay_bonus. repeat (keeps_step; try apply keeps_settle). Qed.
Lemma keeps_transaction {A} (m : M portal A) : respects keeps_members m -> respects keeps_members (transaction m).
Proof. intros H p. specialize (H p). unfold exec, transaction in *. by destruct (m p) as [[a|x] p']. Qed.

Lemma keeps_award o u source actor : makes (fun _ => True) keeps_members (award_rule_bonus o u source actor).
Proof.
  unfold award_rule_bonus. apply makes_catch; [|done]. apply makes_bind.
  - apply makes_stmt. intros p _. apply keeps_transaction. apply respects_bind; [apply _|apply keeps_rule_bonus|intros; apply keeps_pay_bonus].
  - intros [id|]; [|done]. apply makes_bind; [destruct actor; [done|by apply makes_stmt]|]. intros email.
    apply makes_bind; [|done]. unfold announce_bonus, audit_control, notify. apply makes_bind; intros; by apply makes_stmt.
Qed.

Lemma keeps_mpin verify fuel u m : forall p, makes (fun _ => True) keeps_members (mpin_steps verify fuel u m p).
Proof.
  induction fuel as [|fuel IH]; intros p; [by destruct p|].
  assert (forall s, keeps_members s (upd_mpin (fun us => (step verify u m (p_api_now s) (p_db_now s) p us).2) s) /\
    makes (fun _ => True) keeps_members (mpin_steps verify fuel u m (step verify u m (p_api_now s) (p_db_now s) p (p_mpin s)).1)) as H
    by (intros s; split; [done|apply IH]).
  destruct p; try (intros s _; apply H). done.
Qed.
Lemma keeps_role r o u : makes (fun _ => True) keeps_members (require_org_role r o u).
Proof.
  apply makes_bind; [by apply makes_stmt|]. intros [[role email]|]; [|done]. by destruct (_ <? _).
Qed.

(** ** Programs *)

Definition roster (s : access) : gmap (Z * Z) member_role := p_members (x_portal s).
Definition untouched (s s' : access) : Prop :=
  x_users s' = x_users s /\ x_next_user s' = x_next_user s /\ roster s' = roster s /\ x_orgs s' = x_orgs s /\ x_invites s' = x_invites s.
Definition idle {A} (p : api A) : Prop := makes (fun _ => True) untouched p.

Lemma idle_ret {A} (a : A) : idle (Ret a).
Proof. done. Qed.
Lemma idle_throw {A} x : idle (Throw x : api A).
Proof. done. Qed.
Lemma idle_deny {A} n d : idle (deny n d : api A).
Proof. done. Qed.
Lemma idle_of_result {A} (r : result A) : idle (of_result r).
Proof. by destruct r. Qed.
Lemma idle_bind {A B} (p : api A) (f : A -> api B) : idle p -> (forall a, idle (f a)) -> idle (pbind p f).
Proof. apply makes_bind. Qed.
Lemma idle_catch {A} (p : api A) h : idle p -> (forall x, idle (h x)) -> idle (pcatch p h).
Proof. apply makes_catch. Qed.
Lemma idle_query {A} (f : access -> A) : idle (query f).
Proof. by apply makes_stmt. Qed.
Lemma idle_modify f : (forall s, untouched s (f s)) -> idle (stmt (modify f)).
Proof. intros H. apply makes_stmt. intros s _. apply H. Qed.
Lemma idle_pfor {A} (f : A -> api unit) l : (forall x, idle (f x)) -> idle (pfor f l).
Proof. intros Hf. induction l as [|x l IH]; simpl; [done|]. by apply idle_bind. Qed.
Lemma idle_on_portal {A} (p : prog portal A) : makes (fun _ => True) keeps_members p -> idle (on_portal p).
Proof.
  induction p as [a|x|upd k IH]; simpl; [done|done|]. intros Hp s _. destruct (Hp (x_portal s) Logic.I) as [H Hk].
  split; [by split_and!|]. by apply IH.
Qed.
Lemma idle_mpin verify fuel u m p : idle (on_portal (mpin_steps verify fuel u m p)).
Proof. apply idle_on_portal, keeps_mpin. Qed.
Lemma idle_role r o u : idle (on_portal (require_org_role r o u)).
Proof. apply idle_on_portal, keeps_role. Qed.
Lemma idle_award o u source actor : idle (on_portal (award_rule_bonus o u source actor)).
Proof. apply idle_on_portal, keeps_award. Qed.

Create HintDb idle.
#[export] Hint Resolve idle_ret idle_throw idle_deny idle_of_result idle_query idle_mpin idle_role idle_award : idle.

(** Take a program apart; what is left are its primitive steps. *)
Ltac idle_steps :=
  repeat first
    [ solve [auto 2 with idle] | apply idle_bind; [|intros ?] | apply idle_catch; [|intros ?] | apply idle_pfor; intros ?
    | apply idle_modify; intros ?; by split_and! | progress cbv zeta beta | case_match ].

Lemma idle_limited key o : idle (limited key o).
Proof. apply makes_stmt. intros s _. unfold exec. simpl. by destruct (is_limited _ _ _ _). Qed.
#[export] Hint Resolve idle_limited : idle.
Lemma idle_buckets email ip : idle (login_buckets email ip).
Proof. unfold login_buckets. idle_steps. Qed.
Lemma idle_record cfg e u outcome : idle (record_login cfg e u outcome).
Proof. unfold record_login. idle_steps. Qed.
Lemma idle_sockets f : idle (on_sockets f).
Proof. unfold on_sockets. idle_steps. Qed.
#[export] Hint Resolve idle_buckets idle_record idle_sockets : idle.
Lemma idle_close_for_user u : idle (close_for_user u).
Proof. unfold close_for_user, close_one. idle_steps. Qed.
Lemma idle_close_for org u : idle (close_for org u).
Proof. unfold close_for, close_one. idle_steps. Qed.
Lemma idle_close_org org : idle (close_org org).
Proof. unfold close_org. idle_steps. Qed.
Lemma idle_audit u a : idle (audit_auth u a).
Proof. unfold audit_auth. idle_steps. Qed.
Lemma idle_store hash e u m : idle (_store hash e u m).
Proof. unfold _store. idle_steps. Qed.
Lemma idle_validate m c : idle (_validate_pair m c).
Proof. unfold _validate_pair. idle_steps. Qed.
Lemma idle_half loads e : idle (require_half_session loads e).
Proof. unfold require_half_session, _unpack_session, session_version_matches. idle_steps. Qed.
#[export] Hint Resolve idle_close_for_user idle_close_for idle_close_org idle_audit idle_store idle_validate idle_half : idle.
Lemma idle_user loads e : idle (require_user loads e).
Proof. unfold require_user. idle_steps. Qed.
#[export] Hint Resolve idle_user : idle.
Lemma idle_member loads r e org : idle (member_of loads r e org).
Proof. unfold member_of, user_of. idle_steps. Qed.
Lemma idle_check verify u m : idle (check_mpin verify u m).
Proof. unfold check_mpin. idle_steps. Qed.
#[export] Hint Resolve idle_member idle_check : idle.
Lemma idle_require_mpin verify u m : idle (require_mpin verify u m).
Proof. unfold require_mpin. idle_steps. Qed.
Lemma idle_invite_open sha256 t : idle (_invite_is_open sha256 t).
Proof. unfold _invite_is_open. idle_steps. Qed.
#[export] Hint Resolve idle_require_mpin idle_invite_open : idle.


Lemma idle_issue dumps e u v p : idle (_issue_session dumps e u v p).
Proof. unfold _issue_session. idle_steps. Qed.
Lemma idle_logout : idle logout.
Proof. done. Qed.
Lemma idle_user_of loads e : idle (user_of loads e).
Proof. apply idle_user. Qed.
#[export] Hint Resolve idle_issue idle_logout idle_user_of : idle.

(** ** The states a request saw *)

Section hist.
Context {S : Type}.

(** [Q r h]: the program ends with [r] after steps in the states [h]. *)
Fixpoint hist {A} (p : prog S A) (Q : result A -> list S -> Prop) (h : list S) : Prop :=
  match p with
  | Ret a => Q (Ok a) h
  | Throw e => Q (Raise e) h
  | Step upd k => forall s, hist (k s) Q (h ++ [s])
  end.

Lemma hist_mono {A} (p : prog S A) (Q Q' : result A -> list S -> Prop) h :
  (forall r t, Q r (h ++ t) -> Q' r (h ++ t)) -> hist p Q h -> hist p Q' h.
Proof.
  revert h. induction p as [a|e|upd k IH]; intros h HQ; simpl.
  - specialize (HQ (Ok a) []). by rewrite app_nil_r in HQ.
  - specialize (HQ (Raise e) []). by rewrite app_nil_r in HQ.
  - intros H s. apply IH; [|done]. intros r t. rewrite <-(assoc_L app). apply HQ.
Qed.
Lemma hist_bind {A B} (p : prog S A) (f : A -> prog S B) Q h :
  hist p (fun r t => match r with Ok a => hist (f a) Q t | Raise e => Q (Raise e) t end) h -> hist (pbind p f) Q h.
Proof. revert h. induction p as [a|e|upd k IH]; intros h; simpl; [done|done|]. eauto. Qed.
Lemma hist_catch {A} (p : prog S A) f Q h :
  hist p (fun r t => match r with Ok a => Q (Ok a) t | Raise e => hist (f e) Q t end) h -> hist (pcatch p f) Q h.
Proof. revert h. induction p as [a|e|upd k IH]; intros h; simpl; [done|done|]. eauto. Qed.
Lemma hist_of_result {A} (r : result A) (Q : result A -> list S -> Prop) h : Q r h -> hist (of_result r) Q h.
Proof. by destruct r. Qed.
Lemma hist_stmt {A} (m : M S A) (Q : result A -> list S -> Prop) h :
  (forall s, Q (value m s) (h ++ [s])) -> hist (stmt m) Q h.
Proof. intros H s. apply hist_of_result, H. Qed.

Lemma hist_query_bind {A B} (g : S -> A) (f : A -> prog S B) Q h :
  (forall s, hist (f (g s)) Q (h ++ [s])) -> hist (pbind (query g) f) Q h.
Proof. intros H s. apply H. Qed.

(** Whatever a program answers: every program does something. *)
Lemma hist_any {A} (p : prog S A) (Q : result A -> list S -> Prop) h : (forall r t, Q r (h ++ t)) -> hist p Q h.
Proof.
  revert h. induction p as [a|e|upd k IH]; intros h HQ; simpl.
  - specialize (HQ (Ok a) []). by rewrite app_nil_r in HQ.
  - specialize (HQ (Raise e) []). by rewrite app_nil_r in HQ.
  - intros s. apply IH. intros r t. rewrite <-(assoc_L app). apply HQ.
Qed.

(** The states of a run in which request [i] made a step *)
Fixpoint visited {A} (i : nat) (schedule : list nat) (w : list (prog S A) * S) : list S :=
  match schedule with
  | [] => []
  | j :: schedule' =>
      (if (j =? i)%nat then match w.1 !! i with Some (Step _ _) => [w.2] | _ => [] end else []) ++
      visited i schedule' (pool_step j w)
  end.

Lemma run_pool_hist {A} i schedule : forall (w : list (prog S A) * S) p Q h,
  w.1 !! i = Some p -> hist p Q h ->
  match (run_pool schedule w).1 !! i with
  | Some (Ret a) => Q (Ok a) (h ++ visited i schedule w)
  | Some (Throw e) => Q (Raise e) (h ++ visited i schedule w)
  | _ => True
  end.
Proof.
  induction schedule as [|j schedule IH]; intros [ps s] p Q h Hp Hh; simpl in Hp.
  - simpl. rewrite Hp, app_nil_r. by destruct p.
  - change (run_pool (j :: schedule) (ps, s)) with (run_pool schedule (pool_step j (ps, s))).
    simpl (visited _ _ _). rewrite Hp. destruct (Nat.eqb_spec j i) as [->|Hne].
    + destruct p as [a|e|upd k].
      * rewrite app_nil_l. apply (IH _ (Ret a)); [|done]. unfold pool_step. simpl. rewrite Hp. simpl.
        by rewrite list_lookup_insert_eq by by eapply lookup_lt_Some.
      * rewrite app_nil_l. apply (IH _ (Throw e)); [|done]. unfold pool_step. simpl. rewrite Hp. simpl.
        by rewrite list_lookup_insert_eq by by eapply lookup_lt_Some.
      * rewrite (assoc_L app). apply (IH _ (k s)); [|apply Hh]. unfold pool_step. simpl. rewrite Hp. simpl.
        by rewrite list_lookup_insert_eq by by eapply lookup_lt_Some.
    + rewrite app_nil_l. apply (IH _ p); [|done]. unfold pool_step. simpl. destruct (ps !! j) as [q|]; [|done].
      destruct (advance q s). simpl. by rewrite list_lookup_insert_ne.
Qed.

(** They are states of the run. *)
Lemma visited_in_run {A} i schedule : forall (w : list (prog S A) * S) s,
  s ∈ visited i schedule w -> exists n, (n < length schedule)%nat /\ (run_pool (take n schedule) w).2 = s.
Proof.
  induction schedule as [|j schedule IH]; intros w s; simpl; [by intros ?%not_elem_of_nil|].
  intros [Hs|Hs]%elem_of_app.
  - exists O. split; [lia|]. destruct (j =? i)%nat; [|by apply not_elem_of_nil in Hs].
    destruct (w.1 !! i) as [[]|]; try by apply not_elem_of_nil in Hs. by apply list_elem_of_singleton in Hs.
  - apply IH in Hs as (n & Hn & <-). exists (Datatypes.S n). split; [lia|done].
Qed.
End hist.

Section facts.
Context (dumps : Z -> json -> string) (loads : Z -> string -> option json).
Context (verify : string -> string -> bool) (hash : string -> string -> string) (sha256 : string -> string).
Context (netloc : string -> string) (cfg : ApiConfig).

(** The text is a cookie with this content, at some time. *)
Definition reads_as (text : string) (user version : Z) (pin : bool) : Prop :=
  exists now, unpack_at loads now text = Ok (Some {| si_user := user; si_version := version; si_pin := pin |}).

(** The answer carries such a cookie. *)
Definition carries (a : reply) (user version : Z) (pin : bool) : Prop :=
  exists text csrf, rp_cookies a = SetCookies text csrf /\ reads_as text user version pin.

(** The MPIN is right, is not locked, and a try is left. *)
Definition right_mpin (user : Z) (mpin : string) (s : access) : Prop :=
  exists row h, p_mpin (x_portal s) !! user = Some row /\ u_mpin_hash row = Some h /\
    unlocked (db_now s) row = true /\ u_failed row < MPIN_MAX_ATTEMPTS /\ verify h mpin = true.

(** What a request must have shown beyond its cookie, to be given a full session. *)
Definition second_factor (c : call) (user : Z) (s : access) : Prop :=
  match c with
  | SetMpin _ _ => exists row, p_mpin (x_portal s) !! user = Some row /\ u_mpin_hash row = None
  | VerifyMpin m | ChangeMpin m _ _ => right_mpin user m s
  | ChangePassword _ _ mpin => exists m, mpin = JStr m /\ right_mpin user m s
  | ResetMpin password _ _ => exists row, x_users s !! user = Some row /\ verify (us_password_hash row) password = true
  | _ => False
  end.

(** The cookie that a request came with: in date when it was read, and not
    disowned when it was compared. *)
Definition came_with (e : envelope) (user : Z) (s0 s1 : access) : Prop :=
  exists text info, en_session e = Some text /\ unpack_at loads (api_now s0) text = Ok (Some info) /\ si_user info = user /\
    version_of user s1 = Some (si_version info).

(** The serialiser answers what was signed. *)
Definition signed : Prop := forall now t u v p d,
  loads now (dumps t (session_payload u v p)) = Some d -> d = session_payload u v p.

Lemma reads_as_issued t u v p u' v' p' :
  signed -> reads_as (dumps t (session_payload u v p)) u' v' p' -> u' = u /\ v' = v /\ p' = p.
Proof.
  intros Hs [now H]. unfold unpack_at in H. destruct (loads now _) as [d|] eqn:E; [|done].
  apply Hs in E as ->. simpl in H. simplify_eq/=. split_and!; [done|done|by destruct p].
Qed.

(** *** Which request gets a full session *)

Section full.
Context (Hsigned : signed) (c : call) (e : envelope) (user version : Z).

(** The end of a request: if its answer carries a full session of the user, the
    states it saw have the proof. *)
Definition earned (r : result reply) (h : list access) : Prop :=
  match r with
  | Ok a => carries a user version true ->
            exists s0 s1 s2, [s0; s1; s2] `sublist_of` h /\ came_with e user s0 s1 /\ second_factor c user s2
  | Raise _ => True
  end.

Definition shown (u : Z) (h : list access) : Prop := exists s0 s1, [s0; s1] `sublist_of` h /\ came_with e u s0 s1.
Definition proven (u : Z) (h : list access) : Prop :=
  exists s0 s1 s2, [s0; s1; s2] `sublist_of` h /\ came_with e u s0 s1 /\ second_factor c u s2.

Lemma shown_app u h t : shown u h -> shown u (h ++ t).
Proof. intros (s0 & s1 & H & ?). exists s0, s1. split; [by apply sublist_inserts_r|done]. Qed.
Lemma proven_app u h t : proven u h -> proven u (h ++ t).
Proof. intros (s0 & s1 & s2 & H & ?). exists s0, s1, s2. split; [by apply sublist_inserts_r|done]. Qed.
Lemma shown_proven u h t s : shown u h -> s ∈ t -> second_factor c u s -> proven u (h ++ t).
Proof.
  intros (s0 & s1 & H & ?) Hs ?. exists s0, s1, s. split; [|done].
  change [s0; s1; s] with ([s0; s1] ++ [s]). apply sublist_app; [done|]. by apply singleton_sublist_l.
Qed.

(** *** The steps *)

Lemma hist_half Q h :
  (forall info t, shown (si_user info) (h ++ t) -> Q (Ok info) (h ++ t)) ->
  (forall x t, Q (Raise x) (h ++ t)) -> hist (require_half_session loads e) Q h.
Proof.
  intros Hok Hr. assert (forall x, Q (Raise x) h) as Hr0 by (intros x; specialize (Hr x []); by rewrite app_nil_r in Hr).
  unfold require_half_session. destruct (en_session e) as [[|a0 rest]|] eqn:Ec; [apply Hr0| |apply Hr0].
  intros s0. unfold of_result. simpl. destruct (unpack_at loads (api_now s0) (String a0 rest)) as [[info|]|x] eqn:Eu; simpl; [|apply Hr|apply Hr].
  intros s1. simpl. case_bool_decide as Hv; simpl; rewrite <-(assoc_L app); [|apply Hr].
  apply Hok. exists s0, s1. split; [by apply sublist_inserts_l|]. by exists (String a0 rest), info.
Qed.

Lemma hist_user Q h :
  (forall u t, shown u (h ++ t) -> Q (Ok u) (h ++ t)) ->
  (forall x t, Q (Raise x) (h ++ t)) -> hist (require_user loads e) Q h.
Proof.
  intros Hok Hr. apply hist_bind, hist_half; [|auto]. intros info t Hs. destruct (si_pin info); simpl; auto.
Qed.

(** The MPIN was right in one of the states of the check. *)
Definition found (u : Z) (m : string) (h0 h : list access) : Prop :=
  exists t, h = h0 ++ t /\ exists s, s ∈ t /\ right_mpin u m s.
Lemma found_app u m h0 h t : found u m h0 h -> found u m h0 (h ++ t).
Proof. intros (t' & -> & s & Hs & ?). exists (t' ++ t). rewrite (assoc_L app). split; [done|]. exists s. set_solver. Qed.

Definition pc_found (u : Z) (m : string) (h0 h : list access) (p : pc) : Prop :=
  match p with
  | Verifying _ _ hh => verify hh m = true -> found u m h0 h
  | Clearing | Done Passed => found u m h0 h
  | _ => True
  end.

Lemma step_found u m h0 t p s :
  pc_found u m h0 (h0 ++ t) p ->
  pc_found u m h0 ((h0 ++ t) ++ [s]) (step verify u m (api_now s) (db_now s) p (p_mpin (x_portal s))).1.
Proof.
  intros Hp. destruct p as [|now| |until|until|now att hh| |r]; simpl in *; try done.
  - destruct (reserve u (db_now s) (p_mpin (x_portal s))) as [[[att hh]|] us] eqn:Er; simpl; [|done].
    intros Hv. unfold reserve in Er. destruct (p_mpin (x_portal s) !! u) as [row|] eqn:Eu; simplify_eq.
    destruct (u_mpin_hash row) as [h'|] eqn:Eh; simplify_eq. destruct (_ && _) eqn:Eg; simplify_eq. bsimp.
    exists (t ++ [s]). rewrite (assoc_L app). split; [done|]. exists s. split; [set_solver|]. by exists row, hh.
  - by destruct (lock_state u (p_mpin (x_portal s))) as [[[[?|] ?] ?]|].
  - destruct until as [l|]; [by destruct (l <=? db_now s)|done].
  - destruct (verify hh m); [|by destruct (MPIN_MAX_ATTEMPTS <=? att)]. simpl. by apply found_app, Hp.
  - by apply found_app.
  - destruct r; try done. by apply found_app.
Qed.

Lemma hist_mpin_steps fuel u m h0 : forall p t, pc_found u m h0 (h0 ++ t) p ->
  hist (on_portal (mpin_steps verify fuel u m p)) (fun r h => r = Ok Passed -> found u m h0 h) (h0 ++ t).
Proof.
  induction fuel as [|fuel IH]; intros p t Hp.
  - destruct p as [| | | | | | |r]; simpl; try done. intros [= ->]. done.
  - assert (forall s, hist (on_portal (mpin_steps verify fuel u m (step verify u m (api_now s) (db_now s) p (p_mpin (x_portal s))).1))
      (fun r h => r = Ok Passed -> found u m h0 h) ((h0 ++ t) ++ [s])) as Hn.
    { intros s. pose proof (step_found u m h0 t p s Hp) as Hp'. rewrite <-(assoc_L app) in *. by apply IH. }
    destruct p as [| | | | | | |r]; try exact Hn. simpl. intros [= ->]. done.
Qed.

Lemma hist_check_mpin u m Q h :
  (forall t, found u m h (h ++ t) -> Q (Ok None) (h ++ t)) ->
  (forall r t, r <> Ok None -> (forall a, r = Ok (Some a) -> rp_cookies a = KeepCookies) -> Q r (h ++ t)) -> hist (check_mpin verify u m) Q h.
Proof.
  intros Hok Hno. apply hist_bind. pose proof (hist_mpin_steps 5 u m h Begin [] I) as Hm. rewrite app_nil_r in Hm.
  eapply hist_mono; [|exact Hm]. intros r t Hf. destruct r as [[]|x]; simpl.
  all: try (apply Hno; [done|intros a Ha; by simplify_eq]).
  by apply Hok, Hf.
Qed.

Lemma hist_require_mpin u m Q h :
  (forall t w, m = JStr w -> found u w h (h ++ t) -> Q (Ok None) (h ++ t)) ->
  (forall r t, r <> Ok None -> (forall a, r = Ok (Some a) -> rp_cookies a = KeepCookies) -> Q r (h ++ t)) -> hist (require_mpin verify u m) Q h.
Proof.
  intros Hok Hno. assert (forall r, r <> Ok None -> (forall a, r = Ok (Some a) -> rp_cookies a = KeepCookies) -> Q r h) as Hno0.
  { intros r ? ?. specialize (Hno r []). rewrite app_nil_r in Hno. auto. }
  unfold require_mpin. destruct m as [| | | |w| | |]; simpl; try (apply Hno0; [done|intros ? ?; by simplify_eq]).
  destruct (six_digits w); [|apply Hno0; [done|intros ? ?; by simplify_eq]]. apply hist_check_mpin; [|done]. intros t. by apply Hok.
Qed.

(** *** Ends *)

Lemma earned_raise x h : earned (Raise x) h.
Proof. done. Qed.
Lemma earned_none a h : (forall t cs, rp_cookies a <> SetCookies t cs) -> earned (Ok a) h.
Proof. intros Ha (t & cs & Hc & _). by apply Ha in Hc. Qed.
Lemma earned_keep a h : rp_cookies a = KeepCookies -> earned (Ok a) h.
Proof. intros Ha. apply earned_none. by rewrite Ha. Qed.

Lemma hist_half_issue u v h : hist (_issue_session dumps e u v false) earned h.
Proof. intros s (t & cs & Hc & Hr). simpl in Hc. simplify_eq. by apply reads_as_issued in Hr as (_ & _ & ?). Qed.
Lemma hist_full_issue u v h : proven u h -> hist (_issue_session dumps e u v true) earned h.
Proof.
  intros Hp s (t & cs & Hc & Hr). simpl in Hc. simplify_eq. apply reads_as_issued in Hr as (-> & _ & _); [|done]. by apply proven_app.
Qed.

(** *** The routes *)

Lemma hist_then {A} (p : api A) (f : A -> api reply) h :
  (forall a t, hist (f a) earned (h ++ t)) -> hist (pbind p f) earned h.
Proof. intros Hf. apply hist_bind, hist_any. intros [a|x] t; [apply Hf|done]. Qed.

Lemma hist_then_proven {A} u (p : api A) (f : A -> api reply) h :
  proven u h -> (forall a t, proven u t -> hist (f a) earned t) -> hist (pbind p f) earned h.
Proof. intros Hp Hf. apply hist_then. intros a t. by apply Hf, proven_app. Qed.

(** A route that sets no full session *)
Ltac plain :=
  repeat first
    [ exact Logic.I | apply hist_half_issue | apply hist_then; intros ? ? | by apply earned_none | progress cbv zeta | case_match ].

Lemma hist_bump_issue {A} u e0 m (k : api A) action h :
  proven u h ->
  hist (_store hash e0 u m >>> let* v := bump_version u None in let* response := _issue_session dumps e u v true in
        k >>> audit_auth u action >>> Ret response) earned h.
Proof.
  intros Hp. eapply hist_then_proven; [exact Hp|]. intros _ h1 Hp1. eapply hist_then_proven; [exact Hp1|]. intros v h2 Hp2.
  apply hist_bind. eapply hist_mono; [|by apply hist_full_issue]. intros [a|x] t; [|done]. intros Ha.
  assert (forall t', earned (Ok a) ((h2 ++ t) ++ t')) as Ha'.
  { intros t' Hc. destruct (Ha Hc) as (s0 & s1 & s2 & H & ?). exists s0, s1, s2. split; [by apply sublist_inserts_r|done]. }
  apply hist_bind, hist_any. intros [?|?] t1; [|done]. apply hist_bind, hist_any. intros [?|?] t2; [|done].
  simpl. rewrite <-(assoc_L app). apply Ha'.
Qed.

Lemma hist_set_mpin m confirm h : c = SetMpin m confirm -> hist (set_mpin dumps loads hash e m confirm) earned h.
Proof.
  intros Hc. apply hist_bind, hist_half; [|done]. intros info t Hs. apply hist_bind, hist_any. intros [[]|x] t1; [|done].
  apply (shown_app _ _ t1) in Hs. apply hist_query_bind. intros s. unfold lock_state.
  destruct (p_mpin (x_portal s) !! si_user info) as [row|] eqn:Erow; [|done]. cbn [fmap option_fmap option_map].
  destruct (u_mpin_hash row) eqn:Eh; [done|].
  assert (proven (si_user info) (((h ++ t) ++ t1) ++ [s])) as Hp
    by (eapply shown_proven; [exact Hs|apply list_elem_of_here|rewrite Hc; by exists row]).
  eapply hist_then_proven; [exact Hp|]. intros _ h1 Hp1. eapply hist_then_proven; [exact Hp1|]. intros _ h2 Hp2.
  by apply hist_full_issue.
Qed.

Lemma hist_verify_mpin m h : c = VerifyMpin m -> hist (verify_mpin dumps loads verify cfg e m) earned h.
Proof.
  intros Hc. apply hist_bind, hist_half; [|done]. intros info t Hs. destruct (negb (six_digits m)); [done|].
  apply hist_bind, hist_check_mpin.
  - intros t1 (t2 & ->%(inj (app _)) & s & Hin & Hr).
    assert (proven (si_user info) ((h ++ t) ++ t2)) as Hp by (eapply shown_proven; [done|done|by rewrite Hc]).
    eapply hist_then_proven; [exact Hp|]. intros _ h1 Hp1. by apply hist_full_issue.
  - intros [[a|]|x] t1 Hn Ha; [|done|done]. apply earned_keep. by apply Ha.
Qed.

Lemma hist_change_mpin m0 m confirm h :
  c = ChangeMpin m0 m confirm -> hist (change_mpin dumps loads verify hash e m0 m confirm) earned h.
Proof.
  intros Hc. apply hist_bind, hist_user; [|done]. intros u t Hs. apply hist_bind, hist_any. intros [[]|x] t1; [|done].
  apply (shown_app _ _ t1) in Hs. destruct (negb (six_digits m0)); [done|]. apply hist_bind, hist_check_mpin.
  - intros t2 (t3 & ->%(inj (app _)) & s & Hin & Hr).
    apply hist_bump_issue. eapply shown_proven; [done|done|by rewrite Hc].
  - intros [[a|]|x] t2 Hn Ha; [|done|done]. apply earned_keep. by apply Ha.
Qed.

Lemma hist_reset_mpin password m confirm h :
  c = ResetMpin password m confirm -> hist (reset_mpin dumps loads verify hash cfg e password m confirm) earned h.
Proof.
  intros Hc. apply hist_bind, hist_half; [|done]. intros info t Hs. apply hist_bind, hist_any. intros [[]|x] t1; [|done].
  apply (shown_app _ _ t1) in Hs. apply hist_query_bind. intros s.
  destruct (x_users s !! si_user info) as [row|] eqn:Erow; [|done]. cbn [mbind option_bind].
  apply hist_bind, hist_any. intros [[]|x] t2; [|done]. destruct (verify (us_password_hash row) password) eqn:Ev; [|done].
  apply hist_bump_issue. apply proven_app. eapply shown_proven; [exact Hs|apply list_elem_of_here|rewrite Hc; by exists row].
Qed.

Lemma hist_change_password current new m h :
  c = ChangePassword current new m -> hist (change_password dumps loads verify hash e current new m) earned h.
Proof.
  intros Hc. apply hist_bind, hist_user; [|done]. intros u t Hs. apply hist_bind, hist_require_mpin.
  - intros t1 w -> (t2 & ->%(inj (app _)) & s & Hin & Hr).
    assert (proven u ((h ++ t) ++ t2)) as Hp by (eapply shown_proven; [exact Hs|exact Hin|rewrite Hc; by exists w]).
    eapply hist_then_proven; [exact Hp|]. intros [ph|] h1 Hp1; [|done]. repeat (case_match; [done|]).
    eapply hist_then_proven; [exact Hp1|]. intros v h2 Hp2. eapply hist_then_proven; [exact Hp2|]. intros _ h3 Hp3.
    by apply hist_full_issue.
  - intros [[a|]|x] t2 Hn Ha; [|done|done]. apply earned_keep. by apply Ha.
Qed.

Lemma hist_handler h : hist (handler dumps loads verify hash sha256 netloc cfg c e) earned h.
Proof.
  destruct c eqn:Ec; unfold handler; rewrite <-?Ec; try by (first
    [ eapply hist_set_mpin | eapply hist_verify_mpin | eapply hist_change_mpin | eapply hist_reset_mpin | eapply hist_change_password ]).
  all: cbv delta [register login logout logout_everywhere my_sign_ins me create_org join_org get_org patch_org delete_org list_members
    patch_member remove_member create_invite list_invites revoke_invite websocket_endpoint] beta.
  all: plain.
Qed.

Lemma hist_serve : hist (serve dumps loads verify hash sha256 netloc cfg (c, e)) earned [].
Proof.
  unfold serve. destruct (csrf_dispatch _ _ _) as [a|] eqn:Ea; [|apply hist_handler].
  apply earned_keep. unfold csrf_dispatch in Ea.
  destruct (_ && _); [|done]. destruct (negb _); [by simplify_eq|]. destruct (_ || _); by simplify_eq.
Qed.
End full.

(** The requests, not yet begun *)
Definition pool (acts : list actor) : list (api reply) := act dumps loads verify hash sha256 netloc cfg <$> acts.

(** C21: a full session is only ever issued to someone who proved more than a
    cookie.  In any pool of requests, under any schedule of their statements: if
    the answer of a request carries a full session of a user, then the request
    came with a cookie of that user, signed and in date, whose version was the
    user's when it was compared, and after that the request showed a second
    factor: the MPIN was right, not locked and with a try left; or no MPIN was
    set; or, to replace a forgotten MPIN, the password was right. *)
Theorem full_session_needs_second_factor (acts : list actor) schedule (s : access) i c e a (user version : Z) :
  signed -> acts !! i = Some (Request c e) ->
  (run_pool schedule (pool acts, s)).1 !! i = Some (Ret a) -> carries a user version true ->
  exists s0 s1 s2 : access, [s0; s1; s2] `sublist_of` visited i schedule (pool acts, s) /\
    came_with e user s0 s1 /\ second_factor c user s2.
Proof.
  intros Hs Hi Ha Hc.
  pose proof (run_pool_hist i schedule (pool acts, s) (serve dumps loads verify hash sha256 netloc cfg (c, e))
    (earned c e user version) []) as H. rewrite Ha in H. apply H; [|by apply hist_serve|done].
  simpl. unfold pool. by rewrite list_lookup_fmap, Hi.
Qed.
End facts.

(** ** On the small workspace *)

Lemma demo_signed : signed demo_dumps demo_loads.
Proof.
  intros now t u v p d. unfold demo_dumps, session_payload. repeat case_decide; simplify_eq/=; intros; by simplify_eq.
Qed.

(** A request that no turn is given to *)
Lemma run_pool_other {S A} k schedule : forall w : list (prog S A) * S, k ∉ schedule -> (run_pool schedule w).1 !! k = w.1 !! k.
Proof.
  induction schedule as [|i schedule IH]; intros w Hk; [done|]. apply not_elem_of_cons in Hk as [Hne Hk].
  change (run_pool (i :: schedule) w) with (run_pool schedule (pool_step i w)). rewrite IH by done.
  unfold pool_step. destruct (w.1 !! i) as [q|]; [|done]. destruct (advance q w.2). simpl. by rewrite list_lookup_insert_ne.
Qed.

Abbreviation demo_pool := (pool demo_dumps demo_loads demo_verify demo_hash demo_sha256 demo_netloc demo_cfg).

Lemma full_session_witness :
  let acts := [Request (VerifyMpin "123456") (browser (Some "ann0-half"))] in
  exists s0 s1 s2 : access, [s0; s1; s2] `sublist_of` visited 0 (replicate 20 O) (demo_pool acts, demo_access) /\
    came_with demo_loads (browser (Some "ann0-half")) 10 s0 s1 /\ second_factor demo_verify (VerifyMpin "123456") 10 s2.
Proof.
  intros acts. apply (full_session_needs_second_factor demo_dumps demo_loads demo_verify demo_hash demo_sha256 demo_netloc demo_cfg
    acts (replicate 20 O) demo_access 0 (VerifyMpin "123456") (browser (Some "ann0-half"))
    {| rp_status := 204; rp_body := JNull; rp_cookies := SetCookies "ann0" "token" |} 10 0 demo_signed).
  - reflexivity.
  - vm_compute. reflexivity.
  - exists "ann0", "token". split; [reflexivity|]. by exists 0.
Defined.
