(* ===== verification/SessionRuns.v ===== *)
(** * Sessions that are over

    Every user's session version only grows, and every cookie that is handed out
    carries at most the version of that moment: [signing_out_is_final]. *)

From S2P Require Import Prelude PyStr PyFloat Db PyJson Limiter Mpin Prog PortalDb PortalCommon Session Members SessionFacts.

(** Ids of users are taken from the sequence. *)
Definition ids_fresh (s : access) : Prop := forall u, is_Some (x_users s !! u) -> u < x_next_user s.

(** No user goes, and no version shrinks. *)
Definition ages (s s' : access) : Prop :=
  forall u v, version_of u s = Some v -> exists v', version_of u s' = Some v' /\ v <= v'.

#[export] Instance ages_preorder : PreOrder ages.
Proof.
  split; [intros s u v H; exists v; split; [done|lia]|]. intros s1 s2 s3 H12 H23 u v H.
  apply H12 in H as (v2 & H & ?). apply H23 in H as (v3 & H & ?). exists v3. split; [done|lia].
Qed.

Lemma ages_same s s' : x_users s' = x_users s -> ages s s'.
Proof. intros E u v Hv. exists v. unfold version_of in *. rewrite E. split; [done|lia]. Qed.

(** ** Programs that leave the accounts alone *)

Definition same_users (s s' : access) : Prop := x_users s' = x_users s /\ x_next_user s' = x_next_user s.
Definition quiet {A} (p : api A) : Prop := makes (fun _ => True) same_users p.
Create HintDb quiet.

Lemma quiet_seq {A B} (p : api A) (f : A -> api B) : quiet p -> (forall a, quiet (f a)) -> quiet (pbind p f).
Proof. apply makes_bind. Qed.
Lemma quiet_catch {A} (p : api A) h : quiet p -> (forall x, quiet (h x)) -> quiet (pcatch p h).
Proof. apply makes_catch. Qed.
Lemma quiet_query {A} (f : access -> A) : quiet (query f).
Proof. by apply makes_stmt. Qed.
Lemma quiet_modify f : (forall s, same_users s (f s)) -> quiet (stmt (modify f)).
Proof. intros H. apply makes_stmt. intros s _. apply H. Qed.
Lemma quiet_pfor {A} (f : A -> api unit) l : (forall x, quiet (f x)) -> quiet (pfor f l).
Proof. intros Hf. induction l as [|x l IH]; simpl; [done|]. by apply quiet_seq. Qed.
Lemma quiet_idle {A} (p : api A) : idle p -> quiet p.
Proof. apply makes_impl; [done|]. intros s s' _ (? & ? & _). by split. Qed.

Ltac quiet_steps :=
  repeat first
    [ solve [apply quiet_idle; auto 2 with idle] | solve [auto 2 with quiet] | apply quiet_seq; [|intros ?] | apply quiet_catch; [|intros ?]
    | apply quiet_pfor; intros ? | apply quiet_modify; by split | progress cbv zeta beta | case_match ].

(** A statement, also in a transaction, that leaves the accounts alone *)
Lemma quiet_stmt {A} (m : M access A) : respects same_users m -> quiet (stmt m).
Proof. intros H. apply makes_stmt. intros s _. apply H. Qed.
Lemma same_users_refl s : same_users s s.
Proof. done. Qed.
Lemma quiet_atomically {A} (m : M access A) : respects same_users m -> quiet (stmt (atomically m)).
Proof.
  intros H. apply quiet_stmt. intros s. specialize (H s). unfold exec, atomically in *. by destruct (m s) as [[a|x] s'].
Qed.
#[export] Instance same_users_preorder : PreOrder same_users.
Proof. split; [done|]. intros s1 s2 s3 [E1 E2] [E3 E4]. split; by etrans. Qed.

Section facts.
Context (dumps : Z -> json -> string) (loads : Z -> string -> option json).
Context (verify : string -> string -> bool) (hash : string -> string -> string) (sha256 : string -> string).
Context (netloc : string -> string) (cfg : ApiConfig).
Abbreviation awp := (wp ids_fresh ages).

(** A cookie of the answer was issued at a version that the user has reached. *)
Definition issued (a : reply) (s : access) : Prop :=
  forall text csrf, rp_cookies a = SetCookies text csrf ->
    exists t u v p v', text = dumps t (session_payload u v p) /\ version_of u s = Some v' /\ v <= v'.
Definition current (r : result reply) (s : access) : Prop := match r with Ok a => issued a s | Raise _ => True end.

Lemma current_later r s s' : ages s s' -> current r s -> current r s'.
Proof.
  destruct r as [a|]; [|done]. intros Hs H text csrf Hc. destruct (H text csrf Hc) as (t & u & v & p & v' & -> & Hv & ?).
  apply Hs in Hv as (v'' & ? & ?). exists t, u, v, p, v''. split_and!; [done|done|lia].
Qed.

Lemma wp_quiet {A} (p : api A) (Q : result A -> access -> Prop) s :
  quiet p -> (forall r s', ages s s' -> Q r s') -> awp p Q s.
Proof.
  revert s. induction p as [a|x|upd k IH]; intros s Hp HQ; simpl; [by apply HQ; reflexivity|by apply HQ; reflexivity|].
  intros s1 H1 HI. unfold quiet in Hp. simpl in Hp. destruct (Hp s1 Logic.I) as [[Eu En] Hk].
  assert (ages s1 (upd s1)) as Ha by (by apply ages_same).
  split_and!; [intros u; rewrite Eu, En; apply HI|done|]. apply IH; [done|]. intros r s' Hs'. apply HQ. by do 2 (etrans; [done|]).
Qed.

Lemma wp_ask {A} (f : access -> A) (Q : result A -> access -> Prop) s :
  (forall s', ages s s' -> ids_fresh s' -> Q (Ok (f s')) s') -> awp (query f) Q s.
Proof. apply wp_query, _. Qed.

Lemma wp_then {A} (p : api A) (f : A -> api reply) s :
  quiet p -> (forall a s', ages s s' -> awp (f a) current s') -> awp (pbind p f) current s.
Proof. intros Hp Hf. apply wp_bind. apply wp_quiet; [done|]. intros [a|x] s' Hs'; [by apply Hf|done]. Qed.

Lemma current_none a s : (forall t cs, rp_cookies a <> SetCookies t cs) -> current (Ok a) s.
Proof. intros Ha t cs Hc. by apply Ha in Hc. Qed.

Lemma wp_issue e u v p s v' : version_of u s = Some v' -> v <= v' -> awp (_issue_session dumps e u v p) current s.
Proof.
  intros Hv Hle. apply wp_bind, wp_ask. intros s' Hs _ text csrf Hc. simpl in Hc. simplify_eq.
  apply Hs in Hv as (v'' & ? & ?). exists (api_now s'), u, v, p, v''. split_and!; [done|done|lia].
Qed.

(** What [require_half_session] has seen is still so. *)
Lemma wp_half e (Q : result SessionInfo -> access -> Prop) s :
  (forall info s' v, ages s s' -> (exists text now, en_session e = Some text /\ unpack_at loads now text = Ok (Some info)) ->
    version_of (si_user info) s' = Some v -> si_version info <= v -> Q (Ok info) s') ->
  (forall x s', ages s s' -> Q (Raise x) s') -> awp (require_half_session loads e) Q s.
Proof.
  intros Hok Hr. unfold require_half_session. destruct (en_session e) as [[|c0 rest]|] eqn:Ec; [by apply Hr| |by apply Hr].
  apply wp_bind, wp_bind, wp_ask. intros s1 H1 _. apply wp_of_result.
  destruct (unpack_at _ _ _) as [[info|]|x] eqn:Eu; [|by apply Hr..]. apply wp_bind, wp_ask. intros s2 H2 _.
  assert (ages s s2) by (by etrans). case_bool_decide as Hv; [|by apply Hr].
  eapply Hok; [done|by eauto|done|lia].
Qed.

(** *** Steps that change accounts *)

Lemma wp_insert_user email ph name (Q : result Z -> access -> Prop) s :
  (forall u s', ages s s' -> version_of u s' = Some 0 -> Q (Ok u) s') ->
  (forall x s', ages s s' -> Q (Raise x) s') -> awp (stmt (insert_user email ph name)) Q s.
Proof.
  intros Hok Hr. apply wp_stmt. intros s1 H1 HI. unfold exec, value, insert_user.
  destruct (user_by_email _ s1) eqn:E; simpl.
  - split_and!; [|by apply ages_same|apply Hr; trans s1; [done|by apply ages_same]].
    intros u Hu. apply HI in Hu. simpl in *. lia.
  - assert (x_users s1 !! x_next_user s1 = None) as Hfree.
    { destruct (x_users s1 !! x_next_user s1) eqn:Eu; [|done]. assert (x_next_user s1 < x_next_user s1) by (by apply HI; eauto). lia. }
    match goal with |- _ /\ ages s1 ?s2 /\ _ => assert (ages s1 s2) as Ha end.
    { intros u v Hv. exists v. split; [|lia]. unfold version_of in *. simpl. rewrite lookup_insert_ne; [done|].
      intros <-. by rewrite Hfree in Hv. }
    split_and!; [|done|].
    + intros u. simpl. intros [r Hu]. destruct (decide (u = x_next_user s1)) as [->|Hne]; [lia|].
      rewrite lookup_insert_ne in Hu by done. assert (u < x_next_user s1) by (apply HI; eauto). lia.
    + apply Hok; [by etrans|]. unfold version_of. simpl. by rewrite lookup_insert_eq.
Qed.

Lemma alter_as_insert {V} (f : V -> V) (m : gmap Z V) u r : m !! u = Some r -> alter f u m = <[u := f r]> m.
Proof.
  intros Hu. apply map_eq. intros k. destruct (decide (k = u)) as [->|Hne].
  - by rewrite lookup_alter_eq, lookup_insert_eq, Hu.
  - by rewrite lookup_alter_ne, lookup_insert_ne.
Qed.

(** One more than it was. *)
Lemma bump_ages s u r r' : x_users s !! u = Some r -> us_session_version r' = us_session_version r + 1 ->
  ids_fresh s -> let s' := set_users (<[u := r']> (x_users s)) s in ids_fresh s' /\ ages s s'.
Proof.
  intros Hu Hv HI s'. split.
  - intros u' [r1 H1]. simpl in *. apply HI. destruct (decide (u' = u)) as [->|Hne]; [eauto|]. rewrite lookup_insert_ne in H1 by done. eauto.
  - intros u' v H. unfold version_of in *. simpl. destruct (decide (u' = u)) as [->|Hne].
    + rewrite lookup_insert_eq. simpl. rewrite Hu in H. simplify_eq/=. eexists. split; [done|lia].
    + rewrite lookup_insert_ne by done. exists v. split; [done|lia].
Qed.

Lemma wp_bump u ph (Q : result Z -> access -> Prop) s :
  (forall v s', ages s s' -> version_of u s' = Some v -> (forall v0, version_of u s = Some v0 -> v0 < v) -> Q (Ok v) s') ->
  (forall x s', ages s s' -> Q (Raise x) s') -> awp (bump_version u ph) Q s.
Proof.
  intros Hok Hr. apply wp_stmt. intros s1 H1 HI. unfold exec, value. destruct (x_users s1 !! u) as [r|] eqn:Eu; simpl.
  - match goal with |- context [<[u := ?r']> (x_users s1)] => destruct (bump_ages s1 u r r' Eu eq_refl HI) as [HI' Ha] end.
    split_and!; [done|done|]. apply Hok; [by etrans| |].
    + unfold version_of. simpl. by rewrite lookup_insert_eq.
    + intros v0 Hv0. apply H1 in Hv0 as (v1 & Hv1 & ?). unfold version_of in Hv1. rewrite Eu in Hv1. simplify_eq/=. lia.
  - split_and!; [done|reflexivity|by apply Hr].
Qed.

(** The UPDATE of [logout_everywhere] *)
Lemma wp_bump_all u (Q : result unit -> access -> Prop) s :
  (forall s', ages s s' -> (forall v0, version_of u s = Some v0 -> exists v, version_of u s' = Some v /\ v0 < v) -> Q (Ok tt) s') ->
  awp (stmt (modify (fun s => set_users (alter (fun r => {| us_password_hash := us_password_hash r;
    us_display_name := us_display_name r; us_session_version := us_session_version r + 1 |}) u (x_users s)) s))) Q s.
Proof.
  intros Hok. apply wp_stmt. intros s1 H1 HI. unfold exec, value. simpl. destruct (x_users s1 !! u) as [r|] eqn:Eu.
  - rewrite (alter_as_insert _ _ _ r Eu).
    match goal with |- context [<[u := ?r']> (x_users s1)] => destruct (bump_ages s1 u r r' Eu eq_refl HI) as [HI' Ha] end.
    split_and!; [done|done|]. apply Hok; [by etrans|].
    intros v0 Hv0. apply H1 in Hv0 as (v1 & Hv1 & ?). unfold version_of in Hv1 |- *. rewrite Eu in Hv1. simplify_eq/=.
    rewrite lookup_insert_eq. eexists. split; [done|simpl; lia].
  - rewrite alter_id' by done. split_and!; [done|by destruct s1|]. apply Hok; [by destruct s1|].
    intros v0 Hv0. apply H1 in Hv0 as (v1 & Hv1 & ?). unfold version_of in Hv1. by rewrite Eu in Hv1.
Qed.

(** *** Blocks of [Members] *)

Lemma quiet_block {A} (m : M access A) : (forall s, same_users s (exec m s)) -> quiet (stmt m).
Proof. apply quiet_stmt. Qed.

Lemma quiet_patch org u r : quiet (stmt (atomically (patch_block org u r))).
Proof.
  apply quiet_atomically. intros s. unfold exec, patch_block, bind, gets, mdeny, raise, modify, ret. simpl.
  repeat case_match; simplify_eq/=; by split.
Qed.
Lemma quiet_remove org u : quiet (stmt (atomically (remove_block org u))).
Proof.
  apply quiet_atomically. intros s. unfold exec, remove_block, bind, gets, mdeny, raise, modify, ret. simpl.
  repeat case_match; simplify_eq/=; by split.
Qed.
Lemma quiet_join u t : quiet (stmt (atomically (join_block sha256 u t))).
Proof.
  apply quiet_atomically. intros s. unfold exec, join_block, bind, gets, mdeny, raise, modify, ret. simpl.
  repeat case_match; simplify_eq/=; by split.
Qed.
#[local] Hint Resolve quiet_patch quiet_remove quiet_join : quiet.

(** A route that sets no cookie, or none that is a session *)
Ltac plain :=
  repeat first
    [ exact Logic.I | by apply current_none
    | apply wp_then; [solve [unfold user_of, fetched; quiet_steps; try (apply quiet_stmt; intros ?; unfold exec; repeat case_match; by split)]|intros ? ? ?]
    | progress cbv zeta | case_match ].

Lemma wp_register e body s : awp (register dumps hash sha256 cfg e body) current s.
Proof.
  unfold register. apply wp_then; [quiet_steps|]. intros ok s1 H1. destruct (negb ok); [done|].
  apply wp_then; [quiet_steps|]. intros b s2 H2. cbv zeta. repeat (case_match; [done|]).
  apply wp_bind, wp_catch, wp_insert_user.
  - intros u s3 ? Hv. by eapply wp_issue.
  - intros x s3 ?. by destruct (is_unique_violation x).
Qed.

Lemma wp_login e email password s : awp (login dumps verify cfg e email password) current s.
Proof.
  unfold login. apply wp_then; [quiet_steps|]. intros _ s1 H1. apply wp_bind, wp_ask. intros s2 H2 _.
  destruct (user_by_email _ s2) as [id|]; [|done]. cbn [mbind option_bind].
  destruct (x_users s2 !! id) as [u|] eqn:Eu; [|done]. cbn [mbind option_bind].
  destruct (verify _ _); (apply wp_then; [quiet_steps|]; intros _ s3 H3); [|done].
  assert (version_of id s2 = Some (us_session_version u)) as Hv by (unfold version_of; by rewrite Eu).
  apply H3 in Hv as (v & Hv & ?). by eapply wp_issue.
Qed.

(** An answer that was made goes on being right. *)
Lemma wp_answer {A} (k : api A) (f : A -> api unit) a s : quiet k -> (forall x, quiet (f x)) -> issued a s ->
  awp (let* x := k in f x >>> Ret a) current s.
Proof.
  intros Hk Hf Ha. apply wp_then; [done|]. intros x s1 H1. apply wp_then; [done|]. intros _ s2 H2.
  change (current (Ok a) s2). eapply current_later; [|exact Ha]. by trans s1.
Qed.

Lemma wp_bump_issue e u m action s :
  awp (_store hash e u m >>> let* v := bump_version u None in let* response := _issue_session dumps e u v true in
       close_for_user u >>> audit_auth u action >>> Ret response) current s.
Proof.
  apply wp_then; [quiet_steps|]. intros _ s1 H1. apply wp_bind, wp_bump; [|done]. intros v s2 H2 Hv _.
  apply wp_bind. eapply wp_mono; [|eapply wp_issue; [exact Hv|lia]]. intros [a|x] s3; [|done]. intros Ha.
  by apply wp_answer; [quiet_steps|intros; quiet_steps|].
Qed.

(** A check of the MPIN: its refusals set no cookie. *)
Definition checked (s : access) (r : result (option reply)) (s' : access) : Prop :=
  ages s s' /\ forall a, r = Ok (Some a) -> rp_cookies a = KeepCookies /\ rp_status a <> 204.

Lemma wp_check u m s : awp (check_mpin verify u m) (checked s) s.
Proof.
  apply wp_bind, wp_quiet; [quiet_steps|]. intros [[]|x] s' Hs'; (split; [done|intros a Ha; by simplify_eq]).
Qed.
Lemma wp_require u m s : awp (require_mpin verify u m) (checked s) s.
Proof.
  assert (forall a, rp_cookies a = KeepCookies /\ rp_status a <> 204 -> checked s (Ok (Some a)) s) as H.
  { intros a Ha. split; [reflexivity|]. intros a' [= ->]. done. }
  unfold require_mpin. destruct m as [| | | |w| | |]; try by apply H. destruct (six_digits w); [apply wp_check|by apply H].
Qed.

Lemma wp_after_check (p : api (option reply)) (f : api reply) s : awp p (checked s) s ->
  (forall s', ages s s' -> awp f current s') ->
  awp (let* failure := p in match failure with Some r => Ret r | None => f end) current s.
Proof.
  intros Hp Hf. apply wp_bind. eapply wp_mono; [|exact Hp]. intros [[a|]|x] s' [Hs' Ha]; [|by apply Hf|done].
  destruct (Ha a eq_refl) as [Hc _]. apply current_none. by rewrite Hc.
Qed.

Lemma wp_handler c e s : awp (handler dumps loads verify hash sha256 netloc cfg c e) current s.
Proof.
  destruct c; unfold handler; [apply wp_register|apply wp_login|..].
  - by apply current_none.
  - apply wp_then; [quiet_steps|]. intros u s1 Hs1. apply wp_after_check; [apply wp_require|]. intros s2 Hs2.
    apply wp_then; [quiet_steps|]. intros [ph|] s3 Hs3; [|done]. repeat (case_match; [done|]).
    apply wp_bind, wp_bump; [|done]. intros v s4 Hs4 Hv _. apply wp_then; [quiet_steps|]. intros _ s5 Hs5.
    destruct (Hs5 _ _ Hv) as (v5 & ? & ?). by eapply wp_issue.
  - apply wp_then; [quiet_steps|]. intros u s1 Hs1. apply wp_bind, wp_bump_all. intros s2 Hs2 _.
    apply wp_then; [quiet_steps|]. intros _ s3 Hs3. by apply current_none.
  - cbv delta [my_sign_ins sign_ins] beta. plain.
  - cbv delta [me] beta. plain.
  - apply wp_bind, wp_half; [|done]. intros info s1 v Hs1 _ Hv Hle. apply wp_then; [quiet_steps|]. intros _ s2 Hs2.
    apply Hs2 in Hv as (v2 & Hv & ?). apply wp_then; [quiet_steps|]. intros row s3 Hs3. apply Hs3 in Hv as (v3 & Hv & ?).
    destruct row as [[[[h|] ?] ?]|]; [done| |done]. apply wp_then; [quiet_steps|]. intros _ s4 Hs4. apply Hs4 in Hv as (v4 & Hv & ?).
    apply wp_then; [quiet_steps|]. intros _ s5 Hs5. apply Hs5 in Hv as (v5 & Hv & ?). eapply wp_issue; [done|lia].
  - apply wp_bind, wp_half; [|done]. intros info s1 v Hs1 _ Hv Hle. case_match; [done|].
    apply wp_after_check; [apply wp_check|]. intros s2 Hs2. apply Hs2 in Hv as (v2 & Hv & ?).
    apply wp_then; [quiet_steps|]. intros _ s3 Hs3. apply Hs3 in Hv as (v3 & Hv & ?). eapply wp_issue; [done|lia].
  - apply wp_then; [quiet_steps|]. intros info s1 Hs1. apply wp_then; [quiet_steps|]. intros _ s2 Hs2. cbv zeta.
    apply wp_then; [quiet_steps|]. intros [[em ph]|] s3 Hs3; [|done]. apply wp_then; [quiet_steps|]. intros _ s4 Hs4.
    case_match; [done|]. apply wp_bump_issue.
  - apply wp_then; [quiet_steps|]. intros u s1 Hs1. apply wp_then; [quiet_steps|]. intros _ s2 Hs2. case_match; [done|].
    apply wp_after_check; [apply wp_check|]. intros s3 Hs3. apply wp_bump_issue.
  - cbv delta [create_org] beta. plain.
  - cbv delta [join_org] beta. plain.
  - cbv delta [get_org] beta. plain.
  - cbv delta [patch_org] beta. plain.
  - cbv delta [delete_org] beta. plain.
  - cbv delta [list_members] beta. plain.
  - cbv delta [patch_member] beta. plain.
  - cbv delta [remove_member] beta. plain.
  - cbv delta [create_invite] beta. plain.
  - cbv delta [list_invites] beta. plain.
  - cbv delta [revoke_invite] beta. plain.
  - cbv delta [websocket_endpoint _unpack_session session_version_matches] beta. plain.
Qed.

(** ** Requests with a cookie that was disowned *)

Definition needs_session (c : call) : bool := match c with Register _ | Login _ _ | Logout => false | _ => true end.

(** The end of a request that was let nowhere: 401, a socket's close code, or
    403 for a missing CSRF token. *)
Definition turned_away (r : result reply) : Prop :=
  match r with
  | Raise x => exists detail, x = HTTPException 401 detail
  | Ok a => rp_status a ∈ [403; 4400; 4401; 4403] /\ rp_cookies a = KeepCookies
  end.

Lemma unpack_issued t u v p now r : signed dumps loads -> unpack_at loads now (dumps t (session_payload u v p)) = r ->
  r = Ok None \/ r = Ok (Some {| si_user := u; si_version := v; si_pin := p |}).
Proof.
  intros Hsigned <-. unfold unpack_at. destruct (loads now _) as [d|] eqn:E; [|by left]. apply Hsigned in E as ->. right. simpl. by destruct p.
Qed.

Section stale.
Context (Hsigned : signed dumps loads) (e : envelope) (t u v v1 : Z) (p : bool).
Context (Hcookie : en_session e = Some (dumps t (session_payload u v p))) (Hv : v < v1).

Lemma version_passed s s' : version_of u s = Some v1 -> ages s s' -> version_of u s' <> Some v.
Proof using Hv. clear Hcookie. intros H1 Hs H. apply Hs in H1 as (v2 & H2 & ?). rewrite H in H2. simplify_eq. lia. Qed.

Lemma stale_half s : version_of u s = Some v1 ->
  awp (require_half_session loads e) (fun r _ => exists detail, r = Raise (HTTPException 401 detail)) s.
Proof.
  intros Hs. unfold require_half_session. rewrite Hcookie. destruct (dumps t _) as [|c0 rest] eqn:Ed; [by eexists|].
  apply wp_bind, wp_bind, wp_ask. intros s1 H1 _. apply wp_of_result.
  destruct (unpack_issued t u v p (api_now s1) _ Hsigned eq_refl) as [E|E]; rewrite Ed in E; rewrite E; [by eexists|].
  apply wp_bind, wp_ask. intros s2 H2 _. simpl.
  rewrite bool_decide_false; [by eexists|]. apply (version_passed s); [done|by trans s1].
Qed.

Definition wp_401 {A} (q : api A) s : Prop := awp q (fun r _ => exists detail, r = Raise (HTTPException 401 detail)) s.
Lemma wp_401_bind {A B} (q : api A) (f : A -> api B) s : wp_401 q s -> wp_401 (pbind q f) s.
Proof. intros Hq. apply wp_bind. eapply wp_mono; [|exact Hq]. intros r s' [d ->]. by exists d. Qed.
Lemma wp_401_turned (q : api reply) s : wp_401 q s -> awp q (fun r _ => turned_away r) s.
Proof. apply wp_mono. intros r s' [d ->]. by exists d. Qed.

Lemma stale_socket ws origin host raw_org s : version_of u s = Some v1 ->
  awp (websocket_endpoint loads netloc cfg ws origin host raw_org e) (fun r _ => turned_away r) s.
Proof.
  intros Hs. assert (forall n, n ∈ [403; 4400; 4401; 4403] -> turned_away (Ok (closed n))) as Hc by done.
  unfold websocket_endpoint. destruct (negb _); [apply Hc; set_solver|]. rewrite Hcookie.
  destruct (dumps t _) as [|c0 rest] eqn:Ed; [apply Hc; set_solver|].
  apply wp_bind, wp_bind, wp_ask. intros s1 H1 _. apply wp_of_result.
  destruct (unpack_issued t u v p (api_now s1) _ Hsigned eq_refl) as [E|E]; rewrite Ed in E; rewrite E; [apply Hc; set_solver|].
  destruct (negb _); [apply Hc; set_solver|]. destruct (raw_org ≫= py_int) as [org|]; [|apply Hc; set_solver].
  apply wp_bind, wp_ask. intros s2 H2 _. simpl. rewrite bool_decide_false; [apply Hc; set_solver|].
  apply (version_passed s); [done|by trans s1].
Qed.

Lemma stale_handler c s : needs_session c = true -> version_of u s = Some v1 ->
  awp (handler dumps loads verify hash sha256 netloc cfg c e) (fun r _ => turned_away r) s.
Proof.
  intros Hc Hs. destruct c; try done; unfold handler; try by apply stale_socket.
  all: apply wp_401_turned.
  all: cbv delta [change_password logout_everywhere my_sign_ins me set_mpin verify_mpin reset_mpin change_mpin create_org join_org get_org
    patch_org delete_org list_members patch_member remove_member create_invite list_invites revoke_invite member_of user_of require_user] beta.
  all: repeat first [apply stale_half; exact Hs | apply wp_401_bind].
Qed.
End stale.

(** ** Requests that disown *)

Definition disowns (c : call) : bool :=
  match c with ChangePassword _ _ _ | LogoutEverywhere | ResetMpin _ _ _ | ChangeMpin _ _ _ => true | _ => false end.

Section disown.
Context (Hsigned : signed dumps loads) (e : envelope) (t u v v0 : Z) (p : bool).
Context (Hcookie : en_session e = Some (dumps t (session_payload u v p))).

Definition disowned (r : result reply) (s : access) : Prop :=
  forall a, r = Ok a -> rp_status a = 204 -> exists v', version_of u s = Some v' /\ v0 < v'.

Lemma wp_disown_then {A} (q : api A) (f : A -> api reply) s :
  quiet q -> (forall a s', ages s s' -> awp (f a) disowned s') -> awp (pbind q f) disowned s.
Proof. intros Hq Hf. apply wp_bind. apply wp_quiet; [done|]. intros [a|x] s' Hs'; [by apply Hf|done]. Qed.

Lemma past_disowned (q : api reply) s v' : quiet q -> version_of u s = Some v' -> v0 < v' -> awp q disowned s.
Proof.
  intros Hq Hs Hlt. apply wp_quiet; [done|]. intros r s' Hs' a _ _. apply Hs' in Hs as (v2 & ? & ?). exists v2. split; [done|lia].
Qed.

Lemma disown_half (f : SessionInfo -> api reply) s : version_of u s = Some v0 ->
  (forall info s' v1, si_user info = u -> version_of u s' = Some v1 -> v0 <= v1 -> awp (f info) disowned s') ->
  awp (pbind (require_half_session loads e) f) disowned s.
Proof.
  intros Hs Hf. apply wp_bind, wp_half; [|done]. intros info s1 v1 H1 (text & now & Ht & Hu) _ _.
  rewrite Hcookie in Ht. simplify_eq. destruct (unpack_issued t u v p now _ Hsigned Hu) as [?|?]; simplify_eq.
  apply H1 in Hs as (v2 & ? & ?). eapply Hf; [done|done|lia].
Qed.

Lemma disown_user (f : Z -> api reply) s : version_of u s = Some v0 ->
  (forall s' v1, version_of u s' = Some v1 -> v0 <= v1 -> awp (f u) disowned s') ->
  awp (pbind (require_user loads e) f) disowned s.
Proof.
  intros Hs Hf. apply wp_bind, wp_bind, wp_half; [|done]. intros info s1 v1 H1 (text & now & Ht & Hu) _ _.
  rewrite Hcookie in Ht. simplify_eq. destruct (unpack_issued t u v p now _ Hsigned Hu) as [?|?]; simplify_eq. simpl.
  destruct p; [|done]. apply H1 in Hs as (v2 & ? & ?). by eapply Hf.
Qed.

Lemma disown_bump ph (f : Z -> api reply) s v1 : version_of u s = Some v1 -> v0 <= v1 -> (forall v, quiet (f v)) ->
  awp (pbind (bump_version u ph) f) disowned s.
Proof.
  intros Hs Hle Hf. apply wp_bind, wp_bump; [|done]. intros v2 s2 _ Hv2 Hlt. specialize (Hlt v1 Hs).
  eapply past_disowned; [apply Hf|exact Hv2|lia].
Qed.

Lemma disown_check (q : api (option reply)) (f : api reply) s v1 : version_of u s = Some v1 -> v0 <= v1 -> awp q (checked s) s ->
  (forall s' v2, version_of u s' = Some v2 -> v0 <= v2 -> awp f disowned s') ->
  awp (let* failure := q in match failure with Some r => Ret r | None => f end) disowned s.
Proof.
  intros Hs Hle Hq Hf. apply wp_bind. eapply wp_mono; [|exact Hq]. intros [[a|]|x] s' [Hs' Ha]; [| |done].
  - intros a' [= <-] H. by destruct (Ha a eq_refl) as [_ ?].
  - apply Hs' in Hs as (v2 & ? & ?). eapply Hf; [done|lia].
Qed.

(** The tail of the routes that set an MPIN *)
Lemma disown_store m action s v1 : version_of u s = Some v1 -> v0 <= v1 ->
  awp (_store hash e u m >>> let* w := bump_version u None in let* response := _issue_session dumps e u w true in
       close_for_user u >>> audit_auth u action >>> Ret response) disowned s.
Proof.
  intros Hs Hle. apply wp_disown_then; [quiet_steps|]. intros _ s1 H1. apply H1 in Hs as (v2 & ? & ?).
  eapply disown_bump; [done|lia|]. intros w. unfold _issue_session. quiet_steps.
Qed.

Lemma disown_handler c s : disowns c = true -> version_of u s = Some v0 ->
  awp (handler dumps loads verify hash sha256 netloc cfg c e) disowned s.
Proof.
  intros Hc Hs. destruct c; try done; unfold handler.
  - apply disown_user; [done|]. intros s1 v1 Hv1 Hle1. eapply disown_check; [done|done|apply wp_require|]. intros s2 v2 Hv2 Hle2.
    apply wp_disown_then; [quiet_steps|]. intros [ph|] s3 H3; [|done]. apply H3 in Hv2 as (v3 & Hv3 & ?). repeat (case_match; [done|]).
    eapply disown_bump; [done|lia|]. intros w. unfold _issue_session. quiet_steps.
  - apply disown_user; [done|]. intros s1 v1 Hv1 Hle1. apply wp_bind, wp_bump_all. intros s2 _ Hb.
    destruct (Hb v1 Hv1) as (v2 & Hv2 & ?). eapply past_disowned; [|exact Hv2|lia]. unfold logout. quiet_steps.
  - apply disown_half; [done|]. intros info s1 v1 Hi Hv1 Hle1. apply wp_disown_then; [quiet_steps|]. intros _ s2 H2.
    cbv zeta. rewrite Hi. apply wp_disown_then; [quiet_steps|]. intros [[em ph]|] s3 H3; [|done].
    apply wp_disown_then; [quiet_steps|]. intros _ s4 H4. destruct (H2 _ _ Hv1) as (v2 & Hv2 & ?).
    destruct (H3 _ _ Hv2) as (v3 & Hv3 & ?). destruct (H4 _ _ Hv3) as (v4 & Hv4 & ?). case_match; [done|].
    eapply disown_store; [done|lia].
  - apply disown_user; [done|]. intros s1 v1 Hv1 Hle1. apply wp_disown_then; [quiet_steps|]. intros _ s2 H2.
    destruct (H2 _ _ Hv1) as (v2 & Hv2 & ?). case_match; [done|].
    eapply disown_check; [done|lia|apply wp_check|]. intros s3 v3 Hv3 Hle3. by eapply disown_store.
Qed.
End disown.

(** ** Pools *)

Abbreviation pool_of := (pool dumps loads verify hash sha256 netloc cfg).

Lemma csrf_refusal r a : csrf_dispatch (route_of r.1).1 (route_of r.1).2 r.2 = Some a -> rp_status a = 403 /\ rp_cookies a = KeepCookies.
Proof.
  unfold csrf_dispatch. destruct (_ && _); [|done]. destruct (negb _); [by intros [= <-]|]. destruct (_ || _); [by intros [= <-]|done].
Qed.

Lemma wp_serve c e (Q : result reply -> access -> Prop) s :
  (forall a, rp_status a = 403 -> rp_cookies a = KeepCookies -> Q (Ok a) s) ->
  awp (handler dumps loads verify hash sha256 netloc cfg c e) Q s -> awp (serve dumps loads verify hash sha256 netloc cfg (c, e)) Q s.
Proof.
  intros H Hh. unfold serve. destruct (csrf_dispatch _ _ _) as [a|] eqn:E; [|done]. apply csrf_refusal in E as [? ?]. by apply H.
Qed.

Lemma wp_act x s : awp (act dumps loads verify hash sha256 netloc cfg x) current s.
Proof.
  destruct x as [c e|n m]; simpl act.
  - apply wp_serve; [|apply wp_handler]. intros a _ Ha. apply current_none. by rewrite Ha.
  - unfold elapse. apply wp_then; [quiet_steps|]. intros _ s1 H1. by apply current_none.
Qed.

Lemma pool_safe acts s : Forall (fun q => safe ids_fresh ages q s) (pool_of acts).
Proof. apply Forall_fmap, Forall_true. intros x. eapply wp_mono; [|apply wp_act]. done. Qed.

(** What a request that has not begun is about to keep, it has kept at the end. *)
Lemma pool_wp sch (w : list (api reply) * access) i q (Q : result reply -> access -> Prop) :
  (forall r t t', ages t t' -> Q r t -> Q r t') -> ids_fresh w.2 -> Forall (fun q => safe ids_fresh ages q w.2) w.1 ->
  w.1 !! i = Some q -> awp q Q w.2 ->
  exists q', (run_pool sch w).1 !! i = Some q' /\ awp q' Q (run_pool sch w).2.
Proof.
  destruct w as [ps s]. simpl. intros HQ HI Hps Hq Hwp.
  apply (run_pool_index ids_fresh ages (fun q s => awp q Q s)) with (p := q); [| |done|done|done|done].
  - intros [a|x|upd k] t t' Ht; simpl; [by apply HQ|by apply HQ|]. intros H t2 Ht2. apply H. by trans t'.
  - intros [a|x|upd k] t It _; simpl; [done|done|]. intros H. by apply H.
Qed.

Lemma run_pool_length sch : forall w : list (api reply) * access, length (run_pool sch w).1 = length w.1.
Proof.
  induction sch as [|n sch IH]; intros w; [done|]. change (run_pool (n :: sch) w) with (run_pool sch (pool_step n w)). rewrite IH.
  unfold pool_step. destruct (w.1 !! n) as [q|]; [|done]. destruct (advance q w.2). simpl. by rewrite length_insert.
Qed.

(** The answer of a request *)
Definition result_of (q : api reply) : option (result reply) :=
  match q with Ret a => Some (Ok a) | Throw x => Some (Raise x) | Step _ _ => None end.
Lemma wp_result q r (Q : result reply -> access -> Prop) s : result_of q = Some r -> awp q Q s -> Q r s.
Proof. destruct q; simpl; intros ?; by simplify_eq. Qed.

(** C22: signing out is final.  In any pool of requests under any schedule: take
    a session that was handed out in the first part of a run; in the second part
    a request of the same user that changes the password or the MPIN, or signs
    out everywhere, begins and is answered with success; then a request of the
    third part that presents the session gets nothing, whatever it asks and
    whatever else goes on: it is answered 401, or 403 for want of a CSRF token,
    or its socket is closed. *)
Theorem signing_out_is_final (acts : list actor) (s : access) sch1 sch2 sch3
    (j k i : nat) a b text csrf (u v : Z) (p : bool) ck ek (tk vk : Z) pk c e r :
  signed dumps loads -> ids_fresh s ->
  let w1 := run_pool sch1 (pool_of acts, s) in
  let w2 := run_pool sch2 w1 in
  let w3 := run_pool sch3 w2 in
  w1.1 !! j = Some (Ret a) -> rp_cookies a = SetCookies text csrf -> reads_as loads text u v p ->
  acts !! k = Some (Request ck ek) -> disowns ck = true -> en_session ek = Some (dumps tk (session_payload u vk pk)) ->
  w1.1 !! k = pool_of acts !! k -> w2.1 !! k = Some (Ret b) -> rp_status b = 204 ->
  acts !! i = Some (Request c e) -> needs_session c = true -> en_session e = Some text ->
  w2.1 !! i = pool_of acts !! i -> w3.1 !! i ≫= result_of = Some r ->
  turned_away r.
Proof.
  intros Hsig HI w1 w2 w3 Hj Hc Hread Hk Hd Hek Hk1 Hk2 H204 Hi Hn He Hi2 Hr.
  destruct (run_pool_safe ids_fresh ages sch1 (pool_of acts) s HI (pool_safe acts s)) as (HI1 & _ & Hsafe1). fold w1 in HI1, Hsafe1.
  pose proof (run_pool_safe ids_fresh ages sch2 w1.1 w1.2 HI1 Hsafe1) as (HI2 & _ & Hsafe2).
  rewrite <-surjective_pairing in HI2, Hsafe2. fold w2 in HI2, Hsafe2.
  assert (exists x, acts !! j = Some x) as [x Hx].
  { apply lookup_lt_is_Some_2. apply lookup_lt_Some in Hj. unfold w1 in Hj. rewrite run_pool_length in Hj.
    unfold pool in Hj. simpl in Hj. by rewrite length_fmap in Hj. }
  destruct (pool_wp sch1 (pool_of acts, s) j (act dumps loads verify hash sha256 netloc cfg x) current current_later HI (pool_safe acts s))
    as (q1 & Hq1 & Hw1); [simpl; unfold pool; by rewrite list_lookup_fmap, Hx|apply wp_act|].
  fold w1 in Hq1, Hw1. rewrite Hj in Hq1. simplify_eq. destruct (Hw1 text csrf Hc) as (t & u0 & v0 & p0 & v1 & -> & Hv1 & Hle).
  apply (reads_as_issued dumps loads) in Hread as (-> & -> & ->); [|done].
  assert (exists v2, version_of u0 w2.2 = Some v2 /\ v1 < v2) as (v2 & Hv2 & Hlt).
  { destruct (pool_wp sch2 w1 k (serve dumps loads verify hash sha256 netloc cfg (ck, ek)) (disowned u0 v1)) as (q2 & Hq2 & Hw2); [|done|done| | |].
    - intros r0 t0 t' Ht H a0 Ha0 H2. destruct (H a0 Ha0 H2) as (v' & Hv' & ?). apply Ht in Hv' as (v'' & ? & ?). exists v''. split; [done|lia].
    - rewrite Hk1. unfold pool. by rewrite list_lookup_fmap, Hk.
    - apply wp_serve; [intros a0 Ha0 _ a1 [= <-] H4; by rewrite Ha0 in H4|]. by eapply disown_handler.
    - fold w2 in Hq2, Hw2. rewrite Hk2 in Hq2. simplify_eq. by apply (Hw2 b). }
  destruct (pool_wp sch3 w2 i (serve dumps loads verify hash sha256 netloc cfg (c, e)) (fun r _ => turned_away r)) as (q3 & Hq3 & Hw3); [done|done|done| | |].
  - rewrite Hi2. unfold pool. by rewrite list_lookup_fmap, Hi.
  - apply wp_serve; [intros a0 Ha0 Hc0; split; [rewrite Ha0; set_solver|done]|]. eapply stale_handler; [done|done| |done|done]. lia.
  - fold w3 in Hq3, Hw3. rewrite Hq3 in Hr. simpl in Hr. exact (wp_result q3 r _ _ Hr Hw3).
Qed.
End facts.

(** ** On the small workspace *)

Lemma demo_ids_fresh : ids_fresh demo_access.
Proof.
  intros u [r Hr]. simpl in *. repeat (apply lookup_insert_Some in Hr as [[<- _]|[_ Hr]]; [lia|]). apply lookup_singleton_Some in Hr as [<- _]. lia.
Qed.

(** Ann verifies her MPIN, signs out everywhere, and the session is used again. *)
Lemma signing_out_witness : turned_away (Raise (HTTPException 401 "Session expired")).
Proof.
  pose (acts := [Request (VerifyMpin "123456") (browser (Some "ann0-half")); Request LogoutEverywhere (browser (Some "ann0"));
                 Request Me (browser (Some "ann0"))]).
  apply (signing_out_is_final demo_dumps demo_loads demo_verify demo_hash demo_sha256 demo_netloc demo_cfg acts demo_access
    (replicate 20 0%nat) (replicate 20 1%nat) (replicate 20 2%nat) 0 1 2
    {| rp_status := 204; rp_body := JNull; rp_cookies := SetCookies "ann0" "token" |}
    {| rp_status := 204; rp_body := JNull; rp_cookies := DeleteCookies |} "ann0" "token" 10 0 true
    LogoutEverywhere (browser (Some "ann0")) 0 0 true Me (browser (Some "ann0")) (Raise (HTTPException 401 "Session expired"))
    demo_signed demo_ids_fresh).
  - vm_compute. reflexivity.
  - reflexivity.
  - by exists 0.
  - reflexivity.
  - reflexivity.
  - reflexivity.
  - apply run_pool_other. rewrite elem_of_replicate; by intros [? _].
  - vm_compute. reflexivity.
  - reflexivity.
  - reflexivity.
  - reflexivity.
  - reflexivity.
  - etrans; apply run_pool_other; rewrite elem_of_replicate; by intros [? _].
  - vm_compute. reflexivity.
Defined.
