(* ===== verification/MembersFacts.v ===== *)
(** * Who belongs to an organisation

    An org keeps an admin ([org_keeps_an_admin]), and nobody becomes a member of
    an existing org but by an open invite ([new_members_were_invited]), in any
    pool of requests of [Members] under any schedule. *)

From S2P Require Import Prelude PyStr PyFloat Db PyJson Limiter Mpin Prog PortalDb PortalCommon Session Members SessionFacts.

(** ** Steps of a pool *)

Section pools.
Context {S : Type}.

(** What a program answers, whatever the others do *)
Fixpoint yields {A} (P : A -> Prop) (p : prog S A) : Prop :=
  match p with Ret a => P a | Throw _ => True | Step upd k => forall s, yields P (k s) end.

Lemma yields_any {A} (p : prog S A) : yields (fun _ => True) p.
Proof. induction p; simpl; auto. Qed.
Lemma yields_bind {A B} P (p : prog S A) (f : A -> prog S B) Q :
  yields P p -> (forall a, P a -> yields Q (f a)) -> yields Q (pbind p f).
Proof. intros Hp Hf. induction p as [a|x|upd k IH]; simpl in *; auto. Qed.
Lemma makes_bind_yields {A B} I G P (p : prog S A) (f : A -> prog S B) :
  yields P p -> makes I G p -> (forall a, P a -> makes I G (f a)) -> makes I G (pbind p f).
Proof.
  intros Hy Hp Hf. induction p as [a|x|upd k IH]; simpl in *; [auto|done|]. intros s Hs. destruct (Hp s Hs). auto.
Qed.

(** Request [i] makes only moves of [G i]. *)
Definition all_make {A} (I : S -> Prop) (G : nat -> S -> S -> Prop) (ps : list (prog S A)) : Prop :=
  forall i p, ps !! i = Some p -> makes I (G i) p.

Lemma pool_step_makes {A} I G i (ps : list (prog S A)) s : I s -> all_make I G ps ->
  all_make I G (pool_step i (ps, s)).1 /\ ((pool_step i (ps, s)).2 = s \/ G i s (pool_step i (ps, s)).2).
Proof.
  intros Hs Hps. unfold pool_step. simpl. destruct (ps !! i) as [p|] eqn:Ep; [|by split; [|left]].
  pose proof (Hps i p Ep) as Hp. destruct p as [a|x|upd k]; simpl.
  1,2: split; [|by left]; by rewrite list_insert_id.
  destruct (Hp s Hs) as [HG Hk]. split; [|by right]. intros j q Hj. destruct (decide (j = i)) as [->|Hne].
  - rewrite list_lookup_insert_eq in Hj by by eapply lookup_lt_Some. by simplify_eq.
  - rewrite list_lookup_insert_ne in Hj by done. by apply Hps.
Qed.

(** The move with which something came about *)
Lemma pool_transition {A} (I : S -> Prop) G (P : S -> Prop) `{!forall s, Decision (P s)} schedule : forall (ps : list (prog S A)) s,
  (forall i s s', I s -> G i s s' -> I s') -> I s -> all_make I G ps -> ~ P s -> P (run_pool schedule (ps, s)).2 ->
  exists n i a b, schedule !! n = Some i /\ (run_pool (take n schedule) (ps, s)).2 = a /\
    (run_pool (take (Datatypes.S n) schedule) (ps, s)).2 = b /\ I a /\ ~ P a /\ P b /\ G i a b.
Proof.
  induction schedule as [|i schedule IH]; intros ps s HI Hs Hps Hno Hyes; [done|].
  change (run_pool (i :: schedule) (ps, s)) with (run_pool schedule (pool_step i (ps, s))) in Hyes.
  destruct (pool_step_makes I G i ps s Hs Hps) as [Hps' Hmove]. destruct (pool_step i (ps, s)) as [ps' s'] eqn:E. simpl in *.
  destruct (decide (P s')) as [Hp|Hp].
  - exists O, i, s, s'. destruct Hmove as [->|HG]; [done|]. split_and!; try done. change (take 1 (i :: schedule)) with [i]. simpl. by rewrite E.
  - destruct (IH ps' s') as (n & j & a & b & Hn & Ha & Hb & ?); [done|by destruct Hmove as [->|?]; eauto|done|done|done|].
    exists (Datatypes.S n), j, a, b. split; [done|].
    change (run_pool (take (Datatypes.S n) (i :: schedule)) (ps, s)) with (run_pool (take n schedule) (pool_step i (ps, s))).
    change (run_pool (take (Datatypes.S (Datatypes.S n)) (i :: schedule)) (ps, s)) with (run_pool (take (Datatypes.S n) schedule) (pool_step i (ps, s))).
    by rewrite E.
Qed.

Lemma pool_keeps {A} (J : S -> Prop) schedule : forall (ps : list (prog S A)) s,
  all_make (fun _ => True) (fun _ s s' => J s -> J s') ps -> J s -> J (run_pool schedule (ps, s)).2.
Proof.
  induction schedule as [|i schedule IH]; intros ps s Hps Hs; [done|].
  change (run_pool (i :: schedule) (ps, s)) with (run_pool schedule (pool_step i (ps, s))).
  destruct (pool_step_makes _ _ i ps s Logic.I Hps) as [Hps' Hmove]. destruct (pool_step i (ps, s)) as [ps' s']. simpl in *.
  apply IH; [done|]. destruct Hmove as [->|?]; auto.
Qed.
End pools.

(** ** Steps that leave the memberships, the orgs and the invites alone *)

Definition same_roster (s s' : access) : Prop :=
  roster s' = roster s /\ next_id (x_orgs s') = next_id (x_orgs s) /\
  forall o, is_Some (rows (x_orgs s') !! o) <-> is_Some (rows (x_orgs s) !! o).
Lemma same_roster_eq s s' : roster s' = roster s -> x_orgs s' = x_orgs s -> same_roster s s'.
Proof. intros Er Eo. split; [done|]. by rewrite Eo. Qed.

Lemma makes_idle {A} (I : access -> Prop) (G : access -> access -> Prop) (p : api A) :
  (forall s s', same_roster s s' -> G s s') -> idle p -> makes I G p.
Proof. intros H. apply makes_impl; [done|]. intros s s' _ (_ & _ & ? & ? & _). by apply H, same_roster_eq. Qed.

Lemma insert_user_same email ph name s : same_roster s (exec (insert_user email ph name) s).
Proof. unfold exec, insert_user. destruct (user_by_email _ s); by apply same_roster_eq. Qed.
Lemma makes_bump (I : access -> Prop) (G : access -> access -> Prop) u ph :
  (forall s s', same_roster s s' -> G s s') -> makes I G (bump_version u ph).
Proof. intros H. apply makes_stmt. intros s _. apply H. unfold exec. destruct (x_users s !! u); by apply same_roster_eq. Qed.

(** ** Blocks *)

Lemma admins_elem o u s : u ∈ admins o s <-> roster s !! (o, u) = Some RAdmin.
Proof.
  unfold admins, roster. rewrite list_elem_of_omap. split.
  - intros ([[o' u'] r] & Hin%elem_of_map_to_list & H). simpl in H. destruct (Z.eqb_spec o' o) as [->|]; [|done]. simpl in H.
    case_bool_decide; by simplify_eq.
  - intros H. exists ((o, u), RAdmin). split; [by apply elem_of_map_to_list|]. simpl. by rewrite Z.eqb_refl.
Qed.

Lemma NoDup_omap {A B} (f : A -> option B) l :
  (forall x y z, f x = Some z -> f y = Some z -> x = y) -> NoDup l -> NoDup (omap f l).
Proof.
  intros Hf. induction 1 as [|x l Hx Hl IH]; simpl; [constructor|]. destruct (f x) as [z|] eqn:E; [|done]. constructor; [|done].
  intros (y & Hy & Ey)%list_elem_of_omap. by rewrite (Hf x y z E Ey) in Hx.
Qed.

Lemma other_admin o u s : roster s !! (o, u) = Some RAdmin -> length (admins o s) <> 1%nat ->
  exists u', u' <> u /\ roster s !! (o, u') = Some RAdmin.
Proof.
  intros Hu Hl. assert (NoDup (admins o s)) as Hnd.
  { apply NoDup_omap; [|apply NoDup_map_to_list]. intros [[o1 u1] r1] [[o2 u2] r2] z. simpl.
    destruct (Z.eqb_spec o1 o); [|done]. destruct (Z.eqb_spec o2 o); [|done]. simpl. repeat case_bool_decide; intros; by simplify_eq. }
  apply admins_elem in Hu. destruct (admins o s) as [|u1 [|u2 l]] eqn:E; [by apply not_elem_of_nil in Hu|done|].
  apply NoDup_cons in Hnd as [H12 _]. destruct (decide (u1 = u)) as [->|Hne].
  - exists u2. split; [set_solver|]. apply admins_elem. rewrite E. set_solver.
  - exists u1. split; [done|]. apply admins_elem. rewrite E. set_solver.
Qed.

(** An org that exists has an admin. *)
Definition administered (o : Z) (s : access) : Prop :=
  is_Some (rows (x_orgs s) !! o) -> exists u, roster s !! (o, u) = Some RAdmin.
Definition keeps_admin (o : Z) (s s' : access) : Prop := administered o s -> administered o s'.

Lemma keeps_admin_same o s s' : same_roster s s' -> keeps_admin o s s'.
Proof. intros (Er & _ & Eo). unfold keeps_admin, administered. by rewrite Er, Eo. Qed.

Lemma keeps_admin_refl o s : keeps_admin o s s.
Proof. by intros H. Qed.

(** The orgs stay, and so do the admins or some of them. *)
Lemma keeps_admin_by o s s' : (is_Some (rows (x_orgs s') !! o) -> is_Some (rows (x_orgs s) !! o)) ->
  (forall u, roster s !! (o, u) = Some RAdmin -> exists u', roster s' !! (o, u') = Some RAdmin) -> keeps_admin o s s'.
Proof. intros Ho Hr H Hs. destruct (H (Ho Hs)) as [u Hu]. by eapply Hr. Qed.

Lemma admin_other o org u r s s' : org <> o -> x_orgs s' = x_orgs s ->
  roster s' = <[(org, u) := r]> (roster s) \/ roster s' = delete (org, u) (roster s) -> keeps_admin o s s'.
Proof.
  intros Hne Eo Er. apply keeps_admin_by; [by rewrite Eo|]. intros u' Hu'. exists u'.
  destruct Er as [->| ->]; [rewrite lookup_insert_ne by congruence|rewrite lookup_delete_ne by congruence]; done.
Qed.

Lemma patch_keeps_admin o org u r s : keeps_admin o s (exec (atomically (patch_block org u r)) s).
Proof.
  unfold exec, atomically, patch_block, bind, gets, mdeny, raise, modify, ret. simpl.
  destruct (p_members (x_portal s) !! (org, u)) as [old|] eqn:Eold; [|by apply keeps_admin_refl].
  destruct (bool_decide (old = RAdmin) && negb (bool_decide (r = RAdmin)) && (length (admins org s) =? 1)%nat) eqn:Eg; [by apply keeps_admin_refl|].
  match goal with |- context [snd ?x] => assert (exists s', snd x = s' /\ x_orgs s' = x_orgs s /\ roster s' = <[(org, u) := r]> (roster s)) as (s' & E & Eo & Er) end.
  { eexists. split; [done|]. by destruct (bool_decide (r = RInvestor)). }
  simpl in E. rewrite E. clear E. destruct (decide (org = o)) as [->|Hne]; [|by eapply admin_other; eauto].
  apply keeps_admin_by; [by rewrite Eo|]. intros u' Hu'. rewrite Er. destruct (decide (u' = u)) as [->|Hne].
  - unfold roster in Hu'. rewrite Eold in Hu'. simplify_eq. destruct (decide (r = RAdmin)) as [->|Hr]; [exists u; by rewrite lookup_insert_eq|].
    rewrite bool_decide_true, bool_decide_false in Eg by done. simpl in Eg. apply Nat.eqb_neq in Eg.
    destruct (other_admin o u s Eold Eg) as (u2 & ? & ?). exists u2. rewrite lookup_insert_ne by congruence. done.
  - exists u'. rewrite lookup_insert_ne by congruence. done.
Qed.

Lemma remove_keeps_admin o org u s : keeps_admin o s (exec (atomically (remove_block org u)) s).
Proof.
  unfold exec, atomically, remove_block, bind, gets, mdeny, raise, modify, ret. simpl.
  destruct (p_members (x_portal s) !! (org, u)) as [old|] eqn:Eold; [|by apply keeps_admin_refl].
  destruct (bool_decide (old = RAdmin) && (length (admins org s) =? 1)%nat) eqn:Eg; [by apply keeps_admin_refl|]. simpl.
  destruct (decide (org = o)) as [->|Hne]; [|apply (admin_other o org u RAdmin); [done|done|by right]].
  apply keeps_admin_by; [done|]. intros u' Hu'. unfold roster. simpl. destruct (decide (u' = u)) as [->|Hne].
  - unfold roster in Hu'. rewrite Eold in Hu'. simplify_eq. rewrite bool_decide_true in Eg by done. simpl in Eg. apply Nat.eqb_neq in Eg.
    destruct (other_admin o u s Eold Eg) as (u2 & ? & ?). exists u2. rewrite lookup_delete_ne by congruence. done.
  - exists u'. rewrite lookup_delete_ne by congruence. done.
Qed.


Section facts.
Context (dumps : Z -> json -> string) (loads : Z -> string -> option json).
Context (verify : string -> string -> bool) (hash : string -> string -> string) (sha256 : string -> string).
Context (netloc : string -> string) (cfg : ApiConfig).

(** Who sends the request: its cookie is a full session of this user. *)
Definition bearer (e : envelope) (user : Z) : Prop :=
  exists now text info, en_session e = Some text /\ unpack_at loads now text = Ok (Some info) /\ si_user info = user /\ si_pin info = true.

Lemma yields_half e : yields (fun info => exists now text, en_session e = Some text /\ unpack_at loads now text = Ok (Some info))
  (require_half_session loads e).
Proof.
  unfold require_half_session. destruct (en_session e) as [[|c0 rest]|]; [done| |done].
  intros s. unfold of_result. simpl. destruct (unpack_at _ _ _) as [[info|]|x] eqn:E; simpl; [|done..].
  intros s2. simpl. case_bool_decide; simpl; [|done]. by eexists _, _.
Qed.
Lemma yields_user e : yields (bearer e) (user_of loads e).
Proof.
  eapply yields_bind; [apply yields_half|]. intros info (now & text & Ht & Hu). destruct (si_pin info) eqn:Ep; [|done]. by exists now, text, info.
Qed.

(** What a step of a request does to orgs and memberships *)
Inductive roster_move (c : call) (e : envelope) (s s' : access) : Prop :=
  | stays : same_roster s s' -> roster_move c e s s'
  | creates u og : roster s' = <[(next_id (x_orgs s), u) := RAdmin]> (roster s) -> x_orgs s' = add_row og (x_orgs s) ->
      roster_move c e s s'
  | joins token u : c = JoinOrg token -> bearer e u -> s' = exec (atomically (join_block sha256 u token)) s -> roster_move c e s s'
  | deletes org : s' = delete_org_rows org s -> roster_move c e s s'
  | patches org u r : s' = exec (atomically (patch_block org u r)) s -> roster_move c e s s'
  | removes org u : s' = exec (atomically (remove_block org u)) s -> roster_move c e s s'.

(** A route made of idle parts and of steps that change no membership *)
Ltac idle_then :=
  repeat first
    [ exact Logic.I
    | apply makes_idle; [by constructor|solve [unfold logout, fetched; idle_steps]]
    | apply makes_bind; [|intros ?] | apply makes_catch; [|intros ?] | apply makes_bump; by constructor
    | apply makes_stmt; intros ? _; apply stays; first [apply insert_user_same | by apply same_roster_eq]
    | progress cbv zeta beta | case_match ].

Lemma create_moves c e name u : makes (fun _ => True) (roster_move c e)
  (stmt (atomically (fun s => let id := next_id (x_orgs s) in
    (Ok id, set_members (insert (id, u) RAdmin)
      (set_orgs (add_row {| og_name := name; og_copying_enabled := true; og_dry_run := false; og_created_at := db_now s |}
                   (x_orgs s)) s))))).
Proof. apply makes_stmt. intros s _. by eapply creates. Qed.

Lemma join_moves e token : makes (fun _ => True) (roster_move (JoinOrg token) e) (join_org loads sha256 e token).
Proof.
  unfold join_org. eapply makes_bind_yields; [apply yields_user|idle_then|]. intros u Hu.
  apply makes_bind; [apply makes_stmt; intros s _; by eapply joins|]. intros [org role]. idle_then.
Qed.

Lemma handler_moves c e : makes (fun _ => True) (roster_move c e) (handler dumps loads verify hash sha256 netloc cfg c e).
Proof.
  destruct c; unfold handler; try apply join_moves;
  cbv delta [register login logout change_password logout_everywhere my_sign_ins sign_ins me set_mpin verify_mpin
    reset_mpin change_mpin create_org get_org patch_org delete_org list_members patch_member remove_member create_invite
    list_invites revoke_invite websocket_endpoint _unpack_session session_version_matches] beta.
  all: try idle_then.
  - apply create_moves.
  - apply makes_stmt. intros s0 _. apply stays. split; [done|]. split; [done|]. intros o. simpl. apply lookup_alter_is_Some.
  - apply makes_stmt. intros s0 _. by eapply deletes.
  - apply makes_stmt. intros s0 _. by eapply patches.
  - apply makes_stmt. intros s0 _. by eapply removes.
  - apply makes_stmt. intros s0 _. apply stays. unfold exec. repeat case_match; by apply same_roster_eq.
  - apply makes_stmt. intros s0 _. apply stays. unfold exec. repeat case_match; by apply same_roster_eq.
Qed.

(** Request [i] of a pool makes the moves of its call; time makes none. *)
Definition actor_move (acts : list actor) (i : nat) (s s' : access) : Prop :=
  match acts !! i with Some (Request c e) => roster_move c e s s' | _ => same_roster s s' end.

Lemma pool_moves acts : all_make (fun _ => True) (actor_move acts) (pool dumps loads verify hash sha256 netloc cfg acts).
Proof.
  intros i p Hp. unfold pool in Hp. apply list_lookup_fmap_Some in Hp as (x & -> & Hx). unfold actor_move. rewrite Hx.
  destruct x as [c e|n m]; simpl act.
  - unfold serve. destruct (csrf_dispatch _ _ _); [done|]. apply handler_moves.
  - unfold elapse. apply makes_bind; [|done]. apply makes_stmt. intros s _. by apply same_roster_eq.
Qed.

(** *** An admin remains *)

Lemma join_keeps_admin o u t s : keeps_admin o s (exec (atomically (join_block sha256 u t)) s).
Proof.
  unfold exec, atomically, join_block, bind, gets, mdeny, raise, modify, ret. simpl.
  destruct (head _) as [[id iv]|]; [|by apply keeps_admin_refl]. simpl. case_bool_decide as Hp; [by apply keeps_admin_refl|]. simpl.
  apply keeps_admin_by; [done|]. intros u' Hu'. exists u'. unfold roster in *. simpl. rewrite lookup_insert_ne; [done|].
  intros E. apply Hp. rewrite E. by eexists.
Qed.

Lemma delete_keeps_admin o org s : keeps_admin o s (delete_org_rows org s).
Proof.
  destruct (decide (org = o)) as [->|Hne].
  - intros _ H. simpl in H. rewrite lookup_delete_eq in H. by destruct H.
  - apply keeps_admin_by; [by simpl; rewrite lookup_delete_ne|]. intros u Hu. exists u. unfold roster. simpl.
    apply map_lookup_filter_Some. split; [done|]. simpl. congruence.
Qed.

Lemma create_keeps_admin o u og s s' : roster s' = <[(next_id (x_orgs s), u) := RAdmin]> (roster s) -> x_orgs s' = add_row og (x_orgs s) ->
  keeps_admin o s s'.
Proof.
  intros Er Eo. destruct (decide (o = next_id (x_orgs s))) as [->|Hne]; [intros _ _; exists u; by rewrite Er, lookup_insert_eq|].
  apply keeps_admin_by; [rewrite Eo; simpl; by rewrite lookup_insert_ne|]. intros u' Hu'. exists u'. by rewrite Er, lookup_insert_ne by congruence.
Qed.

Lemma move_keeps_admin o c e s s' : roster_move c e s s' -> keeps_admin o s s'.
Proof.
  intros [H|u og Er Eo|token u _ _ ->|org ->|org u r ->|org u ->].
  - by apply keeps_admin_same.
  - by eapply create_keeps_admin.
  - apply join_keeps_admin.
  - apply delete_keeps_admin.
  - apply patch_keeps_admin.
  - apply remove_keeps_admin.
Qed.

(** C23: an org keeps an admin.  Whatever requests run together, under any
    schedule of their statements (admins demoting and removing each other,
    leaving, joining, founding and deleting orgs): if every org had an admin at
    the start, every org that is there at the end has one. *)
Theorem org_keeps_an_admin (acts : list actor) schedule (s : access) :
  (forall o, administered o s) ->
  forall o, administered o (run_pool schedule (pool dumps loads verify hash sha256 netloc cfg acts, s)).2.
Proof.
  intros Hs o. apply (pool_keeps (administered o)); [|done]. intros i p Hp. eapply makes_impl; [| |by apply (pool_moves acts i p)]; [done|].
  intros s1 s2 _. unfold actor_move. destruct (acts !! i) as [[c e|n m]|]; [apply move_keeps_admin|apply keeps_admin_same..].
Qed.

(** *** Who comes in *)

Lemma patch_same_keys org u r s : let s' := exec (atomically (patch_block org u r)) s in
  x_orgs s' = x_orgs s /\ forall k, is_Some (roster s' !! k) <-> is_Some (roster s !! k).
Proof.
  unfold exec, atomically, patch_block, bind, gets, mdeny, raise, modify, ret. simpl.
  destruct (p_members (x_portal s) !! (org, u)) as [old|] eqn:Eold; [|done]. destruct (_ && _ && _); [done|]. simpl.
  assert (forall k, is_Some (<[(org, u):=r]> (roster s) !! k) <-> is_Some (roster s !! k)) as H.
  { intros k. destruct (decide (k = (org, u))) as [->|Hne]; [|by rewrite lookup_insert_ne]. rewrite lookup_insert_eq. split; intros _; by eexists. }
  by destruct (bool_decide (r = RInvestor)).
Qed.

Lemma remove_keys org u s : let s' := exec (atomically (remove_block org u)) s in
  x_orgs s' = x_orgs s /\ forall k, is_Some (roster s' !! k) -> is_Some (roster s !! k).
Proof.
  unfold exec, atomically, remove_block, bind, gets, mdeny, raise, modify, ret. simpl.
  destruct (p_members (x_portal s) !! (org, u)) as [old|] eqn:Eold; [|done]. destruct (_ && _); [done|]. simpl.
  split; [done|]. intros k [r Hk]. unfold roster in *. simpl in Hk. apply lookup_delete_Some in Hk as [_ ?]. by eexists.
Qed.

(** The invite that a join spends, and what it gives *)
Definition admitted (token : string) (o u : Z) (a b : access) : Prop :=
  exists id iv iv', rows (x_invites a) !! id = Some iv /\ open_invite sha256 token a iv = true /\ iv_org iv = o /\
    roster b !! (o, u) = Some (iv_role iv) /\ rows (x_invites b) !! id = Some iv' /\ iv_consumed_by iv' = Some u /\
    is_Some (iv_consumed_at iv').

Lemma join_admits u token s o u' : let s' := exec (atomically (join_block sha256 u token)) s in
  x_orgs s' = x_orgs s /\ (~ is_Some (roster s !! (o, u')) -> is_Some (roster s' !! (o, u')) -> u' = u /\ admitted token o u s s').
Proof.
  unfold exec, atomically, join_block, bind, gets, mdeny, raise, modify, ret. simpl.
  destruct (head _) as [[id iv]|] eqn:Eh; simpl; [|done]. case_bool_decide as Hp; simpl; [done|]. split; [done|].
  intros Hno [r Hr]. unfold roster in *. simpl in Hr. destruct (decide ((iv_org iv, u) = (o, u'))) as [E|Hne].
  - simplify_eq. split; [done|]. apply head_Some in Eh as [l El].
    assert ((id, iv) ∈ List.filter (fun kv : Z * InviteRow => open_invite sha256 token s kv.2) (map_to_list (rows (x_invites s)))) as Hin
      by (rewrite El; apply list_elem_of_here).
    apply list_elem_of_In, filter_In in Hin as [Hin Hopen]. apply list_elem_of_In, elem_of_map_to_list in Hin.
    exists id, iv. eexists. split_and!; [done|done|done| | | |]; unfold roster; simpl; rewrite ?lookup_insert_eq; done.
  - rewrite lookup_insert_ne in Hr by done. destruct Hno. by eexists.
Qed.

(** C24: nobody slips into an org.  If someone is a member of an existing org
    after a run of any requests, and was not before, then at some moment of the
    run a join request with a full session of theirs presented the token of an
    invite of that org which was neither spent nor expired; it gave them the
    invite's role, and the invite is spent from then on. *)
Theorem new_members_were_invited (acts : list actor) schedule (s : access) (o u : Z) :
  let at_ n := (run_pool (take n schedule) (pool dumps loads verify hash sha256 netloc cfg acts, s)).2 in
  o < next_id (x_orgs s) -> roster s !! (o, u) = None -> is_Some (roster (at_ (length schedule)) !! (o, u)) ->
  exists n i token e, schedule !! n = Some i /\ acts !! i = Some (Request (JoinOrg token) e) /\ bearer e u /\
    admitted token o u (at_ n) (at_ (S n)).
Proof.
  intros at_ Ho Hno Hyes. unfold at_ in Hyes. rewrite take_ge in Hyes by done.
  destruct (pool_transition (fun s => o < next_id (x_orgs s)) (actor_move acts) (fun s => is_Some (roster s !! (o, u))) schedule
    (pool dumps loads verify hash sha256 netloc cfg acts) s) as (n & i & a & b & Hn & Ha & Hb & HI & Hna & Hpb & Hmove); [|done| | |done|].
  - intros i s1 s2 H1 Hm. unfold actor_move in Hm. destruct (acts !! i) as [[c e|n m]|]; [|by destruct Hm as (_ & -> & _)..].
    destruct Hm as [(_ & -> & _)|u0 og _ ->|token u0 _ _ ->|org ->|org u0 r ->|org u0 ->]; simpl; [done|lia| |done| |].
    + by destruct (join_admits u0 token s1 o u) as [-> _].
    + by destruct (patch_same_keys org u0 r s1) as [-> _].
    + by destruct (remove_keys org u0 s1) as [-> _].
  - intros i p Hp. eapply makes_impl; [| |by apply (pool_moves acts i p)]; done.
  - rewrite Hno. by intros [? ?].
  - exists n, i. unfold actor_move in Hmove. unfold at_. rewrite Ha, Hb.
    destruct (acts !! i) as [[c e|? ?]|]; [|by destruct Hmove as (E & _); rewrite E in Hpb..].
    destruct Hmove as [(E & _)|u0 og E Eo|token u0 -> Hu0 E|org E|org u0 r E|org u0 E].
    + by rewrite E in Hpb.
    + rewrite E, lookup_insert_ne in Hpb; [done|]. intros ?. simplify_eq. lia.
    + rewrite E in Hpb. destruct (join_admits u0 token a o u) as [_ Hj]. destruct (Hj Hna Hpb) as [-> Had].
      exists token, e. rewrite E. done.
    + rewrite E in Hpb. destruct Hpb as [r Hr]. unfold roster in Hr. simpl in Hr. apply map_lookup_filter_Some in Hr as [Hr _].
      destruct Hna. by exists r.
    + rewrite E in Hpb. destruct (patch_same_keys org u0 r a) as [_ Hk]. by apply Hk in Hpb.
    + rewrite E in Hpb. destruct (remove_keys org u0 a) as [_ Hk]. by apply Hk in Hpb.
Qed.
End facts.

(** ** On the small workspace *)

Lemma demo_administered o : administered o demo_access.
Proof.
  intros [r Hr]. simpl in Hr. apply lookup_singleton_Some in Hr as [<- _]. by exists 10.
Qed.

(** Two admins who remove each other at once *)
Lemma org_keeps_an_admin_witness :
  administered 1 (run_pool (turns 7 [0; 1; 0; 1])%nat
    (demo_pool [Request (RemoveMember 1 20) (browser (Some "ann0")); Request (RemoveMember 1 10) (browser (Some "bob0"))], demo_access)).2.
Proof. apply (org_keeps_an_admin demo_dumps demo_loads demo_verify demo_hash demo_sha256 demo_netloc demo_cfg), demo_administered. Defined.

(** Only one of them goes. *)
Example one_admin_stays :
  let w := demo_run [Request (RemoveMember 1 20) (browser (Some "ann0")); Request (RemoveMember 1 10) (browser (Some "bob0"))]
             (turns 3 [0; 1; 0; 1])%nat in
  (answer_of <$> w.1, admins 1 w.2) = ([Some (204, KeepCookies); Some (409, KeepCookies)], [10]).
Proof. vm_compute. reflexivity. Qed.

Lemma new_members_witness :
  exists n i token e, replicate 20 O !! n = Some i /\ [Request (JoinOrg "welcome") (browser (Some "cid0"))] !! i = Some (Request (JoinOrg token) e) /\
    bearer demo_loads e 30 /\
    admitted demo_sha256 token 1 30
      (run_pool (take n (replicate 20 O)) (demo_pool [Request (JoinOrg "welcome") (browser (Some "cid0"))], demo_access)).2
      (run_pool (take (S n) (replicate 20 O)) (demo_pool [Request (JoinOrg "welcome") (browser (Some "cid0"))], demo_access)).2.
Proof.
  apply (new_members_were_invited demo_dumps demo_loads demo_verify demo_hash demo_sha256 demo_netloc demo_cfg
    [Request (JoinOrg "welcome") (browser (Some "cid0"))] (replicate 20 O) demo_access 1 30).
  - reflexivity.
  - reflexivity.
  - vm_compute. by eexists.
Defined.
